(* ===== verification/_CoqProject ===== *)
-Q . S2P
Prelude.v
Bitvec.v
BitvecTest.v
BitExpr.v
Varint.v
Ctype.v
Int64.v
Atoi.v
RowSet.v
Keyword.v
Token.v
Complete.v
Record.v
RecordValue.v
RecordCompare.v
MakeRecord.v
Utf.v
Like.v
MemJournal.v
Hash.v
UnixLock.v
Page.v
PageLayout.v
PageSpace.v
PageParse.v
PageDefrag.v
PageCells.v
PageSpec.v
Wal.v
WalHash.v
WalIndex.v
WalSpec.v
WalLog.v
WalFrame.v
WalRecover.v
WalWrite.v
WalDurable.v
WalCrash.v
WalSort.v
WalIter.v
WalCkpt.v
WalFile.v
WalBackfill.v
WalRead.v
WalKeep.v
WalSync.v
WalBegin.v
WalSystem.v
WalIsolation.v
WalSnapshot.v
WalStale.v
ShmLock.v
Journal.v
PagerTxn.v
JournalFile.v
JournalPlay.v
JournalReplay.v
JournalRestore.v
JournalWrite.v
JournalSync.v
PagerInv.v
PagerWrite.v
PagerCommit.v
PagerAtomic.v
PagerRollback.v
PagerSector.v
