(* ===== verification/Prelude.v ===== *)
(** * The C core of the repository: SQLite 3.8.5 as vendored by go-sqlite3

    The Pinger service is written in Go; its C code is the SQLite amalgamation
    src/Godeps/_workspace/src/github.com/mattn/go-sqlite3/sqlite3-binding.c,
    which the database/sql driver beside it compiles.  This library models
    self-contained components of that file and proves them correct.  All
    source references below are to its sections, by the name of the original file.

    ** Reading the models

    A C function is a Rocq function of the same name into [option]: [None]
    stands for what C must never do (an access outside an array, a null or freed pointer
    followed, a signed overflow, a failed assert) and for a loop that
    outlives its fuel.  A theorem that a call is [Some _] therefore proves
    memory safety and termination together with the value.  Memory is a list of
    bytes (integers 0 to 255) from a pointer on, or a finite map from pointers
    to records where the code links objects.  Machine integers are [Z] with the
    reductions [u8] to [u64] of unsigned arithmetic written out and signed arithmetic
    checked ([cint], [cint64]).  Allocation takes its outcomes from an explicit list ([Mem]),
    so theorems cover every pattern of failures unless they say
    otherwise.  Fuel is computed from the length of the input or the size of
    the heap and is never a hypothesis.

    ** The files

    - Prelude: computations, arrays indexed by [Z], machine integers, the
      allocator, shared lemmas and the hint database [ubits].
    - Bitvec, BitvecTest (bitvec.c): the sparse bitmap with its three
      representations, and its built-in self test.  Set and clear change the one bit
      asked for; the self test passes on every program.
    - BitExpr, Varint (util.c): variable-length integers.  BitExpr decides
      equalities of shift-and-mask expressions; the unrolled decoder equals the format's
      definition, and encoding round-trips.
    - Ctype (global.c, util.c): character tables, case-insensitive comparison.
    - Int64 (util.c): overflow-checked arithmetic, logarithmic estimates.
    - Atoi (util.c): text to integers, hexadecimal blobs, quoted names.
    - RowSet (rowset.c): sets of rowids: merge sort, trees, tests by batch.
    - Keyword (keywordhash.h), Token (tokenize.c), Complete (complete.c): the
      lexical layer: the keyword hash, the tokenizer on any zero-terminated text, and
      sqlite3_complete as an automaton on tokens.
    - Record, RecordValue, RecordCompare (vdbeaux.c), MakeRecord (vdbe.c): the
      record format: the general and the reference comparison give the order on values, the
      specialised ones too but for records of one field; making a record is refused by its exact size, and
      unpacking it again is the identity.  Floating-point
      comparison and collating functions are parameters with their laws.
    - Utf (utf.c): UTF-8 and UTF-16: conversion in place, characters counted.
    - Like (func.c): LIKE and GLOB decide the language of their pattern.
    - MemJournal (memjournal.c): the in-memory journal refines a byte
      sequence, whichever allocations fail.
    - Hash (hash.c): the hash table refines a mapping from case-folded names;
      its linked structure is an invariant; failed allocations are harmless.
    - UnixLock (os_unix.c): the file locks.  Calls are programs whose system
      calls interleave between processes ([sys_step]); fcntl and close are the class [PosixLocks] with
      the laws POSIX documents, implemented by [LockTable].  Mutual exclusion and the
      backing of every state by locks hold in runs in which no request to remove a lock fails ([reached]); free
      locks are granted; mixing read-only and other unix-excl connections breaks exclusion.
    - ShmLock (os_unix.c): the locks of the wal-index on the shared-memory file, in the same way: exclusion between
      connections, and truncation of the file by the first process only.

    - Page (btree.c): B-tree pages as arrays of bytes, and the routines that
      allocate, free, defragment, insert, delete, assemble, initialise and
      parse.  PageLayout reads such bytes as a sequence of cells, free blocks and
      fragments; PageSpace and PageDefrag show that the routines keep that
      layout, PageParse that the two ways to size a cell agree, PageCells and PageSpec
      that a page is a list of cells and that its bytes determine its fields.

    - Wal (wal.c): the wal-index in shared memory: hash tables over the page
      numbers of the frames, rollback, savepoints, two copies of a header.
      WalHash treats one table, WalIndex the sequence of frames, WalSpec the refinement of a log of committed and
      pending frames and the stability of what readers see.  WalLog is the log file:
      sqlite3WalFrames from behind its call of walRestartLog on ([walFrames_write]) and walIndexRecover, with the result of every call of the operating system an
      input; it keeps the contents that the file had since the last sync.  WalFrame shows that the chain of checksummed frames is encoded and
      decoded without loss, WalRecover that recovery rebuilds the index, WalWrite and
      WalDurable that file and index stay in step whichever call fails, WalCrash that a process that stops at any write leaves whole transactions.
      WalSync is about crashes of the machine, which leave each byte and the size as at some moment since the
      last sync: a commit with synchronous=FULL survives, except a padded one that ends at a sector boundary.
    - WalSort, WalIter (wal.c): the merge sort of the frames and the iterator of a
      checkpoint, which visits every page once with its last frame.  WalCkpt is the
      checkpoint, WalRead read transactions, restarts of the log and the calls, sqlite3WalFrames as a whole among them; the
      results of locks are inputs, but the VFS ([shm_lock_exclusive]) refuses an exclusive lock while a reader holds it.
      WalFile, WalBackfill and WalBegin say what a checkpoint does to the database file and what a
      reader holds, WalKeep what writing leaves alone.  WalSystem puts a writer, readers
      and checkpoints on one log and states the specification: a database that
      changes at a commit, and snapshots of it.  WalIsolation and WalSnapshot prove the refinement and
      snapshot isolation; a call is one step there, so calls do not interleave.  WalStale shows the interleaving of two calls
      that breaks it.

    - Journal, PagerTxn (pager.c): the rollback journal and transactions: headers, records and
      checksums, syncing, the flags of cached pages, spilling, both phases of a commit, playback and
      rollback, hot journals; the size hint to the file system is left out.  A file is what was synced and the operations since; a crash leaves of each 4-byte word
      what one of them wrote, and a file that was unlinked may be there again (JournalFile).  JournalPlay gives the format, JournalReplay the loops of a playback, JournalRestore
      that a playback restores the old database or leaves files that the next one restores.
      JournalWrite and JournalSync follow the writer up to a torn header.  PagerInv is the invariant of a
      transaction, PagerWrite and PagerCommit its preservation, PagerAtomic the theorems: the
      write-ahead rule, and that transactions are atomic through any number of
      interrupted recoveries, and durable as soon as the deletion of the journal is (with synchronous=FULL and journal_mode=DELETE, the same sector size at
      recovery and no journal that ends like a master journal name).  PagerRollback shows that a rollback restores
      file and cache.  PagerSector is about journals of another sector size.

    The components meet in the models as in the code: Token calls Keyword and
    the tables of Ctype, Complete uses IdChar, Record uses Varint and Int64,
    Like uses Utf, Hash uses Ctype, Page uses Varint, Wal the big-endian integers
    of Varint, and Atoi's routines decode what Token delimits.

    ** What the theorems leave open

    Where the code departs from what it means to do, a theorem or an example shows the
    departure: sqlite3MulInt64 multiplies two operands
    below 2^32 unchecked; a specialised comparison with a one-field record reads past the header; OP_MakeRecord
    does not limit zero-filled tails; a journal read that ends at the end of a
    full chunk caches a null pointer; a read-only unix-excl connection drops the lock of its process;
    a checkpoint that read the header before the log was restarted makes a later commit disappear;
    a padded commit that ends at a sector boundary is not synced; sqlite3Atoi64 accepts digits followed by a NUL and
    other bytes; a hot journal shorter than the sector size of the process that finds it is deleted unread.

    ** Not modelled

    Savepoints, in-memory journals, memory mapping and backups in the pager, the allocation policy of the page cache, the mapping of shared memory, the opening and closing of the write-ahead log, the B-tree layer above single pages, the
    virtual machine except OP_MakeRecord, the SQL front end, date and number formatting, the allocators and mutexes, the
    Windows layer, full-text search and R-trees: each needs the state of the layers below it, or
    platform behaviour the sources do not fix.  The next candidates are
    savepoints and the payload of cells.  The Go programs (the directories Pinger, Utils and main)
    and the Go driver are clients of services and of this C code and are outside this
    library. *)
From stdpp Require Export base list list_numbers numbers gmap.
From Stdlib Require Export ZArith Lia Bool.
#[global] Open Scope Z_scope.

(** ** Result codes of the C API *)

Definition SQLITE_OK : Z := 0.
Definition SQLITE_NOMEM : Z := 7.

(** ** Computations

    A C function becomes a function into [option]: [None] stands for behaviour
    the C code must never show (an access outside an array, a null pointer
    followed, a failed [assert], a loop that outlives its fuel).  A theorem that
    a call equals [Some _] therefore shows safety and termination as well as
    the value. *)

Definition assert_ (b : bool) : option unit := if b then Some tt else None.

(** The allocator as its clients see it: the outcomes of the allocation
    calls still to come (a call beyond the end of the list succeeds) and the
    number of objects allocated and not yet freed. *)
Record Mem := mkMem { m_next : list bool; m_live : Z }.

Definition malloc (m : Mem) : bool * Mem :=
  match m_next m with
  | [] => (true, mkMem [] (m_live m + 1))
  | true :: o => (true, mkMem o (m_live m + 1))
  | false :: o => (false, mkMem o (m_live m))
  end.

Definition mfree (m : Mem) : Mem := mkMem (m_next m) (m_live m - 1).

(** No allocation still to come fails. *)
Definition no_oom (m : Mem) : Prop := Forall (eq true) (m_next m).

Lemma malloc_cases m :
  (exists o, malloc m = (true, mkMem o (m_live m + 1)) /\ (no_oom m -> Forall (eq true) o)) \/
  (exists o, malloc m = (false, mkMem o (m_live m)) /\ ~ no_oom m).
Proof.
  destruct m as [[|[] o] n]; unfold malloc, no_oom; simpl.
  - left. eauto.
  - left. eexists. split; [done|]. by intros [_ ?]%Forall_cons.
  - right. eexists. split; [done|]. by intros [? _]%Forall_cons.
Qed.

(** ** Arrays indexed by [Z] *)

Definition aget {A} (l : list A) (i : Z) : option A :=
  if decide (0 <= i) then l !! Z.to_nat i else None.

Definition aset {A} (l : list A) (i : Z) (x : A) : option (list A) :=
  if decide (0 <= i < Z.of_nat (length l)) then Some (<[Z.to_nat i := x]> l)
  else None.

Section Arrays.
Context {A : Type}.
Implicit Types l : list A.

Lemma aget_Some_range l i x :
  aget l i = Some x -> 0 <= i < Z.of_nat (length l).
Proof.
  unfold aget. case_decide; [|done]. intros H1%lookup_lt_Some. lia.
Qed.

Lemma aget_is_Some l i :
  0 <= i < Z.of_nat (length l) -> is_Some (aget l i).
Proof.
  intros. unfold aget. rewrite decide_True by lia.
  apply lookup_lt_is_Some. lia.
Qed.

Lemma aset_is_Some l i x :
  0 <= i < Z.of_nat (length l) -> aset l i x = Some (<[Z.to_nat i := x]> l).
Proof. intros. unfold aset. by rewrite decide_True. Qed.

Lemma aset_Some_inv l i x l' :
  aset l i x = Some l' ->
  0 <= i < Z.of_nat (length l) /\ l' = <[Z.to_nat i := x]> l.
Proof. unfold aset. case_decide; [|done]. by intros [= <-]. Qed.

Lemma length_aset l i x l' : aset l i x = Some l' -> length l' = length l.
Proof. intros [_ ->]%aset_Some_inv. apply length_insert. Qed.

Lemma aget_aset_eq l i x l' : aset l i x = Some l' -> aget l' i = Some x.
Proof.
  intros [? ->]%aset_Some_inv. unfold aget. rewrite decide_True by lia.
  apply list_lookup_insert_eq. lia.
Qed.

Lemma aget_aset_ne l i j x l' :
  aset l i x = Some l' -> i <> j -> aget l' j = aget l j.
Proof.
  intros [? ->]%aset_Some_inv ?. unfold aget. case_decide; [|done].
  apply list_lookup_insert_ne. lia.
Qed.

Lemma aget_aset l i j x l' :
  aset l i x = Some l' -> aget l' j = if decide (i = j) then Some x else aget l j.
Proof.
  intros H. case_decide; subst; eauto using aget_aset_eq, aget_aset_ne.
Qed.

Lemma aget_replicate n (x : A) i :
  0 <= i < Z.of_nat n -> aget (replicate n x) i = Some x.
Proof.
  intros. unfold aget. rewrite decide_True by lia.
  apply lookup_replicate_2. lia.
Qed.

Lemma aget_replicate_inv n (x y : A) i :
  aget (replicate n x) i = Some y -> y = x.
Proof.
  unfold aget. case_decide; [|done]. by intros [? _]%lookup_replicate.
Qed.

Lemma aget_app_r (l1 l2 : list A) i :
  0 <= i -> aget (l1 ++ l2) (Z.of_nat (length l1) + i) = aget l2 i.
Proof.
  intros. unfold aget. rewrite !decide_True by lia.
  rewrite lookup_app_r by lia. f_equal. lia.
Qed.

Lemma aget_middle (l1 l2 : list A) x : aget (l1 ++ x :: l2) (Z.of_nat (length l1)) = Some x.
Proof. rewrite <- (Z.add_0_r (Z.of_nat _)), aget_app_r by lia. done. Qed.

Lemma aset_app_r (l1 l2 l2' : list A) i x :
  aset l2 i x = Some l2' -> aset (l1 ++ l2) (Z.of_nat (length l1) + i) x = Some (l1 ++ l2').
Proof.
  intros [Hr ->]%aset_Some_inv. rewrite aset_is_Some by (rewrite length_app; lia). f_equal.
  rewrite insert_app_r_alt by lia. do 2 f_equal. lia.
Qed.

Lemma aset_middle (l1 l2 : list A) x y :
  aset (l1 ++ x :: l2) (Z.of_nat (length l1)) y = Some (l1 ++ y :: l2).
Proof. rewrite <- (Z.add_0_r (Z.of_nat _)). by apply aset_app_r. Qed.

Lemma aget_Forall (P : A -> Prop) l i x : Forall P l -> aget l i = Some x -> P x.
Proof.
  unfold aget. intros HF. case_decide; [|done]. by apply Forall_lookup_1.
Qed.
End Arrays.

Lemma bool_iff (b c : bool) : (b = true <-> c = true) -> b = c.
Proof. destruct b, c; intuition congruence. Qed.

(** ** Signed arithmetic

    A signed C expression must stay in range; overflow is undefined. *)

Definition int_max : Z := 2 ^ 31 - 1.
Definition int_min : Z := - 2 ^ 31.
Definition cint (z : Z) : option Z :=
  if (int_min <=? z) && (z <=? int_max) then Some z else None.

Lemma cint_ok z : int_min <= z <= int_max -> cint z = Some z.
Proof.
  intros. unfold cint. by rewrite (proj2 (Z.leb_le _ _)), (proj2 (Z.leb_le _ _)) by lia.
Qed.

(** ** Unsigned integers of [n] bits *)

Definition ubits (n z : Z) : Prop := 0 <= z < 2 ^ n.

Lemma ubits_spec n z :
  0 <= n -> ubits n z <-> forall k, n <= k -> Z.testbit z k = false.
Proof.
  intros Hn. unfold ubits. split.
  - intros Hz k Hk. rewrite <- (Z.mod_small z (2 ^ n)) by done.
    by apply Z.mod_pow2_bits_high.
  - intros Hb. assert (z = z mod 2 ^ n) as ->.
    { apply Z.bits_inj'. intros k Hk. destruct (decide (k < n)).
      - by rewrite Z.mod_pow2_bits_low.
      - rewrite Z.mod_pow2_bits_high by lia. apply Hb. lia. }
    apply Z.mod_pos_bound. by apply Z.pow_pos_nonneg.
Qed.

Lemma ubits_lor n a b : 0 <= n -> ubits n a -> ubits n b -> ubits n (Z.lor a b).
Proof.
  intros Hn Ha Hb. rewrite ubits_spec in * by done. intros k Hk.
  by rewrite Z.lor_spec, Ha, Hb.
Qed.

Lemma ubits_lxor n a b : 0 <= n -> ubits n a -> ubits n b -> ubits n (Z.lxor a b).
Proof.
  intros Hn Ha Hb. rewrite ubits_spec in * by done. intros k Hk.
  by rewrite Z.lxor_spec, Ha, Hb.
Qed.

Lemma ubits_land_l n a b : 0 <= n -> ubits n a -> ubits n (Z.land a b).
Proof.
  intros Hn Ha. rewrite ubits_spec in * by done. intros k Hk.
  by rewrite Z.land_spec, Ha.
Qed.

(** Appending [n] bits. *)
Lemma lor_shift acc x n :
  0 <= n -> 0 <= x < 2 ^ n -> Z.lor (Z.shiftl acc n) x = acc * 2 ^ n + x.
Proof.
  intros Hn Hx. rewrite <- Z.shiftl_mul_pow2 by done. rewrite <- Z.add_lor_land.
  assert (Z.land (Z.shiftl acc n) x = 0) as ->; [|lia].
  apply Z.bits_inj'. intros k Hk. rewrite Z.land_spec, Z.testbit_0_l.
  destruct (decide (k < n)); [by rewrite Z.shiftl_spec_low|].
  rewrite (proj1 (ubits_spec n x Hn) Hx k) by lia. apply andb_false_r.
Qed.

Create HintDb ubits discriminated.
#[export] Hint Resolve ubits_lor ubits_lxor ubits_land_l : ubits.
#[export] Hint Extern 5 (_ <= _) => lia : ubits.
#[export] Hint Extern 5 (_ < _) => lia : ubits.

(** A byte of memory. *)
Abbreviation is_byte := (ubits 8).

(** Conversions to the unsigned integer types. *)
Definition u8 (z : Z) : Z := z mod 2 ^ 8.
Definition u16 (z : Z) : Z := z mod 2 ^ 16.
Definition u32 (z : Z) : Z := z mod 2 ^ 32.
Definition u64 (z : Z) : Z := z mod 2 ^ 64.

(** A decidable fact about a range of integers, checked on each. *)
Lemma seqZ_forallb (P : Z -> bool) n i : forallb P (seqZ 0 n) = true -> 0 <= i < n -> P i = true.
Proof. rewrite forallb_forall. intros H Hi. apply H, list_elem_of_In, elem_of_seqZ. lia. Qed.

(** A decidable fact about bytes holds when it holds of 0 to 255. *)
Lemma byte_forall (P : Z -> bool) :
  forallb P (seqZ 0 256) = true -> forall c, is_byte c -> P c = true.
Proof.
  rewrite forallb_forall. intros H c Hc. apply H. apply list_elem_of_In, elem_of_seqZ.
  unfold ubits in Hc. lia.
Qed.

(** Byte lists, as a check. *)
Lemma bytes_bool l : forallb (fun b => (0 <=? b) && (b <? 256)) l = true -> Forall is_byte l.
Proof.
  rewrite forallb_forall. intros H. apply Forall_forall. intros b Hb.
  apply list_elem_of_In, H, andb_true_iff in Hb as [?%Z.leb_le ?%Z.ltb_lt]. unfold ubits. simpl. lia.
Qed.

(** 64-bit signed arithmetic. *)
Definition LARGEST_INT64 : Z := 2 ^ 63 - 1.
Definition SMALLEST_INT64 : Z := - 2 ^ 63.
Definition i64 (z : Z) : Prop := SMALLEST_INT64 <= z <= LARGEST_INT64.
Definition cint64 (z : Z) : option Z :=
  if (SMALLEST_INT64 <=? z) && (z <=? LARGEST_INT64) then Some z else None.

Lemma cint64_ok z : i64 z -> cint64 z = Some z.
Proof.
  unfold i64. intros. unfold cint64. by rewrite (proj2 (Z.leb_le _ _)), (proj2 (Z.leb_le _ _)) by lia.
Qed.

Lemma cint64_None z : ~ i64 z -> cint64 z = None.
Proof.
  unfold i64, cint64. intros. destruct (Z.leb_spec SMALLEST_INT64 z); simpl; [|done].
  destruct (Z.leb_spec z LARGEST_INT64); [lia|done].
Qed.

(** The value of a plain [char], which is signed. *)
Definition schar (b : Z) : Z := if b <? 128 then b else b - 256.

(** A test of the bits [b] of a flag word: (f & b)!=0 *)
Definition flag (f b : Z) : bool := negb (Z.land f b =? 0).

(** The memory from element [i] of an array on: &l[i] *)
Definition suffix {A} (l : list A) (i : Z) : option (list A) :=
  if decide (0 <= i <= Z.of_nat (length l)) then Some (drop (Z.to_nat i) l) else None.

(** memcpy(&buf[off], l, ...) *)
Definition put_bytes {A} (buf : list A) (off : Z) (l : list A) : option (list A) :=
  if decide (0 <= off /\ off + Z.of_nat (length l) <= Z.of_nat (length buf)) then
    Some (take (Z.to_nat off) buf ++ l ++ drop (Z.to_nat off + length l) buf)
  else None.

Lemma suffix_app {A} (a b : list A) : suffix (a ++ b) (Z.of_nat (length a)) = Some b.
Proof.
  unfold suffix. rewrite decide_True by (rewrite length_app; lia). by rewrite Nat2Z.id, drop_app_length.
Qed.

Lemma put_bytes_app {A} (a b c l : list A) :
  length b = length l -> put_bytes (a ++ b ++ c) (Z.of_nat (length a)) l = Some (a ++ l ++ c).
Proof.
  intros Hl. unfold put_bytes. rewrite decide_True by (rewrite !length_app; lia).
  rewrite Nat2Z.id, take_app_length. do 3 f_equal.
  rewrite drop_app_ge by lia. rewrite drop_app_ge by lia.
  replace (length a + length l - length a - length b)%nat with 0%nat by lia. done.
Qed.
