(* ===== verification/Bitvec.v ===== *)
(** * Bitvec: the sparse bitmap of bitvec.c

    A [Bitvec] records a set of page numbers between 1 and [iSize].  It is a
    straight bitmap when [iSize] is small, an open-addressing hash table while
    few bits are set, and an array of sub-bitmaps once the hash table fills. *)
From S2P Require Import Prelude.

(** ** Sizes (bitvec.c, lines 37169 to 37199), for 8-byte pointers *)

Definition sizeof_ptr : Z := 8.
Definition sizeof_u32 : Z := 4.
Definition BITVEC_SZ : Z := 512.
Definition BITVEC_USIZE : Z :=
  ((BITVEC_SZ - 3 * sizeof_u32) / sizeof_ptr) * sizeof_ptr.
Definition BITVEC_SZELEM : Z := 8.
Definition BITVEC_NELEM : Z := BITVEC_USIZE / 1.
Definition BITVEC_NBIT : Z := BITVEC_NELEM * BITVEC_SZELEM.
Definition BITVEC_NINT : Z := BITVEC_USIZE / sizeof_u32.
Definition BITVEC_MXHASH : Z := BITVEC_NINT / 2.
Definition BITVEC_HASH (x : Z) : Z := (x * 1) mod BITVEC_NINT.
Definition BITVEC_NPTR : Z := BITVEC_USIZE / sizeof_ptr.

(** ** Data *)

(** The union of struct Bitvec.  [U_zero] is zero-filled memory, which reads
    as zeros through any member; otherwise only the member last written may
    be read. *)
Inductive Bitvec : Type :=
| BV (iSize nSet iDivisor : Z) (u : BvUnion)
with BvUnion : Type :=
| U_zero
| U_bitmap (aBitmap : list Z)
| U_hash (aHash : list Z)
| U_sub (apSub : list (option Bitvec)).

Definition iSize (p : Bitvec) : Z := let 'BV s _ _ _ := p in s.
Definition nSet (p : Bitvec) : Z := let 'BV _ n _ _ := p in n.
Definition iDivisor (p : Bitvec) : Z := let 'BV _ _ d _ := p in d.
Definition bv_u (p : Bitvec) : BvUnion := let 'BV _ _ _ u := p in u.
Definition with_u (p : Bitvec) (u : BvUnion) : Bitvec :=
  let 'BV s n d _ := p in BV s n d u.

Definition as_bitmap (u : BvUnion) : option (list Z) :=
  match u with
  | U_zero => Some (replicate (Z.to_nat BITVEC_NELEM) 0)
  | U_bitmap l => Some l
  | _ => None
  end.

Definition as_hash (u : BvUnion) : option (list Z) :=
  match u with
  | U_zero => Some (replicate (Z.to_nat BITVEC_NINT) 0)
  | U_hash l => Some l
  | _ => None
  end.

Definition as_sub (u : BvUnion) : option (list (option Bitvec)) :=
  match u with
  | U_zero => Some (replicate (Z.to_nat BITVEC_NPTR) None)
  | U_sub l => Some l
  | _ => None
  end.

(** ** Operations *)

Definition sqlite3BitvecCreate (m : Mem) (size : Z) : option Bitvec * Mem :=
  match malloc m with
  | (true, m') => (Some (BV size 0 0 U_zero), m')
  | (false, m') => (None, m')
  end.

(** Probing of the hash table by sqlite3BitvecTest. *)
Fixpoint test_probe (fuel : nat) (a : list Z) (h i : Z) : option bool :=
  match fuel with
  | O => None
  | S f =>
      v ← aget a h;
      if v =? 0 then Some false
      else if v =? i then Some true
      else test_probe f a ((h + 1) mod BITVEC_NINT) i
  end.

(** More than the number of slots, so that a probe that visits each slot
    once does not run out. *)
Definition PROBE_FUEL : nat := S (Z.to_nat BITVEC_NINT).

Fixpoint testLoop (fuel : nat) (p : Bitvec) (i : Z) : option bool :=
  match fuel with
  | O => None
  | S f =>
      if negb (iDivisor p =? 0) then
        let bin := i / iDivisor p in
        let i := i mod iDivisor p in
        l ← as_sub (bv_u p);
        q ← aget l bin;
        match q with
        | None => Some false
        | Some p => testLoop f p i
        end
      else if iSize p <=? BITVEC_NBIT then
        l ← as_bitmap (bv_u p);
        b ← aget l (i / BITVEC_SZELEM);
        Some (negb (Z.land b (Z.shiftl 1 (Z.land i (BITVEC_SZELEM - 1))) =? 0))
      else
        a ← as_hash (bv_u p);
        test_probe PROBE_FUEL a (BITVEC_HASH i) (i + 1)
  end.

(** Levels of recursion: [iSize] is a u32 and shrinks by a factor of
    [BITVEC_NPTR] at each level (see [bv_levels]). *)
Definition BV_FUEL : nat := 12.

Definition sqlite3BitvecTest (p : option Bitvec) (i : Z) : option bool :=
  match p with
  | None => Some false
  | Some p =>
      if (iSize p <? i) || (i =? 0) then Some false
      else testLoop BV_FUEL p (i - 1)
  end.

(** The do-while loop of sqlite3BitvecSet: [Some None] when [i] is found,
    [Some (Some h)] when [h] is the first free slot. *)
Fixpoint set_probe (fuel : nat) (a : list Z) (h i : Z) : option (option Z) :=
  match fuel with
  | O => None
  | S f =>
      v ← aget a h;
      if v =? i then Some None
      else
        let h := h + 1 in
        let h := if BITVEC_NINT <=? h then 0 else h in
        w ← aget a h;
        if w =? 0 then Some (Some h) else set_probe f a h i
  end.

(** The loop over [aiValues] of the rehash branch: [rc |= Set(p, aiValues[j])]. *)
Fixpoint reinsert (set : Mem -> Bitvec -> Z -> option (Z * Bitvec * Mem))
    (aiValues : list Z) (rc : Z) (p : Bitvec) (m : Mem) : option (Z * Bitvec * Mem) :=
  match aiValues with
  | [] => Some (rc, p, m)
  | v :: vs =>
      if v =? 0 then reinsert set vs rc p m
      else
        '(rc', p, m) ← set m p v;
        reinsert set vs (Z.lor rc rc') p m
  end.

(** sqlite3BitvecSet after its [i--]; [rec] is the recursive call. *)
Definition setLeaf (rec : Mem -> Bitvec -> Z -> option (Z * Bitvec * Mem))
    (m : Mem) (p : Bitvec) (i : Z) : option (Z * Bitvec * Mem) :=
  if iSize p <=? BITVEC_NBIT then
    l ← as_bitmap (bv_u p);
    b ← aget l (i / BITVEC_SZELEM);
    l ← aset l (i / BITVEC_SZELEM)
          (Z.lor b (Z.shiftl 1 (Z.land i (BITVEC_SZELEM - 1))));
    Some (SQLITE_OK, with_u p (U_bitmap l), m)
  else
    let h := BITVEC_HASH i in
    let i := i + 1 in
    a ← as_hash (bv_u p);
    let set_end h :=
      a ← aset a h i;
      Some (SQLITE_OK, BV (iSize p) (nSet p + 1) (iDivisor p) (U_hash a), m) in
    let set_rehash h :=
      if BITVEC_MXHASH <=? nSet p then
        match malloc m with
        | (false, m) => Some (SQLITE_NOMEM, p, m)
        | (true, m) =>
            let aiValues := a in
            let p := BV (iSize p) (nSet p)
                        ((iSize p + BITVEC_NPTR - 1) / BITVEC_NPTR) U_zero in
            '(rc, p, m) ← rec m p i;
            '(rc, p, m) ← reinsert rec aiValues rc p m;
            Some (rc, p, mfree m)
        end
      else set_end h in
    v ← aget a h;
    if v =? 0 then
      if nSet p <? BITVEC_NINT - 1 then set_end h else set_rehash h
    else
      r ← set_probe PROBE_FUEL a h i;
      match r with
      | None => Some (SQLITE_OK, p, m)
      | Some h => set_rehash h
      end.

Fixpoint setLoop (fuel : nat) (m : Mem) (p : Bitvec) (i : Z) : option (Z * Bitvec * Mem) :=
  match fuel with
  | O => None
  | S f =>
      if (BITVEC_NBIT <? iSize p) && negb (iDivisor p =? 0) then
        let bin := i / iDivisor p in
        let i := i mod iDivisor p in
        l ← as_sub (bv_u p);
        q ← aget l bin;
        match (match q with
               | Some q => (Some q, m)
               | None => sqlite3BitvecCreate m (iDivisor p)
               end) with
        | (None, m) => Some (SQLITE_NOMEM, p, m)
        | (Some q, m) =>
            '(rc, q, m) ← setLoop f m q i;
            l ← aset l bin (Some q);
            Some (rc, with_u p (U_sub l), m)
        end
      else
        setLeaf (fun m p i => assert_ ((0 <? i) && (i <=? iSize p));; setLoop f m p (i - 1)) m p i
  end.

Definition sqlite3BitvecSet (m : Mem) (p : option Bitvec) (i : Z)
    : option (Z * option Bitvec * Mem) :=
  match p with
  | None => Some (SQLITE_OK, None, m)
  | Some p =>
      assert_ ((0 <? i) && (i <=? iSize p));;
      '(rc, p, m) ← setLoop BV_FUEL m p (i - 1);
      Some (rc, Some p, m)
  end.

(** The search for a free slot when sqlite3BitvecClear rebuilds the table. *)
Fixpoint free_probe (fuel : nat) (a : list Z) (h : Z) : option Z :=
  match fuel with
  | O => None
  | S f =>
      v ← aget a h;
      if v =? 0 then Some h
      else
        let h := h + 1 in
        free_probe f a (if BITVEC_NINT <=? h then 0 else h)
  end.

Fixpoint rebuild (aiValues : list Z) (x : Z) (n : Z) (a : list Z) : option (Z * list Z) :=
  match aiValues with
  | [] => Some (n, a)
  | v :: vs =>
      if negb (v =? 0) && negb (v =? x) then
        h ← free_probe PROBE_FUEL a (BITVEC_HASH (v - 1));
        a ← aset a h v;
        rebuild vs x (n + 1) a
      else rebuild vs x n a
  end.

Fixpoint clearLoop (fuel : nat) (p : Bitvec) (i : Z) : option Bitvec :=
  match fuel with
  | O => None
  | S f =>
      if negb (iDivisor p =? 0) then
        let bin := i / iDivisor p in
        let i := i mod iDivisor p in
        l ← as_sub (bv_u p);
        q ← aget l bin;
        match q with
        | None => Some p
        | Some q =>
            q ← clearLoop f q i;
            l ← aset l bin (Some q);
            Some (with_u p (U_sub l))
        end
      else if iSize p <=? BITVEC_NBIT then
        l ← as_bitmap (bv_u p);
        b ← aget l (i / BITVEC_SZELEM);
        l ← aset l (i / BITVEC_SZELEM)
              (Z.land b (Z.lnot (Z.shiftl 1 (Z.land i (BITVEC_SZELEM - 1)))));
        Some (with_u p (U_bitmap l))
      else
        aiValues ← as_hash (bv_u p);
        '(n, a) ← rebuild aiValues (i + 1) 0 (replicate (Z.to_nat BITVEC_NINT) 0);
        Some (BV (iSize p) n (iDivisor p) (U_hash a))
  end.

Definition sqlite3BitvecClear (p : option Bitvec) (i : Z) : option (option Bitvec) :=
  match p with
  | None => Some None
  | Some p =>
      assert_ (0 <? i);;
      p ← clearLoop BV_FUEL p (i - 1);
      Some (Some p)
  end.

Fixpoint destroyLoop (fuel : nat) (m : Mem) (p : option Bitvec) : option Mem :=
  match fuel with
  | O => None
  | S f =>
      match p with
      | None => Some m
      | Some p =>
          m ← (if negb (iDivisor p =? 0) then
                 l ← as_sub (bv_u p);
                 foldl (fun om q => m ← om; destroyLoop f m q) (Some m) l
               else Some m);
          Some (mfree m)
      end
  end.

Definition sqlite3BitvecDestroy (m : Mem) (p : option Bitvec) : option Mem :=
  destroyLoop BV_FUEL m p.

Definition sqlite3BitvecSize (p : Bitvec) : Z := iSize p.

(** ** The hash table

    [slot h0 d] is the slot reached from [h0] after [d] steps of linear
    probing. *)

Definition slot (h0 d : Z) : Z := (h0 + d) mod BITVEC_NINT.

(** Every stored value is reached from its hash through nonzero slots. *)
Definition chained (a : list Z) : Prop :=
  forall k v, aget a k = Some v -> v <> 0 ->
    exists d, 0 <= d < BITVEC_NINT /\ k = slot (BITVEC_HASH (v - 1)) d /\
      forall e, 0 <= e < d -> aget a (slot (BITVEC_HASH (v - 1)) e) <> Some 0.

Definition hmem (a : list Z) (v : Z) : Prop := v <> 0 /\ exists k, aget a k = Some v.

(** The number of occupied slots. *)
Definition occupied (a : list Z) : Z := Z.of_nat (length (filter (fun v => v <> 0) a)).

Definition has_free (a : list Z) : Prop := exists k, aget a k = Some 0.

Definition table (a : list Z) : Prop := Z.of_nat (length a) = BITVEC_NINT.

Lemma NINT_val : BITVEC_NINT = 124.
Proof. reflexivity. Qed.

Lemma slot_range h0 d : 0 <= slot h0 d < BITVEC_NINT.
Proof. unfold slot. apply Z.mod_pos_bound. by rewrite NINT_val. Qed.

Lemma slot_0 x : slot (BITVEC_HASH x) 0 = BITVEC_HASH x.
Proof.
  unfold slot, BITVEC_HASH. rewrite Z.add_0_r. apply Z.mod_mod. by rewrite NINT_val.
Qed.

Lemma slot_succ h0 d : (slot h0 d + 1) mod BITVEC_NINT = slot h0 (d + 1).
Proof.
  unfold slot. rewrite Z.add_mod_idemp_l by (by rewrite NINT_val). f_equal. lia.
Qed.

Lemma slot_succ_wrap h0 d :
  (if BITVEC_NINT <=? slot h0 d + 1 then 0 else slot h0 d + 1) = slot h0 (d + 1).
Proof.
  rewrite <- slot_succ. pose proof (slot_range h0 d).
  case_match eqn:E; [apply Z.leb_le in E|apply Z.leb_gt in E].
  - replace (slot h0 d + 1) with BITVEC_NINT by lia. symmetry. by apply Z.mod_same.
  - symmetry. apply Z.mod_small. lia.
Qed.

Lemma slot_surj h0 k :
  0 <= k < BITVEC_NINT -> exists d, 0 <= d < BITVEC_NINT /\ slot h0 d = k.
Proof.
  intros. exists ((k - h0) mod BITVEC_NINT). split.
  - apply Z.mod_pos_bound. by rewrite NINT_val.
  - unfold slot. rewrite Z.add_mod_idemp_r by (by rewrite NINT_val).
    rewrite Z.mod_small; lia.
Qed.

Lemma table_get a h0 d : table a -> exists v, aget a (slot h0 d) = Some v.
Proof.
  intros Ht. apply aget_is_Some. rewrite Ht. apply slot_range.
Qed.

Lemma free_offset a h0 :
  table a -> has_free a -> exists d, 0 <= d < BITVEC_NINT /\ aget a (slot h0 d) = Some 0.
Proof.
  intros Ht [k Hk]. pose proof (aget_Some_range _ _ _ Hk) as Hr. rewrite Ht in Hr.
  destruct (slot_surj h0 k Hr) as (d & ? & <-). eauto.
Qed.

Lemma occupied_free a : table a -> occupied a < BITVEC_NINT -> has_free a.
Proof.
  unfold table, occupied. intros Ht Ho.
  assert (exists k, a !! k = Some 0) as [k Hk].
  { rewrite <- Ht in Ho. clear Ht. induction a as [|v a IH]; [simpl in Ho; lia|].
    destruct (decide (v = 0)) as [->|Hv]; [by exists O|].
    rewrite filter_cons_True in Ho by done.
    destruct IH as [k Hk]; [simpl in Ho; lia|]. by exists (S k). }
  exists (Z.of_nat k). unfold aget. rewrite decide_True by lia. by rewrite Nat2Z.id.
Qed.

Lemma occupied_set a k v a' :
  aget a k = Some 0 -> v <> 0 -> aset a k v = Some a' -> occupied a' = occupied a + 1.
Proof.
  intros Hk Hv [Hr ->]%aset_Some_inv. unfold occupied.
  unfold aget in Hk. rewrite decide_True in Hk by lia.
  revert Hk. generalize (Z.to_nat k). clear Hr. induction a as [|w a IH]; [done|].
  intros [|n] Hn; simpl in Hn.
  - injection Hn as ->. simpl.
    rewrite (filter_cons_True _ v) by done. rewrite (filter_cons_False _ 0) by tauto.
    simpl. lia.
  - simpl. rewrite !filter_cons. specialize (IH n Hn). case_decide; simpl; lia.
Qed.

(** The position reached by probing from the hash of [v]: the first free
    slot. *)
Definition first_free (a : list Z) (v k : Z) : Prop :=
  aget a k = Some 0 /\
  exists d, 0 <= d < BITVEC_NINT /\ k = slot (BITVEC_HASH (v - 1)) d /\
    forall e, 0 <= e < d -> aget a (slot (BITVEC_HASH (v - 1)) e) <> Some 0.

(** Probing for [v] decides membership: before offset [e] no slot is free
    or holds [v]; the free slot at offset [D] bounds the search. *)
Lemma test_probe_spec a v D : forall fuel e,
  table a -> chained a -> v <> 0 ->
  0 <= e <= D -> aget a (slot (BITVEC_HASH (v - 1)) D) = Some 0 ->
  (forall e', 0 <= e' < e -> aget a (slot (BITVEC_HASH (v - 1)) e') <> Some v) ->
  D - e < Z.of_nat fuel ->
  exists b, test_probe fuel a (slot (BITVEC_HASH (v - 1)) e) v = Some b /\ (b = true <-> hmem a v).
Proof.
  induction fuel as [|f IH]; intros e Ht Hc Hv He HD Hno Hf; [lia|].
  cbn [test_probe]. destruct (table_get a (BITVEC_HASH (v - 1)) e Ht) as [w Hw]. rewrite Hw. simpl.
  destruct (Z.eqb_spec w 0) as [->|Hw0].
  { exists false. split; [done|]. split; [done|]. intros [_ [k Hk]]. exfalso.
    destruct (Hc _ _ Hk Hv) as (d & Hd & -> & Hall).
    destruct (Z.lt_trichotomy d e) as [|[->|]].
    - eapply (Hno d); [lia|done].
    - congruence.
    - eapply (Hall e); [lia|done]. }
  destruct (Z.eqb_spec w v) as [->|Hwv].
  { exists true. split; [done|]. split; [|done]. intros _. split; eauto. }
  rewrite slot_succ. destruct (decide (e = D)) as [->|]; [congruence|].
  apply IH; [done..|lia|done| |lia].
  intros e' He'. destruct (decide (e' = e)) as [->|]; [congruence|]. apply Hno. lia.
Qed.

Lemma test_probe_ok a v :
  table a -> chained a -> has_free a -> v <> 0 ->
  exists b, test_probe PROBE_FUEL a (BITVEC_HASH (v - 1)) v = Some b /\ (b = true <-> hmem a v).
Proof.
  intros Ht Hc Hf Hv. destruct (free_offset a (BITVEC_HASH (v - 1)) Ht Hf) as (D & HD & H0).
  rewrite <- (slot_0 (v - 1)). eapply (test_probe_spec a v D); [done..|lia|done| |].
  - intros. lia.
  - unfold PROBE_FUEL. rewrite NINT_val in *. lia.
Qed.

Lemma free_probe_spec a v D : forall fuel e,
  table a -> 0 <= e <= D -> D < BITVEC_NINT ->
  aget a (slot (BITVEC_HASH (v - 1)) D) = Some 0 ->
  (forall e', 0 <= e' < e -> aget a (slot (BITVEC_HASH (v - 1)) e') <> Some 0) ->
  D - e < Z.of_nat fuel ->
  exists k, free_probe fuel a (slot (BITVEC_HASH (v - 1)) e) = Some k /\ first_free a v k.
Proof.
  induction fuel as [|f IH]; intros e Ht He HDN HD Hno Hf; [lia|].
  cbn [free_probe]. destruct (table_get a (BITVEC_HASH (v - 1)) e Ht) as [w Hw]. rewrite Hw. simpl.
  destruct (Z.eqb_spec w 0) as [->|Hw0].
  { eexists. split; [done|]. split; [done|]. exists e. split; [lia|]. done. }
  rewrite slot_succ_wrap. destruct (decide (e = D)) as [->|]; [congruence|].
  apply IH; [done|lia|done|done| |lia].
  intros e' He'. destruct (decide (e' = e)) as [->|]; [congruence|]. apply Hno. lia.
Qed.

Lemma free_probe_ok a v :
  table a -> has_free a ->
  exists k, free_probe PROBE_FUEL a (BITVEC_HASH (v - 1)) = Some k /\ first_free a v k.
Proof.
  intros Ht Hf. destruct (free_offset a (BITVEC_HASH (v - 1)) Ht Hf) as (D & HD & H0).
  rewrite <- (slot_0 (v - 1)). eapply (free_probe_spec a v D); [done|lia|lia|done| |].
  - intros. lia.
  - unfold PROBE_FUEL. rewrite NINT_val in *. lia.
Qed.

Lemma set_probe_spec a v D : forall fuel e,
  table a -> chained a -> v <> 0 -> 0 <= e < D -> D < BITVEC_NINT ->
  aget a (slot (BITVEC_HASH (v - 1)) D) = Some 0 ->
  (forall e', 0 <= e' < e -> aget a (slot (BITVEC_HASH (v - 1)) e') <> Some v) ->
  (forall e', 0 <= e' <= e -> aget a (slot (BITVEC_HASH (v - 1)) e') <> Some 0) ->
  D - e <= Z.of_nat fuel ->
  (set_probe fuel a (slot (BITVEC_HASH (v - 1)) e) v = Some None /\ hmem a v) \/
  (exists k, set_probe fuel a (slot (BITVEC_HASH (v - 1)) e) v = Some (Some k) /\
     first_free a v k /\ ~ hmem a v).
Proof.
  induction fuel as [|f IH]; intros e Ht Hc Hv He HDN HD Hno Hnz Hf; [lia|].
  cbn [set_probe]. destruct (table_get a (BITVEC_HASH (v - 1)) e Ht) as [w Hw]. rewrite Hw. simpl.
  destruct (Z.eqb_spec w v) as [->|Hwv].
  { left. split; [done|]. split; eauto. }
  rewrite slot_succ_wrap.
  destruct (table_get a (BITVEC_HASH (v - 1)) (e + 1) Ht) as [w' Hw']. rewrite Hw'. simpl.
  assert (forall e', 0 <= e' < e + 1 -> aget a (slot (BITVEC_HASH (v - 1)) e') <> Some v) as Hno'.
  { intros e' He'. destruct (decide (e' = e)) as [->|]; [congruence|]. apply Hno. lia. }
  destruct (Z.eqb_spec w' 0) as [->|Hw0].
  - right. eexists. split; [done|]. split.
    + split; [done|]. exists (e + 1). split; [lia|]. split; [done|]. intros. apply Hnz. lia.
    + intros [_ [k Hk]]. destruct (Hc _ _ Hk Hv) as (d & Hd & -> & Hall).
      destruct (decide (d < e + 1)); [by eapply (Hno' d); [lia|]|].
      destruct (decide (d = e + 1)) as [->|]; [congruence|].
      eapply (Hall (e + 1)); [lia|done].
  - destruct (decide (e + 1 = D)) as [<-|]; [congruence|].
    apply IH; [done..|lia|done|done|done| |lia].
    intros e' He'. destruct (decide (e' = e + 1)) as [->|]; [congruence|]. apply Hnz. lia.
Qed.

Lemma set_probe_ok a v :
  table a -> chained a -> has_free a -> v <> 0 ->
  aget a (BITVEC_HASH (v - 1)) <> Some 0 ->
  (set_probe PROBE_FUEL a (BITVEC_HASH (v - 1)) v = Some None /\ hmem a v) \/
  (exists k, set_probe PROBE_FUEL a (BITVEC_HASH (v - 1)) v = Some (Some k) /\
     first_free a v k /\ ~ hmem a v).
Proof.
  intros Ht Hc Hf Hv H1. destruct (free_offset a (BITVEC_HASH (v - 1)) Ht Hf) as (D & HD & H0).
  rewrite <- (slot_0 (v - 1)) in H1 |- *.
  assert (D <> 0) by congruence.
  eapply (set_probe_spec a v D); [done|done|done|lia|lia|done| | |].
  - intros. lia.
  - intros e' ?. by replace e' with 0 by lia.
  - unfold PROBE_FUEL. rewrite NINT_val in *. lia.
Qed.

#[global] Arguments test_probe : simpl never.
#[global] Arguments set_probe : simpl never.
#[global] Arguments free_probe : simpl never.
#[global] Arguments BITVEC_HASH : simpl never.
#[global] Arguments PROBE_FUEL : simpl never.

(** Storing [v] at its first free slot keeps the table chained and adds
    exactly [v]. *)
Lemma insert_first_free a v k :
  table a -> chained a -> v <> 0 -> first_free a v k ->
  exists a', aset a k v = Some a' /\ table a' /\ chained a' /\
    occupied a' = occupied a + 1 /\ (forall x, hmem a' x <-> x = v \/ hmem a x).
Proof.
  intros Ht Hc Hv [Hk0 (d & Hd & Hkd & Hall)].
  pose proof (aget_Some_range _ _ _ Hk0) as Hr.
  eexists. split; [by apply aset_is_Some|].
  pose proof (aset_is_Some a k v Hr) as Ha. set (a' := <[Z.to_nat k:=v]> a) in *.
  assert (forall j, aget a' j = Some 0 -> aget a j = Some 0) as Hz.
  { intros j. rewrite (aget_aset _ _ _ _ _ Ha). case_decide; [congruence|done]. }
  split; [by unfold table; rewrite (length_aset _ _ _ _ Ha)|]. split.
  { intros j w Hj Hw. rewrite (aget_aset _ _ _ _ _ Ha) in Hj. case_decide as Hjk.
    - injection Hj as <-. subst j. exists d. split; [done|]. split; [done|].
      intros e He Hz'. by apply (Hall e He), Hz.
    - destruct (Hc _ _ Hj Hw) as (d' & ? & ? & Hall'). exists d'.
      split; [done|]. split; [done|]. intros e He Hz'. by apply (Hall' e He), Hz. }
  split; [by eapply occupied_set|].
  intros x. split.
  - intros [Hx [j Hj]]. rewrite (aget_aset _ _ _ _ _ Ha) in Hj. case_decide.
    + left. congruence.
    + right. split; eauto.
  - intros [->|[Hx [j Hj]]].
    + split; [done|]. exists k. eauto using aget_aset_eq.
    + split; [done|]. exists j. rewrite (aget_aset_ne _ _ _ _ _ Ha); [done|intros ->; congruence].
Qed.

(** ** Bytes of the bitmap *)

Lemma land7 i : Z.land i (BITVEC_SZELEM - 1) = i mod 8.
Proof. change (BITVEC_SZELEM - 1) with (Z.ones 3). by rewrite Z.land_ones. Qed.

Lemma test_bit b r :
  0 <= r -> negb (Z.land b (Z.shiftl 1 r) =? 0) = Z.testbit b r.
Proof.
  intros Hr. rewrite Z.shiftl_1_l.
  destruct (Z.testbit b r) eqn:E; destruct (Z.eqb_spec (Z.land b (2 ^ r)) 0) as [H|H];
    try done; exfalso.
  - apply (f_equal (fun z => Z.testbit z r)) in H.
    rewrite Z.land_spec, Z.pow2_bits_true, E, Z.testbit_0_l in H by done. done.
  - apply H. apply Z.bits_inj'. intros k Hk. rewrite Z.land_spec, Z.testbit_0_l.
    destruct (decide (k = r)) as [->|]; [by rewrite E|].
    rewrite Z.pow2_bits_false by done. apply andb_false_r.
Qed.

Lemma set_bit b r s :
  0 <= r -> 0 <= s ->
  Z.testbit (Z.lor b (Z.shiftl 1 r)) s = (s =? r) || Z.testbit b s.
Proof.
  intros. rewrite Z.shiftl_1_l, Z.lor_spec, Z.pow2_bits_eqb, (Z.eqb_sym r s) by done.
  apply orb_comm.
Qed.

Lemma clear_bit b r s :
  0 <= r -> 0 <= s ->
  Z.testbit (Z.land b (Z.lnot (Z.shiftl 1 r))) s = negb (s =? r) && Z.testbit b s.
Proof.
  intros. rewrite Z.shiftl_1_l, Z.land_spec, Z.lnot_spec, Z.pow2_bits_eqb, (Z.eqb_sym r s)
    by done. apply andb_comm.
Qed.

Lemma is_byte_bit i : is_byte (Z.shiftl 1 (i mod 8)).
Proof.
  rewrite Z.shiftl_1_l. unfold ubits.
  pose proof (Z.mod_pos_bound i 8). split; [apply Z.pow_nonneg; lia|].
  apply Z.pow_lt_mono_r; lia.
Qed.

(** Two positions are the same bit when they are the same byte and the same
    bit of it. *)
Lemma same_bit i j : i / 8 = j / 8 -> i mod 8 = j mod 8 -> i = j.
Proof. intros. rewrite (Z.div_mod i 8), (Z.div_mod j 8) by lia. lia. Qed.

(** ** Well-formed bitmaps and the set they hold *)

Definition divisor (sz : Z) : Z := (sz + BITVEC_NPTR - 1) / BITVEC_NPTR.

(** [wf n p]: [p] is well formed, and [iSize p] is small enough for [n]
    levels of sub-bitmaps. *)
Inductive wf : nat -> Bitvec -> Prop :=
| wf_bitmap n sz u l :
    0 <= sz <= BITVEC_NBIT ->
    as_bitmap u = Some l -> Z.of_nat (length l) = BITVEC_NELEM -> Forall is_byte l ->
    wf n (BV sz 0 0 u)
| wf_hash n sz ns u a :
    BITVEC_NBIT < sz <= BITVEC_NBIT * BITVEC_NPTR ^ Z.of_nat n ->
    as_hash u = Some a -> table a -> chained a -> Forall (fun v => 0 <= v <= sz) a ->
    occupied a = ns -> ns < BITVEC_NINT ->
    wf n (BV sz ns 0 u)
| wf_sub n sz ns u l :
    BITVEC_NBIT < sz <= BITVEC_NBIT * BITVEC_NPTR ^ Z.of_nat (S n) ->
    as_sub u = Some l -> Z.of_nat (length l) = BITVEC_NPTR ->
    (forall k q, aget l k = Some (Some q) -> wf n q) ->
    (forall k q, aget l k = Some (Some q) -> iSize q = divisor sz) ->
    wf (S n) (BV sz ns (divisor sz) u).

(** Bit [i] (from 0) is set. *)
Inductive bv_mem : Bitvec -> Z -> Prop :=
| mem_bitmap sz ns u i l b :
    sz <= BITVEC_NBIT -> as_bitmap u = Some l -> aget l (i / 8) = Some b ->
    Z.testbit b (i mod 8) = true -> bv_mem (BV sz ns 0 u) i
| mem_hash sz ns u i a :
    BITVEC_NBIT < sz -> as_hash u = Some a -> hmem a (i + 1) -> bv_mem (BV sz ns 0 u) i
| mem_sub sz ns d u i l q :
    d <> 0 -> as_sub u = Some l -> aget l (i / d) = Some (Some q) -> bv_mem q (i mod d) ->
    bv_mem (BV sz ns d u) i.

Lemma divisor_pos sz : BITVEC_NBIT < sz -> 0 < divisor sz.
Proof.
  unfold divisor. change BITVEC_NBIT with 3968. change BITVEC_NPTR with 62. intros.
  apply Z.div_str_pos. lia.
Qed.

Lemma divisor_bin sz i :
  BITVEC_NBIT < sz -> 0 <= i < sz -> 0 <= i / divisor sz < BITVEC_NPTR.
Proof.
  intros Hs Hi. pose proof (divisor_pos sz Hs). split; [apply Z.div_pos; lia|].
  apply Z.div_lt_upper_bound; [lia|]. unfold divisor in *.
  change BITVEC_NPTR with 62 in *. pose proof (Z.div_mod (sz + 62 - 1) 62).
  pose proof (Z.mod_pos_bound (sz + 62 - 1) 62). lia.
Qed.

Lemma divisor_level sz n :
  BITVEC_NBIT < sz <= BITVEC_NBIT * BITVEC_NPTR ^ Z.of_nat (S n) ->
  0 <= divisor sz <= BITVEC_NBIT * BITVEC_NPTR ^ Z.of_nat n.
Proof.
  intros [H1 H2]. split; [pose proof (divisor_pos sz H1); lia|].
  rewrite Nat2Z.inj_succ, Z.pow_succ_r in H2 by lia.
  unfold divisor. change BITVEC_NPTR with 62 in *. set (P := 62 ^ Z.of_nat n) in *.
  assert ((sz + 62 - 1) / 62 < BITVEC_NBIT * P + 1); [|lia].
  apply Z.div_lt_upper_bound; lia.
Qed.

Lemma bitmap_get (l : list Z) i :
  Z.of_nat (length l) = BITVEC_NELEM -> 0 <= i < BITVEC_NBIT ->
  exists b, aget l (i / 8) = Some b.
Proof.
  intros Hl Hi. apply aget_is_Some. rewrite Hl. change BITVEC_NELEM with 496.
  change BITVEC_NBIT with 3968 in Hi. split; [apply Z.div_pos; lia|].
  apply Z.div_lt_upper_bound; lia.
Qed.

(** testLoop decides membership when the fuel covers the levels. *)
Lemma testLoop_spec n p : wf n p -> forall f i, (S n <= f)%nat -> 0 <= i < iSize p ->
  exists b, testLoop f p i = Some b /\ (b = true <-> bv_mem p i).
Proof.
  induction 1 as [n sz u l Hsz Hl Hlen HF|n sz ns u a Hsz Ha Ht Hc HF Ho Hn
                 |n sz ns u l Hsz Hl Hlen Hwf IH Hq]; intros [|f] i Hf Hi; try lia; simpl in Hi.
  - simpl. rewrite (proj2 (Z.leb_le sz _)) by lia. rewrite Hl. simpl.
    destruct (bitmap_get l i Hlen) as [b Hb]; [lia|].
    change (i / BITVEC_SZELEM) with (i / 8). rewrite Hb. simpl.
    eexists. split; [done|].
    rewrite land7, test_bit by (apply Z.mod_pos_bound; lia). split.
    + intros. econstructor; eauto. lia.
    + inversion 1; subst; simplify_eq; try lia. done.
  - simpl. rewrite (proj2 (Z.leb_gt sz _)) by lia. rewrite Ha. simpl.
    replace (BITVEC_HASH i) with (BITVEC_HASH (i + 1 - 1)) by (f_equal; lia).
    destruct (test_probe_ok a (i + 1)) as (b & Hb & Hm); [done|done| |lia|].
    { apply occupied_free; [done|lia]. }
    exists b. split; [done|]. rewrite Hm. split.
    + intros. eapply mem_hash; eauto. lia.
    + inversion 1; subst; simplify_eq; try lia. done.
  - pose proof (divisor_pos sz) as Hd. cbn [testLoop iDivisor].
    rewrite (proj2 (Z.eqb_neq (divisor sz) 0)) by lia. cbn [negb bv_u]. rewrite Hl. cbn.
    destruct (aget_is_Some l (i / divisor sz)) as [q Hget].
    { rewrite Hlen. apply divisor_bin; lia. }
    rewrite Hget. cbn. destruct q as [q|].
    + destruct (IH _ _ Hget f (i mod divisor sz)) as (b & Hb & Hm); [lia| |].
      { rewrite (Hq _ _ Hget). apply Z.mod_pos_bound. lia. }
      exists b. split; [done|]. rewrite Hm. split.
      * intros. eapply mem_sub; eauto. lia.
      * inversion 1; subst; simplify_eq; try lia. done.
    + exists false. split; [done|]. split; [done|].
      inversion 1; subst; simplify_eq; try lia.
Qed.

(** A fresh bitmap is well formed and empty. *)
Lemma create_wf n sz :
  0 <= sz <= BITVEC_NBIT * BITVEC_NPTR ^ Z.of_nat n -> wf n (BV sz 0 0 U_zero).
Proof.
  intros Hsz. destruct (decide (sz <= BITVEC_NBIT)).
  - eapply wf_bitmap; [lia|done|done|]. apply Forall_replicate. unfold ubits. lia.
  - eapply wf_hash; [lia|done|done| | |reflexivity|reflexivity].
    + intros k v Hv%aget_replicate_inv. done.
    + apply Forall_replicate. lia.
Qed.

Lemma as_zero_inv {A} (n : nat) (x : A) l :
  Some (replicate n x) = Some l -> l = replicate n x.
Proof. intros H. by apply (inj Some) in H. Qed.

Lemma create_empty sz i : ~ bv_mem (BV sz 0 0 U_zero) i.
Proof.
  inversion 1 as [? ? ? ? l b ? Hl Hb Hbit|? ? ? ? a ? Ha [? [k Hk]]|]; subst; [| |done].
  - apply as_zero_inv in Hl as ->. apply aget_replicate_inv in Hb as ->. by rewrite Z.testbit_0_l in Hbit.
  - apply as_zero_inv in Ha as ->. apply aget_replicate_inv in Hk. lia.
Qed.

(** A freshly subdivided bitmap is empty, too. *)
Lemma subdivided_empty sz ns d i : d <> 0 -> ~ bv_mem (BV sz ns d U_zero) i.
Proof.
  intros Hd. inversion 1 as [|?|? ? ? ? ? l q ? Hl Hq]; subst; [done..|].
  apply as_zero_inv in Hl as ->. by apply aget_replicate_inv in Hq.
Qed.

(** ** Memory held by a bitmap *)

Fixpoint nodes (p : Bitvec) : Z :=
  match p with
  | BV _ _ _ (U_sub l) =>
      1 + foldr (fun q s => match q with Some q => nodes q | None => 0 end + s) 0 l
  | BV _ _ _ _ => 1
  end.

Definition onodes (q : option Bitvec) : Z :=
  match q with Some q => nodes q | None => 0 end.

Definition sub_nodes (l : list (option Bitvec)) : Z :=
  foldr (fun q s => onodes q + s) 0 l.

Lemma nodes_sub sz ns d u l : as_sub u = Some l -> nodes (BV sz ns d u) = 1 + sub_nodes l.
Proof.
  destruct u as [| | |l']; try done.
  - by intros ->%as_zero_inv.
  - by intros [= <-].
Qed.

Lemma nodes_hash sz ns d u a : as_hash u = Some a -> nodes (BV sz ns d u) = 1.
Proof. by destruct u. Qed.

Lemma sub_nodes_set l k q q' l' :
  aget l k = Some q -> aset l k q' = Some l' ->
  sub_nodes l' = sub_nodes l - onodes q + onodes q'.
Proof.
  intros Hq [Hr ->]%aset_Some_inv. unfold aget in Hq. rewrite decide_True in Hq by lia.
  revert Hq. generalize (Z.to_nat k). clear Hr. induction l as [|x l IH]; [done|].
  intros [|n] Hn; simpl in Hn |- *.
  - injection Hn as ->. lia.
  - rewrite (IH n Hn). lia.
Qed.

(** ** sqlite3BitvecSet *)

(** What a call that sets bit [i] (from 0) of [p] guarantees. *)
Definition set_post (n : nat) (m : Mem) (p : Bitvec) (i : Z) (r : Z * Bitvec * Mem) : Prop :=
  let '(rc, p', m') := r in
  wf n p' /\ iSize p' = iSize p /\ (iDivisor p <> 0 -> iDivisor p' <> 0) /\
  (rc = SQLITE_OK \/ rc = SQLITE_NOMEM) /\
  (forall j, 0 <= j < iSize p -> bv_mem p' j -> j = i \/ bv_mem p j) /\
  (rc = SQLITE_OK -> forall j, 0 <= j < iSize p -> j = i \/ bv_mem p j -> bv_mem p' j) /\
  (no_oom m -> rc = SQLITE_OK /\ no_oom m') /\
  m_live m' - nodes p' = m_live m - nodes p.

(** The bitmap representation. *)
Lemma setLeaf_bitmap rec n m sz u l i :
  0 <= sz <= BITVEC_NBIT ->
  as_bitmap u = Some l -> Z.of_nat (length l) = BITVEC_NELEM -> Forall is_byte l ->
  0 <= i < sz ->
  exists r, setLeaf rec m (BV sz 0 0 u) i = Some r /\ set_post n m (BV sz 0 0 u) i r.
Proof.
  intros Hsz Hl Hlen HF Hi. unfold setLeaf. simpl.
  rewrite (proj2 (Z.leb_le sz _)) by lia. rewrite Hl. cbn [mbind option_bind].
  destruct (bitmap_get l i Hlen) as [b Hb]; [lia|].
  change (i / BITVEC_SZELEM) with (i / 8). rewrite Hb, land7. cbn [mbind option_bind].
  set (b' := Z.lor b (Z.shiftl 1 (i mod 8))).
  pose proof (aset_is_Some l (i / 8) b' (aget_Some_range _ _ _ Hb)) as Hs. rewrite Hs.
  cbn [mbind option_bind]. eexists. split; [done|].
  set (l' := <[Z.to_nat (i / 8):=b']> l) in *.
  pose proof (Z.mod_pos_bound i 8 ltac:(lia)).
  unfold set_post. cbn [with_u iSize iDivisor nodes].
  repeat match goal with |- _ /\ _ => split end; try done; try tauto.
  - eapply wf_bitmap; [done|done| |].
    + by rewrite (length_aset _ _ _ _ Hs).
    + apply Forall_insert; [done|]. apply ubits_lor; [lia| |apply is_byte_bit].
      by eapply aget_Forall.
  - intros j Hj. inversion 1 as [? ? ? ? l0 b0 ? Hl0 Hb0 Hbit|?|?]; subst; [|lia|done].
    injection Hl0 as <-. rewrite (aget_aset _ _ _ _ _ Hs) in Hb0. case_decide as Hd.
    + injection Hb0 as <-. unfold b' in Hbit.
      rewrite set_bit in Hbit by (try apply Z.mod_pos_bound; lia).
      apply orb_true_iff in Hbit as [Hbit|Hbit].
      * left. apply Z.eqb_eq in Hbit. by apply same_bit.
      * right. eapply mem_bitmap; eauto. by rewrite <- Hd.
    + right. eapply mem_bitmap; eauto.
  - intros _ j Hj Hm. destruct (decide (i / 8 = j / 8)) as [Hd|Hd].
    + eapply mem_bitmap; [lia|done| |].
      { rewrite <- Hd. by eapply aget_aset_eq. }
      unfold b'. rewrite set_bit by (try apply Z.mod_pos_bound; lia).
      apply orb_true_iff. destruct Hm as [->|Hm]; [left; apply Z.eqb_refl|right].
      inversion Hm; subst; simplify_eq; try lia. congruence.
    + destruct Hm as [->|Hm]; [done|].
      inversion Hm; subst; simplify_eq; try lia.
      eapply mem_bitmap; [done|done| |done]. by rewrite (aget_aset_ne _ _ _ _ _ Hs).
  - destruct u; try done; lia.
Qed.

Section Rehash.
(** The recursive calls of the rehash branch act on a subdivided bitmap. *)
Context (n : nat) (rec : Mem -> Bitvec -> Z -> option (Z * Bitvec * Mem)).
Hypothesis rec_spec : forall m p i,
  wf n p -> iDivisor p <> 0 -> 0 < i <= iSize p ->
  exists r, rec m p i = Some r /\ set_post n m p (i - 1) r.

Lemma rc_lor rc rc' :
  (rc = SQLITE_OK \/ rc = SQLITE_NOMEM) -> (rc' = SQLITE_OK \/ rc' = SQLITE_NOMEM) ->
  (Z.lor rc rc' = SQLITE_OK \/ Z.lor rc rc' = SQLITE_NOMEM) /\
  (Z.lor rc rc' = SQLITE_OK <-> rc = SQLITE_OK /\ rc' = SQLITE_OK).
Proof.
  unfold SQLITE_OK, SQLITE_NOMEM.
  intros [->| ->] [->| ->]; simpl; split; try tauto; split; try tauto; lia.
Qed.

Lemma reinsert_spec vs : forall rc p m,
  wf n p -> iDivisor p <> 0 -> Forall (fun v => 0 <= v <= iSize p) vs ->
  (rc = SQLITE_OK \/ rc = SQLITE_NOMEM) ->
  exists rc' p' m', reinsert rec vs rc p m = Some (rc', p', m') /\
    wf n p' /\ iSize p' = iSize p /\ iDivisor p' <> 0 /\
    (rc' = SQLITE_OK \/ rc' = SQLITE_NOMEM) /\
    (forall j, 0 <= j < iSize p -> bv_mem p' j -> bv_mem p j \/ (j + 1) ∈ vs) /\
    (rc' = SQLITE_OK -> rc = SQLITE_OK /\
       forall j, 0 <= j < iSize p -> bv_mem p j \/ (j + 1) ∈ vs -> bv_mem p' j) /\
    (no_oom m -> rc = SQLITE_OK -> rc' = SQLITE_OK /\ no_oom m') /\
    m_live m' - nodes p' = m_live m - nodes p.
Proof.
  induction vs as [|v vs IH]; intros rc p m Hwf Hd HF Hrc; cbn [reinsert].
  { do 3 eexists. split; [done|]. repeat (split; [done||tauto|]).
    split; [intros; split; [done|]; intros ? ? [|?%not_elem_of_nil]; done|]. done. }
  apply Forall_cons in HF as [Hv HF].
  destruct (Z.eqb_spec v 0) as [->|Hv0].
  { destruct (IH rc p m Hwf Hd HF Hrc) as (rc' & p' & m' & Hr & W & S & D & R & M1 & M2 & O & L).
    do 3 eexists. split; [done|]. repeat (split; [done|]). split; [|split; [|done]].
    - intros j Hj Hm. destruct (M1 j Hj Hm); [by left|right; apply elem_of_cons; by right].
    - intros E. destruct (M2 E) as [? Hm]. split; [done|]. intros j Hj [?|Hin]; [by apply Hm; [|left]|].
      apply Hm; [done|]. right. apply elem_of_cons in Hin as [?|?]; [lia|done]. }
  destruct (rec_spec m p v) as ([[rc1 p1] m1] & Hr & W1 & S1 & D1 & R1 & A1 & B1 & O1 & L1); [done|done|lia|].
  rewrite Hr. cbn [mbind option_bind].
  destruct (rc_lor rc rc1) as [Hor Hok]; [done|done|].
  destruct (IH (Z.lor rc rc1) p1 m1) as (rc' & p' & m' & Hr' & W & S & D & R & M1 & M2 & O & L);
    [done|tauto|by rewrite S1|done|].
  do 3 eexists. split; [done|]. rewrite S1 in *. repeat (split; [done|]). split; [|split; [|split; [|lia]]].
  - intros j Hj Hm. destruct (M1 j Hj Hm) as [Hm1|?]; [|right; apply elem_of_cons; by right].
    destruct (A1 j Hj Hm1) as [->|?]; [right|by left]. apply elem_of_cons. left. lia.
  - intros E. destruct (M2 E) as [Hrcs Hm]. apply Hok in Hrcs as [-> ->].
    split; [done|]. intros j Hj Hin. apply Hm; [done|].
    destruct Hin as [?|[Hjv|?]%elem_of_cons]; [|left|by right].
    + left. apply B1; [done|done|by right].
    + apply B1; [done|done|]. left. lia.
  - intros Hno ->. destruct (O1 Hno) as [-> Hno1]. by apply O.
Qed.

Lemma hmem_In a v : hmem a v <-> v <> 0 /\ v ∈ a.
Proof.
  unfold hmem. split; intros [Hv H]; (split; [done|]).
  - destruct H as [k Hk]. unfold aget in Hk. case_decide; [|done].
    by apply list_elem_of_lookup_2 in Hk.
  - apply list_elem_of_lookup in H as [k Hk]. exists (Z.of_nat k).
    unfold aget. rewrite decide_True by lia. by rewrite Nat2Z.id.
Qed.

(** The hash representation, when the table is subdivided: every value goes
    back into the new sub-bitmaps. *)
Lemma rehash_spec m sz ns u a i :
  (exists k, n = S k) ->
  BITVEC_NBIT < sz <= BITVEC_NBIT * BITVEC_NPTR ^ Z.of_nat n ->
  as_hash u = Some a -> Forall (fun v => 0 <= v <= sz) a -> 0 < i <= sz ->
  exists rc p1 m1 rc' p' m',
    rec m (BV sz ns (divisor sz) U_zero) i = Some (rc, p1, m1) /\
    reinsert rec a rc p1 m1 = Some (rc', p', m') /\
    set_post n m (BV sz ns 0 u) (i - 1) (rc', p', m').
Proof.
  intros [k Hk] Hsz Ha HF Hi. pose proof (divisor_pos sz) as Hdp.
  assert (wf n (BV sz ns (divisor sz) U_zero)) as Hwf.
  { subst n. eapply wf_sub; [done|done|done| |];
      intros ? ? Hq%aget_replicate_inv; done. }
  destruct (rec_spec m _ i Hwf) as ([[rc p1] m1] & Hr & W1 & S1 & D1 & R1 & A1 & B1 & O1 & L1);
    [simpl; lia|done|].
  simpl in S1, D1, A1, B1, L1.
  destruct (reinsert_spec a rc p1 m1) as (rc' & p' & m' & Hr' & W & S & D & R & M1 & M2 & O & L);
    [done|apply D1; lia|by rewrite S1|done|].
  rewrite S1 in *. do 6 eexists. split; [done|]. split; [done|]. unfold set_post. simpl.
  rewrite S. repeat (split; [done|]). split; [|split; [|split]].
  - intros j Hj Hm. destruct (M1 j Hj Hm) as [Hm1|Hin].
    + destruct (A1 j Hj Hm1) as [?|Hx]; [by left|].
      exfalso. eapply subdivided_empty; [|exact Hx]. lia.
    + right. eapply mem_hash; [lia|done|]. apply hmem_In. split; [lia|done].
  - intros E j Hj Hm. destruct (M2 E) as [-> Hall]. apply Hall; [done|].
    destruct Hm as [->|Hm]; [left; apply B1; [done|done|by left]|].
    right. inversion Hm; subst; simplify_eq; try lia.
    match goal with H : hmem _ _ |- _ => by apply hmem_In in H as [_ ?] end.
  - intros Hno. destruct (O1 Hno) as [-> ?]. by apply O.
  - destruct u; simpl in *; simplify_eq/=; lia.
Qed.

Lemma set_end_spec m sz ns u a i k :
  BITVEC_NBIT < sz <= BITVEC_NBIT * BITVEC_NPTR ^ Z.of_nat n ->
  as_hash u = Some a -> table a -> chained a -> Forall (fun v => 0 <= v <= sz) a ->
  occupied a = ns -> ns < BITVEC_NINT - 1 -> 0 < i <= sz -> first_free a i k ->
  exists a', aset a k i = Some a' /\
    set_post n m (BV sz ns 0 u) (i - 1) (SQLITE_OK, BV sz (ns + 1) 0 (U_hash a'), m).
Proof.
  intros Hsz Ha Ht Hc HF Ho Hn Hi Hk.
  destruct (insert_first_free a i k) as (a' & Hs & Ht' & Hc' & Ho' & Hm); [done|done|lia|done|].
  exists a'. split; [done|]. unfold set_post. simpl.
  split; [eapply wf_hash; [done|done|done|done| |lia|lia]|].
  { apply aset_Some_inv in Hs as [_ ->]. apply Forall_insert; [done|lia]. }
  do 2 (split; [done|]). split; [by left|]. split; [|split; [|split; [done|]]].
  - intros j Hj. inversion 1; subst; simplify_eq/=; try lia.
    match goal with H : hmem _ _ |- _ => apply Hm in H as [?|?] end; [left; lia|right].
    eapply mem_hash; [lia|done|done].
  - intros _ j Hj Hin. eapply mem_hash; [lia|done|]. apply Hm.
    destruct Hin as [->|Hin]; [left; lia|right]. inversion Hin; subst; simplify_eq/=; try lia. done.
  - by destruct u.
Qed.

(** The hash representation. *)
Lemma setLeaf_hash m sz ns u a i :
  (exists k, n = S k) ->
  BITVEC_NBIT < sz <= BITVEC_NBIT * BITVEC_NPTR ^ Z.of_nat n ->
  as_hash u = Some a -> table a -> chained a -> Forall (fun v => 0 <= v <= sz) a ->
  occupied a = ns -> ns < BITVEC_NINT -> 0 <= i < sz ->
  exists r, setLeaf rec m (BV sz ns 0 u) i = Some r /\ set_post n m (BV sz ns 0 u) i r.
Proof.
  intros Hk Hsz Ha Ht Hc HF Ho Hn Hi.
  assert (has_free a) as Hfree by (apply occupied_free; [done|lia]).
  assert (forall k, first_free a (i + 1) k -> ns < BITVEC_NINT - 1 -> exists r,
    (a' ← aset a k (i + 1); Some (SQLITE_OK, BV sz (ns + 1) 0 (U_hash a'), m)) = Some r /\
    set_post n m (BV sz ns 0 u) i r) as Hend.
  { intros k Hff Hlt.
    destruct (set_end_spec m sz ns u a (i + 1) k) as (a' & Hs & Hpost); try done; [lia|].
    replace (i + 1 - 1) with i in Hpost by lia. rewrite Hs. eauto. }
  assert (exists r,
    match malloc m with
    | (false, m) => Some (SQLITE_NOMEM, BV sz ns 0 u, m)
    | (true, m) =>
        '(rc, p, m) ← rec m (BV sz ns (divisor sz) U_zero) (i + 1);
        '(rc, p, m) ← reinsert rec a rc p m; Some (rc, p, mfree m)
    end = Some r /\ set_post n m (BV sz ns 0 u) i r) as Hrehash.
  { destruct (malloc_cases m) as [(o & -> & Ho')|(o & -> & Ho')].
    - destruct (rehash_spec (mkMem o (m_live m + 1)) sz ns u a (i + 1))
        as (rc & p1 & m1 & rc' & p' & m' & H1 & H2 & H3); try done; [lia|].
      rewrite H1. cbn [mbind option_bind]. rewrite H2. cbn [mbind option_bind].
      replace (i + 1 - 1) with i in H3 by lia.
      eexists. split; [done|]. destruct H3 as (W & S & D & R & M1 & M2 & O & L).
      do 6 (split; [done|]). split; [intros Hno; by apply O, Ho'|]. simpl in *. lia.
    - eexists. split; [done|]. split; [by eapply wf_hash|]. do 2 (split; [done|]).
      split; [by right|]. split; [by right|]. split; [done|]. split; [done|]. simpl. lia. }
  unfold setLeaf. cbn [iSize bv_u nSet iDivisor].
  rewrite (proj2 (Z.leb_gt sz _)) by lia. rewrite Ha. cbn [mbind option_bind].
  change ((sz + BITVEC_NPTR - 1) / BITVEC_NPTR) with (divisor sz).
  assert (BITVEC_HASH i = BITVEC_HASH (i + 1 - 1)) as Hh by (f_equal; lia).
  destruct (table_get a (BITVEC_HASH i) 0 Ht) as [v Hv]. rewrite slot_0 in Hv. rewrite Hv.
  cbn [mbind option_bind]. destruct (Z.eqb_spec v 0) as [->|Hv0].
  - destruct (Z.ltb_spec ns (BITVEC_NINT - 1)).
    + apply Hend; [|done]. split; [done|]. exists 0. rewrite Hh, slot_0. repeat split; try done; lia.
    + rewrite (proj2 (Z.leb_le _ _)) by (change BITVEC_MXHASH with 62; rewrite NINT_val in *; lia).
      apply Hrehash.
  - rewrite Hh. destruct (set_probe_ok a (i + 1)) as [[-> Hm]|(k & -> & Hff & Hm)]; try done.
    { lia. }
    { rewrite <- Hh. congruence. }
    + cbn [mbind option_bind]. eexists. split; [done|]. split; [by eapply wf_hash|].
      do 2 (split; [done|]). split; [by left|]. split; [by right|].
      split; [|split; [done|lia]]. intros _ j Hj [->|?]; [|done]. eapply mem_hash; [lia|done|done].
    + cbn [mbind option_bind]. destruct (Z.leb_spec BITVEC_MXHASH ns); [apply Hrehash|].
      apply Hend; [done|]. change BITVEC_MXHASH with 62 in *. rewrite NINT_val. lia.
Qed.
End Rehash.

(** Replacing sub-bitmap [bin] of a subdivided bitmap. *)
Lemma sub_replace n sz ns u l k q q' l' :
  BITVEC_NBIT < sz <= BITVEC_NBIT * BITVEC_NPTR ^ Z.of_nat (S n) ->
  as_sub u = Some l -> Z.of_nat (length l) = BITVEC_NPTR ->
  (forall k q, aget l k = Some (Some q) -> wf n q) ->
  (forall k q, aget l k = Some (Some q) -> iSize q = divisor sz) ->
  aget l k = Some q -> wf n q' -> iSize q' = divisor sz ->
  aset l k (Some q') = Some l' ->
  wf (S n) (BV sz ns (divisor sz) (U_sub l')) /\
  nodes (BV sz ns (divisor sz) (U_sub l')) =
    nodes (BV sz ns (divisor sz) u) - onodes q + nodes q' /\
  (forall j, bv_mem (BV sz ns (divisor sz) (U_sub l')) j <->
     if decide (j / divisor sz = k) then bv_mem q' (j mod divisor sz)
     else bv_mem (BV sz ns (divisor sz) u) j).
Proof.
  intros Hsz Hl Hlen Hwf Hq Hget Hwf' Hsz' Hs. pose proof (divisor_pos sz) as Hd.
  split; [|split].
  - eapply wf_sub; [done|done|by rewrite (length_aset _ _ _ _ Hs)| |];
      intros k0 q0 Hk0; rewrite (aget_aset _ _ _ _ _ Hs) in Hk0; case_decide; simplify_eq; eauto.
  - rewrite (nodes_sub _ _ _ u l Hl), (nodes_sub _ _ _ (U_sub l') l') by done.
    rewrite (sub_nodes_set _ _ _ _ _ Hget Hs). simpl. lia.
  - intros j. case_decide as Hj.
    + split.
      * inversion 1 as [|?|? ? ? ? ? l0 q0 ? Hl0 Hq0]; subst; try lia.
        injection Hl0 as <-. by rewrite (aget_aset_eq _ _ _ _ Hs) in Hq0; simplify_eq.
      * intros. eapply mem_sub; [lia|done| |done]. subst k. by eapply aget_aset_eq.
    + split; inversion 1 as [|?|? ? ? ? ? l0 q0 ? Hl0 Hq0]; subst; try lia;
        (eapply mem_sub; [lia|done| |done]); simplify_eq/=.
      * by rewrite (aget_aset_ne _ _ _ _ _ Hs) in Hq0 by done.
      * by rewrite (aget_aset_ne _ _ _ _ _ Hs) by done.
Qed.

(** Bits in the same bin with the same remainder are the same bit. *)
Lemma same_bin d i j : 0 < d -> i / d = j / d -> i mod d = j mod d -> i = j.
Proof. intros. rewrite (Z.div_mod i d), (Z.div_mod j d) by lia. congruence. Qed.

(** Membership in a subdivided bitmap is membership in the sub-bitmap. *)
Lemma bv_mem_sub sz ns u l j q :
  BITVEC_NBIT < sz -> as_sub u = Some l -> aget l (j / divisor sz) = Some q ->
  bv_mem (BV sz ns (divisor sz) u) j <->
  match q with Some q => bv_mem q (j mod divisor sz) | None => False end.
Proof.
  intros Hsz Hl Hq. pose proof (divisor_pos sz Hsz). split.
  - inversion 1; subst; try lia. by simplify_eq.
  - destruct q; [|done]. intros. eapply mem_sub; eauto. lia.
Qed.

(** Descending into sub-bitmap [q] (an existing one, or a new empty one) and
    setting a bit there. *)
Lemma set_in_sub n m m0 sz ns u l oq q i :
  BITVEC_NBIT < sz <= BITVEC_NBIT * BITVEC_NPTR ^ Z.of_nat (S n) ->
  as_sub u = Some l -> Z.of_nat (length l) = BITVEC_NPTR ->
  (forall k q, aget l k = Some (Some q) -> wf n q) ->
  (forall k q, aget l k = Some (Some q) -> iSize q = divisor sz) ->
  0 <= i < sz -> aget l (i / divisor sz) = Some oq ->
  iSize q = divisor sz -> m_live m0 - nodes q = m_live m - onodes oq ->
  (no_oom m -> no_oom m0) ->
  (forall j, bv_mem q j <-> match oq with Some q => bv_mem q j | None => False end) ->
  forall rc q' m', set_post n m0 q (i mod divisor sz) (rc, q', m') ->
  exists l', aset l (i / divisor sz) (Some q') = Some l' /\
    set_post (S n) m (BV sz ns (divisor sz) u) i
      (rc, BV sz ns (divisor sz) (U_sub l'), m').
Proof.
  intros Hsz Hl Hlen Hwf Hq Hi Hget Hsq Hlive Hoom Hmem rc q' m' (W & S & D & R & M1 & M2 & O & L).
  pose proof (divisor_pos sz) as Hd.
  pose proof (aset_is_Some l (i / divisor sz) (Some q') (aget_Some_range _ _ _ Hget)) as Hs.
  eexists. split; [exact Hs|].
  edestruct sub_replace as (W' & N' & Mm'); [done|exact Hl|done..|exact Hget|exact W|congruence|exact Hs|].
  split; [exact W'|]. split; [done|]. split; [done|]. split; [done|]. cbn [iSize].
  assert (forall j, 0 <= j mod divisor sz < iSize q) as Hr
    by (intros; rewrite Hsq; apply Z.mod_pos_bound; lia).
  split; [|split; [|split]].
  - intros j Hj Hm. apply Mm' in Hm. case_decide as Hjb; [|by right].
    destruct (M1 _ (Hr j) Hm) as [?|Hm0]; [left; eapply same_bin; [|done..]; lia|right].
    eapply bv_mem_sub; [lia|done|by rewrite Hjb|]. by apply Hmem.
  - intros E j Hj Hin. apply Mm'. case_decide as Hjb.
    + apply M2; [done|done|]. destruct Hin as [->|Hm]; [by left|right].
      apply Hmem. rewrite bv_mem_sub in Hm; [done|lia|done|by rewrite Hjb].
    + destruct Hin as [->|?]; [done|done].
  - intros Hno. by apply O, Hoom.
  - rewrite N'. lia.
Qed.

Definition set_ok (n : nat) : Prop := forall p f m i,
  wf n p -> ((if decide (iDivisor p = 0%Z) then 2 * n + 2 else 2 * n + 1) <= f)%nat ->
  0 <= i < iSize p ->
  exists r, setLoop f m p i = Some r /\ set_post n m p i r.

(** One level of sub-bitmaps. *)
Lemma setLoop_sub n : set_ok n -> forall p f m i,
  wf (S n) p -> iDivisor p <> 0 -> (2 * n + 3 <= f)%nat -> 0 <= i < iSize p ->
  exists r, setLoop f m p i = Some r /\ set_post (S n) m p i r.
Proof.
  intros IHn p f m i Hwf Hdiv Hf Hi. destruct f; [lia|].
  inversion Hwf as [|?|? sz ns u l Hsz Hl Hlen Hwfs Hqs]; subst; simpl in Hdiv; [done..|].
  simpl in Hi. cbn [setLoop iDivisor iSize bv_u].
  rewrite (proj2 (Z.ltb_lt _ _)) by lia. rewrite (proj2 (Z.eqb_neq _ _)) by done.
  cbn [andb negb]. rewrite Hl. cbn [mbind option_bind].
  destruct (aget_is_Some l (i / divisor sz)) as [oq Hget].
  { rewrite Hlen. apply divisor_bin; lia. }
  rewrite Hget. cbn [mbind option_bind].
  pose proof (divisor_pos sz ltac:(lia)) as Hdp.
  assert (0 <= i mod divisor sz < divisor sz) as Hmod by (apply Z.mod_pos_bound; lia).
  destruct oq as [q|].
  - destruct (IHn q f m (i mod divisor sz)) as ([[rc q'] m'] & -> & Hpost);
      [by eapply Hwfs|case_decide; lia|by rewrite (Hqs _ _ Hget)|].
    cbn [mbind option_bind].
    edestruct (set_in_sub n m m sz ns u l (Some q) q i) as (l' & -> & Hp); try done.
    { by eapply Hqs. }
    cbn [mbind option_bind]. eauto.
  - unfold sqlite3BitvecCreate. destruct (malloc_cases m) as [(o & -> & Ho)|(o & -> & Ho)].
    + destruct (IHn (BV (divisor sz) 0 0 U_zero) f (mkMem o (m_live m + 1)) (i mod divisor sz))
        as ([[rc q'] m'] & -> & Hpost); [by apply create_wf, divisor_level|simpl; lia|done|].
      cbn [mbind option_bind].
      edestruct (set_in_sub n m (mkMem o (m_live m + 1)) sz ns u l None (BV (divisor sz) 0 0 U_zero) i)
        as (l' & -> & Hp); try done.
      { simpl. lia. }
      { intros j. split; [by intros ?%create_empty|done]. }
      cbn [mbind option_bind]. eauto.
    + eexists. split; [done|]. split; [done|]. do 2 (split; [done|]). split; [by right|].
      split; [by right|]. split; [done|]. split; [done|]. simpl. lia.
Qed.

Lemma setLoop_spec n : set_ok n.
Proof.
  induction n as [|n IHn]; intros p f m i Hwf Hf Hi.
  { destruct f; [case_decide; lia|].
    inversion Hwf; subst; simpl in Hi; [|simpl in *; lia].
    cbn [setLoop iDivisor iSize]. rewrite andb_false_r. by eapply setLeaf_bitmap. }
  case_decide as Hdiv; [|apply setLoop_sub; [done..|lia|done]].
  destruct f; [lia|].
  cbn [setLoop]. rewrite Hdiv, andb_false_r.
  inversion Hwf as [|?|]; subst; simpl in Hdiv, Hi.
  - by eapply setLeaf_bitmap.
  - eapply setLeaf_hash; try done; [|by eexists].
    intros m0 p0 i0 Hwf0 Hdiv0 Hi0. cbn [assert_ mbind option_bind].
    rewrite (proj2 (Z.ltb_lt 0 i0)), (proj2 (Z.leb_le i0 _)) by lia. cbn.
    apply setLoop_sub; [done|done|done|lia|lia].
  - pose proof (divisor_pos sz). lia.
Qed.

(** ** sqlite3BitvecClear *)

Lemma occupied_cons v vs : occupied (v :: vs) = (if decide (v = 0) then 0 else 1) + occupied vs.
Proof.
  unfold occupied. rewrite filter_cons. repeat case_decide; try done. simpl. lia.
Qed.

(** Rebuilding the table from the old values, [x] left out. *)
Lemma rebuild_spec sz x vs : forall n a,
  table a -> chained a -> occupied a = n -> n + occupied vs < BITVEC_NINT ->
  Forall (fun v => 0 <= v <= sz) vs -> Forall (fun v => 0 <= v <= sz) a ->
  exists n' a', rebuild vs x n a = Some (n', a') /\
    table a' /\ chained a' /\ occupied a' = n' /\ n' < BITVEC_NINT /\
    Forall (fun v => 0 <= v <= sz) a' /\
    (forall y, hmem a' y <-> hmem a y \/ (y <> 0 /\ y <> x /\ y ∈ vs)).
Proof.
  induction vs as [|v vs IH]; intros n a Ht Hc Ho Hn HFv HFa; cbn [rebuild].
  { do 2 eexists. split; [done|]. repeat (split; [done|]). change (occupied []) with 0 in Hn.
    split; [lia|]. split; [done|]. intros y. pose proof (not_elem_of_nil y). tauto. }
  apply Forall_cons in HFv as [Hv HFv]. rewrite occupied_cons in Hn.
  assert (0 <= occupied vs) by (unfold occupied; lia).
  destruct (Z.eqb_spec v 0) as [->|Hv0]; cbn [negb andb].
  { rewrite decide_True in Hn by done.
    destruct (IH n a) as (n' & a' & -> & ? & ? & ? & ? & ? & Hm); [done..|lia|done|done|].
    do 2 eexists. split; [done|]. repeat (split; [done|]). intros y. rewrite Hm.
    rewrite elem_of_cons. intuition congruence. }
  destruct (Z.eqb_spec v x) as [->|Hvx]; cbn [negb andb].
  { rewrite decide_False in Hn by done.
    destruct (IH n a) as (n' & a' & -> & ? & ? & ? & ? & ? & Hm); [done..|lia|done|done|].
    do 2 eexists. split; [done|]. repeat (split; [done|]). intros y. rewrite Hm.
    rewrite elem_of_cons. intuition congruence. }
  rewrite decide_False in Hn by done.
  destruct (free_probe_ok a v Ht) as (k & -> & Hff); [apply occupied_free; [done|lia]|].
  cbn [mbind option_bind].
  destruct (insert_first_free a v k) as (a1 & Hs & Ht1 & Hc1 & Ho1 & Hm1); [done..|].
  rewrite Hs. cbn [mbind option_bind].
  destruct (IH (n + 1) a1) as (n' & a' & -> & ? & ? & ? & ? & ? & Hm); [done|done|lia|lia|done| |].
  { apply aset_Some_inv in Hs as [_ ->]. by apply Forall_insert. }
  do 2 eexists. split; [done|]. repeat (split; [done|]). intros y. rewrite Hm, Hm1, elem_of_cons.
  intuition congruence.
Qed.

Definition clear_post (n : nat) (p : Bitvec) (i : Z) (p' : Bitvec) : Prop :=
  wf n p' /\ iSize p' = iSize p /\ nodes p' = nodes p /\
  forall j, 0 <= j < iSize p -> bv_mem p' j <-> j <> i /\ bv_mem p j.

Lemma clear_bitmap n f sz u l i :
  0 <= sz <= BITVEC_NBIT ->
  as_bitmap u = Some l -> Z.of_nat (length l) = BITVEC_NELEM -> Forall is_byte l ->
  0 <= i < sz ->
  exists p', clearLoop (S f) (BV sz 0 0 u) i = Some p' /\ clear_post n (BV sz 0 0 u) i p'.
Proof.
  intros Hsz Hl Hlen HF Hi. cbn [clearLoop iDivisor iSize bv_u]. simpl.
  rewrite (proj2 (Z.leb_le sz _)) by lia. rewrite Hl. cbn [mbind option_bind].
  destruct (bitmap_get l i Hlen) as [b Hb]; [lia|].
  change (i / BITVEC_SZELEM) with (i / 8). rewrite Hb, land7. cbn [mbind option_bind].
  set (b' := Z.land b (Z.lnot (Z.shiftl 1 (i mod 8)))).
  pose proof (aset_is_Some l (i / 8) b' (aget_Some_range _ _ _ Hb)) as Hs. rewrite Hs.
  cbn [mbind option_bind]. eexists. split; [done|].
  set (l' := <[Z.to_nat (i / 8):=b']> l) in *.
  pose proof (Z.mod_pos_bound i 8 ltac:(lia)).
  split; [|split; [done|split; [by destruct u|]]].
  - eapply wf_bitmap; [done|done|by rewrite (length_aset _ _ _ _ Hs)|].
    apply Forall_insert; [done|]. apply ubits_land_l; [lia|]. by eapply aget_Forall.
  - intros j Hj. cbn [with_u]. split.
    + inversion 1 as [? ? ? ? l0 b0 ? Hl0 Hb0 Hbit|?|?]; subst; [|lia|done].
      injection Hl0 as <-. rewrite (aget_aset _ _ _ _ _ Hs) in Hb0. case_decide as Hd.
      * injection Hb0 as <-. unfold b' in Hbit.
        rewrite clear_bit in Hbit by (try apply Z.mod_pos_bound; lia).
        apply andb_true_iff in Hbit as [Hne%negb_true_iff Hbit]. apply Z.eqb_neq in Hne.
        split; [by intros ->|]. eapply mem_bitmap; eauto. by rewrite <- Hd.
      * split; [by intros ->|]. eapply mem_bitmap; eauto.
    + intros [Hne Hm]. inversion Hm as [? ? ? ? l0 b0 ? Hl0 Hb0 Hbit|?|?]; subst; [|lia|done].
      simplify_eq. destruct (decide (i / 8 = j / 8)) as [Hd|Hd].
      * eapply mem_bitmap; [lia|done|rewrite <- Hd; by eapply aget_aset_eq|].
        unfold b'. rewrite clear_bit by (try apply Z.mod_pos_bound; lia).
        apply andb_true_iff. split; [|congruence]. apply negb_true_iff, Z.eqb_neq.
        intros He. apply Hne. by apply same_bit.
      * eapply mem_bitmap; [lia|done| |done]. by rewrite (aget_aset_ne _ _ _ _ _ Hs).
Qed.

Lemma clear_hash n f sz ns u a i :
  BITVEC_NBIT < sz <= BITVEC_NBIT * BITVEC_NPTR ^ Z.of_nat n ->
  as_hash u = Some a -> table a -> Forall (fun v => 0 <= v <= sz) a ->
  occupied a = ns -> ns < BITVEC_NINT -> 0 <= i < sz ->
  exists p', clearLoop (S f) (BV sz ns 0 u) i = Some p' /\ clear_post n (BV sz ns 0 u) i p'.
Proof.
  intros Hsz Ha Ht HF Ho Hn Hi. cbn [clearLoop iDivisor iSize bv_u Z.eqb negb].
  rewrite (proj2 (Z.leb_gt sz _)) by lia. rewrite Ha. cbn [mbind option_bind].
  destruct (rebuild_spec sz (i + 1) a 0 (replicate (Z.to_nat BITVEC_NINT) 0))
    as (n' & a' & -> & Ht' & Hc' & Ho' & Hn' & HF' & Hm); try done.
  { intros k v Hv%aget_replicate_inv. done. }
  { lia. }
  { apply Forall_replicate. lia. }
  cbn [mbind option_bind]. eexists. split; [done|].
  split; [by eapply wf_hash|]. split; [done|]. split; [by destruct u|].
  assert (forall y, hmem a' y <-> y <> i + 1 /\ hmem a y) as Hm'.
  { intros y. rewrite Hm, !hmem_In. split; [|tauto].
    intros [[? [=]%elem_of_replicate_inv]|?]; [done|tauto]. }
  intros j Hj. split.
  - inversion 1; subst; simplify_eq/=; try lia.
    match goal with H : hmem _ _ |- _ => apply Hm' in H as [??] end.
    split; [lia|]. by eapply mem_hash; [lia| |].
  - intros [Hne Hx]. inversion Hx; subst; simplify_eq/=; try lia.
    eapply mem_hash; [lia|done|]. apply Hm'. split; [lia|done].
Qed.

Lemma clearLoop_spec n p : wf n p -> forall f i, (S n <= f)%nat -> 0 <= i < iSize p ->
  exists p', clearLoop f p i = Some p' /\ clear_post n p i p'.
Proof.
  induction 1 as [n sz u l Hsz Hl Hlen HF|n sz ns u a Hsz Ha Ht Hc HF Ho Hn
                 |n sz ns u l Hsz Hl Hlen Hwf IH Hq]; intros [|f] i Hf Hi; try lia; simpl in Hi.
  - by eapply clear_bitmap.
  - by eapply clear_hash.
  - pose proof (divisor_pos sz ltac:(lia)) as Hd. cbn [clearLoop iDivisor bv_u].
    rewrite (proj2 (Z.eqb_neq (divisor sz) 0)) by lia. cbn [negb]. rewrite Hl. cbn [mbind option_bind].
    destruct (aget_is_Some l (i / divisor sz)) as [q Hget].
    { rewrite Hlen. apply divisor_bin; lia. }
    rewrite Hget. cbn [mbind option_bind]. destruct q as [q|].
    + destruct (IH _ _ Hget f (i mod divisor sz)) as (q' & -> & W & S & N & M); [lia| |].
      { rewrite (Hq _ _ Hget). apply Z.mod_pos_bound. lia. }
      pose proof (aset_is_Some l (i / divisor sz) (Some q') (aget_Some_range _ _ _ Hget)) as Hs.
      cbn [mbind option_bind]. rewrite Hs. cbn [mbind option_bind with_u].
      eexists. split; [done|]. rewrite (Hq _ _ Hget) in *.
      edestruct sub_replace as (W' & N' & Mm'); [done|exact Hl|done..|exact Hget|exact W|done|exact Hs|].
      split; [exact W'|]. split; [done|]. split; [rewrite N'; simpl; lia|].
      intros j Hj. rewrite Mm'. case_decide as Hjb.
      * rewrite M by (apply Z.mod_pos_bound; lia). rewrite bv_mem_sub; [|lia|done|by rewrite Hjb].
        split; intros [Hne ?]; (split; [|done]); [by intros ->|].
        intros ?. apply Hne. eapply same_bin; [|done..]. lia.
      * split; [|by intros []]. intros. split; [by intros ->|done].
    + eexists. split; [done|]. split; [by eapply wf_sub|]. do 2 (split; [done|]).
      intros j Hj. split; [|by intros []]. intros Hm. split; [|done]. intros ->.
      by rewrite bv_mem_sub in Hm; [|lia|done|done].
Qed.

(** ** sqlite3BitvecDestroy *)

Lemma destroyLoop_spec n p : wf n p -> forall f m, (S (S n) <= f)%nat ->
  destroyLoop f m (Some p) = Some (mkMem (m_next m) (m_live m - nodes p)).
Proof.
  induction 1 as [n sz u l Hsz Hl Hlen HF|n sz ns u a Hsz Ha Ht Hc HF Ho Hn
                 |n sz ns u l Hsz Hl Hlen Hwf IH Hq]; intros [|f] m Hf; try lia.
  - by destruct u.
  - by destruct u.
  - pose proof (divisor_pos sz ltac:(lia)) as Hd. cbn [destroyLoop iDivisor bv_u].
    rewrite (proj2 (Z.eqb_neq (divisor sz) 0)) by lia. cbn [negb]. rewrite Hl. cbn [mbind option_bind].
    rewrite (nodes_sub _ _ _ u l Hl).
    assert (forall l', (forall q, Some q ∈ l' -> forall m,
        destroyLoop f m (Some q) = Some (mkMem (m_next m) (m_live m - nodes q))) -> forall m,
      foldl (fun om q => m ← om; destroyLoop f m q) (Some m) l' =
      Some (mkMem (m_next m) (m_live m - sub_nodes l'))) as Hfold.
    { clear -Hf. induction l' as [|q l' IHl]; intros Hall m0; simpl.
      - destruct m0. simpl. do 2 f_equal. lia.
      - destruct f as [|f]; [lia|]. destruct q as [q|].
        + rewrite Hall by apply list_elem_of_here.
          rewrite IHl by (intros; apply Hall; by apply list_elem_of_further).
          simpl. do 2 f_equal. lia.
        + cbn [destroyLoop]. rewrite IHl by (intros; apply Hall; by apply list_elem_of_further).
          simpl. do 2 f_equal. }
    rewrite Hfold.
    + unfold mfree. cbn. do 2 f_equal. lia.
    + intros q [k Hk]%list_elem_of_lookup m0. apply (IH (Z.of_nat k)); [|lia].
      unfold aget. rewrite decide_True by lia. by rewrite Nat2Z.id.
Qed.

(** ** The interface

    [bv_repr p sz X]: [p] is a live bitmap for the bits 1 to [sz] and holds
    the set [X]. Four levels of sub-bitmaps cover every u32 size. *)

Definition bv_repr (p : Bitvec) (sz : Z) (X : Z -> bool) : Prop :=
  wf 4 p /\ iSize p = sz /\
  forall j, X j = true <-> 0 < j <= sz /\ bv_mem p (j - 1).

Lemma bv_levels sz : 0 <= sz < 2 ^ 32 -> sz <= BITVEC_NBIT * BITVEC_NPTR ^ Z.of_nat 4.
Proof.
  intros. assert (2 ^ 32 <= BITVEC_NBIT * BITVEC_NPTR ^ Z.of_nat 4) by (by vm_compute). lia.
Qed.

Lemma bv_test p sz X j :
  bv_repr p sz X -> 0 <= j -> sqlite3BitvecTest (Some p) j = Some (X j).
Proof.
  intros (W & S & M) Hj. unfold sqlite3BitvecTest. rewrite S.
  destruct (Z.ltb_spec sz j); [|destruct (Z.eqb_spec j 0)]; simpl orb; cbv iota.
  - f_equal. apply bool_iff. rewrite M. split; [done|lia].
  - f_equal. apply bool_iff. rewrite M. split; [done|lia].
  - destruct (testLoop_spec 4 p W BV_FUEL (j - 1)) as (b & -> & Hb); [unfold BV_FUEL; lia|lia|].
    f_equal. apply bool_iff. rewrite Hb, M. split; [|tauto]. split; [lia|done].
Qed.

Lemma bv_create m sz :
  0 <= sz < 2 ^ 32 ->
  (exists p m', sqlite3BitvecCreate m sz = (Some p, m') /\ bv_repr p sz (fun _ => false) /\
     m_live m' - nodes p = m_live m /\ (no_oom m -> no_oom m')) \/
  (exists m', sqlite3BitvecCreate m sz = (None, m') /\ m_live m' = m_live m /\ ~ no_oom m).
Proof.
  intros Hsz. unfold sqlite3BitvecCreate.
  destruct (malloc_cases m) as [(o & -> & Ho)|(o & -> & Ho)].
  - left. do 2 eexists. split; [done|]. split; [|split; [simpl; lia|done]].
    split; [apply create_wf; pose proof (bv_levels sz); lia|]. split; [done|].
    intros j. split; [done|]. intros [_ ?%create_empty]. done.
  - right. eauto.
Qed.

Lemma bv_set m p sz X i :
  bv_repr p sz X -> 0 < i <= sz ->
  exists rc p' m', sqlite3BitvecSet m (Some p) i = Some (rc, Some p', m') /\
    m_live m' - nodes p' = m_live m - nodes p /\
    ((rc = SQLITE_OK /\ bv_repr p' sz (fun j => (j =? i) || X j) /\ (no_oom m -> no_oom m')) \/
     (rc = SQLITE_NOMEM /\ ~ no_oom m /\ exists Y, bv_repr p' sz Y /\
        forall j, Y j = true -> j = i \/ X j = true)).
Proof.
  intros (W & S & M) Hi. unfold sqlite3BitvecSet. rewrite S.
  rewrite (proj2 (Z.ltb_lt 0 i)), (proj2 (Z.leb_le i sz)) by lia. cbn [assert_ andb mbind option_bind].
  destruct (setLoop_spec 4 p BV_FUEL m (i - 1)) as ([[rc p'] m'] & -> & Hpost);
    [done|case_decide; unfold BV_FUEL; lia|lia|].
  destruct Hpost as (W' & S' & _ & R & M1 & M2 & O & L). cbn [mbind option_bind]. rewrite S in *.
  do 3 eexists. split; [done|]. split; [done|]. destruct R as [->| ->].
  - left. split; [done|]. split; [|intros; by apply O]. split; [done|]. split; [done|].
    intros j. rewrite orb_true_iff, Z.eqb_eq, M. split.
    + intros Hj. split; [lia|]. apply M2; [done|lia|]. destruct Hj as [->|[]]; [left; lia|by right].
    + intros [Hj Hm]. destruct (M1 (j - 1)) as [?|?]; [lia|done|left; lia|by right].
  - right. split; [done|]. split; [intros Hno; by destruct (O Hno)|].
    exists (fun j => bool_decide (0 < j <= sz) &&
              match testLoop BV_FUEL p' (j - 1) with Some b => b | None => false end).
    assert (forall j, 0 < j <= sz ->
      exists b, testLoop BV_FUEL p' (j - 1) = Some b /\ (b = true <-> bv_mem p' (j - 1))) as Ht.
    { intros j Hj. apply (testLoop_spec 4 p' W'); [unfold BV_FUEL; lia|lia]. }
    split; [split; [done|split; [done|]]|].
    + intros j. rewrite andb_true_iff, bool_decide_eq_true. split.
      * intros [Hj Hb]. split; [done|]. destruct (Ht j Hj) as (b & Hb' & <-). by rewrite Hb' in Hb.
      * intros [Hj Hb]. split; [done|]. by destruct (Ht j Hj) as (b & -> & ->).
    + intros j [Hj Hb]%andb_true_iff. apply bool_decide_eq_true in Hj.
      destruct (Ht j Hj) as (b & Hb' & Hm). rewrite Hb' in Hb. apply Hm in Hb.
      destruct (M1 (j - 1)) as [?|?]; [lia|done|left; lia|right]. by apply M.
Qed.

Lemma bv_clear p sz X i :
  bv_repr p sz X -> 0 < i <= sz ->
  exists p', sqlite3BitvecClear (Some p) i = Some (Some p') /\ nodes p' = nodes p /\
    bv_repr p' sz (fun j => negb (j =? i) && X j).
Proof.
  intros (W & S & M) Hi. unfold sqlite3BitvecClear.
  rewrite (proj2 (Z.ltb_lt 0 i)) by lia. cbn [assert_ mbind option_bind].
  destruct (clearLoop_spec 4 p W BV_FUEL (i - 1)) as (p' & -> & W' & S' & N & M');
    [unfold BV_FUEL; lia|lia|].
  cbn [mbind option_bind]. eexists. split; [done|]. split; [done|]. split; [done|].
  split; [congruence|]. intros j. rewrite andb_true_iff, negb_true_iff, Z.eqb_neq, M.
  split.
  - intros (? & ? & ?). split; [done|]. apply M'; [lia|]. split; [lia|done].
  - intros [Hj Hm]. apply M' in Hm as [??]; [|lia]. split; [lia|done].
Qed.

Lemma bv_destroy m p sz X :
  bv_repr p sz X ->
  sqlite3BitvecDestroy m (Some p) = Some (mkMem (m_next m) (m_live m - nodes p)).
Proof. intros (W & _). apply (destroyLoop_spec 4 p W). unfold BV_FUEL. lia. Qed.
