(* ===== verification/BitvecTest.v ===== *)
(** * BitvecTest: the self test of bitvec.c and the properties of the bitmap

    [sqlite3BitvecBuiltinTest] interprets a program of set and clear
    operations on a [Bitvec] and on a linear array of bits, then compares the
    two.  The theorems of this file are stated on the functions callers use. *)
From S2P Require Import Prelude Bitvec.

(** ** The test interpreter *)

Definition SETBIT (V : list Z) (i : Z) : option (list Z) :=
  b ← aget V (Z.shiftr i 3);
  aset V (Z.shiftr i 3) (Z.lor b (Z.shiftl 1 (Z.land i 7))).

Definition CLEARBIT (V : list Z) (i : Z) : option (list Z) :=
  b ← aget V (Z.shiftr i 3);
  aset V (Z.shiftr i 3) (Z.land b (Z.lnot (Z.shiftl 1 (Z.land i 7)))).

Definition TESTBIT (V : list Z) (i : Z) : option bool :=
  b ← aget V (Z.shiftr i 3);
  Some (negb (Z.land b (Z.shiftl 1 (Z.land i 7)) =? 0)).

(** [rnd] holds the results of the calls of sqlite3_randomness() still to
    come. *)
Record tstate := mkT {
  t_pc : Z; t_op : list Z; t_V : list Z; t_bv : option Bitvec; t_m : Mem; t_rnd : list Z }.

(** One round of the while loop: [inl rc] leaves the loop for bitvec_end. *)
Definition test_step (sz : Z) (op : Z) (st : tstate) : option (Z * tstate + tstate) :=
  let pc := t_pc st in
  let aOp := t_op st in
  '(nx, i, aOp, rnd) ←
    (if (op =? 1) || (op =? 2) || (op =? 5) then
       x2 ← aget aOp (pc + 2);
       i ← cint (x2 - 1);
       x3 ← aget aOp (pc + 3);
       x2 ← cint (x2 + x3);
       aOp ← aset aOp (pc + 2) x2;
       Some (4, i, aOp, t_rnd st)
     else Some (2, hd 0 (t_rnd st), aOp, tl (t_rnd st)));
  x1 ← aget aOp (pc + 1);
  x1 ← cint (x1 - 1);
  aOp ← aset aOp (pc + 1) x1;
  let nx := if 0 <? x1 then 0 else nx in
  let pc := pc + nx in
  let i := Z.land i 2147483647 mod sz in
  if negb (Z.land op 1 =? 0) then
    V ← SETBIT (t_V st) (i + 1);
    if negb (op =? 5) then
      '(rc, bv, m) ← sqlite3BitvecSet (t_m st) (t_bv st) (i + 1);
      if negb (rc =? 0) then Some (inl (-1, mkT pc aOp V bv m rnd))
      else Some (inr (mkT pc aOp V bv m rnd))
    else Some (inr (mkT pc aOp V (t_bv st) (t_m st) rnd))
  else
    V ← CLEARBIT (t_V st) (i + 1);
    bv ← sqlite3BitvecClear (t_bv st) (i + 1);
    Some (inr (mkT pc aOp V bv (t_m st) rnd)).

Fixpoint test_run (fuel : nat) (sz : Z) (st : tstate) : option (Z * tstate + tstate) :=
  match fuel with
  | O => None
  | S f =>
      op ← aget (t_op st) (t_pc st);
      if op =? 0 then Some (inr st)
      else
        r ← test_step sz op st;
        match r with
        | inl r => Some (inl r)
        | inr st => test_run f sz st
        end
  end.

(** The comparison loop: the first index at which array and bitmap differ. *)
Fixpoint test_compare (n : nat) (i : Z) (V : list Z) (bv : option Bitvec) (rc : Z) : option Z :=
  match n with
  | O => Some rc
  | S n =>
      v ← TESTBIT V i;
      b ← sqlite3BitvecTest bv i;
      if negb (eqb v b) then Some i else test_compare n (i + 1) V bv rc
  end.

Definition sqlite3BitvecBuiltinTest (fuel : nat) (m : Mem) (rnd : list Z) (sz : Z) (aOp : list Z)
    : option (Z * Mem) :=
  let '(pBitvec, m) := sqlite3BitvecCreate m sz in
  let '(okV, m) := malloc m in
  let '(okTmp, m) := malloc m in
  let bitvec_end rc bv m :=
    let m := if okTmp then mfree m else m in
    let m := if okV then mfree m else m in
    m ← sqlite3BitvecDestroy m bv;
    Some (rc, m) in
  if negb okV || negb okTmp then bitvec_end (-1) pBitvec m else
  match pBitvec with
  | None => bitvec_end (-1) None m
  | Some p =>
      '(_, _, m) ← sqlite3BitvecSet m None 1;
      _ ← sqlite3BitvecClear None 1;
      let V := replicate (Z.to_nat ((sz + 7) / 8 + 1)) 0 in
      r ← test_run fuel sz (mkT 0 aOp V pBitvec m rnd);
      match r with
      | inl (rc, st) => bitvec_end rc (t_bv st) (t_m st)
      | inr st =>
          b0 ← sqlite3BitvecTest None 0;
          b1 ← sqlite3BitvecTest (t_bv st) (sz + 1);
          b2 ← sqlite3BitvecTest (t_bv st) 0;
          bv ← t_bv st;
          let rc := Z.b2z b0 + Z.b2z b1 + Z.b2z b2 + (sqlite3BitvecSize bv - sz) in
          rc ← test_compare (Z.to_nat sz) 1 (t_V st) (t_bv st) rc;
          bitvec_end rc (t_bv st) (t_m st)
      end
  end.

(** ** Programs *)

(** The instructions of a test program.  [I_seq op n s x] is opcode 1 or 2
    with its three operands, [I_rnd op n] any other opcode but 0 and 5 with
    its operand. *)
Inductive instr := I_seq (op n s x : Z) | I_rnd (op n : Z).

Definition enc (c : instr) : list Z :=
  match c with
  | I_seq op n s x => [op; n; s; x]
  | I_rnd op n => [op; n]
  end.

Definition rounds (n : Z) : Z := Z.max 1 n.

(** Operands for which the counters and indexes stay ints. *)
Definition instr_ok (c : instr) : Prop :=
  match c with
  | I_seq op n s x =>
      (op = 1 \/ op = 2) /\ int_min < n <= int_max /\
      (forall k, 0 <= k <= rounds n -> int_min < s + k * x <= int_max)
  | I_rnd op n => op <> 0 /\ op <> 1 /\ op <> 2 /\ op <> 5 /\ int_min < n <= int_max
  end.

Definition count (c : instr) : Z := match c with I_seq _ n _ _ => n | I_rnd _ n => n end.

(** Rounds of the main loop a program needs. *)
Definition prog_rounds (cs : list instr) : nat :=
  foldr (fun c s => Z.to_nat (rounds (count c)) + s)%nat 1%nat cs.

(** ** The linear array *)

Lemma shiftr3 i : Z.shiftr i 3 = i / 8.
Proof. by rewrite Z.shiftr_div_pow2. Qed.

Lemma land_7 i : Z.land i 7 = i mod 8.
Proof. apply land7. Qed.

Lemma TESTBIT_val V i b :
  aget V (i / 8) = Some b -> TESTBIT V i = Some (Z.testbit b (i mod 8)).
Proof.
  intros H. unfold TESTBIT. rewrite shiftr3, H, land_7. cbn.
  by rewrite test_bit by (apply Z.mod_pos_bound; lia).
Qed.

Definition fits (V : list Z) (i : Z) : Prop := 0 <= i /\ i / 8 < Z.of_nat (length V).

Lemma fits_get V i : fits V i -> exists b, aget V (i / 8) = Some b.
Proof. intros [??]. apply aget_is_Some. split; [apply Z.div_pos; lia|done]. Qed.

(** Writing the byte of bit [i] with a function that acts on bit [i mod 8]
    alone changes bit [i] alone. *)
Lemma write_bit V i b b' v :
  fits V i -> aget V (i / 8) = Some b ->
  (forall r, 0 <= r -> Z.testbit b' r = if r =? i mod 8 then v else Z.testbit b r) ->
  exists V', aset V (i / 8) b' = Some V' /\ length V' = length V /\
    forall j, fits V j -> TESTBIT V' j = if j =? i then Some v else TESTBIT V j.
Proof.
  intros Hi Hb Hbits. pose proof (aset_is_Some V (i / 8) b' (aget_Some_range _ _ _ Hb)) as Hs.
  eexists. split; [exact Hs|]. split; [by rewrite (length_aset _ _ _ _ Hs)|].
  intros j Hj. destruct (fits_get V j Hj) as [c Hc].
  assert (0 <= j mod 8) by (apply Z.mod_pos_bound; lia).
  destruct (decide (i / 8 = j / 8)) as [Hd|Hd].
  - rewrite (TESTBIT_val _ j b') by (rewrite <- Hd; by eapply aget_aset_eq).
    rewrite Hbits by done. rewrite (TESTBIT_val V j c) by done.
    rewrite Hd in Hb. simplify_eq.
    destruct (Z.eqb_spec j i) as [->|Hne]; [by rewrite Z.eqb_refl|].
    destruct (Z.eqb_spec (j mod 8) (i mod 8)); [|done].
    destruct Hne. by apply same_bit.
  - rewrite (TESTBIT_val _ j c) by (by rewrite (aget_aset_ne _ _ _ _ _ Hs)).
    rewrite (TESTBIT_val V j c) by done.
    destruct (Z.eqb_spec j i) as [->|]; [done|done].
Qed.

Lemma SETBIT_spec V i :
  fits V i -> exists V', SETBIT V i = Some V' /\ length V' = length V /\
    forall j, fits V j -> TESTBIT V' j = if j =? i then Some true else TESTBIT V j.
Proof.
  intros Hi. destruct (fits_get V i Hi) as [b Hb]. unfold SETBIT.
  rewrite shiftr3, Hb, land_7. cbn. eapply write_bit; [done|done|]. intros r Hr.
  rewrite set_bit by (try apply Z.mod_pos_bound; lia). by destruct (r =? i mod 8).
Qed.

Lemma CLEARBIT_spec V i :
  fits V i -> exists V', CLEARBIT V i = Some V' /\ length V' = length V /\
    forall j, fits V j -> TESTBIT V' j = if j =? i then Some false else TESTBIT V j.
Proof.
  intros Hi. destruct (fits_get V i Hi) as [b Hb]. unfold CLEARBIT.
  rewrite shiftr3, Hb, land_7. cbn. eapply write_bit; [done|done|]. intros r Hr.
  rewrite clear_bit by (try apply Z.mod_pos_bound; lia). by destruct (r =? i mod 8).
Qed.

(** ** The run of a program *)

(** Array and bitmap hold the same set [X]; [m0] is the memory held apart
    from the bitmap. *)
Definition agree (sz m0 : Z) (st : tstate) : Prop :=
  exists p X, t_bv st = Some p /\ bv_repr p sz X /\
    Z.of_nat (length (t_V st)) = (sz + 7) / 8 + 1 /\
    (forall j, 0 <= j <= sz -> TESTBIT (t_V st) j = Some (X j)) /\
    no_oom (t_m st) /\ m_live (t_m st) - nodes p = m0.

Definition located (st : tstate) (pre : list Z) (cs : list instr) : Prop :=
  t_pc st = Z.of_nat (length pre) /\ t_op st = pre ++ concat (enc <$> cs) ++ [0].

Lemma fits_range sz V j :
  Z.of_nat (length V) = (sz + 7) / 8 + 1 -> 0 <= j <= sz -> fits V j.
Proof.
  intros Hl Hj. split; [lia|]. rewrite Hl.
  assert (j / 8 <= (sz + 7) / 8); [apply Z.div_le_mono; lia|lia].
Qed.

(** The effect of one round on array and bitmap, for index [i]. *)
Lemma agree_set sz m0 st i pc aOp rnd :
  agree sz m0 st -> 0 < i <= sz ->
  exists V bv m,
    SETBIT (t_V st) i = Some V /\ sqlite3BitvecSet (t_m st) (t_bv st) i = Some (0, Some bv, m) /\
    agree sz m0 (mkT pc aOp V (Some bv) m rnd).
Proof.
  intros (p & X & Hp & HR & HV & HX & Ho & Hl) Hi.
  destruct (SETBIT_spec (t_V st) i) as (V & HVs & HVl & HVt); [eapply fits_range; [done|lia]|].
  destruct (bv_set (t_m st) p sz X i) as (rc & p' & m' & Hs & Hlive & [(-> & HR' & Ho')|Hno]);
    [done|done| |by destruct Hno as (_ & [] & _)]. rewrite Hp.
  do 3 eexists. split; [done|]. split; [done|]. do 2 eexists. split; [done|]. split; [exact HR'|].
  cbn [t_V t_m]. split; [congruence|]. split; [|split; [by apply Ho'|lia]].
  intros j Hj. rewrite HVt by (eapply fits_range; [done|lia]).
  destruct (j =? i); [done|]. by apply HX.
Qed.

Lemma agree_clear sz m0 st i pc aOp rnd :
  agree sz m0 st -> 0 < i <= sz ->
  exists V bv,
    CLEARBIT (t_V st) i = Some V /\ sqlite3BitvecClear (t_bv st) i = Some (Some bv) /\
    agree sz m0 (mkT pc aOp V (Some bv) (t_m st) rnd).
Proof.
  intros (p & X & Hp & HR & HV & HX & Ho & Hl) Hi.
  destruct (CLEARBIT_spec (t_V st) i) as (V & HVs & HVl & HVt); [eapply fits_range; [done|lia]|].
  destruct (bv_clear p sz X i) as (p' & Hs & Hn & HR'); [done..|]. rewrite Hp.
  do 2 eexists. split; [done|]. split; [done|]. do 2 eexists. split; [done|]. split; [exact HR'|].
  cbn [t_V t_m]. split; [congruence|]. split; [|split; [done|lia]].
  intros j Hj. rewrite HVt by (eapply fits_range; [done|lia]).
  destruct (j =? i); [done|]. by apply HX.
Qed.

(** The end of every round: the index is drawn, array and bitmap updated. *)
Lemma agree_update sz m0 st op i pc aOp rnd :
  agree sz m0 st -> 0 < sz -> op <> 5 ->
  exists st', agree sz m0 st' /\ t_pc st' = pc /\ t_op st' = aOp /\
    (let i := Z.land i 2147483647 mod sz in
     if negb (Z.land op 1 =? 0) then
       V ← SETBIT (t_V st) (i + 1);
       if negb (op =? 5) then
         '(rc, bv, m) ← sqlite3BitvecSet (t_m st) (t_bv st) (i + 1);
         if negb (rc =? 0) then Some (inl (-1, mkT pc aOp V bv m rnd))
         else Some (inr (mkT pc aOp V bv m rnd))
       else Some (inr (mkT pc aOp V (t_bv st) (t_m st) rnd))
     else
       V ← CLEARBIT (t_V st) (i + 1);
       bv ← sqlite3BitvecClear (t_bv st) (i + 1);
       Some (inr (mkT pc aOp V bv (t_m st) rnd))) = Some (inr st').
Proof.
  intros Ha Hsz Hop. cbv zeta. set (k := Z.land i 2147483647 mod sz).
  assert (0 < k + 1 <= sz) by (pose proof (Z.mod_pos_bound (Z.land i 2147483647) sz); lia).
  rewrite (proj2 (Z.eqb_neq op 5)) by done. case_match.
  - destruct (agree_set sz m0 st (k + 1) pc aOp rnd) as (V & bv & m & -> & Hs & Ha'); [done..|].
    cbn [mbind option_bind negb]. rewrite Hs. cbn [mbind option_bind]. eexists. by split.
  - destruct (agree_clear sz m0 st (k + 1) pc aOp rnd) as (V & bv & -> & Hs & Ha'); [done..|].
    cbn [mbind option_bind]. rewrite Hs. cbn [mbind option_bind]. eexists. by split.
Qed.

(** The instruction once its first round is over. *)
Definition next_instr (c : instr) : instr :=
  match c with
  | I_seq op n s x => I_seq op (n - 1) (s + x) x
  | I_rnd op n => I_rnd op (n - 1)
  end.

Definition opcode (c : instr) : Z := match c with I_seq op _ _ _ => op | I_rnd op _ => op end.

Lemma test_step_spec sz m0 st pre c cs :
  agree sz m0 st -> located st pre (c :: cs) -> instr_ok c -> 0 < sz ->
  exists st', test_step sz (opcode c) st = Some (inr st') /\ agree sz m0 st' /\
    (if 1 <? count c then located st' pre (next_instr c :: cs)
     else located st' (pre ++ enc (next_instr c)) cs).
Proof.
  intros Ha [Hpc Hop] Hok Hsz. unfold test_step. rewrite Hpc, Hop. set (L := Z.of_nat (length pre)).
  cbn [fmap list_fmap concat]. rewrite <- app_assoc. set (rest := concat (enc <$> cs) ++ [0]).
  destruct c as [op n s x|op n]; cbn [enc opcode count next_instr] in *.
  - destruct Hok as (Hop12 & Hn & Hs).
    assert (op <> 5 /\ ((op =? 1) || (op =? 2) || (op =? 5)) = true) as [Hop5 ->]
      by (destruct Hop12 as [->| ->]; done).
    unfold L. rewrite !aget_app_r by lia. cbn [aget decide mbind option_bind].
    pose proof (Hs 0) as Hs0. pose proof (Hs 1) as Hs1. unfold rounds in Hs0, Hs1.
    change (aget ([op; n; s; x] ++ rest) 2) with (Some s).
    change (aget ([op; n; s; x] ++ rest) 3) with (Some x). cbn [mbind option_bind].
    rewrite !cint_ok by lia. cbn [mbind option_bind].
    rewrite (aset_app_r pre _ ([op; n; s + x; x] ++ rest)) by (rewrite aset_is_Some by (simpl; lia); done). cbn [mbind option_bind].
    rewrite aget_app_r by lia. change (aget ([op; n; s + x; x] ++ rest) 1) with (Some n).
    cbn [mbind option_bind]. rewrite cint_ok by lia. cbn [mbind option_bind].
    rewrite (aset_app_r pre _ ([op; n - 1; s + x; x] ++ rest)) by (rewrite aset_is_Some by (simpl; lia); done). cbn [mbind option_bind].
    edestruct (agree_update sz m0 st op (s - 1)) as (st' & Ha' & Hpc' & Hop' & Hst); [done..|].
    cbv zeta in Hst |- *. erewrite Hst.
    eexists. split; [done|]. split; [done|]. unfold located. rewrite Hpc', Hop'.
    destruct (Z.ltb_spec 0 (n - 1)); destruct (Z.ltb_spec 1 n); try lia.
    + split; [lia|]. cbn [fmap list_fmap concat enc]. by rewrite <- app_assoc.
    + rewrite length_app. split; [simpl; lia|]. by rewrite <- app_assoc.
  - destruct Hok as (H0 & H1 & H2 & H5 & Hn).
    rewrite !(proj2 (Z.eqb_neq op _)) by done. cbn [orb mbind option_bind].
    unfold L. rewrite !aget_app_r by lia. change (aget ([op; n] ++ rest) 1) with (Some n).
    cbn [mbind option_bind]. rewrite cint_ok by lia. cbn [mbind option_bind].
    rewrite (aset_app_r pre _ ([op; n - 1] ++ rest)) by (rewrite aset_is_Some by (simpl; lia); done). cbn [mbind option_bind].
    edestruct (agree_update sz m0 st op (hd 0 (t_rnd st))) as (st' & Ha' & Hpc' & Hop' & Hst); [done..|].
    cbv zeta in Hst |- *. rewrite (proj2 (Z.eqb_neq op 5)) in Hst by done. erewrite Hst.
    eexists. split; [done|]. split; [done|]. unfold located. rewrite Hpc', Hop'.
    destruct (Z.ltb_spec 0 (n - 1)); destruct (Z.ltb_spec 1 n); try lia.
    + split; [lia|]. cbn [fmap list_fmap concat enc]. by rewrite <- app_assoc.
    + rewrite length_app. split; [simpl; lia|]. by rewrite <- app_assoc.
Qed.

Lemma next_instr_ok c : instr_ok c -> 1 < count c -> instr_ok (next_instr c).
Proof.
  unfold instr_ok, int_min, int_max. destruct c as [op n s x|op n]; simpl; intros Hok Hn.
  - destruct Hok as (? & ? & Hs). split; [done|]. split; [lia|]. intros k Hk.
    replace (s + x + k * x) with (s + (k + 1) * x) by ring. apply Hs. unfold rounds in *. lia.
  - lia.
Qed.

Lemma located_op st pre c cs :
  located st pre (c :: cs) -> aget (t_op st) (t_pc st) = Some (opcode c).
Proof.
  intros [-> ->]. rewrite <- (Z.add_0_r (Z.of_nat _)), aget_app_r by lia. by destruct c.
Qed.

Lemma test_run_mono f : forall g sz st r,
  test_run f sz st = Some r -> (f <= g)%nat -> test_run g sz st = Some r.
Proof.
  induction f as [|f IH]; intros [|g] sz st r Hr Hg; try done; try lia. simpl in *.
  destruct (aget (t_op st) (t_pc st)) as [op|]; [|done]. simpl in *.
  destruct (op =? 0); [done|].
  destruct (test_step sz op st) as [[|st']|]; [done| |done]. simpl in *. eapply IH; [done|lia].
Qed.

(** An instruction ends after [rounds] rounds of the main loop. *)
Lemma test_run_instr sz m0 : forall k c cs st pre f r,
  (Z.to_nat (rounds (count c)) = S k)%nat -> instr_ok c -> 0 < sz ->
  agree sz m0 st -> located st pre (c :: cs) ->
  (forall st' pre', agree sz m0 st' -> located st' pre' cs -> exists st'',
     test_run f sz st' = Some (inr st'') /\ r st'') ->
  exists st', test_run (S k + f) sz st = Some (inr st') /\ r st'.
Proof.
  induction k as [|k IH]; intros c cs st pre f r Hk Hok Hsz Ha Hloc Hrest;
    cbn [Nat.add test_run]; rewrite (located_op _ _ _ _ Hloc); cbn [mbind option_bind];
    rewrite (proj2 (Z.eqb_neq _ 0)) by (destruct c; simpl in *; lia);
    destruct (test_step_spec sz m0 st pre c cs) as (st' & -> & Ha' & Hloc'); try done;
    cbn [mbind option_bind]; unfold rounds in Hk;
    (destruct (Z.ltb_spec 1 (count c)); [try lia|try lia]).
  - by eapply Hrest.
  - eapply (IH (next_instr c) cs st' pre); try done.
    + unfold rounds. destruct c; simpl in *; lia.
    + by apply next_instr_ok.
Qed.

Lemma test_run_spec sz m0 cs : forall st pre,
  Forall instr_ok cs -> 0 < sz -> agree sz m0 st -> located st pre cs ->
  exists st', test_run (prog_rounds cs) sz st = Some (inr st') /\ agree sz m0 st'.
Proof.
  induction cs as [|c cs IH]; intros st pre HF Hsz Ha Hloc.
  - destruct Hloc as [Hpc Hop]. cbn [prog_rounds foldr test_run]. rewrite Hpc, Hop.
    rewrite <- (Z.add_0_r (Z.of_nat _)), aget_app_r by lia. cbn. eauto.
  - apply Forall_cons in HF as [Hok HF]. cbn [prog_rounds foldr].
    destruct (Z.to_nat (rounds (count c))) as [|k] eqn:Hk; [unfold rounds in Hk; lia|].
    eapply test_run_instr; try done. intros st' pre' Ha' Hloc'. by eapply IH.
Qed.

Lemma test_compare_agree sz m0 st rc : forall n i,
  agree sz m0 st -> 0 < i -> i + Z.of_nat n <= sz + 1 ->
  test_compare n i (t_V st) (t_bv st) rc = Some rc.
Proof.
  induction n as [|n IH]; intros i Ha Hi Hn; [done|]. cbn [test_compare].
  pose proof Ha as (p & X & Hp & HR & HV & HX & _). rewrite HX by lia.
  cbn [mbind option_bind]. rewrite Hp at 1. rewrite (bv_test p sz X i) by (done || lia). cbn [mbind option_bind].
  rewrite eqb_reflx. apply IH; [done|lia|lia].
Qed.

(** ** Properties *)

(** Setting bit [i] of a live bitmap of any u32 size terminates without
    undefined behaviour.  Unless memory runs out the call returns SQLITE_OK and
    from then on exactly bit [i] is added to what sqlite3BitvecTest answers; if
    memory runs out it returns SQLITE_NOMEM, the bitmap stays well formed and
    no bit other than [i] appears. *)
Theorem bitvec_set_correct m p sz X i :
  bv_repr p sz X -> 0 < i <= sz ->
  exists rc p' m' Y, sqlite3BitvecSet m (Some p) i = Some (rc, Some p', m') /\
    bv_repr p' sz Y /\
    (forall j, 0 <= j -> sqlite3BitvecTest (Some p) j = Some (X j) /\
                         sqlite3BitvecTest (Some p') j = Some (Y j)) /\
    ((rc = SQLITE_OK /\ forall j, Y j = (j =? i) || X j) \/
     (rc = SQLITE_NOMEM /\ ~ no_oom m /\ forall j, Y j = true -> j = i \/ X j = true)).
Proof.
  intros HR Hi.
  destruct (bv_set m p sz X i HR Hi) as (rc & p' & m' & Hs & _ & [(-> & HR' & _)|(-> & Ho & Y & HR' & HY)]).
  - do 4 eexists. split; [done|]. split; [exact HR'|]. split; [|left; by split].
    intros j Hj. split; [exact (bv_test p sz X j HR Hj)|exact (bv_test p' sz _ j HR' Hj)].
  - do 4 eexists. split; [done|]. split; [exact HR'|]. split; [|right; by split].
    intros j Hj. split; [exact (bv_test p sz X j HR Hj)|exact (bv_test p' sz _ j HR' Hj)].
Qed.

(** Clearing bit [i] of a live bitmap removes exactly bit [i] from what
    sqlite3BitvecTest answers, without allocating or freeing memory. *)
Theorem bitvec_clear_correct p sz X i :
  bv_repr p sz X -> 0 < i <= sz ->
  exists p', sqlite3BitvecClear (Some p) i = Some (Some p') /\
    bv_repr p' sz (fun j => negb (j =? i) && X j) /\ nodes p' = nodes p /\
    forall j, 0 <= j ->
      sqlite3BitvecTest (Some p') j =
      if j =? i then Some false else sqlite3BitvecTest (Some p) j.
Proof.
  intros HR Hi. destruct (bv_clear p sz X i HR Hi) as (p' & Hc & Hn & HR').
  exists p'. split; [done|]. split; [done|]. split; [done|]. intros j Hj.
  rewrite (bv_test p' _ _ j HR' Hj), (bv_test p _ _ j HR Hj). by destruct (j =? i).
Qed.

(** C17. The self test finds no difference between the bitmap and a linear
    array of bits: for every program of the opcodes other than the deliberate
    fault (opcode 5), sqlite3BitvecBuiltinTest ends, returns 0 and frees all the
    memory it allocated, as long as no allocation fails. *)
Theorem bitvec_builtin_test_passes m rnd sz cs :
  no_oom m -> 0 < sz <= int_max - 7 -> Forall instr_ok cs ->
  exists m', sqlite3BitvecBuiltinTest (prog_rounds cs) m rnd sz (concat (enc <$> cs) ++ [0]) =
    Some (0, m') /\ m_live m' = m_live m.
Proof.
  intros Ho Hsz HF. unfold sqlite3BitvecBuiltinTest.
  destruct (bv_create m sz) as [(p & m1 & -> & HR & Hl1 & Ho1)|(? & _ & _ & [])];
    [unfold int_max in *; lia| |done].
  destruct (malloc_cases m1) as [(o2 & -> & Ho2)|(o & _ & [])]; [|by apply Ho1].
  destruct (malloc_cases (mkMem o2 (m_live m1 + 1))) as [(o3 & -> & Ho3)|(o & _ & [])];
    [|by apply Ho2, Ho1].
  cbn [negb orb sqlite3BitvecSet sqlite3BitvecClear mbind option_bind m_live].
  set (st0 := mkT _ _ _ _ _ _).
  destruct (test_run_spec sz (m_live m1 + 1 + 1 - nodes p) cs st0 []) as (st & -> & Ha);
    [done|lia| |done|].
  { do 2 eexists. split; [done|]. split; [exact HR|]. cbn [st0 t_V t_m].
    assert (0 <= (sz + 7) / 8) by (apply Z.div_pos; lia).
    rewrite length_replicate. split; [lia|]. split; [|split; [by apply Ho3, Ho2, Ho1|done]].
    intros j Hj. rewrite (TESTBIT_val _ j 0); [by rewrite Z.testbit_0_l|].
    apply aget_replicate. split; [apply Z.div_pos; lia|].
    assert (j / 8 <= (sz + 7) / 8) by (apply Z.div_le_mono; lia). lia. }
  cbn [mbind option_bind]. pose proof Ha as (p' & X & Hp' & HR' & _ & _ & _ & Hl').
  change (sqlite3BitvecTest None 0) with (Some false). cbn [mbind option_bind].
  pose proof HR' as (_ & Hsz' & HX).
  assert (X (sz + 1) = false /\ X 0 = false) as [Hx1 Hx0].
  { split; apply not_true_iff_false; rewrite HX; lia. }
  rewrite Hp', !(bv_test p' sz X), Hx1, Hx0 by (done || lia). cbn [mbind option_bind].
  unfold sqlite3BitvecSize. rewrite Hsz', Z.sub_diag. cbn [Z.b2z Z.add]. rewrite <- Hp'.
  rewrite (test_compare_agree sz (m_live m1 + 1 + 1 - nodes p)) by (done || lia).
  cbn [mbind option_bind]. rewrite Hp', (bv_destroy _ p' sz X HR'). cbn [mbind option_bind].
  eexists. split; [done|]. cbn. lia.
Qed.

(** ** Witnesses *)

Definition small : Bitvec := BV 10 0 0 U_zero.

Lemma small_repr : bv_repr small 10 (fun _ => false).
Proof.
  destruct (bv_create (mkMem [] 0) 10) as [(p & m' & [= <- <-] & HR & _)|(? & [=] & _)]; [lia|done].
Qed.

Lemma bitvec_set_correct_witness :
  0 < 3 <= 10 /\
  exists rc p' m' Y, sqlite3BitvecSet (mkMem [] 0) (Some small) 3 = Some (rc, Some p', m') /\
    bv_repr p' 10 Y /\
    (forall j, 0 <= j -> sqlite3BitvecTest (Some small) j = Some false /\
                         sqlite3BitvecTest (Some p') j = Some (Y j)) /\
    ((rc = SQLITE_OK /\ forall j, Y j = (j =? 3) || false) \/
     (rc = SQLITE_NOMEM /\ ~ no_oom (mkMem [] 0) /\ forall j, Y j = true -> j = 3 \/ false = true)).
Proof.
  split; [lia|]. apply (bitvec_set_correct (mkMem [] 0) small 10 (fun _ => false) 3).
  - exact small_repr.
  - lia.
Defined.

Lemma bitvec_clear_correct_witness :
  exists p', sqlite3BitvecClear (Some small) 3 = Some (Some p') /\
    bv_repr p' 10 (fun j => negb (j =? 3) && false) /\ nodes p' = nodes small /\
    forall j, 0 <= j ->
      sqlite3BitvecTest (Some p') j =
      if j =? 3 then Some false else sqlite3BitvecTest (Some small) j.
Proof.
  apply (bitvec_clear_correct small 10 (fun _ => false) 3).
  - exact small_repr.
  - lia.
Defined.

Lemma bitvec_builtin_test_passes_witness :
  exists m', sqlite3BitvecBuiltinTest (prog_rounds [I_seq 1 100 1 50; I_rnd 4 2])
      (mkMem [] 0) [7; 9] 5000 [1; 100; 1; 50; 4; 2; 0] = Some (0, m') /\ m_live m' = 0.
Proof.
  apply (bitvec_builtin_test_passes (mkMem [] 0) [7; 9] 5000 [I_seq 1 100 1 50; I_rnd 4 2]).
  - by apply Forall_nil.
  - unfold int_max. lia.
  - repeat constructor; unfold int_min, int_max; try lia.
    all: match goal with H : 0 <= ?k <= rounds 100 |- _ => unfold rounds in H; lia end.
Defined.
