(* ===== verification/BitExpr.v ===== *)
(** * BitExpr: deciding equations between shift-and-mask expressions

    Decoders assemble integers from bytes with shifts, masks and bitwise or.
    An expression over byte variables is reified as a [bx]; [bx_sym e k] is
    the list of byte bits whose disjunction is bit [k] of its value.  Two
    expressions with the same bits have the same value, so an equation between
    them is decided by computation. *)
From S2P Require Import Prelude.

Inductive bx :=
| BVar (i : nat)                 (* byte variable *)
| BOr (a b : bx)
| BMask (a : bx) (m : Z)         (* a & m *)
| BShl (a : bx) (n : nat)        (* a << n *)
| BShr (a : bx) (n : nat)        (* a >> n *)
| BTrunc (a : bx) (n : nat).     (* conversion to an unsigned type of n bits *)

Fixpoint bx_eval (env : nat -> Z) (e : bx) : Z :=
  match e with
  | BVar i => env i
  | BOr a b => Z.lor (bx_eval env a) (bx_eval env b)
  | BMask a m => Z.land (bx_eval env a) m
  | BShl a n => Z.shiftl (bx_eval env a) (Z.of_nat n)
  | BShr a n => Z.shiftr (bx_eval env a) (Z.of_nat n)
  | BTrunc a n => bx_eval env a mod 2 ^ Z.of_nat n
  end.

Fixpoint bx_sym (e : bx) (k : nat) : list (nat * nat) :=
  match e with
  | BVar i => if (k <? 8)%nat then [(i, k)] else []
  | BOr a b => bx_sym a k ++ bx_sym b k
  | BMask a m => if Z.testbit m (Z.of_nat k) then bx_sym a k else []
  | BShl a n => if (k <? n)%nat then [] else bx_sym a (k - n)
  | BShr a n => bx_sym a (k + n)
  | BTrunc a n => if (k <? n)%nat then bx_sym a k else []
  end.

(** A bound on the bits that can be set. *)
Fixpoint bx_width (e : bx) : nat :=
  match e with
  | BVar _ => 8
  | BOr a b => Nat.max (bx_width a) (bx_width b)
  | BMask a _ => bx_width a
  | BShl a n => bx_width a + n
  | BShr a n => bx_width a - n
  | BTrunc a n => Nat.min (bx_width a) n
  end.

Definition pair_mem (x : nat * nat) (l : list (nat * nat)) : bool :=
  existsb (fun y => Nat.eqb (fst x) (fst y) && Nat.eqb (snd x) (snd y)) l.

Definition same_bits (l1 l2 : list (nat * nat)) : bool :=
  forallb (fun x => pair_mem x l2) l1 && forallb (fun x => pair_mem x l1) l2.

Definition bx_eqb (e1 e2 : bx) : bool :=
  forallb (fun k => same_bits (bx_sym e1 k) (bx_sym e2 k))
    (seq 0 (Nat.max (bx_width e1) (bx_width e2))).

Section Soundness.
Context (env : nat -> Z) (env_bytes : forall i, is_byte (env i)).

Definition any_bit (l : list (nat * nat)) : bool :=
  existsb (fun x => Z.testbit (env (fst x)) (Z.of_nat (snd x))) l.

Lemma byte_bits_high i k : (8 <= k)%nat -> Z.testbit (env i) (Z.of_nat k) = false.
Proof. intros. apply (ubits_spec 8); [lia|apply env_bytes|lia]. Qed.

Lemma bx_sym_ok e : forall k, Z.testbit (bx_eval env e) (Z.of_nat k) = any_bit (bx_sym e k).
Proof.
  induction e as [i|a IHa b IHb|a IHa m|a IHa n|a IHa n|a IHa n]; intros k; cbn [bx_eval bx_sym].
  - destruct (Nat.ltb_spec k 8); [unfold any_bit; simpl; by rewrite orb_false_r|].
    by rewrite byte_bits_high by done.
  - unfold any_bit. rewrite existsb_app, Z.lor_spec, IHa, IHb. done.
  - rewrite Z.land_spec, IHa. destruct (Z.testbit m _); [apply andb_true_r|apply andb_false_r].
  - destruct (Nat.ltb_spec k n).
    + rewrite Z.shiftl_spec_low by lia. done.
    + rewrite Z.shiftl_spec by lia. rewrite <- Nat2Z.inj_sub by lia. apply IHa.
  - rewrite Z.shiftr_spec by lia. rewrite <- Nat2Z.inj_add. apply IHa.
  - destruct (Nat.ltb_spec k n).
    + rewrite Z.mod_pow2_bits_low by lia. apply IHa.
    + rewrite Z.mod_pow2_bits_high by lia. done.
Qed.

Lemma bx_width_ok e : forall k, (bx_width e <= k)%nat -> bx_sym e k = [].
Proof.
  induction e as [i|a IHa b IHb|a IHa m|a IHa n|a IHa n|a IHa n]; intros k Hk;
    cbn [bx_sym bx_width] in *.
  - destruct (Nat.ltb_spec k 8); [lia|done].
  - rewrite IHa, IHb by lia. done.
  - rewrite IHa by lia. by destruct (Z.testbit m _).
  - destruct (Nat.ltb_spec k n); [done|]. apply IHa. lia.
  - apply IHa. lia.
  - destruct (Nat.ltb_spec k n); [|done]. apply IHa. lia.
Qed.

Lemma pair_mem_any x l : pair_mem x l = true ->
  Z.testbit (env (fst x)) (Z.of_nat (snd x)) = true -> any_bit l = true.
Proof.
  unfold pair_mem, any_bit. rewrite !existsb_exists. intros (y & Hy & E) Hx. exists y.
  split; [done|]. apply andb_true_iff in E as [<-%Nat.eqb_eq <-%Nat.eqb_eq]. done.
Qed.

Lemma same_bits_any l1 l2 : same_bits l1 l2 = true -> any_bit l1 = any_bit l2.
Proof.
  unfold same_bits. rewrite andb_true_iff, !forallb_forall. intros [H1 H2].
  apply bool_iff.
  split; intros (x & Hx & Hb)%existsb_exists; eapply pair_mem_any; eauto.
Qed.

Lemma bx_eqb_sound e1 e2 : bx_eqb e1 e2 = true -> bx_eval env e1 = bx_eval env e2.
Proof.
  unfold bx_eqb. rewrite forallb_forall. intros H. apply Z.bits_inj'. intros k Hk.
  rewrite <- (Z2Nat.id k) by done. rewrite !bx_sym_ok.
  destruct (decide (Z.to_nat k < Nat.max (bx_width e1) (bx_width e2))%nat).
  - apply same_bits_any, H, in_seq. lia.
  - rewrite !bx_width_ok by lia. done.
Qed.
End Soundness.

Lemma nth_bytes l i : Forall is_byte l -> is_byte (nth i l 0).
Proof.
  intros HF. revert i. induction HF as [|x l Hx HF IH]; intros [|i]; simpl; try done;
    unfold ubits; lia.
Qed.

(** Reification.  The variables are the entries of a list [l]. *)
Ltac bx_index x l :=
  lazymatch l with
  | x :: _ => constr:(O)
  | _ :: ?l' => let n := bx_index x l' in constr:(S n)
  end.

Ltac bx_nat z := let n := eval compute in (Z.to_nat z) in n.

Ltac bx_log z := let n := eval compute in (Z.to_nat (Z.log2 z)) in n.

Ltac bx_reify l t :=
  lazymatch t with
  | Z.lor ?a ?b => let ra := bx_reify l a in let rb := bx_reify l b in constr:(BOr ra rb)
  | Z.land ?a ?m => let ra := bx_reify l a in constr:(BMask ra m)
  | Z.shiftl ?a ?n => let ra := bx_reify l a in let k := bx_nat n in constr:(BShl ra k)
  | Z.shiftr ?a ?n => let ra := bx_reify l a in let k := bx_nat n in constr:(BShr ra k)
  | ?a mod ?m => let ra := bx_reify l a in let k := bx_log m in constr:(BTrunc ra k)
  | u8 ?a => let ra := bx_reify l a in constr:(BTrunc ra 8%nat)
  | u32 ?a => let ra := bx_reify l a in constr:(BTrunc ra 32%nat)
  | u64 ?a => let ra := bx_reify l a in constr:(BTrunc ra 64%nat)
  | ?x => let i := bx_index x l in constr:(BVar i)
  end.

(** Proves [a = b] for expressions over the entries of [l], which are bytes. *)
Ltac bx_solve l :=
  match goal with
  | |- ?a = ?b =>
      let ra := bx_reify l a in
      let rb := bx_reify l b in
      let env := constr:(fun i => nth i l 0) in
      change (bx_eval env ra = bx_eval env rb);
      apply bx_eqb_sound; [intros; apply nth_bytes; repeat (apply List.Forall_cons; [assumption|]); apply List.Forall_nil
                          |vm_compute; reflexivity]
  end.
