(* ===== verification/Varint.v ===== *)
(** * Varint: the variable-length integers of util.c

    sqlite3PutVarint and sqlite3GetVarint, their 32-bit versions, the length
    function and the big-endian 4-byte integers. A function that reads through
    a pointer takes the bytes from that pointer on; one that writes returns the
    bytes written. *)
From S2P Require Import Prelude BitExpr.

(** ** Writing *)

(** for(i=7; i>=0; i--): the byte written last comes first. *)
Fixpoint put9_loop (n : nat) (v : Z) (acc : list Z) : list Z :=
  match n with
  | O => acc
  | S n => put9_loop n (Z.shiftr v 7) (u8 (Z.lor (Z.land v 127) 128) :: acc)
  end.

(** do{ buf[n++] = ...; v >>= 7; }while( v!=0 ): the bytes of buf, in order. *)
Fixpoint put_loop (fuel : nat) (v : Z) : option (list Z) :=
  match fuel with
  | O => None
  | S f =>
      let b := u8 (Z.lor (Z.land v 127) 128) in
      let v := Z.shiftr v 7 in
      if negb (v =? 0) then
        l ← put_loop f v;
        Some (b :: l)
      else Some [b]
  end.

(** buf has 10 bytes; the fuel makes one more an error. *)
Definition sqlite3PutVarint (v : Z) : option (list Z * Z) :=
  if negb (Z.land v (Z.shiftl 4278190080 32) =? 0) then
    let p8 := u8 v in
    let v := Z.shiftr v 8 in
    Some (put9_loop 8 v [p8], 9)
  else
    buf ← put_loop 10 v;
    let n := Z.of_nat (length buf) in
    b0 ← aget buf 0;
    buf ← aset buf 0 (Z.land b0 127);
    assert_ (n <=? 9);;
    Some (rev buf, n).

(** putVarint32 is a macro in this build, so the function starts at the
    two-byte case. *)
Definition sqlite3PutVarint32 (v : Z) : option (list Z * Z) :=
  if Z.land v (Z.land (Z.lnot 16383) (2 ^ 32 - 1)) =? 0 then
    Some ([u8 (Z.lor (Z.shiftr v 7) 128); u8 (Z.land v 127)], 2)
  else sqlite3PutVarint v.

(** The macro putVarint32(A,B). *)
Definition putVarint32 (v : Z) : option (list Z * Z) :=
  if v <? 128 then Some ([u8 v], 1) else sqlite3PutVarint32 v.

(** ** Reading *)

Definition SLOT_2_0 : Z := 2080895.       (* 0x001fc07f *)
Definition SLOT_4_2_0 : Z := 4028612735.  (* 0xf01fc07f *)

(** a&0x80 *)
Definition top (a : Z) : bool := negb (Z.land a 128 =? 0).

(** From the fifth byte on: [a], [b], [s] as the code has them there. *)
Definition getVarint_tail (p : list Z) (a b s : Z) : option (Z * Z) :=
  p4 ← aget p 4;
  let a := Z.lor (u32 (Z.shiftl a 14)) p4 in
  if negb (top a) then
    let b := u32 (Z.shiftl b 7) in
    let a := Z.lor a b in
    let s := Z.shiftr s 18 in
    Some (Z.lor (u64 (Z.shiftl s 32)) a, 5)
  else
  let s := Z.lor (u32 (Z.shiftl s 7)) b in
  p5 ← aget p 5;
  let b := Z.lor (u32 (Z.shiftl b 14)) p5 in
  if negb (top b) then
    let a := Z.land a SLOT_2_0 in
    let a := Z.lor (u32 (Z.shiftl a 7)) b in
    let s := Z.shiftr s 18 in
    Some (Z.lor (u64 (Z.shiftl s 32)) a, 6)
  else
  p6 ← aget p 6;
  let a := Z.lor (u32 (Z.shiftl a 14)) p6 in
  if negb (top a) then
    let a := Z.land a SLOT_4_2_0 in
    let b := Z.land b SLOT_2_0 in
    let a := Z.lor a (u32 (Z.shiftl b 7)) in
    let s := Z.shiftr s 11 in
    Some (Z.lor (u64 (Z.shiftl s 32)) a, 7)
  else
  let a := Z.land a SLOT_2_0 in
  p7 ← aget p 7;
  let b := Z.lor (u32 (Z.shiftl b 14)) p7 in
  if negb (top b) then
    let b := Z.land b SLOT_4_2_0 in
    let a := Z.lor (u32 (Z.shiftl a 7)) b in
    let s := Z.shiftr s 4 in
    Some (Z.lor (u64 (Z.shiftl s 32)) a, 8)
  else
  p8 ← aget p 8;
  let a := Z.lor (u32 (Z.shiftl a 15)) p8 in
  let b := Z.land b SLOT_2_0 in
  let a := Z.lor a (u32 (Z.shiftl b 8)) in
  let s := u32 (Z.shiftl s 4) in
  let b := p4 in
  let b := Z.land b 127 in
  let b := Z.shiftr b 3 in
  let s := Z.lor s b in
  Some (Z.lor (u64 (Z.shiftl s 32)) a, 9).

Definition sqlite3GetVarint (p : list Z) : option (Z * Z) :=
  a ← aget p 0;
  if negb (top a) then Some (a, 1) else
  b ← aget p 1;
  if negb (top b) then
    let a := Z.land a 127 in
    let a := Z.lor (u32 (Z.shiftl a 7)) b in
    Some (a, 2)
  else
  p2 ← aget p 2;
  let a := Z.lor (u32 (Z.shiftl a 14)) p2 in
  if negb (top a) then
    let a := Z.land a SLOT_2_0 in
    let b := Z.land b 127 in
    let b := u32 (Z.shiftl b 7) in
    Some (Z.lor a b, 3)
  else
  let a := Z.land a SLOT_2_0 in
  p3 ← aget p 3;
  let b := Z.lor (u32 (Z.shiftl b 14)) p3 in
  if negb (top b) then
    let b := Z.land b SLOT_2_0 in
    let a := Z.lor (u32 (Z.shiftl a 7)) b in
    Some (a, 4)
  else
  let b := Z.land b SLOT_2_0 in
  let s := a in
  getVarint_tail p a b s.

(** getVarint32 is a macro in this build, so the function starts at the
    two-byte case. *)
Definition sqlite3GetVarint32 (p : list Z) : option (Z * Z) :=
  a ← aget p 0;
  b ← aget p 1;
  if negb (top b) then
    let a := Z.land a 127 in
    Some (Z.lor (u32 (Z.shiftl a 7)) b, 2)
  else
  p2 ← aget p 2;
  let a := Z.lor (u32 (Z.shiftl a 14)) p2 in
  if negb (top a) then
    let a := Z.land a (Z.lor (Z.shiftl 127 14) 127) in
    let b := Z.land b 127 in
    Some (Z.lor a (u32 (Z.shiftl b 7)), 3)
  else
  '(v64, n) ← sqlite3GetVarint p;
  assert_ ((3 <? n) && (n <=? 9));;
  if negb (Z.land v64 (2 ^ 32 - 1) =? v64) then Some (2 ^ 32 - 1, n)
  else Some (u32 v64, n).

(** The macro getVarint32(A,B). *)
Definition getVarint32 (p : list Z) : option (Z * Z) :=
  a ← aget p 0;
  if a <? 128 then Some (a, 1) else sqlite3GetVarint32 p.

(** do{ i++; v >>= 7; }while( v!=0 && ALWAYS(i<9) ) *)
Fixpoint varintLen_loop (fuel : nat) (i v : Z) : Z :=
  match fuel with
  | O => i
  | S f =>
      let i := i + 1 in
      let v := Z.shiftr v 7 in
      if negb (v =? 0) && (i <? 9) then varintLen_loop f i v else i
  end.

Definition sqlite3VarintLen (v : Z) : Z := varintLen_loop 9 0 v.

Definition sqlite3Get4byte (p : list Z) : option Z :=
  p0 ← aget p 0;
  p1 ← aget p 1;
  p2 ← aget p 2;
  p3 ← aget p 3;
  Some (Z.lor (Z.lor (Z.lor (u32 (Z.shiftl p0 24)) (Z.shiftl p1 16)) (Z.shiftl p2 8)) p3).

Definition sqlite3Put4byte (v : Z) : list Z :=
  [u8 (Z.shiftr v 24); u8 (Z.shiftr v 16); u8 (Z.shiftr v 8); u8 v].

(** ** The format, as documented above sqlite3PutVarint

    Up to eight bytes carry seven bits each, their top bit set on all but the
    last; a ninth byte carries eight. *)
Fixpoint varint_dec (k : nat) (acc : Z) (p : list Z) : option (Z * Z) :=
  match k, p with
  | O, b :: _ => Some (Z.lor (Z.shiftl acc 8) b, 1)
  | S k, b :: p =>
      if top b then
        '(v, n) ← varint_dec k (Z.lor (Z.shiftl acc 7) (Z.land b 127)) p;
        Some (v, n + 1)
      else Some (Z.lor (Z.shiftl acc 7) b, 1)
  | _, [] => None
  end.

Definition varint_spec (p : list Z) : option (Z * Z) := varint_dec 8 0 p.

(** ** Equivalence of the unrolled decoder with the format *)

(** The bits a test or a result takes from its bytes. *)
Ltac norm_top l :=
  repeat match goal with
  | |- context [top ?e] =>
      lazymatch e with
      | Z.lor _ ?b => replace (top e) with (top b) by (unfold top; do 2 f_equal; symmetry; bx_solve l)
      end
  end.

Ltac norm_acc :=
  repeat match goal with
  | |- context [Z.lor (Z.shiftl 0 7) ?x] => change (Z.lor (Z.shiftl 0 7) x) with x
  end.

Lemma top_false_mask b : is_byte b -> top b = false -> exists c, is_byte c /\ b = Z.land c 127.
Proof.
  intros Hb T. exists b. split; [done|]. unfold top in T.
  apply negb_false_iff, Z.eqb_eq in T. apply Z.bits_inj'. intros k Hk.
  change 127 with (Z.ones 7). rewrite Z.land_spec, Z.testbit_ones_nonneg by lia.
  destruct (Z.ltb_spec k 7); [by rewrite andb_true_r|]. rewrite andb_false_r.
  destruct (decide (k = 7)) as [->|]; [|apply (ubits_spec 8); [lia|done|lia]].
  apply (f_equal (fun z => Z.testbit z 7)) in T. by rewrite Z.land_spec, andb_true_r in T.
Qed.

(** A last byte is its own low seven bits. *)
Ltac last_byte b :=
  match goal with
  | Hb : is_byte b, T : top b = false |- _ =>
      let c := fresh b in
      let H := fresh in
      destruct (top_false_mask b Hb T) as (c & H & ->); clear T Hb; rename c into b
  end.

(** Reads byte [k] of the input: it exists, is a byte, and when its top bit is
    clear the value so far (over the bytes [l] and this one) is the result. *)
Ltac step_byte p b HF l :=
  destruct p as [|b p]; [by intros []|];
  let Hb := fresh "Hb" in apply Forall_cons in HF as [Hb HF];
  repeat match goal with
  | |- context [aget (?x :: ?y) ?k] =>
      let r := eval lazy in (aget (x :: y) k) in change (aget (x :: y) k) with r
  end;
  cbn [mbind option_bind varint_dec]; norm_acc; norm_top (b :: l);
  let T := fresh "T" in destruct (top b) eqn:T; cbn [negb];
  [|intros _; cbn [mbind option_bind]; do 2 f_equal; last_byte b; bx_solve (b :: l)].

Lemma getVarint_dec p :
  Forall is_byte p -> is_Some (varint_spec p) -> sqlite3GetVarint p = varint_spec p.
Proof.
  intros HF. unfold varint_spec, sqlite3GetVarint, getVarint_tail.
  step_byte p b0 HF (@nil Z).
  step_byte p b1 HF [b0].
  step_byte p b2 HF [b1; b0].
  step_byte p b3 HF [b2; b1; b0].
  step_byte p b4 HF [b3; b2; b1; b0].
  step_byte p b5 HF [b4; b3; b2; b1; b0].
  step_byte p b6 HF [b5; b4; b3; b2; b1; b0].
  step_byte p b7 HF [b6; b5; b4; b3; b2; b1; b0].
  destruct p as [|b8 p]; [by intros []|]. apply Forall_cons in HF as [Hb8 _].
  change (aget (b0 :: b1 :: b2 :: b3 :: b4 :: b5 :: b6 :: b7 :: b8 :: p) 8) with (Some b8).
  intros _. cbn [mbind option_bind varint_dec]. do 2 f_equal.
  bx_solve [b8; b7; b6; b5; b4; b3; b2; b1; b0].
Qed.

(** ** Encoding *)

Lemma digit_top d : 0 <= d < 128 -> is_byte (d + 128) /\ top (d + 128) = true /\
  Z.land (d + 128) 127 = d.
Proof.
  intros. split; [unfold ubits; lia|]. split.
  - unfold top. apply negb_true_iff, Z.eqb_neq. intros E.
    apply (f_equal (fun z => Z.testbit z 7)) in E.
    rewrite Z.land_spec, Z.testbit_0_l, andb_true_r in E.
    rewrite Z.testbit_false in E by lia. change (2 ^ 7) with 128 in E.
    rewrite <- (Z.mul_1_l 128) in E at 1. rewrite Z.div_add, Z.div_small in E by lia. done.
  - change 127 with (Z.ones 7). rewrite Z.land_ones by lia. change (2 ^ 7) with 128.
    rewrite <- (Z.mul_1_l 128) at 1. rewrite Z.mod_add by lia. apply Z.mod_small. lia.
Qed.

(** The byte written for the low seven bits of [v]. *)
Lemma put_byte v : 0 <= v -> u8 (Z.lor (Z.land v 127) 128) = v mod 128 + 128.
Proof.
  intros. change 127 with (Z.ones 7). rewrite Z.land_ones by lia. change (2 ^ 7) with 128.
  pose proof (Z.mod_pos_bound v 128 ltac:(lia)) as Hm.
  change 128 with (Z.shiftl 1 7) at 2. rewrite Z.lor_comm, lor_shift by (simpl; lia).
  unfold u8. rewrite Z.mod_small; simpl; lia.
Qed.

Lemma shiftr7 v : Z.shiftr v 7 = v / 128.
Proof. by rewrite Z.shiftr_div_pow2. Qed.

(** Continuation bytes add seven bits each to the value read so far. *)
Lemma dec_cont k acc d p :
  0 <= acc -> 0 <= d < 128 ->
  varint_dec (S k) acc (d + 128 :: p) =
  ('(v, n) ← varint_dec k (acc * 128 + d) p; Some (v, n + 1)).
Proof.
  intros Ha Hd. destruct (digit_top d Hd) as (_ & Ht & Hm). cbn [varint_dec].
  by rewrite Ht, Hm, lor_shift by (simpl; lia).
Qed.

(** A last byte. *)
Lemma dec_last k acc d p :
  0 <= acc -> 0 <= d < 128 -> varint_dec (S k) acc (d :: p) = Some (acc * 128 + d, 1).
Proof.
  intros Ha Hd. cbn [varint_dec]. assert (top d = false) as ->.
  { unfold top. apply negb_false_iff, Z.eqb_eq. apply Z.bits_inj'. intros j Hj.
    rewrite Z.land_spec, Z.testbit_0_l. change 128 with (2 ^ 7).
    rewrite Z.pow2_bits_eqb by lia. destruct (Z.eqb_spec 7 j) as [<-|]; [|apply andb_false_r].
    rewrite andb_true_r. apply (ubits_spec 7); [lia| |lia]. unfold ubits. lia. }
  by rewrite lor_shift by (simpl; lia).
Qed.

Lemma put_loop_spec f : forall v, 0 <= v -> v < 128 ^ Z.of_nat f -> (0 < f)%nat ->
  exists b l, put_loop f v = Some (b :: l) /\ b = v mod 128 + 128 /\
    Forall is_byte (b :: l) /\ (length (b :: l) <= f)%nat /\
    v < 128 ^ Z.of_nat (length (b :: l)) /\
    (forall k acc t, 0 <= acc ->
      varint_dec (length l + k) acc (rev l ++ t) =
      ('(w, n) ← varint_dec k (acc * 128 ^ Z.of_nat (length l) + v / 128) t;
       Some (w, n + Z.of_nat (length l)))).
Proof.
  induction f as [|f IH]; intros v Hv Hf Hpos; [lia|]. cbn [put_loop].
  rewrite put_byte, shiftr7 by done. pose proof (Z.mod_pos_bound v 128 ltac:(lia)) as Hm.
  destruct (digit_top _ Hm) as (Hb & _ & _). assert (0 <= v / 128) by (apply Z.div_pos; lia).
  destruct (Z.eqb_spec (v / 128) 0) as [E|E]; cbn [negb].
  { do 2 eexists. split; [done|]. split; [done|]. split; [by apply Forall_singleton|].
    split; [simpl; lia|]. split; [simpl; apply Z.div_small_iff in E; lia|].
    intros k acc t Ha. simpl. rewrite E, Z.add_0_r, Z.mul_1_r.
    destruct (varint_dec k acc t) as [[]|]; simpl; [|done]. do 2 f_equal. lia. }
  rewrite Nat2Z.inj_succ, Z.pow_succ_r in Hf by lia.
  assert (v / 128 < 128 ^ Z.of_nat f) as Hlt by (apply Z.div_lt_upper_bound; lia).
  destruct f as [|f']; [simpl in Hlt; lia|].
  destruct (IH (v / 128)) as (b & l & -> & Hbl & HF & Hlen & Hsz & Hdec); [lia|done|lia|].
  cbn [mbind option_bind]. do 2 eexists. split; [done|]. split; [done|].
  split; [by constructor|]. split; [simpl in *; lia|]. split.
  { change (length (_ :: ?x)) with (S (length x)). rewrite Nat2Z.inj_succ, Z.pow_succ_r by lia.
    pose proof (Z.div_mod v 128). lia. }
  intros k acc t Ha. cbn [rev length]. rewrite <- app_assoc. cbn [app].
  rewrite Nat.add_succ_comm.
  rewrite (Hdec (S k) acc (b :: t) Ha). rewrite Hbl.
  assert (0 <= v / 128 / 128) by (apply Z.div_pos; lia).
  rewrite dec_cont; [| |apply Z.mod_pos_bound; lia].
  2:{ assert (0 <= 128 ^ Z.of_nat (length l)) by (apply Z.pow_nonneg; lia). nia. }
  rewrite Nat2Z.inj_succ, Z.pow_succ_r by lia.
  replace ((acc * 128 ^ Z.of_nat (length l) + v / 128 / 128) * 128 + (v / 128) mod 128)
    with (acc * (128 * 128 ^ Z.of_nat (length l)) + v / 128)
    by (pose proof (Z.div_mod (v / 128) 128); lia).
  destruct (varint_dec k _ t) as [[w n]|]; cbn [mbind option_bind]; [|done]. do 2 f_equal. lia.
Qed.

Lemma put9_loop_app n : forall v l t, put9_loop n v l ++ t = put9_loop n v (l ++ t).
Proof. induction n as [|n IH]; intros v l t; simpl; [done|]. by rewrite IH. Qed.

Lemma put9_loop_bytes n : forall v l, 0 <= v -> Forall is_byte l ->
  Forall is_byte (put9_loop n v l) /\ length (put9_loop n v l) = (n + length l)%nat.
Proof.
  induction n as [|n IH]; intros v l Hv HF; simpl; [done|].
  rewrite put_byte, shiftr7 by done.
  destruct (digit_top (v mod 128)) as (Hb & _ & _); [apply Z.mod_pos_bound; lia|].
  destruct (IH (v / 128) (v mod 128 + 128 :: l)) as [? ->];
    [apply Z.div_pos; lia|by constructor|]. split; [done|]. simpl. lia.
Qed.

Lemma put9_loop_dec n : forall v k acc t, 0 <= acc -> 0 <= v < 128 ^ Z.of_nat n ->
  varint_dec (n + k) acc (put9_loop n v t) =
  ('(w, m) ← varint_dec k (acc * 128 ^ Z.of_nat n + v) t; Some (w, m + Z.of_nat n)).
Proof.
  induction n as [|n IH]; intros v k acc t Ha Hv; cbn [put9_loop].
  { simpl in Hv. replace v with 0 by lia. simpl. rewrite Z.add_0_r, Z.mul_1_r.
    destruct (varint_dec k acc t) as [[]|]; simpl; [|done]. do 2 f_equal. lia. }
  rewrite Nat2Z.inj_succ, Z.pow_succ_r in * by lia.
  rewrite put_byte, shiftr7 by lia. rewrite Nat.add_succ_comm.
  rewrite IH; [|done|]. 2:{ split; [apply Z.div_pos; lia|]. apply Z.div_lt_upper_bound; lia. }
  assert (0 <= v / 128) by (apply Z.div_pos; lia).
  rewrite dec_cont; [| |apply Z.mod_pos_bound; lia].
  2:{ assert (0 <= 128 ^ Z.of_nat n) by (apply Z.pow_nonneg; lia). nia. }
  replace ((acc * 128 ^ Z.of_nat n + v / 128) * 128 + v mod 128)
    with (acc * (128 * 128 ^ Z.of_nat n) + v) by (pose proof (Z.div_mod v 128); lia).
  destruct (varint_dec k _ t) as [[]|]; cbn [mbind option_bind]; [|done]. do 2 f_equal. lia.
Qed.

Lemma varintLen_put f : forall v buf i f',
  put_loop f v = Some buf -> i + Z.of_nat (length buf) <= 9 -> (length buf <= f')%nat ->
  varintLen_loop f' i v = i + Z.of_nat (length buf).
Proof.
  induction f as [|f IH]; intros v buf i f' Hp Hi Hf; [done|]. cbn [put_loop] in Hp.
  destruct (Z.eqb_spec (Z.shiftr v 7) 0) as [E|E]; cbn [negb] in Hp.
  - injection Hp as <-. destruct f' as [|f']; [simpl in Hf; lia|]. cbn [varintLen_loop].
    rewrite E. simpl. done.
  - destruct (put_loop f (Z.shiftr v 7)) as [l|] eqn:El; [|done]. injection Hp as <-.
    destruct f' as [|f']; [simpl in Hf; lia|]. cbn [varintLen_loop].
    rewrite (proj2 (Z.eqb_neq _ 0)) by done. simpl length in *.
    assert (0 < length l)%nat by (destruct f; simpl in El; [done|]; repeat case_match; simplify_option_eq; simpl; lia).
    rewrite (proj2 (Z.ltb_lt _ _)) by lia. cbn [negb andb].
    rewrite (IH _ l) by (done || lia). lia.
Qed.

Lemma varintLen_9 n : forall v i,
  128 ^ Z.of_nat n <= v -> i + Z.of_nat n + 1 = 9 -> varintLen_loop (S n) i v = 9.
Proof.
  induction n as [|n IH]; intros v i Hv Hi; cbn [varintLen_loop].
  - rewrite (proj2 (Z.ltb_ge _ _)) by lia. rewrite andb_false_r. lia.
  - rewrite Nat2Z.inj_succ, Z.pow_succ_r in Hv by lia. rewrite shiftr7.
    assert (128 ^ Z.of_nat n <= v / 128) by (apply Z.div_le_lower_bound; lia).
    pose proof (Z.pow_pos_nonneg 128 (Z.of_nat n)).
    rewrite (proj2 (Z.eqb_neq _ _)), (proj2 (Z.ltb_lt _ _)) by lia. cbn [negb andb].
    apply IH; [done|lia].
Qed.

(** The test for nine bytes: the top eight of the 64 bits. *)
Lemma high_byte_mask v : 0 <= v < 2 ^ 64 ->
  negb (Z.land v (Z.shiftl 4278190080 32) =? 0) = (2 ^ 56 <=? v).
Proof.
  intros Hv. apply bool_iff. rewrite negb_true_iff, Z.eqb_neq, Z.leb_le.
  assert (Z.land v (Z.shiftl 4278190080 32) = Z.shiftl (Z.shiftr v 56) 56) as ->.
  { apply Z.bits_inj'. intros k Hk. rewrite Z.land_spec.
    change (Z.shiftl 4278190080 32) with (Z.shiftl (Z.ones 8) 56).
    destruct (decide (k < 56)); [rewrite !(Z.shiftl_spec_low _ _ k) by lia; apply andb_false_r|].
    rewrite !Z.shiftl_spec, Z.shiftr_spec, Z.testbit_ones_nonneg by lia.
    replace (k - 56 + 56) with k by lia. destruct (Z.ltb_spec (k - 56) 8); [apply andb_true_r|].
    rewrite andb_false_r. symmetry. apply (ubits_spec 64); [lia|done|lia]. }
  rewrite Z.shiftl_mul_pow2, Z.shiftr_div_pow2 by lia.
  assert (0 <= v / 2 ^ 56) by (apply Z.div_pos; lia).
  split; intros H0.
  - assert (v / 2 ^ 56 <> 0) as Hne by lia. pose proof (Z.mul_div_le v (2 ^ 56)). nia.
  - assert (1 <= v / 2 ^ 56) by (apply Z.div_le_lower_bound; lia). lia.
Qed.

Lemma put_loop_mono f : forall g u,
  (f <= g)%nat -> is_Some (put_loop f u) -> put_loop g u = put_loop f u.
Proof.
  induction f as [|f IH]; intros [|g] u Hfg [x Hx]; try done; try lia. simpl in *.
  destruct (negb _); [|done]. destruct (put_loop f (Z.shiftr u 7)) eqn:E; [|done].
  rewrite (IH g) by (eauto || lia). by rewrite E.
Qed.

(** What an encoder writes for [v]. *)
Definition encodes (v : Z) (l : list Z) : Prop :=
  Forall is_byte l /\ 1 <= Z.of_nat (length l) <= 9 /\
  Z.of_nat (length l) = sqlite3VarintLen v /\
  forall rest, varint_spec (l ++ rest) = Some (v, Z.of_nat (length l)).

Lemma put9_encodes v : 2 ^ 56 <= v < 2 ^ 64 ->
  length (put9_loop 8 (v / 256) [u8 v]) = 9%nat /\ encodes v (put9_loop 8 (v / 256) [u8 v]).
Proof.
  intros Hv. unfold encodes, sqlite3VarintLen, varint_spec.
  assert (is_byte (u8 v)) as Hb8 by (apply Z.mod_pos_bound; lia).
  assert (0 <= v / 256) by (apply Z.div_pos; lia).
  destruct (put9_loop_bytes 8 (v / 256) [u8 v]) as [HF Hlen]; [done|by apply Forall_singleton|].
  rewrite Hlen. split; [done|]. split; [done|]. split; [simpl; lia|].
  split; [symmetry; apply (varintLen_9 8); [change (128 ^ Z.of_nat 8) with (2 ^ 56); lia|done]|].
  intros rest. rewrite put9_loop_app. change 8%nat with (8 + 0)%nat at 1.
  rewrite put9_loop_dec; [|lia|split; [done|apply Z.div_lt_upper_bound; simpl; lia]].
  cbn [varint_dec mbind option_bind app]. rewrite lor_shift by (simpl; apply Hb8 || lia).
  do 2 f_equal. unfold u8. change (2 ^ 8) with 256. pose proof (Z.div_mod v 256). lia.
Qed.

Lemma put_loop_encodes v : 0 <= v < 2 ^ 56 ->
  exists l, put_loop 10 v = Some (v mod 128 + 128 :: l) /\ (length l <= 7)%nat /\
    encodes v (rev l ++ [v mod 128]).
Proof.
  intros Hv. destruct (put_loop_spec 8 v) as (b & l & Hp & -> & HF & Hlen & _ & Hdec);
    [lia|simpl; lia|lia|].
  exists l. split; [rewrite (put_loop_mono 8 10) by (lia || by rewrite Hp); done|]. cbn [length] in Hlen. split; [lia|].
  pose proof (Z.mod_pos_bound v 128 ltac:(lia)) as Hm. apply Forall_cons in HF as [_ HF].
  unfold encodes. rewrite length_app, length_rev. cbn [length]. rewrite Nat.add_1_r. split.
  { apply Forall_app. split; [by apply Forall_rev|]. apply Forall_singleton. unfold ubits. lia. }
  split; [lia|]. split.
  { unfold sqlite3VarintLen. erewrite varintLen_put; [|exact Hp|cbn [length]; lia|cbn [length]; lia]. done. }
  intros rest. unfold varint_spec. rewrite <- app_assoc. cbn [app].
  replace 8%nat with (length l + S (7 - length l))%nat by lia.
  rewrite Hdec by lia. rewrite dec_last; [|rewrite Z.mul_0_l; apply Z.div_pos; lia|done].
  cbn [mbind option_bind]. rewrite Z.mul_0_l, Z.add_0_l.
  do 2 f_equal; [pose proof (Z.div_mod v 128); lia|lia].
Qed.

Lemma putVarint_spec v : 0 <= v < 2 ^ 64 ->
  exists l, sqlite3PutVarint v = Some (l, Z.of_nat (length l)) /\ encodes v l.
Proof.
  intros Hv. unfold sqlite3PutVarint.
  rewrite high_byte_mask by done. destruct (Z.leb_spec (2 ^ 56) v) as [Hbig|Hsmall].
  - rewrite Z.shiftr_div_pow2 by lia. change (2 ^ 8) with 256.
    destruct (put9_encodes v) as [Hlen He]; [lia|]. eexists. split; [|exact He].
    rewrite Hlen. done.
  - destruct (put_loop_encodes v) as (l & -> & Hlen & He); [lia|].
    cbn [mbind option_bind]. set (b := v mod 128 + 128).
    change (aget (b :: l) 0) with (Some b). cbn [mbind option_bind].
    rewrite aset_is_Some by (cbn [length]; lia). cbn [mbind option_bind].
    rewrite (proj2 (Z.leb_le _ _)) by (cbn [length]; lia). cbn [assert_ mbind option_bind].
    change (<[Z.to_nat 0:=Z.land b 127]> (b :: l)) with (Z.land b 127 :: l).
    destruct (digit_top (v mod 128)) as (_ & _ & Hmask); [apply Z.mod_pos_bound; lia|].
    unfold b. rewrite Hmask. cbn [rev]. eexists. split; [|exact He].
    rewrite length_app, length_rev. cbn [length]. do 2 f_equal. lia.
Qed.

(** ** The 32-bit versions *)

Lemma top_small b : is_byte b -> (b <? 128) = negb (top b).
Proof.
  unfold ubits, top. intros. rewrite negb_involutive. apply bool_iff. rewrite Z.ltb_lt, Z.eqb_eq.
  assert (Z.land b 128 = 128 * (b / 128)) as ->; [|pose proof (Z.div_mod b 128); Z.to_euclidean_division_equations; lia].
  assert (b / 128 = 0 \/ b / 128 = 1) as Hq by (Z.to_euclidean_division_equations; lia).
  apply Z.bits_inj'. intros k Hk. rewrite Z.land_spec.
  change 128 with (2 ^ 7) at 1. rewrite Z.pow2_bits_eqb, Z.mul_comm by lia.
  change 128 with (2 ^ 7) at 2. rewrite <- Z.shiftl_mul_pow2 by lia.
  destruct (decide (k < 7)).
  - rewrite Z.shiftl_spec_low by lia. rewrite (proj2 (Z.eqb_neq 7 k)) by lia. apply andb_false_r.
  - rewrite Z.shiftl_spec by lia. destruct (Z.eqb_spec 7 k) as [<-|].
    + rewrite andb_true_r. change 128 with (2 ^ 7).
      rewrite <- Z.shiftr_div_pow2, Z.shiftr_spec by lia. done.
    + rewrite andb_false_r. symmetry. change (b / 128) with (b / 2 ^ 7).
      rewrite <- Z.shiftr_div_pow2, Z.shiftr_spec by lia. apply (ubits_spec 8); [lia|done|lia].
Qed.

Lemma varint_dec_range k : forall acc p v n,
  Forall is_byte p -> 0 <= acc -> varint_dec k acc p = Some (v, n) ->
  0 <= v /\ 1 <= n <= Z.of_nat k + 1.
Proof.
  induction k as [|k IH]; intros acc [|b p] v n HF Ha; try done; cbn [varint_dec];
    apply Forall_cons in HF as [Hb HF].
  - intros [= <- <-]. split; [|lia]. apply Z.lor_nonneg. split; [by apply Z.shiftl_nonneg|apply Hb].
  - destruct (top b).
    + destruct (varint_dec k _ p) as [[w m]|] eqn:E; [|done]. cbn [mbind option_bind].
      intros [= <- <-]. apply IH in E; [lia|done|].
      apply Z.lor_nonneg. split; [by apply Z.shiftl_nonneg|apply Z.land_nonneg; lia].
    + intros [= <- <-]. split; [|lia]. apply Z.lor_nonneg. split; [by apply Z.shiftl_nonneg|apply Hb].
Qed.

Lemma varint_dec_more k acc b p v n :
  varint_dec (S k) acc (b :: p) = Some (v, n) -> top b = true -> 0 <= acc ->
  exists acc', 0 <= acc' /\ varint_dec k acc' p = Some (v, n - 1).
Proof.
  cbn [varint_dec]. intros H Ht Ha. rewrite Ht in H.
  exists (Z.lor (Z.shiftl acc 7) (Z.land b 127)). split.
  - apply Z.lor_nonneg. split; [by apply Z.shiftl_nonneg|apply Z.land_nonneg; lia].
  - destruct (varint_dec k _ p) as [[w m]|]; [|done]. injection H as <- <-. do 2 f_equal. lia.
Qed.

(** A value that fits, and one that does not. *)
Lemma saturate_u32 v : 0 <= v ->
  (if negb (Z.land v (2 ^ 32 - 1) =? v) then 2 ^ 32 - 1 else u32 v) = Z.min v (2 ^ 32 - 1).
Proof.
  intros Hv. change (2 ^ 32 - 1) with (Z.ones 32). rewrite Z.land_ones by lia.
  unfold u32. change (Z.ones 32) with (2 ^ 32 - 1). pose proof (Z.mod_pos_bound v (2 ^ 32)).
  destruct (Z.eqb_spec (v mod 2 ^ 32) v) as [E|E]; cbn [negb]; [lia|].
  destruct (decide (v < 2 ^ 32)); [|lia]. destruct E. by apply Z.mod_small.
Qed.

Lemma ubits_u32 z : ubits 32 (u32 z).
Proof. apply Z.mod_pos_bound. lia. Qed.

Lemma ubits_byte b : is_byte b -> ubits 32 b.
Proof. unfold ubits. simpl. lia. Qed.

#[local] Hint Resolve ubits_u32 ubits_byte : ubits.

Lemma min_u32 v : ubits 32 v -> v = Z.min v (2 ^ 32 - 1).
Proof. unfold ubits. lia. Qed.

Lemma getVarint32_spec p v n :
  Forall is_byte p -> varint_spec p = Some (v, n) ->
  getVarint32 p = Some (Z.min v (2 ^ 32 - 1), n).
Proof.
  intros HF Hs. pose proof (varint_dec_range 8 0 p v n HF ltac:(lia) Hs) as [Hv0 Hn].
  pose proof (getVarint_dec p HF ltac:(eauto)) as Hg. rewrite Hs in Hg.
  unfold getVarint32, sqlite3GetVarint32. rewrite Hg. unfold sqlite3GetVarint in Hg.
  destruct p as [|b0 p]; [done|]. apply Forall_cons in HF as [H0 HF].
  change (aget (b0 :: p) 0) with (Some b0) in *. cbn [mbind option_bind] in *.
  rewrite top_small by done. destruct (top b0) eqn:T0; cbn [negb] in *.
  2:{ injection Hg as <- <-. do 2 f_equal. apply min_u32. auto with ubits. }
  destruct p as [|b1 p]; [done|]. apply Forall_cons in HF as [H1 HF].
  change (aget (b0 :: b1 :: p) 1) with (Some b1) in *. cbn [mbind option_bind] in *.
  destruct (top b1) eqn:T1; cbn [negb] in *.
  2:{ injection Hg as <- <-. do 2 f_equal. apply min_u32. auto with ubits. }
  destruct p as [|b2 p]; [done|]. apply Forall_cons in HF as [H2 HF].
  change (aget (b0 :: b1 :: b2 :: p) 2) with (Some b2) in *. cbn [mbind option_bind] in *.
  destruct (top (Z.lor (u32 (Z.shiftl b0 14)) b2)) eqn:T2; cbn [negb] in *.
  2:{ injection Hg as <- <-. do 2 f_equal. apply min_u32. auto with ubits. }
  assert (3 < n) as Hn3.
  { assert (top b2 = true) as T2'.
    { rewrite <- T2. unfold top. do 2 f_equal. bx_solve [b2; b0]. }
    apply varint_dec_more in Hs as (a1 & ? & Hs); [|done|lia].
    apply varint_dec_more in Hs as (a2 & ? & Hs); [|done|done].
    apply varint_dec_more in Hs as (a3 & ? & Hs); [|done|done].
    apply varint_dec_range in Hs; [lia|done|done]. }
  rewrite (proj2 (Z.ltb_lt 3 n)), (proj2 (Z.leb_le n 9)) by lia. cbn [andb assert_ mbind option_bind].
  rewrite <- saturate_u32 by done. by destruct (negb _).
Qed.

Lemma put_loop_S f v : 0 <= v ->
  put_loop (S f) v =
  if v / 128 =? 0 then Some [v mod 128 + 128]
  else l ← put_loop f (v / 128); Some (v mod 128 + 128 :: l).
Proof.
  intros. cbn [put_loop]. rewrite put_byte, shiftr7 by done. by destruct (v / 128 =? 0).
Qed.

(** The bits above the low fourteen. *)
Lemma mask_14 v : 0 <= v < 2 ^ 32 ->
  (Z.land v (Z.land (Z.lnot 16383) (2 ^ 32 - 1)) =? 0) = (v <? 2 ^ 14).
Proof.
  intros Hv. change (Z.land (Z.lnot 16383) (2 ^ 32 - 1)) with (Z.shiftl (Z.ones 18) 14).
  assert (Z.land v (Z.shiftl (Z.ones 18) 14) = Z.shiftl (v / 2 ^ 14) 14) as ->.
  { rewrite <- Z.shiftr_div_pow2 by lia. apply Z.bits_inj'. intros k Hk. rewrite Z.land_spec.
    destruct (decide (k < 14)); [rewrite !(Z.shiftl_spec_low _ _ k) by lia; apply andb_false_r|].
    rewrite !Z.shiftl_spec, Z.shiftr_spec, Z.testbit_ones_nonneg by lia.
    replace (k - 14 + 14) with k by lia. destruct (Z.ltb_spec (k - 14) 18); [apply andb_true_r|].
    rewrite andb_false_r. symmetry. apply (ubits_spec 32); [lia|done|lia]. }
  rewrite Z.shiftl_mul_pow2 by lia. apply bool_iff. rewrite Z.eqb_eq, Z.ltb_lt.
  Z.to_euclidean_division_equations. lia.
Qed.

Lemma putVarint32_spec v : 0 <= v < 2 ^ 32 -> putVarint32 v = sqlite3PutVarint v.
Proof.
  intros Hv. unfold putVarint32, sqlite3PutVarint32, sqlite3PutVarint.
  rewrite mask_14, high_byte_mask by lia. rewrite (proj2 (Z.leb_gt (2 ^ 56) v)) by lia.
  pose proof (Z.mod_pos_bound v 128 ltac:(lia)) as Hm.
  destruct (digit_top (v mod 128) Hm) as (_ & _ & Hmask).
  destruct (Z.ltb_spec v 128) as [H1|H1].
  - rewrite put_loop_S, Z.div_small by lia. cbn [Z.eqb mbind option_bind].
    change (aget [v mod 128 + 128] 0) with (Some (v mod 128 + 128)). cbn [mbind option_bind].
    rewrite Hmask, Z.mod_small by lia. unfold u8. rewrite Z.mod_small by (simpl; lia). done.
  - destruct (Z.ltb_spec v (2 ^ 14)) as [H2|H2]; [|done].
    assert (v / 128 < 128) by (apply Z.div_lt_upper_bound; lia).
    assert (1 <= v / 128) by (apply Z.div_le_lower_bound; lia).
    rewrite !put_loop_S by lia. rewrite (proj2 (Z.eqb_neq (v / 128) 0)) by lia.
    rewrite (Z.div_small (v / 128)), (Z.mod_small (v / 128)) by lia. cbn [Z.eqb mbind option_bind].
    change (aget [v mod 128 + 128; v / 128 + 128] 0) with (Some (v mod 128 + 128)).
    cbn [mbind option_bind]. rewrite Hmask, shiftr7.
    assert (u8 (Z.lor (v / 128) 128) = v / 128 + 128) as ->.
    { change 128 with (Z.shiftl 1 7) at 2. rewrite Z.lor_comm, lor_shift by (simpl; lia).
      unfold u8. rewrite Z.mod_small; simpl; lia. }
    assert (u8 (Z.land v 127) = v mod 128) as ->; [|done].
    change 127 with (Z.ones 7). rewrite Z.land_ones by lia. unfold u8. change (2 ^ 7) with 128.
    apply Z.mod_small. simpl. lia.
Qed.

(** ** Big-endian integers of four bytes *)

Lemma get4_val p0 p1 p2 p3 rest :
  is_byte p0 -> is_byte p1 -> is_byte p2 -> is_byte p3 ->
  sqlite3Get4byte (p0 :: p1 :: p2 :: p3 :: rest) =
  Some (((p0 * 256 + p1) * 256 + p2) * 256 + p3).
Proof.
  intros H0 H1 H2 H3. unfold sqlite3Get4byte.
  change (aget (p0 :: p1 :: p2 :: p3 :: rest) 0) with (Some p0).
  change (aget (p0 :: p1 :: p2 :: p3 :: rest) 1) with (Some p1).
  change (aget (p0 :: p1 :: p2 :: p3 :: rest) 2) with (Some p2).
  change (aget (p0 :: p1 :: p2 :: p3 :: rest) 3) with (Some p3). cbn [mbind option_bind]. f_equal.
  transitivity (Z.lor (Z.shiftl (Z.lor (Z.shiftl (Z.lor (Z.shiftl p0 8) p1) 8) p2) 8) p3).
  - bx_solve [p0; p1; p2; p3].
  - rewrite !lor_shift by (lia || done). done.
Qed.

Lemma u8_byte z : is_byte (u8 z).
Proof. apply Z.mod_pos_bound. lia. Qed.

Lemma get4_put4 v rest : 0 <= v < 2 ^ 32 -> sqlite3Get4byte (sqlite3Put4byte v ++ rest) = Some v.
Proof.
  intros Hv. unfold sqlite3Put4byte. cbn [app]. rewrite get4_val by apply u8_byte. f_equal.
  unfold u8. rewrite !Z.shiftr_div_pow2 by lia. Z.to_euclidean_division_equations. lia.
Qed.

(** ** Properties *)

(** C31. The unrolled decoder reads the documented format: on every byte
    string that starts with a complete varint, sqlite3GetVarint returns the
    value and the length that format defines, reading nothing beyond it. *)
Theorem varint_get_equiv p :
  Forall is_byte p -> is_Some (varint_spec p) -> sqlite3GetVarint p = varint_spec p.
Proof. apply getVarint_dec. Qed.

(** Round trip: sqlite3PutVarint encodes every u64 in the number of bytes
    sqlite3VarintLen announces (1 to 9), and sqlite3GetVarint reads it back with
    that length whatever bytes follow. *)
Theorem varint_roundtrip v rest :
  0 <= v < 2 ^ 64 -> Forall is_byte rest ->
  exists l, sqlite3PutVarint v = Some (l, sqlite3VarintLen v) /\ Forall is_byte l /\
    Z.of_nat (length l) = sqlite3VarintLen v /\ 1 <= sqlite3VarintLen v <= 9 /\
    sqlite3GetVarint (l ++ rest) = Some (v, sqlite3VarintLen v).
Proof.
  intros Hv Hr. destruct (putVarint_spec v Hv) as (l & Hp & HF & Hn & Hlen & Hdec).
  exists l. rewrite <- Hlen. do 4 (split; [done|]).
  rewrite getVarint_dec; [apply Hdec|by apply Forall_app|by rewrite Hdec].
Qed.

(** The 32-bit entry points agree with the 64-bit ones: putVarint32 writes
    the same bytes for every u32, and getVarint32 reads the same varint with the
    value capped at 0xffffffff. *)
Theorem varint32_equiv v p w n :
  0 <= v < 2 ^ 32 -> Forall is_byte p -> sqlite3GetVarint p = Some (w, n) ->
  is_Some (varint_spec p) ->
  putVarint32 v = sqlite3PutVarint v /\ getVarint32 p = Some (Z.min w (2 ^ 32 - 1), n).
Proof.
  intros Hv HF Hg Hs. split; [by apply putVarint32_spec|].
  apply getVarint32_spec; [done|]. by rewrite <- getVarint_dec.
Qed.

(** ** Witnesses *)

Lemma varint_get_equiv_witness :
  sqlite3GetVarint [129; 130; 3; 77] = varint_spec [129; 130; 3; 77].
Proof.
  apply (varint_get_equiv [129; 130; 3; 77]).
  - by apply bytes_bool.
  - by exists (16643, 3).
Defined.

Lemma varint_roundtrip_witness :
  exists l, sqlite3PutVarint 123456789 = Some (l, sqlite3VarintLen 123456789) /\ Forall is_byte l /\
    Z.of_nat (length l) = sqlite3VarintLen 123456789 /\ 1 <= sqlite3VarintLen 123456789 <= 9 /\
    sqlite3GetVarint (l ++ [1; 2]) = Some (123456789, sqlite3VarintLen 123456789).
Proof.
  apply (varint_roundtrip 123456789 [1; 2]); [lia|by apply bytes_bool].
Defined.

Lemma varint32_equiv_witness :
  putVarint32 300 = sqlite3PutVarint 300 /\
  getVarint32 [255; 255; 255; 255; 255; 1] = Some (Z.min 4398046510977 (2 ^ 32 - 1), 6).
Proof.
  apply (varint32_equiv 300 [255; 255; 255; 255; 255; 1] 4398046510977 6).
  - lia.
  - by apply bytes_bool.
  - by vm_compute.
  - eexists. by vm_compute.
Defined.
