(* ===== verification/Ctype.v ===== *)
(** * Ctype: the character tables of global.c and the string comparisons of util.c

    C strings are byte lists that include the terminating zero. *)
From S2P Require Import Prelude.

(** ** Tables *)

Definition sqlite3UpperToLower : list Z :=
  [0; 1; 2; 3; 4; 5; 6; 7; 8; 9; 10; 11; 12; 13; 14; 15;
   16; 17; 18; 19; 20; 21; 22; 23; 24; 25; 26; 27; 28; 29; 30; 31;
   32; 33; 34; 35; 36; 37; 38; 39; 40; 41; 42; 43; 44; 45; 46; 47;
   48; 49; 50; 51; 52; 53; 54; 55; 56; 57; 58; 59; 60; 61; 62; 63;
   64; 97; 98; 99; 100; 101; 102; 103; 104; 105; 106; 107; 108; 109; 110; 111;
   112; 113; 114; 115; 116; 117; 118; 119; 120; 121; 122; 91; 92; 93; 94; 95;
   96; 97; 98; 99; 100; 101; 102; 103; 104; 105; 106; 107; 108; 109; 110; 111;
   112; 113; 114; 115; 116; 117; 118; 119; 120; 121; 122; 123; 124; 125; 126; 127;
   128; 129; 130; 131; 132; 133; 134; 135; 136; 137; 138; 139; 140; 141; 142; 143;
   144; 145; 146; 147; 148; 149; 150; 151; 152; 153; 154; 155; 156; 157; 158; 159;
   160; 161; 162; 163; 164; 165; 166; 167; 168; 169; 170; 171; 172; 173; 174; 175;
   176; 177; 178; 179; 180; 181; 182; 183; 184; 185; 186; 187; 188; 189; 190; 191;
   192; 193; 194; 195; 196; 197; 198; 199; 200; 201; 202; 203; 204; 205; 206; 207;
   208; 209; 210; 211; 212; 213; 214; 215; 216; 217; 218; 219; 220; 221; 222; 223;
   224; 225; 226; 227; 228; 229; 230; 231; 232; 233; 234; 235; 236; 237; 238; 239;
   240; 241; 242; 243; 244; 245; 246; 247; 248; 249; 250; 251; 252; 253; 254; 255].

Definition sqlite3CtypeMap : list Z :=
  [0; 0; 0; 0; 0; 0; 0; 0; 0; 1; 1; 1; 1; 1; 0; 0;
   0; 0; 0; 0; 0; 0; 0; 0; 0; 0; 0; 0; 0; 0; 0; 0;
   1; 0; 0; 0; 64; 0; 0; 0; 0; 0; 0; 0; 0; 0; 0; 0;
   12; 12; 12; 12; 12; 12; 12; 12; 12; 12; 0; 0; 0; 0; 0; 0;
   0; 10; 10; 10; 10; 10; 10; 2; 2; 2; 2; 2; 2; 2; 2; 2;
   2; 2; 2; 2; 2; 2; 2; 2; 2; 2; 2; 0; 0; 0; 0; 64;
   0; 42; 42; 42; 42; 42; 42; 34; 34; 34; 34; 34; 34; 34; 34; 34;
   34; 34; 34; 34; 34; 34; 34; 34; 34; 34; 34; 0; 0; 0; 0; 0;
   64; 64; 64; 64; 64; 64; 64; 64; 64; 64; 64; 64; 64; 64; 64; 64;
   64; 64; 64; 64; 64; 64; 64; 64; 64; 64; 64; 64; 64; 64; 64; 64;
   64; 64; 64; 64; 64; 64; 64; 64; 64; 64; 64; 64; 64; 64; 64; 64;
   64; 64; 64; 64; 64; 64; 64; 64; 64; 64; 64; 64; 64; 64; 64; 64;
   64; 64; 64; 64; 64; 64; 64; 64; 64; 64; 64; 64; 64; 64; 64; 64;
   64; 64; 64; 64; 64; 64; 64; 64; 64; 64; 64; 64; 64; 64; 64; 64;
   64; 64; 64; 64; 64; 64; 64; 64; 64; 64; 64; 64; 64; 64; 64; 64;
   64; 64; 64; 64; 64; 64; 64; 64; 64; 64; 64; 64; 64; 64; 64; 64].

Definition UpperToLower (c : Z) : Z := nth (Z.to_nat c) sqlite3UpperToLower 0.
Definition ctype (c : Z) : Z := nth (Z.to_nat c) sqlite3CtypeMap 0.

(** ** The macros sqlite3Isspace() to sqlite3Toupper() of sqliteInt.h *)

Definition sqlite3Toupper (x : Z) : Z := Z.land x (Z.lnot (Z.land (ctype x) 32)).
Definition sqlite3Isspace (x : Z) : bool := negb (Z.land (ctype x) 1 =? 0).
Definition sqlite3Isalnum (x : Z) : bool := negb (Z.land (ctype x) 6 =? 0).
Definition sqlite3Isalpha (x : Z) : bool := negb (Z.land (ctype x) 2 =? 0).
Definition sqlite3Isdigit (x : Z) : bool := negb (Z.land (ctype x) 4 =? 0).
Definition sqlite3Isxdigit (x : Z) : bool := negb (Z.land (ctype x) 8 =? 0).
Definition sqlite3Tolower (x : Z) : Z := UpperToLower x.

(** IdChar(C) *)
Definition IdChar (c : Z) : bool := negb (Z.land (ctype c) 70 =? 0).

(** ** Comparison without regard to case *)

Fixpoint sqlite3_stricmp (a b : list Z) : option Z :=
  match a, b with
  | x :: a', y :: b' =>
      if negb (x =? 0) && (UpperToLower x =? UpperToLower y) then sqlite3_stricmp a' b'
      else Some (UpperToLower x - UpperToLower y)
  | _, _ => None
  end.

Fixpoint sqlite3_strnicmp (N : nat) (a b : list Z) : option Z :=
  match N with
  | O => Some 0
  | S n =>
      match a, b with
      | x :: a', y :: b' =>
          if negb (x =? 0) && (UpperToLower x =? UpperToLower y) then sqlite3_strnicmp n a' b'
          else Some (UpperToLower x - UpperToLower y)
      | _, _ => None
      end
  end.

(** ** Facts *)

(** Case folding of ASCII letters. *)
Definition lower (c : Z) : Z := if (65 <=? c) && (c <=? 90) then c + 32 else c.

Lemma UpperToLower_lower c : is_byte c -> UpperToLower c = lower c.
Proof.
  intros Hc. apply Z.eqb_eq. revert c Hc.
  apply (byte_forall (fun c => UpperToLower c =? lower c)). by vm_compute.
Qed.

Lemma UpperToLower_range c : is_byte c -> is_byte (UpperToLower c).
Proof.
  intros Hc. rewrite UpperToLower_lower by done. unfold lower, ubits in *.
  destruct (Z.leb_spec 65 c), (Z.leb_spec c 90); simpl; lia.
Qed.

Lemma UpperToLower_zero c : is_byte c -> UpperToLower c = 0 <-> c = 0.
Proof.
  intros Hc. rewrite UpperToLower_lower by done. unfold lower, ubits in *.
  destruct (Z.leb_spec 65 c), (Z.leb_spec c 90); simpl; lia.
Qed.

(** A string body: bytes without a zero. *)
Definition cstr (s : list Z) : Prop := Forall (fun c => is_byte c /\ c <> 0) s.

Lemma cstr_cons c s : cstr (c :: s) <-> (is_byte c /\ c <> 0) /\ cstr s.
Proof. unfold cstr. by rewrite Forall_cons. Qed.

Lemma map_UpperToLower s : cstr s -> map UpperToLower s = map lower s.
Proof.
  intros Hs. apply map_ext_in. intros c Hin%list_elem_of_In.
  apply UpperToLower_lower. by apply (proj1 (Forall_forall _ _) Hs c).
Qed.

Lemma stricmp_spec a : forall b, cstr a -> cstr b ->
  exists r, sqlite3_stricmp (a ++ [0]) (b ++ [0]) = Some r /\
    (r = 0 <-> map UpperToLower a = map UpperToLower b) /\
    sqlite3_stricmp (b ++ [0]) (a ++ [0]) = Some (- r).
Proof.
  assert (UpperToLower 0 = 0) as U0 by reflexivity.
  induction a as [|x a IH]; intros [|y b] Ha Hb.
  - exists 0. simpl. rewrite U0. done.
  - apply cstr_cons in Hb as [[Hy Hy0] Hb]. simpl. rewrite U0.
    rewrite (proj2 (Z.eqb_neq y 0)) by done. pose proof (UpperToLower_zero y Hy).
    rewrite (proj2 (Z.eqb_neq _ 0)) by tauto.
    eexists. split; [done|]. split; [split; [lia|done]|]. f_equal. lia.
  - apply cstr_cons in Ha as [[Hx Hx0] Ha]. simpl. rewrite U0.
    rewrite (proj2 (Z.eqb_neq x 0)) by done. pose proof (UpperToLower_zero x Hx).
    rewrite (proj2 (Z.eqb_neq _ 0)) by tauto.
    eexists. split; [done|]. split; [split; [lia|done]|]. simpl. f_equal. lia.
  - apply cstr_cons in Ha as [[Hx Hx0] Ha], Hb as [[Hy Hy0] Hb]. simpl.
    rewrite (proj2 (Z.eqb_neq x 0)), (proj2 (Z.eqb_neq y 0)) by done. cbn [negb andb].
    rewrite (Z.eqb_sym (UpperToLower y)).
    destruct (Z.eqb_spec (UpperToLower x) (UpperToLower y)) as [E|E].
    + destruct (IH b Ha Hb) as (r & -> & Hr & ->). exists r. split; [done|]. split; [|done].
      rewrite Hr, E. split; congruence.
    + eexists. split; [done|]. split; [|f_equal; lia]. split; [lia|intros [=]; lia].
Qed.

(** For keys of equal length the bounded comparison decides equality up to
    case. *)
Lemma strnicmp_spec a : forall b ra rb, cstr a -> cstr b -> length a = length b ->
  exists r, sqlite3_strnicmp (length a) (a ++ ra) (b ++ rb) = Some r /\
    (r = 0 <-> map UpperToLower a = map UpperToLower b).
Proof.
  induction a as [|x a IH]; intros [|y b] ra rb Ha Hb Hlen; try done.
  - exists 0. done.
  - apply cstr_cons in Ha as [[Hx Hx0] Ha], Hb as [[Hy Hy0] Hb]. simpl in *.
    rewrite (proj2 (Z.eqb_neq x 0)) by done. cbn [negb andb].
    destruct (Z.eqb_spec (UpperToLower x) (UpperToLower y)) as [E|E].
    + destruct (IH b ra rb) as (r & -> & Hr); [done|done|lia|]. exists r. split; [done|].
      rewrite Hr, E. split; congruence.
    + eexists. split; [done|]. split; [lia|intros [=]; lia].
Qed.

Lemma ctype_classes c :
  is_byte c ->
  let digit := 48 <= c <= 57 in
  let alpha := 65 <= c <= 90 \/ 97 <= c <= 122 in
  (sqlite3Isspace c = true <-> 9 <= c <= 13 \/ c = 32) /\
  (sqlite3Isdigit c = true <-> digit) /\
  (sqlite3Isalpha c = true <-> alpha) /\
  (sqlite3Isalnum c = true <-> digit \/ alpha) /\
  (sqlite3Isxdigit c = true <-> digit \/ 65 <= c <= 70 \/ 97 <= c <= 102) /\
  sqlite3Tolower c = (if bool_decide (65 <= c <= 90) then c + 32 else c) /\
  sqlite3Toupper c = (if bool_decide (97 <= c <= 122) then c - 32 else c) /\
  (IdChar c = true <-> digit \/ alpha \/ c = 95 \/ c = 36 \/ 128 <= c).
Proof.
  intros Hc. cbv zeta.
  pose proof (byte_forall (fun c =>
    bool_decide ((sqlite3Isspace c = true <-> 9 <= c <= 13 \/ c = 32) /\
    (sqlite3Isdigit c = true <-> 48 <= c <= 57) /\
    (sqlite3Isalpha c = true <-> (65 <= c <= 90 \/ 97 <= c <= 122)) /\
    (sqlite3Isalnum c = true <-> 48 <= c <= 57 \/ (65 <= c <= 90 \/ 97 <= c <= 122)) /\
    (sqlite3Isxdigit c = true <-> 48 <= c <= 57 \/ 65 <= c <= 70 \/ 97 <= c <= 102) /\
    sqlite3Tolower c = (if bool_decide (65 <= c <= 90) then c + 32 else c) /\
    sqlite3Toupper c = (if bool_decide (97 <= c <= 122) then c - 32 else c) /\
    (IdChar c = true <-> 48 <= c <= 57 \/ (65 <= c <= 90 \/ 97 <= c <= 122) \/
       c = 95 \/ c = 36 \/ 128 <= c)))) as H.
  eapply bool_decide_eq_true_1, H; [vm_compute; reflexivity|exact Hc].
Qed.

(** ** Properties *)

(** sqlite3_stricmp of two zero-terminated strings stops within them,
    returns 0 exactly when they are equal up to ASCII case, and changes sign
    when its arguments are swapped. *)
Theorem stricmp_correct a b :
  cstr a -> cstr b ->
  exists r, sqlite3_stricmp (a ++ [0]) (b ++ [0]) = Some r /\
    (r = 0 <-> map lower a = map lower b) /\
    sqlite3_stricmp (b ++ [0]) (a ++ [0]) = Some (- r).
Proof.
  intros Ha Hb. destruct (stricmp_spec a b Ha Hb) as (r & H1 & H2 & H3).
  exists r. split; [done|]. split; [|done]. rewrite H2.
  by rewrite !map_UpperToLower.
Qed.

(** ** Witnesses *)

Lemma stricmp_correct_witness :
  exists r, sqlite3_stricmp [65; 98; 0] [97; 66; 0] = Some r /\
    (r = 0 <-> map lower [65; 98] = map lower [97; 66]) /\
    sqlite3_stricmp [97; 66; 0] [65; 98; 0] = Some (- r).
Proof.
  apply (stricmp_correct [65; 98] [97; 66]); repeat constructor; lia.
Defined.
