(* ===== verification/Int64.v ===== *)
(** * Int64: overflow-checked arithmetic and logarithmic estimates of util.c

    A routine that updates its operand in place through a pointer returns the
    result code and the operand's new value. *)
From S2P Require Import Prelude.

(** ** Checked arithmetic *)

Definition sqlite3AddInt64 (iA iB : Z) : option (Z * Z) :=
  overflow ←
    (if 0 <=? iB then
       if 0 <? iA then d ← cint64 (LARGEST_INT64 - iA); Some (d <? iB) else Some false
     else
       if iA <? 0 then
         s ← cint64 (iA + LARGEST_INT64);
         n ← cint64 (- s);
         b ← cint64 (iB + 1);
         Some (b <? n)
       else Some false);
  if overflow : bool then Some (1, iA)
  else
    r ← cint64 (iA + iB);
    Some (0, r).

Definition sqlite3SubInt64 (iA iB : Z) : option (Z * Z) :=
  if iB =? SMALLEST_INT64 then
    if 0 <=? iA then Some (1, iA)
    else
      r ← cint64 (iA - iB);
      Some (0, r)
  else
    n ← cint64 (- iB);
    sqlite3AddInt64 iA n.

Definition TWOPOWER32 : Z := Z.shiftl 1 32.
Definition TWOPOWER31 : Z := Z.shiftl 1 31.

Definition sqlite3MulInt64 (iA iB : Z) : option (Z * Z) :=
  let iA1 := Z.quot iA TWOPOWER32 in
  let iA0 := Z.rem iA TWOPOWER32 in
  let iB1 := Z.quot iB TWOPOWER32 in
  let iB0 := Z.rem iB TWOPOWER32 in
  if (iA1 =? 0) && (iB1 =? 0) then
    r ← cint64 (iA * iB);
    Some (0, r)
  else if negb (iA1 =? 0) && negb (iB1 =? 0) then Some (1, iA)
  else
    r ← (if iA1 =? 0 then cint64 (iA0 * iB1) else cint64 (iA1 * iB0));
    if (r <? - TWOPOWER31) || (TWOPOWER31 <=? r) then Some (1, iA)
    else
      r ← cint64 (r * TWOPOWER32);
      c ← cint64 (iA0 * iB0);
      '(e, r) ← sqlite3AddInt64 r c;
      if negb (e =? 0) then Some (1, iA) else Some (0, r).

Definition sqlite3AbsInt32 (x : Z) : option Z :=
  if 0 <=? x then Some x
  else if x =? int_min then Some 2147483647
  else cint (- x).

(** ** Logarithmic estimates (LogEst) *)

(** A LogEst is a 16-bit signed integer; storing into one wraps. *)
Definition LogEst (z : Z) : Z := (z + 2 ^ 15) mod 2 ^ 16 - 2 ^ 15.

Definition logEstAdd_x : list Z :=
  [10; 10; 9; 9; 8; 8; 7; 7; 7; 6; 6; 6; 5; 5; 5; 4; 4; 4; 4;
   3; 3; 3; 3; 3; 3; 2; 2; 2; 2; 2; 2; 2].

Definition sqlite3LogEstAdd (a b : Z) : option Z :=
  if b <=? a then
    if b + 49 <? a then Some a
    else if b + 31 <? a then Some (LogEst (a + 1))
    else x ← aget logEstAdd_x (a - b); Some (LogEst (a + x))
  else
    if a + 49 <? b then Some b
    else if a + 31 <? b then Some (LogEst (b + 1))
    else x ← aget logEstAdd_x (b - a); Some (LogEst (b + x)).

Definition logEst_a : list Z := [0; 2; 3; 5; 6; 7; 8; 9].

Fixpoint logEst_up (fuel : nat) (x y : Z) : option (Z * Z) :=
  match fuel with
  | O => None
  | S f => if x <? 8 then logEst_up f (u64 (Z.shiftl x 1)) (LogEst (y - 10)) else Some (x, y)
  end.

Fixpoint logEst_down (fuel : nat) (lim sh dy x y : Z) : option (Z * Z) :=
  match fuel with
  | O => None
  | S f => if lim <? x then logEst_down f lim sh dy (Z.shiftr x sh) (LogEst (y + dy)) else Some (x, y)
  end.

Definition sqlite3LogEst (x : Z) : option Z :=
  let y := 40 in
  if (x <? 8) && (x <? 2) then Some 0
  else
    '(x, y) ←
      (if x <? 8 then logEst_up 3 x y
       else
         '(x, y) ← logEst_down 16 255 4 40 x y;
         logEst_down 5 15 1 10 x y);
    v ← aget logEst_a (Z.land x 7);
    Some (LogEst (v + y - 10)).

Definition sqlite3LogEstToInt (x : Z) : Z :=
  if x <? 10 then 1
  else
    let n := Z.rem x 10 in
    let x := Z.quot x 10 in
    let n := if 5 <=? n then n - 2 else if 1 <=? n then n - 1 else n in
    if 3 <=? x then
      if 60 <? x then LARGEST_INT64 else u64 (Z.shiftl (n + 8) (x - 3))
    else Z.shiftr (n + 8) (3 - x).

(** ** Checked arithmetic is exact *)

#[export] Instance i64_dec z : Decision (i64 z).
Proof. unfold i64. apply _. Defined.

Ltac i64_unfold := unfold i64, SMALLEST_INT64, LARGEST_INT64 in *.
Ltac i64_lia := i64_unfold; simpl Z.pow in *; lia.

Lemma add_int64_spec a b :
  i64 a -> i64 b ->
  sqlite3AddInt64 a b = Some (if decide (i64 (a + b)) then (0, a + b) else (1, a)).
Proof.
  intros Ha Hb. unfold sqlite3AddInt64.
  destruct (Z.leb_spec 0 b); [destruct (Z.ltb_spec 0 a)|destruct (Z.ltb_spec a 0)].
  - rewrite (cint64_ok (LARGEST_INT64 - a)) by i64_lia. simpl.
    destruct (Z.ltb_spec (LARGEST_INT64 - a) b).
    + rewrite decide_False by i64_lia. done.
    + rewrite decide_True by i64_lia. rewrite cint64_ok by i64_lia. done.
  - simpl. rewrite decide_True by i64_lia. rewrite cint64_ok by i64_lia. done.
  - rewrite (cint64_ok (a + LARGEST_INT64)) by i64_lia. simpl.
    rewrite (cint64_ok (- (a + LARGEST_INT64))) by i64_lia. simpl.
    rewrite (cint64_ok (b + 1)) by i64_lia. simpl.
    destruct (Z.ltb_spec (b + 1) (- (a + LARGEST_INT64))).
    + rewrite decide_False by i64_lia. done.
    + rewrite decide_True by i64_lia. rewrite cint64_ok by i64_lia. done.
  - simpl. rewrite decide_True by i64_lia. rewrite cint64_ok by i64_lia. done.
Qed.

Lemma sub_int64_spec a b :
  i64 a -> i64 b ->
  sqlite3SubInt64 a b = Some (if decide (i64 (a - b)) then (0, a - b) else (1, a)).
Proof.
  intros Ha Hb. unfold sqlite3SubInt64. destruct (Z.eqb_spec b SMALLEST_INT64).
  - destruct (Z.leb_spec 0 a).
    + rewrite decide_False by i64_lia. done.
    + rewrite decide_True by i64_lia. rewrite cint64_ok by i64_lia. done.
  - rewrite cint64_ok by i64_lia. simpl. rewrite add_int64_spec by i64_lia. done.
Qed.

(** The two halves of an operand, as C's truncating division gives them. *)
Lemma halves a :
  i64 a ->
  a = TWOPOWER32 * Z.quot a TWOPOWER32 + Z.rem a TWOPOWER32 /\
  (0 <= a -> 0 <= Z.rem a TWOPOWER32 < 2 ^ 32 /\ 0 <= Z.quot a TWOPOWER32 < 2 ^ 31) /\
  (a <= 0 -> - 2 ^ 32 < Z.rem a TWOPOWER32 <= 0 /\ - 2 ^ 31 <= Z.quot a TWOPOWER32 <= 0).
Proof.
  intros Ha. change TWOPOWER32 with (2 ^ 32). i64_unfold.
  pose proof (Z.quot_rem a (2 ^ 32) ltac:(lia)).
  split_and!; [lia| |]; intros.
  - pose proof (Z.rem_bound_pos a (2 ^ 32) ltac:(lia) ltac:(lia)). simpl Z.pow in *; lia.
  - pose proof (Z.rem_bound_pos_neg a (2 ^ 32) ltac:(lia) ltac:(lia)). simpl Z.pow in *; lia.
Qed.

(** The cross product of the halves, when one high half is zero. *)
Lemma cross_bounds a0 b1 b0 :
  - 2 ^ 32 < a0 < 2 ^ 32 -> b1 <> 0 -> - 2 ^ 31 <= b1 <= 2 ^ 31 ->
  (0 <= b1 -> 0 <= b0 < 2 ^ 32) -> (b1 <= 0 -> - 2 ^ 32 < b0 <= 0) ->
  i64 (a0 * b1) /\
  (a0 * b1 < - 2 ^ 31 \/ 2 ^ 31 <= a0 * b1 -> ~ i64 (a0 * b1 * 2 ^ 32 + a0 * b0)) /\
  (- 2 ^ 31 <= a0 * b1 < 2 ^ 31 -> i64 (a0 * b1 * 2 ^ 32) /\ i64 (a0 * b0)).
Proof.
  intros Ha Hb1 Hb2 Hp Hn. i64_unfold. simpl Z.pow in *.
  split_and!; [nia|nia| |].
  - intros [H|H]; destruct (Z.le_gt_cases 0 b1); nia.
  - intros [H1 H2]. destruct (Z.le_gt_cases 0 b1), (Z.le_gt_cases 0 a0); nia.
Qed.

(** The step that is left when exactly one operand has a high half: [w] is
    the operand without one. *)
Lemma mul_cross a b1 b0 w :
  - 2 ^ 32 < w < 2 ^ 32 -> b1 <> 0 -> - 2 ^ 31 <= b1 <= 2 ^ 31 ->
  (0 <= b1 -> 0 <= b0 < 2 ^ 32) -> (b1 <= 0 -> - 2 ^ 32 < b0 <= 0) ->
  (r ← cint64 (w * b1);
   if (r <? - TWOPOWER31) || (TWOPOWER31 <=? r) then Some (1, a)
   else
     r ← cint64 (r * TWOPOWER32);
     c ← cint64 (w * b0);
     '(e, r) ← sqlite3AddInt64 r c;
     if negb (e =? 0) then Some (1, a) else Some (0, r)) =
  Some (if decide (i64 (w * b1 * 2 ^ 32 + w * b0))
        then (0, w * b1 * 2 ^ 32 + w * b0) else (1, a)).
Proof.
  intros Hw H1 H2 H3 H4.
  destruct (cross_bounds w b1 b0 Hw H1 H2 H3 H4) as (Hr & Hno & Hyes).
  rewrite (cint64_ok _ Hr). cbn [mbind option_bind].
  change TWOPOWER31 with (2 ^ 31). change TWOPOWER32 with (2 ^ 32).
  destruct (Z.ltb_spec (w * b1) (- 2 ^ 31)); simpl; [rewrite decide_False by auto; done|].
  destruct (Z.leb_spec (2 ^ 31) (w * b1)); [rewrite decide_False by auto; done|].
  destruct Hyes as [Ha Hb]; [lia|].
  rewrite (cint64_ok _ Ha). cbn [mbind option_bind]. rewrite (cint64_ok _ Hb). cbn [mbind option_bind].
  rewrite add_int64_spec by done. cbn [mbind option_bind].
  by case_decide.
Qed.

(** A product of two operands with high halves does not fit. *)
Lemma big_product a b :
  2 ^ 32 <= Z.abs a -> 2 ^ 32 <= Z.abs b -> ~ i64 (a * b).
Proof. i64_unfold. simpl Z.pow. intros. destruct (Z.abs_spec a), (Z.abs_spec b); nia. Qed.

Lemma mul_int64_spec a b :
  i64 a -> i64 b ->
  sqlite3MulInt64 a b =
    if decide (- 2 ^ 32 < a < 2 ^ 32 /\ - 2 ^ 32 < b < 2 ^ 32) then
      r ← cint64 (a * b); Some (0, r)
    else Some (if decide (i64 (a * b)) then (0, a * b) else (1, a)).
Proof.
  intros Ha Hb. destruct (halves a Ha) as (Ea & Pa & Na), (halves b Hb) as (Eb & Pb & Nb).
  unfold sqlite3MulInt64.
  set (a1 := Z.quot a TWOPOWER32) in *. set (a0 := Z.rem a TWOPOWER32) in *.
  set (b1 := Z.quot b TWOPOWER32) in *. set (b0 := Z.rem b TWOPOWER32) in *.
  clearbody a1 a0 b1 b0. change TWOPOWER32 with (2 ^ 32) in Ea, Eb. simpl Z.pow in *.
  destruct (Z.eqb_spec a1 0) as [Za|Za], (Z.eqb_spec b1 0) as [Zb|Zb]; cbn [andb negb].
  - rewrite decide_True by lia. done.
  - rewrite decide_False by lia. rewrite (mul_cross a b1 b0 a0); [|simpl Z.pow; lia..].
    simpl Z.pow. replace (a * b) with (a0 * b1 * 4294967296 + a0 * b0) by (subst; ring). done.
  - rewrite decide_False by lia. rewrite (Z.mul_comm a1 b0), (Z.mul_comm a0 b0).
    rewrite (mul_cross a a1 a0 b0); [|simpl Z.pow; lia..].
    simpl Z.pow. replace (a * b) with (b0 * a1 * 4294967296 + b0 * a0) by (subst; ring). done.
  - rewrite decide_False by lia. rewrite decide_False; [done|]. apply big_product; simpl Z.pow; lia.
Qed.

(** ** Logarithmic estimates *)

Lemma LogEst_small z : - 2 ^ 15 <= z < 2 ^ 15 -> LogEst z = z.
Proof. intros. unfold LogEst. rewrite Z.mod_small by lia. lia. Qed.

(** Each halving loop drops low bits and adds 10 per bit, and stops with at
    least the top four bits left. *)
Lemma logEst_down_spec fuel lim sh x y :
  1 <= sh -> 8 * 2 ^ sh <= lim + 1 -> 8 <= x ->
  x < (lim + 1) * 2 ^ (sh * (Z.of_nat fuel - 1)) ->
  0 <= y -> y + 10 * sh * Z.of_nat fuel < 2 ^ 15 ->
  exists j, 0 <= j /\ logEst_down fuel lim sh (10 * sh) x y = Some (Z.shiftr x j, y + 10 * j) /\
    8 <= Z.shiftr x j <= lim /\ j <= sh * Z.of_nat fuel.
Proof.
  intros Hsh Hlim. revert x y. induction fuel as [|f IH]; intros x y Hx Hlt Hy Hyb.
  { exfalso. rewrite Z.pow_neg_r in Hlt by lia. lia. }
  simpl. destruct (Z.ltb_spec lim x).
  - assert (0 < 2 ^ sh) by (apply Z.pow_pos_nonneg; lia).
    rewrite LogEst_small by nia.
    assert (8 <= Z.shiftr x sh).
    { rewrite Z.shiftr_div_pow2 by lia. apply Z.div_le_lower_bound; lia. }
    destruct f as [|f].
    { exfalso. change (Z.of_nat 1 - 1) with 0 in Hlt. rewrite Z.mul_0_r in Hlt. lia. }
    destruct (IH (Z.shiftr x sh) (y + 10 * sh)) as (j & Hj & He & Hr & Hb); [done| |nia|nia|].
    { rewrite Z.shiftr_div_pow2 by lia. apply Z.div_lt_upper_bound; [lia|].
      rewrite Z.mul_comm, <- Z.mul_assoc, <- Z.pow_add_r by nia.
      replace (sh * (Z.of_nat (S f) - 1) + sh) with (sh * (Z.of_nat (S (S f)) - 1)) by lia. done. }
    exists (sh + j). rewrite <- Z.shiftr_shiftr by lia. rewrite He.
    split_and!; [lia| |lia|lia|lia]. do 2 f_equal. lia.
  - exists 0. rewrite Z.shiftr_0_r. split_and!; [lia| |lia|lia|lia]. do 2 f_equal. lia.
Qed.

(** The eighths above the leading bit. *)
Definition eighths (x : Z) : Z := 8 * x / 2 ^ Z.log2 x - 8.

Lemma shiftr_top x j : 0 <= j -> 8 <= Z.shiftr x j <= 15 -> j = Z.log2 x - 3 /\ Z.shiftr x j = eighths x + 8.
Proof.
  intros Hj Hr. assert (Z.log2 x = j + 3) as Hl.
  { rewrite Z.shiftr_div_pow2 in Hr by lia.
    assert (0 < 2 ^ j) by (apply Z.pow_pos_nonneg; lia).
    pose proof (Z.div_mod x (2 ^ j) ltac:(lia)). pose proof (Z.mod_pos_bound x (2 ^ j) ltac:(lia)).
    apply Z.log2_unique; [lia|]. rewrite Z.pow_succ_r, Z.pow_add_r by lia. simpl (2 ^ 3). nia. }
  split; [lia|]. unfold eighths. rewrite Hl, Z.pow_add_r by lia.
  rewrite (Z.mul_comm (2 ^ j)). change (2 ^ 3) with 8. rewrite Z.div_mul_cancel_l by lia.
  rewrite Z.shiftr_div_pow2 by lia. lia.
Qed.

Lemma eighths_range x : 0 < x -> 0 <= eighths x < 8.
Proof.
  intros. unfold eighths. destruct (Z.log2_spec x ltac:(lia)) as [Hl Hu].
  rewrite Z.pow_succ_r in Hu by apply Z.log2_nonneg.
  split.
  - apply Z.le_add_le_sub_r. apply Z.div_le_lower_bound; lia.
  - apply Z.lt_sub_lt_add_r. apply Z.div_lt_upper_bound; lia.
Qed.

(** The estimate: ten per doubling, plus the table's entry for the eighths. *)
Lemma logEst_spec x :
  1 <= x < 2 ^ 64 ->
  exists v, aget logEst_a (eighths x) = Some v /\ sqlite3LogEst x = Some (10 * Z.log2 x + v).
Proof.
  intros Hx. destruct (decide (x < 8)).
  { assert (x = 1 \/ x = 2 \/ x = 3 \/ x = 4 \/ x = 5 \/ x = 6 \/ x = 7) as Hc by lia.
    destruct Hc as [->|[->|[->|[->|[->|[->| ->]]]]]]; eexists; split; vm_compute; reflexivity. }
  unfold sqlite3LogEst. rewrite (proj2 (Z.ltb_ge x 8)) by lia. cbn [andb].
  destruct (logEst_down_spec 16 255 4 x 40) as (j & Hj & He1 & Hr & Hjb); [lia..|].
  change (10 * 4) with 40 in He1. rewrite He1.
  cbn [mbind option_bind].
  destruct (logEst_down_spec 5 15 1 (Z.shiftr x j) (40 + 10 * j)) as (i & Hi & He & Hr2 & Hib); [lia..|].
  change (10 * 1) with 10 in He. rewrite He. cbn [mbind option_bind].
  rewrite Z.shiftr_shiftr in * by lia.
  destruct (shiftr_top x (j + i)) as [Hji Heq]; [lia..|].
  pose proof (eighths_range x ltac:(lia)). rewrite Heq.
  change 7 with (Z.ones 3). rewrite Z.land_ones by lia. change (2 ^ 3) with 8.
  replace ((eighths x + 8) mod 8) with (eighths x) by (rewrite Z.add_mod, Z.mod_same, Z.add_0_r, Z.mod_mod by lia; symmetry; by apply Z.mod_small).
  destruct (aget_is_Some logEst_a (eighths x)) as [v Hv]; [simpl; lia|]. exists v. split; [done|].
  rewrite Hv. simpl. f_equal.
  assert (0 <= v <= 9) by (revert Hv; apply (aget_Forall (fun v => 0 <= v <= 9)); repeat constructor; lia).
  rewrite LogEst_small; lia.
Qed.

Lemma logEst_table i v :
  aget logEst_a i = Some v ->
  0 <= i < 8 /\ 0 <= v <= 9 /\
  (if 5 <=? v then v - 2 else if 1 <=? v then v - 1 else v) = i.
Proof.
  intros Hv. pose proof (aget_Some_range _ _ _ Hv) as Hr. simpl in Hr.
  assert (i = 0 \/ i = 1 \/ i = 2 \/ i = 3 \/ i = 4 \/ i = 5 \/ i = 6 \/ i = 7) as Hc by lia.
  destruct Hc as [->|[->|[->|[->|[->|[->|[->| ->]]]]]]]; injection Hv as <-; simpl; lia.
Qed.

(** The low bits the estimate drops. *)
Lemma top_bits x : 0 < x -> 3 <= Z.log2 x ->
  (eighths x + 8) * 2 ^ (Z.log2 x - 3) = x - x mod 2 ^ (Z.log2 x - 3).
Proof.
  intros Hx Hl. unfold eighths.
  replace (2 ^ Z.log2 x) with (8 * 2 ^ (Z.log2 x - 3))
    by (change 8 with (2 ^ 3); rewrite <- Z.pow_add_r by lia; f_equal; lia).
  rewrite Z.div_mul_cancel_l by lia.
  pose proof (Z.div_mod x (2 ^ (Z.log2 x - 3)) ltac:(lia)). lia.
Qed.

Lemma logEst_back x v :
  1 <= x < 2 ^ 61 -> aget logEst_a (eighths x) = Some v ->
  sqlite3LogEstToInt (10 * Z.log2 x + v) = x - x mod 2 ^ (Z.max 3 (Z.log2 x) - 3).
Proof.
  intros Hx Hv. destruct (logEst_table _ _ Hv) as (Hi & Hvr & Hn).
  destruct (decide (x < 8)) as [Hs|Hs].
  { assert (x = 1 \/ x = 2 \/ x = 3 \/ x = 4 \/ x = 5 \/ x = 6 \/ x = 7) as Hc by lia.
    destruct Hc as [->|[->|[->|[->|[->|[->| ->]]]]]]; injection Hv as <-; reflexivity. }
  assert (3 <= Z.log2 x) by (change 3 with (Z.log2 8); apply Z.log2_le_mono; lia).
  assert (Z.log2 x <= 60) by (apply Z.lt_succ_r, Z.log2_lt_pow2; simpl; lia).
  rewrite Z.max_r by done.
  unfold sqlite3LogEstToInt. rewrite (proj2 (Z.ltb_ge _ 10)) by lia.
  rewrite Z.mul_comm, Z.add_comm, Z.rem_add, Z.quot_add, Z.rem_small, Z.quot_small by nia.
  rewrite Hn. rewrite (proj2 (Z.leb_le 3 _)), (proj2 (Z.ltb_ge 60 _)) by lia.
  rewrite Z.shiftl_mul_pow2, Z.add_0_l, top_bits by lia. unfold u64. apply Z.mod_small.
  pose proof (Z.mod_pos_bound x (2 ^ (Z.log2 x - 3)) ltac:(lia)).
  pose proof (Z.mod_le x (2 ^ (Z.log2 x - 3)) ltac:(lia) ltac:(lia)). lia.
Qed.

(** ** Properties *)

(** Checked addition and subtraction are exact: for 64-bit operands
    sqlite3AddInt64 and sqlite3SubInt64 never overflow themselves, store the sum
    or difference and return 0 when it is representable, and otherwise return 1
    and leave the operand unchanged. *)
Theorem add_sub_int64_correct a b :
  i64 a -> i64 b ->
  sqlite3AddInt64 a b = Some (if decide (i64 (a + b)) then (0, a + b) else (1, a)) /\
  sqlite3SubInt64 a b = Some (if decide (i64 (a - b)) then (0, a - b) else (1, a)).
Proof. auto using add_int64_spec, sub_int64_spec. Qed.

Lemma add_sub_int64_correct_witness :
  i64 (-5) /\ i64 SMALLEST_INT64 /\
  sqlite3AddInt64 (-5) SMALLEST_INT64 = Some (1, -5) /\
  sqlite3SubInt64 (-5) SMALLEST_INT64 = Some (0, LARGEST_INT64 - 4).
Proof.
  assert (i64 (-5)) as H1 by i64_lia. assert (i64 SMALLEST_INT64) as H2 by i64_lia.
  destruct (add_sub_int64_correct (-5) SMALLEST_INT64 H1 H2) as [Ha Hs].
  split_and!; [done|done|rewrite Ha|rewrite Hs]; vm_compute; reflexivity.
Defined.

(** Checked multiplication is exact whenever an operand reaches 2^32 in
    magnitude: the product is stored when it is representable, and otherwise 1
    is returned and the operand is left alone; no intermediate product
    overflows.  When both operands are below 2^32 in magnitude and the product
    fits, it is stored. *)
Theorem mul_int64_correct a b :
  i64 a -> i64 b ->
  2 ^ 32 <= Z.abs a \/ 2 ^ 32 <= Z.abs b \/ i64 (a * b) ->
  sqlite3MulInt64 a b = Some (if decide (i64 (a * b)) then (0, a * b) else (1, a)).
Proof.
  intros Ha Hb Hc. rewrite mul_int64_spec by done. case_decide as Hd; [|done].
  assert (i64 (a * b)) as Hf by (destruct Hc as [|[|]]; [lia|lia|done]).
  rewrite (cint64_ok _ Hf). simpl. by rewrite decide_True.
Qed.

Lemma mul_int64_correct_witness :
  sqlite3MulInt64 (2 ^ 40) (2 ^ 23) = Some (1, 2 ^ 40) /\
  sqlite3MulInt64 (- 2 ^ 40) (2 ^ 23) = Some (0, SMALLEST_INT64).
Proof.
  split.
  - rewrite (mul_int64_correct (2 ^ 40) (2 ^ 23)); [reflexivity|i64_lia|i64_lia|left; lia].
  - rewrite (mul_int64_correct (- 2 ^ 40) (2 ^ 23)); [reflexivity|i64_lia|i64_lia|left; lia].
Defined.

(** C36. The overflow check of multiplication has a gap: two operands in
    [0, 2^32) whose product exceeds 2^63-1 reach the unchecked multiplication,
    whose signed overflow is undefined behaviour, instead of returning 1. *)
Theorem mul_int64_unchecked_overflow a b :
  0 <= a < 2 ^ 32 -> 0 <= b < 2 ^ 32 -> LARGEST_INT64 < a * b ->
  sqlite3MulInt64 a b = None.
Proof.
  intros Ha Hb Ho. rewrite mul_int64_spec by i64_lia.
  rewrite decide_True by lia. rewrite cint64_None by i64_lia. done.
Qed.

Lemma mul_int64_unchecked_overflow_witness :
  LARGEST_INT64 < 4294967295 * 4294967295 /\
  sqlite3MulInt64 4294967295 4294967295 = None.
Proof.
  split; [vm_compute; reflexivity|].
  apply mul_int64_unchecked_overflow; vm_compute; repeat split; discriminate.
Defined.

(** Logarithmic estimates: for every u64 the loops of sqlite3LogEst end
    and the table index is in range; the result is ten times the exponent of
    the leading bit plus at most 9; and sqlite3LogEstToInt undoes it up to the
    bits below the leading four (for values below 2^61). *)
Theorem logEst_roundtrip x :
  1 <= x < 2 ^ 64 ->
  exists e, sqlite3LogEst x = Some e /\ 10 * Z.log2 x <= e <= 10 * Z.log2 x + 9 /\
    (x < 2 ^ 61 -> sqlite3LogEstToInt e = x - x mod 2 ^ (Z.max 3 (Z.log2 x) - 3)).
Proof.
  intros Hx. destruct (logEst_spec x Hx) as (v & Hv & ->).
  exists (10 * Z.log2 x + v). destruct (logEst_table _ _ Hv) as (_ & Hr & _).
  split_and!; [done|lia|lia|]. intros. apply logEst_back; [lia|done].
Qed.

Lemma logEst_roundtrip_witness :
  sqlite3LogEst 1000 = Some 99 /\ sqlite3LogEstToInt 99 = 960.
Proof.
  destruct (logEst_roundtrip 1000 ltac:(lia)) as (e & He & _ & Hb).
  assert (e = 99) as -> by (vm_compute in He; congruence).
  split; [exact He|]. rewrite Hb by lia. reflexivity.
Defined.
