(* ===== verification/Atoi.v ===== *)
(** * Atoi: text to integers, hexadecimal blobs and quoted names (util.c)

    Strings are byte arrays with positions for pointers.  A result stored
    through a pointer is returned beside the result code. *)
From S2P Require Import Prelude Ctype.

(** ** sqlite3Atoi64 *)

Definition SQLITE_UTF8 : Z := 1.
Definition SQLITE_UTF16LE : Z := 2.
Definition SQLITE_UTF16BE : Z := 3.

Definition pow63 : list Z := [57;50;50;51;51;55;50;48;51;54;56;53;52;55;55;53;56;48].

Fixpoint compare_loop (z : list Z) (p incr i c : Z) (pow : list Z) : option Z :=
  match pow with
  | [] => Some c
  | d :: pow' =>
      if c =? 0 then
        x ← aget z (p + i * incr);
        compare_loop z p incr (i + 1) ((schar x - d) * 10) pow'
      else Some c
  end.

Definition compare2pow63 (z : list Z) (p incr : Z) : option Z :=
  c ← compare_loop z p incr 0 0 pow63;
  if c =? 0 then x ← aget z (p + 18 * incr); Some (schar x - 56) else Some c.

(** while( zNum<zEnd && P( *zNum) ) zNum += incr; *)
Fixpoint skip_while (P : Z -> bool) (fuel : nat) (z : list Z) (incr p zEnd : Z) : option Z :=
  match fuel with
  | O => None
  | S f =>
      if p <? zEnd then
        x ← aget z p;
        if P x then skip_while P f z incr (p + incr) zEnd else Some p
      else Some p
  end.

Definition isdig (c : Z) : bool := (48 <=? c) && (c <=? 57).

Fixpoint digit_loop (fuel : nat) (z : list Z) (incr p zEnd i u c : Z) : option (Z * Z * Z) :=
  match fuel with
  | O => None
  | S f =>
      if p + i <? zEnd then
        x ← aget z (p + i);
        let c := schar x in
        if isdig c then digit_loop f z incr p zEnd (i + incr) (u64 (u * 10 + c - 48)) c
        else Some (i, u, c)
      else Some (i, u, c)
  end.

(** Lines that scan the digits, once the encoding is settled. *)
Definition atoi64_scan (z : list Z) (incr p zEnd : Z) (nonNum : bool) : option (Z * Z) :=
  let fuel := S (Z.to_nat (zEnd - p)) in
  p ← skip_while sqlite3Isspace fuel z incr p zEnd;
  '(neg, p) ←
    (if p <? zEnd then
       x ← aget z p;
       Some (if schar x =? 45 then (true, p + incr)
             else if schar x =? 43 then (false, p + incr) else (false, p))
     else Some (false, p));
  let zStart := p in
  p ← skip_while (fun x => schar x =? 48) fuel z incr p zEnd;
  '(i, u, c) ← digit_loop fuel z incr p zEnd 0 0 0;
  let pNum := if LARGEST_INT64 <? u then if neg : bool then SMALLEST_INT64 else LARGEST_INT64
              else if neg then - u else u in
  if (negb (c =? 0) && (p + i <? zEnd)) || ((i =? 0) && (zStart =? p)) || (19 * incr <? i) || nonNum
  then Some (1, pNum)
  else if i <? 19 * incr then
    _ ← assert_ (u <=? LARGEST_INT64);
    Some (0, pNum)
  else
    c ← compare2pow63 z p incr;
    if c <? 0 then
      _ ← assert_ (u <=? LARGEST_INT64);
      Some (0, pNum)
    else if 0 <? c then Some (1, pNum)
    else
      _ ← assert_ (u64 (u - 1) =? LARGEST_INT64);
      Some (if neg then 0 else 2, pNum).

(** for(i=3-enc; i<length && zNum[i]==0; i+=2){} *)
Definition high_bytes (z : list Z) (enc length : Z) : option Z :=
  skip_while (fun x => x =? 0) (S (Z.to_nat length)) z 2 (3 - enc) length.

Definition sqlite3Atoi64 (z : list Z) (length enc : Z) : option (Z * Z) :=
  _ ← assert_ ((enc =? SQLITE_UTF8) || (enc =? SQLITE_UTF16LE) || (enc =? SQLITE_UTF16BE));
  if enc =? SQLITE_UTF8 then atoi64_scan z 1 0 length false
  else
    i ← high_bytes z enc length;
    atoi64_scan z 2 (Z.land enc 1) (i + enc - 3) (i <? length).

(** ** sqlite3GetInt32, sqlite3Atoi *)

Fixpoint getInt32_zeros (fuel : nat) (z : list Z) (p : Z) : option Z :=
  match fuel with
  | O => None
  | S f => x ← aget z p; if schar x =? 48 then getInt32_zeros f z (p + 1) else Some p
  end.

Fixpoint getInt32_loop (fuel : nat) (z : list Z) (p i v : Z) : option (Z * Z) :=
  match fuel with
  | O => None
  | S f =>
      if i <? 11 then
        x ← aget z (p + i);
        c ← cint (schar x - 48);
        if (0 <=? c) && (c <=? 9) then
          v ← cint64 (v * 10 + c);
          getInt32_loop f z p (i + 1) v
        else Some (i, v)
      else Some (i, v)
  end.

Definition sqlite3GetInt32 (z : list Z) (pValue : Z) : option (Z * Z) :=
  x ← aget z 0;
  let '(neg, p) := if schar x =? 45 then (1, 1) else if schar x =? 43 then (0, 1) else (0, 0) in
  p ← getInt32_zeros (S (length z)) z p;
  '(i, v) ← getInt32_loop 12 z p 0 0;
  if 10 <? i then Some (0, pValue)
  else if 2147483647 <? v - neg then Some (0, pValue)
  else
    let v := if negb (neg =? 0) then - v else v in
    Some (1, v).

Definition sqlite3Atoi (z : option (list Z)) : option Z :=
  match z with
  | Some z => '(_, x) ← sqlite3GetInt32 z 0; Some x
  | None => Some 0
  end.

(** ** Hexadecimal *)

Definition sqlite3HexToInt (h : Z) : option Z :=
  _ ← assert_ (((48 <=? h) && (h <=? 57)) || ((97 <=? h) && (h <=? 102)) || ((65 <=? h) && (h <=? 70)));
  let h := h + 9 * Z.land 1 (Z.shiftr h 6) in
  Some (u8 (Z.land h 15)).

Fixpoint hexToBlob_loop (fuel : nat) (z zBlob : list Z) (i n : Z) : option (list Z * Z) :=
  match fuel with
  | O => None
  | S f =>
      if i <? n then
        x ← aget z i; a ← sqlite3HexToInt (schar x);
        y ← aget z (i + 1); b ← sqlite3HexToInt (schar y);
        zBlob ← aset zBlob (i / 2) (Z.lor (Z.shiftl a 4) b);
        hexToBlob_loop f z zBlob (i + 2) n
      else Some (zBlob, i)
  end.

(** [fresh] is the content of the n/2+1 bytes the allocator returned, or
    [None] when the allocation failed. *)
Definition sqlite3HexToBlob (fresh : option (list Z)) (z : list Z) (n : Z) : option (option (list Z)) :=
  let n := n - 1 in
  match fresh with
  | None => Some None
  | Some zBlob =>
      '(zBlob, i) ← hexToBlob_loop (S (Z.to_nat n)) z zBlob 0 n;
      zBlob ← aset zBlob (i / 2) 0;
      Some (Some zBlob)
  end.

(** ** Quoted names *)

Fixpoint dequote_loop (fuel : nat) (z : list Z) (quote i j : Z) : option (list Z * Z) :=
  match fuel with
  | O => None
  | S f =>
      c ← aget z i;
      _ ← assert_ (negb (c =? 0));
      if c =? quote then
        d ← aget z (i + 1);
        if d =? quote then
          z ← aset z j quote;
          dequote_loop f z quote (i + 2) (j + 1)
        else Some (z, j)
      else
        z ← aset z j c;
        dequote_loop f z quote (i + 1) (j + 1)
  end.

Definition sqlite3Dequote (z : option (list Z)) : option (Z * option (list Z)) :=
  match z with
  | None => Some (-1, None)
  | Some z =>
      q ← aget z 0;
      if (q =? 39) || (q =? 34) || (q =? 96) || (q =? 91) then
        let quote := if q =? 91 then 93 else q in
        '(z, j) ← dequote_loop (length z) z quote 1 0;
        z ← aset z j 0;
        Some (j, Some z)
      else Some (-1, Some z)
  end.

(** ** What the text of an integer denotes *)

Fixpoint span (P : Z -> bool) (s : list Z) : list Z * list Z :=
  match s with
  | x :: s' => if P x then let '(a, b) := span P s' in (x :: a, b) else ([], s)
  | [] => ([], [])
  end.

Definition digits_value (v : Z) (ds : list Z) : Z := foldl (fun v d => 10 * v + (d - 48)) v ds.

(** Spaces, an optional sign, digits, and the rest. *)
Definition split_number (s : list Z) : bool * list Z * list Z :=
  let '(_, s) := span sqlite3Isspace s in
  let '(neg, s) := match s with
                   | 45 :: s' => (true, s')
                   | 43 :: s' => (false, s')
                   | _ => (false, s)
                   end in
  let '(ds, rest) := span isdig s in
  (neg, ds, rest).

(** The result code, and the value stored: the number clamped to 64 bits once
    it is reduced modulo 2^64.  Text from a NUL behind the digits on is not looked at. *)
Definition atoi64_spec (nonNum : bool) (s : list Z) : Z * Z :=
  let '(neg, ds, rest) := split_number s in
  let v := digits_value 0 ds in
  let wellformed := negb (bool_decide (ds = [])) && negb nonNum &&
                    match rest with [] => true | c :: _ => c =? 0 end in
  (if negb wellformed then 1
   else if v <? 2 ^ 63 then 0
   else if v =? 2 ^ 63 then if neg then 0 else 2
   else 1,
   if LARGEST_INT64 <? u64 v then if neg then SMALLEST_INT64 else LARGEST_INT64
   else if neg then - u64 v else u64 v).

(** The code that the comment on sqlite3Atoi64 gives for a sign, digits and the text
    behind them. *)
Definition atoi64_documented (neg : bool) (ds rest : list Z) : Z :=
  let v := if neg then - digits_value 0 ds else digits_value 0 ds in
  if bool_decide (ds = []) || negb (bool_decide (rest = [])) then 1
  else if (SMALLEST_INT64 <=? v) && (v <=? LARGEST_INT64) then 0
  else if v =? 9223372036854775808 then 2
  else 1.

(** ** A strided view of the text *)

(** From position [p] on, every [incr]-th byte below [zEnd] spells [s]. *)
Record view (z : list Z) (incr p zEnd : Z) (s : list Z) : Prop := mkView {
  view_get : forall (k : nat) x, s !! k = Some x -> aget z (p + incr * Z.of_nat k) = Some x;
  view_end : forall k : nat, p + incr * Z.of_nat k < zEnd <-> (k < length s)%nat;
  view_incr : 0 < incr }.

Section View.
Context (z : list Z) (incr zEnd : Z).

Lemma view_nil p : view z incr p zEnd [] -> zEnd <= p.
Proof. intros [_ He _]. specialize (He O). simpl in He. lia. Qed.

Lemma view_cons p x s :
  view z incr p zEnd (x :: s) -> p < zEnd /\ aget z p = Some x /\ view z incr (p + incr) zEnd s.
Proof.
  intros [Hg He Hi]. split_and!.
  - specialize (He O). simpl in He. lia.
  - specialize (Hg O x eq_refl). by rewrite Z.mul_0_r, Z.add_0_r in Hg.
  - split; [| |done].
    + intros k y Hk. specialize (Hg (S k) y Hk). rewrite <- Hg. f_equal. lia.
    + intros k. specialize (He (S k)). simpl in He. lia.
Qed.

Lemma view_app p a b : view z incr p zEnd (a ++ b) -> view z incr (p + incr * Z.of_nat (length a)) zEnd b.
Proof.
  revert p. induction a as [|x a IH]; intros p H; simpl.
  - by rewrite Z.mul_0_r, Z.add_0_r.
  - apply view_cons in H as (_ & _ & H). apply IH in H.
    replace (p + incr * Z.of_nat (S (length a))) with (p + incr + incr * Z.of_nat (length a)) by lia. done.
Qed.

Lemma view_length p s : view z incr p zEnd s -> Z.of_nat (length s) <= Z.max 0 (zEnd - p).
Proof.
  intros [_ He Hi]. destruct (length s) as [|n] eqn:E; [lia|].
  specialize (He n). assert (p + incr * Z.of_nat n < zEnd) by (apply He; lia). nia.
Qed.

(** [b] does not go on with what [P] accepts. *)
Definition stops (P : Z -> bool) (b : list Z) : Prop :=
  match b with [] => True | x :: _ => P x = false end.

Lemma skip_while_spec P a : forall b fuel p,
  view z incr p zEnd (a ++ b) -> Forall (fun x => P x = true) a -> stops P b ->
  (length a < fuel)%nat ->
  skip_while P fuel z incr p zEnd = Some (p + incr * Z.of_nat (length a)).
Proof.
  induction a as [|x a IH]; intros b fuel p Hv Ha Hb Hf; (destruct fuel as [|f]; [simpl in Hf; lia|]); simpl.
  - rewrite Z.mul_0_r, Z.add_0_r. destruct b as [|y b]; simpl in *.
    + apply view_nil in Hv. by rewrite (proj2 (Z.ltb_ge _ _)) by lia.
    + apply view_cons in Hv as (Hlt & Hg & _). rewrite (proj2 (Z.ltb_lt _ _)), Hg by done. simpl. by rewrite Hb.
  - apply view_cons in Hv as (Hlt & Hg & Hv). rewrite (proj2 (Z.ltb_lt _ _)), Hg by done. simpl.
    apply Forall_cons in Ha as [Hx Ha]. rewrite Hx. erewrite IH; [|done..|simpl in Hf; lia]. f_equal. lia.
Qed.
End View.

(** ** Digits *)

Lemma schar_eqb x k : is_byte x -> 0 <= k < 128 -> (schar x =? k) = (x =? k).
Proof.
  unfold ubits, schar. intros. destruct (Z.ltb_spec x 128); [done|].
  destruct (Z.eqb_spec (x - 256) k), (Z.eqb_spec x k); lia.
Qed.

Lemma isdig_spec x : isdig x = true <-> 48 <= x <= 57.
Proof. unfold isdig. rewrite andb_true_iff, !Z.leb_le. done. Qed.

Lemma schar_digit x : 48 <= x <= 57 -> schar x = x.
Proof. unfold schar. intros. by rewrite (proj2 (Z.ltb_lt _ _)) by lia. Qed.

Lemma isdig_schar x : is_byte x -> isdig (schar x) = isdig x.
Proof.
  unfold ubits, schar. intros. destruct (Z.ltb_spec x 128); [done|].
  apply bool_iff. rewrite !isdig_spec. lia.
Qed.

Lemma span_spec P s : forall a b, span P s = (a, b) ->
  s = a ++ b /\ Forall (fun x => P x = true) a /\ stops P b.
Proof.
  induction s as [|x s IH]; simpl; intros a b.
  - intros [= <- <-]. done.
  - destruct (P x) eqn:E; [|intros [= <- <-]; done].
    destruct (span P s) as [a' b'] eqn:Es. intros [= <- <-].
    destruct (IH a' b' eq_refl) as (-> & Ha & Hb). auto.
Qed.

Lemma span_app P a b : Forall (fun x => P x = true) a -> stops P b -> span P (a ++ b) = (a, b).
Proof.
  intros Ha Hb. induction Ha as [|x a Hx _ IH]; simpl.
  - destruct b as [|y b]; [done|]. simpl in *. by rewrite Hb.
  - by rewrite Hx, IH.
Qed.

Abbreviation digits := (Forall (fun x => isdig x = true)).

Lemma digits_value_bounds ds : forall v, digits ds ->
  v * 10 ^ Z.of_nat (length ds) <= digits_value v ds < (v + 1) * 10 ^ Z.of_nat (length ds).
Proof.
  induction ds as [|d ds IH]; intros v Hd; simpl; [lia|].
  apply Forall_cons in Hd as [Hx%isdig_spec Hd].
  rewrite Nat2Z.inj_succ, Z.pow_succ_r by lia.
  specialize (IH (10 * v + (d - 48)) Hd). unfold digits_value in *. simpl. nia.
Qed.

Lemma digits_value_u64 ds : forall v w, u64 v = u64 w -> u64 (digits_value v ds) = u64 (digits_value w ds).
Proof.
  induction ds as [|d ds IH]; intros v w H; [done|]. simpl. apply IH.
  unfold u64 in *. rewrite (Z.add_mod (10 * v)), (Z.mul_mod 10 v), H by lia.
  by rewrite <- Z.mul_mod, <- Z.add_mod by lia.
Qed.

Lemma digits_value_zeros zs ds : Forall (fun x => x = 48) zs -> digits_value 0 (zs ++ ds) = digits_value 0 ds.
Proof. intros Hz. induction Hz as [|x zs -> _ IH]; [done|]. simpl. done. Qed.

Lemma digits_value_app v a b : digits_value v (a ++ b) = digits_value (digits_value v a) b.
Proof. unfold digits_value. by rewrite foldl_app. Qed.

Section Loops.
Context (z : list Z) (incr p zEnd : Z).

Lemma digit_loop_spec ds : forall rest fuel i u c,
  view z incr (p + i) zEnd (ds ++ rest) -> Forall is_byte (ds ++ rest) ->
  digits ds -> stops isdig rest -> (length ds < fuel)%nat -> u64 u = u ->
  exists c', digit_loop fuel z incr p zEnd i u c =
      Some (i + incr * Z.of_nat (length ds), u64 (digits_value u ds), c') /\
    negb (c' =? 0) && (p + (i + incr * Z.of_nat (length ds)) <? zEnd) =
      match rest with [] => false | x :: _ => negb (x =? 0) end.
Proof.
  induction ds as [|d ds IH]; intros rest fuel i u c Hv Hb Hd Hr Hf Hu;
    (destruct fuel as [|f]; [simpl in Hf; lia|]); cbn [digit_loop length].
  - rewrite Z.mul_0_r, Z.add_0_r. change (digits_value u []) with u. rewrite Hu.
    destruct rest as [|x rest]; cbn [app] in *.
    + apply view_nil in Hv. rewrite (proj2 (Z.ltb_ge _ _)) by lia.
      exists c. by rewrite andb_false_r.
    + apply view_cons in Hv as (Hlt & Hg & _). rewrite (proj2 (Z.ltb_lt _ _)), Hg by done. cbn.
      apply Forall_cons in Hb as [Hx _]. rewrite isdig_schar, Hr by done.
      exists (schar x). by rewrite schar_eqb, andb_true_r by (done || lia).
  - cbn [app] in Hv, Hb. apply view_cons in Hv as (Hlt & Hg & Hv).
    apply Forall_cons in Hb as [Hx Hb], Hd as [Hdx Hd]. rewrite (proj2 (Z.ltb_lt _ _)), Hg by done. cbn.
    rewrite isdig_schar, Hdx by done. rewrite schar_digit by by apply isdig_spec.
    destruct (IH rest f (i + incr) (u64 (u * 10 + d - 48)) d) as (c' & He & Hc); try done.
    { by rewrite Z.add_assoc. } { simpl in Hf; lia. } { unfold u64. by rewrite Z.mod_mod by lia. }
    exists c'. rewrite He.
    replace (i + incr * Z.of_nat (S (length ds))) with (i + incr + incr * Z.of_nat (length ds)) by lia.
    split; [|done]. do 3 f_equal. cbn. apply digits_value_u64. unfold u64. rewrite Z.mod_mod by lia.
    f_equal. lia.
Qed.

Lemma compare_loop_done i c pow : c <> 0 -> compare_loop z p incr i c pow = Some c.
Proof. intros. destruct pow; simpl; [done|]. by rewrite (proj2 (Z.eqb_neq c 0)). Qed.

(** Digit by digit comparison is comparison of values. *)
Lemma compare_loop_spec pow : forall ds rest i v,
  view z incr (p + i * incr) zEnd (ds ++ rest) -> digits ds -> digits pow -> length ds = length pow ->
  exists c, compare_loop z p incr i 0 pow = Some c /\
    (c < 0 <-> digits_value v ds < digits_value v pow) /\ (c = 0 <-> digits_value v ds = digits_value v pow).
Proof.
  induction pow as [|q pow IH]; intros [|d ds] rest i v Hv Hd Hq Hlen; try done.
  - exists 0. simpl. split; [done|]. lia.
  - cbn [app] in Hv. apply view_cons in Hv as (_ & Hg & Hv).
    apply Forall_cons in Hd as [Hdx%isdig_spec Hd], Hq as [Hqx%isdig_spec Hq].
    cbn [compare_loop]. rewrite Z.eqb_refl, Hg. cbn. rewrite schar_digit by done.
    destruct (decide (d = q)) as [->|Hne].
    + rewrite Z.sub_diag, Z.mul_0_l. eapply IH; [|done|done|simpl in Hlen; lia].
      replace (p + (i + 1) * incr) with (p + i * incr + incr) by lia. done.
    + exists ((d - q) * 10). rewrite compare_loop_done by lia. split; [done|].
      pose proof (digits_value_bounds ds (10 * v + (d - 48)) Hd).
      pose proof (digits_value_bounds pow (10 * v + (q - 48)) Hq).
      unfold digits_value in *. cbn. replace (length ds) with (length pow) in * by (simpl in Hlen; lia).
      assert (0 < 10 ^ Z.of_nat (length pow)) by (apply Z.pow_pos_nonneg; lia).
      destruct (Z.lt_gt_cases d q) as [Hc _]. destruct (Hc Hne); split; nia.
Qed.

Lemma compare2pow63_spec ds rest :
  view z incr p zEnd (ds ++ rest) -> digits ds -> length ds = 19%nat ->
  exists c, compare2pow63 z p incr = Some c /\
    (c < 0 <-> digits_value 0 ds < 2 ^ 63) /\ (c = 0 <-> digits_value 0 ds = 2 ^ 63).
Proof.
  intros Hv Hd Hl. destruct (exists_last (l := ds)) as (hd & d & ->); [by destruct ds|].
  rewrite length_app in Hl. simpl in Hl. apply Forall_app in Hd as [Hh [Hdx%isdig_spec _]%Forall_cons].
  assert (length hd = 18%nat) as Hl18 by lia. rewrite <- app_assoc in Hv.
  destruct (compare_loop_spec pow63 hd ([d] ++ rest) 0 0) as (c & He & Hlt & Heq);
    [by rewrite Z.mul_0_l, Z.add_0_r|done|by repeat constructor|done|].
  unfold compare2pow63. rewrite He. cbn [mbind option_bind].
  assert (aget z (p + 18 * incr) = Some d) as Hg.
  { apply view_app in Hv. rewrite Hl18 in Hv. apply view_cons in Hv as (_ & Hg & _).
    rewrite <- Hg. f_equal. lia. }
  rewrite digits_value_app. change (digits_value 0 pow63) with 922337203685477580 in *.
  change (2 ^ 63) with 9223372036854775808. change (digits_value ?v [d]) with (10 * v + (d - 48)).
  destruct (Z.eqb_spec c 0) as [Hc|Hc].
  - rewrite Hg. cbn. rewrite schar_digit by done. exists (d - 56). split; [done|].
    destruct Heq as [Heq _]. rewrite (Heq Hc). lia.
  - exists c. split; [done|]. lia.
Qed.
End Loops.

(** ** sqlite3Atoi64 computes the documented result *)

Definition split_sign (s : list Z) : bool * list Z :=
  match s with
  | 45 :: s' => (true, s')
  | 43 :: s' => (false, s')
  | _ => (false, s)
  end.

Lemma split_sign_cons x s :
  split_sign (x :: s) = if x =? 45 then (true, s) else if x =? 43 then (false, s) else (false, x :: s).
Proof.
  destruct (Z.eqb_spec x 45) as [->|H1]; [done|]. destruct (Z.eqb_spec x 43) as [->|H2]; [done|].
  unfold split_sign. destruct x as [|x|x]; try done.
  do 6 (destruct x as [x|x|]; try done).
Qed.

Section Scan.
Context (z : list Z) (incr zEnd : Z).

Lemma sign_step p s :
  view z incr p zEnd s -> Forall is_byte s ->
  exists p', (if p <? zEnd then
     x ← aget z p;
     Some (if schar x =? 45 then (true, p + incr)
           else if schar x =? 43 then (false, p + incr) else (false, p))
   else Some (false, p)) = Some (fst (split_sign s), p') /\
  view z incr p' zEnd (snd (split_sign s)) /\ Forall is_byte (snd (split_sign s)) /\ p <= p'.
Proof.
  intros Hv Hb. destruct s as [|x s].
  - rewrite (proj2 (Z.ltb_ge _ _)) by (by eapply view_nil). exists p. done.
  - pose proof Hv as Hv0. pose proof (view_incr _ _ _ _ _ Hv).
    apply view_cons in Hv as (Hlt & Hg & Hv). rewrite (proj2 (Z.ltb_lt _ _)), Hg by done. cbn [mbind option_bind].
    pose proof Hb as Hb0. apply Forall_cons in Hb as [Hx Hb].
    rewrite split_sign_cons, !schar_eqb by (done || lia).
    destruct (x =? 45); [eexists; split_and!; [done..|lia]|].
    destruct (x =? 43); eexists; split_and!; solve [done|lia].
Qed.

Lemma isdig_zeros zs : Forall (fun x => (x =? 48) = true) zs -> digits zs /\ Forall (fun x => x = 48) zs.
Proof. intros H. split; (eapply Forall_impl; [exact H|]); simpl; intros x ->%Z.eqb_eq; done. Qed.

(** The value of digits without a leading zero, by their number. *)
Lemma digits_value_length ds :
  digits ds -> stops (fun x => x =? 48) ds ->
  let n := length ds in
  ((n < 19)%nat -> digits_value 0 ds < 10 ^ 18) /\
  (n = 19%nat -> digits_value 0 ds < 10 ^ 19) /\ ((19 < n)%nat -> 10 ^ 19 <= digits_value 0 ds) /\
  0 <= digits_value 0 ds.
Proof.
  intros Hd Hs n. pose proof (digits_value_bounds ds 0 Hd) as Hb. fold n in Hb.
  assert (0 < 10 ^ Z.of_nat n) by (apply Z.pow_pos_nonneg; lia).
  split_and!; [| | |lia].
  - intros. assert (10 ^ Z.of_nat n <= 10 ^ 18) by (apply Z.pow_le_mono_r; lia). lia.
  - intros E. rewrite E in Hb. change (Z.of_nat 19) with 19 in Hb. lia.
  - intros Hn. destruct ds as [|d ds]; [simpl in n; lia|]. simpl in Hs. apply Z.eqb_neq in Hs.
    apply Forall_cons in Hd as [Hdx%isdig_spec Hd].
    pose proof (digits_value_bounds ds (d - 48) Hd) as Hb2.
    assert (10 ^ 19 <= 10 ^ Z.of_nat (length ds)) by (apply Z.pow_le_mono_r; subst n; simpl in Hn; lia).
    change (digits_value 0 (d :: ds)) with (digits_value (d - 48) ds). nia.
Qed.

(** The result code, once the digits [ds] without leading zeros are known. *)
Lemma atoi64_result p zs ds rest (neg nonNum : bool) c zStart pNum :
  let i := incr * Z.of_nat (length ds) in
  let u := u64 (digits_value 0 ds) in
  view z incr p zEnd (ds ++ rest) -> digits ds -> stops (fun x => x =? 48) ds ->
  (zStart =? p) = bool_decide (zs = []) ->
  negb (c =? 0) && (p + i <? zEnd) = match rest with [] => false | x :: _ => negb (x =? 0) end ->
  (if (negb (c =? 0) && (p + i <? zEnd)) || ((i =? 0) && (zStart =? p)) || (19 * incr <? i) || nonNum
   then Some (1, pNum)
   else if i <? 19 * incr then
     _ ← assert_ (u <=? LARGEST_INT64);
     Some (0, pNum)
   else
     c ← compare2pow63 z p incr;
     if c <? 0 then
       _ ← assert_ (u <=? LARGEST_INT64);
       Some (0, pNum)
     else if 0 <? c then Some (1, pNum)
     else
       _ ← assert_ (u64 (u - 1) =? LARGEST_INT64);
       Some (if neg then 0 else 2, pNum)) =
  Some (if negb (negb (bool_decide (zs ++ ds = [])) && negb nonNum &&
                 match rest with [] => true | c :: _ => c =? 0 end) then 1
        else if digits_value 0 ds <? 2 ^ 63 then 0
        else if digits_value 0 ds =? 2 ^ 63 then if neg then 0 else 2
        else 1, pNum : Z).
Proof.
  intros i u Hv Hd Hs HzS ->. rewrite HzS.
  pose proof (view_incr _ _ _ _ _ Hv) as Hi. destruct (digits_value_length ds Hd Hs) as (L1 & L2 & L3 & L0).
  set (v := digits_value 0 ds) in *. subst i.
  assert ((incr * Z.of_nat (length ds) =? 0) && bool_decide (zs = []) = bool_decide (zs ++ ds = [])) as ->.
  { apply bool_iff. rewrite andb_true_iff, !bool_decide_eq_true, Z.eqb_eq.
    rewrite app_nil. destruct ds as [|d ds]; simpl; [|split; [intros [? _]; nia|by intros [_ ?]]].
    rewrite Z.mul_0_r. tauto. }
  destruct rest as [|x rest]; [|destruct (x =? 0)]; simpl;
    try (destruct (bool_decide (zs ++ ds = [])), nonNum; reflexivity);
    rewrite ?andb_true_r, ?andb_false_r; destruct (bool_decide (zs ++ ds = [])); try reflexivity;
    (destruct nonNum; [rewrite orb_true_r; done|]); cbn [negb andb orb]; rewrite orb_false_r.
  1,2: destruct (Z.ltb_spec (19 * incr) (incr * Z.of_nat (length ds))) as [Hn|Hn];
    [rewrite (proj2 (Z.ltb_ge v _)), (proj2 (Z.eqb_neq v _)) by (simpl Z.pow; nia); done|].
  1,2: destruct (Z.ltb_spec (incr * Z.of_nat (length ds)) (19 * incr)) as [Hm|Hm];
    [subst u; unfold u64; rewrite Z.mod_small, (proj2 (Z.leb_le _ _)), (proj2 (Z.ltb_lt v _))
       by (unfold LARGEST_INT64; simpl Z.pow; nia); done|].
  1,2: assert (length ds = 19%nat) as Hl by nia;
    destruct (compare2pow63_spec z incr p zEnd ds _ Hv Hd Hl) as (c' & -> & Hlt & Heq); cbn [mbind option_bind];
    subst u; fold v in Hlt, Heq; unfold u64; rewrite (Z.mod_small v) by lia;
    destruct (Z.ltb_spec c' 0);
    [rewrite (proj2 (Z.leb_le _ _)), (proj2 (Z.ltb_lt v _)) by (unfold LARGEST_INT64; lia); done|];
    rewrite (proj2 (Z.ltb_ge v _)) by lia;
    destruct (Z.ltb_spec 0 c'); [rewrite (proj2 (Z.eqb_neq v _)) by lia; done|];
    rewrite (proj2 (Z.eqb_eq v _)) by lia; rewrite Z.mod_small, (proj2 (Z.eqb_eq _ _))
      by (unfold LARGEST_INT64; lia); done.
Qed.

Lemma atoi64_scan_spec p nonNum s :
  view z incr p zEnd s -> Forall is_byte s ->
  atoi64_scan z incr p zEnd nonNum = Some (atoi64_spec nonNum s).
Proof.
  intros Hv Hb. unfold atoi64_scan, atoi64_spec, split_number.
  pose proof (view_length _ _ _ _ _ Hv) as Hlen. pose proof (view_incr _ _ _ _ _ Hv) as Hi.
  destruct (span sqlite3Isspace s) as [ws s1] eqn:E1. apply span_spec in E1 as (-> & Hws & Hst1).
  rewrite length_app in Hlen.
  rewrite (skip_while_spec z incr zEnd _ ws s1) by (done || lia). cbn [mbind option_bind].
  apply Forall_app in Hb as [_ Hb]. apply view_app in Hv.
  destruct (sign_step _ s1 Hv Hb) as (p2 & -> & Hv2 & Hb2 & Hp2). cbn [mbind option_bind].
  change (match s1 with 45 :: s' => (true, s') | 43 :: s' => (false, s') | _ => (false, s1) end) with (split_sign s1).
  assert (length (snd (split_sign s1)) <= length s1)%nat as Hl2.
  { destruct s1 as [|x s1]; [done|]. rewrite split_sign_cons. destruct (x =? 45), (x =? 43); simpl; lia. }
  destruct (split_sign s1) as [neg s2]. cbn [fst snd] in *.
  destruct (span (fun x => x =? 48) s2) as [zs s3] eqn:E3. apply span_spec in E3 as (-> & Hzs & Hst3).
  rewrite length_app in Hl2.
  apply Forall_app in Hb2 as Hb3. destruct Hb3 as [Hbz Hb3].
  assert (Forall (fun x => (schar x =? 48) = true) zs) as Hzs'.
  { eapply Forall_impl; [exact Hzs|]. simpl. intros x ->%Z.eqb_eq. done. }
  rewrite (skip_while_spec z incr zEnd _ zs s3); [|done|done| |lia].
  2:{ destruct s3; [done|]. simpl in *. apply Forall_cons in Hb3 as [? _]. rewrite schar_eqb; (done || lia). }
  cbn [mbind option_bind]. apply view_app in Hv2.
  destruct (span isdig s3) as [ds rest] eqn:E4. apply span_spec in E4 as (-> & Hds & Hst4).
  rewrite length_app in Hl2.
  destruct (isdig_zeros zs Hzs) as [Hzd Hz48].
  rewrite app_assoc, span_app by (done || by apply Forall_app). rewrite digits_value_zeros by done.
  destruct (digit_loop_spec z incr (p2 + incr * Z.of_nat (length zs)) zEnd ds rest
    (S (Z.to_nat (zEnd - p))) 0 0 0) as (c & He & Hc); [by rewrite Z.add_0_r|done|done|done|lia|done|].
  rewrite He. cbn [mbind option_bind]. rewrite Z.add_0_l in *.
  apply (atoi64_result _ zs ds rest); try done.
  - destruct ds; done.
  - apply bool_iff. rewrite bool_decide_eq_true, Z.eqb_eq. destruct zs; simpl; [split; [done|lia]|split; [nia|done]].
Qed.
End Scan.

(** ** UTF-16 text *)

Definition utf16 (enc : Z) (s : list Z) : list Z :=
  s ≫= fun c => if enc =? SQLITE_UTF16LE then [c; 0] else [0; c].

Lemma utf16_cons enc c s : utf16 enc (c :: s) = (if enc =? SQLITE_UTF16LE then [c; 0] else [0; c]) ++ utf16 enc s.
Proof. done. Qed.

Lemma utf16_length enc s : length (utf16 enc s) = (2 * length s)%nat.
Proof.
  induction s as [|c s IH]; [done|]. rewrite utf16_cons, length_app, IH. destruct (enc =? SQLITE_UTF16LE); simpl; lia.
Qed.

(** Character [k], in a text of which [pre] comes first. *)
Lemma utf16_get enc pre s rest (k : nat) x :
  enc = SQLITE_UTF16LE \/ enc = SQLITE_UTF16BE -> s !! k = Some x ->
  let z := pre ++ utf16 enc s ++ rest in
  aget z (Z.of_nat (length pre) + Z.land enc 1 + 2 * Z.of_nat k) = Some x /\
  aget z (Z.of_nat (length pre) + (3 - enc) + 2 * Z.of_nat k) = Some 0.
Proof.
  intros He. revert pre s. induction k as [|k IH]; intros pre [|c s] Hk z; try done; subst z; rewrite utf16_cons.
  - injection Hk as ->. rewrite !Z.mul_0_r, !Z.add_0_r. rewrite <- app_assoc.
    destruct He as [-> | ->]; rewrite !aget_app_r by (vm_compute; discriminate); done.
  - rewrite <- app_assoc, (app_assoc pre).
    destruct (IH (pre ++ if enc =? SQLITE_UTF16LE then [c; 0] else [0; c]) s Hk) as [H1 H2].
    rewrite length_app in H1, H2.
    replace (length (if enc =? SQLITE_UTF16LE then [c; 0] else [0; c])) with 2%nat in H1, H2
      by (by destruct (enc =? SQLITE_UTF16LE)).
    split; [rewrite <- H1|rewrite <- H2]; f_equal; lia.
Qed.

(** What follows the ASCII part: nothing, or a character with a high byte. *)
Definition ends_high (enc : Z) (rest : list Z) : Prop :=
  rest = [] \/ exists h, aget rest (3 - enc) = Some h /\ h <> 0.

Lemma high_bytes_spec enc s rest :
  enc = SQLITE_UTF16LE \/ enc = SQLITE_UTF16BE -> ends_high enc rest ->
  let z := utf16 enc s ++ rest in
  high_bytes z enc (Z.of_nat (length z)) = Some (2 * Z.of_nat (length s) + 3 - enc).
Proof.
  intros He Hr z. assert (0 <= 3 - enc <= 1) as H3 by (unfold SQLITE_UTF16LE, SQLITE_UTF16BE in He; lia).
  assert (length z = 2 * length s + length rest)%nat as Hz by (subst z; rewrite length_app, utf16_length; lia).
  assert (aget z (2 * Z.of_nat (length s) + (3 - enc)) = aget rest (3 - enc)) as Hg.
  { subst z. replace (2 * Z.of_nat (length s)) with (Z.of_nat (length (utf16 enc s))) by (rewrite utf16_length; lia).
    apply aget_app_r. lia. }
  assert (forall n k : nat, (k + n = length s)%nat -> forall fuel, (n < fuel)%nat ->
    skip_while (fun x => x =? 0) fuel z 2 (3 - enc + 2 * Z.of_nat k) (Z.of_nat (length z)) =
    Some (2 * Z.of_nat (length s) + 3 - enc)) as Hloop.
  { induction n as [|n IH]; intros k Hk fuel Hf; (destruct fuel as [|f]; [lia|]); cbn [skip_while].
    - replace (3 - enc + 2 * Z.of_nat k) with (2 * Z.of_nat (length s) + (3 - enc)) by lia.
      rewrite Hg. destruct Hr as [-> |(h & Hh & Hh0)].
      + rewrite (proj2 (Z.ltb_ge _ _)) by (simpl in Hz; lia). f_equal; lia.
      + rewrite Hh. apply aget_Some_range in Hh. rewrite (proj2 (Z.ltb_lt _ _)) by lia. cbn.
        rewrite (proj2 (Z.eqb_neq _ _)) by done. f_equal. lia.
    - destruct (lookup_lt_is_Some_2 s k) as [x Hx]; [lia|].
      destruct (utf16_get enc [] s rest k x He Hx) as [_ Hh]. cbn [app length Z.of_nat] in Hh.
      rewrite Z.add_0_l in Hh. fold z in Hh.
      rewrite (proj2 (Z.ltb_lt _ _)), Hh by lia. cbn.
      rewrite <- (IH (S k) ltac:(lia) f ltac:(lia)). f_equal. lia. }
  unfold high_bytes. rewrite <- (Hloop (length s) 0%nat eq_refl (S (Z.to_nat (Z.of_nat (length z))))) by lia.
  f_equal. lia.
Qed.

Lemma atoi64_utf16 enc s rest :
  enc = SQLITE_UTF16LE \/ enc = SQLITE_UTF16BE -> Forall is_byte s -> ends_high enc rest ->
  sqlite3Atoi64 (utf16 enc s ++ rest) (Z.of_nat (length (utf16 enc s ++ rest))) enc =
  Some (atoi64_spec (negb (bool_decide (rest = []))) s).
Proof.
  intros He Hs Hr. unfold sqlite3Atoi64. rewrite high_bytes_spec by done.
  assert (assert_ ((enc =? SQLITE_UTF8) || (enc =? SQLITE_UTF16LE) || (enc =? SQLITE_UTF16BE)) = Some tt) as ->
    by (by destruct He as [-> | ->]).
  assert ((enc =? SQLITE_UTF8) = false) as -> by (by destruct He as [-> | ->]). cbn [mbind option_bind].
  assert (0 <= 3 - enc <= 1) by (unfold SQLITE_UTF16LE, SQLITE_UTF16BE in He; lia).
  assert (0 <= Z.land enc 1 <= 1) by (destruct He as [-> | ->]; vm_compute; split; discriminate).
  assert ((2 * Z.of_nat (length s) + 3 - enc <? Z.of_nat (length (utf16 enc s ++ rest))) =
          negb (bool_decide (rest = []))) as ->.
  { rewrite length_app, utf16_length. destruct Hr as [-> |(h & Hh & _)].
    - simpl. apply Z.ltb_ge. lia.
    - apply aget_Some_range in Hh. rewrite bool_decide_eq_false_2 by (intros ->; simpl in Hh; lia).
      simpl. apply Z.ltb_lt. lia. }
  apply atoi64_scan_spec; [|done]. split; [| |lia].
  - intros k x Hk. by destruct (utf16_get enc [] s rest k x He Hk) as [Hg _].
  - intros k. lia.
Qed.

(** ** 32-bit integers *)

Lemma getInt32_zeros_spec zs : forall pre y rest fuel,
  Forall (fun x => x = 48) zs -> is_byte y -> y <> 48 -> (length zs < fuel)%nat ->
  getInt32_zeros fuel (pre ++ zs ++ y :: rest) (Z.of_nat (length pre)) =
  Some (Z.of_nat (length (pre ++ zs))).
Proof.
  induction zs as [|x zs IH]; intros pre y rest fuel Hz Hy Hy48 Hf;
    (destruct fuel as [|f]; [simpl in Hf; lia|]); cbn [getInt32_zeros app].
  - rewrite aget_middle. cbn [mbind option_bind].
    rewrite schar_eqb, (proj2 (Z.eqb_neq _ _)) by (done || lia). by rewrite app_nil_r.
  - apply Forall_cons in Hz as [-> Hz].
    rewrite aget_middle. change (schar 48 =? 48) with true. cbn [mbind option_bind].
    rewrite (cons_middle 48 pre), app_assoc.
    replace (Z.of_nat (length pre) + 1) with (Z.of_nat (length (pre ++ [48]))) by (rewrite length_app; simpl; lia).
    rewrite IH by (try done; simpl in Hf; lia). do 2 f_equal. rewrite !length_app. simpl. lia.
Qed.

Lemma getInt32_loop_spec ds : forall pre y rest i v fuel,
  digits ds -> is_byte y -> isdig y = false -> 0 <= i <= 11 -> 0 <= v < 10 ^ i ->
  (12 - i <= Z.of_nat fuel) -> let n := Z.of_nat (length ds) in
  exists i', getInt32_loop fuel (pre ++ ds ++ y :: rest) (Z.of_nat (length pre) - i) i v =
    Some (i', if i + n <=? 11 then digits_value v ds else digits_value v (take (Z.to_nat (11 - i)) ds)) /\
  i' = Z.min 11 (i + n).
Proof.
  induction ds as [|d ds IH]; intros pre y rest i v fuel Hd Hy Hyd Hi Hv Hf n; subst n;
    (destruct fuel as [|f]; [lia|]); cbn [getInt32_loop app].
  - destruct (Z.ltb_spec i 11).
    + rewrite Z.sub_add, aget_middle. cbn [mbind option_bind]. rewrite cint_ok by (unfold ubits, schar, int_min, int_max in *; destruct (y <? 128); lia).
      cbn [mbind option_bind]. assert ((0 <=? schar y - 48) && (schar y - 48 <=? 9) = false) as ->.
      { rewrite <- Hyd, <- isdig_schar by done. apply bool_iff. rewrite isdig_spec, andb_true_iff, !Z.leb_le. lia. }
      rewrite (proj2 (Z.leb_le _ _)) by (simpl; lia). exists i. split; [done|simpl; lia].
    + rewrite (proj2 (Z.leb_le _ _)) by (simpl; lia). exists i. split; [done|simpl; lia].
  - apply Forall_cons in Hd as [Hdx%isdig_spec Hd]. destruct (Z.ltb_spec i 11).
    + rewrite Z.sub_add, aget_middle. cbn [mbind option_bind].
      rewrite schar_digit by lia. rewrite cint_ok by (unfold int_min, int_max; lia). cbn [mbind option_bind].
      rewrite (proj2 (Z.leb_le 0 _)), (proj2 (Z.leb_le _ 9)) by lia. cbn [andb].
      assert (10 ^ i <= 10 ^ 10) by (apply Z.pow_le_mono_r; lia).
      rewrite cint64_ok by (unfold i64, SMALLEST_INT64, LARGEST_INT64; lia). cbn [mbind option_bind].
      rewrite (cons_middle d pre), app_assoc.
      destruct (IH (pre ++ [d]) y rest (i + 1) (v * 10 + (d - 48)) f Hd Hy Hyd) as (i' & He & Hi');
        [lia|rewrite Z.pow_add_r by lia; lia|lia|].
      replace (Z.of_nat (length pre) - i) with (Z.of_nat (length (pre ++ [d])) - (i + 1)) by (rewrite length_app; simpl; lia).
      exists i'. rewrite He. split; [|simpl; lia]. rewrite (Z.mul_comm v).
      replace (i + 1 + Z.of_nat (length ds)) with (i + Z.of_nat (length (d :: ds))) by (simpl; lia).
      replace (Z.to_nat (11 - i)) with (S (Z.to_nat (11 - (i + 1)))) by lia. by destruct (_ <=? 11).
    + exists i. assert (i = 11) as -> by lia. rewrite (proj2 (Z.leb_gt _ _)) by (simpl; lia).
      split; [done|simpl; lia].
Qed.

Lemma getInt32_digits pre ds y rest (neg pv : Z) fuel :
  digits ds -> is_byte y -> isdig y = false -> neg = 0 \/ neg = 1 -> (length ds < fuel)%nat ->
  (p ← getInt32_zeros fuel (pre ++ ds ++ y :: rest) (Z.of_nat (length pre));
   '(i, v) ← getInt32_loop 12 (pre ++ ds ++ y :: rest) p 0 0;
   if 10 <? i then Some (0, pv)
   else if 2147483647 <? v - neg then Some (0, pv)
   else Some (1, if negb (neg =? 0) then - v else v)) =
  Some (let v := if neg =? 1 then - digits_value 0 ds else digits_value 0 ds in
        if (int_min <=? v) && (v <=? int_max) then (1, v) else (0, pv)).
Proof.
  intros Hd Hy Hyd Hneg Hf. destruct (span (fun x => x =? 48) ds) as [zs ds'] eqn:E.
  apply span_spec in E as (-> & Hzs & Hst). destruct (isdig_zeros zs Hzs) as [_ Hz].
  apply Forall_app in Hd as [_ Hd]. rewrite length_app in Hf.
  assert (exists w rest', ds' ++ y :: rest = w :: rest' /\ is_byte w /\ w <> 48) as (w & rest' & Ew & Hw & Hw48).
  { destruct ds' as [|d ds']; [exists y, rest|exists d, (ds' ++ y :: rest)]; (split; [done|]).
    - split; [done|]. intros ->. done.
    - apply Forall_cons in Hd as [?%isdig_spec _]. simpl in Hst. apply Z.eqb_neq in Hst. unfold ubits. lia. }
  rewrite <- app_assoc. rewrite Ew, getInt32_zeros_spec by (done || lia). rewrite <- Ew. cbn [mbind option_bind].
  rewrite digits_value_zeros, app_assoc by done.
  destruct (getInt32_loop_spec ds' (pre ++ zs) y rest 0 0 12 Hd Hy Hyd) as (i & He & Hi); [simpl; lia..|].
  rewrite Z.sub_0_r in He. rewrite He. cbn [mbind option_bind]. rewrite Z.add_0_l in *.
  destruct (digits_value_bounds ds' 0 Hd) as [_ Hub].
  assert ((10 < length ds')%nat -> 10 ^ 10 <= digits_value 0 ds') as Hlong.
  { intros Hn. destruct ds' as [|d ds']; [simpl in Hn; lia|]. simpl in Hst. apply Z.eqb_neq in Hst.
    apply Forall_cons in Hd as [Hdx%isdig_spec Hd]. pose proof (digits_value_bounds ds' (d - 48) Hd) as Hb2.
    assert (10 ^ 10 <= 10 ^ Z.of_nat (length ds')) by (apply Z.pow_le_mono_r; simpl in Hn; lia).
    change (digits_value 0 (d :: ds')) with (digits_value (d - 48) ds'). nia. }
  assert (0 <= digits_value 0 ds') by (pose proof (digits_value_bounds ds' 0 Hd); lia).
  unfold int_min, int_max.
  destruct (Z.ltb_spec 10 i) as [H10|H10].
  - assert (10 ^ 10 <= digits_value 0 ds') by (apply Hlong; lia). cbv zeta.
    destruct Hneg as [-> | ->]; cbn [Z.eqb Pos.eqb];
      [rewrite (proj2 (Z.leb_gt _ (2 ^ 31 - 1))), andb_false_r|rewrite (proj2 (Z.leb_gt (- 2 ^ 31) _))]; (done || lia).
  - rewrite (proj2 (Z.leb_le _ 11)) by lia. cbv zeta. set (v := digits_value 0 ds') in *.
    destruct Hneg as [-> | ->]; cbn [Z.eqb Pos.eqb negb].
    + rewrite Z.sub_0_r. rewrite (proj2 (Z.leb_le (- 2 ^ 31) v)) by lia.
      destruct (Z.ltb_spec 2147483647 v), (Z.leb_spec v (2 ^ 31 - 1)); (done || lia).
    + rewrite (proj2 (Z.leb_le (- v) (2 ^ 31 - 1))), andb_true_r by lia.
      destruct (Z.ltb_spec 2147483647 (v - 1)), (Z.leb_spec (- 2 ^ 31) (- v)); (done || lia).
Qed.

(** ** Hexadecimal text *)

Definition hex_digit (upper : bool) (d : Z) : Z := if d <? 10 then 48 + d else if upper then 55 + d else 87 + d.

Definition to_hex (f : Z -> bool) (bs : list Z) : list Z :=
  bs ≫= fun b => [hex_digit (f b) (Z.shiftr b 4); hex_digit (f b) (Z.land b 15)].

Lemma hexToInt_digit upper d : 0 <= d < 16 -> sqlite3HexToInt (schar (hex_digit upper d)) = Some d.
Proof.
  intros Hd. apply (seqZ_forallb (fun d => bool_decide (sqlite3HexToInt (schar (hex_digit upper d)) = Some d)) 16 d) in Hd.
  - by apply bool_decide_eq_true in Hd.
  - destruct upper; vm_compute; reflexivity.
Qed.

Lemma hex_byte b : is_byte b ->
  0 <= Z.shiftr b 4 < 16 /\ 0 <= Z.land b 15 < 16 /\ Z.lor (Z.shiftl (Z.shiftr b 4) 4) (Z.land b 15) = b.
Proof.
  unfold ubits. intros Hb. change 15 with (Z.ones 4). rewrite Z.land_ones, Z.shiftr_div_pow2 by lia.
  pose proof (Z.mod_pos_bound b (2 ^ 4) ltac:(lia)). pose proof (Z.div_mod b (2 ^ 4) ltac:(lia)).
  split_and!; try lia. rewrite lor_shift by lia. lia.
Qed.

Lemma hexToBlob_loop_spec f bs : forall done fresh tail zpre fuel,
  Forall is_byte bs -> length zpre = (2 * length done)%nat -> (length bs < length fresh)%nat ->
  (length bs < fuel)%nat ->
  hexToBlob_loop fuel (zpre ++ to_hex f bs ++ tail) (done ++ fresh) (Z.of_nat (length zpre))
    (Z.of_nat (length (zpre ++ to_hex f bs))) =
  Some (done ++ bs ++ drop (length bs) fresh, Z.of_nat (length (zpre ++ to_hex f bs))).
Proof.
  induction bs as [|b bs IH]; intros dn fresh tail zpre fuel Hb Hz Hl Hf;
    (destruct fuel as [|fu]; [simpl in Hf; lia|]); cbn [hexToBlob_loop].
  - rewrite app_nil_r. rewrite (proj2 (Z.ltb_ge _ _)) by lia. done.
  - apply Forall_cons in Hb as [Hx Hb].
    destruct (hex_byte b Hx) as (H1 & H2 & H3).
    change (to_hex f (b :: bs)) with
      ([hex_digit (f b) (Z.shiftr b 4); hex_digit (f b) (Z.land b 15)] ++ to_hex f bs).
    set (h := hex_digit (f b) (Z.shiftr b 4)). set (l := hex_digit (f b) (Z.land b 15)).
    rewrite (proj2 (Z.ltb_lt _ _)) by (rewrite !length_app; simpl; lia).
    rewrite <- app_assoc. cbn [app]. rewrite aget_middle. cbn [mbind option_bind].
    subst h. rewrite hexToInt_digit by done. cbn [mbind option_bind].
    rewrite aget_app_r by lia. cbn [aget]. change (aget (?x :: l :: ?r) 1) with (Some l). cbn [mbind option_bind].
    subst l. rewrite hexToInt_digit by done. cbn [mbind option_bind]. rewrite H3.
    destruct fresh as [|x fresh]; [simpl in Hl; lia|].
    replace (Z.of_nat (length zpre) / 2) with (Z.of_nat (length dn))
      by (rewrite Hz, Nat2Z.inj_mul, Z.mul_comm, Z.div_mul; lia).
    rewrite aset_middle. cbn [mbind option_bind].
    set (h := hex_digit (f b) (Z.shiftr b 4)). set (l := hex_digit (f b) (Z.land b 15)).
    replace (zpre ++ h :: l :: to_hex f bs ++ tail) with ((zpre ++ [h; l]) ++ to_hex f bs ++ tail) by (by rewrite <- app_assoc).
    replace (zpre ++ h :: l :: to_hex f bs) with ((zpre ++ [h; l]) ++ to_hex f bs) by (by rewrite <- app_assoc).
    replace (dn ++ b :: fresh) with ((dn ++ [b]) ++ fresh) by (by rewrite <- app_assoc).
    replace (Z.of_nat (length zpre) + 2) with (Z.of_nat (length (zpre ++ [h; l]))) by (rewrite length_app; simpl; lia).
    rewrite IH; [by rewrite <- app_assoc|done|rewrite !length_app; simpl; lia|simpl in Hl; lia|simpl in Hf; lia].
Qed.

(** ** Quoted names *)

Definition escape (q : Z) (s : list Z) : list Z := s ≫= fun c => if c =? q then [q; q] else [c].

(** Between the part already written, [dn], and the part still to be read
    lie the bytes [mid] that may be overwritten. *)
Lemma dequote_loop_spec q s : forall dn mid x rest fuel,
  cstr s -> q <> 0 -> x <> q -> mid <> [] -> (length s < fuel)%nat ->
  exists tail, tail <> [] /\
    dequote_loop fuel (dn ++ mid ++ escape q s ++ q :: x :: rest) q
      (Z.of_nat (length (dn ++ mid))) (Z.of_nat (length dn)) =
    Some (dn ++ s ++ tail, Z.of_nat (length (dn ++ s))).
Proof.
  induction s as [|c s IH]; intros dn mid x rest fuel Hs Hq Hx Hm Hf;
    (destruct fuel as [|f]; [simpl in Hf; lia|]); cbn [dequote_loop].
  - cbn [escape mbind list_bind app]. rewrite app_assoc, aget_middle. cbn [mbind option_bind].
    rewrite (proj2 (Z.eqb_neq q 0)) by done. cbn [negb assert_ mbind option_bind]. rewrite Z.eqb_refl.
    rewrite aget_app_r by lia. change (aget (q :: x :: rest) 1) with (Some x). cbn [mbind option_bind].
    rewrite (proj2 (Z.eqb_neq x q)) by done. exists (mid ++ q :: x :: rest).
    rewrite <- app_assoc, app_nil_r. split; [by destruct mid|done].
  - apply cstr_cons in Hs as [[_ Hc0] Hs]. destruct mid as [|w mid]; [done|].
    change (escape q (c :: s)) with ((if c =? q then [q; q] else [c]) ++ escape q s).
    destruct (Z.eqb_spec c q) as [-> |Hne].
    + rewrite <- (app_assoc [q; q]), (app_assoc dn). change ([q; q] ++ ?r) with (q :: q :: r).
      rewrite aget_middle. cbn [mbind option_bind].
      rewrite (proj2 (Z.eqb_neq q 0)) by done. cbn [negb assert_ mbind option_bind]. rewrite Z.eqb_refl.
      rewrite aget_app_r by lia. change (aget (q :: q :: ?r) 1) with (Some q). cbn [mbind option_bind].
      rewrite Z.eqb_refl, <- (app_assoc dn). change ((w :: mid) ++ ?r) with (w :: mid ++ r).
      rewrite aset_middle. cbn [mbind option_bind].
      destruct (IH (dn ++ [q]) (mid ++ [q; q]) x rest f) as (tail & Ht & He); [done..|by destruct mid|simpl in Hf; lia|].
      exists tail. split; [done|]. rewrite <- !app_assoc in He. cbn [app] in He.
      replace (Z.of_nat (length (dn ++ w :: mid)) + 2) with (Z.of_nat (length (dn ++ q :: mid ++ [q; q])))
        by (rewrite !length_app; simpl; rewrite !length_app; simpl; lia).
      replace (Z.of_nat (length dn) + 1) with (Z.of_nat (length (dn ++ [q]))) by (rewrite length_app; simpl; lia).
      exact He.
    + rewrite <- (app_assoc [c]), (app_assoc dn). change ([c] ++ ?r) with (c :: r).
      rewrite aget_middle. cbn [mbind option_bind].
      rewrite (proj2 (Z.eqb_neq c 0)), (proj2 (Z.eqb_neq c q)) by done. cbn [negb assert_ mbind option_bind].
      rewrite <- (app_assoc dn). change ((w :: mid) ++ ?r) with (w :: mid ++ r).
      rewrite aset_middle. cbn [mbind option_bind].
      destruct (IH (dn ++ [c]) (mid ++ [c]) x rest f) as (tail & Ht & He); [done..|by destruct mid|simpl in Hf; lia|].
      exists tail. split; [done|]. rewrite <- !app_assoc in He. cbn [app] in He.
      replace (Z.of_nat (length (dn ++ w :: mid)) + 1) with (Z.of_nat (length (dn ++ c :: mid ++ [c])))
        by (rewrite !length_app; simpl; rewrite !length_app; simpl; lia).
      replace (Z.of_nat (length dn) + 1) with (Z.of_nat (length (dn ++ [c]))) by (rewrite length_app; simpl; lia).
      exact He.
Qed.

(** The opening and the closing character of a quoted name. *)
Definition quotes (o q : Z) : Prop := (o, q) ∈ [(39, 39); (34, 34); (96, 96); (91, 93)].

Lemma quotes_inv o q : quotes o q ->
  q <> 0 /\ (o =? 39) || (o =? 34) || (o =? 96) || (o =? 91) = true /\ (if o =? 91 then 93 else o) = q.
Proof.
  unfold quotes. rewrite !elem_of_cons. intros [H|[H|[H|[H|H%not_elem_of_nil]]]]; [..|done];
    injection H as -> ->; done.
Qed.

Lemma dequote_quoted o q s rest : cstr s -> quotes o q ->
  exists tail', sqlite3Dequote (Some (o :: escape q s ++ q :: 0 :: rest)) =
    Some (Z.of_nat (length s), Some (s ++ 0 :: tail')).
Proof.
  intros Hs Hq.
  apply quotes_inv in Hq as (Hq0 & Ho & Hoq).
  destruct (dequote_loop_spec q s [] [o] 0 rest (length (o :: escape q s ++ q :: 0 :: rest))) as (t & Ht & He);
    [done|done|done|done| |].
  { simpl. rewrite length_app. clear. induction s as [|c s IH]; simpl in *; [lia|].
    unfold escape in *. simpl. rewrite length_app. destruct (c =? q); simpl in *; lia. }
  destruct t as [|w t]; [done|]. exists t. unfold sqlite3Dequote.
  change (aget (o :: ?r) 0) with (Some o). cbn [mbind option_bind app] in *.
  change (Z.of_nat (length [o])) with 1 in He. change (Z.of_nat (length [])) with 0 in He.
  rewrite Ho, Hoq.
  rewrite He. cbn [mbind option_bind].
  by rewrite aset_middle.
Qed.

(** Where the result code is the one of the comment. *)
Lemma spec_documented s : let '(neg, ds, behind) := split_number s in
  fst (atoi64_spec false s) = atoi64_documented neg ds (match behind with 0 :: _ => [] | _ => behind end).
Proof.
  unfold atoi64_spec. destruct (split_number s) as [[neg ds] behind] eqn:E.
  assert (0 <= digits_value 0 ds) as Hv.
  { unfold split_number in E. destruct (span sqlite3Isspace s) as [ws s1].
    change (match s1 with 45 :: s' => (true, s') | 43 :: s' => (false, s') | _ => (false, s1) end) with (split_sign s1) in E.
    destruct (split_sign s1) as [b s2]. destruct (span isdig s2) as [ds' rest'] eqn:Es. apply span_spec in Es as (_ & Hds & _).
    assert (ds = ds') as -> by congruence. destruct (digits_value_bounds ds' 0 Hds) as [H0 _]. lia. }
  unfold atoi64_documented. cbn [fst negb andb]. set (v := digits_value 0 ds) in *.
  assert (bool_decide (match behind with 0 :: _ => [] | _ => behind end = []) = match behind with [] => true | c :: _ => c =? 0 end) as ->.
  { destruct behind as [|[|q|q] behind]; done. }
  change 9223372036854775808 with (2 ^ 63). unfold SMALLEST_INT64, LARGEST_INT64.
  destruct (bool_decide (ds = [])); [done|]. cbn [orb negb andb]. destruct (match behind with [] => _ | _ => _ end); [|done]. cbn [orb negb andb].
  destruct neg; repeat match goal with |- context [?a <? ?b] => destruct (Z.ltb_spec a b) | |- context [?a =? ?b] => destruct (Z.eqb_spec a b) | |- context [?a <=? ?b] => destruct (Z.leb_spec a b) end; cbn [andb]; lia.
Qed.

(** ** Properties *)

(** C29. sqlite3Atoi64 on any text in the three encodings: it returns 0 for an
    integer that fits in 64 bits, with that integer stored, 2 for exactly
    9223372036854775808, and 1 for a larger one, for text with no digits and for text
    with anything behind the digits, as its comment says - except that a NUL behind the digits
    ends the text, so that digits, a NUL and arbitrary bytes are an integer, where the comment
    asks for 1.  UTF-16 text behaves as the same characters in UTF-8, and is not an
    integer when some character has a high byte.  No byte outside the text is
    read. *)
Theorem atoi64_correct s tail enc rest :
  Forall is_byte s -> enc = SQLITE_UTF16LE \/ enc = SQLITE_UTF16BE -> ends_high enc rest ->
  sqlite3Atoi64 (s ++ tail) (Z.of_nat (length s)) SQLITE_UTF8 = Some (atoi64_spec false s) /\
  sqlite3Atoi64 (utf16 enc s ++ rest) (Z.of_nat (length (utf16 enc s ++ rest))) enc =
    Some (atoi64_spec (negb (bool_decide (rest = []))) s) /\
  (let '(rc, pNum) := atoi64_spec false s in
   let '(neg, ds, _) := split_number s in
   let v := if neg then - digits_value 0 ds else digits_value 0 ds in
   (rc = 0 -> i64 v /\ pNum = v) /\ (rc = 2 -> v = 2 ^ 63)) /\
  (let '(neg, ds, behind) := split_number s in
   fst (atoi64_spec false s) = atoi64_documented neg ds (match behind with 0 :: _ => [] | _ => behind end)).
Proof.
  intros Hs He Hr. split_and!; [|by apply atoi64_utf16| |by apply spec_documented].
  - apply (atoi64_scan_spec (s ++ tail) 1 (Z.of_nat (length s)) 0 false s); [|done].
    split; [| |lia].
    + intros k x Hk. rewrite Z.add_0_l, Z.mul_1_l. unfold aget. rewrite decide_True, Nat2Z.id by lia.
      by apply lookup_app_l_Some.
    + intros k. lia.
  - unfold atoi64_spec, split_number. destruct (span sqlite3Isspace s) as [ws s1].
    change (match s1 with 45 :: s' => (true, s') | 43 :: s' => (false, s') | _ => (false, s1) end) with (split_sign s1).
    destruct (split_sign s1) as [neg s2]. destruct (span isdig s2) as [ds rest'] eqn:E.
    apply span_spec in E as (_ & Hds & _).
    destruct (digits_value_bounds ds 0 Hds) as [H0 _]. rewrite Z.mul_0_l in H0.
    set (v := digits_value 0 ds) in *. destruct (negb _); [split; lia|].
    unfold i64, SMALLEST_INT64, LARGEST_INT64, u64.
    destruct (Z.ltb_spec v (2 ^ 63)) as [Hv|Hv].
    + rewrite Z.mod_small, (proj2 (Z.ltb_ge _ v)) by lia. destruct neg; lia.
    + destruct (Z.eqb_spec v (2 ^ 63)) as [-> |]; [|split; lia].
      destruct neg; split; try lia; intros; vm_compute; (split; [split; discriminate|reflexivity]).
Qed.

Lemma atoi64_correct_witness :
  sqlite3Atoi64 [32; 45; 57; 0] 3 SQLITE_UTF8 = Some (0, -9) /\
  sqlite3Atoi64 [32; 0; 45; 0; 57; 0; 5; 1] 8 SQLITE_UTF16LE = Some (1, -9).
Proof.
  destruct (atoi64_correct [32; 45; 57] [0] SQLITE_UTF16LE [5; 1]) as (H1 & H2 & _).
  - apply bytes_bool; reflexivity.
  - by left.
  - right. exists 1. done.
  - split; [exact H1|exact H2].
Defined.

(** sqlite3GetInt32 reads an optional sign and digits up to the first
    character that is not a digit, and stores the integer and returns 1 exactly
    when it fits in 32 bits; sqlite3Atoi gives the same integer, or 0. *)
Theorem getInt32_correct z pv :
  Forall is_byte z ->
  let '(neg, s) := split_sign z in
  let '(ds, rest) := span isdig s in
  rest <> [] ->
  let v := if neg then - digits_value 0 ds else digits_value 0 ds in
  let fits := (int_min <=? v) && (v <=? int_max) in
  sqlite3GetInt32 z pv = Some (if fits then (1, v) else (0, pv)) /\
  sqlite3Atoi (Some z) = Some (if fits then v else 0).
Proof.
  intros Hb. destruct (split_sign z) as [neg s] eqn:Esg. destruct (span isdig s) as [ds rest] eqn:E.
  intros Hr. cbv zeta. apply span_spec in E as (-> & Hds & Hst).
  destruct rest as [|y rest]; [done|]. simpl in Hst.
  assert (forall pv, sqlite3GetInt32 z pv = Some
    (let v := if neg then - digits_value 0 ds else digits_value 0 ds in
     if (int_min <=? v) && (v <=? int_max) then (1, v) else (0, pv))) as Hget.
  { intros pv'. destruct z as [|x z]; [by destruct ds|]. rewrite split_sign_cons in Esg.
    unfold sqlite3GetInt32. change (aget (x :: z) 0) with (Some x). cbn [mbind option_bind].
    apply Forall_cons in Hb as Hxz. destruct Hxz as [Hx Hz].
    rewrite !schar_eqb by (done || lia).
    assert (is_byte y) as Hy.
    { destruct (x =? 45); [|destruct (x =? 43)]; injection Esg as <- Esg; rewrite Esg in *;
        by apply Forall_app in Hz as [_ [? _]%Forall_cons] || by apply Forall_app in Hb as [_ [? _]%Forall_cons]. }
    destruct (x =? 45); [|destruct (x =? 43)]; injection Esg as <- Esg; subst.
    - apply (getInt32_digits [x] ds y rest 1 pv'); [done..|by right|simpl; rewrite length_app; lia].
    - apply (getInt32_digits [x] ds y rest 0 pv'); [done..|by left|simpl; rewrite length_app; lia].
    - rewrite Esg. apply (getInt32_digits [] ds y rest 0 pv'); [done..|by left|simpl; rewrite length_app; lia]. }
  split; [apply Hget|]. simpl. rewrite Hget. cbv zeta. simpl. by destruct (_ && _).
Qed.

Lemma getInt32_correct_witness :
  sqlite3GetInt32 [45; 50; 49; 52; 55; 52; 56; 51; 54; 52; 56; 0] 7 = Some (1, int_min).
Proof.
  refine (proj1 (getInt32_correct [45; 50; 49; 52; 55; 52; 56; 51; 54; 52; 56; 0] 7 _ _)).
  - apply bytes_bool; reflexivity.
  - discriminate.
Defined.

(** Blob literals and quoted names round trip.  sqlite3HexToBlob decodes
    the hexadecimal spelling of any bytes, in either case, and terminates it;
    sqlite3Dequote recovers, in place, any name from its quoted spelling, in
    which the closing quote is doubled, and leaves unquoted text alone. *)
Theorem literal_roundtrip f bs fresh tail o q s rest :
  Forall is_byte bs -> length fresh = S (length bs) ->
  cstr s -> quotes o q ->
  sqlite3HexToBlob (Some fresh) (to_hex f bs ++ tail) (Z.of_nat (length (to_hex f bs)) + 1) =
    Some (Some (bs ++ [0])) /\
  (exists tail', sqlite3Dequote (Some (o :: escape q s ++ q :: 0 :: rest)) =
    Some (Z.of_nat (length s), Some (s ++ 0 :: tail'))) /\
  (forall c z, ~ (exists q, quotes c q) -> sqlite3Dequote (Some (c :: z)) = Some (-1, Some (c :: z))).
Proof.
  intros Hb Hl Hs Hq. split_and!.
  - unfold sqlite3HexToBlob. rewrite Z.add_simpl_r.
    pose proof (hexToBlob_loop_spec f bs [] fresh tail [] (S (Z.to_nat (Z.of_nat (length (to_hex f bs))))) Hb eq_refl) as He.
    assert (length (to_hex f bs) = 2 * length bs)%nat as Hlh.
    { clear. induction bs as [|b bs IH]; [done|]. simpl in *. unfold to_hex in *. lia. }
    cbn [app length] in He. change (Z.of_nat 0) with 0 in He. rewrite He by lia. cbn [mbind option_bind].
    rewrite Hlh, Nat2Z.inj_mul, (Z.mul_comm 2), Z.div_mul by lia.
    destruct (drop (length bs) fresh) as [|w [|]] eqn:Ed;
      apply (f_equal length) in Ed; rewrite length_drop in Ed; simpl in Ed; try lia.
    by rewrite aset_middle.
  - by apply dequote_quoted.
  - intros c z Hc. unfold sqlite3Dequote. change (aget (c :: z) 0) with (Some c). cbn [mbind option_bind].
    destruct ((c =? 39) || (c =? 34) || (c =? 96) || (c =? 91)) eqn:E; [|done].
    exfalso. apply Hc. rewrite !orb_true_iff, !Z.eqb_eq in E. unfold quotes.
    destruct E as [[[-> | ->]| ->]| ->]; [exists 39|exists 34|exists 96|exists 93]; set_solver.
Qed.

Lemma literal_roundtrip_witness :
  sqlite3HexToBlob (Some [9; 9; 9]) [52; 66; 70; 49; 39] 5 = Some (Some [75; 241; 0]) /\
  exists t, sqlite3Dequote (Some [91; 97; 93; 93; 93; 0]) = Some (2, Some ([97; 93] ++ 0 :: t)).
Proof.
  destruct (literal_roundtrip (fun _ => true) [75; 241] [9; 9; 9] [39] 91 93 [97; 93] []) as (H1 & H2 & _).
  - apply bytes_bool; reflexivity.
  - reflexivity.
  - repeat constructor; lia.
  - unfold quotes. set_solver.
  - split; [exact H1|exact H2].
Defined.
