(* ===== verification/RowSet.v ===== *)
(** * RowSet: sets of rowids (rowset.c)

    The entries of a RowSet belong to one list or one tree at a time, so a
    list linked by pRight is a Coq list of its values, and a tree of entries an
    inductive tree.  A null pointer is the empty list or the empty tree. *)
From stdpp Require Import sorting.
From S2P Require Import Prelude.

(** ** State *)

Inductive RowSetEntry :=
  | Null
  | Entry (pLeft : RowSetEntry) (v : Z) (pRight : RowSetEntry).

(** struct RowSet: the chunks allocated, the list of entries not yet sorted
    with the value of its last entry, the forest, the entries left in the
    newest chunk, flags and the current batch. *)
Record RowSet := mkRowSet {
  pChunk : Z;
  pEntry : list Z;
  pLast : option Z;
  pForest : list RowSetEntry;
  nFresh : Z;
  rsFlags : Z;
  iBatch : Z }.

Definition ROWSET_SORTED : Z := 1.
Definition ROWSET_NEXT : Z := 2.
Definition ROWSET_ALLOCATION_SIZE : Z := 1024.
Definition sizeof_RowSetEntry : Z := 24.
Definition sizeof_RowSet : Z := 56.
Definition ROWSET_ENTRY_PER_CHUNK : Z := (ROWSET_ALLOCATION_SIZE - 8) / sizeof_RowSetEntry.

(** ** Creation, allocation and insertion *)

Definition sqlite3RowSetInit (N : Z) : option RowSet :=
  _ ← assert_ (sizeof_RowSet <=? N);
  Some (mkRowSet 0 [] None [] (u16 ((N - sizeof_RowSet) / sizeof_RowSetEntry)) ROWSET_SORTED 0).

Definition sqlite3RowSetClear (p : RowSet) (m : Mem) : RowSet * Mem :=
  (mkRowSet 0 [] None [] 0 ROWSET_SORTED (iBatch p), mkMem (m_next m) (m_live m - pChunk p)).

Definition rowSetEntryAlloc (p : RowSet) (m : Mem) : bool * RowSet * Mem :=
  let '(ok, p, m) :=
    if nFresh p =? 0 then
      let '(ok, m) := malloc m in
      (ok, if ok : bool then
             mkRowSet (pChunk p + 1) (pEntry p) (pLast p) (pForest p) ROWSET_ENTRY_PER_CHUNK (rsFlags p) (iBatch p)
           else p, m)
    else (true, p, m) in
  if ok : bool then
    (true, mkRowSet (pChunk p) (pEntry p) (pLast p) (pForest p) (nFresh p - 1) (rsFlags p) (iBatch p), m)
  else (false, p, m).

Definition sqlite3RowSetInsert (p : RowSet) (m : Mem) (rowid : Z) : option (RowSet * Mem) :=
  _ ← assert_ (negb (flag (rsFlags p) ROWSET_NEXT));
  let '(ok, p, m) := rowSetEntryAlloc p m in
  if ok then
    let '(list, flags) :=
      match pLast p with
      | Some v =>
          (pEntry p ++ [rowid],
           if flag (rsFlags p) ROWSET_SORTED && (rowid <=? v)
           then Z.land (rsFlags p) (Z.lnot ROWSET_SORTED) else rsFlags p)
      | None => ([rowid], rsFlags p)
      end in
    Some (mkRowSet (pChunk p) list (Some rowid) (pForest p) (nFresh p) flags (iBatch p), m)
  else Some (p, m).

(** ** Merge and sort *)

(** assert( p->pRight==0 || p->v<=p->pRight->v ), for the list from p on *)
Definition in_order (l : list Z) : bool :=
  match l with x :: y :: _ => x <=? y | _ => true end.

Fixpoint rowSetEntryMerge (pA : list Z) : list Z -> option (list Z) :=
  fix loop (pB : list Z) : option (list Z) :=
    match pA, pB with
    | a :: pA', b :: pB' =>
        _ ← assert_ (in_order pA);
        _ ← assert_ (in_order pB);
        if a <? b then r ← rowSetEntryMerge pA' pB; Some (a :: r)
        else if b <? a then r ← loop pB'; Some (b :: r)
        else rowSetEntryMerge pA' pB
    | _ :: _, [] => _ ← assert_ (in_order pA); Some pA
    | [], _ => _ ← assert_ (in_order pB); Some pB
    end.

(** for(i=0; aBucket[i]; i++){ ... } aBucket[i] = pIn; *)
Fixpoint sort_carry (aBucket : list (list Z)) (pIn : list Z) : option (list (list Z)) :=
  match aBucket with
  | [] => None
  | [] :: rest => Some (pIn :: rest)
  | b :: rest =>
      pIn ← rowSetEntryMerge b pIn;
      rest ← sort_carry rest pIn;
      Some ([] :: rest)
  end.

Fixpoint sort_scan (aBucket : list (list Z)) (pIn : list Z) : option (list (list Z)) :=
  match pIn with
  | [] => Some aBucket
  | x :: pNext => aBucket ← sort_carry aBucket [x]; sort_scan aBucket pNext
  end.

Fixpoint sort_join (pIn : list Z) (aBucket : list (list Z)) : option (list Z) :=
  match aBucket with
  | [] => Some pIn
  | b :: rest => pIn ← rowSetEntryMerge pIn b; sort_join pIn rest
  end.

Definition rowSetEntrySort (pIn : list Z) : option (list Z) :=
  aBucket ← sort_scan (replicate 40 []) pIn;
  sort_join [] aBucket.

(** ** Trees *)

Fixpoint rowSetTreeToList (pIn : RowSetEntry) : list Z :=
  match pIn with
  | Null => []
  | Entry l v r => rowSetTreeToList l ++ [v] ++ rowSetTreeToList r
  end.

Fixpoint rowSetNDeepTree (iDepth : nat) (pList : list Z) : option (RowSetEntry * list Z) :=
  match pList, iDepth with
  | [], _ => Some (Null, [])
  | _, O => None
  | x :: rest, 1%nat => Some (Entry Null x Null, rest)
  | _, S d =>
      '(pLeft, pList) ← rowSetNDeepTree d pList;
      match pList with
      | [] => Some (pLeft, [])
      | x :: rest =>
          '(pRight, pList) ← rowSetNDeepTree d rest;
          Some (Entry pLeft x pRight, pList)
      end
  end.

Fixpoint listToTree_loop (fuel : nat) (p : RowSetEntry) (pList : list Z) (iDepth : nat) : option RowSetEntry :=
  match pList, fuel with
  | [], _ => Some p
  | _, O => None
  | x :: rest, S f =>
      '(pRight, pList) ← rowSetNDeepTree iDepth rest;
      listToTree_loop f (Entry p x pRight) pList (S iDepth)
  end.

Definition rowSetListToTree (pList : list Z) : option RowSetEntry :=
  match pList with
  | [] => None
  | x :: rest => listToTree_loop (length rest) (Entry Null x Null) rest 1
  end.

(** ** Iteration *)

Definition rowSetToList (p : RowSet) : option RowSet :=
  _ ← assert_ (negb (flag (rsFlags p) ROWSET_NEXT));
  list ← (if flag (rsFlags p) ROWSET_SORTED then Some (pEntry p) else rowSetEntrySort (pEntry p));
  _ ← assert_ (match pForest p with [] => true | _ => false end);
  Some (mkRowSet (pChunk p) list (pLast p) (pForest p) (nFresh p) (Z.lor (rsFlags p) ROWSET_NEXT) (iBatch p)).

(** The value stored through pRowid, when one is. *)
Definition sqlite3RowSetNext (p : RowSet) (m : Mem) : option (Z * option Z * RowSet * Mem) :=
  p ← (if flag (rsFlags p) ROWSET_NEXT then Some p else rowSetToList p);
  match pEntry p with
  | v :: rest =>
      let p := mkRowSet (pChunk p) rest (pLast p) (pForest p) (nFresh p) (rsFlags p) (iBatch p) in
      let '(p, m) := match rest with [] => sqlite3RowSetClear p m | _ => (p, m) end in
      Some (1, Some v, p, m)
  | [] => Some (0, None, p, m)
  end.

(** ** Membership *)

(** The loop over the forest that looks for a free slot: the forest it leaves
    and, when there is no slot, the list still to be stored. *)
Fixpoint forest_loop (forest : list RowSetEntry) (p : list Z) : option (list RowSetEntry * option (list Z)) :=
  match forest with
  | [] => Some ([], Some p)
  | Null :: rest => t ← rowSetListToTree p; Some (t :: rest, None)
  | pTree :: rest =>
      p ← rowSetEntryMerge (rowSetTreeToList pTree) p;
      '(rest, todo) ← forest_loop rest p;
      Some (Null :: rest, todo)
  end.

Fixpoint tree_search (p : RowSetEntry) (iRowid : Z) : bool :=
  match p with
  | Null => false
  | Entry l v r => if v <? iRowid then tree_search r iRowid else if iRowid <? v then tree_search l iRowid else true
  end.

Definition rowSetNewBatch (p : RowSet) (m : Mem) : option (RowSet * Mem) :=
  match pEntry p with
  | [] => Some (p, m)
  | _ =>
      list ← (if flag (rsFlags p) ROWSET_SORTED then Some (pEntry p) else rowSetEntrySort (pEntry p));
      '(forest, todo) ← forest_loop (pForest p) list;
      '(forest, p, m) ←
        match todo with
        | None => Some (forest, p, m)
        | Some list =>
            let '(ok, p, m) := rowSetEntryAlloc p m in
            if ok then t ← rowSetListToTree list; Some (forest ++ [t], p, m)
            else Some (forest, p, m)
        end;
      Some (mkRowSet (pChunk p) [] None forest (nFresh p) (Z.lor (rsFlags p) ROWSET_SORTED) (iBatch p), m)
  end.

Definition sqlite3RowSetTest (p : RowSet) (m : Mem) (batch iRowid : Z) : option (bool * RowSet * Mem) :=
  _ ← assert_ (negb (flag (rsFlags p) ROWSET_NEXT));
  '(p, m) ←
    (if batch =? iBatch p then Some (p, m)
     else
       '(p, m) ← rowSetNewBatch p m;
       Some (mkRowSet (pChunk p) (pEntry p) (pLast p) (pForest p) (nFresh p) (rsFlags p) batch, m));
  Some (existsb (fun t => tree_search t iRowid) (pForest p), p, m).

(** ** Strictly increasing lists *)

Abbreviation increasing := (StronglySorted Z.lt).

Lemma increasing_in_order l : increasing l -> in_order l = true.
Proof.
  intros H. destruct l as [|x [|y l]]; try done. simpl. apply Z.leb_le.
  inversion H as [|? ? _ Hall]; subst. apply Forall_cons in Hall as [? _]. lia.
Qed.

Lemma increasing_cons x l : increasing (x :: l) <-> increasing l /\ (forall y, y ∈ l -> x < y).
Proof.
  split.
  - intros H. inversion H as [|? ? Hs Hall]; subst. rewrite Forall_forall in Hall. auto.
  - intros [? ?]. constructor; [done|]. by apply Forall_forall.
Qed.

Lemma increasing_app a b :
  increasing (a ++ b) <-> increasing a /\ increasing b /\ (forall x y, x ∈ a -> y ∈ b -> x < y).
Proof.
  induction a as [|z a IH]; simpl.
  - split; [intros; split_and!; [constructor|done|set_solver]|naive_solver].
  - rewrite !increasing_cons, IH. set_solver.
Qed.

Lemma increasing_length l k : increasing l -> (forall x, x ∈ l -> x ∈ k) -> (length l <= length k)%nat.
Proof.
  intros Hl Hin. apply submseteq_length, NoDup_submseteq; [|done]. clear Hin.
  induction l as [|x l IH]; constructor; apply increasing_cons in Hl as [Hl Hx]; [|auto].
  intros Hin%Hx. lia.
Qed.

Lemma merge_cons x a y b :
  rowSetEntryMerge (x :: a) (y :: b) =
    (_ ← assert_ (in_order (x :: a));
     _ ← assert_ (in_order (y :: b));
     if x <? y then r ← rowSetEntryMerge a (y :: b); Some (x :: r)
     else if y <? x then r ← rowSetEntryMerge (x :: a) b; Some (y :: r)
     else rowSetEntryMerge a (y :: b)).
Proof. done. Qed.

Lemma merge_correct a : forall b, increasing a -> increasing b ->
  exists r, rowSetEntryMerge a b = Some r /\ increasing r /\ (forall x, x ∈ r <-> x ∈ a \/ x ∈ b).
Proof.
  induction a as [|x a IHa]; intros b Ha Hb.
  - exists b. pose proof (increasing_in_order b Hb) as Ho.
    destruct b; cbn [rowSetEntryMerge]; rewrite ?Ho; cbn; set_solver.
  - induction b as [|y b IHb].
    + exists (x :: a). cbn [rowSetEntryMerge]. rewrite increasing_in_order by done. cbn. set_solver.
    + rewrite merge_cons, !increasing_in_order by done. cbn [assert_ mbind option_bind].
      pose proof Ha as Ha0. pose proof Hb as Hb0.
      apply increasing_cons in Ha0 as [Ha' Hxa], Hb0 as [Hb' Hyb].
      destruct (Z.ltb_spec x y); [|destruct (Z.ltb_spec y x)].
      * destruct (IHa (y :: b) Ha' Hb) as (r & -> & Hr & Hin). exists (x :: r). split; [done|].
        rewrite increasing_cons. split; [split; [done|]|set_solver].
        intros z [?|[-> |Hz%Hyb]%elem_of_cons]%Hin; [auto|lia|lia].
      * destruct (IHb Hb') as (r & -> & Hr & Hin).
        exists (y :: r). split; [done|]. rewrite increasing_cons. split; [split; [done|]|set_solver].
        intros z [[-> |Hz%Hxa]%elem_of_cons|?]%Hin; [lia|lia|auto].
      * assert (x = y) as -> by lia. destruct (IHa (y :: b) Ha' Hb) as (r & -> & Hr & Hin).
        exists r. set_solver.
Qed.

(** ** The bottom-up merge sort *)

(** The number of lists merged so far, read off the occupied buckets. *)
Fixpoint weight (bs : list (list Z)) : Z :=
  match bs with
  | [] => 0
  | b :: bs => (if bool_decide (b = []) then 0 else 1) + 2 * weight bs
  end.

Lemma sort_carry_correct bs : forall p,
  Forall increasing bs -> increasing p -> p <> [] -> weight bs + 1 < 2 ^ Z.of_nat (length bs) ->
  exists bs', sort_carry bs p = Some bs' /\ Forall increasing bs' /\
    weight bs' = weight bs + 1 /\ length bs' = length bs /\
    (forall x, x ∈ concat bs' <-> x ∈ concat bs \/ x ∈ p).
Proof.
  induction bs as [|b bs IH]; intros p Hbs Hp Hne Hw; [done|].
  apply Forall_cons in Hbs as [Hb Hbs]. cbn [length] in Hw. rewrite Nat2Z.inj_succ, Z.pow_succ_r in Hw by lia.
  destruct b as [|y b]; cbn [sort_carry weight] in *.
  - exists (p :: bs). split; [done|]. cbn [weight]. rewrite bool_decide_eq_false_2 by done.
    rewrite bool_decide_eq_true_2 by done. split_and!; [by constructor|lia|done|].
    intros x. simpl. set_solver.
  - rewrite bool_decide_eq_false_2 in * by done.
    destruct (merge_correct (y :: b) p Hb Hp) as (r & -> & Hr & Hin). cbn [mbind option_bind].
    assert (r <> []) by (intros ->; apply (not_elem_of_nil y), Hin; left; constructor).
    destruct (IH r) as (bs' & -> & Hbs' & Hw' & Hl & Hc); [done..|lia|]. cbn [mbind option_bind].
    exists ([] :: bs'). split; [done|]. cbn [weight]. rewrite bool_decide_eq_true_2 by done.
    split_and!; [by repeat constructor|lia|simpl; lia|]. intros x. simpl. rewrite Hc, Hin. set_solver.
Qed.

Lemma sort_scan_correct l : forall bs,
  Forall increasing bs -> weight bs + Z.of_nat (length l) < 2 ^ Z.of_nat (length bs) ->
  exists bs', sort_scan bs l = Some bs' /\ Forall increasing bs' /\
    (forall x, x ∈ concat bs' <-> x ∈ concat bs \/ x ∈ l).
Proof.
  induction l as [|y l IH]; intros bs Hbs Hw; cbn [sort_scan].
  - exists bs. set_solver.
  - cbn [length] in Hw.
    destruct (sort_carry_correct bs [y]) as (bs' & -> & Hbs' & Hw' & Hl & Hc);
      [done|repeat constructor|done|lia|].
    cbn [mbind option_bind]. destruct (IH bs') as (r & -> & Hr & Hc'); [done|rewrite Hl; lia|].
    exists r. split; [done|]. split; [done|]. intros x. rewrite Hc', Hc. set_solver.
Qed.

Lemma sort_join_correct bs : forall p,
  Forall increasing bs -> increasing p ->
  exists r, sort_join p bs = Some r /\ increasing r /\ (forall x, x ∈ r <-> x ∈ p \/ x ∈ concat bs).
Proof.
  induction bs as [|b bs IH]; intros p Hbs Hp; cbn [sort_join].
  - exists p. set_solver.
  - apply Forall_cons in Hbs as [Hb Hbs]. destruct (merge_correct p b Hp Hb) as (q & -> & Hq & Hin).
    cbn [mbind option_bind]. destruct (IH q Hbs Hq) as (r & -> & Hr & Hin'). exists r.
    split; [done|]. split; [done|]. intros x. simpl. rewrite Hin', Hin. set_solver.
Qed.

Lemma weight_replicate n : weight (replicate n []) = 0.
Proof. induction n as [|n IH]; [done|]. cbn [replicate weight]. rewrite IH, bool_decide_eq_true_2 by done. done. Qed.

Lemma concat_replicate n : concat (replicate n ([] : list Z)) = [].
Proof. by induction n. Qed.

Lemma sort_correct l : Z.of_nat (length l) < 2 ^ 40 ->
  exists r, rowSetEntrySort l = Some r /\ increasing r /\ (forall x, x ∈ r <-> x ∈ l).
Proof.
  intros Hl. unfold rowSetEntrySort.
  destruct (sort_scan_correct l (replicate 40 [])) as (bs & -> & Hbs & Hin).
  { apply Forall_replicate. constructor. }
  { rewrite weight_replicate, length_replicate. simpl Z.of_nat. lia. }
  cbn [mbind option_bind]. destruct (sort_join_correct bs [] Hbs) as (r & -> & Hr & Hin'); [constructor|].
  exists r. split; [done|]. split; [done|]. intros x. rewrite Hin', Hin, concat_replicate. set_solver.
Qed.

(** ** Trees *)

Fixpoint depth (t : RowSetEntry) : nat :=
  match t with Null => 0 | Entry l _ r => S (Nat.max (depth l) (depth r)) end.

(** The tree takes as many entries as fit in its depth. *)
Lemma nDeepTree_correct d : forall l,
  exists t rest, rowSetNDeepTree (S d) l = Some (t, rest) /\
    rowSetTreeToList t ++ rest = l /\ (depth t <= S d)%nat /\
    (rest <> [] -> length (rowSetTreeToList t) = (2 ^ S d - 1)%nat).
Proof.
  induction d as [|d IH]; intros l.
  - destruct l as [|x l]; simpl; [exists Null, []|exists (Entry Null x Null), l]; split_and!; (done || simpl; lia).
  - destruct l as [|x l]; [exists Null, []; split_and!; simpl; (done || lia)|].
    destruct (IH (x :: l)) as (tl & rest & He & Hl & Hd & Hf).
    assert (rowSetNDeepTree (S (S d)) (x :: l) =
      ('(pLeft, pList) ← rowSetNDeepTree (S d) (x :: l);
       match pList with
       | [] => Some (pLeft, [])
       | x :: rest =>
           '(pRight, pList) ← rowSetNDeepTree (S d) rest;
           Some (Entry pLeft x pRight, pList)
       end)) as -> by done.
    rewrite He. cbn [mbind option_bind]. destruct rest as [|y rest].
    + exists tl, []. split_and!; [done|done|lia|done].
    + destruct (IH rest) as (tr & rest' & -> & Hl' & Hd' & Hf'). cbn [mbind option_bind].
      exists (Entry tl y tr), rest'. split_and!; [done| |simpl; lia|].
      * rewrite <- Hl, <- Hl'. simpl. rewrite <- !app_assoc. done.
      * intros Hr. simpl. rewrite length_app. simpl. rewrite Hf, Hf' by done.
        pose proof (Nat.pow_nonzero 2 d). simpl. lia.
Qed.

Lemma listToTree_loop_correct l : forall fuel p d,
  (length l <= fuel)%nat -> (depth p <= S d)%nat -> (2 ^ S d - 1 <= length (rowSetTreeToList p))%nat ->
  exists t, listToTree_loop fuel p l (S d) = Some t /\ rowSetTreeToList t = rowSetTreeToList p ++ l /\
    (2 ^ (depth t - 1) <= length (rowSetTreeToList t))%nat.
Proof.
  induction l as [l IH] using (induction_ltof1 _ length). unfold ltof in IH.
  intros fuel p d Hf Hd Hs. destruct l as [|x l].
  - exists p. rewrite app_nil_r. split_and!; [by destruct fuel|done|].
    destruct (depth p) as [|n] eqn:E; [destruct p; [simpl in Hs|done]; assert (2 ^ S d <> 0)%nat by (by apply Nat.pow_nonzero); simpl in *; lia|].
    assert (2 ^ n <= 2 ^ d)%nat by (apply Nat.pow_le_mono_r; lia). simpl. rewrite Nat.sub_0_r.
    simpl in Hs. assert (2 ^ d <> 0)%nat by (by apply Nat.pow_nonzero). lia.
  - destruct fuel as [|f]; [simpl in Hf; lia|]. cbn [listToTree_loop].
    destruct (nDeepTree_correct d l) as (tr & rest & -> & Hl & Hdr & Hfull). cbn [mbind option_bind].
    assert (length rest <= length l)%nat by (rewrite <- Hl, length_app; lia).
    destruct (decide (rest = [])) as [-> |Hne].
    + exists (Entry p x tr). rewrite app_nil_r in Hl. split_and!.
      * by destruct f.
      * simpl. by rewrite Hl.
      * cbn [depth rowSetTreeToList]. rewrite !length_app. simpl.
        assert (2 ^ (Nat.max (depth p) (depth tr)) <= 2 ^ S d)%nat by (apply Nat.pow_le_mono_r; lia).
        rewrite Nat.sub_0_r. simpl in *. lia.
    + destruct (IH rest ltac:(simpl; lia) f (Entry p x tr) (S d)) as (t & -> & Ht & Hb).
      * simpl in Hf. lia.
      * simpl. lia.
      * cbn [rowSetTreeToList]. rewrite !length_app, Hfull by done. simpl in *. lia.
      * exists t. split_and!; [done| |done]. rewrite Ht. simpl. rewrite <- !app_assoc. simpl. by rewrite Hl.
Qed.

Lemma listToTree_correct l : l <> [] ->
  exists t, rowSetListToTree l = Some t /\ rowSetTreeToList t = l /\ (2 ^ (depth t - 1) <= length l)%nat /\ t <> Null.
Proof.
  intros Hl. destruct l as [|x l]; [done|]. unfold rowSetListToTree.
  destruct (listToTree_loop_correct l (length l) (Entry Null x Null) 0) as (t & -> & Ht & Hb); [simpl; lia..|].
  exists t. simpl in Ht. split_and!; [done|done|by rewrite Ht in Hb|]. intros ->. done.
Qed.

Lemma tree_search_correct t x : increasing (rowSetTreeToList t) ->
  tree_search t x = bool_decide (x ∈ rowSetTreeToList t).
Proof.
  induction t as [|l IHl v r IHr]; intros Hs; simpl; [done|].
  simpl in Hs. apply increasing_app in Hs as (Hl & [Hr Hvr]%increasing_cons & Hlr).
  assert (x ∈ rowSetTreeToList l ++ v :: rowSetTreeToList r <-> x ∈ rowSetTreeToList l \/ x = v \/ x ∈ rowSetTreeToList r) as Hin
    by (rewrite elem_of_app, elem_of_cons; done).
  apply bool_iff. rewrite bool_decide_eq_true, Hin.
  destruct (Z.ltb_spec v x) as [Hlt|Hge]; [|destruct (Z.ltb_spec x v) as [Hlt|Hle]].
  - rewrite IHr, bool_decide_eq_true by done. split; [tauto|]. intros [H|[-> |H]]; [|lia|done].
    specialize (Hlr x v H ltac:(constructor)). lia.
  - rewrite IHl, bool_decide_eq_true by done. split; [tauto|]. intros [H|[-> |H%Hvr]]; [done|lia|lia].
  - assert (x = v) as -> by lia. tauto.
Qed.

(** ** Invariant *)

(** The value of the last entry. *)
Definition rowset_flags_ok (p : RowSet) : Prop :=
  (rsFlags p = 0 \/ rsFlags p = ROWSET_SORTED /\ increasing (pEntry p)).

(** A RowSet that may still be added to or tested. *)
Record rowset_ok (p : RowSet) : Prop := {
  ok_flags : rowset_flags_ok p;
  ok_last : pLast p = last (pEntry p);
  ok_forest : Forall (fun t => increasing (rowSetTreeToList t)) (pForest p);
  ok_fresh : 0 <= nFresh p;
  ok_chunk : 0 <= pChunk p }.

Definition forest_list (forest : list RowSetEntry) : list Z := forest ≫= rowSetTreeToList.

Lemma rowSetEntryAlloc_cases p m :
  (exists c f m', rowSetEntryAlloc p m =
     (true, mkRowSet c (pEntry p) (pLast p) (pForest p) f (rsFlags p) (iBatch p), m') /\
     (0 <= nFresh p -> 0 <= f) /\ pChunk p <= c /\ m_live m' - m_live m = c - pChunk p /\ (no_oom m -> no_oom m')) \/
  (exists m', rowSetEntryAlloc p m = (false, p, m') /\ m_live m' = m_live m /\ ~ no_oom m).
Proof.
  unfold rowSetEntryAlloc. destruct (Z.eqb_spec (nFresh p) 0).
  - destruct (malloc_cases m) as [(o & -> & Ho)|(o & -> & Ho)]; simpl.
    + left. do 3 eexists. split; [reflexivity|]. simpl. split_and!; [intros; vm_compute; discriminate|lia|lia|done].
    + right. eexists. split; [reflexivity|]. done.
  - left. do 3 eexists. split; [reflexivity|]. split_and!; [lia|lia|lia|done].
Qed.

Lemma increasing_snoc l x y : increasing l -> last l = Some y -> y < x -> increasing (l ++ [x]).
Proof.
  intros Hl Hy Hlt. apply increasing_app. split_and!; [done|repeat constructor|].
  intros z w Hz ->%list_elem_of_singleton. apply last_Some in Hy as [l' ->].
  apply increasing_app in Hl as (_ & _ & Hl). apply elem_of_app in Hz as [Hz|Hz].
  - specialize (Hl z y Hz ltac:(constructor)). lia.
  - apply list_elem_of_singleton in Hz as ->. lia.
Qed.

(** Insertion appends, or does nothing when memory is short. *)
Lemma rowSetInsert_correct p m v : rowset_ok p ->
  exists p' m', sqlite3RowSetInsert p m v = Some (p', m') /\ rowset_ok p' /\
    pForest p' = pForest p /\ iBatch p' = iBatch p /\
    m_live m' - m_live m = pChunk p' - pChunk p /\ (no_oom m -> no_oom m') /\
    (pEntry p' = pEntry p ++ [v] \/ p' = p /\ ~ no_oom m).
Proof.
  intros [Hf Hl Hfo Hn Hc]. unfold sqlite3RowSetInsert.
  assert (flag (rsFlags p) ROWSET_NEXT = false) as -> by (by destruct Hf as [-> |[-> _]]). cbn [negb assert_ mbind option_bind].
  destruct (rowSetEntryAlloc_cases p m) as [(c & f & m' & -> & Hf' & Hc' & Hm & Ho)|(m' & -> & Hm & Ho)];
    cbn [pLast pEntry rsFlags pChunk pForest nFresh iBatch].
  - rewrite Hl. destruct (last (pEntry p)) as [y|] eqn:Ey.
    + do 2 eexists. split; [reflexivity|]. cbn. split_and!; try done; [|auto].
      split; cbn; [|by rewrite last_snoc|done|auto|lia].
      destruct Hf as [Hf|[Hf Hs]]; rewrite Hf; [by left|]. unfold rowset_flags_ok. cbn.
      destruct (Z.leb_spec v y); [by left|]. right. split; [done|]. by eapply increasing_snoc.
    + apply last_None in Ey. rewrite Ey. do 2 eexists. split; [reflexivity|]. cbn. split_and!; try done; [|auto].
      split; cbn; [|done|done|auto|lia]. destruct Hf as [Hf|[Hf Hs]]; [by left|right]. cbn. split; [done|repeat constructor].
  - do 2 eexists. split; [reflexivity|]. split_and!; try done; [lia|by right].
Qed.

(** The entries not yet sorted, as an increasing list. *)
Lemma sorted_entries p : rowset_ok p -> Z.of_nat (length (pEntry p)) < 2 ^ 40 ->
  exists l, (if flag (rsFlags p) ROWSET_SORTED then Some (pEntry p) else rowSetEntrySort (pEntry p)) = Some l /\
    increasing l /\ (forall x, x ∈ l <-> x ∈ pEntry p).
Proof.
  intros [Hf _ _ _ _] Hlen. destruct Hf as [-> |[-> Hs]]; [by apply sort_correct|]. exists (pEntry p). done.
Qed.

(** ** Testing membership *)

Lemma forest_loop_correct forest : forall p,
  Forall (fun t => increasing (rowSetTreeToList t)) forest -> increasing p -> p <> [] ->
  exists forest' todo, forest_loop forest p = Some (forest', todo) /\
    Forall (fun t => increasing (rowSetTreeToList t)) forest' /\
    match todo with
    | None => forall x, x ∈ forest_list forest' <-> x ∈ forest_list forest \/ x ∈ p
    | Some q => forest_list forest' = [] /\ increasing q /\ q <> [] /\
                (forall x, x ∈ q <-> x ∈ forest_list forest \/ x ∈ p)
    end.
Proof.
  induction forest as [|t forest IH]; intros p Hf Hp Hne.
  - exists [], (Some p). split_and!; [done|done|done|done|done|set_solver].
  - apply Forall_cons in Hf as [Ht Hf]. destruct t as [|l v r]; cbn [forest_loop].
    + destruct (listToTree_correct p Hne) as (t & -> & Htl & _ & _). cbn [mbind option_bind].
      exists (t :: forest), None. split_and!; [done|by constructor; [rewrite Htl|]|].
      intros x. unfold forest_list. simpl. rewrite Htl, elem_of_app. tauto.
    + set (t := Entry l v r) in *.
      destruct (merge_correct (rowSetTreeToList t) p Ht Hp) as (q & -> & Hq & Hin). cbn [mbind option_bind].
      destruct (IH q Hf Hq) as (forest' & todo & -> & Hf' & Htodo).
      { destruct p as [|y p]; [done|]. intros ->. apply (not_elem_of_nil y), Hin. right. constructor. }
      cbn [mbind option_bind]. exists (Null :: forest'), todo.
      split_and!; [done|by repeat constructor|].
      assert (forall x, x ∈ forest_list (t :: forest) <-> x ∈ rowSetTreeToList t \/ x ∈ forest_list forest) as Hfl.
      { intros x. unfold forest_list. rewrite bind_cons, elem_of_app. done. }
      destruct todo as [q'|].
      * destruct Htodo as (He & Hi & Hne' & Hx). split_and!; [done|done|done|].
        intros x. rewrite Hx, Hfl, Hin. tauto.
      * intros x. change (forest_list (Null :: forest')) with (forest_list forest').
        rewrite Htodo, Hfl, Hin. tauto.
Qed.

(** A new batch moves the pending entries into the forest; when no entry can
    be allocated for a new tree, the entries are dropped. *)
Lemma rowSetNewBatch_correct p m : rowset_ok p -> Z.of_nat (length (pEntry p)) < 2 ^ 40 ->
  exists p' m', rowSetNewBatch p m = Some (p', m') /\ rowset_ok p' /\ pEntry p' = [] /\
    m_live m' - m_live m = pChunk p' - pChunk p /\ (no_oom m -> no_oom m') /\
    ((forall x, x ∈ forest_list (pForest p') <-> x ∈ forest_list (pForest p) \/ x ∈ pEntry p) \/
     forest_list (pForest p') = [] /\ ~ no_oom m).
Proof.
  intros Hok Hlen. unfold rowSetNewBatch. destruct (pEntry p) as [|e es] eqn:Ee.
  { exists p, m. split_and!; [done|done|done|lia|done|left; set_solver]. }
  rewrite <- Ee in *. destruct (sorted_entries p Hok Hlen) as (l & -> & Hl & Hin). cbn [mbind option_bind].
  assert (rsFlags p = 0 \/ rsFlags p = ROWSET_SORTED) as Hfl by (destruct Hok as [[?|[? _]] _ _ _ _]; tauto).
  assert (rowset_flags_ok (mkRowSet 0 [] None [] 0 (Z.lor (rsFlags p) ROWSET_SORTED) 0)) as Hflags.
  { right. split; [by destruct Hfl as [-> | ->]|constructor]. }
  destruct (forest_loop_correct (pForest p) l) as (forest & todo & -> & Hf & Htodo);
    [apply Hok|done|intros ->; apply (not_elem_of_nil e), Hin; rewrite Ee; constructor|].
  cbn [mbind option_bind]. destruct todo as [q|].
  - destruct Htodo as (He & Hi & Hne & Hx).
    destruct (rowSetEntryAlloc_cases p m) as [(c & f & m' & -> & Hf' & Hc' & Hm & Ho)|(m' & -> & Hm & Ho)]; cbn [mbind option_bind].
    + destruct (listToTree_correct q Hne) as (t & -> & Htl & _ & _). cbn.
      do 2 eexists. split; [reflexivity|]. split_and!; [|done|done|done|left].
      * split; cbn; [exact Hflags|done|apply Forall_app; split; [done|by constructor; [rewrite Htl|]]|apply Hf', Hok|].
        pose proof (ok_chunk p Hok). lia.
      * cbn. unfold forest_list in *. intros x. rewrite bind_app, elem_of_app, He. simpl. rewrite app_nil_r, Htl, Hx, Hin.
        set_solver.
    + cbn. do 2 eexists. split; [reflexivity|]. split_and!; [|done|cbn; lia|done|by right].
      split; cbn; [exact Hflags|done|done|apply Hok..].
  - cbn. do 2 eexists. split; [reflexivity|]. split_and!; [|done|cbn; lia|done|left].
    + split; cbn; [exact Hflags|done|done|apply Hok..].
    + cbn. intros x. rewrite Htodo, Hin. done.
Qed.

Lemma existsb_forest forest r :
  Forall (fun t => increasing (rowSetTreeToList t)) forest ->
  existsb (fun t => tree_search t r) forest = bool_decide (r ∈ forest_list forest).
Proof.
  intros Hf. induction Hf as [|t forest Ht _ IH]; [done|]. simpl. rewrite IH, tree_search_correct by done.
  apply bool_iff. unfold forest_list. rewrite orb_true_iff, !bool_decide_eq_true. simpl. by rewrite elem_of_app.
Qed.

Lemma rowSetTest_correct p m b r : rowset_ok p -> Z.of_nat (length (pEntry p)) < 2 ^ 40 ->
  exists p' m', sqlite3RowSetTest p m b r = Some (bool_decide (r ∈ forest_list (pForest p')), p', m') /\
    rowset_ok p' /\ iBatch p' = b /\ (no_oom m -> no_oom m') /\ m_live m' - m_live m = pChunk p' - pChunk p /\
    (if b =? iBatch p then p' = p
     else pEntry p' = [] /\
       ((forall x, x ∈ forest_list (pForest p') <-> x ∈ forest_list (pForest p) \/ x ∈ pEntry p) \/
        forest_list (pForest p') = [] /\ ~ no_oom m)).
Proof.
  intros Hok Hlen. unfold sqlite3RowSetTest.
  assert (flag (rsFlags p) ROWSET_NEXT = false) as -> by (by destruct Hok as [[-> |[-> _]] _ _ _ _]).
  cbn [negb assert_ mbind option_bind]. destruct (Z.eqb_spec b (iBatch p)) as [-> |Hb].
  - exists p, m. cbn. rewrite existsb_forest by apply Hok. split_and!; (done || lia).
  - destruct (rowSetNewBatch_correct p m Hok Hlen) as (p' & m' & -> & Hok' & He & Hm & Ho & Hx). cbn.
    rewrite existsb_forest by apply Hok'.
    exists (mkRowSet (pChunk p') (pEntry p') (pLast p') (pForest p') (nFresh p') (rsFlags p') b), m'. cbn.
    split_and!; try done. destruct Hok' as [H1 H2 H3 H4 H5]. by split.
Qed.

(** ** The promise of a RowSet to its users *)

Inductive RowSetOp := OpInsert (v : Z) | OpTest (batch v : Z).

Fixpoint rowset_run (ops : list RowSetOp) (p : RowSet) (m : Mem) : option (list bool * RowSet * Mem) :=
  match ops with
  | [] => Some ([], p, m)
  | OpInsert v :: ops => '(p, m) ← sqlite3RowSetInsert p m v; rowset_run ops p m
  | OpTest b v :: ops =>
      '(r, p, m) ← sqlite3RowSetTest p m b v;
      '(rs, p, m) ← rowset_run ops p m;
      Some (r :: rs, p, m)
  end.

(** The abstract machine: the values of finished batches, the values of the
    current batch and its number. *)
Fixpoint rowset_spec (ops : list RowSetOp) (old cur : gset Z) (batch : Z) : list bool :=
  match ops with
  | [] => []
  | OpInsert v :: ops => rowset_spec ops old ({[v]} ∪ cur) batch
  | OpTest b v :: ops =>
      if b =? batch then bool_decide (v ∈ old) :: rowset_spec ops old cur batch
      else bool_decide (v ∈ old ∪ cur) :: rowset_spec ops (old ∪ cur) ∅ b
  end.

(** The concrete answers never claim more than the abstract ones, and are
    equal to them when no allocation fails. *)
Lemma rowset_run_correct ops : forall p m old cur,
  rowset_ok p -> Z.of_nat (length (pEntry p) + length ops) < 2 ^ 40 ->
  (forall x, x ∈ forest_list (pForest p) -> x ∈ old) -> (forall x, x ∈ pEntry p -> x ∈ cur) ->
  exists rs p' m', rowset_run ops p m = Some (rs, p', m') /\ rowset_ok p' /\
    m_live m' - m_live m = pChunk p' - pChunk p /\
    Forall2 implb rs (rowset_spec ops old cur (iBatch p)) /\
    (no_oom m -> (forall x, x ∈ old -> x ∈ forest_list (pForest p)) -> (forall x, x ∈ cur -> x ∈ pEntry p) ->
     rs = rowset_spec ops old cur (iBatch p)).
Proof.
  induction ops as [|[v|b v] ops IH]; intros p m old cur Hok Hlen Hold Hcur; cbn [rowset_run rowset_spec].
  - exists [], p, m. split_and!; [done|done|lia|constructor|done].
  - destruct (rowSetInsert_correct p m v Hok) as (p' & m' & -> & Hok' & Hf & Hb & Hm & Ho & He). cbn [mbind option_bind].
    destruct (IH p' m' old ({[v]} ∪ cur)) as (rs & p2 & m2 & -> & Hok2 & Hm2 & Himp & Heq); [done| | | |].
    + destruct He as [-> |[-> _]]; rewrite ?length_app; simpl in *; lia.
    + by rewrite Hf.
    + destruct He as [-> |[-> _]]; set_solver.
    + rewrite Hb in *. exists rs, p2, m2. split_and!; [done|done|lia|done|].
      intros Hno Hold' Hcur'. apply Heq; [auto|by rewrite Hf|]. destruct He as [-> |[_ ?]]; [set_solver|done].
  - destruct (rowSetTest_correct p m b v Hok) as (p' & m' & -> & Hok' & Hb & Ho & Hm & He); [simpl in Hlen; lia|].
    cbn [mbind option_bind]. rewrite <- Hb. destruct (Z.eqb_spec b (iBatch p)) as [Hbb|Hbb].
    + subst p'. rewrite Z.eqb_refl.
      destruct (IH p m' old cur) as (rs & p2 & m2 & -> & Hok2 & Hm2 & Himp & Heq); [done|simpl in Hlen; lia|done|done|].
      cbn. do 3 eexists. split; [reflexivity|]. split_and!; [done|lia| |].
      * constructor; [|done]. destruct (bool_decide_reflect (v ∈ forest_list (pForest p))); [|done].
        simpl. apply Is_true_true, bool_decide_eq_true. auto.
      * intros Hno Hold' Hcur'. f_equal; [|auto]. apply bool_decide_ext. split; auto.
    + rewrite (proj2 (Z.eqb_neq (iBatch p') (iBatch p))) by congruence. destruct He as [He Hx].
      assert (forall x, x ∈ forest_list (pForest p') -> x ∈ old ∪ cur) as Hsub.
      { intros x. destruct Hx as [Hx|[-> _]]; [rewrite Hx|]; set_solver. }
      destruct (IH p' m' (old ∪ cur) ∅) as (rs & p2 & m2 & -> & Hok2 & Hm2 & Himp & Heq); [done| |done| |].
      { rewrite He. simpl in *. lia. } { rewrite He. set_solver. }
      cbn. do 3 eexists. split; [reflexivity|]. split_and!; [done|lia| |].
      * constructor; [|done]. destruct (bool_decide_reflect (v ∈ forest_list (pForest p'))); [|done].
        simpl. apply Is_true_true, bool_decide_eq_true. auto.
      * intros Hno Hold' Hcur'. destruct Hx as [Hx|[_ ?]]; [|done].
        assert (forall x, x ∈ old ∪ cur -> x ∈ forest_list (pForest p')) as Hsup by (intros x; rewrite Hx; set_solver).
        f_equal; [apply bool_decide_ext; split; auto|]. apply Heq; [auto|done|set_solver].
Qed.

(** The client that fills a RowSet and then reads it to the end. *)
Fixpoint rowset_fill (vs : list Z) (p : RowSet) (m : Mem) : option (RowSet * Mem) :=
  match vs with
  | [] => Some (p, m)
  | v :: vs => '(p, m) ← sqlite3RowSetInsert p m v; rowset_fill vs p m
  end.

Fixpoint rowset_drain (fuel : nat) (p : RowSet) (m : Mem) : option (list Z * RowSet * Mem) :=
  match fuel with
  | O => None
  | S f =>
      '(rc, v, p, m) ← sqlite3RowSetNext p m;
      match v with
      | Some v => '(vs, p, m) ← rowset_drain f p m; Some (v :: vs, p, m)
      | None => Some ([], p, m)
      end
  end.

Lemma rowset_fill_correct vs : forall p m, rowset_ok p -> (pEntry p = [] -> pChunk p = 0) ->
  exists p' m', rowset_fill vs p m = Some (p', m') /\ rowset_ok p' /\ pForest p' = pForest p /\
    (pEntry p' = [] -> pChunk p' = 0) /\ m_live m' - m_live m = pChunk p' - pChunk p /\
    (length (pEntry p') <= length (pEntry p) + length vs)%nat /\
    (forall x, x ∈ pEntry p' -> x ∈ pEntry p \/ x ∈ vs) /\
    (no_oom m -> forall x, x ∈ pEntry p \/ x ∈ vs -> x ∈ pEntry p').
Proof.
  induction vs as [|v vs IH]; intros p m Hok He; cbn [rowset_fill].
  - exists p, m. split_and!; try done; [lia|simpl; lia|auto|set_solver].
  - destruct (rowSetInsert_correct p m v Hok) as (p1 & m1 & -> & Hok1 & Hf & _ & Hm & Ho & Hx). cbn [mbind option_bind].
    destruct (IH p1 m1 Hok1) as (p2 & m2 & -> & Hok2 & Hf2 & He2 & Hm2 & Hl2 & Hs2 & Hn2).
    { destruct Hx as [-> |[-> _]]; [by destruct (pEntry p)|done]. }
    exists p2, m2. split_and!; try done; [congruence|lia| | |].
    + destruct Hx as [Hx|[-> _]]; [rewrite Hx, length_app in Hl2; simpl in *; lia|simpl; lia].
    + intros x Hin%Hs2. destruct Hx as [Hx|[-> _]]; [rewrite Hx in Hin|]; set_solver.
    + intros Hno x Hin. destruct Hx as [Hx|[_ ?]]; [|done]. apply Hn2; [auto|]. rewrite Hx. set_solver.
Qed.

(** Once the list is in order, reading gives its elements one by one, and
    the last one releases the memory. *)
Lemma rowset_drain_list l : forall p m fuel,
  pEntry p = l -> flag (rsFlags p) ROWSET_NEXT = true -> l <> [] -> (length l < fuel)%nat ->
  exists p', rowset_drain fuel p m = Some (l, p', mkMem (m_next m) (m_live m - pChunk p)) /\ pEntry p' = [].
Proof.
  induction l as [|v l IH]; intros p m fuel He Hfl Hne Hf; [done|].
  destruct fuel as [|f]; [lia|]. cbn [rowset_drain]. unfold sqlite3RowSetNext. rewrite Hfl. cbn [mbind option_bind].
  rewrite He. destruct l as [|w l]; cbn [mbind option_bind].
  - cbn. destruct f as [|f]; [simpl in Hf; lia|]. cbn. eexists. split; reflexivity.
  - match goal with |- context [rowset_drain f ?q m] =>
      destruct (IH q m f eq_refl Hfl ltac:(done) ltac:(simpl in *; lia)) as (p' & Hd & Hp') end.
    cbn [pChunk] in Hd. rewrite Hd. cbn. eauto.
Qed.

(** ** Properties *)

(** rowSetEntrySort, the bottom-up merge sort over 40 buckets, sorts and
    removes duplicates: for fewer than 2^40 entries it never leaves the bucket
    array, violates no assertion of rowSetEntryMerge, and returns the strictly
    increasing list of the same values.  rowSetListToTree then builds a tree
    that lists the same entries in order and is balanced: its depth is at most
    1 + log2 of the number of entries. *)
Theorem rowset_sort_and_tree_correct l :
  Z.of_nat (length l) < 2 ^ 40 -> l <> [] ->
  exists r t, rowSetEntrySort l = Some r /\ increasing r /\ (forall x, x ∈ r <-> x ∈ l) /\
    rowSetListToTree r = Some t /\ rowSetTreeToList t = r /\ (2 ^ (depth t - 1) <= length r)%nat /\
    (forall x, tree_search t x = bool_decide (x ∈ l)).
Proof.
  intros Hl Hne. destruct (sort_correct l Hl) as (r & Hr & Hs & Hin).
  destruct (listToTree_correct r) as (t & Ht & Htl & Hd & _).
  { intros ->. destruct l as [|x l]; [done|]. apply (not_elem_of_nil x), Hin. constructor. }
  exists r, t. split_and!; try done. intros x. rewrite tree_search_correct by (by rewrite Htl).
  rewrite Htl. by apply bool_decide_ext.
Qed.

Lemma rowset_sort_and_tree_correct_witness :
  exists r t, rowSetEntrySort [3; 1; 2; 3] = Some r /\ r = [1; 2; 3] /\
    rowSetListToTree r = Some t /\ tree_search t 2 = true.
Proof.
  destruct (rowset_sort_and_tree_correct [3; 1; 2; 3]) as (r & t & H1 & _ & _ & H2 & _ & _ & H3); [vm_compute; done|done|].
  exists r, t. split_and!; [exact H1|vm_compute in H1; congruence|exact H2|]. rewrite H3. reflexivity.
Defined.

(** A RowSet that is filled and then read with sqlite3RowSetNext yields
    each inserted value exactly once, in increasing order, then 0; reading the
    last value frees every chunk.  Values are lost only when an allocation
    failed.  No assertion fails. *)
Theorem rowset_iterate_correct N p vs m :
  sqlite3RowSetInit N = Some p -> Z.of_nat (length vs) < 2 ^ 40 ->
  exists p1 m1 r p2 m2, rowset_fill vs p m = Some (p1, m1) /\
    rowset_drain (S (length vs)) p1 m1 = Some (r, p2, m2) /\
    increasing r /\ (forall x, x ∈ r -> x ∈ vs) /\ (no_oom m -> forall x, x ∈ vs -> x ∈ r) /\
    m_live m2 = m_live m /\ pEntry p2 = [].
Proof.
  intros Hi Hl. unfold sqlite3RowSetInit in Hi.
  destruct (sizeof_RowSet <=? N); [|done]. injection Hi as <-.
  match goal with |- context [rowset_fill vs ?q m] => destruct (rowset_fill_correct vs q m) as
    (p1 & m1 & Hfill & Hok1 & Hf1 & He1 & Hm1 & Hl1 & Hs1 & Hn1) end; [|done|].
  { split; cbn; [right; split; [done|cbn; apply SSorted_nil]|done|done|apply Z.mod_pos_bound; lia|done]. }
  cbn [pEntry pForest pChunk length] in *.
  assert (exists r p2 m2, rowset_drain (S (length vs)) p1 m1 = Some (r, p2, m2) /\ increasing r /\
    (forall x, x ∈ r <-> x ∈ pEntry p1) /\ m_live m2 = m_live m /\ pEntry p2 = []) as
    (r & p2 & m2 & Hd & Hr & Hin & Hm2 & He2).
  { destruct (sorted_entries p1 Hok1) as (l & Hsort & Hsl & Hin); [lia|].
    assert (flag (rsFlags p1) ROWSET_NEXT = false) as Hfl by (by destruct Hok1 as [[-> |[-> _]] _ _ _ _]).
    assert (rowSetToList p1 = Some (mkRowSet (pChunk p1) l (pLast p1) (pForest p1) (nFresh p1)
      (Z.lor (rsFlags p1) ROWSET_NEXT) (iBatch p1))) as Htl.
    { unfold rowSetToList. rewrite Hfl, Hsort, Hf1. done. }
    set (q := mkRowSet (pChunk p1) l (pLast p1) (pForest p1) (nFresh p1) (Z.lor (rsFlags p1) ROWSET_NEXT) (iBatch p1)) in *.
    assert (flag (rsFlags q) ROWSET_NEXT = true) as Hq by (by destruct Hok1 as [[E|[E _]] _ _ _ _]; unfold q; cbn; rewrite E).
    assert (rowset_drain (S (length vs)) p1 m1 = rowset_drain (S (length vs)) q m1) as ->.
    { cbn [rowset_drain]. unfold sqlite3RowSetNext. rewrite Hfl, Hq, Htl. done. }
    destruct l as [|w l].
    - assert (pEntry p1 = []) as He.
      { destruct (pEntry p1) as [|e es] eqn:E; [done|]. exfalso. apply (not_elem_of_nil e), Hin. constructor. }
      cbn [rowset_drain]. unfold sqlite3RowSetNext. rewrite Hq. cbn.
      exists [], q, m1. split_and!; [done|constructor|by rewrite He| |done]. specialize (He1 He). lia.
    - destruct (rowset_drain_list (w :: l) q m1 (S (length vs)) eq_refl Hq ltac:(done)) as (p' & Hd & Hp').
      { pose proof (increasing_length (w :: l) (pEntry p1) Hsl (fun x => proj1 (Hin x))). lia. }
      do 3 eexists. split; [exact Hd|]. split_and!; [done|done|cbn; lia|done]. }
  exists p1, m1, r, p2, m2. split_and!; try done.
  - intros x Hx%Hin%Hs1. set_solver.
  - intros Hno x Hx. apply Hin, Hn1; [done|]. by right.
Qed.

Lemma rowset_iterate_correct_witness :
  exists p p1 m1 p2 m2, sqlite3RowSetInit 100 = Some p /\ rowset_fill [5; -1; 5; 3] p (mkMem [] 0) = Some (p1, m1) /\
    rowset_drain 5 p1 m1 = Some ([-1; 3; 5], p2, m2) /\ m_live m2 = 0.
Proof.
  destruct (sqlite3RowSetInit 100) as [p|] eqn:E; [|vm_compute in E; discriminate].
  destruct (rowset_iterate_correct 100 p [5; -1; 5; 3] (mkMem [] 0) E) as (p1 & m1 & r & p2 & m2 & H1 & H2 & _ & _ & _ & H3 & _);
    [vm_compute; reflexivity|].
  exists p, p1, m1, p2, m2. split_and!; [reflexivity|exact H1| |exact H3].
  assert (r = [-1; 3; 5]) as <-; [|exact H2].
  vm_compute in E. injection E as <-. vm_compute in H1. injection H1 as <- <-. vm_compute in H2. congruence.
Defined.

(** C16. Membership tests refine a set of finished batches: over any sequence
    of fewer than 2^40 insertions and tests, sqlite3RowSetTest answers 1 only
    for values inserted before the current batch, and when no allocation fails
    it answers 1 for exactly those.  No assertion fails, and the memory held is
    that of the chunks the RowSet records. *)
Theorem rowset_test_refines_batches N p ops m :
  sqlite3RowSetInit N = Some p -> Z.of_nat (length ops) < 2 ^ 40 ->
  exists rs p' m', rowset_run ops p m = Some (rs, p', m') /\
    Forall2 implb rs (rowset_spec ops ∅ ∅ 0) /\
    (no_oom m -> rs = rowset_spec ops ∅ ∅ 0) /\
    m_live (snd (sqlite3RowSetClear p' m')) = m_live m.
Proof.
  intros Hi Hl. unfold sqlite3RowSetInit in Hi.
  destruct (sizeof_RowSet <=? N); [|done]. injection Hi as <-.
  match goal with |- context [rowset_run ops ?q m] => destruct (rowset_run_correct ops q m ∅ ∅) as
    (rs & p' & m' & Hrun & _ & Hm & Himp & Heq) end;
    [|simpl; lia|cbn; set_solver|cbn; set_solver|].
  { split; cbn; [right; split; [done|cbn; apply SSorted_nil]|done|done|apply Z.mod_pos_bound; lia|done]. }
  exists rs, p', m'. split_and!; [done|done| |cbn in *; lia].
  intros Hno. apply Heq; [done|set_solver|set_solver].
Qed.

Lemma rowset_test_refines_batches_witness :
  exists p p' m', sqlite3RowSetInit 56 = Some p /\
    rowset_run [OpInsert 4; OpInsert 2; OpTest 1 2; OpInsert 9; OpTest 1 9; OpTest 2 9] p (mkMem [] 0)
      = Some ([true; false; true], p', m').
Proof.
  destruct (sqlite3RowSetInit 56) as [p|] eqn:E; [|vm_compute in E; discriminate].
  destruct (rowset_test_refines_batches 56 p
    [OpInsert 4; OpInsert 2; OpTest 1 2; OpInsert 9; OpTest 1 9; OpTest 2 9] (mkMem [] 0) E) as (rs & p' & m' & H1 & _ & H2 & _);
    [vm_compute; reflexivity|].
  exists p, p', m'. split; [reflexivity|]. rewrite H1, H2 by constructor. reflexivity.
Defined.
