(* ===== verification/Keyword.v ===== *)
(** * Keyword: the perfect-hash keyword recogniser (keywordhash.h in tokenize.c) *)
From Stdlib Require Import String Ascii.
From S2P Require Import Prelude Ctype.

(** ** Token codes (parse.h) *)

Definition TK_SEMI : Z := 1.
Definition TK_EXPLAIN : Z := 2.
Definition TK_QUERY : Z := 3.
Definition TK_PLAN : Z := 4.
Definition TK_BEGIN : Z := 5.
Definition TK_TRANSACTION : Z := 6.
Definition TK_DEFERRED : Z := 7.
Definition TK_IMMEDIATE : Z := 8.
Definition TK_EXCLUSIVE : Z := 9.
Definition TK_COMMIT : Z := 10.
Definition TK_END : Z := 11.
Definition TK_ROLLBACK : Z := 12.
Definition TK_SAVEPOINT : Z := 13.
Definition TK_RELEASE : Z := 14.
Definition TK_TO : Z := 15.
Definition TK_TABLE : Z := 16.
Definition TK_CREATE : Z := 17.
Definition TK_IF : Z := 18.
Definition TK_NOT : Z := 19.
Definition TK_EXISTS : Z := 20.
Definition TK_TEMP : Z := 21.
Definition TK_LP : Z := 22.
Definition TK_RP : Z := 23.
Definition TK_AS : Z := 24.
Definition TK_WITHOUT : Z := 25.
Definition TK_COMMA : Z := 26.
Definition TK_ID : Z := 27.
Definition TK_INDEXED : Z := 28.
Definition TK_ABORT : Z := 29.
Definition TK_ACTION : Z := 30.
Definition TK_AFTER : Z := 31.
Definition TK_ANALYZE : Z := 32.
Definition TK_ASC : Z := 33.
Definition TK_ATTACH : Z := 34.
Definition TK_BEFORE : Z := 35.
Definition TK_BY : Z := 36.
Definition TK_CASCADE : Z := 37.
Definition TK_CAST : Z := 38.
Definition TK_COLUMNKW : Z := 39.
Definition TK_CONFLICT : Z := 40.
Definition TK_DATABASE : Z := 41.
Definition TK_DESC : Z := 42.
Definition TK_DETACH : Z := 43.
Definition TK_EACH : Z := 44.
Definition TK_FAIL : Z := 45.
Definition TK_FOR : Z := 46.
Definition TK_IGNORE : Z := 47.
Definition TK_INITIALLY : Z := 48.
Definition TK_INSTEAD : Z := 49.
Definition TK_LIKE_KW : Z := 50.
Definition TK_MATCH : Z := 51.
Definition TK_NO : Z := 52.
Definition TK_KEY : Z := 53.
Definition TK_OF : Z := 54.
Definition TK_OFFSET : Z := 55.
Definition TK_PRAGMA : Z := 56.
Definition TK_RAISE : Z := 57.
Definition TK_RECURSIVE : Z := 58.
Definition TK_REPLACE : Z := 59.
Definition TK_RESTRICT : Z := 60.
Definition TK_ROW : Z := 61.
Definition TK_TRIGGER : Z := 62.
Definition TK_VACUUM : Z := 63.
Definition TK_VIEW : Z := 64.
Definition TK_VIRTUAL : Z := 65.
Definition TK_WITH : Z := 66.
Definition TK_REINDEX : Z := 67.
Definition TK_RENAME : Z := 68.
Definition TK_CTIME_KW : Z := 69.
Definition TK_OR : Z := 71.
Definition TK_AND : Z := 72.
Definition TK_IS : Z := 73.
Definition TK_BETWEEN : Z := 74.
Definition TK_IN : Z := 75.
Definition TK_ISNULL : Z := 76.
Definition TK_NOTNULL : Z := 77.
Definition TK_NE : Z := 78.
Definition TK_EQ : Z := 79.
Definition TK_GT : Z := 80.
Definition TK_LE : Z := 81.
Definition TK_LT : Z := 82.
Definition TK_GE : Z := 83.
Definition TK_ESCAPE : Z := 84.
Definition TK_BITAND : Z := 85.
Definition TK_BITOR : Z := 86.
Definition TK_LSHIFT : Z := 87.
Definition TK_RSHIFT : Z := 88.
Definition TK_PLUS : Z := 89.
Definition TK_MINUS : Z := 90.
Definition TK_STAR : Z := 91.
Definition TK_SLASH : Z := 92.
Definition TK_REM : Z := 93.
Definition TK_CONCAT : Z := 94.
Definition TK_COLLATE : Z := 95.
Definition TK_BITNOT : Z := 96.
Definition TK_STRING : Z := 97.
Definition TK_JOIN_KW : Z := 98.
Definition TK_CONSTRAINT : Z := 99.
Definition TK_DEFAULT : Z := 100.
Definition TK_NULL : Z := 101.
Definition TK_PRIMARY : Z := 102.
Definition TK_UNIQUE : Z := 103.
Definition TK_CHECK : Z := 104.
Definition TK_REFERENCES : Z := 105.
Definition TK_AUTOINCR : Z := 106.
Definition TK_ON : Z := 107.
Definition TK_INSERT : Z := 108.
Definition TK_DELETE : Z := 109.
Definition TK_UPDATE : Z := 110.
Definition TK_SET : Z := 111.
Definition TK_DEFERRABLE : Z := 112.
Definition TK_FOREIGN : Z := 113.
Definition TK_DROP : Z := 114.
Definition TK_UNION : Z := 115.
Definition TK_ALL : Z := 116.
Definition TK_EXCEPT : Z := 117.
Definition TK_INTERSECT : Z := 118.
Definition TK_SELECT : Z := 119.
Definition TK_VALUES : Z := 120.
Definition TK_DISTINCT : Z := 121.
Definition TK_DOT : Z := 122.
Definition TK_FROM : Z := 123.
Definition TK_JOIN : Z := 124.
Definition TK_USING : Z := 125.
Definition TK_ORDER : Z := 126.
Definition TK_GROUP : Z := 127.
Definition TK_HAVING : Z := 128.
Definition TK_LIMIT : Z := 129.
Definition TK_WHERE : Z := 130.
Definition TK_INTO : Z := 131.
Definition TK_INTEGER : Z := 132.
Definition TK_FLOAT : Z := 133.
Definition TK_BLOB : Z := 134.
Definition TK_VARIABLE : Z := 135.
Definition TK_CASE : Z := 136.
Definition TK_WHEN : Z := 137.
Definition TK_THEN : Z := 138.
Definition TK_ELSE : Z := 139.
Definition TK_INDEX : Z := 140.
Definition TK_ALTER : Z := 141.
Definition TK_ADD : Z := 142.
Definition TK_ILLEGAL : Z := 150.
Definition TK_SPACE : Z := 151.

(** The bytes of a C string literal, without its terminator. *)
Definition str (s : string) : list Z :=
  map (fun a => Z.of_N (N_of_ascii a)) (list_ascii_of_string s).

(** ** Tables *)

Definition zText : list Z :=
  str "REINDEXEDESCAPEACHECKEYBEFOREIGNOREGEXPLAINSTEADDATABASELECTABLEFTHEND" ++
  str "EFERRABLELSEXCEPTRANSACTIONATURALTERAISEXCLUSIVEXISTSAVEPOINTERSECTRIG" ++
  str "GEREFERENCESCONSTRAINTOFFSETEMPORARYUNIQUERYWITHOUTERELEASEATTACHAVING" ++
  str "ROUPDATEBEGINNERECURSIVEBETWEENOTNULLIKECASCADELETECASECOLLATECREATECU" ++
  str "RRENT_DATEDETACHIMMEDIATEJOINSERTMATCHPLANALYZEPRAGMABORTVALUESVIRTUAL" ++
  str "IMITWHENWHERENAMEAFTEREPLACEANDEFAULTAUTOINCREMENTCASTCOLUMNCOMMITCONF" ++
  str "LICTCROSSCURRENT_TIMESTAMPRIMARYDEFERREDISTINCTDROPFAILFROMFULLGLOBYIF" ++
  str "ISNULLORDERESTRICTRIGHTROLLBACKROWUNIONUSINGVACUUMVIEWINITIALLY".

Definition aHash : list Z :=
  [76; 105; 117; 74; 0; 45; 0; 0; 82; 0; 77; 0; 0; 42; 12; 78; 15; 0; 116; 85; 54; 112;
   0; 19; 0; 0; 121; 0; 119; 115; 0; 22; 93; 0; 9; 0; 0; 70; 71; 0; 69; 6; 0; 48; 90;
   102; 0; 118; 101; 0; 0; 44; 0; 103; 24; 0; 17; 0; 122; 53; 23; 0; 5; 110; 25; 96; 0;
   0; 124; 106; 60; 123; 57; 28; 55; 0; 91; 0; 100; 26; 0; 99; 0; 0; 0; 95; 92; 97; 88;
   109; 14; 39; 108; 0; 81; 0; 18; 89; 111; 32; 0; 120; 80; 113; 62; 46; 84; 0; 0; 94;
   40; 59; 114; 0; 36; 0; 0; 29; 0; 86; 63; 64; 0; 20; 61; 0; 56].

Definition aNext : list Z :=
  [0; 0; 0; 0; 4; 0; 0; 0; 0; 0; 0; 0; 0; 0; 2; 0; 0; 0; 0; 0; 0; 13; 0; 0; 0; 0; 0; 7;
   0; 0; 0; 0; 0; 0; 0; 0; 0; 0; 0; 0; 0; 0; 0; 33; 0; 21; 0; 0; 0; 0; 0; 50; 0; 43; 3;
   47; 0; 0; 0; 0; 30; 0; 58; 0; 38; 0; 0; 0; 1; 66; 0; 0; 67; 0; 41; 0; 0; 0; 0; 0; 0;
   49; 65; 0; 0; 0; 0; 31; 52; 16; 34; 10; 0; 0; 0; 0; 0; 0; 0; 11; 72; 79; 0; 8; 0;
   104; 98; 0; 107; 0; 87; 0; 75; 51; 0; 27; 37; 73; 83; 0; 35; 68; 0; 0].

Definition aLen : list Z :=
  [7; 7; 5; 4; 6; 4; 5; 3; 6; 7; 3; 6; 6; 7; 7; 3; 8; 2; 6; 5; 4; 4; 3; 10; 4; 6; 11;
   6; 2; 7; 5; 5; 9; 6; 9; 9; 7; 10; 10; 4; 6; 2; 3; 9; 4; 2; 6; 5; 7; 4; 5; 7; 6; 6;
   5; 6; 5; 5; 9; 7; 7; 3; 2; 4; 4; 7; 3; 6; 4; 7; 6; 12; 6; 9; 4; 6; 5; 4; 7; 6; 5; 6;
   7; 5; 4; 5; 6; 5; 7; 3; 7; 13; 2; 2; 4; 6; 6; 8; 5; 17; 12; 7; 8; 8; 2; 4; 4; 4; 4;
   4; 2; 2; 6; 5; 8; 5; 8; 3; 5; 5; 6; 4; 9; 3].

Definition aOffset : list Z :=
  [0; 2; 2; 8; 9; 14; 16; 20; 23; 25; 25; 29; 33; 36; 41; 46; 48; 53; 54; 59; 62; 65;
   67; 69; 78; 81; 86; 91; 95; 96; 101; 105; 109; 117; 122; 128; 136; 142; 152; 159;
   162; 162; 165; 167; 167; 171; 176; 179; 184; 184; 188; 192; 199; 204; 209; 212; 218;
   221; 225; 234; 240; 240; 240; 243; 246; 250; 251; 255; 261; 265; 272; 278; 290; 296;
   305; 307; 313; 318; 320; 327; 332; 337; 343; 349; 354; 358; 361; 367; 371; 378; 380;
   387; 389; 391; 400; 404; 410; 416; 424; 429; 429; 445; 452; 459; 460; 467; 471; 475;
   479; 483; 486; 488; 490; 496; 500; 508; 513; 521; 524; 529; 534; 540; 544; 549].

Definition aCode : list Z :=
  [TK_REINDEX; TK_INDEXED; TK_INDEX; TK_DESC; TK_ESCAPE; TK_EACH; TK_CHECK; TK_KEY;
   TK_BEFORE; TK_FOREIGN; TK_FOR; TK_IGNORE; TK_LIKE_KW; TK_EXPLAIN; TK_INSTEAD;
   TK_ADD; TK_DATABASE; TK_AS; TK_SELECT; TK_TABLE; TK_JOIN_KW; TK_THEN; TK_END;
   TK_DEFERRABLE; TK_ELSE; TK_EXCEPT; TK_TRANSACTION; TK_ACTION; TK_ON; TK_JOIN_KW;
   TK_ALTER; TK_RAISE; TK_EXCLUSIVE; TK_EXISTS; TK_SAVEPOINT; TK_INTERSECT; TK_TRIGGER;
   TK_REFERENCES; TK_CONSTRAINT; TK_INTO; TK_OFFSET; TK_OF; TK_SET; TK_TEMP; TK_TEMP;
   TK_OR; TK_UNIQUE; TK_QUERY; TK_WITHOUT; TK_WITH; TK_JOIN_KW; TK_RELEASE; TK_ATTACH;
   TK_HAVING; TK_GROUP; TK_UPDATE; TK_BEGIN; TK_JOIN_KW; TK_RECURSIVE; TK_BETWEEN;
   TK_NOTNULL; TK_NOT; TK_NO; TK_NULL; TK_LIKE_KW; TK_CASCADE; TK_ASC; TK_DELETE;
   TK_CASE; TK_COLLATE; TK_CREATE; TK_CTIME_KW; TK_DETACH; TK_IMMEDIATE; TK_JOIN;
   TK_INSERT; TK_MATCH; TK_PLAN; TK_ANALYZE; TK_PRAGMA; TK_ABORT; TK_VALUES;
   TK_VIRTUAL; TK_LIMIT; TK_WHEN; TK_WHERE; TK_RENAME; TK_AFTER; TK_REPLACE; TK_AND;
   TK_DEFAULT; TK_AUTOINCR; TK_TO; TK_IN; TK_CAST; TK_COLUMNKW; TK_COMMIT; TK_CONFLICT;
   TK_JOIN_KW; TK_CTIME_KW; TK_CTIME_KW; TK_PRIMARY; TK_DEFERRED; TK_DISTINCT; TK_IS;
   TK_DROP; TK_FAIL; TK_FROM; TK_JOIN_KW; TK_LIKE_KW; TK_BY; TK_IF; TK_ISNULL;
   TK_ORDER; TK_RESTRICT; TK_JOIN_KW; TK_ROLLBACK; TK_ROW; TK_UNION; TK_USING;
   TK_VACUUM; TK_VIEW; TK_INITIALLY; TK_ALL].

(** ** Lookup *)

Definition charMap (X : Z) : Z := UpperToLower X.

Fixpoint keyword_loop (fuel : nat) (z : list Z) (n i : Z) : option Z :=
  match fuel with
  | O => None
  | S f =>
      if i <? 0 then Some TK_ID
      else
        len ← aget aLen i;
        off ← aget aOffset i;
        cmp ← (if len =? n then sqlite3_strnicmp (Z.to_nat n) (drop (Z.to_nat off) zText) z else Some 1);
        if cmp =? 0 then aget aCode i
        else
          next ← aget aNext i;
          keyword_loop f z n (next - 1)
  end.

Definition keywordCode (z : list Z) (n : Z) : option Z :=
  if n <? 2 then Some TK_ID
  else
    first ← aget z 0;
    final ← aget z (n - 1);
    let h := Z.rem (Z.lxor (Z.lxor (charMap first * 4) (charMap final * 3)) n) 127 in
    start ← aget aHash h;
    keyword_loop 125 z n (start - 1).

Definition sqlite3KeywordCode (z : list Z) (n : Z) : option Z := keywordCode z n.

(** ** The keywords of SQL *)

Definition keywords : list (list Z * Z) :=
  [(str "REINDEX", TK_REINDEX); (str "INDEXED", TK_INDEXED); (str "INDEX", TK_INDEX);
   (str "DESC", TK_DESC); (str "ESCAPE", TK_ESCAPE); (str "EACH", TK_EACH);
   (str "CHECK", TK_CHECK); (str "KEY", TK_KEY); (str "BEFORE", TK_BEFORE);
   (str "FOREIGN", TK_FOREIGN); (str "FOR", TK_FOR); (str "IGNORE", TK_IGNORE);
   (str "REGEXP", TK_LIKE_KW); (str "EXPLAIN", TK_EXPLAIN);
   (str "INSTEAD", TK_INSTEAD); (str "ADD", TK_ADD); (str "DATABASE", TK_DATABASE);
   (str "AS", TK_AS); (str "SELECT", TK_SELECT); (str "TABLE", TK_TABLE);
   (str "LEFT", TK_JOIN_KW); (str "THEN", TK_THEN); (str "END", TK_END);
   (str "DEFERRABLE", TK_DEFERRABLE); (str "ELSE", TK_ELSE); (str "EXCEPT", TK_EXCEPT);
   (str "TRANSACTION", TK_TRANSACTION); (str "ACTION", TK_ACTION); (str "ON", TK_ON);
   (str "NATURAL", TK_JOIN_KW); (str "ALTER", TK_ALTER); (str "RAISE", TK_RAISE);
   (str "EXCLUSIVE", TK_EXCLUSIVE); (str "EXISTS", TK_EXISTS);
   (str "SAVEPOINT", TK_SAVEPOINT); (str "INTERSECT", TK_INTERSECT);
   (str "TRIGGER", TK_TRIGGER); (str "REFERENCES", TK_REFERENCES);
   (str "CONSTRAINT", TK_CONSTRAINT); (str "INTO", TK_INTO); (str "OFFSET", TK_OFFSET);
   (str "OF", TK_OF); (str "SET", TK_SET); (str "TEMPORARY", TK_TEMP);
   (str "TEMP", TK_TEMP); (str "OR", TK_OR); (str "UNIQUE", TK_UNIQUE);
   (str "QUERY", TK_QUERY); (str "WITHOUT", TK_WITHOUT); (str "WITH", TK_WITH);
   (str "OUTER", TK_JOIN_KW); (str "RELEASE", TK_RELEASE); (str "ATTACH", TK_ATTACH);
   (str "HAVING", TK_HAVING); (str "GROUP", TK_GROUP); (str "UPDATE", TK_UPDATE);
   (str "BEGIN", TK_BEGIN); (str "INNER", TK_JOIN_KW); (str "RECURSIVE", TK_RECURSIVE);
   (str "BETWEEN", TK_BETWEEN); (str "NOTNULL", TK_NOTNULL); (str "NOT", TK_NOT);
   (str "NO", TK_NO); (str "NULL", TK_NULL); (str "LIKE", TK_LIKE_KW);
   (str "CASCADE", TK_CASCADE); (str "ASC", TK_ASC); (str "DELETE", TK_DELETE);
   (str "CASE", TK_CASE); (str "COLLATE", TK_COLLATE); (str "CREATE", TK_CREATE);
   (str "CURRENT_DATE", TK_CTIME_KW); (str "DETACH", TK_DETACH);
   (str "IMMEDIATE", TK_IMMEDIATE); (str "JOIN", TK_JOIN); (str "INSERT", TK_INSERT);
   (str "MATCH", TK_MATCH); (str "PLAN", TK_PLAN); (str "ANALYZE", TK_ANALYZE);
   (str "PRAGMA", TK_PRAGMA); (str "ABORT", TK_ABORT); (str "VALUES", TK_VALUES);
   (str "VIRTUAL", TK_VIRTUAL); (str "LIMIT", TK_LIMIT); (str "WHEN", TK_WHEN);
   (str "WHERE", TK_WHERE); (str "RENAME", TK_RENAME); (str "AFTER", TK_AFTER);
   (str "REPLACE", TK_REPLACE); (str "AND", TK_AND); (str "DEFAULT", TK_DEFAULT);
   (str "AUTOINCREMENT", TK_AUTOINCR); (str "TO", TK_TO); (str "IN", TK_IN);
   (str "CAST", TK_CAST); (str "COLUMN", TK_COLUMNKW); (str "COMMIT", TK_COMMIT);
   (str "CONFLICT", TK_CONFLICT); (str "CROSS", TK_JOIN_KW);
   (str "CURRENT_TIMESTAMP", TK_CTIME_KW); (str "CURRENT_TIME", TK_CTIME_KW);
   (str "PRIMARY", TK_PRIMARY); (str "DEFERRED", TK_DEFERRED);
   (str "DISTINCT", TK_DISTINCT); (str "IS", TK_IS); (str "DROP", TK_DROP);
   (str "FAIL", TK_FAIL); (str "FROM", TK_FROM); (str "FULL", TK_JOIN_KW);
   (str "GLOB", TK_LIKE_KW); (str "BY", TK_BY); (str "IF", TK_IF);
   (str "ISNULL", TK_ISNULL); (str "ORDER", TK_ORDER); (str "RESTRICT", TK_RESTRICT);
   (str "RIGHT", TK_JOIN_KW); (str "ROLLBACK", TK_ROLLBACK); (str "ROW", TK_ROW);
   (str "UNION", TK_UNION); (str "USING", TK_USING); (str "VACUUM", TK_VACUUM);
   (str "VIEW", TK_VIEW); (str "INITIALLY", TK_INITIALLY); (str "ALL", TK_ALL)].

(** ** Facts about the tables *)

(** The text of keyword [i]. *)
Definition keyword_name (i : Z) : list Z :=
  take (Z.to_nat (nth (Z.to_nat i) aLen 0)) (drop (Z.to_nat (nth (Z.to_nat i) aOffset 0)) zText).

(** The hash chain from entry [i]. *)
Fixpoint chain (fuel : nat) (i : Z) : option (list Z) :=
  match fuel with
  | O => None
  | S f => if i <? 0 then Some [] else next ← aget aNext i; l ← chain f (next - 1); Some (i :: l)
  end.

Definition hash (a b n : Z) : Z := Z.rem (Z.lxor (Z.lxor (charMap a * 4) (charMap b * 3)) n) 127.

(** Everything the proof needs of the tables, as one computation: the
    entries of zText are the keywords, in order and without duplicates; each
    fits in zText; every chain ends; and each keyword is on its own chain. *)
Definition keyword_entry_ok (i : Z) : bool :=
  match aget keywords i, aget aLen i, aget aOffset i, aget aCode i with
  | Some (name, code), Some len, Some off, Some code' =>
      bool_decide (name = keyword_name i) && (code =? code') && (Z.of_nat (length name) =? len) &&
      (0 <=? off) && (off + len <=? 553) && (2 <=? len) &&
      match aget name 0, aget name (len - 1) with
      | Some a, Some b =>
          match aget aHash (hash a b len) with
          | Some start => match chain 125 (start - 1) with Some l => bool_decide (i ∈ l) | None => false end
          | None => false
          end
      | _, _ => false
      end &&
      forallb (fun c => (1 <=? c) && (c <=? 255)) name
  | _, _, _, _ => false
  end.

Definition chain_ok (h : Z) : bool :=
  match aget aHash h with
  | Some start =>
      match chain 125 (start - 1) with
      | Some l => forallb (fun i => (0 <=? i) && (i <? 124)) l
      | None => false
      end
  | None => false
  end.

Lemma keyword_entries_ok : forallb keyword_entry_ok (seqZ 0 124) = true.
Proof. vm_compute. reflexivity. Qed.

Lemma chains_ok : forallb chain_ok (seqZ 0 127) = true.
Proof. vm_compute. reflexivity. Qed.

Lemma keywords_distinct : NoDup (map (fun kw => map UpperToLower (fst kw)) keywords).
Proof. apply (bool_decide_unpack _). vm_compute. exact I. Qed.

Record entry (i : Z) (name : list Z) (len off code : Z) : Prop := mkEntry {
  en_kw : aget keywords i = Some (name, code);
  en_len : aget aLen i = Some len;
  en_off : aget aOffset i = Some off;
  en_code : aget aCode i = Some code;
  en_name : drop (Z.to_nat off) zText = name ++ drop (length name) (drop (Z.to_nat off) zText);
  en_length : Z.of_nat (length name) = len;
  en_two : 2 <= len;
  en_str : cstr name }.

Lemma entry_get i : 0 <= i < 124 -> exists name len off code, entry i name len off code /\
  exists a b start l, aget name 0 = Some a /\ aget name (len - 1) = Some b /\
    aget aHash (hash a b len) = Some start /\ chain 125 (start - 1) = Some l /\ i ∈ l.
Proof.
  intros Hi. pose proof (seqZ_forallb _ _ _ keyword_entries_ok Hi) as H. unfold keyword_entry_ok in H.
  destruct (aget keywords i) as [[name code]|] eqn:Ek; [|done].
  destruct (aget aLen i) as [len|] eqn:El; [|done]. destruct (aget aOffset i) as [off|] eqn:Eo; [|done].
  destruct (aget aCode i) as [code'|] eqn:Ec; [|done].
  rewrite !andb_true_iff in H. destruct H as [[[[[[[H1 H2] H3] H4] H5] H6] H7] H8].
  apply bool_decide_eq_true in H1. apply Z.eqb_eq in H2 as <-. apply Z.eqb_eq in H3. apply Z.leb_le in H4, H5, H6.
  assert (forall (l : list Z) x, aget l i = Some x -> nth (Z.to_nat i) l 0 = x) as Hnth.
  { unfold aget. intros l x. rewrite decide_True by lia. intros Hx. by apply nth_lookup_Some with (d := 0) in Hx. }
  exists name, len, off, code. split.
  - split; try done.
    + unfold keyword_name in H1. rewrite (Hnth _ _ El), (Hnth _ _ Eo) in H1.
      rewrite <- (take_drop (length name) (drop (Z.to_nat off) zText)) at 1. f_equal.
      rewrite H1 at 2. f_equal. lia.
    + apply Forall_forall. intros c Hc. rewrite forallb_forall in H8. apply list_elem_of_In in Hc.
      apply H8, andb_true_iff in Hc as [?%Z.leb_le ?%Z.leb_le]. unfold ubits. simpl. lia.
  - destruct (aget name 0) as [a|] eqn:Ea; [|done]. destruct (aget name (len - 1)) as [b|] eqn:Eb; [|done].
    destruct (aget aHash (hash a b len)) as [start|] eqn:Es; [|done].
    destruct (chain 125 (start - 1)) as [l|] eqn:Ech; [|done].
    apply bool_decide_eq_true in H7. exists a, b, start, l. done.
Qed.

(** ** The loop searches the chain *)

Definition same (s name : list Z) : bool := bool_decide (map UpperToLower name = map UpperToLower s).

Lemma keyword_step s rest i name len off code :
  cstr s -> entry i name len off code ->
  exists cmp, (if len =? Z.of_nat (length s)
     then sqlite3_strnicmp (Z.to_nat (Z.of_nat (length s))) (drop (Z.to_nat off) zText) (s ++ rest)
     else Some 1) = Some cmp /\ (cmp =? 0) = same s name.
Proof.
  intros Hs [_ _ _ _ Hn Hl _ Hc]. rewrite Nat2Z.id. unfold same.
  destruct (Z.eqb_spec len (Z.of_nat (length s))) as [E|E].
  - rewrite Hn. destruct (strnicmp_spec name s (drop (length name) (drop (Z.to_nat off) zText)) rest Hc Hs) as (r & Hr & Hz); [lia|].
    replace (length s) with (length name) by lia. exists r. split; [done|].
    apply bool_iff. rewrite Z.eqb_eq, bool_decide_eq_true. done.
  - exists 1. split; [done|]. symmetry. apply bool_decide_eq_false. intros Heq.
    apply (f_equal length) in Heq. rewrite !length_map in Heq. lia.
Qed.

Lemma keyword_loop_chain s rest fuel : forall i l,
  cstr s -> chain fuel i = Some l -> Forall (fun i => 0 <= i < 124) l ->
  keyword_loop fuel (s ++ rest) (Z.of_nat (length s)) i =
  Some (match filter (fun i => from_option (fun kw => same s (fst kw)) false (aget keywords i) = true) l with
        | k :: _ => from_option snd TK_ID (aget keywords k)
        | [] => TK_ID
        end).
Proof.
  induction fuel as [|f IH]; intros i l Hs Hc Hl; [done|]. cbn [chain keyword_loop] in *.
  destruct (Z.ltb_spec i 0); [by injection Hc as <-|].
  destruct (aget aNext i) as [next|] eqn:En; [|done]. cbn [mbind option_bind] in Hc.
  destruct (chain f (next - 1)) as [l'|] eqn:Ec; [|done]. injection Hc as <-.
  apply Forall_cons in Hl as [Hi Hl]. destruct (entry_get i Hi) as (name & len & off & code & He & _).
  destruct (keyword_step s rest i name len off code Hs He) as (cmp & Hcmp & Hz).
  rewrite (en_len _ _ _ _ _ He). cbn [mbind option_bind]. rewrite (en_off _ _ _ _ _ He). cbn [mbind option_bind].
  rewrite Hcmp. cbn [mbind option_bind]. rewrite Hz, filter_cons, (en_kw _ _ _ _ _ He). cbn [from_option fst].
  destruct (same s name) eqn:Esame.
  - rewrite decide_True by done. rewrite (en_code _ _ _ _ _ He), (en_kw _ _ _ _ _ He). done.
  - rewrite decide_False by done. cbn [mbind option_bind]. by apply IH.
Qed.

(** ** The keyword a text spells *)

Definition keyword_spec (s : list Z) : Z :=
  match filter (fun kw => same s (fst kw) = true) keywords with
  | kw :: _ => snd kw
  | [] => TK_ID
  end.

Lemma same_spec s name : same s name = true <-> map UpperToLower name = map UpperToLower s.
Proof. apply bool_decide_eq_true. Qed.

Lemma keywords_index kw : kw ∈ keywords <-> exists i, 0 <= i < 124 /\ aget keywords i = Some kw.
Proof.
  split.
  - intros [j Hj]%list_elem_of_lookup. exists (Z.of_nat j). unfold aget. rewrite decide_True, Nat2Z.id by lia.
    split; [|done]. apply lookup_lt_Some in Hj. change (length keywords) with 124%nat in Hj. lia.
  - intros (i & Hi & Hg). unfold aget in Hg. rewrite decide_True in Hg by lia. eapply list_elem_of_lookup_2, Hg.
Qed.

(** At most one keyword is spelled by a text. *)
Lemma keyword_spec_unique s kw :
  kw ∈ keywords -> same s (fst kw) = true -> keyword_spec s = snd kw.
Proof.
  intros Hin Hs. unfold keyword_spec.
  destruct (filter (fun kw => same s (fst kw) = true) keywords) as [|kw' l] eqn:E.
  - exfalso. apply (not_elem_of_nil kw). rewrite <- E. by apply list_elem_of_filter.
  - assert (kw' ∈ filter (fun kw => same s (fst kw) = true) keywords) as Hin' by (rewrite E; constructor).
    apply list_elem_of_filter in Hin' as [Hs' Hin']. apply same_spec in Hs, Hs'.
    f_equal. rewrite <- Hs' in Hs. clear E Hs'.
    apply list_elem_of_lookup in Hin as [i Hi], Hin' as [j Hj].
    assert (i = j) as ->; [|congruence].
    eapply (NoDup_lookup _ i j _ keywords_distinct).
    + rewrite list_lookup_fmap, Hi. reflexivity.
    + rewrite list_lookup_fmap, Hj. simpl. by rewrite Hs.
Qed.

Lemma keyword_spec_none s :
  (forall kw, kw ∈ keywords -> same s (fst kw) = false) -> keyword_spec s = TK_ID.
Proof.
  intros H. unfold keyword_spec.
  destruct (filter (fun kw => same s (fst kw) = true) keywords) as [|kw l] eqn:E; [done|].
  assert (kw ∈ filter (fun kw => same s (fst kw) = true) keywords) as Hin by (rewrite E; constructor).
  apply list_elem_of_filter in Hin as [Hs Hin]. rewrite H in Hs by done. done.
Qed.

Lemma aget_map (f : Z -> Z) l i : aget (map f l) i = f <$> aget l i.
Proof. unfold aget. case_decide; [|done]. apply list_lookup_fmap. Qed.

Lemma hash_range a b n : is_byte a -> is_byte b -> 0 <= n -> 0 <= hash a b n < 127.
Proof.
  intros Ha%UpperToLower_range Hb%UpperToLower_range Hn. unfold ubits in *. unfold hash, charMap. apply Z.rem_bound_pos; [|lia].
  apply Z.lxor_nonneg. split; [by intros|]. intros _. apply Z.lxor_nonneg. lia.
Qed.

Lemma keywordCode_spec s rest : cstr s ->
  keywordCode (s ++ rest) (Z.of_nat (length s)) = Some (keyword_spec s).
Proof.
  intros Hs. unfold keywordCode. destruct (Z.ltb_spec (Z.of_nat (length s)) 2) as [Hn|Hn].
  { f_equal. symmetry. apply keyword_spec_none. intros kw (i & Hi & Hg)%keywords_index.
    destruct (entry_get i Hi) as (name & len & off & code & He & _).
    rewrite (en_kw _ _ _ _ _ He) in Hg. injection Hg as <-. apply bool_decide_eq_false. simpl.
    intros Hsame%(f_equal length). rewrite !length_map in Hsame.
    pose proof (en_length _ _ _ _ _ He). pose proof (en_two _ _ _ _ _ He). lia. }
  destruct (aget_is_Some s 0) as [a Ha]; [lia|]. destruct (aget_is_Some s (Z.of_nat (length s) - 1)) as [b Hb]; [lia|].
  assert (forall i x, aget s i = Some x -> aget (s ++ rest) i = Some x) as Happ.
  { unfold aget. intros i x. case_decide; [|done]. apply lookup_app_l_Some. }
  rewrite (Happ _ _ Ha). cbn [mbind option_bind]. rewrite (Happ _ _ Hb). cbn [mbind option_bind].
  fold (hash a b (Z.of_nat (length s))).
  pose proof (aget_Forall _ _ _ _ Hs Ha) as [Hba _]. pose proof (aget_Forall _ _ _ _ Hs Hb) as [Hbb _].
  pose proof (seqZ_forallb _ _ _ chains_ok (hash_range a b (Z.of_nat (length s)) Hba Hbb ltac:(lia))) as Hch.
  unfold chain_ok in Hch. destruct (aget aHash (hash a b (Z.of_nat (length s)))) as [start|] eqn:Est; [|done].
  destruct (chain 125 (start - 1)) as [l|] eqn:El; [|done]. cbn [mbind option_bind].
  assert (Forall (fun i => 0 <= i < 124) l) as Hl.
  { apply Forall_forall. intros i Hi. rewrite forallb_forall in Hch. apply list_elem_of_In in Hi.
    apply Hch, andb_true_iff in Hi as [?%Z.leb_le ?%Z.ltb_lt]. lia. }
  rewrite (keyword_loop_chain s rest 125 (start - 1) l Hs El Hl). f_equal.
  set (P := fun i => from_option (fun kw => same s (fst kw)) false (aget keywords i) = true).
  destruct (filter P l) as [|k ks] eqn:Ef.
  - symmetry. apply keyword_spec_none. intros kw (i & Hi & Hg)%keywords_index.
    destruct (same s (fst kw)) eqn:Esame; [|done]. exfalso.
    destruct (entry_get i Hi) as (name & len & off & code & He & a' & b' & st & l' & Ha' & Hb' & Hst & Hl' & Hin).
    rewrite (en_kw _ _ _ _ _ He) in Hg. injection Hg as <-. simpl in Esame. pose proof Esame as Hsm%same_spec.
    assert (len = Z.of_nat (length s)) as ->.
    { rewrite <- (en_length _ _ _ _ _ He). f_equal. apply (f_equal length) in Hsm. by rewrite !length_map in Hsm. }
    assert (hash a' b' (Z.of_nat (length s)) = hash a b (Z.of_nat (length s))) as Hh.
    { unfold hash, charMap. do 2 f_equal. f_equal; f_equal.
      - apply (f_equal (fun l => aget l 0)) in Hsm. rewrite !aget_map, Ha, Ha' in Hsm. by injection Hsm.
      - apply (f_equal (fun l => aget l (Z.of_nat (length s) - 1))) in Hsm. rewrite !aget_map, Hb, Hb' in Hsm. by injection Hsm. }
    rewrite Hh, Est in Hst. injection Hst as <-. rewrite El in Hl'. injection Hl' as <-.
    apply (not_elem_of_nil i). rewrite <- Ef. apply list_elem_of_filter. split; [|done].
    unfold P. rewrite (en_kw _ _ _ _ _ He). done.
  - assert (k ∈ filter P l) as Hk by (rewrite Ef; constructor).
    apply list_elem_of_filter in Hk as [Hp Hk]. unfold P in Hp.
    destruct (aget keywords k) as [kw|] eqn:Ek; [|done]. symmetry. apply keyword_spec_unique; [|done].
    apply keywords_index. exists k. split; [|done]. rewrite Forall_forall in Hl. by apply Hl.
Qed.

(** ** Properties *)

(** C28. Keyword recognition is exact: for every text, keywordCode returns the
    token code of the keyword of SQL that it spells up to case, and TK_ID when
    it spells none; its table walk ends and stays inside the tables. *)
Theorem keywordCode_correct s rest :
  cstr s -> keywordCode (s ++ rest) (Z.of_nat (length s)) = Some (keyword_spec s) /\
  (forall name code, (name, code) ∈ keywords -> map lower name = map lower s -> keyword_spec s = code) /\
  ((forall name code, (name, code) ∈ keywords -> map lower name <> map lower s) -> keyword_spec s = TK_ID).
Proof.
  intros Hs. assert (forall kw, kw ∈ keywords -> same s (fst kw) = true <-> map lower (fst kw) = map lower s) as Hsame.
  { intros kw (i & Hi & Hg)%keywords_index. destruct (entry_get i Hi) as (name & len & off & code & He & _).
    rewrite (en_kw _ _ _ _ _ He) in Hg. injection Hg as <-. rewrite same_spec. simpl.
    by rewrite !map_UpperToLower by (done || apply He). }
  split_and!; [by apply keywordCode_spec| |].
  - intros name code Hin Heq. apply (keyword_spec_unique s (name, code)); [done|]. by apply Hsame.
  - intros H. apply keyword_spec_none. intros [name code] Hin.
    destruct (same s name) eqn:E; [|done]. exfalso. apply (H name code Hin), (Hsame (name, code)); done.
Qed.

Lemma keywordCode_correct_witness :
  keywordCode (str "Select * from t") 6 = Some TK_SELECT /\ keywordCode (str "selects") 7 = Some TK_ID.
Proof.
  split.
  - destruct (keywordCode_correct (str "Select") (str " * from t")) as (H & _ & _).
    + repeat constructor; vm_compute; done.
    + etransitivity; [exact H|vm_compute; reflexivity].
  - destruct (keywordCode_correct (str "selects") []) as (H & _ & _).
    + repeat constructor; vm_compute; done.
    + etransitivity; [exact H|vm_compute; reflexivity].
Defined.
