(* ===== verification/Token.v ===== *)
(** * Token: the SQL tokenizer (sqlite3GetToken of tokenize.c)

    A pointer into the zero-terminated text is the list of bytes from there on;
    reading past the end of the list is undefined ([None]). *)
From Stdlib Require Import String Ascii.
From S2P Require Import Prelude Ctype Keyword Atoi.

(** for(; P(z[i]); i++){}: the index reached and the text from there. *)
Fixpoint scan (P : Z -> bool) (z : list Z) (i : Z) : option (Z * list Z) :=
  match z with
  | [] => None
  | c :: z' => if P c then scan P z' (i + 1) else Some (i, z)
  end.

(** for(; (c!='*' || z[i]!='/') && (c=z[i])!=0; i++){}; the final c and i *)
Fixpoint scan_comment (c : Z) (z : list Z) (i : Z) : option (Z * Z) :=
  match z with
  | [] => None
  | d :: z' =>
      if (c =? 42) && (d =? 47) then Some (c, i)
      else if d =? 0 then Some (d, i)
      else scan_comment d z' (i + 1)
  end.

(** The body of a quoted token: the final c and i *)
Fixpoint scan_quoted (delim : Z) (z : list Z) (i : Z) : option (Z * Z) :=
  match z with
  | [] => None
  | c :: z' =>
      if c =? 0 then Some (c, i)
      else if c =? delim then
        match z' with
        | [] => None
        | d :: z'' => if d =? delim then scan_quoted delim z'' (i + 2) else Some (c, i)
        end
      else scan_quoted delim z' (i + 1)
  end.

(** for(; c!=']' && (c=z[i])!=0; i++){}; the final c and i *)
Fixpoint scan_bracket (c : Z) (z : list Z) (i : Z) : option (Z * Z) :=
  if c =? 93 then Some (c, i)
  else
    match z with
    | [] => None
    | d :: z' => if d =? 0 then Some (d, i) else scan_bracket d z' (i + 1)
    end.

(** The name of a variable: i, n, and whether the token is illegal *)
Fixpoint scan_variable (z : list Z) (i n : Z) : option (Z * Z * bool) :=
  match z with
  | [] => None
  | c :: z' =>
      if c =? 0 then Some (i, n, false)
      else if IdChar c then scan_variable z' (i + 1) (n + 1)
      else if (c =? 40) && (0 <? n) then
        '(i, z) ← scan (fun c => negb (c =? 0) && negb (sqlite3Isspace c) && negb (c =? 41)) z' (i + 1);
        c ← aget z 0;
        Some (if c =? 41 then (i + 1, n, false) else (i, n, true))
      else if c =? 58 then
        match z' with
        | [] => None
        | d :: z'' => if d =? 58 then scan_variable z'' (i + 2) n else Some (i, n, false)
        end
      else Some (i, n, false)
  end.

(** Lines for numbers, from the first digit (or the point) on. *)
Definition get_number (z : list Z) : option (Z * Z) :=
  '(i, z) ← scan sqlite3Isdigit z 0;
  c ← aget z 0;
  '(i, z, type) ←
    (if c =? 46 then '(i, z) ← scan sqlite3Isdigit (drop 1 z) (i + 1); Some (i, z, TK_FLOAT)
     else Some (i, z, TK_INTEGER));
  c ← aget z 0;
  exponent ←
    (if (c =? 101) || (c =? 69) then
       d ← aget z 1;
       if sqlite3Isdigit d then Some true
       else if (d =? 43) || (d =? 45) then e ← aget z 2; Some (sqlite3Isdigit e)
       else Some false
     else Some false);
  '(i, z, type) ←
    (if exponent : bool then '(i, z) ← scan sqlite3Isdigit (drop 2 z) (i + 2); Some (i, z, TK_FLOAT)
     else Some (i, z, type));
  '(j, z) ← scan IdChar z i;
  Some (j, if i =? j then type else TK_ILLEGAL).

(** The identifier or keyword at z. *)
Definition get_word (z : list Z) : option (Z * Z) :=
  c ← aget z 0;
  if negb (IdChar c) then Some (1, TK_ILLEGAL)
  else
    '(i, _) ← scan IdChar (drop 1 z) 1;
    type ← keywordCode z i;
    Some (i, type).

(** A blob literal, after x' *)
Definition get_blob (z : list Z) : option (Z * Z) :=
  '(i, z) ← scan sqlite3Isxdigit (drop 2 z) 2;
  c ← aget z 0;
  '(i, z, type) ←
    (if negb (c =? 39) || negb (Z.rem i 2 =? 0) then
       '(i, z) ← scan (fun c => negb (c =? 0) && negb (c =? 39)) z i;
       Some (i, z, TK_ILLEGAL)
     else Some (i, z, TK_BLOB));
  c ← aget z 0;
  Some (if c =? 0 then i else i + 1, type).

(** Tokens of one character. *)
Definition single (c : Z) : option Z :=
  if c =? 40 then Some TK_LP else if c =? 41 then Some TK_RP
  else if c =? 59 then Some TK_SEMI else if c =? 43 then Some TK_PLUS
  else if c =? 42 then Some TK_STAR else if c =? 37 then Some TK_REM
  else if c =? 44 then Some TK_COMMA else if c =? 38 then Some TK_BITAND
  else if c =? 126 then Some TK_BITNOT else None.

(** The length of the token at z[0] and its type. *)
Definition sqlite3GetToken (z : list Z) : option (Z * Z) :=
  c ← aget z 0;
  if (c =? 32) || (c =? 9) || (c =? 10) || (c =? 12) || (c =? 13) then
    '(i, _) ← scan sqlite3Isspace (drop 1 z) 1;
    Some (i, TK_SPACE)
  else if c =? 45 then
    d ← aget z 1;
    if d =? 45 then
      '(i, _) ← scan (fun c => negb (c =? 0) && negb (c =? 10)) (drop 2 z) 2;
      Some (i, TK_SPACE)
    else Some (1, TK_MINUS)
  else if c =? 47 then
    d ← aget z 1;
    if negb (d =? 42) then Some (1, TK_SLASH)
    else
      e ← aget z 2;
      if e =? 0 then Some (1, TK_SLASH)
      else
        '(c, i) ← scan_comment e (drop 3 z) 3;
        Some (if c =? 0 then i else i + 1, TK_SPACE)
  else if c =? 61 then
    d ← aget z 1; Some (if d =? 61 then 2 else 1, TK_EQ)
  else if c =? 60 then
    d ← aget z 1;
    Some (if d =? 61 then (2, TK_LE) else if d =? 62 then (2, TK_NE)
          else if d =? 60 then (2, TK_LSHIFT) else (1, TK_LT))
  else if c =? 62 then
    d ← aget z 1;
    Some (if d =? 61 then (2, TK_GE) else if d =? 62 then (2, TK_RSHIFT) else (1, TK_GT))
  else if c =? 33 then
    d ← aget z 1; Some (if negb (d =? 61) then (2, TK_ILLEGAL) else (2, TK_NE))
  else if c =? 124 then
    d ← aget z 1; Some (if negb (d =? 124) then (1, TK_BITOR) else (2, TK_CONCAT))
  else if (c =? 96) || (c =? 39) || (c =? 34) then
    '(e, i) ← scan_quoted c (drop 1 z) 1;
    Some (if e =? 39 then (i + 1, TK_STRING) else if negb (e =? 0) then (i + 1, TK_ID) else (i, TK_ILLEGAL))
  else if c =? 46 then
    d ← aget z 1;
    if negb (sqlite3Isdigit d) then Some (1, TK_DOT) else get_number z
  else if (48 <=? c) && (c <=? 57) then get_number z
  else if c =? 91 then
    '(e, i) ← scan_bracket c (drop 1 z) 1;
    Some (i, if e =? 93 then TK_ID else TK_ILLEGAL)
  else if c =? 63 then
    '(i, _) ← scan sqlite3Isdigit (drop 1 z) 1;
    Some (i, TK_VARIABLE)
  else if (c =? 36) || (c =? 64) || (c =? 35) || (c =? 58) then
    '(i, n, bad) ← scan_variable (drop 1 z) 1 0;
    Some (i, if (bad : bool) || (n =? 0) then TK_ILLEGAL else TK_VARIABLE)
  else if (c =? 120) || (c =? 88) then
    d ← aget z 1;
    if d =? 39 then get_blob z else get_word z
  else
    match single c with
    | Some type => Some (1, type)
    | None => get_word z
    end.

Example get_token_tests :
  map (fun s => sqlite3GetToken (str s ++ [0]))
    ["select x"; "12.5e+3)"; "x'0fA'"; "x'0f'"; "'it''s' y"; "-- c"; "/* c */ x"; "/* c"; "$a(b)"; "$a::b;"; "!"; "[a b]c"; "..5"; ".5"; "12ab"]%string
  = [Some (6, TK_SELECT); Some (7, TK_FLOAT); Some (6, TK_ILLEGAL); Some (5, TK_BLOB); Some (7, TK_STRING); Some (4, TK_SPACE);
     Some (7, TK_SPACE); Some (4, TK_SPACE); Some (5, TK_VARIABLE); Some (5, TK_VARIABLE); Some (2, TK_ILLEGAL); Some (5, TK_ID); Some (1, TK_DOT);
     Some (2, TK_FLOAT); Some (4, TK_ILLEGAL)].
Proof. vm_compute. reflexivity. Qed.

(** ** The scanning loops stay inside the text *)

Section Scans.
Context (rest : list Z).

Lemma scan_ok P s : forall i, P 0 = false ->
  exists s1 s2, s = s1 ++ s2 /\ Forall (fun c => P c = true) s1 /\
    match s2 with [] => True | c :: _ => P c = false end /\
    scan P (s ++ 0 :: rest) i = Some (i + Z.of_nat (length s1), s2 ++ 0 :: rest).
Proof.
  intros i H0. revert i. induction s as [|c s IH]; intros i; cbn [scan app].
  - exists [], []. rewrite H0. split_and!; [done..|]. simpl. by rewrite Z.add_0_r.
  - destruct (P c) eqn:E.
    + destruct (IH (i + 1)) as (s1 & s2 & -> & H1 & H2 & ->). exists (c :: s1), s2.
      split_and!; [done|by constructor|done|]. do 2 f_equal. simpl. lia.
    + exists [], (c :: s). split_and!; [done..|]. simpl. by rewrite Z.add_0_r.
Qed.

Lemma scan_comment_ok s : forall c i, cstr s -> c <> 0 ->
  exists c' i', scan_comment c (s ++ 0 :: rest) i = Some (c', i') /\
    i <= i' /\ (if c' =? 0 then i' = i + Z.of_nat (length s) else i' < i + Z.of_nat (length s)).
Proof.
  induction s as [|d s IH]; intros c i Hs Hc; cbn [scan_comment app length].
  - rewrite andb_false_r. exists 0, i. simpl. split_and!; [done|lia|lia].
  - apply cstr_cons in Hs as [[_ Hd] Hs]. destruct ((c =? 42) && (d =? 47)).
    + exists c, i. rewrite (proj2 (Z.eqb_neq c 0)) by done. split_and!; [done|lia|lia].
    + rewrite (proj2 (Z.eqb_neq d 0)) by done. destruct (IH d (i + 1) Hs Hd) as (c' & i' & -> & H1 & H2).
      exists c', i'. split_and!; [done|lia|]. destruct (c' =? 0); lia.
Qed.

Lemma scan_quoted_ok delim s : forall i, cstr s -> delim <> 0 ->
  exists c i', scan_quoted delim (s ++ 0 :: rest) i = Some (c, i') /\ i <= i' /\
    (if c =? 0 then i' = i + Z.of_nat (length s) else c = delim /\ i' < i + Z.of_nat (length s)).
Proof.
  induction s as [s IH] using (induction_ltof1 _ (@length Z)). unfold ltof in IH.
  intros i Hs Hd. destruct s as [|c s]; cbn [scan_quoted app length].
  - exists 0, i. simpl. split_and!; [done|lia|lia].
  - apply cstr_cons in Hs as [[_ Hc] Hs]. rewrite (proj2 (Z.eqb_neq c 0)) by done.
    destruct (Z.eqb_spec c delim) as [-> |Hne].
    + destruct s as [|d s]; cbn [app].
      * rewrite (proj2 (Z.eqb_neq 0 delim)) by done. exists delim, i. rewrite (proj2 (Z.eqb_neq delim 0)) by done.
        split_and!; [done|lia|done|simpl; lia].
      * apply cstr_cons in Hs as [[_ Hdz] Hs]. destruct (Z.eqb_spec d delim).
        -- destruct (IH s ltac:(simpl; lia) (i + 2) Hs Hd) as (c' & i' & -> & H1 & H2).
           exists c', i'. split_and!; [done|lia|]. destruct (c' =? 0); simpl; lia.
        -- exists delim, i. rewrite (proj2 (Z.eqb_neq delim 0)) by done. split_and!; [done|lia|done|simpl; lia].
    + destruct (IH s ltac:(simpl; lia) (i + 1) Hs Hd) as (c' & i' & -> & H1 & H2).
      exists c', i'. split_and!; [done|lia|]. destruct (c' =? 0); simpl; lia.
Qed.

Lemma scan_bracket_ok s : forall c i, cstr s ->
  exists c' i', scan_bracket c (s ++ 0 :: rest) i = Some (c', i') /\ i <= i' <= i + Z.of_nat (length s).
Proof.
  induction s as [|d s IH]; intros c i Hs; cbn [scan_bracket app length].
  - destruct (c =? 93); do 2 eexists; (split; [reflexivity|simpl; lia]).
  - apply cstr_cons in Hs as [[_ Hd] Hs]. destruct (c =? 93); [do 2 eexists; split; [reflexivity|lia]|].
    rewrite (proj2 (Z.eqb_neq d 0)) by done. destruct (IH d (i + 1) Hs) as (c' & i' & -> & H).
    do 2 eexists. split; [reflexivity|lia].
Qed.

Lemma scan_variable_ok s : forall i n, cstr s ->
  exists i' n' b, scan_variable (s ++ 0 :: rest) i n = Some (i', n', b) /\ i <= i' <= i + Z.of_nat (length s).
Proof.
  induction s as [s IH] using (induction_ltof1 _ (@length Z)). unfold ltof in IH.
  intros i n Hs. destruct s as [|c s]; cbn [scan_variable app length].
  - do 3 eexists. split; [reflexivity|simpl; lia].
  - apply cstr_cons in Hs as [[_ Hc] Hs]. rewrite (proj2 (Z.eqb_neq c 0)) by done.
    destruct (IdChar c); [|destruct ((c =? 40) && (0 <? n)); [|destruct (Z.eqb_spec c 58) as [-> |]]].
    + destruct (IH s ltac:(simpl; lia) (i + 1) (n + 1) Hs) as (i' & n' & b & -> & H). do 3 eexists. split; [reflexivity|lia].
    + destruct (scan_ok (fun c => negb (c =? 0) && negb (sqlite3Isspace c) && negb (c =? 41)) s (i + 1) eq_refl)
        as (s1 & s2 & -> & _ & _ & ->). cbn [mbind option_bind]. rewrite length_app.
      destruct s2 as [|e s2]; cbn [app].
      * change (aget (0 :: rest) 0) with (Some 0). cbn [mbind option_bind Z.eqb]. do 3 eexists. split; [reflexivity|simpl; lia].
      * change (aget (e :: s2 ++ 0 :: rest) 0) with (Some e). cbn [mbind option_bind].
        destruct (e =? 41); do 3 eexists; (split; [reflexivity|simpl; lia]).
    + destruct s as [|d s]; cbn [app]; [do 3 eexists; split; [reflexivity|simpl; lia]|].
      apply cstr_cons in Hs as [_ Hs].
      destruct (d =? 58); [|do 3 eexists; split; [reflexivity|simpl; lia]].
      destruct (IH s ltac:(simpl; lia) (i + 2) n Hs) as (i' & n' & b & -> & H). do 3 eexists. split; [reflexivity|simpl; lia].
    + do 3 eexists. split; [reflexivity|lia].
Qed.

(** The byte at an index that is at most one past the text. *)
Lemma text_get s : exists c, aget (s ++ 0 :: rest) 0 = Some c /\ match s with [] => c = 0 | x :: _ => c = x end.
Proof. destruct s; eexists; split; reflexivity. Qed.

Lemma text_get1 c s : exists d, aget (c :: s ++ 0 :: rest) 1 = Some d /\ match s with [] => d = 0 | x :: _ => d = x end.
Proof. destruct s; eexists; split; reflexivity. Qed.
End Scans.

(** ** Every token lies inside the text *)

Lemma cstr_app a b : cstr (a ++ b) <-> cstr a /\ cstr b.
Proof. apply Forall_app. Qed.

Section Number.
Context (rest : list Z).

(** A scan from position [i] moves over a part of what is left of the text. *)
Lemma scan_pos P s i : P 0 = false -> cstr s ->
  exists i' s', scan P (s ++ 0 :: rest) i = Some (i', s' ++ 0 :: rest) /\
    i' + Z.of_nat (length s') = i + Z.of_nat (length s) /\ cstr s' /\ i <= i' /\
    (match s with c :: _ => P c = true -> i < i' | [] => True end) /\
    match s' with c :: _ => P c = false | [] => True end.
Proof.
  intros H0 Hs. destruct (scan_ok rest P s i H0) as (s1 & s2 & -> & H1 & H2 & ->). rewrite length_app.
  apply cstr_app in Hs as [_ Hs2]. do 2 eexists. split; [reflexivity|]. split_and!; [lia|done|lia| |done].
  destruct s1 as [|c s1]; [|simpl; lia]. destruct s2; [done|]. simpl in *. congruence.
Qed.

Lemma fraction_ok s i c : cstr s -> aget (s ++ 0 :: rest) 0 = Some c ->
  exists i' s' type,
    (if c =? 46 then '(i, z) ← scan sqlite3Isdigit (drop 1 (s ++ 0 :: rest)) (i + 1); Some (i, z, TK_FLOAT)
     else Some (i, s ++ 0 :: rest, TK_INTEGER)) = Some (i', s' ++ 0 :: rest, type) /\
    i' + Z.of_nat (length s') = i + Z.of_nat (length s) /\ cstr s' /\ i <= i' /\ (c = 46 -> i < i').
Proof.
  intros Hs Hc. destruct (Z.eqb_spec c 46) as [-> |Hne].
  - destruct s as [|d s]; [done|]. apply cstr_cons in Hs as [_ Hs]. change (drop 1 ((d :: s) ++ 0 :: rest)) with (s ++ 0 :: rest).
    destruct (scan_pos sqlite3Isdigit s (i + 1) eq_refl Hs) as (i' & s' & -> & H1 & H2 & H3 & _).
    do 3 eexists. split; [reflexivity|]. split_and!; [simpl; lia|done|lia|lia].
  - do 3 eexists. split; [reflexivity|]. split_and!; [lia|done|lia|done].
Qed.

Lemma exponent_ok s c : aget (s ++ 0 :: rest) 0 = Some c ->
  exists b : bool,
    (if (c =? 101) || (c =? 69) then
       d ← aget (s ++ 0 :: rest) 1;
       if sqlite3Isdigit d then Some true
       else if (d =? 43) || (d =? 45) then e ← aget (s ++ 0 :: rest) 2; Some (sqlite3Isdigit e)
       else Some false
     else Some false) = Some b /\ (b = true -> (2 <= length s)%nat).
Proof.
  intros Hc. destruct ((c =? 101) || (c =? 69)) eqn:E; [|by exists false].
  destruct s as [|x [|d s]].
  - injection Hc as <-. done.
  - exists false. done.
  - change (aget ((x :: d :: s) ++ 0 :: rest) 1) with (Some d). cbn [mbind option_bind].
    destruct (sqlite3Isdigit d); [exists true; split; [done|simpl; lia]|].
    destruct ((d =? 43) || (d =? 45)); [|by exists false].
    destruct s as [|e s]; eexists; (split; [reflexivity|simpl; lia]).
Qed.

Lemma get_number_ok c s : cstr (c :: s) -> sqlite3Isdigit c = true \/ c = 46 ->
  exists n type, get_number (c :: s ++ 0 :: rest) = Some (n, type) /\ 1 <= n <= Z.of_nat (length (c :: s)).
Proof.
  intros Hs Hc. unfold get_number.
  destruct (scan_pos sqlite3Isdigit (c :: s) 0 eq_refl Hs) as (i1 & s1 & He1 & HL1 & Hs1 & Hi1 & Hlt & _).
  cbn [app] in He1. rewrite He1. cbn [mbind option_bind].
  destruct (text_get rest s1) as (c1 & Hc1 & Hcc). rewrite Hc1. cbn [mbind option_bind].
  destruct (fraction_ok s1 i1 c1 Hs1 Hc1) as (i2 & s2 & ty & -> & HL2 & Hs2 & Hi2 & Hdot). cbn [mbind option_bind].
  assert (1 <= i2) as H1.
  { destruct Hc as [Hc| ->]; [specialize (Hlt Hc); lia|]. destruct (decide (i1 = 0)) as [-> |]; [|lia].
    assert (s1 = 46 :: s) as ->; [|simpl in Hcc; specialize (Hdot Hcc); lia].
    cbn [scan] in He1. injection He1 as He1. change (46 :: s ++ 0 :: rest) with ((46 :: s) ++ 0 :: rest) in He1.
    by apply app_inv_tail in He1. }
  destruct (text_get rest s2) as (c2 & Hc2 & _). rewrite Hc2. cbn [mbind option_bind].
  destruct (exponent_ok s2 c2 Hc2) as (b & -> & Hb). cbn [mbind option_bind].
  assert (exists i3 s3 ty3,
    (if b then '(i, z) ← scan sqlite3Isdigit (drop 2 (s2 ++ 0 :: rest)) (i2 + 2); Some (i, z, TK_FLOAT)
     else Some (i2, s2 ++ 0 :: rest, ty)) = Some (i3, s3 ++ 0 :: rest, ty3) /\
    i3 + Z.of_nat (length s3) = i2 + Z.of_nat (length s2) /\ cstr s3 /\ i2 <= i3) as (i3 & s3 & ty3 & -> & HL3 & Hs3 & Hi3).
  { destruct b; [|do 3 eexists; split; [reflexivity|]; split_and!; (done || lia)].
    specialize (Hb eq_refl). destruct s2 as [|x [|y s2]]; [simpl in Hb; lia..|].
    apply cstr_cons in Hs2 as [_ [_ Hs2]%cstr_cons]. change (drop 2 ((x :: y :: s2) ++ 0 :: rest)) with (s2 ++ 0 :: rest).
    destruct (scan_pos sqlite3Isdigit s2 (i2 + 2) eq_refl Hs2) as (i' & s' & -> & ? & ? & ? & _).
    do 3 eexists. split; [reflexivity|]. split_and!; [simpl; lia|done|lia]. }
  cbn [mbind option_bind].
  destruct (scan_pos IdChar s3 i3 eq_refl Hs3) as (i4 & s4 & -> & HL4 & _ & Hi4 & _). cbn [mbind option_bind].
  do 2 eexists. split; [reflexivity|]. simpl in *. lia.
Qed.

Lemma get_word_ok c s : cstr (c :: s) ->
  exists n type, get_word (c :: s ++ 0 :: rest) = Some (n, type) /\ 1 <= n <= Z.of_nat (length (c :: s)).
Proof.
  intros Hs. unfold get_word. change (aget (c :: ?r) 0) with (Some c). cbn [mbind option_bind].
  destruct (negb (IdChar c)); [do 2 eexists; split; [reflexivity|simpl; lia]|].
  change (drop 1 (c :: ?r)) with r.
  destruct (scan_ok rest IdChar s 1 eq_refl) as (s1 & s2 & -> & _ & _ & ->). cbn [mbind option_bind].
  replace (1 + Z.of_nat (length s1)) with (Z.of_nat (length (c :: s1))) by (simpl; lia).
  replace (c :: (s1 ++ s2) ++ 0 :: rest) with ((c :: s1) ++ s2 ++ 0 :: rest) by (simpl; by rewrite app_assoc).
  rewrite keywordCode_spec by (change (c :: s1 ++ s2) with ((c :: s1) ++ s2) in Hs; by apply cstr_app in Hs as [? _]).
  cbn [mbind option_bind]. do 2 eexists. split; [reflexivity|]. simpl. rewrite length_app. lia.
Qed.

Lemma get_blob_ok c d s : cstr s ->
  exists n type, get_blob (c :: d :: s ++ 0 :: rest) = Some (n, type) /\ 2 <= n <= 2 + Z.of_nat (length s).
Proof.
  intros Hs. unfold get_blob. change (drop 2 (c :: d :: ?r)) with r.
  destruct (scan_pos sqlite3Isxdigit s 2 eq_refl Hs) as (i1 & s1 & -> & HL1 & Hs1 & Hi1 & _). cbn [mbind option_bind].
  destruct (text_get rest s1) as (c1 & -> & Hc1). cbn [mbind option_bind].
  assert (exists i2 s2 ty,
    (if negb (c1 =? 39) || negb (Z.rem i1 2 =? 0) then
       '(i, z) ← scan (fun c => negb (c =? 0) && negb (c =? 39)) (s1 ++ 0 :: rest) i1; Some (i, z, TK_ILLEGAL)
     else Some (i1, s1 ++ 0 :: rest, TK_BLOB)) = Some (i2, s2 ++ 0 :: rest, ty) /\
    i2 + Z.of_nat (length s2) = i1 + Z.of_nat (length s1) /\ i1 <= i2 /\ cstr s2) as (i2 & s2 & ty & -> & HL2 & Hi2 & Hs2).
  { destruct (negb (c1 =? 39) || negb (Z.rem i1 2 =? 0)).
    - destruct (scan_pos (fun c => negb (c =? 0) && negb (c =? 39)) s1 i1 eq_refl Hs1) as (i' & s' & -> & ? & ? & ? & _).
      do 3 eexists. split; [reflexivity|]. done.
    - do 3 eexists. split; [reflexivity|]. split_and!; (done || lia). }
  cbn [mbind option_bind]. destruct (text_get rest s2) as (c2 & -> & Hc2). cbn [mbind option_bind].
  do 2 eexists. split; [reflexivity|]. destruct s2 as [|x s2]; subst c2; simpl.
  - simpl in *. lia.
  - apply cstr_cons in Hs2 as [[_ Hx] _]. rewrite (proj2 (Z.eqb_neq x 0)) by done. simpl in *. lia.
Qed.
End Number.

(** The token lengths of sqlite3GetToken; "!" at the end of the text is the
    one token that claims the terminator. *)
Lemma getToken_ok s rest : cstr s -> s <> [] ->
  exists n type, sqlite3GetToken (s ++ 0 :: rest) = Some (n, type) /\ 1 <= n /\
    (n <= Z.of_nat (length s) \/ s = [33] /\ n = 2 /\ type = TK_ILLEGAL).
Proof.
  intros Hs Hne. destruct s as [|c s]; [done|]. cbn [app].
  assert (forall r, (exists n type, r = Some (n, type) /\ 1 <= n <= Z.of_nat (length (c :: s))) ->
    exists n type, r = Some (n, type) /\ 1 <= n /\ (n <= Z.of_nat (length (c :: s)) \/ c :: s = [33] /\ n = 2 /\ type = TK_ILLEGAL)) as Hlift.
  { intros r (n & ty & -> & ?). exists n, ty. split_and!; [done|lia|left; lia]. }
  pose proof (text_get1 rest c s) as (d & Hd & Hds). pose proof Hs as [[_ Hc0] Hs']%cstr_cons.
  assert (1 <= Z.of_nat (length (c :: s))) as H1 by (simpl; lia).
  assert (d <> 0 -> 2 <= Z.of_nat (length (c :: s))) as H2 by (destruct s; simpl; [congruence|lia]).
  unfold sqlite3GetToken. change (aget (c :: ?r) 0) with (Some c). change (drop 1 (c :: ?r)) with r. cbn [mbind option_bind].
  destruct ((c =? 32) || (c =? 9) || (c =? 10) || (c =? 12) || (c =? 13)).
  { apply Hlift. destruct (scan_pos rest sqlite3Isspace s 1 eq_refl Hs') as (i & s1 & -> & HL & _ & Hi & _).
    do 2 eexists. split; [reflexivity|simpl; lia]. }
  rewrite Hd. cbn [mbind option_bind].
  destruct (c =? 45).
  { apply Hlift. destruct (Z.eqb_spec d 45) as [E|_]; [|do 2 eexists; split; [reflexivity|lia]].
    destruct s as [|x s]; [congruence|]. apply cstr_cons in Hs' as [_ Hs'].
    change (drop 2 (c :: (x :: s) ++ 0 :: rest)) with (s ++ 0 :: rest).
    destruct (scan_pos rest (fun c => negb (c =? 0) && negb (c =? 10)) s 2 eq_refl Hs') as (i & s1 & -> & HL & _ & Hi & _).
    do 2 eexists. split; [reflexivity|simpl; lia]. }
  destruct (c =? 47).
  { apply Hlift. destruct (Z.eqb_spec d 42) as [E|_]; cbn [negb]; [|do 2 eexists; split; [reflexivity|lia]].
    destruct s as [|x s]; [congruence|]. apply cstr_cons in Hs' as [_ Hs'].
    destruct s as [|y s]; [do 2 eexists; split; [reflexivity|simpl; lia]|].
    change (aget (c :: (x :: y :: s) ++ 0 :: rest) 2) with (Some y). cbn [mbind option_bind].
    apply cstr_cons in Hs' as [[_ Hy] Hs']. rewrite (proj2 (Z.eqb_neq y 0)) by done.
    change (drop 3 (c :: (x :: y :: s) ++ 0 :: rest)) with (s ++ 0 :: rest).
    destruct (scan_comment_ok rest s y 3 Hs' Hy) as (c' & i' & -> & Hi & Hi'). cbn [mbind option_bind].
    do 2 eexists. split; [reflexivity|]. destruct (c' =? 0); simpl; lia. }
  destruct (c =? 61).
  { apply Hlift. do 2 eexists. split; [reflexivity|]. destruct (Z.eqb_spec d 61); lia. }
  destruct (c =? 60).
  { apply Hlift. destruct (Z.eqb_spec d 61), (Z.eqb_spec d 62), (Z.eqb_spec d 60); do 2 eexists; (split; [reflexivity|lia]). }
  destruct (c =? 62).
  { apply Hlift. destruct (Z.eqb_spec d 61), (Z.eqb_spec d 62); do 2 eexists; (split; [reflexivity|lia]). }
  destruct (Z.eqb_spec c 33) as [-> |_].
  { destruct s as [|x s]; [subst d; do 2 eexists; split; [reflexivity|]; split; [lia|by right]|].
    apply Hlift. destruct (d =? 61); do 2 eexists; (split; [reflexivity|simpl; lia]). }
  destruct (c =? 124).
  { apply Hlift. destruct (Z.eqb_spec d 124); do 2 eexists; (split; [reflexivity|lia]). }
  destruct ((c =? 96) || (c =? 39) || (c =? 34)).
  { apply Hlift. destruct (scan_quoted_ok rest c s 1 Hs' Hc0) as (e & i & -> & Hi & Hi'). cbn [mbind option_bind].
    destruct (Z.eqb_spec e 0) as [-> |]; cbn [negb].
    - change (0 =? 39) with false. do 2 eexists. split; [reflexivity|simpl; lia].
    - destruct (e =? 39); do 2 eexists; (split; [reflexivity|simpl; lia]). }
  destruct (Z.eqb_spec c 46) as [-> |_].
  { apply Hlift. destruct (negb (sqlite3Isdigit d)); [do 2 eexists; split; [reflexivity|lia]|].
    apply get_number_ok; auto. }
  destruct ((48 <=? c) && (c <=? 57)) eqn:Edig.
  { apply Hlift, get_number_ok; [done|left]. apply andb_true_iff in Edig as [?%Z.leb_le ?%Z.leb_le].
    apply (proj2 (proj1 (proj2 (ctype_classes c (proj1 (proj1 (proj1 (cstr_cons _ _) Hs))))))). lia. }
  destruct (c =? 91).
  { apply Hlift. destruct (scan_bracket_ok rest s c 1 Hs') as (e & i & -> & Hi). cbn [mbind option_bind].
    do 2 eexists. split; [reflexivity|simpl; lia]. }
  destruct (c =? 63).
  { apply Hlift. destruct (scan_pos rest sqlite3Isdigit s 1 eq_refl Hs') as (i & s1 & -> & HL & _ & Hi & _).
    do 2 eexists. split; [reflexivity|simpl; lia]. }
  destruct ((c =? 36) || (c =? 64) || (c =? 35) || (c =? 58)).
  { apply Hlift. destruct (scan_variable_ok rest s 1 0 Hs') as (i & n & b & -> & Hi). cbn [mbind option_bind].
    do 2 eexists. split; [reflexivity|simpl; lia]. }
  apply Hlift. destruct ((c =? 120) || (c =? 88)).
  { destruct (Z.eqb_spec d 39) as [E|_]; [|by apply get_word_ok].
    destruct s as [|x s]; [congruence|]. apply cstr_cons in Hs' as [_ Hs'].
    destruct (get_blob_ok rest c x s Hs') as (n & ty & Hb & Hn). cbn [app]. rewrite Hb.
    do 2 eexists. split; [reflexivity|simpl; lia]. }
  destruct (single c); [do 2 eexists; split; [reflexivity|lia]|by apply get_word_ok].
Qed.

(** ** Literals and words *)

Lemma scan_quoted_escape q s : forall i x rest, cstr s -> q <> 0 -> x <> q ->
  scan_quoted q (escape q s ++ q :: x :: rest) i = Some (q, i + Z.of_nat (length (escape q s))).
Proof.
  induction s as [|c s IH]; intros i x rest Hs Hq Hx.
  - cbn [escape mbind list_bind app scan_quoted]. rewrite (proj2 (Z.eqb_neq q 0)), Z.eqb_refl by done.
    rewrite (proj2 (Z.eqb_neq x q)) by done. simpl. by rewrite Z.add_0_r.
  - apply cstr_cons in Hs as [[_ Hc] Hs].
    change (escape q (c :: s)) with ((if c =? q then [q; q] else [c]) ++ escape q s).
    rewrite length_app. destruct (Z.eqb_spec c q) as [-> |Hne]; cbn [app scan_quoted].
    + rewrite (proj2 (Z.eqb_neq q 0)), !Z.eqb_refl by done. rewrite IH by done. do 2 f_equal. simpl. lia.
    + rewrite (proj2 (Z.eqb_neq c 0)), (proj2 (Z.eqb_neq c q)) by done. rewrite IH by done. do 2 f_equal. simpl. lia.
Qed.

(** The characters a word starts with: letters, underscore and bytes above
    127, apart from x before a quote. *)
Definition word_start (c d : Z) : Prop :=
  (sqlite3Isalpha c = true \/ c = 95 \/ 128 <= c) /\ ~ ((c = 120 \/ c = 88) /\ d = 39).

Lemma getToken_word c s x rest :
  cstr (c :: s) -> Forall (fun c => IdChar c = true) s -> IdChar x = false ->
  word_start c (nth 0 (s ++ [x]) 0) ->
  sqlite3GetToken (c :: s ++ x :: rest) = Some (Z.of_nat (length (c :: s)), keyword_spec (c :: s)).
Proof.
  intros Hs Hid Hx [Hstart Hnx]. pose proof Hs as [[Hb _] _]%cstr_cons.
  destruct (ctype_classes c Hb) as (_ & _ & Halpha & _ & _ & _ & _ & HId). cbv zeta in *.
  assert (65 <= c <= 90 \/ 97 <= c <= 122 \/ c = 95 \/ 128 <= c) as Hc by (rewrite Halpha in Hstart; tauto).
  assert (get_word (c :: s ++ x :: rest) = Some (Z.of_nat (length (c :: s)), keyword_spec (c :: s))) as Hw.
  { unfold get_word. change (aget (c :: ?r) 0) with (Some c). cbn [mbind option_bind].
    rewrite (proj2 HId) by lia. cbn [negb]. change (drop 1 (c :: ?r)) with r.
    assert (forall i, scan IdChar (s ++ x :: rest) i = Some (i + Z.of_nat (length s), x :: rest)) as Hscan.
    { clear -Hid Hx. induction Hid as [|y s Hy _ IH]; intros i; cbn [scan app].
      - rewrite Hx. simpl. by rewrite Z.add_0_r.
      - rewrite Hy, IH. do 2 f_equal. simpl. lia. }
    rewrite Hscan. cbn [mbind option_bind]. replace (1 + Z.of_nat (length s)) with (Z.of_nat (length (c :: s))) by (simpl; lia).
    change (c :: s ++ x :: rest) with ((c :: s) ++ x :: rest). rewrite keywordCode_spec by done. done. }
  unfold sqlite3GetToken. change (aget (c :: ?r) 0) with (Some c). cbn [mbind option_bind].
  assert (forall k, k < 65 \/ 90 < k < 95 \/ k = 96 \/ 122 < k < 128 -> (c =? k) = false) as Hk
    by (intros k Hk; apply Z.eqb_neq; lia).
  rewrite !Hk by lia. cbn [orb].
  assert ((48 <=? c) && (c <=? 57) = false) as -> by (apply andb_false_iff; rewrite !Z.leb_gt; lia).
  assert (single c = None) as -> by (unfold single; rewrite !Hk by lia; done).
  rewrite Hw. destruct ((c =? 120) || (c =? 88)) eqn:E; [|done].
  apply orb_true_iff in E. rewrite !Z.eqb_eq in E.
  assert (exists d, aget (c :: s ++ x :: rest) 1 = Some d /\ d = nth 0 (s ++ [x]) 0) as (d & -> & ->)
    by (destruct s; eexists; split; reflexivity).
  cbn [mbind option_bind]. rewrite (proj2 (Z.eqb_neq _ 39)); [done|]. tauto.
Qed.

(** ** Properties *)

(** C30. sqlite3GetToken is total and in bounds: at any point of a
    zero-terminated text before its end it reads nothing beyond the terminator
    and returns a token of at least one byte that lies inside the text; the one
    exception is a "!" that ends the text, reported as an illegal token of
    length 2, which counts the terminator. *)
Theorem getToken_in_bounds s rest :
  cstr s -> s <> [] ->
  exists n type, sqlite3GetToken (s ++ 0 :: rest) = Some (n, type) /\ 1 <= n /\
    (n <= Z.of_nat (length s) \/ s = [33] /\ n = 2 /\ type = TK_ILLEGAL).
Proof. apply getToken_ok. Qed.

Lemma getToken_in_bounds_witness :
  exists n type, sqlite3GetToken (str "/* x" ++ 0 :: []) = Some (n, type) /\ 1 <= n /\
    (n <= 4 \/ str "/* x" = [33] /\ n = 2 /\ type = TK_ILLEGAL).
Proof.
  apply (getToken_in_bounds (str "/* x") []); [|discriminate].
  repeat constructor; vm_compute; done.
Defined.

(** Tokens of names and literals: text between apostrophes, double
    quotes or grave accents is one token of exactly that length, TK_STRING or
    TK_ID, and sqlite3Dequote of that
    token gives the text back; a word is the longest run of identifier
    characters, and its type is the keyword it spells. *)
Theorem getToken_literals q s x rest c w y :
  cstr s -> (q = 39 \/ q = 34 \/ q = 96) -> x <> q ->
  cstr (c :: w) -> Forall (fun c => IdChar c = true) w -> IdChar y = false ->
  word_start c (nth 0 (w ++ [y]) 0) ->
  (let quoted := q :: escape q s ++ [q] in
   sqlite3GetToken (quoted ++ x :: rest) =
     Some (Z.of_nat (length quoted), if q =? 39 then TK_STRING else TK_ID) /\
   exists tail, sqlite3Dequote (Some (quoted ++ [0])) = Some (Z.of_nat (length s), Some (s ++ 0 :: tail))) /\
  sqlite3GetToken (c :: w ++ y :: rest) = Some (Z.of_nat (length (c :: w)), keyword_spec (c :: w)).
Proof.
  intros Hs Hq Hx Hw Hid Hy Hst. split; [split|by apply getToken_word].
  - cbn [app]. rewrite <- app_assoc. cbn [app]. unfold sqlite3GetToken.
    change (aget (q :: ?r) 0) with (Some q). change (drop 1 (q :: ?r)) with r. cbn [mbind option_bind].
    rewrite scan_quoted_escape by (done || lia). cbn [length]. rewrite length_app.
    destruct Hq as [-> |[-> | ->]]; cbn; do 2 f_equal; lia.
  - cbn [app]. rewrite <- app_assoc. apply dequote_quoted; [done|].
    unfold quotes. destruct Hq as [-> |[-> | ->]]; set_solver.
Qed.

Lemma getToken_literals_witness :
  sqlite3GetToken (str "'it''s', t") = Some (7, TK_STRING) /\
  sqlite3GetToken (str "Where a") = Some (5, TK_WHERE).
Proof.
  destruct (getToken_literals 39 (str "it's") 44 (str " t") 87 (str "here") 32) as [[H1 _] _];
    [repeat constructor; vm_compute; done|by left|done|repeat constructor; vm_compute; done|
     repeat constructor|done|split; [left; reflexivity|intros [[?|?] _]; discriminate]|].
  destruct (getToken_literals 39 [] 44 (str "a") 87 (str "here") 32) as [_ H2];
    [constructor|by left|done|repeat constructor; vm_compute; done|
     repeat constructor|done|split; [left; reflexivity|intros [[?|?] _]; discriminate]|].
  split; [etransitivity; [exact H1|vm_compute; reflexivity]|etransitivity; [exact H2|vm_compute; reflexivity]].
Defined.
