(* ===== verification/Complete.v ===== *)
(** * Complete: sqlite3_complete (complete.c)

    The lexer and the state machine that decide whether a text ends a
    statement, against a grammar of statements. *)
From Stdlib Require Import String Ascii.
From S2P Require Import Prelude Ctype Keyword Token.

Definition tkSEMI : Z := 0.
Definition tkWS : Z := 1.
Definition tkOTHER : Z := 2.
Definition tkEXPLAIN : Z := 3.
Definition tkCREATE : Z := 4.
Definition tkTEMP : Z := 5.
Definition tkTRIGGER : Z := 6.
Definition tkEND : Z := 7.

Definition complete_trans : list (list Z) :=
  [[1; 0; 2; 3; 4; 2; 2; 2];
   [1; 1; 2; 3; 4; 2; 2; 2];
   [1; 2; 2; 2; 2; 2; 2; 2];
   [1; 3; 3; 2; 4; 2; 2; 2];
   [1; 4; 2; 2; 2; 4; 5; 2];
   [6; 5; 5; 5; 5; 5; 5; 5];
   [6; 6; 5; 5; 5; 5; 5; 7];
   [1; 7; 5; 5; 5; 5; 5; 5]].

Definition trans (state token : Z) : option Z :=
  row ← aget complete_trans state; aget row token.

(** while( zSql[0] && (zSql[0]!='*' || zSql[1]!='/') ){ zSql++; } *)
Fixpoint skip_comment (z : list Z) : option (list Z) :=
  match z with
  | [] => None
  | c :: z' =>
      if c =? 0 then Some z
      else if negb (c =? 42) then skip_comment z'
      else match z' with
           | [] => None
           | d :: _ => if d =? 47 then Some z else skip_comment z'
           end
  end.

(** The token of a keyword or identifier of nId bytes. *)
Definition word_token (z : list Z) (nId : Z) : option Z :=
  let matches kw n := if nId =? n then r ← sqlite3_strnicmp (Z.to_nat n) z (str kw); Some (r =? 0) else Some false in
  c ← aget z 0;
  if (c =? 99) || (c =? 67) then
    b ← matches "create"%string 6; Some (if b : bool then tkCREATE else tkOTHER)
  else if (c =? 116) || (c =? 84) then
    b ← matches "trigger"%string 7;
    if b : bool then Some tkTRIGGER
    else
      b ← matches "temp"%string 4;
      if b : bool then Some tkTEMP
      else b ← matches "temporary"%string 9; Some (if b : bool then tkTEMP else tkOTHER)
  else if (c =? 101) || (c =? 69) then
    b ← matches "end"%string 3;
    if b : bool then Some tkEND
    else b ← matches "explain"%string 7; Some (if b : bool then tkEXPLAIN else tkOTHER)
  else Some tkOTHER.

(** One turn of the main loop: the value returned, or the token read and the
    text after it. *)
Inductive lexed := Return (rc : Z) | Token (token : Z) (z : list Z).

Definition complete_lex (state : Z) (z : list Z) : option lexed :=
  let is_start := if state =? 1 then 1 else 0 in
  c ← aget z 0;
  if c =? 59 then Some (Token tkSEMI (drop 1 z))
  else if (c =? 32) || (c =? 13) || (c =? 9) || (c =? 10) || (c =? 12) then Some (Token tkWS (drop 1 z))
  else if c =? 47 then
    d ← aget z 1;
    if negb (d =? 42) then Some (Token tkOTHER (drop 1 z))
    else
      z ← skip_comment (drop 2 z);
      e ← aget z 0;
      if e =? 0 then Some (Return 0) else Some (Token tkWS (drop 2 z))
  else if c =? 45 then
    d ← aget z 1;
    if negb (d =? 45) then Some (Token tkOTHER (drop 1 z))
    else
      '(_, z) ← scan (fun c => negb (c =? 0) && negb (c =? 10)) z 0;
      e ← aget z 0;
      if e =? 0 then Some (Return is_start) else Some (Token tkWS (drop 1 z))
  else if c =? 91 then
    '(_, z) ← scan (fun c => negb (c =? 0) && negb (c =? 93)) (drop 1 z) 0;
    e ← aget z 0;
    if e =? 0 then Some (Return 0) else Some (Token tkOTHER (drop 1 z))
  else if (c =? 96) || (c =? 34) || (c =? 39) then
    '(_, z) ← scan (fun d => negb (d =? 0) && negb (d =? c)) (drop 1 z) 0;
    e ← aget z 0;
    if e =? 0 then Some (Return 0) else Some (Token tkOTHER (drop 1 z))
  else if IdChar c then
    '(nId, _) ← scan IdChar (drop 1 z) 1;
    token ← word_token z nId;
    Some (Token token (drop (Z.to_nat nId) z))
  else Some (Token tkOTHER (drop 1 z)).

Fixpoint complete_loop (fuel : nat) (state : Z) (z : list Z) : option Z :=
  match fuel with
  | O => None
  | S f =>
      c ← aget z 0;
      if c =? 0 then Some (if state =? 1 then 1 else 0)
      else
        r ← complete_lex state z;
        match r with
        | Return rc => Some rc
        | Token token z => state ← trans state token; complete_loop f state z
        end
  end.

Definition sqlite3_complete (zSql : list Z) : option Z := complete_loop (List.length zSql) 0 zSql.

Example complete_tests :
  map (fun s => sqlite3_complete (str s ++ [0]))
    ["select 1;"; "select 1"; "select ';"; "create trigger t begin x; y; end;"; "create trigger t begin x; y;";
     "explain query plan create temp trigger t begin x;end; -- done"; "  "; "/* ; */"; "x;/*"]%string
  = [Some 1; Some 0; Some 0; Some 1; Some 0; Some 1; Some 0; Some 0; Some 0].
Proof. vm_compute. reflexivity. Qed.

(** ** The lexer *)

(** The tokens of a text, and whether it ends outside quotes and block
    comments. *)
Fixpoint complete_tokens (fuel : nat) (z : list Z) : option (list Z * bool) :=
  match fuel with
  | O => None
  | S f =>
      c ← aget z 0;
      if c =? 0 then Some ([], true)
      else
        r ← complete_lex 1 z;
        match r with
        | Return rc => Some ([], rc =? 1)
        | Token token z => '(l, closed) ← complete_tokens f z; Some (token :: l, closed)
        end
  end.

(** The state only matters for the value returned at the end of a text that
    ends in a line comment. *)
Lemma lex_state st z :
  complete_lex st z =
    match complete_lex 1 z with
    | Some (Return rc) => Some (Return (if rc =? 1 then (if st =? 1 then 1 else 0) else 0))
    | r => r
    end.
Proof.
  unfold complete_lex. destruct (aget z 0) as [c|]; [|done]. cbn [mbind option_bind].
  destruct (c =? 59); [done|]. destruct (_ || _ || _ || _ || _); [done|].
  destruct (c =? 47).
  { destruct (aget z 1) as [d|]; [|done]. cbn [mbind option_bind]. destruct (negb _); [done|].
    destruct (skip_comment (drop 2 z)) as [z1|]; [|done]. cbn [mbind option_bind].
    destruct (aget z1 0) as [e|]; [|done]. cbn [mbind option_bind]. by destruct (e =? 0). }
  destruct (c =? 45).
  { destruct (aget z 1) as [d|]; [|done]. cbn [mbind option_bind]. destruct (negb _); [done|].
    destruct (scan _ z 0) as [[i z1]|]; [|done]. cbn [mbind option_bind].
    destruct (aget z1 0) as [e|]; [|done]. cbn [mbind option_bind]. by destruct (e =? 0). }
  destruct (c =? 91).
  { destruct (scan _ (drop 1 z) 0) as [[i z1]|]; [|done]. cbn [mbind option_bind].
    destruct (aget z1 0) as [e|]; [|done]. cbn [mbind option_bind]. by destruct (e =? 0). }
  destruct (_ || _ || _).
  { destruct (scan _ (drop 1 z) 0) as [[i z1]|]; [|done]. cbn [mbind option_bind].
    destruct (aget z1 0) as [e|]; [|done]. cbn [mbind option_bind]. by destruct (e =? 0). }
  destruct (IdChar c); [|done]. destruct (scan IdChar (drop 1 z) 1) as [[n z1]|]; [|done]. cbn [mbind option_bind].
  by destruct (word_token z n).
Qed.

Definition is_token (t : Z) : Prop := 0 <= t < 8.

(** The lexer moves on inside the text. *)
Definition lex_ok (s rest : list Z) (r : option lexed) : Prop :=
  (exists rc, r = Some (Return rc)) \/
  (exists t s', r = Some (Token t (s' ++ 0 :: rest)) /\ is_token t /\ cstr s' /\ (length s' < length s)%nat).

Section Lexer.
Context (rest : list Z).

Lemma skip_comment_ok s : cstr s ->
  exists s', skip_comment (s ++ 0 :: rest) = Some (s' ++ 0 :: rest) /\ cstr s' /\ (length s' <= length s)%nat /\
    (s' <> [] -> (2 <= length s')%nat).
Proof.
  induction s as [|c s IH]; intros Hs; cbn [skip_comment app].
  - exists []. done.
  - apply cstr_cons in Hs as Hs'. destruct Hs' as [[_ Hc] Hs']. rewrite (proj2 (Z.eqb_neq c 0)) by done.
    destruct (IH Hs') as (s1 & He & H1 & H2 & H3).
    destruct (negb (c =? 42)); [exists s1; split_and!; simpl; (done || lia)|].
    destruct s as [|d s]; cbn [app] in *.
    + rewrite He. exists s1. simpl in *. split_and!; (done || lia).
    + destruct (d =? 47).
      * exists (c :: d :: s). split_and!; [done|done|simpl; lia|simpl; lia].
      * exists s1. split_and!; [done|done|simpl in *; lia|done].
Qed.

Lemma word_token_ok c s n : cstr (c :: s) -> Forall (fun c => IdChar c = true) (c :: s) -> n = Z.of_nat (length (c :: s)) ->
  forall more, exists t, word_token (c :: s ++ more) n = Some t /\ is_token t.
Proof.
  intros Hs _ -> more. unfold word_token. cbv zeta. change (aget (c :: ?r) 0) with (Some c). cbn [mbind option_bind].
  assert (forall (kw : string) (m : nat), length (str kw) = m -> cstr (str kw) ->
    exists b, (if Z.of_nat (length (c :: s)) =? Z.of_nat m
       then r ← sqlite3_strnicmp (Z.to_nat (Z.of_nat m)) (c :: s ++ more) (str kw); Some (r =? 0) else Some false) = Some b) as Hm.
  { intros kw m Hl Hk. destruct (Z.eqb_spec (Z.of_nat (length (c :: s))) (Z.of_nat m)) as [E|]; [|by exists false].
    destruct (strnicmp_spec (c :: s) (str kw) more [] Hs Hk) as (r & Hr & _); [lia|].
    rewrite Nat2Z.id. replace m with (length (c :: s)) by lia. rewrite app_nil_r in Hr. cbn [app] in Hr. rewrite Hr. eexists. reflexivity. }
  assert (forall t, is_token t -> exists t', Some t = Some t' /\ is_token t') as Ht by eauto.
  destruct (_ || _); [|destruct (_ || _); [|destruct (_ || _)]].
  - destruct (Hm "create"%string 6%nat) as [b Hb]; [done|repeat constructor; done|]. change 6 with (Z.of_nat 6). rewrite Hb. cbn.
    destruct b; apply Ht; done.
  - destruct (Hm "trigger"%string 7%nat) as [b Hb]; [done|repeat constructor; done|]. change 7 with (Z.of_nat 7). rewrite Hb. cbn [mbind option_bind].
    destruct b; [by apply Ht|].
    destruct (Hm "temp"%string 4%nat) as [b Hb4]; [done|repeat constructor; done|]. change 4 with (Z.of_nat 4). rewrite Hb4. cbn [mbind option_bind].
    destruct b; [by apply Ht|].
    destruct (Hm "temporary"%string 9%nat) as [b Hb9]; [done|repeat constructor; done|]. change 9 with (Z.of_nat 9). rewrite Hb9. cbn [mbind option_bind].
    destruct b; by apply Ht.
  - destruct (Hm "end"%string 3%nat) as [b Hb]; [done|repeat constructor; done|]. change 3 with (Z.of_nat 3). rewrite Hb. cbn [mbind option_bind].
    destruct b; [by apply Ht|].
    destruct (Hm "explain"%string 7%nat) as [b Hb7]; [done|repeat constructor; done|]. change 7 with (Z.of_nat 7). rewrite Hb7. cbn [mbind option_bind].
    destruct b; by apply Ht.
  - by apply Ht.
Qed.

(** A quoted section up to its closing character. *)
Lemma quoted_ok P s (n : nat) rc t : P 0 = false -> cstr s -> is_token t -> (length s < n)%nat ->
  let r := '(_, z) ← scan P (s ++ 0 :: rest) 0;
           e ← aget z 0;
           if e =? 0 then Some (Return rc) else Some (Token t (drop 1 z)) in
  (exists rc, r = Some (Return rc)) \/
  (exists t s', r = Some (Token t (s' ++ 0 :: rest)) /\ is_token t /\ cstr s' /\ (length s' < n)%nat).
Proof.
  intros HP Hs Ht Hn r. destruct (scan_pos rest P s 0 HP Hs) as (i & s1 & He & HL & Hs1 & Hi & _).
  subst r. rewrite He. cbn [mbind option_bind]. destruct s1 as [|e s1].
  - left. eexists. reflexivity.
  - change (aget ((e :: s1) ++ 0 :: rest) 0) with (Some e). cbn [mbind option_bind].
    apply cstr_cons in Hs1 as [[_ He0] Hs1]. rewrite (proj2 (Z.eqb_neq e 0)) by done.
    right. exists t, s1. split_and!; [done|done|done|simpl in HL; lia].
Qed.

Lemma complete_lex_ok st s : cstr s -> s <> [] -> lex_ok s rest (complete_lex st (s ++ 0 :: rest)).
Proof.
  intros Hs Hne. destruct s as [|c s]; [done|]. pose proof Hs as [[_ Hc0] Hs']%cstr_cons.
  unfold complete_lex, lex_ok. cbn [app]. change (aget (c :: ?r) 0) with (Some c). change (drop 1 (c :: ?r)) with r.
  cbn [mbind option_bind].
  assert (forall t, is_token t -> (exists rc, Some (Token t (s ++ 0 :: rest)) = Some (Return rc)) \/
    (exists t' s', Some (Token t (s ++ 0 :: rest)) = Some (Token t' (s' ++ 0 :: rest)) /\ is_token t' /\ cstr s' /\
      (length s' < length (c :: s))%nat)) as Hone.
  { intros t Ht. right. exists t, s. split_and!; [done|done|done|simpl; lia]. }
  destruct (text_get1 rest c s) as (d & Hd & Hds).
  destruct (c =? 59); [by apply Hone|]. destruct (_ || _ || _ || _ || _); [by apply Hone|]. rewrite Hd. cbn [mbind option_bind].
  destruct (c =? 47).
  { destruct (Z.eqb_spec d 42) as [E|]; cbn [negb]; [|by apply Hone].
    destruct s as [|x s]; [congruence|]. apply cstr_cons in Hs' as [_ Hs'].
    change (drop 2 (c :: (x :: s) ++ 0 :: rest)) with (s ++ 0 :: rest).
    destruct (skip_comment_ok s Hs') as (s1 & -> & Hs1 & Hl1 & H2). cbn [mbind option_bind].
    destruct s1 as [|e [|f s1]].
    - left. eexists. reflexivity.
    - specialize (H2 ltac:(done)). simpl in H2. lia.
    - change (aget ((e :: f :: s1) ++ 0 :: rest) 0) with (Some e). cbn [mbind option_bind].
      apply cstr_cons in Hs1 as [[_ He] [_ Hs1]%cstr_cons]. rewrite (proj2 (Z.eqb_neq e 0)) by done.
      right. exists tkWS, s1. split_and!; [done|done|done|simpl in *; lia]. }
  destruct (c =? 45).
  { destruct (Z.eqb_spec d 45) as [E|]; cbn [negb]; [|by apply Hone].
    destruct s as [|x s]; [congruence|]. subst x d.
    change (c :: (45 :: s) ++ 0 :: rest) with ((c :: 45 :: s) ++ 0 :: rest).
    destruct (scan_pos rest (fun c => negb (c =? 0) && negb (c =? 10)) (c :: 45 :: s) 0 eq_refl Hs) as (i & s1 & He & HL & Hs1 & Hi & Hlt & _).
    rewrite He. cbn [mbind option_bind]. destruct s1 as [|e s1]; [left; eexists; reflexivity|].
    change (aget ((e :: s1) ++ 0 :: rest) 0) with (Some e). cbn [mbind option_bind].
    apply cstr_cons in Hs1 as [[_ He0] Hs1]. rewrite (proj2 (Z.eqb_neq e 0)) by done.
    right. exists tkWS, s1. split_and!; [done|done|done|simpl in *; lia]. }
  destruct (c =? 91); [apply quoted_ok; (done || simpl; lia)|].
  destruct (_ || _ || _); [apply quoted_ok; try (done || simpl; lia)|].
  destruct (IdChar c) eqn:Eid; [|by apply Hone].
  destruct (scan_ok rest IdChar s 1 eq_refl) as (s1 & s2 & -> & Hid & _ & ->). cbn [mbind option_bind].
  rewrite <- app_assoc.
  change (c :: s1 ++ s2) with ((c :: s1) ++ s2) in Hs. apply cstr_app in Hs as [Hs1 Hs2].
  destruct (word_token_ok c s1 (1 + Z.of_nat (length s1))) with (more := s2 ++ 0 :: rest) as (t & -> & Ht);
    [done|by constructor|simpl; lia|].
  cbn [mbind option_bind]. right. exists t, s2. split_and!; [|done|done|simpl; rewrite length_app; lia].
  do 2 f_equal. replace (Z.to_nat (1 + Z.of_nat (length s1))) with (S (length s1)) by lia. simpl. by rewrite drop_app_length.
Qed.
End Lexer.

(** ** The grammar of statements

    Over the tokens other than white space: what opens a trigger definition is
    CREATE with optional TEMPs and TRIGGER, possibly after EXPLAIN and other
    words.  A trigger definition ends with the first ;END; and any other
    statement with the first semicolon. *)

Definition trigger_opening (p : list Z) : Prop :=
  exists e temps, p = e ++ tkCREATE :: temps /\ Forall (eq tkTEMP) temps /\
    (e = [] \/ exists others, e = tkEXPLAIN :: others /\ Forall (eq tkOTHER) others).

Definition opens_trigger (p : list Z) : Prop :=
  exists o body, p = o ++ tkTRIGGER :: body /\ trigger_opening o.

Definition has_end (b : list Z) : Prop := exists x y, b = x ++ [tkSEMI; tkEND; tkSEMI] ++ y.

Inductive statement : list Z -> Prop :=
  | plain_statement p : tkSEMI ∉ p -> ~ opens_trigger p -> statement (p ++ [tkSEMI])
  | trigger_statement o body :
      trigger_opening o -> ~ has_end (body ++ [tkSEMI; tkEND]) ->
      statement (o ++ tkTRIGGER :: body ++ [tkSEMI; tkEND; tkSEMI]).

(** One or more statements, and nothing after the last one. *)
Definition complete_text (ts : list Z) : Prop :=
  exists l, l <> [] /\ Forall statement l /\ ts = concat l.

(** ** The state machine recognises the grammar *)

Definition step (st t : Z) : Z := from_option id 0 (trans st t).
Definition run (st : Z) (ts : list Z) : Z := foldl step st ts.

(** How much of ;END; the body of a trigger ends with. *)
Definition matched (body : list Z) : Z :=
  match rev body with
  | 7 :: 0 :: _ => 7
  | 0 :: _ => 6
  | _ => 5
  end.

Lemma rev_snoc2 (l : list Z) x y r : rev l = x :: y :: r -> l = rev r ++ [y; x].
Proof. intros H. rewrite <- (rev_involutive l), H. simpl. by rewrite <- app_assoc. Qed.

Lemma trans_step st t : 0 <= st < 8 -> is_token t -> trans st t = Some (step st t) /\ 0 <= step st t < 8.
Proof.
  intros Hst Ht. unfold is_token in Ht.
  assert (forallb (fun st => forallb (fun t => match trans st t with
    | Some s => (s =? step st t) && (0 <=? s) && (s <? 8) | None => false end) (seqZ 0 8)) (seqZ 0 8) = true) as H by (vm_compute; reflexivity).
  apply (fun H => seqZ_forallb _ 8 st H Hst) in H. apply (fun H => seqZ_forallb _ 8 t H Ht) in H. cbv beta in H.
  destruct (trans st t) as [s|]; [|done]. rewrite !andb_true_iff, Z.eqb_eq, Z.leb_le, Z.ltb_lt in H.
  destruct H as [[-> ?] ?]. split; [done|lia].
Qed.

Abbreviation sig := (fun t => is_token t /\ t <> tkWS).

Lemma sig_cases t : sig t -> t = 0 \/ t = 2 \/ t = 3 \/ t = 4 \/ t = 5 \/ t = 6 \/ t = 7.
Proof. unfold is_token, tkWS. lia. Qed.

(** In a trigger body, the machine tracks how much of ;END; was seen. *)
Lemma matched_step b t : sig t -> ~ has_end (b ++ [t]) -> step (matched b) t = matched (b ++ [t]).
Proof.
  intros Ht%sig_cases Hn. unfold matched. rewrite rev_unit.
  destruct (rev b) as [|x r] eqn:E; [destruct Ht as [->|[->|[->|[->|[->|[->| ->]]]]]]; done|].
  destruct (decide (x = 0)) as [-> |Hx0].
  { destruct r as [|y r]; destruct Ht as [->|[->|[->|[->|[->|[->| ->]]]]]]; try done; (destruct y as [|y|y]; try done). }
  destruct (decide (x = 7)) as [-> |Hx7].
  - destruct r as [|y r]; [destruct Ht as [->|[->|[->|[->|[->|[->| ->]]]]]]; done|].
    destruct (decide (y = 0)) as [-> |Hy]; [|destruct y; [done|..]; destruct Ht as [->|[->|[->|[->|[->|[->| ->]]]]]]; done].
    destruct Ht as [->|[->|[->|[->|[->|[->| ->]]]]]]; try done.
    exfalso. apply Hn. exists (rev r), []. apply rev_snoc2 in E as ->. by rewrite <- app_assoc.
  - assert (matched b = 5) as Hm.
    { unfold matched. rewrite E. destruct x as [|[[[]|[]|]|[]|]|]; done. }
    unfold matched in Hm. rewrite E in Hm. rewrite Hm.
    destruct Ht as [->|[->|[->|[->|[->|[->| ->]]]]]]; try done; destruct x; done.
Qed.

Lemma run_body b : Forall sig b -> ~ has_end b -> run 5 b = matched b.
Proof.
  induction b as [|t b IH] using rev_ind; intros Hs Hn; [done|].
  apply Forall_app in Hs as [Hs [Ht _]%Forall_cons].
  unfold run in *. rewrite foldl_app, IH; [|done|]. { by apply matched_step. }
  intros (x & y & ->). apply Hn. exists x, (y ++ [t]). by rewrite <- !app_assoc.
Qed.

Lemma run_same st t l : step st t = st -> Forall (eq t) l -> run st l = st.
Proof. intros He Hl. unfold run. induction Hl as [|x l <- _ IH]; [done|]. simpl. by rewrite He. Qed.

Lemma run_opening o : trigger_opening o -> run 1 o = 4.
Proof.
  intros (e & temps & -> & Ht & He). unfold run. rewrite foldl_app. simpl.
  assert (foldl step 1 e = 1 \/ foldl step 1 e = 3) as He'.
  { destruct He as [-> |(others & -> & Ho)]; [by left|right]. simpl. by apply (run_same 3 tkOTHER). }
  replace (step (foldl step 1 e) tkCREATE) with 4 by (by destruct He' as [-> | ->]). by apply (run_same 4 tkTEMP).
Qed.

(** The tokens [p] of an unfinished statement and the state they lead to. *)
Definition quiet (p : list Z) : Prop := forall p1 p2, p = p1 ++ p2 -> run 1 p1 <> 5.

Inductive within : Z -> list Z -> Prop :=
  | within_head st p :
      run 1 p = st -> tkSEMI ∉ p -> quiet p ->
      (st = 1 /\ p = [] \/ st = 2 \/
       st = 3 /\ (exists others, p = tkEXPLAIN :: others /\ Forall (eq tkOTHER) others) \/
       st = 4 /\ trigger_opening p) -> within st p
  | within_body o body :
      trigger_opening o -> ~ has_end body -> within (matched body) (o ++ tkTRIGGER :: body).

Lemma run_snoc st p t : run st (p ++ [t]) = step (run st p) t.
Proof. unfold run. by rewrite foldl_app. Qed.

Lemma quiet_snoc p t : quiet p -> run 1 (p ++ [t]) <> 5 -> quiet (p ++ [t]).
Proof.
  intros Hq Hr p1 p2 E. destruct p2 as [|x p2 _] using rev_ind.
  - rewrite app_nil_r in E. by subst.
  - rewrite app_assoc in E. apply app_inj_tail in E as [-> ->]. by eapply Hq.
Qed.

Lemma quiet_no_trigger p : quiet p -> ~ opens_trigger p.
Proof.
  intros Hq (o & body & -> & Ho). apply (Hq (o ++ [tkTRIGGER]) body); [by rewrite <- app_assoc|].
  by rewrite run_snoc, run_opening.
Qed.

Lemma within_start : within 1 [].
Proof.
  apply within_head; [done|set_solver| |auto]. intros p1 p2 E. symmetry in E. apply app_nil in E as [-> _]. done.
Qed.

(** Ending a statement, or going on with it. *)
Lemma within_step st p t : within st p -> sig t ->
  step st t = 1 /\ statement (p ++ [t]) \/ within (step st t) (p ++ [t]).
Proof.
  intros Hw Hsig. pose proof (sig_cases t Hsig) as Ht. destruct Hw as [st p Hr Hse Hq Hsh|o body Ho Hn].
  - destruct (decide (t = tkSEMI)) as [-> |Hts].
    { left. split; [by destruct Hsh as [[-> _]|[-> |[[-> _]|[-> _]]]]|]. constructor; [done|]. by apply quiet_no_trigger. }
    right. destruct (decide (step st t = 5)) as [E5|E5].
    { assert (st = 4 /\ t = tkTRIGGER /\ trigger_opening p) as (-> & -> & Ho).
      { destruct Hsh as [[-> _]|[-> |[[-> _]|[-> Ho]]]]; destruct Ht as [->|[->|[->|[->|[->|[->| ->]]]]]]; done. }
      apply (within_body p []); [done|]. intros (x & y & E). by destruct x. }
    apply within_head; [by rewrite run_snoc, Hr|set_solver|apply quiet_snoc; [done|by rewrite run_snoc, Hr]|].
    destruct Hsh as [[-> ->]|[-> |[[-> (others & -> & Hoth)]|[-> (e & temps & -> & Htemps & He)]]]].
    + destruct Ht as [->|[->|[->|[->|[->|[->| ->]]]]]]; try done; try (by right; left).
      * right; right; left. split; [done|]. by exists [].
      * right; right; right. split; [done|]. exists [], []. auto.
    + right; left. destruct Ht as [->|[->|[->|[->|[->|[->| ->]]]]]]; done.
    + destruct Ht as [->|[->|[->|[->|[->|[->| ->]]]]]]; try done; try (by right; left).
      * right; right; left. split; [done|]. exists (others ++ [tkOTHER]). split; [done|]. by apply Forall_app; repeat constructor.
      * right; right; right. split; [done|]. exists (tkEXPLAIN :: others), []. split_and!; [done|done|eauto].
    + destruct Ht as [->|[->|[->|[->|[->|[->| ->]]]]]]; try done; try (by right; left).
      right; right; right. split; [done|]. exists e, (temps ++ [tkTEMP]). rewrite <- app_assoc.
      split_and!; [done|by apply Forall_app; repeat constructor|done].
  - destruct (decide (matched body = 7 /\ t = tkSEMI)) as [[Hm ->]|Hno].
    + left. rewrite Hm. split; [done|]. unfold matched in Hm.
      destruct (rev body) as [|x [|y r]] eqn:E; [done|by destruct x as [|[[[]|[]|]|[]|]|]|].
      assert (x = 7 /\ y = 0) as [-> ->].
      { destruct x as [|[[[]|[]|]|[]|]|]; try done. by destruct y. }
      apply rev_snoc2 in E as ->. rewrite <- app_assoc. cbn [app]. rewrite <- app_assoc. by apply trigger_statement.
    + right. assert (~ has_end (body ++ [t])) as Hn'.
      { intros (x & y & E). destruct y as [|u y _] using rev_ind.
        - rewrite app_nil_r in E. change [tkSEMI; tkEND; tkSEMI] with ([tkSEMI; tkEND] ++ [tkSEMI]) in E. rewrite app_assoc in E.
          apply app_inj_tail in E as [-> ->]. apply Hno. split; [|done]. unfold matched. rewrite rev_app_distr. done.
        - rewrite !app_assoc in E. apply app_inj_tail in E as [-> _]. apply Hn. exists x, y. by rewrite <- !app_assoc. }
      rewrite matched_step by done. rewrite <- app_assoc. cbn [app]. by apply within_body.
Qed.

Lemma matched_not_start b : matched b <> 1 /\ matched b <> 0.
Proof. unfold matched. destruct (rev b) as [|[|[[[]|[]|]|[]|]|] [|[] ?]]; done. Qed.

Lemma within_start_inv p : within 1 p -> p = [].
Proof.
  intros H. inversion H as [st p' Hr Hs Hq Hsh|o body Ho Hn E]; subst; [|by destruct (matched_not_start body)].
  destruct Hsh as [[_ ?]|[?|[[? _]|[? _]]]]; done.
Qed.

Lemma run_sound ts : forall st p, within st p -> Forall sig ts -> run st ts = 1 ->
  exists l, Forall statement l /\ p ++ ts = concat l.
Proof.
  induction ts as [|t ts IH]; intros st p Hw Hs Hr.
  - simpl in Hr. subst st. apply within_start_inv in Hw as ->. by exists [].
  - apply Forall_cons in Hs as [Ht Hs]. change (run st (t :: ts)) with (run (step st t) ts) in Hr.
    destruct (within_step st p t Hw Ht) as [[H1 Hst]|Hw'].
    + rewrite H1 in Hr. destruct (IH 1 [] within_start Hs Hr) as (l & Hl & E).
      exists ((p ++ [t]) :: l). split; [by constructor|]. simpl in *. rewrite <- E, <- app_assoc. done.
    + destruct (IH _ _ Hw' Hs Hr) as (l & Hl & E). exists l. split; [done|]. by rewrite <- app_assoc in E.
Qed.

Lemma within_inv st p : within st p -> st = 1 \/ st = 2 \/ st = 3 \/ st = 4 \/ opens_trigger p.
Proof. intros [? ? _ _ _ Hsh|o body Ho _]; [tauto|]. do 4 right. by exists o, body. Qed.

Lemma run_statement u : statement u -> Forall sig u -> run 1 u = 1.
Proof.
  intros [p Hp Hno|o body Ho Hn] Hs.
  - apply Forall_app in Hs as [Hs _]. rewrite run_snoc.
    assert (forall q r, p = q ++ r -> within (run 1 q) q) as Hw.
    { induction q as [|t q IH] using rev_ind; intros r E; [apply within_start|].
      rewrite <- app_assoc in E. specialize (IH _ E). rewrite run_snoc. subst p.
      apply Forall_app in Hs as [_ [Ht _]%Forall_cons].
      destruct (within_step _ _ t IH Ht) as [[H1 _]|]; [|done]. exfalso.
      destruct (within_inv _ _ IH) as [E|[E|[E|[E|(o & body & -> & Ho)]]]].
      1-4: rewrite E in H1; destruct (sig_cases t Ht) as [->|[->|[->|[->|[->|[->| ->]]]]]]; try done; set_solver.
      apply Hno. exists o, (body ++ t :: r). split; [by rewrite <- app_assoc|done]. }
    specialize (Hw p [] ltac:(by rewrite app_nil_r)).
    by destruct (within_inv _ _ Hw) as [-> |[-> |[-> |[-> |?]]]].
  - unfold run. rewrite foldl_app. fold (run 1 o). rewrite run_opening by done. cbn [foldl].
    change (step 4 tkTRIGGER) with 5. fold (run 5 (body ++ [tkSEMI; tkEND; tkSEMI])).
    change [tkSEMI; tkEND; tkSEMI] with ([tkSEMI; tkEND] ++ [tkSEMI]). rewrite app_assoc, run_snoc.
    apply Forall_app in Hs as [_ Hs]. apply Forall_cons in Hs as [_ Hs].
    change [tkSEMI; tkEND; tkSEMI] with ([tkSEMI; tkEND] ++ [tkSEMI]) in Hs. rewrite app_assoc in Hs.
    apply Forall_app in Hs as [Hs _]. rewrite run_body by done. unfold matched. rewrite rev_app_distr. done.
Qed.

(** White space changes nothing, and before the first token the machine is in
    state 0, which has the transitions of state 1. *)
Lemma run_complete ts : Forall sig ts -> run 0 ts = 1 <-> complete_text ts.
Proof.
  intros Hs. assert (ts <> [] -> run 0 ts = run 1 ts) as H01.
  { destruct Hs as [|t ts Ht%sig_cases _]; [done|]. intros _. unfold run. simpl.
    destruct Ht as [->|[->|[->|[->|[->|[->| ->]]]]]]; done. }
  split.
  - intros Hr. assert (ts <> []) as Hne by (intros ->; done). rewrite H01 in Hr by done.
    destruct (run_sound ts 1 [] within_start Hs Hr) as (l & Hl & E). exists l. split_and!; [|done|done].
    intros ->. done.
  - intros (l & Hne & Hl & E). rewrite H01.
    + subst ts. clear H01 Hne. induction Hl as [|u l Hu _ IH]; [done|]. simpl in Hs. apply Forall_app in Hs as [Hsu Hs].
      unfold run in *. simpl. rewrite foldl_app. fold (run 1 u). rewrite run_statement by done. by apply IH.
    + destruct Hl as [|u l Hu _]; [done|]. subst ts. simpl. inversion Hu; subst; intros [E _]%app_nil; by destruct p || by destruct o.
Qed.

Definition significant (ts : list Z) : list Z := filter (fun t => t <> tkWS) ts.

Lemma step_ws st : 0 <= st < 8 -> step st tkWS = st.
Proof.
  intros Hk. apply Z.eqb_eq. revert Hk.
  apply (seqZ_forallb (fun k => step k tkWS =? k) 8 st). vm_compute. reflexivity.
Qed.

Lemma complete_loop_spec rest fuel : forall s st,
  cstr s -> (length s < fuel)%nat -> 0 <= st < 8 ->
  exists ts closed, complete_tokens fuel (s ++ 0 :: rest) = Some (ts, closed) /\ Forall is_token ts /\
    complete_loop fuel st (s ++ 0 :: rest) =
      Some (if closed && (run st (significant ts) =? 1) then 1 else 0).
Proof.
  induction fuel as [|f IH]; intros s st Hs Hf Hst; [lia|]. cbn [complete_tokens complete_loop].
  destruct s as [|c s].
  - exists [], true. split_and!; [done|done|]. done.
  - change (aget ((c :: s) ++ 0 :: rest) 0) with (Some c). cbn [mbind option_bind].
    pose proof Hs as [[_ Hc] _]%cstr_cons. rewrite (proj2 (Z.eqb_neq c 0)) by done.
    rewrite (lex_state st). destruct (complete_lex_ok rest 1 (c :: s) Hs ltac:(done)) as [(rc & ->)|(t & s' & -> & Ht & Hs' & Hl)];
      cbn [mbind option_bind].
    + exists [], (rc =? 1). split_and!; [done|done|]. cbn. by destruct (rc =? 1), (st =? 1).
    + destruct (trans_step st t Hst Ht) as [-> Hst']. cbn [mbind option_bind].
      destruct (IH s' (step st t) Hs' ltac:(simpl in *; lia) Hst') as (ts & closed & -> & Hts & ->). cbn [mbind option_bind].
      exists (t :: ts), closed. split_and!; [done|by constructor|].
      unfold significant. rewrite filter_cons. case_decide as Hws; [done|].
      assert (t = tkWS) as -> by (destruct (decide (t = tkWS)); tauto). by rewrite step_ws.
Qed.

(** ** Properties *)

(** C27. sqlite3_complete decides the documented grammar: for every
    zero-terminated text the lexer ends inside it, and the result is 1 exactly
    when the text ends outside quotes and block comments and its tokens are one
    or more whole statements, where a trigger definition ends with its first
    ;END; and any other statement with its first semicolon. *)
Theorem sqlite3_complete_correct s :
  cstr s ->
  exists ts closed, complete_tokens (S (length s)) (s ++ [0]) = Some (ts, closed) /\
    (sqlite3_complete (s ++ [0]) = Some 1 /\ closed = true /\ complete_text (significant ts) \/
     sqlite3_complete (s ++ [0]) = Some 0 /\ ~ (closed = true /\ complete_text (significant ts))).
Proof.
  intros Hs. destruct (complete_loop_spec [] (S (length s)) s 0 Hs) as (ts & closed & Ht & Hts & Hr); [lia|lia|].
  exists ts, closed. split; [done|]. unfold sqlite3_complete.
  replace (length (s ++ [0])) with (S (length s)) by (rewrite length_app; simpl; lia). rewrite Hr.
  assert (Forall sig (significant ts)) as Hsig.
  { apply Forall_forall. intros t [? Hin]%list_elem_of_filter. rewrite Forall_forall in Hts. auto. }
  pose proof (run_complete _ Hsig) as Hrc. destruct closed; cbn [andb].
  - destruct (Z.eqb_spec (run 0 (significant ts)) 1); [left|right]; tauto.
  - right. split; [done|]. by intros [? _].
Qed.

Lemma sqlite3_complete_correct_witness :
  exists ts closed, complete_tokens 17 (str "select ';' -- x;" ++ [0]) = Some (ts, closed) /\
    (sqlite3_complete (str "select ';' -- x;" ++ [0]) = Some 1 /\ closed = true /\ complete_text (significant ts) \/
     sqlite3_complete (str "select ';' -- x;" ++ [0]) = Some 0 /\ ~ (closed = true /\ complete_text (significant ts))).
Proof.
  destruct (sqlite3_complete_correct (str "select ';' -- x;")) as (ts & closed & H1 & H2).
  - repeat constructor; vm_compute; done.
  - exists ts, closed. split; [|exact H2]. vm_compute in H1 |- *. exact H1.
Defined.
