(* ===== verification/Record.v ===== *)
(** * Record: the record format and record comparison (vdbeaux.c, OP_MakeRecord)

    A record is a byte array; a pointer into it is the list of bytes from there
    on.  Doubles are their 64-bit patterns, read as IEEE binary64 numbers.  The
    assertions weakened by CORRUPT_DB are not part of the model. *)
From Stdlib Require Import SpecFloat.
From S2P Require Import Prelude Varint Atoi.

(** ** Values *)

Definition MEM_Null : Z := 1.
Definition MEM_Str : Z := 2.
Definition MEM_Int : Z := 4.
Definition MEM_Real : Z := 8.
Definition MEM_Blob : Z := 16.
Definition MEM_RowSet : Z := 32.
Definition MEM_Ephem : Z := 4096.
Definition MEM_Zero : Z := 16384.

(** struct Mem: v_i and v_nZero are the members of the union u; [v_r] is the
    bit pattern of the double; [v_z] the memory the pointer refers to. *)
Record VMem := mkVMem {
  v_flags : Z;
  v_i : Z;
  v_nZero : Z;
  v_r : Z;
  v_z : list Z;
  v_n : Z;
  v_enc : Z }.

(** The binary64 number with a given bit pattern. *)
Definition b64 (x : Z) : spec_float :=
  let s := Z.testbit x 63 in
  let e := Z.land (Z.shiftr x 52) 2047 in
  let m := Z.land x (2 ^ 52 - 1) in
  if e =? 2047 then if m =? 0 then S754_infinity s else S754_nan
  else if e =? 0 then match m with Zpos m => S754_finite s m (-1074) | _ => S754_zero s end
  else match m + 2 ^ 52 with Zpos m => S754_finite s m (e - 1075) | _ => S754_zero s end.

(** (double)i *)
Definition i2d (i : Z) : spec_float := binary_normalize 53 1024 i 0 false.

Definition sqlite3IsNaN (x : Z) : bool := negb (SFeqb (b64 x) (b64 x)).

(** ** Serial types *)

Definition MAX_6BYTE : Z := Z.shiftl 32768 32 - 1.

Definition sqlite3VdbeSerialType (pMem : VMem) (file_format : Z) : option Z :=
  let f := v_flags pMem in
  if flag f MEM_Null then Some 0
  else if flag f MEM_Int then
    let i := v_i pMem in
    let small u :=
      if u <=? 127 then if (Z.land i 1 =? i) && (4 <=? file_format) then 8 + u else 1
      else if u <=? 32767 then 2
      else if u <=? 8388607 then 3
      else if u <=? 2147483647 then 4
      else if u <=? MAX_6BYTE then 5
      else 6 in
    if i <? 0 then
      if i <? - MAX_6BYTE then Some 6
      else u ← cint64 (- i); Some (small u)
    else Some (small i)
  else if flag f MEM_Real then Some 7
  else
    _ ← assert_ (flag f (Z.lor MEM_Str MEM_Blob));
    n ← (if flag f MEM_Zero then cint (v_n pMem + v_nZero pMem) else Some (v_n pMem));
    _ ← assert_ (0 <=? n);
    cint (n * 2 + 12 + (if flag f MEM_Str then 1 else 0)).

Definition aSize : list Z := [0; 1; 2; 3; 4; 6; 8; 8; 0; 0; 0; 0].

Definition sqlite3VdbeSerialTypeLen (serial_type : Z) : option Z :=
  if 12 <=? serial_type then Some ((serial_type - 12) / 2) else aget aSize serial_type.

(** while( i-- ){ buf[i] = (u8)(v&0xFF); v >>= 8; }: the bytes written *)
Fixpoint serialPut_loop (i : nat) (v : Z) (acc : list Z) : list Z :=
  match i with
  | O => acc
  | S i => serialPut_loop i (Z.shiftr v 8) (u8 (Z.land v 255) :: acc)
  end.

(** The bytes written to buf[]; their number is the value returned. *)
Definition sqlite3VdbeSerialPut (pMem : VMem) (serial_type : Z) : option (list Z) :=
  if (serial_type <=? 7) && (0 <? serial_type) then
    let v := if serial_type =? 7 then v_r pMem else u64 (v_i pMem) in
    len ← sqlite3VdbeSerialTypeLen serial_type;
    Some (serialPut_loop (Z.to_nat len) v [])
  else if 12 <=? serial_type then
    len ← sqlite3VdbeSerialTypeLen serial_type;
    _ ← assert_ (v_n pMem + (if flag (v_flags pMem) MEM_Zero then v_nZero pMem else 0) =? len);
    _ ← assert_ (v_n pMem <=? Z.of_nat (length (v_z pMem)));
    Some (take (Z.to_nat (v_n pMem)) (v_z pMem))
  else Some [].

(** ** Reading fields *)

(** (i8)x, ( *(int* )&y) and ( *(i64* )&x) *)
Definition i8 (x : Z) : Z := if x <? 128 then x else x - 256.
Definition as_int (y : Z) : Z := if y <? 2 ^ 31 then y else y - 2 ^ 32.
Definition as_i64 (x : Z) : Z := if x <? 2 ^ 63 then x else x - 2 ^ 64.

Definition ONE_BYTE_INT (x : list Z) : option Z := a ← aget x 0; Some (i8 a).
Definition TWO_BYTE_INT (x : list Z) : option Z :=
  a ← aget x 0; b ← aget x 1; Some (Z.lor (256 * i8 a) b).
Definition THREE_BYTE_INT (x : list Z) : option Z :=
  a ← aget x 0; b ← aget x 1; c ← aget x 2;
  Some (Z.lor (Z.lor (65536 * i8 a) (Z.shiftl b 8)) c).
Definition FOUR_BYTE_UINT (x : list Z) : option Z :=
  a ← aget x 0; b ← aget x 1; c ← aget x 2; d ← aget x 3;
  Some (Z.lor (Z.lor (Z.lor (u32 (Z.shiftl a 24)) (Z.shiftl b 16)) (Z.shiftl c 8)) d).

(** The integer of serial types 5 and 6, which three routines decode alike. *)
Definition six_byte_int (buf : list Z) : option Z :=
  lo ← FOUR_BYTE_UINT (drop 2 buf); hi ← TWO_BYTE_INT buf; Some (lo + Z.shiftl 1 32 * hi).
Definition eight_byte_uint (buf : list Z) : option Z :=
  x ← FOUR_BYTE_UINT buf; y ← FOUR_BYTE_UINT (drop 4 buf); Some (Z.lor (u64 (Z.shiftl x 32)) y).

(** The cell after the call, and the number of bytes read. *)
Definition sqlite3VdbeSerialGet (buf : list Z) (serial_type : Z) (pMem : VMem) : option (VMem * Z) :=
  let set_int i := mkVMem MEM_Int i (v_nZero pMem) (v_r pMem) (v_z pMem) (v_n pMem) (v_enc pMem) in
  if (serial_type =? 10) || (serial_type =? 11) || (serial_type =? 0) then
    Some (mkVMem MEM_Null (v_i pMem) (v_nZero pMem) (v_r pMem) (v_z pMem) (v_n pMem) (v_enc pMem), 0)
  else if serial_type =? 1 then i ← ONE_BYTE_INT buf; Some (set_int i, 1)
  else if serial_type =? 2 then i ← TWO_BYTE_INT buf; Some (set_int i, 2)
  else if serial_type =? 3 then i ← THREE_BYTE_INT buf; Some (set_int i, 3)
  else if serial_type =? 4 then y ← FOUR_BYTE_UINT buf; Some (set_int (as_int y), 4)
  else if serial_type =? 5 then i ← six_byte_int buf; Some (set_int i, 6)
  else if (serial_type =? 6) || (serial_type =? 7) then
    x ← eight_byte_uint buf;
    if serial_type =? 6 then Some (set_int (as_i64 x), 8)
    else Some (mkVMem (if sqlite3IsNaN x then MEM_Null else MEM_Real)
                 (v_i pMem) (v_nZero pMem) x (v_z pMem) (v_n pMem) (v_enc pMem), 8)
  else if (serial_type =? 8) || (serial_type =? 9) then Some (set_int (serial_type - 8), 0)
  else
    let len := (serial_type - 12) / 2 in
    Some (mkVMem (if Z.odd serial_type then Z.lor MEM_Str MEM_Ephem else Z.lor MEM_Blob MEM_Ephem)
            (v_i pMem) (v_nZero pMem) (v_r pMem) buf len (v_enc pMem), len).

Definition vdbeRecordDecodeInt (serial_type : Z) (aKey : list Z) : option Z :=
  if (serial_type =? 0) || (serial_type =? 1) then ONE_BYTE_INT aKey
  else if serial_type =? 2 then TWO_BYTE_INT aKey
  else if serial_type =? 3 then THREE_BYTE_INT aKey
  else if serial_type =? 4 then y ← FOUR_BYTE_UINT aKey; Some (as_int y)
  else if serial_type =? 5 then six_byte_int aKey
  else if serial_type =? 6 then x ← eight_byte_uint aKey; Some (as_i64 x)
  else Some (u32 (serial_type - 8)).

(** ** Comparing values *)

(** memcmp: the first difference among [k] bytes. *)
Fixpoint memcmp (a b : list Z) (k : nat) : option Z :=
  match k with
  | O => Some 0
  | S k =>
      match a, b with
      | x :: a, y :: b => if x =? y then memcmp a b k else Some (x - y)
      | _, _ => None
      end
  end.

(** struct CollSeq: the encoding of the texts and the function that compares
    them. *)
Record CollSeq := mkCollSeq { c_enc : Z; xCmp : list Z -> list Z -> Z }.

(** The bytes of a text or blob. *)
Definition v_bytes (m : VMem) : option (list Z) :=
  if decide (0 <= v_n m <= Z.of_nat (length (v_z m))) then Some (take (Z.to_nat (v_n m)) (v_z m)) else None.

Record KeyInfo := mkKeyInfo {
  k_enc : Z;
  k_nField : Z;
  k_nXField : Z;
  aSortOrder : list Z;
  aColl : list (option CollSeq) }.

Record UnpackedRecord := mkUnpackedRecord {
  pKeyInfo : KeyInfo;
  nField : Z;
  default_rc : Z;
  isCorrupt : Z;
  aMem : list VMem;
  r1 : Z;
  r2 : Z }.

Definition SQLITE_CORRUPT : Z := 11.

Section Compare.

(** sqlite3ValueText: the bytes of a text converted from one encoding to
    another, or [None] for the null pointer. *)
Variable sqlite3ValueText : list Z -> Z -> Z -> option (list Z).

Definition vdbeCompareMemString (pMem1 pMem2 : VMem) (pColl : CollSeq) : option Z :=
  a ← v_bytes pMem1;
  b ← v_bytes pMem2;
  if v_enc pMem1 =? c_enc pColl then Some (xCmp pColl a b)
  else
    let v1 := from_option id [] (sqlite3ValueText a (v_enc pMem1) (c_enc pColl)) in
    let v2 := from_option id [] (sqlite3ValueText b (v_enc pMem2) (c_enc pColl)) in
    Some (xCmp pColl v1 v2).

(** -1, 1 or 0 for r1<r2, r1>r2 or neither *)
Definition cmp_double (x y : spec_float) : Z := if SFltb x y then -1 else if SFltb y x then 1 else 0.

Definition cmp_i64 (x y : Z) : Z := if x <? y then -1 else if y <? x then 1 else 0.

Definition cmp_blob (z1 : list Z) (n1 : Z) (z2 : list Z) (n2 : Z) : option Z :=
  rc ← memcmp z1 z2 (Z.to_nat (Z.min n1 n2));
  Some (if rc =? 0 then n1 - n2 else rc).

Definition sqlite3MemCompare (pMem1 pMem2 : VMem) (pColl : option CollSeq) : option Z :=
  let f1 := v_flags pMem1 in
  let f2 := v_flags pMem2 in
  let combined_flags := Z.lor f1 f2 in
  _ ← assert_ (negb (flag combined_flags MEM_RowSet));
  if flag combined_flags MEM_Null then Some (Z.land f2 MEM_Null - Z.land f1 MEM_Null)
  else if flag combined_flags (Z.lor MEM_Int MEM_Real) then
    if flag (Z.land f1 f2) MEM_Int then Some (cmp_i64 (v_i pMem1) (v_i pMem2))
    else
      let real m := if flag (v_flags m) MEM_Real then Some (b64 (v_r m))
                    else if flag (v_flags m) MEM_Int then Some (i2d (v_i m)) else None in
      Some (match real pMem1, real pMem2 with
            | None, _ => 1
            | _, None => -1
            | Some x, Some y => cmp_double x y
            end)
  else if flag combined_flags MEM_Str && negb (flag f1 MEM_Str) then Some 1
  else if flag combined_flags MEM_Str && negb (flag f2 MEM_Str) then Some (-1)
  else
    _ ← assert_ (negb (flag combined_flags MEM_Str) ||
                 (v_enc pMem1 =? v_enc pMem2) &&
                 ((v_enc pMem1 =? SQLITE_UTF8) || (v_enc pMem1 =? SQLITE_UTF16LE) || (v_enc pMem1 =? SQLITE_UTF16BE)));
    match pColl with
    | Some pColl =>
        if flag combined_flags MEM_Str then vdbeCompareMemString pMem1 pMem2 pColl
        else cmp_blob (v_z pMem1) (v_n pMem1) (v_z pMem2) (v_n pMem2)
    | None => cmp_blob (v_z pMem1) (v_n pMem1) (v_z pMem2) (v_n pMem2)
    end.

(** ** Comparing records *)

(** An uninitialised cell on the stack: its content is never used. *)
Definition stack_mem (e : Z) : VMem := mkVMem 0 0 0 0 [] 0 e.

(** One field of vdbeRecordCompareDebug: [None] inside when the key space is
    exhausted. *)
Fixpoint compareDebug_loop (fuel : nat) (nKey1 : Z) (aKey1 : list Z) (pPKey2 : UnpackedRecord)
    (szHdr1 d1 idx1 i : Z) : option Z :=
  match fuel with
  | O => None
  | S f =>
      p ← suffix aKey1 idx1;
      '(serial_type1, k) ← getVarint32 p;
      let idx1 := u32 (idx1 + k) in
      len ← sqlite3VdbeSerialTypeLen serial_type1;
      if (nKey1 <? u32 (d1 + serial_type1 + 2)) && (nKey1 <? u32 (d1 + len)) then Some (default_rc pPKey2)
      else
        data ← suffix aKey1 d1;
        '(mem1, k) ← sqlite3VdbeSerialGet data serial_type1 (stack_mem (k_enc (pKeyInfo pPKey2)));
        let d1 := u32 (d1 + k) in
        rhs ← aget (aMem pPKey2) i;
        coll ← aget (aColl (pKeyInfo pPKey2)) i;
        rc ← sqlite3MemCompare mem1 rhs coll;
        if negb (rc =? 0) then
          desc ← aget (aSortOrder (pKeyInfo pPKey2)) i;
          Some (if negb (desc =? 0) then - rc else rc)
        else if (idx1 <? szHdr1) && (i + 1 <? nField pPKey2) then
          compareDebug_loop f nKey1 aKey1 pPKey2 szHdr1 d1 idx1 (i + 1)
        else Some (default_rc pPKey2)
  end.

Definition vdbeRecordCompareDebug (nKey1 : Z) (aKey1 : list Z) (pPKey2 : UnpackedRecord) : option Z :=
  '(szHdr1, idx1) ← getVarint32 aKey1;
  compareDebug_loop (S (length aKey1)) nKey1 aKey1 pPKey2 szHdr1 szHdr1 idx1 0.

(** The comparison of one field in sqlite3VdbeRecordCompare: corruption, or
    the result with the serial type read. *)
Inductive field_result := Corrupt | Compared (rc serial_type : Z).

Definition compare_field (nKey1 : Z) (aKey1 : list Z) (pKeyInfo : KeyInfo) (d1 idx1 i : Z) (pRhs : VMem)
    : option field_result :=
  let f := v_flags pRhs in
  if flag f MEM_Int then
    serial_type ← aget aKey1 idx1;
    rc ← (if 12 <=? serial_type then Some 1
          else if serial_type =? 0 then Some (-1)
          else if serial_type =? 7 then
            data ← suffix aKey1 d1;
            '(mem1, _) ← sqlite3VdbeSerialGet data serial_type (stack_mem 0);
            Some (cmp_double (b64 (v_r mem1)) (i2d (v_i pRhs)))
          else
            data ← suffix aKey1 d1;
            lhs ← vdbeRecordDecodeInt serial_type data;
            Some (cmp_i64 lhs (v_i pRhs)));
    Some (Compared rc serial_type)
  else if flag f MEM_Real then
    serial_type ← aget aKey1 idx1;
    rc ← (if 12 <=? serial_type then Some 1
          else if serial_type =? 0 then Some (-1)
          else
            data ← suffix aKey1 d1;
            '(mem1, _) ← sqlite3VdbeSerialGet data serial_type (stack_mem 0);
            let lhs := if serial_type =? 7 then b64 (v_r mem1) else i2d (v_i mem1) in
            Some (cmp_double lhs (b64 (v_r pRhs))));
    Some (Compared rc serial_type)
  else if flag f MEM_Str then
    p ← suffix aKey1 idx1;
    '(serial_type, _) ← getVarint32 p;
    if serial_type <? 12 then Some (Compared (-1) serial_type)
    else if negb (Z.odd serial_type) then Some (Compared 1 serial_type)
    else
      let len := (serial_type - 12) / 2 in
      if nKey1 <? u32 (d1 + len) then Some Corrupt
      else
        data ← suffix aKey1 d1;
        coll ← aget (aColl pKeyInfo) i;
        rc ← match coll with
             | Some coll => vdbeCompareMemString (mkVMem MEM_Str 0 0 0 data len (k_enc pKeyInfo)) pRhs coll
             | None => cmp_blob data len (v_z pRhs) (v_n pRhs)
             end;
        Some (Compared rc serial_type)
  else if flag f MEM_Blob then
    p ← suffix aKey1 idx1;
    '(serial_type, _) ← getVarint32 p;
    if (serial_type <? 12) || Z.odd serial_type then Some (Compared (-1) serial_type)
    else
      let nStr := (serial_type - 12) / 2 in
      if nKey1 <? u32 (d1 + nStr) then Some Corrupt
      else
        data ← suffix aKey1 d1;
        rc ← cmp_blob data nStr (v_z pRhs) (v_n pRhs);
        Some (Compared rc serial_type)
  else
    serial_type ← aget aKey1 idx1;
    Some (Compared (if serial_type =? 0 then 0 else 1) serial_type).

(** The do-while loop: the result and isCorrupt. *)
Fixpoint recordCompare_loop (fuel : nat) (nKey1 : Z) (aKey1 : list Z) (pPKey2 : UnpackedRecord)
    (szHdr1 d1 idx1 i : Z) : option (Z * Z) :=
  match fuel with
  | O => None
  | S f =>
      pRhs ← aget (aMem pPKey2) i;
      res ← compare_field nKey1 aKey1 (pKeyInfo pPKey2) d1 idx1 i pRhs;
      match res with
      | Corrupt => Some (0, SQLITE_CORRUPT)
      | Compared rc serial_type =>
          if negb (rc =? 0) then
            desc ← aget (aSortOrder (pKeyInfo pPKey2)) i;
            Some (if negb (desc =? 0) then - rc else rc, isCorrupt pPKey2)
          else
            len ← sqlite3VdbeSerialTypeLen serial_type;
            let d1 := u32 (d1 + len) in
            let idx1 := u32 (idx1 + sqlite3VarintLen serial_type) in
            if (idx1 <? szHdr1) && (i + 1 <? nField pPKey2) && (d1 <=? nKey1) then
              recordCompare_loop f nKey1 aKey1 pPKey2 szHdr1 d1 idx1 (i + 1)
            else Some (default_rc pPKey2, isCorrupt pPKey2)
      end
  end.

Definition sqlite3VdbeRecordCompare (nKey1 : Z) (aKey1 : list Z) (pPKey2 : UnpackedRecord) (bSkip : bool)
    : option (Z * Z) :=
  let fuel := S (length aKey1) in
  if bSkip then
    p ← suffix aKey1 1;
    '(s1, k) ← getVarint32 p;
    szHdr1 ← aget aKey1 0;
    len ← sqlite3VdbeSerialTypeLen s1;
    recordCompare_loop fuel nKey1 aKey1 pPKey2 szHdr1 (u32 (szHdr1 + len)) (1 + k) 1
  else
    '(szHdr1, idx1) ← getVarint32 aKey1;
    if nKey1 <? szHdr1 then Some (0, SQLITE_CORRUPT)
    else recordCompare_loop fuel nKey1 aKey1 pPKey2 szHdr1 szHdr1 idx1 0.

Definition vdbeRecordCompareInt (nKey1 : Z) (pKey1 : list Z) (pPKey2 : UnpackedRecord) : option (Z * Z) :=
  b0 ← aget pKey1 0;
  serial_type ← aget pKey1 1;
  m0 ← aget (aMem pPKey2) 0;
  let v := v_i m0 in
  if (serial_type =? 0) || (serial_type =? 7) || (9 <? serial_type) then
    sqlite3VdbeRecordCompare nKey1 pKey1 pPKey2 false
  else
    lhs ← (if serial_type =? 8 then Some 0
           else if serial_type =? 9 then Some 1
           else
             aKey ← suffix pKey1 (Z.land b0 63);
             if serial_type =? 1 then ONE_BYTE_INT aKey
             else if serial_type =? 2 then TWO_BYTE_INT aKey
             else if serial_type =? 3 then THREE_BYTE_INT aKey
             else if serial_type =? 4 then y ← FOUR_BYTE_UINT aKey; Some (as_int y)
             else if serial_type =? 5 then six_byte_int aKey
             else x ← eight_byte_uint aKey; Some (as_i64 x));
    if lhs <? v then Some (r1 pPKey2, isCorrupt pPKey2)
    else if v <? lhs then Some (r2 pPKey2, isCorrupt pPKey2)
    else if 1 <? nField pPKey2 then sqlite3VdbeRecordCompare nKey1 pKey1 pPKey2 true
    else Some (default_rc pPKey2, isCorrupt pPKey2).

Definition vdbeRecordCompareString (nKey1 : Z) (aKey1 : list Z) (pPKey2 : UnpackedRecord) : option (Z * Z) :=
  p ← suffix aKey1 1;
  '(serial_type, _) ← getVarint32 p;
  let serial_type := as_int serial_type in
  m0 ← aget (aMem pPKey2) 0;
  if serial_type <? 12 then Some (r1 pPKey2, isCorrupt pPKey2)
  else if negb (Z.odd serial_type) then Some (r2 pPKey2, isCorrupt pPKey2)
  else
    szHdr ← aget aKey1 0;
    let nStr := (serial_type - 12) / 2 in
    if nKey1 <? szHdr + nStr then Some (0, SQLITE_CORRUPT)
    else
      data ← suffix aKey1 szHdr;
      res ← memcmp data (v_z m0) (Z.to_nat (Z.min (v_n m0) nStr));
      let res := if res =? 0 then nStr - v_n m0 else res in
      if res =? 0 then
        if 1 <? nField pPKey2 then sqlite3VdbeRecordCompare nKey1 aKey1 pPKey2 true
        else Some (default_rc pPKey2, isCorrupt pPKey2)
      else Some (if 0 <? res then r2 pPKey2 else r1 pPKey2, isCorrupt pPKey2).

(** The function chosen, and the record with r1 and r2 set. *)
Inductive RecordCompare := CompareInt | CompareString | CompareGeneric.

Definition sqlite3VdbeFindCompare (p : UnpackedRecord) : option (RecordCompare * UnpackedRecord) :=
  if k_nField (pKeyInfo p) + k_nXField (pKeyInfo p) <=? 13 then
    m0 ← aget (aMem p) 0;
    desc ← aget (aSortOrder (pKeyInfo p)) 0;
    let '(a, b) := if negb (desc =? 0) then (1, -1) else (-1, 1) in
    let p := mkUnpackedRecord (pKeyInfo p) (nField p) (default_rc p) (isCorrupt p) (aMem p) a b in
    let f := v_flags m0 in
    if flag f MEM_Int then Some (CompareInt, p)
    else
      coll ← aget (aColl (pKeyInfo p)) 0;
      if negb (flag f (Z.lor MEM_Real (Z.lor MEM_Null MEM_Blob))) && (match coll with None => true | _ => false end) then
        _ ← assert_ (flag f MEM_Str);
        Some (CompareString, p)
      else Some (CompareGeneric, p)
  else Some (CompareGeneric, p).

(** A call through the function pointer. *)
Definition xRecordCompare (c : RecordCompare) (nKey1 : Z) (aKey1 : list Z) (p : UnpackedRecord) : option (Z * Z) :=
  match c with
  | CompareInt => vdbeRecordCompareInt nKey1 aKey1 p
  | CompareString => vdbeRecordCompareString nKey1 aKey1 p
  | CompareGeneric => sqlite3VdbeRecordCompare nKey1 aKey1 p false
  end.

End Compare.
