(* ===== verification/RecordValue.v ===== *)
(** * RecordValue: the values that record fields and memory cells stand for

    Serialisation, deserialisation and comparison of single values, against
    abstract values and their order. *)
From Stdlib Require Import SpecFloat.
From S2P Require Import Prelude Varint Atoi Record.

#[local] Arguments sqlite3IsNaN : simpl never.
#[local] Arguments b64 : simpl never.
#[local] Arguments i2d : simpl never.

(** ** Flag words *)

Lemma flag_bit f k : 0 <= k -> flag f (2 ^ k) = Z.testbit f k.
Proof.
  intros Hk. unfold flag. destruct (Z.testbit f k) eqn:E.
  - apply negb_true_iff, Z.eqb_neq. intros H. apply (f_equal (fun z => Z.testbit z k)) in H.
    rewrite Z.land_spec, E, Z.pow2_bits_true, Z.testbit_0_l in H by done. done.
  - apply negb_false_iff, Z.eqb_eq. apply Z.bits_inj'. intros j Hj.
    rewrite Z.land_spec, Z.testbit_0_l, Z.pow2_bits_eqb by done.
    destruct (Z.eqb_spec k j) as [<-|]; [by rewrite E|apply andb_false_r].
Qed.

Lemma flag_lor_l a b k : flag (Z.lor a b) k = flag a k || flag b k.
Proof.
  unfold flag. rewrite Z.land_lor_distr_l. apply bool_iff.
  rewrite orb_true_iff, !negb_true_iff, !Z.eqb_neq, Z.lor_eq_0_iff.
  destruct (Z.eq_dec (Z.land a k) 0), (Z.eq_dec (Z.land b k) 0); tauto.
Qed.

Lemma flag_lor_r f a b : flag f (Z.lor a b) = flag f a || flag f b.
Proof. unfold flag. rewrite !(Z.land_comm f). apply (flag_lor_l a b f). Qed.

Lemma flag_land_int a b : flag (Z.land a b) MEM_Int = flag a MEM_Int && flag b MEM_Int.
Proof. change MEM_Int with (2 ^ 2). rewrite !flag_bit, Z.land_spec by lia. done. Qed.

Lemma land_null f : Z.land f MEM_Null = if flag f MEM_Null then 1 else 0.
Proof.
  change MEM_Null with (2 ^ 0). rewrite flag_bit by lia. change (2 ^ 0) with (Z.ones 1).
  rewrite Z.land_ones, <- Z.bit0_mod by lia. by destruct (Z.testbit f 0).
Qed.

(** ** Abstract values *)

Inductive value := VNull | VInt (i : Z) | VReal (x : Z) | VText (s : list Z) | VBlob (s : list Z).

(** A cell stands for a value; [e] is the text encoding in use. *)
Definition represents (e : Z) (m : VMem) (v : value) : Prop :=
  let f := v_flags m in
  flag f MEM_RowSet = false /\
  match v with
  | VNull => flag f MEM_Null = true /\ flag f MEM_Int = false /\ flag f MEM_Real = false /\
             flag f MEM_Str = false /\ flag f MEM_Blob = false
  | VInt i => flag f MEM_Null = false /\ flag f MEM_Int = true /\ flag f MEM_Real = false /\ v_i m = i
  | VReal x => flag f MEM_Null = false /\ flag f MEM_Int = false /\ flag f MEM_Real = true /\ v_r m = x
  | VText s => flag f MEM_Null = false /\ flag f MEM_Int = false /\ flag f MEM_Real = false /\
               flag f MEM_Str = true /\ v_bytes m = Some s /\ v_enc m = e
  | VBlob s => flag f MEM_Null = false /\ flag f MEM_Int = false /\ flag f MEM_Real = false /\
               flag f MEM_Str = false /\ flag f MEM_Blob = true /\ v_bytes m = Some s
  end.

(** ** The order of values *)

Fixpoint bytes_cmp (a b : list Z) : Z :=
  match a, b with
  | x :: a', y :: b' => if x =? y then bytes_cmp a' b' else x - y
  | _, _ => Z.of_nat (length a) - Z.of_nat (length b)
  end.

Lemma bytes_cmp_refl a : bytes_cmp a a = 0.
Proof. induction a as [|x a IH]; simpl; [done|]. by rewrite Z.eqb_refl. Qed.

Lemma bytes_cmp_eq a : forall b, bytes_cmp a b = 0 -> a = b.
Proof.
  induction a as [|x a IH]; intros [|y b] H; simpl in H; [done|lia|lia|].
  destruct (Z.eqb_spec x y) as [->|]; [f_equal; by apply IH|lia].
Qed.

Section Order.
Variable valueText : list Z -> Z -> Z -> option (list Z).

Definition text_cmp (e : Z) (coll : option CollSeq) (a b : list Z) : Z :=
  match coll with
  | None => bytes_cmp a b
  | Some c =>
      if e =? c_enc c then xCmp c a b
      else xCmp c (from_option id [] (valueText a e (c_enc c))) (from_option id [] (valueText b e (c_enc c)))
  end.

(** NULLs, then numbers, then texts, then blobs. *)
Definition value_cmp (e : Z) (coll : option CollSeq) (v w : value) : Z :=
  match v, w with
  | VNull, VNull => 0
  | VNull, _ => -1
  | _, VNull => 1
  | VInt i, VInt j => cmp_i64 i j
  | VInt i, VReal y => cmp_double (i2d i) (b64 y)
  | VReal x, VInt j => cmp_double (b64 x) (i2d j)
  | VReal x, VReal y => cmp_double (b64 x) (b64 y)
  | (VInt _ | VReal _), _ => -1
  | _, (VInt _ | VReal _) => 1
  | VText a, VText b => text_cmp e coll a b
  | VText _, VBlob _ => -1
  | VBlob _, VText _ => 1
  | VBlob a, VBlob b => bytes_cmp a b
  end.

(** ** sqlite3MemCompare *)

Lemma memcmp_bytes a : forall b n1 n2,
  (n1 <= length a)%nat -> (n2 <= length b)%nat ->
  cmp_blob a (Z.of_nat n1) b (Z.of_nat n2) = Some (bytes_cmp (take n1 a) (take n2 b)).
Proof.
  unfold cmp_blob. intros b n1 n2. rewrite <- Nat2Z.inj_min, Nat2Z.id.
  revert b n1 n2. induction a as [|x a IH]; intros b n1 n2 H1 H2.
  - simpl in H1. assert (n1 = 0%nat) as -> by lia. rewrite Nat.min_0_l. cbn.
    rewrite length_take, Nat.min_l by done. done.
  - destruct n1 as [|n1]; [rewrite Nat.min_0_l; cbn; rewrite length_take, Nat.min_l by done; done|].
    destruct b as [|y b], n2 as [|n2]; try (simpl in H2; lia).
    1,2: cbn; rewrite length_take; simpl in *; rewrite Nat.min_l by lia; done.
    cbn [Nat.min memcmp take bytes_cmp]. destruct (Z.eqb_spec x y).
    + specialize (IH b n1 n2 ltac:(simpl in *; lia) ltac:(simpl in *; lia)).
      destruct (memcmp a b (Nat.min n1 n2)) as [rc|]; [|done]. cbn [mbind option_bind] in *. rewrite <- IH.
      destruct (rc =? 0); [|done]. f_equal. lia.
    + cbn [mbind option_bind]. by rewrite (proj2 (Z.eqb_neq (x - y) 0)) by lia.
Qed.

Lemma cmp_blob_bytes m1 m2 a b : v_bytes m1 = Some a -> v_bytes m2 = Some b ->
  cmp_blob (v_z m1) (v_n m1) (v_z m2) (v_n m2) = Some (bytes_cmp a b).
Proof.
  unfold v_bytes. repeat case_decide; intros [= <-] [= <-]. 
  rewrite <- (Z2Nat.id (v_n m1)), <- (Z2Nat.id (v_n m2)) by lia. rewrite memcmp_bytes by lia.
  by rewrite !Nat2Z.id.
Qed.

Lemma cmp_blob_prefix b rest m2 s : v_bytes m2 = Some s ->
  cmp_blob (b ++ rest) (Z.of_nat (length b)) (v_z m2) (v_n m2) = Some (bytes_cmp b s).
Proof.
  intros Hs. apply (cmp_blob_bytes (mkVMem 0 0 0 0 (b ++ rest) (Z.of_nat (length b)) 0) m2); [|done].
  unfold v_bytes. cbn. rewrite decide_True by (rewrite length_app; lia). by rewrite Nat2Z.id, take_app_length.
Qed.

Definition valid_enc (e : Z) : Prop := e = SQLITE_UTF8 \/ e = SQLITE_UTF16LE \/ e = SQLITE_UTF16BE.

Ltac mc_flags :=
  rewrite ?flag_lor_l, ?flag_lor_r, ?flag_land_int;
  repeat match goal with H : flag _ _ = _ |- _ => rewrite ?H; clear H end;
  cbn [orb andb negb assert_ mbind option_bind].

Lemma memCompare_value e coll m1 m2 v w :
  valid_enc e -> represents e m1 v -> represents e m2 w ->
  sqlite3MemCompare valueText m1 m2 coll = Some (value_cmp e coll v w).
Proof.
  intros He [R1 H1] [R2 H2]. unfold sqlite3MemCompare. cbv zeta. rewrite !land_null.
  destruct v, w; destruct_and!;
    repeat match goal with H : v_i _ = ?i |- _ => subst i | H : v_r _ = ?x |- _ => subst x end;
    mc_flags; try done.
  all: repeat match goal with H : v_enc _ = _ |- _ => rewrite H end.
  - rewrite Z.eqb_refl. cbn [andb].
    assert ((e =? SQLITE_UTF8) || (e =? SQLITE_UTF16LE) || (e =? SQLITE_UTF16BE) = true) as ->
      by (by destruct He as [-> |[-> | ->]]).
    cbn [orb assert_ mbind option_bind value_cmp]. unfold text_cmp. destruct coll as [c|].
    + unfold vdbeCompareMemString.
      repeat match goal with H : v_bytes _ = Some _ |- _ => rewrite H; clear H end.
      repeat match goal with H : v_enc _ = _ |- _ => rewrite H; clear H end. cbn [mbind option_bind].
      by destruct (e =? c_enc c).
    + by apply cmp_blob_bytes.
  - cbn [value_cmp]. destruct coll; by apply cmp_blob_bytes.
Qed.
End Order.

(** ** Big-endian integers *)

Definition be_val (l : list Z) : Z := foldl (fun a b => a * 256 + b) 0 l.

(** The signed integer of [k] bits with unsigned value [v]. *)
Definition sgn (k v : Z) : Z := if v <? 2 ^ (k - 1) then v else v - 2 ^ k.

Ltac ltb_lia :=
  repeat match goal with |- context [?x <? ?y] => destruct (Z.ltb_spec x y) end; f_equal; lia.

Lemma mul_lor x y k : 0 <= k -> 0 <= y < 2 ^ k -> Z.lor (2 ^ k * x) y = 2 ^ k * x + y.
Proof. intros Hk Hy. rewrite Z.mul_comm, <- Z.shiftl_mul_pow2 by done. rewrite lor_shift by done. by rewrite Z.shiftl_mul_pow2. Qed.

Lemma lor_assoc3 x y w : Z.lor (Z.lor x y) w = Z.lor x (Z.lor y w).
Proof. by rewrite Z.lor_assoc. Qed.

Lemma be2 a b : is_byte a -> is_byte b -> Z.lor (Z.shiftl a 8) b = a * 256 + b.
Proof. unfold ubits. intros. rewrite lor_shift by lia. lia. Qed.

Lemma i8_sgn a : i8 a = sgn 8 a.
Proof. done. Qed.

Lemma two_byte a b rest : is_byte a -> is_byte b -> TWO_BYTE_INT (a :: b :: rest) = Some (sgn 16 (be_val [a; b])).
Proof.
  unfold ubits. intros Ha Hb. unfold TWO_BYTE_INT. 
  change (aget (a :: b :: rest) 0) with (Some a). change (aget (a :: b :: rest) 1) with (Some b). cbn [mbind option_bind].
  change 256 with (2 ^ 8). rewrite mul_lor by lia. unfold sgn, i8, be_val. simpl foldl.
  ltb_lia.
Qed.

Lemma three_byte a b c rest : is_byte a -> is_byte b -> is_byte c ->
  THREE_BYTE_INT (a :: b :: c :: rest) = Some (sgn 24 (be_val [a; b; c])).
Proof.
  unfold ubits. intros Ha Hb Hc. unfold THREE_BYTE_INT.
  change (aget (a :: b :: c :: rest) 0) with (Some a). change (aget (a :: b :: c :: rest) 1) with (Some b).
  change (aget (a :: b :: c :: rest) 2) with (Some c). cbn [mbind option_bind].
  rewrite lor_assoc3, be2 by done. change 65536 with (2 ^ 16). rewrite mul_lor by lia. unfold sgn, i8, be_val. simpl foldl.
  ltb_lia.
Qed.

Lemma four_byte a b c d rest : is_byte a -> is_byte b -> is_byte c -> is_byte d ->
  FOUR_BYTE_UINT (a :: b :: c :: d :: rest) = Some (be_val [a; b; c; d]).
Proof.
  unfold ubits. intros Ha Hb Hc Hd. unfold FOUR_BYTE_UINT.
  change (aget (a :: b :: c :: d :: rest) 0) with (Some a). change (aget (a :: b :: c :: d :: rest) 1) with (Some b).
  change (aget (a :: b :: c :: d :: rest) 2) with (Some c). change (aget (a :: b :: c :: d :: rest) 3) with (Some d).
  cbn [mbind option_bind]. unfold u32. rewrite Z.mod_small by (rewrite Z.shiftl_mul_pow2; lia).
  rewrite !lor_assoc3, be2 by done. rewrite (lor_shift b) by lia. rewrite lor_shift by lia. unfold be_val. simpl foldl. f_equal. lia.
Qed.

Lemma be_val_app l x : be_val (l ++ [x]) = be_val l * 256 + x.
Proof. unfold be_val. by rewrite foldl_app. Qed.

Lemma be_val_range l : Forall is_byte l -> 0 <= be_val l < 256 ^ Z.of_nat (length l).
Proof.
  induction l as [|x l IH] using rev_ind; intros Hl; [done|]. apply Forall_app in Hl as [Hl [Hx _]%Forall_cons].
  rewrite be_val_app, length_app. simpl (length [x]). rewrite Nat2Z.inj_add, Z.pow_add_r by lia.
  specialize (IH Hl). unfold ubits in Hx. simpl (256 ^ Z.of_nat 1). nia.
Qed.

Lemma six_byte a b c d e f rest : Forall is_byte [a; b; c; d; e; f] ->
  six_byte_int (a :: b :: c :: d :: e :: f :: rest) = Some (sgn 48 (be_val [a; b; c; d; e; f])).
Proof.
  intros H. repeat (apply Forall_cons in H as [? H]). unfold six_byte_int.
  change (drop 2 (a :: b :: c :: d :: e :: f :: rest)) with (c :: d :: e :: f :: rest).
  rewrite four_byte, two_byte by done. cbn [mbind option_bind]. change (Z.shiftl 1 32) with (2 ^ 32).
  unfold ubits, sgn, be_val in *. simpl foldl.
  ltb_lia.
Qed.

Lemma eight_byte a b c d e f g h rest : Forall is_byte [a; b; c; d; e; f; g; h] ->
  eight_byte_uint (a :: b :: c :: d :: e :: f :: g :: h :: rest) = Some (be_val [a; b; c; d; e; f; g; h]).
Proof.
  intros H. repeat (apply Forall_cons in H as [? H]). unfold eight_byte_uint.
  change (drop 4 (a :: b :: c :: d :: e :: f :: g :: h :: rest)) with (e :: f :: g :: h :: rest).
  rewrite !four_byte by done. cbn [mbind option_bind]. unfold u64.
  unfold ubits, be_val in *. simpl foldl. rewrite Z.mod_small by (rewrite Z.shiftl_mul_pow2; lia).
  rewrite lor_shift by lia. f_equal. lia.
Qed.

(** ** Fields *)

(** The value of a field: the content [b] of serial type [t]. *)
Definition field_value (t : Z) (b : list Z) : value :=
  if t =? 0 then VNull
  else if t <=? 6 then VInt (sgn (8 * Z.of_nat (length b)) (be_val b))
  else if t =? 7 then VReal (be_val b)
  else if t <=? 9 then VInt (t - 8)
  else if Z.odd t then VText b else VBlob b.

(** A field as a record may contain it. *)
Record field_ok (t : Z) (b : list Z) : Prop := {
  fo_range : 0 <= t < 2 ^ 31;
  fo_type : t <> 10 /\ t <> 11;
  fo_len : sqlite3VdbeSerialTypeLen t = Some (Z.of_nat (length b));
  fo_bytes : Forall is_byte b;
  fo_nan : t = 7 -> sqlite3IsNaN (be_val b) = false }.

Lemma field_cases t b : field_ok t b ->
  t = 0 /\ b = [] \/
  t = 1 /\ (exists x0, b = [x0]) \/ t = 2 /\ (exists x0 x1, b = [x0; x1]) \/ t = 3 /\ (exists x0 x1 x2, b = [x0; x1; x2]) \/
  t = 4 /\ (exists x0 x1 x2 x3, b = [x0; x1; x2; x3]) \/ t = 5 /\ (exists x0 x1 x2 x3 x4 x5, b = [x0; x1; x2; x3; x4; x5]) \/
  (t = 6 \/ t = 7) /\ (exists x0 x1 x2 x3 x4 x5 x6 x7, b = [x0; x1; x2; x3; x4; x5; x6; x7]) \/
  (t = 8 \/ t = 9) /\ b = [] \/
  12 <= t /\ Z.of_nat (length b) = (t - 12) / 2.
Proof.
  intros [Hr Ht Hl _ _]. unfold sqlite3VdbeSerialTypeLen in Hl.
  destruct (Z.leb_spec 12 t) as [H12|H12]; [injection Hl as Hl; do 8 right; lia|].
  assert (t = 0 \/ t = 1 \/ t = 2 \/ t = 3 \/ t = 4 \/ t = 5 \/ t = 6 \/ t = 7 \/ t = 8 \/ t = 9) as Hc by lia.
  destruct Hc as [->|[->|[->|[->|[->|[->|[->|[->|[->| ->]]]]]]]]]; injection Hl as Hl;
    repeat (destruct b as [|? b]; simpl in Hl; try lia); naive_solver.
Qed.

Lemma serialGet_field t b rest m : field_ok t b ->
  exists m', sqlite3VdbeSerialGet (b ++ rest) t m = Some (m', Z.of_nat (length b)) /\
    represents (v_enc m) m' (field_value t b).
Proof.
  intros Hf. pose proof (fo_bytes _ _ Hf) as Hb. pose proof (fo_nan _ _ Hf) as Hn. pose proof (fo_len _ _ Hf) as Hlen.
  destruct (field_cases t b Hf) as
    [[-> ->]|[[-> (x0 & ->)]|[[-> (x0 & x1 & ->)]|[[-> (x0 & x1 & x2 & ->)]|[[-> (x0 & x1 & x2 & x3 & ->)]|
     [[-> (x0 & x1 & x2 & x3 & x4 & x5 & ->)]|[[Ht (x0 & x1 & x2 & x3 & x4 & x5 & x6 & x7 & ->)]|[[Ht ->]|[Ht Hl]]]]]]]]].
  - eexists. split; [reflexivity|]. done.
  - eexists. split; [reflexivity|]. split; [done|]. repeat apply Forall_cons in Hb as [? Hb]. done.
  - repeat apply Forall_cons in Hb as [? Hb]. unfold sqlite3VdbeSerialGet. simpl app. rewrite two_byte by done. eexists. split; [reflexivity|]. done.
  - repeat apply Forall_cons in Hb as [? Hb]. unfold sqlite3VdbeSerialGet. simpl app. rewrite three_byte by done. eexists. split; [reflexivity|]. done.
  - repeat apply Forall_cons in Hb as [? Hb]. unfold sqlite3VdbeSerialGet. simpl app. rewrite four_byte by done. eexists. split; [reflexivity|]. done.
  - unfold sqlite3VdbeSerialGet. simpl app. rewrite six_byte by done. eexists. split; [reflexivity|]. done.
  - unfold sqlite3VdbeSerialGet. simpl app. rewrite eight_byte by done. destruct Ht as [-> | ->].
    + eexists. split; [reflexivity|]. done.
    + cbn [Z.eqb Pos.eqb orb mbind option_bind]. rewrite Hn by done. eexists. split; [reflexivity|]. done.
  - destruct Ht as [-> | ->]; eexists; (split; [reflexivity|]); done.
  - unfold sqlite3VdbeSerialGet. assert (forall k, k < 12 -> (t =? k) = false) as Hk by (intros; apply Z.eqb_neq; lia).
    rewrite !Hk by lia. cbn [orb]. rewrite <- Hl. eexists. split; [reflexivity|]. unfold field_value.
    rewrite !Hk, !(proj2 (Z.leb_gt t _)) by lia.
    assert (forall f, v_bytes (mkVMem f (v_i m) (v_nZero m) (v_r m) (b ++ rest) (Z.of_nat (length b)) (v_enc m)) = Some b) as Hbytes.
    { intros f. unfold v_bytes. cbn. rewrite decide_True by (rewrite length_app; lia). by rewrite Nat2Z.id, take_app_length. }
    destruct (Z.odd t); split; try done; split_and!; (done || apply Hbytes).
Qed.

Lemma decodeInt_field t b rest i : field_ok t b -> field_value t b = VInt i ->
  vdbeRecordDecodeInt t (b ++ rest) = Some i.
Proof.
  intros Hf Hv. pose proof (fo_bytes _ _ Hf) as Hb.
  destruct (field_cases t b Hf) as
    [[-> ->]|[[-> (x0 & ->)]|[[-> (x0 & x1 & ->)]|[[-> (x0 & x1 & x2 & ->)]|[[-> (x0 & x1 & x2 & x3 & ->)]|
     [[-> (x0 & x1 & x2 & x3 & x4 & x5 & ->)]|[[Ht (x0 & x1 & x2 & x3 & x4 & x5 & x6 & x7 & ->)]|[[Ht ->]|[Ht Hl]]]]]]]]].
  - done.
  - injection Hv as <-. done.
  - repeat apply Forall_cons in Hb as [? Hb]. injection Hv as <-. unfold vdbeRecordDecodeInt. simpl app. by rewrite two_byte.
  - repeat apply Forall_cons in Hb as [? Hb]. injection Hv as <-. unfold vdbeRecordDecodeInt. simpl app. by rewrite three_byte.
  - repeat apply Forall_cons in Hb as [? Hb]. injection Hv as <-. unfold vdbeRecordDecodeInt. simpl app. by rewrite four_byte.
  - injection Hv as <-. unfold vdbeRecordDecodeInt. simpl app. by rewrite six_byte.
  - destruct Ht as [-> | ->]; [|done]. injection Hv as <-. unfold vdbeRecordDecodeInt. simpl app. by rewrite eight_byte.
  - destruct Ht as [-> | ->]; injection Hv as <-; done.
  - unfold field_value in Hv. rewrite (proj2 (Z.eqb_neq t 0)), (proj2 (Z.eqb_neq t 7)), !(proj2 (Z.leb_gt t _)) in Hv by lia.
    by destruct (Z.odd t).
Qed.

(** What the serial type alone says of the value. *)
Lemma field_value_kind t b : field_ok t b ->
  match field_value t b with
  | VNull => t = 0
  | VInt _ => t <> 0 /\ t <> 7 /\ t < 12
  | VReal _ => t = 7
  | VText s => 12 <= t /\ Z.odd t = true /\ s = b
  | VBlob s => 12 <= t /\ Z.odd t = false /\ s = b
  end.
Proof.
  intros [Hr Ht _ _ _]. unfold field_value. destruct (Z.eqb_spec t 0); [done|].
  destruct (Z.leb_spec t 6); [lia|]. destruct (Z.eqb_spec t 7); [done|]. destruct (Z.leb_spec t 9); [lia|].
  destruct (Z.odd t) eqn:E; split_and!; (done || lia).
Qed.

(** ** Comparing one field of a record *)

Section Field.
Variable valueText : list Z -> Z -> Z -> option (list Z).
Abbreviation compare_field := (compare_field valueText).

(** Inside [aKey1], the serial type of the field is at idx1 and its content
    at d1. *)
Record at_field (aKey1 : list Z) (nKey1 idx1 d1 t : Z) (b : list Z) : Prop := {
  af_hdr : exists l rest, suffix aKey1 idx1 = Some (l ++ rest) /\ encodes t l /\ Forall is_byte rest;
  af_data : exists rest, suffix aKey1 d1 = Some (b ++ rest);
  af_end : 0 <= d1 /\ d1 + Z.of_nat (length b) <= nKey1 < 2 ^ 31 }.

Lemma suffix_aget {A} (l l' : list A) i : suffix l i = Some l' -> aget l i = aget l' 0.
Proof.
  unfold suffix, aget. case_decide; [|done]. intros [= <-]. rewrite !decide_True by lia.
  rewrite lookup_drop. f_equal. lia.
Qed.

(** The first byte of a varint: the value itself when it is below 128. *)
Lemma encodes_first t l : encodes t l -> 0 <= t < 2 ^ 31 ->
  exists c l', l = c :: l' /\ (t < 128 -> c = t) /\ (128 <= t -> 128 <= c).
Proof.
  intros (Hb & Hl & Hlen & Hd) Ht. destruct l as [|c l]; [simpl in Hl; lia|]. exists c, l. split; [done|].
  apply Forall_cons in Hb as [Hc Hb]. specialize (Hd []). rewrite app_nil_r in Hd.
  destruct (Z.ltb_spec c 128) as [Hs|Hs].
  - assert (t = c) as ->; [|lia].
    unfold varint_spec in Hd. cbn [varint_dec] in Hd.
    assert (top c = false) as Htop by (pose proof (top_small c Hc) as E; rewrite (proj2 (Z.ltb_lt c 128)) in E by done; by destruct (top c)).
    rewrite Htop in Hd. change (Z.lor (Z.shiftl 0 7) c) with c in Hd. congruence.
  - split; [|lia]. intros Hsm. exfalso.
    assert (sqlite3VarintLen t = 1) as H1.
    { unfold sqlite3VarintLen. cbn. rewrite Z.shiftr_div_pow2, Z.div_small by lia. done. }
    destruct l as [|c' l]; [|simpl in Hlen; lia].
    unfold varint_spec in Hd. cbn [varint_dec] in Hd. pose proof (top_small c Hc) as E.
    rewrite (proj2 (Z.ltb_ge c 128)) in E by done. destruct (top c); [|done]. done.
Qed.

(** The serial type as the comparison reads it: the first byte alone, or the
    whole varint. *)
Lemma at_field_type aKey1 nKey1 idx1 d1 t b : field_ok t b -> at_field aKey1 nKey1 idx1 d1 t b ->
  exists c p, aget aKey1 idx1 = Some c /\ (t < 128 -> c = t) /\ (128 <= t -> 128 <= c) /\
    suffix aKey1 idx1 = Some p /\ getVarint32 p = Some (t, sqlite3VarintLen t).
Proof.
  intros Hf [(l & rest & Hs & He & Hr) _ _]. pose proof (fo_range _ _ Hf) as Ht.
  destruct (encodes_first t l He Ht) as (c & l' & -> & H1 & H2). exists c, ((c :: l') ++ rest).
  split_and!; [by rewrite (suffix_aget _ _ _ Hs)|done|done|done|].
  destruct He as (Hb & _ & Hlen & Hd). rewrite (getVarint32_spec _ t (Z.of_nat (length (c :: l')))); [|by apply Forall_app|apply Hd].
  rewrite Hlen. do 2 f_equal. lia.
Qed.

Lemma compare_field_value e ki aKey1 nKey1 idx1 d1 i t b rhs w coll :
  k_enc ki = e -> field_ok t b -> at_field aKey1 nKey1 idx1 d1 t b -> represents e rhs w ->
  aget (aColl ki) i = Some coll ->
  exists t', compare_field nKey1 aKey1 ki d1 idx1 i rhs =
      Some (Compared (value_cmp valueText e coll (field_value t b) w) t') /\
    (value_cmp valueText e coll (field_value t b) w = 0 -> t' = t).
Proof.
  intros <- Hf Hat [_ Hw] Hcoll.
  destruct (at_field_type _ _ _ _ _ _ Hf Hat) as (c & p & Hc & Hc1 & Hc2 & Hp & Hg).
  destruct Hat as [_ [rest Hdata] Hend]. pose proof (field_value_kind t b Hf) as Hk.
  pose proof (fo_range _ _ Hf) as Htr.
  assert (forall rest' m, exists m', sqlite3VdbeSerialGet (b ++ rest') t m = Some (m', Z.of_nat (length b)) /\
    represents (v_enc m) m' (field_value t b)) as Hget by (intros; by apply serialGet_field).
  unfold Record.compare_field. cbv zeta. destruct w as [|j|y|s|s]; destruct_and! Hw.
  - (* NULL *)
    repeat match goal with H : flag _ _ = _ |- _ => rewrite H; clear H end. rewrite Hc. cbn [mbind option_bind].
    exists c. destruct (field_value t b); split; try (intros; lia); destruct (Z.eqb_spec c 0); (done || lia).
  - (* integer *)
    repeat match goal with H : flag _ _ = _ |- _ => rewrite H; clear H end. rewrite Hc. cbn [mbind option_bind].
    assert ((t < 12 -> c = t) /\ (12 <= t -> 12 <= c)) as [Hs Hl] by lia.
    destruct (field_value t b) as [|k|x|s|s] eqn:Ev; cbn [value_cmp].
    + assert (c = 0) as -> by lia. eexists. split; [reflexivity|lia].
    + rewrite Hs by lia. rewrite (proj2 (Z.leb_gt 12 t)), (proj2 (Z.eqb_neq t 0)), (proj2 (Z.eqb_neq t 7)) by lia.
      rewrite Hdata. cbn [mbind option_bind]. rewrite (decodeInt_field t b rest k Hf Ev). cbn [mbind option_bind].
      subst j. eexists. split; [reflexivity|]. lia.
    + rewrite Hs by lia. rewrite Hk. cbn [Z.leb Z.compare Pos.compare Pos.compare_cont Z.eqb Pos.eqb]. rewrite Hdata. cbn [mbind option_bind].
      destruct (Hget rest (stack_mem 0)) as (m' & He & [_ Hrep]). rewrite Hk in He. rewrite He. cbn [mbind option_bind].
      destruct Hrep as (_ & _ & _ & ->). subst j. eexists. split; [reflexivity|]. lia.
    + rewrite (proj2 (Z.leb_le 12 c)) by lia. eexists. split; [reflexivity|lia].
    + rewrite (proj2 (Z.leb_le 12 c)) by lia. eexists. split; [reflexivity|lia].
  - (* real *)
    repeat match goal with H : flag _ _ = _ |- _ => rewrite H; clear H end. rewrite Hc. cbn [mbind option_bind].
    assert ((t < 12 -> c = t) /\ (12 <= t -> 12 <= c)) as [Hs Hl] by lia.
    destruct (field_value t b) as [|k|x|s|s] eqn:Ev; cbn [value_cmp].
    + assert (c = 0) as -> by lia. eexists. split; [reflexivity|lia].
    + rewrite Hs by lia. rewrite (proj2 (Z.leb_gt 12 t)), (proj2 (Z.eqb_neq t 0)), (proj2 (Z.eqb_neq t 7)) by lia.
      rewrite Hdata. cbn [mbind option_bind]. destruct (Hget rest (stack_mem 0)) as (m' & -> & [_ Hrep]). cbn [mbind option_bind].
      destruct Hrep as (_ & _ & _ & ->). subst y. eexists. split; [reflexivity|]. lia.
    + rewrite Hs by lia. rewrite Hk. cbn [Z.leb Z.compare Pos.compare Pos.compare_cont Z.eqb Pos.eqb]. rewrite Hdata. cbn [mbind option_bind].
      destruct (Hget rest (stack_mem 0)) as (m' & He & [_ Hrep]). rewrite Hk in He. rewrite He. cbn [mbind option_bind].
      destruct Hrep as (_ & _ & _ & ->). subst y. eexists. split; [reflexivity|]. lia.
    + rewrite (proj2 (Z.leb_le 12 c)) by lia. eexists. split; [reflexivity|lia].
    + rewrite (proj2 (Z.leb_le 12 c)) by lia. eexists. split; [reflexivity|lia].
  - (* text *)
    repeat match goal with H : flag _ _ = _ |- _ => rewrite H; clear H end. rewrite Hp. cbn [mbind option_bind]. rewrite Hg. cbn [mbind option_bind].
    exists t. split; [|done]. destruct (field_value t b) as [|k|x|s'|s'] eqn:Ev; cbn [value_cmp].
    1-3: rewrite (proj2 (Z.ltb_lt t 12)) by lia; done.
    + destruct Hk as (Hk & Hodd & ->). rewrite (proj2 (Z.ltb_ge t 12)), Hodd by lia. cbn [negb].
      destruct (field_cases t b Hf) as [?|[?|[?|[?|[?|[?|[?|[?|[_ Hlen]]]]]]]]]; try lia.
      rewrite <- Hlen. unfold u32. rewrite Z.mod_small, (proj2 (Z.ltb_ge nKey1 _)) by lia.
      rewrite Hdata, Hcoll. cbn [mbind option_bind]. unfold text_cmp.
      assert (forall f, v_bytes (mkVMem f 0 0 0 (b ++ rest) (Z.of_nat (length b)) (k_enc ki)) = Some b) as Hbytes.
      { intros f. unfold v_bytes. cbn. rewrite decide_True by (rewrite length_app; lia). by rewrite Nat2Z.id, take_app_length. }
      destruct coll as [cl|].
      * unfold vdbeCompareMemString. rewrite Hbytes. cbn [mbind option_bind].
        match goal with H : v_bytes rhs = Some s |- _ => rewrite H end. cbn [mbind option_bind v_enc].
        match goal with H : v_enc rhs = _ |- _ => rewrite H end. by destruct (k_enc ki =? c_enc cl).
      * rewrite (cmp_blob_prefix b rest rhs s); done.
    + destruct Hk as (Hk & Hodd & ->). rewrite (proj2 (Z.ltb_ge t 12)), Hodd by lia. done.
  - (* blob *)
    repeat match goal with H : flag _ _ = _ |- _ => rewrite H; clear H end. rewrite Hp. cbn [mbind option_bind]. rewrite Hg. cbn [mbind option_bind].
    exists t. split; [|done]. destruct (field_value t b) as [|k|x|s'|s'] eqn:Ev; cbn [value_cmp].
    1-3: rewrite (proj2 (Z.ltb_lt t 12)) by lia; done.
    + destruct Hk as (Hk & Hodd & ->). rewrite Hodd, orb_true_r. done.
    + destruct Hk as (Hk & Hodd & ->). rewrite (proj2 (Z.ltb_ge t 12)), Hodd by lia. cbn [orb].
      destruct (field_cases t b Hf) as [?|[?|[?|[?|[?|[?|[?|[?|[_ Hlen]]]]]]]]]; try lia.
      rewrite <- Hlen. unfold u32. rewrite Z.mod_small, (proj2 (Z.ltb_ge nKey1 _)) by lia.
      rewrite Hdata. cbn [mbind option_bind].
      rewrite (cmp_blob_prefix b rest rhs s); done.
Qed.
End Field.
