(* ===== verification/RecordCompare.v ===== *)
(** * RecordCompare: the comparison routines agree with the order of values

    sqlite3VdbeRecordCompare, its variants for a leading integer or text, and
    the reference vdbeRecordCompareDebug, on well-formed records. *)
From Stdlib Require Import SpecFloat.
From S2P Require Import Prelude Varint Atoi Record RecordValue.

(** ** Well-formed records *)

Definition varint_bytes (t : Z) : list Z := from_option fst [] (sqlite3PutVarint t).

Lemma varint_bytes_ok t : 0 <= t < 2 ^ 64 -> encodes t (varint_bytes t).
Proof.
  intros Ht. destruct (putVarint_spec t) as (l & Hp & He); [lia|].
  unfold varint_bytes. by rewrite Hp.
Qed.

Abbreviation field := (Z * list Z)%type.

Definition hdr (fs : list field) : list Z := fs ≫= fun f => varint_bytes (fst f).
Definition content (fs : list field) : list Z := fs ≫= snd.
Definition values (fs : list field) : list value := map (fun f => field_value (fst f) (snd f)) fs.

(** The record with fields [fs], possibly followed by other memory: its
    header size, the serial types and the contents. *)
Record key_ok (fs : list field) (h pad aKey : list Z) (nKey : Z) : Prop := {
  ko_key : aKey = h ++ hdr fs ++ content fs ++ pad;
  ko_size : encodes (Z.of_nat (length (h ++ hdr fs))) h;
  ko_nKey : nKey = Z.of_nat (length (h ++ hdr fs ++ content fs));
  ko_small : nKey < 2 ^ 31;
  ko_pad : Forall is_byte pad;
  ko_fields : Forall (fun f => field_ok (fst f) (snd f)) fs }.

Lemma hdr_cons t b fs : hdr ((t, b) :: fs) = varint_bytes t ++ hdr fs.
Proof. done. Qed.
Lemma content_cons t b fs : content ((t, b) :: fs) = b ++ content fs.
Proof. done. Qed.
Lemma hdr_app a b : hdr (a ++ b) = hdr a ++ hdr b.
Proof. unfold hdr. by rewrite bind_app. Qed.
Lemma content_app a b : content (a ++ b) = content a ++ content b.
Proof. unfold content. by rewrite bind_app. Qed.

Lemma hdr_bytes fs : Forall (fun f => field_ok (fst f) (snd f)) fs -> Forall is_byte (hdr fs) /\ Forall is_byte (content fs).
Proof.
  induction 1 as [|[t b] fs Hf _ [IH1 IH2]]; [done|]. unfold hdr, content in *. simpl in *.
  rewrite !Forall_app. split_and!; [|done|apply Hf|done].
  apply (varint_bytes_ok t). pose proof (fo_range _ _ Hf). lia.
Qed.

Section Key.
Context (fs : list field) (h pad aKey : list Z) (nKey : Z).
Hypothesis Hkey : key_ok fs h pad aKey nKey.

Definition hdr_pos (fs1 : list field) : Z := Z.of_nat (length (h ++ hdr fs1)).
Definition data_pos (fs1 : list field) : Z := Z.of_nat (length (h ++ hdr fs ++ content fs1)).

Lemma key_field fs1 t b fs2 : fs = fs1 ++ (t, b) :: fs2 ->
  field_ok t b /\ at_field aKey nKey (hdr_pos fs1) (data_pos fs1) t b /\
  hdr_pos (fs1 ++ [(t, b)]) = hdr_pos fs1 + sqlite3VarintLen t /\
  data_pos (fs1 ++ [(t, b)]) = data_pos fs1 + Z.of_nat (length b) /\
  0 <= hdr_pos (fs1 ++ [(t, b)]) <= nKey /\ 0 <= data_pos (fs1 ++ [(t, b)]) <= nKey.
Proof.
  intros E. destruct Hkey as [Hk Hs Hn Hsm Hp Hf].
  assert (field_ok t b) as Hfo.
  { rewrite E in Hf. apply Forall_app in Hf as [_ [Hf _]%Forall_cons]. done. }
  pose proof (varint_bytes_ok t ltac:(pose proof (fo_range _ _ Hfo); lia)) as He.
  destruct He as (Hvb & Hvl & Hvn & Hvd). 
  assert (Z.of_nat (length (hdr fs)) = Z.of_nat (length (hdr fs1)) + sqlite3VarintLen t + Z.of_nat (length (hdr fs2)) /\
    Z.of_nat (length (content fs)) = Z.of_nat (length (content fs1)) + Z.of_nat (length b) + Z.of_nat (length (content fs2))) as [Hh Hc].
  { rewrite E, hdr_app, content_app, hdr_cons, content_cons, !length_app. lia. }
  destruct (hdr_bytes fs Hf) as [Hhb Hcb].
  unfold hdr_pos, data_pos. split; [done|]. split; [|rewrite hdr_app, content_app, hdr_cons, content_cons, !length_app in *; simpl length;
    split_and!; lia].
  split.
  - exists (varint_bytes t), (hdr fs2 ++ content fs ++ pad). split_and!; [|done|].
    + rewrite Hk. replace (h ++ hdr fs ++ content fs ++ pad) with ((h ++ hdr fs1) ++ varint_bytes t ++ hdr fs2 ++ content fs ++ pad).
      * apply suffix_app.
      * rewrite E, hdr_app. rewrite hdr_cons. by rewrite <- !app_assoc.
    + rewrite !Forall_app. split_and!; [|done|done]. rewrite E, hdr_app in Hhb. apply Forall_app in Hhb as [_ Hhb].
      rewrite hdr_cons in Hhb. by apply Forall_app in Hhb as [_ ?].
  - exists (content fs2 ++ pad). rewrite Hk.
    replace (h ++ hdr fs ++ content fs ++ pad) with ((h ++ hdr fs ++ content fs1) ++ b ++ content fs2 ++ pad).
    + apply suffix_app.
    + rewrite E, content_app. rewrite content_cons. by rewrite <- !app_assoc.
  - rewrite !length_app in *. lia.
Qed.

Lemma hdr_pos_end fs1 fs2 : fs = fs1 ++ fs2 ->
  (hdr_pos fs1 <? hdr_pos fs) = negb (bool_decide (fs2 = [])).
Proof.
  intros E. unfold hdr_pos. destruct fs2 as [|[t b] fs2].
  - rewrite app_nil_r in E. rewrite E. apply Z.ltb_irrefl.
  - rewrite E, hdr_app, !length_app. apply Z.ltb_lt.
    rewrite hdr_cons. rewrite length_app.
    destruct Hkey as [_ _ _ _ _ Hf]. rewrite E in Hf. apply Forall_app in Hf as [_ [Hf _]%Forall_cons].
    destruct (varint_bytes_ok t) as (_ & Hl & _); [pose proof (fo_range _ _ Hf); simpl in *; lia|]. lia.
Qed.

Lemma key_header : getVarint32 aKey = Some (hdr_pos fs, hdr_pos []).
Proof.
  destruct Hkey as [Hk (Hb & Hl & Hn & Hd) HnK Hsm Hp Hf]. destruct (hdr_bytes fs Hf) as [Hhb Hcb].
  rewrite Hk. rewrite (getVarint32_spec _ (hdr_pos fs) (Z.of_nat (length h))); [|by repeat (apply Forall_app; split)|apply Hd].
  do 2 f_equal; [|unfold hdr_pos, hdr; simpl; by rewrite app_nil_r].
  unfold hdr_pos. rewrite !length_app in *. lia.
Qed.
End Key.

(** ** Unpacked records *)

Record unpacked_ok (e : Z) (p : UnpackedRecord) (ws : list value) : Prop := {
  uo_enc : k_enc (pKeyInfo p) = e;
  uo_valid : valid_enc e;
  uo_mem : exists ms more, aMem p = ms ++ more /\ Forall2 (represents e) ms ws;
  uo_nField : nField p = Z.of_nat (length ws);
  uo_coll : (length ws <= length (aColl (pKeyInfo p)))%nat;
  uo_sort : (length ws <= length (aSortOrder (pKeyInfo p)))%nat }.

Lemma unpacked_get e p ws k : unpacked_ok e p ws -> (k < length ws)%nat ->
  exists m w c s, aget (aMem p) (Z.of_nat k) = Some m /\ represents e m w /\
    aget (aColl (pKeyInfo p)) (Z.of_nat k) = Some c /\ aget (aSortOrder (pKeyInfo p)) (Z.of_nat k) = Some s /\
    drop k ws = w :: drop (S k) ws /\ drop k (aColl (pKeyInfo p)) = c :: drop (S k) (aColl (pKeyInfo p)) /\
    drop k (aSortOrder (pKeyInfo p)) = s :: drop (S k) (aSortOrder (pKeyInfo p)).
Proof.
  intros [He Hv (ms & more & Hm & H2) Hn Hc Hs] Hk.
  destruct (lookup_lt_is_Some_2 ws k Hk) as [w Hw].
  destruct (Forall2_lookup_r _ _ _ _ _ H2 Hw) as (m & Hmk & Hr).
  destruct (lookup_lt_is_Some_2 (aColl (pKeyInfo p)) k) as [c Hck]; [lia|].
  destruct (lookup_lt_is_Some_2 (aSortOrder (pKeyInfo p)) k) as [s Hsk]; [lia|].
  exists m, w, c, s. unfold aget. rewrite !decide_True, Nat2Z.id by lia.
  split_and!; [rewrite Hm; by apply lookup_app_l_Some|done|done|done|by apply drop_S..].
Qed.

(** ** The order of records *)

Section Loops.
Variable valueText : list Z -> Z -> Z -> option (list Z).

(** Field by field; [dflt] when one of the records runs out of fields. *)
Fixpoint record_cmp (e dflt : Z) (vs ws : list value) (colls : list (option CollSeq)) (sorts : list Z) : Z :=
  match vs, ws, colls, sorts with
  | v :: vs, w :: ws, c :: colls, s :: sorts =>
      let rc := value_cmp valueText e c v w in
      if rc =? 0 then record_cmp e dflt vs ws colls sorts
      else if s =? 0 then rc else - rc
  | _, _, _, _ => dflt
  end.

Context (fs : list field) (h pad aKey : list Z) (nKey : Z).
Hypothesis Hkey : key_ok fs h pad aKey nKey.
Context (e : Z) (p : UnpackedRecord) (ws : list value).
Hypothesis Hun : unpacked_ok e p ws.

Definition rest_cmp (fs2 : list field) (k : nat) : Z :=
  record_cmp e (default_rc p) (values fs2) (drop k ws) (drop k (aColl (pKeyInfo p))) (drop k (aSortOrder (pKeyInfo p))).

Lemma rest_cmp_end fs2 k : fs2 = [] \/ (length ws <= k)%nat -> rest_cmp fs2 k = default_rc p.
Proof.
  unfold rest_cmp. intros [-> |H]; [done|]. rewrite (drop_ge ws) by done. by destruct (values fs2).
Qed.

Lemma recordCompare_loop_spec fs2 : forall fs1 fuel,
  fs = fs1 ++ fs2 -> fs2 <> [] -> (length fs1 < length ws)%nat -> (length fs2 <= fuel)%nat ->
  recordCompare_loop valueText fuel nKey aKey p (hdr_pos h fs) (data_pos fs h fs1) (hdr_pos h fs1) (Z.of_nat (length fs1)) =
  Some (rest_cmp fs2 (length fs1), isCorrupt p).
Proof.
  induction fs2 as [|[t b] fs2 IH]; intros fs1 fuel E Hne Hk Hfuel; [done|].
  destruct fuel as [|f]; [simpl in Hfuel; lia|]. cbn [recordCompare_loop].
  destruct (key_field fs h pad aKey nKey Hkey fs1 t b fs2 E) as (Hf & Hat & Hh' & Hd' & Hhr & Hdr).
  destruct (unpacked_get e p ws (length fs1) Hun Hk) as (m & w & c & s & Hm & Hr & Hc & Hs & Dw & Dc & Ds).
  rewrite Hm. cbn [mbind option_bind].
  destruct (compare_field_value valueText e (pKeyInfo p) aKey nKey _ _ _ t b m w c (uo_enc _ _ _ Hun) Hf Hat Hr Hc) as (t' & -> & Ht').
  cbn [mbind option_bind]. unfold rest_cmp. rewrite Dw, Dc, Ds. cbn [values map record_cmp fst snd].
  destruct (Z.eqb_spec (value_cmp valueText e c (field_value t b) w) 0) as [Hz|Hz]; cbn [negb].
  - rewrite Ht' by done. rewrite (fo_len _ _ Hf). cbn [mbind option_bind].
    rewrite <- Hh', <- Hd'. pose proof (ko_small _ _ _ _ _ Hkey).
    unfold u32. rewrite !Z.mod_small by lia. rewrite (proj2 (Z.leb_le _ nKey)), andb_true_r by lia.
    assert (fs = (fs1 ++ [(t, b)]) ++ fs2) as E' by (by rewrite <- app_assoc).
    rewrite (hdr_pos_end fs h pad aKey nKey Hkey _ _ E'). rewrite (uo_nField _ _ _ Hun).
    replace (Z.of_nat (length fs1) + 1) with (Z.of_nat (length (fs1 ++ [(t, b)]))) by (rewrite length_app; simpl; lia).
    replace (S (length fs1)) with (length (fs1 ++ [(t, b)])) by (rewrite length_app; simpl; lia).
    change (record_cmp e (default_rc p) _ _ _ _) with (rest_cmp fs2 (length (fs1 ++ [(t, b)]))).
    destruct (decide (fs2 = [])) as [-> |Hne2].
    + rewrite bool_decide_eq_true_2 by done. cbn [negb andb]. by rewrite rest_cmp_end by (by left).
    + rewrite bool_decide_eq_false_2 by done. cbn [negb andb].
      destruct (Z.ltb_spec (Z.of_nat (length (fs1 ++ [(t, b)]))) (Z.of_nat (length ws))) as [Hlt|Hge].
      * apply IH; [done|done|lia|simpl in Hfuel; lia].
      * by rewrite rest_cmp_end by (right; lia).
  - rewrite Hs. cbn [mbind option_bind]. by destruct (s =? 0).
Qed.

Lemma compareDebug_loop_spec fs2 : forall fs1 fuel,
  fs = fs1 ++ fs2 -> fs2 <> [] -> (length fs1 < length ws)%nat -> (length fs2 <= fuel)%nat ->
  compareDebug_loop valueText fuel nKey aKey p (hdr_pos h fs) (data_pos fs h fs1) (hdr_pos h fs1) (Z.of_nat (length fs1)) =
  Some (rest_cmp fs2 (length fs1)).
Proof.
  induction fs2 as [|[t b] fs2 IH]; intros fs1 fuel E Hne Hk Hfuel; [done|].
  destruct fuel as [|f]; [simpl in Hfuel; lia|]. cbn [compareDebug_loop].
  destruct (key_field fs h pad aKey nKey Hkey fs1 t b fs2 E) as (Hf & Hat & Hh' & Hd' & Hhr & Hdr).
  destruct (unpacked_get e p ws (length fs1) Hun Hk) as (m & w & c & s & Hm & Hr & Hc & Hs & Dw & Dc & Ds).
  destruct (at_field_type _ _ _ _ _ _ Hf Hat) as (_ & q & _ & _ & _ & -> & Hg). cbn [mbind option_bind].
  rewrite Hg. cbn [mbind option_bind]. rewrite (fo_len _ _ Hf). cbn [mbind option_bind].
  destruct Hat as [_ [rest Hdata] Hend]. pose proof (ko_small _ _ _ _ _ Hkey).
  rewrite <- Hh', <- Hd'. unfold u32. rewrite !(Z.mod_small (hdr_pos _ _)), !(Z.mod_small (data_pos _ _ _)) by lia.
  rewrite (proj2 (Z.ltb_ge nKey (data_pos _ _ _))), andb_false_r by lia. rewrite Hdata. cbn [mbind option_bind].
  destruct (serialGet_field t b rest (stack_mem (k_enc (pKeyInfo p))) Hf) as (m1 & -> & Hm1). cbn [mbind option_bind].
  rewrite Hm. cbn [mbind option_bind]. rewrite Hc. cbn [mbind option_bind]. cbn [v_enc stack_mem] in Hm1.
  rewrite (uo_enc _ _ _ Hun) in *. rewrite (memCompare_value valueText e c m1 m _ w (uo_valid _ _ _ Hun) Hm1 Hr). cbn [mbind option_bind].
  unfold rest_cmp. rewrite Dw, Dc, Ds. cbn [values map record_cmp fst snd].
  destruct (Z.eqb_spec (value_cmp valueText e c (field_value t b) w) 0) as [Hz|Hz]; cbn [negb].
  - assert (fs = (fs1 ++ [(t, b)]) ++ fs2) as E' by (by rewrite <- app_assoc).
    rewrite (hdr_pos_end fs h pad aKey nKey Hkey _ _ E'). rewrite (uo_nField _ _ _ Hun).
    replace (Z.of_nat (length fs1) + 1) with (Z.of_nat (length (fs1 ++ [(t, b)]))) by (rewrite length_app; simpl; lia).
    replace (S (length fs1)) with (length (fs1 ++ [(t, b)])) by (rewrite length_app; simpl; lia).
    change (record_cmp e (default_rc p) _ _ _ _) with (rest_cmp fs2 (length (fs1 ++ [(t, b)]))).
    rewrite <- Hd'. rewrite Z.mod_small by lia.
    destruct (decide (fs2 = [])) as [-> |Hne2].
    + rewrite bool_decide_eq_true_2 by done. cbn [negb andb]. by rewrite rest_cmp_end by (by left).
    + rewrite bool_decide_eq_false_2 by done. cbn [negb andb].
      destruct (Z.ltb_spec (Z.of_nat (length (fs1 ++ [(t, b)]))) (Z.of_nat (length ws))) as [Hlt|Hge].
      * apply IH; [done|done|lia|simpl in Hfuel; lia].
      * by rewrite rest_cmp_end by (right; lia).
  - rewrite Hs. cbn [mbind option_bind]. by destruct (s =? 0).
Qed.
End Loops.

(** ** Header sizes *)

Lemma varintLen_loop_le (k : nat) : forall f i v, 0 <= v < 128 ^ Z.of_nat (S k) -> varintLen_loop f i v <= i + Z.of_nat (S k).
Proof.
  induction k as [|k IH]; intros f i v Hv; (destruct f as [|f]; cbn [varintLen_loop]; [lia|]).
  - change (128 ^ Z.of_nat 1) with 128 in Hv. rewrite Z.shiftr_div_pow2, Z.div_small by lia. simpl. lia.
  - destruct (negb _ && _); [|lia]. rewrite Z.shiftr_div_pow2 by lia.
    assert (0 <= v / 2 ^ 7 < 128 ^ Z.of_nat (S k)).
    { split; [apply Z.div_pos; lia|]. apply Z.div_lt_upper_bound; [lia|].
      rewrite Nat2Z.inj_succ, Z.pow_succ_r in Hv by lia. lia. }
    specialize (IH f (i + 1) (v / 2 ^ 7) ltac:(done)). lia.
Qed.

Lemma varintLen_5 t : 0 <= t < 2 ^ 31 -> 1 <= sqlite3VarintLen t <= 5.
Proof.
  intros Ht. destruct (varint_bytes_ok t) as (_ & Hl & Hn & _); [lia|]. rewrite <- Hn. split; [lia|]. rewrite Hn.
  apply (varintLen_loop_le 4 9 0 t). change (128 ^ Z.of_nat 5) with (2 ^ 35). lia.
Qed.

Lemma varintLen_1 t : 0 <= t < 128 -> sqlite3VarintLen t = 1.
Proof.
  intros Ht. destruct (varint_bytes_ok t) as (_ & Hl & Hn & _); [lia|]. rewrite Hn in Hl.
  assert (sqlite3VarintLen t <= 0 + Z.of_nat 1); [|lia].
  apply (varintLen_loop_le 0 9 0 t). change (128 ^ Z.of_nat 1) with 128. lia.
Qed.

Lemma hdr_length fs : Forall (fun f => field_ok (fst f) (snd f)) fs ->
  (length fs <= length (hdr fs))%nat /\ (length (hdr fs) <= 5 * length fs)%nat.
Proof.
  induction 1 as [|[t b] fs Hf _ [IH1 IH2]]; [done|]. rewrite hdr_cons, length_app. simpl length.
  pose proof (fo_range _ _ Hf) as Hr. simpl in Hr.
  destruct (varint_bytes_ok t) as (_ & Hl & Hn & _); [lia|]. pose proof (varintLen_5 t Hr). lia.
Qed.

Section Whole.
Variable valueText : list Z -> Z -> Z -> option (list Z).
Context (fs : list field) (h pad aKey : list Z) (nKey : Z).
Hypothesis Hkey : key_ok fs h pad aKey nKey.
Context (e : Z) (p : UnpackedRecord) (ws : list value).
Hypothesis Hun : unpacked_ok e p ws.
Hypothesis Hfs : fs <> [].
Hypothesis Hws : ws <> [].

Lemma fs_fuel : (length fs <= S (length aKey))%nat.
Proof.
  destruct Hkey as [-> _ _ _ _ Hf]. rewrite !length_app. pose proof (hdr_length fs Hf). lia.
Qed.

Lemma data_pos_nil : data_pos fs h [] = hdr_pos h fs.
Proof. unfold data_pos, hdr_pos, content. simpl. by rewrite app_nil_r. Qed.

Lemma ws_pos : (0 < length ws)%nat.
Proof. destruct ws; [done|simpl; lia]. Qed.

Lemma recordCompare_spec :
  sqlite3VdbeRecordCompare valueText nKey aKey p false = Some (rest_cmp valueText e p ws fs 0, isCorrupt p).
Proof.
  unfold sqlite3VdbeRecordCompare. rewrite (key_header fs h pad aKey nKey Hkey). cbn [mbind option_bind].
  destruct Hkey as [_ _ Hn _ _ _]. rewrite (proj2 (Z.ltb_ge nKey _)) by (rewrite Hn; unfold hdr_pos; rewrite !length_app; lia).
  pose proof (recordCompare_loop_spec valueText fs h pad aKey nKey Hkey e p ws Hun fs [] _ eq_refl Hfs ws_pos fs_fuel) as Hl.
  rewrite data_pos_nil in Hl. exact Hl.
Qed.

Lemma recordCompareDebug_spec :
  vdbeRecordCompareDebug valueText nKey aKey p = Some (rest_cmp valueText e p ws fs 0).
Proof.
  unfold vdbeRecordCompareDebug. rewrite (key_header fs h pad aKey nKey Hkey). cbn [mbind option_bind].
  pose proof (compareDebug_loop_spec valueText fs h pad aKey nKey Hkey e p ws Hun fs [] _ eq_refl Hfs ws_pos fs_fuel) as Hl.
  rewrite data_pos_nil in Hl. exact Hl.
Qed.

(** With a header below 128 bytes its size is the first byte. *)
Lemma small_header : hdr_pos h fs < 128 -> h = [hdr_pos h fs].
Proof.
  intros Hs. destruct Hkey as [_ He _ _ _ _]. fold (hdr_pos h fs) in He.
  assert (0 <= hdr_pos h fs) by (unfold hdr_pos; lia).
  destruct (encodes_first _ _ He) as (c & l & -> & Hc & _); [lia|].
  destruct He as (_ & _ & Hl & _). rewrite varintLen_1 in Hl by lia. destruct l; [|simpl in Hl; lia].
  by rewrite Hc at 1 by lia.
Qed.

Lemma recordCompare_skip t b fs' :
  fs = (t, b) :: fs' -> hdr_pos h fs < 128 -> fs' <> [] -> (1 < length ws)%nat ->
  sqlite3VdbeRecordCompare valueText nKey aKey p true = Some (rest_cmp valueText e p ws fs' 1, isCorrupt p).
Proof.
  intros E Hs Hne Hlw. unfold sqlite3VdbeRecordCompare.
  pose proof (small_header Hs) as Hh.
  destruct (key_field fs h pad aKey nKey Hkey [] t b fs' E) as (Hf & Hat & Hh' & Hd' & Hhr & Hdr).
  destruct (at_field_type _ _ _ _ _ _ Hf Hat) as (_ & q & _ & _ & _ & Hq & Hg).
  assert (hdr_pos h [] = 1) as H1 by (unfold hdr_pos, hdr; simpl; rewrite app_nil_r, Hh; done).
  rewrite H1 in Hq. rewrite Hq. cbn [mbind option_bind]. rewrite Hg. cbn [mbind option_bind].
  assert (aget aKey 0 = Some (hdr_pos h fs)) as ->.
  { destruct Hkey as [-> _ _ _ _ _]. rewrite Hh at 1. done. }
  cbn [mbind option_bind]. rewrite (fo_len _ _ Hf). cbn [mbind option_bind].
  rewrite H1 in Hh'. rewrite <- Hh'. rewrite data_pos_nil in Hd'. rewrite <- Hd'.
  pose proof (ko_small _ _ _ _ _ Hkey). unfold u32. rewrite Z.mod_small by lia.
  apply (recordCompare_loop_spec valueText fs h pad aKey nKey Hkey e p ws Hun fs' [(t, b)] _ E Hne Hlw).
  pose proof fs_fuel as Hfu. rewrite E in Hfu. simpl in Hfu. lia.
Qed.

(** The comparison of the first field decides, or the others do. *)
Lemma rest_cmp_first t b fs' w ws' c colls s sorts :
  fs = (t, b) :: fs' -> ws = w :: ws' -> aColl (pKeyInfo p) = c :: colls -> aSortOrder (pKeyInfo p) = s :: sorts ->
  rest_cmp valueText e p ws fs 0 =
    let rc := value_cmp valueText e c (field_value t b) w in
    if rc =? 0 then rest_cmp valueText e p ws fs' 1 else if s =? 0 then rc else - rc.
Proof. intros E1 E2 Hc Hs. unfold rest_cmp. rewrite E1, E2, Hc, Hs. done. Qed.

(** What follows equal first fields. *)
Lemma rest_after_first t b fs' :
  fs = (t, b) :: fs' -> hdr_pos h fs < 128 -> ((1 < length ws)%nat -> fs' <> []) ->
  (if 1 <? nField p then sqlite3VdbeRecordCompare valueText nKey aKey p true
   else Some (default_rc p, isCorrupt p)) = Some (rest_cmp valueText e p ws fs' 1, isCorrupt p).
Proof.
  intros E Hs Hlen. rewrite (uo_nField _ _ _ Hun). destruct (Z.ltb_spec 1 (Z.of_nat (length ws))).
  - apply (recordCompare_skip t b); [done|done|apply Hlen; lia|lia].
  - by rewrite rest_cmp_end by (right; lia).
Qed.
End Whole.

(** ** The specialised routines *)

Section Special.
Variable valueText : list Z -> Z -> Z -> option (list Z).
Context (fs : list field) (h pad aKey : list Z) (nKey : Z).
Hypothesis Hkey : key_ok fs h pad aKey nKey.
Context (e : Z) (p : UnpackedRecord) (ws : list value).
Hypothesis Hun : unpacked_ok e p ws.
Context (t : Z) (b : list Z) (fs' : list field) (w : value) (ws' : list value).
Hypothesis Efs : fs = (t, b) :: fs'.
Hypothesis Ews : ws = w :: ws'.
Hypothesis Hfew : (length fs <= 13)%nat.

Lemma Hfs' : fs <> [].
Proof. by rewrite Efs. Qed.
Lemma Hws' : ws <> [].
Proof. by rewrite Ews. Qed.

Lemma fields_ok : Forall (fun f => field_ok (fst f) (snd f)) fs.
Proof. apply Hkey. Qed.

Lemma first_field_ok : field_ok t b.
Proof. pose proof fields_ok as Hf. rewrite Efs in Hf. by apply Forall_cons in Hf as [? _]. Qed.

Lemma header_bound : hdr_pos h fs < 128 /\ (t < 128 -> hdr_pos h fs < 64).
Proof.
  pose proof (ko_size _ _ _ _ _ Hkey) as (_ & Hl & _). pose proof (hdr_length fs fields_ok) as [_ Hh].
  assert (hdr_pos h fs < 128) as H128 by (unfold hdr_pos; rewrite length_app; lia).
  split; [done|]. intros Ht. pose proof (small_header fs h pad aKey nKey Hkey H128) as Eh.
  unfold hdr_pos. rewrite length_app. replace (length h) with 1%nat by (by rewrite Eh). 
  pose proof Hfew as Hfew'. rewrite Efs in Hfew' |- *. rewrite hdr_cons, length_app. simpl length in Hfew'.
  pose proof fields_ok as Hf. rewrite Efs in Hf. apply Forall_cons in Hf as [Hf1 Hf2]. simpl in Hf1.
  pose proof (hdr_length fs' Hf2) as [_ Hh2]. pose proof (fo_range _ _ Hf1).
  destruct (varint_bytes_ok t) as (_ & _ & Hn & _); [lia|]. rewrite varintLen_1 in Hn by lia. lia.
Qed.

(** The bytes the specialised routines look at. *)
Lemma first_bytes :
  aget aKey 0 = Some (hdr_pos h fs) /\
  (exists c, aget aKey 1 = Some c /\ (t < 128 -> c = t) /\ (128 <= t -> 128 <= c)) /\
  (exists q, suffix aKey 1 = Some q /\ getVarint32 q = Some (t, sqlite3VarintLen t)) /\
  (exists rest, suffix aKey (hdr_pos h fs) = Some (b ++ rest)) /\
  0 <= hdr_pos h fs /\ hdr_pos h fs + Z.of_nat (length b) <= nKey < 2 ^ 31.
Proof.
  destruct header_bound as [H128 _]. pose proof (small_header fs h pad aKey nKey Hkey H128) as Hh.
  destruct (key_field fs h pad aKey nKey Hkey [] t b fs' Efs) as (Hf & Hat & _).
  assert (hdr_pos h [] = 1) as H1 by (unfold hdr_pos, hdr; simpl; rewrite app_nil_r, Hh; done).
  destruct (at_field_type _ _ _ _ _ _ Hf Hat) as (c & q & Hc & Hc1 & Hc2 & Hq & Hg). rewrite H1 in Hc, Hq.
  destruct Hat as [_ Hd He]. rewrite data_pos_nil in Hd, He.
  split_and!; [|by exists c|by exists q|done|lia|lia|lia].
  rewrite (ko_key _ _ _ _ _ Hkey). rewrite Hh at 1. done.
Qed.

Lemma sort_first : exists c colls s sorts m0 mems,
  aColl (pKeyInfo p) = c :: colls /\ aSortOrder (pKeyInfo p) = s :: sorts /\ aMem p = m0 :: mems /\ represents e m0 w.
Proof using Hun Ews.
  assert (0 < length ws)%nat as Hlt by (rewrite Ews; apply Nat.lt_0_succ).
  pose proof (unpacked_get e p ws 0 Hun Hlt) as (m & w0 & c & s & Hm & Hr & _ & _ & Dw & Dc & Ds).
  rewrite Ews in Dw. injection Dw as ->. exists c, (drop 1 (aColl (pKeyInfo p))), s, (drop 1 (aSortOrder (pKeyInfo p))).
  destruct (aMem p) as [|m0 mems]; [done|]. injection Hm as ->. exists m, mems. done.
Qed.

(** What the specialised routines do when the first fields are equal *)
Definition after_first : option (Z * Z) := if 1 <? nField p then sqlite3VdbeRecordCompare valueText nKey aKey p true else Some (default_rc p, isCorrupt p).

Definition r_ok : Prop := forall s sorts, aSortOrder (pKeyInfo p) = s :: sorts ->
  (r1 p, r2 p) = if negb (s =? 0) then (1, -1) else (-1, 1).

(** The routine for a leading integer, up to what follows an equal first field *)
Lemma compareInt_first j : w = VInt j -> r_ok ->
  vdbeRecordCompareInt valueText nKey aKey p = Some (rest_cmp valueText e p ws fs 0, isCorrupt p) /\ field_value t b <> w \/
  field_value t b = w /\ vdbeRecordCompareInt valueText nKey aKey p = after_first /\ rest_cmp valueText e p ws fs 0 = rest_cmp valueText e p ws fs' 1.
Proof.
  intros Hw Hr. destruct header_bound as [H128 H64]. destruct first_bytes as (H0 & (c & H1 & Hc1 & Hc2) & _ & (rest & Hd) & _).
  destruct sort_first as (cl & colls & s & sorts & m0 & mems & Ec & Es & Em & Hrep).
  unfold vdbeRecordCompareInt. rewrite H0. cbn [mbind option_bind]. rewrite H1. cbn [mbind option_bind].
  rewrite Em. change (aget (m0 :: mems) 0) with (Some m0). cbn [mbind option_bind].
  rewrite Hw in Hrep. destruct Hrep as (_ & _ & _ & _ & ->).
  destruct ((c =? 0) || (c =? 7) || (9 <? c)) eqn:Ecase.
  { left. split; [by apply (recordCompare_spec valueText fs h pad aKey nKey Hkey e p ws Hun Hfs' Hws')|]. pose proof (field_value_kind t b first_field_ok) as Hkind. intros Ev. rewrite Ev, Hw in Hkind. rewrite !orb_true_iff, !Z.eqb_eq, Z.ltb_lt in Ecase. pose proof (fo_range _ _ first_field_ok). pose proof (fo_type _ _ first_field_ok). destruct (Z.lt_ge_cases t 128); [specialize (Hc1 ltac:(done))|specialize (Hc2 ltac:(done))]; lia. }
  rewrite !orb_false_iff, !Z.eqb_neq, Z.ltb_ge in Ecase. destruct Ecase as [[Hn0 Hn7] H9].
  pose proof first_field_ok as Hf. pose proof (fo_range _ _ Hf) as Htr. assert (c = t) as -> by lia.
  assert (exists k, field_value t b = VInt k) as [k Hk].
  { pose proof (field_value_kind t b Hf) as Hkind. destruct (field_value t b); [lia|by eexists|lia|lia|lia]. }
  assert ((if t =? 8 then Some 0 else if t =? 9 then Some 1 else
     aKey0 ← suffix aKey (Z.land (hdr_pos h fs) 63);
     if t =? 1 then ONE_BYTE_INT aKey0 else if t =? 2 then TWO_BYTE_INT aKey0 else if t =? 3 then THREE_BYTE_INT aKey0
     else if t =? 4 then y ← FOUR_BYTE_UINT aKey0; Some (as_int y) else if t =? 5 then six_byte_int aKey0
     else x ← eight_byte_uint aKey0; Some (as_i64 x)) = Some k) as ->.
  { pose proof (decodeInt_field t b rest k Hf Hk) as Hdec.
    change 63 with (Z.ones 6). rewrite Z.land_ones, Z.mod_small by (unfold hdr_pos; lia || (change (2 ^ 6) with 64; unfold hdr_pos in *; lia)).
    rewrite Hd. cbn [mbind option_bind].
    assert (t = 1 \/ t = 2 \/ t = 3 \/ t = 4 \/ t = 5 \/ t = 6 \/ t = 8 \/ t = 9) as Hc by lia.
    destruct Hc as [Hc|[Hc|[Hc|[Hc|[Hc|[Hc|[Hc|Hc]]]]]]]; rewrite Hc in *; exact Hdec. }
  cbn [mbind option_bind]. rewrite (rest_cmp_first valueText fs e p ws t b fs' w ws' cl colls s sorts Efs Ews Ec Es).
  rewrite Hk, Hw. cbn [value_cmp]. cbv zeta. unfold cmp_i64. specialize (Hr s sorts Es).
  destruct (Z.ltb_spec k j); [left|destruct (Z.ltb_spec j k); [left|right]]; cbn [Z.eqb]; [| |split; [f_equal; lia|done]]; (split; [|intros [= ?]; lia]); destruct (s =? 0); cbn [negb] in Hr; injection Hr as Hr1 Hr2; by rewrite ?Hr1, ?Hr2.
Qed.

Lemma compareString_first s0 m0 mems :
  aMem p = m0 :: mems -> w = VText s0 -> flag (v_flags m0) MEM_Blob = false -> (exists colls, aColl (pKeyInfo p) = None :: colls) -> r_ok ->
  (exists rc, vdbeRecordCompareString valueText nKey aKey p = Some (rc, isCorrupt p) /\ Z.sgn rc = Z.sgn (rest_cmp valueText e p ws fs 0)) /\ field_value t b <> w \/
  field_value t b = w /\ vdbeRecordCompareString valueText nKey aKey p = after_first /\ rest_cmp valueText e p ws fs 0 = rest_cmp valueText e p ws fs' 1.
Proof.
  intros Em Hw Hnb [colls Ec] Hr. destruct header_bound as [H128 _].
  destruct first_bytes as (H0 & _ & (q & Hq & Hg) & (rest & Hd) & Hp0 & Hend).
  destruct sort_first as (cl & colls' & s & sorts & m1 & mems' & Ec' & Es & Em' & Hrep).
  rewrite Ec in Ec'. injection Ec' as <- <-. rewrite Em in Em'. injection Em' as <- <-.
  pose proof first_field_ok as Hf. pose proof (fo_range _ _ Hf) as Htr.
  unfold vdbeRecordCompareString. rewrite Hq. cbn [mbind option_bind]. rewrite Hg. cbn [mbind option_bind].
  replace (as_int t) with t by (unfold as_int; rewrite (proj2 (Z.ltb_lt t _)) by lia; done).
  rewrite Em. change (aget (m0 :: mems) 0) with (Some m0). cbn [mbind option_bind].
  rewrite (rest_cmp_first valueText fs e p ws t b fs' w ws' None colls s sorts Efs Ews Ec Es). rewrite Hw.
  pose proof (field_value_kind t b Hf) as Hkind. specialize (Hr s sorts Es).
  destruct (field_value t b) as [|k|x|s'|s'] eqn:Ev; cbn [value_cmp]; cbv zeta.
  1-3: left; (split; [|discriminate]); rewrite (proj2 (Z.ltb_lt t 12)) by lia; eexists; (split; [reflexivity|]);
    cbn [Z.eqb]; destruct (s =? 0); cbn [negb] in Hr; injection Hr as Hr1 Hr2; by rewrite ?Hr1.
  2:{ left. split; [|discriminate]. destruct Hkind as (H12 & Hodd & ->). rewrite (proj2 (Z.ltb_ge t 12)), Hodd by lia. cbn [negb]. eexists. split; [reflexivity|].
      cbn [Z.eqb]. destruct (s =? 0); cbn [negb] in Hr; injection Hr as Hr1 Hr2; by rewrite ?Hr2. }
  destruct Hkind as (H12 & Hodd & ->). rewrite (proj2 (Z.ltb_ge t 12)), Hodd by lia. cbn [negb].
  rewrite H0. cbn [mbind option_bind].
  destruct (field_cases t b Hf) as [?|[?|[?|[?|[?|[?|[?|[?|[_ Hlen]]]]]]]]]; try lia. rewrite <- Hlen.
  rewrite (proj2 (Z.ltb_ge nKey _)) by lia. rewrite Hd. cbn [mbind option_bind].
  rewrite Hw in Hrep. destruct Hrep as (_ & _ & _ & _ & _ & Hb0 & _).
  pose proof (cmp_blob_prefix b rest m0 s0 Hb0) as Hcmp. unfold cmp_blob in Hcmp. rewrite Z.min_comm in Hcmp.
  destruct (memcmp (b ++ rest) (v_z m0) _) as [rc|]; [|done]. cbn [mbind option_bind] in *. injection Hcmp as ->.
  unfold text_cmp. destruct (Z.eqb_spec (bytes_cmp b s0) 0) as [E|E]; [right; split; [by rewrite (bytes_cmp_eq b s0 E)|done]|].
  left. split; [|intros [= ->]; by rewrite bytes_cmp_refl in E]. eexists. split; [reflexivity|].
  destruct (Z.ltb_spec 0 (bytes_cmp b s0)), (s =? 0); cbn [negb] in Hr; injection Hr as Hr1 Hr2; rewrite ?Hr1, ?Hr2; lia.
Qed.
End Special.

(** ** The routine chosen for a search *)

Lemma rest_cmp_0 valueText e p ws fs :
  rest_cmp valueText e p ws fs 0 =
  record_cmp valueText e (default_rc p) (values fs) ws (aColl (pKeyInfo p)) (aSortOrder (pKeyInfo p)).
Proof. done. Qed.

Section Chosen.
Variable valueText : list Z -> Z -> Z -> option (list Z).
Context (fs : list field) (h pad aKey : list Z) (nKey : Z) (e : Z) (p : UnpackedRecord) (ws : list value).
Hypothesis Hkey : key_ok fs h pad aKey nKey.
Hypothesis Hun : unpacked_ok e p ws.
Hypothesis Hfs : fs <> [].
Hypothesis Hws : ws <> [].
Hypothesis Hcols : Z.of_nat (length fs) <= k_nField (pKeyInfo p) + k_nXField (pKeyInfo p).

(** The record as sqlite3VdbeFindCompare leaves it. *)
Definition with_r (a b : Z) : UnpackedRecord :=
  mkUnpackedRecord (pKeyInfo p) (nField p) (default_rc p) (isCorrupt p) (aMem p) a b.

Lemma unpacked_with_r a b : unpacked_ok e (with_r a b) ws.
Proof. destruct Hun. by constructor. Qed.

(** The record has one field, equal to the first one of several of the search key. *)
Definition short_tie : Prop := exists t b w w2 ws', fs = [(t, b)] /\ ws = w :: w2 :: ws' /\ field_value t b = w.

(** The result of the routine [c]: the order, or after a short tie that of a comparison that goes on behind the header *)
Definition outcome (c : RecordCompare) (p' : UnpackedRecord) : Prop :=
  (c = CompareGeneric \/ ~ short_tie -> exists rc, xRecordCompare valueText c nKey aKey p' = Some (rc, isCorrupt p) /\ Z.sgn rc = Z.sgn (rest_cmp valueText e p ws fs 0)) /\
  (c <> CompareGeneric -> short_tie -> xRecordCompare valueText c nKey aKey p' = sqlite3VdbeRecordCompare valueText nKey aKey p' true).

(** The specialised routines *)
Lemma first_outcome c p' t b fs' w ws' : fs = (t, b) :: fs' -> ws = w :: ws' -> unpacked_ok e p' ws -> (forall k fs2, rest_cmp valueText e p' ws fs2 k = rest_cmp valueText e p ws fs2 k) -> default_rc p' = default_rc p -> isCorrupt p' = isCorrupt p -> hdr_pos h fs < 128 -> c <> CompareGeneric ->
  (exists rc, xRecordCompare valueText c nKey aKey p' = Some (rc, isCorrupt p') /\ Z.sgn rc = Z.sgn (rest_cmp valueText e p' ws fs 0)) /\ field_value t b <> w \/
  field_value t b = w /\ xRecordCompare valueText c nKey aKey p' = after_first valueText aKey nKey p' /\ rest_cmp valueText e p' ws fs 0 = rest_cmp valueText e p' ws fs' 1 -> outcome c p'.
Proof.
  intros Efs Ews Hun' Hsame Hd Hi H128 Hc [[(rc & H1 & H2) Hne]|(Ev & H1 & H2)].
  - split; [intros _; exists rc; by rewrite H1, Hi, <- Hsame|]. intros _ (t0 & b0 & w0 & w2 & ws2 & E1 & E2 & E3). destruct Hne. rewrite Efs in E1. rewrite Ews in E2. injection E1 as -> -> _. injection E2 as -> _. done.
  - split.
    + intros [|Hns]; [done|]. rewrite H1. unfold after_first. rewrite (rest_after_first valueText fs h pad aKey nKey Hkey e p' ws Hun' t b fs' Efs H128), <- H2, Hi, Hsame; [by eexists|]. intros Hl ->. destruct Hns. unfold short_tie. rewrite Ews in Hl |- *. destruct ws' as [|w2 ws2]; [simpl in Hl; lia|]. by exists t, b, w, w2, ws2.
    + intros _ (t0 & b0 & w0 & w2 & ws2 & E1 & E2 & E3). rewrite H1. unfold after_first. rewrite (uo_nField _ _ _ Hun'), E2. cbn [length]. by rewrite (proj2 (Z.ltb_lt 1 _)) by lia.
Qed.

Lemma chosen_spec : exists c p',
  sqlite3VdbeFindCompare p = Some (c, p') /\ unpacked_ok e p' ws /\ isCorrupt p' = isCorrupt p /\
  (forall k fs2, rest_cmp valueText e p' ws fs2 k = rest_cmp valueText e p ws fs2 k) /\ outcome c p'.
Proof.
  assert (exists t b fs', fs = (t, b) :: fs') as (t & b & fs' & Efs) by (destruct fs as [|[t b] fs']; [done|by exists t, b, fs']).
  assert (exists w ws', ws = w :: ws') as (w & ws' & Ews) by (destruct ws as [|w ws']; [done|by exists w, ws']).
  destruct (sort_first e p ws Hun w ws' Ews) as (cl & colls & s & sorts & m0 & mems & Ec & Es & Em & Hrep).
  assert (aget (aMem p) 0 = Some m0 /\ aget (aSortOrder (pKeyInfo p)) 0 = Some s /\ aget (aColl (pKeyInfo p)) 0 = Some cl)
    as (Am & As & Ac) by (by rewrite Em, Es, Ec).
  assert (forall p', unpacked_ok e p' ws -> (forall k fs2, rest_cmp valueText e p' ws fs2 k = rest_cmp valueText e p ws fs2 k) -> isCorrupt p' = isCorrupt p -> outcome CompareGeneric p') as Hgen.
  { intros p' Hun' Hsame Hi. split; [|done]. intros _. eexists. split; [rewrite <- Hi; by apply (recordCompare_spec valueText fs h pad aKey nKey Hkey e p' ws Hun')|by rewrite Hsame]. }
  unfold sqlite3VdbeFindCompare. rewrite Am, As.
  destruct (Z.leb_spec (k_nField (pKeyInfo p) + k_nXField (pKeyInfo p)) 13) as [H13|H13]; cbn [mbind option_bind].
  2:{ exists CompareGeneric, p. split_and!; [done|done|done|done|]. by apply Hgen. }
  assert ((length fs <= 13)%nat) as Hfew by lia.
  destruct (if negb (s =? 0) then (1, -1) else (-1, 1)) as [a b'] eqn:Hab. fold (with_r a b').
  pose proof (unpacked_with_r a b') as Hun'.
  assert (forall k fs2, rest_cmp valueText e (with_r a b') ws fs2 k = rest_cmp valueText e p ws fs2 k) as Hsame by done.
  assert (r_ok (with_r a b')) as Hr by (intros s1 sorts1 Es1; cbn in Es1; rewrite Es in Es1; injection Es1 as <- <-; by rewrite Hab).
  destruct (header_bound fs h pad aKey nKey Hkey t b fs' Efs Hfew) as [H128 _]. specialize (Hgen (with_r a b') Hun' Hsame eq_refl).
  destruct (flag (v_flags m0) MEM_Int) eqn:Fi.
  { destruct w as [|j|x|s0|s0]; destruct Hrep as (_ & Hrep); destruct_and! Hrep; try congruence.
    exists CompareInt, (with_r a b'). split_and!; try done. apply (first_outcome _ _ t b fs' (VInt j) ws'); try done.
    destruct (compareInt_first valueText fs h pad aKey nKey Hkey e (with_r a b') ws Hun' t b fs' (VInt j) ws' Efs Ews Hfew j eq_refl Hr) as [[HL HR]|HL]; [left|by right]. split; [by eexists|done]. }
  cbn [pKeyInfo with_r]. rewrite Ac. cbn [mbind option_bind].
  destruct (negb (flag (v_flags m0) (Z.lor MEM_Real (Z.lor MEM_Null MEM_Blob))) && match cl with None => true | _ => false end) eqn:Fs.
  - apply andb_true_iff in Fs as [Fs Hcl]. destruct cl as [|]; [done|].
    rewrite !flag_lor_r, negb_true_iff, !orb_false_iff in Fs. destruct Fs as (Fr & Fn & Fb).
    destruct w as [|j|x|s0|s0]; destruct Hrep as (HR & Hrep); destruct_and! Hrep; try congruence.
    match goal with H : flag _ MEM_Str = true |- _ => rewrite H end. cbn [assert_ mbind option_bind].
    exists CompareString, (with_r a b'). split_and!; try done. apply (first_outcome _ _ t b fs' (VText s0) ws'); try done.
    exact (compareString_first valueText fs h pad aKey nKey Hkey e (with_r a b') ws Hun' t b fs' (VText s0) ws' Efs Ews Hfew s0 m0 mems Em eq_refl Fb (ex_intro _ colls Ec) Hr).
  - exists CompareGeneric, (with_r a b'). by split_and!.
Qed.
End Chosen.

(** C1. For every well-formed record with at least one field and at most as many
    as the index has columns, and every search key: the reference vdbeRecordCompareDebug
    and the general routine sqlite3VdbeRecordCompare return the field-by-field order
    of the values (descending columns reversed, default_rc on a common prefix).  The
    routine that sqlite3VdbeFindCompare selects - the general one, the one for a
    leading integer or the one for a leading text with the binary collation -
    returns a number of the same sign and reports no corruption, with one exception: if
    a specialised routine was selected and the record has a single field, equal
    to the first of several of the search key, it returns what the general
    routine makes of the bytes behind the header. *)
Theorem record_compare_correct valueText fs h pad aKey nKey e p ws :
  key_ok fs h pad aKey nKey -> unpacked_ok e p ws -> fs <> [] -> ws <> [] ->
  Z.of_nat (length fs) <= k_nField (pKeyInfo p) + k_nXField (pKeyInfo p) ->
  let order := record_cmp valueText e (default_rc p) (values fs) ws (aColl (pKeyInfo p)) (aSortOrder (pKeyInfo p)) in
  exists c p',
    sqlite3VdbeFindCompare p = Some (c, p') /\
    vdbeRecordCompareDebug valueText nKey aKey p' = Some order /\
    xRecordCompare valueText CompareGeneric nKey aKey p' = Some (order, isCorrupt p) /\
    (c = CompareGeneric \/ ~ short_tie fs ws -> exists rc, xRecordCompare valueText c nKey aKey p' = Some (rc, isCorrupt p) /\ Z.sgn rc = Z.sgn order) /\
    (c <> CompareGeneric -> short_tie fs ws -> xRecordCompare valueText c nKey aKey p' = sqlite3VdbeRecordCompare valueText nKey aKey p' true).
Proof.
  intros Hkey Hun Hfs Hws Hcols order.
  destruct (chosen_spec valueText fs h pad aKey nKey e p ws Hkey Hun Hfs Hws Hcols) as (c & p' & Hf & Hun' & Hi & Hs & Hx1 & Hx2).
  exists c, p'. split_and!; [done| | |exact Hx1|exact Hx2].
  - rewrite (recordCompareDebug_spec valueText fs h pad aKey nKey Hkey e p' ws Hun' Hfs Hws). by rewrite Hs.
  - cbn [xRecordCompare]. rewrite (recordCompare_spec valueText fs h pad aKey nKey Hkey e p' ws Hun' Hfs Hws). by rewrite Hs, Hi.
Qed.

(** The record (5, NULL), searched for the key (5, 'a') of two columns, the
    second descending. *)
Definition sample_unpacked : UnpackedRecord :=
  mkUnpackedRecord (mkKeyInfo SQLITE_UTF8 2 0 [0; 1] [None; None]) 2 0 0
    [mkVMem MEM_Int 5 0 0 [] 0 SQLITE_UTF8; mkVMem MEM_Str 0 0 0 [97] 1 SQLITE_UTF8] 0 0.

Lemma record_compare_correct_witness : exists c p' rc,
  sqlite3VdbeFindCompare sample_unpacked = Some (c, p') /\
  vdbeRecordCompareDebug (fun s _ _ => Some s) 4 [3; 1; 0; 5] p' = Some 1 /\
  xRecordCompare (fun s _ _ => Some s) c 4 [3; 1; 0; 5] p' = Some (rc, 0) /\
  Z.sgn rc = Z.sgn 1.
Proof.
  destruct (record_compare_correct (fun s _ _ => Some s) [(1, [5]); (0, [])] [3] [] [3; 1; 0; 5] 4 SQLITE_UTF8 sample_unpacked [VInt 5; VText [97]]) as (c & p' & H1 & H2 & _ & H3 & _).
  - constructor; [done| |done|done|done|].
    + apply (varint_bytes_ok 3); lia.
    + repeat constructor; simpl; (done || lia).
  - constructor; [done|by left| |done|done|done].
    exists (aMem sample_unpacked), []. split; [reflexivity|]. repeat constructor.
  - done.
  - done.
  - cbn. lia.
  - destruct H3 as (rc & H3 & H4); [right; intros (t & b & w & w2 & ws' & [=] & _)|]. exists c, p', rc. split; [exact H1|]. split; [exact H2|]. split; [exact H3|exact H4].
Defined.

(** The shortcut of the specialised routines relies on the record having a
    second field: for the one-field record (5) and the search key (5, NULL),
    vdbeRecordCompareInt reads past the record's header and returns 1, while
    sqlite3VdbeRecordCompare and the reference report a common prefix. *)
Theorem record_compare_skip_past_header valueText :
  let p r1 r2 := mkUnpackedRecord (mkKeyInfo SQLITE_UTF8 2 0 [0; 0] [None; None]) 2 0 0
    [mkVMem MEM_Int 5 0 0 [] 0 SQLITE_UTF8; mkVMem MEM_Null 0 0 0 [] 0 SQLITE_UTF8] r1 r2 in
  let aKey := [2; 1; 5] in
  sqlite3VdbeFindCompare (p 0 0) = Some (CompareInt, p (-1) 1) /\
  xRecordCompare valueText CompareInt 3 aKey (p (-1) 1) = Some (1, 0) /\
  xRecordCompare valueText CompareGeneric 3 aKey (p (-1) 1) = Some (0, 0) /\
  vdbeRecordCompareDebug valueText 3 aKey (p (-1) 1) = Some 0.
Proof. split_and!; reflexivity. Qed.
