(* ===== verification/MakeRecord.v ===== *)
(** * MakeRecord: building a record and taking it apart (OP_MakeRecord of
    vdbe.c, sqlite3VdbeMemExpandBlob of vdbemem.c, sqlite3VdbeRecordUnpack of
    vdbeaux.c)

    The registers are the cells after the affinities have been applied.  The
    memory that sqlite3VdbeMemGrow provides for the record is the argument
    [zNewRecord], of arbitrary content; allocations succeed. *)
From Stdlib Require Import SpecFloat.
From S2P Require Import Prelude Varint Atoi Record RecordValue RecordCompare.

Definition MEM_Term : Z := 512.
Definition MEM_Dyn : Z := 1024.
Definition MEM_Static : Z := 2048.

(** The cell with its zero-filled tail written out; sqlite3VdbeMemGrow clears
    the flags of the old memory. *)
Definition sqlite3VdbeMemExpandBlob (pMem : VMem) : option VMem :=
  let f := v_flags pMem in
  if flag f MEM_Zero then
    _ ← assert_ (flag f MEM_Blob);
    _ ← assert_ (negb (flag f MEM_RowSet));
    nByte ← cint (v_n pMem + v_nZero pMem);
    _ ← assert_ (bool_decide (0 <= v_n pMem <= Z.of_nat (length (v_z pMem))));
    Some (mkVMem (Z.land f (Z.lnot (Z.lor (Z.lor MEM_Zero MEM_Term) (Z.lor MEM_Dyn (Z.lor MEM_Ephem MEM_Static))))) (v_i pMem) (v_nZero pMem) (v_r pMem)
            (take (Z.to_nat (v_n pMem)) (v_z pMem) ++ replicate (Z.to_nat (v_nZero pMem)) 0) nByte (v_enc pMem))
  else Some pMem.

(** The sizing loop, from the last register down: the registers after it,
    nData, nHdr and nZero. *)
Fixpoint makeRecord_size (file_format : Z) (rev_pRec done_ : list VMem) (nData nHdr nZero : Z)
    : option (list VMem * Z * Z * Z) :=
  match rev_pRec with
  | [] => Some (done_, nData, nHdr, nZero)
  | pRec :: rest =>
      serial_type ← sqlite3VdbeSerialType pRec file_format;
      len ← sqlite3VdbeSerialTypeLen serial_type;
      '(pRec, len, nZero) ←
        (if flag (v_flags pRec) MEM_Zero then
           if negb (nData =? 0) then pRec ← sqlite3VdbeMemExpandBlob pRec; Some (pRec, len, nZero)
           else nZero ← cint (nZero + v_nZero pRec); len ← cint (len - v_nZero pRec); Some (pRec, len, nZero)
         else Some (pRec, len, nZero));
      let nData := u64 (nData + len) in
      nHdr ← cint (nHdr + (if serial_type <=? 127 then 1 else sqlite3VarintLen serial_type));
      makeRecord_size file_format rest (pRec :: done_) nData nHdr nZero
  end.

(** The header size with its own varint. *)
Definition makeRecord_header (nHdr : Z) : option Z :=
  if nHdr <=? 126 then Some (nHdr + 1)
  else
    let nVarint := sqlite3VarintLen nHdr in
    nHdr ← cint (nHdr + nVarint);
    if nVarint <? sqlite3VarintLen nHdr then cint (nHdr + 1) else Some nHdr.

(** The loop that writes the serial types at [i] and the contents at [j]. *)
Fixpoint makeRecord_write (file_format : Z) (pRec : list VMem) (zNewRecord : list Z) (i j : Z)
    : option (list Z * Z * Z) :=
  match pRec with
  | [] => Some (zNewRecord, i, j)
  | m :: pRec =>
      serial_type ← sqlite3VdbeSerialType m file_format;
      '(b, k) ← putVarint32 serial_type;
      zNewRecord ← put_bytes zNewRecord i b;
      c ← sqlite3VdbeSerialPut m serial_type;
      zNewRecord ← put_bytes zNewRecord j c;
      makeRecord_write file_format pRec zNewRecord (i + k) (j + Z.of_nat (length c))
  end.

(** The output register, or the error taken with goto too_big. *)
Inductive made := Made (pOut : VMem) | TooBig.

Definition OP_MakeRecord (file_format SQLITE_LIMIT_LENGTH : Z) (pData0 : list VMem) (pOut : VMem) (zNewRecord : list Z)
    : option made :=
  '(pData0, nData, nHdr, nZero) ← makeRecord_size file_format (rev pData0) [] 0 0 0;
  nHdr ← makeRecord_header nHdr;
  let nByte := nHdr + nData in
  if SQLITE_LIMIT_LENGTH <? nByte then Some TooBig
  else
    _ ← assert_ (nByte <=? Z.of_nat (length zNewRecord));
    '(b, i) ← putVarint32 nHdr;
    z ← put_bytes zNewRecord 0 b;
    '(z, i, j) ← makeRecord_write file_format pData0 z i nHdr;
    _ ← assert_ (i =? nHdr);
    _ ← assert_ (j =? nByte);
    Some (Made (mkVMem (if negb (nZero =? 0) then Z.lor MEM_Blob MEM_Zero else MEM_Blob) (v_i pOut)
                  (if negb (nZero =? 0) then nZero else v_nZero pOut) (v_r pOut) z nByte SQLITE_UTF8)).

(** ** Taking a record apart *)

Fixpoint recordUnpack_loop (fuel : nat) (pKeyInfo : KeyInfo) (nKey : Z) (aKey : list Z) (nField : Z)
    (pMem : list VMem) (szHdr idx d u : Z) : option (list VMem * Z) :=
  match fuel with
  | O => None
  | S f =>
      if (idx <? szHdr) && (u <? nField) && (d <=? nKey) then
        p ← suffix aKey idx;
        '(serial_type, k) ← getVarint32 p;
        data ← suffix aKey d;
        m ← aget pMem u;
        '(m, n) ← sqlite3VdbeSerialGet data serial_type
                     (mkVMem (v_flags m) (v_i m) (v_nZero m) (v_r m) (v_z m) (v_n m) (k_enc pKeyInfo));
        pMem ← aset pMem u m;
        d ← cint (d + n);
        recordUnpack_loop f pKeyInfo nKey aKey nField pMem szHdr (u32 (idx + k)) d (u16 (u + 1))
      else Some (pMem, u)
  end.

Definition sqlite3VdbeRecordUnpack (ki : KeyInfo) (nKey : Z) (aKey : list Z) (p : UnpackedRecord) : option UnpackedRecord :=
  '(szHdr, idx) ← getVarint32 aKey;
  '(mems, u) ← recordUnpack_loop (S (length aKey)) ki nKey aKey (nField p) (aMem p) szHdr idx (as_int szHdr) 0;
  _ ← assert_ (u <=? k_nField ki + 1);
  Some (mkUnpackedRecord (pKeyInfo p) u 0 (isCorrupt p) mems (r1 p) (r2 p)).

(** ** The fields of a value *)

#[local] Arguments sqlite3IsNaN : simpl never.

Definition value_ok (w : value) : Prop :=
  match w with
  | VNull => True
  | VInt i => i64 i
  | VReal x => 0 <= x < 2 ^ 64 /\ sqlite3IsNaN x = false
  | VText s | VBlob s => Forall is_byte s /\ 2 * Z.of_nat (length s) + 13 < 2 ^ 31
  end.

Definition int_type (fmt i : Z) : Z :=
  if ((i =? 0) || (i =? 1)) && (4 <=? fmt) then 8 + i
  else let u := Z.abs i in
    if u <=? 127 then 1 else if u <=? 32767 then 2 else if u <=? 8388607 then 3
    else if u <=? 2147483647 then 4 else if u <=? MAX_6BYTE then 5 else 6.

Definition int_len (t : Z) : nat := Z.to_nat (from_option id 0 (sqlite3VdbeSerialTypeLen t)).

(** The serial type and content that store a value. *)
Definition ser (fmt : Z) (w : value) : field :=
  match w with
  | VNull => (0, [])
  | VInt i => (int_type fmt i, serialPut_loop (int_len (int_type fmt i)) (u64 i) [])
  | VReal x => (7, serialPut_loop 8 x [])
  | VText s => (Z.of_nat (length s) * 2 + 12 + 1, s)
  | VBlob s => (Z.of_nat (length s) * 2 + 12 + 0, s)
  end.

Lemma serialPut_loop_val n : forall v acc, Forall is_byte acc ->
  exists l, serialPut_loop n v acc = l ++ acc /\ length l = n /\ Forall is_byte l /\ be_val l = v mod 256 ^ Z.of_nat n.
Proof.
  induction n as [|n IH]; intros v acc Hacc; cbn [serialPut_loop].
  - exists []. split_and!; [done|done|done|]. by rewrite Z.mod_1_r.
  - assert (u8 (Z.land v 255) = v mod 256) as ->.
    { change 255 with (Z.ones 8). rewrite Z.land_ones by lia. unfold u8. change (2 ^ 8) with 256. by rewrite Z.mod_mod by lia. }
    pose proof (Z.mod_pos_bound v 256 ltac:(lia)) as Hm.
    destruct (IH (Z.shiftr v 8) (v mod 256 :: acc)) as (l & -> & Hl & Hb & Hv); [constructor; [unfold ubits; lia|done]|].
    exists (l ++ [v mod 256]). rewrite <- app_assoc. split_and!; [done|rewrite length_app; simpl; lia| |].
    + apply Forall_app. split; [done|]. repeat constructor; unfold ubits; lia.
    + rewrite be_val_app, Hv, Z.shiftr_div_pow2 by lia. change (2 ^ 8) with 256.
      rewrite Nat2Z.inj_succ, Z.pow_succ_r by lia.
      rewrite Z.rem_mul_r by (try apply Z.pow_pos_nonneg; lia). lia.
Qed.

Lemma put_val n v : let l := serialPut_loop n v [] in
  length l = n /\ Forall is_byte l /\ be_val l = v mod 256 ^ Z.of_nat n.
Proof. destruct (serialPut_loop_val n v []) as (l & -> & ?); [done|]. by rewrite app_nil_r. Qed.

(** Two's complement in [n] bytes. *)
Lemma sgn_wrap n i : (0 < n <= 8)%nat -> - 2 ^ (8 * Z.of_nat n - 1) <= i < 2 ^ (8 * Z.of_nat n - 1) ->
  sgn (8 * Z.of_nat n) (u64 i mod 256 ^ Z.of_nat n) = i.
Proof.
  intros Hn Hi. unfold sgn, u64. change 256 with (2 ^ 8). rewrite <- Z.pow_mul_r by lia.
  set (k := 8 * Z.of_nat n) in *. assert (2 ^ k = 2 * 2 ^ (k - 1)) as Hk.
  { rewrite <- Z.pow_succ_r by lia. f_equal. lia. }
  assert ((i mod 2 ^ 64) mod 2 ^ k = i mod 2 ^ k) as ->.
  { replace 64 with (k + (64 - k)) by lia. rewrite Z.pow_add_r by lia.
    rewrite Z.rem_mul_r by (try apply Z.pow_nonzero; try apply Z.pow_pos_nonneg; lia).
    rewrite Z.mul_comm, Z_mod_plus_full, Z.mod_mod; [done|]. apply Z.pow_nonzero; lia. }
  assert (0 < 2 ^ (k - 1)) by (apply Z.pow_pos_nonneg; lia).
  destruct (Z.ltb_spec i 0).
  - rewrite <- (Z_mod_plus_full i 1), Z.mod_small by lia. rewrite (proj2 (Z.ltb_ge _ _)) by lia. lia.
  - rewrite Z.mod_small, (proj2 (Z.ltb_lt _ _)) by lia. done.
Qed.

Lemma int_type_cases fmt i : i64 i ->
  (i = 0 \/ i = 1) /\ int_type fmt i = 8 + i \/
  exists t n, int_type fmt i = t /\ 1 <= t <= 6 /\ sqlite3VdbeSerialTypeLen t = Some (Z.of_nat n) /\ (0 < n <= 8)%nat /\
    - 2 ^ (8 * Z.of_nat n - 1) <= i < 2 ^ (8 * Z.of_nat n - 1).
Proof.
  unfold i64, SMALLEST_INT64, LARGEST_INT64, int_type. intros Hi.
  destruct (((i =? 0) || (i =? 1)) && (4 <=? fmt)) eqn:E.
  { left. apply andb_true_iff in E as [E _]. apply orb_true_iff in E. rewrite !Z.eqb_eq in E. done. }
  right. cbv zeta. change MAX_6BYTE with (2 ^ 47 - 1).
  repeat match goal with |- context [?x <=? ?y] => destruct (Z.leb_spec x y) end;
    [exists 1, 1%nat|exists 2, 2%nat|exists 3, 3%nat|exists 4, 4%nat|exists 5, 6%nat|exists 6, 8%nat];
    (split_and!; [done|lia|lia|reflexivity|lia|lia|..]);
    match goal with |- context [2 ^ (8 * Z.of_nat ?n - 1)] => let v := eval vm_compute in (2 ^ (8 * Z.of_nat n - 1)) in
      change (2 ^ (8 * Z.of_nat n - 1)) with v end; lia.
Qed.

Lemma text_len n k : k = 0 \/ k = 1 -> (Z.of_nat n * 2 + 12 + k - 12) / 2 = Z.of_nat n.
Proof. intros Hk. replace (Z.of_nat n * 2 + 12 + k - 12) with (k + Z.of_nat n * 2) by lia. rewrite Z.div_add by lia. destruct Hk as [-> | ->]; done. Qed.

Lemma ser_ok fmt w : value_ok w -> field_ok (fst (ser fmt w)) (snd (ser fmt w)) /\ field_value (fst (ser fmt w)) (snd (ser fmt w)) = w.
Proof.
  intros Hw. destruct w as [|i|x|s|s]; cbn [ser fst snd value_ok] in *.
  - split; [constructor; done|done].
  - unfold int_len. destruct (int_type_cases fmt i Hw) as [[Hi ->]|(t & n & -> & Ht & Hlen & Hn & Hr)].
    + destruct Hi as [-> | ->]; (split; [constructor; done|done]).
    + rewrite Hlen. cbn [from_option]. unfold id. rewrite Nat2Z.id. destruct (put_val n (u64 i)) as (Hl & Hb & Hv).
      split.
      * constructor; [lia|lia|by rewrite Hl|done|lia].
      * unfold field_value. rewrite (proj2 (Z.eqb_neq t 0)), (proj2 (Z.leb_le t 6)), Hl, Hv by lia. by rewrite sgn_wrap.
  - destruct Hw as [Hx Hn]. destruct (put_val 8 x) as (Hl & Hb & Hv).
    rewrite Z.mod_small in Hv by (change (256 ^ Z.of_nat 8) with (2 ^ 64); lia).
    split; [constructor; [lia|lia|by rewrite Hl|done|by rewrite Hv]|]. unfold field_value. cbn [Z.eqb Z.leb Z.compare Pos.compare Pos.compare_cont Pos.eqb]. by rewrite Hv.
  - destruct Hw as [Hb Hs]. split.
    + constructor; [lia|lia| |done|lia]. unfold sqlite3VdbeSerialTypeLen. rewrite (proj2 (Z.leb_le 12 _)), text_len by lia. done.
    + unfold field_value. rewrite !(proj2 (Z.eqb_neq _ _)), !(proj2 (Z.leb_gt _ _)) by lia.
      replace (Z.odd _) with true; [done|]. rewrite Z.odd_add, Z.odd_add, Z.odd_mul, andb_false_r. done.
  - destruct Hw as [Hb Hs]. split.
    + constructor; [lia|lia| |done|lia]. unfold sqlite3VdbeSerialTypeLen. rewrite (proj2 (Z.leb_le 12 _)), text_len by lia. done.
    + unfold field_value. rewrite !(proj2 (Z.eqb_neq _ _)), !(proj2 (Z.leb_gt _ _)) by lia.
      replace (Z.odd _) with false; [done|]. rewrite Z.odd_add, Z.odd_add, Z.odd_mul, andb_false_r. done.
Qed.

(** ** Cells *)

(** A register that holds a value; a blob may have a tail of zeros that is
    not stored. *)
Definition cell_ok (e : Z) (m : VMem) (w : value) : Prop :=
  value_ok w /\
  if flag (v_flags m) MEM_Zero then
    flag (v_flags m) MEM_RowSet = false /\ flag (v_flags m) MEM_Null = false /\ flag (v_flags m) MEM_Int = false /\
    flag (v_flags m) MEM_Real = false /\ flag (v_flags m) MEM_Str = false /\ flag (v_flags m) MEM_Blob = true /\
    0 <= v_nZero m /\ exists s, v_bytes m = Some s /\ w = VBlob (s ++ replicate (Z.to_nat (v_nZero m)) 0)
  else represents e m w.

Lemma v_bytes_length m s : v_bytes m = Some s -> v_n m = Z.of_nat (length s) /\ v_n m <= Z.of_nat (length (v_z m)) /\ take (Z.to_nat (v_n m)) (v_z m) = s.
Proof. unfold v_bytes. case_decide; [|done]. intros [= <-]. rewrite length_take. split_and!; [lia|lia|done]. Qed.

Lemma serialType_cell e fmt m w : cell_ok e m w -> sqlite3VdbeSerialType m fmt = Some (fst (ser fmt w)).
Proof.
  intros [Hv Hm]. unfold sqlite3VdbeSerialType. cbv zeta. rewrite flag_lor_r.
  destruct (flag (v_flags m) MEM_Zero) eqn:Hz.
  - destruct Hm as (_ & -> & -> & -> & -> & -> & Hz0 & s & Hs & ->). cbn [orb assert_ mbind option_bind].
    destruct (v_bytes_length m s Hs) as (Hn & _ & _). destruct Hv as [_ Hv]. rewrite length_app, length_replicate in Hv.
    rewrite cint_ok by (unfold int_min, int_max; lia). cbn [mbind option_bind].
    rewrite (proj2 (Z.leb_le 0 _)) by lia. cbn [assert_ mbind option_bind ser fst]. rewrite length_app, length_replicate.
    rewrite cint_ok by (unfold int_min, int_max; lia). f_equal. lia.
  - destruct w as [|i|x|s|s]; destruct Hm as [_ Hm]; destruct_and! Hm; repeat match goal with H : flag _ _ = _ |- _ => rewrite ?H; clear H end;
      cbn [orb assert_ mbind option_bind].
    + done.
    + subst i. unfold value_ok, i64, SMALLEST_INT64, LARGEST_INT64 in Hv. cbn [ser fst]. unfold int_type. cbv zeta.
      set (i := v_i m) in *.
      assert (((Z.land i 1 =? i) && (4 <=? fmt)) = (((i =? 0) || (i =? 1)) && (4 <=? fmt))) as ->.
      { f_equal. change 1 with (Z.ones 1) at 1. rewrite Z.land_ones by lia. change (2 ^ 1) with 2.
        pose proof (Z.mod_pos_bound i 2 ltac:(lia)). apply bool_iff. rewrite orb_true_iff, !Z.eqb_eq.
        split; [intros <-; lia|intros [-> | ->]; done]. }
      change MAX_6BYTE with (2 ^ 47 - 1).
      destruct (Z.ltb_spec i 0); [destruct (Z.ltb_spec i (- (2 ^ 47 - 1)))|].
      * rewrite (proj2 (Z.eqb_neq i 0)), (proj2 (Z.eqb_neq i 1)) by lia. cbn [orb andb].
        rewrite !(proj2 (Z.leb_gt (Z.abs i) _)) by lia. done.
      * rewrite cint64_ok by (unfold i64, SMALLEST_INT64, LARGEST_INT64; lia). cbn [mbind option_bind].
        rewrite (proj2 (Z.eqb_neq i 0)), (proj2 (Z.eqb_neq i 1)) by lia. cbn [orb andb].
        by rewrite Z.abs_neq by lia.
      * rewrite Z.abs_eq by lia. f_equal. destruct (((i =? 0) || (i =? 1)) && (4 <=? fmt)) eqn:E; [|done].
        apply andb_true_iff in E as [E _]. apply orb_true_iff in E. rewrite !Z.eqb_eq in E. by destruct E as [-> | ->].
    + done.
    + match goal with H : v_bytes m = Some s |- _ => destruct (v_bytes_length m s H) as (Hn & _ & _) end. destruct Hv as [_ Hv].
      rewrite (proj2 (Z.leb_le 0 _)) by lia. cbn [assert_ mbind option_bind ser fst].
      rewrite cint_ok by (unfold int_min, int_max; lia). by rewrite Hn.
    + match goal with H : v_bytes m = Some s |- _ => destruct (v_bytes_length m s H) as (Hn & _ & _) end. destruct Hv as [_ Hv].
      rewrite (proj2 (Z.leb_le 0 _)) by lia. cbn [assert_ mbind option_bind ser fst].
      rewrite cint_ok by (unfold int_min, int_max; lia). by rewrite Hn.
Qed.

(** The stored part of a cell: everything but the tail of zeros. *)
Lemma serialPut_cell e fmt m w : cell_ok e m w ->
  exists c, sqlite3VdbeSerialPut m (fst (ser fmt w)) = Some c /\
    snd (ser fmt w) = c ++ replicate (Z.to_nat (if flag (v_flags m) MEM_Zero then v_nZero m else 0)) 0.
Proof.
  intros [Hv Hm]. assert (forall s k, k = 0 \/ k = 1 -> v_bytes m = Some s ->
      sqlite3VdbeSerialPut m (Z.of_nat (length s + Z.to_nat (if flag (v_flags m) MEM_Zero then v_nZero m else 0)) * 2 + 12 + k) =
        if decide (0 <= (if flag (v_flags m) MEM_Zero then v_nZero m else 0)) then Some s else None) as Hput.
  { intros s k Hk Hs. destruct (v_bytes_length m s Hs) as (Hn & Hz & Ht). unfold sqlite3VdbeSerialPut, sqlite3VdbeSerialTypeLen.
    rewrite (proj2 (Z.leb_gt _ 7)), !(proj2 (Z.leb_le 12 _)) by lia. cbn [andb mbind option_bind]. rewrite text_len by done.
    case_decide as Hd; [|exfalso]; [rewrite (proj2 (Z.eqb_eq _ _)) by lia|].
    - cbn [assert_ mbind option_bind]. rewrite (proj2 (Z.leb_le _ _)) by done. cbn [assert_ mbind option_bind]. by rewrite Ht.
    - destruct (flag (v_flags m) MEM_Zero); [|lia]. destruct Hm as (_ & _ & _ & _ & _ & _ & ? & _). done. }
  destruct (flag (v_flags m) MEM_Zero) eqn:Hz.
  - destruct Hm as (_ & _ & _ & _ & _ & _ & Hz0 & s & Hs & ->). cbn [ser fst snd]. exists s. split; [|done].
    specialize (Hput s 0 ltac:(lia) Hs). rewrite decide_True in Hput by done. rewrite <- Hput. do 4 f_equal.
    rewrite length_app, length_replicate. done.
  - change (replicate (Z.to_nat 0) 0) with (@nil Z). setoid_rewrite app_nil_r.
    exists (snd (ser fmt w)). split; [|done].
    destruct w as [|i|x|s|s]; destruct Hm as [_ Hm]; destruct_and! Hm; cbn [ser fst snd].
    + done.
    + subst i. unfold sqlite3VdbeSerialPut. destruct (int_type_cases fmt (v_i m) Hv) as [[[E|E] ->]|(t & n & -> & Ht & Hlen & Hn & _)];
        [by rewrite E|by rewrite E|].
      rewrite (proj2 (Z.leb_le t 7)), (proj2 (Z.ltb_lt 0 t)), (proj2 (Z.eqb_neq t 7)) by lia. cbn [andb]. unfold int_len. by rewrite Hlen.
    + subst x. done.
    + specialize (Hput s 1 ltac:(lia) ltac:(done)). rewrite decide_True in Hput by done. simpl Z.to_nat in Hput. by rewrite Nat.add_0_r in Hput.
    + specialize (Hput s 0 ltac:(lia) ltac:(done)). rewrite decide_True in Hput by done. simpl Z.to_nat in Hput. by rewrite Nat.add_0_r in Hput.
Qed.

Lemma flag_clear f a b : 0 <= b -> Z.testbit a b = false -> flag (Z.land f (Z.lnot a)) (2 ^ b) = flag f (2 ^ b).
Proof. intros Hb Ha. rewrite !flag_bit by done. rewrite Z.land_spec, Z.lnot_spec, Ha by done. apply andb_true_r. Qed.

(** A cell with its tail written out holds the same value. *)
Lemma expand_cell e m w : cell_ok e m w -> flag (v_flags m) MEM_Zero = true ->
  exists m', sqlite3VdbeMemExpandBlob m = Some m' /\ cell_ok e m' w /\ flag (v_flags m') MEM_Zero = false.
Proof.
  intros [Hv Hm] Hz. rewrite Hz in Hm. destruct Hm as (H1 & H2 & H3 & H4 & H5 & H6 & Hz0 & s & Hs & Hw).
  destruct (v_bytes_length m s Hs) as (Hn & Hz' & Ht). unfold sqlite3VdbeMemExpandBlob. rewrite Hz, H6, H1. cbn [negb assert_ mbind option_bind].
  assert (2 * (v_n m + v_nZero m) + 13 < 2 ^ 31) as Hlen by (rewrite Hw in Hv; destruct Hv as [_ Hv]; rewrite length_app, length_replicate in Hv; lia).
  rewrite cint_ok by (unfold int_min, int_max; lia). cbn [mbind option_bind]. rewrite bool_decide_eq_true_2 by lia. cbn [assert_ mbind option_bind].
  eexists. split; [reflexivity|]. set (mask := Z.lor _ _).
  assert (flag (Z.land (v_flags m) (Z.lnot mask)) MEM_Zero = false) as Hz2.
  { change MEM_Zero with (2 ^ 14). rewrite flag_bit, Z.land_spec, Z.lnot_spec by lia. apply andb_false_r. }
  split; [|exact Hz2]. split; [done|]. cbn [v_flags]. rewrite Hz2. rewrite Hw. split; cbn [v_flags].
  { change MEM_RowSet with (2 ^ 5) in *. by rewrite flag_clear. }
  change MEM_Null with (2 ^ 0) in *. change MEM_Int with (2 ^ 2) in *. change MEM_Real with (2 ^ 3) in *.
  change MEM_Str with (2 ^ 1) in *. change MEM_Blob with (2 ^ 4) in *. rewrite !flag_clear by done.
  split_and!; try done. unfold v_bytes. cbn [v_n v_z]. rewrite Ht.
  rewrite decide_True by (rewrite length_app, length_replicate; lia). f_equal. rewrite take_ge; [done|]. rewrite length_app, length_replicate. lia.
Qed.

(** ** The sizing loop *)

Abbreviation zeros n := (replicate n 0).
Definition fields (fmt : Z) (ws : list value) : list field := map (ser fmt) ws.

Lemma fields_app fmt a b : fields fmt (a ++ b) = fields fmt a ++ fields fmt b.
Proof. apply map_app. Qed.

Lemma fields_ok_ser fmt ws : Forall value_ok ws ->
  Forall (fun f => field_ok (fst f) (snd f)) (fields fmt ws) /\ values (fields fmt ws) = ws.
Proof.
  induction 1 as [|w ws Hw _ [IH1 IH2]]; [done|]. destruct (ser_ok fmt w Hw) as [H1 H2].
  split; [by constructor|]. cbn. unfold values, fields in *. by rewrite H2, IH2.
Qed.

Lemma varint_bytes_length t : 0 <= t < 2 ^ 64 -> Z.of_nat (length (varint_bytes t)) = sqlite3VarintLen t.
Proof. intros Ht. by destruct (varint_bytes_ok t Ht) as (_ & _ & ? & _). Qed.

Lemma hdr_width t : 0 <= t < 2 ^ 31 -> (if t <=? 127 then 1 else sqlite3VarintLen t) = Z.of_nat (length (varint_bytes t)).
Proof. intros Ht. rewrite varint_bytes_length by lia. destruct (Z.leb_spec t 127); [by rewrite varintLen_1 by lia|done]. Qed.

(** A varint of [n] bytes. *)
Lemma varintLen_ge n : forall f i v, 128 ^ Z.of_nat n <= v -> (n < f)%nat -> i + Z.of_nat n < 9 -> i + Z.of_nat n + 1 <= varintLen_loop f i v.
Proof.
  induction n as [|n IH]; intros f i v Hv Hf Hi; (destruct f as [|f]; [lia|]); cbn [varintLen_loop].
  - clear. revert i v. assert (forall f i v, i <= varintLen_loop f i v) as H.
    { clear. induction f as [|f IH]; intros i v; cbn [varintLen_loop]; [lia|]. destruct (negb _ && _); [|lia]. specialize (IH (i + 1) (Z.shiftr v 7)). lia. }
    intros i v. destruct (negb _ && _); [|lia]. specialize (H f (i + 1) (Z.shiftr v 7)). lia.
  - rewrite Nat2Z.inj_succ, Z.pow_succ_r in Hv by lia. rewrite Z.shiftr_div_pow2 by lia. change (2 ^ 7) with 128.
    pose proof (Z.pow_pos_nonneg 128 (Z.of_nat n) ltac:(lia) ltac:(lia)).
    assert (128 ^ Z.of_nat n <= v / 128) by (apply Z.div_le_lower_bound; lia).
    rewrite (proj2 (Z.eqb_neq _ 0)), (proj2 (Z.ltb_lt (i + 1) 9)) by lia. cbn [negb andb].
    specialize (IH f (i + 1) (v / 128) ltac:(done) ltac:(lia) ltac:(lia)). lia.
Qed.

Lemma varintLen_eq n v : (n <= 7)%nat -> 128 ^ Z.of_nat n <= v < 128 ^ Z.of_nat (S n) -> sqlite3VarintLen v = Z.of_nat n + 1.
Proof.
  intros Hn Hv. unfold sqlite3VarintLen. pose proof (varintLen_ge n 9 0 v ltac:(lia) ltac:(lia) ltac:(lia)).
  pose proof (Z.pow_pos_nonneg 128 (Z.of_nat n) ltac:(lia) ltac:(lia)).
  pose proof (varintLen_loop_le n 9 0 v ltac:(lia)). lia.
Qed.

(** The size of a header with [s] bytes of serial types, its own varint included. *)
Definition header_size (s : Z) : Z := if s <=? 126 then s + 1 else if s <=? 16381 then s + 2 else s + 3.

(** The header size counts its own varint. *)
Lemma makeRecord_header_spec s : 0 <= s < 2 ^ 20 -> let H := header_size s in
  makeRecord_header s = Some H /\ H = s + sqlite3VarintLen H /\ 0 <= H < 2 ^ 21.
Proof.
  intros Hs. unfold makeRecord_header, header_size. pose proof (varintLen_eq 1) as V1. pose proof (varintLen_eq 2) as V2.
  change (128 ^ Z.of_nat 1) with 128 in V1. change (128 ^ Z.of_nat 2) with 16384 in *. change (128 ^ Z.of_nat 3) with 2097152 in V2.
  destruct (Z.leb_spec s 126). { rewrite varintLen_1 by lia. split; [done|lia]. }
  cbv zeta. destruct (Z.ltb_spec s 128).
  { assert (s = 127) as -> by lia. split; [reflexivity|]. cbn -[sqlite3VarintLen]. rewrite V1; lia. }
  destruct (Z.ltb_spec s 16384).
  - rewrite (V1 s) by lia. rewrite cint_ok by (unfold int_min, int_max; lia). cbn [mbind option_bind].
    destruct (Z.leb_spec s 16381).
    + change (Z.of_nat 1 + 1) with 2. rewrite (V1 (s + 2)) by lia. split; [done|lia].
    + change (Z.of_nat 1 + 1) with 2. rewrite (V2 (s + 2)) by lia. change (2 <? Z.of_nat 2 + 1) with true. cbv match. rewrite (V2 (s + 3)) by lia. 
      rewrite cint_ok by (unfold int_min, int_max; lia). split; [f_equal; lia|lia].
  - rewrite (V2 s) by lia. rewrite cint_ok by (unfold int_min, int_max; lia). cbn [mbind option_bind].
    rewrite (proj2 (Z.leb_gt s 16381)) by lia. change (Z.of_nat 2 + 1) with 3. rewrite (V2 (s + 3)) by lia. change (Z.of_nat 2 + 1) with 3. split; [done|lia].
Qed.

Section Make.
Context (e fmt : Z).

Definition stored (m : VMem) (w : value) (c : list Z) : Prop :=
  cell_ok e m w /\ sqlite3VdbeSerialPut m (fst (ser fmt w)) = Some c.

Lemma stored_plain m w : cell_ok e m w -> flag (v_flags m) MEM_Zero = false -> stored m w (snd (ser fmt w)).
Proof.
  intros Hc Hz. destruct (serialPut_cell e fmt m w Hc) as (c & Hp & ->). rewrite Hz. simpl. rewrite app_nil_r. done.
Qed.

(** The bytes that the contents of [ms] take: the zeros at the end of a blob are left
    out if nothing is stored behind them. *)
Fixpoint content_stored (ms : list VMem) (ws : list value) : nat :=
  match ms, ws with
  | m :: ms, w :: ws =>
      let d := content_stored ms ws in let n := length (snd (ser fmt w)) in
      if (d =? 0)%nat then n - Z.to_nat (if flag (v_flags m) MEM_Zero then v_nZero m else 0) else n + d
  | _, _ => 0
  end.

Lemma makeRecord_size_spec rms : forall rws dn dws cs nZero dms,
  Forall2 (cell_ok e) rms rws -> Forall3 stored dn dws cs -> length (mjoin cs) = content_stored dms dws ->
  content (fields fmt dws) = mjoin cs ++ zeros nZero ->
  Z.of_nat (length (hdr (fields fmt (rev rws ++ dws)) ++ content (fields fmt (rev rws ++ dws)))) < 2 ^ 31 ->
  exists ms cs' nZero',
    makeRecord_size fmt rms dn (Z.of_nat (length (mjoin cs))) (Z.of_nat (length (hdr (fields fmt dws)))) (Z.of_nat nZero) =
      Some (ms, Z.of_nat (length (mjoin cs')), Z.of_nat (length (hdr (fields fmt (rev rws ++ dws)))), Z.of_nat nZero') /\
    Forall3 stored ms (rev rws ++ dws) cs' /\ length (mjoin cs') = content_stored (rev rms ++ dms) (rev rws ++ dws) /\
    content (fields fmt (rev rws ++ dws)) = mjoin cs' ++ zeros nZero'.
Proof.
  induction rms as [|m rms IH]; intros rws dn dws cs nZero dms H2 H3 Hlen0 Hcont Hsize.
  { apply Forall2_nil_inv_l in H2 as ->. exists dn, cs, nZero. done. }
  apply Forall2_cons_inv_l in H2 as (w & rws' & Hc & H2 & ->). cbn [rev] in *. rewrite <- !app_assoc in *. cbn [app] in *.
  cbn [makeRecord_size]. rewrite (serialType_cell e fmt m w Hc). cbn [mbind option_bind].
  destruct (ser_ok fmt w) as [Hfo _]; [apply Hc|]. rewrite (fo_len _ _ Hfo). cbn [mbind option_bind]. pose proof (fo_range _ _ Hfo) as Htr.
  rewrite fields_app, hdr_app, content_app, !length_app in Hsize. unfold fields in Hsize at 2 4. cbn [map] in Hsize. fold (fields fmt dws) in Hsize.
  destruct (ser fmt w) as [t b] eqn:Es. rewrite hdr_cons, content_cons, !length_app in Hsize. cbn [fst snd] in *.
  assert (forall m' c nZ, stored m' w c -> length (c ++ mjoin cs) = content_stored (m :: dms) (w :: dws) -> b ++ content (fields fmt dws) = (c ++ mjoin cs) ++ zeros nZ ->
    exists ms cs' nZero',
      (nHdr ← cint (Z.of_nat (length (hdr (fields fmt dws))) + (if t <=? 127 then 1 else sqlite3VarintLen t));
       makeRecord_size fmt rms (m' :: dn) (u64 (Z.of_nat (length (mjoin cs)) + Z.of_nat (length c))) nHdr (Z.of_nat nZ)) =
        Some (ms, Z.of_nat (length (mjoin cs')), Z.of_nat (length (hdr (fields fmt (rev rws' ++ w :: dws)))), Z.of_nat nZero') /\
      Forall3 stored ms (rev rws' ++ w :: dws) cs' /\ length (mjoin cs') = content_stored (rev rms ++ m :: dms) (rev rws' ++ w :: dws) /\
      content (fields fmt (rev rws' ++ w :: dws)) = mjoin cs' ++ zeros nZero') as Hstep.
  { intros m' c nZ Hm' Hst' Hb. rewrite hdr_width by done. rewrite cint_ok by (unfold int_min, int_max; lia). cbn [mbind option_bind].
    assert (content (fields fmt (w :: dws)) = mjoin (c :: cs) ++ zeros nZ) as Hcont'.
    { cbn [fields map]. rewrite Es. fold (fields fmt dws). rewrite content_cons. rewrite Hb. done. }
    specialize (IH rws' (m' :: dn) (w :: dws) (c :: cs) nZ (m :: dms) H2 ltac:(by constructor) Hst' Hcont').
    apply (f_equal length) in Hb. rewrite !length_app in Hb.
    unfold u64. rewrite Z.mod_small by lia.
    replace (Z.of_nat (length (mjoin cs)) + Z.of_nat (length c)) with (Z.of_nat (length (mjoin (c :: cs))))
      by (change (mjoin (c :: cs)) with (c ++ mjoin cs); rewrite length_app; lia).
    replace (Z.of_nat (length (hdr (fields fmt dws))) + Z.of_nat (length (varint_bytes t))) with (Z.of_nat (length (hdr (fields fmt (w :: dws)))))
      by (cbn [fields map]; rewrite Es, hdr_cons, length_app; unfold fields; lia).
    apply IH. rewrite fields_app, hdr_app, content_app, !length_app. unfold fields at 2 4. cbn [map]. fold (fields fmt dws). rewrite Es.
    rewrite hdr_cons, content_cons, !length_app. lia. }
  destruct (flag (v_flags m) MEM_Zero) eqn:Hz.
  - destruct (serialPut_cell e fmt m w Hc) as (c & Hp & Hb). rewrite Es in Hp. rewrite Hz, Es in Hb. cbn [fst snd] in *.
    destruct (Z.eqb_spec (Z.of_nat (length (mjoin cs))) 0) as [E|E]; cbn [negb].
    + pose proof Hc as [_ Hm]. rewrite Hz in Hm. destruct Hm as (_ & _ & _ & _ & _ & _ & Hz0 & _).
      assert (mjoin cs = []) as Ej by (apply nil_length_inv; lia).
      assert (length b = length c + Z.to_nat (v_nZero m))%nat as Hlb by (rewrite Hb, length_app, length_replicate; done).
      apply (f_equal length) in Hcont as Hl. rewrite length_app, length_replicate in Hl.
      rewrite (cint_ok (Z.of_nat nZero + v_nZero m)) by (unfold int_min, int_max; lia). cbn [mbind option_bind].
      rewrite (cint_ok (Z.of_nat (length b) - v_nZero m)) by (unfold int_min, int_max; lia). cbn [mbind option_bind].
      replace (Z.of_nat (length b) - v_nZero m) with (Z.of_nat (length c)) by lia.
      replace (Z.of_nat nZero + v_nZero m) with (Z.of_nat (Z.to_nat (v_nZero m) + nZero)) by lia.
      apply Hstep; [split; [done|by rewrite Es]|cbn [content_stored]; rewrite Es, Hz, <- Hlen0, Ej, app_nil_r; cbn; lia|]. rewrite Hb, Hcont, Ej. cbn [app]. rewrite app_nil_r, replicate_add, <- app_assoc. done.
    + destruct (expand_cell e m w Hc Hz) as (m' & -> & Hc' & Hz'). cbn [mbind option_bind].
      pose proof (stored_plain m' w Hc' Hz') as Hst. rewrite Es in Hst. cbn [snd] in Hst.
      apply Hstep; [done|cbn [content_stored]; rewrite Es, <- Hlen0, (proj2 (Nat.eqb_neq _ 0)), length_app by lia; done|]. by rewrite Hcont, app_assoc.
  - cbn [mbind option_bind]. pose proof (stored_plain m w Hc Hz) as Hst. rewrite Es in Hst. cbn [snd] in Hst.
    apply Hstep; [done| |by rewrite Hcont, app_assoc]. cbn [content_stored]. rewrite Es, Hz, <- Hlen0, length_app. cbn. destruct (Nat.eqb_spec (length (mjoin cs)) 0); lia.
Qed.

(** The write loop fills the header at [i] and the contents at [j]. *)
Lemma makeRecord_write_spec ms : forall ws cs A X B Y R,
  Forall3 stored ms ws cs -> length X = length (hdr (fields fmt ws)) -> length Y = length (mjoin cs) ->
  makeRecord_write fmt ms (A ++ X ++ B ++ Y ++ R) (Z.of_nat (length A)) (Z.of_nat (length (A ++ X ++ B))) =
  Some (A ++ hdr (fields fmt ws) ++ B ++ mjoin cs ++ R, Z.of_nat (length (A ++ X)), Z.of_nat (length (A ++ X ++ B ++ Y))).
Proof.
  induction ms as [|m ms IH]; intros ws cs A X B Y R H3 HX HY.
  { inversion H3; subst. apply nil_length_inv in HX as ->. apply nil_length_inv in HY as ->. cbn. by rewrite !app_nil_r. }
  inversion H3 as [|? w c ? ws' cs' [Hc Hp] H3' E1 E2 E3]; subst. cbn [makeRecord_write].
  rewrite (serialType_cell e fmt m w Hc). cbn [mbind option_bind].
  destruct (ser_ok fmt w) as [Hfo _]; [apply Hc|]. pose proof (fo_range _ _ Hfo) as Htr.
  destruct (ser fmt w) as [t b] eqn:Es. cbn [fst snd] in *.
  rewrite putVarint32_spec by lia. destruct (putVarint_spec t) as (l & Hl & He); [lia|]. rewrite Hl. cbn [mbind option_bind].
  assert (varint_bytes t = l) as El by (unfold varint_bytes; by rewrite Hl).
  cbn [fields map] in HX |- *. fold (fields fmt ws') in HX |- *. rewrite Es, hdr_cons, El in *. rewrite length_app in HX.
  change (mjoin (c :: cs')) with (c ++ mjoin cs') in *. rewrite length_app in HY.
  rewrite <- (take_drop (length l) X), <- (take_drop (length c) Y).
  set (X1 := take (length l) X). set (X2 := drop (length l) X). set (Y1 := take (length c) Y). set (Y2 := drop (length c) Y).
  assert (length X1 = length l /\ length X2 = length (hdr (fields fmt ws'))) as [HX1 HX2]
    by (unfold X1, X2; rewrite length_take, length_drop; lia).
  assert (length Y1 = length c /\ length Y2 = length (mjoin cs')) as [HY1 HY2]
    by (unfold Y1, Y2; rewrite length_take, length_drop; lia).
  rewrite <- !app_assoc. rewrite (put_bytes_app A X1) by done. cbn [mbind option_bind]. rewrite Hp. cbn [mbind option_bind].
  replace (Z.of_nat (length (A ++ X1 ++ X2 ++ B))) with (Z.of_nat (length (A ++ l ++ X2 ++ B))) by (rewrite !length_app; lia).
  replace (A ++ l ++ X2 ++ B ++ Y1 ++ Y2 ++ R) with ((A ++ l ++ X2 ++ B) ++ Y1 ++ Y2 ++ R) by (by rewrite <- !app_assoc).
  rewrite put_bytes_app by done. cbn [mbind option_bind].
  specialize (IH ws' cs' (A ++ l) X2 (B ++ c) Y2 R H3' HX2 HY2). rewrite <- !app_assoc in IH.
  replace ((A ++ l ++ X2 ++ B) ++ c ++ Y2 ++ R) with (A ++ l ++ X2 ++ B ++ c ++ Y2 ++ R) by (by rewrite <- !app_assoc).
  replace (Z.of_nat (length A) + Z.of_nat (length l)) with (Z.of_nat (length (A ++ l))) by (rewrite length_app; lia).
  replace (Z.of_nat (length (A ++ l ++ X2 ++ B)) + Z.of_nat (length c)) with (Z.of_nat (length (A ++ l ++ X2 ++ B ++ c))) by (rewrite !length_app; lia).
  rewrite IH. do 3 f_equal; [rewrite !length_app; lia|rewrite !length_app; lia].
Qed.

(** The record of a list of values. *)
Definition record_bytes (H : Z) (ws : list value) : list Z := varint_bytes H ++ hdr (fields fmt ws) ++ content (fields fmt ws).

(** The bytes it takes in the output register, without the tail of zeros. *)
Definition record_size (ms : list VMem) (ws : list value) : Z :=
  header_size (Z.of_nat (length (hdr (fields fmt ws)))) + Z.of_nat (content_stored ms ws).

Lemma makeRecord_spec limit ms ws pOut z :
  Forall2 (cell_ok e) ms ws -> Z.of_nat (length ms) <= 32767 ->
  let H := header_size (Z.of_nat (length (hdr (fields fmt ws)))) in
  H = Z.of_nat (length (varint_bytes H ++ hdr (fields fmt ws))) /\ 0 <= H < 2 ^ 21 /\
    (Z.of_nat (length (record_bytes H ws)) < 2 ^ 31 ->
     exists stored_ nZero, record_bytes H ws = stored_ ++ zeros nZero /\ Z.of_nat (length stored_) = record_size ms ws /\
      (Z.of_nat (length stored_) <= Z.of_nat (length z) ->
       OP_MakeRecord fmt limit ms pOut z =
       Some (if limit <? Z.of_nat (length stored_) then TooBig
             else Made (mkVMem (if negb (Z.of_nat nZero =? 0) then Z.lor MEM_Blob MEM_Zero else MEM_Blob) (v_i pOut)
                    (if negb (Z.of_nat nZero =? 0) then Z.of_nat nZero else v_nZero pOut) (v_r pOut)
                    (stored_ ++ drop (length stored_) z) (Z.of_nat (length stored_)) SQLITE_UTF8)))).
Proof.
  intros H2 Hn. assert (Forall value_ok ws) as Hv.
  { clear -H2. induction H2 as [|m w ms ws [Hv _] _ IH]; by constructor. }
  destruct (fields_ok_ser fmt ws Hv) as [Hfo _]. pose proof (hdr_length _ Hfo) as [_ Hhl].
  assert (length (fields fmt ws) = length ms) as Hlf by (unfold fields; rewrite length_map; symmetry; by eapply Forall2_length).
  set (s := Z.of_nat (length (hdr (fields fmt ws)))).
  destruct (makeRecord_header_spec s) as (HH & EH & Hr); [lia|]. set (H := header_size s) in *. cbv zeta.
  assert (H = Z.of_nat (length (varint_bytes H ++ hdr (fields fmt ws)))) as EH'.
  { rewrite length_app, Nat2Z.inj_add, varint_bytes_length by lia. fold s. lia. }
  split; [done|]. split; [done|]. intros Hsmall. unfold record_bytes in *.
  apply Forall2_reverse in H2. change (reverse ms) with (rev_append ms []) in H2. change (reverse ws) with (rev_append ws []) in H2.
  rewrite <- !rev_alt in H2.
  rewrite !length_app in Hsmall.
  destruct (makeRecord_size_spec (rev ms) (rev ws) [] [] [] 0 [] H2) as (ms' & cs & nZero & Hsz & H3 & Hst & Hcont);
    [constructor|done|done|rewrite rev_involutive, app_nil_r, length_app; lia|].
  rewrite !rev_involutive, !app_nil_r in *. cbn [mjoin list_join length hdr fields map content mbind list_bind] in Hsz.
  change (Z.of_nat 0) with 0 in Hsz.
  exists (varint_bytes H ++ hdr (fields fmt ws) ++ mjoin cs), nZero. rewrite Hcont. split; [by rewrite <- !app_assoc|]. split; [unfold record_size; fold s; fold H; rewrite app_assoc, length_app, Nat2Z.inj_add, <- EH', Hst; done|].
  intros Hz. rewrite app_assoc, length_app, Nat2Z.inj_add, <- EH' in Hz |- *.
  unfold OP_MakeRecord. rewrite Hsz. cbn [mbind option_bind]. fold s. rewrite HH. cbn [mbind option_bind].
  destruct (limit <? H + Z.of_nat (length (mjoin cs))); [done|]. rewrite (proj2 (Z.leb_le _ _)) by done. cbn [assert_ mbind option_bind].
  rewrite putVarint32_spec by lia. destruct (putVarint_spec H) as (l & Hl & _); [lia|]. rewrite Hl. cbn [mbind option_bind].
  assert (varint_bytes H = l) as El by (unfold varint_bytes; by rewrite Hl). rewrite El in *. rewrite length_app in EH'.
  set (hl := length (hdr (fields fmt ws))) in *. set (cl := length (mjoin cs)) in *.
  assert (z = take (length l) z ++ take hl (drop (length l) z) ++ take cl (drop (length l + hl) z) ++ drop (length l + hl + cl) z) as Ez.
  { rewrite <- (take_drop (length l) z) at 1. f_equal. rewrite <- (take_drop hl (drop (length l) z)) at 1. f_equal.
    rewrite drop_drop. rewrite <- (take_drop cl (drop (length l + hl) z)) at 1. by rewrite drop_drop. }
  pose proof (put_bytes_app [] (take (length l) z) (take hl (drop (length l) z) ++ take cl (drop (length l + hl) z) ++ drop (length l + hl + cl) z) l
    ltac:(rewrite length_take; lia)) as Hput. cbn [app length] in Hput. change (Z.of_nat 0) with 0 in Hput. rewrite <- Ez in Hput. rewrite Hput. cbn [mbind option_bind].
  pose proof (makeRecord_write_spec ms' ws cs l (take hl (drop (length l) z)) [] (take cl (drop (length l + hl) z)) (drop (length l + hl + cl) z) H3
    ltac:(rewrite length_take, length_drop; lia) ltac:(rewrite length_take, length_drop; lia)) as Hw.
  cbn [app] in Hw. rewrite app_nil_r in Hw. rewrite length_app, length_take, length_drop, Nat.min_l in Hw by lia.
  replace (Z.of_nat (length l + hl)) with H in Hw by lia. rewrite Hw. cbn [mbind option_bind].
  rewrite Z.eqb_refl. cbn [assert_ mbind option_bind]. 
  match goal with |- context [assert_ (?x =? _)] => replace x with (H + Z.of_nat cl) by (rewrite !length_app, !length_take, !length_drop; lia) end. rewrite Z.eqb_refl. cbn [assert_ mbind option_bind].
  by rewrite (length_app l), <- !app_assoc.
Qed.
End Make.

(** ** Unpacking *)

Section Unpack.
Context (fs : list field) (h pad aKey : list Z) (nKey : Z).
Hypothesis Hkey : key_ok fs h pad aKey nKey.
Context (ki : KeyInfo) (n : Z).

(** From field [length fs1] on; [done_] holds the cells already filled. *)
Lemma recordUnpack_loop_spec fs2 : forall fs1 fuel done_ todo,
  fs = fs1 ++ fs2 -> length done_ = length fs1 -> n <= Z.of_nat (length (done_ ++ todo)) -> Z.of_nat (length fs1) <= n < 2 ^ 16 ->
  (length fs2 < fuel)%nat ->
  exists ms u, let u' := Nat.min (length fs2) (Z.to_nat n - length fs1) in
    recordUnpack_loop fuel ki nKey aKey n (done_ ++ todo) (hdr_pos h fs) (hdr_pos h fs1) (data_pos fs h fs1) (Z.of_nat (length fs1)) =
      Some (done_ ++ ms ++ u, Z.of_nat (length fs1 + u')) /\
    Forall2 (represents (k_enc ki)) ms (take u' (values fs2)).
Proof.
  induction fs2 as [|[t b] fs2 IH]; intros fs1 fuel dn todo E Hd Hn Hn2 Hfuel; (destruct fuel as [|f]; [simpl in Hfuel; lia|]);
    cbn [recordUnpack_loop].
  { rewrite (hdr_pos_end fs h pad aKey nKey Hkey fs1 [] E). cbn. exists [], todo. split; [|constructor]. by rewrite Nat.add_0_r. }
  rewrite (hdr_pos_end fs h pad aKey nKey Hkey fs1 _ E). rewrite bool_decide_eq_false_2 by done. cbn [negb andb].
  destruct (Z.ltb_spec (Z.of_nat (length fs1)) n) as [Hlt|Hge]; cbn [andb].
  2:{ exists [], todo. replace (Z.to_nat n - length fs1)%nat with 0%nat by lia. rewrite Nat.min_0_r, Nat.add_0_r. split; [done|constructor]. }
  destruct (key_field fs h pad aKey nKey Hkey fs1 t b fs2 E) as (Hf & Hat & Hh' & Hd' & Hhr & Hdr).
  destruct (at_field_type _ _ _ _ _ _ Hf Hat) as (_ & q & _ & _ & _ & -> & Hg).
  destruct Hat as [_ [rest Hdata] Hend]. pose proof (ko_small _ _ _ _ _ Hkey).
  rewrite (proj2 (Z.leb_le _ nKey)) by lia. cbn [mbind option_bind]. rewrite Hg. cbn [mbind option_bind]. rewrite Hdata. cbn [mbind option_bind].
  rewrite length_app in Hn. destruct todo as [|m todo]; [simpl in Hn; lia|].
  rewrite <- Hd. rewrite aget_middle. cbn [mbind option_bind].
  destruct (serialGet_field t b rest (mkVMem (v_flags m) (v_i m) (v_nZero m) (v_r m) (v_z m) (v_n m) (k_enc ki)) Hf) as (m1 & -> & Hm1). cbn [mbind option_bind].
  rewrite aset_middle. cbn [mbind option_bind]. rewrite <- Hh', <- Hd'. rewrite cint_ok by (unfold int_min, int_max; lia). cbn [mbind option_bind].
  unfold u32, u16. rewrite (Z.mod_small (hdr_pos _ _)) by lia. rewrite Z.mod_small by lia.
  assert (fs = (fs1 ++ [(t, b)]) ++ fs2) as E' by (by rewrite <- app_assoc). simpl in Hfuel, Hn.
  destruct (IH (fs1 ++ [(t, b)]) f (dn ++ [m1]) todo E') as (ms & u & Hl & Hr);
    [rewrite !length_app; simpl; lia|rewrite !length_app; simpl; lia|rewrite !length_app; simpl; lia|lia|].
  exists (m1 :: ms), u. replace (length dn) with (length fs1) by done.
  replace (Z.of_nat (length fs1) + 1) with (Z.of_nat (length (fs1 ++ [(t, b)]))) by (rewrite length_app; simpl; lia).
  rewrite <- app_assoc in Hl. cbn [app] in Hl. rewrite Hl. cbv zeta. rewrite length_app in *. simpl (length [_]) in *.
  replace (Nat.min (length ((t, b) :: fs2)) (Z.to_nat n - length fs1))
    with (S (Nat.min (length fs2) (Z.to_nat n - (length fs1 + 1)))) by (cbn [length]; lia).
  split; [rewrite <- app_assoc; cbn [app]; do 2 f_equal; lia|]. cbn [values map take fst snd]. by constructor.
Qed.

Lemma recordUnpack_spec p :
  nField p = n -> 0 <= n < 2 ^ 16 -> n <= k_nField ki + 1 -> n <= Z.of_nat (length (aMem p)) ->
  exists p', sqlite3VdbeRecordUnpack ki nKey aKey p = Some p' /\ default_rc p' = 0 /\
    nField p' = Z.min n (Z.of_nat (length fs)) /\
    Forall2 (represents (k_enc ki)) (take (Z.to_nat (nField p')) (aMem p')) (take (Z.to_nat n) (values fs)).
Proof.
  intros Hp Hn Hki Hm. unfold sqlite3VdbeRecordUnpack. rewrite (key_header fs h pad aKey nKey Hkey). cbn [mbind option_bind]. rewrite Hp.
  destruct (recordUnpack_loop_spec fs [] (S (length aKey)) [] (aMem p)) as (ms & u & Hl & Hr); [done|done|done|simpl; lia| |].
  { pose proof (hdr_length fs (ko_fields _ _ _ _ _ Hkey)). rewrite (ko_key _ _ _ _ _ Hkey), !length_app. lia. }
  cbv zeta in Hl. cbn [app length] in Hl. replace (data_pos fs h []) with (hdr_pos h fs) in Hl by (unfold data_pos, hdr_pos, content; simpl; by rewrite app_nil_r).
  change (Z.of_nat 0) with 0 in Hl. rewrite Nat.sub_0_r, Nat.add_0_l in *.
  assert (hdr_pos h fs < 2 ^ 31) as Hs.
  { pose proof (ko_small _ _ _ _ _ Hkey). pose proof (ko_nKey _ _ _ _ _ Hkey). unfold hdr_pos. rewrite !length_app in *. lia. }
  replace (as_int (hdr_pos h fs)) with (hdr_pos h fs) by (unfold as_int; by rewrite (proj2 (Z.ltb_lt _ _)) by done).
  rewrite Hl. cbn [mbind option_bind]. rewrite (proj2 (Z.leb_le _ _)) by lia. cbn [assert_ mbind option_bind].
  eexists. split; [reflexivity|]. cbn [default_rc nField aMem]. split; [done|]. split; [lia|].
  rewrite Nat2Z.id. change (length (@nil field)) with 0%nat in Hr. rewrite ?Nat.sub_0_r in Hr.
  pose proof (Forall2_length _ _ _ Hr) as Hlen. rewrite length_take in Hlen. unfold values in Hlen. rewrite length_map in Hlen.
  rewrite take_app_le by lia. rewrite take_ge by lia.
  replace (take (Z.to_nat n) (values fs)) with (take (Nat.min (length fs) (Z.to_nat n)) (values fs)); [done|].
  destruct (Nat.min_spec (length fs) (Z.to_nat n)) as [[? ->]|[? ->]]; [|done]. rewrite !take_ge; unfold values; rewrite ?length_map; done || lia.
Qed.
End Unpack.

Lemma record_key e fmt ms ws H pad :
  Forall2 (cell_ok e) ms ws -> H = Z.of_nat (length (varint_bytes H ++ hdr (fields fmt ws))) -> 0 <= H < 2 ^ 21 ->
  Z.of_nat (length (record_bytes fmt H ws)) < 2 ^ 31 -> Forall is_byte pad ->
  key_ok (fields fmt ws) (varint_bytes H) pad (record_bytes fmt H ws ++ pad) (Z.of_nat (length (record_bytes fmt H ws))).
Proof.
  intros H2 HH Hr Hs Hp. assert (Forall value_ok ws) as Hv.
  { clear -H2. induction H2 as [|m w ms ws [Hv _] _ IH]; by constructor. }
  constructor; unfold record_bytes in *; [by rewrite <- !app_assoc| |done|done|done|by apply fields_ok_ser].
  rewrite <- HH. apply varint_bytes_ok. lia.
Qed.

(** C2. Making a record and unpacking it again gives the values back: for
    registers holding integers, reals, texts, blobs (with or without a tail of
    zeros that is not materialised) and NULLs, OP_MakeRecord reports SQLITE_TOOBIG
    exactly when the header (with its own size) and the stored contents exceed the
    limit; the zeros at the end of a blob count as stored only if content follows.
    Otherwise it leaves in the output register a blob of exactly that many bytes that,
    with its own tail of zeros, unpacks to cells holding the same values in the
    same order. *)
Theorem make_unpack_roundtrip e fmt limit ms ws pOut z ki p :
  Forall2 (cell_ok e) ms ws -> Z.of_nat (length ms) <= 32767 ->
  Z.of_nat (length (hdr (fields fmt ws) ++ content (fields fmt ws))) + 3 < 2 ^ 31 ->
  record_size fmt ms ws <= Z.of_nat (length z) ->
  k_enc ki = e -> nField p = Z.of_nat (length ms) -> Z.of_nat (length ms) <= k_nField ki + 1 ->
  Z.of_nat (length ms) <= Z.of_nat (length (aMem p)) ->
  if limit <? record_size fmt ms ws then OP_MakeRecord fmt limit ms pOut z = Some TooBig
  else exists out s p', OP_MakeRecord fmt limit ms pOut z = Some (Made out) /\ v_n out = record_size fmt ms ws /\
    v_bytes out = Some s /\
    let rec_ := s ++ zeros (Z.to_nat (if flag (v_flags out) MEM_Zero then v_nZero out else 0)) in
    sqlite3VdbeRecordUnpack ki (Z.of_nat (length rec_)) rec_ p = Some p' /\
    nField p' = Z.of_nat (length ws) /\
    Forall2 (represents e) (take (length ws) (aMem p')) ws.
Proof.
  intros H2 Hn Hs Hz Hki Hp Hk Hm. pose proof (Forall2_length _ _ _ H2) as Hlw.
  destruct (makeRecord_spec e fmt limit ms ws pOut z H2 Hn) as (EH & Hr & Hmake). set (H := header_size _) in *.
  assert (Z.of_nat (length (varint_bytes H)) <= 3) as H3.
  { rewrite varint_bytes_length by lia. apply (varintLen_loop_le 2 9 0 H). change (128 ^ Z.of_nat 3) with (2 ^ 21). lia. }
  assert (Z.of_nat (length (record_bytes fmt H ws)) <= Z.of_nat (length (hdr (fields fmt ws) ++ content (fields fmt ws))) + 3) as Hrl
    by (unfold record_bytes; rewrite length_app; lia).
  destruct Hmake as (st & nZ & Est & Hsz & Hmake); [lia|].
  assert (Z.of_nat (length st) + Z.of_nat nZ = Z.of_nat (length (record_bytes fmt H ws))) as Hst by (rewrite Est, length_app, length_replicate; lia).
  rewrite <- Hsz, Hmake by lia. destruct (limit <? Z.of_nat (length st)); [done|].
  pose proof (record_key e fmt ms ws H [] H2 EH Hr ltac:(lia) ltac:(done)) as Hkey. rewrite app_nil_r in Hkey.
  assert (Forall value_ok ws) as Hv. { clear -H2. induction H2 as [|m w ms ws [Hv _] _ IH]; by constructor. }
  destruct (fields_ok_ser fmt ws Hv) as [_ Hvals].
  destruct (recordUnpack_spec _ _ _ _ _ Hkey ki (Z.of_nat (length ms)) p Hp ltac:(lia) Hk Hm) as (p' & Hu & _ & Hnf & Hrep).
  eexists _, st, p'. split; [reflexivity|]. cbn [v_n v_flags v_nZero]. split; [done|]. split.
  { unfold v_bytes. cbn [v_n v_z]. rewrite decide_True by (rewrite length_app; lia). by rewrite Nat2Z.id, take_app_length. }
  assert (Z.to_nat (if flag (if negb (Z.of_nat nZ =? 0) then Z.lor MEM_Blob MEM_Zero else MEM_Blob) MEM_Zero
    then if negb (Z.of_nat nZ =? 0) then Z.of_nat nZ else v_nZero pOut else 0) = nZ) as ->.
  { destruct (Z.eqb_spec (Z.of_nat nZ) 0); cbn [negb]; [change (flag MEM_Blob MEM_Zero) with false|change (flag (Z.lor MEM_Blob MEM_Zero) MEM_Zero) with true]; lia. }
  cbv zeta. rewrite <- Est. split; [exact Hu|]. unfold fields in Hnf. rewrite length_map in Hnf. rewrite Hvals, Hki in Hrep.
  split; [lia|]. replace (Z.to_nat (nField p')) with (length ws) in Hrep by lia. rewrite Nat2Z.id, Hlw, (firstn_all ws) in Hrep. done.
Qed.

(** An integer field holds its value in the width of its type. *)
Lemma field_int_range t b i : field_ok t b -> field_value t b = VInt i ->
  (t = 8 \/ t = 9) /\ b = [] \/ exists n, n = length b /\ (n = 1 \/ n = 2 \/ n = 3 \/ n = 4 \/ n = 6 \/ n = 8)%nat /\
    - 2 ^ (8 * Z.of_nat n - 1) <= i < 2 ^ (8 * Z.of_nat n - 1).
Proof.
  intros Hf Hv. pose proof (be_val_range b (fo_bytes _ _ Hf)) as Hb. pose proof (field_value_kind t b Hf) as Hk. rewrite Hv in Hk.
  destruct (field_cases t b Hf) as
    [[? ->]|[[-> (x0 & ->)]|[[-> (x0 & x1 & ->)]|[[-> (x0 & x1 & x2 & ->)]|[[-> (x0 & x1 & x2 & x3 & ->)]|
     [[-> (x0 & x1 & x2 & x3 & x4 & x5 & ->)]|[[Ht (x0 & x1 & x2 & x3 & x4 & x5 & x6 & x7 & ->)]|[[Ht ->]|[Ht Hl]]]]]]]]]; try lia.
  7: left; done.
  6: assert (t = 6) as -> by lia.
  all: right; unfold field_value in Hv; cbn [Z.eqb Z.leb Z.compare Pos.compare Pos.compare_cont Pos.eqb length] in Hv, Hb;
    injection Hv as <-; eexists; (split; [reflexivity|]); (split; [simpl; lia|]); unfold sgn; cbn [length];
    match goal with |- context [?x <? ?y] => destruct (Z.ltb_spec x y) end; lia.
Qed.

(** Integers survive serialisation: the serial type chosen for a cell, the
    bytes written and the bytes read back give the same integer, and no field of
    a record can hold the integer in fewer bytes, the most negative number of a
    width excepted, which the code stores in the next one; the file formats
    before 4 do not have the zero-byte constants 0 and 1. *)
Theorem serial_int_minimal e fmt m i rest m0 :
  cell_ok e m (VInt i) ->
  exists t b, sqlite3VdbeSerialType m fmt = Some t /\ sqlite3VdbeSerialPut m t = Some b /\
    (exists m', sqlite3VdbeSerialGet (b ++ rest) t m0 = Some (m', Z.of_nat (length b)) /\
       represents (v_enc m0) m' (VInt i)) /\
    forall t' b', field_ok t' b' -> field_value t' b' = VInt i -> (4 <= fmt \/ b' <> []) ->
      (length b <= length b')%nat \/
      ((length b' = 1 \/ length b' = 2 \/ length b' = 3 \/ length b' = 4 \/ length b' = 6)%nat /\
       i = - 2 ^ (8 * Z.of_nat (length b') - 1)).
Proof.
  intros Hc. exists (fst (ser fmt (VInt i))), (snd (ser fmt (VInt i))).
  assert (flag (v_flags m) MEM_Zero = false) as Hz.
  { destruct Hc as [_ Hm]. destruct (flag (v_flags m) MEM_Zero); [|done]. destruct Hm as (_ & _ & _ & _ & _ & _ & _ & s & _ & ?). done. }
  destruct (ser_ok fmt (VInt i)) as [Hf Hv]; [apply Hc|].
  split; [by eapply serialType_cell|]. split; [by eapply stored_plain|]. split.
  { destruct (serialGet_field _ _ rest m0 Hf) as (m' & Hg & Hr). rewrite Hv in Hr. by exists m'. }
  intros t' b' Hf' Hv' Hfmt. destruct (field_int_range t' b' i Hf' Hv') as [[Ht ->]|(n & -> & Hn & Hr)].
  - left. destruct Hfmt as [Hfmt|]; [|done]. pose proof (field_value_kind _ _ Hf') as Hk.
    assert (i = 0 \/ i = 1) as Hi by (destruct Ht as [-> | ->]; injection Hv' as <-; lia).
    cbn [ser snd]. unfold int_type. rewrite (proj2 (Z.leb_le 4 fmt)) by done. destruct Hi as [-> | ->]; simpl; lia.
  - cbn [ser snd]. destruct (put_val (int_len (int_type fmt i)) (u64 i)) as (-> & _).
    unfold int_type. destruct (_ && _) eqn:E.
    { left. apply andb_true_iff in E as [E _]. apply orb_true_iff in E. rewrite !Z.eqb_eq in E.
      destruct E as [-> | ->]; (change (int_len _) with 0%nat; lia). }
    cbv zeta. change MAX_6BYTE with (2 ^ 47 - 1).
    destruct Hn as [Hn|[Hn|[Hn|[Hn|[Hn|Hn]]]]]; rewrite Hn in *;
      match type of Hr with context [2 ^ ?x] => let v := eval vm_compute in (2 ^ x) in change (2 ^ x) with v in * end;
      repeat match goal with |- context [?x <=? ?y] => destruct (Z.leb_spec x y) end;
      first [left; match goal with |- (int_len ?t <= _)%nat => let v := eval vm_compute in (int_len t) in change (int_len t) with v end; lia|right; split; [lia|lia]].
Qed.

(** ** Registers that hold only zeros *)

(** The register set to zeroblob([n]). *)
Definition sqlite3VdbeMemSetZeroBlob (pMem : VMem) (n : Z) : VMem :=
  mkVMem (Z.lor MEM_Blob MEM_Zero) (v_i pMem) (if n <? 0 then 0 else n) (v_r pMem) [] 0 SQLITE_UTF8.

Section Zeroblobs.
Context (fmt : Z) (m0 : VMem).

Definition zblob (n : Z) : VMem := sqlite3VdbeMemSetZeroBlob m0 n.
Definition zval (n : Z) : value := VBlob (zeros (Z.to_nat n)).
Definition zlen_ok (n : Z) : Prop := 0 <= n /\ 2 * n + 13 < 2 ^ 31.
Definition zsum : list Z -> Z := foldr Z.add 0.
Definition zhdr : list Z -> Z := foldr (fun n a => sqlite3VarintLen (2 * n + 12) + a) 0.

Lemma zblob_ok e n : zlen_ok n -> cell_ok e (zblob n) (zval n).
Proof.
  intros [Hn Hs]. split.
  - split; [apply Forall_replicate; unfold ubits; lia|rewrite length_replicate; lia].
  - unfold zblob, sqlite3VdbeMemSetZeroBlob. rewrite (proj2 (Z.ltb_ge n 0)) by lia. cbn [v_flags v_nZero].
    change (flag (Z.lor MEM_Blob MEM_Zero) MEM_Zero) with true. cbv match. split_and!; try done. by exists [].
Qed.

Lemma zsum_nonneg ns : Forall zlen_ok ns -> 0 <= zsum ns.
Proof. induction 1 as [|n ns [Hn _] _ IH]; simpl; [lia|]. unfold zsum in *. lia. Qed.

Lemma zsum_rev ns : zsum (rev ns) = zsum ns.
Proof.
  assert (forall a n, zsum (a ++ [n]) = zsum a + n) as Happ.
  { intros a n. unfold zsum. induction a as [|x a IH]; simpl; [lia|]. rewrite IH. lia. }
  induction ns as [|n ns IH]; [done|]. cbn [rev]. rewrite Happ, IH. change (zsum (n :: ns)) with (n + zsum ns). lia.
Qed.

Lemma zhdr_length ns : Forall zlen_ok ns -> Z.of_nat (length (hdr (fields fmt (map zval ns)))) = zhdr ns.
Proof.
  induction 1 as [|n ns [Hn Hs] _ IH]; [done|]. unfold fields in *. cbn [map ser zval fst]. rewrite hdr_cons, length_app, Nat2Z.inj_add, IH.
  rewrite length_replicate, varint_bytes_length by lia. cbn [zhdr foldr]. unfold zhdr. do 2 f_equal. lia.
Qed.

Lemma zcontent_length ns : Forall zlen_ok ns -> Z.of_nat (length (content (fields fmt (map zval ns)))) = zsum ns.
Proof.
  induction 1 as [|n ns [Hn Hs] _ IH]; [done|]. unfold fields in *. cbn [map ser zval]. rewrite content_cons, length_app, Nat2Z.inj_add, IH, length_replicate.
  change (zsum (n :: ns)) with (n + zsum ns). lia.
Qed.

Lemma zcontent_stored ns : Forall zlen_ok ns -> content_stored fmt (map zblob ns) (map zval ns) = 0%nat.
Proof.
  induction 1 as [|n ns [Hn Hs] _ IH]; [done|]. cbn [map content_stored]. rewrite IH. cbn [zval ser snd].
  rewrite length_replicate. unfold zblob, sqlite3VdbeMemSetZeroBlob. rewrite (proj2 (Z.ltb_ge n 0)) by lia. cbn [v_flags v_nZero Nat.eqb].
  change (flag (Z.lor MEM_Blob MEM_Zero) MEM_Zero) with true. cbv match. lia.
Qed.

(** The int nZero overflows in the sizing loop. *)
Lemma zsize_overflow rns : forall dn nHdr nZero, Forall zlen_ok rns -> 0 <= nZero <= int_max -> int_max < nZero + zsum rns ->
  makeRecord_size fmt (map zblob rns) dn 0 nHdr nZero = None.
Proof.
  induction rns as [|n rns IH]; intros dn nHdr nZero Hok Hz Hs; [simpl in Hs; lia|]. apply Forall_cons in Hok as [Hn Hok].
  cbn [map makeRecord_size]. rewrite (serialType_cell SQLITE_UTF8 fmt _ _ (zblob_ok SQLITE_UTF8 n Hn)). cbn [mbind option_bind].
  destruct (ser_ok fmt (zval n)) as [Hfo _]; [apply (zblob_ok SQLITE_UTF8 n Hn)|]. rewrite (fo_len _ _ Hfo). cbn [mbind option_bind].
  change (flag (v_flags (zblob n)) MEM_Zero) with true. cbv match. change (negb (0 =? 0)) with false. cbv match.
  replace (v_nZero (zblob n)) with n by (unfold zblob, sqlite3VdbeMemSetZeroBlob; cbn; by rewrite (proj2 (Z.ltb_ge n 0)) by apply Hn).
  cbn [zval ser snd]. rewrite length_replicate. destruct Hn as [Hn Hn']. rewrite Z2Nat.id by done.
  destruct (Z.le_gt_cases (nZero + n) int_max) as [E|E]; [|unfold cint; rewrite (proj2 (Z.leb_gt (nZero + n) int_max)), andb_false_r by lia; done].
  rewrite (cint_ok (nZero + n)) by (unfold int_min; lia). cbn [mbind option_bind].
  rewrite Z.sub_diag. cbn [mbind option_bind]. change (cint 0) with (Some 0). cbn [mbind option_bind]. change (u64 (0 + 0)) with 0.
  destruct (cint (nHdr + _)); [|done]. cbn [mbind option_bind]. apply IH; [done|lia|]. change (zsum (n :: rns)) with (n + zsum rns) in Hs. lia.
Qed.
End Zeroblobs.

(** C37. The size limit does not see zero-filled tails: a record of any zeroblobs
    is made as soon as its header alone fits the limit, whatever their total
    length, and if that total exceeds the largest int, adding the tails up in nZero
    overflows it. *)
Theorem make_record_zero_tail_unchecked fmt limit m0 ns pOut z :
  Forall zlen_ok ns -> Z.of_nat (length ns) <= 32767 ->
  header_size (zhdr ns) <= limit -> header_size (zhdr ns) <= Z.of_nat (length z) ->
  (0 < zsum ns -> header_size (zhdr ns) + zsum ns < 2 ^ 31 ->
   exists out, OP_MakeRecord fmt limit (map (sqlite3VdbeMemSetZeroBlob m0) ns) pOut z = Some (Made out) /\
     flag (v_flags out) MEM_Zero = true /\ v_n out + v_nZero out = header_size (zhdr ns) + zsum ns) /\
  (2 ^ 31 <= zsum ns -> OP_MakeRecord fmt limit (map (sqlite3VdbeMemSetZeroBlob m0) ns) pOut z = None).
Proof.
  intros Hok Hn Hlim Hz. change (map (sqlite3VdbeMemSetZeroBlob m0) ns) with (map (zblob m0) ns). split.
  - intros Hpos Hsmall. assert (Forall2 (cell_ok SQLITE_UTF8) (map (zblob m0) ns) (map zval ns)) as H2.
    { apply Forall2_fmap, Forall_Forall2_diag. eapply Forall_impl; [exact Hok|]. intros n. apply zblob_ok. }
    destruct (makeRecord_spec SQLITE_UTF8 fmt limit _ _ pOut z H2 ltac:(by rewrite length_map)) as (EH & _ & Hm).
    rewrite (zhdr_length fmt ns Hok) in *. set (H := header_size (zhdr ns)) in *.
    assert (Z.of_nat (length (record_bytes fmt H (map zval ns))) = H + zsum ns) as Hlen.
    { unfold record_bytes. rewrite app_assoc, length_app, Nat2Z.inj_add, <- EH, (zcontent_length fmt ns Hok). done. }
    destruct Hm as (st & nZ & Est & Hst & Hm); [lia|]. unfold record_size in Hst. rewrite (zhdr_length fmt ns Hok), (zcontent_stored fmt m0 ns Hok) in Hst. fold H in Hst.
    apply (f_equal length) in Est. rewrite length_app, length_replicate in Est.
    rewrite Hm, (proj2 (Z.ltb_ge limit _)) by lia. eexists. split; [reflexivity|]. cbn [v_flags v_n v_nZero].
    rewrite (proj2 (Z.eqb_neq (Z.of_nat nZ) 0)) by lia. cbn [negb]. split; [done|lia].
  - intros Hbig. unfold OP_MakeRecord. rewrite <- map_rev. rewrite zsize_overflow; [done|by apply Forall_rev|unfold int_max; lia|].
    replace (zsum (rev ns)) with (zsum ns); [unfold int_max; lia|]. symmetry. apply zsum_rev.
Qed.

(** ** Witnesses *)

Definition sample_cells : list VMem :=
  [mkVMem MEM_Int (-128) 0 0 [] 0 SQLITE_UTF8; mkVMem (Z.lor MEM_Blob MEM_Zero) 0 2 0 [7; 9] 1 SQLITE_UTF8;
   mkVMem MEM_Null 0 0 0 [] 0 SQLITE_UTF8].
Definition sample_values : list value := [VInt (-128); VBlob [7; 0; 0]; VNull].

Lemma sample_cells_ok : Forall2 (cell_ok SQLITE_UTF8) sample_cells sample_values.
Proof.
  repeat constructor; try (vm_compute; intuition congruence).
  exists [7]. by vm_compute.
Qed.


Definition blank : VMem := mkVMem 0 0 0 0 [] 0 0.
Definition sample_ki : KeyInfo := mkKeyInfo SQLITE_UTF8 2 1 [0; 0; 0] [None; None; None].
Definition sample_target : UnpackedRecord := mkUnpackedRecord sample_ki 3 0 0 [blank; blank; blank] 0 0.

Lemma make_unpack_roundtrip_witness :
  record_size 4 sample_cells sample_values = 7 /\
  exists out s p', OP_MakeRecord 4 7 sample_cells blank (repeat 0 32) = Some (Made out) /\ v_n out = 7 /\
    v_bytes out = Some s /\
    let rec_ := s ++ zeros (Z.to_nat (if flag (v_flags out) MEM_Zero then v_nZero out else 0)) in
    sqlite3VdbeRecordUnpack sample_ki (Z.of_nat (length rec_)) rec_ sample_target = Some p' /\
    nField p' = 3 /\ Forall2 (represents SQLITE_UTF8) (take 3 (aMem p')) sample_values.
Proof.
  split; [reflexivity|].
  apply (make_unpack_roundtrip SQLITE_UTF8 4 7 sample_cells sample_values blank (repeat 0 32) sample_ki sample_target).
  - apply sample_cells_ok.
  - vm_compute. congruence.
  - vm_compute. reflexivity.
  - vm_compute. congruence.
  - reflexivity.
  - reflexivity.
  - vm_compute. congruence.
  - vm_compute. congruence.
Defined.

Lemma serial_int_minimal_witness :
  let m := mkVMem MEM_Int (-128) 0 0 [] 0 SQLITE_UTF8 in
  exists t b, sqlite3VdbeSerialType m 4 = Some t /\ sqlite3VdbeSerialPut m t = Some b /\
    (exists m', sqlite3VdbeSerialGet (b ++ []) t blank = Some (m', Z.of_nat (length b)) /\
       represents 0 m' (VInt (-128))) /\
    forall t' b', field_ok t' b' -> field_value t' b' = VInt (-128) -> (4 <= 4 \/ b' <> []) ->
      (length b <= length b')%nat \/
      ((length b' = 1 \/ length b' = 2 \/ length b' = 3 \/ length b' = 4 \/ length b' = 6)%nat /\
       -128 = - 2 ^ (8 * Z.of_nat (length b') - 1)).
Proof.
  apply (serial_int_minimal SQLITE_UTF8 4 (mkVMem MEM_Int (-128) 0 0 [] 0 SQLITE_UTF8) (-128) [] blank).
  split; [by split|]. by vm_compute.
Defined.

Lemma make_record_zero_tail_unchecked_witness :
  (exists out, OP_MakeRecord 4 1000000000 [sqlite3VdbeMemSetZeroBlob blank 1000000000; sqlite3VdbeMemSetZeroBlob blank 1000000000] blank (repeat 0 32) = Some (Made out) /\
     flag (v_flags out) MEM_Zero = true /\ v_n out + v_nZero out = 2000000011) /\
  OP_MakeRecord 4 1000000000 [sqlite3VdbeMemSetZeroBlob blank 1000000000; sqlite3VdbeMemSetZeroBlob blank 1000000000; sqlite3VdbeMemSetZeroBlob blank 1000000000] blank (repeat 0 32) = None.
Proof.
  split.
  - apply (make_record_zero_tail_unchecked 4 1000000000 blank [1000000000; 1000000000] blank (repeat 0 32)).
    + by repeat constructor.
    + by vm_compute.
    + by vm_compute.
    + by vm_compute.
    + reflexivity.
    + reflexivity.
  - apply (make_record_zero_tail_unchecked 4 1000000000 blank [1000000000; 1000000000; 1000000000] blank (repeat 0 32)).
    + by repeat constructor.
    + by vm_compute.
    + by vm_compute.
    + by vm_compute.
    + by vm_compute.
Defined.
