(* ===== verification/Utf.v ===== *)
(** * Utf: text encodings (utf.c)

    A zero-terminated string is the list of its bytes with the terminator; an
    iterator with an end pointer is the list of the bytes before the end. *)
From S2P Require Import Prelude Atoi Record RecordValue MakeRecord.

(** ** Reading and writing characters *)

Definition sqlite3Utf8Trans1 : list Z :=
  [0; 1; 2; 3; 4; 5; 6; 7;
   8; 9; 10; 11; 12; 13; 14; 15;
   16; 17; 18; 19; 20; 21; 22; 23;
   24; 25; 26; 27; 28; 29; 30; 31;
   0; 1; 2; 3; 4; 5; 6; 7;
   8; 9; 10; 11; 12; 13; 14; 15;
   0; 1; 2; 3; 4; 5; 6; 7;
   0; 1; 2; 3; 0; 1; 0; 0].

(** ( *zIn & 0xc0)==0x80 *)
Definition continuation (b : Z) : bool := Z.land b 192 =? 128.

(** c = (c<<6) + (0x3f & *zIn) *)
Definition shift_in (c b : Z) : Z := u32 (u32 (Z.shiftl c 6) + Z.land 63 b).

(** The characters that a multi-byte sequence may not encode become 0xFFFD. *)
Definition utf8_fix (c : Z) : Z :=
  if (c <? 128) || (Z.land c 4294965248 =? 55296) || (Z.land c 4294967294 =? 65534) then 65533 else c.

(** READ_UTF8(zIn, zTerm, c) *)
Fixpoint read_utf8_loop (c : Z) (zIn : list Z) : Z * list Z :=
  match zIn with
  | b :: zIn' => if continuation b then read_utf8_loop (shift_in c b) zIn' else (c, zIn)
  | [] => (c, [])
  end.

Definition READ_UTF8 (zIn : list Z) : option (Z * list Z) :=
  match zIn with
  | [] => None
  | c :: zIn =>
      if 192 <=? c then
        c ← aget sqlite3Utf8Trans1 (c - 192);
        let '(c, zIn) := read_utf8_loop c zIn in
        Some (utf8_fix c, zIn)
      else Some (c, zIn)
  end.

(** The same up to the terminator. *)
Fixpoint utf8Read_loop (c : Z) (z : list Z) : option (Z * list Z) :=
  match z with
  | b :: z' => if continuation b then utf8Read_loop (shift_in c b) z' else Some (c, z)
  | [] => None
  end.

Definition sqlite3Utf8Read (z : list Z) : option (Z * list Z) :=
  match z with
  | [] => None
  | c :: z =>
      if 192 <=? c then
        c ← aget sqlite3Utf8Trans1 (c - 192);
        '(c, z) ← utf8Read_loop c z;
        Some (utf8_fix c, z)
      else Some (c, z)
  end.

Fixpoint skip_loop (z : list Z) : option (list Z) :=
  match z with
  | b :: z' => if continuation b then skip_loop z' else Some z
  | [] => None
  end.

Definition SQLITE_SKIP_UTF8 (z : list Z) : option (list Z) :=
  match z with
  | [] => None
  | c :: z => if 192 <=? c then skip_loop z else Some z
  end.

Definition WRITE_UTF8 (c : Z) : list Z :=
  if c <? 128 then [u8 (Z.land c 255)]
  else if c <? 2048 then
    [u8 (192 + u8 (Z.land (Z.shiftr c 6) 31)); u8 (128 + u8 (Z.land c 63))]
  else if c <? 65536 then
    [u8 (224 + u8 (Z.land (Z.shiftr c 12) 15)); u8 (128 + u8 (Z.land (Z.shiftr c 6) 63)); u8 (128 + u8 (Z.land c 63))]
  else
    [u8 (240 + u8 (Z.land (Z.shiftr c 18) 7)); u8 (128 + u8 (Z.land (Z.shiftr c 12) 63));
     u8 (128 + u8 (Z.land (Z.shiftr c 6) 63)); u8 (128 + u8 (Z.land c 63))].

Definition WRITE_UTF16LE (c : Z) : list Z :=
  if c <=? 65535 then [u8 (Z.land c 255); u8 (Z.land (Z.shiftr c 8) 255)]
  else
    [u8 (Z.land (Z.shiftr c 10) 63 + Z.land (Z.shiftr (c - 65536) 10) 192);
     u8 (216 + Z.land (Z.shiftr (c - 65536) 18) 3);
     u8 (Z.land c 255);
     u8 (220 + Z.land (Z.shiftr c 8) 3)].

Definition WRITE_UTF16BE (c : Z) : list Z :=
  if c <=? 65535 then [u8 (Z.land (Z.shiftr c 8) 255); u8 (Z.land c 255)]
  else
    [u8 (216 + Z.land (Z.shiftr (c - 65536) 18) 3);
     u8 (Z.land (Z.shiftr c 10) 63 + Z.land (Z.shiftr (c - 65536) 10) 192);
     u8 (220 + Z.land (Z.shiftr c 8) 3);
     u8 (Z.land c 255)].

(** The character of a surrogate pair. *)
Definition surrogates (c c2 : Z) : Z :=
  Z.land c2 1023 + Z.shiftl (Z.land c 63) 10 + Z.shiftl (Z.land c 960 + 64) 10.

(** READ_UTF16LE(zIn, TERM, c) and READ_UTF16BE(zIn, TERM, c); TERM is either
    1 or zIn<zTerm, evaluated after the first two bytes. *)
Definition READ_UTF16 (be : bool) (zIn : list Z) (TERM : list Z -> bool) : option (Z * list Z) :=
  let unit_ z := match z with
                 | a :: b :: z => Some (if be then Z.shiftl a 8 + b else a + Z.shiftl b 8, z)
                 | _ => None
                 end in
  '(c, zIn) ← unit_ zIn;
  if (55296 <=? c) && (c <? 57344) && TERM zIn then
    '(c2, zIn) ← unit_ zIn;
    Some (surrogates c c2, zIn)
  else Some (c, zIn).

Definition READ_UTF16LE := READ_UTF16 false.
Definition READ_UTF16BE := READ_UTF16 true.

(** ** Conversion *)

(** while( zIn<zTerm ){ READ(zIn, c); WRITE(z, c); } *)
Fixpoint translate_loop (fuel : nat) (READ : list Z -> option (Z * list Z)) (WRITE : Z -> list Z)
    (zIn z : list Z) : option (list Z) :=
  match fuel with
  | O => None
  | S f =>
      match zIn with
      | [] => Some z
      | _ => '(c, zIn) ← READ zIn; translate_loop f READ WRITE zIn (z ++ WRITE c)
      end
  end.

(** The loop that swaps the bytes of each pair; an odd last byte stays. *)
Fixpoint swap_loop (z : list Z) : list Z :=
  match z with
  | a :: b :: z => b :: a :: swap_loop z
  | z => z
  end.

(** [ok]: whether the allocation succeeds.  The result code and the cell. *)
Definition sqlite3VdbeMemTranslate (ok : bool) (pMem : VMem) (desiredEnc : Z) : option (Z * VMem) :=
  let f := v_flags pMem in
  _ ← assert_ (flag f MEM_Str);
  _ ← assert_ (negb (v_enc pMem =? desiredEnc));
  _ ← assert_ (negb (v_enc pMem =? 0));
  zIn ← v_bytes pMem;
  if negb (v_enc pMem =? SQLITE_UTF8) && negb (desiredEnc =? SQLITE_UTF8) then
    if ok then
      Some (SQLITE_OK, mkVMem f (v_i pMem) (v_nZero pMem) (v_r pMem) (swap_loop zIn) (v_n pMem) desiredEnc)
    else Some (SQLITE_NOMEM, pMem)
  else
    let n := if desiredEnc =? SQLITE_UTF8 then Z.land (v_n pMem) (Z.lnot 1) else v_n pMem in
    len ← (if desiredEnc =? SQLITE_UTF8 then cint (n * 2 + 1) else cint (n * 2 + 2));
    if negb ok then Some (SQLITE_NOMEM, mkVMem f (v_i pMem) (v_nZero pMem) (v_r pMem) (v_z pMem) n (v_enc pMem))
    else
      let zIn := take (Z.to_nat n) zIn in
      let fuel := S (length zIn) in
      let more z := match z with [] => false | _ => true end in
      z ← (if v_enc pMem =? SQLITE_UTF8 then
             if desiredEnc =? SQLITE_UTF16LE then translate_loop fuel READ_UTF8 WRITE_UTF16LE zIn []
             else _ ← assert_ (desiredEnc =? SQLITE_UTF16BE); translate_loop fuel READ_UTF8 WRITE_UTF16BE zIn []
           else
             _ ← assert_ (desiredEnc =? SQLITE_UTF8);
             if v_enc pMem =? SQLITE_UTF16LE then translate_loop fuel (fun z => READ_UTF16LE z more) WRITE_UTF8 zIn []
             else translate_loop fuel (fun z => READ_UTF16BE z more) WRITE_UTF8 zIn []);
      let n := Z.of_nat (length z) in
      let zOut := z ++ (if v_enc pMem =? SQLITE_UTF8 then [0; 0] else [0]) in
      _ ← assert_ (Z.of_nat (length zOut) <=? len);
      Some (SQLITE_OK, mkVMem (Z.lor (Z.land f (Z.lnot (Z.lor MEM_Static (Z.lor MEM_Dyn MEM_Ephem)))) MEM_Term)
                         (v_i pMem) (v_nZero pMem) (v_r pMem) zOut n desiredEnc).

(** The byte order mark. *)
Definition sqlite3VdbeMemHandleBom (ok : bool) (pMem : VMem) : option (Z * VMem) :=
  _ ← assert_ (0 <=? v_n pMem);
  bom ← (if 1 <? v_n pMem then
           b1 ← aget (v_z pMem) 0;
           b2 ← aget (v_z pMem) 1;
           Some (if (b1 =? 255) && (b2 =? 254) then SQLITE_UTF16LE
                 else if (b1 =? 254) && (b2 =? 255) then SQLITE_UTF16BE else 0)
         else Some 0);
  if negb (bom =? 0) then
    if ok then
      z ← v_bytes pMem;
      Some (SQLITE_OK, mkVMem (Z.lor (v_flags pMem) MEM_Term) (v_i pMem) (v_nZero pMem) (v_r pMem)
                         (drop 2 z ++ [0; 0]) (v_n pMem - 2) bom)
    else Some (SQLITE_NOMEM, pMem)
  else Some (SQLITE_OK, pMem).

(** ** Counting characters *)

(** With nByte negative the text ends at its terminator. *)
Fixpoint utf8CharLen_loop (fuel : nat) (z : list Z) (zTerm : option Z) (r : Z) : option Z :=
  match fuel with
  | O => None
  | S f =>
      b ← aget z 0;
      if negb (b =? 0) && (match zTerm with Some n => 0 <? n | None => true end) then
        z' ← SQLITE_SKIP_UTF8 z;
        r ← cint (r + 1);
        utf8CharLen_loop f z' (match zTerm with Some n => Some (n - Z.of_nat (length z - length z')) | None => None end) r
      else Some r
  end.

Definition sqlite3Utf8CharLen (zIn : list Z) (nByte : Z) : option Z :=
  utf8CharLen_loop (S (length zIn)) zIn (if 0 <=? nByte then Some nByte else None) 0.

(** SQLITE_UTF16NATIVE is little endian. *)
Fixpoint utf16ByteLen_loop (n : nat) (z : list Z) : option (list Z) :=
  match n with
  | O => Some z
  | S n => '(_, z) ← READ_UTF16LE z (fun _ => true); utf16ByteLen_loop n z
  end.

Definition sqlite3Utf16ByteLen (zIn : list Z) (nChar : Z) : option Z :=
  z ← utf16ByteLen_loop (Z.to_nat nChar) zIn; Some (Z.of_nat (length zIn - length z)).

(** ** Arithmetic of the bit fields *)

#[local] Ltac Zify.zify_post_hook ::= Z.to_euclidean_division_equations.

(** Bits [k] to [k+m-1] of a word. *)
Lemma land_field x k m : 0 <= k -> 0 <= m -> Z.land x (Z.shiftl (Z.ones m) k) = (x / 2 ^ k) mod 2 ^ m * 2 ^ k.
Proof.
  intros Hk Hm. rewrite <- Z.shiftr_div_pow2, <- Z.land_ones, <- Z.shiftl_mul_pow2 by done.
  apply Z.bits_inj'. intros j Hj. rewrite Z.land_spec. destruct (decide (j < k)).
  - rewrite !(Z.shiftl_spec_low _ _ j) by done. apply andb_false_r.
  - rewrite !Z.shiftl_spec by lia. rewrite Z.land_spec, Z.shiftr_spec by lia. by replace (j - k + k) with j by lia.
Qed.

Ltac field_of mask k m := change mask with (Z.shiftl (Z.ones m) k).

Lemma land63 x : Z.land x 63 = x mod 64.
Proof. apply (Z.land_ones x 6). lia. Qed.
Lemma land255 x : Z.land x 255 = x mod 256.
Proof. apply (Z.land_ones x 8). lia. Qed.
Lemma land31 x : Z.land x 31 = x mod 32.
Proof. apply (Z.land_ones x 5). lia. Qed.
Lemma land15 x : Z.land x 15 = x mod 16.
Proof. apply (Z.land_ones x 4). lia. Qed.
Lemma utf_land7 x : Z.land x 7 = x mod 8.
Proof. apply (Z.land_ones x 3). lia. Qed.
Lemma land3 x : Z.land x 3 = x mod 4.
Proof. apply (Z.land_ones x 2). lia. Qed.
Lemma land1023 x : Z.land x 1023 = x mod 1024.
Proof. apply (Z.land_ones x 10). lia. Qed.
Lemma land192 x : Z.land x 192 = (x / 64) mod 4 * 64.
Proof. apply (land_field x 6 2); lia. Qed.
Lemma land960 x : Z.land x 960 = (x / 64) mod 16 * 64.
Proof. apply (land_field x 6 4); lia. Qed.

Create Rewrite HintDb fields.
#[local] Hint Rewrite land63 land255 land31 land15 utf_land7 land3 land1023 land192 land960 : fields.
#[local] Hint Rewrite Z.shiftr_div_pow2 Z.shiftl_mul_pow2 using lia : fields.

Lemma continuation_spec b : is_byte b -> continuation b = (128 <=? b) && (b <? 192).
Proof.
  intros Hb. apply Bool.eqb_prop.
  by apply (byte_forall (fun b => Bool.eqb (continuation b) ((128 <=? b) && (b <? 192)))).
Qed.

Lemma utf8_fix_spec c : 0 <= c < 2 ^ 32 ->
  utf8_fix c = if (c <? 128) || (55296 <=? c) && (c <? 57344) || (65534 <=? c) && (c <? 65536) then 65533 else c.
Proof.
  intros Hc. unfold utf8_fix. field_of 4294965248 11 21. field_of 4294967294 1 31. rewrite !land_field by lia.
  change (2 ^ 11) with 2048. change (2 ^ 21) with 2097152. change (2 ^ 1) with 2. change (2 ^ 31) with 2147483648.
  assert (((c / 2048) mod 2097152 * 2048 =? 55296) = (55296 <=? c) && (c <? 57344)) as ->
    by (apply bool_iff; rewrite andb_true_iff, Z.eqb_eq, Z.leb_le, Z.ltb_lt; lia).
  assert (((c / 2) mod 2147483648 * 2 =? 65534) = (65534 <=? c) && (c <? 65536)) as ->
    by (apply bool_iff; rewrite andb_true_iff, Z.eqb_eq, Z.leb_le, Z.ltb_lt; lia).
  done.
Qed.

(** The unicode characters that every encoding can hold. *)
Definition scalar (c : Z) : Prop :=
  0 <= c < 1114112 /\ (c < 55296 \/ 57344 <= c) /\ (c < 65534 \/ 65536 <= c).

Lemma utf8_fix_scalar c : scalar c -> 128 <= c -> utf8_fix c = c.
Proof.
  intros (H1 & H2 & H3) H. rewrite utf8_fix_spec by lia.
  rewrite (proj2 (Z.ltb_ge c 128)) by lia. cbn [orb].
  replace ((55296 <=? c) && (c <? 57344)) with false by (symmetry; apply andb_false_iff; rewrite Z.leb_gt, Z.ltb_ge; lia).
  by replace ((65534 <=? c) && (c <? 65536)) with false by (symmetry; apply andb_false_iff; rewrite Z.leb_gt, Z.ltb_ge; lia).
Qed.

(** ** UTF-8 *)

(** The bytes of a character, without bit operations. *)
Lemma write_utf8 c : 0 <= c < 1114112 ->
  WRITE_UTF8 c =
    if c <? 128 then [c]
    else if c <? 2048 then [192 + c / 64; 128 + c mod 64]
    else if c <? 65536 then [224 + c / 4096; 128 + c / 64 mod 64; 128 + c mod 64]
    else [240 + c / 262144; 128 + c / 4096 mod 64; 128 + c / 64 mod 64; 128 + c mod 64].
Proof.
  intros Hc. unfold WRITE_UTF8, u8. autorewrite with fields.
  change (2 ^ 6) with 64. change (2 ^ 12) with 4096. change (2 ^ 18) with 262144. change (2 ^ 8) with 256.
  destruct (Z.ltb_spec c 128); [f_equal; lia|]. destruct (Z.ltb_spec c 2048); [f_equal; [|f_equal]; lia|].
  destruct (Z.ltb_spec c 65536); [f_equal; [|f_equal; [|f_equal]]; lia|]. f_equal; [|f_equal; [|f_equal; [|f_equal]]]; lia.
Qed.

Lemma shift_in_spec c b : 0 <= c < 2 ^ 26 -> 0 <= b < 64 -> shift_in c (128 + b) = c * 64 + b.
Proof.
  intros Hc Hb. unfold shift_in. rewrite Z.land_comm. autorewrite with fields. unfold u32. change (2 ^ 32) with 4294967296. change (2 ^ 6) with 64. lia.
Qed.

Lemma cont_byte b : 0 <= b < 64 -> continuation (128 + b) = true.
Proof. intros Hb. rewrite continuation_spec by (unfold ubits; lia). apply andb_true_iff. rewrite Z.leb_le, Z.ltb_lt. lia. Qed.

Lemma trans1_2 b : 0 <= b < 32 -> aget sqlite3Utf8Trans1 (192 + b - 192) = Some b.
Proof.
  intros Hb. replace (192 + b - 192) with b by lia. apply (bool_decide_unpack _).
  by apply (seqZ_forallb (fun b => bool_decide (aget sqlite3Utf8Trans1 b = Some b)) 32) in Hb; [rewrite Hb|].
Qed.
Lemma trans1_3 b : 0 <= b < 16 -> aget sqlite3Utf8Trans1 (224 + b - 192) = Some b.
Proof.
  intros Hb. replace (224 + b - 192) with (32 + b) by lia. apply (bool_decide_unpack _).
  by apply (seqZ_forallb (fun b => bool_decide (aget sqlite3Utf8Trans1 (32 + b) = Some b)) 16) in Hb; [rewrite Hb|].
Qed.
Lemma trans1_4 b : 0 <= b < 8 -> aget sqlite3Utf8Trans1 (240 + b - 192) = Some b.
Proof.
  intros Hb. replace (240 + b - 192) with (48 + b) by lia. apply (bool_decide_unpack _).
  by apply (seqZ_forallb (fun b => bool_decide (aget sqlite3Utf8Trans1 (48 + b) = Some b)) 8) in Hb; [rewrite Hb|].
Qed.

(** The text goes on with another character, or ends. *)
Definition char_start (z : list Z) : Prop := match z with b :: _ => continuation b = false | [] => True end.

Lemma read_loop_stop c z : char_start z -> read_utf8_loop c z = (c, z).
Proof. destruct z as [|b z]; [done|]. cbn. by intros ->. Qed.

Lemma read_utf8_write c z : scalar c -> char_start z -> READ_UTF8 (WRITE_UTF8 c ++ z) = Some (c, z).
Proof.
  intros Hs Hz. pose proof Hs as (H1 & H2 & H3). rewrite write_utf8 by done.
  destruct (Z.ltb_spec c 128). { cbn. by rewrite (proj2 (Z.leb_gt 192 c)) by lia. }
  pose proof (utf8_fix_scalar c Hs ltac:(done)) as Hfix.
  destruct (Z.ltb_spec c 2048); [|destruct (Z.ltb_spec c 65536)]; cbn [app READ_UTF8];
    rewrite (proj2 (Z.leb_le 192 _)) by lia;
    first [rewrite trans1_2 by lia|rewrite trans1_3 by lia|rewrite trans1_4 by lia]; cbn [mbind option_bind read_utf8_loop];
    rewrite !cont_byte by lia; rewrite read_loop_stop by done.
  - rewrite shift_in_spec by lia. replace (c / 64 * 64 + c mod 64) with c by lia. by rewrite Hfix.
  - rewrite (shift_in_spec (c / 4096)), shift_in_spec by lia. replace ((c / 4096 * 64 + c / 64 mod 64) * 64 + c mod 64) with c by lia. by rewrite Hfix.
  - rewrite (shift_in_spec (c / 262144)), (shift_in_spec (c / 262144 * 64 + _)), shift_in_spec by lia. replace (((c / 262144 * 64 + c / 4096 mod 64) * 64 + c / 64 mod 64) * 64 + c mod 64) with c by lia. by rewrite Hfix.
Qed.

Lemma write_utf8_start c z : 0 <= c < 1114112 -> char_start (WRITE_UTF8 c ++ z) /\ WRITE_UTF8 c <> [] /\ Forall is_byte (WRITE_UTF8 c).
Proof.
  intros Hc. rewrite write_utf8 by done.
  destruct (Z.ltb_spec c 128); [|destruct (Z.ltb_spec c 2048); [|destruct (Z.ltb_spec c 65536)]]; cbn [app char_start];
    rewrite continuation_spec by (unfold ubits; lia);
    (split; [apply andb_false_iff; rewrite Z.leb_gt, Z.ltb_ge; lia|split; [done|]]);
    repeat constructor; unfold ubits; lia.
Qed.

(** ** UTF-16 *)

Definition WRITE_UTF16 (be : bool) : Z -> list Z := if be then WRITE_UTF16BE else WRITE_UTF16LE.

Lemma read_utf16_write be c z TERM : scalar c ->
  (forall a b, 65535 < c -> TERM (a :: b :: z) = true) ->
  READ_UTF16 be (WRITE_UTF16 be c ++ z) TERM = Some (c, z).
Proof.
  intros (H1 & H2 & H3) HT. unfold WRITE_UTF16. destruct be; unfold WRITE_UTF16LE, WRITE_UTF16BE, u8, READ_UTF16;
    autorewrite with fields; change (2 ^ 8) with 256; change (2 ^ 10) with 1024; change (2 ^ 18) with 262144;
    destruct (Z.leb_spec c 65535); cbn [app mbind option_bind]; cbn [mbind option_bind]; autorewrite with fields; change (2 ^ 8) with 256.
  1,3: match goal with |- context [(55296 <=? ?x)] => replace x with c by lia end;
    replace ((55296 <=? c) && (c <? 57344)) with false by (symmetry; apply andb_false_iff; rewrite Z.leb_gt, Z.ltb_ge; lia); done.
  all: match goal with |- context [(55296 <=? ?x)] => set (hi := x) end;
    rewrite (proj2 (Z.leb_le 55296 hi)), (proj2 (Z.ltb_lt hi 57344)) by (subst hi; lia);
    rewrite HT by lia; cbn [andb mbind option_bind]; do 2 f_equal; unfold surrogates; autorewrite with fields;
    change (2 ^ 10) with 1024; subst hi; lia.
Qed.

Lemma write_utf16_even be c : Nat.Even (length (WRITE_UTF16 be c)) /\ WRITE_UTF16 be c <> [] /\ Forall is_byte (WRITE_UTF16 be c).
Proof.
  destruct be; unfold WRITE_UTF16, WRITE_UTF16LE, WRITE_UTF16BE, u8; destruct (c <=? 65535);
    (split; [first [by exists 1%nat|by exists 2%nat]|split; [done|]]); repeat constructor; apply Z.mod_pos_bound; lia.
Qed.

Lemma swap_write be c z : swap_loop (WRITE_UTF16 be c ++ z) = WRITE_UTF16 (negb be) c ++ swap_loop z.
Proof. destruct be; unfold WRITE_UTF16, WRITE_UTF16LE, WRITE_UTF16BE; cbn [negb]; by destruct (c <=? 65535). Qed.

(** ** Texts *)

Definition encode (e : Z) (cs : list Z) : list Z :=
  cs ≫= (if e =? SQLITE_UTF8 then WRITE_UTF8 else if e =? SQLITE_UTF16BE then WRITE_UTF16BE else WRITE_UTF16LE).

Lemma encode8_start cs : Forall scalar cs -> char_start (cs ≫= WRITE_UTF8).
Proof. destruct 1 as [|c cs [Hc _] _]; [done|]. cbn. by apply write_utf8_start. Qed.

(** A conversion loop over characters that the reader recovers. *)
Lemma translate_loop_chars READ WRITE (W : Z -> list Z) : forall cs fuel z,
  (forall c cs', Forall scalar (c :: cs') -> READ (W c ++ (cs' ≫= W)) = Some (c, cs' ≫= W) /\ W c <> []) ->
  Forall scalar cs -> (length (cs ≫= W) < fuel)%nat ->
  translate_loop fuel READ WRITE (cs ≫= W) z = Some (z ++ (cs ≫= WRITE)).
Proof.
  intros cs. induction cs as [|c cs IH]; intros fuel z HR Hcs Hf; (destruct fuel as [|f]; [simpl in Hf; lia|]).
  - cbn. by rewrite app_nil_r.
  - destruct (HR c cs Hcs) as [Hr Hne]. cbn [mbind list_bind] in *. fold (cs ≫= W) in *. rewrite length_app in Hf.
    cbn [translate_loop]. fold (cs ≫= WRITE). destruct (W c) as [|b w] eqn:Ew; [done|]. cbn [app].
    change (b :: w ++ (cs ≫= W)) with ((b :: w) ++ (cs ≫= W)). rewrite Hr. cbn [mbind option_bind].
    fold (cs ≫= W). rewrite IH; [by rewrite <- app_assoc|done|by apply Forall_cons in Hcs as [_ ?]|simpl in Hf; lia].
Qed.

(** A conversion loop over arbitrary bytes stays within twice their number. *)
Lemma translate_loop_bound READ WRITE (P : list Z -> Prop) : forall fuel zIn z,
  (forall l, P l -> l <> [] -> exists c l', READ l = Some (c, l') /\ P l' /\ (length l' < length l)%nat /\
     (length (WRITE c) + 2 * length l' <= 2 * length l)%nat) ->
  P zIn -> (length zIn < fuel)%nat ->
  exists out, translate_loop fuel READ WRITE zIn z = Some out /\ (length out <= length z + 2 * length zIn)%nat.
Proof.
  induction fuel as [|f IH]; intros zIn z HR HP Hf; [lia|]. cbn [translate_loop]. destruct zIn as [|b zIn].
  - exists z. split; [done|lia].
  - destruct (HR (b :: zIn) HP ltac:(done)) as (c & l' & Hr & HP' & Hl & Hw). rewrite Hr. cbn [mbind option_bind].
    destruct (IH l' (z ++ WRITE c) HR HP' ltac:(lia)) as (out & Ho & Hlo). exists out. split; [done|].
    rewrite length_app in Hlo. lia.
Qed.

(** One arbitrary character in UTF-8, and its length in UTF-16. *)
Lemma read_utf8_loop_spec l : forall c c' l', Forall is_byte l -> 0 <= c < 2 ^ 32 -> read_utf8_loop c l = (c', l') ->
  Forall is_byte l' /\ 0 <= c' < 2 ^ 32 /\ (length l' <= length l)%nat /\
  (length l = length l' -> c' = c) /\ (length l = S (length l') -> c < 32 -> c' < 2048).
Proof.
  induction l as [|b l IH]; intros c c' l' Hb Hc E; cbn [read_utf8_loop] in E.
  - injection E as <- <-. split_and!; (done || lia).
  - pose proof Hb as [Hb0 Hb1]%Forall_cons. destruct (continuation b) eqn:Ec.
    + assert (0 <= shift_in c b < 2 ^ 32) as Hs by (unfold shift_in, u32; apply Z.mod_pos_bound; lia).
      destruct (IH _ _ _ Hb1 Hs E) as (H1 & H2 & H3 & H4 & H5). cbn [length]. split_and!; [done|lia|lia|lia|lia|].
      intros Hl Hc32. rewrite H4 by lia. unfold shift_in. rewrite Z.land_comm. autorewrite with fields. unfold u32. change (2 ^ 6) with 64. lia.
    + injection E as <- <-. cbn [length]. split_and!; (done || lia).
Qed.

Lemma trans1_range b : 0 <= b < 64 -> exists c, aget sqlite3Utf8Trans1 b = Some c /\ 0 <= c < 32.
Proof.
  intros Hb. apply (seqZ_forallb (fun b => match aget sqlite3Utf8Trans1 b with Some c => (0 <=? c) && (c <? 32) | None => false end) 64) in Hb; [|done].
  destruct (aget sqlite3Utf8Trans1 b) as [c|]; [|done]. exists c. split; [done|]. apply andb_true_iff in Hb. rewrite Z.leb_le, Z.ltb_lt in Hb. lia.
Qed.

Lemma read_utf8_any be l : Forall is_byte l -> l <> [] -> exists c l',
  READ_UTF8 l = Some (c, l') /\ Forall is_byte l' /\ (length l' < length l)%nat /\
  (length (WRITE_UTF16 be c) + 2 * length l' <= 2 * length l)%nat.
Proof.
  intros Hl Hne. destruct l as [|b l]; [done|]. apply Forall_cons in Hl as [Hb Hl].
  assert (forall c, length (WRITE_UTF16 be c) = if c <=? 65535 then 2%nat else 4%nat) as Hw
    by (intros c; destruct be; unfold WRITE_UTF16, WRITE_UTF16LE, WRITE_UTF16BE; by destruct (c <=? 65535)).
  unfold ubits in Hb. cbn [READ_UTF8 length]. destruct (Z.leb_spec 192 b).
  - destruct (trans1_range (b - 192)) as (c & -> & Hc); [lia|]. cbn [mbind option_bind].
    destruct (read_utf8_loop c l) as [c' l'] eqn:E. destruct (read_utf8_loop_spec l c c' l' Hl ltac:(lia) E) as (H1 & H2 & H3 & H4 & H5).
    exists (utf8_fix c'), l'. split_and!; [done|done|lia|]. rewrite Hw. rewrite utf8_fix_spec by done.
    destruct (Z.ltb_spec c' 128); [cbn [orb]; simpl; lia|].
    match goal with |- context [if ?x then 65533 else c'] => destruct x end; [simpl; lia|].
    destruct (Z.leb_spec c' 65535); lia.
  - exists b, l. split_and!; [done|done|lia|]. rewrite Hw, (proj2 (Z.leb_le b 65535)) by lia. lia.
Qed.

Lemma write_utf8_length c : (length (WRITE_UTF8 c) <= 4)%nat /\ (c < 65536 -> (length (WRITE_UTF8 c) <= 3)%nat).
Proof.
  unfold WRITE_UTF8. destruct (Z.ltb_spec c 128); [simpl; lia|]. destruct (Z.ltb_spec c 2048); [simpl; lia|].
  destruct (Z.ltb_spec c 65536); simpl; lia.
Qed.

Definition more_bytes (z : list Z) : bool := match z with [] => false | _ => true end.

Lemma read_utf16_any be l : Forall is_byte l /\ Nat.Even (length l) -> l <> [] -> exists c l',
  READ_UTF16 be l more_bytes = Some (c, l') /\ (Forall is_byte l' /\ Nat.Even (length l')) /\ (length l' < length l)%nat /\
  (length (WRITE_UTF8 c) + 2 * length l' <= 2 * length l)%nat.
Proof.
  intros [Hl He] Hne. destruct l as [|a [|b l]]; [done|destruct He as [k He]; simpl in He; lia|].
  apply Forall_cons in Hl as [Ha [Hb Hl]%Forall_cons]. unfold ubits in Ha, Hb.
  assert (Nat.Even (length l)) as He' by (destruct He as [k He]; exists (k - 1)%nat; simpl in He; lia).
  unfold READ_UTF16. cbn [mbind option_bind]. autorewrite with fields. change (2 ^ 8) with 256.
  set (c := if be then a * 256 + b else a + b * 256). assert (0 <= c < 65536) by (subst c; destruct be; lia).
  pose proof (write_utf8_length c) as [_ Hw]. specialize (Hw ltac:(lia)).
  destruct ((55296 <=? c) && (c <? 57344) && more_bytes l) eqn:E.
  - destruct l as [|a2 [|b2 l]]; [by rewrite andb_false_r in E|destruct He' as [k He']; simpl in He'; lia|].
    apply Forall_cons in Hl as [_ [_ Hl]%Forall_cons]. cbn [mbind option_bind]. eexists _, l. split; [reflexivity|].
    pose proof (write_utf8_length (surrogates c (if be then Z.shiftl a2 8 + b2 else a2 + Z.shiftl b2 8))) as [Hw' _].
    cbn [length]. split_and!; [done| |lia|lia]. destruct He' as [k He']; exists (k - 1)%nat; simpl in He'; lia.
  - exists c, l. cbn [length]. split_and!; [done|done|done|lia|lia].
Qed.

(** ** Conversion of cells *)

(** The cell holds a text with bytes [s]. *)
Definition holds_text (m : VMem) (s : list Z) : Prop :=
  flag (v_flags m) MEM_Str = true /\ v_bytes m = Some s.

Lemma even_mask n : Z.land (Z.of_nat n) (Z.lnot 1) = Z.of_nat (2 * (n / 2)).
Proof.
  rewrite <- Z.ldiff_land. change 1 with (Z.ones 1). rewrite Z.ldiff_ones_r, Z.shiftl_mul_pow2, Z.shiftr_div_pow2 by lia.
  change (2 ^ 1) with 2. rewrite Nat2Z.inj_mul, Nat2Z.inj_div. lia.
Qed.

Lemma encode_utf16_even be cs : Nat.Even (length (cs ≫= WRITE_UTF16 be)).
Proof.
  induction cs as [|c cs IH]; [by exists 0%nat|]. cbn [mbind list_bind]. rewrite length_app. apply Nat.Even_Even_add; [apply write_utf16_even|done].
Qed.

Lemma swap_encode be cs : swap_loop (cs ≫= WRITE_UTF16 be) = cs ≫= WRITE_UTF16 (negb be).
Proof. induction cs as [|c cs IH]; [done|]. cbn [mbind list_bind] in *. by rewrite swap_write, IH. Qed.

Lemma swap_length l : forall n, (length l <= n)%nat -> length (swap_loop l) = length l.
Proof.
  intros n. revert l. induction n as [n IH] using lt_wf_ind. intros [|a [|b l]] Hn; [done|done|]. cbn [swap_loop length] in *.
  by rewrite (IH (length l)) by lia.
Qed.

(** The conversion loop that sqlite3VdbeMemTranslate runs. *)
Definition run (e1 e2 : Z) (zIn : list Z) : option (list Z) :=
  let fuel := S (length zIn) in
  if e1 =? SQLITE_UTF8 then
    if e2 =? SQLITE_UTF16LE then translate_loop fuel READ_UTF8 WRITE_UTF16LE zIn []
    else translate_loop fuel READ_UTF8 WRITE_UTF16BE zIn []
  else if e1 =? SQLITE_UTF16LE then translate_loop fuel (fun z => READ_UTF16LE z more_bytes) WRITE_UTF8 zIn []
  else translate_loop fuel (fun z => READ_UTF16BE z more_bytes) WRITE_UTF8 zIn [].

Lemma run_bound e1 e2 zIn : valid_enc e1 -> Forall is_byte zIn -> (e1 <> SQLITE_UTF8 -> Nat.Even (length zIn)) ->
  exists out, run e1 e2 zIn = Some out /\ (length out <= 2 * length zIn)%nat.
Proof.
  intros He Hz Hev. unfold run. cbv zeta. destruct (Z.eqb_spec e1 SQLITE_UTF8) as [->|Hne].
  - destruct (e2 =? SQLITE_UTF16LE).
    + apply (translate_loop_bound READ_UTF8 WRITE_UTF16LE (Forall is_byte)); [|done|lia]. intros l. apply (read_utf8_any false).
    + apply (translate_loop_bound READ_UTF8 WRITE_UTF16BE (Forall is_byte)); [|done|lia]. intros l. apply (read_utf8_any true).
  - specialize (Hev Hne). destruct (e1 =? SQLITE_UTF16LE).
    + apply (translate_loop_bound _ WRITE_UTF8 (fun l => Forall is_byte l /\ Nat.Even (length l))); [|done|lia]. intros l. apply (read_utf16_any false).
    + apply (translate_loop_bound _ WRITE_UTF8 (fun l => Forall is_byte l /\ Nat.Even (length l))); [|done|lia]. intros l. apply (read_utf16_any true).
Qed.

Lemma run_text e1 e2 cs : valid_enc e1 -> valid_enc e2 -> e1 <> e2 -> e1 = SQLITE_UTF8 \/ e2 = SQLITE_UTF8 -> Forall scalar cs ->
  run e1 e2 (encode e1 cs) = Some (encode e2 cs).
Proof.
  intros H1 H2 Hne H12 Hcs. unfold run. cbv zeta.
  assert (forall c cs', Forall scalar (c :: cs') -> READ_UTF8 (WRITE_UTF8 c ++ (cs' ≫= WRITE_UTF8)) = Some (c, cs' ≫= WRITE_UTF8) /\ WRITE_UTF8 c <> []) as HR8.
  { intros c cs' [Hc Hcs']%Forall_cons. split; [apply read_utf8_write; [done|by apply encode8_start]|].
    apply (write_utf8_start c []). apply Hc. }
  assert (forall be c cs', Forall scalar (c :: cs') -> READ_UTF16 be (WRITE_UTF16 be c ++ (cs' ≫= WRITE_UTF16 be)) more_bytes =
    Some (c, cs' ≫= WRITE_UTF16 be) /\ WRITE_UTF16 be c <> []) as HR16.
  { intros be c cs' [Hc _]%Forall_cons. split; [by apply read_utf16_write|]. apply write_utf16_even. }
  destruct H1 as [-> |[-> | ->]]; destruct H2 as [-> |[-> | ->]]; try done; try (exfalso; destruct H12; discriminate);
    unfold encode; cbn [Z.eqb Pos.eqb SQLITE_UTF8 SQLITE_UTF16LE SQLITE_UTF16BE].
  - by rewrite (translate_loop_chars READ_UTF8 WRITE_UTF16LE WRITE_UTF8) by (done || lia).
  - by rewrite (translate_loop_chars READ_UTF8 WRITE_UTF16BE WRITE_UTF8) by (done || lia).
  - rewrite (translate_loop_chars _ WRITE_UTF8 WRITE_UTF16LE); [done|apply (HR16 false)|done|lia].
  - rewrite (translate_loop_chars _ WRITE_UTF8 WRITE_UTF16BE); [done|apply (HR16 true)|done|lia].
Qed.

(** What the function computes in each case. *)
Lemma memTranslate_spec m s e2 :
  holds_text m s -> Forall is_byte s -> valid_enc (v_enc m) -> valid_enc e2 -> v_enc m <> e2 -> 2 * Z.of_nat (length s) + 2 <= int_max ->
  let zIn := if v_enc m =? SQLITE_UTF8 then s else take (2 * (length s / 2)) s in
  exists out m', (if (v_enc m =? SQLITE_UTF8) || (e2 =? SQLITE_UTF8) then run (v_enc m) e2 zIn else Some (swap_loop s)) = Some out /\
    sqlite3VdbeMemTranslate true m e2 = Some (SQLITE_OK, m') /\ v_enc m' = e2 /\ holds_text m' out /\
    (length out <= 2 * length s)%nat.
Proof.
  intros [Hf Hs] Hb He1 He2 Hne Hlen zIn. destruct (v_bytes_length m s Hs) as (Hn & _ & _).
  unfold sqlite3VdbeMemTranslate. cbv zeta. rewrite Hf. cbn [assert_ mbind option_bind].
  rewrite (proj2 (Z.eqb_neq (v_enc m) e2)) by done. cbn [negb assert_ mbind option_bind].
  assert ((v_enc m =? 0) = false) as -> by (destruct He1 as [-> |[-> | ->]]; done). cbn [negb assert_ mbind option_bind].
  rewrite Hs. cbn [mbind option_bind]. rewrite <- negb_orb.
  destruct ((v_enc m =? SQLITE_UTF8) || (e2 =? SQLITE_UTF8)) eqn:E8; cbn [negb].
  2:{ eexists _, _. split; [reflexivity|]. split; [reflexivity|]. split; [done|]. pose proof (swap_length s _ ltac:(done)) as Hl. split; [|lia].
      split; [done|]. unfold v_bytes. cbn [v_n v_z]. rewrite decide_True by lia. f_equal. apply take_ge. lia. }
  assert (Forall is_byte zIn /\ (length zIn <= length s)%nat /\ (v_enc m <> SQLITE_UTF8 -> Nat.Even (length zIn))) as (HzB & HzL & HzE).
  { subst zIn. destruct (Z.eqb_spec (v_enc m) SQLITE_UTF8); [done|]. split; [by apply Forall_take|]. rewrite length_take.
    pose proof (Nat.Div0.mul_div_le (length s) 2). split; [lia|]. intros _. exists (length s / 2)%nat. lia. }
  destruct (run_bound (v_enc m) e2 zIn He1 HzB HzE) as (out & Hrun & Hol).
  pose proof (Nat.Div0.mul_div_le (length s) 2) as Hd.
  rewrite Hn, even_mask. set (n := if e2 =? SQLITE_UTF8 then _ else _).
  assert (n = Z.of_nat (length zIn) /\ take (Z.to_nat n) s = zIn) as [Hnz Htk].
  { subst n zIn. destruct (Z.eqb_spec e2 SQLITE_UTF8) as [->|]; destruct (Z.eqb_spec (v_enc m) SQLITE_UTF8); [congruence| | |done].
    - rewrite length_take, Nat2Z.id. split; [lia|done].
    - rewrite Nat2Z.id. split; [done|by apply firstn_all]. }
  rewrite Hnz in *. exists out.
  assert (exists l, (if e2 =? SQLITE_UTF8 then cint (Z.of_nat (length zIn) * 2 + 1) else cint (Z.of_nat (length zIn) * 2 + 2)) = Some l /\
    l = Z.of_nat (length zIn) * 2 + (if v_enc m =? SQLITE_UTF8 then 2 else 1)) as (l & -> & Hl).
  { unfold int_max in Hlen. rewrite !cint_ok by (unfold int_min, int_max; lia). eexists. split; [|reflexivity].
    destruct (Z.eqb_spec e2 SQLITE_UTF8) as [->|]; destruct (Z.eqb_spec (v_enc m) SQLITE_UTF8); (done || congruence). }
  cbn [mbind option_bind]. rewrite Htk.
  match goal with |- context [?x ≫= _] => replace x with (Some out) end.
  2:{ rewrite <- Hrun. unfold run. cbv zeta. destruct (Z.eqb_spec (v_enc m) SQLITE_UTF8) as [E1|E1].
      - destruct He2 as [-> |[-> | ->]]; done.
      - cbn [orb] in E8. apply Z.eqb_eq in E8. rewrite E8. done. }
  cbn [mbind option_bind]. rewrite (proj2 (Z.leb_le _ l)) by (rewrite length_app; destruct (v_enc m =? SQLITE_UTF8); simpl length; lia).
  cbn [assert_ mbind option_bind]. eexists. split; [exact Hrun|]. split; [reflexivity|]. split; [done|]. split; [|lia].
  split; cbn [v_flags].
  - change MEM_Str with (2 ^ 1) in *. rewrite flag_lor_l, flag_clear by done. by rewrite Hf.
  - unfold v_bytes. cbn [v_n v_z]. rewrite decide_True by (rewrite length_app; lia). by rewrite Nat2Z.id, take_app_length.
Qed.

(** The reader without an end pointer, on text that goes on. *)
Lemma utf8Read_READ z c z' : READ_UTF8 z = Some (c, z') -> z' <> [] -> sqlite3Utf8Read z = Some (c, z').
Proof.
  assert (forall l c, utf8Read_loop c l = let '(c', l') := read_utf8_loop c l in match l' with [] => None | _ => Some (c', l') end) as Hloop.
  { induction l as [|b l IH]; intros c0; cbn [utf8Read_loop read_utf8_loop]; [done|]. destruct (continuation b); [apply IH|done]. }
  destruct z as [|b z]; [done|]. cbn [READ_UTF8 sqlite3Utf8Read]. destruct (192 <=? b); [|done].
  destruct (aget sqlite3Utf8Trans1 (b - 192)) as [c0|]; [|done]. cbn [mbind option_bind]. rewrite Hloop.
  destruct (read_utf8_loop c0 z) as [c1 l1]. intros [= <- <-] Hne. by destruct l1.
Qed.

Lemma utf8Read_write c z : scalar c -> char_start z -> z <> [] -> sqlite3Utf8Read (WRITE_UTF8 c ++ z) = Some (c, z).
Proof. intros Hc Hz Hne. apply utf8Read_READ; [by apply read_utf8_write|done]. Qed.

(** The skipping macro moves as far as the reader. *)
Lemma skip_loop_read l : forall c, snd <$> utf8Read_loop c l = skip_loop l.
Proof. induction l as [|b l IH]; intros c; [done|]. cbn [utf8Read_loop skip_loop]. destruct (continuation b); [apply IH|done]. Qed.

Lemma skip_read z c z' : sqlite3Utf8Read z = Some (c, z') -> SQLITE_SKIP_UTF8 z = Some z'.
Proof.
  destruct z as [|b z]; [done|]. cbn [sqlite3Utf8Read SQLITE_SKIP_UTF8]. destruct (192 <=? b); [|by intros [= _ <-]].
  destruct (aget sqlite3Utf8Trans1 (b - 192)) as [c0|]; [|done]. cbn [mbind option_bind]. rewrite <- (skip_loop_read z c0).
  destruct (utf8Read_loop c0 z) as [[c1 l1]|]; [|done]. by intros [= _ <-].
Qed.

Lemma char_start_0 r : char_start (0 :: r).
Proof. done. Qed.

Lemma text8_start cs r : Forall scalar cs -> char_start ((cs ≫= WRITE_UTF8) ++ 0 :: r) /\ (cs ≫= WRITE_UTF8) ++ 0 :: r <> [].
Proof.
  destruct 1 as [|c cs Hc _]; [done|]. cbn [mbind list_bind]. rewrite <- app_assoc.
  destruct (write_utf8_start c (mbind WRITE_UTF8 cs ++ 0 :: r) (proj1 Hc)) as (Hs & Hne & _). split; [exact Hs|].
  by destruct (WRITE_UTF8 c).
Qed.

Lemma write_utf8_first c : scalar c -> c <> 0 -> exists b l, WRITE_UTF8 c = b :: l /\ b <> 0.
Proof.
  intros (H & _ & _) Hc. rewrite write_utf8 by done. destruct (Z.ltb_spec c 128); [by exists c, []|].
  destruct (Z.ltb_spec c 2048); [|destruct (Z.ltb_spec c 65536)]; eexists _, _; (split; [reflexivity|lia]).
Qed.

Lemma utf8CharLen_text cs r : forall k fuel, Forall (fun c => scalar c /\ c <> 0) cs -> 0 <= k -> k + Z.of_nat (length cs) <= int_max ->
  (length (cs ≫= WRITE_UTF8) < fuel)%nat ->
  utf8CharLen_loop fuel ((cs ≫= WRITE_UTF8) ++ 0 :: r) None k = Some (k + Z.of_nat (length cs)).
Proof.
  induction cs as [|c cs IH]; intros k fuel Hcs Hk Hmax Hf; (destruct fuel as [|f]; [simpl in Hf; lia|]).
  { cbn. by rewrite Z.add_0_r. }
  apply Forall_cons in Hcs as [[Hc Hc0] Hcs]. cbn [utf8CharLen_loop mbind list_bind]. rewrite <- app_assoc.
  fold (cs ≫= WRITE_UTF8). destruct (write_utf8_first c Hc Hc0) as (b & l & Ew & Hb). rewrite Ew at 1.
  change (aget ((b :: l) ++ _) 0) with (Some b). cbn [mbind option_bind]. rewrite (proj2 (Z.eqb_neq b 0)) by done. cbn [negb andb].
  assert (Forall scalar cs) as Hcs' by (eapply Forall_impl; [done|by intros ? []]).
  destruct (text8_start cs r Hcs') as [Hst Hne].
  fold (cs ≫= WRITE_UTF8). rewrite (skip_read _ c ((cs ≫= WRITE_UTF8) ++ 0 :: r)) by (by apply utf8Read_write).
  cbn [mbind option_bind]. cbn [length] in Hmax. rewrite cint_ok by (unfold int_min; lia). cbn [mbind option_bind].
  cbn [mbind list_bind] in Hf. rewrite length_app, Ew in Hf. cbn [length] in Hf.
  fold (cs ≫= WRITE_UTF8). rewrite IH by (done || lia || (fold (cs ≫= WRITE_UTF8) in Hf; lia)). f_equal. cbn [length]. lia.
Qed.

Lemma utf16ByteLen_text cs rest : Forall scalar cs -> utf16ByteLen_loop (length cs) ((cs ≫= WRITE_UTF16LE) ++ rest) = Some rest.
Proof.
  induction 1 as [|c cs Hc _ IH]; [done|]. cbn [length utf16ByteLen_loop mbind list_bind]. rewrite <- app_assoc.
  pose proof (read_utf16_write false c ((cs ≫= WRITE_UTF16LE) ++ rest) (fun _ => true) Hc ltac:(done)) as Hr.
  unfold READ_UTF16LE. cbn [WRITE_UTF16] in Hr. fold (cs ≫= WRITE_UTF16LE). unfold WRITE_UTF16 in Hr. rewrite Hr. cbn [mbind option_bind]. exact IH.
Qed.

(** C32. Converting a text between UTF-8, UTF-16LE and UTF-16BE never fails and
    never writes outside the buffer of 2n+1 or 2n+2 bytes that was allocated for
    the output, whatever the bytes of the text are, malformed sequences and odd
    lengths included. *)
Theorem utf_translate_in_bounds m s e2 :
  holds_text m s -> Forall is_byte s -> valid_enc (v_enc m) -> valid_enc e2 -> v_enc m <> e2 ->
  2 * Z.of_nat (length s) + 2 <= int_max ->
  exists m' s', sqlite3VdbeMemTranslate true m e2 = Some (SQLITE_OK, m') /\ v_enc m' = e2 /\
    holds_text m' s' /\ (length s' <= 2 * length s)%nat.
Proof.
  intros Ht Hb H1 H2 Hne Hl. destruct (memTranslate_spec m s e2 Ht Hb H1 H2 Hne Hl) as (out & m' & _ & Hm & He & Ho & Hlo).
  by exists m', out.
Qed.

Lemma encode_bytes e cs : Forall scalar cs -> valid_enc e -> Forall is_byte (encode e cs).
Proof.
  intros Hcs He. unfold encode. induction Hcs as [|c cs Hc _ IH]; [constructor|]. cbn [mbind list_bind] in *. apply Forall_app. split; [|done].
  destruct He as [-> |[-> | ->]]; cbn [Z.eqb Pos.eqb SQLITE_UTF8 SQLITE_UTF16LE SQLITE_UTF16BE];
    [apply (write_utf8_start c []), Hc|apply (write_utf16_even false)|apply (write_utf16_even true)].
Qed.

Lemma translate_text m cs e2 :
  holds_text m (encode (v_enc m) cs) -> Forall scalar cs -> valid_enc (v_enc m) -> valid_enc e2 -> v_enc m <> e2 ->
  2 * Z.of_nat (length (encode (v_enc m) cs)) + 2 <= int_max ->
  exists m', sqlite3VdbeMemTranslate true m e2 = Some (SQLITE_OK, m') /\ v_enc m' = e2 /\ holds_text m' (encode e2 cs).
Proof.
  intros Ht Hcs H1 H2 Hne Hl. 
  destruct (memTranslate_spec m _ e2 Ht (encode_bytes _ cs Hcs H1) H1 H2 Hne Hl) as (out & m' & Hrun & Hm & He & Ho & _).
  exists m'. split; [done|]. split; [done|]. replace (encode e2 cs) with out; [done|].
  assert (v_enc m <> SQLITE_UTF8 -> Nat.Even (length (encode (v_enc m) cs))) as Hev.
  { intros Hn. destruct H1 as [E|[E|E]]; rewrite E in *; [done|apply (encode_utf16_even false)|apply (encode_utf16_even true)]. }
  assert ((if v_enc m =? SQLITE_UTF8 then encode (v_enc m) cs else take (2 * (length (encode (v_enc m) cs) / 2)) (encode (v_enc m) cs)) = encode (v_enc m) cs) as Ez.
  { destruct (Z.eqb_spec (v_enc m) SQLITE_UTF8); [done|]. destruct Hev as [k Hk]; [done|]. rewrite Hk at 1. rewrite (Nat.mul_comm 2 k), Nat.div_mul by lia.
    apply take_ge. lia. }
  rewrite Ez in Hrun. destruct ((v_enc m =? SQLITE_UTF8) || (e2 =? SQLITE_UTF8)) eqn:E8.
  - rewrite run_text in Hrun; [congruence|done|done|done| |done]. apply orb_true_iff in E8. by rewrite !Z.eqb_eq in E8.
  - injection Hrun as <-. destruct H1 as [E|[E|E]]; rewrite E in *; (destruct H2 as [-> |[-> | ->]]); try done;
      [apply (swap_encode false)|apply (swap_encode true)].
Qed.

(** C19. Converting a text keeps its characters: from any of the three encodings
    to any other, the cell holds the same unicode characters in the new encoding,
    so converting there and back is the identity. *)
Theorem utf_translate_roundtrip m cs e1 e2 :
  v_enc m = e1 -> holds_text m (encode e1 cs) -> Forall scalar cs -> valid_enc e1 -> valid_enc e2 -> e1 <> e2 ->
  4 * Z.of_nat (length (encode e1 cs)) + 2 <= int_max -> 4 * Z.of_nat (length (encode e2 cs)) + 2 <= int_max ->
  exists m' m'', sqlite3VdbeMemTranslate true m e2 = Some (SQLITE_OK, m') /\ holds_text m' (encode e2 cs) /\
    sqlite3VdbeMemTranslate true m' e1 = Some (SQLITE_OK, m'') /\ holds_text m'' (encode e1 cs).
Proof.
  intros <- Ht Hcs H1 H2 Hne Hl1 Hl2. destruct (translate_text m cs e2 Ht Hcs H1 H2 Hne ltac:(lia)) as (m' & Hm & He & Ht').
  rewrite <- He in Ht'. destruct (translate_text m' cs (v_enc m) Ht' Hcs) as (m'' & Hm'' & _ & Ht''); [by rewrite He|done|by rewrite He|rewrite He; lia|].
  exists m', m''. split_and!; [done|by rewrite <- He|done|done].
Qed.

(** Characters are counted: sqlite3Utf8CharLen of a zero-terminated text is its
    number of characters, sqlite3Utf16ByteLen the number of bytes its first
    characters take, and sqlite3Utf8Read reads the characters one by one. *)
Theorem utf_char_counts cs c rest :
  Forall (fun c => scalar c /\ c <> 0) (c :: cs) -> Z.of_nat (length (c :: cs)) <= int_max ->
  sqlite3Utf8CharLen (encode SQLITE_UTF8 (c :: cs) ++ 0 :: rest) (-1) = Some (Z.of_nat (length (c :: cs))) /\
  sqlite3Utf16ByteLen (encode SQLITE_UTF16LE (c :: cs) ++ rest) (Z.of_nat (length (c :: cs))) =
    Some (Z.of_nat (length (encode SQLITE_UTF16LE (c :: cs)))) /\
  sqlite3Utf8Read (encode SQLITE_UTF8 (c :: cs) ++ 0 :: rest) = Some (c, encode SQLITE_UTF8 cs ++ 0 :: rest).
Proof.
  intros Hcs Hl. assert (Forall scalar (c :: cs)) as Hs by (eapply Forall_impl; [done|by intros ? []]).
  change (encode SQLITE_UTF8) with (fun cs => cs ≫= WRITE_UTF8). change (encode SQLITE_UTF16LE) with (fun cs => cs ≫= WRITE_UTF16LE). cbv beta.
  split_and!.
  - unfold sqlite3Utf8CharLen. change (0 <=? -1) with false. cbv match. rewrite utf8CharLen_text; [f_equal; lia|done|lia|lia|].
    rewrite length_app. lia.
  - unfold sqlite3Utf16ByteLen. rewrite Nat2Z.id, utf16ByteLen_text by done. cbn [mbind option_bind]. rewrite length_app. do 2 f_equal. lia.
  - apply Forall_cons in Hs as [Hc Hs]. cbn [mbind list_bind]. rewrite <- app_assoc. destruct (text8_start cs rest Hs).
    by apply utf8Read_write.
Qed.

(** ** Witnesses *)

(** The text "a", U+00E9, U+20AC, U+1F600. *)
Definition sample_text : list Z := [97; 233; 8364; 128512].
Definition sample_cell (e : Z) : VMem := mkVMem MEM_Str 0 0 0 (encode e sample_text) (Z.of_nat (length (encode e sample_text))) e.

Lemma sample_scalar : Forall (fun c => scalar c /\ c <> 0) sample_text.
Proof. repeat constructor; unfold scalar; lia. Qed.

Lemma utf_translate_in_bounds_witness : exists m' s',
  sqlite3VdbeMemTranslate true (mkVMem MEM_Str 0 0 0 [255; 191; 191; 0; 220] 5 SQLITE_UTF16LE) SQLITE_UTF8 = Some (SQLITE_OK, m') /\
  v_enc m' = SQLITE_UTF8 /\ holds_text m' s' /\ (length s' <= 10)%nat.
Proof.
  apply (utf_translate_in_bounds (mkVMem MEM_Str 0 0 0 [255; 191; 191; 0; 220] 5 SQLITE_UTF16LE) [255; 191; 191; 0; 220] SQLITE_UTF8).
  - split; reflexivity.
  - by apply bytes_bool.
  - right. left. reflexivity.
  - left. reflexivity.
  - discriminate.
  - vm_compute. discriminate.
Defined.

Lemma utf_translate_roundtrip_witness : exists m' m'',
  sqlite3VdbeMemTranslate true (sample_cell SQLITE_UTF8) SQLITE_UTF16BE = Some (SQLITE_OK, m') /\
  holds_text m' (encode SQLITE_UTF16BE sample_text) /\
  sqlite3VdbeMemTranslate true m' SQLITE_UTF8 = Some (SQLITE_OK, m'') /\ holds_text m'' (encode SQLITE_UTF8 sample_text).
Proof.
  apply (utf_translate_roundtrip (sample_cell SQLITE_UTF8) sample_text SQLITE_UTF8 SQLITE_UTF16BE).
  - reflexivity.
  - split; reflexivity.
  - eapply Forall_impl; [apply sample_scalar|by intros ? []].
  - left. reflexivity.
  - right. right. reflexivity.
  - discriminate.
  - vm_compute. discriminate.
  - vm_compute. discriminate.
Defined.

Lemma utf_char_counts_witness :
  sqlite3Utf8CharLen (encode SQLITE_UTF8 sample_text ++ [0]) (-1) = Some 4 /\
  sqlite3Utf16ByteLen (encode SQLITE_UTF16LE sample_text ++ []) 4 =
    Some (Z.of_nat (length (encode SQLITE_UTF16LE sample_text))) /\
  sqlite3Utf8Read (encode SQLITE_UTF8 sample_text ++ [0]) = Some (97, encode SQLITE_UTF8 [233; 8364; 128512] ++ [0]).
Proof.
  apply (utf_char_counts [233; 8364; 128512] 97 []).
  - apply sample_scalar.
  - vm_compute. discriminate.
Defined.
