(* ===== verification/Like.v ===== *)
(** * Like: the LIKE and GLOB operators (func.c)

    Patterns and strings are zero-terminated byte lists; [None] is a read past a
    terminator or an exhausted loop. *)
From S2P Require Import Prelude Ctype Atoi Record RecordValue Utf.

Record compareInfo := mkCompareInfo { matchAll : Z; matchOne : Z; matchSet : Z; noCase : bool }.

Definition globInfo : compareInfo := mkCompareInfo 42 63 91 false.
Definition likeInfoNorm : compareInfo := mkCompareInfo 37 95 0 true.
Definition likeInfoAlt : compareInfo := mkCompareInfo 37 95 0 false.

Definition GlobUpperToLower (A : Z) : Z := if Z.land A (Z.lnot 127) =? 0 then UpperToLower A else A.

(** if( noCase ){ GlobUpperToLower(c); } *)
Definition fold_case (nc : bool) (c : Z) : Z := if nc then GlobUpperToLower c else c.

(** while( (c=sqlite3Utf8Read(&zPattern)) == matchAll || c == matchOne ){ ... }:
    [None] inside when the string is exhausted. *)
Fixpoint star_run (fuel : nat) (pInfo : compareInfo) (zPattern zString : list Z) : option (option (Z * list Z * list Z)) :=
  match fuel with
  | O => None
  | S f =>
      '(c, zPattern) ← sqlite3Utf8Read zPattern;
      if (c =? matchAll pInfo) || (c =? matchOne pInfo) then
        if c =? matchOne pInfo then
          '(c2, zString) ← sqlite3Utf8Read zString;
          if c2 =? 0 then Some None else star_run f pInfo zPattern zString
        else star_run f pInfo zPattern zString
      else Some (Some (c, zPattern, zString))
  end.

(** while( c2 != 0 && c2 != c ){ c2 = sqlite3Utf8Read(&zString); ... } *)
Fixpoint find_char (fuel : nat) (nc : bool) (c c2 : Z) (zString : list Z) : option (Z * list Z) :=
  match fuel with
  | O => None
  | S f =>
      if negb (c2 =? 0) && negb (c2 =? c) then
        '(c2, zString) ← sqlite3Utf8Read zString;
        find_char f nc c (fold_case nc c2) zString
      else Some (c2, zString)
  end.

(** The search for the character after a run of wildcards; [rec] compares
    what follows. *)
Fixpoint star_search (fuel : nat) (rec : list Z -> option bool) (nc : bool) (c : Z) (zString : list Z) : option bool :=
  match fuel with
  | O => None
  | S f =>
      '(c2, zString) ← sqlite3Utf8Read zString;
      if c2 =? 0 then Some false
      else
        '(c2, zString) ← find_char (S (length zString)) nc (fold_case nc c) (fold_case nc c2) zString;
        if c2 =? 0 then Some false
        else
          b ← rec zString;
          if (b : bool) then Some true else star_search f rec nc (fold_case nc c) zString
  end.

(** while( *zString && patternCompare(&zPattern[-1],...)==0 ){ SQLITE_SKIP_UTF8(zString); } *)
Fixpoint star_set (fuel : nat) (rec : list Z -> option bool) (zString : list Z) : option bool :=
  match fuel with
  | O => None
  | S f =>
      b0 ← aget zString 0;
      if b0 =? 0 then Some false
      else
        b ← rec zString;
        if (b : bool) then Some true
        else zString ← SQLITE_SKIP_UTF8 zString; star_set f rec zString
  end.

(** while( c2 && c2!=']' ){ ... }: c2, seen and zPattern at the end. *)
Fixpoint set_loop (fuel : nat) (c c2 prior_c : Z) (seen : bool) (zPattern : list Z) : option (Z * bool * list Z) :=
  match fuel with
  | O => None
  | S f =>
      if negb (c2 =? 0) && negb (c2 =? 93) then
        p0 ← (if c2 =? 45 then aget zPattern 0 else Some 0);
        '(seen, prior_c, zPattern) ←
          (if (c2 =? 45) && negb (p0 =? 93) && negb (p0 =? 0) && (0 <? prior_c) then
             '(c2, zPattern) ← sqlite3Utf8Read zPattern;
             Some (if (prior_c <=? c) && (c <=? c2) then true else seen, 0, zPattern)
           else Some (if c =? c2 then true else seen, c2, zPattern));
        '(c2, zPattern) ← sqlite3Utf8Read zPattern;
        set_loop f c c2 prior_c seen zPattern
      else Some (c2, seen, zPattern)
  end.

(** One character [c] against the list after '[': whether it matches, and the
    rest of the pattern. *)
Definition set_match (c : Z) (zPattern : list Z) : option (bool * list Z) :=
  '(c2, zPattern) ← sqlite3Utf8Read zPattern;
  '(invert, c2, zPattern) ←
    (if c2 =? 94 then '(c2, zPattern) ← sqlite3Utf8Read zPattern; Some (true, c2, zPattern)
     else Some (false, c2, zPattern));
  '(seen, c2, zPattern) ←
    (if c2 =? 93 then '(c2, zPattern) ← sqlite3Utf8Read zPattern; Some (c =? 93, c2, zPattern)
     else Some (false, c2, zPattern));
  '(c2, seen, zPattern) ← set_loop (S (length zPattern)) c c2 0 seen zPattern;
  Some (negb ((c2 =? 0) || negb (xorb seen invert)), zPattern).

Fixpoint patternCompare_loop (fuel : nat) (pInfo : compareInfo) (esc : Z) (zPattern zString : list Z) (prevEscape : bool)
    : option bool :=
  match fuel with
  | O => None
  | S f =>
      '(c, zPattern) ← sqlite3Utf8Read zPattern;
      if c =? 0 then b ← aget zString 0; Some (b =? 0)
      else if (c =? matchAll pInfo) && negb prevEscape then
        r ← star_run (S (length zPattern)) pInfo zPattern zString;
        match r with
        | None => Some false
        | Some (c, zPattern, zString) =>
            let search c zPattern :=
              star_search (S (length zString)) (fun s => patternCompare_loop f pInfo esc zPattern s false)
                (noCase pInfo) c zString in
            if c =? 0 then Some true
            else if c =? esc then
              '(c, zPattern) ← sqlite3Utf8Read zPattern;
              if c =? 0 then Some false else search c zPattern
            else if c =? matchSet pInfo then
              _ ← assert_ (esc =? 0);
              _ ← assert_ (matchSet pInfo <? 128);
              star_set (S (length zString)) (fun s => patternCompare_loop f pInfo esc (c :: zPattern) s false) zString
            else search c zPattern
        end
      else if (c =? matchOne pInfo) && negb prevEscape then
        '(c2, zString) ← sqlite3Utf8Read zString;
        if c2 =? 0 then Some false else patternCompare_loop f pInfo esc zPattern zString prevEscape
      else if c =? matchSet pInfo then
        _ ← assert_ (esc =? 0);
        '(c, zString) ← sqlite3Utf8Read zString;
        if c =? 0 then Some false
        else
          '(b, zPattern) ← set_match c zPattern;
          if (b : bool) then patternCompare_loop f pInfo esc zPattern zString prevEscape else Some false
      else if (esc =? c) && negb prevEscape then patternCompare_loop f pInfo esc zPattern zString true
      else
        '(c2, zString) ← sqlite3Utf8Read zString;
        if negb (fold_case (noCase pInfo) c =? fold_case (noCase pInfo) c2) then Some false
        else patternCompare_loop f pInfo esc zPattern zString false
  end.

Definition patternCompare (zPattern zString : list Z) (pInfo : compareInfo) (esc : Z) : option bool :=
  patternCompare_loop (S (length zPattern)) pInfo esc zPattern zString false.

Definition sqlite3_strglob (zGlobPattern zString : list Z) : option bool :=
  b ← patternCompare zGlobPattern zString globInfo 0; Some (negb b).

(** likeFunc on text arguments: the error messages, or the result. *)
Inductive like_result := LikeInt (b : bool) | LikeTooComplex | LikeBadEscape.

Definition likeFunc (pInfo : compareInfo) (SQLITE_LIMIT_LIKE_PATTERN_LENGTH nPat : Z) (zB zA : list Z) (zEsc : option (list Z))
    : option like_result :=
  if SQLITE_LIMIT_LIKE_PATTERN_LENGTH <? nPat then Some LikeTooComplex
  else
    esc ← match zEsc with
          | Some zEsc =>
              n ← sqlite3Utf8CharLen zEsc (-1);
              if negb (n =? 1) then Some None
              else '(e, _) ← sqlite3Utf8Read zEsc; Some (Some e)
          | None => Some (Some 0)
          end;
    match esc with
    | None => Some LikeBadEscape
    | Some escape => b ← patternCompare zB zA pInfo escape; Some (LikeInt b)
    end.

(** ** The language of patterns *)

Inductive tok := TAll | TOne | TLit (c : Z) | TSet (invert : bool) (ranges : list (Z * Z)) | TNever.

(** The ranges up to ']'; [prior] is the character a '-' would extend. *)
Fixpoint set_ranges (prior : Z) (cs : list Z) : option (list (Z * Z) * list Z) :=
  match cs with
  | [] => None
  | c :: cs' =>
      if c =? 93 then Some ([], cs')
      else
        let single := '(r, rest) ← set_ranges c cs'; Some ((c, c) :: r, rest) in
        match cs' with
        | d :: cs'' =>
            if (c =? 45) && negb (d =? 93) && (0 <? prior) then
              '(r, rest) ← set_ranges 0 cs''; Some ((prior, d) :: r, rest)
            else single
        | [] => single
        end
  end.

(** What follows '[': inversion, a leading ']', the ranges. *)
Definition parse_set (cs : list Z) : option (bool * list (Z * Z) * list Z) :=
  let '(inv, cs) := match cs with d :: cs' => if d =? 94 then (true, cs') else (false, cs) | [] => (false, []) end in
  let '(lead, cs) := match cs with d :: cs' => if d =? 93 then ([(93, 93)], cs') else ([], cs) | [] => ([], []) end in
  '(r, rest) ← set_ranges 0 cs;
  Some (inv, lead ++ r, rest).

(** [star]: a wildcard for any text precedes.  A lone escape character at the
    end is ignored, but never matches right after such a wildcard. *)
Fixpoint tokens (fuel : nat) (i : compareInfo) (esc : Z) (star : bool) (cs : list Z) : list tok :=
  match fuel, cs with
  | S f, c :: cs =>
      if c =? matchAll i then TAll :: tokens f i esc true cs
      else if c =? matchOne i then TOne :: tokens f i esc star cs
      else if c =? matchSet i then
        match parse_set cs with
        | Some (inv, r, rest) => TSet inv r :: tokens f i esc false rest
        | None => [TNever]
        end
      else if c =? esc then
        match cs with
        | d :: cs => TLit d :: tokens f i esc false cs
        | [] => if star then [TNever] else []
        end
      else TLit c :: tokens f i esc false cs
  | _, _ => []
  end.

Definition in_set (inv : bool) (r : list (Z * Z)) (c : Z) : bool :=
  xorb inv (existsb (fun '(lo, hi) => (lo <=? c) && (c <=? hi)) r).

(** The texts a list of tokens matches. *)
Fixpoint matches (nc : bool) (ts : list tok) : list Z -> bool :=
  match ts with
  | [] => fun s => match s with [] => true | _ => false end
  | TAll :: ts => fix any (s : list Z) : bool := matches nc ts s || match s with [] => false | _ :: s => any s end
  | TOne :: ts => fun s => match s with [] => false | _ :: s => matches nc ts s end
  | TLit c :: ts => fun s => match s with [] => false | x :: s => (fold_case nc c =? fold_case nc x) && matches nc ts s end
  | TSet inv r :: ts => fun s => match s with [] => false | x :: s => in_set inv r x && matches nc ts s end
  | TNever :: _ => fun _ => false
  end.

(** ** Reading zero-terminated text *)

(** The characters of a zero-terminated text, as sqlite3Utf8Read sees them. *)
Inductive chars : list Z -> list Z -> Prop :=
  | chars_nil r : chars (0 :: r) []
  | chars_cons z c z' cs : sqlite3Utf8Read z = Some (c, z') -> 0 < c -> chars z' cs -> chars z (c :: cs).

Lemma utf8_fix_ge c : 128 <= utf8_fix c.
Proof. unfold utf8_fix. destruct (Z.ltb_spec c 128); cbn [orb]; [lia|]. destruct (_ || _); lia. Qed.

Lemma utf8Read_loop_length c l : forall c' l', utf8Read_loop c l = Some (c', l') -> (length l' <= length l)%nat.
Proof.
  revert c. induction l as [|b l IH]; intros c c' l' H; [done|]. cbn [utf8Read_loop] in H. destruct (continuation b).
  - apply IH in H. simpl. lia.
  - by injection H as <- <-.
Qed.

(** The first byte of a text tells an ASCII character. *)
Lemma utf8Read_first z c z' : sqlite3Utf8Read z = Some (c, z') ->
  (length z' < length z)%nat /\ exists b, aget z 0 = Some b /\ (b < 192 /\ c = b \/ 192 <= b /\ 128 <= c).
Proof.
  destruct z as [|b z]; [done|]. cbn [sqlite3Utf8Read length]. change (aget (b :: z) 0) with (Some b). destruct (Z.leb_spec 192 b).
  - destruct (aget sqlite3Utf8Trans1 (b - 192)) as [c0|]; [|done]. cbn [mbind option_bind].
    destruct (utf8Read_loop c0 z) as [[c1 l1]|] eqn:E; [|done]. cbn [mbind option_bind]. intros [= <- <-].
    apply utf8Read_loop_length in E. split; [lia|]. exists b. split; [done|]. right. pose proof (utf8_fix_ge c1). lia.
  - intros [= <- <-]. split; [lia|]. exists b. split; [done|]. by left.
Qed.

Lemma chars_read z cs : chars z cs ->
  match cs with
  | [] => (exists r, sqlite3Utf8Read z = Some (0, r)) /\ aget z 0 = Some 0
  | c :: cs' => exists z' b, sqlite3Utf8Read z = Some (c, z') /\ 0 < c /\ chars z' cs' /\ (length z' < length z)%nat /\
      aget z 0 = Some b /\ b <> 0 /\ (b =? 93) = (c =? 93) /\ SQLITE_SKIP_UTF8 z = Some z'
  end.
Proof.
  destruct 1 as [r|z c z' cs Hr Hc Hz].
  - split; [by exists r|done].
  - destruct (utf8Read_first z c z' Hr) as (Hl & b & Hb & Hcase). exists z', b. split_and!; try done; [lia| |by apply (skip_read z c)].
    destruct Hcase as [[_ ->]|[Hb1 Hc1]]; [done|]. by rewrite !(proj2 (Z.eqb_neq _ 93)) by lia.
Qed.

Lemma chars_length z cs : chars z cs -> (length cs < length z)%nat.
Proof.
  induction 1 as [r|z c z' cs Hr Hc Hz IH]; [simpl; lia|]. destruct (utf8Read_first z c z' Hr) as [Hl _]. simpl. lia.
Qed.

Lemma chars_pos z cs : chars z cs -> Forall (fun c => 0 < c) cs.
Proof. induction 1; by constructor. Qed.

(** Every zero-terminated byte string has characters. *)
Lemma chars_total r : forall n l, (length l <= n)%nat -> Forall is_byte l -> Forall (fun b => b <> 0) l -> exists cs, chars (l ++ 0 :: r) cs.
Proof.
  assert (forall l c, Forall (fun b => b <> 0) l -> exists c' l', utf8Read_loop c (l ++ 0 :: r) = Some (c', l' ++ 0 :: r) /\
    exists k, l = k ++ l') as Hloop.
  { induction l as [|b l IH]; intros c Hnz; [by eexists _, []; split; [reflexivity|exists []]|]. cbn [app utf8Read_loop].
    destruct (continuation b); [|by eexists _, (b :: l); split; [reflexivity|exists []]].
    apply Forall_cons in Hnz as [_ Hnz]. destruct (IH (shift_in c b) Hnz) as (c' & l' & -> & k & ->).
    eexists _, l'. split; [reflexivity|]. by exists (b :: k). }
  induction n as [|n IH]; intros l Hn Hb Hnz.
  { destruct l; [|simpl in Hn; lia]. exists []. constructor. }
  destruct l as [|b l]; [exists []; constructor|]. apply Forall_cons in Hb as [Hb0 Hb]. apply Forall_cons in Hnz as [Hnz0 Hnz]. simpl in Hn.
  unfold ubits in Hb0. destruct (Z.leb_spec 192 b) as [Hbig|Hsm].
  - destruct (trans1_range (b - 192)) as (c0 & Hc0 & _); [lia|]. destruct (Hloop l c0 Hnz) as (c' & l' & Hl & k & ->).
    rewrite length_app in Hn. apply Forall_app in Hb as [_ Hb]. apply Forall_app in Hnz as [_ Hnz].
    destruct (IH l' ltac:(lia) Hb Hnz) as [cs Hcs]. exists (utf8_fix c' :: cs). apply (chars_cons _ _ (l' ++ 0 :: r)); [|pose proof (utf8_fix_ge c'); lia|done].
    cbn [app sqlite3Utf8Read]. rewrite (proj2 (Z.leb_le 192 b)), Hc0 by lia. cbn [mbind option_bind]. by rewrite Hl.
  - destruct (IH l ltac:(lia) Hb Hnz) as [cs Hcs]. exists (b :: cs). apply (chars_cons _ _ (l ++ 0 :: r)); [|lia|done].
    cbn [app sqlite3Utf8Read]. by rewrite (proj2 (Z.leb_gt 192 b)) by lia.
Qed.

(** ** Case folding *)

Lemma glob_lower c : 0 <= c -> GlobUpperToLower c = if c <? 128 then UpperToLower c else c.
Proof.
  intros Hc. unfold GlobUpperToLower. rewrite <- Z.ldiff_land. change 127 with (Z.ones 7).
  rewrite Z.ldiff_ones_r, Z.shiftl_mul_pow2, Z.shiftr_div_pow2 by lia.
  destruct (Z.ltb_spec c 128); [by rewrite Z.div_small by lia|].
  rewrite (proj2 (Z.eqb_neq _ 0)); [done|]. change (2 ^ 7) with 128. pose proof (Z.div_le_lower_bound c 128 1). lia.
Qed.

Lemma fold_case_pos nc c : 0 < c -> 0 < fold_case nc c /\ fold_case nc (fold_case nc c) = fold_case nc c.
Proof.
  intros Hc. destruct nc; [|done]. cbn [fold_case]. rewrite (glob_lower c) by lia. destruct (Z.ltb_spec c 128).
  - assert (0 <= c < 128) as Hr by lia.
    apply (seqZ_forallb (fun c => (c =? 0) || (0 <? UpperToLower c) && (GlobUpperToLower (UpperToLower c) =? UpperToLower c)) 128) in Hr; [|done].
    apply orb_true_iff in Hr as [?%Z.eqb_eq|[?%Z.ltb_lt ?%Z.eqb_eq]%andb_true_iff]; [lia|done].
  - split; [lia|]. by rewrite glob_lower, (proj2 (Z.ltb_ge c 128)) by lia.
Qed.

Lemma fold_case_0 nc : fold_case nc 0 = 0.
Proof. by destruct nc. Qed.

(** ** Sets of characters *)

Lemma set_loop_spec c : forall n rest fuel c2 prior seen z,
  (length rest <= n)%nat -> chars z rest -> (S (length rest) < fuel)%nat -> 0 <= prior -> 0 < c2 ->
  exists z', match set_ranges prior (c2 :: rest) with
  | None => exists s, set_loop fuel c c2 prior seen z = Some (0, s, z')
  | Some (r, rest') => set_loop fuel c c2 prior seen z = Some (93, seen || in_set false r c, z') /\ chars z' rest'
  end.
Proof.
  induction n as [|n IH]; intros rest fuel c2 prior seen z Hn Hz Hf Hp Hc2; (destruct fuel as [|f]; [lia|]).
  all: cbn [set_loop set_ranges]; rewrite (proj2 (Z.eqb_neq c2 0)) by lia; cbn [negb andb].
  all: destruct (Z.eqb_spec c2 93) as [-> |H93]; cbn [negb];
    [exists z; split; [unfold in_set; cbn; by rewrite orb_false_r|done]|].
  - destruct rest; [|simpl in Hn; lia]. pose proof (chars_read _ _ Hz) as [[r0 Hr0] Ha].
    rewrite Ha. assert ((if c2 =? 45 then Some 0 else Some 0) = Some 0) as -> by (by destruct (c2 =? 45)). cbn [mbind option_bind].
    cbn [Z.eqb negb]. rewrite !andb_false_r. cbn [andb mbind option_bind]. rewrite Hr0. cbn [mbind option_bind].
    destruct f as [|f]; [simpl in Hf; lia|]. cbn. exists r0. by eexists.
  - destruct rest as [|d rest].
    { pose proof (chars_read _ _ Hz) as [[r0 Hr0] Ha].
      rewrite Ha. assert ((if c2 =? 45 then Some 0 else Some 0) = Some 0) as -> by (by destruct (c2 =? 45)). cbn [mbind option_bind].
      cbn [Z.eqb negb]. rewrite !andb_false_r. cbn [andb mbind option_bind]. rewrite Hr0. cbn [mbind option_bind].
      destruct f as [|f]; [simpl in Hf; lia|]. cbn. exists r0. by eexists. }
    pose proof (chars_read _ _ Hz) as (z' & b & Hr & Hd & Hz' & Hl & Hb & Hb0 & Hb93 & _). simpl in Hn, Hf.
    rewrite Hb. assert (exists p0, (if c2 =? 45 then Some b else Some 0) = Some p0 /\
      (c2 =? 45) && negb (p0 =? 93) && negb (p0 =? 0) && (0 <? prior) = (c2 =? 45) && negb (d =? 93) && (0 <? prior)) as (p0 & Hp0 & Hcond).
    { destruct (c2 =? 45); eexists; (split; [reflexivity|]); [|done]. rewrite Hb93, (proj2 (Z.eqb_neq b 0)) by done. cbn [negb andb]. by rewrite andb_true_r. }
    rewrite Hp0. cbn [mbind option_bind]. rewrite Hcond.
    destruct ((c2 =? 45) && negb (d =? 93) && (0 <? prior)) eqn:Er.
    + rewrite Hr. cbn [mbind option_bind]. destruct rest as [|d' rest].
      * pose proof (chars_read _ _ Hz') as [[r0 Hr0] _]. rewrite Hr0. cbn [mbind option_bind].
        destruct f as [|f]; [simpl in Hf; lia|]. cbn. exists r0. by eexists.
      * pose proof (chars_read _ _ Hz') as (z'' & _ & Hr' & Hd' & Hz'' & _). rewrite Hr'. cbn [mbind option_bind].
        destruct (IH rest f d' 0 (if (prior <=? c) && (c <=? d) then true else seen) z'') as [zr Hres]; [simpl in Hn; lia|done|simpl in Hf; lia|lia|done|].
        exists zr. destruct (set_ranges 0 (d' :: rest)) as [[r rest']|]; cbn [mbind option_bind]; [|done].
        destruct Hres as [-> Hres]. split; [|done]. unfold in_set. cbn [existsb xorb]. do 3 f_equal.
        destruct ((prior <=? c) && (c <=? d)), seen; done.
    + cbn [mbind option_bind]. rewrite Hr. cbn [mbind option_bind].
      destruct (IH rest f d c2 (if c =? c2 then true else seen) z') as [zr Hres]; [lia|done|lia|lia|done|].
      exists zr. destruct (set_ranges c2 (d :: rest)) as [[r rest']|]; cbn [mbind option_bind]; [|done].
      destruct Hres as [-> Hres]. split; [|done]. unfold in_set. cbn [existsb xorb]. do 3 f_equal.
      destruct (Z.eqb_spec c c2) as [->|Hne].
      * rewrite Z.leb_refl. by destruct seen.
      * replace ((c2 <=? c) && (c <=? c2)) with false by (symmetry; apply andb_false_iff; rewrite !Z.leb_gt; lia). done.
Qed.

(** Reading one character and being left with the rest of a text: a view that
    treats the terminator as the character 0. *)
Definition head0 (cs : list Z) : Z := match cs with [] => 0 | c :: _ => c end.

Lemma chars_next z cs : chars z cs -> exists z', sqlite3Utf8Read z = Some (head0 cs, z') /\ 0 <= head0 cs /\
  (head0 cs <> 0 -> chars z' (tail cs) /\ (length z' < length z)%nat).
Proof.
  intros Hz. pose proof (chars_read _ _ Hz) as Hr. destruct cs as [|c cs]; cbn [head0 tail].
  - destruct Hr as [[r Hr] _]. by exists r.
  - destruct Hr as (z' & b & Hr & Hc & Hz' & Hl & _). exists z'. split_and!; [done|lia|done].
Qed.

Lemma set_rest_spec c cs z seen : chars z cs ->
  exists z', match set_ranges 0 cs with
  | None => exists c2 z1 s, sqlite3Utf8Read z = Some (c2, z1) /\ set_loop (S (length z1)) c c2 0 seen z1 = Some (0, s, z')
  | Some (r, rest) => exists c2 z1, sqlite3Utf8Read z = Some (c2, z1) /\
      set_loop (S (length z1)) c c2 0 seen z1 = Some (93, seen || in_set false r c, z') /\ chars z' rest
  end.
Proof.
  intros Hz. destruct cs as [|c2 cs].
  - destruct (chars_read _ _ Hz) as [[r Hr] _]. exists r. exists 0, r, seen. done.
  - destruct (chars_read _ _ Hz) as (z1 & b & Hr & Hc & Hz1 & Hl & _). pose proof (chars_length _ _ Hz1).
    destruct (set_loop_spec c (length cs) cs (S (length z1)) c2 0 seen z1) as [z' Hs]; [lia|done|lia|lia|done|].
    exists z'. destruct (set_ranges 0 (c2 :: cs)) as [[r rest]|].
    + exists c2, z1. by destruct Hs.
    + destruct Hs as [s Hs]. by exists c2, z1, s.
Qed.

Lemma set_match_spec c z cs : chars z cs ->
  match parse_set cs with
  | None => exists z', set_match c z = Some (false, z')
  | Some (inv, r, rest) => exists z', set_match c z = Some (in_set inv r c, z') /\ chars z' rest
  end.
Proof.
  intros Hz. unfold parse_set, set_match.
  assert (exists inv cs1 z1, match cs with d :: cs' => if d =? 94 then (true, cs') else (false, cs) | [] => (false, []) end = (inv, cs1) /\
    chars z1 cs1 /\ forall k : bool * Z * list Z -> option (bool * list Z),
      ('(c2, zP) ← sqlite3Utf8Read z; x ← (if c2 =? 94 then '(c2, zP) ← sqlite3Utf8Read zP; Some (true, c2, zP) else Some (false, c2, zP)); k x) =
      ('(c2, zP) ← sqlite3Utf8Read z1; k (inv, c2, zP))) as (inv & cs1 & z1 & -> & Hz1 & Hk).
  { destruct cs as [|d cs].
    - exists false, [], z. split_and!; [done|done|]. intros k. destruct (chars_read _ _ Hz) as [[r Hr] _]. by rewrite Hr.
    - destruct (chars_read _ _ Hz) as (z1 & b & Hr & Hc & Hz1 & _). destruct (Z.eqb_spec d 94) as [->|Hd].
      + exists true, cs, z1. split_and!; [done|done|]. intros k. rewrite Hr. cbn. by destruct (sqlite3Utf8Read z1) as [[]|].
      + exists false, (d :: cs), z. split_and!; [done|done|]. intros k. rewrite Hr. cbn [mbind option_bind]. by rewrite (proj2 (Z.eqb_neq d 94)). }
  rewrite Hk. clear Hk Hz cs z.
  assert (exists lead cs2 z2, match cs1 with d :: cs' => if d =? 93 then ([(93, 93)], cs') else ([], cs1) | [] => ([], []) end = (lead, cs2) /\
    chars z2 cs2 /\ forall k : bool * Z * list Z -> option (bool * list Z),
      ('(c2, zP) ← sqlite3Utf8Read z1; x ← (if c2 =? 93 then '(c2, zP) ← sqlite3Utf8Read zP; Some (c =? 93, c2, zP) else Some (false, c2, zP)); k x) =
      ('(c2, zP) ← sqlite3Utf8Read z2; k (in_set false lead c, c2, zP))) as (lead & cs2 & z2 & -> & Hz2 & Hk).
  { destruct cs1 as [|d cs].
    - exists [], [], z1. split_and!; [done|done|]. intros k. destruct (chars_read _ _ Hz1) as [[r Hr] _]. by rewrite Hr.
    - destruct (chars_read _ _ Hz1) as (z2 & b & Hr & Hc & Hz2 & _). destruct (Z.eqb_spec d 93) as [->|Hd].
      + exists [(93, 93)], cs, z2. split_and!; [done|done|]. intros k. rewrite Hr. cbn [mbind option_bind Z.eqb Pos.eqb].
        assert ((c =? 93) = in_set false [(93, 93)] c) as ->.
        { unfold in_set. cbn [existsb xorb]. rewrite orb_false_r. apply bool_iff. rewrite andb_true_iff, Z.eqb_eq, !Z.leb_le. lia. }
        by destruct (sqlite3Utf8Read z2) as [[]|].
      + exists [], (d :: cs), z1. split_and!; [done|done|]. intros k. rewrite Hr. cbn [mbind option_bind]. by rewrite (proj2 (Z.eqb_neq d 93)). }
  rewrite Hk. clear Hk. destruct (set_rest_spec c cs2 z2 (in_set false lead c) Hz2) as [z' Hs].
  destruct (set_ranges 0 cs2) as [[r rest]|]; cbn [mbind option_bind].
  - destruct Hs as (c2 & z3 & -> & Hl & Hz'). exists z'. split; [|done]. cbn [mbind option_bind]. rewrite Hl. cbn [mbind option_bind].
    do 2 f_equal. unfold in_set. rewrite existsb_app. cbn [Z.eqb Pos.eqb orb xorb]. rewrite negb_involutive.
    by rewrite xorb_comm.
  - destruct Hs as (c2 & z3 & s & -> & Hl). exists z'. cbn [mbind option_bind]. by rewrite Hl.
Qed.

Lemma set_ranges_length : forall n prior cs r rest, (length cs <= n)%nat -> set_ranges prior cs = Some (r, rest) -> (length rest < length cs)%nat.
Proof.
  induction n as [|n IH]; intros prior cs r rest Hn H; (destruct cs as [|c cs]; [done|]); [simpl in Hn; lia|].
  cbn [set_ranges] in H. simpl in Hn |- *. destruct (c =? 93); [injection H as <- <-; lia|].
  assert (forall p', (length cs <= n)%nat -> ('(r0, rest0) ← set_ranges p' cs; Some ((c, c) :: r0, rest0)) = Some (r, rest) -> (length rest < S (length cs))%nat) as Hs.
  { intros p' Hl Hb. destruct (set_ranges p' cs) as [[r0 rest0]|] eqn:E; [|done]. injection Hb as <- <-. apply IH in E; [lia|lia]. }
  destruct cs as [|d cs]; [eapply Hs; [lia|exact H]|]. destruct (_ && _); [|eapply Hs; [simpl in *; lia|exact H]].
  destruct (set_ranges 0 cs) as [[r0 rest0]|] eqn:E; [|done]. injection H as <- <-. apply IH in E; simpl in *; lia.
Qed.

Lemma parse_set_length cs inv r rest : parse_set cs = Some (inv, r, rest) -> (length rest < length cs)%nat.
Proof.
  unfold parse_set. destruct cs as [|d cs]; [done|]. cbn [length].
  assert (forall b cs1, (length cs1 <= S (length cs))%nat ->
    (let '(lead, cs2) := match cs1 with d :: cs' => if d =? 93 then ([(93, 93)], cs') else ([], cs1) | [] => ([], []) end in
     '(r, rest) ← set_ranges 0 cs2; Some (b, lead ++ r, rest)) = Some (inv, r, rest) -> (length rest < S (length cs))%nat) as H.
  { intros b cs1 Hl Hb. assert (exists lead cs2, match cs1 with d :: cs' => if d =? 93 then ([(93, 93)], cs') else ([], cs1) | [] => ([], []) end = (lead, cs2) /\
      (length cs2 <= length cs1)%nat) as (lead & cs2 & E & Hl2).
    { destruct cs1 as [|x cs1]; [by exists [], []|]. destruct (x =? 93); [exists [(93, 93)], cs1|exists [], (x :: cs1)]; (split; [reflexivity|simpl; lia]). }
    rewrite E in Hb. destruct (set_ranges 0 cs2) as [[r0 rest0]|] eqn:Er; [|done]. injection Hb as _ _ <-.
    apply (set_ranges_length (length cs2)) in Er; lia. }
  destruct (d =? 94); [apply (H true cs); lia|apply (H false (d :: cs)); simpl; lia].
Qed.

(** ** Wildcards *)

Section Compare.
Context (i : compareInfo) (esc : Z).
Abbreviation nc := (noCase i).
Abbreviation M := (matches nc).

Lemma all_unfold ts s : M (TAll :: ts) s = M ts s || match s with [] => false | _ :: s => M (TAll :: ts) s end.
Proof. by destruct s. Qed.

Lemma all_all ts s : M (TAll :: TAll :: ts) s = M (TAll :: ts) s.
Proof.
  induction s as [|x s IH]; rewrite all_unfold; [by rewrite orb_false_r|]. rewrite IH, (all_unfold ts (x :: s)).
  destruct (M ts (x :: s)), (M (TAll :: ts) s); done.
Qed.

Lemma all_one ts s : M (TAll :: TOne :: ts) s = match s with [] => false | _ :: s => M (TAll :: ts) s end.
Proof.
  induction s as [|x s IH]; rewrite all_unfold; [done|]. rewrite IH. change (M (TOne :: ts) (x :: s)) with (M ts s). by rewrite (all_unfold ts s).
Qed.

Lemma all_never ts s : M (TAll :: TNever :: ts) s = false.
Proof. induction s as [|x s IH]; rewrite all_unfold; [done|]. by rewrite IH. Qed.

Lemma all_end s : M [TAll] s = true.
Proof. induction s as [|x s IH]; rewrite all_unfold; [done|]. rewrite IH. apply orb_true_r. Qed.

(** A run of wildcards takes its single-character ones off the string. *)
Lemma star_run_spec pz pc : chars pz pc -> forall sz sc fuel tf, chars sz sc -> (length pc < fuel)%nat -> (length pc <= tf)%nat ->
  matchAll i <> 0 -> matchOne i <> 0 -> matchAll i <> matchOne i ->
  (star_run fuel i pz sz = Some None /\ M (TAll :: tokens tf i esc true pc) sc = false) \/
  exists c pz' sz' pc' sc' tf', star_run fuel i pz sz = Some (Some (c, pz', sz')) /\ chars sz' sc' /\ (length pc' <= tf')%nat /\
    M (TAll :: tokens tf i esc true pc) sc = M (TAll :: tokens tf' i esc true pc') sc' /\
    c = head0 pc' /\ c <> matchAll i /\ c <> matchOne i /\ (length pc' <= length pc)%nat /\
    (pc' <> [] -> 0 < c /\ chars pz' (tail pc') /\ (length pz' < length pz)%nat).
Proof.
  induction 1 as [r|pz c pz' pc Hr Hc Hpz IH]; intros sz sc fuel tf Hsz Hf Htf HA HO HAO; (destruct fuel as [|f]; [lia|]); cbn [star_run].
  - right. exists 0, r, sz, [], sc, tf. cbn [sqlite3Utf8Read Z.leb Z.compare mbind option_bind].
    rewrite (proj2 (Z.eqb_neq 0 (matchAll i))), (proj2 (Z.eqb_neq 0 (matchOne i))) by done. cbn [orb]. split_and!; done.
  - rewrite Hr. cbn [mbind option_bind]. destruct tf as [|tf]; [simpl in Htf; lia|]. simpl in Hf, Htf.
    destruct (utf8Read_first _ _ _ Hr) as [Hlen _].
    destruct (Z.eqb_spec c (matchAll i)) as [E|E]; cbn [orb].
    + rewrite (proj2 (Z.eqb_neq c (matchOne i))) by congruence.
      cbn [tokens]. rewrite (proj2 (Z.eqb_eq c (matchAll i))), all_all by done.
      destruct (IH sz sc f tf Hsz ltac:(lia) ltac:(lia) HA HO HAO) as [?|(c' & pz2 & sz' & pc' & sc' & tf' & H1 & H2 & H3 & H4 & H5 & H6 & H7 & H8 & H9)]; [by left|].
      right. exists c', pz2, sz', pc', sc', tf'. split_and!; try done; [simpl; lia|]. intros Hn. destruct (H9 Hn) as (? & ? & ?). split_and!; [done|done|lia].
    + destruct (Z.eqb_spec c (matchOne i)) as [E2|E2].
      * cbn [tokens]. rewrite (proj2 (Z.eqb_neq c (matchAll i))), (proj2 (Z.eqb_eq c (matchOne i))), all_one by done.
        destruct sc as [|x sc].
        -- destruct (chars_read _ _ Hsz) as [[r Hr'] _]. rewrite Hr'. cbn. by left.
        -- destruct (chars_read _ _ Hsz) as (sz1 & b & Hr' & Hx & Hsz1 & _). rewrite Hr'. cbn [mbind option_bind]. rewrite (proj2 (Z.eqb_neq x 0)) by lia.
           destruct (IH sz1 sc f tf Hsz1 ltac:(lia) ltac:(lia) HA HO HAO) as [?|(c' & pz2 & sz' & pc' & sc' & tf' & H1 & H2 & H3 & H4 & H5 & H6 & H7 & H8 & H9)]; [by left|].
           right. exists c', pz2, sz', pc', sc', tf'. split_and!; try done; [simpl; lia|]. intros Hn. destruct (H9 Hn) as (? & ? & ?). split_and!; [done|done|lia].
      * right. exists c, pz', sz, (c :: pc), sc, (S tf). cbn [head0 tail]. split_and!; done.
Qed.

(** The next occurrence of a character. *)
Lemma find_char_spec c z sc : chars z sc -> forall x fuel, 0 < x -> (S (length sc) < fuel)%nat -> 0 < c ->
  (exists z', find_char fuel nc (fold_case nc c) (fold_case nc x) z = Some (0, z') /\ forall ts, M (TAll :: TLit c :: ts) (x :: sc) = false) \/
  exists c' z' sc', find_char fuel nc (fold_case nc c) (fold_case nc x) z = Some (c', z') /\ c' <> 0 /\ chars z' sc' /\ (length sc' <= length sc)%nat /\
    (length z' <= length z)%nat /\
    forall ts, M (TAll :: TLit c :: ts) (x :: sc) = M ts sc' || M (TAll :: TLit c :: ts) sc'.
Proof.
  induction 1 as [r|z y z' sc Hr Hy Hz IH]; intros x fuel Hx Hf Hc; (destruct fuel as [|f]; [simpl in Hf; lia|]); cbn [find_char];
    destruct (fold_case_pos nc x Hx) as [Hfx _]; rewrite (proj2 (Z.eqb_neq (fold_case nc x) 0)) by lia; cbn [negb andb];
    destruct (Z.eqb_spec (fold_case nc x) (fold_case nc c)) as [E|E]; cbn [negb].
  - right. exists (fold_case nc x), (0 :: r), []. split_and!; [done|lia|constructor|done|done|]. intros ts. rewrite all_unfold. cbn [matches]. by rewrite E, Z.eqb_refl.
  - left. cbn [sqlite3Utf8Read Z.leb Z.compare mbind option_bind]. rewrite fold_case_0. destruct f as [|f]; [simpl in Hf; lia|]. cbn.
    exists r. split; [done|]. intros ts. by rewrite (proj2 (Z.eqb_neq (fold_case nc c) (fold_case nc x))) by done.
  - right. exists (fold_case nc x), z, (y :: sc). split_and!; [done|lia|by econstructor|done|done|]. intros ts. rewrite all_unfold. cbn [matches]. by rewrite E, Z.eqb_refl.
  - rewrite Hr. cbn [mbind option_bind]. simpl in Hf. destruct (utf8Read_first _ _ _ Hr) as [Hlen _].
    assert (forall ts, M (TAll :: TLit c :: ts) (x :: y :: sc) = M (TAll :: TLit c :: ts) (y :: sc)) as Hskip.
    { intros ts. rewrite all_unfold. cbn [matches]. by rewrite (proj2 (Z.eqb_neq (fold_case nc c) (fold_case nc x))) by done. }
    destruct (IH y f Hy ltac:(lia) Hc) as [(z2 & H1 & H2)|(c' & z2 & sc' & H1 & H2 & H3 & H4 & H5 & H6)].
    + left. exists z2. split; [done|]. intros ts. by rewrite Hskip.
    + right. exists c', z2, sc'. split_and!; [done|done|done|simpl; lia|lia|]. intros ts. by rewrite Hskip.
Qed.

Lemma star_search_spec rec ts c : (forall z sc, chars z sc -> rec z = Some (M ts sc)) -> 0 < c ->
  forall n z sc fuel c0, (length sc <= n)%nat -> chars z sc -> (length sc < fuel)%nat -> fold_case nc c0 = fold_case nc c ->
  star_search fuel rec nc c0 z = Some (M (TAll :: TLit c :: ts) sc).
Proof.
  intros Hrec Hc. induction n as [|n IH]; intros z sc fuel c0 Hn Hz Hf Hc0; (destruct fuel as [|f]; [lia|]); cbn [star_search].
  - destruct sc; [|simpl in Hn; lia]. destruct (chars_read _ _ Hz) as [[r Hr] _]. by rewrite Hr.
  - destruct sc as [|x sc]; [destruct (chars_read _ _ Hz) as [[r Hr] _]; by rewrite Hr|].
    destruct (chars_read _ _ Hz) as (z1 & b & Hr & Hx & Hz1 & _). rewrite Hr. cbn [mbind option_bind]. rewrite (proj2 (Z.eqb_neq x 0)) by lia.
    rewrite Hc0. pose proof (chars_length _ _ Hz1). simpl in Hn, Hf.
    destruct (find_char_spec c z1 sc Hz1 x (S (length z1)) Hx ltac:(lia) Hc) as [(z' & -> & Hfalse)|(c' & z' & sc' & -> & Hc' & Hz' & Hl & _ & Heq)].
    + cbn [mbind option_bind]. cbn [Z.eqb]. by rewrite Hfalse.
    + cbn [mbind option_bind]. rewrite (proj2 (Z.eqb_neq c' 0)), (Hrec _ _ Hz') by done. cbn [mbind option_bind]. rewrite Heq.
      destruct (M ts sc'); [done|]. rewrite (IH z' sc'); [done|lia|done|lia|]. apply fold_case_pos, Hc.
Qed.

Lemma star_set_spec rec ts : M ts [] = false -> (forall z sc, chars z sc -> rec z = Some (M ts sc)) ->
  forall z sc, chars z sc -> forall fuel, (length sc < fuel)%nat -> star_set fuel rec z = Some (M (TAll :: ts) sc).
Proof.
  intros Hnil Hrec. induction 1 as [r0|z c z' cs Hr Hc Hz IH]; intros fuel Hf; (destruct fuel as [|f]; [simpl in Hf; lia|]); cbn [star_set].
  - rewrite all_unfold, Hnil. done.
  - assert (chars z (c :: cs)) as Hz0 by (by econstructor). destruct (chars_read _ _ Hz0) as (z1 & b & Hr1 & _ & _ & _ & Hb & Hb0 & _ & Hskip).
    rewrite Hr in Hr1. injection Hr1 as <-. rewrite Hb. cbn [mbind option_bind]. rewrite (proj2 (Z.eqb_neq b 0)) by done.
    rewrite (Hrec _ _ Hz0). cbn [mbind option_bind]. rewrite all_unfold. destruct (M ts (c :: cs)); [done|]. rewrite Hskip. cbn [mbind option_bind orb].
    apply IH. simpl in Hf. lia.
Qed.

(** ** The comparison *)

Hypothesis HA : matchAll i <> 0.
Hypothesis HO : matchOne i <> 0.
Hypothesis HAO : matchAll i <> matchOne i.
Hypothesis HS : matchSet i = 0 \/ esc = 0 /\ 0 < matchSet i < 128.

Lemma at_end sz sc : chars sz sc -> (b ← aget sz 0; Some (b =? 0)) = Some (M [] sc).
Proof.
  intros Hs. destruct sc as [|x sc].
  - destruct (chars_read _ _ Hs) as [_ ->]. done.
  - destruct (chars_read _ _ Hs) as (z' & b & _ & _ & _ & _ & -> & Hb & _). cbn. by rewrite (proj2 (Z.eqb_neq b 0)).
Qed.

(** A literal character against the string. *)
Lemma literal_step sz sc c (k : list Z -> option bool) ts : chars sz sc -> 0 < c ->
  (forall z s, chars z s -> k z = Some (M ts s)) ->
  ('(c2, z) ← sqlite3Utf8Read sz;
   if negb (fold_case nc c =? fold_case nc c2) then Some false else k z) = Some (M (TLit c :: ts) sc).
Proof.
  intros Hs Hc Hk. destruct (fold_case_pos nc c Hc) as [Hf _]. destruct sc as [|x sc].
  - destruct (chars_read _ _ Hs) as [[r ->] _]. cbn [mbind option_bind]. rewrite fold_case_0, (proj2 (Z.eqb_neq _ 0)) by lia. done.
  - destruct (chars_read _ _ Hs) as (z' & b & -> & _ & Hz' & _). cbn [mbind option_bind matches].
    destruct (fold_case nc c =? fold_case nc x); cbn [negb andb]; [by apply Hk|done].
Qed.

Definition correct_for (f : nat) : Prop := forall pz pc sz sc tf, chars pz pc -> chars sz sc -> (length pc < f)%nat -> (length pc <= tf)%nat ->
  patternCompare_loop f i esc pz sz false = Some (M (tokens tf i esc false pc) sc).

(** After a run of wildcards. *)
Lemma star_step f pz pc sz sc tf : correct_for f -> chars pz pc -> chars sz sc -> (length pc < f)%nat -> (length pc <= tf)%nat ->
  (r ← star_run (S (length pz)) i pz sz;
   match r with
   | None => Some false
   | Some (c, zPattern, zString) =>
       let search c zPattern :=
         star_search (S (length zString)) (fun s => patternCompare_loop f i esc zPattern s false) nc c zString in
       if c =? 0 then Some true
       else if c =? esc then
         '(c, zPattern) ← sqlite3Utf8Read zPattern;
         if c =? 0 then Some false else search c zPattern
       else if c =? matchSet i then
         _ ← assert_ (esc =? 0);
         _ ← assert_ (matchSet i <? 128);
         star_set (S (length zString)) (fun s => patternCompare_loop f i esc (c :: zPattern) s false) zString
       else search c zPattern
   end) = Some (M (TAll :: tokens tf i esc true pc) sc).
Proof.
  intros IH Hpz Hsz Hf Htf. pose proof (chars_length _ _ Hpz) as Hpl.
  destruct (star_run_spec pz pc Hpz sz sc (S (length pz)) tf Hsz ltac:(lia) Htf HA HO HAO)
    as [[-> ->]|(c & pz' & sz' & pc' & sc' & tf' & -> & Hsz' & Htf' & -> & Hc & HcA & HcO & Hpc' & Hc0)]; [done|].
  cbn [mbind option_bind]. cbv zeta. pose proof (chars_length _ _ Hsz') as Hsl.
  destruct pc' as [|c' pc'].
  { cbn [head0] in Hc. rewrite Hc. cbn [Z.eqb]. by destruct tf'; cbn [tokens]; rewrite all_end. }
  destruct Hc0 as (Hcp & Hpz' & _); [done|]. rewrite (proj2 (Z.eqb_neq c 0)) by lia. cbn [head0 tail] in Hc, Hpz'. subst c'.
  destruct tf' as [|tf']; [simpl in Htf'; lia|]. simpl in Htf', Hpc'.
  cbn [tokens]. rewrite (proj2 (Z.eqb_neq c (matchAll i))), (proj2 (Z.eqb_neq c (matchOne i))) by done.
  assert (forall d z' rest', 0 < d -> chars z' rest' -> (length rest' <= length pc')%nat ->
    star_search (S (length sz')) (fun s => patternCompare_loop f i esc z' s false) nc d sz' =
    Some (M (TAll :: TLit d :: tokens tf' i esc false rest') sc')) as Hsearch.
  { intros d z' rest' Hd Hz' Hl. apply (star_search_spec _ (tokens tf' i esc false rest') d) with (n := length sc'); [|done|lia|done|lia|done].
    intros z s Hzs. apply IH; [done|done|lia|lia]. }
  destruct (Z.eqb_spec c (matchSet i)) as [Es|Es].
  - destruct HS as [H0|[He Hms]]; [lia|]. rewrite (proj2 (Z.eqb_neq c esc)), (proj2 (Z.eqb_eq esc 0)) by lia. cbn [assert_ mbind option_bind].
    rewrite (proj2 (Z.ltb_lt (matchSet i) 128)) by lia. cbn [assert_ mbind option_bind].
    assert (chars (c :: pz') (c :: pc')) as Hcc by (apply (chars_cons _ _ pz'); [cbn; by rewrite (proj2 (Z.leb_gt 192 c)) by lia|done|done]).
    match goal with |- _ = Some (M (TAll :: ?T) _) => assert (M T [] = false /\ T = tokens (S tf') i esc false (c :: pc')) as [Hn HT] end.
    { split; [by destruct (parse_set pc') as [[[]]|]|]. cbn [tokens].
      by rewrite (proj2 (Z.eqb_neq c (matchAll i))), (proj2 (Z.eqb_neq c (matchOne i))), (proj2 (Z.eqb_eq c (matchSet i))) by done. }
    rewrite (star_set_spec _ (tokens (S tf') i esc false (c :: pc'))) with (sc := sc'); [by rewrite HT|by rewrite <- HT| |done|lia].
    intros z s Hzs. apply IH; [done|done|simpl; lia|simpl; lia].
  - destruct (Z.eqb_spec c esc) as [Ee|Ee].
    + destruct pc' as [|d pc'].
      * destruct (chars_read _ _ Hpz') as [[r ->] _]. cbn [mbind option_bind Z.eqb]. by rewrite all_never.
      * destruct (chars_read _ _ Hpz') as (z2 & b & -> & Hd & Hz2 & _). cbn [mbind option_bind]. rewrite (proj2 (Z.eqb_neq d 0)) by lia.
        apply Hsearch; [done|done|simpl; lia].
    + by apply Hsearch.
Qed.

Lemma patternCompare_loop_spec f : correct_for f.
Proof.
  induction f as [f IHf] using lt_wf_ind. intros pz pc sz sc tf Hpz Hsz Hf Htf. destruct f as [|f]; [lia|].
  cbn [patternCompare_loop]. destruct pc as [|c pc].
  { destruct (chars_read _ _ Hpz) as [[r ->] _]. cbn [mbind option_bind Z.eqb]. destruct tf; by apply at_end. }
  destruct (chars_read _ _ Hpz) as (pz' & b & -> & Hc & Hpz' & _). cbn [mbind option_bind]. rewrite (proj2 (Z.eqb_neq c 0)) by lia.
  destruct tf as [|tf]; [simpl in Htf; lia|]. simpl in Hf, Htf. cbn [tokens negb]. rewrite !andb_true_r.
  assert (correct_for f) as IH by (apply IHf; lia).
  destruct (Z.eqb_spec c (matchAll i)) as [EA|EA]; [apply star_step; (done || lia)|].
  destruct (Z.eqb_spec c (matchOne i)) as [EO|EO].
  { destruct sc as [|x sc].
    - destruct (chars_read _ _ Hsz) as [[r ->] _]. done.
    - destruct (chars_read _ _ Hsz) as (sz' & b' & -> & Hx & Hsz' & _). cbn [mbind option_bind]. rewrite (proj2 (Z.eqb_neq x 0)) by lia.
      cbn [matches]. apply IH; (done || lia). }
  destruct (Z.eqb_spec c (matchSet i)) as [ES|ES].
  { destruct HS as [H0|[He Hms]]; [lia|]. rewrite (proj2 (Z.eqb_eq esc 0)) by done. cbn [assert_ mbind option_bind].
    destruct sc as [|x sc].
    - destruct (chars_read _ _ Hsz) as [[r ->] _]. cbn. by destruct (parse_set pc) as [[[]]|].
    - destruct (chars_read _ _ Hsz) as (sz' & b' & -> & Hx & Hsz' & _). cbn [mbind option_bind]. rewrite (proj2 (Z.eqb_neq x 0)) by lia.
      pose proof (set_match_spec x pz' pc Hpz') as Hset. destruct (parse_set pc) as [[[inv r] rest]|] eqn:Eps.
      + destruct Hset as (z' & -> & Hz'). apply parse_set_length in Eps. cbn [mbind option_bind matches]. destruct (in_set inv r x); [|done].
        cbn [andb]. apply IH; (done || lia).
      + destruct Hset as (z' & ->). done. }
  rewrite (Z.eqb_sym esc c). destruct (Z.eqb_spec c esc) as [EE|EE].
  - destruct f as [|f]; [lia|]. cbn [patternCompare_loop]. destruct pc as [|d pc].
    + destruct (chars_read _ _ Hpz') as [[r ->] _]. cbn [mbind option_bind Z.eqb]. by apply at_end.
    + destruct (chars_read _ _ Hpz') as (pz2 & b2 & -> & Hd & Hpz2 & _). cbn [mbind option_bind]. rewrite (proj2 (Z.eqb_neq d 0)) by lia.
      cbn [negb]. rewrite !andb_false_r. rewrite (proj2 (Z.eqb_neq d (matchSet i))) by (destruct HS; lia).
      apply literal_step; [done|done|]. intros z s Hzs. simpl in Hf, Htf. apply IHf; (done || lia).
  - apply literal_step; [done|done|]. intros z s Hzs. apply IH; (done || lia).
Qed.
End Compare.

(** ** The operators *)

Inductive operator : compareInfo -> Z -> Prop :=
  | op_glob : operator globInfo 0
  | op_like esc : 0 <= esc -> operator likeInfoNorm esc
  | op_like_case esc : 0 <= esc -> operator likeInfoAlt esc.

Lemma patternCompare_spec i esc pz pc sz sc : operator i esc -> chars pz pc -> chars sz sc ->
  patternCompare pz sz i esc = Some (matches (noCase i) (tokens (length pc) i esc false pc) sc).
Proof.
  intros Hop Hp Hs. pose proof (chars_length _ _ Hp). unfold patternCompare.
  apply patternCompare_loop_spec; try done; try lia; destruct Hop; cbn; first [done|by left|right; lia].
Qed.

Lemma chars_text cs r : Forall (fun c => scalar c /\ c <> 0) cs -> chars ((cs ≫= WRITE_UTF8) ++ 0 :: r) cs.
Proof.
  induction 1 as [|c cs [Hc Hc0] Hcs IH]; [constructor|]. cbn [mbind list_bind]. rewrite <- app_assoc.
  assert (Forall scalar cs) as Hs by (eapply Forall_impl; [done|by intros ? []]). destruct (text8_start cs r Hs).
  apply (chars_cons _ _ ((cs ≫= WRITE_UTF8) ++ 0 :: r)); [by apply utf8Read_write|destruct Hc; lia|done].
Qed.

(** C14. The LIKE and GLOB matcher is correct: for zero-terminated byte strings of
    any content, malformed UTF-8 included, the backtracking search of
    patternCompare ends, reads nothing past the terminators, and answers whether
    the characters of the string are matched by the pattern: text for %, one
    character for _, sets and ranges for GLOB, ASCII case ignored by LIKE, escape
    characters honoured. *)
Theorem pattern_compare_correct i esc pb sb pr sr :
  operator i esc -> Forall is_byte pb -> Forall (fun b => b <> 0) pb -> Forall is_byte sb -> Forall (fun b => b <> 0) sb ->
  exists pc sc, chars (pb ++ 0 :: pr) pc /\ chars (sb ++ 0 :: sr) sc /\
    patternCompare (pb ++ 0 :: pr) (sb ++ 0 :: sr) i esc = Some (matches (noCase i) (tokens (length pc) i esc false pc) sc).
Proof.
  intros Hop Hp Hp0 Hs Hs0. destruct (chars_total pr (length pb) pb ltac:(done) Hp Hp0) as [pc Hpc].
  destruct (chars_total sr (length sb) sb ltac:(done) Hs Hs0) as [sc Hsc]. exists pc, sc. split_and!; [done|done|]. by apply patternCompare_spec.
Qed.

(** The pattern that stands for a text: its special characters escaped. *)
Definition quote_like (esc : Z) (cs : list Z) : list Z :=
  cs ≫= fun c => if (c =? 37) || (c =? 95) || (c =? esc) then [esc; c] else [c].

Lemma tokens_quote i esc cs : i = likeInfoNorm \/ i = likeInfoAlt -> esc <> 37 -> esc <> 95 -> 0 < esc ->
  Forall (fun c => 0 < c) cs -> forall tf, (length (quote_like esc cs) <= tf)%nat ->
  tokens tf i esc false (quote_like esc cs) = map TLit cs.
Proof.
  intros Hi H37 H95 He. assert (matchAll i = 37 /\ matchOne i = 95 /\ matchSet i = 0) as (HA & HO & HS) by (by destruct Hi as [-> | ->]).
  induction 1 as [|c cs Hc _ IH]; intros tf Htf; [by destruct tf|]. unfold quote_like in *. cbn [mbind list_bind map] in *.
  fold (quote_like esc cs) in *. destruct ((c =? 37) || (c =? 95) || (c =? esc)) eqn:E; cbn [app length] in *;
    (destruct tf as [|tf]; [lia|]); cbn [tokens]; rewrite HA, HO, HS.
  - rewrite (proj2 (Z.eqb_neq esc 37)), (proj2 (Z.eqb_neq esc 95)), (proj2 (Z.eqb_neq esc 0)), Z.eqb_refl by lia. rewrite IH by lia. done.
  - apply orb_false_iff in E as [E1 E3]. apply orb_false_iff in E1 as [E1 E2]. rewrite E1, E2, E3, (proj2 (Z.eqb_neq c 0)) by lia.
    by rewrite IH by lia.
Qed.

Lemma matches_literal nc cs : forall sc, matches nc (map TLit cs) sc = bool_decide (map (fold_case nc) cs = map (fold_case nc) sc).
Proof.
  induction cs as [|c cs IH]; intros [|x sc]; cbn [map matches]; try done. rewrite IH.
  apply bool_iff. rewrite andb_true_iff, Z.eqb_eq, !bool_decide_eq_true. split; [intros [-> ->]; done|by intros [= -> ->]].
Qed.

(** A text can be searched for literally: with its %, _ and escape characters
    escaped, like(pattern, string, escape) is true of exactly the strings equal to
    the text up to ASCII case, whatever the characters, and a pattern longer than
    the limit or an escape of several characters is refused. *)
Theorem like_escape_roundtrip limit nPat esc cs sc :
  Forall (fun c => scalar c /\ c <> 0) cs -> Forall (fun c => scalar c /\ c <> 0) sc -> Forall (fun c => scalar c /\ c <> 0) esc ->
  Forall (fun e => e <> 37 /\ e <> 95) esc -> esc <> [] -> Z.of_nat (length esc) <= int_max ->
  let e := nth 0 esc 0 in
  likeFunc likeInfoNorm limit nPat (encode SQLITE_UTF8 (quote_like e cs) ++ [0]) (encode SQLITE_UTF8 sc ++ [0])
    (Some (encode SQLITE_UTF8 esc ++ [0])) =
  Some (if limit <? nPat then LikeTooComplex
        else if bool_decide (length esc = 1%nat)
        then LikeInt (bool_decide (map GlobUpperToLower cs = map GlobUpperToLower sc))
        else LikeBadEscape).
Proof.
  intros Hcs Hsc Hesc Hspec Hne Hlen e. change (encode SQLITE_UTF8) with (fun cs => cs ≫= WRITE_UTF8). cbv beta.
  unfold likeFunc. destruct (limit <? nPat); [done|].
  assert (sqlite3Utf8CharLen ((esc ≫= WRITE_UTF8) ++ [0]) (-1) = Some (Z.of_nat (length esc))) as ->.
  { unfold sqlite3Utf8CharLen. change (0 <=? -1) with false. cbv match.
    rewrite (utf8CharLen_text esc []); [f_equal; lia|done|lia|lia|rewrite length_app; lia]. }
  cbn [mbind option_bind]. destruct (decide (length esc = 1%nat)) as [H1|H1].
  - rewrite bool_decide_eq_true_2 by done. rewrite H1. change (negb (Z.of_nat 1 =? 1)) with false. cbv match.
    destruct esc as [|e0 [|]]; try done. subst e. cbn [nth] in *. apply Forall_cons in Hesc as [[He He0] _]. apply Forall_cons in Hspec as [[H37 H95] _].
    cbn [mbind list_bind]. rewrite app_nil_r. rewrite utf8Read_write by done. cbn [mbind option_bind].
    assert (0 < e0) as Hpos by (destruct He; lia).
    assert (Forall (fun c => scalar c /\ c <> 0) (quote_like e0 cs)) as Hq.
    { unfold quote_like. clear -Hcs He He0. induction Hcs as [|c cs Hc _ IH]; [constructor|]. cbn [mbind list_bind]. apply Forall_app. split; [|done].
      destruct ((c =? 37) || (c =? 95) || (c =? e0)); [constructor; [done|]|]; (constructor; [done|constructor]). }
    assert (Forall (fun c => 0 < c) cs) as Hcp by (eapply Forall_impl; [done|intros c [[Hr _] Hc0]; lia]).
    rewrite (patternCompare_spec likeInfoNorm e0 _ (quote_like e0 cs) _ sc); [|constructor; lia|by apply chars_text|by apply chars_text].
    cbn [mbind option_bind]. rewrite tokens_quote by (done || lia || (by left)). by rewrite matches_literal.
  - rewrite bool_decide_eq_false_2 by done. rewrite (proj2 (Z.eqb_neq _ 1)) by lia. done.
Qed.

(** ** Witnesses *)

Lemma pattern_compare_correct_witness : exists pc sc,
  chars ([42; 91; 97; 45; 99; 93; 255] ++ [0]) pc /\ chars ([120; 120; 98; 255] ++ [0]) sc /\
  patternCompare ([42; 91; 97; 45; 99; 93; 255] ++ [0]) ([120; 120; 98; 255] ++ [0]) globInfo 0 =
    Some (matches false (tokens (length pc) globInfo 0 false pc) sc).
Proof.
  apply (pattern_compare_correct globInfo 0 [42; 91; 97; 45; 99; 93; 255] [120; 120; 98; 255] [] []).
  - constructor.
  - by apply bytes_bool.
  - repeat constructor; discriminate.
  - by apply bytes_bool.
  - repeat constructor; discriminate.
Defined.

Lemma like_escape_roundtrip_witness :
  likeFunc likeInfoNorm 50000 6 (encode SQLITE_UTF8 (quote_like 92 [53; 37; 65]) ++ [0]) (encode SQLITE_UTF8 [53; 37; 97] ++ [0])
    (Some (encode SQLITE_UTF8 [92] ++ [0])) = Some (LikeInt true).
Proof.
  apply (like_escape_roundtrip 50000 6 [92] [53; 37; 65] [53; 37; 97]).
  - repeat constructor; unfold scalar; lia.
  - repeat constructor; unfold scalar; lia.
  - repeat constructor; unfold scalar; lia.
  - repeat constructor; discriminate.
  - discriminate.
  - vm_compute. discriminate.
Defined.
