(* ===== verification/MemJournal.v ===== *)
(** * MemJournal: in-memory rollback journals (memjournal.c)

    The chunks live in a heap of their own, addressed by pointers; a null pointer
    is [None] and following one is an error.  The content of fresh memory is
    never read, so it is written as zeros. *)
From S2P Require Import Prelude.

Definition SQLITE_IOERR_NOMEM : Z := 3082.

(** 1024-sizeof(FileChunk* ), with 8-byte pointers *)
Definition JOURNAL_CHUNKSIZE : Z := 1016.

Record FileChunk := mkFileChunk { pNext : option positive; zChunk : list Z }.
Record FilePoint := mkFilePoint { iOffset : Z; pChunk : option positive }.

Record MemJournal := mkMemJournal {
  heap : gmap positive FileChunk;
  pFirst : option positive;
  endpoint : FilePoint;
  readpoint : FilePoint }.

(** The search for the chunk that holds an offset. *)
Fixpoint find_chunk (fuel : nat) (h : gmap positive FileChunk) (p : option positive) (iOff iOfst : Z) : option (option positive) :=
  match fuel with
  | O => None
  | S f =>
      match p with
      | Some k =>
          if iOff + JOURNAL_CHUNKSIZE <=? iOfst then
            ch ← h !! k; find_chunk f h (pNext ch) (iOff + JOURNAL_CHUNKSIZE) iOfst
          else Some p
      | None => Some None
      end
  end.

(** memcpy(zOut, &z[off], n) *)
Definition copy_out (z : list Z) (off n : Z) : option (list Z) :=
  if decide (0 <= off /\ 0 <= n /\ off + n <= Z.of_nat (length z)) then Some (take (Z.to_nat n) (drop (Z.to_nat off) z)) else None.

(** do { ... } while( nRead>=0 && (pChunk=pChunk->pNext)!=0 && nRead>0 );
    the bytes read and the chunk where reading stopped. *)
Fixpoint read_loop (fuel : nat) (h : gmap positive FileChunk) (p : option positive) (nRead iChunkOffset : Z) (zOut : list Z)
    : option (list Z * option positive) :=
  match fuel with
  | O => None
  | S f =>
      k ← p;
      ch ← h !! k;
      let iSpace := JOURNAL_CHUNKSIZE - iChunkOffset in
      let nCopy := Z.min nRead (JOURNAL_CHUNKSIZE - iChunkOffset) in
      b ← copy_out (zChunk ch) iChunkOffset nCopy;
      let zOut := zOut ++ b in
      let nRead := nRead - iSpace in
      if 0 <=? nRead then
        let p := pNext ch in
        match p with
        | None => Some (zOut, p)
        | Some _ => if 0 <? nRead then read_loop f h p nRead 0 zOut else Some (zOut, p)
        end
      else Some (zOut, p)
  end.

Definition memjrnlRead (p : MemJournal) (iAmt iOfst : Z) : option (Z * list Z * MemJournal) :=
  _ ← assert_ (iOfst + iAmt <=? iOffset (endpoint p));
  let fuel := S (size (heap p)) in
  c ← (if negb (iOffset (readpoint p) =? iOfst) || (iOfst =? 0) then find_chunk fuel (heap p) (pFirst p) 0 iOfst
       else Some (pChunk (readpoint p)));
  '(zBuf, c) ← read_loop fuel (heap p) c iAmt (iOfst mod JOURNAL_CHUNKSIZE) [];
  Some (SQLITE_OK, zBuf, mkMemJournal (heap p) (pFirst p) (endpoint p) (mkFilePoint (iOfst + iAmt) c)).

(** A new chunk at the end of the list. *)
Definition extend (p : MemJournal) : option MemJournal :=
  let pNew := fresh (dom (heap p)) in
  let h := <[pNew := mkFileChunk None (replicate (Z.to_nat JOURNAL_CHUNKSIZE) 0)]> (heap p) in
  match pChunk (endpoint p) with
  | Some c =>
      _ ← assert_ (match pFirst p with Some _ => true | None => false end);
      ch ← h !! c;
      Some (mkMemJournal (<[c := mkFileChunk (Some pNew) (zChunk ch)]> h) (pFirst p)
              (mkFilePoint (iOffset (endpoint p)) (Some pNew)) (readpoint p))
  | None =>
      _ ← assert_ (match pFirst p with Some _ => false | None => true end);
      Some (mkMemJournal h (Some pNew) (mkFilePoint (iOffset (endpoint p)) (Some pNew)) (readpoint p))
  end.

Fixpoint write_loop (fuel : nat) (m : Mem) (p : MemJournal) (zWrite : list Z) : option (Z * MemJournal * Mem) :=
  match fuel with
  | O => None
  | S f =>
      let nWrite := Z.of_nat (length zWrite) in
      if 0 <? nWrite then
        let iChunkOffset := iOffset (endpoint p) mod JOURNAL_CHUNKSIZE in
        let iSpace := Z.min nWrite (JOURNAL_CHUNKSIZE - iChunkOffset) in
        let '(ok, m) := if iChunkOffset =? 0 then malloc m else (true, m) in
        if negb ok then Some (SQLITE_IOERR_NOMEM, p, m)
        else
          p ← (if iChunkOffset =? 0 then extend p else Some p);
          c ← pChunk (endpoint p);
          ch ← heap p !! c;
          z ← put_bytes (zChunk ch) iChunkOffset (take (Z.to_nat iSpace) zWrite);
          write_loop f m (mkMemJournal (<[c := mkFileChunk (pNext ch) z]> (heap p)) (pFirst p)
                            (mkFilePoint (iOffset (endpoint p) + iSpace) (Some c)) (readpoint p))
            (drop (Z.to_nat iSpace) zWrite)
      else Some (SQLITE_OK, p, m)
  end.

Definition memjrnlWrite (m : Mem) (p : MemJournal) (zBuf : list Z) (iOfst : Z) : option (Z * MemJournal * Mem) :=
  _ ← assert_ (iOfst =? iOffset (endpoint p));
  write_loop (S (length zBuf)) m p zBuf.

(** All fields zero; the chunks that are still allocated stay in the heap. *)
Definition sqlite3MemJournalOpen (h : gmap positive FileChunk) : MemJournal :=
  mkMemJournal h None (mkFilePoint 0 None) (mkFilePoint 0 None).

Fixpoint free_loop (fuel : nat) (m : Mem) (h : gmap positive FileChunk) (p : option positive) : option (gmap positive FileChunk * Mem) :=
  match fuel with
  | O => None
  | S f =>
      match p with
      | None => Some (h, m)
      | Some k => ch ← h !! k; free_loop f (mfree m) (delete k h) (pNext ch)
      end
  end.

Definition memjrnlTruncate (m : Mem) (p : MemJournal) (size_ : Z) : option (Z * MemJournal * Mem) :=
  _ ← assert_ (size_ =? 0);
  '(h, m) ← free_loop (S (size (heap p))) m (heap p) (pFirst p);
  Some (SQLITE_OK, sqlite3MemJournalOpen h, m).

Definition memjrnlClose (m : Mem) (p : MemJournal) : option (Z * MemJournal * Mem) :=
  '(_, p, m) ← memjrnlTruncate m p 0; Some (SQLITE_OK, p, m).

Definition memjrnlSync : Z := SQLITE_OK.

Definition memjrnlFileSize (p : MemJournal) : Z * Z := (SQLITE_OK, iOffset (endpoint p)).

(** ** Invariant *)

Abbreviation CS := (Z.to_nat JOURNAL_CHUNKSIZE).

(** The chunks [ids] in order hold the image [img] of the file, chunk after
    chunk. *)
Record linked (h : gmap positive FileChunk) (ids : list positive) (img : list Z) : Prop := {
  lk_nodup : NoDup ids;
  lk_size : length img = (CS * length ids)%nat;
  lk_chunk : forall j k, ids !! j = Some k -> h !! k = Some (mkFileChunk (ids !! S j) (take CS (drop (CS * j) img)));
  lk_dom : dom h = list_to_set ids }.

(** The read cursor: at the start, in the chunk of its offset, or past the
    last chunk there was when it was left. *)
Definition cursor_ok (ids : list positive) (r : FilePoint) (stale : option Z) : Prop :=
  match stale with
  | Some x => 0 < x /\ iOffset r = x /\ pChunk r = None
  | None => iOffset r = 0 \/ 0 < iOffset r /\ pChunk r = ids !! Z.to_nat (iOffset r / JOURNAL_CHUNKSIZE) /\ pChunk r <> None
  end.

Record journal_ok (p : MemJournal) (content : list Z) (stale : option Z) : Prop := {
  jo_image : exists ids img, linked (heap p) ids img /\ (exists rest, img = content ++ rest) /\
    pFirst p = head ids /\ pChunk (endpoint p) = last ids /\
    (CS * length ids < length content + CS)%nat /\ cursor_ok ids (readpoint p) stale;
  jo_end : iOffset (endpoint p) = Z.of_nat (length content) }.

(** ** Reading *)

#[local] Ltac Zify.zify_post_hook ::= Z.to_euclidean_division_equations.

Lemma CS_val : Z.of_nat CS = JOURNAL_CHUNKSIZE.
Proof. done. Qed.

Section Read.
Context (h : gmap positive FileChunk) (ids : list positive) (img : list Z).
Hypothesis Hl : linked h ids img.

Lemma heap_size : size h = length ids.
Proof.
  rewrite <- (size_dom (D := gset positive)), (lk_dom _ _ _ Hl). apply size_list_to_set, Hl.
Qed.

Lemma chunk_length j k : ids !! j = Some k -> length (take CS (drop (CS * j) img)) = CS.
Proof.
  intros Hj. apply lookup_lt_Some in Hj. pose proof (lk_size _ _ _ Hl). rewrite length_take, length_drop. nia.
Qed.

Lemma find_chunk_spec q iOfst : 0 <= iOfst -> q = Z.to_nat (iOfst / JOURNAL_CHUNKSIZE) -> (q < length ids)%nat ->
  forall d fuel j, (j + d = q)%nat -> (d < fuel)%nat ->
  find_chunk fuel h (ids !! j) (Z.of_nat (CS * j)) iOfst = Some (ids !! q).
Proof.
  intros Ho Hq Hlt. assert (JOURNAL_CHUNKSIZE * Z.of_nat q <= iOfst < JOURNAL_CHUNKSIZE * (Z.of_nat q + 1)) as Hr by (unfold JOURNAL_CHUNKSIZE in *; lia).
  induction d as [|d IH]; intros fuel j Hj Hf; (destruct fuel as [|f]; [lia|]); cbn [find_chunk];
    (destruct (lookup_lt_is_Some_2 ids j ltac:(lia)) as [k Hk]); rewrite Hk; rewrite Nat2Z.inj_mul, CS_val.
  - replace j with q in * by lia. rewrite (proj2 (Z.leb_gt _ _)) by lia. by rewrite Hk.
  - rewrite (proj2 (Z.leb_le _ _)) by nia. rewrite (lk_chunk _ _ _ Hl j k Hk). cbn [mbind option_bind pNext].
    replace (JOURNAL_CHUNKSIZE * Z.of_nat j + JOURNAL_CHUNKSIZE) with (Z.of_nat (CS * S j)) by (rewrite Nat2Z.inj_mul, CS_val; lia).
    apply IH; lia.
Qed.

Lemma copy_chunk j k off n : ids !! j = Some k -> (off + n <= CS)%nat ->
  copy_out (take CS (drop (CS * j) img)) (Z.of_nat off) (Z.of_nat n) = Some (take n (drop (CS * j + off) img)).
Proof.
  intros Hj Hn. unfold copy_out. pose proof (chunk_length j k Hj). rewrite decide_True by lia. rewrite !Nat2Z.id.
  f_equal. rewrite <- drop_drop. apply list_eq. intros i.
  destruct (decide (i < n)%nat).
  - rewrite !lookup_take_lt by done. rewrite !lookup_drop. rewrite lookup_take_lt by lia. by rewrite lookup_drop.
  - by rewrite !lookup_take_ge by lia.
Qed.

(** From chunk [j] at offset [off]: the next [n] bytes of the image, and the
    chunk that follows the last byte. *)
Lemma read_loop_spec : forall fuel j off n acc, (off < CS)%nat -> (0 < n)%nat -> (CS * j + off + n <= CS * length ids)%nat ->
  (length ids - j < fuel)%nat ->
  read_loop fuel h (ids !! j) (Z.of_nat n) (Z.of_nat off) acc =
  Some (acc ++ take n (drop (CS * j + off) img), ids !! ((CS * j + off + n) / CS)%nat).
Proof.
  induction fuel as [|f IH]; intros j off n acc Ho Hn Hle Hf; [lia|]. cbn [read_loop].
  assert (j < length ids)%nat as Hj by nia. destruct (lookup_lt_is_Some_2 ids j Hj) as [k Hk]. rewrite Hk. cbn [mbind option_bind].
  rewrite (lk_chunk _ _ _ Hl j k Hk). cbn [mbind option_bind zChunk pNext].
  replace (Z.min (Z.of_nat n) (JOURNAL_CHUNKSIZE - Z.of_nat off)) with (Z.of_nat (Nat.min n (CS - off))) by (rewrite <- CS_val; lia).
  rewrite (copy_chunk j k) by (done || lia). cbn [mbind option_bind].
  destruct (Nat.lt_ge_cases n (CS - off)) as [Hlt|Hge].
  - rewrite (proj2 (Z.leb_gt 0 _)) by (rewrite <- CS_val; lia). rewrite Nat.min_l by lia. do 2 f_equal.
    replace ((CS * j + off + n) / CS)%nat with j; [done|].
    symmetry. replace (CS * j + off + n)%nat with (j * CS + (off + n))%nat by lia. rewrite Nat.div_add_l by (unfold JOURNAL_CHUNKSIZE; lia).
    rewrite Nat.div_small; lia.
  - rewrite (proj2 (Z.leb_le 0 _)) by (rewrite <- CS_val; lia). rewrite Nat.min_r by lia.
    destruct (decide (n = CS - off)%nat) as [->|Hne].
    + replace ((CS * j + off + (CS - off)) / CS)%nat with (S j).
      2:{ symmetry. replace (CS * j + off + (CS - off))%nat with (S j * CS)%nat by lia. apply Nat.div_mul. unfold JOURNAL_CHUNKSIZE. lia. }
      rewrite (proj2 (Z.ltb_ge 0 _)) by (rewrite <- CS_val; lia). by destruct (ids !! S j).
    + destruct (lookup_lt_is_Some_2 ids (S j) ltac:(nia)) as [k' Hk']. rewrite Hk'. rewrite (proj2 (Z.ltb_lt 0 _)) by (rewrite <- CS_val; lia).
      replace (Z.of_nat n - (JOURNAL_CHUNKSIZE - Z.of_nat off)) with (Z.of_nat (n - (CS - off))) by (rewrite <- CS_val; lia).
      rewrite <- Hk'. change 0 with (Z.of_nat 0) at 1. rewrite IH by lia. rewrite <- app_assoc. do 2 f_equal.
      * f_equal. replace (CS * S j + 0)%nat with (CS * j + off + (CS - off))%nat by lia. rewrite <- (drop_drop img (CS - off)).
        rewrite take_take_drop. f_equal. lia.
      * f_equal. f_equal. lia.
Qed.
End Read.

(** ** Writing *)

(** Storing bytes inside one chunk of the image. *)
Lemma linked_store h ids img j k off l :
  linked h ids img -> ids !! j = Some k -> (off + length l <= CS)%nat ->
  let img' := take (CS * j + off) img ++ l ++ drop (CS * j + off + length l) img in
  put_bytes (take CS (drop (CS * j) img)) (Z.of_nat off) l = Some (take CS (drop (CS * j) img')) /\
  linked (<[k := mkFileChunk (ids !! S j) (take CS (drop (CS * j) img'))]> h) ids img'.
Proof.
  intros Hl Hj Hoff img'. pose proof (chunk_length h ids img Hl j k Hj) as Hcl. pose proof (lk_size _ _ _ Hl) as Hsz.
  pose proof (lookup_lt_Some _ _ _ Hj) as Hjl.
  assert (CS * j + CS <= length img)%nat as Hin by nia.
  assert (length img' = length img) as Hlen by (unfold img'; rewrite !length_app, length_take, length_drop; lia).
  assert (forall i, img' !! i = if decide (CS * j + off <= i < CS * j + off + length l)%nat then l !! (i - (CS * j + off))%nat else img !! i) as Hi.
  { intros i. unfold img'. case_decide as Hd.
    - rewrite lookup_app_r by (rewrite length_take; lia). rewrite length_take, Nat.min_l by lia. by rewrite lookup_app_l by lia.
    - destruct (decide (i < CS * j + off)%nat).
      + rewrite lookup_app_l by (rewrite length_take; lia). by rewrite lookup_take_lt by lia.
      + rewrite lookup_app_r by (rewrite length_take; lia). rewrite length_take, Nat.min_l by lia. rewrite lookup_app_r by lia.
        rewrite lookup_drop. f_equal. lia. }
  split.
  - unfold put_bytes. rewrite decide_True by lia. rewrite Nat2Z.id. f_equal. apply list_eq. intros i.
    destruct (decide (i < CS)%nat) as [Hc|Hc].
    2:{ rewrite !lookup_ge_None_2; [done|rewrite length_take; lia|rewrite !length_app, length_take, length_drop; lia]. }
    rewrite (lookup_take_lt (drop _ img')) by lia. rewrite lookup_drop, Hi.
    destruct (decide (i < off)%nat).
    + rewrite lookup_app_l by (rewrite length_take; lia). rewrite !lookup_take_lt by lia. rewrite lookup_drop. by rewrite decide_False by lia.
    + rewrite lookup_app_r by (rewrite length_take; lia). rewrite length_take, Nat.min_l by lia. destruct (decide (i < off + length l)%nat).
      * rewrite lookup_app_l by lia. rewrite decide_True by lia. f_equal. lia.
      * rewrite lookup_app_r by lia. rewrite lookup_drop, lookup_take_lt, lookup_drop by lia. rewrite decide_False by lia. f_equal. lia.
  - destruct Hl as [Hnd _ Hch Hdom]. constructor; [done|by rewrite Hlen| |].
    + intros j' k' Hj'. destruct (decide (k' = k)) as [->|Hk].
      * rewrite lookup_insert_eq. by rewrite (NoDup_lookup _ _ _ _ Hnd Hj' Hj).
      * rewrite lookup_insert_ne by done. rewrite (Hch _ _ Hj'). do 2 f_equal. apply list_eq. intros i.
        destruct (decide (i < CS)%nat); [|by rewrite !lookup_take_ge by lia]. rewrite !lookup_take_lt, !lookup_drop by lia. rewrite Hi.
        rewrite decide_False; [done|]. assert (j' <> j) by (intros ->; congruence). nia.
    + rewrite dom_insert_L, Hdom. apply list_elem_of_lookup_2 in Hj. apply (elem_of_list_to_set (C := gset positive)) in Hj. set_solver.
Qed.

(** A new chunk goes to the end. *)
Lemma linked_extend h ids img :
  linked h ids img ->
  let pNew := fresh (dom h) in
  let h' := <[pNew := mkFileChunk None (replicate CS 0)]> h in
  linked (match last ids with
          | Some c => <[c := mkFileChunk (Some pNew) (match h !! c with Some ch => zChunk ch | None => [] end)]> h'
          | None => h' end) (ids ++ [pNew]) (img ++ replicate CS 0).
Proof.
  intros [Hnd Hsz Hch Hdom] pNew h'. pose proof (is_fresh (dom h)) as Hfresh. fold pNew in Hfresh.
  assert (pNew ∉ ids) as Hnew by (intros Hin; apply Hfresh; rewrite Hdom; by apply elem_of_list_to_set).
  assert (NoDup (ids ++ [pNew])) as Hnd'.
  { apply NoDup_app. split; [done|]. split; [|apply NoDup_singleton]. intros x Hx Hx'. apply list_elem_of_singleton in Hx' as ->. done. }
  assert (forall j, (j < length ids)%nat -> take CS (drop (CS * j) (img ++ replicate CS 0)) = take CS (drop (CS * j) img)) as Hold.
  { intros j Hj. rewrite drop_app_le by nia. rewrite take_app_le; [done|]. rewrite length_drop. nia. }
  assert (take CS (drop (CS * length ids) (img ++ replicate CS 0)) = replicate CS 0) as Hlast.
  { rewrite drop_app_ge by lia. rewrite Hsz, Nat.sub_diag, drop_0. apply take_ge. rewrite length_replicate. lia. }
  constructor; [done|rewrite !length_app, length_replicate; cbn [length]; lia| |].
  - intros j k Hj. apply lookup_app_Some in Hj as [Hj|[Hge Hj]].
    + pose proof (lookup_lt_Some _ _ _ Hj) as Hjl. rewrite Hold by done.
      assert (k <> pNew) as Hkn by (intros ->; apply Hnew; by eapply list_elem_of_lookup_2).
      destruct (decide (S j = length ids)) as [Hlj|Hlj].
      * assert (last ids = Some k) as Hlk by (rewrite last_lookup, <- Hlj; done). rewrite Hlk, lookup_insert_eq.
        rewrite (Hch _ _ Hj). cbn [zChunk]. rewrite lookup_app_r by lia. by rewrite Hlj, Nat.sub_diag.
      * rewrite (lookup_app_l ids) by lia. destruct (last ids) as [c|] eqn:Ec.
        -- rewrite lookup_insert_ne; [unfold h'; by rewrite lookup_insert_ne, (Hch _ _ Hj) by done|].
           intros ->. rewrite last_lookup in Ec. pose proof (NoDup_lookup _ _ _ _ Hnd Hj Ec). lia.
        -- unfold h'. by rewrite lookup_insert_ne, (Hch _ _ Hj) by done.
    + assert (j = length ids /\ k = pNew) as [-> ->].
      { destruct (j - length ids)%nat as [|i] eqn:E; [|done]. injection Hj as <-. split; [lia|done]. }
      rewrite Hlast. rewrite (lookup_ge_None_2 (ids ++ _)) by (rewrite length_app; simpl; lia).
      destruct (last ids) as [c|] eqn:Ec; [|unfold h'; by rewrite lookup_insert_eq].
      rewrite lookup_insert_ne; [unfold h'; by rewrite lookup_insert_eq|]. intros ->. rewrite last_lookup in Ec. apply Hnew. by eapply list_elem_of_lookup_2.
  - rewrite list_to_set_app_L. cbn [list_to_set]. unfold h'. destruct (last ids) as [c|] eqn:Ec; rewrite !dom_insert_L, Hdom.
    + rewrite last_lookup in Ec. apply list_elem_of_lookup_2 in Ec. apply (elem_of_list_to_set (C := gset positive)) in Ec. set_solver.
    + set_solver.
Qed.

Lemma cursor_extend ids k r stale : cursor_ok ids r stale -> cursor_ok (ids ++ [k]) r stale.
Proof.
  unfold cursor_ok. destruct stale; [done|]. intros [?|(Hp & He & Hn)]; [by left|right; split; [done|]]. split; [|done].
  rewrite He in *. destruct (ids !! _) eqn:E; [|done]. by rewrite (lookup_app_l_Some _ _ _ _ E).
Qed.

(** The journal with room for at least one more byte in its last chunk. *)
Record open_chunk (p : MemJournal) (content : list Z) (stale : option Z) (ids : list positive) (img : list Z) : Prop := {
  oc_linked : linked (heap p) ids img;
  oc_img : exists rest, img = content ++ rest;
  oc_first : pFirst p = head ids;
  oc_last : pChunk (endpoint p) = last ids;
  oc_room : (CS * length ids = CS * (length content / CS) + CS)%nat;
  oc_cursor : cursor_ok ids (readpoint p) stale;
  oc_end : iOffset (endpoint p) = Z.of_nat (length content) }.

Lemma extend_spec p content stale : journal_ok p content stale -> iOffset (endpoint p) mod JOURNAL_CHUNKSIZE = 0 ->
  exists p' ids img, extend p = Some p' /\ open_chunk p' content stale ids img.
Proof.
  intros [(ids & img & Hl & [rest Himg] & Hf & He & Hfew & Hc) Hend] Hm.
  assert (CS * length ids = length content)%nat as Hfull.
  { pose proof (lk_size _ _ _ Hl) as Hs. rewrite Himg, length_app in Hs. rewrite Hend in Hm.
    unfold JOURNAL_CHUNKSIZE in *. change (Z.to_nat 1016) with 1016%nat in *. lia. }
  pose proof (linked_extend _ _ _ Hl) as Hl'. set (pNew := fresh (dom (heap p))) in *.
  assert (length content / CS = length ids)%nat as Hdiv by (rewrite <- Hfull, Nat.mul_comm; apply Nat.div_mul; unfold JOURNAL_CHUNKSIZE; lia).
  exists (mkMemJournal (match last ids with
          | Some c => <[c := mkFileChunk (Some pNew) (match heap p !! c with Some ch => zChunk ch | None => [] end)]> (<[pNew := mkFileChunk None (replicate CS 0)]> (heap p))
          | None => <[pNew := mkFileChunk None (replicate CS 0)]> (heap p) end)
        (head (ids ++ [pNew])) (mkFilePoint (iOffset (endpoint p)) (Some pNew)) (readpoint p)), (ids ++ [pNew]), (img ++ replicate CS 0).
  split.
  - unfold extend. rewrite He, Hf. fold pNew. destruct (last ids) as [c|] eqn:Ec.
    + assert (exists f ids', ids = f :: ids') as (f0 & ids' & ->) by (destruct ids; [done|eauto]). cbn [head assert_ mbind option_bind app].
      rewrite last_lookup in Ec. assert (c <> pNew) as Hne.
      { intros ->. apply (is_fresh (dom (heap p))). fold pNew. rewrite (lk_dom _ _ _ Hl). apply elem_of_list_to_set. by eapply list_elem_of_lookup_2. }
      rewrite lookup_insert_ne by done. rewrite (lk_chunk _ _ _ Hl _ _ Ec). cbn [mbind option_bind zChunk]. done.
    + apply last_None in Ec as ->. done.
  - constructor; cbn [heap pFirst endpoint readpoint pChunk iOffset]; [done|exists (rest ++ replicate CS 0); by rewrite Himg, app_assoc|done| | |by apply cursor_extend|done].
    + by rewrite last_snoc.
    + rewrite length_app. cbn [length]. rewrite Hdiv. lia.
Qed.

Lemma store_spec p content stale ids img l : open_chunk p content stale ids img -> l <> [] -> (length content mod CS + length l <= CS)%nat ->
  exists c ch z, pChunk (endpoint p) = Some c /\ heap p !! c = Some ch /\
    put_bytes (zChunk ch) (iOffset (endpoint p) mod JOURNAL_CHUNKSIZE) l = Some z /\
    journal_ok (mkMemJournal (<[c := mkFileChunk (pNext ch) z]> (heap p)) (pFirst p)
      (mkFilePoint (iOffset (endpoint p) + Z.of_nat (length l)) (Some c)) (readpoint p)) (content ++ l) stale.
Proof.
  intros [Hl [rest Himg] Hf He Hroom Hc Hend] Hne Hfit.
  assert (0 < length l)%nat as Hll by (destruct l; [done|simpl; lia]).
  set (j := (length content / CS)%nat) in *. set (off := (length content mod CS)%nat) in *.
  assert (length content = CS * j + off)%nat as Hdm by (apply Nat.div_mod; unfold JOURNAL_CHUNKSIZE; lia).
  assert (length ids = S j) as Hids by (change CS with 1016%nat in *; lia).
  destruct (lookup_lt_is_Some_2 ids j ltac:(lia)) as [k Hk].
  assert (last ids = Some k) as Hlast by (rewrite last_lookup, Hids; done).
  destruct (linked_store _ _ _ j k off l Hl Hk Hfit) as [Hput Hl'].
  exists k, (mkFileChunk (ids !! S j) (take CS (drop (CS * j) img))), (take CS (drop (CS * j) (take (CS * j + off) img ++ l ++ drop (CS * j + off + length l) img))).
  split; [by rewrite He|]. split; [by apply Hl|]. cbn [zChunk pNext].
  assert (iOffset (endpoint p) mod JOURNAL_CHUNKSIZE = Z.of_nat off) as ->.
  { rewrite Hend. unfold off. rewrite Nat2Z.inj_mod. done. }
  split; [done|]. constructor; cbn [heap pFirst endpoint readpoint pChunk iOffset]; [|rewrite Hend, length_app; lia].
  exists ids, (take (CS * j + off) img ++ l ++ drop (CS * j + off + length l) img). split_and!; [done| |done|done| |done].
  - exists (drop (CS * j + off + length l) img). rewrite <- Hdm, Himg, take_app_length, <- app_assoc. done.
  - rewrite Hids, length_app. lia.
Qed.

(** *** What a write does, whichever allocations succeed *)

(** The chunks that [n] bytes take. *)
Definition chunks (n : nat) : nat := ((n + (CS - 1)) / CS)%nat.

(** Up to [k] allocations, until one fails: how many were made. *)
Fixpoint mallocs (k : nat) (m : Mem) : nat * Mem :=
  match k with
  | O => (0%nat, m)
  | S k => let '(ok, m) := malloc m in if ok then let '(g, m) := mallocs k m in (S g, m) else (0%nat, m)
  end.

(** Appending [n] bytes to [len]: success, the bytes appended, the allocator. *)
Definition write_outcome (m : Mem) (len n : nat) : bool * nat * Mem :=
  let need := (chunks (len + n) - chunks len)%nat in
  let '(got, m) := mallocs need m in
  if (got =? need)%nat then (true, n, m) else (false, (CS * (chunks len + got) - len)%nat, m).

Lemma chunks_spec n : exists r, (r < CS /\ CS * chunks n = n + r)%nat.
Proof.
  unfold chunks. change CS with 1016%nat. exists (1016 * ((n + (1016 - 1)) / 1016) - n)%nat.
  pose proof (Nat.div_mod_eq (n + (1016 - 1)) 1016). pose proof (Nat.mod_upper_bound (n + (1016 - 1)) 1016 ltac:(done)). lia.
Qed.

Lemma chunks_unique n k r : (r < CS -> CS * k = n + r -> k = chunks n)%nat.
Proof. intros Hr Hk. destruct (chunks_spec n) as (r' & Hr' & Hc). change CS with 1016%nat in *. lia. Qed.

Lemma chunks_le a b : (a <= b -> chunks a <= chunks b)%nat.
Proof. intros Hab. destruct (chunks_spec a) as (ra & Hra & Ha), (chunks_spec b) as (rb & Hrb & Hb). change CS with 1016%nat in *. lia. Qed.

Lemma mallocs_le k : forall m, (fst (mallocs k m) <= k)%nat.
Proof.
  induction k as [|k IH]; intros m; cbn [mallocs]; [simpl; lia|]. destruct (malloc m) as [[] m1]; [|simpl; lia].
  specialize (IH m1). destruct (mallocs k m1). simpl in *. lia.
Qed.

Lemma mallocs_live k : forall m g m', mallocs k m = (g, m') -> m_live m' = m_live m + Z.of_nat g.
Proof.
  induction k as [|k IH]; intros m g m'; cbn [mallocs]; [intros [= <- <-]; lia|].
  destruct (malloc_cases m) as [(o & -> & _)|(o & -> & _)]; [|intros [= <- <-]; simpl; lia].
  destruct (mallocs k _) as [g1 m1] eqn:E. intros [= <- <-]. apply IH in E. simpl in E. lia.
Qed.

Lemma mallocs_all k : forall m, no_oom m -> exists m', mallocs k m = (k, m') /\ no_oom m'.
Proof.
  induction k as [|k IH]; intros m Hm; cbn [mallocs]; [by exists m|].
  destruct (malloc_cases m) as [(o & -> & Ho)|(o & -> & Ho)]; [|done]. destruct (IH (mkMem o (m_live m + 1))) as (m' & -> & Hm'); [by apply Ho|]. by exists m'.
Qed.

(** Without a new chunk. *)
Lemma outcome_room m len n sp : (sp <= n)%nat -> chunks (len + sp) = chunks len ->
  write_outcome m len n = let '(ok, k, m') := write_outcome m (len + sp) (n - sp) in (ok, (sp + k)%nat, m').
Proof.
  intros Hsp Hc. unfold write_outcome. replace (len + sp + (n - sp))%nat with (len + n)%nat by lia. rewrite Hc.
  destruct (mallocs _ m) as [got m']. destruct (Nat.eqb_spec got (chunks (len + n) - chunks len)); f_equal; f_equal; [lia|].
  destruct (chunks_spec (len + sp)) as (r & _ & Hr). rewrite Hc in Hr. change CS with 1016%nat in *. lia.
Qed.

(** With a new chunk. *)
Lemma outcome_chunk m len n sp : (sp <= n)%nat -> chunks (len + sp) = S (chunks len) ->
  write_outcome m len n =
  let '(ok, m1) := malloc m in
  if ok then let '(ok, k, m') := write_outcome m1 (len + sp) (n - sp) in (ok, (sp + k)%nat, m')
  else (false, (CS * chunks len - len)%nat, m1).
Proof.
  intros Hsp Hc. unfold write_outcome. replace (len + sp + (n - sp))%nat with (len + n)%nat by lia. rewrite Hc.
  pose proof (chunks_le (len + sp) (len + n) ltac:(lia)) as Hle.
  replace (chunks (len + n) - chunks len)%nat with (S (chunks (len + n) - S (chunks len))) by lia. cbn [mallocs].
  destruct (malloc m) as [[] m1]; [|cbn; by rewrite Nat.add_0_r].
  destruct (mallocs _ m1) as [got m']. cbn [Nat.eqb]. destruct (Nat.eqb_spec got (chunks (len + n) - S (chunks len))); f_equal; f_equal; [lia|].
  destruct (chunks_spec (len + sp)) as (r & _ & Hr). rewrite Hc in Hr. change CS with 1016%nat in *. lia.
Qed.

(** The next [n] bytes go into the last chunk, or into a new one if that is full. *)
Lemma chunks_step len n : (0 < n)%nat -> (len mod CS + n <= CS)%nat ->
  chunks (len + n) = if (len mod CS =? 0)%nat then S (chunks len) else chunks len.
Proof.
  intros Hn Hfit. destruct (chunks_spec (len + n)) as (r & Hr & Hc), (chunks_spec len) as (r' & Hr' & Hc').
  change CS with 1016%nat in *. pose proof (Nat.div_mod_eq len 1016). pose proof (Nat.mod_upper_bound len 1016 ltac:(done)).
  destruct (Nat.eqb_spec (len mod 1016) 0); lia.
Qed.

Lemma write_loop_spec : forall fuel m p content stale data, journal_ok p content stale -> (length data < fuel)%nat ->
  let '(ok, n, m') := write_outcome m (length content) (length data) in
  exists p', write_loop fuel m p data = Some (if ok then SQLITE_OK else SQLITE_IOERR_NOMEM, p', m') /\ journal_ok p' (content ++ take n data) stale.
Proof.
  induction fuel as [|f IH]; intros m p content stale data Hok Hf; [lia|]. cbn [write_loop].
  destruct (Z.ltb_spec 0 (Z.of_nat (length data))) as [Hpos|Hz].
  2:{ destruct data; [|simpl in Hz; lia]. unfold write_outcome. cbn [length]. rewrite Nat.add_0_r, Nat.sub_diag. cbn. exists p. by rewrite app_nil_r. }
  pose proof (jo_end _ _ _ Hok) as Hend. set (off := iOffset (endpoint p) mod JOURNAL_CHUNKSIZE).
  assert (0 <= off < JOURNAL_CHUNKSIZE) as Hoff by (apply Z.mod_pos_bound; done).
  assert (length content mod CS = Z.to_nat off)%nat as Hoffn.
  { apply Nat2Z.inj. rewrite Nat2Z.inj_mod, Z2Nat.id by lia. unfold off. rewrite Hend. symmetry. apply Z2Nat.id. rewrite <- Hend. fold off. lia. }
  set (sp := Z.min (Z.of_nat (length data)) (JOURNAL_CHUNKSIZE - off)).
  assert (0 < sp <= Z.of_nat (length data) /\ off + sp <= JOURNAL_CHUNKSIZE) as Hsp by lia.
  assert (length (take (Z.to_nat sp) data) = Z.to_nat sp) as Htl by (rewrite length_take; lia).
  pose proof (chunks_step (length content) (Z.to_nat sp) ltac:(lia) ltac:(rewrite Hoffn; pose proof CS_val; lia)) as Hstep. rewrite Hoffn in Hstep.
  (* what happens once the last chunk has room *)
  assert (forall m1 p1 ids img, open_chunk p1 content stale ids img ->
    let '(ok, n, m') := write_outcome m1 (length content + Z.to_nat sp) (length data - Z.to_nat sp) in
    exists p', (c ← pChunk (endpoint p1); ch ← heap p1 !! c; z ← put_bytes (zChunk ch) off (take (Z.to_nat sp) data);
       write_loop f m1 (mkMemJournal (<[c := mkFileChunk (pNext ch) z]> (heap p1)) (pFirst p1)
          (mkFilePoint (iOffset (endpoint p1) + sp) (Some c)) (readpoint p1)) (drop (Z.to_nat sp) data)) =
        Some (if ok then SQLITE_OK else SQLITE_IOERR_NOMEM, p', m') /\
      journal_ok p' (content ++ take (Z.to_nat sp + n) data) stale) as Hgo.
  { intros m1 p1 ids img Hoc. destruct (store_spec p1 content stale ids img (take (Z.to_nat sp) data) Hoc) as (c & ch & z & -> & Hch & Hput & Hok').
    { intros E. rewrite E in Htl. simpl in Htl. lia. }
    { rewrite Htl, Hoffn. pose proof CS_val. lia. }
    cbn [mbind option_bind]. rewrite Hch. cbn [mbind option_bind].
    rewrite (oc_end _ _ _ _ _ Hoc), <- Hend in Hput. fold off in Hput. rewrite Hput. cbn [mbind option_bind].
    rewrite Htl, Z2Nat.id in Hok' by lia.
    specialize (IH m1 _ _ stale (drop (Z.to_nat sp) data) Hok' ltac:(rewrite length_drop; lia)). rewrite length_drop, length_app, Htl in IH.
    destruct (write_outcome m1 _ _) as [[ok n] m']. destruct IH as (p' & Hw & Hj). exists p'. split; [done|]. by rewrite <- app_assoc, take_take_drop in Hj. }
  destruct (Z.eqb_spec off 0) as [Hz|Hnz].
  - rewrite (proj2 (Nat.eqb_eq (Z.to_nat off) 0)) in Hstep by lia. rewrite (outcome_chunk m (length content) (length data) (Z.to_nat sp) ltac:(lia) Hstep).
    destruct (malloc m) as [[] m1]; cbn [negb].
    + destruct (extend_spec p content stale Hok Hz) as (p1 & ids & img & -> & Hoc). cbn [mbind option_bind]. specialize (Hgo m1 p1 ids img Hoc).
      by destruct (write_outcome m1 _ _) as [[ok n] m'].
    + exists p. split; [done|]. replace (CS * chunks (length content) - length content)%nat with 0%nat; [by rewrite app_nil_r|].
      destruct (chunks_spec (length content)) as (r & Hr & Hc). change CS with 1016%nat in *.
      pose proof (Nat.div_mod_eq (length content) 1016). lia.
  - rewrite (proj2 (Nat.eqb_neq (Z.to_nat off) 0)) in Hstep by lia. rewrite (outcome_room m (length content) (length data) (Z.to_nat sp) ltac:(lia) Hstep).
    cbn [negb mbind option_bind]. destruct Hok as [(ids & img & Hl & [rest Himg] & Hf0 & He & Hfew & Hc) _].
    assert (open_chunk p content stale ids img) as Hoc.
    { constructor; try done; [by exists rest|].
      pose proof (lk_size _ _ _ Hl) as Hs. rewrite Himg, length_app in Hs.
      assert (length content mod CS <> 0)%nat as Hmod by lia. clear -Hs Hfew Hmod.
      generalize dependent (length rest). generalize dependent (length ids). generalize dependent (length content).
      change CS with 1016%nat. intros n Hmod k Hfew r Hs.
      pose proof (Nat.div_mod n 1016 ltac:(done)) as Hdm. pose proof (Nat.mod_upper_bound n 1016 ltac:(done)) as Hub.
      generalize dependent (n mod 1016)%nat. generalize dependent (n / 1016)%nat. lia. }
    specialize (Hgo m p ids img Hoc). by destruct (write_outcome m _ _) as [[ok n] m'].
Qed.

(** ** Truncation *)

Lemma free_loop_spec : forall ids fuel m h, NoDup ids -> dom h = list_to_set ids ->
  (forall j k, ids !! j = Some k -> exists ch, h !! k = Some ch /\ pNext ch = ids !! S j) -> (length ids < fuel)%nat ->
  free_loop fuel m h (head ids) = Some (∅, Nat.iter (length ids) mfree m).
Proof.
  induction ids as [|k ids IH]; intros fuel m h Hnd Hdom Hch Hf; (destruct fuel as [|f]; [simpl in Hf; lia|]); cbn [head free_loop].
  - apply dom_empty_inv_L in Hdom as ->. done.
  - destruct (Hch 0%nat k eq_refl) as (ch & Hk & Hn). rewrite Hk. cbn [mbind option_bind]. rewrite Hn.
    apply NoDup_cons in Hnd as [Hnin Hnd]. change ((k :: ids) !! 1%nat) with (ids !! 0%nat). rewrite <- head_lookup.
    rewrite (IH f (mfree m) (delete k h) Hnd); [cbn [length]; by rewrite Nat.iter_succ_r| | |simpl in Hf; lia].
    + rewrite dom_delete_L, Hdom. cbn [list_to_set]. assert (k ∉ (list_to_set ids : gset positive)) by (by rewrite elem_of_list_to_set). set_solver.
    + intros j k' Hj. destruct (Hch (S j) k' Hj) as (ch' & Hk' & Hn'). exists ch'. split; [|done].
      rewrite lookup_delete_ne; [done|]. intros ->. apply Hnin. by eapply list_elem_of_lookup_2.
Qed.

Lemma open_ok : journal_ok (sqlite3MemJournalOpen ∅) [] None.
Proof.
  constructor; [|done]. exists [], []. split.
  { constructor; [apply NoDup_nil_2|done|done|apply dom_empty_L]. }
  split_and!; [by exists []|done|done|cbn [length]; rewrite Nat.mul_0_r; unfold JOURNAL_CHUNKSIZE; lia|by left].
Qed.

Lemma truncate_spec m p content stale : journal_ok p content stale ->
  memjrnlTruncate m p 0 = Some (SQLITE_OK, sqlite3MemJournalOpen ∅, Nat.iter (chunks (length content)) mfree m).
Proof.
  intros [(ids & img & Hl & [rest Himg] & Hf & _ & Hfew & _) _]. unfold memjrnlTruncate. cbn [Z.eqb assert_ mbind option_bind]. rewrite Hf.
  assert (length ids = chunks (length content)) as Hids.
  { pose proof (lk_size _ _ _ Hl) as Hs. rewrite Himg, length_app in Hs. apply (chunks_unique _ _ (length rest)); lia. }
  rewrite (free_loop_spec ids (S (size (heap p))) m (heap p)); [by rewrite Hids|apply Hl|apply Hl| |rewrite (heap_size _ _ _ Hl); lia].
  intros j k Hj. eexists. split; [by apply Hl|done].
Qed.

(** ** The journal as a file *)

(** What reading leaves behind: the end of a file that fills its chunks. *)
Definition next_stale (content : list Z) (e : Z) : option Z :=
  if (e =? Z.of_nat (length content)) && (e mod JOURNAL_CHUNKSIZE =? 0) then Some e else None.

Definition read_allowed (content : list Z) (stale : option Z) (n o : Z) : bool :=
  (0 <? n) && (0 <=? o) && (o + n <=? Z.of_nat (length content)) && ((o =? 0) || negb (bool_decide (stale = Some o))).

Lemma read_spec p content stale n o : journal_ok p content stale -> read_allowed content stale n o = true ->
  exists p', memjrnlRead p n o = Some (SQLITE_OK, take (Z.to_nat n) (drop (Z.to_nat o) content), p') /\
    journal_ok p' content (next_stale content (o + n)).
Proof.
  intros [(ids & img & Hl & [rest Himg] & Hf & He & Hfew & Hc) Hend] Hal. unfold read_allowed in Hal.
  rewrite !andb_true_iff, orb_true_iff, negb_true_iff, bool_decide_eq_false, Z.ltb_lt, !Z.leb_le, Z.eqb_eq in Hal. destruct Hal as [[[Hn Ho] Hle] Hst].
  assert (exists k, n = Z.of_nat k) as [k ->] by (exists (Z.to_nat n); lia). rewrite Nat2Z.id.
  pose proof (lk_size _ _ _ Hl) as Hs. rewrite Himg, length_app in Hs.
  set (q := Z.to_nat (o / JOURNAL_CHUNKSIZE)). set (off := Z.to_nat (o mod JOURNAL_CHUNKSIZE)).
  assert (Z.to_nat o = CS * q + off)%nat as Hdm.
  { unfold q, off. pose proof (Z.div_mod o JOURNAL_CHUNKSIZE ltac:(done)). unfold JOURNAL_CHUNKSIZE in *. change (Z.to_nat 1016) with 1016%nat. lia. }
  assert (off < CS)%nat as Hoff by (unfold off; pose proof (Z.mod_pos_bound o JOURNAL_CHUNKSIZE ltac:(done)); lia).
  assert (q < length ids)%nat as Hq by nia.
  unfold memjrnlRead. rewrite Hend, (proj2 (Z.leb_le _ _)) by done. cbn [assert_ mbind option_bind].
  assert ((if negb (iOffset (readpoint p) =? o) || (o =? 0) then find_chunk (S (size (heap p))) (heap p) (pFirst p) 0 o
    else Some (pChunk (readpoint p))) = Some (ids !! q)) as ->.
  { destruct (negb (iOffset (readpoint p) =? o) || (o =? 0)) eqn:E.
    - rewrite Hf, head_lookup. change 0 with (Z.of_nat (CS * 0)) at 1.
      apply (find_chunk_spec _ _ _ Hl q o Ho eq_refl Hq q); [lia|rewrite (heap_size _ _ _ Hl); lia].
    - apply orb_false_iff in E as [E1 E2]. apply negb_false_iff, Z.eqb_eq in E1. apply Z.eqb_neq in E2.
      f_equal. unfold cursor_ok in Hc. destruct stale as [x|]; [destruct Hc as (_ & Hx & _); destruct Hst as [?|Hst]; congruence|].
      destruct Hc as [?|(_ & Hc & _)]; [lia|]. by rewrite Hc, E1. }
  cbn [mbind option_bind]. replace (o mod JOURNAL_CHUNKSIZE) with (Z.of_nat off) by (unfold off; pose proof (Z.mod_pos_bound o JOURNAL_CHUNKSIZE ltac:(done)); lia).
  rewrite (read_loop_spec _ _ _ Hl) by (first [done|lia|rewrite (heap_size _ _ _ Hl); lia]). cbn [mbind option_bind app].
  rewrite <- Hdm. eexists. split; [do 3 f_equal|].
  - rewrite Himg, drop_app_le by lia. apply take_app_le. rewrite length_drop. lia.
  - constructor; cbn [heap pFirst endpoint readpoint]; [|done]. exists ids, img. split_and!; [done|by exists rest|done|done|done|].
    unfold cursor_ok. cbn [iOffset pChunk].
    assert (Z.to_nat ((o + Z.of_nat k) / JOURNAL_CHUNKSIZE) = (Z.to_nat o + k) / CS)%nat as Heq.
    { rewrite Z2Nat.inj_div by (unfold JOURNAL_CHUNKSIZE; lia). f_equal. lia. }
    assert (o + Z.of_nat k = Z.of_nat (Z.to_nat o + k)) as Heo by lia. unfold next_stale. rewrite Heo.
    replace (Z.of_nat (Z.to_nat o + k) mod JOURNAL_CHUNKSIZE) with (Z.of_nat ((Z.to_nat o + k) mod CS)) by (by rewrite Nat2Z.inj_mod).
    rewrite Heo in Heq. set (e := (Z.to_nat o + k)%nat) in *. assert (e <= length content)%nat as Hel by lia.
    clear -Hs Hfew Heq Hn Hel Ho. assert (0 < e)%nat as He by lia. change CS with 1016%nat in *.
    pose proof (Nat.div_mod_eq e 1016) as Hdm. pose proof (Nat.mod_upper_bound e 1016 ltac:(done)) as Hub.
    destruct (Z.eqb_spec (Z.of_nat e) (Z.of_nat (length content))) as [E1|E1], (Z.eqb_spec (Z.of_nat (e mod 1016)) 0) as [E2|E2]; cbn [andb].
    { split_and!; [lia|done|]. apply lookup_ge_None_2. lia. }
    all: right; split; [lia|]; rewrite Heq; (split; [done|]); destruct (lookup_lt_is_Some_2 ids (e / 1016)%nat) as [c ->]; [|done]; lia.
Qed.

Lemma write_spec m p content stale data : journal_ok p content stale ->
  let '(ok, n, m') := write_outcome m (length content) (length data) in
  exists p', memjrnlWrite m p data (Z.of_nat (length content)) = Some (if ok then SQLITE_OK else SQLITE_IOERR_NOMEM, p', m') /\
    journal_ok p' (content ++ take n data) stale.
Proof.
  intros Hok. unfold memjrnlWrite. rewrite (jo_end _ _ _ Hok), Z.eqb_refl. cbn [assert_ mbind option_bind]. apply write_loop_spec; [done|lia].
Qed.

(** Reading on from a stale position follows a null pointer. *)
Lemma read_stale p content x n : journal_ok p content (Some x) -> memjrnlRead p n x = None.
Proof.
  intros [(ids & img & _ & _ & _ & _ & _ & Hx & Hr & Hp) _]. unfold memjrnlRead. destruct (assert_ _); [|done]. cbn [mbind option_bind].
  rewrite Hr, Z.eqb_refl, (proj2 (Z.eqb_neq x 0)), Hp by lia. done.
Qed.

(** ** Sequences of operations *)

Inductive jop := JWrite (zBuf : list Z) | JRead (iAmt iOfst : Z) | JTruncate | JFileSize.
Inductive jres := RDone | RNoMem | RBytes (l : list Z) | RSize (n : Z).

(** The file methods, called the way the pager calls them: writes append. *)
Definition journal_step (mp : Mem * MemJournal) (o : jop) : option (jres * (Mem * MemJournal)) :=
  let '(m, p) := mp in
  match o with
  | JWrite z => '(rc, p, m) ← memjrnlWrite m p z (snd (memjrnlFileSize p)); Some (if rc =? SQLITE_OK then RDone else RNoMem, (m, p))
  | JRead n o => '(_, l, p) ← memjrnlRead p n o; Some (RBytes l, (m, p))
  | JTruncate => '(_, p, m) ← memjrnlTruncate m p 0; Some (RDone, (m, p))
  | JFileSize => Some (RSize (snd (memjrnlFileSize p)), (m, p))
  end.

(** The specification: a byte sequence in chunks from the allocator, with the offset from
    which reading on is excluded.  A write that runs out of memory keeps the bytes that
    fit the chunks it got. *)
Definition file_step (s : Mem * (list Z * option Z)) (o : jop) : option (jres * (Mem * (list Z * option Z))) :=
  let '(m, (content, stale)) := s in
  match o with
  | JWrite z =>
      let '(ok, n, m) := write_outcome m (length content) (length z) in
      Some (if ok then RDone else RNoMem, (m, (content ++ take n z, stale)))
  | JRead n o =>
      if read_allowed content stale n o
      then Some (RBytes (take (Z.to_nat n) (drop (Z.to_nat o) content)), (m, (content, next_stale content (o + n))))
      else None
  | JTruncate => Some (RDone, (Nat.iter (chunks (length content)) mfree m, ([], None)))
  | JFileSize => Some (RSize (Z.of_nat (length content)), (m, (content, stale)))
  end.

Fixpoint run_ops {S} (step : S -> jop -> option (jres * S)) (s : S) (ops : list jop) : option (list jres * S) :=
  match ops with
  | [] => Some ([], s)
  | o :: ops => '(r, s) ← step s o; '(rs, s) ← run_ops step s ops; Some (r :: rs, s)
  end.

Lemma run_ops_app {S} (step : S -> jop -> option (jres * S)) a b : forall s,
  run_ops step s (a ++ b) = '(ra, s) ← run_ops step s a; '(rb, s) ← run_ops step s b; Some (ra ++ rb, s).
Proof.
  induction a as [|o a IH]; intros s; cbn [app run_ops mbind option_bind]; [by destruct (run_ops step s b) as [[]|]|].
  destruct (step s o) as [[r s1]|]; [|done]. cbn [mbind option_bind]. rewrite IH. destruct (run_ops step s1 a) as [[ra s2]|]; [|done].
  cbn [mbind option_bind]. by destruct (run_ops step s2 b) as [[rb s3]|].
Qed.

Lemma step_refines m p content stale o r m' s' : journal_ok p content stale -> file_step (m, (content, stale)) o = Some (r, (m', s')) ->
  exists p', journal_step (m, p) o = Some (r, (m', p')) /\ journal_ok p' (fst s') (snd s').
Proof.
  intros Hok Hs. destruct o as [z|n o| |]; cbn [file_step journal_step] in *.
  - unfold memjrnlFileSize. cbn [snd]. rewrite (jo_end _ _ _ Hok). pose proof (write_spec m p content stale z Hok) as Hw.
    destruct (write_outcome m _ _) as [[ok n] m1]. injection Hs as <- <- <-. destruct Hw as (p' & -> & Hj). cbn [mbind option_bind].
    exists p'. by destruct ok.
  - destruct (read_allowed content stale n o) eqn:E; [|done]. injection Hs as <- <- <-.
    destruct (read_spec p content stale n o Hok E) as (p' & -> & Hj). cbn [mbind option_bind]. by exists p'.
  - injection Hs as <- <- <-. rewrite (truncate_spec m p content stale Hok). cbn [mbind option_bind]. eexists. split; [done|apply open_ok].
  - injection Hs as <- <- <-. exists p. rewrite <- (jo_end _ _ _ Hok). done.
Qed.

Lemma run_refines ops : forall m p content stale rs m' s', journal_ok p content stale -> run_ops file_step (m, (content, stale)) ops = Some (rs, (m', s')) ->
  exists p', run_ops journal_step (m, p) ops = Some (rs, (m', p')) /\ journal_ok p' (fst s') (snd s').
Proof.
  induction ops as [|o ops IH]; intros m p content stale rs m' s' Hok Hrun; cbn [run_ops] in *.
  - injection Hrun as <- <- <-. by exists p.
  - destruct (file_step _ o) as [[r [m1 [c1 st1]]]|] eqn:E; [|done]. cbn [mbind option_bind] in Hrun.
    destruct (run_ops file_step _ ops) as [[rs1 [m2 s2]]|] eqn:E1; [|done]. injection Hrun as <- <- <-.
    destruct (step_refines m p content stale o r m1 _ Hok E) as (p1 & -> & Hok1). cbn [mbind option_bind fst snd] in *.
    destruct (IH m1 p1 c1 st1 rs1 m2 s2 Hok1 E1) as (p' & -> & Hok'). by exists p'.
Qed.

(** The specification keeps account of the chunks. *)
Lemma iter_mfree_live n m : m_live (Nat.iter n mfree m) = m_live m - Z.of_nat n.
Proof. induction n as [|n IH]; [simpl; lia|]. cbn [Nat.iter nat_rect mfree m_live]. unfold Nat.iter in IH. rewrite IH. lia. Qed.

Lemma outcome_live m len n ok k m' : write_outcome m len n = (ok, k, m') ->
  m_live m' - Z.of_nat (chunks (len + Nat.min k n)) = m_live m - Z.of_nat (chunks len).
Proof.
  unfold write_outcome. pose proof (mallocs_le (chunks (len + n) - chunks len) m) as Hle. destruct (mallocs _ m) as [got m1] eqn:E.
  apply mallocs_live in E. cbn [fst] in Hle. pose proof (chunks_le len (len + n) ltac:(lia)).
  destruct (Nat.eqb_spec got (chunks (len + n) - chunks len)); intros [= <- <- <-].
  - rewrite Nat.min_id. lia.
  - destruct (chunks_spec (len + n)) as (r & Hr & Hc), (chunks_spec len) as (r' & Hr' & Hc').
    replace (chunks (len + _)) with (chunks len + got)%nat; [lia|]. apply (chunks_unique _ _ 0); change CS with 1016%nat in *; lia.
Qed.

Lemma run_live ops : forall m content stale rs m' s', run_ops file_step (m, (content, stale)) ops = Some (rs, (m', s')) ->
  m_live m' - Z.of_nat (chunks (length (fst s'))) = m_live m - Z.of_nat (chunks (length content)).
Proof.
  induction ops as [|o ops IH]; intros m content stale rs m' s' Hrun; cbn [run_ops] in Hrun; [by injection Hrun as <- <- <-|].
  destruct (file_step _ o) as [[r [m1 [c1 st1]]]|] eqn:E; [|done]. cbn [mbind option_bind] in Hrun.
  destruct (run_ops file_step _ ops) as [[rs1 [m2 s2]]|] eqn:E1; [|done]. injection Hrun as <- <- <-. rewrite (IH _ _ _ _ _ _ E1).
  destruct o as [z|n o| |]; cbn [file_step] in E.
  - destruct (write_outcome m _ _) as [[ok n] m3] eqn:Ew. injection E as <- <- <- <-. rewrite length_app, length_take. by eapply outcome_live.
  - destruct (read_allowed _ _ _ _); [|done]. by injection E as <- <- <- <-.
  - injection E as <- <- <- <-. rewrite iter_mfree_live. change (chunks (length [])) with 0%nat. lia.
  - by injection E as <- <- <- <-.
Qed.

Lemma outcome_no_oom m len n : no_oom m -> exists m', write_outcome m len n = (true, n, m') /\ no_oom m'.
Proof.
  intros Hm. unfold write_outcome. destruct (mallocs_all (chunks (len + n) - chunks len) m Hm) as (m' & -> & Hm'). rewrite Nat.eqb_refl. by exists m'.
Qed.

Lemma iter_mfree_next n m : m_next (Nat.iter n mfree m) = m_next m.
Proof. induction n as [|n IH]; [done|]. cbn [Nat.iter nat_rect mfree m_next]. exact IH. Qed.

Lemma run_no_oom ops : forall m s rs s', no_oom m -> run_ops file_step (m, s) ops = Some (rs, s') -> RNoMem ∉ rs.
Proof.
  induction ops as [|o ops IH]; intros m [content stale] rs s' Hm Hrun; cbn [run_ops] in Hrun; [injection Hrun as <- <-; set_solver|].
  destruct (file_step _ o) as [[r [m1 s1]]|] eqn:E; [|done]. cbn [mbind option_bind] in Hrun.
  destruct (run_ops file_step _ ops) as [[rs1 s2]|] eqn:E1; [|done]. injection Hrun as <- <-.
  assert (r <> RNoMem /\ no_oom m1) as [Hr Hm1]; [|specialize (IH _ _ _ _ Hm1 E1); set_solver].
  destruct o as [z|n o| |]; cbn [file_step] in E.
  - destruct (outcome_no_oom m (length content) (length z) Hm) as (m' & Hw & Hm'). rewrite Hw in E. by injection E as <- <- <-.
  - destruct (read_allowed _ _ _ _); [|done]. by injection E as <- <- <-.
  - injection E as <- <- <-. split; [done|]. unfold no_oom. by rewrite iter_mfree_next.
  - by injection E as <- <- <-.
Qed.

(** C18. An in-memory journal behaves as a file, whichever allocations fail: any
    sequence of appends, reads, size queries and truncations on a newly opened journal
    gives the results of the same operations on a byte sequence, through the
    list of chunks and the cached read position.  An append that runs out of memory returns
    SQLITE_IOERR_NOMEM with exactly the bytes stored that fit the chunks
    allocated up to then, one that does not stores all of them, and the
    operations after it go on from there.  Closing the journal frees every chunk.  The reads are
    of at least one byte inside the file, and none resumes where an earlier one met the end
    of a file that filled its last chunk exactly. *)
Theorem memjournal_refines_file ops m rs m' content stale :
  run_ops file_step (m, ([], None)) ops = Some (rs, (m', (content, stale))) ->
  (no_oom m -> RNoMem ∉ rs) /\
  exists p' m'', run_ops journal_step (m, sqlite3MemJournalOpen ∅) ops = Some (rs, (m', p')) /\
    memjrnlFileSize p' = (SQLITE_OK, Z.of_nat (length content)) /\
    memjrnlClose m' p' = Some (SQLITE_OK, sqlite3MemJournalOpen ∅, m'') /\ m_live m'' = m_live m.
Proof.
  intros Hrun. split; [intros Hm; by apply (run_no_oom _ _ _ _ _ Hm Hrun)|]. destruct (run_refines _ _ _ _ _ _ _ _ open_ok Hrun) as (p' & Hj & Hok'). cbn [fst snd] in Hok'.
  eexists p', _. split; [done|]. split; [unfold memjrnlFileSize; by rewrite (jo_end _ _ _ Hok')|].
  unfold memjrnlClose. rewrite (truncate_spec m' p' _ _ Hok'). split; [done|]. rewrite iter_mfree_live.
  pose proof (run_live _ _ _ _ _ _ _ Hrun) as Hlive. cbn [fst] in Hlive. change (chunks (length [])) with 0%nat in Hlive. lia.
Qed.

(** C38. The exclusion is needed: whenever a journal that fills its chunks exactly is
    read to its end and then appended to, the bytes appended are there, but reading on
    from that end follows the null chunk pointer that the read before
    cached. *)
Theorem memjournal_stale_readpoint ops m rs m1 content stale n o z k m2 :
  run_ops file_step (m, ([], None)) ops = Some (rs, (m1, (content, stale))) ->
  Z.of_nat (length content) mod JOURNAL_CHUNKSIZE = 0 -> o + n = Z.of_nat (length content) -> read_allowed content stale n o = true ->
  write_outcome m1 (length content) (length z) = (true, length z, m2) -> 0 < k <= Z.of_nat (length z) ->
  exists l p', run_ops journal_step (m, sqlite3MemJournalOpen ∅) (ops ++ [JRead n o; JWrite z; JFileSize]) =
      Some (rs ++ [RBytes l; RDone; RSize (Z.of_nat (length content + length z))], (m2, p')) /\
    run_ops journal_step (m, sqlite3MemJournalOpen ∅) (ops ++ [JRead n o; JWrite z; JFileSize; JRead k (o + n)]) = None.
Proof.
  intros Hrun Hmod Hend Hal Hw Hk. set (ops' := [JRead n o; JWrite z; JFileSize]).
  assert (exists l, run_ops file_step (m, ([], None)) (ops ++ ops') =
    Some (rs ++ [RBytes l; RDone; RSize (Z.of_nat (length content + length z))], (m2, (content ++ z, Some (o + n))))) as [l Hrun'].
  { eexists. rewrite run_ops_app, Hrun. cbn [mbind option_bind ops' run_ops file_step]. rewrite Hal. cbn [mbind option_bind file_step]. rewrite Hw.
    cbn [mbind option_bind file_step]. rewrite (take_ge z) by done. unfold next_stale. rewrite Hend, Z.eqb_refl, Hmod. cbn. by rewrite length_app. }
  destruct (run_refines _ _ _ _ _ _ _ _ open_ok Hrun') as (p' & Hj & Hok'). exists l, p'. split; [done|].
  replace (ops ++ _) with ((ops ++ ops') ++ [JRead k (o + n)]) by (by rewrite <- app_assoc). rewrite run_ops_app, Hj. cbn [mbind option_bind run_ops journal_step].
  cbn [fst snd] in Hok'. by rewrite (read_stale _ _ _ _ Hok').
Qed.

(** The second write needs two chunks and gets one. *)
Lemma memjournal_refines_file_witness : exists p' m'',
  run_ops journal_step (mkMem [true; true; false] 5, sqlite3MemJournalOpen ∅)
      [JWrite (repeat 1 1015); JWrite (repeat 2 2000); JFileSize; JRead 2 1014; JTruncate; JFileSize] =
    Some ([RDone; RNoMem; RSize 2032; RBytes [1; 2]; RDone; RSize 0], (mkMem [] 5, p')) /\
  memjrnlFileSize p' = (SQLITE_OK, 0) /\
  memjrnlClose (mkMem [] 5) p' = Some (SQLITE_OK, sqlite3MemJournalOpen ∅, m'') /\ m_live m'' = 5.
Proof.
  apply (memjournal_refines_file [JWrite (repeat 1 1015); JWrite (repeat 2 2000); JFileSize; JRead 2 1014; JTruncate; JFileSize] (mkMem [true; true; false] 5) _ (mkMem [] 5) [] None).
  vm_compute. reflexivity.
Defined.

Lemma memjournal_stale_readpoint_witness : exists l p',
  run_ops journal_step (mkMem [] 0, sqlite3MemJournalOpen ∅) [JWrite (repeat 7 1016); JRead 1016 0; JWrite [8]; JFileSize] =
    Some ([RDone; RBytes l; RDone; RSize 1017], (mkMem [] 2, p')) /\
  run_ops journal_step (mkMem [] 0, sqlite3MemJournalOpen ∅) [JWrite (repeat 7 1016); JRead 1016 0; JWrite [8]; JFileSize; JRead 1 1016] = None.
Proof.
  apply (memjournal_stale_readpoint [JWrite (repeat 7 1016)] (mkMem [] 0) [RDone] (mkMem [] 1) (repeat 7 1016) None 1016 0 [8] 1 (mkMem [] 2)).
  - reflexivity.
  - reflexivity.
  - reflexivity.
  - reflexivity.
  - reflexivity.
  - done.
Defined.
