(* ===== verification/Hash.v ===== *)
(** * Hash: the hash table of hash.c

    The elements are records in a heap, linked by pointers into one list in which
    the elements of each bucket are neighbours; freeing an element removes it
    from the heap.  sqlite3MallocSize, which may report more than was asked for,
    is a parameter. *)
From S2P Require Import Prelude Ctype.

(** ** Data *)

Record HashElem := mkHashElem {
  he_next : option positive;
  he_prev : option positive;
  he_data : Z;
  he_key : list Z }.

(** struct _ht *)
Record ht_entry := mkHt { ht_count : Z; ht_chain : option positive }.

Record Hash := mkHash {
  elems : gmap positive HashElem;
  htsize : Z;
  h_count : Z;
  first : option positive;
  ht : option (list ht_entry) }.

Definition SQLITE_MALLOC_SOFT_LIMIT : Z := 1024.
Definition sizeof_ht : Z := 16.

Definition set_next (e : HashElem) (p : option positive) := mkHashElem p (he_prev e) (he_data e) (he_key e).
Definition set_prev (e : HashElem) (p : option positive) := mkHashElem (he_next e) p (he_data e) (he_key e).

(** ** Operations *)

Definition sqlite3HashInit (h : gmap positive HashElem) : Hash := mkHash h 0 0 None None.

Fixpoint clear_loop (fuel : nat) (h : gmap positive HashElem) (elem : option positive) : option (gmap positive HashElem) :=
  match fuel with
  | O => None
  | S f => match elem with
           | None => Some h
           | Some k => e ← h !! k; clear_loop f (delete k h) (he_next e)
           end
  end.

Definition sqlite3HashClear (pH : Hash) : option Hash :=
  h ← clear_loop (S (size (elems pH))) (elems pH) (first pH);
  Some (mkHash h 0 0 None None).

Fixpoint strHash_loop (h : Z) (z : list Z) : Z :=
  match z with
  | [] => h
  | c :: z => strHash_loop (Z.lxor (Z.lxor (u32 (Z.shiftl h 3)) h) (UpperToLower c)) z
  end.
Definition strHash (z : list Z) : Z := strHash_loop 0 z.

(** The links are set: in front of [pHead], or of the whole list. *)
Definition link_element (m : gmap positive HashElem) (fst_ pHead : option positive) (pNew : positive) :
    option (gmap positive HashElem * option positive) :=
  new ← m !! pNew;
  match pHead with
  | Some hd =>
      e ← m !! hd;
      let m := <[pNew := mkHashElem (Some hd) (he_prev e) (he_data new) (he_key new)]> m in
      '(m, fst_) ← match he_prev e with
                   | Some pr => ep ← m !! pr; Some (<[pr := set_next ep (Some pNew)]> m, fst_)
                   | None => Some (m, Some pNew)
                   end;
      e ← m !! hd;
      Some (<[hd := set_prev e (Some pNew)]> m, fst_)
  | None =>
      let m := <[pNew := set_next new fst_]> m in
      m ← match fst_ with
          | Some f => e ← m !! f; Some (<[f := set_prev e (Some pNew)]> m)
          | None => Some m
          end;
      new ← m !! pNew;
      Some (<[pNew := set_prev new None]> m, Some pNew)
  end.

Definition insertElement (pH : Hash) (pEntry : option Z) (pNew : positive) : option Hash :=
  '(t, pHead) ← match pEntry with
                | Some h =>
                    l ← ht pH;
                    e ← aget l h;
                    c ← cint (ht_count e + 1);
                    l ← aset l h (mkHt c (Some pNew));
                    Some (Some l, if negb (ht_count e =? 0) then ht_chain e else None)
                | None => Some (ht pH, None)
                end;
  '(m, fst_) ← link_element (elems pH) (first pH) pHead pNew;
  Some (mkHash m (htsize pH) (h_count pH) fst_ t).

(** The loop that links the old elements into the new buckets. *)
Fixpoint rehash_loop (fuel : nat) (pH : Hash) (elem : option positive) : option Hash :=
  match fuel with
  | O => None
  | S f =>
      match elem with
      | None => Some pH
      | Some k =>
          e ← elems pH !! k;
          let h := strHash (he_key e) mod htsize pH in
          pH ← insertElement pH (Some h) k;
          rehash_loop f pH (he_next e)
      end
  end.

Section Table.
(** sqlite3MallocSize of the memory obtained for a request. *)
Variable sqlite3MallocSize : Z -> Z.

Definition rehash (m : Mem) (pH : Hash) (new_size : Z) : option (bool * Hash * Mem) :=
  let new_size := if SQLITE_MALLOC_SOFT_LIMIT <? new_size * sizeof_ht then SQLITE_MALLOC_SOFT_LIMIT / sizeof_ht else new_size in
  if new_size =? htsize pH then Some (false, pH, m)
  else
    let '(ok, m) := malloc m in
    if negb ok then Some (false, pH, m)
    else
      let new_size := u32 (sqlite3MallocSize (new_size * sizeof_ht) / sizeof_ht) in
      pH ← rehash_loop (S (size (elems pH)))
             (mkHash (elems pH) new_size (h_count pH) None (Some (replicate (Z.to_nat new_size) (mkHt 0 None)))) (first pH);
      Some (true, pH, m).

(** while( count-- && ALWAYS(elem) ){ ... } *)
Fixpoint find_loop (count : nat) (m : gmap positive HashElem) (elem : option positive) (pKey : list Z) : option (option positive) :=
  match count with
  | O => Some None
  | S c =>
      match elem with
      | None => Some None
      | Some k =>
          e ← m !! k;
          r ← (if Z.of_nat (length (he_key e)) =? Z.of_nat (length pKey) then
                 sqlite3_strnicmp (length pKey) (he_key e) pKey
               else Some 1);
          if r =? 0 then Some (Some k) else find_loop c m (he_next e) pKey
      end
  end.

Definition findElementGivenHash (pH : Hash) (pKey : list Z) (h : Z) : option (option positive) :=
  match ht pH with
  | Some l => e ← aget l h; find_loop (Z.to_nat (ht_count e)) (elems pH) (ht_chain e) pKey
  | None => find_loop (Z.to_nat (h_count pH)) (elems pH) (first pH) pKey
  end.

(** The links around the element. *)
Definition unlink_element (m : gmap positive HashElem) (f : option positive) (e : HashElem) : option (gmap positive HashElem * option positive) :=
  '(m, f) ← match he_prev e with
            | Some pr => ep ← m !! pr; Some (<[pr := set_next ep (he_next e)]> m, f)
            | None => Some (m, he_next e)
            end;
  m ← match he_next e with
      | Some nx => en ← m !! nx; Some (<[nx := set_prev en (he_prev e)]> m)
      | None => Some m
      end;
  Some (m, f).

(** The bucket the element leaves. *)
Definition unhash_element (t : option (list ht_entry)) (elem : positive) (next : option positive) (h : Z) : option (option (list ht_entry)) :=
  match t with
  | Some l =>
      pEntry ← aget l h;
      let chain := if bool_decide (ht_chain pEntry = Some elem) then next else ht_chain pEntry in
      _ ← assert_ (0 <=? ht_count pEntry - 1);
      l ← aset l h (mkHt (ht_count pEntry - 1) chain);
      Some (Some l)
  | None => Some None
  end.

Definition removeElementGivenHash (pH : Hash) (elem : positive) (h : Z) : option Hash :=
  e ← elems pH !! elem;
  '(m, fst_) ← unlink_element (elems pH) (first pH) e;
  t ← unhash_element (ht pH) elem (he_next e) h;
  let pH := mkHash (delete elem m) (htsize pH) (u32 (h_count pH - 1)) fst_ t in
  if h_count pH =? 0 then
    _ ← assert_ (match first pH with None => true | Some _ => false end);
    sqlite3HashClear pH
  else Some pH.

Definition bucket (pH : Hash) (pKey : list Z) : Z := if negb (htsize pH =? 0) then strHash pKey mod htsize pH else 0.

(** The data found; 0 is the null pointer. *)
Definition sqlite3HashFind (pH : Hash) (pKey : list Z) : option Z :=
  let h := match ht pH with Some _ => strHash pKey mod htsize pH | None => 0 end in
  elem ← findElementGivenHash pH pKey h;
  match elem with
  | Some k => e ← elems pH !! k; Some (he_data e)
  | None => Some 0
  end.

Definition sqlite3HashInsert (m : Mem) (pH : Hash) (pKey : list Z) (data : Z) : option (Z * Hash * Mem) :=
  let h := bucket pH pKey in
  elem ← findElementGivenHash pH pKey h;
  match elem with
  | Some k =>
      e ← elems pH !! k;
      let old_data := he_data e in
      if data =? 0 then pH ← removeElementGivenHash pH k h; Some (old_data, pH, m)
      else
        _ ← assert_ (Z.of_nat (length pKey) =? Z.of_nat (length (he_key e)));
        Some (old_data, mkHash (<[k := mkHashElem (he_next e) (he_prev e) data pKey]> (elems pH)) (htsize pH) (h_count pH) (first pH) (ht pH), m)
  | None =>
      if data =? 0 then Some (0, pH, m)
      else
        let '(ok, m) := malloc m in
        if negb ok then Some (data, pH, m)
        else
          let k := fresh (dom (elems pH)) in
          let pH := mkHash (<[k := mkHashElem None None data pKey]> (elems pH)) (htsize pH) (u32 (h_count pH + 1)) (first pH) (ht pH) in
          '(h, pH, m) ← (if (10 <=? h_count pH) && (u32 (2 * htsize pH) <? h_count pH) then
                           '(done_, pH, m) ← rehash m pH (u32 (h_count pH * 2));
                           if (done_ : bool) then _ ← assert_ (0 <? htsize pH); Some (strHash pKey mod htsize pH, pH, m)
                           else Some (h, pH, m)
                         else Some (h, pH, m));
          pH ← (match ht pH with Some _ => insertElement pH (Some h) k | None => insertElement pH None k end);
          Some (0, pH, m)
  end.
End Table.

(** The idiom for looping over the elements. *)
Definition sqliteHashFirst (pH : Hash) : option positive := first pH.
Definition sqliteHashNext (e : HashElem) : option positive := he_next e.
Definition sqliteHashData (e : HashElem) : Z := he_data e.

Fixpoint walk_loop (fuel : nat) (m : gmap positive HashElem) (p : option positive) : option (list Z) :=
  match fuel with
  | O => None
  | S f => match p with
           | None => Some []
           | Some k => e ← m !! k; rest ← walk_loop f m (sqliteHashNext e); Some (sqliteHashData e :: rest)
           end
  end.

Definition hash_walk (pH : Hash) : option (list Z) := walk_loop (S (size (elems pH))) (elems pH) (sqliteHashFirst pH).

(** The operations on a table, with the values each returns. *)
Inductive hop := HFind (key : list Z) | HInsert (key : list Z) (data : Z) | HClear | HWalk.

Definition hash_op (msize : Z -> Z) (m : Mem) (pH : Hash) (o : hop) : option (list Z * Hash * Mem) :=
  match o with
  | HFind key => r ← sqlite3HashFind pH key; Some ([r], pH, m)
  | HInsert key data => '(r, pH, m) ← sqlite3HashInsert msize m pH key data; Some ([r], pH, m)
  | HClear => pH ← sqlite3HashClear pH; Some ([], pH, m)
  | HWalk => rs ← hash_walk pH; Some (rs, pH, m)
  end.

Fixpoint run_hash (msize : Z -> Z) (m : Mem) (pH : Hash) (ops : list hop) : option (list (list Z) * Hash * Mem) :=
  match ops with
  | [] => Some ([], pH, m)
  | o :: ops => '(r, pH, m) ← hash_op msize m pH o; '(rs, pH, m) ← run_hash msize m pH ops; Some (r :: rs, pH, m)
  end.

(** ** Linked segments *)

(** An element of the table: where it is, its key and its data. *)
Abbreviation ent := (positive * (list Z * Z))%type.

Definition head_id (l : list ent) (n : option positive) : option positive := match l with [] => n | x :: _ => Some (fst x) end.
Fixpoint last_id (p : option positive) (l : list ent) : option positive := match l with [] => p | x :: l => last_id (Some (fst x)) l end.

(** The elements [l] in the heap, between [p] and [n]. *)
Fixpoint dseg (m : gmap positive HashElem) (p : option positive) (l : list ent) (n : option positive) : Prop :=
  match l with
  | [] => True
  | x :: l => m !! fst x = Some (mkHashElem (head_id l n) p (snd (snd x)) (fst (snd x))) /\ dseg m (Some (fst x)) l n
  end.

Abbreviation ids l := (map fst (l : list ent)).

Lemma head_id_app a b n : head_id (a ++ b) n = head_id a (head_id b n).
Proof. by destruct a. Qed.

Lemma last_id_snoc p l x : last_id p (l ++ [x]) = Some (fst x).
Proof. revert p. induction l as [|y l IH]; intros p; [done|apply IH]. Qed.

Lemma dseg_app m a : forall p b n, dseg m p (a ++ b) n <-> dseg m p a (head_id b n) /\ dseg m (last_id p a) b n.
Proof.
  induction a as [|x a IH]; intros p b n; cbn [app dseg last_id]; [tauto|]. rewrite IH, head_id_app. tauto.
Qed.

Lemma dseg_frame m m' p l n : (forall k, k ∈ ids l -> m' !! k = m !! k) -> dseg m p l n -> dseg m' p l n.
Proof.
  revert p. induction l as [|x l IH]; intros p Hk Hd; [done|]. destruct Hd as [Hx Hd]. split.
  - rewrite Hk; [done|]. cbn. set_solver.
  - apply IH; [|done]. intros k Hin. apply Hk. cbn. set_solver.
Qed.

Lemma dseg_lookup m l : forall p n x, dseg m p l n -> x ∈ l -> exists nx pv, m !! fst x = Some (mkHashElem nx pv (snd (snd x)) (fst (snd x))).
Proof.
  induction l as [|y l IH]; intros p n x Hd Hin; [by apply not_elem_of_nil in Hin|]. destruct Hd as [Hy Hd].
  apply elem_of_cons in Hin as [->|Hin]; [by eexists _, _|by eapply IH].
Qed.

(** Redirecting the two ends of a segment. *)
Lemma dseg_set_next m m' p pre n n' :
  dseg m p pre n -> NoDup (ids pre) ->
  (forall pr e, last_id None pre = Some pr -> m !! pr = Some e -> m' !! pr = Some (set_next e n')) ->
  (forall k, k ∈ ids pre -> last_id None pre <> Some k -> m' !! k = m !! k) ->
  dseg m' p pre n'.
Proof.
  intros Hpre Hnd Hpr Hother. destruct pre as [|y pre _] using rev_ind; [done|].
  apply dseg_app in Hpre as [Hpre [Hy _]]. rewrite last_id_snoc in *. rewrite map_app in Hnd, Hother. cbn [map] in *.
  apply NoDup_app in Hnd as (_ & Hnot & _). apply dseg_app. split.
  - eapply dseg_frame; [|exact Hpre]. intros k Hk. specialize (Hnot k Hk). apply Hother; [set_solver|intros [= <-]; set_solver].
  - split; [exact (Hpr _ _ eq_refl Hy)|done].
Qed.

Lemma dseg_set_prev m m' p p' post n :
  dseg m p post n -> NoDup (ids post) ->
  (forall nx e, head_id post None = Some nx -> m !! nx = Some e -> m' !! nx = Some (set_prev e p')) ->
  (forall k, k ∈ ids post -> head_id post None <> Some k -> m' !! k = m !! k) ->
  dseg m' p' post n.
Proof.
  intros Hpost Hnd Hnx Hother. destruct post as [|z post]; [done|]. destruct Hpost as [Hz Hpost]. split.
  - exact (Hnx _ _ eq_refl Hz).
  - cbn [map] in *. apply NoDup_cons in Hnd as [Hz1 Hnd]. eapply dseg_frame; [|exact Hpost].
    intros k Hk. apply Hother; [set_solver|cbn; intros [= <-]; set_solver].
Qed.

Lemma last_id_elem l : forall p k, last_id p l = Some k -> l <> [] -> k ∈ ids l.
Proof.
  induction l as [|x l IH] using rev_ind; intros p k Hl Hne; [done|]. rewrite last_id_snoc in Hl. injection Hl as <-.
  rewrite map_app. set_solver.
Qed.

Lemma last_id_None_elem l k : last_id None l = Some k -> k ∈ ids l.
Proof. intros Hl. eapply last_id_elem; [exact Hl|]. by intros ->. Qed.

Lemma head_id_elem l k : head_id l None = Some k -> k ∈ ids l.
Proof. destruct l as [|x l]; [done|]. intros [= <-]. cbn. set_solver. Qed.

Lemma last_id_None_nil l : last_id None l = None -> l = [].
Proof. destruct l as [|y l _] using rev_ind; [done|]. by rewrite last_id_snoc. Qed.

(** The two halves of a list, redirected. *)
Lemma dseg_redirect m m' pre post n n' p p' :
  NoDup (ids (pre ++ post)) -> dseg m None pre n -> dseg m p post None ->
  (forall pr e, last_id None pre = Some pr -> m !! pr = Some e -> m' !! pr = Some (set_next e n')) ->
  (forall nx e, head_id post None = Some nx -> m !! nx = Some e -> m' !! nx = Some (set_prev e p')) ->
  (forall k, k ∈ ids (pre ++ post) -> last_id None pre <> Some k -> head_id post None <> Some k -> m' !! k = m !! k) ->
  dseg m' None pre n' /\ dseg m' p' post None.
Proof.
  rewrite map_app. intros (Hnd1 & Hdis & Hnd2)%NoDup_app Hpre Hpost Hpr Hnx Hother. split.
  - eapply dseg_set_next; [done..|]. intros k Hk Hl. apply Hother; [set_solver|done|]. intros Hh%head_id_elem. by eapply Hdis.
  - eapply dseg_set_prev; [done..|]. intros k Hk Hl. apply Hother; [set_solver| |done]. intros Hh%last_id_None_elem. by eapply Hdis.
Qed.

Lemma NoDup_ids_insert pre post (x : ent) : NoDup (ids (pre ++ x :: post)) <-> (fst x ∉ ids (pre ++ post)) /\ NoDup (ids (pre ++ post)).
Proof. rewrite !map_app. cbn [map]. rewrite <- (Permutation_middle (map fst pre)), NoDup_cons. done. Qed.

(** Linking an element in front of [post]. *)
Lemma dseg_link m m' pre post x :
  NoDup (ids (pre ++ x :: post)) -> dseg m None (pre ++ post) None ->
  m' !! fst x = Some (mkHashElem (head_id post None) (last_id None pre) (snd (snd x)) (fst (snd x))) ->
  (forall pr e, last_id None pre = Some pr -> m !! pr = Some e -> m' !! pr = Some (set_next e (Some (fst x)))) ->
  (forall nx e, head_id post None = Some nx -> m !! nx = Some e -> m' !! nx = Some (set_prev e (Some (fst x)))) ->
  (forall k, k <> fst x -> last_id None pre <> Some k -> head_id post None <> Some k -> m' !! k = m !! k) ->
  dseg m' None (pre ++ x :: post) None.
Proof.
  intros [Hx0 Hnd]%NoDup_ids_insert Hd Hx Hpr Hnx Hother. apply dseg_app in Hd as [Hpre Hpost]. apply dseg_app. cbn [head_id dseg].
  enough (dseg m' None pre (Some (fst x)) /\ dseg m' (Some (fst x)) post None) by tauto.
  eapply dseg_redirect; [done..|]. intros k Hk. apply Hother. by intros ->.
Qed.

(** Unlinking an element. *)
Lemma dseg_unlink m m' pre post x :
  NoDup (ids (pre ++ x :: post)) -> dseg m None (pre ++ x :: post) None ->
  (forall pr e, last_id None pre = Some pr -> m !! pr = Some e -> m' !! pr = Some (set_next e (head_id post None))) ->
  (forall nx e, head_id post None = Some nx -> m !! nx = Some e -> m' !! nx = Some (set_prev e (last_id None pre))) ->
  (forall k, k <> fst x -> last_id None pre <> Some k -> head_id post None <> Some k -> m' !! k = m !! k) ->
  dseg m' None (pre ++ post) None.
Proof.
  intros [Hx0 Hnd]%NoDup_ids_insert Hd Hpr Hnx Hother. apply dseg_app in Hd as [Hpre [Hx Hpost]]. apply dseg_app.
  eapply dseg_redirect; [done..|]. intros k Hk. apply Hother. by intros ->.
Qed.

(** ** Buckets *)

Definition ent_hash (sz : Z) (x : ent) : Z := strHash (fst (snd x)) mod sz.

(** Bucket [h]: the elements hashing to [h] are neighbours in the list. *)
Definition slot_ok (sz : Z) (l : list ent) (h : Z) (e : ht_entry) : Prop :=
  exists pre seg post, l = pre ++ seg ++ post /\
    ht_count e = Z.of_nat (length seg) /\ (seg <> [] -> ht_chain e = head_id seg None) /\
    Forall (fun x => ent_hash sz x = h) seg /\ Forall (fun x => ent_hash sz x <> h) (pre ++ post).

Definition table_ok (sz : Z) (t : option (list ht_entry)) (l : list ent) : Prop :=
  match t with
  | None => sz = 0
  | Some b => 0 < sz /\ Z.of_nat (length b) = sz /\ forall h e, aget b h = Some e -> slot_ok sz l h e
  end.

(** A new element goes in front of the list or of another bucket. *)
Lemma slot_ok_link sz pre post x h e :
  slot_ok sz (pre ++ post) h e -> ent_hash sz x <> h ->
  (pre = [] \/ exists z post', post = z :: post' /\ ent_hash sz z <> h) ->
  slot_ok sz (pre ++ x :: post) h e.
Proof.
  intros (a & seg & b & Hl & Hc & Hch & Hin & Hout) Hx Hp. apply Forall_app in Hout as [Ha Hb].
  assert (exists a' b', pre ++ x :: post = a' ++ seg ++ b' /\ Forall (fun x => ent_hash sz x <> h) (a' ++ b')) as (a' & b' & Hl' & Hout).
  { destruct Hp as [->|(z & post' & -> & Hz)].
    { exists (x :: a), b. cbn in *. subst. split; [done|]. constructor; [done|]. by apply Forall_app. }
    apply app_eq_inv in Hl as [(k & -> & Hk)|(k & -> & Hk)].
    - apply app_eq_inv in Hk as [(j & -> & Hj)|(j & -> & Hj)].
      + destruct j as [|w j].
        * cbn in Hj. subst b. exists a, (x :: z :: post'). rewrite app_nil_r, <- !app_assoc. split; [done|].
          rewrite !Forall_app, !Forall_cons in *. tauto.
        * injection Hj as <- ->. rewrite !Forall_app, !Forall_cons in Hin. tauto.
      + exists a, (j ++ x :: z :: post'). rewrite <- !app_assoc. split; [done|]. subst b.
        rewrite !Forall_app, !Forall_cons in *. tauto.
    - exists (pre ++ x :: k), b. rewrite <- app_assoc. cbn. rewrite <- Hk. split; [done|].
      rewrite !Forall_app, !Forall_cons in *. tauto. }
  exists a', seg, b'. rewrite Hl'. done.
Qed.

(** The element goes in front of its own bucket. *)
Lemma slot_ok_here sz pre seg post x e h :
  ent_hash sz x = h -> Forall (fun y => ent_hash sz y = h) seg -> Forall (fun y => ent_hash sz y <> h) (pre ++ post) ->
  ht_count e = Z.of_nat (length seg) + 1 -> ht_chain e = Some (fst x) ->
  slot_ok sz (pre ++ x :: seg ++ post) h e.
Proof.
  intros Hx Hs Ho Hc Hch. exists pre, (x :: seg), post. split; [done|]. cbn [length head_id]. split; [lia|]. split; [done|]. by split; [constructor|].
Qed.

(** Taking an element out. *)
Definition drop_id (k : positive) (l : list ent) : list ent := filter (fun x => fst x <> k) l.

Lemma drop_id_notin k l : k ∉ ids l -> drop_id k l = l.
Proof.
  induction l as [|x l IH]; [done|]. cbn [map]. intros [Hx Hl]%not_elem_of_cons. unfold drop_id in *. rewrite filter_cons_True by congruence. by rewrite IH.
Qed.

Lemma drop_id_middle pre post x : NoDup (ids (pre ++ x :: post)) -> drop_id (fst x) (pre ++ x :: post) = pre ++ post.
Proof.
  intros [Hx Hnd]%NoDup_ids_insert. rewrite map_app in Hx. apply not_elem_of_app in Hx as [Hx1 Hx2].
  transitivity (drop_id (fst x) pre ++ drop_id (fst x) post); [|by rewrite !drop_id_notin].
  unfold drop_id. rewrite filter_app, filter_cons_False; [done|]. intros H. by apply H.
Qed.

Lemma Forall_drop_id P k l : Forall P l -> Forall P (drop_id k l).
Proof. intros Hl. unfold drop_id. rewrite Forall_forall in *. intros y [_ Hy]%list_elem_of_filter. auto. Qed.

Lemma drop_id_app k a b : drop_id k (a ++ b) = drop_id k a ++ drop_id k b.
Proof. apply filter_app. Qed.

Lemma slot_ok_unlink sz pre post x h e :
  NoDup (ids (pre ++ x :: post)) -> slot_ok sz (pre ++ x :: post) h e -> ent_hash sz x <> h -> slot_ok sz (pre ++ post) h e.
Proof.
  intros Hnd (a & seg & b & Hl & Hc & Hch & Hin & Hout) Hx. exists (drop_id (fst x) a), seg, (drop_id (fst x) b).
  rewrite <- (drop_id_middle pre post x Hnd), Hl, !drop_id_app. split; [|split; [done|split; [done|split; [done|]]]].
  - f_equal. f_equal. apply drop_id_notin. intros (y & Hy & Hin')%list_elem_of_fmap_1.
    assert (y = x) as ->; [|rewrite Forall_forall in Hin; by apply Hx, Hin].
    assert (y ∈ pre ++ x :: post) as Hy' by (rewrite Hl; set_solver).
    apply NoDup_ids_insert in Hnd as [Hn _]. rewrite elem_of_app, elem_of_cons in Hy'.
    destruct Hy' as [Hy'|[->|Hy']]; [|done|]; destruct Hn; rewrite Hy, map_app, elem_of_app; [left|right]; by apply list_elem_of_fmap_2.
  - apply Forall_app in Hout as [Ha Hb]. apply Forall_app. split; by apply Forall_drop_id.
Qed.

Lemma ids_split_unique (p1 q1 p2 q2 : list ent) x :
  NoDup (ids (p1 ++ x :: q1)) -> p1 ++ x :: q1 = p2 ++ x :: q2 -> p1 = p2 /\ q1 = q2.
Proof.
  revert p2. induction p1 as [|y p1 IH]; intros [|z p2] Hnd Heq; cbn in Heq.
  - by injection Heq.
  - injection Heq as <- ->. cbn in Hnd. apply NoDup_cons in Hnd as [[] _]. rewrite map_app. set_solver.
  - injection Heq as -> <-. cbn in Hnd. apply NoDup_cons in Hnd as [[] _]. rewrite map_app. set_solver.
  - injection Heq as <- Heq. cbn in Hnd. apply NoDup_cons in Hnd as [_ Hnd]. destruct (IH p2 Hnd Heq) as [-> ->]. done.
Qed.

Lemma slot_ok_split sz pre post x h e :
  NoDup (ids (pre ++ x :: post)) -> slot_ok sz (pre ++ x :: post) h e -> ent_hash sz x = h ->
  exists a s1 s2 b, pre = a ++ s1 /\ post = s2 ++ b /\ ht_count e = Z.of_nat (length (s1 ++ x :: s2)) /\
    ht_chain e = head_id (s1 ++ x :: s2) None /\ Forall (fun x => ent_hash sz x = h) (s1 ++ s2) /\ Forall (fun x => ent_hash sz x <> h) (a ++ b).
Proof.
  intros Hnd (a & seg & b & Hl & Hc & Hch & Hin & Hout) Hx.
  assert (x ∈ seg) as (s1 & s2 & ->)%list_elem_of_split.
  { assert (x ∈ a ++ seg ++ b) as Hm by (rewrite <- Hl; set_solver). rewrite !elem_of_app in Hm. rewrite Forall_forall in Hout.
    destruct Hm as [Hm|[Hm|Hm]]; [|done|]; by destruct (Hout x ltac:(set_solver)). }
  exists a, s1, s2, b. rewrite <- app_assoc, app_assoc in Hl. cbn [app] in Hl.
  destruct (ids_split_unique _ _ _ _ _ Hnd Hl) as [-> ->].
  rewrite Forall_app, Forall_cons in Hin. rewrite Forall_app. repeat split; try tauto. apply Hch. by destruct s1.
Qed.

(** The bucket an element is taken out of. *)
Lemma slot_ok_remove sz pre post x h e :
  NoDup (ids (pre ++ x :: post)) -> slot_ok sz (pre ++ x :: post) h e -> ent_hash sz x = h ->
  0 < ht_count e /\
  slot_ok sz (pre ++ post) h (mkHt (ht_count e - 1) (if bool_decide (ht_chain e = Some (fst x)) then head_id post None else ht_chain e)).
Proof.
  intros Hnd Hs Hx. destruct (slot_ok_split _ _ _ _ _ _ Hnd Hs Hx) as (a & s1 & s2 & b & -> & -> & Hc & Hch & Hin & Hout).
  rewrite length_app in Hc. cbn [length] in Hc. split; [lia|]. exists a, (s1 ++ s2), b. rewrite <- !app_assoc. split; [done|].
  rewrite length_app. cbn [ht_count ht_chain]. split; [lia|]. split; [|done]. intros Hne. rewrite Hch. destruct s1 as [|y s1].
  - cbn [app head_id]. rewrite bool_decide_true by done. cbn in Hne. destruct s2; done.
  - cbn [app head_id]. rewrite bool_decide_false; [done|]. intros [= Heq].
    apply NoDup_ids_insert in Hnd as [[] _]. rewrite <- Heq, !map_app. cbn. set_solver.
Qed.

(** ** The list *)

Definition lst_ok (m : gmap positive HashElem) (f : option positive) (l : list ent) : Prop :=
  NoDup (ids l) /\ dseg m None l None /\ f = head_id l None.

Lemma dseg_prev m pre z post : dseg m None (pre ++ z :: post) None ->
  m !! fst z = Some (mkHashElem (head_id post None) (last_id None pre) (snd (snd z)) (fst (snd z))).
Proof. intros [_ [Hz _]]%dseg_app. done. Qed.

Lemma dseg_last m pre post pr : dseg m None (pre ++ post) None -> last_id None pre = Some pr -> exists e, m !! pr = Some e.
Proof.
  intros [Hd _]%dseg_app Hl. apply last_id_None_elem, list_elem_of_fmap_1 in Hl as (y & -> & Hy).
  destruct (dseg_lookup _ _ _ _ _ Hd Hy) as (? & ? & ?). eauto.
Qed.

#[local] Ltac heap_simpl := repeat first [rewrite lookup_insert_eq | rewrite lookup_insert_ne by congruence].

Lemma link_element_spec m f pre post x nx pv :
  lst_ok m f (pre ++ post) -> fst x ∉ ids (pre ++ post) -> m !! fst x = Some (mkHashElem nx pv (snd (snd x)) (fst (snd x))) ->
  forall pHead, (pHead = head_id post None /\ post <> [] \/ pHead = None /\ pre = []) ->
  exists m', link_element m f pHead (fst x) = Some (m', head_id (pre ++ x :: post) None) /\
    lst_ok m' (head_id (pre ++ x :: post) None) (pre ++ x :: post) /\
    dom m' = dom m /\ (forall k, k ∉ ids (pre ++ x :: post) -> m' !! k = m !! k).
Proof.
  intros (Hnd & Hd & Hf) Hx0 Hx pHead Hhd.
  assert (NoDup (ids (pre ++ x :: post))) as Hnd' by by apply NoDup_ids_insert.
  enough (exists m', link_element m f pHead (fst x) = Some (m', head_id (pre ++ x :: post) None) /\
    m' !! fst x = Some (mkHashElem (head_id post None) (last_id None pre) (snd (snd x)) (fst (snd x))) /\
    (forall pr e, last_id None pre = Some pr -> m !! pr = Some e -> m' !! pr = Some (set_next e (Some (fst x)))) /\
    (forall nx e, head_id post None = Some nx -> m !! nx = Some e -> m' !! nx = Some (set_prev e (Some (fst x)))) /\
    (forall k, k <> fst x -> last_id None pre <> Some k -> head_id post None <> Some k -> m' !! k = m !! k) /\ dom m' = dom m)
    as (m' & Hr & H1 & H2 & H3 & H4 & H5).
  { exists m'. split; [done|]. split; [|split; [done|]].
    - split; [done|]. split; [|done]. by eapply dseg_link.
    - intros k Hk. rewrite map_app in Hk. cbn in Hk. apply H4; [set_solver|intros Hl%last_id_None_elem; set_solver|intros Hl%head_id_elem; set_solver]. }
  assert (forall k, k ∈ ids (pre ++ post) -> k <> fst x) as Hne by (intros k Hk ->; done). rewrite map_app in Hne.
  unfold link_element. rewrite Hx. cbn [mbind option_bind he_data he_key]. destruct Hhd as [[-> Hpost]|[-> ->]].
  - destruct post as [|z post]; [done|]. cbn [head_id] in *. pose proof (dseg_prev _ _ _ _ Hd) as Hz. rewrite Hz. cbn [mbind option_bind he_prev].
    assert (fst z <> fst x) as Hzx by (apply Hne; set_solver).
    destruct (last_id None pre) as [pr|] eqn:Hpr.
    + destruct (dseg_last _ _ _ _ Hd Hpr) as [ep Hep]. pose proof (last_id_None_elem _ _ Hpr) as Hprin.
      assert (pr <> fst x) as Hprx by (apply Hne; set_solver).
      assert (pr <> fst z) as Hprz. { intros ->. rewrite map_app in Hnd. apply NoDup_app in Hnd as (_ & Hdis & _). apply (Hdis _ Hprin). set_solver. }
      heap_simpl. rewrite Hep. cbn [mbind option_bind]. heap_simpl. rewrite Hz. cbn [mbind option_bind].
      eexists. split; [do 2 f_equal; rewrite Hf; by destruct pre|]. split; [by heap_simpl|].
      split; [intros pr' e [= <-] He; heap_simpl; congruence|]. split; [intros nx' e [= <-] He; heap_simpl; congruence|].
      split; [intros; by heap_simpl|]. rewrite !dom_insert_lookup_L; [done|..]; heap_simpl; eauto.
    + assert (pre = []) as -> by by apply last_id_None_nil.
      cbn [mbind option_bind]. heap_simpl. rewrite Hz. cbn [mbind option_bind]. eexists. split; [done|]. split; [by heap_simpl|].
      split; [done|]. split; [intros nx' e [= <-] He; heap_simpl; congruence|].
      split; [intros; by heap_simpl|]. rewrite !dom_insert_lookup_L; [done|..]; heap_simpl; eauto.
  - cbn [app last_id] in *. subst f. destruct post as [|z post]; cbn [head_id mbind option_bind] in *.
    + heap_simpl. cbn [mbind option_bind]. eexists. split; [done|]. split; [by heap_simpl|]. split; [done|]. split; [done|].
      split; [intros; by heap_simpl|]. rewrite !dom_insert_lookup_L; [done|..]; heap_simpl; eauto.
    + assert (fst z <> fst x) as Hzx by (apply Hne; set_solver). pose proof (dseg_prev _ [] _ _ Hd) as Hz.
      heap_simpl. rewrite Hz. cbn [mbind option_bind]. heap_simpl. cbn [mbind option_bind]. eexists. split; [done|]. split; [by heap_simpl|].
      split; [done|]. split; [intros nx' e [= <-] He; heap_simpl; congruence|].
      split; [intros; by heap_simpl|]. rewrite !dom_insert_lookup_L; [done|..]; heap_simpl; eauto.
Qed.

Lemma aget_insert {A} (l : list A) i j x : 0 <= i < Z.of_nat (length l) ->
  aget (<[Z.to_nat i := x]> l) j = if decide (i = j) then Some x else aget l j.
Proof. intros Hi. by apply aget_aset, aset_is_Some. Qed.

Definition entry_of (t : option (list ht_entry)) (h : Z) : option Z := match t with Some _ => Some h | None => None end.

Lemma insertElement_spec pH l x nx pv :
  lst_ok (elems pH) (first pH) l -> table_ok (htsize pH) (ht pH) l -> fst x ∉ ids l ->
  elems pH !! fst x = Some (mkHashElem nx pv (snd (snd x)) (fst (snd x))) -> Z.of_nat (length l) < int_max ->
  exists pH' l', insertElement pH (entry_of (ht pH) (ent_hash (htsize pH) x)) (fst x) = Some pH' /\
    l' ≡ₚ x :: l /\ lst_ok (elems pH') (first pH') l' /\ table_ok (htsize pH') (ht pH') l' /\
    htsize pH' = htsize pH /\ h_count pH' = h_count pH /\ dom (elems pH') = dom (elems pH) /\
    (ht pH' = None <-> ht pH = None) /\ forall k, k ∉ ids (x :: l) -> elems pH' !! k = elems pH !! k.
Proof.
  intros Hl Ht Hx0 Hx Hlen. unfold insertElement. destruct (ht pH) as [b|] eqn:Hht; cbn [entry_of mbind option_bind].
  - destruct Ht as (Hsz & Hbl & Hslot). set (h := ent_hash (htsize pH) x).
    assert (0 <= h < htsize pH) as Hh by (apply Z.mod_pos_bound; lia).
    destruct (aget_is_Some b h) as [e He]; [lia|]. rewrite He. cbn [mbind option_bind].
    destruct (Hslot h e He) as (a & seg & c & -> & Hc & Hch & Hin & Hout).
    rewrite cint_ok by (rewrite !length_app in Hlen; unfold int_min; lia). cbn [mbind option_bind].
    rewrite aset_is_Some by lia. cbn [mbind option_bind].
    assert (exists pre post, a ++ seg ++ c = pre ++ post /\ (pre = [] \/ exists z post', post = z :: post' /\ ent_hash (htsize pH) z = h) /\
      ((if negb (ht_count e =? 0) then ht_chain e else None) = head_id post None /\ post <> [] \/ (if negb (ht_count e =? 0) then ht_chain e else None) = None /\ pre = []) /\
      slot_ok (htsize pH) (pre ++ x :: post) h (mkHt (ht_count e + 1) (Some (fst x)))) as (pre & post & Hpp & Hpos & Hhd & Hnew).
    { destruct seg as [|s seg].
      - exists [], (a ++ c). split; [done|]. split; [by left|]. rewrite Hc. split; [by right|].
        apply (slot_ok_here _ [] [] (a ++ c)); cbn [ht_count ht_chain length]; done.
      - exists a, ((s :: seg) ++ c). split; [done|]. split; [right; eexists _, _; split; [done|]; by apply Forall_cons in Hin as [? _]|]. rewrite Hc, Hch by done. split; [by left|].
        apply slot_ok_here; cbn [ht_count ht_chain]; done. }
    rewrite Hpp in *. destruct (link_element_spec _ _ _ _ _ _ _ Hl Hx0 Hx _ Hhd) as (m' & -> & Hl' & Hdom & Hfr). cbn [mbind option_bind].
    eexists _, (pre ++ x :: post). split; [done|]. split; [by rewrite Permutation_middle|]. cbn [elems first htsize ht h_count].
    split; [done|]. split.
    + split; [done|]. split; [by rewrite length_insert|]. intros h' e' He'.
      destruct (decide (h' = h)) as [->|Hne].
      { rewrite aget_insert, decide_True in He' by (done || lia). by injection He' as <-. }
      rewrite aget_insert, decide_False in He' by (done || lia).
      apply slot_ok_link; [by apply Hslot|unfold h in Hne; congruence|].
      destruct Hpos as [->|(z & post' & -> & Hz)]; [by left|]. right. eexists _, _. split; [done|]. congruence.
    + do 3 (split; [done|]). split; [done|]. intros k Hk. apply Hfr. rewrite map_app in *. cbn in *. rewrite map_app in *. set_solver.
  - destruct (link_element_spec _ _ [] l _ _ _ Hl Hx0 Hx None ltac:(by right)) as (m' & -> & Hl' & Hdom & Hfr). cbn [mbind option_bind].
    eexists _, (x :: l). split; [done|]. split; [done|]. cbn [elems first htsize ht h_count]. done.
Qed.

(** ** Rehashing *)

(** The elements still to be moved: only their next pointers matter. *)
Fixpoint sseg (m : gmap positive HashElem) (l : list ent) : Prop :=
  match l with
  | [] => True
  | x :: l => (exists pv, m !! fst x = Some (mkHashElem (head_id l None) pv (snd (snd x)) (fst (snd x)))) /\ sseg m l
  end.

Lemma dseg_sseg m l : forall p, dseg m p l None -> sseg m l.
Proof. induction l as [|x l IH]; intros p Hd; [done|]. destruct Hd as [Hx Hd]. split; [by eexists|by eapply IH]. Qed.

Lemma sseg_frame m m' l : (forall k, k ∈ ids l -> m' !! k = m !! k) -> sseg m l -> sseg m' l.
Proof.
  induction l as [|x l IH]; intros Hk Hs; [done|]. destruct Hs as [[pv Hx] Hs]. split.
  - exists pv. rewrite Hk; [done|]. cbn. set_solver.
  - apply IH; [|done]. intros k Hin. apply Hk. cbn. set_solver.
Qed.

Lemma rehash_loop_spec r : forall fuel pH l b,
  sseg (elems pH) r -> NoDup (ids (r ++ l)) -> lst_ok (elems pH) (first pH) l -> ht pH = Some b -> table_ok (htsize pH) (ht pH) l ->
  Z.of_nat (length (r ++ l)) <= int_max -> (length r < fuel)%nat ->
  exists pH' l', rehash_loop fuel pH (head_id r None) = Some pH' /\ l' ≡ₚ r ++ l /\ lst_ok (elems pH') (first pH') l' /\
    table_ok (htsize pH') (ht pH') l' /\ htsize pH' = htsize pH /\ h_count pH' = h_count pH /\ dom (elems pH') = dom (elems pH) /\
    ht pH' <> None /\ (forall k, k ∉ ids (r ++ l) -> elems pH' !! k = elems pH !! k).
Proof.
  induction r as [|x r IH]; intros fuel pH l b Hs Hnd Hl Hb Ht Hlen Hfuel; (destruct fuel as [|fuel]; [lia|]).
  - exists pH, l. cbn. split; [done|]. do 5 (split; [done|]). split; [done|]. split; [congruence|done].
  - destruct Hs as [[pv Hx] Hs]. cbn [head_id rehash_loop]. rewrite Hx. cbn [mbind option_bind he_key he_next].
    cbn [app map] in Hnd. apply NoDup_cons in Hnd as [Hx0 Hnd]. rewrite map_app in Hx0. cbn [app length] in *. rewrite length_app in Hlen.
    destruct (insertElement_spec pH l x _ _ Hl Ht ltac:(set_solver) Hx ltac:(lia)) as (pH1 & l1 & Hi & Hp & Hl1 & Ht1 & Hsz & Hc & Hdom & Hnone & Hfr).
    rewrite Hb in Hi. cbn [entry_of] in Hi. unfold ent_hash in Hi. rewrite Hi. cbn [mbind option_bind].
    destruct (ht pH1) as [b1|] eqn:Hb1; [|exfalso; by rewrite (proj1 Hnone eq_refl) in Hb].
    destruct (IH fuel pH1 l1 b1) as (pH' & l' & Hr & Hp' & Hl' & Ht' & Hsz' & Hc' & Hdom' & Hne' & Hfr'); [..|lia|].
    + eapply sseg_frame; [|exact Hs]. intros k Hk. apply Hfr. cbn. apply not_elem_of_cons. split; [intros ->; set_solver|].
      rewrite map_app in Hnd. apply NoDup_app in Hnd as (_ & Hdis & _). auto.
    + rewrite Hp, <- Permutation_middle. cbn. rewrite map_app in *. apply NoDup_cons. done.
    + done.
    + done.
    + by rewrite Hb1.
    + rewrite Hp, length_app. cbn. lia.
    + exists pH', l'. split; [done|]. split; [rewrite Hp', Hp; by rewrite <- Permutation_middle|]. do 2 (split; [done|]). split; [congruence|]. split; [congruence|]. split; [congruence|]. split; [done|].
      intros k Hk. cbn [app map] in Hk. rewrite map_app in Hk. rewrite Hfr', Hfr; [done|..].
      * cbn. set_solver.
      * rewrite map_app, Hp. cbn. set_solver.
Qed.

(** ** The invariant *)

Definition fold_key (key : list Z) : list Z := map UpperToLower key.
Abbreviation ent_key := (fun x : ent => fst (snd x)).
Abbreviation ent_data := (fun x : ent => snd (snd x)).
Definition fkey (x : ent) : list Z := fold_key (ent_key x).

(** The table holds the elements [l], in this order. *)
Definition hash_ok (pH : Hash) (l : list ent) : Prop :=
  lst_ok (elems pH) (first pH) l /\ table_ok (htsize pH) (ht pH) l /\ dom (elems pH) = list_to_set (ids l) /\
  h_count pH = Z.of_nat (length l) /\ NoDup (map fkey l) /\ Forall (fun x => cstr (ent_key x) /\ ent_data x <> 0) l.

(** The mapping the elements stand for. *)
Definition to_map (l : list ent) : gmap (list Z) Z := list_to_map (map (fun x => (fkey x, ent_data x)) l).

Lemma to_map_keys l : (map (fun x => (fkey x, ent_data x)) l).*1 = map fkey l.
Proof. induction l as [|x l IH]; [done|]. cbn in *. by rewrite IH. Qed.

Lemma to_map_perm l l' : NoDup (map fkey l) -> l ≡ₚ l' -> to_map l = to_map l'.
Proof. intros Hnd Hp. unfold to_map. apply list_to_map_proper; [by rewrite to_map_keys|]. by rewrite Hp. Qed.

Lemma to_map_middle pre x post : NoDup (map fkey (pre ++ x :: post)) -> to_map (pre ++ x :: post) = <[fkey x := ent_data x]> (to_map (pre ++ post)).
Proof. intros Hnd. rewrite (to_map_perm _ (x :: pre ++ post)); [done|done|by rewrite Permutation_middle]. Qed.

Lemma NoDup_map_insert {A B} (f : A -> B) pre post x : NoDup (map f (pre ++ x :: post)) <-> (f x ∉ map f (pre ++ post)) /\ NoDup (map f (pre ++ post)).
Proof. rewrite !map_app. cbn [map]. rewrite <- (Permutation_middle (map f pre)), NoDup_cons. done. Qed.

Lemma to_map_None l k : to_map l !! k = None <-> k ∉ map fkey l.
Proof. unfold to_map. by rewrite <- not_elem_of_list_to_map, to_map_keys. Qed.

(** ** Finding *)

Lemma strHash_loop_fold a : forall h b, fold_key a = fold_key b -> strHash_loop h a = strHash_loop h b.
Proof. induction a as [|x a IH]; intros h [|y b] H; try done. injection H as Hx H. cbn [strHash_loop]. rewrite Hx. by apply IH. Qed.

Definition found (l : list ent) (key : list Z) (r : option positive) : Prop :=
  match r with
  | Some k => exists x, x ∈ l /\ fst x = k /\ fkey x = fold_key key
  | None => fold_key key ∉ map fkey l
  end.

Lemma find_loop_spec m key seg : forall p rest chain,
  dseg m p (seg ++ rest) None -> Forall (fun x => cstr (ent_key x)) seg -> cstr key -> (seg <> [] -> chain = head_id seg None) ->
  exists r, find_loop (length seg) m chain key = Some r /\ found seg key r.
Proof.
  induction seg as [|x seg IH]; intros p rest chain Hd Hk Hkey Hch.
  - exists None. split; [done|]. cbn. set_solver.
  - rewrite Hch by done. destruct Hd as [Hx Hd]. apply Forall_cons in Hk as [Hxk Hk]. cbn [length find_loop head_id]. rewrite Hx. cbn [mbind option_bind he_key he_next].
    destruct (IH _ rest (head_id (seg ++ rest) None) Hd Hk Hkey) as (r & Hr & Hf). { by destruct seg. }
    assert (exists c, (if Z.of_nat (length (ent_key x)) =? Z.of_nat (length key) then sqlite3_strnicmp (length key) (ent_key x) key else Some 1) = Some c /\
      (c = 0 <-> fkey x = fold_key key)) as (c & -> & Hc).
    { destruct (Z.eqb_spec (Z.of_nat (length (ent_key x))) (Z.of_nat (length key))) as [Hlen|Hlen].
      - apply Nat2Z.inj in Hlen. destruct (strnicmp_spec _ _ [] [] Hxk Hkey Hlen) as (c & Hc & Hiff). rewrite !app_nil_r, Hlen in Hc. eauto.
      - exists 1. split; [done|]. split; [done|]. intros Heq. apply (f_equal length) in Heq. unfold fkey, fold_key in Heq. rewrite !length_map in Heq. lia. }
    cbn [mbind option_bind]. destruct (Z.eqb_spec c 0) as [->|Hne].
    + exists (Some (fst x)). split; [done|]. exists x. split; [set_solver|]. split; [done|]. by apply Hc.
    + rewrite Hr. exists r. split; [done|]. destruct r as [k|].
      * destruct Hf as (y & Hy & ? & ?). exists y. split; [set_solver|done].
      * cbn in *. apply not_elem_of_cons. split; [|done]. intros Heq. apply Hne, Hc. done.
Qed.

Lemma findElement_spec pH l key h :
  hash_ok pH l -> cstr key -> (ht pH <> None -> h = strHash key mod htsize pH) ->
  exists r, findElementGivenHash pH key h = Some r /\ found l key r.
Proof.
  intros ((Hnd & Hd & Hf) & Ht & _ & Hcnt & _ & Hk) Hkey Hh. apply Forall_and in Hk as [Hk _]. unfold findElementGivenHash.
  destruct (ht pH) as [b|].
  - rewrite (Hh ltac:(done)). clear h Hh. set (h := strHash key mod htsize pH). destruct Ht as (Hsz & Hlb & Hslot).
    assert (0 <= h < htsize pH) by (apply Z.mod_pos_bound; lia).
    destruct (aget_is_Some b h) as [e He]; [lia|]. rewrite He. cbn [mbind option_bind].
    destruct (Hslot h e He) as (a & seg & c & -> & Hc & Hch & Hin & Hout). rewrite Hc, Nat2Z.id.
    apply dseg_app in Hd as [_ Hd]. apply Forall_app in Hk as [_ [Hk _]%Forall_app].
    destruct (find_loop_spec _ key seg _ c (ht_chain e) Hd Hk Hkey Hch) as (r & Hr & Hfd). exists r. split; [done|].
    destruct r as [k|].
    + destruct Hfd as (x & Hx & ? & ?). exists x. split; [set_solver|done].
    + cbn in *. rewrite !map_app. rewrite !not_elem_of_app. rewrite Forall_app, !Forall_forall in Hout. destruct Hout as [Ha Hb].
      assert (forall y, fkey y = fold_key key -> ent_hash (htsize pH) y = h) as Hsame.
      { intros y Hy. unfold ent_hash, h, strHash. f_equal. by apply strHash_loop_fold. }
      split; [|split; [done|]]; intros (y & Hy & Hin')%list_elem_of_fmap_1; [apply (Ha y)|apply (Hb y)]; auto.
  - rewrite Hcnt, Nat2Z.id. apply find_loop_spec with (p := None) (rest := []); [by rewrite app_nil_r|done..|by intros _].
Qed.

(** ** Clearing *)

Lemma clear_loop_spec l : forall fuel m, sseg m l -> NoDup (ids l) -> (length l < fuel)%nat ->
  exists m', clear_loop fuel m (head_id l None) = Some m' /\ dom m' = dom m ∖ list_to_set (ids l).
Proof.
  induction l as [|x l IH]; intros fuel m Hs Hnd Hfuel; (destruct fuel as [|fuel]; [lia|]); cbn [head_id clear_loop].
  - exists m. split; [done|]. cbn. set_solver.
  - destruct Hs as [[pv Hx] Hs]. rewrite Hx. cbn [mbind option_bind he_next map length] in *. apply NoDup_cons in Hnd as [Hx0 Hnd].
    destruct (IH fuel (delete (fst x) m)) as (m' & -> & Hdom); [|done|lia|].
    + eapply sseg_frame; [|exact Hs]. intros k Hk. apply lookup_delete_ne. intros <-. done.
    + exists m'. split; [done|]. rewrite Hdom, dom_delete_L. cbn. set_solver.
Qed.

Lemma size_ids pH l : hash_ok pH l -> size (elems pH) = length l.
Proof.
  intros ((Hnd & _) & _ & Hdom & _). rewrite <- size_dom, Hdom, size_list_to_set by done. by rewrite length_map.
Qed.

Lemma hash_ok_empty : hash_ok (mkHash ∅ 0 0 None None) [].
Proof. split; [split; [constructor|done]|]. split; [done|]. split; [done|]. split; [done|]. split; constructor. Qed.

Lemma clear_spec pH l : hash_ok pH l -> sqlite3HashClear pH = Some (mkHash ∅ 0 0 None None).
Proof.
  intros Hok. pose proof (size_ids _ _ Hok) as Hsize. destruct Hok as ((Hnd & Hd & Hf) & _ & Hdom & _). unfold sqlite3HashClear. rewrite Hf.
  destruct (clear_loop_spec l (S (size (elems pH))) (elems pH)) as (m' & -> & Hm'); [by eapply dseg_sseg|done|lia|].
  rewrite Hdom in Hm'. assert (m' = ∅) as -> by (apply dom_empty_iff_L; set_solver). done.
Qed.

(** ** Removing *)

Lemma table_ok_remove sz pre post x h e b :
  NoDup (ids (pre ++ x :: post)) -> table_ok sz (Some b) (pre ++ x :: post) -> h = ent_hash sz x -> aget b h = Some e ->
  table_ok sz (Some (<[Z.to_nat h := mkHt (ht_count e - 1) (if bool_decide (ht_chain e = Some (fst x)) then head_id post None else ht_chain e)]> b)) (pre ++ post).
Proof.
  intros Hnd (Hsz & Hlb & Hslot) -> He. assert (0 <= ent_hash sz x < Z.of_nat (length b)) as Hr by by eapply aget_Some_range.
  split; [done|]. split; [by rewrite length_insert|]. intros h' e' He'. rewrite aget_insert in He' by done.
  case_decide as Hh; [|by eapply slot_ok_unlink; auto]. injection He' as <-. subst h'. by eapply slot_ok_remove; auto.
Qed.

Lemma unlink_element_spec m f pre post x :
  lst_ok m f (pre ++ x :: post) ->
  exists m' f', unlink_element m f (mkHashElem (head_id post None) (last_id None pre) (ent_data x) (ent_key x)) = Some (m', f') /\
    lst_ok (delete (fst x) m') f' (pre ++ post) /\ dom m' = dom m.
Proof.
  intros (Hnd & Hd & Hf). pose proof (proj1 (NoDup_ids_insert _ _ _) Hnd) as [Hx0 Hnd'].
  enough (exists m' f', unlink_element m f (mkHashElem (head_id post None) (last_id None pre) (ent_data x) (ent_key x)) = Some (m', f') /\
    (forall pr e, last_id None pre = Some pr -> m !! pr = Some e -> m' !! pr = Some (set_next e (head_id post None))) /\
    (forall nx e, head_id post None = Some nx -> m !! nx = Some e -> m' !! nx = Some (set_prev e (last_id None pre))) /\
    (forall k, k <> fst x -> last_id None pre <> Some k -> head_id post None <> Some k -> m' !! k = m !! k) /\
    f' = head_id (pre ++ post) None /\ dom m' = dom m) as (m' & f' & Hr & H1 & H2 & H3 & H4 & H5).
  { exists m', f'. split; [done|]. split; [|done]. split; [done|]. split; [|done].
    rewrite map_app in Hx0. apply not_elem_of_app in Hx0 as [Hxa Hxb].
    eapply dseg_unlink; [exact Hnd|exact Hd|..].
    - intros pr e Hl He. rewrite lookup_delete_ne; [auto|]. intros <-. by apply last_id_None_elem in Hl.
    - intros nx e Hl He. rewrite lookup_delete_ne; [auto|]. intros <-. by apply head_id_elem in Hl.
    - intros k Hk Hl Hh. rewrite lookup_delete_ne by congruence. auto. }
  assert (forall z post', post = z :: post' -> exists e, m !! fst z = Some e) as Hhead.
  { intros z post' ->. apply dseg_app in Hd as [_ [_ [Hz _]]]. eauto. }
  assert (forall pr, last_id None pre = Some pr -> head_id post None <> Some pr) as Hdis.
  { intros pr Hpr%last_id_None_elem Hh%head_id_elem. rewrite map_app in Hnd'. apply NoDup_app in Hnd' as (_ & Hdis & _). by eapply Hdis. }
  unfold unlink_element. cbn [he_prev he_next]. destruct (last_id None pre) as [pr|] eqn:Hpr.
  - destruct (dseg_last _ _ _ _ Hd Hpr) as [ep Hep]. rewrite Hep. cbn [mbind option_bind].
    assert (f = head_id (pre ++ post) None) as Hf' by (rewrite Hf; by destruct pre).
    destruct post as [|z post]; cbn [head_id mbind option_bind] in *.
    + eexists _, _. split; [done|]. split; [intros ? ? [= <-] ?; heap_simpl; congruence|]. split; [done|].
      split; [intros; by heap_simpl|]. split; [done|]. rewrite !dom_insert_lookup_L; [done|..]; heap_simpl; eauto.
    + destruct (Hhead z post eq_refl) as [ez Hez]. specialize (Hdis pr eq_refl). heap_simpl. rewrite Hez. cbn [mbind option_bind]. eexists _, _. split; [done|].
      split; [intros ? ? [= <-] ?; heap_simpl; congruence|]. split; [intros ? ? [= <-] ?; heap_simpl; congruence|].
      split; [intros; by heap_simpl|]. split; [done|]. rewrite !dom_insert_lookup_L; [done|..]; heap_simpl; eauto.
  - assert (pre = []) as -> by by apply last_id_None_nil.
    cbn [mbind option_bind app]. destruct post as [|z post]; cbn [head_id mbind option_bind] in *.
    + eexists _, _. done.
    + destruct (Hhead z post eq_refl) as [ez Hez]. rewrite Hez. cbn [mbind option_bind]. eexists _, _. split; [done|]. split; [done|].
      split; [intros ? ? [= <-] ?; heap_simpl; congruence|]. split; [intros; by heap_simpl|]. split; [done|].
      rewrite !dom_insert_lookup_L; [done|..]; heap_simpl; eauto.
Qed.

Lemma remove_spec pH pre post x h :
  hash_ok pH (pre ++ x :: post) -> (ht pH <> None -> h = ent_hash (htsize pH) x) -> Z.of_nat (length (pre ++ x :: post)) < 2 ^ 32 ->
  exists pH', removeElementGivenHash pH (fst x) h = Some pH' /\ hash_ok pH' (pre ++ post).
Proof.
  intros (Hl & Ht & Hdom & Hcnt & Hnd & Hents) Hh Hlen. pose proof Hl as (Hids & Hd & _).
  destruct (unlink_element_spec _ _ _ _ _ Hl) as (m' & f' & Hu & Hl' & Hdom').
  unfold removeElementGivenHash. rewrite (dseg_prev _ _ _ _ Hd). cbn [mbind option_bind he_next]. rewrite Hu. cbn [mbind option_bind].
  assert (exists t, unhash_element (ht pH) (fst x) (head_id post None) h = Some t /\ table_ok (htsize pH) t (pre ++ post)) as (t & -> & Ht').
  { unfold unhash_element. destruct (ht pH) as [b|]; [|by exists None]. specialize (Hh ltac:(done)). pose proof Ht as (Hsz & Hlb & Hslot).
    assert (0 <= h < htsize pH) by (rewrite Hh; apply Z.mod_pos_bound; lia).
    destruct (aget_is_Some b h) as [e He]; [lia|]. rewrite He. cbn [mbind option_bind].
    destruct (slot_ok_remove _ _ _ _ _ _ Hids (Hslot _ _ He) (eq_sym Hh)) as [Hpos _].
    rewrite (proj2 (Z.leb_le _ _)) by lia. cbn [assert_ mbind option_bind]. rewrite aset_is_Some by lia. cbn [mbind option_bind].
    eexists. split; [done|]. by apply table_ok_remove. }
  cbn [mbind option_bind].
  set (pH' := mkHash (delete (fst x) m') (htsize pH) (u32 (h_count pH - 1)) f' t).
  assert (hash_ok pH' (pre ++ post)) as Hok.
  { split; [done|]. split; [done|]. apply NoDup_map_insert in Hids as [Hx0 _], Hnd as [_ Hnd]. split.
    - cbn [elems pH']. rewrite dom_delete_L, Hdom', Hdom. rewrite !map_app in *. cbn [map] in *. rewrite !list_to_set_app_L. set_solver.
    - split; [|split; [done|]].
      + cbn [h_count pH']. rewrite Hcnt. unfold u32. rewrite !length_app in *. cbn [length] in *. rewrite Z.mod_small by lia. lia.
      + rewrite Forall_app, Forall_cons in *. tauto. }
  cbn [h_count first pH']. fold pH'. destruct (Z.eqb_spec (u32 (h_count pH - 1)) 0) as [H0|H0]; [|eauto].
  pose proof Hok as ((_ & _ & Hf) & _ & _ & Hc & _). cbn [h_count first pH'] in Hf, Hc. rewrite H0 in Hc.
  destruct (pre ++ post) as [|y l]; [|cbn in Hc; lia]. rewrite Hf. cbn [assert_ head_id mbind option_bind].
  rewrite (clear_spec _ _ Hok). eexists. split; [done|]. apply hash_ok_empty.
Qed.

(** ** Inserting *)

Lemma malloc_no_oom m ok m' : malloc m = (ok, m') -> no_oom m -> ok = true /\ no_oom m'.
Proof.
  intros Hm Ho. destruct (malloc_cases m) as [(o & Hm' & Hf)|(o & Hm' & Hf)]; [|done]. rewrite Hm in Hm'. injection Hm' as -> ->. split; [done|by apply Hf].
Qed.

Lemma table_ok_fresh sz : 0 < sz -> table_ok sz (Some (replicate (Z.to_nat sz) (mkHt 0 None))) [].
Proof.
  intros Hsz. split; [done|]. rewrite length_replicate. split; [lia|]. intros h e ->%aget_replicate_inv.
  exists [], [], []. cbn. split; [done|]. split; [done|]. split; [done|]. split; constructor.
Qed.

(** Inserting, deleting and replacing in a mapping; [denied] tells that the
    element could not be allocated. *)
Definition map_insert (M : gmap (list Z) Z) (key : list Z) (data : Z) (denied : bool) : Z * gmap (list Z) Z :=
  match M !! key with
  | Some old => (old, if data =? 0 then delete key M else <[key := data]> M)
  | None => if data =? 0 then (0, M) else if denied then (data, M) else (0, <[key := data]> M)
  end.

(** A new element, not yet linked. *)
Definition add_element (pH : Hash) (x : ent) : Hash :=
  mkHash (<[fst x := mkHashElem None None (ent_data x) (ent_key x)]> (elems pH)) (htsize pH) (u32 (h_count pH + 1)) (first pH) (ht pH).

Lemma hash_ok_link pH l x pH1 l1 nx pv :
  hash_ok pH l -> fst x ∉ ids l -> fkey x ∉ map fkey l -> cstr (ent_key x) -> ent_data x <> 0 -> Z.of_nat (length l) < int_max ->
  l1 ≡ₚ l -> lst_ok (elems pH1) (first pH1) l1 -> table_ok (htsize pH1) (ht pH1) l1 -> dom (elems pH1) = {[fst x]} ∪ dom (elems pH) ->
  h_count pH1 = Z.of_nat (length l) + 1 -> elems pH1 !! fst x = Some (mkHashElem nx pv (ent_data x) (ent_key x)) ->
  exists pH' l', insertElement pH1 (entry_of (ht pH1) (ent_hash (htsize pH1) x)) (fst x) = Some pH' /\ hash_ok pH' l' /\ l' ≡ₚ x :: l.
Proof.
  intros (_ & _ & Hdom & _ & Hnd & Hents) Hx0 Hkey Hcs Hdata Hlen Hp Hl1 Ht1 Hdom1 Hc1 Hx.
  destruct (insertElement_spec pH1 l1 x nx pv) as (pH' & l' & Hi & Hp' & Hl' & Ht' & Hsz' & Hc' & Hdom' & _); [done|done|by rewrite Hp|done|by rewrite Hp|].
  rewrite Hp in Hp'. exists pH', l'. split; [done|]. split; [|done].
  split; [done|]. split; [done|]. split; [|split; [|split]].
  - rewrite Hdom', Hdom1, Hdom, Hp'. cbn. done.
  - rewrite Hc', Hc1, Hp'. cbn. lia.
  - rewrite Hp'. cbn. by apply NoDup_cons.
  - rewrite Hp'. by constructor.
Qed.

(** Buckets depend on where the elements are and on their hashes only. *)
Lemma slot_ok_same sz l l' h e :
  Forall2 (fun y y' : ent => fst y' = fst y /\ ent_hash sz y' = ent_hash sz y) l l' -> slot_ok sz l h e -> slot_ok sz l' h e.
Proof.
  intros HF (a & seg & b & -> & Hc & Hch & Hin & Hout). apply Forall2_app_inv_l in HF as (a' & r & Ha & (seg' & b' & Hs & Hb & ->)%Forall2_app_inv_l & ->).
  assert (forall P u v, Forall2 (fun y y' : ent => fst y' = fst y /\ ent_hash sz y' = ent_hash sz y) u v ->
    Forall (fun y => P (ent_hash sz y)) u -> Forall (fun y => P (ent_hash sz y)) v) as Htr.
  { intros P u v Huv. induction Huv as [|y y' u v [_ Hy] _ IH]; [done|]. rewrite !Forall_cons, Hy. tauto. }
  exists a', seg', b'. split; [done|]. split; [by rewrite <- (Forall2_length _ _ _ Hs)|]. split; [|split].
  - intros Hne. destruct Hs as [|y y' seg seg' [Hy _] Hs]; [done|]. rewrite Hch by done. cbn. congruence.
  - by apply (Htr (fun z => z = h) seg).
  - rewrite Forall_app in *. split; [apply (Htr (fun z => z <> h) a)|apply (Htr (fun z => z <> h) b)]; tauto.
Qed.

Lemma hash_ok_update pH pre post x key data :
  hash_ok pH (pre ++ x :: post) -> fkey x = fold_key key -> cstr key -> data <> 0 ->
  hash_ok (mkHash (<[fst x := mkHashElem (head_id post None) (last_id None pre) data key]> (elems pH)) (htsize pH) (h_count pH) (first pH) (ht pH))
    (pre ++ (fst x, (key, data)) :: post).
Proof.
  intros ((Hids & Hd & Hf) & Ht & Hdom & Hc & Hnd & Hents) Hk Hcs Hdata. set (x' := (fst x, (key, data))).
  assert (ids (pre ++ x' :: post) = ids (pre ++ x :: post)) as Hide by by rewrite !map_app.
  assert (fkey x' = fkey x) as Hke by by symmetry.
  assert (forall sz, ent_hash sz x' = ent_hash sz x) as Hhe by (intros sz; unfold ent_hash, strHash; f_equal; by apply strHash_loop_fold).
  pose proof (proj1 (NoDup_ids_insert _ _ _) Hids) as [Hx0 _]. rewrite map_app in Hx0. apply not_elem_of_app in Hx0 as [Hxa Hxb].
  split; [|split; [|split; [|split; [|split]]]]; cbn [elems htsize h_count first ht].
  - split; [by rewrite Hide|]. split; [|rewrite Hf; by destruct pre].
    apply dseg_app in Hd as (Hd1 & Hx & Hd2). apply dseg_app. cbn [head_id dseg] in *. split; [|split].
    + eapply dseg_frame; [|exact Hd1]. intros k Hin. apply lookup_insert_ne. by intros <-.
    + apply lookup_insert_eq.
    + eapply dseg_frame; [|exact Hd2]. intros k Hin. apply lookup_insert_ne. by intros <-.
  - destruct (ht pH) as [b|]; [|done]. destruct Ht as (Hsz & Hlb & Hslot). split; [done|]. split; [done|]. intros h e He.
    eapply slot_ok_same; [|by apply Hslot]. apply Forall2_app; [by apply Forall_Forall2_diag, Forall_true|]. constructor; [by rewrite Hhe|by apply Forall_Forall2_diag, Forall_true].
  - rewrite dom_insert_L, Hdom, Hide, !map_app, !list_to_set_app_L. cbn. set_solver.
  - rewrite Hc, !length_app. done.
  - rewrite map_app in *. cbn [map] in *. by rewrite Hke.
  - rewrite Forall_app, Forall_cons in *. tauto.
Qed.

Lemma bucket_spec pH l key : table_ok (htsize pH) (ht pH) l -> ht pH <> None -> bucket pH key = strHash key mod htsize pH.
Proof. unfold bucket. destruct (ht pH) as [b|]; [|done]. intros (Hsz & _) _. by rewrite (proj2 (Z.eqb_neq _ 0)) by lia. Qed.

Section Insert.
Context (msize : Z -> Z) (msize_ge : forall n, 0 < n <= int_max -> n <= msize n <= int_max).

Lemma hash_rehash_spec m pH l new_size :
  lst_ok (elems pH) (first pH) l -> table_ok (htsize pH) (ht pH) l -> Z.of_nat (length l) <= int_max -> (length l <= size (elems pH))%nat -> 0 < new_size ->
  exists b pH' m' l', rehash msize m pH new_size = Some (b, pH', m') /\ l' ≡ₚ l /\ lst_ok (elems pH') (first pH') l' /\ table_ok (htsize pH') (ht pH') l' /\
    h_count pH' = h_count pH /\ dom (elems pH') = dom (elems pH) /\ (no_oom m -> no_oom m') /\ (b = false -> pH' = pH) /\ (b = true -> ht pH' <> None) /\
    (forall k, k ∉ ids l -> elems pH' !! k = elems pH !! k).
Proof using msize_ge.
  intros Hl Ht Hlen Hsize Hpos. unfold rehash.
  set (ns := if SQLITE_MALLOC_SOFT_LIMIT <? new_size * sizeof_ht then SQLITE_MALLOC_SOFT_LIMIT / sizeof_ht else new_size).
  assert (1 <= ns <= 64) as Hns.
  { unfold ns, SQLITE_MALLOC_SOFT_LIMIT, sizeof_ht. destruct (Z.ltb_spec 1024 (new_size * 16)); [by vm_compute|lia]. }
  destruct (ns =? htsize pH); [by exists false, pH, m, l; repeat split; try apply Hl|].
  destruct (malloc m) as [ok m'] eqn:Hm. destruct ok; cbn [negb]; [|exists false, pH, m', l; repeat split; try apply Hl; try done; intros Ho; by apply (malloc_no_oom _ _ _ Hm)].
  destruct (msize_ge (ns * sizeof_ht)) as [Hge Hle]; [unfold sizeof_ht, int_max in *; lia|].
  assert (1 <= msize (ns * sizeof_ht) / sizeof_ht < 2 ^ 32) as Hdiv.
  { unfold sizeof_ht, int_max in *. split; [apply Z.div_le_lower_bound; lia|apply Z.div_lt_upper_bound; lia]. }
  set (sz := msize (ns * sizeof_ht) / sizeof_ht) in *. clearbody sz. unfold u32. rewrite Z.mod_small by lia. destruct Hl as (Hnd & Hd & Hf). rewrite Hf.
  set (pH0 := mkHash (elems pH) sz (h_count pH) None (Some (replicate (Z.to_nat sz) (mkHt 0 None)))).
  destruct (rehash_loop_spec l (S (size (elems pH))) pH0 [] (replicate (Z.to_nat sz) (mkHt 0 None))) as (pH' & l' & -> & Hp & Hl' & Ht' & Hsz & Hc & Hdom & Hne & Hfr).
  - by eapply dseg_sseg.
  - by rewrite app_nil_r.
  - split; [constructor|done].
  - done.
  - cbn [pH0 htsize ht]. apply table_ok_fresh. lia.
  - by rewrite app_nil_r.
  - lia.
  - rewrite app_nil_r in *. cbn [mbind option_bind]. exists true, pH', m', l'. do 6 (split; [done|]). split; [intros Ho; by apply (malloc_no_oom _ _ _ Hm)|]. done.
Qed.

(** The new element linked, after the table has been enlarged if it is full. *)
Lemma grow_link_spec m pH l key data h :
  hash_ok pH l -> fold_key key ∉ map fkey l -> cstr key -> data <> 0 -> Z.of_nat (length l) < int_max -> (ht pH <> None -> h = strHash key mod htsize pH) ->
  let k := fresh (dom (elems pH)) in
  exists pH' m' l', ('(h, pH, m) ← (let pH := add_element pH (k, (key, data)) in
                         if (10 <=? h_count pH) && (u32 (2 * htsize pH) <? h_count pH) then
                           '(done_, pH, m) ← rehash msize m pH (u32 (h_count pH * 2));
                           if (done_ : bool) then _ ← assert_ (0 <? htsize pH); Some (strHash key mod htsize pH, pH, m)
                           else Some (h, pH, m)
                         else Some (h, pH, m));
          pH ← (match ht pH with Some _ => insertElement pH (Some h) k | None => insertElement pH None k end);
          Some (0, pH, m)) = Some (0, pH', m') /\ hash_ok pH' l' /\ l' ≡ₚ (k, (key, data)) :: l /\ (no_oom m -> no_oom m').
Proof using msize_ge.
  intros Hok Hkey Hcs Hdata Hlen Hh k. set (x := (k, (key, data))). pose proof Hok as ((Hids & Hd & Hf) & Ht & Hdom & Hc & _).
  assert (k ∉ ids l) as Hk. { pose proof (is_fresh (dom (elems pH))) as Hfr. rewrite Hdom in Hfr at 2. by rewrite elem_of_list_to_set in Hfr. }
  set (pH0 := add_element pH x). assert (h_count pH0 = Z.of_nat (length l) + 1) as Hc0.
  { cbn [pH0 add_element h_count]. rewrite Hc. unfold u32. apply Z.mod_small. unfold int_max in Hlen. lia. }
  assert (lst_ok (elems pH0) (first pH0) l) as Hl0.
  { split; [done|]. split; [|done]. eapply dseg_frame; [|exact Hd]. intros j Hj. apply lookup_insert_ne. cbn. intros <-. done. }
  assert (dom (elems pH0) = {[k]} ∪ dom (elems pH)) as Hdom0 by apply dom_insert_L.
  enough (exists h' pH1 m' l1, (let pH := pH0 in if (10 <=? h_count pH) && (u32 (2 * htsize pH) <? h_count pH) then
       '(done_, pH, m) ← rehash msize m pH (u32 (h_count pH * 2));
       if (done_ : bool) then _ ← assert_ (0 <? htsize pH); Some (strHash key mod htsize pH, pH, m) else Some (h, pH, m)
     else Some (h, pH, m)) = Some (h', pH1, m') /\ (ht pH1 <> None -> h' = ent_hash (htsize pH1) x) /\ l1 ≡ₚ l /\
     lst_ok (elems pH1) (first pH1) l1 /\ table_ok (htsize pH1) (ht pH1) l1 /\ dom (elems pH1) = {[k]} ∪ dom (elems pH) /\ h_count pH1 = Z.of_nat (length l) + 1 /\
     elems pH1 !! k = Some (mkHashElem None None data key) /\ (no_oom m -> no_oom m'))
    as (h' & pH1 & m' & l1 & -> & Hh' & Hp & Hl1 & Ht1 & Hdom1 & Hc1 & Hx & Hoom).
  { cbn [mbind option_bind]. destruct (hash_ok_link pH l x pH1 l1 None None Hok Hk Hkey Hcs Hdata Hlen Hp Hl1 Ht1 Hdom1 Hc1 Hx) as (pH' & l' & Hi & Hok' & Hp').
    exists pH', m', l'. split; [|done]. change (fst x) with k in Hi. destruct (ht pH1); cbn [entry_of] in Hi; [rewrite (Hh' ltac:(done))|]; by rewrite Hi. }
  assert (elems pH0 !! k = Some (mkHashElem None None data key)) as Hx0 by apply lookup_insert_eq. cbv zeta.
  destruct ((10 <=? h_count pH0) && (u32 (2 * htsize pH0) <? h_count pH0)); [|by exists h, pH0, m, l].
  destruct (hash_rehash_spec m pH0 l (u32 (h_count pH0 * 2)) Hl0 Ht) as (b & pH1 & m' & l1 & -> & Hp & Hl1 & Ht1 & Hc1 & Hdom1 & Hoom & Hb0 & Hb1 & Hfr).
  - lia.
  - rewrite <- size_dom, Hdom0, size_union, size_singleton, size_dom, (size_ids _ _ Hok); [lia|]. apply disjoint_singleton_l. apply is_fresh.
  - rewrite Hc0. unfold u32, int_max in *. rewrite Z.mod_small by lia. lia.
  - cbn [mbind option_bind]. destruct b.
    + specialize (Hb1 eq_refl). destruct (ht pH1) as [b1|] eqn:Hht1; [|done]. destruct Ht1 as (Hsz1 & Ht1). rewrite (proj2 (Z.ltb_lt _ _)) by done. cbn [assert_ mbind option_bind].
      eexists _, pH1, m', l1. split; [done|]. rewrite Hht1. split; [done|]. split; [done|]. split; [done|]. split; [done|]. split; [congruence|]. split; [congruence|]. split; [by rewrite Hfr|done].
    + rewrite (Hb0 eq_refl). by exists h, pH0, m', l.
Qed.

Lemma insert_spec m pH l key data :
  hash_ok pH l -> cstr key -> Z.of_nat (length l) < int_max ->
  exists r pH' m' l' denied, sqlite3HashInsert msize m pH key data = Some (r, pH', m') /\ hash_ok pH' l' /\ (length l' <= S (length l))%nat /\
    map_insert (to_map l) (fold_key key) data denied = (r, to_map l') /\ (no_oom m -> no_oom m' /\ denied = false) /\
    (denied = true -> pH' = pH).
Proof using msize_ge.
  intros Hok Hkey Hlen. pose proof Hok as ((Hids & Hd & Hf) & Ht & _ & Hc & Hnd & Hents). unfold sqlite3HashInsert.
  set (h := bucket pH key). pose proof (bucket_spec pH l key Ht) as Hh. fold h in Hh.
  destruct (findElement_spec pH l key h Hok Hkey Hh) as (r & -> & Hfd). cbn [mbind option_bind]. unfold map_insert. destruct r as [k|]; cbn [found] in Hfd.
  - destruct Hfd as (x & (pre & post & ->)%list_elem_of_split & <- & Hkx). rewrite (dseg_prev _ _ _ _ Hd). cbn [mbind option_bind he_data he_next he_prev he_key].
    pose proof (proj1 (NoDup_map_insert _ _ _ _) Hnd) as [Hnx Hnd']. rewrite to_map_middle by done. rewrite <- Hkx, lookup_insert_eq.
    destruct (Z.eqb_spec data 0) as [->|Hdata].
    + destruct (remove_spec pH pre post x h Hok) as (pH' & -> & Hok'); [|unfold int_max in *; lia|].
      { intros Hne. rewrite (Hh Hne). unfold ent_hash, strHash. f_equal. by apply strHash_loop_fold. }
      cbn [mbind option_bind]. exists (ent_data x), pH', m, (pre ++ post), false. split; [done|]. split; [done|]. rewrite !length_app. cbn [length]. split; [lia|]. split; [|done].
      f_equal. rewrite delete_insert_id; [done|]. by apply to_map_None.
    + rewrite (proj2 (Z.eqb_eq _ _)). 2: { apply (f_equal length) in Hkx. unfold fkey, fold_key in Hkx. rewrite !length_map in Hkx. lia. }
      cbn [assert_ mbind option_bind]. eexists _, _, m, _, false. split; [done|]. split; [by apply hash_ok_update|]. rewrite !length_app. cbn [length]. split; [lia|].
      split; [|done]. f_equal. rewrite insert_insert_eq, to_map_middle; [unfold fkey at 2; cbn [fst snd]; by rewrite <- Hkx|].
      apply NoDup_map_insert. unfold fkey at 1. cbn [fst snd]. by rewrite <- Hkx.
  - pose proof (proj2 (to_map_None _ _) Hfd) as HM. rewrite HM. destruct (Z.eqb_spec data 0) as [Hdata|Hdata]; [exists 0, pH, m, l, false; do 2 (split; [done|]); split; [lia|done]|].
    destruct (malloc m) as [ok m1] eqn:Hm. destruct ok; cbn [negb].
    + destruct (grow_link_spec m1 pH l key data h Hok Hfd Hkey Hdata Hlen Hh) as (pH' & m' & l' & Hg & Hok' & Hp & Hoom).
      exists 0, pH', m', l', false. split; [exact Hg|]. split; [done|]. split; [by rewrite Hp|]. split; [|split; [intros Ho; split; [by apply Hoom, (malloc_no_oom _ _ _ Hm)|done]|done]].
      f_equal. rewrite (to_map_perm l' _ (proj1 (proj2 (proj2 (proj2 (proj2 Hok')))) ) Hp). done.
    + exists data, pH, m1, l, true. split; [done|]. split; [done|]. split; [lia|]. split; [done|]. split; [|done]. intros Ho. by destruct (malloc_no_oom _ _ _ Hm Ho).
Qed.

End Insert.

Lemma find_spec pH l key : hash_ok pH l -> cstr key -> sqlite3HashFind pH key = Some (default 0 (to_map l !! fold_key key)).
Proof.
  intros Hok Hkey. unfold sqlite3HashFind. set (h := match ht pH with Some _ => _ | None => 0 end).
  destruct (findElement_spec pH l key h Hok Hkey) as (r & -> & Hfd). { unfold h. by destruct (ht pH). }
  cbn [mbind option_bind]. destruct r as [k|]; cbn [found] in Hfd.
  - destruct Hfd as (x & (pre & post & ->)%list_elem_of_split & <- & Hkx). destruct Hok as ((_ & Hd & _) & _ & _ & _ & Hnd & _).
    rewrite (dseg_prev _ _ _ _ Hd), to_map_middle, <- Hkx, lookup_insert_eq by done. done.
  - by rewrite (proj2 (to_map_None _ _) Hfd).
Qed.

Lemma walk_loop_spec m l : forall fuel p, dseg m p l None -> (length l < fuel)%nat -> walk_loop fuel m (head_id l None) = Some (map ent_data l).
Proof.
  induction l as [|x l IH]; intros [|fuel] p Hd Hf; cbn in Hf; try lia; [done|]. destruct Hd as [Hx Hd].
  cbn [head_id walk_loop]. rewrite Hx. cbn [mbind option_bind sqliteHashNext he_next]. rewrite (IH fuel _ Hd) by lia. done.
Qed.

Lemma to_map_values l : NoDup (map fkey l) -> (map_to_list (to_map l)).*2 ≡ₚ map ent_data l.
Proof.
  intros Hnd. unfold to_map. rewrite map_to_list_to_map by by rewrite to_map_keys. clear Hnd. induction l as [|x l IH]; [done|]. cbn in *. by rewrite IH.
Qed.

Lemma walk_spec pH l : hash_ok pH l -> exists rs, hash_walk pH = Some rs /\ rs ≡ₚ (map_to_list (to_map l)).*2.
Proof.
  intros Hok. pose proof (size_ids _ _ Hok) as Hs. destruct Hok as ((_ & Hd & Hf) & _ & _ & _ & Hnd & _). exists (map ent_data l). split; [|by rewrite to_map_values].
  unfold hash_walk, sqliteHashFirst. rewrite Hf. eapply walk_loop_spec; [done|lia].
Qed.

(** ** The table as a mapping *)

(** A step of a mapping from folded keys to data.  [oom] tells that an
    allocation may fail. *)
Inductive map_step (oom : Prop) (M : gmap (list Z) Z) : hop -> list Z -> gmap (list Z) Z -> Prop :=
| step_find key : map_step oom M (HFind key) [default 0 (M !! fold_key key)] M
| step_insert key data denied : (denied = true -> oom) ->
    map_step oom M (HInsert key data) [fst (map_insert M (fold_key key) data denied)] (snd (map_insert M (fold_key key) data denied))
| step_clear : map_step oom M HClear [] ∅
| step_walk rs : rs ≡ₚ (map_to_list M).*2 -> map_step oom M HWalk rs M.

Inductive map_steps (oom : Prop) : gmap (list Z) Z -> list hop -> list (list Z) -> gmap (list Z) Z -> Prop :=
| steps_nil M : map_steps oom M [] [] M
| steps_cons M o r M1 ops rs M2 : map_step oom M o r M1 -> map_steps oom M1 ops rs M2 -> map_steps oom M (o :: ops) (r :: rs) M2.

Definition hop_ok (o : hop) : Prop := match o with HFind key | HInsert key _ => cstr key | _ => True end.

Section Refinement.
Context (msize : Z -> Z) (msize_ge : forall n, 0 < n <= int_max -> n <= msize n <= int_max).

Lemma hash_op_spec (oom : Prop) m pH l o : (~ no_oom m -> oom) ->
  hash_ok pH l -> hop_ok o -> Z.of_nat (length l) < int_max ->
  exists r pH' m' l', hash_op msize m pH o = Some (r, pH', m') /\ hash_ok pH' l' /\ (length l' <= S (length l))%nat /\
    map_step oom (to_map l) o r (to_map l') /\ (~ no_oom m' -> oom).
Proof using msize_ge.
  intros Hoom Hok Ho Hlen. destruct o as [key|key data| |]; cbn [hash_op].
  - rewrite (find_spec _ _ _ Hok Ho). eexists _, pH, m, l. split; [done|]. split; [done|]. split; [lia|]. split; [constructor|done].
  - destruct (insert_spec msize msize_ge m pH l key data Hok Ho Hlen) as (r & pH' & m' & l' & denied & -> & Hok' & Hlen' & Hmi & Hno & _).
    cbn [mbind option_bind]. eexists _, pH', m', l'. split; [done|]. split; [done|]. split; [done|]. split.
    + replace r with (fst (map_insert (to_map l) (fold_key key) data denied)) by by rewrite Hmi.
      replace (to_map l') with (snd (map_insert (to_map l) (fold_key key) data denied)) by by rewrite Hmi.
      constructor. intros ->. apply Hoom. intros H. by destruct (Hno H).
    + intros H. apply Hoom. intros H'. by destruct (Hno H').
  - rewrite (clear_spec _ _ Hok). eexists _, _, m, []. split; [done|]. split; [apply hash_ok_empty|]. split; [cbn; lia|]. split; [constructor|done].
  - destruct (walk_spec _ _ Hok) as (rs & -> & Hp). exists rs, pH, m, l. split; [done|]. split; [done|]. split; [lia|]. split; [by constructor|done].
Qed.

Lemma run_hash_spec (oom : Prop) ops : forall m pH l, (~ no_oom m -> oom) ->
  hash_ok pH l -> Forall hop_ok ops -> Z.of_nat (length l + length ops) <= int_max ->
  exists rs pH' m' l', run_hash msize m pH ops = Some (rs, pH', m') /\ hash_ok pH' l' /\ map_steps oom (to_map l) ops rs (to_map l').
Proof using msize_ge.
  induction ops as [|o ops IH]; intros m pH l Hoom Hok Hops Hlen.
  - exists [], pH, m, l. split; [done|]. split; [done|constructor].
  - apply Forall_cons in Hops as [Ho Hops]. cbn [length] in Hlen.
    destruct (hash_op_spec oom m pH l o Hoom Hok Ho) as (r & pH1 & m1 & l1 & Hr & Hok1 & Hl1 & Hst & Hoom1); [lia|].
    destruct (IH m1 pH1 l1 Hoom1 Hok1 Hops) as (rs & pH' & m' & l' & Hrs & Hok' & Hsts); [lia|].
    exists (r :: rs), pH', m', l'. cbn [run_hash]. rewrite Hr. cbn [mbind option_bind]. rewrite Hrs. split; [done|]. split; [done|]. by econstructor.
Qed.
End Refinement.

(** ** Theorems *)

(** Tables obtained from an empty one by operations, any of whose allocations
    may fail; [n] bounds the number of elements. *)
Inductive hash_reach (msize : Z -> Z) : nat -> Hash -> Prop :=
| reach_init : hash_reach msize 0 (sqlite3HashInit ∅)
| reach_op n pH o m r pH' m' : hash_reach msize n pH -> hop_ok o -> hash_op msize m pH o = Some (r, pH', m') -> hash_reach msize (S n) pH'.

Lemma hash_reach_ok msize (msize_ge : forall n, 0 < n <= int_max -> n <= msize n <= int_max) n pH :
  hash_reach msize n pH -> Z.of_nat n <= int_max -> exists l, hash_ok pH l /\ (length l <= n)%nat.
Proof.
  induction 1 as [|n pH o m r pH' m' Hr IH Ho Hop]; intros Hn; [exists []; split; [apply hash_ok_empty|done]|].
  destruct IH as (l & Hok & Hl); [lia|].
  destruct (hash_op_spec msize msize_ge True m pH l o ltac:(done) Hok Ho) as (r1 & pH1 & m1 & l1 & Hop1 & Hok1 & Hl1 & _); [lia|].
  rewrite Hop in Hop1. injection Hop1 as <- <- <-. exists l1. split; [done|lia].
Qed.

(** C15. A hash table behaves as a mapping from keys, compared without regard
    to ASCII case, to non-null data: every sequence of finds, insertions,
    deletions (insertions of null), clears and walks over the elements ends
    without a bad access, and what it returns is what the mapping returns: a find the data or
    null, an insertion the data replaced, a walk every element once in some
    order.  Keys are strings without zero bytes; only when an allocation fails may an insertion of a new
    key be refused, which returns the new data and leaves the mapping alone. *)
Theorem hash_refines_map (msize : Z -> Z) (m : Mem) (ops : list hop) :
  (forall n, 0 < n <= int_max -> n <= msize n <= int_max) -> Forall hop_ok ops -> Z.of_nat (length ops) <= int_max ->
  exists rs pH' m' M, run_hash msize m (sqlite3HashInit ∅) ops = Some (rs, pH', m') /\ map_steps (~ no_oom m) ∅ ops rs M.
Proof.
  intros Hms Hops Hlen. destruct (run_hash_spec msize Hms (~ no_oom m) ops m (sqlite3HashInit ∅) []) as (rs & pH' & m' & l' & Hr & _ & Hs); [done|apply hash_ok_empty|done|cbn; lia|].
  exists rs, pH', m', (to_map l'). done.
Qed.

Lemma hash_refines_map_witness :
  exists rs pH' m' M, run_hash (fun n => n) (mkMem [] 0) (sqlite3HashInit ∅)
    [HInsert [97] 1; HInsert [65] 2; HFind [97]; HInsert [98] 3; HWalk; HInsert [97] 0; HFind [65]; HClear; HFind [98]] = Some (rs, pH', m') /\
    rs = [[0]; [1]; [2]; [0]; [3; 2]; [2]; [0]; []; [0]] /\ map_steps (~ no_oom (mkMem [] 0)) ∅
    [HInsert [97] 1; HInsert [65] 2; HFind [97]; HInsert [98] 3; HWalk; HInsert [97] 0; HFind [65]; HClear; HFind [98]] rs M.
Proof.
  destruct (hash_refines_map (fun n => n) (mkMem [] 0) [HInsert [97] 1; HInsert [65] 2; HFind [97]; HInsert [98] 3; HWalk; HInsert [97] 0; HFind [65]; HClear; HFind [98]])
    as (rs & pH' & m' & M & Hr & Hs); [lia| |by vm_compute|].
  - repeat constructor; by vm_compute.
  - exists rs, pH', m', M. split; [exact Hr|]. split; [|exact Hs]. vm_compute in Hr. congruence.
Defined.

(** In every table reached from an empty one by fewer than 2^31 operations,
    whichever allocations failed: the allocated elements are exactly those of one doubly
    linked list without cycles, whose length is the count; their keys differ
    even after case folding; and the elements of each bucket are neighbours in
    the list, starting at the bucket's chain pointer and as many as its count
    says, which are exactly the elements with that hash. *)
Theorem hash_invariant (msize : Z -> Z) (n : nat) (pH : Hash) :
  (forall n, 0 < n <= int_max -> n <= msize n <= int_max) -> hash_reach msize n pH -> Z.of_nat n <= int_max ->
  exists l, NoDup (ids l) /\ dseg (elems pH) None l None /\ first pH = head_id l None /\ dom (elems pH) = list_to_set (ids l) /\
    h_count pH = Z.of_nat (length l) /\ NoDup (map fkey l) /\
    forall b h e, ht pH = Some b -> aget b h = Some e -> exists pre seg post, l = pre ++ seg ++ post /\
      ht_count e = Z.of_nat (length seg) /\ (seg <> [] -> ht_chain e = head_id seg None) /\
      forall x, x ∈ l -> (x ∈ seg <-> strHash (ent_key x) mod htsize pH = h).
Proof.
  intros Hms Hr Hn. destruct (hash_reach_ok msize Hms n pH Hr Hn) as (l & ((Hids & Hd & Hf) & Ht & Hdom & Hc & Hnd & _) & _).
  exists l. do 6 (split; [done|]). intros b h e Hb He. rewrite Hb in Ht. destruct Ht as (_ & _ & Hslot).
  destruct (Hslot h e He) as (pre & seg & post & -> & Hcn & Hch & Hin & Hout). exists pre, seg, post. do 3 (split; [done|]).
  rewrite Forall_forall in Hin, Hout. intros x Hx. split; [apply Hin|]. intros Hh. rewrite !elem_of_app in Hx.
  destruct Hx as [Hx|[Hx|Hx]]; [|done|]; destruct (Hout x); set_solver.
Qed.

Lemma hash_invariant_witness :
  exists pH l, hash_reach (fun n => n) 1 pH /\ first pH = head_id l None /\ h_count pH = Z.of_nat (length l).
Proof.
  pose (pH := mkHash {[1%positive := mkHashElem None None 7 [97]]} 0 1 (Some 1%positive) None).
  assert (hash_reach (fun n => n) 1 pH) as Hr.
  { eapply (reach_op _ 0 _ (HInsert [97] 7) (mkMem [] 0)); [constructor|repeat constructor; by vm_compute|]. by vm_compute. }
  destruct (hash_invariant (fun n => n) 1 pH) as (l & _ & _ & Hf & _ & Hc & _); [lia|exact Hr|by vm_compute|].
  exists pH, l. done.
Defined.

(** Running out of memory: when the element of a new key cannot be
    allocated, sqlite3HashInsert returns the new data and leaves the table as
    it was; when the element is allocated, the insertion succeeds even if the larger bucket array
    cannot be allocated, and the new data is found under the key. *)
Theorem hash_insert_oom (msize : Z -> Z) (n : nat) (pH : Hash) (key : list Z) (data : Z) (o : list bool) (live : Z) :
  (forall n, 0 < n <= int_max -> n <= msize n <= int_max) -> hash_reach msize n pH -> Z.of_nat n < int_max ->
  cstr key -> data <> 0 -> sqlite3HashFind pH key = Some 0 ->
  sqlite3HashInsert msize (mkMem (false :: o) live) pH key data = Some (data, pH, mkMem o live) /\
  exists pH' m', sqlite3HashInsert msize (mkMem (true :: o) live) pH key data = Some (0, pH', m') /\
    sqlite3HashFind pH' key = Some data.
Proof.
  intros Hms Hr Hn Hkey Hdata Hfind. destruct (hash_reach_ok msize Hms n pH Hr) as (l & Hok & Hlen); [lia|].
  assert (fold_key key ∉ map fkey l) as Habs.
  { rewrite (find_spec _ _ _ Hok Hkey) in Hfind. apply to_map_None. destruct (to_map l !! fold_key key) as [d|] eqn:E; [|done]. cbn in Hfind. injection Hfind as ->.
    unfold to_map in E. apply elem_of_list_to_map in E; [|rewrite to_map_keys; by apply Hok].
    apply list_elem_of_fmap_1 in E as (x & Hx & Hin). injection Hx as _ Hx. destruct Hok as (_ & _ & _ & _ & _ & Hents). rewrite Forall_forall in Hents. by destruct (Hents x Hin) as [_ []]. }
  pose proof Hok as (_ & Ht & _).
  pose proof (bucket_spec pH l key Ht) as Hh.
  destruct (findElement_spec pH l key (bucket pH key) Hok Hkey Hh) as (r & Hfd & Hfd').
  destruct r as [k|]. { destruct Habs. destruct Hfd' as (x & Hx & _ & <-). by apply list_elem_of_fmap_2. }
  unfold sqlite3HashInsert. rewrite Hfd. cbn [mbind option_bind]. rewrite (proj2 (Z.eqb_neq _ 0)) by done. split; [done|].
  destruct (grow_link_spec msize Hms (mkMem o (live + 1)) pH l key data (bucket pH key) Hok Habs Hkey Hdata) as (pH' & m' & l' & Hg & Hok' & Hp & _); [lia|done|].
  exists pH', m'. split; [exact Hg|]. rewrite (find_spec _ _ _ Hok' Hkey), (to_map_perm _ _ (proj1 (proj2 (proj2 (proj2 (proj2 Hok'))))) Hp).
  f_equal. unfold to_map. cbn [map list_to_map]. unfold fkey at 1. cbn [fst snd]. cbn. by rewrite lookup_insert_eq.
Qed.

Lemma hash_insert_oom_witness :
  sqlite3HashInsert (fun n => n) (mkMem (false :: []) 0) (sqlite3HashInit ∅) [97] 7 = Some (7, sqlite3HashInit ∅, mkMem [] 0) /\
  exists pH' m', sqlite3HashInsert (fun n => n) (mkMem (true :: []) 0) (sqlite3HashInit ∅) [97] 7 = Some (0, pH', m') /\
    sqlite3HashFind pH' [97] = Some 7.
Proof.
  apply (hash_insert_oom (fun n => n) 0 (sqlite3HashInit ∅) [97] 7 [] 0); [lia|constructor|by vm_compute|repeat constructor; by vm_compute|lia|by vm_compute].
Defined.
