(* ===== verification/UnixLock.v ===== *)
(** * UnixLock: file locks of os_unix.c

    Connections in one or more processes lock one database file through POSIX
    advisory locks, which belong to processes, not to file descriptors; the
    unixInodeInfo of a process shares them between its connections.  A method
    call is a program whose system calls are steps of their own, so that calls of
    different processes interleave; within a process the mutex makes them exclude
    each other.  fcntl and close are an interface with the behaviour POSIX
    documents.  The counters are not given a width: they are bounded by the
    number of open files.  The shared-memory locks are in ShmLock; the reuse of descriptors by open
    and the other locking styles are left out. *)
From S2P Require Import Prelude.

(** ** Constants *)

Definition NO_LOCK : Z := 0.
Definition SHARED_LOCK : Z := 1.
Definition RESERVED_LOCK : Z := 2.
Definition PENDING_LOCK : Z := 3.
Definition EXCLUSIVE_LOCK : Z := 4.
Definition PENDING_BYTE : Z := 0x40000000.
Definition RESERVED_BYTE : Z := PENDING_BYTE + 1.
Definition SHARED_FIRST : Z := PENDING_BYTE + 2.
Definition SHARED_SIZE : Z := 510.
Definition SQLITE_PERM : Z := 3.
Definition SQLITE_BUSY : Z := 5.
Definition SQLITE_IOERR : Z := 10.
Definition SQLITE_IOERR_UNLOCK : Z := Z.lor SQLITE_IOERR (Z.shiftl 8 8).
Definition SQLITE_IOERR_RDLOCK : Z := Z.lor SQLITE_IOERR (Z.shiftl 9 8).
Definition SQLITE_IOERR_CHECKRESERVEDLOCK : Z := Z.lor SQLITE_IOERR (Z.shiftl 14 8).
Definition SQLITE_IOERR_LOCK : Z := Z.lor SQLITE_IOERR (Z.shiftl 15 8).
Definition UNIXFILE_EXCL : Z := 0x01.
Definition UNIXFILE_RDONLY : Z := 0x02.

(** errno values of Linux *)
Definition EPERM : Z := 1.
Definition EINTR : Z := 4.
Definition EAGAIN : Z := 11.
Definition EACCES : Z := 13.
Definition EBUSY : Z := 16.
Definition ENOLCK : Z := 37.
Definition ETIMEDOUT : Z := 110.

(** ** Programs with system calls *)

Inductive flk := F_RDLCK | F_WRLCK | F_UNLCK.
Record flock := mkFlock { l_type : flk; l_start : Z; l_len : Z }.

(** A program: it has returned, has failed an assert, or waits for a system
    call, whose answer (an errno, or 0; for F_GETLK also whether a lock is in the way) it
    goes on with. *)
Inductive prog (A : Type) :=
| Ret (a : A)
| Stuck
| SetLk (l : flock) (k : Z -> prog A)
| GetLk (l : flock) (k : Z -> bool -> prog A)
| CloseFd (fd : Z) (k : prog A).
Arguments Ret {A} a.
Arguments Stuck {A}.
Arguments SetLk {A} l k.
Arguments GetLk {A} l k.
Arguments CloseFd {A} fd k.

Fixpoint pbind {A B} (p : prog A) (f : A -> prog B) : prog B :=
  match p with
  | Ret a => f a
  | Stuck => Stuck
  | SetLk l k => SetLk l (fun e => pbind (k e) f)
  | GetLk l k => GetLk l (fun e b => pbind (k e b) f)
  | CloseFd fd k => CloseFd fd (pbind k f)
  end.
Declare Scope prog_scope.
Delimit Scope prog_scope with prog.
Notation "'let*' x ':=' p 'in' q" := (pbind p (fun x => q)) (at level 10, x pattern, q at level 200) : prog_scope.
Definition passert (b : bool) : prog unit := if b then Ret tt else Stuck.
#[local] Open Scope prog_scope.

(** ** Data *)

Record unixInodeInfo := mkInode {
  i_nShared : Z;
  i_eFileLock : Z;
  i_bProcessLock : Z;
  i_nRef : Z;
  i_nLock : Z;
  i_pUnused : list Z }.

(** pUnused is the descriptor in the pre-allocated UnixUnusedFd. *)
Record unixFile := mkFile {
  uf_h : Z;
  uf_eFileLock : Z;
  uf_ctrlFlags : Z;
  uf_lastErrno : Z;
  uf_pUnused : option Z }.

Definition set_lock (x : unixFile) (e : Z) := mkFile (uf_h x) e (uf_ctrlFlags x) (uf_lastErrno x) (uf_pUnused x).
Definition set_errno (x : unixFile) (e : Z) := mkFile (uf_h x) (uf_eFileLock x) (uf_ctrlFlags x) e (uf_pUnused x).
Definition set_ilock (i : unixInodeInfo) (e : Z) := mkInode (i_nShared i) e (i_bProcessLock i) (i_nRef i) (i_nLock i) (i_pUnused i).
Definition set_counts (i : unixInodeInfo) (nShared nLock : Z) := mkInode nShared (i_eFileLock i) (i_bProcessLock i) (i_nRef i) nLock (i_pUnused i).

(** ** Operations *)

Definition sqliteErrorFromPosixError (posixError sqliteIOErr : Z) : Z :=
  if (posixError =? EAGAIN) || (posixError =? ETIMEDOUT) || (posixError =? EBUSY) || (posixError =? EINTR) || (posixError =? ENOLCK) then SQLITE_BUSY
  else if (posixError =? EACCES) && ((sqliteIOErr =? SQLITE_IOERR_LOCK) || (sqliteIOErr =? SQLITE_IOERR_UNLOCK) ||
            (sqliteIOErr =? SQLITE_IOERR_RDLOCK) || (sqliteIOErr =? SQLITE_IOERR_CHECKRESERVEDLOCK)) then SQLITE_BUSY
  else if (posixError =? EACCES) || (posixError =? EPERM) then SQLITE_PERM
  else sqliteIOErr.

(** The errno of the call, 0 when it succeeds. *)
Definition unixFileLock (pFile : unixFile) (pInode : unixInodeInfo) (pLock : flock) : prog (Z * unixInodeInfo) :=
  if (flag (uf_ctrlFlags pFile) UNIXFILE_EXCL || negb (i_bProcessLock pInode =? 0)) && negb (flag (uf_ctrlFlags pFile) UNIXFILE_RDONLY) then
    if i_bProcessLock pInode =? 0 then
      let* _ := passert (i_nLock pInode =? 0) in
      SetLk (mkFlock F_WRLCK SHARED_FIRST SHARED_SIZE) (fun e =>
        if negb (e =? 0) then Ret (e, pInode)
        else Ret (0, mkInode (i_nShared pInode) (i_eFileLock pInode) 1 (i_nRef pInode) (i_nLock pInode + 1) (i_pUnused pInode)))
    else Ret (0, pInode)
  else SetLk pLock (fun e => Ret (e, pInode)).

(** An error other than SQLITE_BUSY is remembered. *)
Definition note_errno (pFile : unixFile) (rc tErrno : Z) : unixFile := if negb (rc =? SQLITE_BUSY) then set_errno pFile tErrno else pFile.

(** The end of unixLock: the state reached. *)
Definition lock_done (pFile : unixFile) (pInode : unixInodeInfo) (eFileLock rc : Z) : prog (Z * unixFile * unixInodeInfo) :=
  if rc =? SQLITE_OK then Ret (rc, set_lock pFile eFileLock, set_ilock pInode eFileLock)
  else if eFileLock =? EXCLUSIVE_LOCK then Ret (rc, set_lock pFile PENDING_LOCK, set_ilock pInode PENDING_LOCK)
  else Ret (rc, pFile, pInode).

Definition unixLock (pFile : unixFile) (pInode : unixInodeInfo) (eFileLock : Z) : prog (Z * unixFile * unixInodeInfo) :=
  if eFileLock <=? uf_eFileLock pFile then Ret (SQLITE_OK, pFile, pInode)
  else
    let* _ := passert (negb (uf_eFileLock pFile =? NO_LOCK) || (eFileLock =? SHARED_LOCK)) in
    let* _ := passert (negb (eFileLock =? PENDING_LOCK)) in
    let* _ := passert (negb (eFileLock =? RESERVED_LOCK) || (uf_eFileLock pFile =? SHARED_LOCK)) in
    if negb (uf_eFileLock pFile =? i_eFileLock pInode) && ((PENDING_LOCK <=? i_eFileLock pInode) || (SHARED_LOCK <? eFileLock)) then
      Ret (SQLITE_BUSY, pFile, pInode)
    else if (eFileLock =? SHARED_LOCK) && ((i_eFileLock pInode =? SHARED_LOCK) || (i_eFileLock pInode =? RESERVED_LOCK)) then
      let* _ := passert (uf_eFileLock pFile =? 0) in
      let* _ := passert (0 <? i_nShared pInode) in
      Ret (SQLITE_OK, set_lock pFile SHARED_LOCK, set_counts pInode (i_nShared pInode + 1) (i_nLock pInode + 1))
    else
      let* (e, pInode) :=
        if (eFileLock =? SHARED_LOCK) || ((eFileLock =? EXCLUSIVE_LOCK) && (uf_eFileLock pFile <? PENDING_LOCK)) then
          unixFileLock pFile pInode (mkFlock (if eFileLock =? SHARED_LOCK then F_RDLCK else F_WRLCK) PENDING_BYTE 1)
        else Ret (0, pInode) in
      if negb (e =? 0) then
        let rc := sqliteErrorFromPosixError e SQLITE_IOERR_LOCK in
        Ret (rc, note_errno pFile rc e, pInode)
      else if eFileLock =? SHARED_LOCK then
        let* _ := passert (i_nShared pInode =? 0) in
        let* _ := passert (i_eFileLock pInode =? 0) in
        let* (e2, pInode) := unixFileLock pFile pInode (mkFlock F_RDLCK SHARED_FIRST SHARED_SIZE) in
        let rc := if negb (e2 =? 0) then sqliteErrorFromPosixError e2 SQLITE_IOERR_LOCK else SQLITE_OK in
        let* (e3, pInode) := unixFileLock pFile pInode (mkFlock F_UNLCK PENDING_BYTE 1) in
        let '(rc, tErrno) := if negb (e3 =? 0) && (rc =? SQLITE_OK) then (SQLITE_IOERR_UNLOCK, e3) else (rc, e2) in
        if negb (rc =? 0) then Ret (rc, note_errno pFile rc tErrno, pInode)
        else lock_done (set_lock pFile SHARED_LOCK) (set_counts pInode 1 (i_nLock pInode + 1)) eFileLock rc
      else if (eFileLock =? EXCLUSIVE_LOCK) && (1 <? i_nShared pInode) then
        lock_done pFile pInode eFileLock SQLITE_BUSY
      else
        let* _ := passert (negb (uf_eFileLock pFile =? 0)) in
        let* _ := passert ((eFileLock =? RESERVED_LOCK) || (eFileLock =? EXCLUSIVE_LOCK)) in
        let* (e, pInode) := unixFileLock pFile pInode
          (if eFileLock =? RESERVED_LOCK then mkFlock F_WRLCK RESERVED_BYTE 1 else mkFlock F_WRLCK SHARED_FIRST SHARED_SIZE) in
        if negb (e =? 0) then
          let rc := sqliteErrorFromPosixError e SQLITE_IOERR_LOCK in
          lock_done (note_errno pFile rc e) pInode eFileLock rc
        else lock_done pFile pInode eFileLock SQLITE_OK.

Fixpoint closeFds (l : list Z) : prog unit :=
  match l with
  | [] => Ret tt
  | fd :: l => CloseFd fd (closeFds l)
  end.

Definition closePendingFds (pInode : unixInodeInfo) : prog unixInodeInfo :=
  let* _ := closeFds (i_pUnused pInode) in
  Ret (mkInode (i_nShared pInode) (i_eFileLock pInode) (i_bProcessLock pInode) (i_nRef pInode) (i_nLock pInode) []).

Definition setPendingFd (pFile : unixFile) (pInode : unixInodeInfo) : prog (unixFile * unixInodeInfo) :=
  match uf_pUnused pFile with
  | Some fd =>
      Ret (mkFile (-1) (uf_eFileLock pFile) (uf_ctrlFlags pFile) (uf_lastErrno pFile) None,
           mkInode (i_nShared pInode) (i_eFileLock pInode) (i_bProcessLock pInode) (i_nRef pInode) (i_nLock pInode) (fd :: i_pUnused pInode))
  | None => Stuck
  end.

(** The end of posixUnlock: if( eFileLock==NO_LOCK ){ ... } and what follows *)
Definition unlock_count (pFile : unixFile) (pInode : unixInodeInfo) (eFileLock : Z) : prog (Z * unixFile * unixInodeInfo) :=
  if eFileLock =? NO_LOCK then
    let pInode := set_counts pInode (i_nShared pInode - 1) (i_nLock pInode) in
    let* (rc, pFile, pInode) :=
      if i_nShared pInode =? 0 then
        let* (e, pInode) := unixFileLock pFile pInode (mkFlock F_UNLCK 0 0) in
        if e =? 0 then Ret (SQLITE_OK, pFile, set_ilock pInode NO_LOCK)
        else Ret (SQLITE_IOERR_UNLOCK, set_lock (set_errno pFile e) NO_LOCK, set_ilock pInode NO_LOCK)
      else Ret (SQLITE_OK, pFile, pInode) in
    let pInode := set_counts pInode (i_nShared pInode) (i_nLock pInode - 1) in
    let* _ := passert (0 <=? i_nLock pInode) in
    let* pInode := if i_nLock pInode =? 0 then closePendingFds pInode else Ret pInode in
    Ret (rc, if rc =? SQLITE_OK then set_lock pFile eFileLock else pFile, pInode)
  else Ret (SQLITE_OK, set_lock pFile eFileLock, pInode).

Definition posixUnlock (pFile : unixFile) (pInode : unixInodeInfo) (eFileLock : Z) : prog (Z * unixFile * unixInodeInfo) :=
  let* _ := passert (eFileLock <=? SHARED_LOCK) in
  if uf_eFileLock pFile <=? eFileLock then Ret (SQLITE_OK, pFile, pInode)
  else
    let* _ := passert (negb (i_nShared pInode =? 0)) in
    if SHARED_LOCK <? uf_eFileLock pFile then
      let* _ := passert (i_eFileLock pInode =? uf_eFileLock pFile) in
      let* (e, pInode) :=
        if eFileLock =? SHARED_LOCK then unixFileLock pFile pInode (mkFlock F_RDLCK SHARED_FIRST SHARED_SIZE)
        else Ret (0, pInode) in
      if negb (e =? 0) then Ret (SQLITE_IOERR_RDLOCK, set_errno pFile e, pInode)
      else
        let* (e, pInode) := unixFileLock pFile pInode (mkFlock F_UNLCK PENDING_BYTE 2) in
        if e =? 0 then unlock_count pFile (set_ilock pInode SHARED_LOCK) eFileLock
        else Ret (SQLITE_IOERR_UNLOCK, set_errno pFile e, pInode)
    else unlock_count pFile pInode eFileLock.

Definition unixUnlock := posixUnlock.

(** *pResOut and the result. *)
Definition unixCheckReservedLock (pFile : unixFile) (pInode : unixInodeInfo) : prog (Z * bool * unixFile) :=
  if SHARED_LOCK <? i_eFileLock pInode then Ret (SQLITE_OK, true, pFile)
  else if i_bProcessLock pInode =? 0 then
    GetLk (mkFlock F_WRLCK RESERVED_BYTE 1) (fun e conflict =>
      if negb (e =? 0) then Ret (SQLITE_IOERR_CHECKRESERVEDLOCK, false, set_errno pFile e)
      else Ret (SQLITE_OK, conflict, pFile))
  else Ret (SQLITE_OK, false, pFile).

(** Opening: the unixInodeInfo of the process is found or made. *)
Definition findInodeInfo (inode : option unixInodeInfo) : unixInodeInfo :=
  match inode with
  | None => mkInode 0 0 0 1 0 []
  | Some i => mkInode (i_nShared i) (i_eFileLock i) (i_bProcessLock i) (i_nRef i + 1) (i_nLock i) (i_pUnused i)
  end.

(** [None] when the structure has been freed. *)
Definition releaseInodeInfo (pInode : unixInodeInfo) : prog (option unixInodeInfo) :=
  let pInode := mkInode (i_nShared pInode) (i_eFileLock pInode) (i_bProcessLock pInode) (i_nRef pInode - 1) (i_nLock pInode) (i_pUnused pInode) in
  if i_nRef pInode =? 0 then let* _ := closePendingFds pInode in Ret None else Ret (Some pInode).

Definition closeUnixFile (pFile : unixFile) : prog Z :=
  if 0 <=? uf_h pFile then CloseFd (uf_h pFile) (Ret SQLITE_OK) else Ret SQLITE_OK.

Definition unixClose (pFile : unixFile) (pInode : unixInodeInfo) : prog (Z * option unixInodeInfo) :=
  let* (_, pFile, pInode) := unixUnlock pFile pInode NO_LOCK in
  let* _ := passert ((0 <? i_nLock pInode) || (i_bProcessLock pInode =? 0)) in
  let* (pFile, pInode) := if negb (i_nLock pInode =? 0) then setPendingFd pFile pInode else Ret (pFile, pInode) in
  let* inode := releaseInodeInfo pInode in
  let* rc := closeUnixFile pFile in
  Ret (rc, inode).

(** ** The operating system *)

Inductive lk := RD | WR.

Definition covers (l : flock) (b : Z) : bool := (l_start l <=? b) && ((l_len l =? 0) || (b <? l_start l + l_len l)).
Definition lock_of (t : flk) : option lk := match t with F_RDLCK => Some RD | F_WRLCK => Some WR | F_UNLCK => None end.
Definition compat (t : flk) (o : option lk) : bool :=
  match t, o with
  | F_UNLCK, _ | _, None | F_RDLCK, Some RD => true
  | _, _ => false
  end.

(** Advisory record locks on one file, as POSIX documents fcntl and close:
    [held k p b] is the lock process [p] has on byte [b].  A lock is granted
    only when no other process has a conflicting one, and then replaces the
    process's own locks on the range; a call that fails changes nothing;
    closing any descriptor of the file drops all the locks of the process. *)
Class PosixLocks (K : Type) := {
  setlk : K -> Z -> flock -> Z * K;
  getlk : K -> Z -> flock -> Z * bool * K;
  closefd : K -> Z -> Z -> K;
  held : K -> Z -> Z -> option lk;
  setlk_ok k p l k' : setlk k p l = (0, k') ->
    (forall q b, q <> p -> covers l b = true -> compat (l_type l) (held k q b) = true) /\
    (forall q b, held k' q b = if (q =? p) && covers l b then lock_of (l_type l) else held k q b);
  setlk_fail k p l e k' : setlk k p l = (e, k') -> e <> 0 -> forall q b, held k' q b = held k q b;
  getlk_held k p l r k' : getlk k p l = (r, k') -> forall q b, held k' q b = held k q b;
  getlk_conflict k p l c k' : getlk k p l = (0, c, k') ->
    (c = true <-> exists q b, q <> p /\ covers l b = true /\ compat (l_type l) (held k q b) = false);
  closefd_held k p fd q b : held (closefd k p fd) q b = if q =? p then None else held k q b }.

(** ** The system *)

Inductive call := CLock (e : Z) | CUnlock (e : Z) | CCheck | CClose.

(** What the caller must respect (the comments and asserts of unixLock and
    posixUnlock). *)
Definition call_ok (x : unixFile) (c : call) : Prop :=
  match c with
  | CLock e => e = SHARED_LOCK \/ e = RESERVED_LOCK /\ SHARED_LOCK <= uf_eFileLock x \/ e = EXCLUSIVE_LOCK /\ SHARED_LOCK <= uf_eFileLock x
  | CUnlock e => e = NO_LOCK \/ e = SHARED_LOCK
  | CCheck | CClose => True
  end.

(** The call, with the file and the inode it leaves; a closed file is gone. *)
Definition call_prog (c : call) (x : unixFile) (i : unixInodeInfo) : prog (option unixFile * option unixInodeInfo) :=
  match c with
  | CLock e => let* (_, x, i) := unixLock x i e in Ret (Some x, Some i)
  | CUnlock e => let* (_, x, i) := unixUnlock x i e in Ret (Some x, Some i)
  | CCheck => let* (_, _, x) := unixCheckReservedLock x i in Ret (Some x, Some i)
  | CClose => let* (_, i) := unixClose x i in Ret (None, i)
  end.

(** A process: its inode information, its open files and the call under way. *)
Record proc := mkProc {
  p_inode : option unixInodeInfo;
  p_files : gmap Z unixFile;
  p_busy : option (Z * prog (option unixFile * option unixInodeInfo)) }.

Definition no_proc : proc := mkProc None ∅ None.
Definition getp (ps : gmap Z proc) (p : Z) : proc := default no_proc (ps !! p).

Section System.
Context {K : Type} `{PosixLocks K} (excl_mode : Z -> bool).

(** The flags a process opens the file with. *)
Definition flags_ok (p flags : Z) : Prop :=
  flag flags UNIXFILE_EXCL = excl_mode p /\ (excl_mode p = true -> flag flags UNIXFILE_RDONLY = false).

Inductive sys_step : K * gmap Z proc -> K * gmap Z proc -> Prop :=
| step_open k ps p f fd flags :
    p_busy (getp ps p) = None -> p_files (getp ps p) !! f = None -> 0 <= fd -> flags_ok p flags ->
    sys_step (k, ps) (k, <[p := mkProc (Some (findInodeInfo (p_inode (getp ps p)))) (<[f := mkFile fd NO_LOCK flags 0 (Some fd)]> (p_files (getp ps p))) None]> ps)
| step_call k ps p f x i c :
    p_busy (getp ps p) = None -> p_files (getp ps p) !! f = Some x -> p_inode (getp ps p) = Some i -> call_ok x c ->
    sys_step (k, ps) (k, <[p := mkProc (Some i) (p_files (getp ps p)) (Some (f, call_prog c x i))]> ps)
| step_setlk k ps p inode files f l c e k' :
    getp ps p = mkProc inode files (Some (f, SetLk l c)) -> setlk k p l = (e, k') ->
    sys_step (k, ps) (k', <[p := mkProc inode files (Some (f, c e))]> ps)
| step_getlk k ps p inode files f l c e b k' :
    getp ps p = mkProc inode files (Some (f, GetLk l c)) -> getlk k p l = (e, b, k') ->
    sys_step (k, ps) (k', <[p := mkProc inode files (Some (f, c e b))]> ps)
| step_close k ps p inode files f fd c :
    getp ps p = mkProc inode files (Some (f, CloseFd fd c)) ->
    sys_step (k, ps) (closefd k p fd, <[p := mkProc inode files (Some (f, c))]> ps)
| step_ret k ps p inode files f x i :
    getp ps p = mkProc inode files (Some (f, Ret (x, i))) ->
    sys_step (k, ps) (k, <[p := mkProc i (match x with Some x => <[f := x]> files | None => delete f files end) None]> ps).

(** Started with no locks and no open files. *)
Inductive reachable : K * gmap Z proc -> Prop :=
| reach_start k : (forall p b, held k p b = None) -> reachable (k, ∅)
| reach_step s s' : reachable s -> sys_step s s' -> reachable s'.

(** If the step answers a request to remove a lock, the answer is not an error. *)
Definition unlocks_ok (s s' : K * gmap Z proc) : Prop :=
  forall p inode files f l c e k', getp (snd s) p = mkProc inode files (Some (f, SetLk l c)) -> l_type l = F_UNLCK ->
    setlk (fst s) p l = (e, k') -> s' = (k', <[p := mkProc inode files (Some (f, c e))]> (snd s)) -> e = 0.

(** Reached by a run in which no request to remove a lock fails. *)
Inductive reached : K * gmap Z proc -> Prop :=
| reached_start k : (forall p b, held k p b = None) -> reached (k, ∅)
| reached_step s s' : reached s -> sys_step s s' -> unlocks_ok s s' -> reached s'.
End System.

(** ** Reasoning about one process

    The locks of a process change by its own calls only, so a call can be
    followed on them alone. *)

Abbreviation own := (Z -> option lk).
Definition own_eq (o o' : own) : Prop := forall b, o b = o' b.
Definition set_own (o : own) (l : flock) : own := fun b => if covers l b then lock_of (l_type l) else o b.

#[export] Instance own_eq_equiv : Equivalence own_eq.
Proof. split; [by intros o b|by intros o o' H b|intros o o' o'' H1 H2 b; by rewrite H1]. Qed.

#[export] Instance set_own_proper : Proper (own_eq ==> eq ==> own_eq) set_own.
Proof. intros o o' Ho l ? <- b. unfold set_own. by rewrite Ho. Qed.

(** Whatever the system calls answer, [I] holds before each and [Q] at the
    end; removing locks does not fail. *)
Fixpoint wp {A} (I : own -> Prop) (Q : A -> own -> Prop) (o : own) (pr : prog A) : Prop :=
  match pr with
  | Ret a => Q a o
  | Stuck => False
  | SetLk l k => I o /\ (forall e, e <> 0 -> l_type l <> F_UNLCK -> wp I Q o (k e)) /\ wp I Q (set_own o l) (k 0)
  | GetLk l k => I o /\ forall e b, wp I Q o (k e b)
  | CloseFd _ k => I o /\ wp I Q (fun _ => None) k
  end.

Lemma wp_bind {A B} I (Q : B -> own -> Prop) (pr : prog A) (f : A -> prog B) : forall o,
  wp I (fun a o => wp I Q o (f a)) o pr -> wp I Q o (pbind pr f).
Proof.
  induction pr as [a| |l k IH|l k IH|fd k IH]; intros o; cbn; [done|done|..].
  - intros (HI & He & H0). split; [done|]. split; [intros e Hne Hl; by apply IH, He|by apply IH].
  - intros (HI & He). split; [done|]. intros e b. by apply IH.
  - intros (HI & He). split; [done|]. by apply IH.
Qed.

Lemma wp_mono {A} (I : own -> Prop) (Q Q' : A -> own -> Prop) (pr : prog A) : forall o,
  (forall a o, Q a o -> Q' a o) -> wp I Q o pr -> wp I Q' o pr.
Proof. induction pr as [a| |l k IH|l k IH|fd k IH]; intros o HQ; cbn; naive_solver. Qed.

Lemma wp_proper {A} (I : own -> Prop) (Q : A -> own -> Prop) (pr : prog A) :
  Proper (own_eq ==> impl) I -> (forall a, Proper (own_eq ==> impl) (Q a)) -> Proper (own_eq ==> impl) (fun o => wp I Q o pr).
Proof.
  intros PI PQ. induction pr as [a| |l k IH|l k IH|fd k IH]; intros o o' Ho; cbn.
  - by apply PQ.
  - done.
  - intros (HI & He & H0). split; [by apply (PI o)|]. split; [intros e Hne Hl; apply (IH e o o' Ho); auto|].
    refine (IH 0 (set_own o l) (set_own o' l) _ H0). by rewrite Ho.
  - intros (HI & He). split; [by apply (PI o)|]. intros e b. by apply (IH e b o o' Ho).
  - intros (HI & He). split; [by apply (PI o)|done].
Qed.

(** *** What the locks of a file rest on *)

Definition shared_byte (b : Z) : Prop := SHARED_FIRST <= b < SHARED_FIRST + SHARED_SIZE.
Definition excl (o : own) : Prop := forall b, shared_byte b -> o b = Some WR.

Definition file_ok (o : own) (e : Z) : Prop :=
  e = NO_LOCK \/ excl o \/
  (forall b, shared_byte b -> o b <> None) /\ (e = RESERVED_LOCK -> o RESERVED_BYTE = Some WR) /\
  (e = PENDING_LOCK -> o PENDING_BYTE = Some WR) /\ e <> EXCLUSIVE_LOCK.

#[export] Instance excl_proper : Proper (own_eq ==> impl) excl.
Proof. intros o o' Ho He b Hb. rewrite <- Ho. auto. Qed.

#[export] Instance file_ok_proper : Proper (own_eq ==> eq ==> impl) file_ok.
Proof.
  intros o o' Ho e ? <- [?|[He|(H1 & H2 & H3 & H4)]]; [by left|right; left; by rewrite <- Ho|right; right].
  rewrite <- !Ho. split; [|done]. intros b Hb. rewrite <- Ho. auto.
Qed.

Definition locked (kx : Z * unixFile) : Prop := SHARED_LOCK <= uf_eFileLock (snd kx).
#[export] Instance locked_dec kx : Decision (locked kx) := decide (_ <= _).
Definition lk01 (e : Z) : Z := if SHARED_LOCK <=? e then 1 else 0.
Definition nlocked (files : gmap Z unixFile) : Z := Z.of_nat (size (filter locked files)).

(** The state between calls: the inode's counters and state agree with the
    files, and every file has the locks its state stands for. *)
Record linv (mode : bool) (o : own) (files : gmap Z unixFile) (i : unixInodeInfo) : Prop := {
  li_ref : i_nRef i = Z.of_nat (size files);
  li_shared : i_nShared i = nlocked files;
  li_nlock : i_nLock i = i_nShared i + i_bProcessLock i;
  li_bp : i_bProcessLock i = 0 \/ i_bProcessLock i = 1 /\ mode = true /\ excl o;
  li_mode : mode = true -> i_bProcessLock i = 0 -> i_nShared i = 0;
  li_range : 0 <= i_eFileLock i <= 4;
  li_zero : i_eFileLock i = 0 <-> i_nShared i = 0;
  li_flags f x : files !! f = Some x -> flag (uf_ctrlFlags x) UNIXFILE_EXCL = mode /\
    (mode = true -> flag (uf_ctrlFlags x) UNIXFILE_RDONLY = false) /\ uf_pUnused x <> None;
  li_lock f x : files !! f = Some x -> 0 <= uf_eFileLock x <= 4 /\ (uf_eFileLock x <= 1 \/ uf_eFileLock x = i_eFileLock i) /\ file_ok o (uf_eFileLock x);
  li_uniq f g x y : f <> g -> files !! f = Some x -> files !! g = Some y -> 1 < uf_eFileLock x ->
    uf_eFileLock y <= 1 /\ (uf_eFileLock x = 4 -> uf_eFileLock y = 0);
  li_top : 1 < i_eFileLock i -> exists f x, files !! f = Some x /\ uf_eFileLock x = i_eFileLock i }.

Definition others_ok (files : gmap Z unixFile) (f : Z) (o : own) : Prop :=
  forall g y, g <> f -> files !! g = Some y -> file_ok o (uf_eFileLock y).

Lemma nlocked_insert files f x : files !! f = None -> nlocked (<[f := x]> files) = lk01 (uf_eFileLock x) + nlocked files.
Proof.
  intros Hf. unfold nlocked, lk01. destruct (Z.leb_spec SHARED_LOCK (uf_eFileLock x)) as [Hl|Hl%Z.lt_nge].
  - rewrite map_filter_insert_True by done. rewrite map_size_insert_None; [lia|]. by apply map_lookup_filter_None_2; left.
  - rewrite map_filter_insert_False by done. rewrite delete_id by done. lia.
Qed.

Lemma nlocked_update files f x x' : files !! f = Some x ->
  nlocked (<[f := x']> files) = nlocked files - lk01 (uf_eFileLock x) + lk01 (uf_eFileLock x').
Proof.
  intros Hf. rewrite <- insert_delete_eq. rewrite nlocked_insert by apply lookup_delete_eq.
  rewrite <- (insert_delete_id files f x Hf) at 2. rewrite nlocked_insert by apply lookup_delete_eq. lia.
Qed.

Lemma nlocked_delete files f x : files !! f = Some x -> nlocked (delete f files) = nlocked files - lk01 (uf_eFileLock x).
Proof. intros Hf. rewrite <- (insert_delete_id files f x Hf) at 2. rewrite nlocked_insert by apply lookup_delete_eq. lia. Qed.

Lemma nlocked_pos files g y : files !! g = Some y -> SHARED_LOCK <= uf_eFileLock y -> 1 <= nlocked files.
Proof.
  intros Hg Hy. rewrite <- (insert_delete_id files g y Hg), nlocked_insert by apply lookup_delete_eq. unfold lk01, nlocked. rewrite (proj2 (Z.leb_le _ _)) by done. lia.
Qed.

Lemma nlocked_exists files : 1 <= nlocked files -> exists g y, files !! g = Some y /\ SHARED_LOCK <= uf_eFileLock y.
Proof.
  unfold nlocked. intros Hn. destruct (map_choose (filter locked files)) as (g & y & Hg).
  { intros He. rewrite He, map_size_empty in Hn. lia. }
  apply map_lookup_filter_Some in Hg as [Hg Hl]. eauto.
Qed.

(** The other files are unlocked when the count says so. *)
Lemma nlocked_others files f x g y :
  files !! f = Some x -> nlocked files <= lk01 (uf_eFileLock x) -> g <> f -> files !! g = Some y -> uf_eFileLock y < 1.
Proof.
  intros Hf Hn Hgf Hg. pose proof (nlocked_delete _ _ _ Hf) as Hd. destruct (decide (uf_eFileLock y < 1)) as [|Hge]; [done|].
  pose proof (nlocked_pos (delete f files) g y) as Hp. rewrite lookup_delete_ne in Hp by done. specialize (Hp Hg). unfold SHARED_LOCK in Hp. lia.
Qed.

(** A file and the inode change together. *)
Lemma linv_update mode o o' files i i' f x x' :
  linv mode o files i -> files !! f = Some x ->
  uf_ctrlFlags x' = uf_ctrlFlags x -> uf_pUnused x' = uf_pUnused x -> 0 <= uf_eFileLock x' <= 4 ->
  i_nRef i' = i_nRef i ->
  i_nShared i' = i_nShared i - lk01 (uf_eFileLock x) + lk01 (uf_eFileLock x') ->
  i_nLock i' = i_nShared i' + i_bProcessLock i' ->
  (i_bProcessLock i' = 0 \/ i_bProcessLock i' = 1 /\ mode = true /\ excl o') ->
  (mode = true -> i_bProcessLock i' = 0 -> i_nShared i' = 0) ->
  0 <= i_eFileLock i' <= 4 -> (i_eFileLock i' = 0 <-> i_nShared i' = 0) ->
  (uf_eFileLock x' <= 1 \/ uf_eFileLock x' = i_eFileLock i') -> file_ok o' (uf_eFileLock x') ->
  (forall g y, g <> f -> files !! g = Some y -> (uf_eFileLock y <= 1 \/ uf_eFileLock y = i_eFileLock i') /\ file_ok o' (uf_eFileLock y) /\
    (1 < uf_eFileLock x' -> uf_eFileLock y <= 1 /\ (uf_eFileLock x' = 4 -> uf_eFileLock y = 0)) /\
    (1 < uf_eFileLock y -> uf_eFileLock x' <= 1 /\ (uf_eFileLock y = 4 -> uf_eFileLock x' = 0))) ->
  (1 < i_eFileLock i' -> uf_eFileLock x' = i_eFileLock i' \/ exists g y, g <> f /\ files !! g = Some y /\ uf_eFileLock y = i_eFileLock i') ->
  linv mode o' (<[f := x']> files) i'.
Proof.
  intros Hinv Hf Hfl Hun Hr Hnr Hns Hnl Hbp Hmd Hir Hz Htop Hok Hoth Hex.
  split; try done.
  - rewrite Hnr, (li_ref _ _ _ _ Hinv), map_size_insert_Some; eauto.
  - rewrite Hns, (nlocked_update _ _ _ _ Hf), (li_shared _ _ _ _ Hinv). lia.
  - intros g y. destruct (decide (g = f)) as [->|Hg].
    + rewrite lookup_insert_eq. intros [= <-]. rewrite Hfl, Hun. by apply (li_flags _ _ _ _ Hinv f).
    + rewrite lookup_insert_ne by done. apply (li_flags _ _ _ _ Hinv).
  - intros g y. destruct (decide (g = f)) as [->|Hg].
    + rewrite lookup_insert_eq. by intros [= <-].
    + rewrite lookup_insert_ne by done. intros Hy. split; [by apply (li_lock _ _ _ _ Hinv g)|]. split; by eapply Hoth.
  - intros g h y z Hgh. destruct (decide (g = f)) as [->|Hg], (decide (h = f)) as [->|Hh]; rewrite ?lookup_insert_eq, ?lookup_insert_ne by done.
    + done.
    + intros [= <-] Hz'. by apply (Hoth h).
    + intros Hy [= <-]. by apply (Hoth g).
    + by apply (li_uniq _ _ _ _ Hinv).
  - intros [Hx'|(g & y & Hg & Hy & ?)]%Hex; [exists f, x'; by rewrite lookup_insert_eq|exists g, y; by rewrite lookup_insert_ne].
Qed.

(** unixFileLock: the call itself, or nothing when the process has an
    exclusive lock of its own. *)
Lemma wp_unixFileLock mode I (Q : Z * unixInodeInfo -> own -> Prop) o x i l :
  I o -> flag (uf_ctrlFlags x) UNIXFILE_EXCL = mode -> (mode = true -> flag (uf_ctrlFlags x) UNIXFILE_RDONLY = false) ->
  (i_bProcessLock i = 0 \/ i_bProcessLock i = 1 /\ mode = true) -> (mode = true -> i_bProcessLock i = 0 -> i_nLock i = 0) ->
  (mode = true -> i_bProcessLock i = 0 -> l_type l <> F_UNLCK) ->
  (forall e, e <> 0 -> l_type l <> F_UNLCK -> Q (e, i) o) ->
  (mode = false -> i_bProcessLock i = 0 -> Q (0, i) (set_own o l)) ->
  (mode = true -> i_bProcessLock i = 1 -> Q (0, i) o) ->
  (mode = true -> i_bProcessLock i = 0 ->
    Q (0, mkInode (i_nShared i) (i_eFileLock i) 1 (i_nRef i) (i_nLock i + 1) (i_pUnused i)) (set_own o (mkFlock F_WRLCK SHARED_FIRST SHARED_SIZE))) ->
  wp I Q o (unixFileLock x i l).
Proof.
  intros HI Hex Hro Hbp Hnl Hun Hfail H1 H2 H3. unfold unixFileLock. rewrite Hex. destruct mode.
  - rewrite Hro by done. rewrite orb_true_l. cbn [negb andb]. destruct Hbp as [Hbp|[Hbp _]]; rewrite Hbp; cbn [Z.eqb].
    + rewrite (proj2 (Z.eqb_eq _ _)) by auto. cbn. split; [done|]. split; [|by auto]. intros e He _. rewrite (proj2 (Z.eqb_neq e 0)) by done. cbn. auto.
    + cbn. auto.
  - destruct Hbp as [Hbp|[_ ?]]; [|done]. rewrite Hbp. cbn. split; [done|]. split; auto.
Qed.

(** *** Locking *)

Lemma set_own_in o l b : covers l b = true -> set_own o l b = lock_of (l_type l).
Proof. unfold set_own. by intros ->. Qed.

Lemma set_own_out o l b : covers l b = false -> set_own o l b = o b.
Proof. unfold set_own. by intros ->. Qed.

Lemma shared_covered t b : shared_byte b -> covers (mkFlock t SHARED_FIRST SHARED_SIZE) b = true.
Proof.
  unfold shared_byte, covers. cbn [l_start l_len]. intros Hb. rewrite (proj2 (Z.leb_le _ _)), (proj2 (Z.ltb_lt _ _)) by lia. apply orb_true_r.
Qed.

Lemma excl_set o : excl (set_own o (mkFlock F_WRLCK SHARED_FIRST SHARED_SIZE)).
Proof. intros b Hb. by rewrite set_own_in by by apply shared_covered. Qed.

Lemma file_ok_wr o l e : l_type l = F_WRLCK -> file_ok o e -> file_ok (set_own o l) e.
Proof.
  intros Hl Hok. assert (forall b, o b = Some WR -> set_own o l b = Some WR) as Hw by (intros b; unfold set_own; rewrite Hl; by destruct (covers l b)).
  destruct Hok as [->|[He|(H1 & H2 & H3 & H4)]]; [by left|right; left; intros b Hb; auto|right; right].
  split; [|auto]. intros b Hb. unfold set_own. rewrite Hl. destruct (covers l b); [done|auto].
Qed.

Lemma file_ok_excl o e : excl o -> file_ok o e.
Proof. intros He. right. by left. Qed.

(** The pending and reserved bytes are outside the shared range. *)
Lemma file_ok_pending o e : e <= 1 -> file_ok o e -> file_ok (set_own o (mkFlock F_UNLCK PENDING_BYTE 2)) e.
Proof.
  intros He. assert (forall b, shared_byte b -> set_own o (mkFlock F_UNLCK PENDING_BYTE 2) b = o b) as Hb.
  { intros b Hb. apply set_own_out. unfold covers, shared_byte, SHARED_FIRST in *. cbn [l_start l_len]. rewrite (proj2 (Z.ltb_ge _ _)) by lia. apply andb_false_r. }
  intros [?|[Hx|(H1 & _)]]; [by left|right; left; intros b Hs; rewrite Hb; auto|right; right]. split; [intros b Hs; rewrite Hb; auto|].
  unfold RESERVED_LOCK, PENDING_LOCK, EXCLUSIVE_LOCK. lia.
Qed.

Section OneFile.
Context {mode : bool} {files : gmap Z unixFile} {f : Z} {x : unixFile} {i : unixInodeInfo} {o : own}.
Context (Hinv : linv mode o files i) (Hf : files !! f = Some x).

Lemma inv_others : others_ok files f o.
Proof using Hinv. intros g y _ Hy. by apply (li_lock _ _ _ _ Hinv g). Qed.

Lemma others_wr l : l_type l = F_WRLCK -> others_ok files f (set_own o l).
Proof using Hinv. intros Hl g y Hg Hy. apply file_ok_wr; [done|by apply inv_others with g]. Qed.

Lemma others_excl o' : excl o' -> others_ok files f o'.
Proof using. intros He g y _ _. by apply file_ok_excl. Qed.

Lemma inv_count : i_nShared i = nlocked files /\ 0 <= i_nShared i.
Proof using Hinv. rewrite (li_shared _ _ _ _ Hinv). unfold nlocked. split; lia. Qed.

Lemma idle_others o' : i_nShared i = 0 -> forall g y, g <> f -> files !! g = Some y -> uf_eFileLock y = 0 /\ file_ok o' (uf_eFileLock y).
Proof using Hinv Hf.
  intros H0 g y Hg Hy. destruct inv_count as [Hc _]. assert (uf_eFileLock y < 1) by (eapply nlocked_others; [exact Hf| |exact Hg|exact Hy]; unfold lk01; case_match; lia).
  destruct (li_lock _ _ _ _ Hinv g y Hy) as ((? & ?) & _). assert (uf_eFileLock y = 0) as -> by lia. split; [done|by left].
Qed.

(** The file whose state is the inode's is the only one above SHARED. *)
Lemma top_others : uf_eFileLock x = i_eFileLock i -> 1 <= uf_eFileLock x -> forall g y, g <> f -> files !! g = Some y -> uf_eFileLock y <= 1.
Proof using Hinv Hf.
  intros Htop Hx g y Hg Hy. destruct (li_lock _ _ _ _ Hinv g y Hy) as (_ & [?|He] & _); [done|].
  destruct (decide (1 < uf_eFileLock x)) as [Hgt|]; [|lia]. by apply (li_uniq _ _ _ _ Hinv f g x y).
Qed.

(** A single reader has no company. *)
Lemma alone_others : i_nShared i <= 1 -> 1 <= uf_eFileLock x -> forall g y, g <> f -> files !! g = Some y -> uf_eFileLock y = 0.
Proof using Hinv Hf.
  intros H1 Hx g y Hg Hy. destruct inv_count as [Hc _].
  assert (uf_eFileLock y < 1) by (eapply nlocked_others; [exact Hf| |exact Hg|exact Hy]; unfold lk01; rewrite (proj2 (Z.leb_le _ _)) by done; lia).
  destruct (li_lock _ _ _ _ Hinv g y Hy) as ((? & ?) & _). lia.
Qed.

(** Nothing but the remembered error changes. *)
Lemma inv_same x' : uf_eFileLock x' = uf_eFileLock x -> uf_ctrlFlags x' = uf_ctrlFlags x -> uf_pUnused x' = uf_pUnused x -> linv mode o (<[f := x']> files) i.
Proof using Hinv Hf.
  intros H1 H2 H3. destruct (li_lock _ _ _ _ Hinv f x Hf) as (? & ? & ?).
  eapply linv_update; [exact Hinv|exact Hf|done|done| | | | | | | | | | | |]; rewrite ?H1; try done; try apply Hinv.
  - lia.
  - intros g y Hg Hy. destruct (li_lock _ _ _ _ Hinv g y Hy) as (? & ? & ?). split; [done|]. split; [done|].
    split; [by apply (li_uniq _ _ _ _ Hinv f g)|by apply (li_uniq _ _ _ _ Hinv g f)].
  - intros (g & y & Hy & Ht)%(li_top _ _ _ _ Hinv). destruct (decide (g = f)) as [->|Hg]; [left; congruence|right; by exists g, y].
Qed.

(** What unixFileLock needs of the state. *)
Lemma file_facts : flag (uf_ctrlFlags x) UNIXFILE_EXCL = mode /\ (mode = true -> flag (uf_ctrlFlags x) UNIXFILE_RDONLY = false) /\
  (i_bProcessLock i = 0 \/ i_bProcessLock i = 1 /\ mode = true) /\ (mode = true -> i_bProcessLock i = 0 -> i_nLock i = 0) /\
  (i_bProcessLock i = 1 -> excl o).
Proof using Hinv Hf.
  destruct (li_flags _ _ _ _ Hinv f x Hf) as (? & ? & _). split; [done|]. split; [done|]. pose proof (li_bp _ _ _ _ Hinv) as Hbp.
  split; [tauto|]. split; [|destruct Hbp as [?|(? & ? & ?)]; [lia|done]].
  intros Hm Hb0. rewrite (li_nlock _ _ _ _ Hinv), (li_mode _ _ _ _ Hinv Hm Hb0), Hb0. done.
Qed.

Abbreviation Qop := (fun '(_, x', i') o' => linv mode o' (<[f := x']> files) i').

(** The inode after the process has taken its exclusive lock. *)
Abbreviation taken j := (mkInode (i_nShared j) (i_eFileLock j) 1 (i_nRef j) (i_nLock j + 1) (i_pUnused j)).

(** The first SHARED lock of the process. *)
Lemma shared_first x' i' o' :
  uf_eFileLock x = 0 -> i_nShared i = 0 -> uf_eFileLock x' = 1 -> uf_ctrlFlags x' = uf_ctrlFlags x -> uf_pUnused x' = uf_pUnused x ->
  i_nShared i' = 1 -> i_eFileLock i' = 1 -> i_nRef i' = i_nRef i -> i_nLock i' = 1 + i_bProcessLock i' ->
  (mode = false /\ i_bProcessLock i' = 0 /\ (forall b, shared_byte b -> o' b <> None) \/ mode = true /\ i_bProcessLock i' = 1 /\ excl o') ->
  linv mode o' (<[f := x']> files) i'.
Proof using Hinv Hf.
  intros Hx Hs Hx' Hfl Hun Hs' Hi' Hr' Hn' Hcase. eapply linv_update; [exact Hinv|exact Hf|done|done|lia|done| | |tauto| |lia|lia|lia| | |lia].
  - by rewrite Hx, Hx', Hs, Hs'.
  - lia.
  - intros Hm H0. destruct Hcase as [(? & _)|(_ & ? & _)]; [congruence|lia].
  - rewrite Hx'. destruct Hcase as [(_ & _ & Hb)|(_ & _ & He)]; [|by apply file_ok_excl]. right. right. split; [done|]. done.
  - intros g y Hg Hy. destruct (idle_others o' Hs g y Hg Hy) as [H0 Hok]. rewrite H0, Hx' in *. split; [lia|]. split; [done|]. split; lia.
Qed.

(** Only SHARED locks, or none, are held by the process of a SHARED request
    that is refused: nothing was acquired that matters. *)
Lemma shared_refused x' i' o' :
  uf_eFileLock x = 0 -> i_nShared i = 0 -> uf_eFileLock x' = 0 -> uf_ctrlFlags x' = uf_ctrlFlags x -> uf_pUnused x' = uf_pUnused x ->
  i_nShared i' = 0 -> i_eFileLock i' = 0 -> i_nRef i' = i_nRef i -> i_nLock i' = i_bProcessLock i' ->
  (i_bProcessLock i' = 0 \/ mode = true /\ i_bProcessLock i' = 1 /\ excl o') ->
  linv mode o' (<[f := x']> files) i'.
Proof using Hinv Hf.
  intros Hx Hs Hx' Hfl Hun Hs' Hi' Hr' Hn' Hcase. eapply linv_update; [exact Hinv|exact Hf|done|done|lia|done| |lia|tauto|done|lia|lia|lia| | |lia].
  - by rewrite Hx, Hx', Hs, Hs'.
  - rewrite Hx'. by left.
  - intros g y Hg Hy. destruct (idle_others o' Hs g y Hg Hy) as [H0 Hok]. rewrite H0, Hx' in *. split; [lia|]. split; [done|]. split; lia.
Qed.

#[local] Ltac ev := cbn [pbind passert wp Z.eqb Z.leb Z.ltb Z.compare Pos.eqb Pos.compare Pos.compare_cont orb andb negb i_nShared i_eFileLock i_bProcessLock i_nRef i_nLock uf_eFileLock set_lock set_ilock set_counts].

Lemma note_errno_same y rc e : uf_eFileLock (note_errno y rc e) = uf_eFileLock y /\ uf_ctrlFlags (note_errno y rc e) = uf_ctrlFlags y /\ uf_pUnused (note_errno y rc e) = uf_pUnused y.
Proof using. unfold note_errno. by destruct (negb _). Qed.

Lemma error_nonzero e d : d <> 0 -> sqliteErrorFromPosixError e d <> 0.
Proof using. intros Hd. unfold sqliteErrorFromPosixError. repeat case_match; done. Qed.

Lemma file_ok_shared e : 1 <= e -> file_ok o e -> file_ok o 1.
Proof using. intros He [->|[Hx|(Hb & _)]]; [done|by apply file_ok_excl|]. right. right. by split. Qed.

(** A SHARED lock the process has already. *)
Lemma shared_more : uf_eFileLock x = 0 -> i_eFileLock i = 1 \/ i_eFileLock i = 2 ->
  linv mode o (<[f := set_lock x 1]> files) (set_counts i (i_nShared i + 1) (i_nLock i + 1)).
Proof using Hinv Hf.
  intros Hx Hi. destruct inv_count as [Hc Hc0]. pose proof (li_zero _ _ _ _ Hinv) as Hz. pose proof (li_nlock _ _ _ _ Hinv) as Hnl.
  destruct (nlocked_exists files ltac:(lia)) as (g0 & y0 & Hg0 & Hy0). destruct (li_lock _ _ _ _ Hinv g0 y0 Hg0) as (_ & _ & Hok0).
  eapply linv_update; [exact Hinv|exact Hf|done|done|cbn; lia|done| |cbn; lia|apply Hinv| | | | | | |]; cbn [set_counts set_lock i_nShared i_eFileLock i_bProcessLock uf_eFileLock]; try lia.
  - rewrite Hx. cbn. lia.
  - intros Hm Hb. pose proof (li_mode _ _ _ _ Hinv Hm Hb). lia.
  - by eapply file_ok_shared.
  - intros g y Hg Hy. destruct (li_lock _ _ _ _ Hinv g y Hy) as (_ & Htop & Hok). split; [done|]. split; [done|]. lia.
  - intros (g & y & Hy & Ht)%(li_top _ _ _ _ Hinv). right. exists g, y. split; [|done]. intros ->. rewrite Hf in Hy. injection Hy as <-. lia.
Qed.

#[local] Ltac jcase := intros; match goal with H : _ = false /\ _ \/ _ |- _ => destruct H as [(? & ?)|(? & ? & ?)]; solve [congruence | lia] end.

Lemma shared_second j o1 :
  uf_eFileLock x = 0 -> i_nShared i = 0 -> i_nShared j = 0 -> i_eFileLock j = 0 -> i_nRef j = i_nRef i -> i_nLock j = i_bProcessLock j ->
  (mode = false /\ i_bProcessLock j = 0 \/ mode = true /\ i_bProcessLock j = 1 /\ excl o1) ->
  wp (others_ok files f) Qop o1
    (let* _ := passert (i_nShared j =? 0) in
     let* _ := passert (i_eFileLock j =? 0) in
     let* (e2, pInode0) := unixFileLock x j (mkFlock F_RDLCK SHARED_FIRST SHARED_SIZE) in
     let rc := if negb (e2 =? 0) then sqliteErrorFromPosixError e2 SQLITE_IOERR_LOCK else SQLITE_OK in
     let* (e3, pInode1) := unixFileLock x pInode0 (mkFlock F_UNLCK PENDING_BYTE 1) in
     let '(rc, tErrno) := if negb (e3 =? 0) && (rc =? SQLITE_OK) then (SQLITE_IOERR_UNLOCK, e3) else (rc, e2) in
     if negb (rc =? 0) then Ret (rc, note_errno x rc tErrno, pInode1)
     else lock_done (set_lock x 1) (set_counts pInode1 1 (i_nLock pInode1 + 1)) 1 rc).
Proof using Hinv Hf.
  intros Hx Hs Hjs Hjl Hjr Hjn Hj. destruct file_facts as (Hex & Hro & _).
  assert (forall o', others_ok files f o') as Hoth. { intros o' g y Hg Hy. by apply (idle_others o' Hs g y Hg Hy). }
  rewrite Hjs, Hjl. ev. apply wp_bind. eapply (wp_unixFileLock mode); [apply Hoth|done|done|tauto|jcase|done| | | |].
  - intros e He _. apply wp_bind. rewrite (proj2 (Z.eqb_neq e 0)) by done. eapply (wp_unixFileLock mode); [apply Hoth|done|done|tauto|jcase|jcase|done| | |jcase].
    all: intros Hm Hb; cbn [negb Z.eqb andb]; rewrite (proj2 (Z.eqb_neq (sqliteErrorFromPosixError _ _) 0)) by (by apply error_nonzero); ev;
      (match goal with |- context [note_errno x ?rc ?e] => destruct (note_errno_same x rc e) as (Hn1 & Hn2 & Hn3) end);
      apply shared_refused; rewrite ?Hn1; auto; tauto.
  - intros Hm Hb. apply wp_bind. cbn [negb Z.eqb]. eapply (wp_unixFileLock mode); [apply Hoth|done|done|tauto|jcase|jcase|done| |jcase|jcase].
    intros _ _. cbn [negb Z.eqb andb lock_done SQLITE_OK]. ev. eapply shared_first; cbn; auto; [lia|]. left. split; [done|]. split; [done|].
    intros b Hsb. rewrite set_own_out, set_own_in; [done|by apply shared_covered|].
    unfold covers, shared_byte, SHARED_FIRST in *. cbn [l_start l_len]. rewrite (proj2 (Z.ltb_ge _ _)) by lia. apply andb_false_r.
  - intros Hm Hb. apply wp_bind. cbn [negb Z.eqb]. eapply (wp_unixFileLock mode); [apply Hoth|done|done|tauto|jcase|jcase|done|jcase| |jcase].
    intros _ _. cbn [negb Z.eqb andb lock_done SQLITE_OK]. ev. eapply shared_first; cbn; auto; [lia|]. right. destruct Hj as [[? ?]|Hj]; [congruence|done].
  - jcase.
Qed.

Lemma wp_lock_shared : wp (others_ok files f) Qop o (unixLock x i SHARED_LOCK).
Proof using Hinv Hf.
  destruct (li_lock _ _ _ _ Hinv f x Hf) as (Hr & _ & _). destruct file_facts as (Hex & Hro & Hbp & Hbn & Hbe). pose proof (li_range _ _ _ _ Hinv) as Hir.
  unfold unixLock, SHARED_LOCK, NO_LOCK, RESERVED_LOCK, PENDING_LOCK, EXCLUSIVE_LOCK. destruct (Z.leb_spec 1 (uf_eFileLock x)) as [|Hlt]; [by apply inv_same|].
  assert (uf_eFileLock x = 0) as Hx by lia. rewrite Hx. ev.
  assert (i_eFileLock i = 0 \/ i_eFileLock i = 1 \/ i_eFileLock i = 2 \/ 3 <= i_eFileLock i) as [Hi|[Hi|[Hi|Hi]]] by lia.
  2, 3: rewrite Hi; ev; apply wp_bind; destruct inv_count as [_ Hc]; pose proof (li_zero _ _ _ _ Hinv); rewrite (proj2 (Z.ltb_lt _ _)) by lia; ev; apply shared_more; [done|lia].
  2: { rewrite (proj2 (Z.leb_le _ _)) by done. destruct (i_eFileLock i) eqn:E; [lia|ev; by apply inv_same|lia]. }
  rewrite Hi. ev. assert (i_nShared i = 0) as Hs by (by apply (li_zero _ _ _ _ Hinv)).
  pose proof (li_nlock _ _ _ _ Hinv) as Hnl. rewrite Hs in Hnl.
  assert (forall o', others_ok files f o') as Hoth. { intros o' g y Hg Hy. by apply (idle_others o' Hs g y Hg Hy). }
  assert (forall rc e, linv mode o (<[f := note_errno x rc e]> files) i) as Hsame. { intros rc e. destruct (note_errno_same x rc e) as (? & ? & ?). by apply inv_same. }
  apply wp_bind. eapply (wp_unixFileLock mode); [apply Hoth|done|done|done|done|done| | | |].
  - intros e He _. rewrite (proj2 (Z.eqb_neq _ 0)) by done. ev. apply Hsame.
  - intros Hm Hb. apply shared_second; auto.
  - intros Hm Hb. apply shared_second; auto.
  - intros Hm Hb. apply shared_second; cbn; auto using excl_set. lia.
Qed.

(** The only file above SHARED moves to RESERVED, PENDING or EXCLUSIVE. *)
Lemma raise_ok e o' x' :
  uf_eFileLock x = i_eFileLock i -> 1 <= uf_eFileLock x -> uf_eFileLock x' = e -> uf_ctrlFlags x' = uf_ctrlFlags x -> uf_pUnused x' = uf_pUnused x -> 2 <= e <= 4 ->
  file_ok o' e -> others_ok files f o' -> (e = 4 -> i_nShared i <= 1) -> (i_bProcessLock i = 1 -> excl o') ->
  linv mode o' (<[f := x']> files) (set_ilock i e).
Proof using Hinv Hf.
  intros Htop Hx Hx' Hfl Hun He Hok Hoth H4 Hbe. pose proof (li_bp _ _ _ _ Hinv) as Hbp. pose proof (li_zero _ _ _ _ Hinv) as Hz.
  eapply linv_update; [exact Hinv|exact Hf|done|done|lia|done| |apply Hinv| |apply Hinv| | | | | |]; cbn [set_ilock i_nShared i_eFileLock i_bProcessLock]; rewrite ?Hx'; try lia; try done.
  - unfold lk01, SHARED_LOCK. rewrite !(proj2 (Z.leb_le _ _)) by lia. lia.
  - destruct Hbp as [?|(? & ? & _)]; auto.
  - intros g y Hg Hy. pose proof (top_others Htop Hx g y Hg Hy). split; [by left|]. split; [by apply (Hoth g)|]. split; [|lia].
    intros _. split; [done|]. intros ->. by apply (alone_others (H4 eq_refl) Hx g y).
Qed.

Lemma mode_busy : 1 <= uf_eFileLock x -> mode = true -> i_bProcessLock i = 0 -> False.
Proof using Hinv Hf.
  intros Hx Hm Hb. pose proof (li_mode _ _ _ _ Hinv Hm Hb). destruct inv_count as [Hc _]. pose proof (nlocked_pos files f x Hf Hx). lia.
Qed.

Lemma wp_lock_reserved : SHARED_LOCK <= uf_eFileLock x -> wp (others_ok files f) Qop o (unixLock x i RESERVED_LOCK).
Proof using Hinv Hf.
  intros Hsh. destruct file_facts as (Hex & Hro & Hbp & Hbn & Hbe). destruct (li_lock _ _ _ _ Hinv f x Hf) as (Hr & _ & Hok).
  unfold unixLock, SHARED_LOCK, NO_LOCK, RESERVED_LOCK, PENDING_LOCK, EXCLUSIVE_LOCK in *. destruct (Z.leb_spec 2 (uf_eFileLock x)) as [|Hlt]; [by apply inv_same|].
  assert (uf_eFileLock x = 1) as Hx by lia. rewrite Hx. ev. rewrite orb_true_r, andb_true_r. fold (1 =? i_eFileLock i). destruct (Z.eqb_spec 1 (i_eFileLock i)) as [Hi|Hi]; [|by apply inv_same].
  ev. apply wp_bind. eapply (wp_unixFileLock mode); [apply inv_others|done|done|done|done|done| | | |].
  - intros e He _. rewrite (proj2 (Z.eqb_neq e 0)) by done. ev. unfold lock_done, SQLITE_OK. rewrite (proj2 (Z.eqb_neq _ 0)) by (by apply error_nonzero).
    ev. match goal with |- context [note_errno x ?rc ?e] => destruct (note_errno_same x rc e) as (? & ? & ?) end. by apply inv_same.
  - intros Hm Hb. ev. cbn [lock_done]. ev. apply raise_ok; cbn; try lia; try done; [|by apply others_wr].
    rewrite Hx in Hok. destruct Hok as [?|[He|(Hb1 & _)]]; [done|apply file_ok_wr; [done|by apply file_ok_excl]|]. right. right.
    split; [|split; [done|done]]. intros b Hsb. unfold set_own. case_match; [done|auto].
  - intros Hm Hb. ev. cbn [lock_done]. ev. apply raise_ok; cbn; try lia; try done; [by apply file_ok_excl, Hbe|apply inv_others].
  - intros Hm Hb. by destruct mode_busy.
Qed.

(** With the pending byte locked, the EXCLUSIVE lock is tried; PENDING is what
    remains if it is refused. *)
Lemma exclusive_second o1 :
  1 <= uf_eFileLock x <= 3 -> uf_eFileLock x = i_eFileLock i -> others_ok files f o1 -> file_ok o1 (uf_eFileLock x) -> o1 PENDING_BYTE = Some WR \/ excl o1 -> (i_bProcessLock i = 1 -> excl o1) ->
  wp (others_ok files f) Qop o1
    (if 1 <? i_nShared i then lock_done x i 4 SQLITE_BUSY
     else
       let* (e, pInode) := unixFileLock x i (mkFlock F_WRLCK SHARED_FIRST SHARED_SIZE) in
       if negb (e =? 0) then lock_done (note_errno x (sqliteErrorFromPosixError e SQLITE_IOERR_LOCK) e) pInode 4 (sqliteErrorFromPosixError e SQLITE_IOERR_LOCK)
       else lock_done x pInode 4 SQLITE_OK).
Proof using Hinv Hf.
  intros Hx Htop Hoth Hok Hp Hbe. destruct file_facts as (Hex & Hro & Hbp & Hbn & _).
  assert (file_ok o1 3) as Hok3.
  { destruct Hp as [Hp|]; [|by apply file_ok_excl]. destruct Hok as [?|[?|(Hb & _)]]; [unfold NO_LOCK in *; lia|by apply file_ok_excl|]. right. right. by split. }
  assert (forall x' rc, rc <> 0 -> uf_eFileLock x' = uf_eFileLock x -> uf_ctrlFlags x' = uf_ctrlFlags x -> uf_pUnused x' = uf_pUnused x ->
    wp (others_ok files f) Qop o1 (lock_done x' i 4 rc)) as Hpend.
  { intros x' rc Hrc H1 H2 H3. unfold lock_done, SQLITE_OK. rewrite (proj2 (Z.eqb_neq rc 0)) by done. cbn. apply raise_ok; try done; lia. }
  destruct (Z.ltb_spec 1 (i_nShared i)) as [|Hsh]; [by apply Hpend|].
  apply wp_bind. eapply (wp_unixFileLock mode); [done|done|done|done|done|done| | | |].
  - intros e He _. rewrite (proj2 (Z.eqb_neq e 0)) by done. ev. match goal with |- context [note_errno x ?rc ?e] => destruct (note_errno_same x rc e) as (? & ? & ?) end.
    apply Hpend; auto. by apply error_nonzero.
  - intros Hm Hb. ev. cbn [lock_done]. ev. apply raise_ok; cbn; try lia; try done; [apply file_ok_excl, excl_set|apply others_excl, excl_set].
  - intros Hm Hb. ev. cbn [lock_done]. ev. apply raise_ok; cbn; try lia; try done. by apply file_ok_excl, Hbe.
  - intros Hm Hb. destruct mode_busy; [lia|done|done].
Qed.

Lemma wp_lock_exclusive : SHARED_LOCK <= uf_eFileLock x -> wp (others_ok files f) Qop o (unixLock x i EXCLUSIVE_LOCK).
Proof using Hinv Hf.
  intros Hsh. destruct file_facts as (Hex & Hro & Hbp & Hbn & Hbe). destruct (li_lock _ _ _ _ Hinv f x Hf) as (Hr & _ & Hok).
  unfold unixLock, SHARED_LOCK, NO_LOCK, RESERVED_LOCK, PENDING_LOCK, EXCLUSIVE_LOCK in *. destruct (Z.leb_spec 4 (uf_eFileLock x)) as [|Hlt]; [by apply inv_same|].
  rewrite (proj2 (Z.eqb_neq (uf_eFileLock x) 0)) by lia. ev. rewrite orb_true_r, andb_true_r. destruct (Z.eqb_spec (uf_eFileLock x) (i_eFileLock i)) as [Htop|]; [|by apply inv_same].
  ev. apply wp_bind. destruct (Z.ltb_spec (uf_eFileLock x) 3) as [Hl3|Hl3].
  - eapply (wp_unixFileLock mode); [apply inv_others|done|done|done|done|done| | | |].
    + intros e He _. rewrite (proj2 (Z.eqb_neq e 0)) by done. ev. match goal with |- context [note_errno x ?rc ?e] => destruct (note_errno_same x rc e) as (? & ? & ?) end. by apply inv_same.
    + intros Hm Hb. cbn [negb Z.eqb]. apply exclusive_second; try lia; [by apply others_wr|by apply file_ok_wr|left; by apply set_own_in].
    + intros Hm Hb. cbn [negb Z.eqb]. apply exclusive_second; try lia; [apply inv_others|done|auto|done].
    + intros Hm Hb. by destruct mode_busy.
  - cbn [wp negb Z.eqb]. apply exclusive_second; try lia; [apply inv_others|done| |done].
    assert (uf_eFileLock x = 3) as Hx3 by lia. rewrite Hx3 in Hok. destruct Hok as [?|[?|(_ & _ & Hp & _)]]; [done|by right|left; by apply Hp].
Qed.

(** *** Unlocking *)

Lemma wp_closeFds (I : own -> Prop) (Q : unit -> own -> Prop) l : (forall o, I o) -> (forall o, Q tt o) -> forall o, wp I Q o (closeFds l).
Proof using. intros HI HQ. induction l as [|fd l IH]; intros o1; cbn; [done|]. split; [done|apply IH]. Qed.

Lemma wp_closePendingFds (I : own -> Prop) (Q : unixInodeInfo -> own -> Prop) j : (forall o, I o) ->
  (forall o, Q (mkInode (i_nShared j) (i_eFileLock j) (i_bProcessLock j) (i_nRef j) (i_nLock j) []) o) -> forall o, wp I Q o (closePendingFds j).
Proof using. intros HI HQ o1. unfold closePendingFds. apply wp_bind, wp_closeFds; done. Qed.

(** The last lock of the process is given up. *)
Lemma unlocked_ok x' i' o' :
  1 <= uf_eFileLock x -> i_nShared i <= 1 -> uf_eFileLock x' = 0 -> uf_ctrlFlags x' = uf_ctrlFlags x -> uf_pUnused x' = uf_pUnused x ->
  i_nShared i' = 0 -> i_eFileLock i' = 0 -> i_nRef i' = i_nRef i -> i_nLock i' = i_bProcessLock i' -> i_bProcessLock i' = i_bProcessLock i -> (i_bProcessLock i = 1 -> excl o') ->
  linv mode o' (<[f := x']> files) i'.
Proof using Hinv Hf.
  intros Hx H1 Hx' Hfl Hun Hs Hl Hr Hn Hb Hbe. pose proof (li_bp _ _ _ _ Hinv) as Hbp. pose proof (alone_others H1 Hx) as Hal.
  assert (i_nShared i = 1) as Hs1. { destruct inv_count as [Hc _]. pose proof (nlocked_pos files f x Hf Hx). lia. }
  eapply linv_update; [exact Hinv|exact Hf|done|done|lia|done| |lia| |done|lia|lia|lia|rewrite Hx'; by left| |lia].
  - rewrite Hs, Hs1, Hx'. unfold lk01, SHARED_LOCK. rewrite (proj2 (Z.leb_le _ _)) by lia. done.
  - rewrite Hb. destruct Hbp as [?|(? & ? & _)]; auto.
  - intros g y Hg Hy. rewrite (Hal g y Hg Hy), Hx'. split; [lia|]. split; [by left|]. lia.
Qed.

(** One of several locks is given up, or a lock is lowered to SHARED. *)
Lemma lowered_ok x' i' o' e :
  1 <= uf_eFileLock x -> e = 0 /\ 1 < i_nShared i \/ e = 1 -> uf_eFileLock x' = e -> uf_ctrlFlags x' = uf_ctrlFlags x -> uf_pUnused x' = uf_pUnused x ->
  i_nShared i' = i_nShared i - 1 + e -> 1 <= i_eFileLock i' <= 4 -> i_nRef i' = i_nRef i -> i_nLock i' = i_nShared i' + i_bProcessLock i' -> i_bProcessLock i' = i_bProcessLock i ->
  (i_bProcessLock i = 1 -> excl o') -> (e = 1 -> file_ok o' 1 /\ i_eFileLock i' = 1) ->
  (forall g y, g <> f -> files !! g = Some y -> (uf_eFileLock y <= 1 \/ uf_eFileLock y = i_eFileLock i') /\ file_ok o' (uf_eFileLock y)) ->
  i_eFileLock i' = 1 \/ i_eFileLock i' = i_eFileLock i /\ uf_eFileLock x = 1 ->
  linv mode o' (<[f := x']> files) i'.
Proof using Hinv Hf.
  intros Hx He Hx' Hfl Hun Hs Hl Hr Hn Hb Hbe Hok Hoth Hi'. pose proof (li_bp _ _ _ _ Hinv) as Hbp.
  assert (1 <= i_nShared i) as Hs1. { destruct inv_count as [Hc _]. pose proof (nlocked_pos files f x Hf Hx). lia. }
  eapply linv_update; [exact Hinv|exact Hf|done|done|lia|done| |lia| | |lia|lia|lia| | |].
  - rewrite Hs, Hx'. unfold lk01, SHARED_LOCK. rewrite (proj2 (Z.leb_le 1 (uf_eFileLock x))) by lia. destruct He as [[-> _]| ->]; cbn; lia.
  - rewrite Hb. destruct Hbp as [?|(? & ? & _)]; auto.
  - intros Hm Hb0. destruct mode_busy; [done|done|lia].
  - rewrite Hx'. destruct He as [[-> _]| ->]; [by left|by apply Hok].
  - intros g y Hg Hy. destruct (Hoth g y Hg Hy) as [Ht Hoy]. split; [done|]. split; [done|]. rewrite Hx'. split; [lia|]. intros H1. split; [lia|]. intros H4. destruct He as [[-> _]| ->]; [done|]. destruct (Hok eq_refl) as [_ H']. lia.
  - destruct Hi' as [->|[-> Hx1]]; [done|]. intros Hgt. destruct (li_top _ _ _ _ Hinv Hgt) as (g & y & Hy & Ht). right. exists g, y. split; [|done]. intros ->. rewrite Hf in Hy. injection Hy as <-. lia.
Qed.

(** Unlocking completely leaves the file unlocked. *)
Abbreviation Qun e := (fun '(_, x', i') o' => linv mode o' (<[f := x']> files) i' /\ (e = 0 -> uf_eFileLock x' = 0)).

Lemma wp_unlock_count j o1 e :
  e = 0 \/ e = 1 -> 1 <= uf_eFileLock x -> i_nShared j = i_nShared i -> i_nLock j = i_nLock i -> i_bProcessLock j = i_bProcessLock i -> i_nRef j = i_nRef i -> 1 <= i_eFileLock j <= 4 ->
  (i_bProcessLock i = 1 -> excl o1) -> (e = 1 -> file_ok o1 1 /\ i_eFileLock j = 1) ->
  (forall g y, g <> f -> files !! g = Some y -> (uf_eFileLock y <= 1 \/ uf_eFileLock y = i_eFileLock j) /\ file_ok o1 (uf_eFileLock y)) ->
  i_eFileLock j = 1 \/ i_eFileLock j = i_eFileLock i /\ uf_eFileLock x = 1 ->
  wp (others_ok files f) (Qun e) o1 (unlock_count x j e).
Proof using Hinv Hf.
  intros He Hx Hjs Hjn Hjb Hjr Hjl Hbe Hok Hoth Hji. destruct file_facts as (Hex & Hro & Hbp & Hbn & _). pose proof (li_nlock _ _ _ _ Hinv) as Hnl.
  assert (1 <= i_nShared i) as Hs1. { destruct inv_count as [Hc _]. pose proof (nlocked_pos files f x Hf Hx). lia. }
  assert (others_ok files f o1) as Hoo by (intros g y Hg Hy; by apply (Hoth g)).
  unfold unlock_count. destruct He as [->| ->]; cbn [Z.eqb NO_LOCK].
  2: { cbn. split; [|done]. eapply lowered_ok; cbn; try done; auto; lia. }
  ev. rewrite Hjs. apply wp_bind. destruct (Z.eqb_spec (i_nShared i - 1) 0) as [H0|H0].
  - assert (forall o', others_ok files f o') as Hall.
    { intros o' g y Hg Hy. rewrite (alone_others ltac:(lia) Hx g y Hg Hy). by left. }
    apply wp_bind. eapply (wp_unixFileLock mode); [done|done|done|cbn; by rewrite Hjb|cbn; rewrite Hjb; intros; by destruct mode_busy|cbn; rewrite Hjb; intros; by destruct mode_busy|by cbn| | |cbn; rewrite Hjb; intros; by destruct mode_busy].
    + intros Hm. ev. rewrite Hjb. intros Hb. rewrite Hjn, Hnl, Hb. replace (i_nShared i) with 1 by lia. change (1 + 0 - 1) with 0. ev. apply wp_bind, wp_closePendingFds; [done|]. intros o2. ev. cbn [SQLITE_OK Z.eqb].
      split; [|done]. eapply unlocked_ok; cbn; try lia; try done.
    + intros Hm. ev. rewrite Hjb. intros Hb. rewrite Hjn, Hnl, Hb. replace (i_nShared i) with 1 by lia. change (1 + 1 - 1) with 1. ev. cbn [SQLITE_OK Z.eqb].
      split; [|done]. eapply unlocked_ok; cbn; try lia; try done.
  - ev. rewrite Hjn, Hnl. rewrite (proj2 (Z.leb_le _ _)) by lia. ev. rewrite (proj2 (Z.eqb_neq _ 0)) by lia. ev. cbn [SQLITE_OK Z.eqb].
    split; [|done]. eapply lowered_ok with (e := 0); cbn; try lia; try done.
Qed.

Lemma wp_unlock e : e = NO_LOCK \/ e = SHARED_LOCK -> wp (others_ok files f) (Qun e) o (unixUnlock x i e).
Proof using Hinv Hf.
  intros He. destruct file_facts as (Hex & Hro & Hbp & Hbn & Hbe). destruct (li_lock _ _ _ _ Hinv f x Hf) as (Hr & Htop & Hok). pose proof (li_range _ _ _ _ Hinv) as Hir.
  unfold unixUnlock, posixUnlock, NO_LOCK, SHARED_LOCK in *. rewrite (proj2 (Z.leb_le e 1)) by lia. cbn [passert pbind].
  destruct (Z.leb_spec (uf_eFileLock x) e) as [|Hlt]; [split; [by apply inv_same|lia]|].
  assert (1 <= i_nShared i) as Hs1. { destruct inv_count as [Hc _]. pose proof (nlocked_pos files f x Hf ltac:(unfold SHARED_LOCK; lia)). lia. }
  pose proof (li_zero _ _ _ _ Hinv) as Hz. rewrite (proj2 (Z.eqb_neq (i_nShared i) 0)) by lia. cbn [passert pbind negb].
  destruct (Z.ltb_spec 1 (uf_eFileLock x)) as [Hgt|Hle].
  2: { apply wp_unlock_count; auto; try lia. intros g y Hg Hy. by apply (li_lock _ _ _ _ Hinv g). }
  assert (i_eFileLock i = uf_eFileLock x) as Heq by lia. rewrite Heq, Z.eqb_refl. cbn [passert pbind].
  pose proof (fun g y Hg Hy => proj1 (li_uniq _ _ _ _ Hinv f g x y (not_eq_sym Hg) Hf Hy Hgt)) as Hlow.
  enough (forall o1, (i_bProcessLock i = 1 -> excl o1) -> (e = 1 -> file_ok o1 1) -> others_ok files f o1 ->
    wp (others_ok files f) (Qun e) o1 (let* (e0, pInode) := unixFileLock x i (mkFlock F_UNLCK PENDING_BYTE 2) in
        if e0 =? 0 then unlock_count x (set_ilock pInode 1) e else Ret (SQLITE_IOERR_UNLOCK, set_errno x e0, pInode))) as Hrest.
  { apply wp_bind. destruct He as [->| ->]; cbn [Z.eqb Pos.eqb].
    - cbn [wp Z.eqb negb]. apply Hrest; [done|done|apply inv_others].
    - eapply (wp_unixFileLock mode); [apply inv_others|done|done|done|done|intros; by destruct mode_busy; [lia|..]| | | |intros; by destruct mode_busy; [lia|..]].
      + intros e0 He0 _. rewrite (proj2 (Z.eqb_neq e0 0)) by done. split; [by apply inv_same|done].
      + intros Hm Hb. cbn [Z.eqb negb]. assert (forall b, shared_byte b -> set_own o (mkFlock F_RDLCK SHARED_FIRST SHARED_SIZE) b <> None) as Hsb.
        { intros b Hb1. by rewrite set_own_in by by apply shared_covered. }
        apply Hrest; [lia|intros _; right; right; by split|]. intros g y Hg Hy. specialize (Hlow g y Hg Hy). right. right. split; [done|].
        unfold RESERVED_LOCK, PENDING_LOCK, EXCLUSIVE_LOCK. lia.
      + intros Hm Hb. cbn [Z.eqb negb]. apply Hrest; [done|intros _; by apply file_ok_excl, Hbe|apply inv_others]. }
  intros o1 Hbe1 Hok1 Hoth1. apply wp_bind. eapply (wp_unixFileLock mode); [done|done|done|done|done|intros; by destruct mode_busy; [lia|..]|done| | |intros; by destruct mode_busy; [lia|..]].
  - intros Hm Hb. cbn [Z.eqb]. apply wp_unlock_count; try done; cbn; try lia.
    + intros He1. split; [|done]. by apply file_ok_pending, Hok1.
    + intros g y Hg Hy. specialize (Hlow g y Hg Hy). split; [by left|]. apply file_ok_pending; [done|by apply (Hoth1 g)].
  - intros Hm Hb. cbn [Z.eqb]. apply wp_unlock_count; try done; cbn; try lia; auto. intros g y Hg Hy. split; [left; by apply (Hlow g)|by apply (Hoth1 g)].
Qed.
End OneFile.

(** *** Closing *)

Lemma linv_delete mode o o' files i i' f x :
  linv mode o files i -> files !! f = Some x -> uf_eFileLock x = 0 ->
  i_nShared i' = i_nShared i -> i_eFileLock i' = i_eFileLock i -> i_bProcessLock i' = i_bProcessLock i -> i_nRef i' = i_nRef i - 1 -> i_nLock i' = i_nLock i ->
  o' = o \/ i_nLock i = 0 -> linv mode o' (delete f files) i'.
Proof.
  intros Hinv Hf Hx Hs Hl Hb Hr Hn Ho. pose proof (li_bp _ _ _ _ Hinv) as Hbp. pose proof (li_nlock _ _ _ _ Hinv) as Hnl.
  destruct (inv_count Hinv) as [Hc Hc0].
  split; rewrite ?Hs, ?Hl, ?Hb, ?Hr, ?Hn; try apply Hinv.
  - rewrite (li_ref _ _ _ _ Hinv), map_size_delete, Hf. assert (size files <> 0)%nat; [|lia]. intros H0%map_size_empty_inv. by rewrite H0 in Hf.
  - by rewrite (nlocked_delete _ _ _ Hf), Hx, Hc, Z.sub_0_r.
  - destruct Ho as [->|Ho]; [done|]. left. lia.
  - intros g y [_ Hy]%lookup_delete_Some. by apply (li_flags _ _ _ _ Hinv g).
  - intros g y [_ Hy]%lookup_delete_Some. destruct (li_lock _ _ _ _ Hinv g y Hy) as (Hr' & Ht & Hok). split; [done|]. split; [done|].
    destruct Ho as [->|Ho]; [done|]. left. destruct (decide (SHARED_LOCK <= uf_eFileLock y)) as [Hge|]; [|unfold SHARED_LOCK, NO_LOCK in *; lia].
    pose proof (nlocked_pos files g y Hy Hge). lia.
  - intros g h y z Hgh [_ Hy]%lookup_delete_Some [_ Hz]%lookup_delete_Some. by apply (li_uniq _ _ _ _ Hinv g h).
  - intros Hgt. destruct (li_top _ _ _ _ Hinv Hgt) as (g & y & Hy & Ht). exists g, y. rewrite lookup_delete_ne; [done|]. intros ->. rewrite Hf in Hy. injection Hy as <-. lia.
Qed.

(** The state after a call: a closed file is gone, and with the last one the
    inode information. *)
Definition after_call (mode : bool) (files : gmap Z unixFile) (f : Z) (r : option unixFile * option unixInodeInfo) (o : own) : Prop :=
  let files' := match fst r with Some x => <[f := x]> files | None => delete f files end in
  match snd r with Some i => linv mode o files' i | None => files' = ∅ end.

(** Only the closed file was open. *)
Lemma last_file (files : gmap Z unixFile) f x : files !! f = Some x -> size files = 1%nat -> delete f files = ∅.
Proof. intros Hf Hs. apply map_size_empty_inv. rewrite map_size_delete, Hf, Hs. done. Qed.

(** releaseInodeInfo and closeUnixFile, after the unlocking. *)
Lemma wp_release mode files f x i i0 o :
  linv mode o files i -> files !! f = Some x -> uf_eFileLock x = 0 ->
  i_nShared i0 = i_nShared i -> i_eFileLock i0 = i_eFileLock i -> i_bProcessLock i0 = i_bProcessLock i -> i_nRef i0 = i_nRef i -> i_nLock i0 = i_nLock i ->
  forall y, i_nLock i = 0 \/ uf_h y = -1 ->
  wp (others_ok files f) (fun '(_, i') o' => after_call mode files f (None, i') o') o
    (let* inode := releaseInodeInfo i0 in let* rc := closeUnixFile y in Ret (rc, inode)).
Proof.
  intros Hinv Hf Hx Hs Hl Hb Hr Hn y Hy. unfold releaseInodeInfo. cbn [i_nRef i_nShared i_eFileLock i_bProcessLock i_nLock i_pUnused]. rewrite Hr, (li_ref _ _ _ _ Hinv).
  destruct (Z.eqb_spec (Z.of_nat (size files) - 1) 0) as [H1|H1].
  - pose proof (last_file files f x Hf ltac:(lia)) as Hlast.
    assert (forall o', others_ok files f o') as Hall. { intros o' g z Hg Hz. assert (delete f files !! g = Some z) as Hd by by rewrite lookup_delete_ne. by rewrite Hlast in Hd. }
    apply wp_bind, wp_bind, wp_closePendingFds; [done|]. intros o1. unfold closeUnixFile. case_match; cbn; [split|]; done.
  - cbn [pbind]. assert (forall o', o' = o \/ i_nLock i = 0 -> after_call mode files f (None, Some (mkInode (i_nShared i0) (i_eFileLock i0) (i_bProcessLock i0) (Z.of_nat (size files) - 1) (i_nLock i0) (i_pUnused i0))) o') as Hdel.
    { intros o' Ho'. unfold after_call. cbn. eapply linv_delete; [exact Hinv|exact Hf|done..| |done|done]. cbn. by rewrite (li_ref _ _ _ _ Hinv). }
    unfold closeUnixFile. destruct (Z.leb_spec 0 (uf_h y)); cbn [wp pbind].
    + split; [by apply (inv_others Hinv)|]. apply Hdel. right. lia.
    + apply Hdel. by left.
Qed.

Lemma wp_close mode files f x i o : linv mode o files i -> files !! f = Some x ->
  wp (others_ok files f) (after_call mode files f) o (call_prog CClose x i).
Proof.
  intros Hinv Hf. cbn [call_prog]. apply wp_bind. unfold unixClose. apply wp_bind. eapply wp_mono; [|apply (wp_unlock Hinv Hf); by left].
  clear o i Hinv. intros [[_ x1] i] o [Hinv Hx1]. specialize (Hx1 eq_refl).
  set (files1 := <[f := x1]> files) in *. assert (files1 !! f = Some x1) as Hf1 by apply lookup_insert_eq.
  destruct (li_flags _ _ _ _ Hinv f x1 Hf1) as (_ & _ & Hun). pose proof (li_nlock _ _ _ _ Hinv) as Hnl. pose proof (li_bp _ _ _ _ Hinv) as Hbp. destruct (inv_count Hinv) as [_ Hc0].
  assert ((0 <? i_nLock i) || (i_bProcessLock i =? 0) = true) as ->. { destruct (Z.eqb_spec (i_bProcessLock i) 0); [apply orb_true_r|]. rewrite (proj2 (Z.ltb_lt _ _)) by lia. done. }
  cbn [passert pbind].
  assert (forall (pr : prog (Z * option unixInodeInfo)), wp (others_ok files1 f) (fun '(_, i') o' => after_call mode files1 f (None, i') o') o pr ->
    wp (others_ok files f) (fun a o => wp (others_ok files f) (after_call mode files f) o (let '(_, i) := a in Ret (None, i))) o pr) as Hconv.
  { assert (delete f files1 = delete f files) as Hd by apply delete_insert_eq.
    assert (forall o', others_ok files1 f o' -> others_ok files f o') as Ho. { intros o' Ho g y Hg Hy. apply (Ho g); [done|]. unfold files1. by rewrite lookup_insert_ne. }
    intros pr. generalize o. induction pr as [[rc i']| |l k IH|l k IH|fd k IH]; intros o1; cbn; [|done|naive_solver..]. unfold after_call. cbn. by rewrite Hd. }
  apply Hconv. destruct (Z.eqb_spec (i_nLock i) 0) as [H0|H0]; cbn [negb].
  - cbn [pbind]. apply (wp_release mode files1 f x1 i i o); auto.
  - unfold setPendingFd. destruct (uf_pUnused x1) as [fd|]; [|done]. cbn [pbind]. eapply (wp_release mode files1 f x1 i); auto.
Qed.

Lemma wp_call mode files f x i o c : linv mode o files i -> files !! f = Some x -> call_ok x c ->
  wp (others_ok files f) (after_call mode files f) o (call_prog c x i).
Proof.
  intros Hinv Hf Hc. destruct c as [e|e| |]; cbn [call_prog]; [| | |by apply wp_close].
  - apply wp_bind. eapply wp_mono; [|destruct Hc as [->|[[-> Hc]|[-> Hc]]]; [apply (wp_lock_shared Hinv Hf)|apply (wp_lock_reserved Hinv Hf Hc)|apply (wp_lock_exclusive Hinv Hf Hc)]].
    intros [[rc x'] i'] o'. done.
  - apply wp_bind. eapply wp_mono; [|apply (wp_unlock Hinv Hf e Hc)]. intros [[rc x'] i'] o' [H1 _]. done.
  - unfold unixCheckReservedLock. repeat case_match; cbn; try (by apply (inv_same Hinv Hf)). split; [by apply (inv_others Hinv)|].
    intros e b. case_match; cbn; by apply (inv_same Hinv Hf).
Qed.

(** ** All processes *)

(** Removing locks does not fail. *)
Definition unlock_reliable (K : Type) `{PosixLocks K} : Prop :=
  forall k p l e k', setlk k p l = (e, k') -> l_type l = F_UNLCK -> e = 0.

Definition file_uniq (files : gmap Z unixFile) : Prop :=
  forall f g x y, f <> g -> files !! f = Some x -> files !! g = Some y -> 1 < uf_eFileLock x ->
    uf_eFileLock y <= 1 /\ (uf_eFileLock x = 4 -> uf_eFileLock y = 0).

Definition idle_inv (mode : bool) (o : own) (files : gmap Z unixFile) (inode : option unixInodeInfo) : Prop :=
  match inode with Some i => linv mode o files i | None => files = ∅ end.

Definition proc_inv (mode : bool) (o : own) (pr : proc) : Prop :=
  file_uniq (p_files pr) /\
  match p_busy pr with
  | None => idle_inv mode o (p_files pr) (p_inode pr)
  | Some (f, pg) => wp (others_ok (p_files pr) f) (after_call mode (p_files pr) f) o pg
  end.

Lemma idle_uniq mode o files inode : idle_inv mode o files inode -> file_uniq files.
Proof. destruct inode as [i|]; cbn; [intros Hinv f g x y; apply Hinv|intros -> f g x y _ []%lookup_empty_Some]. Qed.

Lemma idle_inv_proper mode files inode : Proper (own_eq ==> impl) (fun o => idle_inv mode o files inode).
Proof.
  intros o o' Ho. destruct inode as [i|]; cbn; [|done]. intros Hinv. split; try apply Hinv.
  - destruct (li_bp _ _ _ _ Hinv) as [?|(? & ? & He)]; [by left|right; by pose proof (excl_proper o o' Ho He)].
  - intros f x Hf. destruct (li_lock _ _ _ _ Hinv f x Hf) as (? & ? & Hok). split; [done|]. split; [done|]. by apply (file_ok_proper o o' Ho _ _ eq_refl).
Qed.

Lemma proc_inv_proper mode pr : Proper (own_eq ==> impl) (fun o => proc_inv mode o pr).
Proof.
  intros o o' Ho [Hu Hinv]. split; [done|]. destruct (p_busy pr) as [[f pg]|]; [|by apply (idle_inv_proper _ _ _ o o' Ho)].
  revert Hinv. refine (wp_proper _ _ pg _ _ o o' Ho).
  - intros o1 o2 H12 Hot g y Hg Hy. apply (file_ok_proper o1 o2 H12 _ _ eq_refl). by apply (Hot g).
  - intros [x i] o1 o2 H12. unfold after_call. cbn. destruct i; [|done]. by apply (idle_inv_proper mode _ (Some _)).
Qed.

(** The files other than that of the call under way have their locks. *)
Lemma wp_others mode files f o pg : wp (others_ok files f) (after_call mode files f) o pg -> others_ok files f o.
Proof.
  destruct pg as [[x i]| |l k|l k|fd k]; cbn; [|done|by intros [? _]..]. unfold after_call. cbn. intros Ha g y Hg Hy.
  assert (match x with Some x0 => <[f:=x0]> files | None => delete f files end !! g = Some y) as Hy' by (destruct x; by rewrite ?lookup_insert_ne, ?lookup_delete_ne by done).
  destruct i as [i|]; [by apply (li_lock _ _ _ _ Ha g)|]. by rewrite Ha in Hy'.
Qed.

(** A file no call is under way on. *)
Definition settled (ps : gmap Z proc) (p f : Z) (x : unixFile) : Prop :=
  p_files (getp ps p) !! f = Some x /\ forall pg, p_busy (getp ps p) <> Some (f, pg).

Lemma settled_ok mode o pr f x : proc_inv mode o pr -> p_files pr !! f = Some x -> (forall pg, p_busy pr <> Some (f, pg)) -> file_ok o (uf_eFileLock x).
Proof.
  intros [_ Hinv] Hf Hb. destruct (p_busy pr) as [[f' pg]|].
  - apply wp_others in Hinv. apply (Hinv f); [|done]. intros ->. by apply (Hb pg).
  - destruct (p_inode pr) as [i|]; cbn in Hinv; [by apply (li_lock _ _ _ _ Hinv f)|]. by rewrite Hinv in Hf.
Qed.

(** Locks of two processes. *)
Lemma file_exclusion o o' e e' : file_ok o e -> file_ok o' e' ->
  (forall b, o b = Some WR -> o' b = None) -> (forall b, o' b = Some WR -> o b = None) ->
  (e = 4 -> e' = 0) /\ (e = 2 -> e' <> 2) /\ (e = 3 -> e' <> 3).
Proof.
  intros Ho Ho' Hc Hc'. assert (shared_byte SHARED_FIRST) as Hsb by (unfold shared_byte, SHARED_SIZE; lia).
  assert (excl o -> e' = 0) as He1.
  { intros He. specialize (Hc _ (He _ Hsb)). destruct Ho' as [->|[He'|(Hn & _)]]; [done|specialize (He' _ Hsb); congruence|by destruct (Hn _ Hsb)]. }
  assert (excl o' -> e = 0) as He2.
  { intros He. specialize (Hc' _ (He _ Hsb)). destruct Ho as [->|[He'|(Hn & _)]]; [done|specialize (He' _ Hsb); congruence|by destruct (Hn _ Hsb)]. }
  unfold file_ok, NO_LOCK, RESERVED_LOCK, PENDING_LOCK, EXCLUSIVE_LOCK in *.
  destruct Ho as [->|[?%He1|(_ & Hr & Hq & H4)]]; [lia|lia|]. destruct Ho' as [->|[?%He2|(_ & Hr' & Hq' & _)]]; [lia|lia|].
  split; [done|]. split; intros -> ->; [specialize (Hc _ (Hr eq_refl)); specialize (Hr' eq_refl)|specialize (Hc _ (Hq eq_refl)); specialize (Hq' eq_refl)]; congruence.
Qed.

(** Opening another file. *)
Lemma linv_open mode o files i f fd flags :
  linv mode o files i -> files !! f = None -> flag flags UNIXFILE_EXCL = mode -> (mode = true -> flag flags UNIXFILE_RDONLY = false) ->
  linv mode o (<[f := mkFile fd NO_LOCK flags 0 (Some fd)]> files) (findInodeInfo (Some i)).
Proof.
  intros Hinv Hf Hex Hro. set (x := mkFile fd NO_LOCK flags 0 (Some fd)).
  assert (forall g y, <[f := x]> files !! g = Some y -> g = f /\ y = x \/ g <> f /\ files !! g = Some y) as Hcase.
  { intros g y. destruct (decide (g = f)) as [->|Hg]; [rewrite lookup_insert_eq; intros [= <-]; by left|rewrite lookup_insert_ne by done; by right]. }
  split; cbn [findInodeInfo i_nRef i_nShared i_nLock i_bProcessLock i_eFileLock]; try apply Hinv.
  - rewrite map_size_insert_None, (li_ref _ _ _ _ Hinv) by done. lia.
  - rewrite nlocked_insert by done. cbn. apply Hinv.
  - intros g y [[-> ->]|[_ Hy]]%Hcase; [done|by apply (li_flags _ _ _ _ Hinv g)].
  - intros g y [[-> ->]|[_ Hy]]%Hcase; [|by apply (li_lock _ _ _ _ Hinv g)]. cbn. split; [done|]. split; [by left|by left].
  - intros g h y z Hgh [[-> ->]|[_ Hy]]%Hcase [[-> ->]|[_ Hz]]%Hcase H1; try done. cbn [x uf_eFileLock]. by apply (li_uniq _ _ _ _ Hinv g h).
  - intros Hgt. destruct (li_top _ _ _ _ Hinv Hgt) as (g & y & Hy & Ht). exists g, y. rewrite lookup_insert_ne; [done|]. intros ->. congruence.
Qed.

Lemma linv_none mode o : linv mode o ∅ (mkInode 0 0 0 0 0 []).
Proof. split; cbn; try done. by left. Qed.

Lemma idle_open mode o files inode f fd flags :
  idle_inv mode o files inode -> files !! f = None -> flag flags UNIXFILE_EXCL = mode -> (mode = true -> flag flags UNIXFILE_RDONLY = false) ->
  idle_inv mode o (<[f := mkFile fd NO_LOCK flags 0 (Some fd)]> files) (Some (findInodeInfo inode)).
Proof.
  destruct inode as [i|]; cbn [idle_inv]; [apply linv_open|]. intros -> Hf Hex Hro. apply (linv_open mode o ∅ (mkInode 0 0 0 0 0 [])); auto. apply linv_none.
Qed.

Section Global.
Context {K : Type} `{PosixLocks K} (excl_mode : Z -> bool).

Definition sys_inv (s : K * gmap Z proc) : Prop :=
  (forall p q b, p <> q -> held (fst s) p b = Some WR -> held (fst s) q b = None) /\
  forall p, proc_inv (excl_mode p) (held (fst s) p) (getp (snd s) p).

Lemma getp_insert ps p pr q : getp (<[p := pr]> ps) q = if decide (q = p) then pr else getp ps q.
Proof using. unfold getp. case_decide; subst; [by rewrite lookup_insert_eq|by rewrite lookup_insert_ne]. Qed.

(** A step of process [p] that leaves the locks of the others alone. *)
Lemma sys_inv_step k ps k' p pr :
  sys_inv (k, ps) -> (forall q b, q <> p -> held k' q b = held k q b) ->
  (forall q b, q <> p -> held k' p b = Some WR -> held k q b = None) -> (forall q b, q <> p -> held k q b = Some WR -> held k' p b = None) ->
  proc_inv (excl_mode p) (held k' p) pr -> sys_inv (k', <[p := pr]> ps).
Proof using.
  intros [Hc Hp] Hsame Hw1 Hw2 Hpr. split; cbn [fst snd] in *.
  - intros q r b Hqr Hq. destruct (decide (q = p)) as [->|Hqp], (decide (r = p)) as [->|Hrp].
    + done.
    + rewrite Hsame by done. by apply (Hw1 r).
    + rewrite Hsame in Hq by done. by apply (Hw2 q).
    + rewrite Hsame in * by done. by apply (Hc q).
  - intros q. rewrite getp_insert. case_decide as Hq; [by subst|]. eapply proc_inv_proper; [|apply Hp]. intros b. by rewrite Hsame.
Qed.

(** ... and its own. *)
Lemma sys_inv_memory k ps k' p pr :
  sys_inv (k, ps) -> (forall q b, held k' q b = held k q b) -> proc_inv (excl_mode p) (held k p) pr -> sys_inv (k', <[p := pr]> ps).
Proof using.
  intros Hs Hsame Hpr. pose proof Hs as [Hc _]. cbn in Hc. apply (sys_inv_step k); auto.
  - intros q b Hq. rewrite Hsame. intros Hw. by apply (Hc p q).
  - intros q b Hq Hw. rewrite Hsame. by apply (Hc q p).
  - eapply proc_inv_proper; [|exact Hpr]. intros b. by rewrite Hsame.
Qed.

Lemma sys_inv_preserved s s' : sys_inv s -> sys_step excl_mode s s' -> unlocks_ok s s' -> sys_inv s'.
Proof.
  intros Hs Hst Hun. destruct Hst as [k ps p f fd flags Hb Hf Hfd [Hex Hro]|k ps p f x i c Hb Hf Hi Hc|k ps p inode files f l c e k' Hp Hset|k ps p inode files f l c e b k' Hp Hget|k ps p inode files f fd c Hp|k ps p inode files f x i Hp].
  - pose proof (proj2 Hs p) as [_ Hinv]. cbn [fst snd] in Hinv. rewrite Hb in Hinv. apply (sys_inv_memory k); [done|done|].
    pose proof (idle_open _ _ _ _ f fd flags Hinv Hf Hex Hro) as Hnew. split; [by eapply idle_uniq|done].
  - pose proof (proj2 Hs p) as [Hu Hinv]. cbn [fst snd] in Hinv, Hu. rewrite Hb, Hi in Hinv. apply (sys_inv_memory k); [done|done|].
    split; [done|]. cbn. by apply wp_call.
  - pose proof (proj2 Hs p) as [Hu Hinv]. cbn [fst snd] in Hinv, Hu. rewrite Hp in Hinv, Hu. cbn in Hinv, Hu. destruct Hinv as (_ & Hfail & Hok).
    destruct (decide (e = 0)) as [->|He].
    + destruct (setlk_ok _ _ _ _ Hset) as [Hcomp Hheld].
      assert (own_eq (set_own (held k p) l) (held k' p)) as Hown by (intros b; rewrite Hheld, Z.eqb_refl; done).
      apply (sys_inv_step k); [done|..].
      * intros q b Hq. by rewrite Hheld, (proj2 (Z.eqb_neq q p)).
      * intros q b Hq. rewrite Hheld, Z.eqb_refl. cbn. destruct (covers l b) eqn:Hcov; [|intros Hw; by apply (proj1 Hs p q)].
        intros Hw. specialize (Hcomp q b Hq Hcov). destruct (l_type l); try done. by destruct (held k q b).
      * intros q b Hq Hw. rewrite Hheld, Z.eqb_refl. cbn. destruct (covers l b) eqn:Hcov; [|by apply (proj1 Hs q p)].
        specialize (Hcomp q b Hq Hcov). rewrite Hw in Hcomp. by destruct (l_type l).
      * eapply proc_inv_proper; [exact Hown|]. done.
    + apply (sys_inv_memory k); [done|by eapply setlk_fail|]. split; [done|]. cbn. apply Hfail; [done|]. intros Hl. by apply He, (Hun p inode files f l c e k').
  - pose proof (proj2 Hs p) as [Hu Hinv]. cbn [fst snd] in Hinv, Hu. rewrite Hp in Hinv, Hu. cbn in Hinv, Hu. destruct Hinv as (_ & Hk).
    apply (sys_inv_memory k); [done|by eapply getlk_held|]. split; [done|]. cbn. apply Hk.
  - pose proof (proj2 Hs p) as [Hu Hinv]. cbn [fst snd] in Hinv, Hu. rewrite Hp in Hinv, Hu. cbn in Hinv, Hu. destruct Hinv as (_ & Hk).
    apply (sys_inv_step k); [done|..].
    + intros q b Hq. by rewrite closefd_held, (proj2 (Z.eqb_neq q p)).
    + intros q b Hq. by rewrite closefd_held, Z.eqb_refl.
    + intros q b Hq _. by rewrite closefd_held, Z.eqb_refl.
    + eapply proc_inv_proper; [|split; [exact Hu|exact Hk]]. intros b. by rewrite closefd_held, Z.eqb_refl.
  - pose proof (proj2 Hs p) as [Hu Hinv]. cbn [fst snd] in Hinv, Hu. rewrite Hp in Hinv, Hu. cbn in Hinv, Hu.
    apply (sys_inv_memory k); [done|done|]. split; [by eapply idle_uniq|done].
Qed.

Lemma reached_inv s : reached excl_mode s -> sys_inv s.
Proof.
  induction 1 as [k Hk|s s' _ IH Hst Hok]; [|by eapply sys_inv_preserved]. split; cbn.
  - intros p q b _. by rewrite Hk.
  - intros p. assert (getp ∅ p = no_proc) as -> by (unfold getp; by rewrite lookup_empty). split; [intros f g x y _ Hf; by cbn in Hf|done].
Qed.

(** On a system on which removing a lock never fails, all runs are of that kind. *)
Lemma reachable_reached s : unlock_reliable K -> reachable excl_mode s -> reached excl_mode s.
Proof.
  intros Hun. induction 1 as [k Hk|s s' _ IH Hst]; [by constructor|]. eapply reached_step; [exact IH|exact Hst|].
  intros p inode files f l c e k' _ Hl Hs _. by eapply Hun.
Qed.

Lemma reachable_inv s : unlock_reliable K -> reachable excl_mode s -> sys_inv s.
Proof. intros Hun Hs. by apply reached_inv, reachable_reached. Qed.
End Global.

(** ** A call on its own *)

(** The call run to its end without interference. *)
Fixpoint run_prog {K} `{PosixLocks K} {A} (k : K) (p : Z) (pg : prog A) : option (A * K) :=
  match pg with
  | Ret a => Some (a, k)
  | Stuck => None
  | SetLk l c => let '(e, k) := setlk k p l in run_prog k p (c e)
  | GetLk l c => let '(e, b, k) := getlk k p l in run_prog k p (c e b)
  | CloseFd fd c => run_prog (closefd k p fd) p c
  end.

Lemma run_bind {K} `{PosixLocks K} {A B} (pg : prog A) (g : A -> prog B) : forall k p,
  run_prog k p (pbind pg g) = '(a, k) ← run_prog k p pg; run_prog k p (g a).
Proof.
  induction pg as [a| |l c IH|l c IH|fd c IH]; intros k p; cbn; [done|done|..].
  - destruct (setlk k p l). apply IH.
  - destruct (getlk k p l) as [[? ?] ?]. apply IH.
  - apply IH.
Qed.

(** Locks nothing stands in the way of are granted. *)
Definition grants (K : Type) `{PosixLocks K} : Prop :=
  forall k p l, l_len l <> 0 \/ l_type l = F_UNLCK ->
    (forall q b, q <> p -> covers l b = true -> compat (l_type l) (held k q b) = true) -> fst (setlk k p l) = 0.

Section Granted.
Context {K : Type} `{PosixLocks K} (Hgr : grants K) (p : Z).

Definition alone (k : K) : Prop := forall q b, q <> p -> held k q b = None.

(** The assert of unixFileLock cannot fail. *)
Definition process_free (x : unixFile) (j : unixInodeInfo) : Prop :=
  flag (uf_ctrlFlags x) UNIXFILE_EXCL = true -> i_bProcessLock j = 0 -> i_nLock j = 0.

Lemma run_setlk k l : alone k -> l_len l <> 0 \/ l_type l = F_UNLCK -> exists k', setlk k p l = (0, k') /\ alone k'.
Proof using Hgr.
  intros Ha Hl. pose proof (Hgr k p l Hl) as H0. destruct (setlk k p l) as [e k'] eqn:Hs. cbn in H0.
  rewrite H0 in Hs by (intros q b Hq _; rewrite (Ha q b Hq); by destruct (l_type l)). rewrite H0 by (intros q b Hq _; rewrite (Ha q b Hq); by destruct (l_type l)).
  exists k'. split; [done|]. destruct (setlk_ok _ _ _ _ Hs) as [_ Hh]. intros q b Hq. by rewrite Hh, (proj2 (Z.eqb_neq q p)), Ha.
Qed.

Lemma run_unixFileLock k x j l : alone k -> process_free x j -> l_len l <> 0 \/ l_type l = F_UNLCK ->
  exists j' k', run_prog k p (unixFileLock x j l) = Some ((0, j'), k') /\ alone k' /\ process_free x j' /\
    i_nShared j' = i_nShared j /\ i_eFileLock j' = i_eFileLock j.
Proof using Hgr.
  intros Ha Hfree Hl. unfold unixFileLock.
  destruct (flag (uf_ctrlFlags x) UNIXFILE_RDONLY) eqn:Hro; rewrite ?andb_false_r, ?andb_true_r; cbn [negb].
  { destruct (run_setlk k l Ha Hl) as (k' & Hs & Ha'). exists j, k'. cbn. rewrite Hs. done. }
  destruct (Z.eqb_spec (i_bProcessLock j) 0) as [Hb|Hb]; cbn [negb]; rewrite ?orb_false_r, ?orb_true_r; [|by exists j, k].
  destruct (flag (uf_ctrlFlags x) UNIXFILE_EXCL) eqn:Hex; cbn [andb].
  - rewrite (Hfree Hex Hb). cbn [passert pbind Z.eqb run_prog]. destruct (run_setlk k (mkFlock F_WRLCK SHARED_FIRST SHARED_SIZE) Ha ltac:(by left)) as (k' & Hs & Ha').
    rewrite Hs. cbn. eexists _, k'. split; [done|]. split; [done|]. split; [by intros _|done].
  - destruct (run_setlk k l Ha Hl) as (k' & Hs & Ha'). exists j, k'. cbn. rewrite Hs. done.
Qed.

Lemma run_unixLock mode o files f x i e k :
  linv mode o files i -> files !! f = Some x -> (forall g y, g <> f -> files !! g = Some y -> uf_eFileLock y = NO_LOCK) -> alone k -> call_ok x (CLock e) ->
  exists x' i' k', run_prog k p (unixLock x i e) = Some ((SQLITE_OK, x', i'), k') /\ e <= uf_eFileLock x'.
Proof using Hgr.
  intros Hinv Hf Hoth Ha Hc. unfold unixLock. destruct (Z.leb_spec e (uf_eFileLock x)) as [Hle|Hlt]; [by exists x, i, k|].
  destruct (li_lock _ _ _ _ Hinv f x Hf) as (Hr & Htop & _). destruct (inv_count Hinv) as [Hcn _]. pose proof (li_zero _ _ _ _ Hinv) as Hz. pose proof (li_range _ _ _ _ Hinv) as Hir.
  assert (i_nShared i = lk01 (uf_eFileLock x)) as Hns.
  { rewrite Hcn. pose proof (nlocked_delete _ _ _ Hf) as Hd. destruct (decide (nlocked (delete f files) = 0)) as [|Hne]; [lia|].
    destruct (nlocked_exists (delete f files)) as (g & y & [Hg Hy]%lookup_delete_Some & Hly); [unfold nlocked in *; lia|]. rewrite (Hoth g y) in Hly by done. done. }
  assert (uf_eFileLock x = i_eFileLock i) as Heq.
  { destruct (decide (1 < i_eFileLock i)) as [Hgt|Hgt].
    - destruct (li_top _ _ _ _ Hinv Hgt) as (g & y & Hy & Ht). destruct (decide (g = f)) as [->|Hg]; [congruence|]. rewrite (Hoth g y Hg Hy) in Ht. unfold NO_LOCK in Ht. lia.
    - unfold lk01, SHARED_LOCK in Hns. destruct (Z.leb_spec 1 (uf_eFileLock x)); lia. }
  assert (process_free x i) as Hfree. { intros Hex Hb. destruct (file_facts Hinv Hf) as (Hm & _ & _ & Hn & _). apply Hn; [congruence|done]. }
  unfold call_ok, SHARED_LOCK, NO_LOCK, RESERVED_LOCK, PENDING_LOCK, EXCLUSIVE_LOCK in *. rewrite Heq, Z.eqb_refl. cbn [negb andb]. rewrite <- Heq.
  destruct Hc as [->|[[-> Hx]|[-> Hx]]].
  - assert (uf_eFileLock x = 0) as Hx by lia. rewrite Hx in *. assert (i_nShared i = 0) as Hs0 by lia. cbn [Z.eqb Pos.eqb negb orb andb passert pbind]. rewrite run_bind.
    destruct (run_unixFileLock k x i (mkFlock F_RDLCK PENDING_BYTE 1) Ha Hfree ltac:(by left)) as (j1 & k1 & -> & Ha1 & Hf1 & Hs1 & He1). cbn [mbind option_bind Z.eqb negb].
    rewrite Hs1, He1, Hs0, <- Heq. cbn [Z.eqb passert pbind]. rewrite run_bind.
    destruct (run_unixFileLock k1 x j1 (mkFlock F_RDLCK SHARED_FIRST SHARED_SIZE) Ha1 Hf1 ltac:(by left)) as (j2 & k2 & -> & Ha2 & Hf2 & _). cbn [mbind option_bind Z.eqb negb]. rewrite run_bind.
    destruct (run_unixFileLock k2 x j2 (mkFlock F_UNLCK PENDING_BYTE 1) Ha2 Hf2 ltac:(by left)) as (j3 & k3 & -> & _). cbn. eexists _, _, k3. split; [done|]. cbn. lia.
  - assert (uf_eFileLock x = 1) as Hx1 by lia. rewrite Hx1 in *. cbn [Z.eqb Pos.eqb negb orb andb passert pbind]. rewrite run_bind.
    destruct (run_unixFileLock k x i (mkFlock F_WRLCK RESERVED_BYTE 1) Ha Hfree ltac:(by left)) as (j1 & k1 & -> & _). cbn. eexists _, _, k1. split; [done|]. cbn. lia.
  - assert (i_nShared i <= 1) as Hs1 by (unfold lk01 in Hns; case_match; lia). rewrite (proj2 (Z.eqb_neq (uf_eFileLock x) 0)) by lia. cbn [Z.eqb Pos.eqb negb orb andb passert pbind]. rewrite run_bind.
    assert (exists j1 k1, run_prog k p (if uf_eFileLock x <? 3 then unixFileLock x i (mkFlock F_WRLCK PENDING_BYTE 1) else Ret (0, i)) = Some ((0, j1), k1) /\
      alone k1 /\ process_free x j1 /\ i_nShared j1 = i_nShared i) as (j1 & k1 & -> & Ha1 & Hf1 & Hsj).
    { destruct (Z.ltb_spec (uf_eFileLock x) 3); [|by exists i, k]. destruct (run_unixFileLock k x i (mkFlock F_WRLCK PENDING_BYTE 1) Ha Hfree ltac:(by left)) as (j1 & k1 & Hrun & ? & ? & ? & _). by exists j1, k1. }
    cbn [mbind option_bind Z.eqb negb]. rewrite Hsj, (proj2 (Z.ltb_ge _ _)) by lia. rewrite run_bind.
    destruct (run_unixFileLock k1 x j1 (mkFlock F_WRLCK SHARED_FIRST SHARED_SIZE) Ha1 Hf1 ltac:(by left)) as (j2 & k2 & -> & _). cbn. eexists _, _, k2. split; [done|]. cbn. lia.
Qed.
End Granted.

(** ** Read-only connections of unix-excl *)

Section Mixed.
Context {K : Type} `{PosixLocks K} (p q fd1 fd2 fd3 : Z).

(** A connection of process [p] through unix-excl, a read-only one, and a connection of [q]. *)
Definition excl_file : unixFile := mkFile fd1 NO_LOCK UNIXFILE_EXCL 0 (Some fd1).
Definition ro_file : unixFile := mkFile fd2 NO_LOCK (Z.lor UNIXFILE_EXCL UNIXFILE_RDONLY) 0 (Some fd2).
Definition plain_file : unixFile := mkFile fd3 NO_LOCK 0 0 (Some fd3).

(** The first two lock and unlock in turn, then the first goes up to EXCLUSIVE, then
    the third: the three states and the error codes of the two EXCLUSIVE requests. *)
Definition mixed_run (k : K) : option (Z * Z * Z * Z * Z) :=
  let i := findInodeInfo (Some (findInodeInfo None)) in let j := findInodeInfo None in
  '(_, x, i, k) ← run_prog k p (unixLock excl_file i SHARED_LOCK);
  '(_, x, i, k) ← run_prog k p (unixUnlock x i NO_LOCK);
  '(_, y, i, k) ← run_prog k p (unixLock ro_file i SHARED_LOCK);
  '(_, y, i, k) ← run_prog k p (unixUnlock y i NO_LOCK);
  '(_, x, i, k) ← run_prog k p (unixLock x i SHARED_LOCK);
  '(rc, x, i, k) ← run_prog k p (unixLock x i EXCLUSIVE_LOCK);
  '(_, z, j, k) ← run_prog k q (unixLock plain_file j SHARED_LOCK);
  '(rc', z, j, k) ← run_prog k q (unixLock z j EXCLUSIVE_LOCK);
  Some (rc, rc', uf_eFileLock x, uf_eFileLock y, uf_eFileLock z).

(** Only [r] has locks, and none on bytes before the file's start. *)
Definition owns (r : Z) (k : K) : Prop := alone r k /\ forall b, b < 0 -> held k r b = None.

Lemma owns_setlk (Hgr : grants K) r k l : owns r k -> l_len l <> 0 \/ l_type l = F_UNLCK -> 0 <= l_start l ->
  exists k', setlk k r l = (0, k') /\ owns r k' /\ (l = mkFlock F_UNLCK 0 0 -> forall r' b, held k' r' b = None).
Proof.
  intros [Ha Hn] Hl Hs. destruct (run_setlk Hgr r k l Ha Hl) as (k' & Hk & Ha'). exists k'. split; [done|].
  destruct (setlk_ok _ _ _ _ Hk) as [_ Hh]. split; [split; [done|]|].
  - intros b Hb. rewrite Hh. unfold covers. rewrite (proj2 (Z.leb_gt _ b)) by lia. cbn. rewrite andb_false_r. by apply Hn.
  - intros -> r' b. rewrite Hh. destruct (Z.eqb_spec r' r) as [->|Hr]; [|by apply Ha]. cbn. unfold covers. cbn.
    destruct (Z.leb_spec 0 b); [done|]. by apply Hn.
Qed.
End Mixed.

(** A call run without interference, as steps of the system. *)
Lemma run_reachable {K} `{PosixLocks K} excl_mode p f pg : forall (k : K) ps inode files x i k',
  reachable excl_mode (k, ps) -> getp ps p = mkProc inode files (Some (f, pg)) -> run_prog k p pg = Some ((x, i), k') ->
  exists ps', reachable excl_mode (k', ps') /\
    forall q, getp ps' q = if decide (q = p) then mkProc i (match x with Some x => <[f := x]> files | None => delete f files end) None else getp ps q.
Proof.
  assert (forall (ps : gmap Z proc) pr ps' R, (forall q, getp ps' q = if decide (q = p) then R else getp (<[p := pr]> ps) q) ->
    forall q, getp ps' q = if decide (q = p) then R else getp ps q) as Hskip.
  { intros ps pr ps' R Hq q. rewrite Hq, getp_insert. by case_decide. }
  induction pg as [[x0 i0]| |l c IH|l c IH|fd c IH]; intros k ps inode files x i k' Hr Hp Hrun; cbn in Hrun.
  - injection Hrun as -> -> ->. eexists. split; [eapply reach_step; [exact Hr|by eapply step_ret]|]. intros q. apply getp_insert.
  - done.
  - destruct (setlk k p l) as [e k1] eqn:Hs. edestruct (IH e k1) as (ps' & Hr' & Hq); [eapply reach_step; [exact Hr|by eapply step_setlk]|rewrite getp_insert; by rewrite decide_True|exact Hrun|]. eauto.
  - destruct (getlk k p l) as [[e b] k1] eqn:Hs. edestruct (IH e b k1) as (ps' & Hr' & Hq); [eapply reach_step; [exact Hr|by eapply step_getlk]|rewrite getp_insert; by rewrite decide_True|exact Hrun|]. eauto.
  - edestruct (IH (closefd k p fd)) as (ps' & Hr' & Hq); [eapply reach_step; [exact Hr|by eapply step_close]|rewrite getp_insert; by rewrite decide_True|exact Hrun|]. eauto.
Qed.

Lemma call_reachable {K} `{PosixLocks K} excl_mode p f c (k : K) ps inode files x x' i' k' :
  reachable excl_mode (k, ps) -> getp ps p = mkProc (Some inode) files None -> files !! f = Some x -> call_ok x c ->
  run_prog k p (call_prog c x inode) = Some ((x', i'), k') ->
  exists ps', reachable excl_mode (k', ps') /\
    forall q, getp ps' q = if decide (q = p) then mkProc i' (match x' with Some x => <[f := x]> files | None => delete f files end) None else getp ps q.
Proof.
  intros Hr Hp Hf Hc Hrun. destruct (run_reachable excl_mode p f (call_prog c x inode) k (<[p := mkProc (Some inode) files (Some (f, call_prog c x inode))]> ps) (Some inode) files x' i' k') as (ps' & Hr' & Hq).
  - eapply reach_step; [exact Hr|]. pose proof (step_call excl_mode k ps p f x inode c) as Hs. rewrite Hp in Hs. by apply Hs.
  - rewrite getp_insert. by rewrite decide_True.
  - done.
  - exists ps'. split; [done|]. intros q. rewrite Hq, getp_insert. by case_decide.
Qed.

(** ** A table of locked bytes

    An implementation of the interface: the locks of each process on each
    byte. *)
Module LockTable.
Abbreviation table := (gmap (Z * Z) lk).

Definition mine (p : Z) (l : flock) (e : (Z * Z) * lk) : Prop := fst (fst e) = p /\ covers l (snd (fst e)) = true.
#[local] Instance mine_dec p l e : Decision (mine p l e) := decide (_ /\ _).
Definition conflicting (p : Z) (l : flock) (qb : Z * Z) (v : lk) : Prop := fst qb <> p /\ covers l (snd qb) = true /\ compat (l_type l) (Some v) = false.
#[local] Instance conflicting_dec p l qb v : Decision (conflicting p l qb v) := decide (_ /\ _).

Definition set_range (p : Z) (l : flock) (v : lk) (k : table) : table := foldr (fun b k => <[(p, b) := v]> k) k (seqZ (l_start l) (l_len l)).

Definition t_setlk (k : table) (p : Z) (l : flock) : Z * table :=
  if bool_decide (map_Exists (conflicting p l) k) then (EAGAIN, k)
  else match lock_of (l_type l) with
       | None => (0, filter (fun e => ~ mine p l e) k)
       | Some v => if l_len l =? 0 then (ENOLCK, k) else (0, set_range p l v (filter (fun e => ~ mine p l e) k))
       end.

Definition t_getlk (k : table) (p : Z) (l : flock) : Z * bool * table := (0, bool_decide (map_Exists (conflicting p l) k), k).
Definition t_closefd (k : table) (p _ : Z) : table := filter (fun e => fst (fst e) <> p) k.
Definition t_held (k : table) (p b : Z) : option lk := k !! (p, b).

Lemma set_range_spec p l v k q b : l_len l <> 0 -> set_range p l v k !! (q, b) = if (q =? p) && covers l b then Some v else k !! (q, b).
Proof.
  intros Hl. assert (covers l b = bool_decide (b ∈ seqZ (l_start l) (l_len l))) as ->.
  { apply bool_iff. rewrite bool_decide_eq_true, elem_of_seqZ. unfold covers. rewrite (proj2 (Z.eqb_neq _ 0)) by done. cbn [orb]. rewrite andb_true_iff, Z.leb_le, Z.ltb_lt. done. }
  unfold set_range. generalize (seqZ (l_start l) (l_len l)) as bs. induction bs as [|c bs IH]; cbn [foldr].
  - rewrite bool_decide_false by apply not_elem_of_nil. by rewrite andb_false_r.
  - destruct (decide ((p, c) = (q, b))) as [[= -> ->]|Hne].
    + rewrite lookup_insert_eq, Z.eqb_refl, bool_decide_true; [done|set_solver].
    + rewrite lookup_insert_ne, IH by done. destruct (Z.eqb_spec q p) as [->|]; [|done]. cbn. assert (b <> c) by congruence.
      do 2 case_bool_decide; set_solver.
Qed.

Lemma others_spec (k : table) p l q b : filter (fun e => ~ mine p l e) k !! (q, b) = if (q =? p) && covers l b then None else k !! (q, b).
Proof.
  destruct ((q =? p) && covers l b) eqn:E.
  - apply andb_true_iff in E as [->%Z.eqb_eq E]. apply map_lookup_filter_None. right. intros v _ Hn. by apply Hn.
  - destruct (k !! (q, b)) as [v|] eqn:Hk.
    + apply map_lookup_filter_Some. split; [done|]. intros [Hq Hb]. cbn in Hq, Hb. by rewrite Hq, Z.eqb_refl, Hb in E.
    + apply map_lookup_filter_None. by left.
Qed.

#[global, program] Instance table_locks : PosixLocks table := {| setlk := t_setlk; getlk := t_getlk; closefd := t_closefd; held := t_held |}.
Next Obligation.
  intros k p l k' Hs. unfold t_setlk in Hs. case_bool_decide as Hc; [done|]. split.
  - intros q b Hq Hb. unfold t_held. destruct (k !! (q, b)) as [v|] eqn:Hk; [|by destruct (l_type l)].
    destruct (compat (l_type l) (Some v)) eqn:Hcomp; [done|]. destruct Hc. exists (q, b), v. done.
  - intros q b. unfold t_held. destruct (lock_of (l_type l)) as [v|] eqn:Hl.
    + destruct (Z.eqb_spec (l_len l) 0) as [|Hlen]; [done|]. injection Hs as <-.
      rewrite set_range_spec, others_spec by done. by destruct ((q =? p) && covers l b).
    + injection Hs as <-. apply others_spec.
Qed.
Next Obligation.
  intros k p l e k' Hs He q b. unfold t_setlk in Hs. case_bool_decide; [by injection Hs as <- <-|]. destruct (lock_of (l_type l)); [|congruence]. case_match; congruence.
Qed.
Next Obligation. intros k p l r k' Hs q b. unfold t_getlk in Hs. congruence. Qed.
Next Obligation.
  intros k p l c k' Hs. unfold t_getlk in Hs. injection Hs as <- <-. rewrite bool_decide_eq_true. split.
  - intros ([q b] & v & Hk & Hq & Hb & Hc). exists q, b. unfold t_held. by rewrite Hk.
  - intros (q & b & Hq & Hb & Hc). unfold t_held in Hc. destruct (k !! (q, b)) as [v|] eqn:Hk; [|by destruct (l_type l)]. exists (q, b), v. done.
Qed.
Next Obligation.
  intros k p fd q b. unfold t_held, t_closefd. destruct (Z.eqb_spec q p) as [->|Hq].
  - apply map_lookup_filter_None. right. intros v _ Hn. by apply Hn.
  - destruct (k !! (q, b)) as [v|] eqn:Hk; [apply map_lookup_filter_Some; done|apply map_lookup_filter_None; by left].
Qed.

Lemma table_unlock : unlock_reliable table.
Proof.
  intros k p l e k' Hs Hl. cbn in Hs. unfold t_setlk in Hs. case_bool_decide as Hc.
  - destruct Hc as (qb & v & _ & _ & _ & Hc). by rewrite Hl in Hc.
  - rewrite Hl in Hs. cbn in Hs. congruence.
Qed.

Lemma table_grants : grants table.
Proof.
  intros k p l Hl Hfree. cbn. unfold t_setlk. case_bool_decide as Hc.
  - destruct Hc as ([q b] & v & Hk & Hq & Hb & Hcomp). specialize (Hfree q b Hq Hb). cbn in Hfree. unfold t_held in Hfree. rewrite Hk in Hfree. cbn in Hcomp. congruence.
  - destruct (lock_of (l_type l)) eqn:E; [|done]. destruct (Z.eqb_spec (l_len l) 0) as [H0|]; [|done]. destruct Hl as [Hl|Hl]; [done|]. by rewrite Hl in E.
Qed.

(** Two processes with a connection each; the first has gone up to EXCLUSIVE. *)
Definition after (k : table) (c : call) (e : Z) (i : unixInodeInfo) : table :=
  match run_prog k 1 (call_prog c (mkFile 3 e 0 0 (Some 3)) i) with Some (_, k) => k | None => ∅ end.
Definition k1 : table := after ∅ (CLock SHARED_LOCK) 0 (mkInode 0 0 0 1 0 []).
Definition k2 : table := after k1 (CLock RESERVED_LOCK) 1 (mkInode 1 1 0 1 1 []).
Definition k3 : table := after k2 (CLock EXCLUSIVE_LOCK) 2 (mkInode 1 2 0 1 1 []).

Lemma run_after k c e i r : fst <$> run_prog k 1 (call_prog c (mkFile 3 e 0 0 (Some 3)) i) = Some r ->
  run_prog k 1 (call_prog c (mkFile 3 e 0 0 (Some 3)) i) = Some (r, after k c e i).
Proof. unfold after. destruct (run_prog k 1 _) as [[r' k']|]; cbn; [|done]. by intros [= ->]. Qed.

Lemma two_processes : exists ps, reachable (fun _ => false) (k3, ps) /\
  getp ps 1 = mkProc (Some (mkInode 1 4 0 1 1 [])) {[0 := mkFile 3 4 0 0 (Some 3)]} None /\
  getp ps 2 = mkProc (Some (mkInode 0 0 0 1 0 [])) {[0 := mkFile 3 0 0 0 (Some 3)]} None.
Proof.
  pose (pr := mkProc (Some (mkInode 0 0 0 1 0 [])) {[0 := mkFile 3 0 0 0 (Some 3)]} None).
  assert (reachable (K := table) (fun _ => false) (∅, <[2 := pr]> (<[1 := pr]> ∅))) as H0.
  { eapply reach_step; [eapply reach_step; [by apply (reach_start _ (∅ : table))|exact (step_open (fun _ => false) ∅ ∅ 1 0 3 0 eq_refl eq_refl ltac:(lia) (conj eq_refl (fun _ => eq_refl)))]|].
    exact (step_open (fun _ => false) ∅ (<[1 := pr]> ∅) 2 0 3 0 eq_refl eq_refl ltac:(lia) (conj eq_refl (fun _ => eq_refl))). }
  destruct (call_reachable (fun _ => false) 1 0 (CLock SHARED_LOCK) _ _ (mkInode 0 0 0 1 0 []) {[0 := mkFile 3 0 0 0 (Some 3)]} (mkFile 3 0 0 0 (Some 3))
    (Some (mkFile 3 1 0 0 (Some 3))) (Some (mkInode 1 1 0 1 1 [])) k1 H0) as (ps1 & H1 & G1); [done|done|by left|apply run_after; by vm_compute|].
  destruct (call_reachable (fun _ => false) 1 0 (CLock RESERVED_LOCK) _ _ (mkInode 1 1 0 1 1 []) {[0 := mkFile 3 1 0 0 (Some 3)]} (mkFile 3 1 0 0 (Some 3))
    (Some (mkFile 3 2 0 0 (Some 3))) (Some (mkInode 1 2 0 1 1 [])) k2 H1) as (ps2 & H2 & G2); [by rewrite G1|done|right; by left|apply run_after; by vm_compute|].
  destruct (call_reachable (fun _ => false) 1 0 (CLock EXCLUSIVE_LOCK) _ _ (mkInode 1 2 0 1 1 []) {[0 := mkFile 3 2 0 0 (Some 3)]} (mkFile 3 2 0 0 (Some 3))
    (Some (mkFile 3 4 0 0 (Some 3))) (Some (mkInode 1 4 0 1 1 [])) k3 H2) as (ps3 & H3 & G3); [by rewrite G2|done|right; by right|apply run_after; by vm_compute|].
  exists ps3. split; [done|]. rewrite !G3. cbn. split; [done|]. by rewrite G2, G1.
Qed.
End LockTable.

(** ** Theorems *)

(** C9. Locks exclude each other.  Any number of processes with any number of
    connections each, whose calls interleave system call by system call, never
    reach a state in which a connection is EXCLUSIVE and another one, in the
    same or in another process, is locked at all, or in which two are RESERVED
    or two are PENDING; connections in the middle of a call are not counted.
    No assert of the calls fails.  fcntl and close behave as POSIX says; the runs
    are those in which no request to remove a lock fails (requests to set one may),
    and a process that uses unix-excl opens all its connections that way, none
    read-only. *)
Theorem unix_lock_mutual_exclusion (K : Type) (P : PosixLocks K) (excl_mode : Z -> bool) (k : K) (ps : gmap Z proc) :
  reached excl_mode (k, ps) ->
  (forall p f, p_busy (getp ps p) <> Some (f, Stuck)) /\
  forall p f x q g y, (p, f) <> (q, g) -> settled ps p f x -> settled ps q g y ->
    (uf_eFileLock x = EXCLUSIVE_LOCK -> uf_eFileLock y = NO_LOCK) /\
    (uf_eFileLock x = RESERVED_LOCK -> uf_eFileLock y <> RESERVED_LOCK) /\
    (uf_eFileLock x = PENDING_LOCK -> uf_eFileLock y <> PENDING_LOCK).
Proof.
  intros Hreach. destruct (reached_inv excl_mode _ Hreach) as [Hc Hp]. cbn [fst snd] in *. split.
  { intros p f Hb. destruct (Hp p) as [_ Hinv]. by rewrite Hb in Hinv. }
  intros p f x q g y Hne [Hx Hxb] [Hy Hyb]. unfold EXCLUSIVE_LOCK, RESERVED_LOCK, PENDING_LOCK, NO_LOCK. destruct (decide (p = q)) as [<-|Hpq].
  - assert (f <> g) as Hfg by congruence. destruct (Hp p) as [Hu _]. specialize (Hu f g x y Hfg Hx Hy). lia.
  - pose proof (settled_ok _ _ _ _ _ (Hp p) Hx Hxb) as Hox. pose proof (settled_ok _ _ _ _ _ (Hp q) Hy Hyb) as Hoy.
    destruct (file_exclusion _ _ _ _ Hox Hoy) as (H1 & H2 & H3); [intros b; by apply (Hc p q)|intros b; by apply (Hc q p)|done].
Qed.

Lemma unix_lock_mutual_exclusion_witness :
  exists ps, settled ps 1 0 (mkFile 3 EXCLUSIVE_LOCK 0 0 (Some 3)) /\ settled ps 2 0 (mkFile 3 NO_LOCK 0 0 (Some 3)) /\
    forall y, settled ps 2 0 y -> uf_eFileLock y = NO_LOCK.
Proof.
  destruct LockTable.two_processes as (ps & Hr & G1 & G2).
  destruct (unix_lock_mutual_exclusion _ LockTable.table_locks (fun _ => false) LockTable.k3 ps (reachable_reached _ _ LockTable.table_unlock Hr)) as [_ Hex].
  assert (settled ps 1 0 (mkFile 3 EXCLUSIVE_LOCK 0 0 (Some 3))) as H1 by (split; rewrite G1; done).
  exists ps. split; [exact H1|]. split; [split; rewrite G2; done|]. intros y Hy. by apply (Hex 1 0 _ 2 0 y ltac:(done) H1 Hy).
Defined.

(** A connection's state is backed by locks of its process: whenever no
    call is under way on it, SHARED or more comes with a lock on each of the
    510 shared bytes, RESERVED with a write lock on the reserved byte, PENDING with one on the
    pending byte, EXCLUSIVE with one on every shared byte (a write lock on
    all shared bytes stands for any of these).  So closing
    another connection of the process, which would drop all its POSIX locks,
    never takes a lock away from a connection that counts on it. *)
Theorem unix_locks_backed (K : Type) (P : PosixLocks K) (excl_mode : Z -> bool) (k : K) (ps : gmap Z proc) (p f : Z) (x : unixFile) :
  reached excl_mode (k, ps) -> settled ps p f x ->
  let whole := forall b, SHARED_FIRST <= b < SHARED_FIRST + SHARED_SIZE -> held k p b = Some WR in
  (SHARED_LOCK <= uf_eFileLock x -> forall b, SHARED_FIRST <= b < SHARED_FIRST + SHARED_SIZE -> held k p b <> None) /\
  (uf_eFileLock x = RESERVED_LOCK -> whole \/ held k p RESERVED_BYTE = Some WR) /\
  (uf_eFileLock x = PENDING_LOCK -> whole \/ held k p PENDING_BYTE = Some WR) /\
  (uf_eFileLock x = EXCLUSIVE_LOCK -> whole).
Proof.
  intros Hreach [Hx Hxb]. destruct (reached_inv excl_mode _ Hreach) as [_ Hp]. cbn [fst snd] in *.
  destruct (settled_ok _ _ _ _ _ (Hp p) Hx Hxb) as [H0|[He|(H1 & H2 & H3 & H4)]]; cbv zeta.
  - rewrite H0. done.
  - split; [|by auto]. intros _ b Hb. by rewrite (He b Hb).
  - split; [by intros _|]. split; [intros He; right; by apply H2|]. split; [intros He; right; by apply H3|done].
Qed.

Lemma unix_locks_backed_witness : exists ps, settled ps 1 0 (mkFile 3 EXCLUSIVE_LOCK 0 0 (Some 3)) /\ held (LockTable.k3) 1 SHARED_FIRST = Some WR.
Proof.
  destruct LockTable.two_processes as (ps & Hr & G1 & G2).
  assert (settled ps 1 0 (mkFile 3 EXCLUSIVE_LOCK 0 0 (Some 3))) as H1 by (split; rewrite G1; done).
  exists ps. split; [exact H1|].
  destruct (unix_locks_backed _ LockTable.table_locks (fun _ => false) LockTable.k3 ps 1 0 _ (reachable_reached _ _ LockTable.table_unlock Hr) H1) as (_ & _ & _ & He).
  apply (He eq_refl). unfold SHARED_SIZE. lia.
Defined.

(** The next request of the program that runs, or its end. *)
Ltac run_step Hgr :=
  lazymatch goal with
  | |- (run_prog ?k ?r ?pg ≫= ?f) = ?rhs =>
      let pg' := eval vm_compute in pg in
      lazymatch pg' with
      | Ret _ => change ((run_prog k r pg' ≫= f) = rhs); cbn [run_prog mbind option_bind]
      | SetLk ?l ?c =>
          change (((let '(e, k0) := setlk k r l in run_prog k0 r (c e)) ≫= f) = rhs);
          lazymatch goal with Ho : owns r k |- _ =>
            destruct (owns_setlk Hgr r k l Ho) as (?k & -> & ?Ho & Hn); [by right + by left|done|];
            first [specialize (Hn eq_refl)|clear Hn] end
      end
  end.

(** C40. The restriction on read-only connections matters, on every system that
    grants locks nothing stands in the way of: with a read-write and a read-only
    connection through unix-excl in one process, the locks of the read-only one
    replace and then drop the exclusive lock of the process, which the other still counts
    on, so that it becomes EXCLUSIVE, with SQLITE_OK, together with a connection of
    another process. *)
Theorem read_only_drops_process_lock (K : Type) (P : PosixLocks K) (k : K) (p q fd1 fd2 fd3 : Z) :
  grants K -> p <> q -> (forall r b, held k r b = None) ->
  mixed_run p q fd1 fd2 fd3 k = Some (SQLITE_OK, SQLITE_OK, EXCLUSIVE_LOCK, NO_LOCK, EXCLUSIVE_LOCK).
Proof.
  intros Hgr Hpq Hk. assert (owns p k) as Hp by (split; [intros r b _; apply Hk|intros b _; apply Hk]). unfold mixed_run.
  repeat run_step Hgr.
  match goal with |- (run_prog ?k' q _ ≫= _) = _ => assert (owns q k') by (split; [intros r b _; done|intros b _; done]); clear Hn end.
  repeat run_step Hgr. done.
Qed.

Lemma read_only_drops_process_lock_witness :
  mixed_run 1 2 3 4 3 (∅ : LockTable.table) = Some (SQLITE_OK, SQLITE_OK, EXCLUSIVE_LOCK, NO_LOCK, EXCLUSIVE_LOCK).
Proof. apply (read_only_drops_process_lock LockTable.table LockTable.table_locks ∅ 1 2 3 4 3); [exact LockTable.table_grants|done|done]. Defined.

(** C39. Locks are granted: when no other process has a lock on the file and
    no other connection of the process is locked, a call of unixLock that is not disturbed
    returns SQLITE_OK with at least the state asked for, from any reachable state, on a
    system that does not refuse a request nothing stands in the way of. *)
Theorem unix_lock_granted (K : Type) (P : PosixLocks K) (excl_mode : Z -> bool) (k : K) (ps : gmap Z proc) (p f e : Z) (x : unixFile) (i : unixInodeInfo) :
  unlock_reliable K -> grants K -> reachable excl_mode (k, ps) ->
  p_busy (getp ps p) = None -> p_files (getp ps p) !! f = Some x -> p_inode (getp ps p) = Some i ->
  (forall g y, g <> f -> p_files (getp ps p) !! g = Some y -> uf_eFileLock y = NO_LOCK) -> (forall q b, q <> p -> held k q b = None) ->
  call_ok x (CLock e) ->
  exists x' i' k', run_prog k p (unixLock x i e) = Some ((SQLITE_OK, x', i'), k') /\ e <= uf_eFileLock x'.
Proof.
  intros Hun Hgr Hreach Hb Hf Hi Hoth Hal Hc. destruct (reachable_inv excl_mode _ Hun Hreach) as [_ Hp]. cbn [fst snd] in *.
  destruct (Hp p) as [_ Hinv]. rewrite Hb, Hi in Hinv. by eapply run_unixLock.
Qed.

Lemma unix_lock_granted_witness : exists ps x' i' k',
  p_files (getp ps 1) !! 0 = Some (mkFile 3 NO_LOCK 0 0 (Some 3)) /\
  run_prog (∅ : LockTable.table) 1 (unixLock (mkFile 3 0 0 0 (Some 3)) (mkInode 0 0 0 1 0 []) SHARED_LOCK) = Some ((SQLITE_OK, x', i'), k') /\ SHARED_LOCK <= uf_eFileLock x'.
Proof.
  pose (ps := <[1 := mkProc (Some (mkInode 0 0 0 1 0 [])) {[0 := mkFile 3 0 0 0 (Some 3)]} None]> ∅ : gmap Z proc).
  assert (reachable (fun _ => false) ((∅ : LockTable.table), ps)) as Hr.
  { eapply reach_step; [by apply (reach_start _ (∅ : LockTable.table))|]. exact (step_open (fun _ => false) ∅ ∅ 1 0 3 0 eq_refl eq_refl ltac:(lia) (conj eq_refl (fun _ => eq_refl))). }
  destruct (unix_lock_granted _ LockTable.table_locks (fun _ => false) ∅ ps 1 0 SHARED_LOCK (mkFile 3 0 0 0 (Some 3)) (mkInode 0 0 0 1 0 []))
    as (x' & i' & k' & Hrun & Hle); [exact LockTable.table_unlock|exact LockTable.table_grants|exact Hr|done|done|done| |done|by left|].
  - intros g y Hg Hy. change (({[0 := mkFile 3 0 0 0 (Some 3)]} : gmap Z unixFile) !! g = Some y) in Hy. by rewrite lookup_singleton_ne in Hy by done.
  - exists ps, x', i', k'. split; [reflexivity|]. split; [exact Hrun|exact Hle].
Defined.
