(* ===== verification/Page.v ===== *)
(** * Page: the layout of B-tree pages (btree.c)

    A page is the array of bytes it has on disk.  The memory routines of
    btree.c keep the cells of a page in its content area, with the unused bytes
    in a list of free blocks, in the gap before the content area and, when
    fewer than four, as fragments.  The pager's scratch page is a field of
    [BtShared]; whether sqlite3PagerWrite succeeds is an input of insertCell.
    The pointer map of auto-vacuum databases is left out. *)
From S2P Require Import Prelude Varint Record.

(** ** Data *)

Definition PTF_INTKEY : Z := 0x01.
Definition PTF_ZERODATA : Z := 0x02.
Definition PTF_LEAFDATA : Z := 0x04.
Definition PTF_LEAF : Z := 0x08.
Definition BTS_SECURE_DELETE : Z := 0x0004.

Record BtShared := mkBt {
  bt_btsFlags : Z;
  bt_pageSize : Z;
  bt_usableSize : Z;
  bt_maxLocal : Z;
  bt_minLocal : Z;
  bt_maxLeaf : Z;
  bt_minLeaf : Z;
  bt_max1bytePayload : Z;
  bt_pTmpSpace : list Z }.

(** apOvfl and aiOvfl are one list of at most five entries. *)
Record MemPage := mkPage {
  pg_isInit : Z;
  pg_intKey : Z;
  pg_leaf : Z;
  pg_hasData : Z;
  pg_hdrOffset : Z;
  pg_childPtrSize : Z;
  pg_max1bytePayload : Z;
  pg_maxLocal : Z;
  pg_minLocal : Z;
  pg_cellOffset : Z;
  pg_nFree : Z;
  pg_nCell : Z;
  pg_maskPage : Z;
  pg_ovfl : list (Z * list Z);
  pg_pBt : BtShared;
  pg_aData : list Z }.

Definition MX_CELL (pBt : BtShared) : Z := (bt_pageSize pBt - 8) / 6.

(** The limits lockBtree computes from the usable size. *)
Definition lockBtree_limits (pBt : BtShared) : BtShared :=
  let u := bt_usableSize pBt in
  let maxLocal := u16 (u32 (u32 (u32 (u - 12) * 64) / 255 - 23)) in
  let minLocal := u16 (u32 (u32 (u32 (u - 12) * 32) / 255 - 23)) in
  let maxLeaf := u16 (u32 (u - 35)) in
  mkBt (bt_btsFlags pBt) (bt_pageSize pBt) u maxLocal minLocal maxLeaf minLocal (if 127 <? maxLocal then 127 else u8 maxLocal) (bt_pTmpSpace pBt).

(** Updates of the fields the routines change. *)
Definition set_data (p : MemPage) (d : list Z) : MemPage :=
  mkPage (pg_isInit p) (pg_intKey p) (pg_leaf p) (pg_hasData p) (pg_hdrOffset p) (pg_childPtrSize p) (pg_max1bytePayload p)
    (pg_maxLocal p) (pg_minLocal p) (pg_cellOffset p) (pg_nFree p) (pg_nCell p) (pg_maskPage p) (pg_ovfl p) (pg_pBt p) d.
Definition set_free (p : MemPage) (n : Z) : MemPage :=
  mkPage (pg_isInit p) (pg_intKey p) (pg_leaf p) (pg_hasData p) (pg_hdrOffset p) (pg_childPtrSize p) (pg_max1bytePayload p)
    (pg_maxLocal p) (pg_minLocal p) (pg_cellOffset p) n (pg_nCell p) (pg_maskPage p) (pg_ovfl p) (pg_pBt p) (pg_aData p).
Definition set_nCell (p : MemPage) (n : Z) : MemPage :=
  mkPage (pg_isInit p) (pg_intKey p) (pg_leaf p) (pg_hasData p) (pg_hdrOffset p) (pg_childPtrSize p) (pg_max1bytePayload p)
    (pg_maxLocal p) (pg_minLocal p) (pg_cellOffset p) (pg_nFree p) n (pg_maskPage p) (pg_ovfl p) (pg_pBt p) (pg_aData p).
Definition set_ovfl (p : MemPage) (l : list (Z * list Z)) : MemPage :=
  mkPage (pg_isInit p) (pg_intKey p) (pg_leaf p) (pg_hasData p) (pg_hdrOffset p) (pg_childPtrSize p) (pg_max1bytePayload p)
    (pg_maxLocal p) (pg_minLocal p) (pg_cellOffset p) (pg_nFree p) (pg_nCell p) (pg_maskPage p) l (pg_pBt p) (pg_aData p).

(** ** Bytes *)

Definition get2byte (d : list Z) (i : Z) : option Z := a ← aget d i; b ← aget d (i + 1); Some (Z.lor (Z.shiftl a 8) b).
Definition put2byte (d : list Z) (i v : Z) : option (list Z) := d ← aset d i (u8 (Z.shiftr v 8)); aset d (i + 1) (u8 v).
Definition get2byteNotZero (d : list Z) (i : Z) : option Z := v ← get2byte d i; Some (Z.land (v - 1) 65535 + 1).

(** The [n] bytes from [i] on: the source of a memcpy. *)
Definition get_bytes (d : list Z) (i n : Z) : option (list Z) :=
  if decide (0 <= i /\ 0 <= n /\ i + n <= Z.of_nat (length d)) then Some (take (Z.to_nat n) (drop (Z.to_nat i) d)) else None.
(** memcpy(&d[dst], &s[src], n) *)
Definition copy_bytes (d : list Z) (dst : Z) (s : list Z) (src n : Z) : option (list Z) := l ← get_bytes s src n; put_bytes d dst l.
(** memset(&d[i], 0, n) *)
Definition zero_bytes (d : list Z) (i n : Z) : option (list Z) := _ ← assert_ (0 <=? n); put_bytes d i (replicate (Z.to_nat n) 0).

(** ** Cells *)

(** The loop over the bytes of the key: how many are passed. *)
Fixpoint key_loop (fuel : nat) (l : list Z) (n : Z) : option Z :=
  match fuel, l with
  | S f, b :: l => if negb (Z.land b 0x80 =? 0) && (n + 1 <? 9) then key_loop f l (n + 1) else Some (n + 1)
  | _, _ => None
  end.

(** The bytes of payload kept on the page. *)
Definition local_size (pPage : MemPage) (nSize : Z) : Z :=
  if pg_maxLocal pPage <? nSize then
    let minLocal := pg_minLocal pPage in
    let n := u32 (minLocal + u32 (nSize - minLocal) mod (bt_usableSize (pg_pBt pPage) - 4)) in
    u32 ((if pg_maxLocal pPage <? n then minLocal else n) + 4)
  else nSize.

Definition cellSizePtr (pPage : MemPage) (pCell : list Z) : option Z :=
  let pIter := pg_childPtrSize pPage in
  '(nSize, pIter) ← (if negb (pg_intKey pPage =? 0) then
      '(nSize, pIter) ← (if negb (pg_hasData pPage =? 0) then
          l ← suffix pCell pIter; '(v, n) ← getVarint32 l; Some (v, pIter + n)
        else Some (0, pIter));
      l ← suffix pCell pIter; n ← key_loop 9 l 0; Some (nSize, pIter + n)
    else l ← suffix pCell pIter; '(v, n) ← getVarint32 l; Some (v, pIter + n));
  let nSize := local_size pPage nSize in
  let nSize := u32 (nSize + pIter) in
  let nSize := if nSize <? 4 then 4 else nSize in
  Some (u16 nSize).

Record CellInfo := mkCellInfo {
  ci_nKey : Z;
  ci_nData : Z;
  ci_nPayload : Z;
  ci_nHeader : Z;
  ci_nLocal : Z;
  ci_iOverflow : Z;
  ci_nSize : Z }.

Definition btreeParseCellPtr (pPage : MemPage) (pCell : list Z) : option CellInfo :=
  _ ← assert_ ((pg_leaf pPage =? 0) || (pg_leaf pPage =? 1));
  let n := pg_childPtrSize pPage in
  _ ← assert_ (n =? 4 - 4 * pg_leaf pPage);
  '(n, nPayload, nKey, nData) ← (if negb (pg_intKey pPage =? 0) then
      '(n, nPayload) ← (if negb (pg_hasData pPage =? 0) then
          _ ← assert_ (n =? 0);
          '(v, n) ← getVarint32 pCell; Some (n, v)
        else Some (n, 0));
      l ← suffix pCell n; '(k, m) ← sqlite3GetVarint l; Some (u16 (n + m), nPayload, k, nPayload)
    else l ← suffix pCell n; '(v, m) ← getVarint32 l; Some (u16 (n + m), v, v, 0));
  if nPayload <=? pg_maxLocal pPage then
    let nSize := u16 (n + nPayload) in
    Some (mkCellInfo nKey nData nPayload n (u16 nPayload) 0 (if nSize <? 4 then 4 else nSize))
  else
    let minLocal := pg_minLocal pPage in
    let surplus := u32 (minLocal + u32 (nPayload - minLocal) mod (bt_usableSize (pg_pBt pPage) - 4)) in
    let nLocal := if surplus <=? pg_maxLocal pPage then u16 surplus else u16 minLocal in
    let iOverflow := u16 (nLocal + n) in
    Some (mkCellInfo nKey nData nPayload n nLocal iOverflow (u16 (iOverflow + 4))).

(** The offset findCell points to. *)
Definition findCell (pPage : MemPage) (iCell : Z) : option Z :=
  v ← get2byte (pg_aData pPage) (pg_cellOffset pPage + 2 * iCell);
  Some (Z.land (pg_maskPage pPage) v).

(** ** Space *)

Fixpoint defragment_loop (fuel : nat) (pPage : MemPage) (temp data : list Z) (i cbrk : Z) : option (Z * list Z * Z) :=
  match fuel with
  | O => None
  | S f =>
      if i <? pg_nCell pPage then
        let usableSize := bt_usableSize (pg_pBt pPage) in
        let iCellFirst := pg_cellOffset pPage + 2 * pg_nCell pPage in
        let iCellLast := usableSize - 4 in
        let pAddr := pg_cellOffset pPage + i * 2 in
        pc ← get2byte data pAddr;
        if (pc <? iCellFirst) || (iCellLast <? pc) then Some (SQLITE_CORRUPT, data, cbrk)
        else
          l ← suffix temp pc;
          size ← cellSizePtr pPage l;
          let cbrk := cbrk - size in
          if (cbrk <? iCellFirst) || (usableSize <? pc + size) then Some (SQLITE_CORRUPT, data, cbrk)
          else
            data ← copy_bytes data cbrk temp pc size;
            data ← put2byte data pAddr cbrk;
            defragment_loop f pPage temp data (i + 1) cbrk
      else Some (SQLITE_OK, data, cbrk)
  end.

Definition defragmentPage (pPage : MemPage) : option (Z * MemPage) :=
  _ ← assert_ (bt_usableSize (pg_pBt pPage) <=? 65536);
  _ ← assert_ (match pg_ovfl pPage with [] => true | _ => false end);
  let data := pg_aData pPage in
  let hdr := pg_hdrOffset pPage in
  let usableSize := bt_usableSize (pg_pBt pPage) in
  n ← get2byte data (hdr + 3);
  _ ← assert_ (pg_nCell pPage =? n);
  cbrk ← get2byte data (hdr + 5);
  temp ← copy_bytes (bt_pTmpSpace (pg_pBt pPage)) cbrk data cbrk (usableSize - cbrk);
  let iCellFirst := pg_cellOffset pPage + 2 * pg_nCell pPage in
  '(rc, data, cbrk) ← defragment_loop (S (Z.to_nat (pg_nCell pPage))) pPage temp data 0 usableSize;
  if negb (rc =? SQLITE_OK) then Some (rc, set_data pPage data)
  else
    _ ← assert_ (iCellFirst <=? cbrk);
    data ← put2byte data (hdr + 5) cbrk;
    data ← aset data (hdr + 1) 0;
    data ← aset data (hdr + 2) 0;
    data ← aset data (hdr + 7) 0;
    data ← zero_bytes data iCellFirst (cbrk - iCellFirst);
    Some (if negb (cbrk - iCellFirst =? pg_nFree pPage) then SQLITE_CORRUPT else SQLITE_OK, set_data pPage data).

(** The search of the free list: the result, or that no slot fits. *)
Fixpoint slot_loop (fuel : nat) (data : list Z) (hdr usableSize nFrag nByte addr : Z) : option (option (Z * list Z * Z)) :=
  match fuel with
  | O => None
  | S f =>
      pc ← get2byte data addr;
      if 0 <? pc then
        if (usableSize - 4 <? pc) || (pc <? addr + 4) then Some (Some (SQLITE_CORRUPT, data, 0))
        else
          size ← get2byte data (pc + 2);
          if nByte <=? size then
            let x := size - nByte in
            if x <? 4 then
              data ← copy_bytes data addr data pc 2;
              data ← aset data (hdr + 7) (u8 (nFrag + x));
              Some (Some (SQLITE_OK, data, pc + x))
            else if usableSize <? size + pc then Some (Some (SQLITE_CORRUPT, data, 0))
            else
              data ← put2byte data (pc + 2) x;
              Some (Some (SQLITE_OK, data, pc + x))
          else slot_loop f data hdr usableSize nFrag nByte pc
      else Some None
  end.

(** The end of allocateSpace: from the gap, after a defragmentation if it is
    too small. *)
Definition allocate_gap (pPage : MemPage) (nByte gap top : Z) : option (Z * MemPage * Z) :=
  let hdr := pg_hdrOffset pPage in
  '(rc, pPage, top) ← (if top <? gap + 2 + nByte then
      '(rc, pPage) ← defragmentPage pPage;
      if negb (rc =? SQLITE_OK) then Some (rc, pPage, top)
      else
        top ← get2byteNotZero (pg_aData pPage) (hdr + 5);
        _ ← assert_ (gap + nByte <=? top);
        Some (SQLITE_OK, pPage, top)
    else Some (SQLITE_OK, pPage, top));
  if negb (rc =? SQLITE_OK) then Some (rc, pPage, 0)
  else
    let top := top - nByte in
    data ← put2byte (pg_aData pPage) (hdr + 5) top;
    _ ← assert_ (top + nByte <=? bt_usableSize (pg_pBt pPage));
    Some (SQLITE_OK, set_data pPage data, top).

(** The last component is *pIdx. *)
Definition allocateSpace (pPage : MemPage) (nByte : Z) : option (Z * MemPage * Z) :=
  let hdr := pg_hdrOffset pPage in
  let data := pg_aData pPage in
  _ ← assert_ (0 <=? nByte);
  _ ← assert_ (nByte <=? pg_nFree pPage);
  _ ← assert_ (match pg_ovfl pPage with [] => true | _ => false end);
  let usableSize := bt_usableSize (pg_pBt pPage) in
  _ ← assert_ (nByte <? usableSize - 8);
  nFrag ← aget data (hdr + 7);
  _ ← assert_ (pg_cellOffset pPage =? hdr + 12 - 4 * pg_leaf pPage);
  let gap := pg_cellOffset pPage + 2 * pg_nCell pPage in
  top ← get2byteNotZero data (hdr + 5);
  if top <? gap then Some (SQLITE_CORRUPT, pPage, 0)
  else if 60 <=? nFrag then
    '(rc, pPage) ← defragmentPage pPage;
    if negb (rc =? SQLITE_OK) then Some (rc, pPage, 0)
    else top ← get2byteNotZero (pg_aData pPage) (hdr + 5); allocate_gap pPage nByte gap top
  else if gap + 2 <=? top then
    r ← slot_loop (S (Z.to_nat usableSize)) data hdr usableSize nFrag nByte (hdr + 1);
    match r with
    | Some (rc, data, idx) => Some (rc, set_data pPage data, idx)
    | None => allocate_gap pPage nByte gap top
    end
  else allocate_gap pPage nByte gap top.

(** The place in the free list: addr, pbegin; [None] inside for a corrupt list *)
Fixpoint free_find (fuel : nat) (data : list Z) (start addr : Z) : option (option (Z * Z)) :=
  match fuel with
  | O => None
  | S f =>
      pbegin ← get2byte data addr;
      if (pbegin <? start) && (0 <? pbegin) then
        if pbegin <? addr + 4 then Some None else free_find f data start pbegin
      else Some (Some (addr, pbegin))
  end.

(** Coalescing of adjacent free blocks. *)
Fixpoint coalesce_loop (fuel : nat) (data : list Z) (hdr usableSize addr : Z) : option (Z * list Z) :=
  match fuel with
  | O => None
  | S f =>
      pbegin ← get2byte data addr;
      if 0 <? pbegin then
        _ ← assert_ (addr <? pbegin);
        _ ← assert_ (pbegin <=? usableSize - 4);
        pnext ← get2byte data pbegin;
        psize ← get2byte data (pbegin + 2);
        if (pnext <=? pbegin + psize + 3) && (0 <? pnext) then
          let frag := pnext - (pbegin + psize) in
          n ← aget data (hdr + 7);
          if (frag <? 0) || (n <? frag) then Some (SQLITE_CORRUPT, data)
          else
            data ← aset data (hdr + 7) (u8 (n - u8 frag));
            x ← get2byte data pnext;
            data ← put2byte data pbegin x;
            s ← get2byte data (pnext + 2);
            let x := pnext + s - pbegin in
            data ← put2byte data (pbegin + 2) x;
            coalesce_loop f data hdr usableSize addr
        else coalesce_loop f data hdr usableSize pbegin
      else Some (SQLITE_OK, data)
  end.

(** A free block at the start of the content area is given to the gap. *)
Definition free_top (data : list Z) (hdr : Z) : option (list Z) :=
  a1 ← aget data (hdr + 1); b1 ← aget data (hdr + 5); a2 ← aget data (hdr + 2); b2 ← aget data (hdr + 6);
  if (a1 =? b1) && (a2 =? b2) then
    pbegin ← get2byte data (hdr + 1);
    data ← copy_bytes data (hdr + 1) data pbegin 2;
    t ← get2byte data (hdr + 5);
    s ← get2byte data (pbegin + 2);
    put2byte data (hdr + 5) (t + s)
  else Some data.

Definition freeSpace (pPage : MemPage) (start size : Z) : option (Z * MemPage) :=
  let data := pg_aData pPage in
  let usableSize := bt_usableSize (pg_pBt pPage) in
  _ ← assert_ (pg_hdrOffset pPage + 6 + pg_childPtrSize pPage <=? start);
  _ ← assert_ (start + size <=? usableSize);
  _ ← assert_ (0 <=? size);
  data ← (if flag (bt_btsFlags (pg_pBt pPage)) BTS_SECURE_DELETE then zero_bytes data start size else Some data);
  let hdr := pg_hdrOffset pPage in
  let iLast := usableSize - 4 in
  _ ← assert_ (start <=? iLast);
  r ← free_find (S (Z.to_nat usableSize)) data start (hdr + 1);
  match r with
  | None => Some (SQLITE_CORRUPT, set_data pPage data)
  | Some (addr, pbegin) =>
      if iLast <? pbegin then Some (SQLITE_CORRUPT, set_data pPage data)
      else
        _ ← assert_ ((addr <? pbegin) || (pbegin =? 0));
        data ← put2byte data addr start;
        data ← put2byte data start pbegin;
        data ← put2byte data (start + 2) size;
        let pPage := set_free pPage (u16 (pg_nFree pPage + u16 size)) in
        '(rc, data) ← coalesce_loop (S (Z.to_nat usableSize)) data hdr usableSize (hdr + 1);
        if negb (rc =? SQLITE_OK) then Some (rc, set_data pPage data)
        else data ← free_top data hdr; Some (SQLITE_OK, set_data pPage data)
  end.

(** ** Cells of a page *)

(** The result is the new value of *pRC. *)
Definition dropCell (pPage : MemPage) (idx sz rc : Z) : option (Z * MemPage) :=
  if negb (rc =? SQLITE_OK) then Some (rc, pPage)
  else
    _ ← assert_ ((0 <=? idx) && (idx <? pg_nCell pPage));
    let data := pg_aData pPage in
    pCell ← findCell pPage idx;
    l ← suffix data pCell;
    s ← cellSizePtr pPage l;
    _ ← assert_ (sz =? s);
    let ptr := pg_cellOffset pPage + 2 * idx in
    pc ← get2byte data ptr;
    let hdr := pg_hdrOffset pPage in
    t ← get2byte data (hdr + 5);
    if (pc <? t) || (bt_usableSize (pg_pBt pPage) <? pc + sz) then Some (SQLITE_CORRUPT, pPage)
    else
      '(rc, pPage) ← freeSpace pPage pc sz;
      if negb (rc =? SQLITE_OK) then Some (rc, pPage)
      else
        let pPage := set_nCell pPage (u16 (pg_nCell pPage - 1)) in
        data ← copy_bytes (pg_aData pPage) ptr (pg_aData pPage) (ptr + 2) (2 * (pg_nCell pPage - idx));
        data ← put2byte data (hdr + 3) (pg_nCell pPage);
        Some (SQLITE_OK, set_free (set_data pPage data) (u16 (pg_nFree pPage + 2))).

(** put4byte(p, v) *)
Definition put4byte (d : list Z) (i v : Z) : option (list Z) := put_bytes d i (sqlite3Put4byte v).

(** [pTemp] is null or a buffer; [wr] is the result of sqlite3PagerWrite, [rc]
    that of *pRC, whose new value is the result. *)
Definition insertCell (pPage : MemPage) (i : Z) (pCell : list Z) (sz : Z) (pTemp : option (list Z)) (iChild wr rc : Z) : option (Z * MemPage) :=
  let nSkip := if negb (iChild =? 0) then 4 else 0 in
  if negb (rc =? SQLITE_OK) then Some (rc, pPage)
  else
    let nOverflow := Z.of_nat (length (pg_ovfl pPage)) in
    _ ← assert_ ((0 <=? i) && (i <=? pg_nCell pPage + nOverflow));
    _ ← assert_ ((pg_nCell pPage <=? MX_CELL (pg_pBt pPage)) && (MX_CELL (pg_pBt pPage) <=? 10921));
    s ← cellSizePtr pPage pCell;
    _ ← assert_ ((sz =? s) || (sz =? 8) && (0 <? iChild));
    if negb (nOverflow =? 0) || (pg_nFree pPage <? sz + 2) then
      pCell ← match pTemp with Some t => copy_bytes t nSkip pCell nSkip (sz - nSkip) | None => Some pCell end;
      pCell ← (if negb (iChild =? 0) then put4byte pCell 0 iChild else Some pCell);
      _ ← assert_ (nOverflow <? 5);
      Some (SQLITE_OK, set_ovfl pPage (pg_ovfl pPage ++ [(u16 i, pCell)]))
    else if negb (wr =? SQLITE_OK) then Some (wr, pPage)
    else
      let cellOffset := pg_cellOffset pPage in
      let end_ := cellOffset + 2 * pg_nCell pPage in
      let ins := cellOffset + 2 * i in
      '(rc, pPage, idx) ← allocateSpace pPage sz;
      if negb (rc =? SQLITE_OK) then Some (rc, pPage)
      else
        _ ← assert_ (end_ + 2 <=? idx);
        _ ← assert_ (idx + sz <=? bt_usableSize (pg_pBt pPage));
        let pPage := set_free (set_nCell pPage (u16 (pg_nCell pPage + 1))) (u16 (pg_nFree pPage - u16 (2 + sz))) in
        data ← copy_bytes (pg_aData pPage) (idx + nSkip) pCell nSkip (sz - nSkip);
        data ← (if negb (iChild =? 0) then put4byte data idx iChild else Some data);
        data ← copy_bytes data (ins + 2) data ins (end_ - ins);
        data ← put2byte data ins idx;
        data ← put2byte data (pg_hdrOffset pPage + 3) (pg_nCell pPage);
        Some (SQLITE_OK, set_data pPage data).

Fixpoint assemble_loop (data : list Z) (ptr cellbody : Z) (cells : list (list Z)) : option (list Z * Z) :=
  match cells with
  | [] => Some (data, cellbody)
  | c :: cells =>
      let ptr := ptr - 2 in
      let cellbody := cellbody - Z.of_nat (length c) in
      data ← put2byte data ptr cellbody;
      data ← put_bytes data cellbody c;
      assemble_loop data ptr cellbody cells
  end.

(** apCell and aSize are one list of cells. *)
Definition assemblePage (pPage : MemPage) (cells : list (list Z)) : option MemPage :=
  let nCell := Z.of_nat (length cells) in
  let nUsable := bt_usableSize (pg_pBt pPage) in
  let hdr := pg_hdrOffset pPage in
  _ ← assert_ (match pg_ovfl pPage with [] => true | _ => false end);
  _ ← assert_ ((nCell <=? MX_CELL (pg_pBt pPage)) && (MX_CELL (pg_pBt pPage) <=? 10921));
  _ ← assert_ (pg_nCell pPage =? 0);
  t ← get2byteNotZero (pg_aData pPage) (hdr + 5);
  _ ← assert_ (t =? nUsable);
  '(data, cellbody) ← assemble_loop (pg_aData pPage) (pg_cellOffset pPage + 2 * nCell) nUsable (rev cells);
  data ← put2byte data (hdr + 3) nCell;
  data ← put2byte data (hdr + 5) cellbody;
  Some (set_nCell (set_free (set_data pPage data) (u16 (pg_nFree pPage - (nCell * 2 + nUsable - cellbody)))) (u16 nCell)).

(** ** Pages *)

(** The result, and the page with the fields the flags determine. *)
Definition decodeFlags (p : MemPage) (flagByte : Z) : Z * MemPage :=
  let leaf := u8 (Z.shiftr flagByte 3) in
  let flagByte := Z.land flagByte (Z.lnot PTF_LEAF) in
  let childPtrSize := u8 (4 - 4 * leaf) in
  let pBt := pg_pBt p in
  let fields rc intKey hasData maxLocal minLocal max1 :=
    (rc, mkPage (pg_isInit p) intKey leaf hasData (pg_hdrOffset p) childPtrSize max1 maxLocal minLocal
           (pg_cellOffset p) (pg_nFree p) (pg_nCell p) (pg_maskPage p) (pg_ovfl p) pBt (pg_aData p)) in
  if flagByte =? Z.lor PTF_LEAFDATA PTF_INTKEY then fields SQLITE_OK 1 leaf (bt_maxLeaf pBt) (bt_minLeaf pBt) (bt_max1bytePayload pBt)
  else if flagByte =? PTF_ZERODATA then fields SQLITE_OK 0 0 (bt_maxLocal pBt) (bt_minLocal pBt) (bt_max1bytePayload pBt)
  else fields SQLITE_CORRUPT (pg_intKey p) (pg_hasData p) (pg_maxLocal p) (pg_minLocal p) (pg_max1bytePayload p).

(** The sum over the free list; [None] inside for a corrupt list *)
Fixpoint free_sum (fuel : nat) (data : list Z) (iCellFirst iCellLast usableSize pc nFree : Z) : option (option Z) :=
  match fuel with
  | O => None
  | S f =>
      if 0 <? pc then
        if (pc <? iCellFirst) || (iCellLast <? pc) then Some None
        else
          next ← get2byte data pc;
          size ← get2byte data (pc + 2);
          if (0 <? next) && (next <=? pc + size + 3) || (usableSize <? pc + size) then Some None
          else free_sum f data iCellFirst iCellLast usableSize next (nFree + size)
      else Some (Some nFree)
  end.

Definition btreeInitPage (p : MemPage) : option (Z * MemPage) :=
  if negb (pg_isInit p =? 0) then Some (SQLITE_OK, p)
  else
    let hdr := pg_hdrOffset p in
    let data := pg_aData p in
    let pBt := pg_pBt p in
    fl ← aget data hdr;
    let '(rc, p) := decodeFlags p fl in
    if negb (rc =? SQLITE_OK) then Some (SQLITE_CORRUPT, p)
    else
      _ ← assert_ ((512 <=? bt_pageSize pBt) && (bt_pageSize pBt <=? 65536));
      let usableSize := bt_usableSize pBt in
      let cellOffset := u16 (hdr + 12 - 4 * pg_leaf p) in
      top ← get2byteNotZero data (hdr + 5);
      nCell ← get2byte data (hdr + 3);
      let p := mkPage (pg_isInit p) (pg_intKey p) (pg_leaf p) (pg_hasData p) hdr (pg_childPtrSize p) (pg_max1bytePayload p)
                 (pg_maxLocal p) (pg_minLocal p) cellOffset (pg_nFree p) nCell (u16 (bt_pageSize pBt - 1)) [] pBt data in
      if MX_CELL pBt <? nCell then Some (SQLITE_CORRUPT, p)
      else
        let iCellFirst := cellOffset + 2 * nCell in
        let iCellLast := usableSize - 4 in
        pc ← get2byte data (hdr + 1);
        fr ← aget data (hdr + 7);
        r ← free_sum (S (Z.to_nat usableSize)) data iCellFirst iCellLast usableSize pc (fr + top);
        match r with
        | None => Some (SQLITE_CORRUPT, p)
        | Some nFree =>
            if usableSize <? nFree then Some (SQLITE_CORRUPT, p)
            else Some (SQLITE_OK, mkPage 1 (pg_intKey p) (pg_leaf p) (pg_hasData p) hdr (pg_childPtrSize p) (pg_max1bytePayload p)
                   (pg_maxLocal p) (pg_minLocal p) cellOffset (u16 (nFree - iCellFirst)) nCell (pg_maskPage p) [] pBt data)
        end.

Definition zeroPage (p : MemPage) (flags : Z) : option MemPage :=
  let pBt := pg_pBt p in
  let hdr := pg_hdrOffset p in
  data ← (if flag (bt_btsFlags pBt) BTS_SECURE_DELETE then zero_bytes (pg_aData p) hdr (bt_usableSize pBt - hdr) else Some (pg_aData p));
  data ← aset data hdr (u8 flags);
  let first := u16 (hdr + (if Z.land flags PTF_LEAF =? 0 then 12 else 8)) in
  data ← zero_bytes data (hdr + 1) 4;
  data ← aset data (hdr + 7) 0;
  data ← put2byte data (hdr + 5) (bt_usableSize pBt);
  _ ← assert_ ((512 <=? bt_pageSize pBt) && (bt_pageSize pBt <=? 65536));
  let '(_, p) := decodeFlags p flags in
  Some (mkPage 1 (pg_intKey p) (pg_leaf p) (pg_hasData p) hdr (pg_childPtrSize p) (pg_max1bytePayload p)
          (pg_maxLocal p) (pg_minLocal p) first (u16 (bt_usableSize pBt - first)) 0 (u16 (bt_pageSize pBt - 1)) [] pBt data).
