(* ===== verification/PageLayout.v ===== *)
(** * PageLayout: what the bytes of a page mean

    The content area of a page as a sequence of segments: cells, free blocks,
    fragments, and space just allocated.  The free blocks of a layout are
    linked in the order of their addresses. *)
From S2P Require Import Prelude Varint Record Page.

(** ** Bytes *)

Abbreviation mem := (Forall is_byte).

(** The memory changed between [lo] and [hi] only. *)
Definition same_out (d d' : list Z) (lo hi : Z) : Prop :=
  length d' = length d /\ (mem d -> mem d') /\ forall i, i < lo \/ hi <= i -> aget d' i = aget d i.

Definition bytes_at (d : list Z) (i : Z) (l : list Z) : Prop := forall k, 0 <= k < Z.of_nat (length l) -> aget d (i + k) = aget l k.

Lemma same_out_refl d lo hi : same_out d d lo hi.
Proof. by split. Qed.

Lemma same_out_trans d d' d'' lo hi : same_out d d' lo hi -> same_out d' d'' lo hi -> same_out d d'' lo hi.
Proof. intros (H1 & H2 & H3) (H4 & H5 & H6). split; [congruence|]. split; [auto|]. intros i Hi. rewrite H6, H3 by done. done. Qed.

Lemma same_out_weaken d d' lo hi lo' hi' : same_out d d' lo hi -> lo' <= lo -> hi <= hi' -> same_out d d' lo' hi'.
Proof. intros (H1 & H2 & H3) Hl Hh. split; [done|]. split; [done|]. intros i Hi. apply H3. lia. Qed.

Lemma aset_out d i v : 0 <= i < Z.of_nat (length d) -> is_byte v -> exists d', aset d i v = Some d' /\ same_out d d' i (i + 1) /\ aget d' i = Some v.
Proof.
  intros Hi Hv. pose proof (aset_is_Some d i v Hi) as Hs. eexists. split; [exact Hs|]. split; [|by eapply aget_aset_eq].
  split; [by eapply length_aset|]. split; [intros Hm; by apply Forall_insert|]. intros j Hj. eapply aget_aset_ne; [exact Hs|lia].
Qed.

Lemma is_byte_u8 v : is_byte (u8 v).
Proof. unfold ubits, u8. apply Z.mod_pos_bound. lia. Qed.

Lemma get2_val d i a b : aget d i = Some a -> aget d (i + 1) = Some b -> is_byte b -> get2byte d i = Some (a * 256 + b).
Proof. intros Ha Hb Hbb. unfold get2byte. rewrite Ha, Hb. cbn. f_equal. by apply (lor_shift a b 8). Qed.

Lemma get2_same d d' i : aget d' i = aget d i -> aget d' (i + 1) = aget d (i + 1) -> get2byte d' i = get2byte d i.
Proof. unfold get2byte. by intros -> ->. Qed.

Lemma get2_out d d' lo hi i : same_out d d' lo hi -> i + 2 <= lo \/ hi <= i -> get2byte d' i = get2byte d i.
Proof. intros (_ & _ & H) Hi. apply get2_same; apply H; lia. Qed.

Lemma get2_range d i v : mem d -> get2byte d i = Some v -> 0 <= v < 65536.
Proof.
  intros Hm Hg. unfold get2byte in Hg. destruct (aget d i) as [a|] eqn:Ha; [|done]. destruct (aget d (i + 1)) as [b|] eqn:Hb; [|done]. cbn in Hg. injection Hg as <-.
  pose proof (aget_Forall _ _ _ _ Hm Ha) as H1. pose proof (aget_Forall _ _ _ _ Hm Hb) as H2. rewrite (lor_shift a b 8) by (done || lia). unfold ubits in *. lia.
Qed.

Lemma get2_is_Some d i : 0 <= i -> i + 2 <= Z.of_nat (length d) -> exists v, get2byte d i = Some v.
Proof.
  intros H0 Hi. unfold get2byte. destruct (aget_is_Some d i) as [a ->]; [lia|]. destruct (aget_is_Some d (i + 1)) as [b ->]; [lia|]. cbn. eauto.
Qed.

Lemma put2_out d i v : 0 <= i -> i + 2 <= Z.of_nat (length d) ->
  exists d', put2byte d i v = Some d' /\ same_out d d' i (i + 2) /\ get2byte d' i = Some (u16 v).
Proof.
  intros H0 Hi. unfold put2byte. destruct (aset_out d i (u8 (Z.shiftr v 8))) as (d1 & -> & H1 & G1); [lia|apply is_byte_u8|]. cbn [mbind option_bind].
  pose proof H1 as (L1 & _ & _). destruct (aset_out d1 (i + 1) (u8 v)) as (d2 & -> & H2 & G2); [lia|apply is_byte_u8|]. exists d2. split; [done|]. split.
  - eapply same_out_trans; eapply same_out_weaken; [exact H1|lia|lia|exact H2|lia|lia].
  - destruct H2 as (_ & _ & H2). rewrite (get2_val d2 i (u8 (Z.shiftr v 8)) (u8 v)); [|by rewrite H2 by lia|done|apply is_byte_u8].
    f_equal. unfold u8, u16. rewrite Z.shiftr_div_pow2 by lia. rewrite (Z.mod_eq (v / 2 ^ 8) (2 ^ 8)), (Z.mod_eq v (2 ^ 8)), (Z.mod_eq v (2 ^ 16)) by lia.
    rewrite Z.div_div by lia. change (2 ^ 8 * 2 ^ 8) with 65536. change (2 ^ 8) with 256. change (2 ^ 16) with 65536. lia.
Qed.

Lemma u16_id v : 0 <= v < 65536 -> u16 v = v.
Proof. intros. by apply Z.mod_small. Qed.

Lemma u32_id v : 0 <= v < 2 ^ 32 -> u32 v = v.
Proof. apply Z.mod_small. Qed.

(** top, which is never 0 and may be 65536 *)
Lemma get2_not_zero d i top : 0 < top <= 65536 -> get2byte d i = Some (u16 top) -> get2byteNotZero d i = Some top.
Proof.
  intros Ht Hg. unfold get2byteNotZero. rewrite Hg. cbn. f_equal. change 65535 with (Z.ones 16). rewrite Z.land_ones by lia. unfold u16.
  destruct (decide (top = 65536)) as [->|]; [done|]. change (2 ^ 16) with 65536. rewrite !Z.mod_small by (rewrite ?Z.mod_small; lia). lia.
Qed.

Lemma aget_app_l (a b : list Z) i : i < Z.of_nat (length a) -> aget (a ++ b) i = aget a i.
Proof. intros Hi. unfold aget. case_decide; [|done]. apply lookup_app_l. lia. Qed.

Lemma put_bytes_out d off l : 0 <= off -> off + Z.of_nat (length l) <= Z.of_nat (length d) -> mem l ->
  exists d', put_bytes d off l = Some d' /\ same_out d d' off (off + Z.of_nat (length l)) /\ bytes_at d' off l.
Proof.
  intros H0 Hl Hm. unfold put_bytes. rewrite decide_True by lia. set (n := Z.to_nat off).
  assert (d = take n d ++ take (length l) (drop n d) ++ drop (n + length l) d) as Hd.
  { rewrite <- drop_drop, !take_drop. done. }
  assert (Z.of_nat (length (take n d)) = off) as Hn by (rewrite length_take; lia).
  assert (length (take (length l) (drop n d)) = length l) as Hml by (rewrite length_take, length_drop; lia).
  eexists. split; [done|]. split; [split; [|split]|].
  - rewrite Hd at 3. rewrite !length_app. lia.
  - intros Hmd. repeat (apply Forall_app; split); [by apply Forall_take|done|by apply Forall_drop].
  - intros i [Hi|Hi].
    + rewrite Hd at 3. rewrite !aget_app_l by lia. done.
    + rewrite Hd at 3. replace i with (Z.of_nat (length (take n d)) + (i - off)) by lia. rewrite !aget_app_r by lia.
      transitivity (aget (drop (n + length l) d) (i - off - Z.of_nat (length l))).
      * replace (i - off) with (Z.of_nat (length l) + (i - off - Z.of_nat (length l))) at 1 by lia. apply aget_app_r. lia.
      * replace (i - off) with (Z.of_nat (length (take (length l) (drop n d))) + (i - off - Z.of_nat (length l))) at 2 by lia. symmetry. apply aget_app_r. lia.
  - intros k Hk. rewrite <- Hn. rewrite aget_app_r by lia. by rewrite aget_app_l by lia.
Qed.

Lemma bytes_at_split d i l : 0 <= i -> bytes_at d i l -> l = [] \/ exists r, suffix d i = Some (l ++ r) /\ i + Z.of_nat (length l) <= Z.of_nat (length d).
Proof.
  intros H0 Hb. destruct (decide (l = [])) as [|Hne]; [by left|right]. assert (0 < Z.of_nat (length l)) by (destruct l; [done|cbn; lia]).
  assert (i + Z.of_nat (length l) <= Z.of_nat (length d)) as Hlen.
  { specialize (Hb (Z.of_nat (length l) - 1) ltac:(lia)). destruct (aget_is_Some l (Z.of_nat (length l) - 1)) as [v Hv]; [lia|]. rewrite Hv in Hb. apply aget_Some_range in Hb. lia. }
  exists (drop (Z.to_nat i + length l) d). split; [|done]. unfold suffix. rewrite decide_True by lia. f_equal. rewrite <- drop_drop.
  rewrite <- (take_drop (length l) (drop (Z.to_nat i) d)) at 1. f_equal. apply list_eq. intros k. destruct (decide (k < length l)%nat) as [Hk|Hk].
  - rewrite lookup_take_lt, lookup_drop by done. specialize (Hb (Z.of_nat k) ltac:(lia)). unfold aget in Hb. rewrite !decide_True in Hb by lia. rewrite Nat2Z.id in Hb.
    rewrite <- Hb. f_equal. lia.
  - rewrite (proj2 (lookup_ge_None _ _)), (proj2 (lookup_ge_None l k)); [done|lia|]. rewrite length_take, length_drop. lia.
Qed.

Lemma get_bytes_at d i l : 0 <= i -> i + Z.of_nat (length l) <= Z.of_nat (length d) -> bytes_at d i l -> get_bytes d i (Z.of_nat (length l)) = Some l.
Proof.
  intros H0 Hl Hb. unfold get_bytes. rewrite decide_True by lia. rewrite Nat2Z.id. f_equal. destruct (bytes_at_split d i l H0 Hb) as [->|(r & Hs & _)]; [done|].
  unfold suffix in Hs. rewrite decide_True in Hs by lia. injection Hs as ->. by rewrite take_app_length.
Qed.

Lemma get_bytes_spec d i n : 0 <= i -> 0 <= n -> i + n <= Z.of_nat (length d) -> exists l, get_bytes d i n = Some l /\ Z.of_nat (length l) = n /\ bytes_at d i l /\ (mem d -> mem l).
Proof.
  intros H0 Hn Hl. unfold get_bytes. rewrite decide_True by lia. eexists. split; [done|]. assert (length (take (Z.to_nat n) (drop (Z.to_nat i) d)) = Z.to_nat n) as Hlen by (rewrite length_take, length_drop; lia).
  rewrite Hlen. split; [lia|]. split; [|intros Hm; by apply Forall_take, Forall_drop].
  intros k Hk. rewrite Hlen in Hk. unfold aget. rewrite !decide_True by lia. rewrite lookup_take_lt by lia. rewrite lookup_drop. f_equal. lia.
Qed.

Lemma bytes_at_same d d' i l : (forall j, i <= j < i + Z.of_nat (length l) -> aget d' j = aget d j) -> bytes_at d i l -> bytes_at d' i l.
Proof. intros Hs Hb k Hk. rewrite Hs by lia. by apply Hb. Qed.

(** ** Layouts *)

Inductive seg := SCell (c : list Z) | SFree (n : Z) | SFrag (n : Z) | SHole (n : Z).

Definition slen (s : seg) : Z := match s with SCell c => Z.of_nat (length c) | SFree n | SFrag n | SHole n => n end.
Definition is_free (s : seg) : Prop := match s with SFree _ => True | _ => False end.

Fixpoint lay_len (l : list seg) : Z := match l with [] => 0 | s :: l => slen s + lay_len l end.
Fixpoint frag (l : list seg) : Z := match l with [] => 0 | s :: l => match s with SFrag n => n | _ => 0 end + frag l end.
Fixpoint cell_sum (l : list seg) : Z := match l with [] => 0 | s :: l => match s with SCell c => Z.of_nat (length c) | _ => 0 end + cell_sum l end.
Fixpoint free_total (l : list seg) : Z := match l with [] => 0 | s :: l => match s with SFree n => n | _ => 0 end + free_total l end.
Fixpoint hole_sum (l : list seg) : Z := match l with [] => 0 | s :: l => match s with SHole n => n | _ => 0 end + hole_sum l end.

(** The cells with their addresses. *)
Fixpoint cells_at (pos : Z) (l : list seg) : list (Z * list Z) :=
  match l with
  | [] => []
  | s :: l => match s with SCell c => [(pos, c)] | _ => [] end ++ cells_at (pos + slen s) l
  end.

(** The first free block of a layout at [pos], [nf] if it has none; the last one. *)
Fixpoint first_free (pos : Z) (l : list seg) (nf : Z) : Z :=
  match l with
  | [] => nf
  | SFree _ :: _ => pos
  | s :: l => first_free (pos + slen s) l nf
  end.

Fixpoint last_free (a pos : Z) (l : list seg) : Z :=
  match l with
  | [] => a
  | s :: l => last_free (match s with SFree _ => pos | _ => a end) (pos + slen s) l
  end.

(** The bytes [d] from [pos] on are laid out as [l], with [nf] the free block after. *)
Fixpoint lay_ok (d : list Z) (pos : Z) (l : list seg) (nf : Z) : Prop :=
  match l with
  | [] => True
  | s :: l =>
      match s with
      | SCell c => 4 <= Z.of_nat (length c) /\ bytes_at d pos c
      | SFree n => 4 <= n /\ get2byte d pos = Some (first_free (pos + n) l nf) /\ get2byte d (pos + 2) = Some n
      | SFrag n => 0 <= n
      | SHole n => 4 <= n
      end /\ lay_ok d (pos + slen s) l nf
  end.

Lemma lay_len_app a b : lay_len (a ++ b) = lay_len a + lay_len b.
Proof. induction a as [|s a IH]; cbn [app lay_len]; [lia|rewrite IH; lia]. Qed.
Lemma frag_app a b : frag (a ++ b) = frag a + frag b.
Proof. induction a as [|s a IH]; cbn [app frag]; [lia|rewrite IH; lia]. Qed.
Lemma cell_sum_app a b : cell_sum (a ++ b) = cell_sum a + cell_sum b.
Proof. induction a as [|s a IH]; cbn [app cell_sum]; [lia|rewrite IH; lia]. Qed.
Lemma free_total_app a b : free_total (a ++ b) = free_total a + free_total b.
Proof. induction a as [|s a IH]; cbn [app free_total]; [lia|rewrite IH; lia]. Qed.
Lemma hole_sum_app a b : hole_sum (a ++ b) = hole_sum a + hole_sum b.
Proof. induction a as [|s a IH]; cbn [app hole_sum]; [lia|rewrite IH; lia]. Qed.

Lemma cells_at_app pos a b : cells_at pos (a ++ b) = cells_at pos a ++ cells_at (pos + lay_len a) b.
Proof.
  revert pos. induction a as [|s a IH]; intros pos; cbn [app cells_at lay_len]; [f_equal; lia|]. rewrite IH, app_assoc. do 2 f_equal. lia.
Qed.

Lemma first_free_app pos a b nf : first_free pos (a ++ b) nf = first_free pos a (first_free (pos + lay_len a) b nf).
Proof.
  revert pos. induction a as [|s a IH]; intros pos; cbn [app first_free lay_len]; [f_equal; lia|].
  destruct s; try done; rewrite IH; do 2 f_equal; lia.
Qed.

Lemma last_free_app x pos a b : last_free x pos (a ++ b) = last_free (last_free x pos a) (pos + lay_len a) b.
Proof. revert x pos. induction a as [|s a IH]; intros x pos; cbn [app last_free lay_len]; [f_equal; lia|]. rewrite IH. f_equal. lia. Qed.

Lemma lay_ok_app d pos a b nf : lay_ok d pos (a ++ b) nf <-> lay_ok d pos a (first_free (pos + lay_len a) b nf) /\ lay_ok d (pos + lay_len a) b nf.
Proof.
  revert pos. induction a as [|s a IH]; intros pos; cbn [app lay_ok lay_len]; [rewrite Z.add_0_r; tauto|].
  rewrite IH. replace (pos + slen s + lay_len a) with (pos + (slen s + lay_len a)) by lia.
  destruct s as [c|n|n|n]; [tauto| |tauto|tauto]. rewrite first_free_app. cbn [slen]. replace (pos + n + lay_len a) with (pos + (n + lay_len a)) by lia. tauto.
Qed.

Lemma lay_len_nonneg d pos l nf : lay_ok d pos l nf -> 0 <= lay_len l.
Proof. revert pos. induction l as [|s l IH]; intros pos Hl; cbn [lay_len]; [lia|]. destruct Hl as [Hs Hl]. specialize (IH _ Hl). destruct s; cbn [slen]; lia. Qed.

Lemma lay_sums d pos l nf : lay_ok d pos l nf -> lay_len l = frag l + cell_sum l + free_total l + hole_sum l /\ 0 <= frag l /\ 0 <= cell_sum l /\ 0 <= free_total l /\ 0 <= hole_sum l.
Proof.
  revert pos. induction l as [|s l IH]; intros pos Hl; cbn [lay_len frag cell_sum free_total hole_sum]; [lia|]. destruct Hl as [Hs Hl]. specialize (IH _ Hl). destruct s; cbn [slen]; lia.
Qed.

Lemma lay_ok_same d d' pos l nf : (forall i, pos <= i < pos + lay_len l -> aget d' i = aget d i) -> lay_ok d pos l nf -> lay_ok d' pos l nf.
Proof.
  revert pos. induction l as [|s l IH]; intros pos Hs Hl; [done|]. destruct Hl as [Hh Hl]. pose proof (lay_len_nonneg _ _ _ _ Hl) as Hn. cbn [lay_len] in Hs. split.
  - destruct s as [c|n|n|n]; cbn [slen] in *.
    + destruct Hh as [? Hb]. split; [done|]. eapply bytes_at_same; [|exact Hb]. intros j Hj. apply Hs. lia.
    + destruct Hh as (? & H1 & H2). split; [done|]. rewrite !(get2_same d d') by (apply Hs; lia). done.
    + done.
    + done.
  - apply IH; [|done]. assert (0 <= slen s) by (destruct s; cbn [slen] in *; lia). intros i Hi. apply Hs. lia.
Qed.

(** *** Free blocks *)

Lemma first_free_none pos l nf : Forall (fun s => ~ is_free s) l -> first_free pos l nf = nf.
Proof. revert pos. induction l as [|s l IH]; intros pos Hl; [done|]. apply Forall_cons in Hl as [Hs Hl]. destruct s; cbn; [by apply IH|by destruct Hs|by apply IH|by apply IH]. Qed.

Lemma last_free_none a pos l : Forall (fun s => ~ is_free s) l -> last_free a pos l = a.
Proof. revert a pos. induction l as [|s l IH]; intros a pos Hl; [done|]. apply Forall_cons in Hl as [Hs Hl]. destruct s; cbn; [by apply IH|by destruct Hs|by apply IH|by apply IH]. Qed.

(** Up to the first free block. *)
Lemma free_cases d pos l : lay_ok d pos l 0 -> 0 < pos ->
  first_free pos l 0 = 0 /\ Forall (fun s => ~ is_free s) l \/
  exists a n b, l = a ++ SFree n :: b /\ Forall (fun s => ~ is_free s) a /\ first_free pos l 0 = pos + lay_len a.
Proof.
  revert pos. induction l as [|s l IH]; intros pos Hl Hpos; [by left|]. destruct Hl as [Hs Hl].
  destruct s as [c|n|n|n]; cbn [slen first_free] in *.
  2: { right. exists [], n, l. cbn. split; [done|]. split; [done|lia]. }
  all: destruct (IH _ Hl ltac:(lia)) as [[H0 Hn]|(a & m & b & -> & Ha & Hf)];
    [left; split; [done|by constructor; [cbn; tauto|]]|right; eexists (_ :: a), m, b; split; [done|]; split; [by constructor; [cbn; tauto|]|]; rewrite Hf; cbn [lay_len slen]; lia].
Qed.

Lemma free_bounds d pos l : lay_ok d pos l 0 -> 0 < pos -> first_free pos l 0 = 0 \/ pos <= first_free pos l 0 <= pos + lay_len l - 4.
Proof.
  intros Hl Hpos. destruct (free_cases d pos l Hl Hpos) as [[H0 _]|(a & n & b & -> & _ & Hf)]; [by left|right]. rewrite Hf.
  apply lay_ok_app in Hl as [Ha Hb]. pose proof (lay_len_nonneg _ _ _ _ Ha). destruct Hb as [(Hn & _) Hb]. pose proof (lay_len_nonneg _ _ _ _ Hb). rewrite lay_len_app. cbn [lay_len slen] in *. lia.
Qed.

(** Where the link to what follows [l] is: before the end of [l]. *)
Lemma last_free_before d a pos l nf : lay_ok d pos l nf -> a + 2 <= pos -> last_free a pos l = a \/ pos <= last_free a pos l /\ last_free a pos l + 4 <= pos + lay_len l.
Proof.
  revert a pos. induction l as [|s l IH]; intros a pos Hl Ha; cbn [last_free lay_len]; [by left|]. destruct Hl as [Hs Hl].
  pose proof (lay_len_nonneg _ _ _ _ Hl) as Hn. destruct s as [c|n|n|n]; cbn [slen] in *.
  2: { destruct (IH pos (pos + n) Hl ltac:(lia)); lia. }
  all: destruct (IH a _ Hl ltac:(lia)); lia.
Qed.

(** The last free block of [l] is redirected. *)
Lemma lay_ok_relink d d' a pos l nf nf' :
  lay_ok d pos l nf -> a + 2 <= pos -> get2byte d' (last_free a pos l) = Some nf' ->
  (forall i, pos <= i < pos + lay_len l -> (i < last_free a pos l \/ last_free a pos l + 2 <= i) -> aget d' i = aget d i) ->
  lay_ok d' pos l nf'.
Proof.
  revert a pos. induction l as [|s l IH] using rev_ind; intros a pos Hl Ha Hg Hs; [done|].
  apply lay_ok_app in Hl as [Hl Hlast]. pose proof (lay_len_nonneg _ _ _ _ Hl) as Hn. rewrite last_free_app in *. rewrite lay_len_app in Hs. apply lay_ok_app.
  destruct s as [c|n|n|n]; cbn [lay_ok first_free last_free lay_len slen] in *.
  2: { split.
    - eapply lay_ok_same; [|exact Hl]. intros i Hi. apply Hs; lia.
    - destruct Hlast as [(Hn4 & _ & Hsz) _]. split; [|done]. split; [done|]. split; [done|]. rewrite <- Hsz. apply get2_same; apply Hs; lia. }
  all: split; [apply (IH a pos); [done|done|done|]; intros i Hi Hi'; apply Hs; [destruct Hlast as [? _]; lia|done]|].
  all: destruct Hlast as [Hlast _]; split; [|done]; try done.
  destruct Hlast as [Hc Hb]. split; [done|]. eapply bytes_at_same; [|exact Hb]. intros j Hj. apply Hs; [lia|].
  assert (last_free a pos l + 2 <= pos + lay_len l) as Hlf; [|lia].
  destruct (last_free_before _ a pos l _ Hl Ha); lia.
Qed.

(** ... and it leads to the first free block of the rest. *)
Lemma link_reads d a pos l r :
  lay_ok d pos (l ++ r) 0 -> get2byte d a = Some (first_free pos (l ++ r) 0) -> get2byte d (last_free a pos l) = Some (first_free (pos + lay_len l) r 0).
Proof.
  revert a pos. induction l as [|s l IH]; intros a pos Hl Hg; cbn [app last_free lay_len] in *; [by rewrite Z.add_0_r|]. destruct Hl as [Hs Hl].
  replace (pos + (slen s + lay_len l)) with (pos + slen s + lay_len l) by lia. apply IH; [done|]. destruct s as [c|n|n|n]; cbn [slen first_free] in *; try done. tauto.
Qed.

(** The same for the link at [a] to the first free block. *)
Lemma first_free_relink d d' a pos l nf nf' :
  lay_ok d pos l nf -> a + 2 <= pos -> get2byte d a = Some (first_free pos l nf) -> get2byte d' (last_free a pos l) = Some nf' ->
  (last_free a pos l <> a -> get2byte d' a = get2byte d a) -> get2byte d' a = Some (first_free pos l nf').
Proof.
  revert pos. induction l as [|s l IH]; intros pos Hl Ha Hg Hg' Hs; cbn [first_free last_free] in *; [done|]. destruct Hl as [Hh Hl].
  destruct s as [c|n|n|n]; cbn [slen] in *.
  2: { rewrite Hs; [done|]. destruct (last_free_before _ pos (pos + n) l _ Hl); lia. }
  all: apply (IH _ Hl); [lia|done..].
Qed.

(** *** The number of free blocks: the measure of the loops over the list *)

Fixpoint nfree (l : list seg) : nat := match l with [] => 0 | s :: l => match s with SFree _ => 1 | _ => 0 end + nfree l end.

Lemma nfree_app a b : nfree (a ++ b) = (nfree a + nfree b)%nat.
Proof. induction a as [|s a IH]; cbn [app nfree]; [done|rewrite IH; lia]. Qed.

Lemma nfree_bound d pos l nf : lay_ok d pos l nf -> 4 * Z.of_nat (nfree l) <= lay_len l.
Proof. revert pos. induction l as [|s l IH]; intros pos Hl; cbn [nfree lay_len]; [lia|]. destruct Hl as [Hs Hl]. specialize (IH _ Hl). destruct s; cbn [slen]; lia. Qed.

(** Fewer than four bytes without a free block are fragments. *)
Lemma short_frag d pos l nf : lay_ok d pos l nf -> lay_len l < 4 -> Forall (fun s => ~ is_free s) l ->
  frag l = lay_len l /\ cell_sum l = 0 /\ hole_sum l = 0 /\ forall p, cells_at p l = [].
Proof.
  revert pos. induction l as [|s l IH]; intros pos Hl Hlt Hf; [done|]. destruct Hl as [Hs Hl]. apply Forall_cons in Hf as [Hsf Hf]. pose proof (lay_len_nonneg _ _ _ _ Hl).
  cbn [lay_len frag cell_sum hole_sum cells_at] in *. destruct s as [c|n|n|n]; cbn [slen] in *; [lia|by destruct Hsf| |lia]. destruct (IH _ Hl ltac:(lia) Hf) as (-> & -> & -> & Hc). split_and!; [lia|done|done|]. intros p. apply Hc.
Qed.

(** Up to the first free block, whatever follows. *)
Lemma free_split pos l nf :
  first_free pos l nf = nf /\ Forall (fun s => ~ is_free s) l \/
  exists a n b, l = a ++ SFree n :: b /\ Forall (fun s => ~ is_free s) a /\ first_free pos l nf = pos + lay_len a.
Proof.
  revert pos. induction l as [|s l IH]; intros pos; [by left|]. destruct s as [c|n|n|n]; cbn [first_free].
  2: { right. exists [], n, l. cbn. split_and!; [done|done|lia]. }
  all: match goal with |- context [first_free ?q _ _] => destruct (IH q) as [[-> Hf]|(a & m & b & -> & Hf & ->)] end; [left; split; [done|constructor; [by intros []|done]]|right].
  all: eexists (_ :: a), m, b; split; [done|]; split; [constructor; [by intros []|done]|]; cbn [lay_len slen]; lia.
Qed.

(** *** Cells *)

Definition total (cs : list (list Z)) : Z := Z.of_nat (length (concat cs)).

Lemma total_cons c cs : total (c :: cs) = Z.of_nat (length c) + total cs.
Proof. unfold total. cbn [concat]. rewrite length_app. lia. Qed.
Lemma total_nonneg cs : 0 <= total cs.
Proof. unfold total. lia. Qed.
Lemma total_perm cs cs' : cs ≡ₚ cs' -> total cs = total cs'.
Proof. induction 1; rewrite ?total_cons in *; lia. Qed.

Lemma cells_at_total pos l : total (map snd (cells_at pos l)) = cell_sum l.
Proof. revert pos. induction l as [|s l IH]; intros pos; [done|]. destruct s; cbn [cells_at cell_sum app map]; rewrite ?total_cons, IH; cbn [snd]; lia. Qed.

Lemma cells_at_in d pos l nf p c : lay_ok d pos l nf -> (p, c) ∈ cells_at pos l -> 4 <= Z.of_nat (length c) /\ bytes_at d p c /\ pos <= p /\ p + Z.of_nat (length c) <= pos + lay_len l.
Proof.
  revert pos. induction l as [|s l IH]; intros pos Hl Hin; [by apply not_elem_of_nil in Hin|]. destruct Hl as [Hs Hl]. pose proof (lay_len_nonneg _ _ _ _ Hl).
  cbn [cells_at lay_len] in *. apply elem_of_app in Hin as [Hin|Hin].
  - destruct s as [c'|n|n|n]; [|by apply not_elem_of_nil in Hin..]. apply list_elem_of_singleton in Hin. injection Hin as -> ->. cbn [slen]. destruct Hs. split_and!; [done|done|lia|lia].
  - destruct (IH _ Hl Hin) as (? & ? & ? & ?). assert (0 <= slen s) by (destruct s; cbn [slen] in *; lia). split_and!; [done|done|lia|lia].
Qed.

(** The cells put one below the other, from [cbrk] down. *)
Fixpoint packed (cbrk : Z) (cs : list (list Z)) : list (Z * list Z) :=
  match cs with
  | [] => []
  | c :: cs => let cbrk := cbrk - Z.of_nat (length c) in (cbrk, c) :: packed cbrk cs
  end.

Lemma packed_snd cbrk cs : map snd (packed cbrk cs) = cs.
Proof. revert cbrk. induction cs as [|c cs IH]; intros cbrk; [done|]. cbn. by rewrite IH. Qed.

Abbreviation cell_segs cs := (map SCell (rev cs)).

Lemma cell_segs_cons c cs : cell_segs (c :: cs) = cell_segs cs ++ [SCell c].
Proof. cbn [rev]. apply map_app. Qed.

Lemma lay_len_cells cs : lay_len (cell_segs cs) = total cs.
Proof. induction cs as [|c cs IH]; [done|]. rewrite cell_segs_cons, lay_len_app, total_cons, IH. cbn [lay_len slen]. lia. Qed.
Lemma cell_sum_cells cs : cell_sum (cell_segs cs) = total cs.
Proof. induction cs as [|c cs IH]; [done|]. rewrite cell_segs_cons, cell_sum_app, total_cons, IH. cbn [cell_sum]. lia. Qed.
Lemma no_free_cells cs : frag (cell_segs cs) = 0 /\ hole_sum (cell_segs cs) = 0 /\ nfree (cell_segs cs) = 0%nat /\ (forall pos nf, first_free pos (cell_segs cs) nf = nf).
Proof.
  induction cs as [|c cs IH]; [done|]. destruct IH as (I1 & I2 & I3 & I4). rewrite cell_segs_cons, frag_app, hole_sum_app, nfree_app, I1, I2, I3. split_and!; [done..|].
  intros pos nf. rewrite first_free_app, I4. done.
Qed.

Lemma packed_cells cbrk cs : cells_at (cbrk - total cs) (cell_segs cs) = rev (packed cbrk cs).
Proof.
  revert cbrk. induction cs as [|c cs IH]; intros cbrk; [done|]. rewrite cell_segs_cons, cells_at_app, lay_len_cells, total_cons. cbn [packed rev]. f_equal.
  - rewrite <- IH. f_equal. lia.
  - cbn [cells_at app]. do 2 f_equal. lia.
Qed.

Lemma cells_at_split pos l p c : (p, c) ∈ cells_at pos l -> exists a b, l = a ++ SCell c :: b /\ p = pos + lay_len a.
Proof.
  revert pos. induction l as [|s l IH]; intros pos Hin; [by apply not_elem_of_nil in Hin|]. cbn [cells_at] in Hin. apply elem_of_app in Hin as [Hin|Hin].
  - destruct s as [c'|n|n|n]; [|by apply not_elem_of_nil in Hin..]. apply list_elem_of_singleton in Hin. injection Hin as -> ->. exists [], l. cbn. split; [done|lia].
  - destruct (IH _ Hin) as (a & b & -> & ->). exists (s :: a), b. cbn [app lay_len]. split; [done|lia].
Qed.

Lemma total_lower cs : Forall (fun c => 4 <= Z.of_nat (length c)) cs -> 4 * Z.of_nat (length cs) <= total cs.
Proof. induction 1 as [|c cs Hc _ IH]; [done|]. rewrite total_cons. cbn [length]. lia. Qed.

(** *** Coalesced layouts: at least four bytes between free blocks

    [d] bytes precede the layout since the last free block. *)
Fixpoint gaps (d : Z) (l : list seg) : Prop :=
  match l with
  | [] => True
  | SFree n :: l => 4 <= d /\ gaps 0 l
  | s :: l => gaps (d + slen s) l
  end.

Fixpoint dist (d : Z) (l : list seg) : Z :=
  match l with
  | [] => d
  | SFree n :: l => dist 0 l
  | s :: l => dist (d + slen s) l
  end.

Lemma gaps_app d a b : gaps d (a ++ b) <-> gaps d a /\ gaps (dist d a) b.
Proof. revert d. induction a as [|s a IH]; intros d; [cbn; tauto|]. destruct s; cbn [app gaps dist]; rewrite IH; tauto. Qed.

Lemma dist_app d a b : dist d (a ++ b) = dist (dist d a) b.
Proof. revert d. induction a as [|s a IH]; intros d; [done|]. destruct s; cbn [app dist]; apply IH. Qed.

Lemma gaps_mono d d' l : gaps d l -> d <= d' -> gaps d' l.
Proof. revert d d'. induction l as [|s l IH]; intros d d' Hl Hd; [done|]. destruct s; cbn [gaps] in *; [by eapply IH; [|apply Zplus_le_compat_r]|split; [lia|tauto]|by eapply IH; [|apply Zplus_le_compat_r]..]. Qed.

Lemma gaps_none d l : Forall (fun s => ~ is_free s) l -> gaps d l /\ dist d l = d + lay_len l.
Proof.
  revert d. induction l as [|s l IH]; intros d Hl; [cbn; split; [done|lia]|]. apply Forall_cons in Hl as [Hs Hl].
  destruct s; cbn [gaps dist lay_len]; [|by destruct Hs|..]; (split; [by apply IH|]; rewrite (proj2 (IH _ Hl)); lia).
Qed.

Lemma dist_nonneg d0 pos l nf d : lay_ok d0 pos l nf -> 0 <= d -> 0 <= dist d l.
Proof. revert pos d. induction l as [|s l IH]; intros pos d Hl Hd; [done|]. destruct Hl as [Hs Hl]. destruct s; cbn [dist slen] in *; eapply IH; [exact Hl|lia|exact Hl|lia|exact Hl|lia|exact Hl|lia]. Qed.

(** A segment replaced by another of its size that is not free either. *)
Lemma gaps_replace d a s s' b : slen s = slen s' -> ~ is_free s -> ~ is_free s' -> gaps d (a ++ s :: b) -> gaps d (a ++ s' :: b).
Proof.
  intros Hl Hs Hs' Hg. apply gaps_app in Hg as [Ha Hb]. apply gaps_app. split; [done|]. destruct s, s'; cbn [gaps is_free] in *; try tauto; by rewrite <- Hl.
Qed.
