(* ===== verification/PageSpace.v ===== *)
(** * PageSpace: allocating and freeing the space of a page

    allocateSpace, defragmentPage and freeSpace of btree.c keep the layout of
    a page; a well-formed page is never reported as corrupt. *)
From S2P Require Import Prelude Varint Record Page PageLayout.

(** ** Well-formed pages *)

(** What does not change: sizes and offsets. *)
Record geometry (pg : MemPage) : Prop := {
  ge_init : pg_isInit pg = 1;
  ge_hdr : 0 <= pg_hdrOffset pg <= 100;
  ge_leaf : pg_leaf pg = 0 \/ pg_leaf pg = 1;
  ge_has : pg_leaf pg = 0 -> pg_hasData pg = 0;
  ge_child : pg_childPtrSize pg = 4 - 4 * pg_leaf pg;
  ge_cell : pg_cellOffset pg = pg_hdrOffset pg + 12 - 4 * pg_leaf pg;
  ge_usable : 480 <= bt_usableSize (pg_pBt pg) <= bt_pageSize (pg_pBt pg);
  ge_page : exists k, 9 <= k <= 16 /\ bt_pageSize (pg_pBt pg) = 2 ^ k;
  ge_mask : pg_maskPage pg = bt_pageSize (pg_pBt pg) - 1;
  ge_data : Z.of_nat (length (pg_aData pg)) = bt_pageSize (pg_pBt pg);
  ge_temp : Z.of_nat (length (bt_pTmpSpace (pg_pBt pg))) = bt_pageSize (pg_pBt pg);
  ge_tmem : mem (bt_pTmpSpace (pg_pBt pg));
  ge_ovfl : pg_ovfl pg = [] }.

Abbreviation usable pg := (bt_usableSize (pg_pBt pg)).
Abbreviation hdr pg := (pg_hdrOffset pg).
Abbreviation ptr_end pg := (pg_cellOffset pg + 2 * pg_nCell pg).

(** The fields that the flag byte determines. *)
Definition flags_ok (pg : MemPage) : Prop := exists fl, aget (pg_aData pg) (hdr pg) = Some fl /\ decodeFlags pg fl = (SQLITE_OK, pg).

(** The content area starts at [top] and is laid out as [lay]; [ptrs] is the
    cell pointer array. *)
Record page_lay (pg : MemPage) (top : Z) (lay : list seg) (ptrs : list Z) : Prop := {
  pl_geo : geometry pg;
  pl_mem : mem (pg_aData pg);
  pl_flags : flags_ok pg;
  pl_end : ptr_end pg <= top;
  pl_len : top + lay_len lay = usable pg;
  pl_top : get2byte (pg_aData pg) (hdr pg + 5) = Some (u16 top);
  pl_first : get2byte (pg_aData pg) (hdr pg + 1) = Some (first_free top lay 0);
  pl_ncell : get2byte (pg_aData pg) (hdr pg + 3) = Some (pg_nCell pg) /\ pg_nCell pg = Z.of_nat (length ptrs);
  pl_frag : aget (pg_aData pg) (hdr pg + 7) = Some (frag lay);
  pl_lay : lay_ok (pg_aData pg) top lay 0;
  pl_ptrs : forall i p, ptrs !! i = Some p -> get2byte (pg_aData pg) (pg_cellOffset pg + 2 * Z.of_nat i) = Some p;
  pl_free : pg_nFree pg = usable pg - ptr_end pg - cell_sum lay }.

(** The bytes of a cell determine its size. *)
Definition cell_ok (pg : MemPage) (c : list Z) : Prop :=
  4 <= Z.of_nat (length c) /\ mem c /\ cellSizePtr pg c = Some (Z.of_nat (length c)).

(** Nothing is set aside, and the free blocks are coalesced. *)
Definition tidy (lay : list seg) : Prop := hole_sum lay = 0 /\ gaps 4 lay.

(** The page holds the cells [cs], in this order, at these addresses. *)
Definition page_ok (pg : MemPage) (cs : list (Z * list Z)) : Prop :=
  exists top lay, page_lay pg top lay (map fst cs) /\ tidy lay /\ cs ≡ₚ cells_at top lay /\ Forall (fun x => cell_ok pg (snd x)) cs.

Section Facts.
Context {pg : MemPage} {top : Z} {lay : list seg} {ptrs : list Z} (HP : page_lay pg top lay ptrs).

Lemma pl_bounds : 8 <= pg_cellOffset pg - hdr pg <= 12 /\ 0 <= hdr pg <= 100 /\ pg_cellOffset pg <= ptr_end pg <= top /\ 0 < top <= usable pg /\
  usable pg <= Z.of_nat (length (pg_aData pg)) /\ usable pg <= 65536 /\ 480 <= usable pg.
Proof using HP.
  pose proof (pl_geo _ _ _ _ HP) as HG. destruct (pl_ncell _ _ _ _ HP) as [_ Hn]. pose proof (pl_end _ _ _ _ HP). pose proof (pl_len _ _ _ _ HP).
  pose proof (lay_len_nonneg _ _ _ _ (pl_lay _ _ _ _ HP)). pose proof (ge_hdr _ HG). pose proof (ge_cell _ HG). pose proof (ge_leaf _ HG). pose proof (ge_usable _ HG). pose proof (ge_data _ HG).
  destruct (ge_page _ HG) as (k & Hk & Hps). assert (2 ^ k <= 2 ^ 16) by (apply Z.pow_le_mono_r; lia). change (2 ^ 16) with 65536 in *. lia.
Qed.

Lemma pl_top_read : get2byteNotZero (pg_aData pg) (hdr pg + 5) = Some top.
Proof using HP. pose proof pl_bounds. apply get2_not_zero; [lia|apply HP]. Qed.

Lemma pl_sums : frag lay + cell_sum lay + free_total lay + hole_sum lay = usable pg - top /\ 0 <= frag lay < 256 /\ 0 <= cell_sum lay /\ 0 <= free_total lay /\ 0 <= hole_sum lay.
Proof using HP.
  pose proof (pl_len _ _ _ _ HP) as Hl. pose proof (lay_sums _ _ _ _ (pl_lay _ _ _ _ HP)) as (Hs & ? & ? & ? & ?).
  pose proof (aget_Forall _ _ _ _ (pl_mem _ _ _ _ HP) (pl_frag _ _ _ _ HP)) as Hb. unfold ubits in Hb. lia.
Qed.
End Facts.

(** Changes of the page outside its pointer array. *)
Lemma ptrs_same d d' off (ptrs : list Z) :
  (forall i, off <= i < off + 2 * Z.of_nat (length ptrs) -> aget d' i = aget d i) ->
  (forall i p, ptrs !! i = Some p -> get2byte d (off + 2 * Z.of_nat i) = Some p) ->
  forall i p, ptrs !! i = Some p -> get2byte d' (off + 2 * Z.of_nat i) = Some p.
Proof.
  intros Hs Hp i p Hi. rewrite <- (Hp i p Hi). pose proof (lookup_lt_Some _ _ _ Hi). apply get2_same; apply Hs; lia.
Qed.

Lemma geometry_data pg d : geometry pg -> length d = length (pg_aData pg) -> geometry (set_data pg d).
Proof. intros HG Hl. destruct HG. split; cbn; try done. by rewrite Hl. Qed.

Lemma geometry_free pg n : geometry pg -> geometry (set_free pg n).
Proof. by intros []. Qed.

Lemma decodeFlags_set pg n f d fl : decodeFlags pg fl = (SQLITE_OK, pg) ->
  decodeFlags (set_data (set_free (set_nCell pg n) f) d) fl = (SQLITE_OK, set_data (set_free (set_nCell pg n) f) d).
Proof.
  destruct pg as [f1 f2 f3 f4 f5 f6 f7 f8 f9 f10 f11 f12 f13 f14 f15 f16]. unfold decodeFlags. cbn [set_data set_free set_nCell pg_pBt pg_isInit pg_intKey pg_hasData pg_hdrOffset pg_maxLocal pg_minLocal pg_max1bytePayload pg_cellOffset pg_nFree pg_nCell pg_maskPage pg_ovfl pg_aData].
  destruct (_ =? _); [|destruct (_ =? _); [|done]]; intros H; injection H; intros; subst; done.
Qed.

Lemma flags_ok_set pg n f d : flags_ok pg -> aget d (hdr pg) = aget (pg_aData pg) (hdr pg) -> flags_ok (set_data (set_free (set_nCell pg n) f) d).
Proof. intros (fl & Hfl & Hd) Ha. exists fl. split; [by rewrite <- Hfl|by apply decodeFlags_set]. Qed.

Lemma page_lay_set pg top lay ptrs d' top' lay' n :
  page_lay pg top lay ptrs -> length d' = length (pg_aData pg) -> mem d' -> aget d' (hdr pg) = aget (pg_aData pg) (hdr pg) -> ptr_end pg <= top' -> top' + lay_len lay' = usable pg ->
  get2byte d' (hdr pg + 5) = Some (u16 top') -> get2byte d' (hdr pg + 1) = Some (first_free top' lay' 0) ->
  get2byte d' (hdr pg + 3) = Some (pg_nCell pg) -> aget d' (hdr pg + 7) = Some (frag lay') -> lay_ok d' top' lay' 0 ->
  (forall i, pg_cellOffset pg <= i < ptr_end pg -> aget d' i = aget (pg_aData pg) i) -> n + cell_sum lay' = pg_nFree pg + cell_sum lay ->
  page_lay (set_data (set_free pg n) d') top' lay' ptrs.
Proof.
  intros HP Hlen Hm Hfl He Hl Ht Hf Hn Hfr Hlay Hptr Hcs. split; cbn [set_data set_free pg_aData pg_hdrOffset pg_pBt pg_nCell pg_cellOffset pg_nFree]; try done.
  - apply geometry_data; [apply geometry_free, HP|done].
  - exact (flags_ok_set pg (pg_nCell pg) n d' (pl_flags _ _ _ _ HP) Hfl).
  - split; [done|apply HP].
  - eapply ptrs_same; [|apply HP]. destruct (pl_ncell _ _ _ _ HP) as [_ <-]. done.
  - pose proof (pl_free _ _ _ _ HP). lia.
Qed.

Lemma copy2_out d addr pc v : get2byte d pc = Some v -> mem d -> 0 <= addr -> addr + 2 <= Z.of_nat (length d) -> 0 <= pc -> pc + 2 <= Z.of_nat (length d) ->
  exists d', copy_bytes d addr d pc 2 = Some d' /\ same_out d d' addr (addr + 2) /\ get2byte d' addr = Some v.
Proof.
  intros Hv Hm H0 H1 H2 H3. unfold copy_bytes. destruct (get_bytes_spec d pc 2) as (l & -> & Hl & Hb & Hml); [lia..|]. cbn [mbind option_bind].
  destruct (put_bytes_out d addr l) as (d' & -> & Ho & Hb'); [lia|lia|auto|]. exists d'. rewrite Hl in Ho. split; [done|]. split; [done|]. rewrite <- Hv.
  pose proof (Hb 0 ltac:(lia)) as A0. pose proof (Hb 1 ltac:(lia)) as A1. pose proof (Hb' 0 ltac:(lia)) as B0. pose proof (Hb' 1 ltac:(lia)) as B1.
  rewrite Z.add_0_r in A0, B0. unfold get2byte. rewrite B0, B1, A0, A1. done.
Qed.

(** A slot of [n] bytes at [idx] has been taken out of the free space. *)
Definition taken (lay lay' : list seg) (top top' idx n : Z) : Prop :=
  exists a b, lay' = a ++ SHole n :: b /\ idx = top' + lay_len a /\ hole_sum (a ++ b) = hole_sum lay /\ cells_at top' lay' = cells_at top lay /\ (gaps 4 lay -> gaps 4 lay').

(** The layout after the last link of [l1] is replaced. *)
Lemma page_lay_relink_free pg top l1 m m' ptrs d' n (addr := last_free (hdr pg + 1) top l1) (mid := top + lay_len l1) :
  page_lay pg top (l1 ++ m) ptrs -> length d' = length (pg_aData pg) -> mem d' ->
  (forall i, i < mid -> i < addr \/ addr + 2 <= i -> i <> hdr pg + 7 -> aget d' i = aget (pg_aData pg) i) ->
  get2byte d' addr = Some (first_free mid m' 0) -> lay_ok d' mid m' 0 -> lay_len m' = lay_len m -> n + cell_sum m' = pg_nFree pg + cell_sum m ->
  aget d' (hdr pg + 7) = Some (frag l1 + frag m') ->
  page_lay (set_data (set_free pg n) d') top (l1 ++ m') ptrs.
Proof.
  intros HP Hlen Hm Hs Hlink Hlay Hll Hcs Hfr. pose proof (pl_bounds HP) as (B1 & B2 & B3 & B4 & B5 & B6 & _). pose proof (pl_lay _ _ _ _ HP) as Hl. apply lay_ok_app in Hl as [Hl1 _].
  pose proof (lay_len_nonneg _ _ _ _ Hl1). pose proof (last_free_before _ (hdr pg + 1) top l1 _ Hl1 ltac:(lia)) as Hlf. fold addr in Hlf.
  pose proof (pl_first _ _ _ _ HP) as Hfirst. rewrite first_free_app in Hfirst. subst mid.
  apply (page_lay_set pg top (l1 ++ m) ptrs); try done; try lia.
  - apply Hs; lia.
  - rewrite lay_len_app, Hll, <- lay_len_app. apply HP.
  - rewrite <- (pl_top _ _ _ _ HP). apply get2_same; apply Hs; lia.
  - rewrite first_free_app. eapply first_free_relink; [exact Hl1|lia|exact Hfirst|done|]. fold addr. intros Hne. apply get2_same; apply Hs; lia.
  - rewrite <- (proj1 (pl_ncell _ _ _ _ HP)). apply get2_same; apply Hs; lia.
  - by rewrite frag_app.
  - apply lay_ok_app. split; [|done]. eapply lay_ok_relink with (a := hdr pg + 1); [exact Hl1|lia|done|]. fold addr. intros i Hi Hi'. apply Hs; lia.
  - intros i Hi. apply Hs; lia.
  - rewrite !cell_sum_app. lia.
Qed.

Lemma page_lay_relink pg top l1 m m' ptrs d' (addr := last_free (hdr pg + 1) top l1) (mid := top + lay_len l1) :
  page_lay pg top (l1 ++ m) ptrs -> length d' = length (pg_aData pg) -> mem d' ->
  (forall i, i < mid -> i < addr \/ addr + 2 <= i -> i <> hdr pg + 7 -> aget d' i = aget (pg_aData pg) i) ->
  get2byte d' addr = Some (first_free mid m' 0) -> lay_ok d' mid m' 0 -> lay_len m' = lay_len m -> cell_sum m' = cell_sum m ->
  aget d' (hdr pg + 7) = Some (frag l1 + frag m') ->
  page_lay (set_data pg d') top (l1 ++ m') ptrs.
Proof. intros. replace (set_data pg d') with (set_data (set_free pg (pg_nFree pg)) d') by done. eapply page_lay_relink_free; eauto. lia. Qed.

(** Where the link is: in the header or in a free block. *)
Lemma link_at pg top l1 m ptrs (addr := last_free (hdr pg + 1) top l1) : page_lay pg top (l1 ++ m) ptrs ->
  (addr = hdr pg + 1 \/ top <= addr /\ addr + 4 <= top + lay_len l1) /\ get2byte (pg_aData pg) addr = Some (first_free (top + lay_len l1) m 0) /\ 0 <= lay_len l1 /\ 0 <= lay_len m.
Proof.
  intros HP. pose proof (pl_bounds HP). pose proof (pl_lay _ _ _ _ HP) as Hl. pose proof Hl as Hl'. apply lay_ok_app in Hl as [Hl1 Hl2]. split; [|split; [|by eauto using lay_len_nonneg]].
  - apply (last_free_before _ (hdr pg + 1) top l1 _ Hl1). lia.
  - apply (link_reads _ _ _ _ _ Hl'). apply HP.
Qed.

(** *** allocateSpace from the free list *)

Lemma slot_loop_spec pg top ptrs nByte lay : page_lay pg top lay ptrs -> 4 <= nByte -> frag lay < 60 ->
  forall fuel l1 l2, lay = l1 ++ l2 -> lay_len l2 < Z.of_nat fuel ->
  slot_loop fuel (pg_aData pg) (hdr pg) (usable pg) (frag lay) nByte (last_free (hdr pg + 1) top l1) = Some None \/
  exists d' idx lay', slot_loop fuel (pg_aData pg) (hdr pg) (usable pg) (frag lay) nByte (last_free (hdr pg + 1) top l1) = Some (Some (SQLITE_OK, d', idx)) /\
    page_lay (set_data pg d') top lay' ptrs /\ taken lay lay' top top idx nByte.
Proof.
  intros HP Hn4 Hfr. pose proof (pl_bounds HP) as (B1 & B2 & B3 & B4 & B5 & B6 & _). pose proof (pl_mem _ _ _ _ HP) as Hmem. pose proof (pl_lay _ _ _ _ HP) as Hlay. pose proof (pl_len _ _ _ _ HP) as Hlen.
  destruct (pl_sums HP) as (_ & Hfb & _). induction fuel as [|fuel IH]; intros l1 l2 -> Hfuel; [destruct (link_at _ _ _ _ _ HP); lia|].
  cbn [slot_loop]. pose proof (link_at _ _ _ _ _ HP) as (Hat & -> & Hn1 & _). cbn [mbind option_bind]. pose proof Hlay as Hl2. apply lay_ok_app in Hl2 as [_ Hl2].
  destruct (free_cases _ _ _ Hl2 ltac:(lia)) as [[-> _]|(a & n & b & -> & Ha & ->)]; [by left|]. set (pc := top + lay_len l1 + lay_len a) in *.
  apply lay_ok_app in Hl2 as [Hla Hlb]. pose proof (lay_len_nonneg _ _ _ _ Hla) as Hna. destruct Hlb as [(Hn & Hnx & Hsz) Hlb]. fold pc in Hnx, Hsz, Hlb. pose proof (lay_len_nonneg _ _ _ _ Hlb) as Hnb.
  rewrite !lay_len_app in Hlen. rewrite lay_len_app in Hfuel. cbn [lay_len slen] in Hlen, Hfuel, Hlb.
  assert (pc = top + lay_len l1 + lay_len a) as Hpc by done. clearbody pc. assert (last_free (hdr pg + 1) top (l1 ++ a) = last_free (hdr pg + 1) top l1) as Hlast by (rewrite last_free_app; by apply last_free_none).
  set (addr := last_free (hdr pg + 1) top l1) in *. rewrite (proj2 (Z.ltb_lt 0 pc)), (proj2 (Z.ltb_ge _ pc)), (proj2 (Z.ltb_ge pc _)) by lia. cbn [orb]. rewrite Hsz. cbn [mbind option_bind].
  destruct (Z.leb_spec nByte n) as [Hfit|Hsmall].
  2: { specialize (IH (l1 ++ a ++ [SFree n]) b). rewrite !last_free_app, (last_free_none _ _ a) in IH by done. cbn [last_free] in IH. rewrite <- Hpc in IH. apply IH; [by rewrite <- !app_assoc|lia]. }
  right. set (x := n - nByte). rewrite app_assoc in *. assert (top + lay_len (l1 ++ a) = pc) as Hmid by (rewrite lay_len_app; lia). pose proof (frag_app (l1 ++ a) (SFree n :: b)) as Hfa. cbn [frag] in Hfa.
  assert (forall y, slen y = x -> match y with SCell _ | SHole _ => False | _ => True end -> taken ((l1 ++ a) ++ SFree n :: b) ((l1 ++ a) ++ y :: SHole nByte :: b) top top (pc + x) nByte) as Htaken.
  { intros y Hy Hcy. exists ((l1 ++ a) ++ [y]), b. rewrite <- !(app_assoc _ [y]). split; [done|]. split; [rewrite lay_len_app; cbn; lia|].
    rewrite !hole_sum_app, !cells_at_app; cbn [hole_sum cells_at]; rewrite Hmid. cbn [slen]. rewrite Hy. replace (pc + x + nByte) with (pc + n) by lia. split; [by destruct y|]. split; [by destruct y|].
    intros Hg. apply gaps_app in Hg as (Hg & Hd & Hgb). apply gaps_app. split; [done|]. destruct y; try done; cbn [gaps slen] in *; [split; [done|]|]; eapply gaps_mono; [exact Hgb|lia|exact Hgb|lia]. }
  destruct (Z.ltb_spec x 4) as [Hx|Hx].
  - destruct (copy2_out (pg_aData pg) addr pc (first_free (pc + n) b 0)) as (d1 & -> & H1 & G1); [done|done|lia..|]. cbn [mbind option_bind]. pose proof H1 as (L1 & M1 & S1).
    destruct (aset_out d1 (hdr pg + 7) (u8 (frag ((l1 ++ a) ++ SFree n :: b) + x))) as (d2 & -> & H2 & G2); [lia|apply is_byte_u8|]. cbn [mbind option_bind]. pose proof H2 as (L2 & M2 & S2).
    exists d2, (pc + x), ((l1 ++ a) ++ SFrag x :: SHole nByte :: b). split; [done|]. split; [|by apply Htaken].
    apply (page_lay_relink pg top (l1 ++ a) (SFree n :: b) _ ptrs); rewrite ?Hlast, ?Hmid; fold addr; auto; cbn [first_free lay_ok lay_len frag slen].
    + congruence.
    + intros i Hi Hi' Hi7. rewrite S2, S1 by lia. done.
    + replace (pc + x + nByte) with (pc + n) by lia. rewrite <- G1. apply get2_same; apply S2; lia.
    + split; [lia|]. split; [lia|]. replace (pc + x + nByte) with (pc + n) by lia. eapply lay_ok_same; [|exact Hlb]. intros i Hi. rewrite S2, S1 by lia. done.
    + lia.
    + rewrite G2. f_equal. unfold u8. rewrite Z.mod_small by lia. lia.
  - rewrite (proj2 (Z.ltb_ge _ (n + pc))) by lia. destruct (put2_out (pg_aData pg) (pc + 2) x) as (d1 & -> & H1 & G1); [lia..|]. cbn [mbind option_bind]. pose proof H1 as (L1 & M1 & S1).
    exists d1, (pc + x), ((l1 ++ a) ++ SFree x :: SHole nByte :: b). split; [done|]. split; [|by apply Htaken].
    apply (page_lay_relink pg top (l1 ++ a) (SFree n :: b) _ ptrs); rewrite ?Hlast, ?Hmid; fold addr; auto; cbn [first_free lay_ok lay_len frag slen].
    + intros i Hi Hi' Hi7. apply S1. lia.
    + rewrite (get2_out _ _ _ _ _ H1) by lia. destruct (link_at pg top (l1 ++ a) (SFree n :: b) ptrs HP) as (_ & Hl & _). rewrite Hlast in Hl. rewrite Hl, Hmid. done.
    + replace (pc + x + nByte) with (pc + n) by lia. split; [|split; [lia|]].
      * split; [lia|]. rewrite (get2_out _ _ _ _ _ H1) by lia. split; [done|]. rewrite G1, u16_id by lia. done.
      * eapply lay_ok_same; [|exact Hlb]. intros i Hi. apply S1. lia.
    + lia.
    + rewrite S1 by lia. rewrite (pl_frag _ _ _ _ HP), Hfa. done.
Qed.

(** *** freeSpace *)

Section Free.
Context {pg : MemPage} {top : Z} {A B : list seg} {ptrs : list Z} {sz : Z} (HP : page_lay pg top (A ++ SHole sz :: B) ptrs).

Lemma free_find_spec fuel : forall l1 l2, A = l1 ++ l2 -> lay_len l2 < Z.of_nat fuel ->
  free_find fuel (pg_aData pg) (top + lay_len A) (last_free (hdr pg + 1) top l1) = Some (Some (last_free (hdr pg + 1) top A, first_free (top + lay_len A + sz) B 0)).
Proof using HP.
  pose proof (pl_bounds HP) as (B1 & B2 & B3 & B4 & B5 & B6 & _). pose proof (pl_lay _ _ _ _ HP) as Hlay. pose proof Hlay as HB. apply lay_ok_app in HB as [HA HB]. cbn [first_free slen] in HA. destruct HB as [Hsz HB]. cbn [slen] in HB.
  induction fuel as [|fuel IH]; intros l1 l2 Hsp Hfuel.
  { rewrite Hsp in HA. apply lay_ok_app in HA as [_ HA]. pose proof (lay_len_nonneg _ _ _ _ HA). lia. }
  cbn [free_find]. assert (page_lay pg top (l1 ++ l2 ++ SHole sz :: B) ptrs) as HP' by (rewrite app_assoc, <- Hsp; done).
  pose proof (link_at _ _ _ _ _ HP') as (Hat & -> & Hn1 & _). cbn [mbind option_bind].
  pose proof Hlay as Hl2. rewrite Hsp, <- app_assoc in Hl2. apply lay_ok_app in Hl2 as [_ Hl2]. pose proof Hl2 as Hl2'. apply lay_ok_app in Hl2' as [Hl2' _]. pose proof (lay_len_nonneg _ _ _ _ Hl2').
  pose proof (lay_len_nonneg _ _ _ _ HA). assert (lay_len A = lay_len l1 + lay_len l2) as HlA by (rewrite Hsp; apply lay_len_app).
  destruct (free_split (top + lay_len l1) l2 (first_free (top + lay_len A + sz) B 0)) as [[Hf Hnf]|(a & n & b & -> & Ha & Hf)].
  - assert (first_free (top + lay_len l1) (l2 ++ SHole sz :: B) 0 = first_free (top + lay_len A + sz) B 0) as ->.
    { rewrite first_free_app, first_free_none by done. cbn [first_free slen]. f_equal. lia. }
    assert (last_free (hdr pg + 1) top A = last_free (hdr pg + 1) top l1) as -> by (rewrite Hsp, last_free_app; by apply last_free_none).
    destruct (free_bounds _ _ _ HB ltac:(lia)) as [->|Hb]; [by rewrite (Z.ltb_irrefl 0), andb_false_r|]. rewrite (proj2 (Z.ltb_ge _ (top + lay_len A))) by lia. done.
  - rewrite lay_len_app in *. cbn [lay_len slen] in *. apply lay_ok_app in Hl2' as [Hla Hlb]. pose proof (lay_len_nonneg _ _ _ _ Hla). destruct Hlb as [(Hn & _) Hlb]. pose proof (lay_len_nonneg _ _ _ _ Hlb).
    assert (first_free (top + lay_len l1) ((a ++ SFree n :: b) ++ SHole sz :: B) 0 = top + lay_len l1 + lay_len a) as ->.
    { rewrite <- app_assoc, first_free_app, (first_free_none _ a) by done. done. }
    rewrite (proj2 (Z.ltb_lt _ (top + lay_len A))), (proj2 (Z.ltb_lt 0 _)), (proj2 (Z.ltb_ge _ _)) by lia. cbn [andb].
    specialize (IH (l1 ++ a ++ [SFree n]) b). rewrite (app_assoc l1), last_free_app in IH. cbn [last_free] in IH. rewrite !lay_len_app in IH. replace (top + (lay_len l1 + lay_len a)) with (top + lay_len l1 + lay_len a) in IH by lia.
    apply IH; [rewrite Hsp, <- !app_assoc; done|lia].
Qed.
End Free.

(** What the rest of freeSpace keeps: the cells and their places. *)
Definition same_cells (lay lay' : list seg) (top top' : Z) : Prop := cells_at top' lay' = cells_at top lay /\ hole_sum lay' = hole_sum lay.

(** One round of the loop that joins two blocks. *)
Lemma coalesce_merge pg top ptrs d l a n n' b (pc := top + lay_len l) (pnext := pc + n + lay_len a) (lay' := l ++ SFree (n + lay_len a + n') :: b) :
  page_lay (set_data pg d) top (l ++ SFree n :: a ++ SFree n' :: b) ptrs -> Forall (fun s => ~ is_free s) a -> lay_len a < 4 ->
  exists m x s d1 d2 d', aget d (hdr pg + 7) = Some m /\ (pnext - (pc + n) <? 0) || (m <? pnext - (pc + n)) = false /\
    aset d (hdr pg + 7) (u8 (m - u8 (pnext - (pc + n)))) = Some d1 /\
    get2byte d1 pnext = Some x /\ put2byte d1 pc x = Some d2 /\ get2byte d2 (pnext + 2) = Some s /\ put2byte d2 (pc + 2) (pnext + s - pc) = Some d' /\
    page_lay (set_data pg d') top lay' ptrs /\ same_cells (l ++ SFree n :: a ++ SFree n' :: b) lay' top top.
Proof.
  intros HP Ha Hshort. pose proof (pl_bounds HP) as (B1 & B2 & B3 & B4 & B5 & B6 & _). pose proof (link_at _ _ _ _ _ HP) as (Hat & Hlink & Hn1 & _). pose proof (pl_lay _ _ _ _ HP) as Hl. pose proof (pl_len _ _ _ _ HP) as Hlen.
  destruct (pl_sums HP) as (_ & Hfb & _). pose proof (lay_sums _ _ _ _ Hl) as (_ & _ & _ & _ & _). pose proof (pl_frag _ _ _ _ HP) as Hfr. pose proof (pl_mem _ _ _ _ HP) as Hmem. apply lay_ok_app in Hl as [Hl1 Hl]. pose proof (lay_sums _ _ _ _ Hl1) as (_ & Hf1 & _).
  destruct Hl as [(Hn & Hnx & Hsz) Hl]. cbn [slen] in Hl. apply lay_ok_app in Hl as [Hla Hl]. pose proof (lay_len_nonneg _ _ _ _ Hla) as Hna. destruct Hl as [(Hn' & Hnx' & Hsz') Hlb]. cbn [slen] in Hlb. pose proof (lay_sums _ _ _ _ Hlb) as (Hsb & Hfb' & _).
  destruct (short_frag _ _ _ _ Hla Hshort Ha) as (Hfa & Hca & Hha & Hcells). rewrite !frag_app in *. cbn [frag] in *. rewrite !frag_app in *. cbn [frag] in *. rewrite Hfa in *. rewrite !lay_len_app in Hlen. cbn [lay_len slen] in Hlen. rewrite !lay_len_app in Hlen. cbn [lay_len slen] in Hlen.
  cbn [set_data pg_aData pg_hdrOffset pg_pBt pg_nCell pg_cellOffset] in *. pose proof (lay_len_nonneg _ _ _ _ Hlb) as Hnb. fold pc in Hnx, Hsz, Hla, Hnx', Hsz', Hlb. fold pnext in Hnx', Hsz', Hlb.
  assert (pc = top + lay_len l /\ pnext = pc + n + lay_len a) as [Hpc Hpn] by done. clearbody pc pnext.
  destruct (aset_out d (hdr pg + 7) (u8 (frag l + (0 + (lay_len a + (0 + frag b))) - u8 (pnext - (pc + n))))) as (d1 & R2 & H1 & G1); [lia|apply is_byte_u8|]. pose proof H1 as (L1 & M1 & S1).
  destruct (put2_out d1 pc (first_free (pnext + n') b 0)) as (d2 & R3 & H2 & G2); [lia..|]. pose proof H2 as (L2 & M2 & S2).
  destruct (put2_out d2 (pc + 2) (pnext + n' - pc)) as (d' & R4 & H3 & G3); [lia..|]. pose proof H3 as (L3 & M3 & S3).
  eexists _, (first_free (pnext + n') b 0), n', d1, d2, d'. split; [exact Hfr|]. split; [lia|]. split; [exact R2|]. split; [by rewrite (get2_out _ _ _ _ _ H1) by lia|]. split; [exact R3|].
  split; [by rewrite (get2_out _ _ _ _ _ H2), (get2_out _ _ _ _ _ H1) by lia|]. split; [exact R4|].
  assert (forall i, i <> hdr pg + 7 -> i < pc \/ pc + 4 <= i -> aget d' i = aget d i) as Hout by (intros i Hi Hi'; rewrite S3, S2, S1 by lia; done). split.
  - apply (page_lay_relink (set_data pg d) top l (SFree n :: a ++ SFree n' :: b) _ ptrs); cbn [set_data pg_aData pg_hdrOffset first_free lay_ok lay_len slen cell_sum frag]; rewrite <- ?Hpc; auto.
    + congruence.
    + rewrite (get2_same d d'), Hlink; [by rewrite Hpc|apply Hout; lia..].
    + replace (pc + (n + lay_len a + n')) with (pnext + n') by lia. split; [split; [lia|]|].
      * rewrite (get2_out _ _ _ _ _ H3), G2, G3, !u16_id by first [lia | destruct (free_bounds _ _ _ Hlb); lia]. split; [done|f_equal; lia].
      * eapply lay_ok_same; [|exact Hlb]. intros i Hi. apply Hout; lia.
    + rewrite lay_len_app. cbn [lay_len slen]. lia.
    + rewrite cell_sum_app. cbn [cell_sum]. lia.
    + rewrite S3, S2, G1 by lia. f_equal. unfold u8. rewrite (Z.mod_small (pnext - (pc + n))), Z.mod_small by lia. lia.
  - subst lay'. split.
    + rewrite !cells_at_app. cbn [cells_at slen app]. rewrite cells_at_app, Hcells. cbn [cells_at slen app]. do 2 f_equal. lia.
    + rewrite !hole_sum_app. cbn [hole_sum]. rewrite hole_sum_app. cbn [hole_sum]. lia.
Qed.

Definition coalesce_to (pg : MemPage) (top : Z) (ptrs : list Z) (lay : list seg) (r : option (Z * list Z)) : Prop :=
  exists d' lay', r = Some (SQLITE_OK, d') /\ page_lay (set_data pg d') top lay' ptrs /\ same_cells lay lay' top top /\ (0 < nfree lay -> 0 < nfree lay')%nat /\ gaps 4 lay'.

Lemma coalesce_loop_spec pg top ptrs fuel : forall d l1 l2, page_lay (set_data pg d) top (l1 ++ l2) ptrs -> (nfree l2 < fuel)%nat -> gaps 4 l1 -> (forall a n b, l2 = a ++ SFree n :: b -> Forall (fun s => ~ is_free s) a -> 4 <= dist 4 l1 + lay_len a) ->
  coalesce_to pg top ptrs (l1 ++ l2) (coalesce_loop fuel d (hdr pg) (usable pg) (last_free (hdr pg + 1) top l1)).
Proof.
  induction fuel as [|fuel IH]; intros d l1 l2 HP Hfuel Hgl Hnext; [lia|]. cbn [coalesce_loop].
  pose proof (pl_bounds HP) as (B1 & B2 & B3 & B4 & B5 & B6 & _). pose proof (link_at _ _ _ _ _ HP) as (Hat & Hlink & Hn1 & _). pose proof (pl_lay _ _ _ _ HP) as Hl2. pose proof (pl_len _ _ _ _ HP) as Hlen. destruct (pl_sums HP) as (_ & Hfb & _).
  pose proof (pl_frag _ _ _ _ HP) as Hfr. cbn [set_data pg_aData pg_hdrOffset pg_pBt pg_nCell pg_cellOffset] in *. rewrite Hlink. cbn [mbind option_bind].
  apply lay_ok_app in Hl2 as [_ Hl2]. destruct (free_cases _ _ _ Hl2 ltac:(lia)) as [[-> Hnf]|(a & n & b & -> & Ha & Hpc)]; [exists d, (l1 ++ l2); split_and!; try done; apply gaps_app; split; [done|by apply gaps_none]|].
  apply lay_ok_app in Hl2 as [Hla Hlb]. pose proof (lay_len_nonneg _ _ _ _ Hla) as Hna. destruct Hlb as [(Hn & Hnx & Hsz) Hlb]. rewrite Hpc. set (pc := top + lay_len l1 + lay_len a) in *. cbn [slen] in Hlb. pose proof (lay_len_nonneg _ _ _ _ Hlb) as Hnb.
  rewrite !lay_len_app in Hlen. cbn [lay_len slen] in Hlen. assert (pc = top + lay_len l1 + lay_len a) as Hpcv by done. clearbody pc.
  rewrite nfree_app in Hfuel. cbn [nfree] in Hfuel.
  rewrite (proj2 (Z.ltb_lt 0 pc)), (proj2 (Z.ltb_lt _ pc)), (proj2 (Z.leb_le pc _)) by lia. cbn [assert_ mbind option_bind]. rewrite Hnx, Hsz. cbn [mbind option_bind].
  specialize (Hnext a n b eq_refl Ha). assert (gaps 4 (l1 ++ a ++ [SFree n]) /\ dist 4 (l1 ++ a ++ [SFree n]) = 0) as [Hg1 Hd1].
  { destruct (gaps_none (dist 4 l1) a Ha) as [Hga Hda]. rewrite !gaps_app, !dist_app, Hda. cbn. done. }
  assert ((forall a' n' b', b = a' ++ SFree n' :: b' -> Forall (fun s => ~ is_free s) a' -> 4 <= lay_len a') -> coalesce_to pg top ptrs (l1 ++ a ++ SFree n :: b) (coalesce_loop fuel d (hdr pg) (usable pg) pc)) as Hadv.
  { intros Hnb'. specialize (IH d (l1 ++ a ++ [SFree n]) b). rewrite (app_assoc l1), last_free_app in IH. cbn [last_free] in IH. rewrite !lay_len_app, Z.add_assoc, <- Hpcv, <- !app_assoc in IH. apply IH; [done|lia|done|]. rewrite Hd1. intros; rewrite Z.add_0_l; eauto. }
  destruct (free_cases _ _ _ Hlb ltac:(lia)) as [[-> Hnf]|(a' & n' & b' & -> & Ha' & Hf0)].
  { rewrite (Z.ltb_irrefl 0), andb_false_r. apply Hadv. intros a' n' b' -> _. apply Forall_app in Hnf as [_ Hnf]. apply Forall_cons in Hnf as [Hnf _]. by destruct Hnf. }
  pose proof Hlb as Hla'. apply lay_ok_app in Hla' as [Hla' _]. pose proof (lay_len_nonneg _ _ _ _ Hla'). rewrite Hf0, (proj2 (Z.ltb_lt 0 _)), andb_true_r by lia.
  destruct (Z.leb_spec (pc + n + lay_len a') (pc + n + 3)) as [Hshort|Hlong].
  2: { apply Hadv. intros a2 n2 b2 Heq Ha2. assert (first_free (pc + n) (a2 ++ SFree n2 :: b2) 0 = pc + n + lay_len a2) as Hf2 by (rewrite first_free_app, first_free_none by done; done). rewrite <- Heq, Hf0 in Hf2. lia. }
  rewrite app_assoc in HP.
  destruct (coalesce_merge _ _ _ _ _ _ _ _ _ HP Ha' ltac:(lia)) as (m & x & s & d1 & d2 & d' & R0 & R1 & R2 & R3 & R4 & R5 & R6 & HP' & [Hc1 Hc2]). rewrite !lay_len_app, !Z.add_assoc, <- Hpcv in *.
  rewrite R0. cbn [mbind option_bind]. rewrite R1, R2. cbn [mbind option_bind]. rewrite R3. cbn [mbind option_bind]. rewrite R4. cbn [mbind option_bind]. rewrite R5. cbn [mbind option_bind]. rewrite R6. cbn [mbind option_bind].
  rewrite <- app_assoc in HP'. destruct (IH d' l1 (a ++ SFree (n + lay_len a' + n') :: b') HP') as (d'' & lay' & -> & HP'' & [Hc3 Hc4] & Hnf & Hgaps).
  { rewrite !nfree_app in *. cbn [nfree] in *. lia. }
  { done. }
  { intros a2 n2 b2 Heq Ha2. assert (forall m B, first_free 0 (a ++ SFree m :: B) 0 = lay_len a) as E1 by (intros; rewrite first_free_app, first_free_none by done; done).
    assert (first_free 0 (a2 ++ SFree n2 :: b2) 0 = lay_len a2) as E2 by (rewrite first_free_app, first_free_none by done; done). rewrite <- Heq, E1 in E2. lia. }
  exists d'', lay'. split_and!; [done|done| | |].
  - rewrite app_assoc in *. split; [by rewrite Hc3|by rewrite Hc4].
  - intros _. apply Hnf. rewrite !nfree_app. cbn [nfree]. lia.
  - done.
Qed.

Lemma get2_bytes d i v : mem d -> get2byte d i = Some v -> exists a b, aget d i = Some a /\ aget d (i + 1) = Some b /\ v = a * 256 + b /\ 0 <= a < 256 /\ 0 <= b < 256.
Proof.
  intros Hm Hg. pose proof Hg as Hg'. unfold get2byte in Hg. destruct (aget d i) as [a|] eqn:Ha; [|done]. destruct (aget d (i + 1)) as [b|] eqn:Hb; [|done].
  pose proof (aget_Forall _ _ _ _ Hm Ha) as H1. pose proof (aget_Forall _ _ _ _ Hm Hb) as H2. rewrite (get2_val _ _ _ _ Ha Hb H2) in Hg'. injection Hg' as <-. unfold ubits in *. eauto 10 with lia.
Qed.

Lemma free_top_spec pg top lay ptrs d : page_lay (set_data pg d) top lay ptrs -> (0 < nfree lay)%nat ->
  exists d' top' lay', free_top d (hdr pg) = Some d' /\ page_lay (set_data pg d') top' lay' ptrs /\ same_cells lay lay' top top' /\ (gaps 4 lay -> gaps 4 lay').
Proof.
  intros HP Hnf. pose proof (pl_bounds HP) as (B1 & B2 & B3 & B4 & B5 & B6 & _). pose proof (pl_lay _ _ _ _ HP) as Hl. pose proof (pl_len _ _ _ _ HP) as Hlen. pose proof (pl_frag _ _ _ _ HP) as Hfr. pose proof (pl_mem _ _ _ _ HP) as Hmem.
  pose proof (pl_first _ _ _ _ HP) as Hfirst. pose proof (pl_top _ _ _ _ HP) as Htop. pose proof (nfree_bound _ _ _ _ Hl). cbn [set_data pg_aData pg_hdrOffset pg_pBt pg_nCell pg_cellOffset] in *. rewrite u16_id in Htop by lia.
  destruct (get2_bytes _ _ _ Hmem Hfirst) as (a1 & a2 & Ha1 & Ha2 & Hva & Ra1 & Ra2). destruct (get2_bytes _ _ _ Hmem Htop) as (b1 & b2 & Hb1 & Hb2 & Hvb & Rb1 & Rb2).
  rewrite <- Z.add_assoc in Ha2, Hb2. change (1 + 1) with 2 in Ha2. change (5 + 1) with 6 in Hb2. unfold free_top. rewrite Ha1, Hb1, Ha2, Hb2, Hfirst. cbn [mbind option_bind].
  destruct ((a1 =? b1) && (a2 =? b2)) eqn:Heq; [|by exists d, top, lay]. assert (first_free top lay 0 = top) as Hff by lia. rewrite Hff.
  destruct (free_split top lay 0) as [[? _]|(a & n & b & -> & Ha & Hf)]; [lia|]. apply lay_ok_app in Hl as [Hla Hlb]. assert (lay_len a = 0) as Ha0 by lia. rewrite Ha0, Z.add_0_r in Hlb, Hla. destruct Hlb as [(Hn & Hnx & Hsz) Hlb]. cbn [slen] in Hlb. pose proof (lay_len_nonneg _ _ _ _ Hlb).
  destruct (short_frag _ _ _ _ Hla ltac:(lia) Ha) as (Hfa & Hca & Hha & Hcells). rewrite lay_len_app, frag_app in *. cbn [lay_len slen frag] in *.
  destruct (copy2_out d (hdr pg + 1) top (first_free (top + n) b 0)) as (d1 & -> & H1 & G1); [done|done|lia..|]. cbn [mbind option_bind]. pose proof H1 as (L1 & M1 & S1).
  rewrite !(get2_out _ _ _ _ _ H1), Htop, Hsz by lia. cbn [mbind option_bind]. destruct (put2_out d1 (hdr pg + 5) (top + n)) as (d2 & -> & H2 & G2); [lia..|]. pose proof H2 as (L2 & M2 & S2).
  exists d2, (top + n), b. split; [done|]. split.
  - replace (set_data pg d2) with (set_data (set_free (set_data pg d) (pg_nFree pg)) d2) by done. eapply page_lay_set; [exact HP|..]; cbn [set_data pg_aData pg_hdrOffset pg_pBt pg_nCell pg_cellOffset pg_nFree]; auto; try lia.
    + rewrite S2, S1 by lia. done.
    + rewrite (get2_out _ _ _ _ _ H2) by lia. done.
    + rewrite (get2_out _ _ _ _ _ H2), (get2_out _ _ _ _ _ H1) by lia. apply (pl_ncell _ _ _ _ HP).
    + rewrite S2, S1 by lia. rewrite Hfr. f_equal. lia.
    + eapply lay_ok_same; [|exact Hlb]. intros i Hi. rewrite S2, S1 by lia. done.
    + intros i Hi. rewrite S2, S1 by lia. done.
    + rewrite cell_sum_app. cbn [cell_sum]. lia.
  - split; [|intros Hg; apply gaps_app in Hg as (_ & _ & Hg); eapply gaps_mono; [exact Hg|lia]].
    split; [rewrite cells_at_app, Hcells; cbn [cells_at slen app]; f_equal; lia|rewrite hole_sum_app; cbn [hole_sum]; lia].
Qed.

Lemma secure_zero (fl : bool) d start sz : 0 <= start -> 0 <= sz -> start + sz <= Z.of_nat (length d) ->
  exists d0, (if fl then zero_bytes d start sz else Some d) = Some d0 /\ same_out d d0 start (start + sz).
Proof.
  intros H0 H1 H2. destruct fl; [|exists d; split; [done|apply same_out_refl]]. unfold zero_bytes. rewrite (proj2 (Z.leb_le 0 sz)) by lia. cbn [assert_ mbind option_bind].
  destruct (put_bytes_out d start (replicate (Z.to_nat sz) 0)) as (d0 & -> & Hs0 & _); [lia|rewrite length_replicate; lia|by apply Forall_replicate|]. rewrite length_replicate, Z2Nat.id in Hs0 by lia. eauto.
Qed.

(** The bytes of a cell no longer matter. *)
Lemma page_lay_hole pg top A c B ptrs d0 (start := top + lay_len A) (sz := Z.of_nat (length c)) : page_lay pg top (A ++ SCell c :: B) ptrs -> same_out (pg_aData pg) d0 start (start + sz) ->
  page_lay (set_data (set_free pg (pg_nFree pg + sz)) d0) top (A ++ SHole sz :: B) ptrs.
Proof.
  intros HP Hs0. pose proof (pl_bounds HP). pose proof (link_at _ _ _ _ _ HP) as (Hat & Hlink & Hn1 & _). pose proof (pl_lay _ _ _ _ HP) as Hl. pose proof (pl_frag _ _ _ _ HP) as Hfr. pose proof (pl_mem _ _ _ _ HP) as Hmem.
  apply lay_ok_app in Hl as [_ [[Hc _] HB]]. rewrite frag_app in Hfr. cbn [frag slen first_free] in *. pose proof Hs0 as (L0 & M0 & S0). fold start sz in HB, Hlink, Hc. subst start.
  apply (page_lay_relink_free pg top A (SCell c :: B) _ ptrs d0); cbn [first_free lay_ok lay_len slen cell_sum frag]; auto; try (fold sz; lia).
  - rewrite (get2_out _ _ _ _ _ Hs0) by lia. done.
  - split; [done|]. eapply lay_ok_same; [|exact HB]. intros i Hi. apply S0. lia.
  - rewrite S0 by lia. done.
Qed.

(** A hole becomes a free block: the three writes of freeSpace. *)
Lemma page_lay_link pg top A sz B ptrs d (start := top + lay_len A) (pbegin := first_free (start + sz) B 0) : page_lay (set_data pg d) top (A ++ SHole sz :: B) ptrs ->
  exists d1 d2 d3, put2byte d (last_free (hdr pg + 1) top A) start = Some d1 /\ put2byte d1 start pbegin = Some d2 /\ put2byte d2 (start + 2) sz = Some d3 /\
    page_lay (set_data pg d3) top (A ++ SFree sz :: B) ptrs.
Proof.
  intros HP. pose proof (pl_bounds HP) as (B1 & B2 & B3 & B4 & B5 & B6 & _). pose proof (link_at _ _ _ _ _ HP) as (Hat & Hlink & Hn1 & _). pose proof (pl_lay _ _ _ _ HP) as Hl. pose proof (pl_len _ _ _ _ HP) as Hlen. pose proof (pl_frag _ _ _ _ HP) as Hfr. pose proof (pl_mem _ _ _ _ HP) as Hmem.
  apply lay_ok_app in Hl as [_ [Hc HB]]. rewrite frag_app in Hfr. rewrite lay_len_app in Hlen. cbn [frag slen first_free lay_len set_data pg_aData pg_hdrOffset pg_pBt pg_nCell pg_cellOffset] in *. fold start in HB, Hlink. pose proof (lay_len_nonneg _ _ _ _ HB).
  pose proof (free_bounds _ _ _ HB ltac:(lia)) as Hfb. fold pbegin in Hfb. assert (start = top + lay_len A) as Hst by done. clearbody start.
  destruct (put2_out d (last_free (hdr pg + 1) top A) start) as (d1 & R1 & H1 & G1); [lia..|]. pose proof H1 as (L1 & M1 & S1).
  destruct (put2_out d1 start pbegin) as (d2 & R2 & H2 & G2); [lia..|]. pose proof H2 as (L2 & M2 & S2).
  destruct (put2_out d2 (start + 2) sz) as (d3 & R3 & H3 & G3); [lia..|]. pose proof H3 as (L3 & M3 & S3).
  exists d1, d2, d3. split_and!; [done..|]. rewrite u16_id in G1, G2, G3 by lia.
  apply (page_lay_relink (set_data pg d) top A (SHole sz :: B) _ ptrs); cbn [set_data pg_aData pg_hdrOffset first_free lay_ok lay_len slen cell_sum frag]; rewrite <- ?Hst; auto.
  - congruence.
  - intros i Hi Hi' Hi7. rewrite S3, S2, S1 by lia. done.
  - rewrite (get2_out _ _ _ _ _ H3), (get2_out _ _ _ _ _ H2) by lia. done.
  - rewrite (get2_out _ _ _ _ _ H3) by lia. split_and!; [lia|done|done|]. eapply lay_ok_same; [|exact HB]. intros i Hi. rewrite S3, S2, S1 by lia. done.
  - rewrite S3, S2, S1 by lia. done.
Qed.

(** The cell at [start] is freed: the page keeps its other cells. *)
Lemma freeSpace_spec pg top A c B ptrs (start := top + lay_len A) (sz := Z.of_nat (length c)) (pg1 := set_free pg (pg_nFree pg + sz)) : page_lay pg top (A ++ SCell c :: B) ptrs ->
  exists d' top' lay', freeSpace pg start sz = Some (SQLITE_OK, set_data pg1 d') /\ page_lay (set_data pg1 d') top' lay' ptrs /\ same_cells (A ++ SFree sz :: B) lay' top top' /\ gaps 4 lay'.
Proof.
  intros HP. pose proof (pl_bounds HP) as (B1 & B2 & B3 & B4 & B5 & B6 & _). pose proof (link_at _ _ _ _ _ HP) as (Hat & _ & Hn1 & _). pose proof (pl_lay _ _ _ _ HP) as Hl. pose proof (pl_len _ _ _ _ HP) as Hlen.
  pose proof (pl_geo _ _ _ _ HP) as HG. pose proof (ge_cell _ HG). pose proof (ge_child _ HG). pose proof (pl_free _ _ _ _ HP) as Hnfree. destruct (pl_sums HP) as (Hsums & Hfr & _ & Hft0 & Hho). apply lay_ok_app in Hl as [HA [[Hc Hcb] HB]]. pose proof (lay_len_nonneg _ _ _ _ HB).
  rewrite lay_len_app in Hlen. rewrite cell_sum_app in Hnfree, Hsums. cbn [lay_len slen cell_sum] in Hlen, HB, Hnfree, Hsums. fold sz in Hc, Hlen, HB, Hnfree, Hsums. fold start in HB. pose proof (lay_sums _ _ _ _ HA) as (_ & _ & HcA & _). pose proof (lay_sums _ _ _ _ HB) as (_ & _ & HcB & _).
  assert (start = top + lay_len A) as Hst by done. unfold freeSpace. rewrite (proj2 (Z.leb_le (hdr pg + 6 + _) start)), (proj2 (Z.leb_le (start + sz) _)), (proj2 (Z.leb_le 0 sz)) by lia. cbn [assert_ mbind option_bind].
  destruct (secure_zero (flag (bt_btsFlags (pg_pBt pg)) BTS_SECURE_DELETE) (pg_aData pg) start sz) as (d0 & -> & Hs0); [lia..|]. cbn [mbind option_bind]. pose proof (page_lay_hole _ _ _ _ _ _ _ HP Hs0) as HP0. fold sz pg1 in HP0.
  rewrite (proj2 (Z.leb_le start _)) by lia. cbn [assert_ mbind option_bind].
  pose proof (free_find_spec HP0 (S (Z.to_nat (usable pg))) [] A eq_refl ltac:(lia)) as Hfind. cbn [set_data set_free pg1 pg_aData pg_hdrOffset last_free lay_len] in Hfind. fold start in Hfind. rewrite Hfind. cbn [mbind option_bind].
  pose proof (free_bounds _ _ _ HB ltac:(lia)) as Hfb. rewrite (proj2 (Z.ltb_ge _ (first_free _ _ _))) by lia.
  replace ((last_free (hdr pg + 1) top A <? first_free (start + sz) B 0) || (first_free (start + sz) B 0 =? 0)) with true by lia. cbn [assert_ mbind option_bind].
  destruct (page_lay_link _ _ _ _ _ _ _ HP0) as (d1 & d2 & d3 & R1 & R2 & R3 & HP3). fold start in R1, R2, R3. cbn [set_data set_free pg1 pg_aData pg_hdrOffset] in R1. rewrite R1. cbn [mbind option_bind]. rewrite R2. cbn [mbind option_bind]. rewrite R3. cbn [mbind option_bind].
  replace (u16 (pg_nFree pg + u16 sz)) with (pg_nFree pg + sz) by (rewrite (u16_id sz), u16_id by lia; done). fold pg1.
  destruct (coalesce_loop_spec pg1 top ptrs (S (Z.to_nat (usable pg))) d3 [] (A ++ SFree sz :: B) HP3) as (d4 & lay4 & Hco & HP4 & [Hs1 Hs2] & Hnf & Hg4).
  { pose proof (nfree_bound _ _ _ _ (pl_lay _ _ _ _ HP3)). pose proof (pl_len _ _ _ _ HP3) as Hl3. cbn [set_data set_free pg1 pg_pBt] in Hl3. lia. }
  { done. }
  { intros a n b Heq Ha. pose proof (pl_lay _ _ _ _ HP3) as Hl3. rewrite Heq in Hl3. apply lay_ok_app in Hl3 as [Hl3 _]. apply lay_len_nonneg in Hl3. cbn [dist]. lia. }
  cbn [set_data set_free pg1 pg_pBt pg_hdrOffset last_free] in Hco. rewrite Hco. cbn [mbind option_bind]. change (negb (SQLITE_OK =? SQLITE_OK)) with false. cbn [app] in *.
  destruct (free_top_spec pg1 top lay4 ptrs d4 HP4) as (d5 & top5 & lay5 & Hft & HP5 & [Hs3 Hs4] & Hg5). { apply Hnf. rewrite nfree_app. cbn [nfree]. lia. }
  cbn [set_data set_free pg1 pg_hdrOffset] in Hft. rewrite Hft. cbn [mbind option_bind]. exists d5, top5, lay5. split; [done|]. split; [done|]. split; [split; congruence|auto].
Qed.
