(* ===== verification/PageParse.v ===== *)
(** * PageParse: the size of a cell (btree.c)

    cellSizePtr, which is made to be fast, and btreeParseCellPtr, which parses
    the whole cell, agree on its size; cells written in the documented format
    have the size of their bytes. *)
From S2P Require Import Prelude BitExpr Varint Record Page PageLayout PageSpace.

(** ** Incomplete varints *)

(** As [step_byte], for an input that ends too early. *)
Ltac step_short p b HF l :=
  destruct p as [|b p]; [intros _; reflexivity|];
  let Hb := fresh "Hb" in apply Forall_cons in HF as [Hb HF];
  repeat match goal with
  | |- context [aget (?x :: ?y) ?k] =>
      let r := eval lazy in (aget (x :: y) k) in change (aget (x :: y) k) with r
  end;
  cbn [mbind option_bind varint_dec]; norm_top (b :: l);
  let T := fresh "T" in destruct (top b) eqn:T; cbn [negb]; [|done].

Lemma getVarint_short p : Forall is_byte p -> varint_spec p = None -> sqlite3GetVarint p = None.
Proof.
  intros HF. unfold varint_spec, sqlite3GetVarint, getVarint_tail.
  step_short p b0 HF (@nil Z).
  step_short p b1 HF [b0].
  step_short p b2 HF [b1; b0].
  step_short p b3 HF [b2; b1; b0].
  step_short p b4 HF [b3; b2; b1; b0].
  step_short p b5 HF [b4; b3; b2; b1; b0].
  step_short p b6 HF [b5; b4; b3; b2; b1; b0].
  step_short p b7 HF [b6; b5; b4; b3; b2; b1; b0].
  destruct p as [|b8 p]; [intros _; reflexivity|]. done.
Qed.

Lemma getVarint_read p v n : Forall is_byte p -> sqlite3GetVarint p = Some (v, n) -> varint_spec p = Some (v, n) /\ 1 <= n <= 9.
Proof.
  intros HF Hg. destruct (varint_spec p) as [[w m]|] eqn:Hs; [|by rewrite (getVarint_short p HF Hs) in Hg]. rewrite (getVarint_dec p HF ltac:(eauto)), Hs in Hg. injection Hg as <- <-. split; [done|].
  apply varint_dec_range in Hs; [lia|done|lia].
Qed.

Lemma getVarint32_complete p x : Forall is_byte p -> getVarint32 p = Some x -> exists v n, varint_spec p = Some (v, n).
Proof.
  intros HF Hg. destruct (varint_spec p) as [[w m]|] eqn:Hs; [eauto|]. exfalso. pose proof (getVarint_short p HF Hs) as Hn. unfold getVarint32, sqlite3GetVarint32 in Hg. rewrite Hn in Hg. destruct p as [|b0 p]; [done|]. apply Forall_cons in HF as [H0 HF].
  change (aget (b0 :: p) 0) with (Some b0) in *. unfold varint_spec in Hs. cbn [mbind option_bind varint_dec] in *. rewrite top_small in Hg by done. destruct (top b0) eqn:T0; cbn [negb] in *; [|done].
  destruct p as [|b1 p]; [done|]. apply Forall_cons in HF as [H1 HF]. change (aget (b0 :: b1 :: p) 1) with (Some b1) in *. cbn [mbind option_bind varint_dec] in *. destruct (top b1) eqn:T1; cbn [negb mbind option_bind] in *; [|done].
  destruct p as [|b2 p]; [done|]. apply Forall_cons in HF as [H2 HF]. change (aget (b0 :: b1 :: b2 :: p) 2) with (Some b2) in *. cbn [mbind option_bind varint_dec] in *.
  assert (top (Z.lor (u32 (Z.shiftl b0 14)) b2) = top b2) as Ht by (unfold top; do 2 f_equal; bx_solve [b2; b0]). rewrite Ht in Hg. destruct (top b2); cbn [negb mbind option_bind] in *; done.
Qed.

Lemma getVarint32_range p v n : Forall is_byte p -> getVarint32 p = Some (v, n) -> 0 <= v < 2 ^ 32 /\ 1 <= n <= 9.
Proof.
  intros HF Hg. destruct (getVarint32_complete _ _ HF Hg) as (w & m & Hs). rewrite (getVarint32_spec p w m HF Hs) in Hg. injection Hg as <- <-. apply varint_dec_range in Hs; [lia|done|lia].
Qed.

(** *** What follows a complete cell does not matter *)

Lemma varint_dec_app k : forall acc p q x, varint_dec k acc p = Some x -> varint_dec k acc (p ++ q) = Some x.
Proof.
  induction k as [|k IH]; intros acc [|b p] q x; try done. cbn [varint_dec app]. destruct (top b); [|done].
  destruct (varint_dec k _ p) as [[w m]|] eqn:E; [|done]. by rewrite (IH _ _ q _ E).
Qed.

Lemma getVarint32_app p q x : Forall is_byte p -> Forall is_byte q -> getVarint32 p = Some x -> getVarint32 (p ++ q) = Some x.
Proof.
  intros Hp Hq Hg. destruct (getVarint32_complete _ _ Hp Hg) as (w & m & Hs). rewrite (getVarint32_spec p w m Hp Hs) in Hg. rewrite <- Hg. apply getVarint32_spec; [by apply Forall_app|by apply varint_dec_app].
Qed.

Lemma key_loop_app f : forall p q n x, key_loop f p n = Some x -> key_loop f (p ++ q) n = Some x.
Proof. induction f as [|f IH]; intros [|b p] q n x; try done. cbn [key_loop app]. destruct (_ && _); [apply IH|done]. Qed.

Lemma suffix_app_l {A} (p q l : list A) i : suffix p i = Some l -> suffix (p ++ q) i = Some (l ++ q).
Proof. unfold suffix. rewrite length_app. intros H. case_decide; [|done]. rewrite decide_True by lia. injection H as <-. f_equal. apply drop_app_le. lia. Qed.

(** The loop that skips the key passes what getVarint reads. *)
Lemma key_loop_dec k : forall acc p v n, (k <= 8)%nat -> varint_dec k acc p = Some (v, n) -> key_loop (S k) p (8 - Z.of_nat k) = Some (8 - Z.of_nat k + n).
Proof.
  induction k as [|k IH]; intros acc [|b p] v n Hk; try done.
  - cbn [varint_dec key_loop]. intros [= <- <-]. rewrite andb_false_r. done.
  - cbn [varint_dec]. cbn [key_loop]. change 0x80 with 128. fold (top b). destruct (top b); cbn [andb].
    + destruct (varint_dec k _ p) as [[w m]|] eqn:E; [|done]. cbn [mbind option_bind]. intros [= <- <-]. rewrite (proj2 (Z.ltb_lt _ 9)) by lia. replace (8 - Z.of_nat (S k) + 1) with (8 - Z.of_nat k) by lia.
      etransitivity; [eapply IH; [lia|exact E]|]. f_equal. lia.
    + intros [= <- <-]. done.
Qed.

Lemma key_loop_varint p v n : Forall is_byte p -> sqlite3GetVarint p = Some (v, n) -> key_loop 9 p 0 = Some n.
Proof. intros HF Hg. apply getVarint_read in Hg as [Hs _]; [|done]. apply (key_loop_dec 8) in Hs; [done|lia]. Qed.

Lemma mem_suffix d i l : mem d -> suffix d i = Some l -> mem l.
Proof. intros Hm Hs. unfold suffix in Hs. case_decide; [|done]. injection Hs as <-. by apply Forall_drop. Qed.

(** ** Local payload *)

Record local_ok (pg : MemPage) : Prop := {
  lo_min : 0 <= pg_minLocal pg <= pg_maxLocal pg;
  lo_max : pg_maxLocal pg + 35 <= usable pg;
  lo_usable : 480 <= usable pg <= 65536 }.

Lemma local_size_range pg n : local_ok pg -> 0 <= n < 2 ^ 32 ->
  local_size pg n = (if n <=? pg_maxLocal pg then n else
    let surplus := pg_minLocal pg + (n - pg_minLocal pg) mod (usable pg - 4) in
    (if surplus <=? pg_maxLocal pg then surplus else pg_minLocal pg) + 4) /\ 0 <= local_size pg n <= pg_maxLocal pg + 4.
Proof.
  intros [Hmin Hmax Hus] Hn. unfold local_size. rewrite Z.leb_antisym. destruct (Z.ltb_spec (pg_maxLocal pg) n) as [Hlt|Hge]; cbn [negb]; [|split; [done|lia]].
  cbv zeta. rewrite (u32_id (n - pg_minLocal pg)) by lia. pose proof (Z.mod_pos_bound (n - pg_minLocal pg) (usable pg - 4)) as Hmod.
  set (s := pg_minLocal pg + (n - pg_minLocal pg) mod (usable pg - 4)) in *. assert (0 <= s < 2 ^ 31) by (unfold s; change (2 ^ 31) with 2147483648; lia).
  rewrite (u32_id s) by lia. rewrite Z.leb_antisym. destruct (Z.ltb_spec (pg_maxLocal pg) s); cbn [negb]; (rewrite u32_id by lia; split; [done|lia]).
Qed.

(** What remains of a parse once the header is read. *)
Lemma parse_size pg n nPayload nKey nData (nSize := local_size pg nPayload + n) : local_ok pg -> 0 <= nPayload < 2 ^ 32 -> 1 <= n <= 22 ->
  exists info, (if nPayload <=? pg_maxLocal pg then
      let nSize := u16 (n + nPayload) in
      Some (mkCellInfo nKey nData nPayload n (u16 nPayload) 0 (if nSize <? 4 then 4 else nSize))
    else
      let minLocal := pg_minLocal pg in
      let surplus := u32 (minLocal + u32 (nPayload - minLocal) mod (bt_usableSize (pg_pBt pg) - 4)) in
      let nLocal := if surplus <=? pg_maxLocal pg then u16 surplus else u16 minLocal in
      let iOverflow := u16 (nLocal + n) in
      Some (mkCellInfo nKey nData nPayload n nLocal iOverflow (u16 (iOverflow + 4)))) = Some info /\
    u16 (if u32 nSize <? 4 then 4 else u32 nSize) = ci_nSize info /\ 4 <= ci_nSize info /\ ci_nSize info <= usable pg /\ ci_nLocal info <= pg_maxLocal pg.
Proof.
  intros Hlo Hp Hn. destruct (local_size_range pg nPayload Hlo Hp) as [Hls Hlr]. destruct Hlo as [Hmin Hmax Hus]. rewrite (u32_id nSize) by (unfold nSize; lia). unfold nSize. rewrite Hls in *. destruct (Z.leb_spec nPayload (pg_maxLocal pg)) as [Hle|Hgt].
  - eexists. split; [done|]. cbn [ci_nSize ci_nLocal]. rewrite (u16_id (n + nPayload)), (u16_id nPayload), (Z.add_comm nPayload), u16_id by (destruct (Z.ltb_spec (n + nPayload) 4); lia). destruct (Z.ltb_spec (n + nPayload) 4); (split_and!; [done|lia..]).
  - cbv zeta in *. rewrite (u32_id (nPayload - _)) by lia. set (s := pg_minLocal pg + (nPayload - pg_minLocal pg) mod (usable pg - 4)) in *. pose proof (Z.mod_pos_bound (nPayload - pg_minLocal pg) (usable pg - 4)) as Hmod. rewrite (u32_id s) by (unfold s; lia).
    eexists. split; [done|]. cbn [ci_nSize ci_nLocal]. destruct (Z.leb_spec s (pg_maxLocal pg)); rewrite (proj2 (Z.ltb_ge _ 4)) by lia; rewrite !u16_id by first [lia | rewrite !u16_id by lia; lia | rewrite !u16_id by first [lia | rewrite u16_id by lia; lia]; lia]; (split_and!; [lia..]).
Qed.

(** The limits of the code are such limits. *)
Lemma limits_local_ok pg bt fl : pg_pBt pg = lockBtree_limits bt -> 480 <= usable pg <= 65536 -> decodeFlags pg fl = (SQLITE_OK, pg) -> local_ok pg.
Proof.
  intros Hbt Hu Hd. assert (pg_maxLocal pg = bt_maxLeaf (pg_pBt pg) /\ pg_minLocal pg = bt_minLeaf (pg_pBt pg) \/ pg_maxLocal pg = bt_maxLocal (pg_pBt pg) /\ pg_minLocal pg = bt_minLocal (pg_pBt pg)) as Hm.
  { unfold decodeFlags in Hd. destruct (_ =? _); [|destruct (_ =? _); [|done]]; injection Hd as Hd; [left|right]; (split; [by rewrite <- Hd|by rewrite <- Hd]). }
  rewrite Hbt in *. unfold lockBtree_limits in *. cbn [bt_usableSize bt_maxLocal bt_minLocal bt_maxLeaf bt_minLeaf] in *. set (u := bt_usableSize bt) in *.
  rewrite (u32_id (u - 12)), (u32_id (u - 35)), (u32_id ((u - 12) * 64)), (u32_id ((u - 12) * 32)) in Hm by lia. rewrite !u32_id in Hm by (Z.to_euclidean_division_equations; lia). rewrite !u16_id in Hm by (Z.to_euclidean_division_equations; lia).
  split; rewrite ?Hbt; cbn [bt_usableSize]; fold u; Z.to_euclidean_division_equations; lia.
Qed.

(** C26. The two ways to size a cell agree: on a page of any kind, with the
    payload limits lockBtree computes, and any bytes from which btreeParseCellPtr reads a cell, cellSizePtr returns the nSize of the
    full parse, which is what its debug assertion states; the size is at least
    4 and at most the page, and the local payload at most maxLocal. *)
Theorem cell_size_is_parsed pg bt fl c info :
  pg_pBt pg = lockBtree_limits bt -> 480 <= usable pg <= 65536 -> decodeFlags pg fl = (SQLITE_OK, pg) -> mem c -> btreeParseCellPtr pg c = Some info ->
  cellSizePtr pg c = Some (ci_nSize info) /\ 4 <= ci_nSize info <= usable pg /\ ci_nLocal info <= pg_maxLocal pg.
Proof.
  intros Hbt Hu Hd Hm Hp. pose proof (limits_local_ok _ _ _ Hbt Hu Hd) as Hlo. unfold btreeParseCellPtr in Hp. destruct ((pg_leaf pg =? 0) || (pg_leaf pg =? 1)) eqn:Hleaf; [|done]. cbn [assert_ mbind option_bind] in Hp.
  destruct (Z.eqb_spec (pg_childPtrSize pg) (4 - 4 * pg_leaf pg)) as [Hch|]; [|done]. cbn [assert_ mbind option_bind] in Hp. unfold cellSizePtr. set (ch := pg_childPtrSize pg) in *.
  assert (0 <= ch <= 4) as Hchr by lia. destruct (pg_intKey pg =? 0); cbn [negb] in *; [|destruct (pg_hasData pg =? 0); cbn [negb] in *].
  - destruct (suffix c ch) as [l|] eqn:Hs; [|done]. cbn [mbind option_bind] in *. pose proof (mem_suffix _ _ _ Hm Hs) as Hml. destruct (getVarint32 l) as [[v m]|] eqn:Hg; [|done]. cbn [mbind option_bind] in *.
    destruct (getVarint32_range _ _ _ Hml Hg) as [Hv Hmr]. rewrite u16_id in Hp by lia. destruct (parse_size pg (ch + m) v v 0 Hlo Hv ltac:(lia)) as (info' & Hi & -> & ? & ? & ?). cbv zeta in Hi, Hp. rewrite Hi in Hp. injection Hp as <-. done.
  - cbn [mbind option_bind] in *. destruct (suffix c ch) as [l|] eqn:Hs; [|done]. cbn [mbind option_bind] in *. pose proof (mem_suffix _ _ _ Hm Hs) as Hml. destruct (sqlite3GetVarint l) as [[k m]|] eqn:Hg; [|done]. cbn [mbind option_bind] in *.
    rewrite (key_loop_varint _ _ _ Hml Hg). destruct (getVarint_read _ _ _ Hml Hg) as [_ Hmr]. cbn [mbind option_bind]. rewrite u16_id in Hp by lia. destruct (parse_size pg (ch + m) 0 k 0 Hlo ltac:(lia) ltac:(lia)) as (info' & Hi & -> & ? & ? & ?). cbv zeta in Hi, Hp. rewrite Hi in Hp. injection Hp as <-. done.
  - destruct (Z.eqb_spec ch 0) as [Hch0|]; [|done]. cbn [assert_ mbind option_bind] in Hp. assert (suffix c ch = Some c) as -> by (unfold suffix; rewrite Hch0, decide_True by lia; done). cbn [mbind option_bind].
    destruct (getVarint32 c) as [[v n]|] eqn:Hg; [|done]. cbn [mbind option_bind] in *. destruct (getVarint32_range _ _ _ Hm Hg) as [Hv Hnr]. rewrite Hch0, Z.add_0_l. destruct (suffix c n) as [l|] eqn:Hs; [|done]. cbn [mbind option_bind] in *. pose proof (mem_suffix _ _ _ Hm Hs) as Hml.
    destruct (sqlite3GetVarint l) as [[k m]|] eqn:Hk; [|done]. cbn [mbind option_bind] in *. rewrite (key_loop_varint _ _ _ Hml Hk). destruct (getVarint_read _ _ _ Hml Hk) as [_ Hmr]. cbn [mbind option_bind]. rewrite u16_id in Hp by lia.
    destruct (parse_size pg (n + m) v k v Hlo Hv ltac:(lia)) as (info' & Hi & -> & ? & ? & ?). cbv zeta in Hi, Hp. rewrite Hi in Hp. injection Hp as <-. done.
Qed.

(** Read from a page, a cell has the size it has alone. *)
Lemma cell_size_app pg c rest n : mem c -> mem rest -> cellSizePtr pg c = Some n -> cellSizePtr pg (c ++ rest) = Some n.
Proof.
  intros Hm Hr. unfold cellSizePtr. destruct (suffix c (pg_childPtrSize pg)) as [l|] eqn:Hs; [|destruct (pg_intKey pg =? 0), (pg_hasData pg =? 0); cbn [negb mbind option_bind]; by rewrite ?Hs]. rewrite (suffix_app_l _ rest _ _ Hs). pose proof (mem_suffix _ _ _ Hm Hs) as Hml. cbn [mbind option_bind].
  assert (forall x, getVarint32 l = Some x -> getVarint32 (l ++ rest) = Some x) as Hg by (intros x; by apply getVarint32_app).
  assert (forall l' m, mem l' -> key_loop 9 l' 0 = Some m -> key_loop 9 (l' ++ rest) 0 = Some m) as Hk by (intros l' m _; apply key_loop_app).
  destruct (pg_intKey pg =? 0); cbn [negb]; [|destruct (pg_hasData pg =? 0); cbn [negb mbind option_bind]].
  - destruct (getVarint32 l) as [[v m]|]; [|done]. by rewrite (Hg _ eq_refl).
  - rewrite Hs, (suffix_app_l _ rest _ _ Hs). cbn [mbind option_bind]. destruct (key_loop 9 l 0) as [m|] eqn:E; [|done]. by rewrite (Hk _ _ Hml E).
  - destruct (getVarint32 l) as [[v m]|]; [|done]. rewrite (Hg _ eq_refl). cbn [mbind option_bind]. destruct (suffix c (pg_childPtrSize pg + m)) as [l'|] eqn:Hs'; [|done]. rewrite (suffix_app_l _ rest _ _ Hs'). cbn [mbind option_bind].
    destruct (key_loop 9 l' 0) as [k|] eqn:E; [|done]. by rewrite (Hk _ _ (mem_suffix _ _ _ Hm Hs') E).
Qed.

Lemma cell_ok_app pg c rest : cell_ok pg c -> mem rest -> cellSizePtr pg (c ++ rest) = Some (Z.of_nat (length c)).
Proof. intros (_ & Hm & Hc) Hr. by apply cell_size_app. Qed.

(** ** Witness *)

Definition wit_limits : BtShared := mkBt 0 512 512 0 0 0 0 0 [].
Definition wit_leaf : MemPage := snd (decodeFlags (mkPage 1 0 0 0 0 0 0 0 0 8 504 0 511 [] (lockBtree_limits wit_limits) []) 13).

Lemma cell_size_is_parsed_witness :
  cellSizePtr wit_leaf ([135; 104; 7] ++ replicate 60 1) = Some 46 /\ 4 <= 46 <= 512 /\ 39 <= 477.
Proof.
  apply (cell_size_is_parsed wit_leaf wit_limits 13 ([135; 104; 7] ++ replicate 60 1) (mkCellInfo 7 1000 1000 3 39 42 46)); [done|by vm_compute|done|apply bytes_bool; by vm_compute|by vm_compute].
Defined.
