(* ===== verification/PageDefrag.v ===== *)
(** * PageDefrag: defragmentation and allocation (btree.c)

    defragmentPage packs the cells of a page at its end and keeps them;
    allocateSpace finds the space it is asked for in a free block, in the gap
    or, by way of defragmentPage, anywhere on the page. *)
From S2P Require Import Prelude Varint Record Page PageLayout PageSpace PageParse.

(** ** The loop over the cells *)

(** Where the loop finds the cells it still has to move. *)
Definition cells_in (pg : MemPage) (temp data : list Z) (i : Z) (cs : list (Z * list Z)) : Prop :=
  forall k p c, cs !! k = Some (p, c) ->
    get2byte data (pg_cellOffset pg + 2 * (i + Z.of_nat k)) = Some p /\ ptr_end pg <= p /\ p + Z.of_nat (length c) <= usable pg /\ bytes_at temp p c /\ cell_ok pg c.

Lemma cells_in_cons pg temp data data' i p c cs :
  (forall j, pg_cellOffset pg + 2 * i + 2 <= j < pg_cellOffset pg + 2 * (i + 1 + Z.of_nat (length cs)) -> aget data' j = aget data j) ->
  cells_in pg temp data i ((p, c) :: cs) -> cells_in pg temp data' (i + 1) cs.
Proof.
  intros Hs Hin k q e Hk. destruct (Hin (S k) q e Hk) as (Hg & Hrest). split; [|done]. rewrite <- Hg. pose proof (lookup_lt_Some _ _ _ Hk).
  replace (i + Z.of_nat (S k)) with (i + 1 + Z.of_nat k) by lia. apply get2_same; apply Hs; lia.
Qed.

Lemma defragment_loop_spec pg temp fuel : geometry pg -> mem temp -> usable pg <= Z.of_nat (length temp) -> 0 <= pg_cellOffset pg ->
  forall cs i data cbrk, 0 <= i -> i + Z.of_nat (length cs) = pg_nCell pg -> (length cs < fuel)%nat -> cells_in pg temp data i cs ->
    ptr_end pg <= cbrk - total (map snd cs) -> cbrk <= usable pg -> usable pg <= Z.of_nat (length data) ->
  let end_ := cbrk - total (map snd cs) in
  exists data', defragment_loop fuel pg temp data i cbrk = Some (SQLITE_OK, data', end_) /\ length data' = length data /\ (mem data -> mem data') /\
    (forall j, j < pg_cellOffset pg + 2 * i \/ ptr_end pg <= j < end_ \/ cbrk <= j -> aget data' j = aget data j) /\
    lay_ok data' end_ (cell_segs (map snd cs)) 0 /\
    (forall k p, map fst (packed cbrk (map snd cs)) !! k = Some p -> get2byte data' (pg_cellOffset pg + 2 * (i + Z.of_nat k)) = Some p).
Proof.
  intros HG Hmt Hlt Hco. destruct (ge_page _ HG) as (kk & Hkk & Hps). pose proof (ge_usable _ HG) as Hus. assert (2 ^ kk <= 2 ^ 16) by (apply Z.pow_le_mono_r; lia). change (2 ^ 16) with 65536 in *.
  induction fuel as [|fuel IH]; intros cs i data cbrk Hi0 Hi Hfuel Hin Hend Hcb Hld; [lia|]. cbn [defragment_loop]. destruct cs as [|(p, c) cs].
  { rewrite (proj2 (Z.ltb_ge i _)) by (cbn in Hi; lia). exists data. cbn. rewrite Z.sub_0_r. done. }
  cbn [length] in Hi, Hfuel. cbn [map snd packed] in *. rewrite total_cons in *. pose proof (total_nonneg (map snd cs)). destruct (Hin 0%nat p c eq_refl) as (Hg & Hp1 & Hp2 & Hb & Hcok). pose proof Hcok as (Hc4 & Hmc & _). pose proof (fun r => cell_ok_app pg c r Hcok) as Hsize.
  set (n := Z.of_nat (length c)) in *. rewrite (proj2 (Z.ltb_lt i _)) by lia. cbv zeta. replace (pg_cellOffset pg + i * 2) with (pg_cellOffset pg + 2 * (i + Z.of_nat 0)) by lia. rewrite Hg. cbn [mbind option_bind].
  rewrite (proj2 (Z.ltb_ge p _)), (proj2 (Z.ltb_ge _ p)) by lia. cbn [orb].
  destruct (bytes_at_split temp p c ltac:(lia) Hb) as [->|(r & Hsuf & _)]; [cbn in n; lia|]. rewrite Hsuf. cbn [mbind option_bind].
  assert (mem r) as Hmr. { unfold suffix in Hsuf. case_decide; [|done]. injection Hsuf as Hsuf. pose proof (Forall_drop _ (Z.to_nat p) _ Hmt) as Hd. rewrite Hsuf in Hd. by apply Forall_app in Hd as [_ ?]. }
  rewrite (Hsize r Hmr). cbn [mbind option_bind]. rewrite (proj2 (Z.ltb_ge (cbrk - n) _)), (proj2 (Z.ltb_ge _ (p + n))) by lia. cbn [orb].
  unfold copy_bytes. pose proof (get_bytes_at temp p c ltac:(lia) ltac:(lia) Hb) as Hgb. fold n in Hgb. rewrite Hgb. cbn [mbind option_bind].
  destruct (put_bytes_out data (cbrk - n) c) as (d1 & -> & H1 & G1); [lia|lia|done|]. cbn [mbind option_bind]. pose proof H1 as (L1 & M1 & S1). fold n in H1, S1.
  destruct (put2_out d1 (pg_cellOffset pg + 2 * (i + Z.of_nat 0)) (cbrk - n)) as (d2 & -> & H2 & G2); [lia..|]. cbn [mbind option_bind]. pose proof H2 as (L2 & M2 & S2). rewrite u16_id in G2 by lia.
  destruct (IH cs (i + 1) d2 (cbrk - n)) as (d3 & -> & L3 & M3 & S3 & Hl3 & Hk3); [lia|lia|lia| |lia|lia|lia|].
  { eapply cells_in_cons; [|exact Hin]. intros j Hj. rewrite S2, S1 by lia. done. }
  exists d3. replace (cbrk - n - total (map snd cs)) with (cbrk - (n + total (map snd cs))) in * by lia. split; [done|]. split; [congruence|]. split; [auto|]. split; [|split].
  - intros j Hj. rewrite S3, S2, S1 by lia. done.
  - rewrite cell_segs_cons. apply lay_ok_app. cbn [first_free lay_ok slen]. split; [done|]. rewrite lay_len_cells. split; [|done]. split; [done|].
    replace (cbrk - (n + total (map snd cs)) + total (map snd cs)) with (cbrk - n) by lia. eapply bytes_at_same; [|exact G1]. fold n. intros j Hj. rewrite S3, S2 by lia. done.
  - intros [|k] q Hq.
    + cbn in Hq. injection Hq as <-. rewrite <- G2. apply get2_same; apply S3; lia.
    + replace (i + Z.of_nat (S k)) with (i + 1 + Z.of_nat k) by lia. apply Hk3. exact Hq.
Qed.

(** ** defragmentPage *)

(** The temporary copy of the content area. *)
Lemma temp_copy pg top lay ptrs : page_lay pg top lay ptrs ->
  exists temp, copy_bytes (bt_pTmpSpace (pg_pBt pg)) (u16 top) (pg_aData pg) (u16 top) (usable pg - u16 top) = Some temp /\
    mem temp /\ Z.of_nat (length temp) = bt_pageSize (pg_pBt pg) /\ forall i, top <= i < usable pg -> aget temp i = aget (pg_aData pg) i.
Proof.
  intros HP. pose proof (pl_bounds HP) as (_ & _ & _ & B4 & B5 & B6 & _). pose proof (pl_geo _ _ _ _ HP) as HG. pose proof (ge_temp _ HG) as Ht. pose proof (ge_data _ HG) as Hd.
  assert (0 <= u16 top <= top) as Hu by (unfold u16; pose proof (Z.mod_pos_bound top (2 ^ 16)); pose proof (Z.mod_le top (2 ^ 16)); lia). set (t := u16 top) in *.
  unfold copy_bytes. destruct (get_bytes_spec (pg_aData pg) t (usable pg - t)) as (l & -> & Hl & Hb & Hm); [lia..|]. cbn [mbind option_bind].
  destruct (put_bytes_out (bt_pTmpSpace (pg_pBt pg)) t l) as (temp & -> & (L1 & M1 & S1) & G1); [lia|lia|apply Hm, HP|]. exists temp. split; [done|]. split; [apply M1, HG|]. split; [lia|].
  intros i Hi. specialize (G1 (i - t) ltac:(lia)). specialize (Hb (i - t) ltac:(lia)). replace (t + (i - t)) with i in * by lia. congruence.
Qed.

Lemma page_cells_in pg top lay cs temp : page_lay pg top lay (map fst cs) -> cs ≡ₚ cells_at top lay -> Forall (fun x => cell_ok pg (snd x)) cs ->
  (forall i, top <= i < usable pg -> aget temp i = aget (pg_aData pg) i) -> cells_in pg temp (pg_aData pg) 0 cs.
Proof.
  intros HP Hperm Hok Htemp k p c Hk. pose proof (pl_end _ _ _ _ HP). pose proof (pl_len _ _ _ _ HP).
  assert ((p, c) ∈ cells_at top lay) as Hin by (rewrite <- Hperm; by eapply list_elem_of_lookup_2). destruct (cells_at_in _ _ _ _ _ _ (pl_lay _ _ _ _ HP) Hin) as (Hc & Hb & H1 & H2).
  split_and!; [|lia|lia| |by eapply (Forall_lookup_1 _ _ _ _ Hok Hk)].
  - rewrite Z.add_0_l. apply (pl_ptrs _ _ _ _ HP). by rewrite list_lookup_fmap, Hk.
  - eapply bytes_at_same; [|exact Hb]. intros j Hj. apply Htemp. lia.
Qed.

Abbreviation packed_page pg cs := (packed (usable pg) (map snd cs)).

Lemma defragmentPage_spec pg cs : page_ok pg cs ->
  exists d', defragmentPage pg = Some (SQLITE_OK, set_data pg d') /\
    page_lay (set_data pg d') (usable pg - total (map snd cs)) (cell_segs (map snd cs)) (map fst (packed_page pg cs)).
Proof.
  intros (top & lay & HP & Hhole & Hperm & Hok). pose proof (pl_bounds HP) as (B1 & B2 & B3 & B4 & B5 & B6 & _). pose proof (pl_geo _ _ _ _ HP) as HG. destruct (pl_ncell _ _ _ _ HP) as [Hn Hn'].
  destruct (pl_sums HP) as (Hsums & Hfr & Hcs & Hft & Hho). pose proof (pl_free _ _ _ _ HP) as Hfree. rewrite length_map in Hn'.
  assert (total (map snd cs) = cell_sum lay) as Htot by (rewrite <- (cells_at_total top); apply total_perm; by apply Permutation_map).
  unfold defragmentPage. rewrite (proj2 (Z.leb_le _ 65536)) by lia. rewrite (ge_ovfl _ HG). cbn [assert_ mbind option_bind]. rewrite Hn, (pl_top _ _ _ _ HP). cbn [mbind option_bind]. rewrite Z.eqb_refl. cbn [assert_ mbind option_bind].
  destruct (temp_copy _ _ _ _ HP) as (temp & -> & Hmt & Hlt & Htemp). cbn [mbind option_bind]. pose proof (ge_usable _ HG).
  destruct (defragment_loop_spec pg temp (S (Z.to_nat (pg_nCell pg))) HG Hmt ltac:(lia) ltac:(lia) cs 0 (pg_aData pg) (usable pg)) as (d1 & -> & L1 & M1 & S1 & Hlay & Hptr); [lia|lia|lia|by eapply page_cells_in|lia|lia|lia|].
  cbn [mbind option_bind]. change (negb (SQLITE_OK =? SQLITE_OK)) with false. cbv iota. set (brk := usable pg - total (map snd cs)) in *. assert (brk = usable pg - total (map snd cs)) as Hbrk by done. clearbody brk. rewrite (proj2 (Z.leb_le _ brk)) by lia. cbn [assert_ mbind option_bind].
  destruct (put2_out d1 (hdr pg + 5) brk) as (d2 & -> & H2 & G2); [lia..|]. cbn [mbind option_bind]. pose proof H2 as (L2 & M2 & S2).
  destruct (aset_out d2 (hdr pg + 1) 0) as (d3 & -> & H3 & G3); [lia|done|]. cbn [mbind option_bind]. pose proof H3 as (L3 & M3 & S3).
  destruct (aset_out d3 (hdr pg + 2) 0) as (d4 & -> & H4 & G4); [lia|done|]. cbn [mbind option_bind]. pose proof H4 as (L4 & M4 & S4).
  destruct (aset_out d4 (hdr pg + 7) 0) as (d5 & -> & H5 & G5); [lia|done|]. cbn [mbind option_bind]. pose proof H5 as (L5 & M5 & S5).
  destruct (secure_zero true d5 (ptr_end pg) (brk - ptr_end pg)) as (d6 & -> & H6); [lia..|]. cbn [mbind option_bind]. pose proof H6 as (L6 & M6 & S6).
  rewrite (proj2 (Z.eqb_eq (brk - ptr_end pg) _)) by lia. cbn [negb]. exists d6. split; [done|].
  assert (forall j, hdr pg + 8 <= j < ptr_end pg \/ brk <= j -> aget d6 j = aget d1 j) as Hout by (intros j Hj; rewrite S6, S5, S4, S3, S2 by lia; done).
  destruct (no_free_cells (map snd cs)) as (F1 & F2 & F3 & F4). split; cbn [set_data pg_aData pg_hdrOffset pg_pBt pg_nCell pg_cellOffset pg_nFree].
  - apply geometry_data; [done|congruence].
  - apply M6, M5, M4, M3, M2, M1, HP.
  - apply (flags_ok_set pg (pg_nCell pg) (pg_nFree pg) d6); [apply HP|]. rewrite S6, S5, S4, S3, S2, S1 by lia. done.
  - lia.
  - rewrite lay_len_cells. lia.
  - rewrite <- G2. apply get2_same; rewrite S6, S5, S4, S3 by lia; done.
  - rewrite F4. rewrite (get2_val d6 _ 0 0); [done| |..|done]; rewrite S6, S5 by lia; [rewrite S4 by lia; done|replace (hdr pg + 1 + 1) with (hdr pg + 2) by lia; done].
  - split; [|by rewrite length_map, <- (length_map snd), packed_snd, length_map]. rewrite <- Hn. apply get2_same; rewrite S6, S5, S4, S3, S2, S1 by lia; done.
  - rewrite F1, S6, G5 by lia. done.
  - eapply lay_ok_same; [|exact Hlay]. intros j Hj. apply Hout. lia.
  - intros i p Hi. rewrite <- (Hptr i p Hi). pose proof (lookup_lt_Some _ _ _ Hi) as Hlt'. rewrite length_map, <- (length_map snd), packed_snd, length_map in Hlt'. apply get2_same; apply Hout; lia.
  - rewrite cell_sum_cells. lia.
Qed.

(** ** allocateSpace *)

(** [nByte] bytes at [idx] are set aside on a page that keeps its cells, and
    there is room for one more cell pointer. *)
Definition allocated (pg : MemPage) (cs : list (Z * list Z)) (nByte idx : Z) (pg' : MemPage) : Prop :=
  exists d' cs' top' a b, pg' = set_data pg d' /\ page_lay pg' top' (a ++ SHole nByte :: b) (map fst cs') /\ map snd cs' = map snd cs /\
    cs' ≡ₚ cells_at top' (a ++ SHole nByte :: b) /\ idx = top' + lay_len a /\ tidy (a ++ SFrag nByte :: b) /\ ptr_end pg + 2 <= top'.

Lemma tidy_cells cs : tidy (cell_segs cs).
Proof.
  destruct (no_free_cells cs) as (_ & F2 & _). split; [done|]. apply gaps_none, Forall_map, Forall_true. by intros c [].
Qed.

Lemma cells_ok_snd pg (cs cs' : list (Z * list Z)) : map snd cs' = map snd cs -> Forall (fun x => cell_ok pg (snd x)) cs -> Forall (fun x => cell_ok pg (snd x)) cs'.
Proof. intros Hsnd Hok. apply Forall_map in Hok. apply Forall_map. by rewrite Hsnd. Qed.

(** The hole is taken from the gap. *)
Lemma gap_take pg top lay cs nByte : page_lay pg top lay (map fst cs) -> cs ≡ₚ cells_at top lay -> tidy lay -> 4 <= nByte -> ptr_end pg + 2 + nByte <= top ->
  exists d', put2byte (pg_aData pg) (hdr pg + 5) (top - nByte) = Some d' /\ allocated pg cs nByte (top - nByte) (set_data pg d').
Proof.
  intros HP Hperm Hhole Hn Hgap. pose proof (pl_bounds HP) as (B1 & B2 & B3 & B4 & B5 & B6 & _). pose proof (pl_lay _ _ _ _ HP) as Hl. pose proof (pl_len _ _ _ _ HP) as Hlen.
  destruct (put2_out (pg_aData pg) (hdr pg + 5) (top - nByte)) as (d1 & -> & H1 & G1); [lia..|]. pose proof H1 as (L1 & M1 & S1). exists d1. split; [done|].
  exists d1, cs, (top - nByte), [], lay. cbn [app lay_len cells_at slen]. replace (top - nByte + nByte) with top by lia. split_and!; [done| |done|done|lia| |lia].
  2: { destruct Hhole as [Hh Hg]. split; [done|]. cbn [gaps slen]. eapply gaps_mono; [exact Hg|lia]. }
  replace (set_data pg d1) with (set_data (set_free pg (pg_nFree pg)) d1) by done. eapply page_lay_set; [exact HP|..]; cbn [lay_len slen first_free frag lay_ok cell_sum]; auto; try lia.
  - apply M1, HP.
  - apply S1. lia.
  - rewrite (get2_out _ _ _ _ _ H1) by lia. replace (top - nByte + nByte) with top by lia. apply HP.
  - rewrite (get2_out _ _ _ _ _ H1) by lia. apply (pl_ncell _ _ _ _ HP).
  - rewrite S1 by lia. apply HP.
  - split; [done|]. replace (top - nByte + nByte) with top by lia. eapply lay_ok_same; [|exact Hl]. intros i Hi. apply S1. lia.
  - intros i Hi. apply S1. lia.
Qed.

Lemma allocate_gap_spec pg top lay cs nByte : page_lay pg top lay (map fst cs) -> cs ≡ₚ cells_at top lay -> tidy lay -> Forall (fun x => cell_ok pg (snd x)) cs -> 4 <= nByte -> nByte + 2 <= pg_nFree pg ->
  exists pg' idx, allocate_gap pg nByte (ptr_end pg) top = Some (SQLITE_OK, pg', idx) /\ allocated pg cs nByte idx pg'.
Proof.
  intros HP Hperm Hhole Hok Hn Hfree. unfold allocate_gap. pose proof (pl_len _ _ _ _ HP) as Hlen. pose proof (lay_len_nonneg _ _ _ _ (pl_lay _ _ _ _ HP)). destruct (Z.ltb_spec top (ptr_end pg + 2 + nByte)) as [Hlt|Hge].
  - destruct (defragmentPage_spec pg cs) as (d1 & -> & HP1); [by exists top, lay|]. cbn [mbind option_bind]. change (negb (SQLITE_OK =? SQLITE_OK)) with false. cbv iota. rewrite (pl_top_read HP1 : get2byteNotZero _ (hdr pg + 5) = _). cbn [mbind option_bind].
    pose proof (pl_free _ _ _ _ HP1) as Hf1. rewrite cell_sum_cells in Hf1. cbn [set_data pg_nFree pg_pBt pg_cellOffset pg_nCell] in Hf1. pose proof (total_nonneg (map snd cs)). set (brk := usable pg - total (map snd cs)) in *. assert (brk = usable pg - total (map snd cs)) as Hbrk by done. clearbody brk.
    rewrite (proj2 (Z.leb_le _ brk)) by lia. cbn [assert_ mbind option_bind]. destruct (no_free_cells (map snd cs)) as (F1 & F2 & F3 & F4).
    destruct (gap_take _ _ _ _ nByte HP1) as (d2 & Hput & Hall); [rewrite Hbrk, packed_cells; by rewrite <- Permutation_rev|apply tidy_cells|done|cbn [set_data pg_cellOffset pg_nCell]; lia|].
    change (negb (SQLITE_OK =? SQLITE_OK)) with false. cbv iota. cbn [set_data pg_hdrOffset pg_pBt pg_aData] in Hput |- *. rewrite Hput. cbn [mbind option_bind]. rewrite (proj2 (Z.leb_le _ (usable _))) by lia. cbn [assert_ mbind option_bind]. eexists _, _. split; [done|].
    destruct Hall as (d' & cs' & top' & a & b & -> & ? & Hsnd & Hrest). exists d', cs', top', a, b. split; [done|]. split; [done|]. split; [|exact Hrest]. by rewrite Hsnd, packed_snd.
  - cbn [mbind option_bind]. change (negb (SQLITE_OK =? SQLITE_OK)) with false. cbv iota. destruct (gap_take _ _ _ _ nByte HP) as (d2 & -> & Hall); [done|done|done|lia|]. cbn [mbind option_bind].
    rewrite (proj2 (Z.leb_le _ (usable _))) by lia. cbn [assert_ mbind option_bind]. eauto.
Qed.

Lemma allocateSpace_spec pg cs nByte : page_ok pg cs -> 4 <= nByte -> nByte + 2 <= pg_nFree pg ->
  exists pg' idx, allocateSpace pg nByte = Some (SQLITE_OK, pg', idx) /\ allocated pg cs nByte idx pg'.
Proof.
  intros Hpok Hn Hfree. pose proof Hpok as (top & lay & HP & Hhole & Hperm & Hok). pose proof (pl_bounds HP) as (B1 & B2 & B3 & B4 & B5 & B6 & _). pose proof (pl_geo _ _ _ _ HP) as HG. pose proof (pl_free _ _ _ _ HP) as Hf.
  destruct (pl_sums HP) as (Hsums & Hfr & Hcs & Hft & Hho). pose proof (pl_len _ _ _ _ HP) as Hlen.
  unfold allocateSpace. rewrite (ge_ovfl _ HG), (proj2 (Z.leb_le 0 nByte)), (proj2 (Z.leb_le nByte _)), (proj2 (Z.ltb_lt nByte _)) by lia. cbn [assert_ mbind option_bind]. rewrite (pl_frag _ _ _ _ HP). cbn [mbind option_bind].
  rewrite (proj2 (Z.eqb_eq (pg_cellOffset pg) _)) by apply HG. cbn [assert_ mbind option_bind]. rewrite (pl_top_read HP). cbn [mbind option_bind]. rewrite (proj2 (Z.ltb_ge top _)) by lia.
  pose proof (allocate_gap_spec pg top lay cs nByte HP Hperm Hhole Hok Hn Hfree) as Hgap. destruct (Z.leb_spec 60 (frag lay)) as [Hfrag|Hfrag].
  - destruct (defragmentPage_spec pg cs Hpok) as (d1 & -> & HP1). cbn [mbind option_bind]. change (negb (SQLITE_OK =? SQLITE_OK)) with false. cbv iota. rewrite (pl_top_read HP1 : get2byteNotZero _ (hdr pg + 5) = _). cbn [mbind option_bind].
    destruct (no_free_cells (map snd cs)) as (F1 & F2 & F3 & F4). edestruct (allocate_gap_spec (set_data pg d1)) as (pg' & idx & Hag & Hall); [exact HP1|rewrite packed_cells; by rewrite <- Permutation_rev|apply tidy_cells| |exact Hn|exact Hfree|].
    { eapply (cells_ok_snd pg); [|exact Hok]. apply packed_snd. }
    cbn [set_data pg_cellOffset pg_nCell] in Hag. rewrite Hag. eexists _, _. split; [done|]. destruct Hall as (d' & cs' & top' & a & b & -> & ? & Hsnd & Hrest). exists d', cs', top', a, b. split; [done|]. split; [done|]. split; [|exact Hrest]. by rewrite Hsnd, packed_snd.
  - destruct (Z.leb_spec (ptr_end pg + 2) top) as [Hroom|_]; [|done].
    destruct (slot_loop_spec pg top _ nByte lay HP Hn Hfrag (S (Z.to_nat (usable pg))) [] lay eq_refl ltac:(lia)) as [Hsl|(d' & idx & lay' & Hsl & HP' & (a & b & -> & Hidx & Hh & Hcells & Hg))]; cbn [last_free] in Hsl; rewrite Hsl; cbn [mbind option_bind]; [done|].
    eexists _, _. split; [done|]. exists d', cs, top, a, b. rewrite Hcells. destruct Hhole as [Hh0 Hg0]. split_and!; [done..| |lia].
    split; [rewrite hole_sum_app in *; cbn [hole_sum]; lia|]. eapply (gaps_replace _ _ (SHole nByte)); [done|by intros []..|by apply Hg].
Qed.
