(* ===== verification/PageCells.v ===== *)
(** * PageCells: the cells of a page (btree.c)

    insertCell and dropCell implement insertion into and deletion from a list
    of cells; findCell reads them. *)
From S2P Require Import Prelude Varint Record Page PageLayout PageSpace PageDefrag PageParse.

(** ** The pointer array *)

(** A hole is filled with a cell. *)
Lemma page_lay_fill pg top A c B ptrs d0 (start := top + lay_len A) (sz := Z.of_nat (length c)) :
  page_lay pg top (A ++ SHole sz :: B) ptrs -> same_out (pg_aData pg) d0 start (start + sz) -> bytes_at d0 start c ->
  page_lay (set_data (set_free pg (pg_nFree pg - sz)) d0) top (A ++ SCell c :: B) ptrs.
Proof.
  intros HP Hs0 Hb. pose proof (pl_bounds HP). pose proof (link_at _ _ _ _ _ HP) as (Hat & Hlink & Hn1 & _). pose proof (pl_lay _ _ _ _ HP) as Hl. pose proof (pl_frag _ _ _ _ HP) as Hfr. pose proof (pl_mem _ _ _ _ HP) as Hmem.
  apply lay_ok_app in Hl as [_ [Hc HB]]. rewrite frag_app in Hfr. cbn [frag slen first_free] in *. pose proof Hs0 as (L0 & M0 & S0). subst start.
  apply (page_lay_relink_free pg top A (SHole sz :: B) _ ptrs d0); cbn [first_free lay_ok lay_len slen cell_sum frag]; auto; try (fold sz; lia).
  - rewrite (get2_out _ _ _ _ _ Hs0) by lia. done.
  - split; [done|]. eapply lay_ok_same; [|exact HB]. intros i Hi. apply S0. lia.
  - rewrite S0 by lia. done.
Qed.

(** The cells stay, their pointers change. *)
Lemma page_lay_count pg top lay ptrs ptrs' d' n f :
  page_lay pg top lay ptrs -> n = Z.of_nat (length ptrs') -> pg_cellOffset pg + 2 * n <= top -> f = pg_nFree pg + 2 * (pg_nCell pg - n) ->
  length d' = length (pg_aData pg) -> mem d' ->
  (forall i, i < hdr pg + 3 \/ hdr pg + 5 <= i < pg_cellOffset pg \/ top <= i -> aget d' i = aget (pg_aData pg) i) ->
  get2byte d' (hdr pg + 3) = Some n -> (forall i p, ptrs' !! i = Some p -> get2byte d' (pg_cellOffset pg + 2 * Z.of_nat i) = Some p) ->
  page_lay (set_data (set_free (set_nCell pg n) f) d') top lay ptrs'.
Proof.
  intros HP Hn Htop Hf Hlen Hm Hs Hcnt Hptr. pose proof (pl_bounds HP) as (B1 & B2 & B3 & B4 & _). pose proof (pl_geo _ _ _ _ HP) as HG. pose proof (pl_free _ _ _ _ HP).
  split; cbn [set_data set_free set_nCell pg_aData pg_hdrOffset pg_pBt pg_nCell pg_cellOffset pg_nFree]; try done.
  - destruct HG. split; cbn; try done. by rewrite Hlen.
  - apply flags_ok_set; [apply HP|apply Hs; lia].
  - apply HP.
  - rewrite <- (pl_top _ _ _ _ HP). apply get2_same; apply Hs; lia.
  - rewrite <- (pl_first _ _ _ _ HP). apply get2_same; apply Hs; lia.
  - rewrite <- (pl_frag _ _ _ _ HP). apply Hs. lia.
  - eapply lay_ok_same; [|apply HP]. intros i Hi. apply Hs. lia.
  - lia.
Qed.

(** memmove of the pointers. *)
Lemma copy_out d dst src n : mem d -> 0 <= dst -> 0 <= src -> 0 <= n -> dst + n <= Z.of_nat (length d) -> src + n <= Z.of_nat (length d) ->
  exists d', copy_bytes d dst d src n = Some d' /\ same_out d d' dst (dst + n) /\ forall k, 0 <= k < n -> aget d' (dst + k) = aget d (src + k).
Proof.
  intros Hm H0 H1 H2 H3 H4. unfold copy_bytes. destruct (get_bytes_spec d src n) as (l & -> & Hl & Hb & Hml); [lia..|]. cbn [mbind option_bind].
  destruct (put_bytes_out d dst l) as (d' & -> & Ho & Hb'); [lia|lia|auto|]. exists d'. rewrite Hl in Ho. split; [done|]. split; [done|]. intros k Hk. rewrite Hb', Hb by lia. done.
Qed.

(** ** findCell *)

Lemma findCell_spec pg cs i p c : page_ok pg cs -> cs !! i = Some (p, c) ->
  findCell pg (Z.of_nat i) = Some p /\ get2byte (pg_aData pg) (pg_cellOffset pg + 2 * Z.of_nat i) = Some p /\ bytes_at (pg_aData pg) p c /\ ptr_end pg <= p /\ p + Z.of_nat (length c) <= usable pg.
Proof.
  intros (top & lay & HP & _ & Hperm & _) Hi. pose proof (pl_bounds HP) as (B1 & B2 & B3 & B4 & _). pose proof (pl_len _ _ _ _ HP) as Hlen. pose proof (pl_geo _ _ _ _ HP) as HG.
  assert ((p, c) ∈ cells_at top lay) as Hin by (rewrite <- Hperm; by eapply list_elem_of_lookup_2). destruct (cells_at_in _ _ _ _ _ _ (pl_lay _ _ _ _ HP) Hin) as (Hc & Hb & H1 & H2).
  assert (get2byte (pg_aData pg) (pg_cellOffset pg + 2 * Z.of_nat i) = Some p) as Hg by (apply (pl_ptrs _ _ _ _ HP); by rewrite list_lookup_fmap, Hi).
  split_and!; [|done|done|lia|lia]. unfold findCell. rewrite Hg. cbn [mbind option_bind]. f_equal. rewrite (ge_mask _ HG). destruct (ge_page _ HG) as (k & Hk & Hps). pose proof (ge_usable _ HG). rewrite Hps.
  rewrite Z.land_comm. replace (2 ^ k - 1) with (Z.ones k) by (rewrite Z.ones_equiv; lia). rewrite Z.land_ones by lia. apply Z.mod_small. lia.
Qed.

Lemma cell_size_at pg cs i p c : page_ok pg cs -> cs !! i = Some (p, c) -> exists l, suffix (pg_aData pg) p = Some l /\ cellSizePtr pg l = Some (Z.of_nat (length c)).
Proof.
  intros Hpok Hi. destruct (findCell_spec _ _ _ _ _ Hpok Hi) as (_ & _ & Hb & Hp & _). destruct Hpok as (top & lay & HP & _ & _ & Hok). pose proof (pl_bounds HP).
  pose proof (Forall_lookup_1 _ _ _ _ Hok Hi) as Hcok. pose proof Hcok as (Hc & Hmc & _). destruct (bytes_at_split _ p _ ltac:(lia) Hb) as [->|(r & Hs & _)]; [cbn in Hc; lia|]. exists (c ++ r). split; [done|]. apply (cell_ok_app _ _ _ Hcok).
  pose proof (mem_suffix _ _ _ (pl_mem _ _ _ _ HP) Hs) as Hm. by apply Forall_app in Hm as [_ ?].
Qed.

(** ** dropCell *)

Lemma dropCell_spec pg cs i p c : page_ok pg cs -> cs !! i = Some (p, c) ->
  exists d' (pg' := set_data (set_free (set_nCell pg (pg_nCell pg - 1)) (pg_nFree pg + Z.of_nat (length c) + 2)) d'),
    dropCell pg (Z.of_nat i) (Z.of_nat (length c)) SQLITE_OK = Some (SQLITE_OK, pg') /\ page_ok pg' (delete i cs).
Proof.
  intros Hpok Hi. pose proof (findCell_spec _ _ _ _ _ Hpok Hi) as (Hf & Hg & Hb & Hp1 & Hp2). destruct (cell_size_at _ _ _ _ _ Hpok Hi) as (l & Hsuf & Hsz). destruct Hpok as (top & lay & HP & Hhole & Hperm & Hok).
  pose proof (pl_bounds HP) as (B1 & B2 & B3 & B4 & B5 & B6 & _). destruct (pl_ncell _ _ _ _ HP) as [Hn Hn']. pose proof (pl_top _ _ _ _ HP) as Htop. pose proof (lookup_lt_Some _ _ _ Hi) as Hlt. rewrite length_map in Hn'. pose proof (pl_free _ _ _ _ HP) as Hfree. pose proof (pl_sums HP) as Hsums.
  assert ((p, c) ∈ cells_at top lay) as Hin by (rewrite <- Hperm; by eapply list_elem_of_lookup_2). destruct (cells_at_in _ _ _ _ _ _ (pl_lay _ _ _ _ HP) Hin) as (Hc & _ & Hp3 & _).
  destruct (cells_at_split _ _ _ _ Hin) as (A & B & -> & Hpa). rewrite cell_sum_app in Hfree, Hsums. cbn [cell_sum] in Hfree, Hsums. pose proof (pl_lay _ _ _ _ HP) as Hl. apply lay_ok_app in Hl as [HA [_ HB]].
  pose proof (lay_sums _ _ _ _ HA) as (_ & _ & HcA & _). pose proof (lay_sums _ _ _ _ HB) as (_ & _ & HcB & _).
  unfold dropCell. change (negb (SQLITE_OK =? SQLITE_OK)) with false. cbv iota. rewrite (proj2 (Z.leb_le 0 (Z.of_nat i))), (proj2 (Z.ltb_lt (Z.of_nat i) _)) by lia. cbn [andb assert_ mbind option_bind]. rewrite Hf. cbn [mbind option_bind]. rewrite Hsuf. cbn [mbind option_bind].
  rewrite Hsz. cbn [mbind option_bind]. rewrite Z.eqb_refl. cbn [assert_ mbind option_bind]. rewrite Hg, Htop. cbn [mbind option_bind]. rewrite (u16_id top) by lia. rewrite (proj2 (Z.ltb_ge p _)), (proj2 (Z.ltb_ge _ (p + _))) by lia. cbn [orb].
  destruct (freeSpace_spec pg top A c B (map fst cs) HP) as (d1 & top1 & lay1 & Hfs & HP1 & [Hs1 Hs2] & Hg1). rewrite <- Hpa in Hfs. rewrite Hfs. cbn [mbind option_bind]. change (negb (SQLITE_OK =? SQLITE_OK)) with false. cbv iota.
  cbn [set_data set_free set_nCell pg_aData pg_nCell pg_nFree pg_cellOffset pg_hdrOffset]. rewrite (u16_id (pg_nCell pg - 1)) by lia.
  pose proof (pl_bounds HP1) as (C1 & C2 & C3 & C4 & C5 & C6 & _). pose proof (pl_mem _ _ _ _ HP1) as Hm1. pose proof (pl_ptrs _ _ _ _ HP1) as Hptr1. cbn [set_data set_free pg_aData pg_nCell pg_nFree pg_cellOffset pg_hdrOffset pg_pBt] in *.
  destruct (copy_out d1 (pg_cellOffset pg + 2 * Z.of_nat i) (pg_cellOffset pg + 2 * Z.of_nat i + 2) (2 * (pg_nCell pg - 1 - Z.of_nat i))) as (d2 & -> & (L2 & M2 & S2) & G2); [done|lia..|]. cbn [mbind option_bind].
  destruct (put2_out d2 (hdr pg + 3) (pg_nCell pg - 1)) as (d3 & -> & H3 & G3); [lia..|]. cbn [mbind option_bind]. pose proof H3 as (L3 & M3 & S3). rewrite u16_id in G3 by lia. rewrite u16_id by lia.
  exists d3. split; [done|]. exists top1, lay1. split_and!.
  - change (set_data _ d3) with (set_data (set_free (set_nCell (set_data (set_free pg (pg_nFree pg + Z.of_nat (length c))) d1) (pg_nCell pg - 1)) (pg_nFree pg + Z.of_nat (length c) + 2)) d3).
    apply (page_lay_count _ _ _ _ _ _ _ _ HP1); cbn [set_data set_free pg_aData pg_nCell pg_nFree pg_cellOffset pg_hdrOffset pg_pBt]; try lia.
    + rewrite length_map, length_delete by eauto. lia.
    + auto.
    + intros j Hj. rewrite S3, S2 by lia. done.
    + done.
    + intros j q Hj. rewrite list_lookup_fmap in Hj. destruct (decide (j < i)%nat) as [Hji|Hji].
      * rewrite list_lookup_delete_lt in Hj by lia. rewrite <- (Hptr1 j q) by (by rewrite list_lookup_fmap). apply get2_same; rewrite S3, S2 by lia; done.
      * rewrite list_lookup_delete_ge in Hj by lia. pose proof (Hptr1 (S j) q ltac:(by rewrite list_lookup_fmap)) as <-.
        assert (S j < length cs)%nat as Hjl by (destruct (cs !! S j) eqn:He; [by eapply lookup_lt_Some|done]).
        assert (forall e, 0 <= e < 2 -> aget d3 (pg_cellOffset pg + 2 * Z.of_nat j + e) = aget d1 (pg_cellOffset pg + 2 * Z.of_nat (S j) + e)) as He.
        { intros e He. rewrite S3 by lia. replace (pg_cellOffset pg + 2 * Z.of_nat j + e) with (pg_cellOffset pg + 2 * Z.of_nat i + (2 * (Z.of_nat j - Z.of_nat i) + e)) by lia. rewrite G2 by lia. f_equal. lia. }
        pose proof (He 0 ltac:(lia)) as E0. pose proof (He 1 ltac:(lia)) as E1. rewrite !Z.add_0_r in E0. unfold get2byte. by rewrite E0, E1.
  - split; [|done]. destruct Hhole as [Hh0 _]. rewrite Hs2. rewrite !hole_sum_app in *. cbn [hole_sum] in *. lia.
  - rewrite Hs1. rewrite !cells_at_app in *. cbn [cells_at slen app] in *. apply (Permutation_cons_inv (a := (p, c))).
    rewrite <- (delete_Permutation cs i (p, c)) by done. rewrite Hperm, Hpa. by rewrite Permutation_middle.
  - by apply Forall_delete.
Qed.

(** ** insertCell *)

Definition insert_at {A} (i : nat) (x : A) (l : list A) : list A := take i l ++ x :: drop i l.

Lemma insert_at_lookup {A} i (x : A) l j : (i <= length l)%nat ->
  insert_at i x l !! j = if decide (j < i)%nat then l !! j else if decide (j = i) then Some x else l !! (j - 1)%nat.
Proof.
  intros Hi. unfold insert_at. case_decide as Hj; [rewrite lookup_app_l by (rewrite length_take; lia); by apply lookup_take_lt|]. rewrite lookup_app_r, length_take by (rewrite length_take; lia).
  case_decide as Hji; [subst j; by replace (i - i `min` length l)%nat with 0%nat by lia|]. replace (j - i `min` length l)%nat with (S (j - 1 - i)) by lia. transitivity (drop i l !! (j - 1 - i)%nat); [done|]. rewrite lookup_drop. f_equal. lia.
Qed.

Lemma insert_at_perm {A} i (x : A) l : insert_at i x l ≡ₚ x :: l.
Proof. unfold insert_at. rewrite <- Permutation_middle. by rewrite take_drop. Qed.

Lemma insert_at_map {A B} (f : A -> B) i x l : map f (insert_at i x l) = insert_at i (f x) (map f l).
Proof. unfold insert_at. rewrite map_app. cbn [map]. by rewrite firstn_map, skipn_map. Qed.

(** The cell that is stored: with its child pointer replaced. *)
Definition child_cell (iChild : Z) (c : list Z) : list Z := if negb (iChild =? 0) then sqlite3Put4byte iChild ++ drop 4 c else c.

Lemma put4_bytes v : length (sqlite3Put4byte v) = 4%nat /\ mem (sqlite3Put4byte v).
Proof. split; [done|]. repeat constructor; apply is_byte_u8. Qed.

Lemma child_cell_length iChild c : 4 <= Z.of_nat (length c) -> length (child_cell iChild c) = length c.
Proof. intros Hc. unfold child_cell. destruct negb; [|done]. rewrite length_app, length_drop, (proj1 (put4_bytes _)). lia. Qed.

Lemma suffix_skip (a r : list Z) k : 0 <= k -> suffix (a ++ r) (Z.of_nat (length a) + k) = suffix r k.
Proof.
  intros Hk. unfold suffix. rewrite length_app. do 2 case_decide; try done; try lia. f_equal. rewrite drop_app_ge by lia. f_equal. lia.
Qed.

(** The size of a cell of an interior page does not depend on its child. *)
Lemma cellSizePtr_child pg (a b r : list Z) : geometry pg -> pg_leaf pg = 0 -> length a = 4%nat -> length b = 4%nat -> cellSizePtr pg (a ++ r) = cellSizePtr pg (b ++ r).
Proof.
  intros HG Hleaf Ha Hb. unfold cellSizePtr. rewrite (ge_has _ HG Hleaf), (ge_child _ HG), Hleaf. cbn [negb Z.eqb]. change (4 - 4 * 0) with 4.
  assert (forall e : list Z, length e = 4%nat -> suffix (e ++ r) 4 = suffix r 0) as Hs by (intros e He; rewrite <- (suffix_skip e r 0), He by lia; done).
  cbn [mbind option_bind]. by rewrite !Hs.
Qed.

Lemma child_cell_ok pg iChild c : geometry pg -> cell_ok pg c -> (iChild <> 0 -> pg_leaf pg = 0) -> cell_ok pg (child_cell iChild c).
Proof.
  intros HG (Hc & Hm & Hsz) Hleaf. unfold cell_ok. rewrite child_cell_length by done. split; [done|]. unfold child_cell. destruct (Z.eqb_spec iChild 0) as [|Hne]; cbn [negb]; [done|]. split.
  - apply Forall_app. split; [apply put4_bytes|by apply Forall_drop].
  - rewrite <- Hsz. transitivity (cellSizePtr pg (take 4 c ++ drop 4 c)); [|by rewrite take_drop]. apply cellSizePtr_child; [done|auto|apply put4_bytes|rewrite length_take; lia].
Qed.

(** The two copies that write the cell. *)
Lemma write_cell d idx c rest iChild (sz := Z.of_nat (length c)) (nSkip := if negb (iChild =? 0) then 4 else 0) :
  mem c -> 4 <= sz -> 0 <= idx -> idx + sz <= Z.of_nat (length d) ->
  exists d1 d2, copy_bytes d (idx + nSkip) (c ++ rest) nSkip (sz - nSkip) = Some d1 /\ (if negb (iChild =? 0) then put4byte d1 idx iChild else Some d1) = Some d2 /\
    same_out d d2 idx (idx + sz) /\ bytes_at d2 idx (child_cell iChild c).
Proof.
  intros Hm Hsz H0 Hl. unfold child_cell, copy_bytes. subst nSkip. destruct (Z.eqb_spec iChild 0) as [->|Hne]; cbn [negb].
  - rewrite Z.sub_0_r. assert (get_bytes (c ++ rest) 0 sz = Some c) as -> by (apply get_bytes_at; [lia|rewrite length_app; lia|intros k Hk; apply aget_app_l; lia]). cbn [mbind option_bind].
    destruct (put_bytes_out d (idx + 0) c) as (d1 & -> & Hs & Hb); [lia|lia|done|]. exists d1, d1. rewrite Z.add_0_r in *. done.
  - assert (length (take 4 c) = 4%nat) as Ht by (rewrite length_take; lia). assert (sz - 4 = Z.of_nat (length (drop 4 c))) as Hd by (rewrite length_drop; lia).
    assert (get_bytes (c ++ rest) 4 (sz - 4) = Some (drop 4 c)) as Hg.
    { rewrite Hd. transitivity (get_bytes ((take 4 c ++ drop 4 c) ++ rest) 4 (Z.of_nat (length (drop 4 c)))); [by rewrite take_drop|]. apply get_bytes_at; [lia|rewrite !length_app; lia|]. intros k Hk. rewrite aget_app_l by (rewrite length_app; lia). replace (4 + k) with (Z.of_nat (length (take 4 c)) + k) by lia. apply aget_app_r. lia. }
    rewrite Hg. cbn [mbind option_bind].
    destruct (put_bytes_out d (idx + 4) (drop 4 c)) as (d1 & -> & Hs & Hb); [lia|lia|by apply Forall_drop|]. rewrite <- Hd in Hs. pose proof Hs as (L1 & M1 & S1). destruct (put4_bytes iChild) as [Hl4 Hm4].
    destruct (put_bytes_out d1 idx (sqlite3Put4byte iChild)) as (d2 & Hp & Hs2 & Hb2); [lia|lia|done|]. rewrite Hl4 in Hs2. pose proof Hs2 as (L2 & M2 & S2). exists d1, d2. split; [done|]. split; [exact Hp|]. split.
    + eapply same_out_trans; eapply same_out_weaken; [exact Hs|lia|lia|exact Hs2|lia|lia].
    + intros k Hk. rewrite length_app, Hl4 in Hk. destruct (decide (k < 4)) as [Hk4|Hk4].
      * rewrite Hb2 by lia. symmetry. apply aget_app_l. lia.
      * rewrite S2 by lia. replace (idx + k) with (idx + 4 + (k - 4)) by lia. rewrite Hb by lia. symmetry. replace k with (Z.of_nat (length (sqlite3Put4byte iChild)) + (k - 4)) by lia. rewrite aget_app_r by lia. f_equal. lia.
Qed.

(** The pointers after the new one are moved up. *)
Lemma shift_ptrs d off n i idx : mem d -> 0 <= off -> 0 <= i <= n -> off + 2 * n + 2 <= Z.of_nat (length d) -> 0 <= idx < 65536 ->
  exists d1 d2, copy_bytes d (off + 2 * i + 2) d (off + 2 * i) (off + 2 * n - (off + 2 * i)) = Some d1 /\ put2byte d1 (off + 2 * i) idx = Some d2 /\
    same_out d d2 (off + 2 * i) (off + 2 * n + 2) /\ get2byte d2 (off + 2 * i) = Some idx /\ forall j, i <= j < n -> get2byte d2 (off + 2 * (j + 1)) = get2byte d (off + 2 * j).
Proof.
  intros Hm Ho Hi Hl Hidx. destruct (copy_out d (off + 2 * i + 2) (off + 2 * i) (off + 2 * n - (off + 2 * i))) as (d1 & -> & H1 & G1); [done|lia..|]. pose proof H1 as (L1 & M1 & S1).
  destruct (put2_out d1 (off + 2 * i) idx) as (d2 & R2 & H2 & G2); [lia..|]. pose proof H2 as (L2 & M2 & S2). rewrite u16_id in G2 by lia. exists d1, d2. split_and!; [done|done| |done|].
  - eapply same_out_trans; eapply same_out_weaken; [exact H1|lia|lia|exact H2|lia|lia].
  - intros j Hj. assert (forall e, 0 <= e < 2 -> aget d2 (off + 2 * (j + 1) + e) = aget d (off + 2 * j + e)) as He.
    { intros e He. rewrite S2 by lia. replace (off + 2 * (j + 1) + e) with (off + 2 * i + 2 + (2 * (j - i) + e)) by lia. rewrite G1 by lia. f_equal. lia. }
    pose proof (He 0 ltac:(lia)) as E0. pose proof (He 1 ltac:(lia)) as E1. rewrite !Z.add_0_r in E0. unfold get2byte. by rewrite E0, E1.
Qed.

Lemma page_max_cells pg cs : page_ok pg cs -> pg_nCell pg = Z.of_nat (length cs) /\ 6 * pg_nCell pg <= usable pg - 8 /\ pg_nCell pg <= MX_CELL (pg_pBt pg) <= 10921 /\ total (map snd cs) = usable pg - ptr_end pg - pg_nFree pg /\ 0 <= pg_nFree pg.
Proof.
  intros (top & lay & HP & Hhole & Hperm & Hok). pose proof (pl_bounds HP) as (B1 & B2 & B3 & B4 & B5 & B6 & _). destruct (pl_ncell _ _ _ _ HP) as [_ Hn]. rewrite length_map in Hn. pose proof (pl_free _ _ _ _ HP). destruct (pl_sums HP) as (Hs & ?). pose proof (pl_geo _ _ _ _ HP) as HG. pose proof (ge_usable _ HG).
  assert (total (map snd cs) = cell_sum lay) as Htot by (rewrite <- (cells_at_total top); apply total_perm; by apply Permutation_map).
  assert (4 * Z.of_nat (length cs) <= total (map snd cs)) as Hlow. { rewrite <- (length_map snd). apply total_lower, Forall_map. eapply Forall_impl; [exact Hok|]. by intros x (? & _). }
  destruct (ge_page _ HG) as (kk & Hkk & Hps). assert (2 ^ kk <= 2 ^ 16) by (apply Z.pow_le_mono_r; lia). change (2 ^ 16) with 65536 in *. unfold MX_CELL.
  split_and!; [done|lia|apply Z.div_le_lower_bound; lia|apply Z.lt_succ_r, Z.div_lt_upper_bound; lia|lia|lia].
Qed.

Lemma insertCell_spec pg cs i c rest pTemp iChild (sz := Z.of_nat (length c)) : page_ok pg cs -> (i <= length cs)%nat -> cell_ok pg c -> mem rest -> (iChild <> 0 -> pg_leaf pg = 0) -> sz + 2 <= pg_nFree pg ->
  exists d' cs' idx (pg' := set_data (set_free (set_nCell pg (pg_nCell pg + 1)) (pg_nFree pg - (2 + sz))) d'),
    insertCell pg (Z.of_nat i) (c ++ rest) sz pTemp iChild SQLITE_OK SQLITE_OK = Some (SQLITE_OK, pg') /\
    page_ok pg' (insert_at i (idx, child_cell iChild c) cs') /\ map snd cs' = map snd cs.
Proof.
  intros Hpok Hi Hcok Hmr Hleaf Hfree. destruct (page_max_cells _ _ Hpok) as (Hn & Hn6 & Hmx & Htot & Hf0). pose proof (total_nonneg (map snd cs)) as Htn. assert (geometry pg) as HG by (destruct Hpok as (? & ? & HP & _); apply HP). destruct (ge_page _ HG) as (kk & Hkk & Hps). pose proof (ge_usable _ HG) as Hus. assert (2 ^ kk <= 2 ^ 16) by (apply Z.pow_le_mono_r; lia). change (2 ^ 16) with 65536 in *.
  pose proof (child_cell_ok _ _ _ HG Hcok Hleaf) as Hccok. pose proof Hcok as (Hc4 & Hmc & _). pose proof (cell_ok_app _ _ _ Hcok Hmr) as Hsz. fold sz in Hc4, Hsz. pose proof (child_cell_length iChild c Hc4) as Hccl.
  unfold insertCell. change (negb (SQLITE_OK =? SQLITE_OK)) with false. cbv iota. rewrite (ge_ovfl _ HG). cbn [length]. change (Z.of_nat 0) with 0. rewrite (proj2 (Z.leb_le 0 (Z.of_nat i))), (proj2 (Z.leb_le (Z.of_nat i) _)), (proj2 (Z.leb_le (pg_nCell pg) _)), (proj2 (Z.leb_le (MX_CELL _) _)) by lia. cbn [andb assert_ mbind option_bind].
  rewrite Hsz. cbn [mbind option_bind]. rewrite (Z.eqb_refl sz). cbn [orb assert_ mbind option_bind]. change (negb (0 =? 0)) with false. cbn [orb]. rewrite (proj2 (Z.ltb_ge _ (sz + 2))) by lia.
  destruct (allocateSpace_spec pg cs sz Hpok Hc4 ltac:(lia)) as (pg1 & idx & -> & (d1 & cs1 & top1 & a & b & -> & HP1 & Hsnd & Hperm & Hidx & Hhole & Hroom)). cbn [mbind option_bind]. change (negb (SQLITE_OK =? SQLITE_OK)) with false. cbv iota.
  pose proof (pl_bounds HP1) as (B1 & B2 & B3 & B4 & B5 & B6 & _). pose proof (pl_len _ _ _ _ HP1) as Hlen. pose proof (pl_lay _ _ _ _ HP1) as Hl. apply lay_ok_app in Hl as [Hla [_ Hlb]]. pose proof (lay_len_nonneg _ _ _ _ Hla). pose proof (lay_len_nonneg _ _ _ _ Hlb). rewrite lay_len_app in Hlen. cbn [lay_len slen] in *.
  pose proof (pl_mem _ _ _ _ HP1) as Hm1. pose proof (f_equal length Hsnd) as Hlen1. rewrite !length_map in Hlen1. cbn [set_data set_free set_nCell pg_aData pg_nCell pg_nFree pg_cellOffset pg_hdrOffset pg_pBt] in *.
  rewrite (proj2 (Z.leb_le _ idx)), (proj2 (Z.leb_le (idx + sz) _)) by lia. cbn [assert_ mbind option_bind]. rewrite (u16_id (2 + sz)), (u16_id (pg_nCell pg + 1)), (u16_id (pg_nFree pg - _)) by lia.
  destruct (write_cell d1 idx c rest iChild) as (d2 & d3 & R2 & R3 & H3 & Hb3); [done|done|lia|fold sz; lia|]. fold sz in R2. rewrite R2. cbn [mbind option_bind]. rewrite R3. cbn [mbind option_bind]. fold sz in H3. pose proof H3 as (L3 & M3 & S3).
  assert (page_lay (set_data (set_free (set_data pg d1) (pg_nFree pg - sz)) d3) top1 (a ++ SCell (child_cell iChild c) :: b) (map fst cs1)) as HP3.
  { replace (pg_nFree pg - sz) with (pg_nFree (set_data pg d1) - Z.of_nat (length (child_cell iChild c))) by (rewrite Hccl; done). apply page_lay_fill; rewrite ?Hccl; fold sz; rewrite <- ?Hidx; done. }
  destruct (shift_ptrs d3 (pg_cellOffset pg) (pg_nCell pg) (Z.of_nat i) idx) as (d4 & d5 & -> & R5 & H5 & G5 & P5); [auto|lia..|]. cbn [mbind option_bind]. rewrite R5. cbn [mbind option_bind]. pose proof H5 as (L5 & M5 & S5).
  destruct (put2_out d5 (hdr pg + 3) (pg_nCell pg + 1)) as (d6 & -> & H6 & G6); [lia..|]. cbn [mbind option_bind]. pose proof H6 as (L6 & M6 & S6). rewrite u16_id in G6 by lia. pose proof (pl_ptrs _ _ _ _ HP3) as Hptr. cbn [set_data set_free pg_aData pg_cellOffset] in Hptr.
  exists d6, cs1, idx. split; [done|]. split; [|done]. exists top1, (a ++ SCell (child_cell iChild c) :: b). split_and!.
  - change (set_data _ d6) with (set_data (set_free (set_nCell (set_data (set_free (set_data pg d1) (pg_nFree pg - sz)) d3) (pg_nCell pg + 1)) (pg_nFree pg - (2 + sz))) d6).
    apply (page_lay_count _ _ _ _ _ _ _ _ HP3); cbn [set_data set_free pg_aData pg_nCell pg_nFree pg_cellOffset pg_hdrOffset pg_pBt]; try lia; auto.
    + rewrite length_map, (Permutation_length (insert_at_perm _ _ _)). cbn [length]. lia.
    + intros j Hj. rewrite S6, S5 by lia. done.
    + intros j q Hj. rewrite list_lookup_fmap, insert_at_lookup in Hj by lia. rewrite (get2_out _ _ _ _ _ H6) by lia. case_decide as Hji; [|case_decide as Hji'].
      * rewrite (get2_out _ _ _ _ _ H5) by lia. apply Hptr. by rewrite list_lookup_fmap.
      * injection Hj as <-. by rewrite Hji'.
      * assert (j - 1 < length cs1)%nat as Hjl by (destruct (cs1 !! (j - 1)%nat) eqn:He; [by eapply lookup_lt_Some|done]).
        replace (Z.of_nat j) with (Z.of_nat (j - 1) + 1) by lia. rewrite P5 by lia. apply Hptr. by rewrite list_lookup_fmap.
  - destruct Hhole as [Hh0 Hg0]. split; [rewrite hole_sum_app in *; done|]. eapply (gaps_replace _ _ (SFrag sz)); [cbn [slen]; by rewrite Hccl|by intros []..|done].
  - rewrite insert_at_perm. rewrite !cells_at_app in *. cbn [cells_at slen app] in *. rewrite Hccl. fold sz. rewrite <- Hidx in *. rewrite Hperm. by rewrite Permutation_middle.
  - rewrite insert_at_perm. constructor; [exact Hccok|]. eapply (cells_ok_snd pg); [exact Hsnd|]. by destruct Hpok as (? & ? & _ & _ & _ & ?).
Qed.
