(* ===== verification/PageSpec.v ===== *)
(** * PageSpec: a page is a list of cells (btree.c)

    zeroPage makes the empty list, assemblePage a list of cells, insertCell and
    dropCell insert and delete, findCell looks up, and btreeInitPage finds the
    list again in the bytes of a page. *)
From S2P Require Import Prelude Varint Record Page PageLayout PageSpace PageParse PageDefrag PageCells.

Definition page_holds (pg : MemPage) (cells : list (list Z)) : Prop := exists cs, page_ok pg cs /\ map snd cs = cells.

(** ** Insertion and deletion *)

Inductive page_op := InsertCell (i : nat) (c : list Z) (iChild : Z) | DropCell (i : nat).

(** On the page; the size of a cell to drop is read as the callers do. *)
Definition run_op (pg : MemPage) (op : page_op) : option (Z * MemPage) :=
  match op with
  | InsertCell i c iChild => insertCell pg (Z.of_nat i) c (Z.of_nat (length c)) None iChild SQLITE_OK SQLITE_OK
  | DropCell i => p ← findCell pg (Z.of_nat i); l ← suffix (pg_aData pg) p; sz ← cellSizePtr pg l; dropCell pg (Z.of_nat i) sz SQLITE_OK
  end.

Fixpoint run_ops (pg : MemPage) (ops : list page_op) : option (Z * MemPage) :=
  match ops with
  | [] => Some (SQLITE_OK, pg)
  | op :: ops => '(rc, pg) ← run_op pg op; if rc =? SQLITE_OK then run_ops pg ops else Some (rc, pg)
  end.

(** On the list. *)
Definition spec_op (cells : list (list Z)) (op : page_op) : list (list Z) :=
  match op with
  | InsertCell i c iChild => insert_at i (child_cell iChild c) cells
  | DropCell i => delete i cells
  end.

(** The bytes a list of cells takes, with its pointers. *)
Definition used (cells : list (list Z)) : Z := total cells + 2 * Z.of_nat (length cells).
Definition room (pg : MemPage) : Z := usable pg - pg_cellOffset pg.

Definition op_ok (pg : MemPage) (cells : list (list Z)) (op : page_op) : Prop :=
  match op with
  | InsertCell i c iChild => (i <= length cells)%nat /\ cell_ok pg c /\ (iChild <> 0 -> pg_leaf pg = 0) /\ used (c :: cells) <= room pg
  | DropCell i => (i < length cells)%nat
  end.

Fixpoint ops_ok (pg : MemPage) (cells : list (list Z)) (ops : list page_op) : Prop :=
  match ops with
  | [] => True
  | op :: ops => op_ok pg cells op /\ ops_ok pg (spec_op cells op) ops
  end.

(** Pages that differ in what the operations change. *)
Definition same_kind (pg pg' : MemPage) : Prop := exists n f d, pg' = set_data (set_free (set_nCell pg n) f) d.

Lemma same_kind_trans pg pg' pg'' : same_kind pg pg' -> same_kind pg' pg'' -> same_kind pg pg''.
Proof. intros (n & f & d & ->) (n' & f' & d' & ->). by exists n', f', d'. Qed.

Lemma ops_ok_kind pg pg' cells ops : same_kind pg pg' -> ops_ok pg cells ops -> ops_ok pg' cells ops.
Proof. intros (n & f & d & ->). revert cells. induction ops as [|[i c ch|i] ops IH]; intros cells; [done|..]; intros [Ho Hs]; (split; [exact Ho|by apply IH]). Qed.

(** The free space is what the cells leave. *)
Lemma page_free pg cells : page_holds pg cells -> pg_nFree pg = room pg - used cells /\ pg_nCell pg = Z.of_nat (length cells).
Proof. intros (cs & Hpok & <-). destruct (page_max_cells _ _ Hpok) as (Hn & _ & _ & Ht & _). unfold room, used. rewrite length_map. lia. Qed.

Lemma run_op_spec pg cells op : page_holds pg cells -> op_ok pg cells op ->
  exists pg', run_op pg op = Some (SQLITE_OK, pg') /\ page_holds pg' (spec_op cells op) /\ same_kind pg pg'.
Proof.
  intros Hh Hok. destruct (page_free _ _ Hh) as [Hfree _]. destruct Hh as (cs & Hpok & <-). destruct op as [i c iChild|i]; cbn [op_ok run_op spec_op] in *; rewrite length_map in *.
  - destruct Hok as (Hi & Hc & Hleaf & Hroom). destruct (insertCell_spec pg cs i c [] None iChild Hpok Hi Hc (Forall_nil_2 _) Hleaf) as (d' & cs' & idx & Hins & Hpok' & Hsnd).
    { unfold used in *. rewrite total_cons in Hroom. cbn [length] in Hroom. lia. }
    rewrite app_nil_r in Hins. rewrite Hins. eexists. split; [done|]. split; [|by eexists _, _, _]. eexists. split; [exact Hpok'|]. rewrite insert_at_map, Hsnd. done.
  - destruct (lookup_lt_is_Some_2 cs i Hok) as [[p c] Hi]. destruct (findCell_spec _ _ _ _ _ Hpok Hi) as (-> & _). cbn [mbind option_bind]. destruct (cell_size_at _ _ _ _ _ Hpok Hi) as (l & -> & Hsz). cbn [mbind option_bind]. rewrite Hsz. cbn [mbind option_bind].
    destruct (dropCell_spec _ _ _ _ _ Hpok Hi) as (d' & -> & Hpok'). eexists. split; [done|]. split; [|by eexists _, _, _]. eexists. split; [exact Hpok'|]. symmetry. apply list_eq. intros j.
    destruct (decide (j < i)%nat); [rewrite list_lookup_delete_lt, !list_lookup_fmap, list_lookup_delete_lt by lia; done|rewrite list_lookup_delete_ge, !list_lookup_fmap, list_lookup_delete_ge by lia; done].
Qed.

(** C11. Refinement: on a page that holds a list of cells, every sequence of
    insertCell and dropCell with indices in range and cells that fit returns
    SQLITE_OK, whatever the fragmentation of the page, and leaves a page that
    holds the list with the same insertions and deletions, the child pointers
    replaced. *)
Theorem page_refines_cells pg cells ops :
  page_holds pg cells -> ops_ok pg cells ops ->
  exists pg', run_ops pg ops = Some (SQLITE_OK, pg') /\ page_holds pg' (foldl spec_op cells ops) /\ same_kind pg pg'.
Proof.
  revert pg cells. induction ops as [|op ops IH]; intros pg cells Hh Hok.
  - exists pg. split; [done|]. split; [done|]. exists (pg_nCell pg), (pg_nFree pg), (pg_aData pg). by destruct pg.
  - destruct Hok as [Ho Hos]. destruct (run_op_spec pg cells op Hh Ho) as (pg1 & Hrun & Hh1 & Hk1). destruct (IH pg1 _ Hh1 (ops_ok_kind _ _ _ _ Hk1 Hos)) as (pg' & Hr & Hh' & Hk').
    exists pg'. cbn [run_ops foldl]. rewrite Hrun. cbn [mbind option_bind]. change (SQLITE_OK =? SQLITE_OK) with true. split; [done|]. split; [done|]. by eapply same_kind_trans.
Qed.

(** ** Reading a page back *)

Lemma free_total_none l : Forall (fun s => ~ is_free s) l -> free_total l = 0.
Proof. induction 1 as [|s l Hs _ IH]; [done|]. cbn [free_total]. rewrite IH. destruct s; [done|by destruct Hs|done|done]. Qed.

Lemma gaps_first d q l : gaps d l -> first_free q l 0 = 0 \/ q - d + 4 <= first_free q l 0.
Proof.
  intros Hg. destruct (free_split q l 0) as [[-> _]|(a & n & b & -> & Ha & ->)]; [by left|right]. apply gaps_app in Hg as [_ Hg]. rewrite (proj2 (gaps_none d a Ha)) in Hg. cbn [gaps] in Hg. lia.
Qed.

(** btreeInitPage adds up the free blocks. *)
Lemma free_sum_spec d iCellFirst usableSize fuel : forall pos l g nFree, lay_ok d pos l 0 -> gaps g l -> 0 < pos -> iCellFirst <= pos -> pos + lay_len l = usableSize -> (nfree l < fuel)%nat ->
  free_sum fuel d iCellFirst (usableSize - 4) usableSize (first_free pos l 0) nFree = Some (Some (nFree + free_total l)).
Proof.
  induction fuel as [|fuel IH]; intros pos l g nFree Hl Hg Hpos Hfirst Hend Hfuel; [lia|]. cbn [free_sum]. destruct (free_cases _ _ _ Hl Hpos) as [[-> Hnf]|(a & n & b & -> & Ha & ->)].
  { rewrite (free_total_none _ Hnf), Z.add_0_r. done. }
  apply lay_ok_app in Hl as [Hla [(Hn & Hnx & Hsz) Hlb]]. pose proof (lay_len_nonneg _ _ _ _ Hla). cbn [slen] in Hlb. pose proof (lay_len_nonneg _ _ _ _ Hlb). rewrite lay_len_app in Hend. cbn [lay_len slen] in Hend. apply gaps_app in Hg as (_ & _ & Hg). rewrite nfree_app in Hfuel. cbn [nfree] in Hfuel.
  rewrite (proj2 (Z.ltb_lt 0 _)), (proj2 (Z.ltb_ge _ iCellFirst)), (proj2 (Z.ltb_ge (usableSize - 4) _)) by lia. cbn [orb]. rewrite Hnx, Hsz. cbn [mbind option_bind]. rewrite (proj2 (Z.ltb_ge usableSize _)) by lia.
  pose proof (gaps_first 0 (pos + lay_len a + n) b Hg) as Hgf. replace ((0 <? first_free (pos + lay_len a + n) b 0) && (first_free (pos + lay_len a + n) b 0 <=? pos + lay_len a + n + 3)) with false by lia. cbn [orb].
  rewrite (IH _ b 0) by (done || lia). rewrite free_total_app, (free_total_none _ Ha). cbn [free_total]. do 2 f_equal. lia.
Qed.

(** A page as the pager hands it out: only its bytes are read. *)
Definition unread (pg junk : MemPage) : MemPage :=
  mkPage 0 (pg_intKey junk) (pg_leaf junk) (pg_hasData junk) (pg_hdrOffset pg) (pg_childPtrSize junk) (pg_max1bytePayload junk)
    (pg_maxLocal junk) (pg_minLocal junk) (pg_cellOffset junk) (pg_nFree junk) (pg_nCell junk) (pg_maskPage junk) (pg_ovfl junk) (pg_pBt pg) (pg_aData pg).

Lemma decodeFlags_unread pg junk fl : decodeFlags pg fl = (SQLITE_OK, pg) ->
  decodeFlags (unread pg junk) fl = (SQLITE_OK, mkPage 0 (pg_intKey pg) (pg_leaf pg) (pg_hasData pg) (pg_hdrOffset pg) (pg_childPtrSize pg) (pg_max1bytePayload pg)
    (pg_maxLocal pg) (pg_minLocal pg) (pg_cellOffset junk) (pg_nFree junk) (pg_nCell junk) (pg_maskPage junk) (pg_ovfl junk) (pg_pBt pg) (pg_aData pg)).
Proof.
  destruct pg as [f1 f2 f3 f4 f5 f6 f7 f8 f9 f10 f11 f12 f13 f14 f15 f16]. unfold decodeFlags. cbn [unread pg_pBt pg_isInit pg_intKey pg_leaf pg_hasData pg_hdrOffset pg_childPtrSize pg_maxLocal pg_minLocal pg_max1bytePayload pg_cellOffset pg_nFree pg_nCell pg_maskPage pg_ovfl pg_aData].
  destruct (_ =? _); [|destruct (_ =? _); [|done]]; intros H; injection H; intros; subst; done.
Qed.

(** C25. Round trip: whatever the fields of a MemPage hold before, btreeInitPage
    on the bytes of a page that insertCell, dropCell, zeroPage or assemblePage
    left reports no corruption and recovers every field, the count of free
    bytes included, so that the page holds the same cells. *)
Theorem page_init_recovers pg cells junk :
  page_holds pg cells -> btreeInitPage (unread pg junk) = Some (SQLITE_OK, pg).
Proof.
  intros (cs & Hpok & _). destruct (page_max_cells _ _ Hpok) as (_ & _ & Hmx & _). destruct Hpok as (top & lay & HP & [Hhole Hgaps] & _). pose proof (pl_bounds HP) as (B1 & B2 & B3 & B4 & B5 & B6 & B7). pose proof (pl_geo _ _ _ _ HP) as HG.
  destruct (pl_flags _ _ _ _ HP) as (fl & Hfl & Hdec). destruct (ge_page _ HG) as (kk & Hkk & Hps). pose proof (ge_usable _ HG). assert (2 ^ 9 <= 2 ^ kk <= 2 ^ 16) as Hpow by (split; apply Z.pow_le_mono_r; lia). change (2 ^ 9) with 512 in Hpow. change (2 ^ 16) with 65536 in Hpow. destruct (pl_sums HP) as (Hsums & Hfr & Hcs & Hft & _).
  pose proof (pl_len _ _ _ _ HP). pose proof (nfree_bound _ _ _ _ (pl_lay _ _ _ _ HP)). pose proof (ge_cell _ HG) as Hcell. pose proof (pl_free _ _ _ _ HP) as Hnf. pose proof (ge_leaf _ HG).
  unfold btreeInitPage. change (negb (pg_isInit (unread pg junk) =? 0)) with false. cbv iota. change (pg_aData (unread pg junk)) with (pg_aData pg). change (pg_hdrOffset (unread pg junk)) with (hdr pg). change (pg_pBt (unread pg junk)) with (pg_pBt pg).
  rewrite Hfl. cbn [mbind option_bind]. rewrite (decodeFlags_unread _ _ _ Hdec). change (negb (SQLITE_OK =? SQLITE_OK)) with false. cbv iota beta. rewrite (proj2 (Z.leb_le 512 _)), (proj2 (Z.leb_le _ 65536)) by lia. cbn [andb assert_ mbind option_bind].
  cbn [pg_isInit pg_intKey pg_leaf pg_hasData pg_hdrOffset pg_childPtrSize pg_maxLocal pg_minLocal pg_max1bytePayload pg_nFree pg_maskPage].
  rewrite (pl_top_read HP). cbn [mbind option_bind]. rewrite (proj1 (pl_ncell _ _ _ _ HP)). cbn [mbind option_bind]. rewrite (proj2 (Z.ltb_ge (MX_CELL _) _)) by lia. rewrite (u16_id (hdr pg + 12 - 4 * pg_leaf pg)), <- Hcell by lia.
  rewrite (pl_first _ _ _ _ HP), (pl_frag _ _ _ _ HP). cbn [mbind option_bind]. erewrite free_sum_spec; [|apply HP|exact Hgaps|lia|lia|lia|lia]. cbn [mbind option_bind]. rewrite (proj2 (Z.ltb_ge (usable pg) _)) by lia.
  rewrite (u16_id (bt_pageSize _ - 1)), (u16_id (_ + free_total lay - _)) by lia. do 2 f_equal. pose proof (ge_init _ HG) as Hinit. pose proof (ge_mask _ HG) as Hmask. pose proof (ge_ovfl _ HG) as Hov.
  destruct pg; cbn in *. f_equal; congruence || lia.
Qed.

(** ** New pages *)

(** What zeroPage is called on: sizes that fit, whatever the bytes. *)
Record blank (p : MemPage) : Prop := {
  bl_hdr : 0 <= pg_hdrOffset p <= 100;
  bl_usable : 480 <= usable p <= bt_pageSize (pg_pBt p);
  bl_page : exists k, 9 <= k <= 16 /\ bt_pageSize (pg_pBt p) = 2 ^ k;
  bl_data : Z.of_nat (length (pg_aData p)) = bt_pageSize (pg_pBt p);
  bl_mem : mem (pg_aData p);
  bl_temp : Z.of_nat (length (bt_pTmpSpace (pg_pBt p))) = bt_pageSize (pg_pBt p);
  bl_tmem : mem (bt_pTmpSpace (pg_pBt p)) }.

Definition page_flags : list Z :=
  [Z.lor PTF_ZERODATA PTF_LEAF; Z.lor (Z.lor PTF_LEAFDATA PTF_INTKEY) PTF_LEAF; PTF_ZERODATA; Z.lor PTF_LEAFDATA PTF_INTKEY].

(** The fields of a page of each kind. *)
Lemma page_flags_cases (P : Z -> Prop) flags : flags ∈ page_flags -> P 10 -> P 13 -> P 2 -> P 5 -> P flags.
Proof. intros Hf. unfold page_flags in Hf. rewrite !elem_of_cons, elem_of_nil in Hf. by destruct Hf as [->|[->|[->|[->|[]]]]]. Qed.

Lemma zeroPage_lay p flags : blank p -> flags ∈ page_flags ->
  exists pg, zeroPage p flags = Some pg /\ page_lay pg (usable p) [] [] /\ pg_pBt pg = pg_pBt p /\ hdr pg = hdr p /\ pg_leaf pg = (if Z.land flags PTF_LEAF =? 0 then 0 else 1) /\ pg_nCell pg = 0.
Proof.
  intros HB Hf. pose proof (bl_hdr _ HB) as Hh. pose proof (bl_usable _ HB) as Hu. pose proof (bl_data _ HB) as Hd. destruct (bl_page _ HB) as (kk & Hkk & Hps). assert (2 ^ 9 <= 2 ^ kk <= 2 ^ 16) as Hpow by (split; apply Z.pow_le_mono_r; lia). change (2 ^ 9) with 512 in Hpow. change (2 ^ 16) with 65536 in Hpow.
  assert (0 <= flags < 256) as Hfr by (apply (page_flags_cases (fun f => 0 <= f < 256)); [done|lia..]). unfold zeroPage.
  destruct (secure_zero (flag (bt_btsFlags (pg_pBt p)) BTS_SECURE_DELETE) (pg_aData p) (hdr p) (usable p - hdr p)) as (d0 & -> & (L0 & M0 & _)); [lia..|]. cbn [mbind option_bind].
  destruct (aset_out d0 (hdr p) (u8 flags)) as (d1 & -> & (L1 & M1 & _) & G1); [lia|apply is_byte_u8|]. cbn [mbind option_bind].
  unfold zero_bytes. change (0 <=? 4) with true. cbn [assert_ mbind option_bind]. change (replicate (Z.to_nat 4) 0) with [0; 0; 0; 0].
  destruct (put_bytes_out d1 (hdr p + 1) [0; 0; 0; 0]) as (d2 & -> & (L2 & M2 & S2) & G2); [lia|cbn; lia|by apply bytes_bool|]. cbn [mbind option_bind]. cbn [length] in S2.
  destruct (aset_out d2 (hdr p + 7) 0) as (d3 & -> & (L3 & M3 & S3) & G3); [lia|done|]. cbn [mbind option_bind].
  destruct (put2_out d3 (hdr p + 5) (usable p)) as (d4 & -> & H4 & G4); [lia..|]. cbn [mbind option_bind]. pose proof H4 as (L4 & M4 & S4). rewrite (proj2 (Z.leb_le 512 _)), (proj2 (Z.leb_le _ 65536)) by lia. cbn [andb assert_ mbind option_bind].
  assert (mem d4) as Hm4 by (apply M4, M3, M2, M1, M0, HB). assert (aget d4 (hdr p) = Some flags) as F0 by (rewrite S4, S3, S2, G1 by lia; f_equal; apply Z.mod_small; lia).
  assert (forall k, 0 <= k < 4 -> aget d4 (hdr p + 1 + k) = Some 0) as Fz.
  { intros k Hk. rewrite S4, S3, G2 by (cbn [length]; lia). assert (k = 0 \/ k = 1 \/ k = 2 \/ k = 3) as [-> | [-> | [-> | ->]]] by lia; done. }
  assert (get2byte d4 (hdr p + 1) = Some 0) as F1. { rewrite (get2_val d4 _ 0 0); [done| |apply (Fz 1); lia|done]. rewrite <- (Z.add_0_r (hdr p + 1)). apply Fz. lia. }
  assert (get2byte d4 (hdr p + 3) = Some 0) as F3. { rewrite (get2_val d4 _ 0 0); [done| | |done]; [replace (hdr p + 3) with (hdr p + 1 + 2) by lia|replace (hdr p + 3 + 1) with (hdr p + 1 + 3) by lia]; apply Fz; lia. }
  assert (aget d4 (hdr p + 7) = Some 0) as F7 by (rewrite S4 by lia; done). clear G1 G2 G3 S2 S3 S4 Fz. revert F0. clear Hfr.
  apply (page_flags_cases (fun flags => aget d4 (hdr p) = Some flags -> _) flags Hf); intros F0.
  all: eexists; split; [reflexivity|]; cbn [pg_pBt pg_hdrOffset pg_leaf pg_nCell]; split; [|split_and!; reflexivity].
  all: match goal with |- context [u16 (_ + (if ?e then _ else _))] => let e' := eval vm_compute in e in change e with e' end; rewrite (u16_id (hdr p + _)), (u16_id (bt_pageSize _ - 1)), (u16_id (usable p - _)) by lia.
  all: split; cbn [pg_pBt pg_aData pg_hdrOffset pg_nCell pg_cellOffset pg_nFree first_free lay_len frag lay_ok cell_sum length]; try done; try lia.
  all: try (eexists; split; [exact F0|reflexivity]).
  all: destruct HB; split; cbn [pg_isInit pg_leaf pg_hasData pg_hdrOffset pg_childPtrSize pg_cellOffset pg_maskPage pg_ovfl pg_pBt pg_aData]; try done; try lia; try (vm_compute; tauto).
  all: match goal with |- context [u8 ?e] => let v := eval vm_compute in (u8 e) in change (u8 e) with v end; lia.
Qed.

(** *** assemblePage *)

Lemma assemble_loop_spec : forall rcells data ptr cellbody (n := Z.of_nat (length rcells)), Forall (fun c => 4 <= Z.of_nat (length c) /\ mem c) rcells ->
  0 <= ptr - 2 * n -> ptr <= cellbody - total rcells -> cellbody <= Z.of_nat (length data) -> cellbody <= 65536 ->
  exists data', assemble_loop data ptr cellbody rcells = Some (data', cellbody - total rcells) /\ length data' = length data /\ (mem data -> mem data') /\
    (forall j, j < ptr - 2 * n \/ ptr <= j < cellbody - total rcells \/ cellbody <= j -> aget data' j = aget data j) /\
    lay_ok data' (cellbody - total rcells) (cell_segs rcells) 0 /\
    (forall j p, map fst (rev (packed cellbody rcells)) !! j = Some p -> get2byte data' (ptr - 2 * n + 2 * Z.of_nat j) = Some p).
Proof.
  induction rcells as [|c rcells IH]; intros data ptr cellbody n Hok Hptr Hgap Hcb H64.
  { exists data. change (total []) with 0 in *. rewrite Z.sub_0_r. done. }
  apply Forall_cons in Hok as [[Hc Hm] Hok]. subst n. cbn [length assemble_loop packed rev] in *. rewrite total_cons in *. pose proof (total_nonneg rcells). set (m := Z.of_nat (length c)) in *. pose proof (total_lower rcells) as Hlow.
  destruct (put2_out data (ptr - 2) (cellbody - m)) as (d1 & -> & H1 & G1); [lia..|]. cbn [mbind option_bind]. pose proof H1 as (L1 & M1 & S1). rewrite u16_id in G1 by lia.
  destruct (put_bytes_out d1 (cellbody - m) c) as (d2 & -> & H2 & G2); [lia|fold m; lia|done|]. cbn [mbind option_bind]. pose proof H2 as (L2 & M2 & S2). fold m in H2, S2.
  destruct (IH d2 (ptr - 2) (cellbody - m)) as (d3 & -> & L3 & M3 & S3 & Hl3 & Hp3); [done|lia..|]. exists d3.
  replace (cellbody - m - total rcells) with (cellbody - (m + total rcells)) in * by lia. replace (ptr - 2 - 2 * Z.of_nat (length rcells)) with (ptr - 2 * Z.of_nat (S (length rcells))) in * by lia. split; [done|]. split; [congruence|]. split; [auto|]. split; [|split].
  - intros j Hj. rewrite S3, S2, S1 by lia. done.
  - rewrite map_app. apply lay_ok_app. cbn [map first_free lay_ok slen]. split; [done|]. rewrite lay_len_cells. split; [|done]. split; [done|]. replace (cellbody - (m + total rcells) + total rcells) with (cellbody - m) by lia.
    eapply bytes_at_same; [|exact G2]. fold m. intros j Hj. apply S3. lia.
  - intros j p Hj. assert (length (map fst (rev (packed (cellbody - m) rcells))) = length rcells) as Hlen by (rewrite length_map, length_rev, <- (length_map snd), packed_snd; done).
    rewrite map_app in Hj. destruct (decide (j < length rcells)%nat) as [Hlt|Hge].
    + apply Hp3. by rewrite lookup_app_l in Hj by lia.
    + rewrite lookup_app_r in Hj by lia. cbn [map fst] in Hj. apply list_lookup_singleton_Some in Hj as [Hj <-]. replace j with (length rcells) by lia.
      replace (ptr - 2 * Z.of_nat (S (length rcells)) + 2 * Z.of_nat (length rcells)) with (ptr - 2) by lia. rewrite <- G1. apply get2_same; rewrite S3, S2 by lia; done.
Qed.

Lemma assemblePage_spec pg cells : page_lay pg (usable pg) [] [] -> pg_nCell pg = 0 -> Forall (cell_ok pg) cells -> used cells <= room pg ->
  exists pg', assemblePage pg cells = Some pg' /\ page_holds pg' cells /\ same_kind pg pg'.
Proof.
  intros HP Hn0 Hok Hroom. pose proof (pl_bounds HP) as (B1 & B2 & B3 & B4 & B5 & B6 & B7). pose proof (pl_geo _ _ _ _ HP) as HG. pose proof (ge_usable _ HG). unfold used, room in Hroom. pose proof (total_nonneg cells). pose proof (pl_free _ _ _ _ HP) as Hf. cbn [cell_sum] in Hf.
  destruct (ge_page _ HG) as (kk & Hkk & Hps). assert (2 ^ kk <= 2 ^ 16) by (apply Z.pow_le_mono_r; lia). change (2 ^ 16) with 65536 in *.
  assert (Forall (fun c => 4 <= Z.of_nat (length c) /\ mem c) cells) as Hok' by (eapply Forall_impl; [exact Hok|by intros c (? & ? & _)]). assert (4 * Z.of_nat (length cells) <= total cells) as Hlow by (apply total_lower; eapply Forall_impl; [exact Hok'|by intros c []]).
  assert (total (rev cells) = total cells) as Htr by (apply total_perm; by rewrite <- Permutation_rev).
  unfold assemblePage. rewrite (ge_ovfl _ HG), Hn0. cbn [assert_ mbind option_bind]. rewrite (proj2 (Z.leb_le (Z.of_nat (length cells)) _)), (proj2 (Z.leb_le (MX_CELL _) _)) by (unfold MX_CELL; first [apply Z.div_le_lower_bound; lia|apply Z.lt_succ_r, Z.div_lt_upper_bound; lia]).
  cbn [andb assert_ mbind option_bind]. change (0 =? 0) with true. cbn [assert_ mbind option_bind]. rewrite (pl_top_read HP). cbn [mbind option_bind]. rewrite Z.eqb_refl. cbn [assert_ mbind option_bind].
  destruct (assemble_loop_spec (rev cells) (pg_aData pg) (pg_cellOffset pg + 2 * Z.of_nat (length cells)) (usable pg)) as (d1 & -> & L1 & M1 & S1 & Hl1 & Hp1); [by apply Forall_rev|rewrite ?length_rev; lia..|]. cbn [mbind option_bind]. rewrite Htr in *. rewrite length_rev in *.
  replace (pg_cellOffset pg + 2 * Z.of_nat (length cells) - 2 * Z.of_nat (length cells)) with (pg_cellOffset pg) in * by lia.
  destruct (put2_out d1 (hdr pg + 3) (Z.of_nat (length cells))) as (d2 & -> & H2 & G2); [lia..|]. cbn [mbind option_bind]. pose proof H2 as (L2 & M2 & S2). rewrite u16_id in G2 by lia.
  destruct (put2_out d2 (hdr pg + 5) (usable pg - total cells)) as (d3 & -> & H3 & G3); [lia..|]. cbn [mbind option_bind]. pose proof H3 as (L3 & M3 & S3).
  eexists. split; [done|]. split; [|by eexists _, _, _]. rewrite (u16_id (Z.of_nat (length cells))), (u16_id (pg_nFree pg - _)) by lia. set (cs := rev (packed (usable pg) (rev cells))).
  assert (map snd cs = cells) as Hsnd by (unfold cs; by rewrite map_rev, packed_snd, rev_involutive). exists cs. split; [|done]. destruct (no_free_cells (rev cells)) as (F1 & F2 & F3 & F4).
  exists (usable pg - total cells), (cell_segs (rev cells)). split_and!.
  - split; cbn [set_data set_free set_nCell pg_aData pg_hdrOffset pg_pBt pg_nCell pg_cellOffset pg_nFree].
    + destruct HG. split; cbn; try done. by rewrite L3, L2, L1.
    + apply M3, M2, M1, HP.
    + apply (flags_ok_set pg (Z.of_nat (length cells)) _ d3); [apply HP|]. rewrite S3, S2, S1 by lia. done.
    + lia.
    + rewrite lay_len_cells, Htr. lia.
    + done.
    + rewrite F4. rewrite (get2_out _ _ _ _ _ H3), (get2_out _ _ _ _ _ H2) by lia. rewrite (get2_same (pg_aData pg) d1) by (apply S1; lia). apply (pl_first _ _ _ _ HP).
    + split; [by rewrite (get2_out _ _ _ _ _ H3) by lia|]. by rewrite length_map, <- (length_map snd), Hsnd.
    + rewrite F1, S3, S2, S1 by lia. apply (pl_frag _ _ _ _ HP).
    + eapply lay_ok_same; [|exact Hl1]. rewrite lay_len_cells, Htr. intros i Hi. rewrite S3, S2 by lia. done.
    + intros i p Hi. rewrite <- (Hp1 i p Hi). apply get2_same; rewrite S3, S2 by lia; done.
    + rewrite cell_sum_cells, Htr. lia.
  - apply tidy_cells.
  - rewrite <- Htr, packed_cells. done.
  - apply (Forall_map snd (cell_ok pg)). by rewrite Hsnd.
Qed.

(** New pages: zeroPage makes, from any bytes, a page that holds no cell,
    and assemblePage fills it with any list of cells that fits, in order. *)
Theorem new_page_holds p flags :
  blank p -> flags ∈ page_flags ->
  exists pg, zeroPage p flags = Some pg /\ page_holds pg [] /\ room pg = usable p - hdr p - (if Z.land flags PTF_LEAF =? 0 then 12 else 8) /\
    forall cells, Forall (cell_ok pg) cells -> used cells <= room pg -> exists pg', assemblePage pg cells = Some pg' /\ page_holds pg' cells.
Proof.
  intros HB Hf. destruct (zeroPage_lay p flags HB Hf) as (pg & Hz & HP & Hbt & Hh & Hleaf & Hn). exists pg. split; [done|]. rewrite <- Hbt in HP. split; [|split].
  - exists []. split; [|done]. by exists (usable pg), [].
  - unfold room. rewrite (ge_cell _ (pl_geo _ _ _ _ HP)), Hleaf, Hbt, Hh. destruct (Z.land flags PTF_LEAF =? 0); lia.
  - intros cells Hok Hroom. destruct (assemblePage_spec pg cells HP Hn Hok Hroom) as (pg' & ? & ? & _). eauto.
Qed.

(** ** Lookup and overflow *)

(** findCell points at the bytes of the cell it is asked for, which
    cellSizePtr measures: on a page that holds a list of cells, the bytes there
    are the cell of that index, inside the content area. *)
Theorem page_reads_cells pg cells i c :
  page_holds pg cells -> cells !! i = Some c ->
  exists p l, findCell pg (Z.of_nat i) = Some p /\ suffix (pg_aData pg) p = Some l /\ cellSizePtr pg l = Some (Z.of_nat (length c)) /\
    get_bytes (pg_aData pg) p (Z.of_nat (length c)) = Some c /\ ptr_end pg <= p /\ p + Z.of_nat (length c) <= usable pg.
Proof.
  intros (cs & Hpok & <-) Hi. rewrite list_lookup_fmap in Hi. destruct (cs !! i) as [[p c']|] eqn:Hc; [|done]. injection Hi as <-. destruct (findCell_spec _ _ _ _ _ Hpok Hc) as (Hf & _ & Hb & H1 & H2). destruct (cell_size_at _ _ _ _ _ Hpok Hc) as (l & Hs & Hsz).
  destruct Hpok as (top & lay & HP & _). pose proof (pl_bounds HP). exists p, l. split_and!; [done..| |done|done]. apply get_bytes_at; [lia|lia|done].
Qed.

(** A cell that does not fit leaves the page as it is: insertCell returns
    SQLITE_OK with the cell, its child pointer replaced, as the overflow entry
    of its index. *)
Theorem page_overflow pg cells i c iChild :
  page_holds pg cells -> (i <= length cells)%nat -> cell_ok pg c -> room pg < used (c :: cells) ->
  run_op pg (InsertCell i c iChild) = Some (SQLITE_OK, set_ovfl pg [(Z.of_nat i, child_cell iChild c)]).
Proof.
  intros Hh Hi (Hc & Hm & Hsz) Hroom. destruct (page_free _ _ Hh) as [Hfree Hn]. destruct Hh as (cs & Hpok & <-). destruct (page_max_cells _ _ Hpok) as (_ & _ & Hmx & _). assert (pg_ovfl pg = []) as Hov by (destruct Hpok as (? & ? & HP & _); apply HP).
  unfold used in *. rewrite total_cons in Hroom. cbn [length] in Hroom. unfold run_op, insertCell. change (negb (SQLITE_OK =? SQLITE_OK)) with false. cbv iota. rewrite Hov. cbn [length]. change (Z.of_nat 0) with 0.
  rewrite (proj2 (Z.leb_le 0 (Z.of_nat i))), (proj2 (Z.leb_le (Z.of_nat i) _)), (proj2 (Z.leb_le (pg_nCell pg) _)), (proj2 (Z.leb_le (MX_CELL _) _)) by lia. cbn [andb assert_ mbind option_bind]. rewrite Hsz. cbn [mbind option_bind]. rewrite (Z.eqb_refl (Z.of_nat (length c))). cbn [orb assert_ mbind option_bind].
  change (negb (0 =? 0)) with false. cbn [orb]. rewrite (proj2 (Z.ltb_lt (pg_nFree pg) _)) by lia. cbn [mbind option_bind]. unfold child_cell. rewrite (u16_id (Z.of_nat i)) by lia. destruct (negb (iChild =? 0)); [|done].
  unfold put4byte, put_bytes. rewrite (proj1 (put4_bytes _)), decide_True by lia. done.
Qed.

(** ** Witnesses: a table leaf of 512 bytes *)

Definition wit_bt : BtShared := lockBtree_limits (mkBt 0 512 512 0 0 0 0 0 (replicate 512 0)).
Definition wit_raw : MemPage := mkPage 0 0 0 0 0 0 0 0 0 0 0 0 0 [] wit_bt (replicate 512 170).
Definition wit_zero : MemPage := default wit_raw (zeroPage wit_raw 13).
Definition wit_c1 : list Z := [3; 7; 1; 2; 3].
Definition wit_c2 : list Z := [130; 44; 9] ++ replicate 300 5.
Definition wit_page : MemPage := default wit_raw (assemblePage wit_zero [wit_c1; wit_c2]).

Lemma wit_blank : blank wit_raw.
Proof. split; try (by vm_compute); try (apply bytes_bool; by vm_compute). exists 9. split; [lia|done]. Qed.

Lemma wit_zero_lay : page_lay wit_zero 512 [] [] /\ pg_nCell wit_zero = 0.
Proof. destruct (zeroPage_lay wit_raw 13 wit_blank) as (pg & Hz & HP & _ & _ & _ & Hn); [by apply (list_elem_of_lookup_2 _ 1)|]. unfold wit_zero. rewrite Hz. done. Qed.

Lemma wit_cells_ok : cell_ok wit_zero wit_c1 /\ cell_ok wit_zero wit_c2.
Proof. split; (split; [by vm_compute|]; split; [apply bytes_bool; by vm_compute|by vm_compute]). Qed.

Lemma wit_page_holds : page_holds wit_page [wit_c1; wit_c2].
Proof.
  destruct wit_zero_lay as [HP Hn]. destruct wit_cells_ok as [H1 H2]. destruct (assemblePage_spec wit_zero [wit_c1; wit_c2] HP Hn) as (pg & Ha & Hh & _); [by repeat constructor|by vm_compute|]. unfold wit_page. by rewrite Ha.
Qed.

Lemma page_refines_cells_witness :
  exists pg', run_ops wit_page [DropCell 0; InsertCell 1 wit_c1 0; InsertCell 0 wit_c1 0; DropCell 1] = Some (SQLITE_OK, pg') /\ page_holds pg' [wit_c1; wit_c1] /\ same_kind wit_page pg'.
Proof.
  apply (page_refines_cells wit_page [wit_c1; wit_c2] [DropCell 0; InsertCell 1 wit_c1 0; InsertCell 0 wit_c1 0; DropCell 1]); [exact wit_page_holds|].
  cbn [ops_ok op_ok]. assert (cell_ok wit_page wit_c1) as Hc by (split; [by vm_compute|split; [apply bytes_bool; by vm_compute|by vm_compute]]).
  split_and!; try exact Hc; try (by vm_compute); try (cbn; lia).
Defined.

Lemma page_init_recovers_witness : btreeInitPage (unread wit_page wit_raw) = Some (SQLITE_OK, wit_page).
Proof. exact (page_init_recovers wit_page [wit_c1; wit_c2] wit_raw wit_page_holds). Defined.

Lemma new_page_holds_witness :
  exists pg, zeroPage wit_raw 13 = Some pg /\ page_holds pg [] /\ room pg = 512 - 0 - 8 /\
    forall cells, Forall (cell_ok pg) cells -> used cells <= room pg -> exists pg', assemblePage pg cells = Some pg' /\ page_holds pg' cells.
Proof. exact (new_page_holds wit_raw 13 wit_blank (list_elem_of_lookup_2 page_flags 1 13 eq_refl)). Defined.

Lemma page_reads_cells_witness :
  exists p l, findCell wit_page 1 = Some p /\ suffix (pg_aData wit_page) p = Some l /\ cellSizePtr wit_page l = Some 303 /\
    get_bytes (pg_aData wit_page) p 303 = Some wit_c2 /\ 12 <= p /\ p + 303 <= 512.
Proof. exact (page_reads_cells wit_page [wit_c1; wit_c2] 1 wit_c2 wit_page_holds eq_refl). Defined.

Lemma page_overflow_witness : run_op wit_page (InsertCell 2 wit_c2 0) = Some (SQLITE_OK, set_ovfl wit_page [(2, wit_c2)]).
Proof.
  apply (page_overflow wit_page [wit_c1; wit_c2] 2 wit_c2 0 wit_page_holds); [cbn; lia| |by vm_compute].
  split; [by vm_compute|split; [apply bytes_bool; by vm_compute|by vm_compute]].
Defined.
