(* ===== verification/Wal.v ===== *)
(** * Wal: the write-ahead log and its index (wal.c)

    The wal-index is shared memory: pages of 32 KB, each with the page numbers
    of up to 4096 frames and a hash table over them.  The model keeps the two
    arrays of a page apart and leaves the header of page 0, which holds two copies
    of a [WalIndexHdr] and a [WalCkptInfo], in fields of its own.  Whether a page that is not yet
    mapped can be mapped is an input: [w_map] lists the results (of realloc,
    malloc or xShmMap) still to come, those beyond its end being SQLITE_OK.  A page
    that nobody wrote is zero.  Locks and the fsync points of the log file are left out. *)
From S2P Require Import Prelude Varint Record Page.

(** ** Constants *)

Definition HASHTABLE_NPAGE : Z := 4096.
Definition HASHTABLE_HASH_1 : Z := 383.
Definition HASHTABLE_NSLOT : Z := HASHTABLE_NPAGE * 2.
Definition WALINDEX_HDR_SIZE : Z := 48 * 2 + 24 + 16.
Definition HASHTABLE_NPAGE_ONE : Z := HASHTABLE_NPAGE - WALINDEX_HDR_SIZE / 4.
Definition WAL_FRAME_HDRSIZE : Z := 24.
Definition WAL_HDRSIZE : Z := 32.
Definition WAL_MAGIC : Z := 0x377f0682.
Definition WAL_MAX_VERSION : Z := 3007000.
Definition WALINDEX_MAX_VERSION : Z := 3007000.
Definition WAL_NREADER : Z := 5.
Definition READMARK_NOT_USED : Z := 0xffffffff.
Definition SQLITE_BIGENDIAN : Z := 0.
Definition SQLITE_MAX_PAGE_SIZE : Z := 65536.
Definition SQLITE_CANTOPEN : Z := 14.

(** ** Data *)

(** aFrameCksum, aCksum and aSalt are the arrays of the C structure, aSalt as its
    eight bytes in memory. *)
Record WalIndexHdr := mkHdr {
  h_iVersion : Z;
  h_unused : Z;
  h_iChange : Z;
  h_isInit : Z;
  h_bigEndCksum : Z;
  h_szPage : Z;
  h_mxFrame : Z;
  h_nPage : Z;
  h_aFrameCksum : Z * Z;
  h_aSalt : list Z;
  h_aCksum : Z * Z }.

Instance WalIndexHdr_eq : EqDecision WalIndexHdr.
Proof. solve_decision. Defined.

Record WalCkptInfo := mkInfo { ci_nBackfill : Z; ci_aReadMark : list Z }.

(** A page of the wal-index. *)
Record WiPage := mkWi { wi_aPgno : list Z; wi_aHash : list Z }.

(** The first three fields are shared memory: the pages, the two copies of the header
    and the checkpoint information of page 0.  The others belong to the connection,
    [w_mapped] being the pages that its apWiData points to. *)
Record Wal := mkWal {
  w_apWiData : gmap Z WiPage;
  w_aHdr : WalIndexHdr * WalIndexHdr;
  w_info : WalCkptInfo;
  w_mapped : gset Z;
  w_map : list Z;
  w_hdr : WalIndexHdr;
  w_readLock : Z;
  w_szPage : Z;
  w_nCkpt : Z }.

Definition set_wi (w : Wal) (m : gmap Z WiPage) : Wal := mkWal m (w_aHdr w) (w_info w) (w_mapped w) (w_map w) (w_hdr w) (w_readLock w) (w_szPage w) (w_nCkpt w).
Definition set_aHdr (w : Wal) (a : WalIndexHdr * WalIndexHdr) : Wal := mkWal (w_apWiData w) a (w_info w) (w_mapped w) (w_map w) (w_hdr w) (w_readLock w) (w_szPage w) (w_nCkpt w).
Definition set_info (w : Wal) (i : WalCkptInfo) : Wal := mkWal (w_apWiData w) (w_aHdr w) i (w_mapped w) (w_map w) (w_hdr w) (w_readLock w) (w_szPage w) (w_nCkpt w).
Definition set_maps (w : Wal) (ms : gset Z) (rcs : list Z) : Wal := mkWal (w_apWiData w) (w_aHdr w) (w_info w) ms rcs (w_hdr w) (w_readLock w) (w_szPage w) (w_nCkpt w).
Definition set_hdr (w : Wal) (h : WalIndexHdr) : Wal := mkWal (w_apWiData w) (w_aHdr w) (w_info w) (w_mapped w) (w_map w) h (w_readLock w) (w_szPage w) (w_nCkpt w).
Definition set_wsz (w : Wal) (szPage : Z) : Wal := mkWal (w_apWiData w) (w_aHdr w) (w_info w) (w_mapped w) (w_map w) (w_hdr w) (w_readLock w) szPage (w_nCkpt w).
Definition set_nCkpt (w : Wal) (n : Z) : Wal := mkWal (w_apWiData w) (w_aHdr w) (w_info w) (w_mapped w) (w_map w) (w_hdr w) (w_readLock w) (w_szPage w) n.

Definition hset_init (h : WalIndexHdr) (ver init : Z) (ck : Z * Z) : WalIndexHdr := mkHdr ver (h_unused h) (h_iChange h) init (h_bigEndCksum h) (h_szPage h) (h_mxFrame h) (h_nPage h) (h_aFrameCksum h) (h_aSalt h) ck.
Definition hset_mxFrame (h : WalIndexHdr) (n : Z) : WalIndexHdr := mkHdr (h_iVersion h) (h_unused h) (h_iChange h) (h_isInit h) (h_bigEndCksum h) (h_szPage h) n (h_nPage h) (h_aFrameCksum h) (h_aSalt h) (h_aCksum h).
Definition hset_szPage (h : WalIndexHdr) (n : Z) : WalIndexHdr := mkHdr (h_iVersion h) (h_unused h) (h_iChange h) (h_isInit h) (h_bigEndCksum h) n (h_mxFrame h) (h_nPage h) (h_aFrameCksum h) (h_aSalt h) (h_aCksum h).
Definition hset_nPage (h : WalIndexHdr) (n : Z) : WalIndexHdr := mkHdr (h_iVersion h) (h_unused h) (h_iChange h) (h_isInit h) (h_bigEndCksum h) (h_szPage h) (h_mxFrame h) n (h_aFrameCksum h) (h_aSalt h) (h_aCksum h).
Definition hset_iChange (h : WalIndexHdr) (n : Z) : WalIndexHdr := mkHdr (h_iVersion h) (h_unused h) n (h_isInit h) (h_bigEndCksum h) (h_szPage h) (h_mxFrame h) (h_nPage h) (h_aFrameCksum h) (h_aSalt h) (h_aCksum h).
Definition hset_cksum (h : WalIndexHdr) (c : Z * Z) : WalIndexHdr := mkHdr (h_iVersion h) (h_unused h) (h_iChange h) (h_isInit h) (h_bigEndCksum h) (h_szPage h) (h_mxFrame h) (h_nPage h) c (h_aSalt h) (h_aCksum h).
Definition hset_salt (h : WalIndexHdr) (s : list Z) : WalIndexHdr := mkHdr (h_iVersion h) (h_unused h) (h_iChange h) (h_isInit h) (h_bigEndCksum h) (h_szPage h) (h_mxFrame h) (h_nPage h) (h_aFrameCksum h) s (h_aCksum h).
Definition hset_bigEnd (h : WalIndexHdr) (b : Z) : WalIndexHdr := mkHdr (h_iVersion h) (h_unused h) (h_iChange h) (h_isInit h) b (h_szPage h) (h_mxFrame h) (h_nPage h) (h_aFrameCksum h) (h_aSalt h) (h_aCksum h).

Abbreviation mxFrame w := (h_mxFrame (w_hdr w)).

(** ** Checksums *)

(** A u32 in memory, on a little-endian machine. *)
Definition le32 (v : Z) : list Z := [u8 v; u8 (Z.shiftr v 8); u8 (Z.shiftr v 16); u8 (Z.shiftr v 24)].
Definition le16 (v : Z) : list Z := [u8 v; u8 (Z.shiftr v 8)].
Definition u32_at (b0 b1 b2 b3 : Z) : Z := b0 + 256 * b1 + 65536 * b2 + 16777216 * b3.

Definition BYTESWAP32 (x : Z) : Z :=
  u32 (u32 (Z.shiftl (Z.land x 0x000000FF) 24) + u32 (Z.shiftl (Z.land x 0x0000FF00) 8) + Z.shiftr (Z.land x 0x00FF0000) 8 + Z.shiftr (Z.land x 0xFF000000) 24).

Fixpoint cksum_loop (nativeCksum : bool) (a : list Z) (s1 s2 : Z) : option (Z * Z) :=
  match a with
  | [] => Some (s1, s2)
  | b0 :: b1 :: b2 :: b3 :: b4 :: b5 :: b6 :: b7 :: a =>
      let x0 := u32_at b0 b1 b2 b3 in
      let x1 := u32_at b4 b5 b6 b7 in
      let s1 := u32 (s1 + ((if nativeCksum then x0 else BYTESWAP32 x0) + s2)) in
      let s2 := u32 (s2 + ((if nativeCksum then x1 else BYTESWAP32 x1) + s1)) in
      cksum_loop nativeCksum a s1 s2
  | _ => None
  end.

Definition walChecksumBytes (nativeCksum : bool) (a : list Z) (nByte : Z) (aIn : option (Z * Z)) : option (Z * Z) :=
  let '(s1, s2) := default (0, 0) aIn in
  _ ← assert_ (8 <=? nByte);
  _ ← assert_ (Z.land nByte 7 =? 0);
  d ← get_bytes a 0 nByte;
  cksum_loop nativeCksum d s1 s2.

(** The bytes of the header before aCksum. *)
Definition hdr_bytes (h : WalIndexHdr) : list Z :=
  le32 (h_iVersion h) ++ le32 (h_unused h) ++ le32 (h_iChange h) ++ [h_isInit h; h_bigEndCksum h] ++ le16 (h_szPage h) ++ le32 (h_mxFrame h) ++ le32 (h_nPage h) ++
  le32 (h_aFrameCksum h).1 ++ le32 (h_aFrameCksum h).2 ++ h_aSalt h.

Definition walIndexWriteHdr (w : Wal) : option Wal :=
  let h := w_hdr w in
  let h := hset_init h WALINDEX_MAX_VERSION 1 (h_aCksum h) in
  ck ← walChecksumBytes true (hdr_bytes h) 40 None;
  let h := hset_init h WALINDEX_MAX_VERSION 1 ck in
  Some (set_aHdr (set_hdr w h) (h, h)).

(** *pChanged and the result, which is true for a problem *)
Definition walIndexTryHdr (w : Wal) (pChanged : bool) : option (bool * Wal * bool) :=
  _ ← assert_ (bool_decide (0 ∈ w_mapped w));
  let '(h1, h2) := w_aHdr w in
  if decide (h1 <> h2) then Some (true, w, pChanged)
  else if h_isInit h1 =? 0 then Some (true, w, pChanged)
  else
    ck ← walChecksumBytes true (hdr_bytes h1) 40 None;
    if negb (ck.1 =? (h_aCksum h1).1) || negb (ck.2 =? (h_aCksum h1).2) then Some (true, w, pChanged)
    else if decide (w_hdr w <> h1) then Some (false, set_wsz (set_hdr w h1) (Z.land (h_szPage h1) 0xfe00 + Z.shiftl (Z.land (h_szPage h1) 1) 16), true)
    else Some (false, w, pChanged).

(** ** The pages of the wal-index *)

(** How many page numbers page [iHash] has room for. *)
Definition wi_size (iHash : Z) : Z := if iHash =? 0 then HASHTABLE_NPAGE_ONE else HASHTABLE_NPAGE.

Definition wi_zero (iHash : Z) : WiPage := mkWi (replicate (Z.to_nat (wi_size iHash)) 0) (replicate (Z.to_nat HASHTABLE_NSLOT) 0).

Definition walIndexPage (w : Wal) (iPage : Z) : Z * Wal :=
  if decide (iPage ∈ w_mapped w) then (SQLITE_OK, w)
  else
    let '(rc, rest) := match w_map w with [] => (SQLITE_OK, []) | rc :: rest => (rc, rest) end in
    let m := match w_apWiData w !! iPage with Some _ => w_apWiData w | None => <[iPage := wi_zero iPage]> (w_apWiData w) end in
    if rc =? SQLITE_OK then (rc, set_maps (set_wi w m) ({[iPage]} ∪ w_mapped w) rest) else (rc, set_maps w (w_mapped w) rest).

(** aHash and aPgno are those of page [iHash]; the last component is *piZero. *)
Definition walHashGet (w : Wal) (iHash : Z) : option (Z * Wal * Z) :=
  let '(rc, w) := walIndexPage w iHash in
  _ ← assert_ ((rc =? SQLITE_OK) || (0 <? iHash));
  let iZero := if iHash =? 0 then 0 else u32 (HASHTABLE_NPAGE_ONE + (iHash - 1) * HASHTABLE_NPAGE) in
  Some (rc, w, iZero).

Definition walHash (iPage : Z) : option Z := _ ← assert_ (0 <? iPage); Some (Z.land (u32 (iPage * HASHTABLE_HASH_1)) (HASHTABLE_NSLOT - 1)).
Definition walNextHash (iPriorHash : Z) : Z := Z.land (iPriorHash + 1) (HASHTABLE_NSLOT - 1).

Definition walFramePage (iFrame : Z) : option Z :=
  let iHash := u32 (iFrame + HASHTABLE_NPAGE - HASHTABLE_NPAGE_ONE - 1) / HASHTABLE_NPAGE in
  _ ← assert_ (((iHash =? 0) || (HASHTABLE_NPAGE_ONE <? iFrame))
      && ((1 <=? iHash) || (iFrame <=? HASHTABLE_NPAGE_ONE))
      && ((iHash <=? 1) || (HASHTABLE_NPAGE_ONE + HASHTABLE_NPAGE <? iFrame))
      && ((2 <=? iHash) || (iFrame <=? HASHTABLE_NPAGE_ONE + HASHTABLE_NPAGE))
      && ((iHash <=? 2) || (HASHTABLE_NPAGE_ONE + 2 * HASHTABLE_NPAGE <? iFrame)));
  Some iHash.

Definition walFramePgno (w : Wal) (iFrame : Z) : option Z :=
  iHash ← walFramePage iFrame;
  _ ← assert_ (bool_decide (iHash ∈ w_mapped w));
  p ← w_apWiData w !! iHash;
  if iHash =? 0 then aget (wi_aPgno p) (iFrame - 1) else aget (wi_aPgno p) (u32 (iFrame - 1 - HASHTABLE_NPAGE_ONE) mod HASHTABLE_NPAGE).

(** aPgno[i] of walHashGet, whose first entry has index 1. *)
Definition pgno_get (p : WiPage) (i : Z) : option Z := aget (wi_aPgno p) (i - 1).

Definition walCleanupHash (w : Wal) : option Wal :=
  if mxFrame w =? 0 then Some w
  else
    iHash ← walFramePage (mxFrame w);
    _ ← assert_ (bool_decide (iHash ∈ w_mapped w));
    '(_, w, iZero) ← walHashGet w iHash;
    p ← w_apWiData w !! iHash;
    let iLimit := mxFrame w - iZero in
    _ ← assert_ (0 <? iLimit);
    let aHash := map (fun v => if iLimit <? v then 0 else v) (wi_aHash p) in
    aPgno ← zero_bytes (wi_aPgno p) iLimit (Z.of_nat (length (wi_aPgno p)) - iLimit);
    Some (set_wi w (<[iHash := mkWi aPgno aHash]> (w_apWiData w))).

(** The search for an unused slot; [None] inside for too many collisions *)
Fixpoint append_probe (fuel : nat) (aHash : list Z) (iKey nCollide : Z) : option (option Z) :=
  match fuel with
  | O => None
  | S f =>
      v ← aget aHash iKey;
      if v =? 0 then Some (Some iKey)
      else if nCollide =? 0 then Some None
      else append_probe f aHash (walNextHash iKey) (nCollide - 1)
  end.

(** Entry [idx] is made free: the table is zeroed for its first entry, and what a writer
    that exited left is removed. *)
Definition append_prepare (w : Wal) (iHash idx : Z) : option Wal :=
  let w := if idx =? 1 then set_wi w (<[iHash := wi_zero iHash]> (w_apWiData w)) else w in
  p ← w_apWiData w !! iHash;
  v ← pgno_get p idx;
  if negb (v =? 0) then w ← walCleanupHash w; p ← w_apWiData w !! iHash; v ← pgno_get p idx; _ ← assert_ (v =? 0); Some w
  else Some w.

Definition walIndexAppend (w : Wal) (iFrame iPage : Z) : option (Z * Wal) :=
  iHash ← walFramePage iFrame;
  '(rc, w, iZero) ← walHashGet w iHash;
  if negb (rc =? SQLITE_OK) then Some (rc, w)
  else
    let idx := iFrame - iZero in
    _ ← assert_ (idx <=? HASHTABLE_NSLOT / 2 + 1);
    w ← append_prepare w iHash idx;
    p ← w_apWiData w !! iHash;
    k ← walHash iPage;
    r ← append_probe (S (Z.to_nat HASHTABLE_NSLOT)) (wi_aHash p) k idx;
    match r with
    | None => Some (SQLITE_CORRUPT, w)
    | Some iKey =>
        aPgno ← aset (wi_aPgno p) (idx - 1) iPage;
        aHash ← aset (wi_aHash p) iKey (u16 idx);
        Some (SQLITE_OK, set_wi w (<[iHash := mkWi aPgno aHash]> (w_apWiData w)))
    end.

(** ** Reading *)

(** The search of one hash table; [None] inside for too many collisions *)
Fixpoint find_probe (fuel : nat) (p : WiPage) (pgno iZero iLast iKey nCollide iRead : Z) : option (option Z) :=
  match fuel with
  | O => None
  | S f =>
      v ← aget (wi_aHash p) iKey;
      if v =? 0 then Some (Some iRead)
      else
        let iFrame := u32 (v + iZero) in
        iRead ← (if iFrame <=? iLast then q ← pgno_get p v; Some (if q =? pgno then iFrame else iRead) else Some iRead);
        if nCollide =? 0 then Some None
        else find_probe f p pgno iZero iLast (walNextHash iKey) (nCollide - 1) iRead
  end.

(** The loop over the hash tables, from the last. *)
Fixpoint find_tables (fuel : nat) (w : Wal) (pgno iLast iHash : Z) : option (Z * Wal * Z) :=
  match fuel with
  | O => None
  | S f =>
      if 0 <=? iHash then
        '(rc, w, iZero) ← walHashGet w iHash;
        if negb (rc =? SQLITE_OK) then Some (rc, w, 0)
        else
          p ← w_apWiData w !! iHash;
          k ← walHash pgno;
          r ← find_probe (S (S (Z.to_nat HASHTABLE_NSLOT))) p pgno iZero iLast k HASHTABLE_NSLOT 0;
          match r with
          | None => Some (SQLITE_CORRUPT, w, 0)
          | Some iRead => if iRead =? 0 then find_tables f w pgno iLast (iHash - 1) else Some (SQLITE_OK, w, iRead)
          end
      else Some (SQLITE_OK, w, 0)
  end.

(** The last component is *piRead. *)
Definition sqlite3WalFindFrame (w : Wal) (pgno : Z) : option (Z * Wal * Z) :=
  let iLast := mxFrame w in
  _ ← assert_ (0 <=? w_readLock w);
  if (iLast =? 0) || (w_readLock w =? 0) then Some (SQLITE_OK, w, 0)
  else iHash ← walFramePage iLast; find_tables (S (S (Z.to_nat iHash))) w pgno iLast iHash.

(** ** Writing: the part of sqlite3WalFrames that concerns the index *)

Fixpoint append_loop (w : Wal) (iFrame : Z) (pgnos : list Z) : option (Z * Wal * Z) :=
  match pgnos with
  | [] => Some (SQLITE_OK, w, iFrame)
  | pgno :: pgnos =>
      let iFrame := u32 (iFrame + 1) in
      '(rc, w) ← walIndexAppend w iFrame pgno;
      if rc =? SQLITE_OK then append_loop w iFrame pgnos else Some (rc, w, iFrame)
  end.

(** [pgnos] are the page numbers of pList, [nExtra] the copies of the last. *)
Definition walFrames_index (w : Wal) (szPage : Z) (pgnos : list Z) (nExtra : nat) (nTruncate : Z) (isCommit : bool) : option (Z * Wal) :=
  _ ← assert_ (match pgnos with [] => false | _ => true end);
  '(rc, w, iFrame) ← append_loop w (mxFrame w) (pgnos ++ replicate nExtra (List.last pgnos 0));
  if negb (rc =? SQLITE_OK) then Some (rc, w)
  else
    let w := set_hdr w (hset_szPage (w_hdr w) (u16 (Z.lor (Z.land szPage 0xff00) (Z.shiftr szPage 16)))) in
    let w := set_hdr w (hset_mxFrame (w_hdr w) iFrame) in
    if isCommit then
      let w := set_hdr w (hset_nPage (hset_iChange (w_hdr w) (u32 (h_iChange (w_hdr w) + 1))) nTruncate) in
      w ← walIndexWriteHdr w; Some (SQLITE_OK, w)
    else Some (SQLITE_OK, w).

(** The calls of xUndo are the page numbers of the second component. *)
Fixpoint undo_loop (fuel : nat) (w : Wal) (iFrame iMax : Z) : option (list Z) :=
  match fuel with
  | O => None
  | S f =>
      if iFrame <=? iMax then p ← walFramePgno w iFrame; _ ← assert_ (negb (p =? 1)); l ← undo_loop f w (iFrame + 1) iMax; Some (p :: l)
      else Some []
  end.

Definition sqlite3WalUndo (w : Wal) : option (Wal * list Z) :=
  let iMax := mxFrame w in
  let w := set_hdr w (w_aHdr w).1 in
  l ← undo_loop (S (Z.to_nat iMax)) w (mxFrame w + 1) iMax;
  w ← (if negb (iMax =? mxFrame w) then walCleanupHash w else Some w);
  Some (w, l).

Definition sqlite3WalSavepoint (w : Wal) : Z * (Z * Z) * Z := (mxFrame w, h_aFrameCksum (w_hdr w), w_nCkpt w).

Definition sqlite3WalSavepointUndo (w : Wal) (aWalData : Z * (Z * Z) * Z) : option Wal :=
  let '(n, ck, nCkpt) := aWalData in
  _ ← assert_ (negb (nCkpt =? w_nCkpt w) || (n <=? mxFrame w));
  let n := if negb (nCkpt =? w_nCkpt w) then 0 else n in
  if n <? mxFrame w then walCleanupHash (set_hdr w (hset_cksum (hset_mxFrame (w_hdr w) n) ck)) else Some w.

(** ** Restarting the log: what walRestartLog does once it holds the locks of all
    readers; [salt1] are four random bytes *)

Definition walRestartHdr (w : Wal) (salt1 : list Z) : option Wal :=
  let w := set_nCkpt w (u32 (w_nCkpt w + 1)) in
  let w := set_hdr w (hset_mxFrame (w_hdr w) 0) in
  s ← sqlite3Get4byte (h_aSalt (w_hdr w));
  let w := set_hdr w (hset_salt (w_hdr w) (sqlite3Put4byte (u32 (1 + s)) ++ salt1)) in
  w ← walIndexWriteHdr w;
  mark0 ← aget (ci_aReadMark (w_info w)) 0;
  _ ← assert_ (mark0 =? 0);
  Some (set_info w (mkInfo 0 ([mark0; 0] ++ replicate (Z.to_nat (WAL_NREADER - 2)) READMARK_NOT_USED))).
