(* ===== verification/WalHash.v ===== *)
(** * WalHash: the hash tables of the wal-index (wal.c)

    An open-addressing table of 8192 slots over at most 4096 page numbers:
    insertion finds a free slot, trimming removes the latest entries, and a search
    finds the latest entry within a limit. *)
From S2P Require Import Prelude Varint Record Page PageLayout Wal.

Abbreviation N := HASHTABLE_NSLOT.

(** ** Probing *)

Definition probe (k d : Z) : Z := (k + d) mod N.
Definition hash (p : Z) : Z := (p * HASHTABLE_HASH_1) mod N.

Lemma probe_range k d : 0 <= probe k d < N.
Proof. apply Z.mod_pos_bound. done. Qed.

Lemma probe_0 k : 0 <= k < N -> probe k 0 = k.
Proof. intros Hk. unfold probe. rewrite Z.add_0_r. by apply Z.mod_small. Qed.

Lemma probe_next k d : walNextHash (probe k d) = probe k (d + 1).
Proof.
  unfold walNextHash, probe. change (N - 1) with (Z.ones 13). rewrite Z.land_ones by lia. change (2 ^ 13) with N. rewrite Z.add_mod_idemp_l by done. f_equal. lia.
Qed.

Lemma probe_inj k d e : 0 <= d < N -> 0 <= e < N -> probe k d = probe k e -> d = e.
Proof.
  unfold probe. intros Hd He H. change N with 8192 in *. Z.to_euclidean_division_equations. lia.
Qed.

Lemma walHash_spec p : 0 < p < 2 ^ 32 -> walHash p = Some (hash p) /\ 0 <= hash p < N.
Proof.
  intros Hp. split; [|apply Z.mod_pos_bound; done]. unfold walHash. rewrite (proj2 (Z.ltb_lt 0 p)) by lia. cbn [assert_ mbind option_bind]. f_equal. unfold hash. change (N - 1) with (Z.ones 13).
  rewrite Z.land_ones by lia. change (2 ^ 13) with N. unfold u32. apply Z.mod_mod_divide. by exists 524288.
Qed.

(** ** Tables *)

(** The table [h] indexes [pages], the first of which is entry 1; each entry can be
    reached over older ones. *)
Record tab_ok (pages h : list Z) : Prop := {
  t_len : Z.of_nat (length h) = N;
  t_val : forall s v, aget h s = Some v -> v = 0 \/ 1 <= v <= Z.of_nat (length pages);
  t_inj : forall s s' v, aget h s = Some v -> aget h s' = Some v -> v <> 0 -> s = s';
  t_reach : forall j p, pages !! j = Some p -> exists d, 0 <= d < N /\ aget h (probe (hash p) d) = Some (Z.of_nat j + 1) /\
    forall e, 0 <= e < d -> exists v, aget h (probe (hash p) e) = Some v /\ 0 < v < Z.of_nat j + 1 }.

Lemma tab_empty : tab_ok [] (replicate (Z.to_nat N) 0).
Proof.
  split.
  - rewrite length_replicate. done.
  - intros s v Hs. apply aget_replicate_inv in Hs. by left.
  - intros s s' v Hs _ Hv. apply aget_replicate_inv in Hs. lia.
  - done.
Qed.

(** Consecutive used slots hold different entries. *)
Lemma tab_run_bound pages h k d : tab_ok pages h -> 0 <= d <= N -> (forall e, 0 <= e < d -> aget h (probe k e) <> Some 0) -> d <= Z.of_nat (length pages).
Proof.
  intros HT Hd Hrun. set (val e := default 0 (aget h (probe k e))).
  assert (forall e, 0 <= e < d -> aget h (probe k e) = Some (val e) /\ 1 <= val e <= Z.of_nat (length pages)) as Hval.
  { intros e He. unfold val. destruct (aget_is_Some h (probe k e)) as [v Hv]; [pose proof (probe_range k e); pose proof (t_len _ _ HT); lia|]. rewrite Hv. split; [done|].
    destruct (t_val _ _ HT _ _ Hv) as [->|]; [by destruct (Hrun e He)|done]. }
  assert (NoDup (val <$> seqZ 0 d)) as Hnd.
  { apply NoDup_fmap_2_strong; [|apply NoDup_seqZ]. intros x y Hx Hy Hxy. apply elem_of_seqZ in Hx, Hy. destruct (Hval x ltac:(lia)) as [Hx' ?]. destruct (Hval y ltac:(lia)) as [Hy' _]. rewrite Hxy in Hx'.
    apply (probe_inj k); [lia|lia|]. eapply (t_inj _ _ HT); [exact Hx'|exact Hy'|lia]. }
  assert ((val <$> seqZ 0 d) ⊆+ seqZ 1 (Z.of_nat (length pages))) as Hsub.
  { apply NoDup_submseteq; [done|]. intros x Hx. apply list_elem_of_fmap_1 in Hx as (e & -> & He). apply elem_of_seqZ in He. apply elem_of_seqZ. destruct (Hval e ltac:(lia)). lia. }
  apply submseteq_length in Hsub. rewrite length_fmap, !length_seqZ in Hsub. lia.
Qed.

Lemma append_probe_spec pages h k c : tab_ok pages h -> 0 <= k < N -> Z.of_nat (length pages) < N -> Z.of_nat (length pages) <= c ->
  forall fuel d, 0 <= d -> (forall e, 0 <= e < d -> aget h (probe k e) <> Some 0) -> Z.of_nat (length pages) < Z.of_nat fuel + d ->
  exists d', 0 <= d' < N /\ append_probe fuel h (probe k d) (c - d) = Some (Some (probe k d')) /\ aget h (probe k d') = Some 0 /\ forall e, 0 <= e < d' -> aget h (probe k e) <> Some 0.
Proof.
  intros HT Hk Hm Hc. assert (forall d, 0 <= d -> (forall e, 0 <= e < d -> aget h (probe k e) <> Some 0) -> d <= Z.of_nat (length pages)) as Hbound.
  { intros d Hd Hrun. destruct (decide (d <= N)); [by apply (tab_run_bound pages h k)|]. enough (N <= Z.of_nat (length pages)) by lia. apply (tab_run_bound pages h k N HT); [done|]. intros e He. apply Hrun. lia. }
  induction fuel as [|fuel IH]; intros d Hd Hrun Hfuel; pose proof (Hbound d Hd Hrun); [lia|]. cbn [append_probe].
  destruct (aget_is_Some h (probe k d)) as [v Hv]; [pose proof (probe_range k d); pose proof (t_len _ _ HT); lia|]. rewrite Hv. cbn [mbind option_bind]. destruct (Z.eqb_spec v 0) as [->|Hv0].
  - exists d. split_and!; [lia|lia|done|done|done].
  - assert (forall e, 0 <= e < d + 1 -> aget h (probe k e) <> Some 0) as Hrun'. { intros e He. destruct (decide (e = d)) as [->|]; [congruence|apply Hrun; lia]. }
    pose proof (Hbound (d + 1) ltac:(lia) Hrun'). rewrite (proj2 (Z.eqb_neq (c - d) 0)) by lia. rewrite probe_next. replace (c - d - 1) with (c - (d + 1)) by lia. apply IH; [lia|done|lia].
Qed.

(** A new entry in the slot the probe found. *)
Lemma tab_insert pages h p d h' : tab_ok pages h -> 0 <= d < N -> aget h (probe (hash p) d) = Some 0 -> (forall e, 0 <= e < d -> aget h (probe (hash p) e) <> Some 0) ->
  aset h (probe (hash p) d) (Z.of_nat (length pages) + 1) = Some h' -> tab_ok (pages ++ [p]) h'.
Proof.
  intros HT Hd Hz Hrun Hset. set (s0 := probe (hash p) d) in *. set (m := Z.of_nat (length pages)) in *. pose proof (length_aset _ _ _ _ Hset) as Hl.
  assert (forall s v, s <> s0 -> aget h' s = Some v <-> aget h s = Some v) as Hne by (intros s v Hs; by rewrite (aget_aset_ne _ _ _ _ _ Hset (not_eq_sym Hs))). pose proof (aget_aset_eq _ _ _ _ Hset) as Heq.
  assert (forall s v, aget h s = Some v -> v <> 0 -> aget h' s = Some v) as Hkeep by (intros s v Hs Hv; apply Hne; [intros ->; congruence|done]). split.
  - rewrite Hl. apply HT.
  - intros s v Hs. rewrite length_app. cbn [length]. destruct (decide (s = s0)) as [->|Hs0]; [rewrite Heq in Hs; injection Hs as <-; lia|]. apply Hne in Hs; [|done]. destruct (t_val _ _ HT _ _ Hs); lia.
  - intros s s' v Hs Hs' Hv. destruct (decide (s = s0)) as [->|H0], (decide (s' = s0)) as [->|H0']; [done|..].
    + rewrite Heq in Hs. injection Hs as <-. apply Hne in Hs'; [|done]. destruct (t_val _ _ HT _ _ Hs'); lia.
    + rewrite Heq in Hs'. injection Hs' as <-. apply Hne in Hs; [|done]. destruct (t_val _ _ HT _ _ Hs); lia.
    + apply Hne in Hs, Hs'; [|done..]. by eapply (t_inj _ _ HT).
  - intros j q Hj. apply lookup_app_Some in Hj as [Hj|[Hge Hj]].
    + destruct (t_reach _ _ HT j q Hj) as (dj & Hdj & Hat & Hrunj). exists dj. split; [done|]. split; [apply Hkeep; [done|lia]|]. intros e He. destruct (Hrunj e He) as (v & Hv & Hvr). exists v. split; [apply Hkeep; [done|lia]|done].
    + apply list_lookup_singleton_Some in Hj as [Hj <-]. assert (j = length pages) as -> by lia. exists d. split; [done|]. split; [exact Heq|]. intros e He.
      destruct (aget_is_Some h (probe (hash p) e)) as [v Hv]; [pose proof (probe_range (hash p) e); pose proof (t_len _ _ HT); lia|]. exists v. destruct (t_val _ _ HT _ _ Hv) as [->|Hvr]; [by destruct (Hrun e He)|].
      split; [apply Hkeep; [done|lia]|lia].
Qed.

Lemma aget_tab_map {A B} (f : A -> B) (l : list A) i : aget (map f l) i = f <$> aget l i.
Proof. unfold aget. case_decide; [apply list_lookup_fmap|done]. Qed.

(** The latest entries are removed. *)
Lemma tab_trim pages h n : tab_ok pages h -> tab_ok (take n pages) (map (fun v => if Z.of_nat n <? v then 0 else v) h).
Proof.
  intros HT. assert (forall s v, aget (map (fun v => if Z.of_nat n <? v then 0 else v) h) s = Some v -> v <> 0 -> aget h s = Some v /\ v <= Z.of_nat n) as Hinv.
  { intros s v Hs Hv. rewrite aget_tab_map in Hs. destruct (aget h s) as [u|]; [|done]. cbn in Hs. injection Hs as <-. destruct (Z.ltb_spec (Z.of_nat n) u); [done|]. done. }
  assert (forall s v, aget h s = Some v -> v <= Z.of_nat n -> aget (map (fun v => if Z.of_nat n <? v then 0 else v) h) s = Some v) as Hkeep.
  { intros s v Hs Hv. rewrite aget_tab_map, Hs. cbn. rewrite (proj2 (Z.ltb_ge _ v)) by lia. done. }
  split.
  - rewrite length_map. apply HT.
  - intros s v Hs. destruct (decide (v = 0)) as [|Hv]; [by left|right]. destruct (Hinv s v Hs Hv) as [Hs' Hvn]. destruct (t_val _ _ HT _ _ Hs'); [done|]. rewrite length_take. lia.
  - intros s s' v Hs Hs' Hv. destruct (Hinv _ _ Hs Hv), (Hinv _ _ Hs' Hv). by eapply (t_inj _ _ HT).
  - intros j p Hj. apply lookup_take_Some in Hj as [Hj Hjn]. destruct (t_reach _ _ HT j p Hj) as (d & Hd & Hat & Hrun). exists d. split; [done|]. split; [apply Hkeep; [done|lia]|].
    intros e He. destruct (Hrun e He) as (v & Hv & Hvr). exists v. split; [apply Hkeep; [done|lia]|done].
Qed.

(** ** Searching *)

(** [r] is the latest entry for [pg] up to [lim], 0 if there is none. *)
Definition is_last (pages : list Z) (pg lim r : Z) : Prop :=
  (forall j, pages !! j = Some pg -> Z.of_nat j + 1 <= lim -> Z.of_nat j + 1 <= r) /\
  (r = 0 \/ r <= lim /\ exists j, pages !! j = Some pg /\ r = Z.of_nat j + 1).

Section Find.
Context {pages : list Z} {p : WiPage} {pg iZero iLast : Z} (HT : tab_ok pages (wi_aHash p)).
Context (Hpg : forall j q, pages !! j = Some q -> pgno_get p (Z.of_nat j + 1) = Some q).
Context (Hroom : Z.of_nat (length pages) < N) (HZ : 0 <= iZero) (HZ32 : iZero + N < 2 ^ 32).

(** The result so far, after [d] slots. *)
Definition seen (d r : Z) : Prop :=
  (forall e v, 0 <= e < d -> aget (wi_aHash p) (probe (hash pg) e) = Some v -> v + iZero <= iLast -> pgno_get p v = Some pg -> v <= r) /\
  (r = 0 \/ r + iZero <= iLast /\ exists j, pages !! j = Some pg /\ r = Z.of_nat j + 1).

Lemma seen_step d r v : 0 <= d < N -> (forall e, 0 <= e < d -> aget (wi_aHash p) (probe (hash pg) e) <> Some 0) -> seen d r -> aget (wi_aHash p) (probe (hash pg) d) = Some v -> v <> 0 ->
  exists q, pgno_get p v = Some q /\ seen (d + 1) (if (v + iZero <=? iLast) && (q =? pg) then v else r).
Proof using HT Hpg.
  intros Hd Hrun [Hs1 Hs2] Hv Hv0. destruct (t_val _ _ HT _ _ Hv) as [|Hvr]; [done|]. destruct (lookup_lt_is_Some_2 pages (Z.to_nat (v - 1))) as [q Hq]; [lia|]. pose proof (Hpg _ _ Hq) as Hpq. replace (Z.of_nat (Z.to_nat (v - 1)) + 1) with v in Hpq by lia.
  exists q. split; [done|]. destruct (Z.leb_spec (v + iZero) iLast) as [Hle|Hgt]; cbn [andb]; [destruct (Z.eqb_spec q pg) as [->|Hne]|].
  - split; [|right; split; [lia|]; exists (Z.to_nat (v - 1)); split; [done|lia]]. intros e u He Hu _ _. destruct (decide (e = d)) as [->|]; [rewrite Hv in Hu; injection Hu as <-; lia|].
    destruct (t_reach _ _ HT _ _ Hq) as (dv & Hdv & Hat & Hbefore). replace (Z.of_nat (Z.to_nat (v - 1)) + 1) with v in * by lia.
    assert (dv = d) as -> by (apply (probe_inj (hash pg)); [done|done|]; by eapply (t_inj _ _ HT)). destruct (Hbefore e ltac:(lia)) as (u' & Hu' & Hlt). rewrite Hu in Hu'. injection Hu' as <-. lia.
  - split; [|done]. intros e u He Hu Hul Hup. destruct (decide (e = d)) as [->|]; [congruence|]. apply (Hs1 e); [lia|done..].
  - split; [|done]. intros e u He Hu Hul Hup. destruct (decide (e = d)) as [->|]; [assert (u = v) by congruence; lia|]. apply (Hs1 e); [lia|done..].
Qed.

Lemma find_probe_spec : forall fuel d r c, 0 <= d -> (forall e, 0 <= e < d -> aget (wi_aHash p) (probe (hash pg) e) <> Some 0) -> seen d r -> Z.of_nat (length pages) < Z.of_nat fuel + d -> Z.of_nat (length pages) - d <= c ->
  exists r', find_probe fuel p pg iZero iLast (probe (hash pg) d) c (if r =? 0 then 0 else r + iZero) = Some (Some (if r' =? 0 then 0 else r' + iZero)) /\ is_last pages pg (iLast - iZero) r'.
Proof using HT Hpg Hroom HZ HZ32.
  induction fuel as [|fuel IH]; intros d r c Hd Hrun Hseen Hfuel Hc.
  { enough (d <= Z.of_nat (length pages)) by lia. destruct (decide (d <= N)); [by apply (tab_run_bound _ _ (hash pg) d HT)|]. enough (N <= Z.of_nat (length pages)) by lia. apply (tab_run_bound _ _ (hash pg) N HT); [done|]. intros e He. apply Hrun. lia. }
  cbn [find_probe]. destruct (aget_is_Some (wi_aHash p) (probe (hash pg) d)) as [v Hv]; [pose proof (probe_range (hash pg) d); pose proof (t_len _ _ HT); lia|]. rewrite Hv. cbn [mbind option_bind]. destruct (Z.eqb_spec v 0) as [->|Hv0].
  - exists r. split; [done|]. destruct Hseen as [Hs1 Hs2]. split; [|destruct Hs2 as [|[? ?]]; [by left|right; split; [lia|done]]]. intros j Hj Hjl.
    destruct (t_reach _ _ HT _ _ Hj) as (dj & Hdj & Hat & Hbefore). destruct (decide (dj < d)) as [Hlt|Hge]; [apply (Hs1 dj); [lia|done|lia|by apply Hpg]|]. exfalso.
    destruct (decide (dj = d)) as [->|]; [rewrite Hv in Hat; injection Hat; lia|]. destruct (Hbefore d ltac:(lia)) as (v & Hv' & ?). rewrite Hv in Hv'. injection Hv' as <-. lia.
  - assert (forall e, 0 <= e < d + 1 -> aget (wi_aHash p) (probe (hash pg) e) <> Some 0) as Hrun'. { intros e He. destruct (decide (e = d)) as [->|]; [congruence|apply Hrun; lia]. }
    assert (d + 1 <= Z.of_nat (length pages)) as Hdl. { destruct (decide (d + 1 <= N)); [by apply (tab_run_bound _ _ (hash pg) (d + 1) HT); [lia|]|]. enough (N <= Z.of_nat (length pages)) by lia. apply (tab_run_bound _ _ (hash pg) N HT); [done|]. intros e He. apply Hrun'. lia. }
    destruct (seen_step d r v ltac:(lia) Hrun Hseen Hv Hv0) as (q & Hq & Hseen'). destruct (t_val _ _ HT _ _ Hv) as [|Hvr]; [done|]. rewrite u32_id by lia. rewrite Hq. cbn [mbind option_bind].
    replace (if v + iZero <=? iLast then Some (if q =? pg then v + iZero else if r =? 0 then 0 else r + iZero) else Some (if r =? 0 then 0 else r + iZero))
      with (Some (let r := if (v + iZero <=? iLast) && (q =? pg) then v else r in if r =? 0 then 0 else r + iZero)).
    2: { destruct (v + iZero <=? iLast); cbn [andb]; [|done]. destruct (q =? pg); [|done]. by rewrite (proj2 (Z.eqb_neq v 0)) by lia. }
    cbn [mbind option_bind]. rewrite (proj2 (Z.eqb_neq c 0)) by lia. rewrite probe_next. apply IH; [lia|done|done|lia|lia].
Qed.
End Find.
