(* ===== verification/WalIndex.v ===== *)
(** * WalIndex: the wal-index is the sequence of the frames (wal.c)

    The shared memory represents the list of the page numbers of the frames in
    the log, committed or not.  Appending, rolling back and searching act on that
    list. *)
From S2P Require Import Prelude Varint Record Page PageLayout Wal WalHash.

(** ** Segments: the frames of one page of the wal-index *)

(** The frames of page [k] are those after [izero k]. *)
Definition izero (k : Z) : Z := if k =? 0 then 0 else HASHTABLE_NPAGE_ONE + (k - 1) * HASHTABLE_NPAGE.

Lemma npage_one : HASHTABLE_NPAGE_ONE = 4062 /\ HASHTABLE_NPAGE = 4096 /\ N = 8192.
Proof. done. Qed.

Lemma izero_next k : 0 <= k -> izero (k + 1) = izero k + wi_size k.
Proof. destruct npage_one as (H1 & H2 & _). unfold izero, wi_size. rewrite H1, H2. intros Hk. destruct (Z.eqb_spec (k + 1) 0), (Z.eqb_spec k 0); subst; lia. Qed.

Lemma izero_mono k k' : 0 <= k <= k' -> izero k <= izero k'.
Proof. destruct npage_one as (H1 & H2 & _). unfold izero. rewrite H1, H2. intros Hk. destruct (Z.eqb_spec k 0), (Z.eqb_spec k' 0); lia. Qed.

Lemma wi_size_range k : 4062 <= wi_size k <= 4096.
Proof. destruct npage_one as (H1 & H2 & _). unfold wi_size. rewrite H1, H2. destruct (k =? 0); lia. Qed.

Lemma walFramePage_spec f : 0 < f < 2 ^ 31 -> exists k, walFramePage f = Some k /\ 0 <= k /\ izero k < f <= izero (k + 1) /\ k <= f.
Proof.
  intros Hf. destruct npage_one as (H1 & H2 & _). unfold walFramePage. rewrite H1, H2. change (f + 4096 - 4062 - 1) with (f + 4096 - 4062 - 1). rewrite u32_id by lia. set (k := (f + 4096 - 4062 - 1) / 4096).
  assert (4096 * k <= f + 33 < 4096 * k + 4096) as Hk by (unfold k; Z.to_euclidean_division_equations; lia). exists k. clearbody k. split.
  - match goal with |- context [assert_ ?b] => replace b with true by lia end. done.
  - unfold izero. rewrite H1, H2. destruct (Z.eqb_spec k 0), (Z.eqb_spec (k + 1) 0); lia.
Qed.

Lemma walHashGet_zero k : 0 <= k < 2 ^ 19 -> (if k =? 0 then 0 else u32 (HASHTABLE_NPAGE_ONE + (k - 1) * HASHTABLE_NPAGE)) = izero k /\ 0 <= izero k < 2 ^ 32 - 2 * N.
Proof.
  destruct npage_one as (H1 & H2 & H3). unfold izero. rewrite H1, H2, H3. intros Hk. destruct (Z.eqb_spec k 0); [lia|]. rewrite u32_id by lia. lia.
Qed.

Definition slice (k : Z) (L : list Z) : list Z := take (Z.to_nat (wi_size k)) (drop (Z.to_nat (izero k)) L).

(** ** The invariant *)

Definition wipage_ok (k : Z) (pgs : list Z) (p : WiPage) : Prop :=
  Z.of_nat (length (wi_aPgno p)) = wi_size k /\ (exists n, wi_aPgno p = pgs ++ replicate n 0) /\ tab_ok pgs (wi_aHash p).

Definition pgno_ok (p : Z) : Prop := 0 < p < 2 ^ 32.

(** The shared memory [m] represents the frames [L]. *)
Record wi_ok (m : gmap Z WiPage) (L : list Z) : Prop := {
  wo_pages : Forall pgno_ok L;
  wo_len : Z.of_nat (length L) < 2 ^ 30;
  wo_seg : forall k, 0 <= k -> izero k < Z.of_nat (length L) -> exists p, m !! k = Some p /\ wipage_ok k (slice k L) p }.

Lemma izero_nonneg k : 0 <= k -> 0 <= izero k.
Proof. intros Hk. pose proof (izero_mono 0 k ltac:(lia)) as H. change (izero 0) with 0 in H. lia. Qed.

Lemma slice_lookup k L j : 0 <= k -> Z.of_nat j < wi_size k -> slice k L !! j = L !! (Z.to_nat (izero k) + j)%nat.
Proof. intros Hk Hj. unfold slice. rewrite lookup_take_lt by lia. apply lookup_drop. Qed.

Lemma slice_length k L : 0 <= k -> Z.of_nat (length (slice k L)) = Z.max 0 (Z.min (wi_size k) (Z.of_nat (length L) - izero k)).
Proof. intros Hk. pose proof (wi_size_range k). pose proof (izero_nonneg k Hk). unfold slice. rewrite length_take, length_drop. lia. Qed.

(** Frames up to [n] are kept. *)
Lemma slice_prefix k L L' n : 0 <= k -> izero (k + 1) <= Z.of_nat n -> take n L' = take n L -> slice k L' = slice k L.
Proof.
  intros Hk Hn Ht. pose proof (wi_size_range k). pose proof (izero_nonneg k Hk). rewrite izero_next in Hn by done. unfold slice. rewrite !take_drop_commute.
  replace (Z.to_nat (izero k) + Z.to_nat (wi_size k))%nat with (min (Z.to_nat (izero k) + Z.to_nat (wi_size k)) n) by lia. rewrite <- !take_take. by rewrite Ht.
Qed.

(** The last segment when the frames after [n] are replaced by [x]. *)
Lemma slice_last k L n x : 0 <= k -> izero k <= Z.of_nat n < izero (k + 1) -> (n <= length L)%nat ->
  slice k (take n L ++ [x]) = take (n - Z.to_nat (izero k)) (slice k L) ++ [x].
Proof.
  intros Hk Hn Hl. pose proof (wi_size_range k). pose proof (izero_nonneg k Hk). rewrite izero_next in Hn by done. unfold slice. rewrite drop_app_le by (rewrite length_take; lia).
  rewrite take_app_ge by (rewrite length_drop, length_take; lia). rewrite length_drop, length_take, take_take. rewrite (skipn_firstn_comm (Z.to_nat (izero k)) n L : drop _ (take _ _) = _). f_equal; [f_equal; lia|].
  apply take_ge. cbn [length]. lia.
Qed.

Lemma slice_take k L n : 0 <= k -> slice k (take n L) = take (n - Z.to_nat (izero k)) (slice k L).
Proof. intros Hk. unfold slice. rewrite (skipn_firstn_comm (Z.to_nat (izero k)) n L : drop _ (take _ _) = _). rewrite !take_take. f_equal. lia. Qed.

(** What a connection relies on. *)
Record wal_inv (w : Wal) (L : list Z) : Prop := {
  wv_ok : wi_ok (w_apWiData w) L;
  wv_map : forall k, k ∈ w_mapped w -> is_Some (w_apWiData w !! k);
  wv_zero : 0 ∈ w_mapped w }.

(** The operations on the index change nothing else. *)
Definition same_wal (w w' : Wal) : Prop :=
  w_hdr w' = w_hdr w /\ w_aHdr w' = w_aHdr w /\ w_info w' = w_info w /\ w_readLock w' = w_readLock w /\ w_szPage w' = w_szPage w /\ w_nCkpt w' = w_nCkpt w /\ w_mapped w ⊆ w_mapped w' /\ w_map w' `suffix_of` w_map w.

Lemma same_wal_refl w : same_wal w w.
Proof. by split_and!. Qed.

Lemma same_wal_trans w w' w'' : same_wal w w' -> same_wal w' w'' -> same_wal w w''.
Proof. intros (H1 & H2 & H3 & H4 & H5 & H6 & H7 & H8) (G1 & G2 & G3 & G4 & G5 & G6 & G7 & G8). split_and!; try congruence; [set_solver|by etransitivity]. Qed.

Lemma wal_inv_set w L k p L' : wal_inv w L -> wi_ok (<[k := p]> (w_apWiData w)) L' -> wal_inv (set_wi w (<[k := p]> (w_apWiData w))) L'.
Proof. intros [H1 H2 H3] Hok. split; [done| |done]. intros k' Hk'. cbn. destruct (decide (k = k')) as [->|]; [by rewrite lookup_insert_eq|]. rewrite lookup_insert_ne by done. by apply H2. Qed.

Lemma walHashGet_spec w L k : wal_inv w L -> 0 <= k < 2 ^ 19 ->
  exists rc w', walHashGet w k = Some (rc, w', izero k) /\ wal_inv w' L /\ same_wal w w' /\ (rc = SQLITE_OK -> k ∈ w_mapped w' /\ is_Some (w_apWiData w' !! k)) /\
    (rc <> SQLITE_OK -> exists r, w_map w = rc :: r) /\ (k ∈ w_mapped w -> rc = SQLITE_OK /\ w' = w).
Proof.
  intros HW Hk. pose proof (walHashGet_zero k Hk) as [Hz _]. unfold walHashGet, walIndexPage. destruct (decide (k ∈ w_mapped w)) as [Hin|Hout].
  - exists SQLITE_OK, w. rewrite Hz. split; [done|]. split; [done|]. split; [apply same_wal_refl|]. split; [intros _; split; [done|by apply HW]|]. done.
  - assert (k <> 0) as Hk0 by (intros ->; by destruct Hout; apply HW). set (m := match w_apWiData w !! k with Some _ => w_apWiData w | None => <[k := wi_zero k]> (w_apWiData w) end).
    assert (wi_ok m L /\ (forall k', is_Some (w_apWiData w !! k') -> is_Some (m !! k')) /\ is_Some (m !! k)) as (Hm1 & Hm2 & Hm3).
    { unfold m. destruct (w_apWiData w !! k) as [p|] eqn:Hp; [by split_and!; [apply HW|done|rewrite Hp]|]. split_and!.
      - destruct (wv_ok _ _ HW) as [H1 H2 H3]. split; [done|done|]. intros k' Hk' Hlt. destruct (H3 k' Hk' Hlt) as (p & Hp' & Hok). exists p. split; [|done]. rewrite lookup_insert_ne; [done|congruence].
      - intros k' Hk'. destruct (decide (k = k')) as [->|]; [by rewrite lookup_insert_eq|by rewrite lookup_insert_ne].
      - by rewrite lookup_insert_eq. }
    destruct (match w_map w with [] => (SQLITE_OK, []) | rc :: rest => (rc, rest) end) as [rc rest] eqn:Hr.
    assert (rest `suffix_of` w_map w) as Hsuf by (destruct (w_map w); injection Hr as <- <-; [done|by apply suffix_cons_r]).
    assert (rc <> SQLITE_OK -> exists r, w_map w = rc :: r) as Hfail by (destruct (w_map w); injection Hr as <- <-; [done|eauto]).
    destruct (Z.eqb_spec rc SQLITE_OK) as [->|Hne].
    + rewrite Z.eqb_refl. cbn [orb assert_ mbind option_bind]. eexists _, _. rewrite Hz. split; [done|]. split; [split; cbn; [done| |]|].
      * intros k' [->%elem_of_singleton|Hk']%elem_of_union; [done|]. by apply Hm2, HW.
      * apply elem_of_union. right. apply HW.
      * split; [split_and!; cbn; try done; set_solver|]. split; [intros _; cbn; split; [set_solver|done]|]. split; [done|]. by intros ?.
    + rewrite (proj2 (Z.eqb_neq rc _)), (proj2 (Z.ltb_lt 0 k)) by (done || lia). cbn [orb assert_ mbind option_bind]. eexists _, _. rewrite Hz. split; [done|]. split; [split; cbn; apply HW|]. split; [by split_and!|]. split; [done|]. split; [done|]. by intros ?.
Qed.

(** Clearing what follows frame [mxFrame]. *)
Lemma wipage_trim k pgs p n : wipage_ok k pgs p -> (n <= length pgs)%nat ->
  exists aPgno, zero_bytes (wi_aPgno p) (Z.of_nat n) (Z.of_nat (length (wi_aPgno p)) - Z.of_nat n) = Some aPgno /\
    wipage_ok k (take n pgs) (mkWi aPgno (map (fun v => if Z.of_nat n <? v then 0 else v) (wi_aHash p))).
Proof.
  intros (Hl & (z & Hz) & HT) Hn. assert (n <= length (wi_aPgno p))%nat as Hn' by (rewrite Hz, length_app; lia). unfold zero_bytes, put_bytes. rewrite (proj2 (Z.leb_le 0 _)) by lia. cbn [assert_ mbind option_bind].
  rewrite decide_True by (rewrite length_replicate; lia). eexists. split; [done|]. rewrite length_replicate, Nat2Z.id, (drop_ge (wi_aPgno p)), app_nil_r by lia. split_and!; cbn [wi_aPgno wi_aHash].
  - rewrite length_app, length_take, length_replicate. lia.
  - eexists. rewrite Hz at 1. by rewrite take_app_le by lia.
  - by apply tab_trim.
Qed.

(** Page [k] becomes the last one. *)
Lemma wi_ok_set m L L' k p : wi_ok m L -> 0 <= k -> Forall pgno_ok L' -> Z.of_nat (length L') < 2 ^ 30 -> izero k <= Z.of_nat (length L) -> Z.of_nat (length L') <= izero (k + 1) ->
  take (Z.to_nat (izero k)) L' = take (Z.to_nat (izero k)) L -> wipage_ok k (slice k L') p -> wi_ok (<[k := p]> m) L'.
Proof.
  intros [H1 H2 H3] Hk Hf Hl Hkl Hlen Ht Hp. pose proof (izero_nonneg k Hk). split; [done|done|]. intros k' Hk' Hlt. destruct (decide (k = k')) as [->|Hne]; [rewrite lookup_insert_eq; eauto|]. rewrite lookup_insert_ne by done.
  assert (k' < k) as Hlt'. { destruct (decide (k + 1 <= k')) as [Hge|]; [|lia]. pose proof (izero_mono (k + 1) k' ltac:(lia)). lia. }
  pose proof (izero_mono (k' + 1) k ltac:(lia)). pose proof (wi_size_range k'). pose proof (izero_next k' Hk'). rewrite (slice_prefix k' L L' (Z.to_nat (izero k))) by (done || lia). apply H3; [done|lia].
Qed.

Lemma pgno_get_ok k pgs p j : wipage_ok k pgs p -> Z.of_nat j < wi_size k -> pgno_get p (Z.of_nat j + 1) = Some (default 0 (pgs !! j)).
Proof.
  intros (Hl & (z & Hz) & _) Hj. unfold pgno_get, aget. rewrite decide_True by lia. replace (Z.to_nat (Z.of_nat j + 1 - 1)) with j by lia. rewrite Hz in Hl |- *. rewrite length_app, length_replicate in Hl.
  destruct (pgs !! j) as [x|] eqn:Hx; [by apply lookup_app_l_Some|]. apply lookup_ge_None in Hx. rewrite lookup_app_r by done. apply lookup_replicate. split; [done|lia].
Qed.

Lemma wipage_zero k : wipage_ok k [] (wi_zero k).
Proof. pose proof (wi_size_range k). split_and!; cbn; [rewrite length_replicate; lia|by eexists|apply tab_empty]. Qed.

(** The wal-index page of frame [f]. *)
Definition frame_seg (f k : Z) : Prop := 0 <= k < 2 ^ 19 /\ izero k < f <= izero (k + 1).

Lemma walFramePage_seg f : 0 < f <= 2 ^ 30 -> exists k, walFramePage f = Some k /\ frame_seg f k.
Proof.
  intros Hf. destruct (walFramePage_spec f ltac:(lia)) as (k & Hk & Hk0 & Hz & _). exists k. split; [done|]. split; [|done]. split; [done|]. destruct npage_one as (H1 & H2 & _). unfold izero in Hz. rewrite H1, H2 in Hz. destruct (Z.eqb_spec k 0); lia.
Qed.

(** The page of the last frame has to be mapped before it can be trimmed. *)
Definition mapped_at (w : Wal) (f : Z) : Prop := forall k, walFramePage f = Some k -> k ∈ w_mapped w.

(** walCleanupHash removes the frames after [mxFrame]; it leaves an index with no
    frame as it is. *)
Lemma walCleanupHash_spec w L : wal_inv w L -> 0 <= mxFrame w <= Z.of_nat (length L) -> (mxFrame w <> 0 -> mapped_at w (mxFrame w)) ->
  exists w', walCleanupHash w = Some w' /\ same_wal w w' /\ wal_inv w' (if mxFrame w =? 0 then L else take (Z.to_nat (mxFrame w)) L).
Proof.
  intros HW Hm Hmap. unfold walCleanupHash. destruct (Z.eqb_spec (mxFrame w) 0) as [H0|H0]; [by exists w|]. set (n := mxFrame w) in *. pose proof (wo_len _ _ (wv_ok _ _ HW)) as Hlen.
  destruct (walFramePage_seg n ltac:(lia)) as (k & Hk & Hkr & Hz). rewrite Hk. cbn [mbind option_bind]. pose proof (Hmap H0 k Hk) as Hin. rewrite bool_decide_true by done. cbn [assert_ mbind option_bind].
  destruct (walHashGet_spec w L k HW Hkr) as (rc & w1 & -> & _ & _ & _ & _ & Hok). destruct (Hok Hin) as [-> ->]. cbn [mbind option_bind].
  destruct (wo_seg _ _ (wv_ok _ _ HW) k ltac:(lia) ltac:(lia)) as (p & Hp & Hpok). rewrite Hp. cbn [mbind option_bind]. fold n. rewrite (proj2 (Z.ltb_lt 0 _)) by lia. cbn [assert_ mbind option_bind].
  pose proof (izero_nonneg k ltac:(lia)). pose proof (slice_length k L ltac:(lia)) as Hsl. pose proof (izero_next k ltac:(lia)) as Hnx.
  destruct (wipage_trim k _ p (Z.to_nat (n - izero k)) Hpok ltac:(lia)) as (aP & HaP & Hok'). rewrite Z2Nat.id in HaP, Hok' by lia. rewrite HaP. cbn [mbind option_bind]. eexists. split; [done|]. split; [by split_and!|].
  apply (wal_inv_set w L); [done|]. apply (wi_ok_set _ L); [apply HW|lia|apply Forall_take, HW|rewrite length_take; lia|lia|rewrite length_take; lia| |].
  - rewrite take_take. f_equal. lia.
  - rewrite slice_take by lia. replace (Z.to_nat n - Z.to_nat (izero k))%nat with (Z.to_nat (n - izero k)) by lia. done.
Qed.

(** ** Appending *)

Lemma append_prepare_spec w L n k : wal_inv w L -> (n <= length L)%nat -> n = length L \/ mxFrame w = Z.of_nat n -> frame_seg (Z.of_nat n + 1) k -> k ∈ w_mapped w ->
  exists w', append_prepare w k (Z.of_nat n + 1 - izero k) = Some w' /\ same_wal w w' /\ wal_inv w' (take n L) /\ exists p, w_apWiData w' !! k = Some p /\ wipage_ok k (slice k (take n L)) p.
Proof.
  intros HW Hn Hcase (Hk & Hz) Hin. pose proof (izero_nonneg k ltac:(lia)). pose proof (izero_next k ltac:(lia)) as Hnx. pose proof (wo_len _ _ (wv_ok _ _ HW)) as Hlen. unfold append_prepare.
  assert (slice k (take n L) = take (n - Z.to_nat (izero k)) (slice k L)) as Hsl by (apply slice_take; lia). destruct (Z.eqb_spec (Z.of_nat n + 1 - izero k) 1) as [H1|H1].
  - assert (slice k (take n L) = []) as Hnil by (rewrite Hsl; replace (n - Z.to_nat (izero k))%nat with 0%nat by lia; done). cbn [w_apWiData set_wi]. rewrite lookup_insert_eq. cbn [mbind option_bind]. rewrite H1. change (pgno_get (wi_zero k) 1) with (pgno_get (wi_zero k) (Z.of_nat 0 + 1)).
    rewrite (pgno_get_ok k [] _ 0 (wipage_zero k)) by (pose proof (wi_size_range k); lia). cbn. eexists. split; [done|]. split; [by split_and!|]. split; [|exists (wi_zero k); split; [apply lookup_insert_eq|rewrite Hnil; apply wipage_zero]].
    apply (wal_inv_set w L); [done|]. apply (wi_ok_set _ L); [apply HW|lia|apply Forall_take, HW|rewrite length_take; lia|lia|rewrite length_take; lia|rewrite take_take; f_equal; lia|rewrite Hnil; apply wipage_zero].
  - destruct (wo_seg _ _ (wv_ok _ _ HW) k ltac:(lia) ltac:(lia)) as (p & Hp & Hpok). rewrite Hp. cbn [mbind option_bind]. set (j := (n - Z.to_nat (izero k))%nat) in *.
    assert (Z.of_nat n + 1 - izero k = Z.of_nat j + 1) as -> by lia. rewrite (pgno_get_ok k _ p j Hpok) by lia. cbn [mbind option_bind]. rewrite slice_lookup by lia. replace (Z.to_nat (izero k) + j)%nat with n by lia.
    destruct (decide (n = length L)) as [->|Hlt].
    + rewrite (proj2 (lookup_ge_None L (length L))) by lia. cbn. exists w. rewrite Hsl. unfold j in *. clear j. rewrite (take_ge L) by lia. split; [done|]. split; [apply same_wal_refl|]. split; [done|]. exists p. split; [done|]. rewrite take_ge; [done|]. pose proof (slice_length k L ltac:(lia)). lia.
    + destruct (lookup_lt_is_Some_2 L n ltac:(lia)) as [x Hx]. assert (pgno_ok x) as Hxr by (apply (Forall_lookup_1 _ _ _ _ (wo_pages _ _ (wv_ok _ _ HW)) Hx)). unfold pgno_ok in Hxr. rewrite Hx. cbn [default from_option id]. rewrite (proj2 (Z.eqb_neq x 0)) by lia. cbn [negb].
      destruct Hcase as [|Hm]; [lia|]. assert (mapped_at w (mxFrame w)) as Hmap. { intros k' Hk'. destruct (walFramePage_seg (mxFrame w) ltac:(lia)) as (k2 & Hk2 & Hr2 & Hz2). rewrite Hk2 in Hk'. injection Hk' as <-. enough (k2 = k) by congruence.
        destruct (decide (k2 < k)); [pose proof (izero_mono (k2 + 1) k ltac:(lia)); lia|]. destruct (decide (k < k2)); [pose proof (izero_mono (k + 1) k2 ltac:(lia)); lia|lia]. }
      destruct (walCleanupHash_spec w L HW ltac:(lia) (fun _ => Hmap)) as (w' & -> & Hsame & HW'). cbn [mbind option_bind]. rewrite (proj2 (Z.eqb_neq (mxFrame w) 0)) in HW' by lia. rewrite Hm, Nat2Z.id in HW'.
      destruct (wo_seg _ _ (wv_ok _ _ HW') k ltac:(lia) ltac:(rewrite length_take; lia)) as (p' & Hp' & Hpok'). rewrite Hp'. cbn [mbind option_bind]. rewrite (pgno_get_ok k _ p' j Hpok') by lia. cbn [mbind option_bind].
      rewrite Hsl, (proj2 (lookup_ge_None _ j)) by (rewrite length_take; lia). cbn. rewrite <- Hsl. exists w'. eauto 10.
Qed.

Lemma walIndexAppend_spec w L n pg : wal_inv w L -> (n <= length L)%nat -> n = length L \/ mxFrame w = Z.of_nat n -> pgno_ok pg -> Z.of_nat n + 1 < 2 ^ 30 ->
  exists rc w', walIndexAppend w (Z.of_nat n + 1) pg = Some (rc, w') /\ same_wal w w' /\
    (rc = SQLITE_OK -> wal_inv w' (take n L ++ [pg]) /\ mapped_at w' (Z.of_nat n + 1)) /\ (rc <> SQLITE_OK -> wal_inv w' L /\ exists r, w_map w = rc :: r).
Proof.
  intros HW Hn Hcase Hpg Hmax. unfold walIndexAppend. destruct (walFramePage_seg (Z.of_nat n + 1) ltac:(lia)) as (k & Hk & Hseg). rewrite Hk. cbn [mbind option_bind].
  destruct (walHashGet_spec w L k HW (proj1 Hseg)) as (rc & w1 & -> & HW1 & Hs1 & Hok & Hbad & _). cbn [mbind option_bind]. destruct (Z.eqb_spec rc SQLITE_OK) as [->|Hrc]; cbn [negb]; [|exists rc, w1; split; [done|]; split; [done|]; split; [done|]; eauto].
  destruct (Hok eq_refl) as [Hin _]. assert (mxFrame w1 = mxFrame w) as Hmx by (f_equal; apply Hs1). rewrite <- Hmx in Hcase.
  destruct (append_prepare_spec w1 L n k HW1 Hn Hcase Hseg Hin) as (w2 & Hprep & Hs2 & HW2 & p & Hp & Hpok). pose proof Hseg as ((Hk0 & Hk1) & Hz). pose proof (izero_nonneg k Hk0). pose proof (izero_next k Hk0) as Hnx. pose proof (wi_size_range k). destruct npage_one as (_ & _ & HN).
  rewrite (proj2 (Z.leb_le _ (HASHTABLE_NSLOT / 2 + 1))) by (change (N / 2 + 1) with 4097; lia). cbn [assert_ mbind option_bind].
  rewrite Hprep. cbn [mbind option_bind]. rewrite Hp. cbn [mbind option_bind]. destruct (walHash_spec pg Hpg) as [-> Hh]. cbn [mbind option_bind].
  set (pgs := slice k (take n L)) in *. assert (Z.of_nat (length pgs) = Z.of_nat n - izero k) as Hlp by (unfold pgs; rewrite slice_length, length_take by lia; lia). destruct Hpok as (Hl & (z & Hz0) & HT).
  destruct (append_probe_spec pgs (wi_aHash p) (hash pg) (Z.of_nat n + 1 - izero k) HT Hh ltac:(lia) ltac:(lia) (S (Z.to_nat N)) 0 ltac:(lia) ltac:(lia) ltac:(lia)) as (d & Hd & Hprobe & Hfree & Hrun).
  rewrite probe_0, Z.sub_0_r in Hprobe by done. rewrite Hprobe. cbn [mbind option_bind].
  destruct z as [|z]; [rewrite Hz0, length_app in Hl; cbn in Hl; lia|]. rewrite Hz0. cbn [replicate]. replace (Z.of_nat n + 1 - izero k - 1) with (Z.of_nat (length pgs)) by lia. rewrite aset_middle. cbn [mbind option_bind]. unfold u16. rewrite Z.mod_small by lia.
  pose proof (probe_range (hash pg) d). pose proof (t_len _ _ HT). destruct (aset (wi_aHash p) (probe (hash pg) d) (Z.of_nat n + 1 - izero k)) as [aH|] eqn:HaH; [|rewrite aset_is_Some in HaH by lia; done]. cbn [mbind option_bind].
  eexists _, _. split; [done|]. split; [eapply same_wal_trans; [exact Hs1|]; eapply same_wal_trans; [exact Hs2|by split_and!]|]. split; [intros _|done]. split.
  2: { intros k' Hk'. rewrite Hk in Hk'. injection Hk' as <-. cbn. destruct Hs2 as (_ & _ & _ & _ & _ & _ & Hsub & _). by apply Hsub. }
  apply (wal_inv_set w2 (take n L)); [done|]. assert (slice k (take n L ++ [pg]) = pgs ++ [pg]) as Hsl. { unfold pgs. rewrite slice_last, slice_take by lia. done. }
  apply (wi_ok_set _ (take n L)); [apply HW2|done|apply Forall_app; split; [apply Forall_take, HW|by apply Forall_singleton]|rewrite length_app, length_take; cbn; lia|rewrite length_take; lia|rewrite length_app, length_take; cbn; lia|rewrite take_app_le by (rewrite length_take; lia); done|].
  rewrite Hsl. split_and!; cbn [wi_aPgno wi_aHash].
  - rewrite Hz0 in Hl. rewrite length_app in Hl |- *. cbn in Hl |- *. lia.
  - exists z. by rewrite <- app_assoc.
  - apply (tab_insert _ (wi_aHash p) pg d); [done|done|done|done|]. rewrite Hlp. replace (Z.of_nat n - izero k + 1) with (Z.of_nat n + 1 - izero k) by lia. done.
Qed.

(** ** Searching *)

(** The last frame that holds page [pg], 0 if none does. *)
Fixpoint last_frame (L : list Z) (pg : Z) : Z :=
  match L with
  | [] => 0
  | p :: L => let r := last_frame L pg in if negb (r =? 0) then r + 1 else if p =? pg then 1 else 0
  end.

Lemma last_frame_is_last L pg : 0 <= last_frame L pg /\ is_last L pg (Z.of_nat (length L)) (last_frame L pg).
Proof.
  induction L as [|p L [IH0 [IH1 IH2]]]; [split; [done|]; split; [done|by left]|]. cbn [last_frame length]. cbv zeta. destruct (Z.eqb_spec (last_frame L pg) 0) as [H0|H0]; cbn [negb].
  - assert (forall j, L !! j <> Some pg) as Hno. { intros j Hj. pose proof (IH1 j Hj). apply lookup_lt_Some in Hj as ?. lia. }
    destruct (Z.eqb_spec p pg) as [->|Hne]; (split; [lia|]); split.
    + intros [|j] Hj _; [lia|by destruct (Hno j)].
    + right. split; [lia|]. by exists 0%nat.
    + intros [|j] Hj _; [by injection Hj|by destruct (Hno j)].
    + by left.
  - split; [lia|]. split.
    + intros [|j] Hj Hl; [lia|]. cbn in Hj. pose proof (IH1 j Hj). lia.
    + right. destruct IH2 as [|(Hle & j & Hj & Hr)]; [done|]. split; [lia|]. exists (S j). split; [done|lia].
Qed.

Lemma is_last_unique L pg lim r r' : 0 <= r -> 0 <= r' -> is_last L pg lim r -> is_last L pg lim r' -> r = r'.
Proof.
  intros H0 H0' [H1 [->|(Hl & j & Hj & ->)]] [H1' [->|(Hl' & j' & Hj' & ->)]]; [done|..].
  - pose proof (H1 j' Hj'). lia.
  - pose proof (H1' j Hj). lia.
  - pose proof (H1 j' Hj'). pose proof (H1' j Hj). lia.
Qed.

(** A reader sees the first [n] frames. *)
Lemma is_last_take L pg n r : (n <= length L)%nat -> 0 <= r -> is_last L pg (Z.of_nat n) r -> r = last_frame (take n L) pg.
Proof.
  intros Hn Hr [H1 H2]. destruct (last_frame_is_last (take n L) pg) as [Hr' Hl]. eapply is_last_unique; [exact Hr|exact Hr'| |exact Hl]. rewrite length_take, Nat.min_l by done. split.
  - intros j Hj _. apply lookup_take_Some in Hj as [Hj ?]. apply H1; [done|lia].
  - destruct H2 as [|(? & j & Hj & ->)]; [by left|right]. split; [done|]. exists j. split; [|done]. apply lookup_take_Some. split; [done|lia].
Qed.

(** No frame after [lo], up to [n], holds the page. *)
Definition none_after (L : list Z) (pg lo : Z) (n : nat) : Prop := forall j, L !! j = Some pg -> Z.of_nat j + 1 <= Z.of_nat n -> Z.of_nat j + 1 <= lo.

Lemma slice_is_last k L n pg r : 0 <= k -> izero k < Z.of_nat n -> none_after L pg (izero (k + 1)) n -> is_last (slice k L) pg (Z.of_nat n - izero k) r ->
  if r =? 0 then none_after L pg (izero k) n else 0 <= r /\ is_last L pg (Z.of_nat n) (r + izero k).
Proof.
  intros Hk Hz Hafter [H1 H2]. pose proof (izero_nonneg k Hk). pose proof (izero_next k Hk). pose proof (wi_size_range k).
  assert (forall j, L !! j = Some pg -> Z.of_nat j + 1 <= Z.of_nat n -> Z.of_nat j + 1 <= Z.max (izero k) (r + izero k)) as Hall.
  { intros j Hj Hjn. pose proof (Hafter j Hj Hjn). destruct (decide (Z.of_nat j + 1 <= izero k)); [lia|]. specialize (H1 (j - Z.to_nat (izero k))%nat). rewrite slice_lookup in H1 by lia.
    replace (Z.to_nat (izero k) + (j - Z.to_nat (izero k)))%nat with j in H1 by lia. specialize (H1 Hj). lia. }
  destruct (Z.eqb_spec r 0) as [->|Hr]; [intros j Hj Hjn; pose proof (Hall j Hj Hjn); lia|]. destruct H2 as [|(Hle & j & Hj & ->)]; [done|]. split; [lia|]. split; [intros j' Hj' Hl; pose proof (Hall j' Hj' Hl); lia|].
  right. split; [lia|]. exists (Z.to_nat (izero k) + j)%nat. split; [|lia]. rewrite <- slice_lookup; [done|done|]. apply lookup_lt_Some in Hj. pose proof (slice_length k L Hk). lia.
Qed.

Lemma find_tables_spec L n pg : (n <= length L)%nat -> pgno_ok pg -> forall fuel w k, wal_inv w L -> -1 <= k < 2 ^ 19 -> (0 <= k -> izero k < Z.of_nat n) -> none_after L pg (izero (k + 1)) n -> k + 1 < Z.of_nat fuel ->
  exists rc w' r, find_tables fuel w pg (Z.of_nat n) k = Some (rc, w', r) /\ wal_inv w' L /\ same_wal w w' /\ (rc = SQLITE_OK -> r = last_frame (take n L) pg) /\ (rc <> SQLITE_OK -> rc ∈ w_map w).
Proof.
  intros Hn Hpg. induction fuel as [|fuel IH]; intros w k HW Hk Hkn Hafter Hfuel; [lia|]. cbn [find_tables]. destruct (Z.leb_spec 0 k) as [Hk0|Hk0].
  2: { assert (k = -1) as -> by lia. exists SQLITE_OK, w, 0. split; [done|]. split; [done|]. split; [apply same_wal_refl|]. split; [|done]. intros _. apply is_last_take; [done|done|]. split; [exact Hafter|by left]. }
  pose proof (wo_len _ _ (wv_ok _ _ HW)) as Hlen. destruct (walHashGet_spec w L k HW ltac:(lia)) as (rc & w1 & -> & HW1 & Hs1 & Hok & Hbad & _). cbn [mbind option_bind]. destruct (Z.eqb_spec rc SQLITE_OK) as [->|Hrc]; cbn [negb].
  2: { exists rc, w1, 0. split; [done|]. split; [done|]. split; [done|]. split; [done|]. intros _. destruct (Hbad Hrc) as [r ->]. apply elem_of_cons. by left. }
  destruct (wo_seg _ _ (wv_ok _ _ HW1) k Hk0 ltac:(specialize (Hkn Hk0); lia)) as (p & Hp & Hpok). rewrite Hp. cbn [mbind option_bind]. destruct (walHash_spec pg Hpg) as [-> Hh]. cbn [mbind option_bind]. pose proof (walHashGet_zero k ltac:(lia)) as [_ Hz].
  destruct npage_one as (_ & _ & HN). pose proof (wi_size_range k). pose proof (slice_length k L Hk0) as Hsl. pose proof Hpok as (_ & _ & HT).
  destruct (find_probe_spec (pages := slice k L) (p := p) (pg := pg) (iZero := izero k) (iLast := Z.of_nat n) HT) with (fuel := S (S (Z.to_nat N))) (d := 0) (r := 0) (c := N) as (r & Hfind & Hlast).
  { intros j q Hj. rewrite (pgno_get_ok k _ p j Hpok), Hj; [done|]. apply lookup_lt_Some in Hj. lia. }
  1-5: lia.
  { split; [lia|by left]. }
  1-2: lia.
  rewrite probe_0 in Hfind by done. change (if 0 =? 0 then 0 else 0 + izero k) with 0 in Hfind. rewrite Hfind. cbn [mbind option_bind]. pose proof (slice_is_last k L n pg r Hk0 (Hkn Hk0) Hafter Hlast) as Hr. destruct (Z.eqb_spec r 0) as [Hr0|Hr0].
  - cbn. destruct (IH w1 (k - 1) HW1 ltac:(lia)) as (rc & w2 & r2 & Hf & HW2 & Hs2 & Hok2 & Hbad2); [intros ?; pose proof (izero_mono (k - 1) k ltac:(lia)); specialize (Hkn Hk0); lia|by replace (k - 1 + 1) with k by lia|lia|].
    exists rc, w2, r2. split; [done|]. split; [done|]. split; [by eapply same_wal_trans|]. split; [done|]. intros Hrc. destruct Hs1 as (_ & _ & _ & _ & _ & _ & _ & [q Hq]). rewrite Hq. apply elem_of_app. right. by apply Hbad2.
  - destruct Hr as [Hr1 Hr2]. rewrite (proj2 (Z.eqb_neq _ 0)) by lia. exists SQLITE_OK, w1, (r + izero k). split; [done|]. split; [done|]. split; [done|]. split; [|done]. intros _. apply is_last_take; [done|lia|done].
Qed.

(** The search of a reader whose snapshot has [n] frames *)
Lemma findFrame_spec w L n pg : wal_inv w L -> mxFrame w = Z.of_nat n -> (n <= length L)%nat -> 0 < w_readLock w -> pgno_ok pg ->
  exists rc w' r, sqlite3WalFindFrame w pg = Some (rc, w', r) /\ wal_inv w' L /\ same_wal w w' /\ (rc = SQLITE_OK -> r = last_frame (take n L) pg) /\ (rc <> SQLITE_OK -> rc ∈ w_map w).
Proof.
  intros HW Hm Hn Hlock Hpg. unfold sqlite3WalFindFrame. rewrite (proj2 (Z.leb_le 0 _)) by lia. cbn [assert_ mbind option_bind]. rewrite (proj2 (Z.eqb_neq (w_readLock w) 0)), orb_false_r by lia. rewrite Hm. destruct (Z.eqb_spec (Z.of_nat n) 0) as [H0|H0].
  - assert (n = 0%nat) as -> by lia. exists SQLITE_OK, w, 0. split; [done|]. split; [done|]. split; [apply same_wal_refl|]. done.
  - pose proof (wo_len _ _ (wv_ok _ _ HW)) as Hlen. destruct (walFramePage_seg (Z.of_nat n) ltac:(lia)) as (k & -> & Hk & Hz). cbn [mbind option_bind]. apply find_tables_spec; [done|done|done|lia|lia| |lia]. intros j Hj Hjn. lia.
Qed.
