(* ===== verification/WalSpec.v ===== *)
(** * WalSpec: the write-ahead log as a sequence of transactions (wal.c)

    What the wal-index promises: a list of committed frames and the frames of the
    transaction under way.  Every operation of a writer implements its effect on
    these lists, whatever pages it fails to map, and what a reader finds depends
    only on the frames that were committed when it began. *)
From S2P Require Import Prelude Varint Record Page PageLayout Wal WalHash WalIndex.

(** ** Checksums *)

Lemma cksum_total native a : forall n s1 s2, length a = (8 * n)%nat -> 0 <= s1 < 2 ^ 32 -> 0 <= s2 < 2 ^ 32 ->
  exists t1 t2, cksum_loop native a s1 s2 = Some (t1, t2) /\ 0 <= t1 < 2 ^ 32 /\ 0 <= t2 < 2 ^ 32.
Proof.
  intros n. revert a. induction n as [|n IH]; intros a s1 s2 Ha H1 H2; [destruct a; [|done]; exists s1, s2; done|].
  do 8 (destruct a as [|? a]; [cbn in Ha; lia|]). cbn [cksum_loop]. cbv zeta. apply IH; [cbn in Ha; lia| |]; apply Z.mod_pos_bound; lia.
Qed.

Definition cksum_range (c : Z * Z) : Prop := 0 <= c.1 < 2 ^ 32 /\ 0 <= c.2 < 2 ^ 32.

Lemma walChecksumBytes_total native a nByte aIn : 8 <= nByte <= Z.of_nat (length a) -> nByte mod 8 = 0 -> cksum_range (default (0, 0) aIn) ->
  exists c, walChecksumBytes native a nByte aIn = Some c /\ cksum_range c.
Proof.
  intros Hn Hm [H1 H2]. unfold walChecksumBytes. destruct (default (0, 0) aIn) as [s1 s2]. rewrite (proj2 (Z.leb_le 8 _)) by lia. cbn [assert_ mbind option_bind]. change 7 with (Z.ones 3). rewrite Z.land_ones by lia. change (2 ^ 3) with 8. rewrite Hm. cbn [Z.eqb assert_ mbind option_bind].
  unfold get_bytes. rewrite decide_True by lia. cbn [mbind option_bind]. destruct (cksum_total native (take (Z.to_nat nByte) (drop (Z.to_nat 0) a)) (Z.to_nat (nByte / 8)) s1 s2) as (t1 & t2 & Ht & ? & ?); [|done|done|by exists (t1, t2)].
  rewrite length_take, length_drop. Z.to_euclidean_division_equations. lia.
Qed.

(** ** The header *)

(** What walIndexWriteHdr writes and walIndexTryHdr accepts. *)
Definition hdr_valid (h : WalIndexHdr) : Prop :=
  h_isInit h = 1 /\ h_iVersion h = WALINDEX_MAX_VERSION /\ length (h_aSalt h) = 8%nat /\ walChecksumBytes true (hdr_bytes h) 40 None = Some (h_aCksum h).

Lemma hdr_bytes_length h : length (h_aSalt h) = 8%nat -> length (hdr_bytes h) = 40%nat.
Proof. intros Hs. unfold hdr_bytes. rewrite !length_app, Hs. done. Qed.

Lemma walIndexWriteHdr_spec w : length (h_aSalt (w_hdr w)) = 8%nat ->
  exists ck, let h := hset_init (w_hdr w) WALINDEX_MAX_VERSION 1 ck in walIndexWriteHdr w = Some (set_aHdr (set_hdr w h) (h, h)) /\ hdr_valid h.
Proof.
  intros Hs. unfold walIndexWriteHdr. cbv zeta. set (h0 := hset_init (w_hdr w) WALINDEX_MAX_VERSION 1 (h_aCksum (w_hdr w))).
  destruct (walChecksumBytes_total true (hdr_bytes h0) 40 None) as (ck & Hck & _); [rewrite hdr_bytes_length by done; lia|done|done|]. exists ck. rewrite Hck. cbn [mbind option_bind]. split; [done|]. by split_and!.
Qed.

(** ** The abstract log *)

Record alog := mkLog { a_committed : list Z; a_pending : list Z }.

Definition a_all (a : alog) : list Z := a_committed a ++ a_pending a.

Abbreviation len l := (Z.of_nat (length l)).

Inductive wal_op :=
  | OpFrames (szPage : Z) (pgnos : list Z) (nExtra : nat) (nTruncate : Z) (isCommit : bool)
  | OpUndo
  | OpSavepointUndo (aWalData : Z * (Z * Z) * Z)
  | OpTakeOver (mapped : gset Z) (rcs : list Z)
  | OpRestart (salt1 : list Z).

(** A writer that exits leaves the shared memory as it is; the next one begins with a
    copy of the header there and its own mappings. *)
Definition take_over (w : Wal) (mapped : gset Z) (rcs : list Z) : Wal := set_maps (set_hdr w (w_aHdr w).1) mapped rcs.

Definition wal_exec (w : Wal) (op : wal_op) : option (Z * Wal) :=
  match op with
  | OpFrames szPage pgnos nExtra nTruncate isCommit => walFrames_index w szPage pgnos nExtra nTruncate isCommit
  | OpUndo => '(w, _) ← sqlite3WalUndo w; Some (SQLITE_OK, w)
  | OpSavepointUndo aWalData => w ← sqlite3WalSavepointUndo w aWalData; Some (SQLITE_OK, w)
  | OpTakeOver mapped rcs => Some (SQLITE_OK, take_over w mapped rcs)
  | OpRestart salt1 => w ← walRestartHdr w salt1; Some (SQLITE_OK, w)
  end.

(** The effect on the lists. *)
Definition alog_step (nCkpt : Z) (a : alog) (op : wal_op) : alog :=
  match op with
  | OpFrames _ pgnos nExtra _ isCommit =>
      let p := a_pending a ++ pgnos ++ replicate nExtra (List.last pgnos 0) in
      if isCommit then mkLog (a_committed a ++ p) [] else mkLog (a_committed a) p
  | OpUndo | OpTakeOver _ _ => mkLog (a_committed a) []
  | OpSavepointUndo (n, _, c) => mkLog (a_committed a) (if c =? nCkpt then take (Z.to_nat n - length (a_committed a)) (a_pending a) else [])
  | OpRestart _ => mkLog [] []
  end.

(** What the pager guarantees.  Page 1 is written only by a commit; a savepoint belongs
    to the transaction under way, or to one that began by restarting the log. *)
Definition op_ok (w : Wal) (a : alog) (op : wal_op) : Prop :=
  match op with
  | OpFrames _ pgnos nExtra _ isCommit =>
      pgnos <> [] /\ Forall pgno_ok pgnos /\ len (a_all a) + len pgnos + Z.of_nat nExtra < 2 ^ 30 /\ (isCommit = false -> nExtra = 0%nat /\ Forall (fun p => p <> 1) pgnos)
  | OpUndo => True
  | OpSavepointUndo (n, _, c) => if c =? w_nCkpt w then len (a_committed a) <= n <= len (a_all a) else a_committed a = []
  | OpTakeOver mapped _ => 0 ∈ mapped /\ (forall k, k ∈ mapped -> is_Some (w_apWiData w !! k)) /\ (a_committed a <> [] -> forall k, walFramePage (len (a_committed a)) = Some k -> k ∈ mapped)
  | OpRestart salt1 => length salt1 = 4%nat /\ a_pending a = []
  end.

(** The log a writer has in shared memory. *)
Record wal_rel (w : Wal) (a : alog) : Prop := {
  wr_inv : exists junk, wal_inv w (a_all a ++ junk);
  wr_mx : mxFrame w = len (a_all a);
  wr_hdr : exists h, w_aHdr w = (h, h) /\ hdr_valid h /\ h_mxFrame h = len (a_committed a);
  wr_salt : length (h_aSalt (w_hdr w)) = 8%nat;
  wr_map : forall n, len (a_committed a) <= n <= len (a_all a) -> n <> 0 -> mapped_at w n;
  wr_one : Forall (fun p => p <> 1) (a_pending a);
  wr_mark : aget (ci_aReadMark (w_info w)) 0 = Some 0 }.

(** ** Appending frames *)

Lemma same_wal_mapped w w' n : same_wal w w' -> mapped_at w n -> mapped_at w' n.
Proof. intros (_ & _ & _ & _ & _ & _ & Hs & _) Hm k Hk. by apply Hs, Hm. Qed.

Lemma same_wal_hdr w w' : same_wal w w' -> w_hdr w' = w_hdr w /\ w_aHdr w' = w_aHdr w /\ w_info w' = w_info w /\ w_nCkpt w' = w_nCkpt w.
Proof. by intros (H1 & H2 & H3 & _ & _ & H4 & _). Qed.

Lemma same_wal_map w w' rc : same_wal w w' -> rc ∈ w_map w' -> rc ∈ w_map w.
Proof. intros (_ & _ & _ & _ & _ & _ & _ & [q ->]) Hrc. apply elem_of_app. by right. Qed.

Lemma append_loop_spec : forall pgs w L n, wal_inv w L -> (n <= length L)%nat -> n = length L \/ mxFrame w = Z.of_nat n -> Forall pgno_ok pgs -> Z.of_nat n + len pgs < 2 ^ 30 ->
  exists rc w' f junk, append_loop w (Z.of_nat n) pgs = Some (rc, w', f) /\ same_wal w w' /\
    (rc = SQLITE_OK -> f = Z.of_nat n + len pgs /\ wal_inv w' (take n L ++ pgs ++ junk) /\ forall i, Z.of_nat n < i <= Z.of_nat n + len pgs -> mapped_at w' i) /\
    (rc <> SQLITE_OK -> rc ∈ w_map w /\ wal_inv w' (take n L ++ junk)).
Proof.
  induction pgs as [|pg pgs IH]; intros w L n HW Hn Hcase Hpgs Hmax.
  - exists SQLITE_OK, w, (Z.of_nat n), (drop n L). split; [done|]. split; [apply same_wal_refl|]. split; [|done]. intros _. cbn [length app]. rewrite take_drop. split; [lia|]. split; [done|]. intros i Hi. lia.
  - apply Forall_cons in Hpgs as [Hpg Hpgs]. cbn [length] in Hmax. cbn [append_loop]. rewrite u32_id by lia. destruct (walIndexAppend_spec w L n pg HW Hn Hcase Hpg ltac:(lia)) as (rc & w1 & -> & Hs1 & Hok & Hbad). cbn [mbind option_bind].
    destruct (Z.eqb_spec rc SQLITE_OK) as [->|Hrc].
    2: { destruct (Hbad Hrc) as [HW1 [r Hr]]. exists rc, w1, (Z.of_nat n + 1), (drop n L). split; [done|]. split; [done|]. split; [done|]. intros _. rewrite take_drop, Hr. split; [apply elem_of_cons; by left|done]. }
    destruct (Hok eq_refl) as [HW1 Hm1]. replace (Z.of_nat n + 1) with (Z.of_nat (S n)) in * by lia. assert (length (take n L ++ [pg]) = S n) as Hl by (rewrite length_app, length_take; cbn; lia).
    destruct (IH w1 (take n L ++ [pg]) (S n) HW1 ltac:(lia) ltac:(lia) Hpgs ltac:(lia)) as (rc & w2 & f & junk & -> & Hs2 & Hok2 & Hbad2). rewrite take_ge in Hok2, Hbad2 by lia.
    exists rc, w2, f, (if decide (rc = SQLITE_OK) then junk else pg :: junk). split; [done|]. split; [by eapply same_wal_trans|]. split; intros Hrc; [rewrite decide_True by done|rewrite decide_False by done].
    + destruct (Hok2 Hrc) as (-> & HW2 & Hm2). cbn [length]. split; [lia|]. rewrite <- app_assoc in HW2. split; [exact HW2|]. intros i Hi. destruct (decide (i = Z.of_nat (S n))) as [->|]; [by eapply same_wal_mapped|apply Hm2; lia].
    + destruct (Hbad2 Hrc) as [Hin HW2]. split; [by eapply same_wal_map|]. rewrite <- app_assoc in HW2. exact HW2.
Qed.

Lemma wal_inv_ext w w' L : wal_inv w L -> w_apWiData w' = w_apWiData w -> w_mapped w' = w_mapped w -> wal_inv w' L.
Proof. intros [H1 H2 H3] E1 E2. split; by rewrite ?E1, ?E2. Qed.

Lemma Forall_last (P : Z -> Prop) l : Forall P l -> l <> [] -> P (List.last l 0).
Proof. intros HF Hne. destruct (exists_last Hne) as (l' & x & ->). rewrite last_last. apply Forall_app in HF as [_ HF]. by inversion HF. Qed.

(** What the log file depends on is left alone; a commit publishes the header. *)
Definition frames_fields (w w' : Wal) (isCommit : bool) : Prop :=
  w_szPage w' = w_szPage w /\ w_nCkpt w' = w_nCkpt w /\ h_bigEndCksum (w_hdr w') = h_bigEndCksum (w_hdr w) /\ h_aSalt (w_hdr w') = h_aSalt (w_hdr w) /\ h_aFrameCksum (w_hdr w') = h_aFrameCksum (w_hdr w) /\
  w_aHdr w' = (if isCommit then (w_hdr w', w_hdr w') else w_aHdr w).

Lemma frames_refines w a szPage pgnos nExtra nTruncate isCommit (op := OpFrames szPage pgnos nExtra nTruncate isCommit) : wal_rel w a -> op_ok w a op ->
  exists rc w', wal_exec w op = Some (rc, w') /\ wal_rel w' (if rc =? SQLITE_OK then alog_step (w_nCkpt w) a op else a) /\ (rc <> SQLITE_OK -> rc ∈ w_map w) /\
    (if rc =? SQLITE_OK then frames_fields w w' isCommit else same_wal w w').
Proof.
  intros HR (Hne & Hpg & Hmax & Hspill). destruct (wr_inv _ _ HR) as [junk HW]. destruct (wr_hdr _ _ HR) as (h & Hh & Hhv & Hhm). cbn [wal_exec op]. unfold walFrames_index. rewrite (wr_mx _ _ HR).
  replace (assert_ (match pgnos with [] => false | _ => true end)) with (Some tt) by (by destruct pgnos). cbn [mbind option_bind].
  set (new := pgnos ++ replicate nExtra (List.last pgnos 0)). assert (len new = len pgnos + Z.of_nat nExtra) as Hnew by (unfold new; rewrite length_app, length_replicate; lia).
  assert (Forall pgno_ok new) as Hnewok by (apply Forall_app; split; [done|]; apply Forall_replicate, Forall_last; done).
  destruct (append_loop_spec new w (a_all a ++ junk) (length (a_all a)) HW) as (rc & w1 & f & junk' & -> & Hs & Hok & Hbad); [rewrite length_app; lia|right; apply HR|done|lia|]. rewrite take_app_length in Hok, Hbad. cbn [mbind option_bind].
  destruct (same_wal_hdr _ _ Hs) as (E1 & E2 & E3 & E4). destruct (Z.eqb_spec rc SQLITE_OK) as [->|Hrc]; cbn [negb].
  2: { destruct (Hbad Hrc) as [Hin HW1]. exists rc, w1. split; [done|]. rewrite (proj2 (Z.eqb_neq rc _)) by done. split; [|by split]. split; rewrite ?E1, ?E2, ?E3; [by exists junk'|apply HR|eauto|apply HR| |apply HR|apply HR]. intros n Hn H0. eapply same_wal_mapped; [done|]. by apply HR. }
  destruct (Hok eq_refl) as (-> & HW1 & Hm1). clear Hok Hbad. rewrite app_assoc in HW1.
  assert (forall n, len (a_committed a) <= n <= len (a_all a) + len new -> n <> 0 -> mapped_at w1 n) as Hmap. { intros n Hn H0. destruct (decide (n <= len (a_all a))); [eapply same_wal_mapped; [done|]; apply HR; lia|apply Hm1; lia]. }
  assert (a_all a ++ new = a_committed a ++ a_pending a ++ new) as Hall by (unfold a_all; by rewrite app_assoc). rewrite Hall in HW1.
  assert (len (a_committed a ++ a_pending a ++ new) = len (a_all a) + len new) as Hlen by (rewrite <- Hall, length_app; lia). destruct isCommit.
  - match goal with |- context [walIndexWriteHdr ?w2] => destruct (walIndexWriteHdr_spec w2) as (ck & -> & Hv); [cbn; rewrite E1; apply HR|] end. cbn [mbind option_bind]. eexists _, _. split; [done|]. split; [|split; [done|]; cbn [Z.eqb SQLITE_OK]; unfold frames_fields; cbn; rewrite E1; by split_and!; [apply Hs|..]]. cbn [Z.eqb SQLITE_OK alog_step op]. fold new.
    split; cbn [a_committed a_pending a_all w_hdr w_aHdr w_info set_aHdr set_hdr].
    + exists junk'. unfold a_all; cbn [a_committed a_pending]. rewrite app_nil_r. by eapply wal_inv_ext.
    + unfold a_all; cbn [a_committed a_pending]. rewrite app_nil_r, Hlen. done.
    + eexists. split; [done|]. split; [done|]. rewrite Hlen. done.
    + cbn. rewrite E1. apply HR.
    + unfold a_all; cbn [a_committed a_pending]. rewrite app_nil_r, Hlen. intros n Hn H0. apply (Hmap n); [rewrite length_app in *; lia|done].
    + done.
    + rewrite E3. apply HR.
  - destruct (Hspill eq_refl) as [Hx Hone]. eexists _, _. split; [done|]. split; [|split; [done|]; cbn [Z.eqb SQLITE_OK]; unfold frames_fields; cbn; rewrite E1; by split_and!; [apply Hs|..]]. cbn [Z.eqb SQLITE_OK alog_step op]. fold new. split; cbn [a_committed a_pending w_hdr w_aHdr w_info set_aHdr set_hdr].
    + exists junk'. by eapply wal_inv_ext.
    + unfold a_all; cbn [a_committed a_pending]. by rewrite Hlen.
    + rewrite E2. eauto.
    + cbn. rewrite E1. apply HR.
    + unfold a_all; cbn [a_committed a_pending]. rewrite Hlen. exact Hmap.
    + apply Forall_app. split; [apply HR|]. unfold new. rewrite Hx. cbn [replicate]. by rewrite app_nil_r.
    + rewrite E3. apply HR.
Qed.

(** ** Rolling back *)

Lemma walFramePgno_spec w L f : wal_inv w L -> 0 < f <= len L -> mapped_at w f -> walFramePgno w f = L !! Z.to_nat (f - 1).
Proof.
  intros HW Hf Hm. pose proof (wo_len _ _ (wv_ok _ _ HW)). unfold walFramePgno. destruct (walFramePage_seg f ltac:(lia)) as (k & Hk & Hkr & Hz). rewrite Hk. cbn [mbind option_bind]. rewrite bool_decide_true by (by apply Hm). cbn [assert_ mbind option_bind].
  destruct (wo_seg _ _ (wv_ok _ _ HW) k ltac:(lia) ltac:(lia)) as (p & Hp & Hpok). rewrite Hp. cbn [mbind option_bind]. pose proof (izero_nonneg k ltac:(lia)). pose proof (izero_next k ltac:(lia)) as Hnx. pose proof (wi_size_range k).
  transitivity (pgno_get p (Z.of_nat (Z.to_nat (f - 1 - izero k)) + 1)).
  - unfold pgno_get. destruct npage_one as (E1 & E2 & _). rewrite E1, E2. unfold izero in *. rewrite E1, E2 in Hz, Hnx |- *. destruct (Z.eqb_spec k 0) as [->|Hk0]; [f_equal; lia|]. rewrite u32_id by lia. f_equal. Z.to_euclidean_division_equations. lia.
  - rewrite (pgno_get_ok k _ p _ Hpok) by lia. rewrite slice_lookup by lia. replace (Z.to_nat (izero k) + Z.to_nat (f - 1 - izero k))%nat with (Z.to_nat (f - 1)) by lia. by destruct (lookup_lt_is_Some_2 L (Z.to_nat (f - 1)) ltac:(lia)) as [x ->].
Qed.

(** xUndo is called for the frames after [n], in order. *)
Lemma undo_loop_spec w L : wal_inv w L -> forall P n junk fuel, L = take n L ++ P ++ junk -> (n <= length L)%nat -> Forall (fun p => p <> 1) P -> (forall i, Z.of_nat n < i <= Z.of_nat n + len P -> mapped_at w i) -> (length P < fuel)%nat ->
  undo_loop fuel w (Z.of_nat n + 1) (Z.of_nat n + len P) = Some P.
Proof.
  intros HW. induction P as [|p P IH]; intros n junk fuel HL Hn HP Hm Hfuel; (destruct fuel as [|fuel]; [lia|]); cbn [undo_loop length] in *.
  - rewrite (proj2 (Z.leb_gt _ _)) by lia. done.
  - apply Forall_cons in HP as [Hp HP]. rewrite (proj2 (Z.leb_le _ _)) by lia. assert (length (take n L) = n) as Hl by (rewrite length_take; lia).
    assert (L !! n = Some p) as Hlk by (rewrite HL, lookup_app_r, Hl, Nat.sub_diag by lia; done). apply lookup_lt_Some in Hlk as Hlt.
    rewrite (walFramePgno_spec w L) by (done || lia || (apply Hm; lia)). replace (Z.to_nat (Z.of_nat n + 1 - 1)) with n by lia. rewrite Hlk. cbn [mbind option_bind]. rewrite (proj2 (Z.eqb_neq p 1)) by done. cbn [negb assert_ mbind option_bind].
    replace (Z.of_nat n + 1 + 1) with (Z.of_nat (S n) + 1) by lia. replace (Z.of_nat n + Z.of_nat (S (length P))) with (Z.of_nat (S n) + len P) by lia. rewrite (IH (S n) junk); [done| |lia|done|intros i Hi; apply Hm; lia|lia].
    rewrite (take_S_r L n p Hlk). rewrite <- app_assoc. exact HL.
Qed.

(** The frames after [n] are gone, or there are none. *)
Lemma cleanup_refines w C P junk n : wal_inv w (C ++ P ++ junk) -> mxFrame w = len C + Z.of_nat n -> (n <= length P)%nat -> (mxFrame w <> 0 -> mapped_at w (mxFrame w)) ->
  exists w' junk', walCleanupHash w = Some w' /\ same_wal w w' /\ wal_inv w' (C ++ take n P ++ junk').
Proof.
  intros HW Hm Hn Hmap. destruct (walCleanupHash_spec w _ HW) as (w' & -> & Hs & HW'); [rewrite Hm, !length_app; lia|done|]. destruct (Z.eqb_spec (mxFrame w) 0) as [H0|H0].
  - exists w', (drop n P ++ junk). split; [done|]. split; [done|]. rewrite (app_assoc (take n P)), take_drop. done.
  - exists w', []. split; [done|]. split; [done|]. rewrite app_nil_r. rewrite Hm in HW'. replace (Z.to_nat (len C + Z.of_nat n)) with (length C + n)%nat in HW' by lia. rewrite take_app_add, (take_app_le P) in HW' by done. done.
Qed.

(** A state that agrees with [w] in what the operations do not change. *)
Lemma rel_pending w w' a P junk : wal_rel w a -> wal_inv w' (a_committed a ++ P ++ junk) -> mxFrame w' = len (a_committed a) + len P -> w_aHdr w' = w_aHdr w -> w_info w' = w_info w -> length (h_aSalt (w_hdr w')) = 8%nat ->
  (length P <= length (a_pending a))%nat -> (forall n, len (a_committed a) <= n <= len (a_committed a) + len P -> n <> 0 -> mapped_at w' n) -> Forall (fun p => p <> 1) P -> wal_rel w' (mkLog (a_committed a) P).
Proof.
  intros HR HW Hm E2 E3 Hs HP Hmap H1. assert (len (a_all (mkLog (a_committed a) P)) = len (a_committed a) + len P) as Hl by (unfold a_all; cbn; rewrite length_app; lia). split; rewrite ?E2, ?E3, ?Hl; [|done|apply HR|done|done|done|apply HR].
  exists junk. unfold a_all. cbn [a_committed a_pending]. by rewrite <- app_assoc.
Qed.

Lemma undo_refines w a : wal_rel w a -> exists w', sqlite3WalUndo w = Some (w', a_pending a) /\ wal_rel w' (mkLog (a_committed a) []) /\ same_wal (set_hdr w (w_aHdr w).1) w'.
Proof.
  intros HR. destruct (wr_inv _ _ HR) as [junk HW]. destruct (wr_hdr _ _ HR) as (h & Hh & (Hi & Hv & Hs & Hck) & Hhm). unfold sqlite3WalUndo. cbv zeta. rewrite !Hh. cbn [fst w_hdr set_hdr]. rewrite Hhm, (wr_mx _ _ HR). set (w0 := set_hdr w h).
  assert (wal_inv w0 (a_all a ++ junk)) as HW0 by (by eapply wal_inv_ext). assert (len (a_all a) = len (a_committed a) + len (a_pending a)) as Hl by (unfold a_all; rewrite length_app; lia). unfold a_all in HW0. rewrite <- app_assoc in HW0.
  rewrite Hl, (undo_loop_spec w0 _ HW0 (a_pending a) (length (a_committed a)) junk); [| |rewrite length_app; lia|apply HR|intros i Hi'; apply (wr_map _ _ HR); lia|lia]. 2: by rewrite take_app_length.
  cbn [mbind option_bind]. assert (mxFrame w0 = len (a_committed a) + Z.of_nat 0) as Hm0 by (cbn; lia). assert (mxFrame w0 <> 0 -> mapped_at w0 (mxFrame w0)) as Hmap by (intros H0; rewrite Hm0 in *; apply (wr_map _ _ HR); lia).
  assert (forall w1 junk1, same_wal w0 w1 -> wal_inv w1 (a_committed a ++ [] ++ junk1) -> wal_rel w1 (mkLog (a_committed a) [])) as Hdone.
  { intros w1 junk1 Hsame HW1. destruct (same_wal_hdr _ _ Hsame) as (E1 & E2 & E3 & _). apply (rel_pending w _ _ _ junk1 HR HW1); [rewrite E1; cbn; lia|by rewrite E2|by rewrite E3|by rewrite E1|cbn; lia| |done].
    cbn [length]. intros n Hn H0. eapply same_wal_mapped; [done|]. apply (wr_map _ _ HR); lia. }
  destruct (Z.eqb_spec (len (a_committed a) + len (a_pending a)) (len (a_committed a))) as [Heq|Hne]; cbn [negb mbind option_bind].
  - exists w0. split; [done|]. assert (a_pending a = []) as Hp by (apply length_zero_iff_nil; lia). rewrite Hp in HW0. split; [|apply same_wal_refl]. eapply Hdone; [apply same_wal_refl|exact HW0].
  - destruct (cleanup_refines w0 _ _ _ 0 HW0 Hm0 ltac:(lia) Hmap) as (w1 & junk1 & -> & Hsame & HW1). exists w1. split; [done|]. split; [by eapply Hdone|done].
Qed.

Lemma savepoint_refines w a sp : wal_rel w a -> op_ok w a (OpSavepointUndo sp) -> exists w', sqlite3WalSavepointUndo w sp = Some w' /\ wal_rel w' (alog_step (w_nCkpt w) a (OpSavepointUndo sp)).
Proof.
  intros HR Hok. destruct sp as [[n ck] c]. cbn [op_ok alog_step] in *. destruct (wr_inv _ _ HR) as [junk HW]. assert (len (a_all a) = len (a_committed a) + len (a_pending a)) as Hl by (unfold a_all; rewrite length_app; lia). unfold a_all in HW. rewrite <- app_assoc in HW.
  unfold sqlite3WalSavepointUndo. rewrite (wr_mx _ _ HR), Hl.
  assert (exists k, (k <= length (a_pending a))%nat /\ (if negb (c =? w_nCkpt w) then 0 else n) = len (a_committed a) + Z.of_nat k /\ (if c =? w_nCkpt w then take (Z.to_nat n - length (a_committed a)) (a_pending a) else []) = take k (a_pending a)) as (k & Hk & -> & ->).
  { destruct (c =? w_nCkpt w); cbn [negb]; [exists (Z.to_nat n - length (a_committed a))%nat; split; [lia|split; [lia|done]]|]. exists 0%nat. rewrite Hok. cbn. split; [lia|done]. }
  replace (negb (c =? w_nCkpt w) || (n <=? len (a_committed a) + len (a_pending a))) with true by (destruct (c =? w_nCkpt w); cbn; [lia|done]). cbn [assert_ mbind option_bind].
  destruct (Z.ltb_spec (len (a_committed a) + Z.of_nat k) (len (a_committed a) + len (a_pending a))) as [Hlt|Hge].
  - set (w0 := set_hdr w _). assert (wal_inv w0 (a_committed a ++ a_pending a ++ junk)) as HW0 by (by eapply wal_inv_ext). assert (mxFrame w0 = len (a_committed a) + Z.of_nat k) as Hm0 by done.
    destruct (cleanup_refines w0 _ _ _ k HW0 Hm0 Hk) as (w1 & junk1 & -> & Hsame & HW1); [intros H0; rewrite Hm0 in *; apply (wr_map _ _ HR); lia|]. exists w1. split; [done|]. destruct (same_wal_hdr _ _ Hsame) as (E1 & E2 & E3 & _).
    assert (length (take k (a_pending a)) = k) as Hlk by (rewrite length_take; lia). apply (rel_pending w _ _ _ junk1 HR HW1); [rewrite E1, Hm0; lia|by rewrite E2|by rewrite E3|rewrite E1; apply HR|lia| |apply Forall_take, HR].
    intros m Hm H0. eapply same_wal_mapped; [done|]. apply (wr_map _ _ HR); lia.
  - exists w. split; [done|]. rewrite take_ge by lia. by destruct a.
Qed.

Lemma takeover_refines w a ms rcs : wal_rel w a -> op_ok w a (OpTakeOver ms rcs) -> wal_rel (take_over w ms rcs) (mkLog (a_committed a) []).
Proof.
  intros HR (H0 & Hms & Hmap). destruct (wr_inv _ _ HR) as [junk HW]. destruct (wr_hdr _ _ HR) as (h & Hh & (Hi & Hv & Hs & Hck) & Hhm). unfold a_all in HW. rewrite <- app_assoc in HW.
  assert (w_hdr (take_over w ms rcs) = h) as E by (cbn; by rewrite Hh). apply (rel_pending w _ _ _ (a_pending a ++ junk) HR); [split; [apply HW|done|done]|rewrite E, Hhm; cbn; lia|done|done|by rewrite E|cbn; lia| |done].
  cbn [length]. intros n Hn Hn0. assert (n = len (a_committed a)) as -> by lia. intros k Hk. apply Hmap; [|done]. intros Hc. rewrite Hc in Hn0. done.
Qed.

Lemma restart_refines w a salt1 : wal_rel w a -> op_ok w a (OpRestart salt1) -> exists w', walRestartHdr w salt1 = Some w' /\ wal_rel w' (mkLog [] []).
Proof.
  intros HR (Hs & Hp). destruct (wr_inv _ _ HR) as [junk HW]. unfold walRestartHdr. cbv zeta. cbn [w_hdr set_hdr set_nCkpt h_aSalt hset_mxFrame]. pose proof (wr_salt _ _ HR) as Hsl.
  assert (exists s, sqlite3Get4byte (h_aSalt (w_hdr w)) = Some s) as [s ->]. { destruct (h_aSalt (w_hdr w)) as [|b0 [|b1 [|b2 [|b3 r]]]]; cbn in Hsl; try lia. by eexists. }
  cbn [mbind option_bind]. match goal with |- context [walIndexWriteHdr ?w2] => destruct (walIndexWriteHdr_spec w2) as (ck & -> & Hv); [cbn; lia|] end. cbn [mbind option_bind].
  cbn [w_info set_aHdr set_hdr set_nCkpt]. rewrite (wr_mark _ _ HR). cbn [mbind option_bind Z.eqb assert_]. eexists. split; [done|]. split; cbn -[replicate hset_init]; [|done| |cbn; lia| |done|done].
  - exists (a_all a ++ junk). by eapply wal_inv_ext.
  - eexists. split; [done|]. split; [exact Hv|done].
  - intros n Hn H0. lia.
Qed.

(** ** Readers *)

(** A connection that reads: it shares the memory of [w] and has its own snapshot of the
    header, its own mappings and the mark it holds a lock on. *)
Definition reader (w : Wal) (h : WalIndexHdr) (mapped : gset Z) (rcs : list Z) (lock : Z) : Wal := mkWal (w_apWiData w) (w_aHdr w) (w_info w) mapped rcs h lock (w_szPage w) (w_nCkpt w).

Definition reader_ok (w : Wal) (mapped : gset Z) : Prop := 0 ∈ mapped /\ forall k, k ∈ mapped -> is_Some (w_apWiData w !! k).

Lemma reader_inv w L h ms rcs lock : wal_inv w L -> reader_ok w ms -> wal_inv (reader w h ms rcs lock) L.
Proof. intros HW [H0 Hms]. split; [apply HW|done|done]. Qed.

(** One operation of a writer, or the exit of one and the start of another. *)
Inductive wal_step : Wal * alog -> Wal * alog -> Prop :=
  | wal_step_op w a op rc w' : op_ok w a op -> (forall s, op <> OpRestart s) -> wal_exec w op = Some (rc, w') ->
      wal_step (w, a) (w', if rc =? SQLITE_OK then alog_step (w_nCkpt w) a op else a).

Lemma exec_refines w a op : wal_rel w a -> op_ok w a op ->
  exists rc w', wal_exec w op = Some (rc, w') /\ wal_rel w' (if rc =? SQLITE_OK then alog_step (w_nCkpt w) a op else a) /\ (rc <> SQLITE_OK -> rc ∈ w_map w).
Proof.
  intros HR Hok. destruct op as [szPage pgnos nExtra nTruncate isCommit| |sp|ms rcs|salt1]; [destruct (frames_refines w a szPage pgnos nExtra nTruncate isCommit HR Hok) as (rc & w' & ? & ? & ? & _); eauto|..]; cbn [wal_exec].
  - destruct (undo_refines w a HR) as (w' & -> & HR' & _). by exists SQLITE_OK, w'.
  - destruct (savepoint_refines w a sp HR Hok) as (w' & -> & HR'). by exists SQLITE_OK, w'.
  - exists SQLITE_OK, (take_over w ms rcs). split; [done|]. split; [|done]. by apply takeover_refines.
  - destruct (restart_refines w a salt1 HR Hok) as (w' & -> & HR'). by exists SQLITE_OK, w'.
Qed.

Lemma alog_step_prefix n a op : (forall s, op <> OpRestart s) -> a_committed a `prefix_of` a_committed (alog_step n a op).
Proof. intros Hop. destruct op as [? ? ? ? []| |[[? ?] ?]|? ?|s]; cbn; [by eexists|done|done|done|done|by destruct (Hop s)]. Qed.

Lemma run_prefix s s' : rtc wal_step s s' -> wal_rel s.1 s.2 -> wal_rel s'.1 s'.2 /\ a_committed s.2 `prefix_of` a_committed s'.2.
Proof.
  induction 1 as [s|s s1 s' Hstep _ IH]; intros HR; [done|]. inversion Hstep as [w a op rc w' Hok Hop Hex]; subst. cbn [fst snd] in *. destruct (exec_refines w a op HR Hok) as (rc' & w'' & Hex' & HR' & _). rewrite Hex in Hex'. injection Hex' as <- <-.
  destruct (IH HR') as [HR2 Hpre]. split; [done|]. etransitivity; [|exact Hpre]. destruct (rc =? SQLITE_OK); [by apply alog_step_prefix|done].
Qed.

(** ** Properties *)

(** C13. The wal-index implements the abstract log: from a state that represents it, writing
    frames, rolling back a transaction or to a savepoint, a new writer after the exit of
    another, and restarting the log all return, and change the committed and the pending
    frames as specified; if they fail, the code is that of a page that could not be mapped, and
    the log is as before. *)
Theorem wal_refines_log w a op : wal_rel w a -> op_ok w a op ->
  exists rc w', wal_exec w op = Some (rc, w') /\ wal_rel w' (if rc =? SQLITE_OK then alog_step (w_nCkpt w) a op else a) /\ (rc <> SQLITE_OK -> rc ∈ w_map w).
Proof. apply exec_refines. Qed.

(** A reader's view does not change while writers work: the frame that
    sqlite3WalFindFrame finds for a page is the last one that held it among the frames
    committed when the reader took its copy of the header, whatever was written,
    rolled back or abandoned since, unless a page of the wal-index cannot be mapped. *)
Theorem wal_snapshot_stable w a w' a' mapped rcs lock pg : wal_rel w a -> rtc wal_step (w, a) (w', a') -> reader_ok w' mapped -> 0 < lock -> pgno_ok pg ->
  exists rc v r, sqlite3WalFindFrame (reader w' (w_aHdr w).1 mapped rcs lock) pg = Some (rc, v, r) /\
    (rc = SQLITE_OK -> r = last_frame (a_committed a) pg) /\ (rc <> SQLITE_OK -> rc ∈ rcs).
Proof.
  intros HR Hrun Hrd Hlock Hpg. destruct (run_prefix _ _ Hrun HR) as [HR' [more Hpre]]. cbn [fst snd] in *. destruct (wr_inv _ _ HR') as [junk HW]. destruct (wr_hdr _ _ HR) as (h & Hh & _ & Hhm). rewrite Hh. cbn [fst].
  unfold a_all in HW. rewrite Hpre, <- !app_assoc in HW.
  destruct (findFrame_spec (reader w' h mapped rcs lock) _ (length (a_committed a)) pg (reader_inv _ _ h mapped rcs lock HW Hrd)) as (rc & v & r & Hf & _ & _ & Hok & Hbad); [done|rewrite length_app; lia|done|done|].
  exists rc, v, r. rewrite take_app_length in Hok. done.
Qed.


(** ** Examples *)

(** An empty log. *)
Definition hdr0 : WalIndexHdr := let h := mkHdr WALINDEX_MAX_VERSION 0 0 1 0 0 0 0 (0, 0) (replicate 8 0) (0, 0) in hset_init h WALINDEX_MAX_VERSION 1 (default (0, 0) (walChecksumBytes true (hdr_bytes h) 40 None)).
Definition wal0 : Wal := mkWal {[0 := wi_zero 0]} (hdr0, hdr0) (mkInfo 0 (replicate 5 0)) {[0]} [] hdr0 1 0 0.

Lemma wal0_reader : reader_ok wal0 {[0]}.
Proof. split; [by apply elem_of_singleton|]. intros k ->%elem_of_singleton. by eexists. Qed.

Lemma wal0_rel : wal_rel wal0 (mkLog [] []).
Proof.
  split; [|done| |done| |done|done].
  - exists []. destruct wal0_reader as [H0 Hm]. split; [|done|done]. split; [done|done|]. intros k Hk Hlt. pose proof (izero_nonneg k Hk). cbn in Hlt. lia.
  - exists hdr0. split; [done|]. split; [by split_and!|done].
  - intros n Hn H0. cbn in Hn. lia.
Qed.

(** A committed transaction and a page of the next. *)
Definition ex_op1 : wal_op := OpFrames 512 [2; 3] 0 3 true.
Definition ex_w1 : Wal := default wal0 (snd <$> wal_exec wal0 ex_op1).
Definition ex_op2 : wal_op := OpFrames 512 [2] 0 0 false.
Definition ex_w2 : Wal := default wal0 (snd <$> wal_exec ex_w1 ex_op2).

Lemma ex_op1_ok : op_ok wal0 (mkLog [] []) ex_op1.
Proof. by split_and!; [|repeat constructor|..]. Qed.

Lemma ex_op2_ok : op_ok ex_w1 (mkLog [2; 3] []) ex_op2.
Proof. by split_and!; [|repeat constructor|..|intros _; split; [|repeat constructor]]. Qed.

Lemma ex_run : wal_exec wal0 ex_op1 = Some (SQLITE_OK, ex_w1) /\ wal_exec ex_w1 ex_op2 = Some (SQLITE_OK, ex_w2) /\ is_Some (w_apWiData ex_w2 !! 0).
Proof. vm_compute. split_and!; [done|done|by eexists]. Qed.

Lemma some_pair_inj {A B} (a a' : A) (b b' : B) : Some (a, b) = Some (a', b') -> a = a' /\ b = b'.
Proof. by intros [= -> ->]. Qed.

Lemma ex_w1_rel : wal_rel ex_w1 (mkLog [2; 3] []).
Proof. destruct (exec_refines wal0 _ ex_op1 wal0_rel ex_op1_ok) as (rc & w & Heq & HR & _). rewrite (proj1 ex_run) in Heq. destruct (some_pair_inj _ _ _ _ Heq) as [<- <-]. exact HR. Qed.

Lemma wal_refines_log_witness : exists rc w', wal_exec ex_w1 ex_op2 = Some (rc, w') /\ wal_rel w' (if rc =? SQLITE_OK then mkLog [2; 3] [2] else mkLog [2; 3] []).
Proof. destruct (wal_refines_log ex_w1 (mkLog [2; 3] []) ex_op2 ex_w1_rel ex_op2_ok) as (rc & w' & H1 & H2 & _). exists rc, w'. split; [exact H1|exact H2]. Defined.

Lemma wal_snapshot_stable_witness : exists rc v r, sqlite3WalFindFrame (reader ex_w2 (w_aHdr ex_w1).1 {[0]} [] 1) 2 = Some (rc, v, r) /\ (rc = SQLITE_OK -> r = 1).
Proof.
  destruct (wal_snapshot_stable ex_w1 (mkLog [2; 3] []) ex_w2 (mkLog [2; 3] [2]) {[0]} [] 1 2) as (rc & v & r & H1 & H2 & _); [apply ex_w1_rel| | |done|done|exists rc, v, r; split; [exact H1|exact H2]].
  - apply rtc_once. apply (wal_step_op ex_w1 (mkLog [2; 3] []) ex_op2 SQLITE_OK ex_w2 ex_op2_ok); [done|apply ex_run].
  - split; [by apply elem_of_singleton|]. intros k ->%elem_of_singleton. apply ex_run.
Defined.
