(* ===== verification/WalLog.v ===== *)
(** * WalLog: the log file of the write-ahead log (wal.c)

    The frames that sqlite3WalFrames writes and the recovery of the wal-index from
    the file.  The file is its bytes.  What the operating system answers is an
    input: [d_io] lists the results of the calls still to come, those beyond its
    end being SQLITE_OK; a write that fails has written as many bytes as its
    second component says.  [d_past] lists the contents that the file has had since the
    last sync, which a crash of the machine may bring back byte by byte. *)
From S2P Require Import Prelude Varint Record Page Wal.

Definition WAL_SYNC_TRANSACTIONS : Z := 0x20.
Definition SQLITE_SYNC_MASK : Z := 0x13.

(** What sqlite3WalOpen and the pager set: syncHeader, padToSectorBoundary, the result of
    sqlite3SectorSize, mxWalSize *)
Record WalCfg := mkCfg { c_syncHeader : bool; c_pad : bool; c_sectorSize : Z; c_mxWalSize : Z }.

Record WalDb := mkDb { d_wal : Wal; d_file : list Z; d_io : list (Z * Z); d_truncateOnCommit : bool; d_past : list (list Z) }.

Definition set_wal (d : WalDb) (w : Wal) : WalDb := mkDb w (d_file d) (d_io d) (d_truncateOnCommit d) (d_past d).
Definition set_file (d : WalDb) (f : list Z) : WalDb := mkDb (d_wal d) f (d_io d) (d_truncateOnCommit d) (d_past d ++ [d_file d]).
Definition set_io (d : WalDb) (io : list (Z * Z)) : WalDb := mkDb (d_wal d) (d_file d) io (d_truncateOnCommit d) (d_past d).
Definition set_trunc (d : WalDb) (b : bool) : WalDb := mkDb (d_wal d) (d_file d) (d_io d) b (d_past d).
Definition set_past (d : WalDb) (l : list (list Z)) : WalDb := mkDb (d_wal d) (d_file d) (d_io d) (d_truncateOnCommit d) l.

(** ** The file *)

(** Bytes written past the end leave zeros before them. *)
Definition file_write (f : list Z) (off : Z) (l : list Z) : list Z :=
  match l with
  | [] => f
  | _ => let f := f ++ replicate (Z.to_nat off - length f) 0 in take (Z.to_nat off) f ++ l ++ drop (Z.to_nat off + length l) f
  end.

Definition next_io (d : WalDb) : Z * Z * WalDb :=
  match d_io d with [] => (SQLITE_OK, 0, d) | (rc, n) :: io => (rc, n, set_io d io) end.

Definition os_write (d : WalDb) (content : list Z) (iOffset : Z) : Z * WalDb :=
  let '(rc, n, d) := next_io d in
  (rc, set_file d (file_write (d_file d) iOffset (if rc =? SQLITE_OK then content else take (Z.to_nat n) content))).

(** sqlite3OsFileSize, sqlite3OsRead, sqlite3_malloc, the locks, and calls on the database
    file: only their result codes *)
Definition os_call (d : WalDb) : Z * WalDb := let '(rc, _, d) := next_io d in (rc, d).

(** sqlite3OsSync of the log: what was written before it is there to stay. *)
Definition os_sync (d : WalDb) : Z * WalDb := let '(rc, _, d) := next_io d in (rc, set_past d (if rc =? SQLITE_OK then [] else d_past d)).

Definition os_truncate (d : WalDb) (n : Z) : Z * WalDb :=
  let '(rc, d) := os_call d in (rc, if rc =? SQLITE_OK then set_file d (take (Z.to_nat n) (d_file d)) else d).

Definition walLimitSize (d : WalDb) (nMax : Z) : WalDb :=
  let '(rx, d) := os_call d in
  if (rx =? SQLITE_OK) && (nMax <? Z.of_nat (length (d_file d))) then (os_truncate d nMax).2 else d.

Definition walFrameOffset (iFrame szPage : Z) : Z := WAL_HDRSIZE + (iFrame - 1) * (szPage + WAL_FRAME_HDRSIZE).

(** ** Frames *)

(** aFrame, and the connection with its new aFrameCksum *)
Definition walEncodeFrame (w : Wal) (iPage nTruncate : Z) (aData : list Z) : option (list Z * Wal) :=
  let aFrame := sqlite3Put4byte iPage ++ sqlite3Put4byte nTruncate ++ h_aSalt (w_hdr w) in
  let nativeCksum := h_bigEndCksum (w_hdr w) =? SQLITE_BIGENDIAN in
  ck ← walChecksumBytes nativeCksum aFrame 8 (Some (h_aFrameCksum (w_hdr w)));
  ck ← walChecksumBytes nativeCksum aData (w_szPage w) (Some ck);
  Some (aFrame ++ sqlite3Put4byte ck.1 ++ sqlite3Put4byte ck.2, set_hdr w (hset_cksum (w_hdr w) ck)).

(** *piPage and *pnTruncate if the frame is valid *)
Definition walDecodeFrame (w : Wal) (aData aFrame : list Z) : option (option (Z * Z) * Wal) :=
  salt ← get_bytes aFrame 8 8;
  if decide (h_aSalt (w_hdr w) <> salt) then Some (None, w)
  else
    pgno ← sqlite3Get4byte aFrame;
    if pgno =? 0 then Some (None, w)
    else
      let nativeCksum := h_bigEndCksum (w_hdr w) =? SQLITE_BIGENDIAN in
      ck ← walChecksumBytes nativeCksum aFrame 8 (Some (h_aFrameCksum (w_hdr w)));
      ck ← walChecksumBytes nativeCksum aData (w_szPage w) (Some ck);
      let w := set_hdr w (hset_cksum (w_hdr w) ck) in
      c0 ← sqlite3Get4byte (drop 16 aFrame);
      c1 ← sqlite3Get4byte (drop 20 aFrame);
      if negb (ck.1 =? c0) || negb (ck.2 =? c1) then Some (None, w)
      else n ← sqlite3Get4byte (drop 4 aFrame); Some (Some (pgno, n), w).

(** ** Writing *)

Definition walWriteToLog (d : WalDb) (iSyncPoint : Z) (pContent : list Z) (iOffset : Z) : Z * WalDb :=
  let iAmt := Z.of_nat (length pContent) in
  if (iOffset <? iSyncPoint) && (iSyncPoint <=? iOffset + iAmt) then
    let iFirstAmt := iSyncPoint - iOffset in
    let '(rc, d) := os_write d (take (Z.to_nat iFirstAmt) pContent) iOffset in
    if negb (rc =? SQLITE_OK) then (rc, d)
    else
      let iOffset := iOffset + iFirstAmt in
      let iAmt := iAmt - iFirstAmt in
      let pContent := drop (Z.to_nat iFirstAmt) pContent in
      let '(rc, d) := os_sync d in
      if (iAmt =? 0) || negb (rc =? SQLITE_OK) then (rc, d)
      else os_write d pContent iOffset
  else os_write d pContent iOffset.

(** pData has szPage bytes. *)
Definition walWriteOneFrame (d : WalDb) (iSyncPoint szPage : Z) (pPage : Z * list Z) (nTruncate iOffset : Z) : option (Z * WalDb) :=
  let '(pgno, pData) := pPage in
  '(aFrame, w) ← walEncodeFrame (d_wal d) pgno nTruncate pData;
  let d := set_wal d w in
  let '(rc, d) := walWriteToLog d iSyncPoint aFrame iOffset in
  if negb (rc =? SQLITE_OK) then Some (rc, d)
  else data ← get_bytes pData 0 szPage; Some (walWriteToLog d iSyncPoint data (iOffset + WAL_FRAME_HDRSIZE)).

(** The loop over pList; the last components are iFrame and iOffset. *)
Fixpoint frames_loop (d : WalDb) (szPage nTruncate : Z) (isCommit : bool) (iFrame iOffset : Z) (pList : list (Z * list Z)) : option (Z * WalDb * Z * Z) :=
  match pList with
  | [] => Some (SQLITE_OK, d, iFrame, iOffset)
  | p :: pList =>
      let iFrame := u32 (iFrame + 1) in
      _ ← assert_ (iOffset =? walFrameOffset iFrame szPage);
      let nDbSize := if isCommit && (match pList with [] => true | _ => false end) then nTruncate else 0 in
      '(rc, d) ← walWriteOneFrame d 0 szPage p nDbSize iOffset;
      if negb (rc =? SQLITE_OK) then Some (rc, d, iFrame, iOffset)
      else frames_loop d szPage nTruncate isCommit iFrame (iOffset + (szPage + WAL_FRAME_HDRSIZE)) pList
  end.

(** The copies of the last frame up to the sync point; the last component is nExtra. *)
Fixpoint pad_loop (fuel : nat) (d : WalDb) (iSyncPoint szPage : Z) (pLast : Z * list Z) (nTruncate iOffset : Z) (nExtra : nat) : option (Z * WalDb * nat) :=
  match fuel with
  | O => None
  | S fuel =>
      if iOffset <? iSyncPoint then
        '(rc, d) ← walWriteOneFrame d iSyncPoint szPage pLast nTruncate iOffset;
        if negb (rc =? SQLITE_OK) then Some (rc, d, nExtra)
        else pad_loop fuel d iSyncPoint szPage pLast nTruncate (iOffset + (szPage + WAL_FRAME_HDRSIZE)) (S nExtra)
      else Some (SQLITE_OK, d, nExtra)
  end.

(** The header of the log, written before the first frame; [salt] are random bytes. *)
Definition frames_header (c : WalCfg) (d : WalDb) (szPage sync_flags : Z) (salt : list Z) : option (Z * WalDb) :=
  let w := d_wal d in
  let w := if w_nCkpt w =? 0 then set_hdr w (hset_salt (w_hdr w) salt) else w in
  let aWalHdr := sqlite3Put4byte (Z.lor WAL_MAGIC SQLITE_BIGENDIAN) ++ sqlite3Put4byte WAL_MAX_VERSION ++ sqlite3Put4byte szPage ++ sqlite3Put4byte (w_nCkpt w) ++ h_aSalt (w_hdr w) in
  ck ← walChecksumBytes true aWalHdr (WAL_HDRSIZE - 2 * 4) None;
  let aWalHdr := aWalHdr ++ sqlite3Put4byte ck.1 ++ sqlite3Put4byte ck.2 in
  let d := set_trunc (set_wal d (set_hdr (set_wsz w szPage) (hset_cksum (hset_bigEnd (w_hdr w) SQLITE_BIGENDIAN) ck))) true in
  let '(rc, d) := os_write d aWalHdr 0 in
  if negb (rc =? SQLITE_OK) then Some (rc, d)
  else if c_syncHeader c && negb (sync_flags =? 0) then Some (os_sync d) else Some (SQLITE_OK, d).

(** Padding and syncing at the end of a transaction.  The first component tells if
    sqlite3WalFrames returns: it does when a write fails, and not when the sync does. *)
Definition frames_sync (c : WalCfg) (d : WalDb) (szPage nTruncate : Z) (isCommit : bool) (sync_flags : Z) (pLast : Z * list Z) (iOffset : Z) : option (bool * Z * WalDb * nat) :=
  if isCommit && negb (Z.land sync_flags WAL_SYNC_TRANSACTIONS =? 0) then
    if c_pad c then
      let iSyncPoint := Z.quot (iOffset + c_sectorSize c - 1) (c_sectorSize c) * c_sectorSize c in
      '(rc, d, nExtra) ← pad_loop (S (Z.to_nat (iSyncPoint - iOffset))) d iSyncPoint szPage pLast nTruncate iOffset 0;
      Some (negb (rc =? SQLITE_OK), rc, d, nExtra)
    else let '(rc, d) := os_sync d in Some (false, rc, d, 0%nat)
  else Some (false, SQLITE_OK, d, 0%nat).

(** The log is cut down to its size limit after its first transaction. *)
Definition frames_limit (c : WalCfg) (d : WalDb) (szPage iFrame : Z) (nExtra : nat) (isCommit : bool) : WalDb :=
  if isCommit && d_truncateOnCommit d && (0 <=? c_mxWalSize c) then
    let sz := if c_mxWalSize c <? walFrameOffset (iFrame + Z.of_nat nExtra + 1) szPage then walFrameOffset (iFrame + Z.of_nat nExtra + 1) szPage else c_mxWalSize c in
    set_trunc (walLimitSize d sz) false
  else d.

(** The frames, the sync, and the wal-index. *)
Definition frames_body (c : WalCfg) (d : WalDb) (szPage : Z) (pList : list (Z * list Z)) (nTruncate : Z) (isCommit : bool) (sync_flags : Z) : option (Z * WalDb) :=
  let iFrame := mxFrame (d_wal d) in
  _ ← assert_ (w_szPage (d_wal d) =? szPage);
  '(rc, d, iFrame, iOffset) ← frames_loop d szPage nTruncate isCommit iFrame (walFrameOffset (iFrame + 1) szPage) pList;
  if negb (rc =? SQLITE_OK) then Some (rc, d)
  else
    '(ret, rc, d, nExtra) ← frames_sync c d szPage nTruncate isCommit sync_flags (List.last pList (0, [])) iOffset;
    if ret : bool then Some (rc, d)
    else
      let d := frames_limit c d szPage iFrame nExtra isCommit in
      if rc =? SQLITE_OK then '(rc, w) ← walFrames_index (d_wal d) szPage (map fst pList) nExtra nTruncate isCommit; Some (rc, set_wal d w)
      else Some (rc, d).

(** What sqlite3WalFrames does once walRestartLog has returned. *)
Definition walFrames_write (c : WalCfg) (d : WalDb) (szPage : Z) (pList : list (Z * list Z)) (nTruncate : Z) (isCommit : bool) (sync_flags : Z) (salt : list Z) : option (Z * WalDb) :=
  _ ← assert_ (match pList with [] => false | _ => true end);
  _ ← assert_ (Bool.eqb isCommit (negb (nTruncate =? 0)));
  '(rc, d) ← (if mxFrame (d_wal d) =? 0 then frames_header c d szPage sync_flags salt else Some (SQLITE_OK, d));
  if negb (rc =? SQLITE_OK) then Some (rc, d)
  else frames_body c d szPage pList nTruncate isCommit sync_flags.

(** ** Recovery *)

Definition zero_hdr : WalIndexHdr := mkHdr 0 0 0 0 0 0 0 0 (0, 0) (replicate 8 0) (0, 0).

(** The conversion of a u32 to int *)
Definition to_int (z : Z) : Z := (z + 2 ^ 31) mod 2 ^ 32 - 2 ^ 31.

(** The loop over the frames; the last component is aFrameCksum, that of the last commit. *)
Fixpoint recover_loop (fuel : nat) (d : WalDb) (szPage iFrame iOffset : Z) (aFrameCksum : Z * Z) : option (Z * WalDb * (Z * Z)) :=
  let szFrame := szPage + WAL_FRAME_HDRSIZE in
  match fuel with
  | O => None
  | S fuel =>
      if iOffset + szFrame <=? Z.of_nat (length (d_file d)) then
        let iFrame := iFrame + 1 in
        let '(rc, d) := os_call d in
        if negb (rc =? SQLITE_OK) then Some (rc, d, aFrameCksum)
        else
          aFrame ← get_bytes (d_file d) iOffset szFrame;
          '(r, w) ← walDecodeFrame (d_wal d) (drop (Z.to_nat WAL_FRAME_HDRSIZE) aFrame) aFrame;
          match r with
          | None => Some (SQLITE_OK, set_wal d w, aFrameCksum)
          | Some (pgno, nTruncate) =>
              '(rc, w) ← walIndexAppend w iFrame pgno;
              if negb (rc =? SQLITE_OK) then Some (rc, set_wal d w, aFrameCksum)
              else if negb (nTruncate =? 0) then
                let h := hset_szPage (hset_nPage (hset_mxFrame (w_hdr w) iFrame) nTruncate) (u16 (Z.lor (Z.land szPage 0xff00) (Z.shiftr szPage 16))) in
                recover_loop fuel (set_wal d (set_hdr w h)) szPage iFrame (iOffset + szFrame) (h_aFrameCksum h)
              else recover_loop fuel (set_wal d w) szPage iFrame (iOffset + szFrame) aFrameCksum
          end
      else Some (SQLITE_OK, d, aFrameCksum)
  end.

Definition recover_finish (d : WalDb) (aFrameCksum : Z * Z) : option (Z * WalDb) :=
  let w := d_wal d in
  w ← walIndexWriteHdr (set_hdr w (hset_cksum (w_hdr w) aFrameCksum));
  let marks := [0; (if negb (mxFrame w =? 0) then mxFrame w else READMARK_NOT_USED)] ++ replicate (Z.to_nat (WAL_NREADER - 2)) READMARK_NOT_USED in
  Some (SQLITE_OK, set_wal d (set_info w (mkInfo 0 marks))).

(** The header of the log, and the frames *)
Definition recover_log (d : WalDb) : option (Z * WalDb * (Z * Z)) :=
  let '(rc, d) := os_call d in
  if negb (rc =? SQLITE_OK) then Some (rc, d, (0, 0))
  else
    aBuf ← get_bytes (d_file d) 0 WAL_HDRSIZE;
    magic ← sqlite3Get4byte aBuf;
    szPage ← sqlite3Get4byte (drop 8 aBuf);
    let szPage := to_int szPage in
    bad ← (if negb (Z.land magic 0xFFFFFFFE =? WAL_MAGIC) then Some true
           else less ← cint (szPage - 1); Some (negb (Z.land szPage less =? 0) || (SQLITE_MAX_PAGE_SIZE <? szPage) || (szPage <? 512)));
    if (bad : bool) then Some (SQLITE_OK, d, (0, 0))
    else
      nCkpt ← sqlite3Get4byte (drop 12 aBuf);
      salt ← get_bytes aBuf 16 8;
      let w := set_nCkpt (set_wsz (d_wal d) szPage) nCkpt in
      let w := set_hdr w (hset_salt (hset_bigEnd (w_hdr w) (u8 (Z.land magic 1))) salt) in
      ck ← walChecksumBytes (h_bigEndCksum (w_hdr w) =? SQLITE_BIGENDIAN) aBuf (WAL_HDRSIZE - 2 * 4) None;
      let d := set_wal d (set_hdr w (hset_cksum (w_hdr w) ck)) in
      c0 ← sqlite3Get4byte (drop 24 aBuf);
      c1 ← sqlite3Get4byte (drop 28 aBuf);
      if negb (ck.1 =? c0) || negb (ck.2 =? c1) then Some (SQLITE_OK, d, (0, 0))
      else
        version ← sqlite3Get4byte (drop 4 aBuf);
        if negb (version =? WAL_MAX_VERSION) then Some (SQLITE_CANTOPEN, d, (0, 0))
        else
          let '(rc, d) := os_call d in
          if negb (rc =? SQLITE_OK) then Some (rc, d, (0, 0))
          else recover_loop (S (length (d_file d))) d szPage 0 WAL_HDRSIZE (0, 0).

Definition walIndexRecover (d : WalDb) : option (Z * WalDb) :=
  let '(rc, d) := os_call d in
  if negb (rc =? SQLITE_OK) then Some (rc, d)
  else
    let d := set_wal d (set_hdr (d_wal d) zero_hdr) in
    let '(rc, d) := os_call d in
    if negb (rc =? SQLITE_OK) then Some (rc, d)
    else
      '(rc, d, aFrameCksum) ← (if WAL_HDRSIZE <? Z.of_nat (length (d_file d)) then recover_log d else Some (SQLITE_OK, d, (0, 0)));
      if rc =? SQLITE_OK then recover_finish d aFrameCksum else Some (rc, d).
