(* ===== verification/WalFrame.v ===== *)
(** * WalFrame: the frames of the log file (wal.c)

    A frame carries its page and a checksum over everything before it.  The chain
    of frames that walEncodeFrame produces is what walDecodeFrame accepts, and
    nothing else. *)
From S2P Require Import Prelude Varint Record Page PageLayout PageCells Wal WalLog WalHash WalIndex WalSpec.

(** ** Bytes *)

Lemma get4_bytes l : (4 <= length l)%nat -> Forall is_byte l -> exists v, sqlite3Get4byte l = Some v /\ 0 <= v < 2 ^ 32 /\ sqlite3Put4byte v = take 4 l.
Proof.
  intros Hl Hb. destruct l as [|b0 [|b1 [|b2 [|b3 l]]]]; cbn in Hl; try lia. repeat apply Forall_cons in Hb as [? Hb]. rewrite get4_val by done. eexists. split; [done|]. unfold is_byte in *. split; [lia|].
  unfold sqlite3Put4byte, u8. rewrite !Z.shiftr_div_pow2 by lia. cbn [take]. change (2 ^ 8) with 256. repeat f_equal; Z.to_euclidean_division_equations; lia.
Qed.

Lemma put4_app v l : 0 <= v < 2 ^ 32 -> sqlite3Get4byte (sqlite3Put4byte v ++ l) = Some v.
Proof. apply get4_put4. Qed.

Lemma get4_pre l r : length l = 4%nat -> Forall is_byte l -> exists v, sqlite3Get4byte (l ++ r) = Some v /\ 0 <= v < 2 ^ 32 /\ sqlite3Put4byte v = l.
Proof. intros Hl Hb. destruct (get4_bytes l) as (v & _ & Hr & Hp); [lia|done|]. rewrite take_ge in Hp by lia. exists v. split; [|done]. rewrite <- Hp. by apply put4_app. Qed.

Lemma split_len {A} (l : list A) n : (n <= length l)%nat -> exists a b, l = a ++ b /\ length a = n.
Proof. intros Hn. exists (take n l), (drop n l). rewrite take_drop, length_take. split; [done|lia]. Qed.

(** ** Frames *)

Record frame := mkFrame { f_pgno : Z; f_trunc : Z; f_data : list Z }.

Section Frames.
Context (native : bool) (salt : list Z) (szPage : Z).

Definition frame_ok (f : frame) : Prop := pgno_ok (f_pgno f) /\ 0 <= f_trunc f < 2 ^ 32 /\ Z.of_nat (length (f_data f)) = szPage /\ Forall is_byte (f_data f).

(** The checksum after a frame. *)
Definition frame_ck (ck : Z * Z) (f : frame) : Z * Z :=
  default (0, 0) (ck ← walChecksumBytes native (sqlite3Put4byte (f_pgno f) ++ sqlite3Put4byte (f_trunc f)) 8 (Some ck); walChecksumBytes native (f_data f) szPage (Some ck)).

Definition frame_head (ck : Z * Z) (f : frame) : list Z :=
  sqlite3Put4byte (f_pgno f) ++ sqlite3Put4byte (f_trunc f) ++ salt ++ sqlite3Put4byte (frame_ck ck f).1 ++ sqlite3Put4byte (frame_ck ck f).2.
Definition frame_bytes (ck : Z * Z) (f : frame) : list Z := frame_head ck f ++ f_data f.

Fixpoint chain_bytes (ck : Z * Z) (fs : list frame) : list Z :=
  match fs with [] => [] | f :: fs => frame_bytes ck f ++ chain_bytes (frame_ck ck f) fs end.
Definition chain_ck (ck : Z * Z) (fs : list frame) : Z * Z := foldl frame_ck ck fs.

Lemma chain_app ck fs gs : chain_bytes ck (fs ++ gs) = chain_bytes ck fs ++ chain_bytes (chain_ck ck fs) gs.
Proof. revert ck. induction fs as [|f fs IH]; intros ck; [done|]. cbn [app chain_bytes chain_ck foldl]. by rewrite IH, app_assoc. Qed.

Lemma chain_ck_app ck fs gs : chain_ck ck (fs ++ gs) = chain_ck (chain_ck ck fs) gs.
Proof. apply foldl_app. Qed.

(** A connection that is about to write or read the frame after checksum [ck]. *)
Definition at_ck (w : Wal) (ck : Z * Z) : Prop := (h_bigEndCksum (w_hdr w) =? SQLITE_BIGENDIAN) = native /\ h_aSalt (w_hdr w) = salt /\ w_szPage w = szPage /\ h_aFrameCksum (w_hdr w) = ck.

Context (Hsz : 8 <= szPage /\ szPage mod 8 = 0) (Hsalt : length salt = 8%nat).

Lemma walChecksumBytes_prefix a b n aIn : Z.of_nat (length a) = n -> walChecksumBytes native (a ++ b) n aIn = walChecksumBytes native a n aIn.
Proof using. clear Hsz Hsalt. intros Hn. unfold walChecksumBytes, get_bytes. destruct (default (0, 0) aIn). rewrite length_app, !decide_True by lia. rewrite !drop_0, take_app_le by lia. done. Qed.

Lemma frame_ck_spec ck f : cksum_range ck -> frame_ok f ->
  exists ck1, walChecksumBytes native (sqlite3Put4byte (f_pgno f) ++ sqlite3Put4byte (f_trunc f)) 8 (Some ck) = Some ck1 /\ walChecksumBytes native (f_data f) szPage (Some ck1) = Some (frame_ck ck f) /\ cksum_range (frame_ck ck f).
Proof using Hsz Hsalt.
  intros Hck (_ & _ & Hd & _). unfold frame_ck. destruct (walChecksumBytes_total native (sqlite3Put4byte (f_pgno f) ++ sqlite3Put4byte (f_trunc f)) 8 (Some ck)) as (ck1 & H1 & R1); [cbn; lia|done|done|]. rewrite H1. cbn [mbind option_bind]. exists ck1. split; [done|].
  destruct (walChecksumBytes_total native (f_data f) szPage (Some ck1)) as (ck2 & H2 & R2); [lia|lia|done|]. rewrite H2. done.
Qed.

Lemma chain_ck_range fs : forall ck, cksum_range ck -> Forall frame_ok fs -> cksum_range (chain_ck ck fs).
Proof using Hsz Hsalt. induction fs as [|f fs IH]; intros ck Hck Hfs; [done|]. apply Forall_cons in Hfs as [Hf Hfs]. cbn [chain_ck foldl]. apply IH; [|done]. by destruct (frame_ck_spec ck f Hck Hf) as (_ & _ & _ & ?). Qed.

Lemma frame_head_length ck f : length (frame_head ck f) = 24%nat.
Proof using Hsz Hsalt. unfold frame_head. rewrite !length_app, Hsalt. done. Qed.

Lemma frame_bytes_length ck f : frame_ok f -> Z.of_nat (length (frame_bytes ck f)) = szPage + WAL_FRAME_HDRSIZE.
Proof using Hsz Hsalt. intros (_ & _ & Hd & _). unfold frame_bytes. rewrite length_app, frame_head_length. change WAL_FRAME_HDRSIZE with 24. lia. Qed.

Lemma chain_length fs : forall ck, Forall frame_ok fs -> Z.of_nat (length (chain_bytes ck fs)) = len fs * (szPage + WAL_FRAME_HDRSIZE).
Proof using Hsz Hsalt. induction fs as [|f fs IH]; intros ck Hfs; [done|]. apply Forall_cons in Hfs as [Hf Hfs]. cbn [chain_bytes length]. rewrite length_app, Nat2Z.inj_add, IH, frame_bytes_length by done. lia. Qed.

Lemma walEncodeFrame_spec w ck f : at_ck w ck -> cksum_range ck -> frame_ok f ->
  walEncodeFrame w (f_pgno f) (f_trunc f) (f_data f) = Some (frame_head ck f, set_hdr w (hset_cksum (w_hdr w) (frame_ck ck f))).
Proof using Hsz Hsalt.
  intros (E1 & E2 & E3 & E4) Hck Hf. unfold walEncodeFrame. rewrite E1, E2, E3, E4. destruct (frame_ck_spec ck f Hck Hf) as (ck1 & H1 & H2 & _). rewrite app_assoc, walChecksumBytes_prefix, H1 by done. cbn [mbind option_bind]. rewrite H2. cbn [mbind option_bind].
  unfold frame_head. by rewrite <- !app_assoc.
Qed.

(** What walDecodeFrame does on the bytes of a frame. *)
Lemma walDecodeFrame_ok w ck f : at_ck w ck -> cksum_range ck -> frame_ok f ->
  walDecodeFrame w (drop (Z.to_nat WAL_FRAME_HDRSIZE) (frame_bytes ck f)) (frame_bytes ck f) = Some (Some (f_pgno f, f_trunc f), set_hdr w (hset_cksum (w_hdr w) (frame_ck ck f))).
Proof using Hsz Hsalt.
  intros (E1 & E2 & E3 & E4) Hck Hf. pose proof Hf as (Hp & Ht & Hd & _). destruct (frame_ck_spec ck f Hck Hf) as (ck1 & H1 & H2 & Hr1 & Hr2). unfold walDecodeFrame.
  assert (drop (Z.to_nat WAL_FRAME_HDRSIZE) (frame_bytes ck f) = f_data f) as -> by (unfold frame_bytes; apply drop_app_length'; by rewrite frame_head_length). unfold frame_bytes, frame_head. rewrite <- !app_assoc.
  set (c0 := (frame_ck ck f).1) in *. set (c1 := (frame_ck ck f).2) in *. set (A := sqlite3Put4byte (f_pgno f)). set (B := sqlite3Put4byte (f_trunc f)).
  assert (length A = 4%nat /\ length B = 4%nat) as [HA HB] by done.
  assert (get_bytes (A ++ B ++ salt ++ sqlite3Put4byte c0 ++ sqlite3Put4byte c1 ++ f_data f) 8 8 = Some salt) as ->.
  { unfold get_bytes. rewrite decide_True by (rewrite !length_app, HA, HB; lia). change (Z.to_nat 8) with (length (A ++ B)) at 2. rewrite (app_assoc A B), drop_app_length. rewrite take_app_le, take_ge by lia. done. }
  cbn [mbind option_bind]. rewrite decide_False by (rewrite E2; tauto). unfold A. rewrite put4_app by (unfold pgno_ok in Hp; lia). fold A. cbn [mbind option_bind]. rewrite (proj2 (Z.eqb_neq _ 0)) by (unfold pgno_ok in Hp; lia). rewrite E1, E3, E4.
  rewrite (app_assoc A B), walChecksumBytes_prefix by done. unfold A, B. rewrite H1. fold A B. cbn [mbind option_bind]. rewrite H2. cbn [mbind option_bind].
  set (R := salt ++ sqlite3Put4byte c0 ++ sqlite3Put4byte c1 ++ f_data f).
  assert (sqlite3Get4byte (drop 16 ((A ++ B) ++ R)) = Some c0) as ->.
  { change 16%nat with (length (A ++ B) + 8)%nat. rewrite drop_app_add. unfold R. rewrite drop_app_length' by done. by apply put4_app. }
  assert (sqlite3Get4byte (drop 20 ((A ++ B) ++ R)) = Some c1) as ->.
  { change 20%nat with (length (A ++ B) + 12)%nat. rewrite drop_app_add. unfold R. rewrite app_assoc, drop_app_length' by (rewrite length_app, Hsalt; done). by apply put4_app. }
  cbn [mbind option_bind]. unfold c0, c1. rewrite !Z.eqb_refl. cbn [negb orb].
  rewrite <- (app_assoc A). change 4%nat with (length A). rewrite drop_app_length. unfold B. rewrite put4_app by lia. done.
Qed.

(** Any bytes that walDecodeFrame accepts are those of a frame. *)
Lemma walDecodeFrame_sound w ck l : at_ck w ck -> cksum_range ck -> Z.of_nat (length l) = szPage + WAL_FRAME_HDRSIZE -> Forall is_byte l ->
  exists r w', walDecodeFrame w (drop (Z.to_nat WAL_FRAME_HDRSIZE) l) l = Some (r, w') /\ (w' = w \/ exists ck', w' = set_hdr w (hset_cksum (w_hdr w) ck')) /\
    (r <> None -> exists f, frame_ok f /\ l = frame_bytes ck f).
Proof using Hsz Hsalt.
  intros (E1 & E2 & E3 & E4) Hck Hl Hb. change WAL_FRAME_HDRSIZE with 24 in Hl.
  destruct (split_len l 4) as (A & l1 & -> & HA); [lia|]. destruct (split_len l1 4) as (B & l2 & -> & HB); [rewrite length_app in Hl; lia|]. destruct (split_len l2 8) as (S & l3 & -> & HS); [rewrite !length_app in Hl; lia|].
  destruct (split_len l3 4) as (C & l4 & -> & HC); [rewrite !length_app in Hl; lia|]. destruct (split_len l4 4) as (D & data & -> & HD); [rewrite !length_app in Hl; lia|]. rewrite !length_app, HA, HB, HS, HC, HD in Hl.
  assert (Forall is_byte A /\ Forall is_byte B /\ Forall is_byte C /\ Forall is_byte D /\ Forall is_byte data) as (FA & FB & FC & FD & Fd) by (rewrite !Forall_app in Hb; tauto).
  destruct (get4_pre A (B ++ S ++ C ++ D ++ data) HA FA) as (pgno & GA & RA & PA). destruct (get4_pre B (S ++ C ++ D ++ data) HB FB) as (nt & GB & RB & PB). destruct (get4_pre C (D ++ data) HC FC) as (c0 & GC & RC & PC). destruct (get4_pre D data HD FD) as (c1 & GD & RD & PD).
  unfold walDecodeFrame. assert (get_bytes (A ++ B ++ S ++ C ++ D ++ data) 8 8 = Some S) as ->.
  { unfold get_bytes. rewrite decide_True by (rewrite !length_app; lia). change (Z.to_nat 8) with 8%nat. rewrite app_assoc, drop_app_length' by (rewrite length_app; lia). by rewrite take_app_length'. }
  cbn [mbind option_bind]. destruct (decide (h_aSalt (w_hdr w) <> S)) as [Hne|Heq]; [eexists _, _; split; [done|]; split; [by left|done]|]. apply dec_stable in Heq. rewrite GA. cbn [mbind option_bind]. destruct (Z.eqb_spec pgno 0) as [|Hp0]; [eexists _, _; split; [done|]; split; [by left|done]|].
  assert (drop (Z.to_nat WAL_FRAME_HDRSIZE) (A ++ B ++ S ++ C ++ D ++ data) = data) as ->. { change (Z.to_nat WAL_FRAME_HDRSIZE) with 24%nat. rewrite !app_assoc. apply drop_app_length'. rewrite !length_app. lia. }
  set (f := mkFrame pgno nt data). assert (frame_ok f) as Hf by (split_and!; cbn; [unfold pgno_ok; lia|lia|lia|lia|done]). destruct (frame_ck_spec ck f Hck Hf) as (ck1 & H1 & H2 & Hr1 & Hr2). cbn [f_pgno f_trunc f_data f] in H1, H2.
  rewrite E1, E3, E4, (app_assoc A), walChecksumBytes_prefix by (rewrite length_app; lia). rewrite <- PA, <- PB, H1. cbn [mbind option_bind]. rewrite H2. cbn [mbind option_bind]. rewrite PA, PB.
  assert (drop 16 ((A ++ B) ++ S ++ C ++ D ++ data) = C ++ D ++ data) as -> by (rewrite (app_assoc (A ++ B)); apply drop_app_length'; rewrite !length_app; lia). assert (drop 20 ((A ++ B) ++ S ++ C ++ D ++ data) = D ++ data) as -> by (rewrite (app_assoc (A ++ B)), (app_assoc _ C); apply drop_app_length'; rewrite !length_app; lia).
  assert (drop 4 ((A ++ B) ++ S ++ C ++ D ++ data) = B ++ S ++ C ++ D ++ data) as -> by (rewrite <- app_assoc; by apply drop_app_length'). rewrite GC, GD, GB. cbn [mbind option_bind].
  destruct (Z.eqb_spec (frame_ck ck f).1 c0) as [Hc0|]; [|eexists _, _; split; [done|]; split; [right; eauto|done]]. destruct (Z.eqb_spec (frame_ck ck f).2 c1) as [Hc1|]; [|eexists _, _; split; [done|]; split; [right; eauto|done]].
  eexists _, _. split; [done|]. split; [right; eauto|]. intros _. exists f. split; [done|]. unfold frame_bytes, frame_head. rewrite Hc0, Hc1. cbn [f_pgno f_trunc f_data f]. rewrite PA, PB, PC, PD, <- E2, Heq. by rewrite <- !app_assoc.
Qed.
End Frames.
