(* ===== verification/WalRecover.v ===== *)
(** * WalRecover: the wal-index from the log file (wal.c)

    walIndexRecover reads the frames of a log up to the first that is not valid, and
    the index it builds represents those of the complete transactions. *)
From S2P Require Import Prelude Varint Record Page PageLayout PageCells Wal WalLog WalHash WalIndex WalSpec WalFrame.

(** ** Results of the operating system *)

(** A code that came from the operating system or from a page that could not be mapped. *)
Definition io_fail (d : WalDb) (rc : Z) : Prop := (exists n, (rc, n) ∈ d_io d) \/ rc ∈ w_map (d_wal d).

Lemma os_call_spec d : exists rc io, os_call d = (rc, set_io d io) /\ io `suffix_of` d_io d /\ (rc <> SQLITE_OK -> exists n, (rc, n) ∈ d_io d).
Proof.
  unfold os_call, next_io. destruct d as [w f io b]. cbn. destruct io as [|[rc n] io]; [by exists SQLITE_OK, []|]. exists rc, io. split; [done|]. split; [by apply suffix_cons_r|]. intros _. exists n. apply elem_of_cons. by left.
Qed.

Lemma io_fail_suffix d io w rc : io `suffix_of` d_io d -> w_map w `suffix_of` w_map (d_wal d) -> io_fail (set_wal (set_io d io) w) rc -> io_fail d rc.
Proof. intros [q1 E1] [q2 E2] [[n Hn]|Hw]; [left; exists n; rewrite E1; apply elem_of_app; by right|right; rewrite E2; apply elem_of_app; by right]. Qed.

(** ** Transactions *)

(** How many frames the complete transactions have. *)
Fixpoint commits (fs : list frame) : nat :=
  match fs with [] => 0 | f :: fs => match commits fs with O => if f_trunc f =? 0 then 0 else 1 | S k => S (S k) end end.

Lemma commits_le fs : (commits fs <= length fs)%nat.
Proof. induction fs as [|f fs IH]; [done|]. cbn. destruct (commits fs); [destruct (f_trunc f =? 0); lia|lia]. Qed.

(** The header after the frames [fs], the first of which is frame [n + 1]. *)
Definition enc_szPage (szPage : Z) : Z := u16 (Z.lor (Z.land szPage 0xff00) (Z.shiftr szPage 16)).
Definition recovered (szPage : Z) (h : WalIndexHdr) (n : nat) (fs : list frame) : WalIndexHdr :=
  match commits fs with
  | O => h
  | S k => hset_szPage (hset_nPage (hset_mxFrame h (Z.of_nat (n + S k))) (default 0 (f_trunc <$> fs !! k))) (enc_szPage szPage)
  end.

Lemma recovered_cons szPage h n f fs c c1 c2 : hset_cksum (recovered szPage (if negb (f_trunc f =? 0) then hset_szPage (hset_nPage (hset_mxFrame (hset_cksum h c1) (Z.of_nat (S n))) (f_trunc f)) (enc_szPage szPage) else hset_cksum h c2) (S n) fs) c = hset_cksum (recovered szPage h n (f :: fs)) c.
Proof.
  unfold recovered. cbn [commits]. generalize (enc_szPage szPage). intros e. destruct (commits fs) as [|k].
  - destruct (f_trunc f =? 0); cbn [negb]; [by destruct h|]. cbn [lookup list_lookup]. rewrite Nat.add_1_r. by destruct h.
  - cbn [lookup list_lookup]. replace (S n + S k)%nat with (n + S (S k))%nat by lia. by destruct (f_trunc f =? 0).
Qed.

Section Recover.
Context (native : bool) (salt : list Z) (szPage : Z).
Context (Hsz : 8 <= szPage /\ szPage mod 8 = 0) (Hsalt : length salt = 8%nat).

Abbreviation frame_ok := (frame_ok szPage).
Abbreviation frame_bytes := (frame_bytes native salt szPage).
Abbreviation chain_bytes := (chain_bytes native salt szPage).
Abbreviation chain_ck := (chain_ck native szPage).
Abbreviation at_ck := (at_ck native salt szPage).

(** What follows the frames is not another one. *)
Definition rejected (ck : Z * Z) (rest : list Z) : Prop := forall f, frame_ok f -> ~ frame_bytes ck f `prefix_of` rest.

(** The checksum of the last complete transaction. *)
Definition recovered_ck (ack ck : Z * Z) (fs : list frame) : Z * Z := match commits fs with O => ack | k => chain_ck ck (take k fs) end.

Lemma recovered_ck_cons ack ck f fs : recovered_ck (if negb (f_trunc f =? 0) then frame_ck native szPage ck f else ack) (frame_ck native szPage ck f) fs = recovered_ck ack ck (f :: fs).
Proof using. clear. unfold recovered_ck. cbn [commits]. destruct (commits fs) as [|k]; [by destruct (f_trunc f =? 0)|done]. Qed.

Lemma at_ck_frame w ck c : at_ck w ck -> at_ck (set_hdr w (hset_cksum (w_hdr w) c)) c.
Proof using. clear. by intros (E1 & E2 & E3 & _). Qed.

(** Everything but the header stays. *)
Definition same_but_hdr (w w' : Wal) : Prop := same_wal w (set_hdr w' (w_hdr w)).

Lemma same_but_hdr_trans w1 w2 w3 : same_but_hdr w1 w2 -> same_but_hdr w2 w3 -> same_but_hdr w1 w3.
Proof using.
  clear. unfold same_but_hdr, same_wal. cbn. intros (_ & E2 & E3 & E4 & E5 & E6 & E7 & E8) (_ & G2 & G3 & G4 & G5 & G6 & G7 & G8). split_and!; try congruence; [set_solver|by etransitivity].
Qed.

(** After the frames [fs]. *)
Record rec_post (d : WalDb) (L : list Z) (ck ack : Z * Z) (fs : list frame) (d' : WalDb) (ack' : Z * Z) : Prop := {
  rp_inv : wal_inv (d_wal d') (L ++ map f_pgno fs);
  rp_hdr : exists c, w_hdr (d_wal d') = hset_cksum (recovered szPage (w_hdr (d_wal d)) (length L) fs) c;
  rp_ck : ack' = recovered_ck ack ck fs;
  rp_map : commits fs <> 0%nat -> mapped_at (d_wal d') (Z.of_nat (length L + commits fs));
  rp_same : same_but_hdr (d_wal d) (d_wal d') }.

Lemma hset_cksum_id h : h = hset_cksum h (h_aFrameCksum h).
Proof using. by destruct h. Qed.

(** The end of the frames. *)
Lemma recover_loop_end fuel d L ck ack rest pre : d_file d = pre ++ rest -> Forall is_byte (d_file d) -> rejected ck rest -> at_ck (d_wal d) ck -> cksum_range ck -> wal_inv (d_wal d) L ->
  exists rc d' ack', recover_loop (S fuel) d szPage (Z.of_nat (length L)) (Z.of_nat (length pre)) ack = Some (rc, d', ack') /\ d_file d' = d_file d /\
    (rc = SQLITE_OK -> rec_post d L ck ack [] d' ack') /\ (rc <> SQLITE_OK -> io_fail d rc).
Proof using Hsz Hsalt.
  intros Hfile Hb Hrej Hat Hck HW. cbn [recover_loop].
  assert (forall d' c, w_hdr (d_wal d') = hset_cksum (w_hdr (d_wal d)) c -> same_but_hdr (d_wal d) (d_wal d') -> w_apWiData (d_wal d') = w_apWiData (d_wal d) -> w_mapped (d_wal d') = w_mapped (d_wal d) -> rec_post d L ck ack [] d' ack) as Hpost.
  { intros d' c Hh Hs E1 E2. split; [rewrite app_nil_r; by eapply wal_inv_ext|by exists c|done|done|done]. }
  assert (same_but_hdr (d_wal d) (d_wal d)) as Hrefl by (unfold same_but_hdr; by split_and!).
  destruct (Z.leb_spec (Z.of_nat (length pre) + (szPage + WAL_FRAME_HDRSIZE)) (Z.of_nat (length (d_file d)))) as [Hle|Hgt].
  2: { exists SQLITE_OK, d, ack. split; [done|]. split; [done|]. split; [|done]. intros _. eapply Hpost; [apply hset_cksum_id|done|done|done]. }
  destruct (os_call_spec d) as (rc & io & -> & Hio & Hbad). destruct (Z.eqb_spec rc SQLITE_OK) as [->|Hrc]; cbn [negb].
  2: { exists rc, (set_io d io), ack. split; [done|]. split; [done|]. split; [done|]. intros _. left. by apply Hbad. }
  cbn [d_file set_io d_wal]. set (l := take (Z.to_nat (szPage + WAL_FRAME_HDRSIZE)) rest). assert (0 < szPage + WAL_FRAME_HDRSIZE) by (change WAL_FRAME_HDRSIZE with 24; lia).
  assert (get_bytes (d_file d) (Z.of_nat (length pre)) (szPage + WAL_FRAME_HDRSIZE) = Some l) as ->. { unfold get_bytes. rewrite decide_True by lia. by rewrite Nat2Z.id, Hfile, drop_app_length. }
  cbn [mbind option_bind]. rewrite Hfile, length_app in Hle. assert (Z.of_nat (length l) = szPage + WAL_FRAME_HDRSIZE) as Hll by (unfold l; rewrite length_take; lia).
  destruct (walDecodeFrame_sound native salt szPage Hsz Hsalt (d_wal d) ck l Hat Hck Hll) as (r & w' & -> & Hw' & Hsound); [rewrite Hfile in Hb; apply Forall_app in Hb as [_ Hb]; by apply Forall_take|]. cbn [mbind option_bind]. destruct r as [[pgno nt]|].
  - exfalso. destruct (Hsound ltac:(done)) as (f & Hf & Hl). apply (Hrej f Hf). rewrite <- Hl. exists (drop (Z.to_nat (szPage + WAL_FRAME_HDRSIZE)) rest). unfold l. by rewrite take_drop.
  - exists SQLITE_OK, (set_wal (set_io d io) w'), ack. split; [done|]. split; [done|]. split; [|done]. intros _. destruct Hw' as [-> | [c ->]]; eapply Hpost; try done. apply hset_cksum_id.
Qed.

Lemma recover_loop_spec : forall fs fuel d L ck ack rest pre, d_file d = pre ++ chain_bytes ck fs ++ rest -> Forall is_byte (d_file d) -> Forall frame_ok fs -> rejected (chain_ck ck fs) rest -> at_ck (d_wal d) ck -> cksum_range ck ->
  wal_inv (d_wal d) L -> len L + len fs < 2 ^ 30 -> (length fs < fuel)%nat ->
  exists rc d' ack', recover_loop fuel d szPage (Z.of_nat (length L)) (Z.of_nat (length pre)) ack = Some (rc, d', ack') /\ d_file d' = d_file d /\
    (rc = SQLITE_OK -> rec_post d L ck ack fs d' ack') /\ (rc <> SQLITE_OK -> io_fail d rc).
Proof using Hsz Hsalt.
  induction fs as [|f fs IH]; intros fuel d L ck ack rest pre Hfile Hb Hfs Hrej Hat Hck HW Hmax Hfuel; (destruct fuel as [|fuel]; [lia|]). { by apply (recover_loop_end _ _ _ _ _ rest). }
  apply Forall_cons in Hfs as [Hf Hfs]. cbn [WalFrame.chain_bytes length] in *. pose proof (frame_bytes_length native salt szPage Hsz Hsalt ck f Hf) as Hfl.
  cbn [recover_loop]. rewrite (proj2 (Z.leb_le _ _)) by (rewrite Hfile, !length_app; lia).
  destruct (os_call_spec d) as (rc & io & -> & Hio & Hbad). destruct (Z.eqb_spec rc SQLITE_OK) as [->|Hrc]; cbn [negb].
  2: { exists rc, (set_io d io), ack. split; [done|]. split; [done|]. split; [done|]. intros _. left. by apply Hbad. }
  cbn [d_file set_io d_wal].
  assert (get_bytes (d_file d) (Z.of_nat (length pre)) (szPage + WAL_FRAME_HDRSIZE) = Some (frame_bytes ck f)) as ->.
  { unfold get_bytes. rewrite decide_True by (rewrite Hfile, !length_app; lia). rewrite Nat2Z.id, Hfile, drop_app_length, <- app_assoc. rewrite take_app_length' by lia. done. }
  cbn [mbind option_bind]. rewrite (walDecodeFrame_ok native salt szPage Hsz Hsalt _ ck f Hat Hck Hf). cbn [mbind option_bind]. set (ck1 := frame_ck native szPage ck f) in *. set (w1 := set_hdr (d_wal d) (hset_cksum (w_hdr (d_wal d)) ck1)).
  assert (wal_inv w1 L) as HW1 by (by eapply wal_inv_ext). pose proof Hf as (Hpg & _). destruct (walIndexAppend_spec w1 L (length L) (f_pgno f) HW1 ltac:(lia) ltac:(by left) Hpg ltac:(lia)) as (rc & w2 & -> & Hs2 & Hok & Hbad2). cbn [mbind option_bind]. destruct (Z.eqb_spec rc SQLITE_OK) as [->|Hrc]; cbn [negb].
  2: { exists rc, (set_wal (set_io d io) w2), ack. split; [done|]. split; [done|]. split; [done|]. intros _. right. destruct (Hbad2 Hrc) as [_ [r Hr]]. change (w_map w1) with (w_map (d_wal d)) in Hr. rewrite Hr. apply elem_of_cons. by left. }
  destruct (Hok eq_refl) as [HW2 Hm2]. rewrite take_ge in HW2 by lia. destruct (same_wal_hdr _ _ Hs2) as (E1 & _). set (nt := negb (f_trunc f =? 0)).
  set (h3 := if nt then hset_szPage (hset_nPage (hset_mxFrame (w_hdr w2) (Z.of_nat (length L) + 1)) (f_trunc f)) (enc_szPage szPage) else w_hdr w2). set (ack3 := if nt then ck1 else ack). set (d3 := set_wal (set_io d io) (set_hdr w2 h3)).
  assert (set_hdr w2 (w_hdr w2) = w2) as Heta by (by destruct w2). assert (Z.of_nat (length L) + 1 = len (L ++ [f_pgno f])) as HL1 by (rewrite length_app; cbn; lia).
  match goal with |- context [if nt then ?a else ?b] => replace (if nt then a else b) with (recover_loop fuel d3 szPage (len (L ++ [f_pgno f])) (len (pre ++ frame_bytes ck f)) ack3) end.
  2: { unfold d3, h3, ack3. rewrite <- HL1, length_app, Nat2Z.inj_add, Hfl. destruct nt; [|by rewrite Heta]. f_equal. cbn. by rewrite E1. }
  assert (at_ck d3.(d_wal) ck1) as Hat3. { destruct Hat as (A1 & A2 & A3 & A4). destruct Hs2 as (_ & _ & _ & _ & S2 & _). unfold d3, h3. destruct nt; cbn [d_wal set_wal]; rewrite ?E1; (split_and!; [done|done|cbn [w_szPage set_hdr]; by rewrite S2|done]). }
  destruct (frame_ck_spec native salt szPage Hsz Hsalt ck f Hck Hf) as (_ & _ & _ & Hck1).
  destruct (IH fuel d3 (L ++ [f_pgno f]) ck1 ack3 rest (pre ++ frame_bytes ck f)) as (rc & d' & ack' & -> & Hf' & Hok' & Hbad'); [change (d_file d3) with (d_file d); rewrite Hfile, <- !app_assoc; done|done|done|done|done|done|by eapply wal_inv_ext|rewrite length_app; cbn; lia|lia|].
  exists rc, d', ack'. split; [done|]. split; [done|]. assert (w_map w2 `suffix_of` w_map (d_wal d)) as Hsuf by apply Hs2.
  split; intros Hrc; [|by eapply io_fail_suffix, Hbad']. destruct (Hok' Hrc) as [P1 [c P2] P3 P4 P5].
  assert (same_but_hdr (d_wal d) (d_wal d3)) as Hsame3 by (destruct Hs2 as (_ & S2); by split). split.
  - rewrite <- app_assoc in P1. exact P1.
  - exists c. rewrite P2. rewrite <- (recovered_cons szPage _ (length L) f fs c ck1 ck1). rewrite length_app, Nat.add_1_r. do 2 f_equal. cbn [d_wal d3 set_wal w_hdr set_hdr]. unfold h3, nt. rewrite E1. cbn [length]. replace (Z.of_nat (length L) + 1) with (Z.of_nat (S (length L))) by lia. done.
  - rewrite P3. apply recovered_ck_cons.
  - cbn [commits]. rewrite length_app in P4. cbn [length] in P4. destruct (commits fs) as [|k]; [destruct (f_trunc f =? 0); [done|]|].
    + intros _ k Hk. destruct P5 as (_ & _ & _ & _ & _ & _ & Hsub & _). apply Hsub. apply Hm2. replace (Z.of_nat (length L) + 1) with (Z.of_nat (length L + 1)) by lia. done.
    + intros _. replace (length L + S (S k))%nat with (length L + 1 + S k)%nat by lia. by apply P4.
  - by eapply same_but_hdr_trans.
Qed.
End Recover.

(** ** The header of the log *)

Definition page_size (szPage : Z) : Prop := exists k, 9 <= k <= 16 /\ szPage = 2 ^ k.

Lemma page_size_props s : page_size s -> 512 <= s <= 65536 /\ s mod 8 = 0 /\ Z.land s (s - 1) = 0 /\ to_int s = s /\ cint (s - 1) = Some (s - 1).
Proof.
  intros (k & Hk & ->). assert (k = 9 \/ k = 10 \/ k = 11 \/ k = 12 \/ k = 13 \/ k = 14 \/ k = 15 \/ k = 16) as Hcase by lia.
  repeat (destruct Hcase as [-> | Hcase]; [by split_and!|]). rewrite Hcase. by split_and!.
Qed.

(** [b] is bigEndCksum: which machine wrote the log. *)
Definition wal_hdr24 (b szPage nCkpt : Z) (salt : list Z) : list Z := sqlite3Put4byte (Z.lor WAL_MAGIC b) ++ sqlite3Put4byte WAL_MAX_VERSION ++ sqlite3Put4byte szPage ++ sqlite3Put4byte nCkpt ++ salt.
Definition wal_hdr_ck (b szPage nCkpt : Z) (salt : list Z) : Z * Z := default (0, 0) (walChecksumBytes (b =? SQLITE_BIGENDIAN) (wal_hdr24 b szPage nCkpt salt) 24 None).
Definition wal_hdr_bytes (b szPage nCkpt : Z) (salt : list Z) : list Z :=
  wal_hdr24 b szPage nCkpt salt ++ sqlite3Put4byte (wal_hdr_ck b szPage nCkpt salt).1 ++ sqlite3Put4byte (wal_hdr_ck b szPage nCkpt salt).2.

Section Log.
Context (b szPage nCkpt : Z) (salt : list Z) (Hb : b = 0 \/ b = 1) (Hps : page_size szPage) (Hn : 0 <= nCkpt < 2 ^ 32) (Hsalt : length salt = 8%nat).

Abbreviation native := (b =? SQLITE_BIGENDIAN).
Abbreviation ck0 := (wal_hdr_ck b szPage nCkpt salt).

Lemma wal_hdr_ck_spec : walChecksumBytes native (wal_hdr24 b szPage nCkpt salt) 24 None = Some ck0 /\ cksum_range ck0.
Proof using Hsalt.
  clear Hb Hps Hn. unfold wal_hdr_ck. destruct (walChecksumBytes_total native (wal_hdr24 b szPage nCkpt salt) 24 None) as (c & -> & Hc); [|done|done|done]. unfold wal_hdr24. rewrite !length_app, Hsalt. cbn. lia.
Qed.

Lemma wal_hdr_length : length (wal_hdr_bytes b szPage nCkpt salt) = 32%nat.
Proof using Hsalt. clear Hb Hps Hn. unfold wal_hdr_bytes, wal_hdr24. rewrite !length_app, Hsalt. done. Qed.

(** The header as recovery reads it. *)
Lemma wal_hdr_fields aBuf : aBuf = wal_hdr_bytes b szPage nCkpt salt ->
  sqlite3Get4byte aBuf = Some (Z.lor WAL_MAGIC b) /\ sqlite3Get4byte (drop 4 aBuf) = Some WAL_MAX_VERSION /\ sqlite3Get4byte (drop 8 aBuf) = Some szPage /\ sqlite3Get4byte (drop 12 aBuf) = Some nCkpt /\
  get_bytes aBuf 16 8 = Some salt /\ sqlite3Get4byte (drop 24 aBuf) = Some ck0.1 /\ sqlite3Get4byte (drop 28 aBuf) = Some ck0.2 /\ walChecksumBytes native aBuf 24 None = Some ck0.
Proof using Hb Hps Hn Hsalt.
  intros ->. destruct wal_hdr_ck_spec as [Hck [R1 R2]]. pose proof (page_size_props _ Hps) as (Hs & _). unfold wal_hdr_bytes at 8. rewrite walChecksumBytes_prefix by (unfold wal_hdr24; rewrite !length_app, Hsalt; done). unfold wal_hdr_bytes, wal_hdr24.
  set (M := sqlite3Put4byte (Z.lor WAL_MAGIC b)). set (V := sqlite3Put4byte WAL_MAX_VERSION). set (P := sqlite3Put4byte szPage). set (C := sqlite3Put4byte nCkpt). set (c0 := sqlite3Put4byte ck0.1). set (c1 := sqlite3Put4byte ck0.2).
  assert (c1 = c1 ++ []) as -> by (by rewrite app_nil_r). rewrite <- !app_assoc. split_and!.
  - apply put4_app. destruct Hb as [-> | ->]; done.
  - rewrite drop_app_length' by done. by apply put4_app.
  - rewrite (app_assoc M), drop_app_length' by done. apply put4_app. lia.
  - rewrite (app_assoc M), (app_assoc _ P), drop_app_length' by done. by apply put4_app.
  - unfold get_bytes. rewrite decide_True by (rewrite !length_app, Hsalt; cbn; lia). change (Z.to_nat 16) with 16%nat. rewrite (app_assoc M), (app_assoc _ P), (app_assoc _ C), drop_app_length' by done. by rewrite take_app_length'.
  - rewrite (app_assoc M), (app_assoc _ P), (app_assoc _ C), (app_assoc _ salt), drop_app_length' by (rewrite length_app, Hsalt; done). by apply put4_app.
  - rewrite (app_assoc M), (app_assoc _ P), (app_assoc _ C), (app_assoc _ salt), (app_assoc _ c0), drop_app_length' by (rewrite !length_app, Hsalt; done). by apply put4_app.
  - exact Hck.
Qed.

(** The connection when the first frame is read. *)
Definition log_start (w : Wal) : Wal := set_hdr (set_nCkpt (set_wsz w szPage) nCkpt) (hset_cksum (hset_salt (hset_bigEnd (w_hdr w) b) salt) ck0).

Lemma recover_log_spec d fs rest : d_file d = wal_hdr_bytes b szPage nCkpt salt ++ chain_bytes native salt szPage ck0 fs ++ rest -> Forall is_byte (d_file d) -> Forall (frame_ok szPage) fs -> rejected native salt szPage (chain_ck native szPage ck0 fs) rest ->
  wal_inv (d_wal d) [] -> len fs < 2 ^ 30 ->
  exists rc d' ack', recover_log d = Some (rc, d', ack') /\ d_file d' = d_file d /\
    (rc = SQLITE_OK -> exists d0, d_wal d0 = log_start (d_wal d) /\ rec_post native szPage d0 [] ck0 (0, 0) fs d' ack') /\ (rc <> SQLITE_OK -> io_fail d rc).
Proof using Hb Hps Hn Hsalt.
  intros Hfile Hbytes Hfs Hrej HW Hmax. unfold recover_log. destruct (os_call_spec d) as (rc & io & -> & Hio & Hbad). destruct (Z.eqb_spec rc SQLITE_OK) as [->|Hrc]; cbn [negb].
  2: { exists rc, (set_io d io), (0, 0). split; [done|]. split; [done|]. split; [done|]. intros _. left. by apply Hbad. }
  cbn [d_file d_wal set_io]. assert (get_bytes (d_file d) 0 WAL_HDRSIZE = Some (wal_hdr_bytes b szPage nCkpt salt)) as ->.
  { unfold get_bytes. rewrite decide_True by (rewrite Hfile, length_app, wal_hdr_length; change WAL_HDRSIZE with 32; lia). rewrite Hfile. change (Z.to_nat 0) with 0%nat. rewrite drop_0. rewrite take_app_length' by (by rewrite wal_hdr_length). done. }
  cbn [mbind option_bind]. destruct (wal_hdr_fields _ eq_refl) as (F1 & F2 & F3 & F4 & F5 & F6 & F7 & F8). rewrite F1, F3. cbn [mbind option_bind]. destruct (page_size_props _ Hps) as (Hs & Hm8 & Hland & -> & ->).
  assert (Z.land (Z.lor WAL_MAGIC b) 0xFFFFFFFE = WAL_MAGIC /\ u8 (Z.land (Z.lor WAL_MAGIC b) 1) = b) as [-> Hbe] by (destruct Hb as [-> | ->]; done). rewrite Z.eqb_refl. cbn [negb mbind option_bind]. rewrite Hland.
  rewrite (proj2 (Z.ltb_ge SQLITE_MAX_PAGE_SIZE szPage)) by (change SQLITE_MAX_PAGE_SIZE with 65536; lia). rewrite (proj2 (Z.ltb_ge szPage 512)) by lia. cbn [Z.eqb negb orb]. rewrite F4, F5. cbn [mbind option_bind]. rewrite Hbe. cbn [w_hdr set_hdr set_nCkpt set_wsz h_bigEndCksum hset_salt hset_bigEnd].
  change (WAL_HDRSIZE - 2 * 4) with 24. rewrite F8. cbn [mbind option_bind]. rewrite F6, F7. cbn [mbind option_bind]. rewrite !Z.eqb_refl. cbn [negb orb]. rewrite F2. cbn [mbind option_bind]. rewrite Z.eqb_refl. cbn [negb].
  match goal with |- context [os_call ?x] => set (d1 := x) end. destruct (os_call_spec d1) as (rc & io1 & -> & Hio1 & Hbad1). destruct (Z.eqb_spec rc SQLITE_OK) as [->|Hrc]; cbn [negb].
  2: { eexists _, _, _. split; [done|]. split; [done|]. split; [done|]. intros _. destruct (Hbad1 Hrc) as [n Hin]. left. exists n. destruct Hio as [q ->]. apply elem_of_app. by right. }
  assert (wal_inv (log_start (d_wal d)) []) as HW1 by (by eapply wal_inv_ext). destruct wal_hdr_ck_spec as [_ Hck].
  destruct (recover_loop_spec native salt szPage ltac:(lia) Hsalt fs (S (length (d_file d))) (set_io d1 io1) [] ck0 (0, 0) rest (wal_hdr_bytes b szPage nCkpt salt)) as (rc & d' & ack' & Hloop & Hf' & Hok & Hbad2); [done|done|done|done|by split_and!|done|done|cbn; lia| |].
  { pose proof (chain_length native salt szPage ltac:(lia) Hsalt fs ck0 Hfs) as Hcl. rewrite Hfile, !length_app. change WAL_FRAME_HDRSIZE with 24 in Hcl. nia. }
  rewrite wal_hdr_length in Hloop. change (Z.of_nat 32) with WAL_HDRSIZE in Hloop. change (len []) with 0 in Hloop. cbn [d_file set_io set_wal d1]. rewrite Hloop. exists rc, d', ack'. split; [done|]. split; [done|]. split.
  - intros Hrc. exists (set_io d1 io1). split; [done|]. by apply Hok.
  - intros Hrc. destruct (Hbad2 Hrc) as [[n Hin]|Hin]; [left; exists n|by right]. destruct Hio as [q ->]. apply elem_of_app. right. cbn in Hin. destruct Hio1 as [q1 Hq1]. cbn in Hq1. rewrite Hq1. apply elem_of_app. by right.
Qed.
End Log.

(** ** Recovery *)

Lemma recover_finish_spec d L k ack : wal_inv (d_wal d) L -> mxFrame (d_wal d) = Z.of_nat k -> (k <= length L)%nat -> length (h_aSalt (w_hdr (d_wal d))) = 8%nat -> (k <> 0%nat -> mapped_at (d_wal d) (Z.of_nat k)) ->
  exists d' c, recover_finish d ack = Some (SQLITE_OK, d') /\ d_file d' = d_file d /\ wal_rel (d_wal d') (mkLog (take k L) []) /\ w_szPage (d_wal d') = w_szPage (d_wal d) /\ w_hdr (d_wal d') = hset_init (hset_cksum (w_hdr (d_wal d)) ack) WALINDEX_MAX_VERSION 1 c.
Proof.
  intros HW Hm Hk Hs Hmap. unfold recover_finish. cbv zeta. match goal with |- context [walIndexWriteHdr ?w] => destruct (walIndexWriteHdr_spec w) as (c & -> & Hv); [done|] end. cbn [mbind option_bind]. eexists _, c. split; [done|]. split; [done|]. split; [|done].
  assert (length (take k L) = k) as Hl by (rewrite length_take; lia). assert (a_all (mkLog (take k L) []) = take k L) as Hall by apply app_nil_r. split; rewrite ?Hall, ?Hl; cbn -[replicate hset_init hset_cksum]; rewrite ?Hl.
  - exists (drop k L). rewrite take_drop. by eapply wal_inv_ext.
  - done.
  - eexists. split; [done|]. split; [exact Hv|done].
  - done.
  - intros n Hn H0. assert (n = Z.of_nat k) as -> by lia. apply Hmap. lia.
  - done.
  - done.
Qed.

Lemma recovered_mx szPage h fs : h_mxFrame h = 0 -> h_mxFrame (recovered szPage h 0 fs) = Z.of_nat (commits fs).
Proof. intros H0. unfold recovered. by destruct (commits fs). Qed.

(** What the log holds: its header, the frames [fs] of a chain and something else. *)
Record log_file (b szPage nCkpt : Z) (salt : list Z) (fs : list frame) (rest f : list Z) : Prop := {
  lf_b : b = 0 \/ b = 1;
  lf_size : page_size szPage;
  lf_ckpt : 0 <= nCkpt < 2 ^ 32;
  lf_salt : length salt = 8%nat;
  lf_frames : Forall (frame_ok szPage) fs;
  lf_count : len fs < 2 ^ 30;
  lf_bytes : Forall is_byte f;
  lf_file : f = wal_hdr_bytes b szPage nCkpt salt ++ chain_bytes (b =? SQLITE_BIGENDIAN) salt szPage (wal_hdr_ck b szPage nCkpt salt) fs ++ rest }.

Definition log_ck (b szPage nCkpt : Z) (salt : list Z) (fs : list frame) : Z * Z := chain_ck (b =? SQLITE_BIGENDIAN) szPage (wal_hdr_ck b szPage nCkpt salt) fs.

(** A connection after recovery of the transactions of [fs]: it is ready to append to them. *)
Definition recovered_wal (w : Wal) (b szPage nCkpt : Z) (salt : list Z) (fs : list frame) : Prop :=
  wal_rel w (mkLog (take (commits fs) (map f_pgno fs)) []) /\
  (commits fs <> 0%nat -> at_ck (b =? SQLITE_BIGENDIAN) salt szPage w (log_ck b szPage nCkpt salt (take (commits fs) fs)) /\
     h_nPage (w_hdr w) = default 0 (f_trunc <$> fs !! pred (commits fs)) /\ h_szPage (w_hdr w) = enc_szPage szPage).

Lemma walIndexRecover_spec d b szPage nCkpt salt fs rest : log_file b szPage nCkpt salt fs rest (d_file d) -> rejected (b =? SQLITE_BIGENDIAN) salt szPage (log_ck b szPage nCkpt salt fs) rest -> reader_ok (d_wal d) (w_mapped (d_wal d)) ->
  exists rc d', walIndexRecover d = Some (rc, d') /\ d_file d' = d_file d /\ (rc = SQLITE_OK -> recovered_wal (d_wal d') b szPage nCkpt salt fs) /\ (rc <> SQLITE_OK -> io_fail d rc).
Proof.
  intros [Hb Hps Hn Hs Hfs Hmax Hbytes Hfile] Hrej [H0 Hmapped]. unfold walIndexRecover.
  assert (wal_inv (set_hdr (d_wal d) zero_hdr) []) as HW. { split; [|done|done]. split; [done|done|]. intros k Hk Hlt. pose proof (izero_nonneg k Hk). cbn in Hlt. lia. }
  destruct (os_call_spec d) as (rc & io & -> & Hio & Hbad). destruct (Z.eqb_spec rc SQLITE_OK) as [->|Hrc]; cbn [negb].
  2: { eexists _, _. split; [done|]. split; [done|]. split; [done|]. intros _. left. by apply Hbad. }
  match goal with |- context [os_call ?x] => set (d1 := x) end. destruct (os_call_spec d1) as (rc & io1 & -> & Hio1 & Hbad1). assert (io1 `suffix_of` d_io d) as Hio2 by (etransitivity; [exact Hio1|exact Hio]). destruct (Z.eqb_spec rc SQLITE_OK) as [->|Hrc]; cbn [negb].
  2: { eexists _, _. split; [done|]. split; [done|]. split; [done|]. intros _. left. destruct (Hbad1 Hrc) as [n Hin]. exists n. destruct Hio as [q ->]. apply elem_of_app. by right. }
  set (d2 := set_io d1 io1). change (d_file d2) with (d_file d). destruct (Z.ltb_spec WAL_HDRSIZE (Z.of_nat (length (d_file d)))) as [Hlt|Hge].
  - destruct (recover_log_spec b szPage nCkpt salt Hb Hps Hn Hs d2 fs rest Hfile Hbytes Hfs Hrej HW Hmax) as (rc & d' & ack & -> & Hf' & Hok & Hbad2). cbn [mbind option_bind]. destruct (Z.eqb_spec rc SQLITE_OK) as [->|Hrc].
    2: { exists rc, d'. split; [done|]. split; [done|]. split; [done|]. intros _. destruct (Hbad2 Hrc) as [[n Hin]|Hin]; [left; exists n|by right]. cbn in Hin. destruct Hio2 as [q ->]. apply elem_of_app. by right. }
    destruct (Hok eq_refl) as (d0 & Hd0 & [P1 [c P2] P3 P4 P5]). assert (mxFrame (d_wal d') = Z.of_nat (commits fs)) as Hmx by (rewrite P2, Hd0; cbn [hset_cksum h_mxFrame]; by apply recovered_mx).
    assert (h_aSalt (w_hdr (d_wal d')) = salt /\ h_bigEndCksum (w_hdr (d_wal d')) = b) as [Hsl Hbe] by (rewrite P2, Hd0; unfold recovered; by destruct (commits fs)).
    destruct (recover_finish_spec d' _ (commits fs) ack P1 Hmx) as (d3 & ck & -> & Hf3 & HR & Hz & Hh); [rewrite length_app, length_map; pose proof (commits_le fs); lia|by rewrite Hsl|done|].
    exists SQLITE_OK, d3. split; [done|]. split; [by rewrite Hf3|]. split; [|done]. intros _. split; [exact HR|]. intros Hc. rewrite Hh. split_and!; cbn [h_bigEndCksum h_aSalt h_aFrameCksum h_nPage h_szPage hset_init hset_cksum].
    + split_and!; rewrite ?Hh; cbn; [by rewrite Hbe|done| |rewrite P3; unfold recovered_ck; by destruct (commits fs)]. rewrite Hz. destruct P5 as (_ & _ & _ & _ & Hsz & _). cbn in Hsz. rewrite Hsz, Hd0. done.
    + rewrite P2. unfold recovered. by destruct (commits fs).
    + rewrite P2. unfold recovered. by destruct (commits fs).
  - cbn [mbind option_bind Z.eqb SQLITE_OK]. assert (fs = []) as ->.
    { rewrite Hfile, !length_app in Hge. rewrite wal_hdr_length in Hge by done. pose proof (chain_length (b =? SQLITE_BIGENDIAN) salt szPage) as Hcl. destruct (page_size_props _ Hps) as (? & ? & _). specialize (Hcl ltac:(lia) Hs fs (wal_hdr_ck b szPage nCkpt salt) Hfs).
      change WAL_FRAME_HDRSIZE with 24 in Hcl. change WAL_HDRSIZE with 32 in Hge. destruct fs; [done|]. cbn [length] in Hcl. nia. }
    destruct (recover_finish_spec d2 [] 0 (0, 0) HW) as (d3 & ck & -> & Hf3 & HR & _); [done|done|done|done|]. exists SQLITE_OK, d3. split; [done|]. split; [by rewrite Hf3|]. split; [|done]. intros _. split; [exact HR|done].
Qed.
