(* ===== verification/WalWrite.v ===== *)
(** * WalWrite: writing frames to the log file (wal.c)

    sqlite3WalFrames appends a chain of frames.  Whichever call of the operating
    system fails, the file holds a prefix of what was to be written. *)
From S2P Require Import Prelude Varint Record Page PageLayout PageCells Wal WalLog WalHash WalIndex WalSpec WalFrame WalRecover.

(** ** The file *)

(** The first [m] bytes of [content] were written after [base], over [rest]. *)
Record wrote (d d' : WalDb) (base rest content : list Z) (m : nat) : Prop := {
  wt_le : (m <= length content)%nat;
  wt_file : d_file d' = base ++ take m content ++ drop m rest;
  wt_io : d_io d' `suffix_of` d_io d;
  wt_trunc : d_truncateOnCommit d' = d_truncateOnCommit d }.

(** What a call reports. *)
Definition reported (d : WalDb) (rc : Z) (content : list Z) (m : nat) : Prop := (rc = SQLITE_OK -> m = length content) /\ (rc <> SQLITE_OK -> exists n, (rc, n) ∈ d_io d).

Lemma take_length_take {A} n (l : list A) : take (length (take n l)) l = take n l.
Proof. rewrite length_take. destruct (Nat.le_gt_cases n (length l)); [by rewrite Nat.min_l|by rewrite Nat.min_r, !take_ge by lia]. Qed.

Lemma file_write_spec base rest l : file_write (base ++ rest) (Z.of_nat (length base)) l = base ++ l ++ drop (length l) rest.
Proof.
  unfold file_write. destruct l as [|x l]; [done|]. rewrite Nat2Z.id. replace (length base - length (base ++ rest))%nat with 0%nat by (rewrite length_app; lia). cbn [replicate]. rewrite app_nil_r, take_app_length, drop_app_add. done.
Qed.

Lemma os_write_spec d base rest content : d_file d = base ++ rest ->
  exists rc d' m, os_write d content (Z.of_nat (length base)) = (rc, d') /\ wrote d d' base rest content m /\ reported d rc content m /\ d_wal d' = d_wal d.
Proof.
  intros Hf. unfold os_write, next_io. destruct (d_io d) as [|[rc n] io] eqn:Hio.
  - eexists _, _, (length content). split; [done|]. split; [|done]. split; cbn; [lia|by rewrite Hf, file_write_spec, take_ge by lia|by rewrite Hio|done].
  - eexists _, _, (if rc =? SQLITE_OK then length content else length (take (Z.to_nat n) content)). split; [done|]. split; [|split; [|done]].
    + split; cbn; [destruct (rc =? SQLITE_OK); rewrite ?length_take; lia| |rewrite Hio; by apply suffix_cons_r|done]. rewrite Hf, file_write_spec. destruct (rc =? SQLITE_OK); [by rewrite take_ge by lia|]. by rewrite take_length_take.
    + split; intros Hrc; [by rewrite Hrc|]. exists n. rewrite Hio. apply elem_of_cons. by left.
Qed.

Lemma os_call_wrote d base rest content m d' : wrote d d' base rest content m -> exists rc io, os_call d' = (rc, set_io d' io) /\ wrote d (set_io d' io) base rest content m /\ (rc <> SQLITE_OK -> exists n, (rc, n) ∈ d_io d).
Proof.
  intros [H1 H2 H3 H4]. destruct (os_call_spec d') as (rc & io & -> & Hio & Hbad). exists rc, io. split; [done|]. split; [split; [done|done|by etransitivity|done]|]. intros Hrc. destruct (Hbad Hrc) as [n Hn]. exists n. destruct H3 as [q ->]. apply elem_of_app. by right.
Qed.

Lemma os_sync_spec d : exists rc io, os_sync d = (rc, set_past (set_io d io) (if rc =? SQLITE_OK then [] else d_past d)) /\ io `suffix_of` d_io d /\ (rc <> SQLITE_OK -> exists n, (rc, n) ∈ d_io d).
Proof.
  unfold os_sync, next_io. destruct d as [w f [|[rc n] io] t p]; cbn [d_io]; [by exists SQLITE_OK, []|]. exists rc, io. split; [done|]. split; [by apply suffix_cons_r|]. intros _. exists n. apply elem_of_cons. by left.
Qed.

Lemma os_sync_wrote d base rest content m d' : wrote d d' base rest content m ->
  exists rc d2, os_sync d' = (rc, d2) /\ wrote d d2 base rest content m /\ (rc <> SQLITE_OK -> exists n, (rc, n) ∈ d_io d) /\ d_wal d2 = d_wal d' /\ d_past d2 = (if rc =? SQLITE_OK then [] else d_past d').
Proof.
  intros [H1 H2 H3 H4]. destruct (os_sync_spec d') as (rc & io & -> & Hio & Hbad). eexists rc, _. split; [done|]. split; [split; [done|done|by etransitivity|done]|]. split; [|done]. intros Hrc. destruct (Hbad Hrc) as [n Hn]. exists n. destruct H3 as [q ->]. apply elem_of_app. by right.
Qed.

(** One write after another that was complete. *)
Lemma wrote_trans d d1 d2 base rest c1 c2 m rc : wrote d d1 base rest c1 (length c1) -> wrote d1 d2 (base ++ c1) (drop (length c1) rest) c2 m -> reported d1 rc c2 m ->
  wrote d d2 base rest (c1 ++ c2) (length c1 + m) /\ reported d rc (c1 ++ c2) (length c1 + m).
Proof.
  intros [H1 H2 H3 H4] [G1 G2 G3 G4] [R1 R2]. split.
  - split; [rewrite length_app; lia| |by etransitivity|congruence]. rewrite G2, take_app_add, drop_drop, <- !app_assoc. done.
  - split; intros Hrc; [rewrite length_app; by rewrite R1|]. destruct (R2 Hrc) as [n Hn]. exists n. destruct H3 as [q ->]. apply elem_of_app. by right.
Qed.

Lemma wrote_app_l d d' base rest c1 c2 m : wrote d d' base rest c1 m -> wrote d d' base rest (c1 ++ c2) m.
Proof. intros [H1 H2 H3 H4]. split; [rewrite length_app; lia|by rewrite take_app_le|done|done]. Qed.

Lemma wrote_all d d' base rest c : wrote d d' base rest c (length c) -> d_file d' = (base ++ c) ++ drop (length c) rest.
Proof. intros [_ H _ _]. by rewrite H, take_ge, <- app_assoc by lia. Qed.

Lemma walWriteToLog_spec d base rest content sp : d_file d = base ++ rest ->
  exists rc d' m, walWriteToLog d sp content (Z.of_nat (length base)) = (rc, d') /\ wrote d d' base rest content m /\ reported d rc content m /\ d_wal d' = d_wal d.
Proof.
  intros Hf. unfold walWriteToLog. destruct (Z.ltb_spec (Z.of_nat (length base)) sp) as [Hlt|]; [|by apply os_write_spec]. destruct (Z.leb_spec sp (Z.of_nat (length base) + Z.of_nat (length content))) as [Hle|]; [|by apply os_write_spec]. cbn [andb].
  set (k := Z.to_nat (sp - Z.of_nat (length base))). destruct (split_len content k) as (c1 & c2 & -> & Hk); [lia|]. rewrite <- Hk, take_app_length, drop_app_length. rewrite length_app in Hle |- *.
  destruct (os_write_spec d base rest c1 Hf) as (rc & d1 & m & -> & Hw & Hr & Hwal). destruct (Z.eqb_spec rc SQLITE_OK) as [->|Hrc]; cbn [negb].
  2: { exists rc, d1, m. split; [done|]. split; [by apply wrote_app_l|]. split; [|done]. split; [done|apply Hr]. }
  pose proof (proj1 Hr eq_refl) as ->. destruct (os_sync_wrote _ _ _ _ _ _ Hw) as (rc & d2 & -> & Hw1 & Hbad & Hwal1 & _). destruct (Z.eqb_spec (Z.of_nat (length c1 + length c2) - (sp - Z.of_nat (length base))) 0) as [H0|H0]; cbn [orb].
  - assert (c2 = []) as -> by (apply length_zero_iff_nil; lia). exists rc, d2, (length c1). rewrite app_nil_r. split; [done|]. split; [done|]. split; [by split|congruence].
  - destruct (Z.eqb_spec rc SQLITE_OK) as [->|Hrc]; cbn [negb].
    + replace (Z.of_nat (length base) + (sp - Z.of_nat (length base))) with (Z.of_nat (length (base ++ c1))) by (rewrite length_app; lia).
      destruct (os_write_spec d2 (base ++ c1) (drop (length c1) rest) c2) as (rc & d3 & m & -> & Hw2 & Hr2 & Hwal2); [by apply (wrote_all _ _ _ _ _ Hw1)|].
      destruct (wrote_trans _ _ _ _ _ _ _ _ rc Hw1 Hw2 Hr2) as [Hw3 Hr3]. exists rc, d3, (length c1 + m)%nat. split; [done|]. split; [done|]. split; [done|]. congruence.
    + exists rc, d2, (length c1). split; [done|]. split; [by apply wrote_app_l|]. split; [by split|congruence].
Qed.

(** ** Frames *)

(** Only the running checksum of the connection changes. *)
Definition ck_wal (w : Wal) (c : Z * Z) : Wal := set_hdr w (hset_cksum (w_hdr w) c).

Lemma ck_wal_self w : ck_wal w (h_aFrameCksum (w_hdr w)) = w.
Proof. destruct w as [? ? ? ? ? h ? ? ?]. unfold ck_wal, set_hdr. cbn. by destruct h. Qed.

(** The frames for the pages of pList; the last one of a commit carries the size. *)
Fixpoint mk_frames (nTruncate : Z) (isCommit : bool) (pList : list (Z * list Z)) : list frame :=
  match pList with
  | [] => []
  | p :: pList => mkFrame p.1 (if isCommit && (match pList with [] => true | _ => false end) then nTruncate else 0) p.2 :: mk_frames nTruncate isCommit pList
  end.

Lemma mk_frames_pgno n c l : map f_pgno (mk_frames n c l) = map fst l.
Proof. induction l as [|p l IH]; [done|]. cbn. by rewrite IH. Qed.

Section Write.
Context (native : bool) (salt : list Z) (szPage : Z).
Context (Hsz : 8 <= szPage /\ szPage mod 8 = 0) (Hsalt : length salt = 8%nat).

Abbreviation frame_ok := (frame_ok szPage).
Abbreviation frame_bytes := (frame_bytes native salt szPage).
Abbreviation chain_bytes := (chain_bytes native salt szPage).
Abbreviation chain_ck := (chain_ck native szPage).
Abbreviation at_ck := (at_ck native salt szPage).

Lemma at_ck_wal w ck c : at_ck w ck -> at_ck (ck_wal w c) c.
Proof using. clear. by intros (E1 & E2 & E3 & _). Qed.

Lemma walWriteOneFrame_spec d sp base rest ck f : d_file d = base ++ rest -> at_ck (d_wal d) ck -> cksum_range ck -> frame_ok f ->
  exists rc d' m, walWriteOneFrame d sp szPage (f_pgno f, f_data f) (f_trunc f) (Z.of_nat (length base)) = Some (rc, d') /\ wrote d d' base rest (frame_bytes ck f) m /\ reported d rc (frame_bytes ck f) m /\
    d_wal d' = ck_wal (d_wal d) (frame_ck native szPage ck f).
Proof using Hsz Hsalt.
  intros Hf Hat Hck Hfr. unfold walWriteOneFrame. rewrite (walEncodeFrame_spec native salt szPage Hsz Hsalt _ ck f Hat Hck Hfr). cbn [mbind option_bind]. set (d0 := set_wal d _).
  destruct (walWriteToLog_spec d0 base rest (frame_head native salt szPage ck f) sp Hf) as (rc & d1 & m & -> & Hw & Hr & Hwal). destruct (Z.eqb_spec rc SQLITE_OK) as [->|Hrc]; cbn [negb].
  2: { exists rc, d1, m. split; [done|]. split; [destruct (wrote_app_l _ _ _ _ _ (f_data f) _ Hw); by split|]. split; [|by rewrite Hwal]. split; [done|apply Hr]. }
  pose proof (proj1 Hr eq_refl) as ->. pose proof Hfr as (_ & _ & Hd & _).
  assert (get_bytes (f_data f) 0 szPage = Some (f_data f)) as -> by (unfold get_bytes; rewrite decide_True by lia; change (Z.to_nat 0) with 0%nat; by rewrite drop_0, take_ge by lia). cbn [mbind option_bind].
  replace (Z.of_nat (length base) + WAL_FRAME_HDRSIZE) with (Z.of_nat (length (base ++ frame_head native salt szPage ck f))) by (rewrite length_app, (frame_head_length native salt szPage Hsz Hsalt); change WAL_FRAME_HDRSIZE with 24; lia).
  destruct (walWriteToLog_spec d1 (base ++ frame_head native salt szPage ck f) (drop (length (frame_head native salt szPage ck f)) rest) (f_data f) sp) as (rc & d2 & m & -> & Hw2 & Hr2 & Hwal2); [by apply (wrote_all _ _ _ _ _ Hw)|].
  destruct (wrote_trans _ _ _ _ _ _ _ _ rc Hw Hw2 Hr2) as [[X1 X2 X3 X4] Hr3]. eexists rc, d2, _. split; [done|]. split; [split; [exact X1|exact X2|exact X3|exact X4]|]. split; [exact Hr3|]. by rewrite Hwal2, Hwal.
Qed.

(** A sequence of frames, one complete frame at a time. *)
Lemma wrote_frame d d1 d' base rest ck f fs m rc : wrote d d1 base rest (frame_bytes ck f) (length (frame_bytes ck f)) ->
  wrote d1 d' (base ++ frame_bytes ck f) (drop (length (frame_bytes ck f)) rest) (chain_bytes (frame_ck native szPage ck f) fs) m -> reported d1 rc (chain_bytes (frame_ck native szPage ck f) fs) m ->
  wrote d d' base rest (chain_bytes ck (f :: fs)) (length (frame_bytes ck f) + m) /\ reported d rc (chain_bytes ck (f :: fs)) (length (frame_bytes ck f) + m).
Proof using. clear. intros Hw Hw2 Hr2. by apply (wrote_trans _ d1). Qed.

Lemma frames_loop_spec nTruncate isCommit : forall pList d base rest ck iFrame, d_file d = base ++ rest -> at_ck (d_wal d) ck -> cksum_range ck -> Forall frame_ok (mk_frames nTruncate isCommit pList) ->
  0 <= iFrame -> iFrame + len pList < 2 ^ 32 -> Z.of_nat (length base) = walFrameOffset (iFrame + 1) szPage ->
  exists rc d' i o m c, frames_loop d szPage nTruncate isCommit iFrame (Z.of_nat (length base)) pList = Some (rc, d', i, o) /\
    wrote d d' base rest (chain_bytes ck (mk_frames nTruncate isCommit pList)) m /\ reported d rc (chain_bytes ck (mk_frames nTruncate isCommit pList)) m /\ d_wal d' = ck_wal (d_wal d) c /\
    (rc = SQLITE_OK -> i = iFrame + len pList /\ o = Z.of_nat (length base) + len pList * (szPage + WAL_FRAME_HDRSIZE) /\ c = chain_ck ck (mk_frames nTruncate isCommit pList)).
Proof using Hsz Hsalt.
  induction pList as [|p pList IH]; intros d base rest ck iFrame Hf Hat Hck Hok Hi Hmax Hoff.
  { exists SQLITE_OK, d, iFrame, (Z.of_nat (length base)), 0%nat, ck. split; [done|]. split; [by split; [cbn; lia|rewrite Hf| |]|]. split; [done|]. split; [destruct Hat as (_ & _ & _ & <-); by rewrite ck_wal_self|]. intros _. cbn. split; [lia|]. split; [lia|done]. }
  cbn [mk_frames frames_loop] in *. apply Forall_cons in Hok as [Hfr Hok]. cbn [length] in Hmax. rewrite u32_id by lia. rewrite (proj2 (Z.eqb_eq _ _) Hoff). cbn [assert_ mbind option_bind]. set (nt := if isCommit && _ then nTruncate else 0) in *. set (f := mkFrame p.1 nt p.2) in *.
  destruct (walWriteOneFrame_spec d 0 base rest ck f Hf Hat Hck Hfr) as (rc & d1 & m & Heq & Hw & Hr & Hwal). cbn [f_pgno f_data f_trunc f] in Heq. rewrite <- surjective_pairing in Heq. rewrite Heq. cbn [mbind option_bind]. destruct (Z.eqb_spec rc SQLITE_OK) as [->|Hrc]; cbn [negb].
  2: { eexists rc, d1, _, _, m, _. split; [done|]. split; [by apply wrote_app_l|]. split; [split; [done|apply Hr]|]. split; [exact Hwal|done]. }
  pose proof (proj1 Hr eq_refl) as ->. pose proof (frame_bytes_length native salt szPage Hsz Hsalt ck f Hfr) as Hfl. replace (Z.of_nat (length base) + (szPage + WAL_FRAME_HDRSIZE)) with (Z.of_nat (length (base ++ frame_bytes ck f))) by (rewrite length_app; lia).
  destruct (frame_ck_spec native salt szPage Hsz Hsalt ck f Hck Hfr) as (_ & _ & _ & Hck1).
  destruct (IH d1 (base ++ frame_bytes ck f) (drop (length (frame_bytes ck f)) rest) (frame_ck native szPage ck f) (iFrame + 1)) as (rc & d2 & i & o & m & c & -> & Hw2 & Hr2 & Hwal2 & Hend); [by apply (wrote_all _ _ _ _ _ Hw)|rewrite Hwal; by eapply at_ck_wal|done|done|lia|lia|rewrite length_app; unfold walFrameOffset in *; lia|].
  destruct (wrote_frame _ _ _ _ _ _ _ _ _ rc Hw Hw2 Hr2) as [Hw3 Hr3]. eexists rc, d2, i, o, _, c. split; [done|]. split; [exact Hw3|]. split; [exact Hr3|]. split; [by rewrite Hwal2, Hwal|]. intros Hrc. destruct (Hend Hrc) as (-> & -> & ->). cbn [length]. rewrite length_app. split; [lia|]. split; [lia|done].
Qed.

(** The copies of the last frame. *)
Lemma pad_loop_spec sp f : frame_ok f -> forall fuel d base rest ck n, d_file d = base ++ rest -> at_ck (d_wal d) ck -> cksum_range ck -> Z.max 0 (sp - Z.of_nat (length base)) < Z.of_nat fuel ->
  exists rc d' j m c, pad_loop fuel d sp szPage (f_pgno f, f_data f) (f_trunc f) (Z.of_nat (length base)) n = Some (rc, d', (n + j)%nat) /\
    (rc = SQLITE_OK -> wrote d d' base rest (chain_bytes ck (replicate j f)) m /\ m = length (chain_bytes ck (replicate j f)) /\ c = chain_ck ck (replicate j f) /\ Z.of_nat j <= Z.max 0 (sp - Z.of_nat (length base))) /\
    (rc <> SQLITE_OK -> wrote d d' base rest (chain_bytes ck (replicate (S j) f)) m /\ Z.of_nat (S j) <= Z.max 0 (sp - Z.of_nat (length base)) /\ exists n, (rc, n) ∈ d_io d) /\ d_wal d' = ck_wal (d_wal d) c.
Proof using Hsz Hsalt.
  intros Hfr. assert (0 < szPage + WAL_FRAME_HDRSIZE) as Hpos by (change WAL_FRAME_HDRSIZE with 24; lia). induction fuel as [|fuel IH]; intros d base rest ck n Hf Hat Hck Hfuel; [lia|]. cbn [pad_loop]. destruct (Z.ltb_spec (Z.of_nat (length base)) sp) as [Hlt|Hge].
  2: { exists SQLITE_OK, d, 0%nat, 0%nat, ck. rewrite Nat.add_0_r. split; [done|]. split; [|split; [done|destruct Hat as (_ & _ & _ & <-); by rewrite ck_wal_self]]. intros _. split; [by split; [cbn; lia|rewrite Hf| |]|]. split; [done|]. split; [done|lia]. }
  destruct (walWriteOneFrame_spec d sp base rest ck f Hf Hat Hck Hfr) as (rc & d1 & m & -> & Hw & Hr & Hwal). cbn [mbind option_bind]. destruct (Z.eqb_spec rc SQLITE_OK) as [->|Hrc]; cbn [negb].
  2: { eexists rc, d1, 0%nat, m, _. rewrite Nat.add_0_r. split; [done|]. split; [done|]. split; [|exact Hwal]. intros _. split; [by apply wrote_app_l|]. split; [lia|by apply Hr]. }
  pose proof (proj1 Hr eq_refl) as ->. pose proof (frame_bytes_length native salt szPage Hsz Hsalt ck f Hfr) as Hfl. replace (Z.of_nat (length base) + (szPage + WAL_FRAME_HDRSIZE)) with (Z.of_nat (length (base ++ frame_bytes ck f))) by (rewrite length_app; lia).
  destruct (frame_ck_spec native salt szPage Hsz Hsalt ck f Hck Hfr) as (_ & _ & _ & Hck1).
  destruct (IH d1 (base ++ frame_bytes ck f) (drop (length (frame_bytes ck f)) rest) (frame_ck native szPage ck f) (S n)) as (rc & d2 & j & m & c & -> & Hok & Hbad & Hwal2); [by apply (wrote_all _ _ _ _ _ Hw)|rewrite Hwal; by eapply at_ck_wal|done|rewrite length_app; lia|].
  eexists rc, d2, (S j), (length (frame_bytes ck f) + m)%nat, c. split; [by rewrite Nat.add_succ_r|]. split; [|split; [|by rewrite Hwal2, Hwal]]; intros Hrc.
  - destruct (Hok Hrc) as (Hw2 & -> & -> & Hj). rewrite length_app in Hj. assert (reported d1 rc (chain_bytes (frame_ck native szPage ck f) (replicate j f)) (length (chain_bytes (frame_ck native szPage ck f) (replicate j f)))) as Hr2 by (by split).
    destruct (wrote_frame _ _ _ _ _ _ _ _ _ rc Hw Hw2 Hr2) as [Hw3 _]. split; [exact Hw3|]. split; [cbn [replicate WalFrame.chain_bytes]; by rewrite length_app|]. split; [done|]. lia.
  - destruct (Hbad Hrc) as (Hw2 & Hj & Hin). rewrite length_app in Hj. assert (reported d1 rc (chain_bytes (frame_ck native szPage ck f) (replicate (S j) f)) m) as Hr2 by (by split). destruct (wrote_frame _ _ _ _ _ _ _ _ _ rc Hw Hw2 Hr2) as [Hw3 [_ Hin3]]. split; [exact Hw3|]. split; [lia|by apply Hin3].
Qed.

(** What the pager passes to sqlite3WalFrames. *)
Definition pages_ok (pList : list (Z * list Z)) : Prop := Forall (fun p => pgno_ok p.1 /\ Z.of_nat (length p.2) = szPage /\ Forall is_byte p.2) pList.

Lemma mk_frames_ok nTruncate isCommit pList : pages_ok pList -> 0 <= nTruncate < 2 ^ 32 -> Forall frame_ok (mk_frames nTruncate isCommit pList).
Proof using. clear. intros Hp Hn. induction Hp as [|p pList (H1 & H2 & H3) _ IH]; [constructor|]. cbn. constructor; [|done]. split_and!; cbn; try done; destruct isCommit, pList; cbn; lia. Qed.

Definition last_frame_of (nTruncate : Z) (pList : list (Z * list Z)) : frame := mkFrame (List.last pList (0, [])).1 nTruncate (List.last pList (0, [])).2.

Lemma last_frame_ok nTruncate pList : pages_ok pList -> pList <> [] -> 0 <= nTruncate < 2 ^ 32 -> frame_ok (last_frame_of nTruncate pList).
Proof using.
  clear. intros Hp Hne Hn. destruct (exists_last Hne) as (l & p & ->). unfold last_frame_of. rewrite last_last. apply Forall_app in Hp as [_ Hp]. apply Forall_cons in Hp as [(H1 & H2 & H3) _]. split_and!; cbn; [done|lia|lia|done|done].
Qed.

(** Padding and syncing. *)
Lemma frames_sync_spec c d nTruncate isCommit sync_flags p base rest ck (f := mkFrame p.1 nTruncate p.2) : 0 < c_sectorSize c <= 65536 -> frame_ok f -> d_file d = base ++ rest -> at_ck (d_wal d) ck -> cksum_range ck ->
  exists ret rc d' j m cc, frames_sync c d szPage nTruncate isCommit sync_flags p (Z.of_nat (length base)) = Some (ret, rc, d', j) /\ d_wal d' = ck_wal (d_wal d) cc /\ (rc <> SQLITE_OK -> isCommit = true /\ exists n, (rc, n) ∈ d_io d) /\
    (ret = false -> wrote d d' base rest (chain_bytes ck (replicate j f)) m /\ m = length (chain_bytes ck (replicate j f)) /\ cc = chain_ck ck (replicate j f) /\ Z.of_nat j <= 65536 /\ (isCommit = false -> j = 0%nat)) /\
    (ret = true -> rc <> SQLITE_OK /\ exists J, Z.of_nat J <= 65536 /\ wrote d d' base rest (chain_bytes ck (replicate J f)) m).
Proof using Hsz Hsalt.
  intros Hss Hfr Hf Hat Hck. assert (wrote d d base rest (chain_bytes ck (replicate 0 f)) 0) as Hnil by (split; [cbn; lia|by rewrite Hf|done|done]). assert (d_wal d = ck_wal (d_wal d) ck) as Hself by (destruct Hat as (_ & _ & _ & <-); by rewrite ck_wal_self).
  unfold frames_sync. destruct isCommit; cbn [andb]; [|exists false, SQLITE_OK, d, 0%nat, 0%nat, ck; by split_and!]. destruct (negb (Z.land sync_flags WAL_SYNC_TRANSACTIONS =? 0)); [|exists false, SQLITE_OK, d, 0%nat, 0%nat, ck; by split_and!]. destruct (c_pad c).
  - rewrite Z.quot_div_nonneg by lia. set (sp := (Z.of_nat (length base) + c_sectorSize c - 1) / c_sectorSize c * c_sectorSize c). assert (0 <= sp - Z.of_nat (length base) < c_sectorSize c) as Hsp by (unfold sp; Z.to_euclidean_division_equations; nia).
    destruct (pad_loop_spec sp f Hfr (S (Z.to_nat (sp - Z.of_nat (length base)))) d base rest ck 0 Hf Hat Hck ltac:(lia)) as (rc & d' & j & m & cc & Heq & Hok & Hbad & Hwal). cbn [f_pgno f_data f_trunc f] in Heq. rewrite <- surjective_pairing in Heq. rewrite Heq. cbn [mbind option_bind]. exists (negb (rc =? SQLITE_OK)), rc, d', j, m, cc. split; [done|]. split; [done|]. split; [|split].
    + intros Hrc. split; [done|]. by apply Hbad.
    + intros Hret%negb_false_iff%Z.eqb_eq. destruct (Hok Hret) as (Hw & -> & -> & Hj). split; [exact Hw|]. split_and!; [done|done|lia|done].
    + intros Hret%negb_true_iff%Z.eqb_neq. split; [done|]. destruct (Hbad Hret) as (Hw & Hj & _). exists (S j). split; [lia|]. done.
  - destruct (os_sync_wrote _ _ _ _ _ _ Hnil) as (rc & d' & -> & Hw & Hbad & Hwal & _). exists false, rc, d', 0%nat, 0%nat, ck. split; [done|]. split; [congruence|]. split; [auto|]. split; [|done]. intros _. by split_and!.
Qed.

Lemma walLimitSize_spec d base rest nMax : d_file d = base ++ rest -> Z.of_nat (length base) <= nMax -> exists k, d_file (walLimitSize d nMax) = base ++ take k rest /\ d_wal (walLimitSize d nMax) = d_wal d.
Proof using.
  clear. intros Hf Hn. unfold walLimitSize. assert (d_file d = base ++ take (length rest) rest) as Hself by (by rewrite take_ge by lia).
  destruct (os_call_spec d) as (rx & io & -> & _ & _). destruct ((rx =? SQLITE_OK) && (nMax <? Z.of_nat (length (d_file (set_io d io))))); [|by exists (length rest)].
  unfold os_truncate. destruct (os_call_spec (set_io d io)) as (rc & io2 & -> & _ & _). destruct (rc =? SQLITE_OK); cbn [snd]; [|by exists (length rest)].
  exists (Z.to_nat nMax - length base)%nat. cbn. by rewrite Hf, take_app_ge by lia.
Qed.
End Write.
