(* ===== verification/WalDurable.v ===== *)
(** * WalDurable: transactions survive a crash (wal.c)

    The log file holds what the wal-index says, whatever fails; after a crash the
    recovered index has the transactions that were complete. *)
From S2P Require Import Prelude Varint Record Page PageLayout PageCells Wal WalLog WalHash WalIndex WalSpec WalFrame WalRecover WalWrite.

Lemma wal_rel_ck w a c : wal_rel w a -> wal_rel (ck_wal w c) a.
Proof. intros [[junk H1] H2 H3 H4 H5 H6 H7]. split; [exists junk; by eapply wal_inv_ext|done|done|done|done|done|done]. Qed.

(** [l'] is what was left of [l]. *)
Definition sub_rest (l l' : list Z) : Prop := forall P : Z -> Prop, Forall P l -> Forall P l'.

Lemma sub_rest_drop n l : sub_rest l (drop n l).
Proof. intros P. apply Forall_drop. Qed.

Lemma sub_rest_take n l : sub_rest l (take n l).
Proof. intros P. apply Forall_take. Qed.

Lemma sub_rest_trans l1 l2 l3 : sub_rest l1 l2 -> sub_rest l2 l3 -> sub_rest l1 l3.
Proof. unfold sub_rest. auto. Qed.

Lemma sub_rest_nil l l' : sub_rest l l' -> l = [] -> l' = [].
Proof. intros Hs ->. destruct l' as [|x l']; [done|]. specialize (Hs (fun _ => False) (Forall_nil_2 _)). by inversion Hs. Qed.

(** ** sqlite3WalFrames after the header *)

Section Body.
Context (native : bool) (salt : list Z) (szPage : Z).
Context (Hsz : 8 <= szPage /\ szPage mod 8 = 0) (Hsalt : length salt = 8%nat).

Abbreviation chain_bytes := (chain_bytes native salt szPage).
Abbreviation chain_ck := (chain_ck native szPage).
Abbreviation at_ck := (at_ck native salt szPage).

(** The call of sqlite3WalFrames is one that the pager makes. *)
Definition frames_args (c : WalCfg) (a : alog) (pList : list (Z * list Z)) (nTruncate : Z) (isCommit : bool) : Prop :=
  0 < c_sectorSize c <= 65536 /\ pages_ok szPage pList /\ pList <> [] /\ 0 <= nTruncate < 2 ^ 32 /\ isCommit = negb (nTruncate =? 0) /\ len (a_all a) + len pList + 65536 < 2 ^ 30 /\
  (isCommit = false -> Forall (fun p => p.1 <> 1) pList).

(** After the call: [new] are the frames of the pages, followed by [J] copies of the last. *)
Definition body_frames (pList : list (Z * list Z)) (nTruncate : Z) (isCommit : bool) (J : nat) : list frame := mk_frames nTruncate isCommit pList ++ replicate J (last_frame_of nTruncate pList).

Record body_done (d d' : WalDb) (a : alog) (base rest' : list Z) (ck : Z * Z) (pList : list (Z * list Z)) (nTruncate : Z) (isCommit : bool) (J : nat) : Prop := {
  bd_file : d_file d' = base ++ chain_bytes ck (body_frames pList nTruncate isCommit J) ++ rest';
  bd_rel : wal_rel (d_wal d') (alog_step 0 a (OpFrames szPage (map fst pList) J nTruncate isCommit));
  bd_ck : at_ck (d_wal d') (chain_ck ck (body_frames pList nTruncate isCommit J));
  bd_nCkpt : w_nCkpt (d_wal d') = w_nCkpt (d_wal d) /\ h_bigEndCksum (w_hdr (d_wal d')) = h_bigEndCksum (w_hdr (d_wal d));
  bd_hdr : w_aHdr (d_wal d') = (if isCommit then (w_hdr (d_wal d'), w_hdr (d_wal d')) else w_aHdr (d_wal d));
  bd_extra : Z.of_nat J <= 65536 /\ (isCommit = false -> J = 0%nat) }.

Record body_failed (d d' : WalDb) (a : alog) (base rest' content : list Z) (m : nat) (rc : Z) : Prop := {
  bf_file : d_file d' = base ++ take m content ++ rest';
  bf_rel : wal_rel (d_wal d') a;
  bf_same : w_aHdr (d_wal d') = w_aHdr (d_wal d) /\ w_szPage (d_wal d') = w_szPage (d_wal d) /\ w_nCkpt (d_wal d') = w_nCkpt (d_wal d) /\ h_aSalt (w_hdr (d_wal d')) = h_aSalt (w_hdr (d_wal d));
  bf_rc : io_fail d rc }.

Lemma wrote_failed d d' a base rest content m rc c : wal_rel (d_wal d) a -> wrote d d' base rest content m -> d_wal d' = ck_wal (d_wal d) c -> (exists n, (rc, n) ∈ d_io d) -> body_failed d d' a base (drop m rest) content m rc.
Proof using. clear. intros HR Hw Hwal Hin. split; [apply Hw|rewrite Hwal; by apply wal_rel_ck|by rewrite Hwal|by left]. Qed.

Lemma frames_limit_spec c d base rest rest0 iFrame J isCommit : d_file d = base ++ rest -> sub_rest rest0 rest -> Z.of_nat (length base) <= walFrameOffset (iFrame + Z.of_nat J + 1) szPage ->
  exists rest', d_file (frames_limit c d szPage iFrame J isCommit) = base ++ rest' /\ sub_rest rest0 rest' /\ d_wal (frames_limit c d szPage iFrame J isCommit) = d_wal d.
Proof using.
  clear. intros Hf Hs Hl. unfold frames_limit. destruct (isCommit && _ && _); [|by exists rest]. cbv zeta. match goal with |- context [walLimitSize d ?sz] => destruct (walLimitSize_spec d base rest sz Hf) as (k & E1 & E2); [destruct (Z.ltb_spec (c_mxWalSize c) (walFrameOffset (iFrame + Z.of_nat J + 1) szPage)); lia|] end.
  exists (take k rest). split; [exact E1|]. split; [|exact E2]. eapply sub_rest_trans; [exact Hs|apply sub_rest_take].
Qed.

Lemma frames_body_spec c d a pList nTruncate isCommit sync_flags base rest ck : frames_args c a pList nTruncate isCommit -> wal_rel (d_wal d) a -> at_ck (d_wal d) ck -> cksum_range ck ->
  d_file d = base ++ rest -> Z.of_nat (length base) = walFrameOffset (len (a_all a) + 1) szPage ->
  exists rc d' J m rest', frames_body c d szPage pList nTruncate isCommit sync_flags = Some (rc, d') /\ sub_rest rest rest' /\ ((isCommit = false -> J = 0%nat) /\ Z.of_nat J <= 65536) /\
    (rc = SQLITE_OK -> body_done d d' a base rest' ck pList nTruncate isCommit J) /\ (rc <> SQLITE_OK -> body_failed d d' a base rest' (chain_bytes ck (body_frames pList nTruncate isCommit J)) m rc).
Proof using Hsz Hsalt.
  intros (Hss & Hpg & Hne & Hnt & Hcom & Hmax & Hspill) HR Hat Hck Hf Hoff. unfold frames_body. rewrite (wr_mx _ _ HR). pose proof Hat as (_ & _ & Hwz & _). rewrite Hwz, Z.eqb_refl. cbn [assert_ mbind option_bind]. rewrite <- Hoff.
  destruct (frames_loop_spec native salt szPage Hsz Hsalt nTruncate isCommit pList d base rest ck (len (a_all a)) Hf Hat Hck (mk_frames_ok szPage _ _ _ Hpg Hnt) ltac:(lia) ltac:(lia) Hoff) as (rc & d1 & i & o & m1 & c1 & -> & Hw1 & Hr1 & Hwal1 & Hend1). cbn [mbind option_bind].
  destruct (Z.eqb_spec rc SQLITE_OK) as [->|Hrc]; cbn [negb].
  2: { exists rc, d1, 0%nat, m1, (drop m1 rest). split; [done|]. split; [apply sub_rest_drop|]. split; [split; [done|lia]|]. split; [done|]. intros _. unfold body_frames. rewrite app_nil_r. eapply wrote_failed; [done|exact Hw1|exact Hwal1|by apply Hr1]. }
  destruct (Hend1 eq_refl) as (-> & -> & ->). pose proof (proj1 Hr1 eq_refl) as ->. set (new := mk_frames nTruncate isCommit pList) in *. set (f := last_frame_of nTruncate pList).
  assert (cksum_range (chain_ck ck new)) as Hck1 by (apply (chain_ck_range native salt szPage Hsz Hsalt); [done|by apply mk_frames_ok]). assert (len new = len pList) as Hln by (unfold new; rewrite <- (length_map f_pgno), mk_frames_pgno, length_map; done).
  assert (Z.of_nat (length base) + len pList * (szPage + WAL_FRAME_HDRSIZE) = Z.of_nat (length (base ++ chain_bytes ck new))) as Hoff1 by (rewrite length_app, Nat2Z.inj_add, (chain_length native salt szPage Hsz Hsalt) by (by apply mk_frames_ok); lia). rewrite Hoff1.
  assert (at_ck (d_wal d1) (chain_ck ck new)) as Hat1 by (rewrite Hwal1; by eapply at_ck_wal).
  destruct (frames_sync_spec native salt szPage Hsz Hsalt c d1 nTruncate isCommit sync_flags (List.last pList (0, [])) (base ++ chain_bytes ck new) (drop (length (chain_bytes ck new)) rest) (chain_ck ck new) Hss) as (ret & rc & d2 & J & m2 & c2 & -> & Hwal2 & Hrc2 & Hok2 & Hbad2); [by apply last_frame_ok|by apply (wrote_all _ _ _ _ _ Hw1)|done|done|]. cbn [mbind option_bind]. fold f in Hok2, Hbad2.
  destruct ret.
  { destruct (Hbad2 eq_refl) as (Hrc & J' & HJ' & Hw2). destruct (Hrc2 Hrc) as (Hcm & n & Hin). destruct (wrote_trans _ _ _ _ _ _ _ _ rc Hw1 Hw2 ltac:(split; [done|eauto])) as [Hw3 Hr3]. rewrite <- chain_app in Hw3. exists rc, d2, J', (length (chain_bytes ck new) + m2)%nat, (drop (length (chain_bytes ck new) + m2) rest). split; [done|]. split; [apply sub_rest_drop|]. split; [split; [by rewrite Hcm|done]|]. split; [done|]. intros _.
    eapply wrote_failed; [done|exact Hw3|by rewrite Hwal2, Hwal1|by apply Hr3]. }
  destruct (Hok2 eq_refl) as (Hw2 & -> & -> & HJ & HJ0). clear Hok2 Hbad2. assert (rc <> SQLITE_OK -> exists n, (rc, n) ∈ d_io d) as Hio2. { intros Hrc. destruct (Hrc2 Hrc) as (_ & n & Hin). exists n. destruct Hw1 as [_ _ [q ->] _]. apply elem_of_app. by right. }
  destruct (wrote_trans _ _ _ _ _ _ _ _ SQLITE_OK Hw1 Hw2 ltac:(done)) as [Hw3 _]. rewrite <- chain_app in Hw3. change (new ++ replicate J f) with (body_frames pList nTruncate isCommit J) in Hw3. set (all := body_frames pList nTruncate isCommit J) in *.
  assert (length (chain_bytes ck new) + length (chain_bytes (chain_ck ck new) (replicate J f)) = length (chain_bytes ck all))%nat as Hlen3 by (unfold all, body_frames; fold new f; by rewrite chain_app, length_app).
  change (wrote d d2 base rest (chain_bytes ck all) (length (chain_bytes ck new) + length (chain_bytes (chain_ck ck new) (replicate J f)))) in Hw3. rewrite Hlen3 in Hw3.
  assert (Forall (frame_ok szPage) all) as Hallok by (apply Forall_app; split; [by apply mk_frames_ok|apply Forall_replicate; by apply last_frame_ok]). assert (len all = len pList + Z.of_nat J) as Hlall by (unfold all, body_frames; fold new; rewrite length_app, length_replicate; lia).
  set (d3 := frames_limit c d2 szPage _ J isCommit). assert (exists rest3, d_file d3 = (base ++ chain_bytes ck all) ++ rest3 /\ sub_rest rest rest3 /\ d_wal d3 = d_wal d2) as (rest3 & Hf3 & Hr3 & Hwal3).
  { apply (frames_limit_spec c d2 (base ++ chain_bytes ck all) (drop (length (chain_bytes ck all)) rest) rest); [by apply (wrote_all _ _ _ _ _ Hw3)|apply sub_rest_drop|].
    rewrite length_app, Nat2Z.inj_add, (chain_length native salt szPage Hsz Hsalt), Hlall by done. rewrite Hoff. unfold walFrameOffset. lia. }
  clearbody d3. set (w3 := ck_wal (d_wal d) (chain_ck ck all)). assert (d_wal d3 = w3) as Hw3'. { rewrite Hwal3, Hwal2, Hwal1. unfold w3, all, body_frames. fold new f. by rewrite chain_ck_app. }
  destruct (Z.eqb_spec rc SQLITE_OK) as [->|Hrc].
  2: { exists rc, d3, J, (length (chain_bytes ck all)), rest3. split; [done|]. split; [done|]. split; [by split|]. split; [done|]. intros _. split; [by rewrite take_ge, Hf3, <- app_assoc by (fold all; lia)|rewrite Hw3'; by apply wal_rel_ck|by rewrite Hw3'|left; by apply Hio2]. }
  rewrite Hw3'. destruct (frames_refines w3 a szPage (map fst pList) J nTruncate isCommit) as (rc & w4 & Hex & HR4 & Hbad4 & Hfld); [by apply wal_rel_ck| |].
  { split_and!; [by destruct pList|apply Forall_map; eapply Forall_impl; [exact Hpg|]; by intros p (? & _)|rewrite length_map; lia|]. intros Hc. split; [by apply HJ0|]. apply Forall_map. by apply Hspill. }
  cbn [wal_exec] in Hex. rewrite Hex. cbn [mbind option_bind]. exists rc, (set_wal d3 w4), J, (length (chain_bytes ck all)), rest3. split; [done|]. split; [done|]. split; [by split|]. split; intros Hrc.
  - subst rc. cbn [Z.eqb SQLITE_OK] in HR4, Hfld. destruct Hfld as (F1 & F2 & F3 & F4 & F5 & F6). split; cbn [d_file d_wal set_wal]; [by rewrite Hf3, <- app_assoc|exact HR4| |done|done|done]. fold all. destruct Hat as (A1 & A2 & A3 & A4). split_and!; [by rewrite F3|by rewrite F4|by rewrite F1|by rewrite F5].
  - rewrite (proj2 (Z.eqb_neq rc _)) in HR4, Hfld by done. split; cbn [d_file d_wal set_wal]; [by rewrite take_ge, Hf3, <- app_assoc by (fold all; lia)|exact HR4| |right; by apply Hbad4]. destruct Hfld as (F1 & F2 & _ & _ & F5 & F6 & _). split_and!; [done|done|done|by rewrite F1].
Qed.
End Body.

(** ** Bytes *)

Lemma put4_mem v : Forall is_byte (sqlite3Put4byte v).
Proof. repeat constructor; apply u8_byte. Qed.

Lemma wal_hdr_mem b szPage nCkpt salt : Forall is_byte salt -> Forall is_byte (wal_hdr_bytes b szPage nCkpt salt).
Proof. intros Hs. unfold wal_hdr_bytes, wal_hdr24. rewrite !Forall_app. pose proof put4_mem. by split_and!. Qed.

Lemma chain_mem native salt szPage fs : Forall is_byte salt -> Forall (frame_ok szPage) fs -> forall ck, Forall is_byte (chain_bytes native salt szPage ck fs).
Proof.
  intros Hs Hfs. induction Hfs as [|f fs (_ & _ & _ & Hd) _ IH]; intros ck; [constructor|]. cbn [chain_bytes]. unfold frame_bytes, frame_head. rewrite !Forall_app. pose proof put4_mem. by split_and!.
Qed.

(** ** A log that ends early *)

Section Prefix.
Context (native : bool) (salt : list Z) (szPage : Z).
Context (Hsz : 8 <= szPage /\ szPage mod 8 = 0) (Hsalt : length salt = 8%nat).

Lemma rejected_short ck rest : Z.of_nat (length rest) < szPage + WAL_FRAME_HDRSIZE -> rejected native salt szPage ck rest.
Proof using Hsz Hsalt. intros Hl f Hf Hpre. apply prefix_length in Hpre. pose proof (frame_bytes_length native salt szPage Hsz Hsalt ck f Hf). lia. Qed.

Lemma chain_prefix all : Forall (frame_ok szPage) all -> forall ck l, l `prefix_of` chain_bytes native salt szPage ck all ->
  exists gs torn, gs `prefix_of` all /\ l = chain_bytes native salt szPage ck gs ++ torn /\ Z.of_nat (length torn) < szPage + WAL_FRAME_HDRSIZE.
Proof using Hsz Hsalt.
  assert (0 < szPage + WAL_FRAME_HDRSIZE) by (change WAL_FRAME_HDRSIZE with 24; lia). induction 1 as [|f all Hf _ IH]; intros ck l Hl. { exists [], []. cbn in Hl. apply prefix_nil_inv in Hl. subst. by split_and!. }
  cbn [chain_bytes] in Hl. pose proof (frame_bytes_length native salt szPage Hsz Hsalt ck f Hf) as Hfl. destruct (decide (length l < length (frame_bytes native salt szPage ck f))%nat) as [Hlt|Hge].
  - exists [], l. split; [apply prefix_nil|]. split; [done|lia].
  - destruct (prefix_weak_total (frame_bytes native salt szPage ck f) l (frame_bytes native salt szPage ck f ++ chain_bytes native salt szPage (frame_ck native szPage ck f) all)) as [[l' ->]|Hpre]; [by eexists|done| |].
    + apply prefix_app_inv in Hl. destruct (IH _ _ Hl) as (gs & torn & Hgs & -> & Ht). exists (f :: gs), torn. split; [by apply prefix_cons|]. cbn. by rewrite app_assoc.
    + assert (l = frame_bytes native salt szPage ck f) as ->. { destruct Hpre as [x Hx]. rewrite Hx, length_app in Hge. assert (x = []) as -> by (apply length_zero_iff_nil; lia). by rewrite app_nil_r in Hx. }
      exists [f], []. split; [apply prefix_cons, prefix_nil|]. cbn. rewrite !app_nil_r. split; [done|lia].
Qed.
End Prefix.

(** ** Complete transactions *)

Lemma commits_app fs gs : commits (fs ++ gs) = if (commits gs =? 0)%nat then commits fs else (length fs + commits gs)%nat.
Proof.
  induction fs as [|f fs IH]; cbn; [by destruct (commits gs)|]. rewrite IH. destruct (commits gs) as [|k] eqn:Hk; cbn; [done|]. rewrite Nat.add_succ_r. done.
Qed.

Lemma commits_zero fs : Forall (fun f => f_trunc f = 0) fs -> commits fs = 0%nat.
Proof. induction 1 as [|f fs Hf _ IH]; [done|]. cbn. by rewrite IH, Hf. Qed.

Lemma commits_last fs f : f_trunc f <> 0 -> commits (fs ++ [f]) = length (fs ++ [f]).
Proof. intros Hf. rewrite commits_app, length_app. cbn. rewrite (proj2 (Z.eqb_neq _ 0)) by done. done. Qed.

(** The frames of a call: only the last ones are commits. *)
Lemma body_frames_split pList nTruncate isCommit J : pList <> [] -> exists pre, Forall (fun f => f_trunc f = 0) pre /\ S (length pre) = length pList /\
  body_frames pList nTruncate isCommit J = pre ++ mkFrame (List.last pList (0, [])).1 (if isCommit then nTruncate else 0) (List.last pList (0, [])).2 :: replicate J (last_frame_of nTruncate pList).
Proof.
  intros Hne. unfold body_frames, last_frame_of. generalize (replicate J (mkFrame (List.last pList (0, [])).1 nTruncate (List.last pList (0, [])).2)) as tl. induction pList as [|p pList IH]; [done|]. intros tl. destruct pList as [|q pList].
  - exists []. split; [done|]. split; [done|]. cbn. by rewrite andb_true_r.
  - destruct (IH ltac:(done) tl) as (pre & H1 & H2 & H3). exists (mkFrame p.1 0 p.2 :: pre). split; [by constructor|]. split; [cbn in *; lia|]. change (mk_frames nTruncate isCommit (p :: q :: pList)) with (mkFrame p.1 (if isCommit && false then nTruncate else 0) p.2 :: mk_frames nTruncate isCommit (q :: pList)).
    rewrite andb_false_r. change (List.last (p :: q :: pList) (0, [])) with (List.last (q :: pList) (0, [])). cbn [app]. by rewrite H3.
Qed.

(** ** The header of the log *)

Lemma frames_header_spec c d a szPage sync_flags rsalt : wal_rel (d_wal d) a -> page_size szPage -> 0 <= w_nCkpt (d_wal d) < 2 ^ 32 -> length rsalt = 8%nat -> Forall is_byte rsalt -> Forall is_byte (h_aSalt (w_hdr (d_wal d))) ->
  exists rc d' m salt, let hb := wal_hdr_bytes 0 szPage (w_nCkpt (d_wal d)) salt in
    frames_header c d szPage sync_flags rsalt = Some (rc, d') /\ d_file d' = take m hb ++ drop m (d_file d) /\ (m <= 32)%nat /\ (rc = SQLITE_OK -> m = 32%nat) /\ (rc <> SQLITE_OK -> exists n, (rc, n) ∈ d_io d) /\ d_io d' `suffix_of` d_io d /\
    wal_rel (d_wal d') a /\ at_ck true salt szPage (d_wal d') (wal_hdr_ck 0 szPage (w_nCkpt (d_wal d)) salt) /\ length salt = 8%nat /\ Forall is_byte salt /\
    w_nCkpt (d_wal d') = w_nCkpt (d_wal d) /\ w_aHdr (d_wal d') = w_aHdr (d_wal d) /\ w_map (d_wal d') = w_map (d_wal d).
Proof.
  intros HR Hps Hn Hrl Hrb Hsb. unfold frames_header. cbv zeta. set (w0 := if w_nCkpt (d_wal d) =? 0 then _ else d_wal d). set (salt := h_aSalt (w_hdr w0)).
  assert (length salt = 8%nat /\ Forall is_byte salt) as [Hsl Hsb0] by (unfold salt, w0; destruct (w_nCkpt (d_wal d) =? 0); cbn; [done|split; [apply HR|done]]).
  assert (w_nCkpt w0 = w_nCkpt (d_wal d) /\ w_aHdr w0 = w_aHdr (d_wal d) /\ w_map w0 = w_map (d_wal d)) as (E1 & E2 & E3) by (unfold w0; by destruct (w_nCkpt (d_wal d) =? 0)). assert (wal_rel w0 a) as HR0.
  { unfold w0. destruct (w_nCkpt (d_wal d) =? 0); [|done]. destruct HR as [[junk H1] H2 H3 H4 H5 H6 H7]. split; [exists junk; by eapply wal_inv_ext|done|done|done|done|done|done]. }
  clearbody w0. rewrite E1. change (sqlite3Put4byte (Z.lor WAL_MAGIC SQLITE_BIGENDIAN) ++ sqlite3Put4byte WAL_MAX_VERSION ++ sqlite3Put4byte szPage ++ sqlite3Put4byte (w_nCkpt (d_wal d)) ++ salt) with (wal_hdr24 0 szPage (w_nCkpt (d_wal d)) salt).
  change (WAL_HDRSIZE - 2 * 4) with 24. destruct (wal_hdr_ck_spec 0 szPage (w_nCkpt (d_wal d)) salt Hsl) as [Hcke Hck]. change (0 =? SQLITE_BIGENDIAN) with true in Hcke. rewrite Hcke. cbn [mbind option_bind]. set (ck := wal_hdr_ck 0 szPage (w_nCkpt (d_wal d)) salt).
  change (wal_hdr24 0 szPage (w_nCkpt (d_wal d)) salt ++ sqlite3Put4byte ck.1 ++ sqlite3Put4byte ck.2) with (wal_hdr_bytes 0 szPage (w_nCkpt (d_wal d)) salt). set (hb := wal_hdr_bytes 0 szPage (w_nCkpt (d_wal d)) salt).
  assert (length hb = 32%nat) as Hhb by (apply wal_hdr_length; done). set (w1 := set_hdr (set_wsz w0 szPage) _). set (d1 := set_trunc (set_wal d w1) true).
  assert (wal_rel w1 a /\ at_ck true salt szPage w1 ck) as [HR1 Hat1]. { split; [|by split_and!]. destruct HR0 as [[junk H1] H2 H3 H4 H5 H6 H7]. split; [exists junk; by eapply wal_inv_ext|done|done|done|done|done|done]. }
  destruct (os_write_spec d1 [] (d_file d) hb eq_refl) as (rc & d2 & m & Heq & [Hm Hfile Hio Htr] & [Hok Hbad] & Hwal). change (Z.of_nat (length [])) with 0 in Heq. rewrite Heq. rewrite Hhb in Hm, Hok. cbn [app] in Hfile.
  destruct (Z.eqb_spec rc SQLITE_OK) as [->|Hrc]; cbn [negb].
  - destruct (c_syncHeader c && negb (sync_flags =? 0)).
    + destruct (os_sync_spec d2) as (rc & io & -> & Hio2 & Hbad2). eexists rc, _, m, salt. split; [reflexivity|]. cbn [d_file d_wal d_io set_io set_past]. rewrite Hwal. split_and!; try done; try congruence; try (by etransitivity); try (intros _; by apply Hok). intros Hrc. destruct (Hbad2 Hrc) as [n Hin]. exists n. destruct Hio as [q Hq]. change (d_io d1) with (d_io d) in Hq. rewrite Hq. apply elem_of_app. by right.
    + exists SQLITE_OK, d2, m, salt. rewrite Hwal. split_and!; try done; congruence.
  - exists rc, d2, m, salt. rewrite Hwal. split_and!; try done; congruence.
Qed.

(** ** The log file and the wal-index *)

Definition log_pages (fs : list frame) (c : nat) : alog := mkLog (map f_pgno (take c fs)) (map f_pgno (drop c fs)).

Lemma log_pages_all fs c : a_all (log_pages fs c) = map f_pgno fs.
Proof. unfold a_all, log_pages. cbn. by rewrite <- map_app, take_drop. Qed.

(** [fs] are the frames of the log, [c] of which belong to complete transactions; the file
    holds [rest] after them. *)
Record log_rel (d : WalDb) (szPage b nCkpt : Z) (salt : list Z) (fs : list frame) (c : nat) (rest : list Z) : Prop := {
  lr_wal : wal_rel (d_wal d) (log_pages fs c);
  lr_commits : commits fs = c;
  lr_size : page_size szPage;
  lr_file : if decide (fs = []) then d_file d = rest else log_file b szPage nCkpt salt fs rest (d_file d);
  lr_hdr : c <> 0%nat -> h_bigEndCksum (w_aHdr (d_wal d)).1 = b /\ h_aSalt (w_aHdr (d_wal d)).1 = salt /\ h_aFrameCksum (w_aHdr (d_wal d)).1 = log_ck b szPage nCkpt salt (take c fs);
  lr_wsz : fs <> [] -> w_szPage (d_wal d) = szPage;
  lr_bytes : Forall is_byte (h_aSalt (w_hdr (d_wal d))) /\ Forall is_byte (h_aSalt (w_aHdr (d_wal d)).1) /\ Forall is_byte (d_file d);
  lr_nCkpt : 0 <= w_nCkpt (d_wal d) < 2 ^ 32 }.

(** The connection can write the next frame: its checksum is that of the last one. *)
Definition log_at (d : WalDb) (szPage b nCkpt : Z) (salt : list Z) (fs : list frame) : Prop := fs <> [] -> h_bigEndCksum (w_hdr (d_wal d)) = b /\ at_ck (b =? SQLITE_BIGENDIAN) salt szPage (d_wal d) (log_ck b szPage nCkpt salt fs).

Definition log_image (b szPage nCkpt : Z) (salt : list Z) (fs : list frame) : list Z :=
  wal_hdr_bytes b szPage nCkpt salt ++ chain_bytes (b =? SQLITE_BIGENDIAN) salt szPage (wal_hdr_ck b szPage nCkpt salt) fs.

Lemma log_image_app b szPage nCkpt salt fs gs : log_image b szPage nCkpt salt (fs ++ gs) = log_image b szPage nCkpt salt fs ++ chain_bytes (b =? SQLITE_BIGENDIAN) salt szPage (log_ck b szPage nCkpt salt fs) gs.
Proof. unfold log_image, log_ck. by rewrite chain_app, app_assoc. Qed.

Lemma body_pgnos pList nTruncate isCommit J : map f_pgno (body_frames pList nTruncate isCommit J) = map fst pList ++ replicate J (List.last (map fst pList) 0).
Proof.
  unfold body_frames. rewrite map_app, mk_frames_pgno. f_equal. rewrite (fmap_replicate f_pgno J _ : map _ (replicate _ _) = _). f_equal. cbn. induction pList as [|p [|q l] IH]; [done|done|]. exact IH.
Qed.

Lemma body_ok szPage pList nTruncate isCommit J : pages_ok szPage pList -> pList <> [] -> 0 <= nTruncate < 2 ^ 32 -> Forall (frame_ok szPage) (body_frames pList nTruncate isCommit J).
Proof. intros Hp Hne Hn. apply Forall_app. split; [by apply mk_frames_ok|apply Forall_replicate; by apply last_frame_ok]. Qed.

(** The complete transactions of a prefix of a call's frames: none before its last page. *)
Lemma body_commits pList nTruncate isCommit J gs : pList <> [] -> isCommit = negb (nTruncate =? 0) -> (isCommit = false -> J = 0%nat) -> gs `prefix_of` body_frames pList nTruncate isCommit J ->
  commits gs = if isCommit && (length pList <=? length gs)%nat then length gs else 0%nat.
Proof.
  intros Hne Hc HJ Hgs. destruct (body_frames_split pList nTruncate isCommit J Hne) as (pre & Hpre & Hlen & Heq). rewrite Heq in Hgs. destruct Hgs as [x Hx]. destruct (Nat.leb_spec (length pList) (length gs)) as [Hle|Hlt].
  - destruct (split_len gs (length pre)) as (g1 & g2 & -> & Hg1); [lia|]. rewrite <- app_assoc in Hx. apply app_inj_1 in Hx as [-> Hx]; [|done]. rewrite length_app in Hle. destruct g2 as [|f g2]; [cbn in Hle; lia|]. cbn [app] in Hx. injection Hx as <- Hx. destruct isCommit; cbn [andb].
    + assert (nTruncate <> 0) as Hnt by (intros ->; done). rewrite commits_app, length_app. enough (commits (mkFrame (List.last pList (0, [])).1 nTruncate (List.last pList (0, [])).2 :: g2) = S (length g2)) as -> by done.
      assert (Forall (fun f => f_trunc f = nTruncate) g2) as Hg2 by (assert (Forall (fun f => f_trunc f = nTruncate) (g2 ++ x)) as Hall by (rewrite <- Hx; by apply Forall_replicate); by apply Forall_app in Hall as [? _]).
      clear -Hnt Hg2. cbn. rewrite (proj2 (Z.eqb_neq _ 0)) by done. enough (commits g2 = length g2) as -> by (by destruct g2). induction Hg2 as [|f g2 Hf _ IH]; [done|]. cbn. rewrite IH, Hf, (proj2 (Z.eqb_neq _ 0)) by done. by destruct g2.
    + rewrite (HJ eq_refl) in Hx. cbn in Hx. symmetry in Hx. apply app_eq_nil in Hx as [-> _]. apply commits_zero, Forall_app. split; [done|]. by constructor.
  - rewrite andb_false_r. apply commits_zero. assert (gs `prefix_of` pre) as [y ->]; [|by apply Forall_app in Hpre as [? _]]. destruct (prefix_weak_total gs pre (gs ++ x)) as [|[y Hy]]; [by eexists|rewrite <- Hx; by eexists|done|]. rewrite Hy in *. rewrite length_app in Hlt. assert (y = []) as -> by (apply length_zero_iff_nil; lia). by rewrite !app_nil_r.
Qed.

Lemma body_offset b szPage nCkpt salt fs : page_size szPage -> length salt = 8%nat -> Forall (frame_ok szPage) fs -> Z.of_nat (length (log_image b szPage nCkpt salt fs)) = walFrameOffset (len fs + 1) szPage.
Proof.
  intros Hps Hs Hfs. destruct (page_size_props _ Hps) as (H1 & H2 & _). unfold log_image, walFrameOffset. rewrite length_app, Nat2Z.inj_add, wal_hdr_length by done. rewrite (chain_length _ salt szPage ltac:(lia) Hs) by done. change WAL_HDRSIZE with 32. lia.
Qed.

(** ** sqlite3WalFrames *)

(** The frames after a call. *)
Definition after_commit (fs : list frame) (c : nat) (isCommit : bool) (all : list frame) : nat := if isCommit then length (fs ++ all) else c.

Lemma log_pages_step fs c szPage pList nTruncate isCommit J : (c <= length fs)%nat ->
  alog_step 0 (log_pages fs c) (OpFrames szPage (map fst pList) J nTruncate isCommit) = log_pages (fs ++ body_frames pList nTruncate isCommit J) (after_commit fs c isCommit (body_frames pList nTruncate isCommit J)).
Proof.
  intros Hc. cbn [alog_step]. rewrite <- (body_pgnos pList nTruncate isCommit). set (all := body_frames pList nTruncate isCommit J). unfold log_pages, after_commit. destruct isCommit; cbn [a_committed a_pending].
  - rewrite (take_ge (fs ++ all)), (drop_ge (fs ++ all)) by lia. f_equal. rewrite app_assoc, <- map_app, take_drop. by rewrite map_app.
  - rewrite take_app_le, drop_app_le by lia. by rewrite map_app.
Qed.

Section Frames.
Context (cfg : WalCfg) (szPage : Z) (pList : list (Z * list Z)) (nTruncate : Z) (isCommit : bool) (sync_flags : Z) (fs : list frame) (c : nat).
Context (Hargs : frames_args szPage cfg (log_pages fs c) pList nTruncate isCommit) (Hps : page_size szPage) (Hcommits : commits fs = c).

Abbreviation all J := (body_frames pList nTruncate isCommit J).

(** With the header of the log in place. *)
Lemma body_log d b nCkpt salt rest : (h_bigEndCksum (w_hdr (d_wal d)) = b /\ at_ck (b =? SQLITE_BIGENDIAN) salt szPage (d_wal d) (log_ck b szPage nCkpt salt fs)) -> log_file b szPage nCkpt salt fs rest (d_file d) ->
  wal_rel (d_wal d) (log_pages fs c) -> Forall is_byte salt ->
  exists rc d' J m rest', frames_body cfg d szPage pList nTruncate isCommit sync_flags = Some (rc, d') /\ sub_rest rest rest' /\ ((isCommit = false -> J = 0%nat) /\ Z.of_nat J <= 65536) /\
    (rc = SQLITE_OK -> body_done (b =? SQLITE_BIGENDIAN) salt szPage d d' (log_pages fs c) (log_image b szPage nCkpt salt fs) rest' (log_ck b szPage nCkpt salt fs) pList nTruncate isCommit J) /\
    (rc <> SQLITE_OK -> body_failed d d' (log_pages fs c) (log_image b szPage nCkpt salt fs) rest' (chain_bytes (b =? SQLITE_BIGENDIAN) salt szPage (log_ck b szPage nCkpt salt fs) (all J)) m rc).
Proof using Hargs Hps Hcommits.
  intros [Hbe Hat] HF HR Hsb. destruct (page_size_props _ Hps) as (P1 & P2 & _). destruct HF as [F1 F2 F3 F4 F5 F6 F7 F8]. destruct (wal_hdr_ck_spec b szPage nCkpt salt F4) as [_ Hck0].
  apply (frames_body_spec (b =? SQLITE_BIGENDIAN) salt szPage ltac:(lia) F4); [done|done|done| |unfold log_image; by rewrite <- app_assoc|].
  - apply (chain_ck_range (b =? SQLITE_BIGENDIAN) salt szPage ltac:(lia) F4); done.
  - rewrite log_pages_all, length_map. by apply body_offset.
Qed.

(** The whole file after a successful call. *)
Lemma body_done_log d d' b nCkpt salt rest rest' J : h_bigEndCksum (w_hdr (d_wal d)) = b -> log_file b szPage nCkpt salt fs rest (d_file d) -> Forall is_byte salt -> Forall is_byte (h_aSalt (w_aHdr (d_wal d)).1) -> 0 <= w_nCkpt (d_wal d) < 2 ^ 32 ->
  (c <> 0%nat -> h_bigEndCksum (w_aHdr (d_wal d)).1 = b /\ h_aSalt (w_aHdr (d_wal d)).1 = salt /\ h_aFrameCksum (w_aHdr (d_wal d)).1 = log_ck b szPage nCkpt salt (take c fs)) ->
  body_done (b =? SQLITE_BIGENDIAN) salt szPage d d' (log_pages fs c) (log_image b szPage nCkpt salt fs) rest' (log_ck b szPage nCkpt salt fs) pList nTruncate isCommit J -> Forall is_byte rest' ->
  log_rel d' szPage b nCkpt salt (fs ++ all J) (after_commit fs c isCommit (all J)) rest' /\ log_at d' szPage b nCkpt salt (fs ++ all J).
Proof using Hargs Hps Hcommits.
  intros Hbe [F1 F2 F3 F4 F5 F6 F7 F8] Hsb Hhb Hn Hhdr [B1 B2 B3 [B4 Hbe'] B5 [B6 B7]] Hrb. rewrite Hbe in Hbe'. pose proof Hargs as (A1 & A2 & A3 & A4 & A5 & A6 & A7). pose proof (commits_le fs) as Hle.
  assert (Forall (frame_ok szPage) (fs ++ all J)) as Hok by (apply Forall_app; split; [done|by apply body_ok]). rewrite app_assoc, <- log_image_app in B1.
  assert (fs ++ all J <> []) as Hne. { intros [_ H0]%app_eq_nil. destruct (body_frames_split pList nTruncate isCommit J A3) as (pre & _ & _ & Heq). rewrite H0 in Heq. by destruct pre. }
  assert (length (all J) = length pList + J)%nat as Hlall by (rewrite <- (length_map f_pgno), body_pgnos, length_app, length_map, length_replicate; done).
  assert (len (fs ++ all J) < 2 ^ 30) as Hmax by (rewrite log_pages_all, length_map in A6; rewrite length_app; lia).
  assert (log_ck b szPage nCkpt salt (fs ++ all J) = chain_ck (b =? SQLITE_BIGENDIAN) szPage (log_ck b szPage nCkpt salt fs) (all J)) as Hlck by apply chain_ck_app.
  assert (Forall is_byte (log_image b szPage nCkpt salt (fs ++ all J))) as Hib by (apply Forall_app; split; [by apply wal_hdr_mem|by apply chain_mem]). pose proof B3 as (K1 & K2 & K3 & K4). rewrite <- Hlck in B3, K4.
  assert (w_aHdr (d_wal d') = (if isCommit then (w_hdr (d_wal d'), w_hdr (d_wal d')) else w_aHdr (d_wal d))) as B5' by done. split; [|by intros _]. split.
  - rewrite log_pages_step in B2 by lia. exact B2.
  - rewrite commits_app, (body_commits pList nTruncate isCommit J _ A3 A5 B7) by done. unfold after_commit. rewrite (proj2 (Nat.leb_le _ _)), andb_true_r by lia. destruct (length (all J)) as [|k] eqn:Hk; [destruct pList; [done|cbn in Hlall; lia]|]. destruct isCommit; [|done]. cbn [Nat.eqb]. rewrite length_app. lia.
  - done.
  - rewrite decide_False by done. split; try done; [rewrite B1; apply Forall_app; by split|]. rewrite B1. unfold log_image. by rewrite <- app_assoc.
  - unfold after_commit. intros H0. rewrite B5. destruct isCommit; [cbn [fst]; rewrite take_ge by lia; by split_and!|]. rewrite take_app_le by lia. by apply Hhdr.
  - done.
  - rewrite B5, K2. split; [done|]. split; [destruct isCommit; [cbn [fst]; by rewrite K2|done]|]. rewrite B1. apply Forall_app. by split.
  - by rewrite B4.
Qed.

(** A failed call leaves the frames before it. *)
Lemma body_failed_log d d' b nCkpt salt rest' content m rc : log_file b szPage nCkpt salt fs rest' (d_file d') -> fs <> [] -> w_szPage (d_wal d) = szPage -> Forall is_byte (h_aSalt (w_hdr (d_wal d))) -> Forall is_byte (h_aSalt (w_aHdr (d_wal d)).1) -> 0 <= w_nCkpt (d_wal d) < 2 ^ 32 ->
  (c <> 0%nat -> h_bigEndCksum (w_aHdr (d_wal d)).1 = b /\ h_aSalt (w_aHdr (d_wal d)).1 = salt /\ h_aFrameCksum (w_aHdr (d_wal d)).1 = log_ck b szPage nCkpt salt (take c fs)) ->
  forall base r, body_failed d d' (log_pages fs c) base r content m rc -> log_rel d' szPage b nCkpt salt fs c rest'.
Proof using Hargs Hps Hcommits.
  intros HF Hne Hwz Hs1 Hs2 Hn Hhdr base r [B1 B2 (B3 & B4 & B5 & B6) B7]. split; [exact B2|done|done|by rewrite decide_False|by rewrite B3|by rewrite B4|rewrite B6, B3; split_and!; [done|done|apply HF]|by rewrite B5].
Qed.
End Frames.

(** What a call of sqlite3WalFrames leaves behind: after an error the log is as before, and
    the file never holds anything but a prefix of the frames to write over what was there. *)
Record frames_post (d : WalDb) (szPage b nCkpt : Z) (salt : list Z) (fs : list frame) (c : nat) (rest : list Z) (pList : list (Z * list Z)) (nTruncate : Z) (isCommit : bool)
    (rc : Z) (d' : WalDb) (b' nCkpt' : Z) (salt' : list Z) (J : nat) (rest' : list Z) : Prop := {
  fp_same : fs <> [] -> b' = b /\ nCkpt' = nCkpt /\ salt' = salt;
  fp_ok : rc = SQLITE_OK -> let all := body_frames pList nTruncate isCommit J in
    log_rel d' szPage b' nCkpt' salt' (fs ++ all) (after_commit fs c isCommit all) rest' /\ log_at d' szPage b' nCkpt' salt' (fs ++ all);
  fp_fail : rc <> SQLITE_OK -> log_rel d' szPage b nCkpt salt fs c rest' /\ io_fail d rc;
  fp_extra : (isCommit = false -> J = 0%nat) /\ Z.of_nat J <= 65536;
  fp_crash : (fs = [] -> rest = []) -> exists m tail, let img := log_image b' szPage nCkpt' salt' (fs ++ body_frames pList nTruncate isCommit J) in
    d_file d' = take m img ++ tail /\ (m <= length img)%nat /\ (rc = SQLITE_OK -> m = length img) /\ (rest = [] -> tail = []) /\ (fs <> [] -> (length (log_image b' szPage nCkpt' salt' fs) <= m)%nat) /\
    (b' = 0 \/ b' = 1) /\ 0 <= nCkpt' < 2 ^ 32 /\ length salt' = 8%nat /\ Forall is_byte salt' }.

(** The first frames of a log. *)
Lemma walFrames_first cfg d szPage b nCkpt salt rest pList nTruncate isCommit sync_flags rsalt : log_rel d szPage b nCkpt salt [] 0 rest -> frames_args szPage cfg (log_pages [] 0) pList nTruncate isCommit -> length rsalt = 8%nat -> Forall is_byte rsalt ->
  exists rc d' b' nCkpt' salt' J rest',
    ('(rc, d) ← frames_header cfg d szPage sync_flags rsalt; if negb (rc =? SQLITE_OK) then Some (rc, d) else frames_body cfg d szPage pList nTruncate isCommit sync_flags) = Some (rc, d') /\
    frames_post d szPage b nCkpt salt [] 0 rest pList nTruncate isCommit rc d' b' nCkpt' salt' J rest'.
Proof.
  intros HL Hargs Hrl Hrb. pose proof HL as [L1 L2 L3 L4 L5 L6 (L7 & L8 & L9) L10]. pose proof Hargs as (A1 & A2 & A3 & A4 & A5 & A6 & A7). rewrite decide_True in L4 by done.
  destruct (frames_header_spec cfg d _ szPage sync_flags rsalt L1 L3 L10 Hrl Hrb L7) as (rc & d1 & m & s1 & Hfh & Hf1 & Hm & Hok1 & Hbad1 & Hio1 & HR1 & Hat1 & Hsl & Hsb & Hn1 & Ha1 & Hmap1). cbv zeta in *. rewrite Hfh. cbn [mbind option_bind]. set (hb := wal_hdr_bytes 0 szPage (w_nCkpt (d_wal d)) s1) in *.
  assert (length hb = 32%nat) as Hhb by (by apply wal_hdr_length). assert (Forall is_byte hb) as Hhm by (by apply wal_hdr_mem). destruct (Z.eqb_spec rc SQLITE_OK) as [->|Hrc]; cbn [negb].
  + rewrite (Hok1 eq_refl), take_ge, L4 in Hf1 by lia. assert (log_file 0 szPage (w_nCkpt (d_wal d)) s1 [] (drop 32 rest) (d_file d1)) as HF by (split; try done; [by left|rewrite Hf1; apply Forall_app; split; [done|rewrite <- L4; by apply Forall_drop]]).
    assert (h_bigEndCksum (w_hdr (d_wal d1)) = 0) as Hbe by (destruct Hat1 as (K1 & _); by apply Z.eqb_eq in K1).
    destruct (body_log cfg szPage pList nTruncate isCommit sync_flags [] 0 Hargs L3 eq_refl d1 0 (w_nCkpt (d_wal d)) s1 (drop 32 rest) (conj Hbe Hat1) HF HR1 Hsb) as (rc & d2 & J & m2 & rest2 & Heq & Hsub & HJ & Hok2 & Hbad2).
    exists rc, d2, 0, (w_nCkpt (d_wal d)), s1, J, (if rc =? SQLITE_OK then rest2 else d_file d2). split; [exact Heq|]. assert (Forall is_byte rest2) as Hrb2 by (apply Hsub, Forall_drop; by rewrite <- L4).
    assert (d_file d2 = hb ++ take (if rc =? SQLITE_OK then length (chain_bytes true s1 szPage (wal_hdr_ck 0 szPage (w_nCkpt (d_wal d)) s1) (body_frames pList nTruncate isCommit J)) else m2) (chain_bytes true s1 szPage (wal_hdr_ck 0 szPage (w_nCkpt (d_wal d)) s1) (body_frames pList nTruncate isCommit J)) ++ rest2) as Hfile2.
    { destruct (Z.eqb_spec rc SQLITE_OK) as [Hrc|Hrc]; [destruct (Hok2 Hrc) as [B1 _ _ _ _ _]; rewrite take_ge by lia|destruct (Hbad2 Hrc) as [B1 _ _ _]]; unfold log_image in B1; cbn [chain_bytes] in B1; rewrite app_nil_r in B1; exact B1. }
    split; [done|intros Hrc|intros Hrc|exact HJ|intros Hrc].
    * subst rc. cbn [Z.eqb SQLITE_OK]. apply (body_done_log cfg szPage pList nTruncate isCommit [] 0 Hargs L3 eq_refl d1 d2 0 (w_nCkpt (d_wal d)) s1 (drop 32 rest)); try done; [by rewrite Ha1|by rewrite Hn1|by apply Hok2].
    * rewrite (proj2 (Z.eqb_neq rc _)) by done. destruct (Hbad2 Hrc) as [B1 B2 (B3 & B4 & B5 & B6) B7]. split.
      { split; try done; [destruct Hat1 as (_ & K2 & _); rewrite B6, B3, Ha1, K2; split_and!; [done|done|]|by rewrite B5, Hn1]. rewrite Hfile2, !Forall_app. split_and!; [done|apply Forall_take, chain_mem; [done|by apply body_ok]|done]. }
      destruct B7 as [[n Hin]|Hin]; [left; exists n; destruct Hio1 as [q ->]; apply elem_of_app; by right|right; by rewrite <- Hmap1].
    * specialize (Hrc eq_refl). set (content := chain_bytes true s1 szPage _ _) in *. set (k := if rc =? SQLITE_OK then length content else m2) in *. assert (rest2 = []) as -> by (eapply sub_rest_nil; [exact Hsub|]; by rewrite Hrc). rewrite app_nil_r in Hfile2.
      exists (length (hb ++ take k content)), []. change (log_image 0 szPage (w_nCkpt (d_wal d)) s1 ([] ++ body_frames pList nTruncate isCommit J)) with (hb ++ content). cbv zeta. rewrite app_nil_r.
      assert (hb ++ take k content `prefix_of` hb ++ content) as Hpre by (apply prefix_app; eexists; symmetry; apply take_drop). split_and!; try done; [rewrite Hfile2; destruct Hpre as [x ->]; by rewrite take_app_length|by apply prefix_length|intros ->; unfold k; by rewrite take_ge by (cbn; lia)|by left|lia|lia].
  + exists rc, d1, 0, (w_nCkpt (d_wal d)), s1, 0%nat, (d_file d1). split; [done|]. split; [done|done| |split; [done|lia]|].
    * intros _. split; [|left; by apply Hbad1]. split; try done; [destruct Hat1 as (_ & K2 & _); rewrite K2, Ha1; split_and!; [done|done|]|by rewrite Hn1]. rewrite Hf1, Forall_app. split; [by apply Forall_take|by apply Forall_drop].
    * intros Hr. specialize (Hr eq_refl). rewrite Hr in L4. rewrite L4, drop_nil, app_nil_r in Hf1. assert (take m hb `prefix_of` log_image 0 szPage (w_nCkpt (d_wal d)) s1 ([] ++ body_frames pList nTruncate isCommit 0)) as Hpre by (etransitivity; [eexists; symmetry; apply take_drop|unfold log_image; by eexists]).
      exists (length (take m hb)), []. cbv zeta. rewrite app_nil_r. split_and!; try done; [rewrite Hf1; destruct Hpre as [x ->]; by rewrite take_app_length|by apply prefix_length|by left|lia|lia].
Qed.

(** Further frames. *)
Lemma walFrames_next cfg d szPage b nCkpt salt fs c rest pList nTruncate isCommit sync_flags : log_rel d szPage b nCkpt salt fs c rest -> log_at d szPage b nCkpt salt fs -> fs <> [] -> frames_args szPage cfg (log_pages fs c) pList nTruncate isCommit ->
  exists rc d' J rest', frames_body cfg d szPage pList nTruncate isCommit sync_flags = Some (rc, d') /\ frames_post d szPage b nCkpt salt fs c rest pList nTruncate isCommit rc d' b nCkpt salt J rest'.
Proof.
  intros HL Hat Hne Hargs. pose proof HL as [L1 L2 L3 L4 L5 L6 (L7 & L8 & L9) L10]. pose proof Hargs as (A1 & A2 & A3 & A4 & A5 & A6 & A7). rewrite decide_False in L4 by done. destruct (Hat Hne) as [Hbe Hck]. pose proof Hck as (_ & K2 & _). pose proof L4 as [F1 F2 F3 F4 F5 F6 F7 F8].
  assert (Forall is_byte salt) as Hsb by (by rewrite <- K2). set (img := log_image b szPage nCkpt salt fs). assert (d_file d = img ++ rest) as Himg by (unfold img, log_image; by rewrite <- app_assoc). assert (Forall is_byte rest) as Hrb by (rewrite Himg, Forall_app in F7; apply F7).
  destruct (body_log cfg szPage pList nTruncate isCommit sync_flags fs c Hargs L3 L2 d b nCkpt salt rest (conj Hbe Hck) L4 L1 Hsb) as (rc & d2 & J & m2 & rest2 & Heq & Hsub & HJ & Hok2 & Hbad2). set (content := chain_bytes _ _ _ _ (body_frames pList nTruncate isCommit J)) in *.
  assert (Forall is_byte content) as Hcb by (apply chain_mem; [done|by apply body_ok]). pose proof (Hsub _ Hrb) as Hrb2.
  exists rc, d2, J, (if rc =? SQLITE_OK then rest2 else take m2 content ++ rest2). split; [exact Heq|]. split; [done|intros Hrc|intros Hrc|exact HJ|intros Hrc].
  - subst rc. cbn [Z.eqb SQLITE_OK]. apply (body_done_log cfg szPage pList nTruncate isCommit fs c Hargs L3 L2 d d2 b nCkpt salt rest); try done. by apply Hok2.
  - rewrite (proj2 (Z.eqb_neq rc _)) by done. pose proof (Hbad2 Hrc) as Hbf. split; [|apply Hbf]. eapply (body_failed_log cfg szPage pList nTruncate isCommit fs c Hargs L3 L2 d d2); [|done|by apply L6|done|done|done|done|exact Hbf].
    destruct Hbf as [B1 _ _ _]. split; try done; rewrite B1; [rewrite !Forall_app; split_and!; [|by apply Forall_take|done]; rewrite Himg, Forall_app in F7; apply F7|]. unfold log_image. by rewrite <- app_assoc.
  - set (k := if rc =? SQLITE_OK then length content else m2). assert (d_file d2 = img ++ take k content ++ rest2) as Hf2.
    { unfold k. destruct (Z.eqb_spec rc SQLITE_OK) as [Hr|Hr]; [destruct (Hok2 Hr) as [B1 _ _ _ _ _]; by rewrite B1, take_ge by lia|by destruct (Hbad2 Hr) as [B1 _ _ _]]. }
    exists (length (img ++ take k content)), rest2. rewrite log_image_app. fold img content. cbv zeta. assert (img ++ take k content `prefix_of` img ++ content) as Hpre by (apply prefix_app; eexists; symmetry; apply take_drop).
    split_and!; try done; [rewrite Hf2, app_assoc; f_equal; destruct Hpre as [x ->]; by rewrite take_app_length|by apply prefix_length|intros ->; unfold k; by rewrite take_ge by (cbn; lia)|intros Hr; eapply sub_rest_nil; [exact Hsub|done]|intros _; rewrite length_app; lia|lia|lia].
Qed.

Lemma walFrames_spec cfg d szPage b nCkpt salt fs c rest pList nTruncate isCommit sync_flags rsalt : log_rel d szPage b nCkpt salt fs c rest -> log_at d szPage b nCkpt salt fs -> frames_args szPage cfg (log_pages fs c) pList nTruncate isCommit ->
  length rsalt = 8%nat -> Forall is_byte rsalt ->
  exists rc d' b' nCkpt' salt' J rest', walFrames_write cfg d szPage pList nTruncate isCommit sync_flags rsalt = Some (rc, d') /\ frames_post d szPage b nCkpt salt fs c rest pList nTruncate isCommit rc d' b' nCkpt' salt' J rest'.
Proof.
  intros HL Hat Hargs Hrl Hrb. pose proof Hargs as (A1 & A2 & A3 & A4 & A5 & A6 & A7). unfold walFrames_write.
  replace (assert_ (match pList with [] => false | _ => true end)) with (Some tt) by (by destruct pList). cbn [mbind option_bind]. rewrite A5, eqb_reflx, <- A5. cbn [assert_ mbind option_bind]. rewrite (wr_mx _ _ (lr_wal _ _ _ _ _ _ _ _ HL)), log_pages_all, length_map.
  destruct (decide (fs = [])) as [->|Hne].
  - assert (c = 0%nat) as -> by (by rewrite <- (lr_commits _ _ _ _ _ _ _ _ HL)). cbn [length Z.eqb Z.of_nat]. by apply walFrames_first.
  - rewrite (proj2 (Z.eqb_neq _ 0)) by (destruct fs; [done|cbn; lia]). cbn [mbind option_bind Z.eqb SQLITE_OK negb]. destruct (walFrames_next cfg d szPage b nCkpt salt fs c rest pList nTruncate isCommit sync_flags HL Hat Hne Hargs) as (rc & d' & J & rest' & Heq & Hpost). exists rc, d', b, nCkpt, salt, J, rest'. done.
Qed.

(** ** Rolling back *)

(** sqlite3WalUndo makes the connection ready to write after the last commit, also when
    a call of sqlite3WalFrames failed. *)
Lemma undo_log d szPage b nCkpt salt fs c rest : log_rel d szPage b nCkpt salt fs c rest ->
  exists w' rest', sqlite3WalUndo (d_wal d) = Some (w', map f_pgno (drop c fs)) /\ log_rel (set_wal d w') szPage b nCkpt salt (take c fs) c rest' /\ log_at (set_wal d w') szPage b nCkpt salt (take c fs).
Proof.
  intros [L1 L2 L3 L4 L5 L6 (L7 & L8 & L9) L10]. destruct (undo_refines _ _ L1) as (w' & Heq & HR & Hs). destruct Hs as (S1 & S2 & _ & _ & S5 & S6 & _). cbn in S1, S2, S5, S6. pose proof (commits_le fs) as Hle.
  assert (exists rest', if decide (take c fs = []) then d_file d = rest' else log_file b szPage nCkpt salt (take c fs) rest' (d_file d)) as [rest' Hf].
  { destruct (decide (take c fs = [])); [by exists (d_file d)|]. rewrite decide_False in L4 by (intros ->; by rewrite take_nil in *). destruct L4 as [F1 F2 F3 F4 F5 F6 F7 F8]. eexists. split; try done; [by apply Forall_take|rewrite length_take; lia|].
    rewrite F8. rewrite <- (take_drop c fs) at 1. rewrite chain_app, <- app_assoc. done. }
  exists w', rest'. split; [exact Heq|]. assert (take c fs <> [] -> c <> 0%nat /\ fs <> []) as Hc by (intros Hne; split; intros ->; [done|by rewrite take_nil in Hne]). assert (commits (take c fs) = c) as Hcm.
  { pose proof (commits_app (take c fs) (drop c fs)) as Happ. rewrite take_drop, L2, length_take in Happ. destruct (Nat.eqb_spec (commits (drop c fs)) 0) as [|Hn]; [done|]. lia. }
  split; [split|].
  - unfold log_pages in *. cbn [a_committed] in HR. cbn [d_wal set_wal]. rewrite take_take, Nat.min_id, drop_ge by (rewrite length_take; lia). exact HR.
  - done.
  - done.
  - exact Hf.
  - cbn [d_wal set_wal]. rewrite S2, take_take, Nat.min_id. done.
  - intros Hne. cbn. rewrite S5. apply L6, Hc, Hne.
  - cbn. rewrite S1, S2. done.
  - cbn. by rewrite S6.
  - intros Hne. destruct (Hc Hne) as [Hc0 Hfs]. destruct (L5 Hc0) as (E1 & E2 & E3). cbn. rewrite S1. split; [done|]. split_and!; cbn; rewrite ?S1, ?S5; [by rewrite E1|done|by apply L6|done].
Qed.

(** ** Properties *)

(** C21. Recovery rebuilds the wal-index from the log file: whatever the shared memory
    holds, if the file is the header of a log, a chain of valid frames and then
    something that is not a valid frame, walIndexRecover returns with an index that represents exactly
    the frames up to the last commit, with the page size, the database size and the
    running checksum of that commit; or with a code of the operating system. *)
Theorem wal_recover_correct d b szPage nCkpt salt fs rest : log_file b szPage nCkpt salt fs rest (d_file d) -> rejected (b =? SQLITE_BIGENDIAN) salt szPage (log_ck b szPage nCkpt salt fs) rest -> reader_ok (d_wal d) (w_mapped (d_wal d)) ->
  exists rc d', walIndexRecover d = Some (rc, d') /\ d_file d' = d_file d /\ (rc = SQLITE_OK -> recovered_wal (d_wal d') b szPage nCkpt salt fs) /\ (rc <> SQLITE_OK -> io_fail d rc).
Proof. apply walIndexRecover_spec. Qed.

(** C20. Writing frames keeps the log file and the wal-index in step: from a state in which the file
    holds the frames of the index, sqlite3WalFrames, from behind its call of walRestartLog on,
    appends the frames of its pages, and copies of the last one up to a sector boundary, to both.
    If a call of the operating system fails at any point, the sync of a commit included, its code
    is returned, both hold the frames they held before, and sqlite3WalUndo makes the connection ready to write after the last commit. *)
Theorem wal_frames_logged cfg d szPage b nCkpt salt fs c rest pList nTruncate isCommit sync_flags rsalt : log_rel d szPage b nCkpt salt fs c rest -> log_at d szPage b nCkpt salt fs -> frames_args szPage cfg (log_pages fs c) pList nTruncate isCommit ->
  length rsalt = 8%nat -> Forall is_byte rsalt ->
  exists rc d' b' nCkpt' salt' J rest', walFrames_write cfg d szPage pList nTruncate isCommit sync_flags rsalt = Some (rc, d') /\
    (rc = SQLITE_OK -> let all := body_frames pList nTruncate isCommit J in log_rel d' szPage b' nCkpt' salt' (fs ++ all) (after_commit fs c isCommit all) rest' /\ log_at d' szPage b' nCkpt' salt' (fs ++ all)) /\
    (rc <> SQLITE_OK -> io_fail d rc /\ log_rel d' szPage b nCkpt salt fs c rest' /\
       exists w rest2, sqlite3WalUndo (d_wal d') = Some (w, map f_pgno (drop c fs)) /\ log_rel (set_wal d' w) szPage b nCkpt salt (take c fs) c rest2 /\ log_at (set_wal d' w) szPage b nCkpt salt (take c fs)).
Proof.
  intros HL Hat Hargs Hrl Hrb. destruct (walFrames_spec cfg d szPage b nCkpt salt fs c rest pList nTruncate isCommit sync_flags rsalt HL Hat Hargs Hrl Hrb) as (rc & d' & b' & n' & s' & J & rest' & Heq & [_ P2 P3 _ _]). exists rc, d', b', n', s', J, rest'. split; [done|]. split; [exact P2|].
  intros Hrc. destruct (P3 Hrc) as [HL' Hio]. split; [done|]. split; [done|]. by eapply undo_log.
Qed.

(** ** Examples *)

Definition ex_salt : list Z := [1; 2; 3; 4; 5; 6; 7; 8].
Definition ex_db : WalDb := mkDb wal0 [] [] false [].
Definition ex_cfg : WalCfg := mkCfg true true 512 (-1).
Definition ex_pages : list (Z * list Z) := [(2, replicate 512 5); (3, replicate 512 6)].

Lemma ex_pages_ok : pages_ok 512 ex_pages.
Proof. repeat constructor; cbn; try lia; apply Forall_replicate; done. Qed.

Lemma ex_salt_mem : Forall is_byte ex_salt.
Proof. repeat constructor; done. Qed.

Lemma ex_log : log_rel ex_db 512 0 0 ex_salt [] 0 [] /\ log_at ex_db 512 0 0 ex_salt [].
Proof. split; [|done]. split; [apply wal0_rel|done|exists 9; done|done|done|done|split_and!; repeat constructor; done|done]. Qed.

Lemma ex_args : frames_args 512 ex_cfg (log_pages [] 0) ex_pages 3 true.
Proof. split_and!; [done|done|apply ex_pages_ok|done|done|done|done|done|done]. Qed.

Lemma wal_frames_logged_witness : exists rc d' b' nCkpt' salt' J rest', walFrames_write ex_cfg ex_db 512 ex_pages 3 true 0x22 ex_salt = Some (rc, d') /\
  (rc = SQLITE_OK -> let all := body_frames ex_pages 3 true J in log_rel d' 512 b' nCkpt' salt' all (length all) rest' /\ log_at d' 512 b' nCkpt' salt' all).
Proof.
  destruct (wal_frames_logged ex_cfg ex_db 512 0 0 ex_salt [] 0 [] ex_pages 3 true 0x22 ex_salt (proj1 ex_log) (proj2 ex_log) ex_args eq_refl ex_salt_mem) as (rc & d' & b' & n' & s' & J & rest' & Heq & Hok & _). exists rc, d', b', n', s', J, rest'. split; [exact Heq|exact Hok].
Defined.

Definition ex_frames : list frame := mk_frames 3 true ex_pages.

Lemma wal_recover_correct_witness : exists rc d', walIndexRecover (mkDb wal0 (log_image 0 512 0 ex_salt ex_frames ++ [1; 2; 3]) [] false []) = Some (rc, d') /\ (rc = SQLITE_OK -> recovered_wal (d_wal d') 0 512 0 ex_salt ex_frames).
Proof.
  assert (Forall (frame_ok 512) ex_frames) as Hok by (apply mk_frames_ok; [apply ex_pages_ok|done]). pose proof ex_salt_mem as Hs.
  destruct (wal_recover_correct (mkDb wal0 (log_image 0 512 0 ex_salt ex_frames ++ [1; 2; 3]) [] false []) 0 512 0 ex_salt ex_frames [1; 2; 3]) as (rc & d' & H1 & _ & H2 & _).
  - split; [by left|by exists 9|done|done|done|done|apply Forall_app; split; [apply Forall_app; split; [by apply wal_hdr_mem|by apply chain_mem]|by repeat constructor]|]. unfold log_image. cbn [d_file]. by rewrite <- app_assoc.
  - apply rejected_short; done.
  - apply wal0_reader.
  - exists rc, d'. split; [exact H1|exact H2].
Defined.
