(* ===== verification/WalCrash.v ===== *)
(** * WalCrash: the write-ahead log after a crash (wal.c)

    If the process stops, the log file holds what was written, and recovery finds the
    complete transactions at the head of the file.  What a crash of the machine leaves is
    in WalSync. *)
From S2P Require Import Prelude Varint Record Page PageLayout PageCells Wal WalLog WalHash WalIndex WalSpec WalFrame WalRecover WalWrite WalDurable.

(** ** The frames of any file *)

Section Split.
Context (native : bool) (salt : list Z) (szPage : Z).
Context (Hsz : 8 <= szPage /\ szPage mod 8 = 0) (Hsalt : length salt = 8%nat).

Abbreviation frame_ok := (frame_ok szPage).
Abbreviation frame_bytes := (frame_bytes native salt szPage).
Abbreviation chain_bytes := (chain_bytes native salt szPage).
Abbreviation chain_ck := (chain_ck native szPage).

(** A connection that would read the frame after checksum [ck] *)
Definition probe (ck : Z * Z) : Wal := mkWal ∅ (zero_hdr, zero_hdr) (mkInfo 0 []) ∅ [] (hset_cksum (hset_salt (hset_bigEnd zero_hdr (if native then SQLITE_BIGENDIAN else SQLITE_BIGENDIAN + 1)) salt) ck) 0 szPage 0.

Lemma probe_at ck : at_ck native salt szPage (probe ck) ck.
Proof using. clear. unfold at_ck, probe. cbn. split_and!; [by case native|done..]. Qed.

(** Bytes begin with a valid frame or not. *)
Lemma next_frame ck t : cksum_range ck -> Forall is_byte t -> rejected native salt szPage ck t \/ exists f t', frame_ok f /\ t = frame_bytes ck f ++ t'.
Proof using Hsz Hsalt.
  intros Hck Hb. destruct (decide (Z.of_nat (length t) < szPage + WAL_FRAME_HDRSIZE)) as [Hlt|Hge]; [left; by apply rejected_short|]. destruct (split_len t (Z.to_nat (szPage + WAL_FRAME_HDRSIZE))) as (l & t' & -> & Hl); [lia|]. assert (Z.of_nat (length l) = szPage + WAL_FRAME_HDRSIZE) as Hl' by (change WAL_FRAME_HDRSIZE with 24 in *; lia). apply Forall_app in Hb as [Hb _].
  destruct (walDecodeFrame_sound native salt szPage Hsz Hsalt (probe ck) ck l (probe_at ck) Hck Hl' Hb) as (r & w' & Hr & _ & Hsound). destruct r as [x|].
  - right. destruct (Hsound ltac:(done)) as (f & Hf & ->). by exists f, t'.
  - left. intros f Hf [x Hx]. apply app_inj_1 in Hx as [-> _]; [|pose proof (frame_bytes_length native salt szPage Hsz Hsalt ck f Hf); lia]. pose proof (walDecodeFrame_ok native salt szPage Hsz Hsalt (probe ck) ck f (probe_at ck) Hck Hf) as H. rewrite H in Hr. done.
Qed.

(** The longest chain of valid frames *)
Lemma split_chain : forall n t ck, (length t <= n)%nat -> cksum_range ck -> Forall is_byte t -> exists fs rest, Forall frame_ok fs /\ t = chain_bytes ck fs ++ rest /\ rejected native salt szPage (chain_ck ck fs) rest.
Proof using Hsz Hsalt.
  induction n as [|n IH]; intros t ck Hn Hck Hb; (destruct (next_frame ck t Hck Hb) as [Hrej|(f & t' & Hf & ->)]; [by exists [], t|]); pose proof (frame_bytes_length native salt szPage Hsz Hsalt ck f Hf) as Hl; change WAL_FRAME_HDRSIZE with 24 in Hl; rewrite length_app in Hn; [lia|].
  apply Forall_app in Hb as [_ Hb]. destruct (IH t' (frame_ck native szPage ck f)) as (fs & rest & Hfs & -> & Hrej); [lia|by apply (chain_ck_range native salt szPage Hsz Hsalt [f]); [|constructor]|done|]. exists (f :: fs), rest. split; [by constructor|]. split; [|done]. cbn [WalFrame.chain_bytes]. by rewrite <- app_assoc.
Qed.

Lemma frame_bytes_inj ck f g : frame_ok f -> frame_ok g -> frame_bytes ck f = frame_bytes ck g -> f = g.
Proof using Hsz Hsalt.
  intros (F1 & F2 & F3 & _) (G1 & G2 & G3 & _). unfold WalFrame.frame_bytes, frame_head. unfold pgno_ok in *. intros H. apply app_inj_2 in H as [H Hd]; [|lia]. apply app_inj_1 in H as [Hp H]; [|done]. apply app_inj_1 in H as [Ht _]; [|done].
  pose proof (put4_app (f_pgno f) [] ltac:(lia)) as E1. pose proof (put4_app (f_pgno g) [] ltac:(lia)) as E2. pose proof (put4_app (f_trunc f) [] ltac:(lia)) as E3. pose proof (put4_app (f_trunc g) [] ltac:(lia)) as E4. rewrite Hp in E1. rewrite Ht in E3. destruct f, g. cbn in *. congruence.
Qed.
End Split.

(** ** Crashes *)

Lemma walIndexRecover_short d : (length (d_file d) <= 32)%nat -> reader_ok (d_wal d) (w_mapped (d_wal d)) ->
  exists rc d', walIndexRecover d = Some (rc, d') /\ (rc = SQLITE_OK -> wal_rel (d_wal d') (mkLog [] [])) /\ (rc <> SQLITE_OK -> io_fail d rc).
Proof.
  intros Hl [H0 Hmapped]. unfold walIndexRecover. assert (wal_inv (set_hdr (d_wal d) zero_hdr) []) as HW. { split; [|done|done]. split; [done|done|]. intros k Hk Hlt. pose proof (izero_nonneg k Hk). cbn in Hlt. lia. }
  destruct (os_call_spec d) as (rc & io & -> & Hio & Hbad). destruct (Z.eqb_spec rc SQLITE_OK) as [->|Hrc]; cbn [negb]; [|eexists _, _; split; [done|]; split; [done|]; intros _; left; by apply Hbad].
  match goal with |- context [os_call ?x] => set (d1 := x) end. destruct (os_call_spec d1) as (rc & io1 & -> & Hio1 & Hbad1). destruct (Z.eqb_spec rc SQLITE_OK) as [->|Hrc]; cbn [negb].
  2: { eexists _, _. split; [done|]. split; [done|]. intros _. left. destruct (Hbad1 Hrc) as [n Hin]. exists n. destruct Hio as [q ->]. apply elem_of_app. by right. }
  change (d_file (set_io d1 io1)) with (d_file d). rewrite (proj2 (Z.ltb_ge _ _)) by (change WAL_HDRSIZE with 32; lia). cbn [mbind option_bind Z.eqb SQLITE_OK].
  destruct (recover_finish_spec (set_io d1 io1) [] 0 (0, 0) HW) as (d3 & ck & -> & Hf3 & HR & _); [done|done|done|done|]. exists SQLITE_OK, d3. split; [done|]. split; [|done]. intros _. exact HR.
Qed.

(** The transactions that recovery finds, [L], are those from before the call, or all with those of
    the call. *)
Definition crash_outcome (fs : list frame) (c : nat) (pList : list (Z * list Z)) (isCommit : bool) (rc : Z) (L : list Z) : Prop :=
  (L = map f_pgno (take c fs) /\ ~ (rc = SQLITE_OK /\ isCommit = true)) \/ (isCommit = true /\ exists j, L = map f_pgno fs ++ map fst pList ++ replicate j (List.last (map fst pList) 0)).

Lemma crash_commits fs c pList nTruncate isCommit J gs' rc : pList <> [] -> isCommit = negb (nTruncate =? 0) -> (isCommit = false -> J = 0%nat) -> commits fs = c -> gs' `prefix_of` body_frames pList nTruncate isCommit J -> (rc = SQLITE_OK -> gs' = body_frames pList nTruncate isCommit J) ->
  crash_outcome fs c pList isCommit rc (take (commits (fs ++ gs')) (map f_pgno (fs ++ gs'))).
Proof.
  intros Hne Hc HJ Hcm Hgs Hrc. assert (length (body_frames pList nTruncate isCommit J) = length pList + J)%nat as Hlall by (rewrite <- (length_map f_pgno), body_pgnos, length_app, length_map, length_replicate; done). pose proof (commits_le fs) as Hle.
  assert (map f_pgno gs' `prefix_of` map fst pList ++ replicate J (List.last (map fst pList) 0)) as [y Hy] by (rewrite <- (body_pgnos pList nTruncate isCommit J); destruct Hgs as [y ->]; exists (map f_pgno y); apply map_app).
  rewrite commits_app, (body_commits pList nTruncate isCommit J gs' Hne Hc HJ Hgs). destruct (isCommit && (length pList <=? length gs')%nat) eqn:Hb.
  - apply andb_true_iff in Hb as [Hb1 Hb2%Nat.leb_le]. right. split; [done|]. destruct (Nat.eqb_spec (length gs') 0) as [H0|_]; [destruct pList; [done|cbn in *; lia]|]. rewrite take_ge by (rewrite length_map, length_app; lia). rewrite map_app.
    destruct (split_len (map f_pgno gs') (length (map fst pList))) as (g1 & g2 & Hg & Hg1); [rewrite !length_map; lia|]. rewrite Hg in Hy |- *. rewrite <- app_assoc in Hy. apply app_inj_1 in Hy as [<- Hy]; [|done]. exists (length g2). do 2 f_equal. symmetry in Hy. clear -Hy.
    revert J Hy. induction g2 as [|x g2 IH]; intros [|J] Hy; cbn in *; try done. injection Hy as Hx Hy. rewrite Hx. f_equal. by apply (IH J).
  - left. cbn. rewrite map_app, take_app_le by (rewrite length_map; lia). rewrite (firstn_map f_pgno c fs : take _ (map _ _) = _) || rewrite firstn_map. rewrite Hcm. split; [done|]. intros [Hr Hi]. rewrite Hi in *. cbn in Hb. apply Nat.leb_gt in Hb. rewrite (Hrc Hr) in Hb. lia.
Qed.


(** ** Old bytes after the log *)

(** A valid frame that goes on from a prefix of the frames [all] is the next one of them: what older
    logs left behind does not happen to have the right salt and checksum. *)
Definition no_stale (b szPage nCkpt : Z) (salt : list Z) (all : list frame) (f : list Z) : Prop :=
  forall gs g t, gs `prefix_of` all -> frame_ok szPage g -> f = log_image b szPage nCkpt salt (gs ++ [g]) ++ t -> gs ++ [g] `prefix_of` all.

Section Stale.
Context (b szPage nCkpt : Z) (salt : list Z) (Hps : page_size szPage) (Hsalt : length salt = 8%nat).

Abbreviation native := (b =? SQLITE_BIGENDIAN).
Abbreviation image := (log_image b szPage nCkpt salt).

Lemma no_stale_chain all f : no_stale b szPage nCkpt salt all f -> forall gs t, Forall (frame_ok szPage) gs -> f = image gs ++ t -> gs `prefix_of` all.
Proof using.
  intros Hno gs. induction gs as [|g gs IH] using rev_ind; intros t Hok Hf; [apply prefix_nil|]. apply Forall_app in Hok as [Hgs Hg]. apply Forall_cons in Hg as [Hg _]. apply (Hno gs g t); [|done|done]. eapply IH; [done|]. rewrite Hf, log_image_app, <- app_assoc. done.
Qed.

(** A file that ends with the log or before. *)
Lemma no_stale_prefix all m : Forall (frame_ok szPage) all -> no_stale b szPage nCkpt salt all (take m (image all)).
Proof using Hps Hsalt.
  intros Hall gs g t [A' ->] Hg Hf. destruct (page_size_props _ Hps) as (P1 & P2 & _). apply Forall_app in Hall as [Hgs HA]. assert (image (gs ++ [g]) ++ t `prefix_of` image (gs ++ A')) as Hpre by (rewrite <- Hf; eexists; symmetry; apply take_drop).
  rewrite !log_image_app, <- app_assoc in Hpre. apply prefix_app_inv in Hpre. apply prefix_app. destruct A' as [|g2 A'].
  - exfalso. apply prefix_length in Hpre. rewrite length_app in Hpre. cbn [chain_bytes] in Hpre. rewrite app_nil_r in Hpre. pose proof (frame_bytes_length native salt szPage ltac:(lia) Hsalt (log_ck b szPage nCkpt salt gs) g Hg) as Hl. change WAL_FRAME_HDRSIZE with 24 in Hl. cbn [length] in Hpre. lia.
  - apply Forall_cons in HA as [Hg2 _]. destruct Hpre as [x Hx]. cbn [chain_bytes] in Hx. rewrite app_nil_r, <- app_assoc in Hx. apply app_inj_1 in Hx as [Hx _].
    + apply (frame_bytes_inj native salt szPage ltac:(lia) Hsalt) in Hx; [|done|done]. rewrite Hx. by exists A'.
    + pose proof (frame_bytes_length native salt szPage ltac:(lia) Hsalt (log_ck b szPage nCkpt salt gs) g Hg). pose proof (frame_bytes_length native salt szPage ltac:(lia) Hsalt (log_ck b szPage nCkpt salt gs) g2 Hg2). lia.
Qed.

(** The frames that recovery finds in a file that begins with those of [gs] *)
Lemma image_frames gs f t : b = 0 \/ b = 1 -> 0 <= nCkpt < 2 ^ 32 -> Forall (frame_ok szPage) gs -> Forall is_byte f -> f = image gs ++ t ->
  exists more rest, Forall (frame_ok szPage) (gs ++ more) /\ f = image (gs ++ more) ++ rest /\ rejected native salt szPage (log_ck b szPage nCkpt salt (gs ++ more)) rest.
Proof using Hps Hsalt.
  intros Hb Hn Hgs Hbytes Hf. destruct (page_size_props _ Hps) as (P1 & P2 & _). destruct (wal_hdr_ck_spec b szPage nCkpt salt Hsalt) as [_ Hck0]. rewrite Hf in Hbytes. apply Forall_app in Hbytes as [_ Ht].
  destruct (split_chain native salt szPage ltac:(lia) Hsalt (length t) t (log_ck b szPage nCkpt salt gs) ltac:(lia)) as (more & rest & Hmore & -> & Hrej); [by apply (chain_ck_range native salt szPage ltac:(lia) Hsalt)|done|]. exists more, rest. split; [by apply Forall_app|]. split; [by rewrite log_image_app, <- app_assoc|]. unfold log_ck in *. by rewrite chain_ck_app.
Qed.

Lemma image_log_file gs f t : b = 0 \/ b = 1 -> 0 <= nCkpt < 2 ^ 32 -> Forall (frame_ok szPage) gs -> len gs < 2 ^ 30 -> Forall is_byte f -> f = image gs ++ t -> log_file b szPage nCkpt salt gs t f.
Proof using Hps Hsalt. intros ? ? ? ? ? ->. split; try done. unfold log_image. by rewrite <- app_assoc. Qed.

Lemma image_length gs : Forall (frame_ok szPage) gs -> Z.of_nat (length (image gs)) = 32 + len gs * (szPage + 24) /\ 536 <= szPage + 24.
Proof using Hps Hsalt. intros Hgs. destruct (page_size_props _ Hps) as (? & _). rewrite body_offset by done. unfold walFrameOffset. change WAL_FRAME_HDRSIZE with 24. change WAL_HDRSIZE with 32. lia. Qed.

Lemma image_take all m : Forall (frame_ok szPage) all -> (32 <= m <= length (image all))%nat -> exists gs torn, gs `prefix_of` all /\ take m (image all) = image gs ++ torn /\ Z.of_nat (length torn) < szPage + 24.
Proof using Hps Hsalt.
  intros Hall Hm. destruct (page_size_props _ Hps) as (P1 & P2 & _). unfold log_image. set (hb := wal_hdr_bytes b szPage nCkpt salt). assert (length hb = 32%nat) as Hhb by (by apply wal_hdr_length). rewrite take_app_ge by lia.
  destruct (chain_prefix native salt szPage ltac:(lia) Hsalt all Hall (wal_hdr_ck b szPage nCkpt salt) (take (m - length hb) (chain_bytes native salt szPage (wal_hdr_ck b szPage nCkpt salt) all))) as (gs & torn & Hgs & -> & Ht); [eexists; symmetry; apply take_drop|]. exists gs, torn. split; [done|]. split; [by rewrite app_assoc|done].
Qed.
End Stale.

(** ** The process stops *)

(** The frames that recovery finds when the first [m] bytes of the log were written *)
Lemma crash_frames b szPage nCkpt salt fs all m tail f : page_size szPage -> length salt = 8%nat -> b = 0 \/ b = 1 -> 0 <= nCkpt < 2 ^ 32 -> Forall (frame_ok szPage) (fs ++ all) -> Forall is_byte f -> no_stale b szPage nCkpt salt (fs ++ all) f ->
  f = take m (log_image b szPage nCkpt salt (fs ++ all)) ++ tail -> (length (log_image b szPage nCkpt salt fs) <= m <= length (log_image b szPage nCkpt salt (fs ++ all)))%nat ->
  exists gs rest, gs `prefix_of` all /\ f = log_image b szPage nCkpt salt (fs ++ gs) ++ rest /\ rejected (b =? SQLITE_BIGENDIAN) salt szPage (log_ck b szPage nCkpt salt (fs ++ gs)) rest /\ (m = length (log_image b szPage nCkpt salt (fs ++ all)) -> gs = all).
Proof.
  intros Hps Hs Hb Hn Hok Hbytes Hno Hf Hm. pose proof Hok as [Hfs Hall]%Forall_app. pose proof (image_length b szPage nCkpt salt Hps Hs) as Hlen.
  assert (exists g0 torn, g0 `prefix_of` all /\ take m (log_image b szPage nCkpt salt (fs ++ all)) = log_image b szPage nCkpt salt (fs ++ g0) ++ torn /\ (m = length (log_image b szPage nCkpt salt (fs ++ all)) -> g0 = all)) as (g0 & torn & [y Hy] & Htk & Hfull).
  { destruct (decide (m = length (log_image b szPage nCkpt salt (fs ++ all)))) as [->|Hne]; [exists all, []; by rewrite take_ge, app_nil_r by lia|]. destruct (image_take b szPage nCkpt salt Hps Hs (fs ++ all) m Hok) as (gs & torn & [y Hy] & Htk & Ht); [split; [|lia]; pose proof (Hlen fs Hfs); lia|].
    assert (length fs <= length gs)%nat as Hle. { assert (Forall (frame_ok szPage) gs) as Hgs by (rewrite Hy in Hok; by apply Forall_app in Hok as [? _]). apply (f_equal length) in Htk. rewrite length_take, length_app in Htk. destruct (Hlen gs Hgs) as [Hl ?]. destruct (Hlen fs Hfs) as [Hl2 _]. destruct (decide (length fs <= length gs)%nat) as [|Hlt]; [done|]. assert (len gs + 1 <= len fs) by lia. nia. }
    destruct (split_len gs (length fs) Hle) as (g1 & g2 & -> & Hg1). rewrite <- app_assoc in Hy. apply app_inj_1 in Hy as [<- Hy]; [|done]. exists g2, torn. split; [by exists y|]. split; [done|]. done. }
  assert (Forall (frame_ok szPage) (fs ++ g0)) as Hg0 by (rewrite Hy, app_assoc, Forall_app in Hok; apply Hok).
  destruct (image_frames b szPage nCkpt salt Hps Hs (fs ++ g0) f (torn ++ tail) Hb Hn Hg0 Hbytes) as (more & rest & Hmo & Hf2 & Hrej); [by rewrite Hf, Htk, <- app_assoc|]. rewrite <- app_assoc in Hmo, Hf2, Hrej. pose proof (no_stale_chain b szPage nCkpt salt _ _ Hno _ _ Hmo Hf2) as Hpre. apply prefix_app_inv in Hpre.
  exists (g0 ++ more), rest. split; [done|]. split; [done|]. split; [done|]. intros Hfm. rewrite (Hfull Hfm) in Hpre |- *. apply prefix_length in Hpre as Hl. rewrite length_app in Hl. assert (more = []) as -> by (apply length_zero_iff_nil; lia). apply app_nil_r.
Qed.

(** C5. A transaction is atomic if the process stops: whatever call of the operating system within
    sqlite3WalFrames (after walRestartLog) is the last, and however much of a write was done, recovery from the
    log file finds the transactions from before the call, or these and the whole transaction that the
    call completed; it finds that transaction if the call returned SQLITE_OK.  The file may go on
    after the log with what an older one left, as long as this does not happen to continue the
    checksums; it is empty before the first frame. *)
Theorem wal_crash_atomic cfg d szPage b nCkpt salt fs c rest pList nTruncate isCommit sync_flags rsalt : log_rel d szPage b nCkpt salt fs c rest -> log_at d szPage b nCkpt salt fs -> frames_args szPage cfg (log_pages fs c) pList nTruncate isCommit ->
  length rsalt = 8%nat -> Forall is_byte rsalt -> (fs = [] -> rest = []) ->
  exists rc d' b' nCkpt' salt' J, walFrames_write cfg d szPage pList nTruncate isCommit sync_flags rsalt = Some (rc, d') /\
    ((rest <> [] -> no_stale b' szPage nCkpt' salt' (fs ++ body_frames pList nTruncate isCommit J) (d_file d')) -> forall d2, d_file d2 = d_file d' -> reader_ok (d_wal d2) (w_mapped (d_wal d2)) ->
      exists rc2 d3, walIndexRecover d2 = Some (rc2, d3) /\ (rc2 = SQLITE_OK -> exists L, wal_rel (d_wal d3) (mkLog L []) /\ crash_outcome fs c pList isCommit rc L) /\ (rc2 <> SQLITE_OK -> io_fail d2 rc2)).
Proof.
  intros HL Hat Hargs Hrl Hrb Hr0. destruct (walFrames_spec cfg d szPage b nCkpt salt fs c rest pList nTruncate isCommit sync_flags rsalt HL Hat Hargs Hrl Hrb) as (rc & d' & b' & n' & s' & J & rest' & Heq & [P1 P2 P3 P4 P5]). destruct (P5 Hr0) as (m & tail & Q1 & Qm & Q2 & Q3 & Q4 & Q5 & Q6 & Q7 & Q8). cbv zeta in *.
  exists rc, d', b', n', s', J. split; [exact Heq|]. intros Hno d2 Hd2 Hrd. pose proof Hargs as (A1 & A2 & A3 & A4 & A5 & A6 & A7). pose proof HL as [L1 L2 L3 L4 L5 L6 L7 L8]. set (all := body_frames pList nTruncate isCommit J) in *.
  assert (Forall (frame_ok szPage) fs) as Hfs by (destruct (decide (fs = [])) as [->|]; [done|apply L4]). destruct P4 as [HJ0 HJ]. assert (Forall (frame_ok szPage) (fs ++ all)) as Hall by (apply Forall_app; split; [done|by apply body_ok]). pose proof (image_length b' szPage n' s' L3 Q7) as Himg.
  assert (length all = length pList + J)%nat as Hlall by (unfold all; rewrite <- (length_map f_pgno), body_pgnos, length_app, length_map, length_replicate; done). assert (len (fs ++ all) < 2 ^ 30) as Hmax by (rewrite log_pages_all, length_map in A6; rewrite length_app; lia).
  assert (Forall is_byte (d_file d')) as Hbytes by (destruct (decide (rc = SQLITE_OK)) as [Hrc|Hrc]; [by destruct (P2 Hrc) as [[_ _ _ _ _ _ (_ & _ & ?) _] _]|by destruct (P3 Hrc) as [[_ _ _ _ _ _ (_ & _ & ?) _] _]]).
  assert (no_stale b' szPage n' s' (fs ++ all) (d_file d')) as Hst. { destruct (decide (rest = [])) as [Hr|Hr]; [|by apply Hno]. rewrite Q1, (Q3 Hr), app_nil_r. by apply no_stale_prefix. }
  rewrite <- Hd2 in Q1, Hbytes, Hst. destruct (decide (length (d_file d2) <= 32)%nat) as [Hshort|Hlong].
  - destruct (walIndexRecover_short d2 Hshort Hrd) as (rc2 & d3 & Hrec & Hok & Hbad). exists rc2, d3. split; [done|]. split; [|done]. intros Hrc2. exists []. split; [by apply Hok|]. rewrite Q1, length_app, length_take in Hshort.
    assert (fs = []) as Hnil. { destruct fs as [|g fs]; [done|]. specialize (Q4 ltac:(done)). destruct (Himg (g :: fs) Hfs) as [Hi ?]. cbn [length] in Hi. nia. }
    subst fs. left. cbn in L2. subst c. split; [done|]. intros [Hrc _]. specialize (Q2 Hrc). destruct (Himg ([] ++ all) Hall) as [Hi ?]. cbn [app] in *. assert (length pList <> 0%nat) by (by destruct pList). assert (1 * 536 <= len all * (szPage + 24)) by (apply Z.mul_le_mono_nonneg; lia). lia.
  - assert (length (log_image b' szPage n' s' fs) <= m)%nat as Hfm. { destruct fs as [|g fs]; [|by apply Q4]. rewrite Q1, (Q3 (Hr0 eq_refl)), app_nil_r, length_take in Hlong. destruct (Himg [] Hfs) as [Hi _]. cbn [length] in Hi. lia. }
    destruct (crash_frames b' szPage n' s' fs all m tail (d_file d2) L3 Q7 Q5 Q6 Hall Hbytes Hst Q1 ltac:(lia)) as (gs & torn & Hgs & Hf & Hrej & Hfull). destruct Hgs as [y Hy]. assert (Forall (frame_ok szPage) (fs ++ gs)) as Hgok by (rewrite Hy, app_assoc, Forall_app in Hall; apply Hall).
    assert (log_file b' szPage n' s' (fs ++ gs) torn (d_file d2)) as HF by (apply image_log_file; try done; rewrite Hy, app_assoc, length_app in Hmax; lia).
    destruct (walIndexRecover_spec d2 b' szPage n' s' _ torn HF Hrej Hrd) as (rc2 & d3 & Hrec & _ & Hok & Hbad). exists rc2, d3. split; [done|]. split; [|done]. intros Hrc2. destruct (Hok Hrc2) as [HR _]. eexists. split; [exact HR|].
    apply (crash_commits fs c pList nTruncate isCommit J); try done; [by exists y|]. intros Hrc. by apply Hfull, Q2.
Qed.

(** ** Examples *)

Lemma wal_crash_atomic_witness : exists rc d', walFrames_write ex_cfg ex_db 512 ex_pages 3 true 0x22 ex_salt = Some (rc, d') /\
  exists rc2 d3, walIndexRecover (mkDb wal0 (d_file d') [] false []) = Some (rc2, d3) /\ (rc2 = SQLITE_OK -> exists L, wal_rel (d_wal d3) (mkLog L []) /\ crash_outcome [] 0 ex_pages true rc L).
Proof.
  destruct (wal_crash_atomic ex_cfg ex_db 512 0 0 ex_salt [] 0 [] ex_pages 3 true 0x22 ex_salt (proj1 ex_log) (proj2 ex_log) ex_args eq_refl ex_salt_mem (fun _ => eq_refl)) as (rc & d' & b' & n' & s' & J & Heq & Hrec). exists rc, d'. split; [exact Heq|].
  destruct (Hrec (fun H => False_ind _ (H eq_refl)) (mkDb wal0 (d_file d') [] false []) eq_refl wal0_reader) as (rc2 & d3 & H1 & H2 & _). exists rc2, d3. split; [exact H1|exact H2].
Defined.
