(* ===== verification/WalSort.v ===== *)
(** * WalSort: sorting the frames of a page of the wal-index (wal.c)

    walMergesort sorts the indices of an array of page numbers in place, bottom up,
    and keeps of the indices of the same page number the largest.  A pointer into the
    array of indices is its offset. *)
From stdpp Require Import sorting.
From S2P Require Import Prelude Varint Record Page PageLayout Wal.

(** ** Merging *)

(** aContent[a[i]], for the array of indices at offset [a] of [m] *)
Definition key_at (aContent m : list Z) (a i : Z) : option Z := v ← aget m (a + i); aget aContent v.

(** The value of (i>=n || aContent[a[i]]>dbpage) *)
Definition above (aContent m : list Z) (a n i dbpage : Z) : option bool :=
  if n <=? i then Some true else k ← key_at aContent m a i; Some (dbpage <? k).

Fixpoint merge_loop (fuel : nat) (aContent m : list Z) (aLeft nLeft aRight nRight : Z) (aTmp : list Z) (iLeft iRight iOut : Z) : option (list Z * Z) :=
  match fuel with
  | O => None
  | S fuel =>
      if (iRight <? nRight) || (iLeft <? nLeft) then
        fromLeft ← (if iLeft <? nLeft then
                      if nRight <=? iRight then Some true
                      else l ← key_at aContent m aLeft iLeft; r ← key_at aContent m aRight iRight; Some (l <? r)
                    else Some false);
        logpage ← (if (fromLeft : bool) then aget m (aLeft + iLeft) else aget m (aRight + iRight));
        let iLeft := if (fromLeft : bool) then iLeft + 1 else iLeft in
        let iRight := if (fromLeft : bool) then iRight else iRight + 1 in
        dbpage ← aget aContent logpage;
        aTmp ← aset aTmp iOut logpage;
        iLeft ← (if iLeft <? nLeft then l ← key_at aContent m aLeft iLeft; Some (if l =? dbpage then iLeft + 1 else iLeft) else Some iLeft);
        okl ← above aContent m aLeft nLeft iLeft dbpage;
        _ ← assert_ okl;
        okr ← above aContent m aRight nRight iRight dbpage;
        _ ← assert_ okr;
        merge_loop fuel aContent m aLeft nLeft aRight nRight aTmp iLeft iRight (iOut + 1)
      else Some (aTmp, iOut)
  end.

(** The arrays of indices and aTmp, *paRight and *pnRight *)
Definition walMerge (aContent m : list Z) (aLeft nLeft paRight pnRight : Z) (aTmp : list Z) : option (list Z * list Z * Z * Z) :=
  _ ← assert_ ((0 <? nLeft) && (0 <? pnRight));
  '(aTmp, iOut) ← merge_loop (S (Z.to_nat (nLeft + pnRight))) aContent m aLeft nLeft paRight pnRight aTmp 0 0 0;
  m ← copy_bytes m aLeft aTmp 0 iOut;
  Some (m, aTmp, aLeft, iOut).

(** ** Sorting *)

(** nList and aList; a zeroed entry of aSub is [None] *)
Record Sublist := mkSub { sl_nList : Z; sl_aList : Z }.

Definition bit_set (n iSub : Z) : bool := negb (Z.land n (Z.shiftl 1 iSub) =? 0).

(** The merge of aSub[iSub] with aMerge, with the asserts before it; [n] is iList or nList. *)
Definition merge_sub (aContent m aTmp : list Z) (aList : Z) (aSub : list (option Sublist)) (n iSub aMerge nMerge : Z) : option (list Z * list Z * Z * Z) :=
  s ← aget aSub iSub;
  p ← s;
  _ ← assert_ (sl_nList p <=? Z.shiftl 1 iSub);
  _ ← assert_ (sl_aList p =? aList + Z.land n (Z.lnot (Z.shiftl 2 iSub - 1)));
  walMerge aContent m (sl_aList p) (sl_nList p) aMerge nMerge aTmp.

(** The loop over the low bits of iList *)
Fixpoint carry_loop (fuel : nat) (aContent m aTmp : list Z) (aList : Z) (aSub : list (option Sublist)) (iList iSub aMerge nMerge : Z) : option (list Z * list Z * Z * Z * Z) :=
  match fuel with
  | O => None
  | S fuel =>
      if bit_set iList iSub then
        '(m, aTmp, aMerge, nMerge) ← merge_sub aContent m aTmp aList aSub iList iSub aMerge nMerge;
        carry_loop fuel aContent m aTmp aList aSub iList (iSub + 1) aMerge nMerge
      else Some (m, aTmp, iSub, aMerge, nMerge)
  end.

(** The loop over the list; the last components are iSub, aMerge and nMerge. *)
Fixpoint sort_loop (fuel : nat) (aContent m aTmp : list Z) (aList nList : Z) (aSub : list (option Sublist)) (iList iSub aMerge nMerge : Z) : option (list Z * list Z * list (option Sublist) * Z * Z * Z) :=
  match fuel with
  | O => None
  | S fuel =>
      if iList <? nList then
        '(m, aTmp, iSub, aMerge, nMerge) ← carry_loop 32 aContent m aTmp aList aSub iList 0 (aList + iList) 1;
        aSub ← aset aSub iSub (Some (mkSub nMerge aMerge));
        sort_loop fuel aContent m aTmp aList nList aSub (iList + 1) iSub aMerge nMerge
      else Some (m, aTmp, aSub, iSub, aMerge, nMerge)
  end.

(** The loop over the sub-lists that remain *)
Fixpoint final_loop (fuel : nat) (aContent m aTmp : list Z) (aList nList : Z) (aSub : list (option Sublist)) (iSub aMerge nMerge : Z) : option (list Z * list Z * Z * Z) :=
  match fuel with
  | O => None
  | S fuel =>
      if iSub <? 13 then
        '(m, aTmp, aMerge, nMerge) ← (if bit_set nList iSub then merge_sub aContent m aTmp aList aSub nList iSub aMerge nMerge else Some (m, aTmp, aMerge, nMerge));
        final_loop fuel aContent m aTmp aList nList aSub (iSub + 1) aMerge nMerge
      else Some (m, aTmp, aMerge, nMerge)
  end.

(** The arrays of indices and aBuffer, and *pnList *)
Definition walMergesort (aContent aBuffer m : list Z) (aList nList : Z) : option (list Z * list Z * Z) :=
  _ ← assert_ ((nList <=? HASHTABLE_NPAGE) && (0 <? nList));
  '(m, aTmp, aSub, iSub, aMerge, nMerge) ← sort_loop (S (Z.to_nat nList)) aContent m aBuffer aList nList (replicate 13 None) 0 0 0 0;
  '(m, aTmp, aMerge, nMerge) ← final_loop 14 aContent m aTmp aList nList aSub (iSub + 1) aMerge nMerge;
  _ ← assert_ (aMerge =? aList);
  Some (m, aTmp, nMerge).

(** ** The binary counter of the sub-lists *)

Definition base (i n : Z) : Z := n / 2 ^ i * 2 ^ i.

Lemma bit_set_testbit n i : 0 <= i -> bit_set n i = Z.testbit n i.
Proof.
  intros Hi. unfold bit_set. rewrite Z.shiftl_1_l. apply bool_iff. rewrite negb_true_iff, Z.eqb_neq. split.
  - intros Hne. destruct (Z.testbit n i) eqn:Hb; [done|]. destruct Hne. apply Z.bits_inj'. intros k Hk. rewrite Z.land_spec, Z.bits_0, Z.pow2_bits_eqb by done. destruct (Z.eqb_spec i k) as [->|]; [by rewrite Hb|apply andb_false_r].
  - intros Hb H0. assert (Z.testbit (Z.land n (2 ^ i)) i = true) as Hl by (by rewrite Z.land_spec, Hb, Z.pow2_bits_true). rewrite H0, Z.bits_0 in Hl. done.
Qed.

Lemma mask_base n i : 0 <= i -> Z.land n (Z.lnot (Z.shiftl 2 i - 1)) = base (i + 1) n.
Proof.
  intros Hi. rewrite <- Z.ldiff_land. replace (Z.shiftl 2 i - 1) with (Z.ones (i + 1)); [|rewrite Z.ones_equiv, Z.shiftl_mul_pow2, Z.pow_add_r by lia; lia].
  rewrite Z.ldiff_ones_r, Z.shiftl_mul_pow2, Z.shiftr_div_pow2 by lia. done.
Qed.

Lemma base_step n i : 0 <= i -> base i n = base (i + 1) n + (if Z.testbit n i then 2 ^ i else 0).
Proof.
  intros Hi. unfold base. rewrite Z.pow_add_r, Z.pow_1_r, <- Z.div_div by lia. pose proof (Z.testbit_spec' n i Hi) as Hb. set (q := n / 2 ^ i) in *. pose proof (Z.div_mod q 2 ltac:(lia)) as Hq. rewrite <- Hb in Hq. generalize dependent (q / 2). intros h ->. destruct (Z.testbit n i); cbn [Z.b2z]; lia.
Qed.

Lemma base_range i n : 0 <= i -> 0 <= n -> 0 <= base i n <= n.
Proof. intros Hi Hn. unfold base. assert (0 < 2 ^ i) by (apply Z.pow_pos_nonneg; lia). pose proof (Z.div_pos n (2 ^ i) Hn ltac:(lia)). pose proof (Z.mul_div_le n (2 ^ i) ltac:(lia)). nia. Qed.

Lemma base_mono i j n : 0 <= i <= j -> base j n <= base i n.
Proof.
  intros [Hi Hij]. replace j with (i + (j - i)) by lia. assert (0 <= j - i) as Hd by lia. revert Hd. generalize (j - i). apply natlike_ind; [by rewrite Z.add_0_r|]. intros d Hd IH. pose proof (base_step n (i + d) ltac:(lia)) as Hs. assert (0 < 2 ^ (i + d)) by (apply Z.pow_pos_nonneg; lia). replace (i + Z.succ d) with (i + d + 1) by lia. destruct (Z.testbit n (i + d)); lia.
Qed.

(** Adding one to a number whose [i] low bits are set *)
Lemma base_carry i n : 0 <= i -> 0 <= n -> n + 1 = base i n + 2 ^ i -> Z.testbit n i = false ->
  base (i + 1) (n + 1) = base i n /\ Z.testbit (n + 1) i = true /\ (forall j, 0 <= j < i -> Z.testbit (n + 1) j = false) /\ (forall j, i < j -> Z.testbit (n + 1) j = Z.testbit n j /\ base (j + 1) (n + 1) = base (j + 1) n).
Proof.
  intros Hi Hn Hone Hbit. pose proof (base_step n i Hi) as Hs. rewrite Hbit, Z.add_0_r in Hs. unfold base in Hs at 2. assert (0 < 2 ^ i) as Hp by (apply Z.pow_pos_nonneg; lia). assert (2 ^ (i + 1) = 2 * 2 ^ i) as Hp1 by (rewrite Z.pow_add_r by lia; lia).
  set (q := n / 2 ^ (i + 1)) in *. assert ((n + 1) / 2 ^ (i + 1) = q) as Hq by (symmetry; apply (Z.div_unique_pos _ _ _ (2 ^ i)); lia). assert (n + 1 = (2 * q + 1) * 2 ^ i) as Hn1 by lia. split_and!.
  - unfold base at 1. rewrite Hq. lia.
  - rewrite Hn1. rewrite Z.mul_pow2_bits by lia. rewrite Z.sub_diag. apply Z.testbit_odd_0.
  - intros j Hj. rewrite Hn1. apply Z.mul_pow2_bits_low. lia.
  - intros j Hj. assert (forall x, Z.testbit x j = Z.testbit (x / 2 ^ (i + 1)) (j - (i + 1))) as Ht by (intros x; rewrite Z.div_pow2_bits by lia; f_equal; lia). assert (forall x, base (j + 1) x = x / 2 ^ (i + 1) / 2 ^ (j - i) * 2 ^ (j + 1)) as Hb.
    { intros x. unfold base. rewrite Z.div_div by (try apply Z.pow_pos_nonneg; lia). rewrite <- Z.pow_add_r by lia. do 3 f_equal. lia. }
    rewrite !Ht, !Hb, Hq. done.
Qed.

(** ** What a merge computes *)

#[local] Abbreviation len l := (Z.of_nat (length l)).

Section Sorting.
Context (c : list Z).

Definition key (x : Z) : Z := default 0 (aget c x).

(** Strictly ascending page numbers *)
Abbreviation ascending := (StronglySorted (fun x y => key x < key y)).

(** [xs] indexes the page numbers from [a] up to [e]: each of them has in [xs] the largest
    index that holds it. *)
Record index_of (a e : Z) (xs : list Z) : Prop := {
  io_sorted : ascending xs;
  io_range : forall x, x ∈ xs -> a <= x < e;
  io_all : forall j, a <= j < e -> exists x, x ∈ xs /\ j <= x /\ key x = key j }.

Lemma ascending_inj xs x y : ascending xs -> x ∈ xs -> y ∈ xs -> key x = key y -> x = y.
Proof.
  induction 1 as [|z xs _ IH Hz]; [by intros ?%not_elem_of_nil|]. rewrite Forall_forall in Hz. intros [->|Hx]%elem_of_cons [->|Hy]%elem_of_cons Hk; [done| | |by apply IH].
  - specialize (Hz y Hy). lia.
  - specialize (Hz x Hx). lia.
Qed.

Lemma index_of_last a e xs x j : index_of a e xs -> x ∈ xs -> a <= j < e -> key j = key x -> j <= x.
Proof. intros [Hs Hr Ha] Hx Hj Hk. destruct (Ha j Hj) as (y & Hy & Hjy & Hky). enough (y = x) by lia. apply (ascending_inj xs); [done|done|done|lia]. Qed.

Lemma index_of_single x : index_of x (x + 1) [x].
Proof. split; [by repeat constructor|intros y ->%list_elem_of_singleton; lia|]. intros j Hj. exists x. split; [by apply list_elem_of_singleton|]. assert (j = x) as -> by lia. done. Qed.

Lemma index_of_nonempty a e xs : index_of a e xs -> a < e -> xs <> [].
Proof. intros [_ _ Ha] Hlt ->. destruct (Ha a ltac:(lia)) as (x & Hx & _). by apply not_elem_of_nil in Hx. Qed.

Lemma ascending_length a e xs : index_of a e xs -> a <= e -> len xs <= e - a.
Proof.
  intros [Hs Hr _] Hle. assert (NoDup xs) as Hnd. { clear Hr. induction Hs as [|x xs _ IH Hx]; constructor; [|done]. intros Hin. rewrite Forall_forall in Hx. specialize (Hx x Hin). lia. }
  assert (xs ⊆+ seqZ a (e - a)) as Hsub by (apply NoDup_submseteq; [done|]; intros x Hx; apply elem_of_seqZ; specialize (Hr x Hx); lia). apply submseteq_length in Hsub. rewrite length_seqZ in Hsub. lia.
Qed.

(** ** Merging *)

Definition in_content (xs : list Z) : Prop := Forall (fun x => aget c x = Some (key x)) xs.

Lemma bytes_at_cons m a x l : bytes_at m a (x :: l) -> aget m a = Some x /\ bytes_at m (a + 1) l.
Proof.
  intros H. split; [specialize (H 0); rewrite Z.add_0_r in H; apply H; cbn; lia|]. intros k Hk. specialize (H (k + 1)). replace (a + 1 + k) with (a + (k + 1)) by lia. rewrite H by (cbn; lia).
  change (x :: l) with ([x] ++ l). replace (k + 1) with (Z.of_nat (length [x]) + k) by (cbn; lia). by rewrite aget_app_r by lia.
Qed.

(** The entries of an array of [n] indices at [a] from the [i]-th on *)
Record cursor (m : list Z) (a n i : Z) (xs : list Z) : Prop := {
  cu_bytes : bytes_at m (a + i) xs;
  cu_in : in_content xs;
  cu_sorted : ascending xs;
  cu_n : n = i + len xs }.

Lemma cursor_cons m a n i x xs : cursor m a n i (x :: xs) ->
  aget m (a + i) = Some x /\ aget c x = Some (key x) /\ key_at c m a i = Some (key x) /\ i < n /\ Forall (fun y => key x < key y) xs /\ cursor m a n (i + 1) xs.
Proof.
  intros [[Hx Hb]%bytes_at_cons [Hk Hc]%Forall_cons [Hf Hs]%StronglySorted_cons Hn]. cbn [length] in Hn. unfold key_at. rewrite Hx. split_and!; [done|done|done|lia|done|]. split; [by rewrite Z.add_assoc|done|done|lia].
Qed.

Lemma cursor_above m a n i xs k : cursor m a n i xs -> Forall (fun x => k < key x) xs -> above c m a n i k = Some true.
Proof.
  intros HC Hk. unfold above. destruct xs as [|x xs]; [rewrite (proj2 (Z.leb_le n i)); [done|]; destruct HC; cbn in *; lia|]. apply cursor_cons in HC as (_ & _ & -> & Hn & _). rewrite (proj2 (Z.leb_gt n i)) by lia. cbn [mbind option_bind].
  apply Forall_cons in Hk as [Hk _]. by rewrite (proj2 (Z.ltb_lt _ _)).
Qed.

Lemma cursor_nil m a n i : cursor m a n i [] -> n <= i.
Proof. intros [_ _ _ ->]. cbn. lia. Qed.

(** The result of a merge: the right list, and of the left one what is not in it. *)
Definition merged (xs ys zs : list Z) : Prop :=
  ascending zs /\ (forall z, z ∈ zs -> z ∈ xs \/ z ∈ ys) /\ (forall y, y ∈ ys -> y ∈ zs) /\ (forall x, x ∈ xs -> x ∈ zs \/ exists y, y ∈ ys /\ key y = key x).

Lemma merged_nil : merged [] [] [].
Proof. split_and!; [constructor|by left|done|by left]. Qed.

Lemma merged_left x xs ys zs : Forall (fun y => key x < key y) xs -> Forall (fun y => key x < key y) ys -> merged xs ys zs -> merged (x :: xs) ys (x :: zs).
Proof.
  rewrite !Forall_forall. intros Hx Hy (H1 & H2 & H3 & H4). split_and!.
  - constructor; [done|]. apply Forall_forall. intros z [Hz|Hz]%H2; auto.
  - intros z [->|[Hz|Hz]%H2]%elem_of_cons; [left; apply elem_of_cons; by left|left; apply elem_of_cons; by right|by right].
  - intros y Hin%H3. apply elem_of_cons. by right.
  - intros z [->|[Hz|Hz]%H4]%elem_of_cons; [left; apply elem_of_cons; by left|left; apply elem_of_cons; by right|by right].
Qed.

(** [xs] is what remains of [xs0] when its head has the page number of [y]. *)
Lemma merged_right y xs0 xs ys zs : (xs0 = xs \/ exists x, xs0 = x :: xs /\ key x = key y) -> Forall (fun z => key y < key z) xs -> Forall (fun z => key y < key z) ys -> merged xs ys zs -> merged xs0 (y :: ys) (y :: zs).
Proof.
  rewrite !Forall_forall. intros H0 Hx Hy (H1 & H2 & H3 & H4). assert (forall z, z ∈ xs -> z ∈ xs0) as Hsub by (destruct H0 as [->|(x & -> & _)]; [done|]; intros; apply elem_of_cons; by right). split_and!.
  - constructor; [done|]. apply Forall_forall. intros z [Hz|Hz]%H2; auto.
  - intros z [->|[Hz|Hz]%H2]%elem_of_cons; [right; apply elem_of_cons; by left|left; auto|right; apply elem_of_cons; by right].
  - intros z [->|Hz%H3]%elem_of_cons; apply elem_of_cons; auto.
  - assert (forall x, x ∈ xs -> x ∈ y :: zs \/ exists z, z ∈ y :: ys /\ key z = key x) as Hxs. { intros x [Hz|(z & Hz & Hk)]%H4; [left; apply elem_of_cons; by right|right; exists z; split; [apply elem_of_cons; by right|done]]. }
    destruct H0 as [->|(x & -> & Hk)]; [done|]. intros z [->|Hz]%elem_of_cons; [|by apply Hxs]. right. exists y. split; [apply elem_of_cons; by left|done].
Qed.

Lemma merged_index a b e xs ys zs : index_of a b xs -> index_of b e ys -> a <= b <= e -> merged xs ys zs -> index_of a e zs.
Proof.
  intros [_ Hxr Hxa] [_ Hyr Hya] Hab (H1 & H2 & H3 & H4). split; [done| |].
  - intros z [Hz|Hz]%H2; [specialize (Hxr z Hz); lia|specialize (Hyr z Hz); lia].
  - intros j Hj. destruct (decide (j < b)) as [Hlt|Hge].
    + destruct (Hxa j ltac:(lia)) as (x & Hx & Hjx & Hk). destruct (H4 x Hx) as [Hz|(y & Hy & Hky)]; [by exists x|]. exists y. split; [by apply H3|]. specialize (Hyr y Hy). specialize (Hxr x Hx). split; [lia|congruence].
    + destruct (Hya j ltac:(lia)) as (y & Hy & Hjy & Hk). exists y. split; [by apply H3|done].
Qed.

(** The entry that an iteration takes, and what it leaves. *)
Definition pick (xs ys : list Z) : option (Z * list Z * list Z) :=
  match xs, ys with
  | [], [] => None
  | [], y :: ys => Some (y, [], ys)
  | x :: xs, [] => Some (x, xs, [])
  | x :: xs', y :: ys' => if key x <? key y then Some (x, xs', ys) else Some (y, if key x =? key y then xs' else xs, ys')
  end.

Lemma pick_merged xs ys z xs' ys' : ascending xs -> ascending ys -> pick xs ys = Some (z, xs', ys') ->
  (length xs' + length ys' < length xs + length ys)%nat /\ Forall (fun x => key z < key x) xs' /\ Forall (fun x => key z < key x) ys' /\ forall zs, merged xs' ys' zs -> merged xs ys (z :: zs).
Proof.
  intros Hx Hy. assert (forall k x xs, k < key x -> ascending (x :: xs) -> Forall (fun z => k < key z) (x :: xs)) as Htr. { intros k x l Hk [Hf _]%StronglySorted_cons. constructor; [done|]. eapply Forall_impl; [exact Hf|]. intros w ?. cbn in *. lia. }
  destruct xs as [|x xs], ys as [|y ys]; cbn [pick]; [done|..].
  - intros [= <- <- <-]. apply StronglySorted_cons in Hy as [Hf _]. split_and!; [cbn; lia|done|done|]. intros zs. apply merged_right; [by left|done|done].
  - intros [= <- <- <-]. apply StronglySorted_cons in Hx as [Hf _]. split_and!; [cbn; lia|done|done|]. intros zs. by apply merged_left.
  - destruct (Z.ltb_spec (key x) (key y)) as [Hlt|Hge]; intros [= <- <- <-].
    + pose proof (Htr _ _ _ Hlt Hy). apply StronglySorted_cons in Hx as [Hf _]. split_and!; [cbn; lia|done|done|]. intros zs. by apply merged_left.
    + assert (forall x, x = key y -> Forall (fun z => x < key z) ys) as Hfy by (intros ? ->; by apply StronglySorted_cons in Hy as [Hf _]). specialize (Hfy _ eq_refl). destruct (Z.eqb_spec (key x) (key y)) as [He|Hne].
      * pose proof Hx as [Hf _]%StronglySorted_cons. rewrite He in Hf. split_and!; [cbn; lia|done|done|]. intros zs. apply merged_right; [right; by exists x|done|done].
      * pose proof (Htr (key y) x xs ltac:(lia) Hx). split_and!; [cbn; lia|done|done|]. intros zs. apply merged_right; [by left|done|done].
Qed.

Lemma no_drop m a n i xs k : cursor m a n i xs -> Forall (fun x => k < key x) xs -> (if i <? n then l ← key_at c m a i; Some (if l =? k then i + 1 else i) else Some i) = Some i.
Proof.
  intros HC Hf. destruct xs as [|x xs]; [by rewrite (proj2 (Z.ltb_ge i n)) by (by apply cursor_nil in HC)|]. apply cursor_cons in HC as (_ & _ & -> & Hn & _). apply Forall_cons in Hf as [Hf _]. rewrite (proj2 (Z.ltb_lt i n)) by done. cbn [mbind option_bind].
  by rewrite (proj2 (Z.eqb_neq _ _)) by lia.
Qed.

Lemma merge_step m aL nL aR nR iL iR xs ys z xs' ys' : cursor m aL nL iL xs -> cursor m aR nR iR ys -> pick xs ys = Some (z, xs', ys') ->
  exists iL' iR', cursor m aL nL iL' xs' /\ cursor m aR nR iR' ys' /\
    forall fuel out r rest, merge_loop (S fuel) c m aL nL aR nR (out ++ r :: rest) iL iR (len out) = merge_loop fuel c m aL nL aR nR ((out ++ [z]) ++ rest) iL' iR' (len (out ++ [z])).
Proof.
  intros HL HR Hp. destruct (pick_merged xs ys z xs' ys' (cu_sorted _ _ _ _ _ HL) (cu_sorted _ _ _ _ _ HR) Hp) as (_ & Hfx & Hfy & _).
  assert (exists (left : bool) iL1 iL' iR', (iR <? nR) || (iL <? nL) = true /\
    (if iL <? nL then if nR <=? iR then Some true else l ← key_at c m aL iL; r ← key_at c m aR iR; Some (l <? r) else Some false) = Some left /\
    (if left then aget m (aL + iL) else aget m (aR + iR)) = Some z /\ aget c z = Some (key z) /\ (if left then iL + 1 else iL) = iL1 /\ (if left then iR else iR + 1) = iR' /\
    (if iL1 <? nL then l ← key_at c m aL iL1; Some (if l =? key z then iL1 + 1 else iL1) else Some iL1) = Some iL' /\ cursor m aL nL iL' xs' /\ cursor m aR nR iR' ys') as (left & iL1 & iL' & iR' & Hc & Hl & Hz & Hk & E1 & E2 & Hd & HL' & HR').
  { destruct xs as [|x xs], ys as [|y ys]; cbn [pick] in Hp; [done|..].
    - injection Hp as <- <- <-. pose proof (cursor_nil _ _ _ _ HL) as Hn. pose proof (cursor_cons _ _ _ _ _ _ HR) as (H1 & H2 & H3 & H4 & _ & H5). exists false, iL, iL, (iR + 1). rewrite (proj2 (Z.ltb_lt iR nR)), (proj2 (Z.ltb_ge iL nL)) by lia. done.
    - injection Hp as <- <- <-. pose proof (cursor_nil _ _ _ _ HR) as Hn. pose proof (cursor_cons _ _ _ _ _ _ HL) as (H1 & H2 & H3 & H4 & _ & H5). exists true, (iL + 1), (iL + 1), iR. rewrite (proj2 (Z.ltb_lt iL nL)), orb_true_r, (proj2 (Z.leb_le nR iR)) by lia. split_and!; try done. by apply (no_drop m aL nL (iL + 1) xs).
    - pose proof (cursor_cons _ _ _ _ _ _ HL) as (H1 & H2 & H3 & H4 & _ & H5). pose proof (cursor_cons _ _ _ _ _ _ HR) as (G1 & G2 & G3 & G4 & _ & G5). rewrite (proj2 (Z.ltb_lt iL nL)), orb_true_r, (proj2 (Z.leb_gt nR iR)), H3, G3 by lia. cbn [mbind option_bind]. destruct (Z.ltb_spec (key x) (key y)) as [Hlt|Hge]; injection Hp as <- <- <-.
      + exists true, (iL + 1), (iL + 1), iR. split_and!; try done. by apply (no_drop m aL nL (iL + 1) xs).
      + exists false, iL, (if key x =? key y then iL + 1 else iL), (iR + 1). rewrite (proj2 (Z.ltb_lt iL nL)), H3 by lia. cbn [mbind option_bind]. split_and!; try done. by destruct (key x =? key y). }
  exists iL', iR'. split; [done|]. split; [done|]. intros fuel out r rest. cbn [merge_loop]. rewrite Hc, Hl. cbn [mbind option_bind]. rewrite Hz. cbn [mbind option_bind]. rewrite Hk. cbn [mbind option_bind]. rewrite aset_middle. cbn [mbind option_bind]. rewrite E1, E2, Hd. cbn [mbind option_bind].
  rewrite (cursor_above m aL nL iL' xs') by done. cbn [mbind option_bind assert_]. rewrite (cursor_above m aR nR iR' ys') by done. cbn [mbind option_bind assert_]. rewrite length_app, <- app_assoc. cbn [length app]. f_equal. lia.
Qed.

Lemma merge_loop_spec m aL nL aR nR : forall fuel xs ys out rest iL iR, cursor m aL nL iL xs -> cursor m aR nR iR ys -> (length xs + length ys <= length rest)%nat -> (length xs + length ys < fuel)%nat ->
  exists zs rest', merge_loop fuel c m aL nL aR nR (out ++ rest) iL iR (len out) = Some (out ++ zs ++ rest', len out + len zs) /\ length (zs ++ rest') = length rest /\ merged xs ys zs.
Proof.
  induction fuel as [|fuel IH]; intros xs ys out rest iL iR HL HR Hrest Hfuel; [lia|]. destruct (pick xs ys) as [[[z xs'] ys']|] eqn:Hp.
  - destruct (merge_step _ _ _ _ _ _ _ _ _ _ _ _ HL HR Hp) as (iL' & iR' & HL' & HR' & Heq). destruct (pick_merged _ _ _ _ _ (cu_sorted _ _ _ _ _ HL) (cu_sorted _ _ _ _ _ HR) Hp) as (Hlt & _ & _ & Hm).
    destruct rest as [|r rest]; [cbn in Hrest; lia|]. rewrite Heq. cbn [length] in Hrest. destruct (IH xs' ys' (out ++ [z]) rest iL' iR' HL' HR') as (zs & rest' & -> & Hl & Hmer); [lia|lia|].
    exists (z :: zs), rest'. split; [|split; [cbn; by rewrite Hl|by apply Hm]]. rewrite <- app_assoc. rewrite length_app. cbn [app length]. do 2 f_equal. lia.
  - assert (xs = [] /\ ys = []) as [-> ->] by (destruct xs, ys; cbn in Hp; repeat case_match; done). exists [], rest. cbn [merge_loop]. apply cursor_nil in HL, HR. rewrite (proj2 (Z.ltb_ge iR nR)), (proj2 (Z.ltb_ge iL nL)) by lia. cbn [orb]. rewrite Z.add_0_r. split; [done|]. split; [done|apply merged_nil].
Qed.

(** ** The merge in memory *)

(** [m'] differs from [m] between [lo] and [hi] only. *)
Definition upd (m m' : list Z) (lo hi : Z) : Prop := length m' = length m /\ forall i, i < lo \/ hi <= i -> aget m' i = aget m i.

Lemma upd_refl m lo hi : upd m m lo hi.
Proof. done. Qed.

Lemma upd_trans m m' m'' lo hi lo' hi' : upd m m' lo hi -> upd m' m'' lo' hi' -> upd m m'' (Z.min lo lo') (Z.max hi hi').
Proof. intros [L1 H1] [L2 H2]. split; [congruence|]. intros i Hi. rewrite H2 by lia. apply H1. lia. Qed.

Lemma upd_weaken m m' lo hi lo' hi' : upd m m' lo hi -> lo' <= lo -> hi <= hi' -> upd m m' lo' hi'.
Proof. intros [L1 H1] Hl Hh. split; [done|]. intros i Hi. apply H1. lia. Qed.

Lemma bytes_at_upd m m' lo hi a l : upd m m' lo hi -> a + len l <= lo \/ hi <= a -> bytes_at m a l -> bytes_at m' a l.
Proof. intros [_ Hu] Ha Hb k Hk. rewrite Hu by lia. by apply Hb. Qed.

Lemma put_bytes_upd m off l : 0 <= off -> off + len l <= len m -> exists m', put_bytes m off l = Some m' /\ upd m m' off (off + len l) /\ bytes_at m' off l.
Proof.
  intros H0 Hl. assert (exists A X B, m = A ++ X ++ B /\ len A = off /\ length X = length l) as (A & X & B & -> & <- & HX).
  { exists (take (Z.to_nat off) m), (take (length l) (drop (Z.to_nat off) m)), (drop (length l) (drop (Z.to_nat off) m)). rewrite !take_drop, !length_take, length_drop. split; [done|lia]. }
  rewrite put_bytes_app by done. eexists. split; [done|]. split; [split|].
  - rewrite !length_app. lia.
  - intros i [Hi|Hi]; [by rewrite !aget_app_l by done|]. replace i with (len A + (len l + (i - len A - len l))) by lia. rewrite !aget_app_r by lia. rewrite <- HX at 2. by rewrite aget_app_r by lia.
  - intros k Hk. rewrite aget_app_r by lia. by rewrite aget_app_l by lia.
Qed.

(** The index of the page numbers from [a] up to [e], [n] entries, at [b] + [a] *)
Definition run (m : list Z) (b a e n : Z) : Prop := exists xs, index_of a e xs /\ bytes_at m (b + a) xs /\ n = len xs.

Lemma run_upd m m' lo hi b a e n : a <= e -> run m b a e n -> upd m m' lo hi -> b + e <= lo \/ hi <= b + a -> run m' b a e n.
Proof. intros Hae (xs & Hi & Hb & ->) Hu Hd. exists xs. split; [done|]. split; [|done]. pose proof (ascending_length _ _ _ Hi Hae). eapply bytes_at_upd; [exact Hu|lia|done]. Qed.

Lemma run_size m b a e n : run m b a e n -> a < e -> 0 < n <= e - a.
Proof. intros (xs & Hi & _ & ->) Hlt. pose proof (ascending_length _ _ _ Hi ltac:(lia)). pose proof (index_of_nonempty _ _ _ Hi Hlt). destruct xs; [done|]. cbn in *. lia. Qed.

Lemma index_in_content a e xs : index_of a e xs -> 0 <= a -> e <= len c -> in_content xs.
Proof. intros [_ Hr _] Ha He. apply Forall_forall. intros x Hx. specialize (Hr x Hx). unfold key. destruct (aget_is_Some c x) as [v ->]; [lia|done]. Qed.

Lemma walMerge_spec m b a k e nL nR tmp : run m b a k nL -> run m b k e nR -> 0 <= b -> 0 <= a < k -> k < e <= len c -> b + e <= len m -> e - a <= len tmp ->
  exists m' tmp' n, walMerge c m (b + a) nL (b + k) nR tmp = Some (m', tmp', b + a, n) /\ run m' b a e n /\ upd m m' (b + a) (b + e) /\ length tmp' = length tmp.
Proof.
  intros HL HR Hb Ha Hk Hm Ht. pose proof (run_size _ _ _ _ _ HL ltac:(lia)) as HnL. pose proof (run_size _ _ _ _ _ HR ltac:(lia)) as HnR. destruct HL as (xs & Hix & Hbx & EL). destruct HR as (ys & Hiy & Hby & ER).
  unfold walMerge. rewrite (proj2 (Z.ltb_lt 0 nL)), (proj2 (Z.ltb_lt 0 nR)) by lia. cbn [andb assert_ mbind option_bind].
  destruct (merge_loop_spec m (b + a) nL (b + k) nR (S (Z.to_nat (nL + nR))) xs ys [] tmp 0 0) as (zs & rest & Heq & Hl & Hmer).
  1-2: split; [by rewrite Z.add_0_r|eapply index_in_content; [done|lia|lia]|by eapply io_sorted|lia].
  1-2: lia.
  cbn [app length] in Heq. change (Z.of_nat 0) with 0 in Heq. rewrite Heq. cbn [mbind option_bind]. rewrite Z.add_0_l. pose proof (merged_index _ _ _ _ _ _ Hix Hiy ltac:(lia) Hmer) as Hiz. pose proof (ascending_length _ _ _ Hiz ltac:(lia)) as Hlz.
  unfold copy_bytes, get_bytes. rewrite length_app. rewrite decide_True by lia. cbn [mbind option_bind]. rewrite Nat2Z.id. change (Z.to_nat 0) with 0%nat. rewrite drop_0, take_app_length.
  destruct (put_bytes_upd m (b + a) zs ltac:(lia) ltac:(lia)) as (m' & -> & Hu & Hbz). cbn [mbind option_bind]. eexists _, _, _. split; [done|]. split; [by exists zs|]. split; [|by rewrite Hl]. eapply upd_weaken; [exact Hu|lia|lia].
Qed.

(** ** The sort *)

(** For each bit of [n] from [lo] on that is set, aSub has the index of as many page numbers. *)
Definition subs_ok (m : list Z) (b : Z) (aSub : list (option Sublist)) (n lo : Z) : Prop :=
  forall i, lo <= i < 13 -> Z.testbit n i = true -> exists nl, aget aSub i = Some (Some (mkSub nl (b + base (i + 1) n))) /\ run m b (base (i + 1) n) (base i n) nl.

Lemma subs_weaken m b aSub n lo lo' : subs_ok m b aSub n lo -> lo <= lo' -> subs_ok m b aSub n lo'.
Proof. intros H Hl i Hi. apply H. lia. Qed.

Lemma subs_upd m m' b aSub n i hi : subs_ok m b aSub n i -> upd m m' (b + base i n) hi -> 0 <= i -> 0 <= n -> subs_ok m' b aSub n i.
Proof.
  intros Hs Hu Hi0 Hn j Hj Hb. destruct (Hs j Hj Hb) as (nl & Ha & Hr). exists nl. split; [done|]. eapply run_upd; [apply base_mono; lia|exact Hr|exact Hu|]. left. pose proof (base_mono i j n ltac:(lia)). lia.
Qed.

Lemma merge_sub_spec m tmp b aSub n e i nM : subs_ok m b aSub n i -> 0 <= i < 13 -> Z.testbit n i = true -> run m b (base i n) e nM -> 0 <= b -> 0 <= n -> base i n < e <= len c -> b + e <= len m -> e <= len tmp ->
  exists m' tmp' n', merge_sub c m tmp b aSub n i (b + base i n) nM = Some (m', tmp', b + base (i + 1) n, n') /\ run m' b (base (i + 1) n) e n' /\ upd m m' (b + base (i + 1) n) (b + e) /\ length tmp' = length tmp.
Proof.
  intros Hs Hi Hb Hr Hb0 Hn He Hm Ht. destruct (Hs i ltac:(lia) Hb) as (nl & Ha & Hrl). pose proof (base_step n i ltac:(lia)) as Hst. rewrite Hb in Hst. assert (0 < 2 ^ i) by (apply Z.pow_pos_nonneg; lia). pose proof (base_range (i + 1) n ltac:(lia) Hn). pose proof (run_size _ _ _ _ _ Hrl ltac:(lia)).
  unfold merge_sub. rewrite Ha. cbn [mbind option_bind sl_nList sl_aList]. rewrite Z.shiftl_1_l, mask_base, (proj2 (Z.leb_le nl _)), Z.eqb_refl by lia. cbn [assert_ mbind option_bind]. apply walMerge_spec; [done|done|lia|lia|lia|lia|lia].
Qed.

Lemma carry_loop_spec b aSub n : forall fuel m tmp i nM, subs_ok m b aSub n i -> run m b (base i n) (n + 1) nM -> n + 1 = base i n + 2 ^ i -> 0 <= i -> 12 < i + Z.of_nat fuel -> 0 <= b -> 0 <= n < 4096 -> n + 1 <= len c -> b + (n + 1) <= len m -> n + 1 <= len tmp ->
  exists m' tmp' j n', carry_loop fuel c m tmp b aSub n i (b + base i n) nM = Some (m', tmp', j, b + base j n, n') /\ i <= j <= 12 /\ Z.testbit n j = false /\ n + 1 = base j n + 2 ^ j /\ run m' b (base j n) (n + 1) n' /\
    upd m m' (b + base j n) (b + (n + 1)) /\ subs_ok m' b aSub n j /\ length tmp' = length tmp.
Proof.
  induction fuel as [|fuel IH]; intros m tmp i nM Hs Hr Hone Hi Hf Hb Hn Hc Hm Ht; (assert (i <= 12) as Hi12 by (apply Z.lt_succ_r, (Z.pow_lt_mono_r_iff 2); [lia|lia|]; pose proof (base_range i n Hi ltac:(lia)); change (2 ^ Z.succ 12) with 8192; lia)); [lia|].
  cbn [carry_loop]. rewrite bit_set_testbit by done. destruct (Z.testbit n i) eqn:Hbit.
  - assert (0 < 2 ^ i) by (apply Z.pow_pos_nonneg; lia). destruct (merge_sub_spec m tmp b aSub n (n + 1) i nM Hs ltac:(lia) Hbit Hr Hb ltac:(lia) ltac:(lia) ltac:(lia) ltac:(lia)) as (m1 & tmp1 & n1 & -> & Hr1 & Hu1 & Hl1). cbn [mbind option_bind].
    pose proof (base_step n i Hi) as Hst. rewrite Hbit in Hst. destruct (IH m1 tmp1 (i + 1) n1) as (m2 & tmp2 & j & n2 & -> & Hj & Hbj & Honej & Hr2 & Hu2 & Hs2 & Hl2); [|done|rewrite Z.pow_add_r by lia; lia|lia|lia|lia|lia|lia|destruct Hu1 as [-> _]; lia|lia|].
    + eapply subs_upd; [by eapply subs_weaken; [exact Hs|lia]|exact Hu1|lia|lia].
    + exists m2, tmp2, j, n2. split_and!; [done|lia|lia|done|done|done| |done|congruence]. eapply upd_weaken; [eapply upd_trans; [exact Hu1|exact Hu2]| |lia]. pose proof (base_mono (i + 1) j n ltac:(lia)). lia.
  - exists m, tmp, i, nM. split_and!; try done; lia.
Qed.

(** After the [n]-th entry: the index of the last ones is at aMerge. *)
Definition merging (m : list Z) (b n iSub aMerge nMerge : Z) : Prop := 0 <= iSub <= 12 /\ base (iSub + 1) n < n /\ aMerge = b + base (iSub + 1) n /\ run m b (base (iSub + 1) n) n nMerge.

Lemma sort_loop_spec b N : 0 <= b -> N <= 4096 -> N <= len c -> forall fuel m tmp aSub n iSub aMerge nMerge, subs_ok m b aSub n 0 -> length aSub = 13%nat -> 0 <= n <= N -> b + N <= len m -> N <= len tmp -> (forall j, n <= j < N -> aget m (b + j) = Some j) ->
  N - n < Z.of_nat fuel -> (n = 0 \/ merging m b n iSub aMerge nMerge) -> 0 < N ->
  exists m' tmp' aSub' i a' n', sort_loop fuel c m tmp b N aSub n iSub aMerge nMerge = Some (m', tmp', aSub', i, a', n') /\ subs_ok m' b aSub' N 0 /\ merging m' b N i a' n' /\ upd m m' b (b + N) /\ length tmp' = length tmp.
Proof.
  intros Hb HN4 HNc. induction fuel as [|fuel IH]; intros m tmp aSub n iSub aMerge nMerge Hs Hl Hn Hm Ht Hid Hf Hmer HN; [lia|]. cbn [sort_loop]. destruct (Z.ltb_spec n N) as [Hlt|Hge].
  - assert (base 0 n = n) as H0 by (unfold base; rewrite Z.div_1_r; lia). assert (run m b (base 0 n) (n + 1) 1) as Hr. { rewrite H0. exists [n]. split; [apply index_of_single|]. split; [|done]. intros k Hk. cbn in Hk. assert (k = 0) as -> by lia. rewrite Z.add_0_r. apply Hid. lia. }
    pose proof (carry_loop_spec b aSub n 32 m tmp 0 1 Hs Hr) as Hcar. rewrite H0 in Hcar. destruct Hcar as (m1 & tmp1 & j & n1 & -> & Hj & Hbit & Hone & Hr1 & Hu1 & Hs1 & Hl1); [lia..|]. cbn [mbind option_bind]. rewrite aset_is_Some by lia. cbn [mbind option_bind].
    destruct (base_carry j n ltac:(lia) ltac:(lia) Hone Hbit) as (Hbc & Htb & Hlow & Hhigh). assert (subs_ok m1 b (<[Z.to_nat j := Some (mkSub n1 (b + base j n))]> aSub) (n + 1) 0) as Hs2.
    { intros i Hi Hbi. destruct (decide (i < j)) as [|Hij]; [rewrite Hlow in Hbi by lia; done|]. destruct (decide (i = j)) as [->|Hne].
      - exists n1. rewrite Hbc. split; [unfold aget; rewrite decide_True by lia; apply list_lookup_insert_eq; lia|]. pose proof (base_step (n + 1) j ltac:(lia)) as Hst. rewrite Htb, Hbc in Hst. rewrite Hst, <- Hone. done.
      - destruct (Hhigh i ltac:(lia)) as [Ht' Hb']. rewrite Ht' in Hbi. destruct (Hs1 i ltac:(lia) Hbi) as (nl & Ha & Hrl). exists nl. rewrite Hb'. pose proof (Hhigh (i - 1)) as Hh. replace (i - 1 + 1) with i in Hh by lia. split; [unfold aget in *; rewrite decide_True in * by lia; rewrite list_lookup_insert_ne by lia; done|].
        destruct (decide (i = j + 1)) as [->|]; [|rewrite (proj2 (Hh ltac:(lia))); done]. rewrite Hbc. pose proof (base_step n j ltac:(lia)) as Hst. rewrite Hbit, Z.add_0_r in Hst. by rewrite Hst. }
    pose proof (base_range j n ltac:(lia) ltac:(lia)). destruct (IH m1 tmp1 (<[Z.to_nat j := Some (mkSub n1 (b + base j n))]> aSub) (n + 1) j (b + base j n) n1) as (m2 & tmp2 & aSub2 & i & a2 & n2 & -> & Hs3 & Hmer3 & Hu3 & Hl3); [done|by rewrite length_insert|lia|destruct Hu1 as [-> _]; lia|lia| |lia| |done|].
    + intros k Hk. rewrite (proj2 Hu1) by lia. apply Hid. lia.
    + right. split; [lia|]. rewrite Hbc. split; [lia|done].
    + exists m2, tmp2, aSub2, i, a2, n2. split_and!; try done; [|congruence]. eapply upd_weaken; [eapply upd_trans; [exact Hu1|exact Hu3]|lia|lia].
  - assert (n = N) as -> by lia. destruct Hmer as [|Hmer]; [lia|]. eexists _, _, _, _, _, _. split; [done|]. split; [done|]. split; [done|]. split; [apply upd_refl|done].
Qed.

Lemma final_loop_spec b N aSub : 0 <= b -> 0 < N <= 4096 -> N <= len c -> forall fuel m tmp i nM, subs_ok m b aSub N i -> run m b (base i N) N nM -> base i N < N -> 0 <= i <= 13 -> 13 - i < Z.of_nat fuel -> b + N <= len m -> N <= len tmp ->
  exists m' tmp' n', final_loop fuel c m tmp b N aSub i (b + base i N) nM = Some (m', tmp', b, n') /\ run m' b 0 N n' /\ upd m m' b (b + N) /\ length tmp' = length tmp.
Proof.
  intros Hb HN HNc. induction fuel as [|fuel IH]; intros m tmp i nM Hs Hr Hlt Hi Hf Hm Ht; [lia|]. cbn [final_loop]. destruct (Z.ltb_spec i 13) as [Hi13|Hi13].
  - rewrite bit_set_testbit by lia. pose proof (base_step N i ltac:(lia)) as Hst. pose proof (base_range (i + 1) N ltac:(lia) ltac:(lia)). assert (0 < 2 ^ i) by (apply Z.pow_pos_nonneg; lia). destruct (Z.testbit N i) eqn:Hbit.
    + destruct (merge_sub_spec m tmp b aSub N N i nM Hs ltac:(lia) Hbit Hr Hb ltac:(lia) ltac:(lia) ltac:(lia) ltac:(lia)) as (m1 & tmp1 & n1 & -> & Hr1 & Hu1 & Hl1). cbn [mbind option_bind].
      destruct (IH m1 tmp1 (i + 1) n1) as (m2 & tmp2 & n2 & -> & Hr2 & Hu2 & Hl2); [eapply subs_upd; [by eapply subs_weaken; [exact Hs|lia]|exact Hu1|lia|lia]|done|lia|lia|lia|destruct Hu1 as [-> _]; lia|lia|].
      exists m2, tmp2, n2. split; [done|]. split; [done|]. split; [|congruence]. eapply upd_weaken; [eapply upd_trans; [exact Hu1|exact Hu2]|lia|lia].
    + cbn [mbind option_bind]. rewrite Z.add_0_r in Hst. rewrite Hst. apply IH; [by eapply subs_weaken; [exact Hs|lia]|by rewrite <- Hst|lia|lia|lia|lia|lia].
  - assert (i = 13) as -> by lia. assert (base 13 N = 0) as H0 by (unfold base; rewrite Z.div_small by (change (2 ^ 13) with 8192; lia); done). rewrite H0 in *. rewrite Z.add_0_r. exists m, tmp, nM. split; [done|]. split; [done|]. split; [apply upd_refl|done].
Qed.

(** Indices in ascending order become the index of all page numbers. *)
Lemma walMergesort_spec m b tmp N : 0 <= b -> 0 < N <= HASHTABLE_NPAGE -> N <= len c -> b + N <= len m -> N <= len tmp -> (forall j, 0 <= j < N -> aget m (b + j) = Some j) ->
  exists m' tmp' n, walMergesort c tmp m b N = Some (m', tmp', n) /\ run m' b 0 N n /\ upd m m' b (b + N) /\ length tmp' = length tmp.
Proof.
  change HASHTABLE_NPAGE with 4096. intros Hb HN HNc Hm Ht Hid. unfold walMergesort. change HASHTABLE_NPAGE with 4096. rewrite (proj2 (Z.leb_le N _)), (proj2 (Z.ltb_lt 0 N)) by lia. cbn [andb assert_ mbind option_bind].
  destruct (sort_loop_spec b N Hb ltac:(lia) HNc (S (Z.to_nat N)) m tmp (replicate 13 None) 0 0 0 0) as (m1 & tmp1 & aSub & i & a1 & n1 & -> & Hs & (Hi & Hlt & -> & Hr) & Hu & Hl); [|done|lia|done|done|done|lia|by left|lia|].
  { intros i Hi Hbi. rewrite Z.bits_0 in Hbi. done. }
  cbn [mbind option_bind].
  destruct (final_loop_spec b N aSub Hb ltac:(lia) HNc 14 m1 tmp1 (i + 1) n1) as (m2 & tmp2 & n2 & -> & Hr2 & Hu2 & Hl2); [by eapply subs_weaken; [exact Hs|lia]|done|done|lia|lia|destruct Hu as [-> _]; lia|lia|]. cbn [mbind option_bind]. rewrite Z.eqb_refl. cbn [assert_ mbind option_bind].
  exists m2, tmp2, n2. split; [done|]. split; [done|]. split; [|congruence]. eapply upd_weaken; [eapply upd_trans; [exact Hu|exact Hu2]|lia|lia].
Qed.
End Sorting.
