(* ===== verification/WalIter.v ===== *)
(** * WalIter: the iterator over the pages of the log (wal.c)

    walIteratorInit sorts the frames of each page of the wal-index;
    walIteratorNext merges the sorted segments.  The iterator visits every page of the
    log once, in ascending order, with the last frame that holds it. *)
From stdpp Require Import sorting.
From S2P Require Import Prelude Varint Record Page PageLayout Wal WalLog WalHash WalIndex WalSpec WalSort WalFrame WalRecover.

(** ** Data *)

(** aIndex is an offset in the array of slots that follows the structure, aPgno the page of
    the wal-index it points into. *)
Record WalSegment := mkSeg { ws_iNext : Z; ws_aIndex : Z; ws_aPgno : Z; ws_nEntry : Z; ws_iZero : Z }.

Record WalIterator := mkIter { it_iPrior : Z; it_nSegment : Z; it_aSegment : list WalSegment; it_slots : list Z }.

(** ** Operations *)

(** aPgno[aIndex[i]] of a segment, and aIndex[i] *)
Definition seg_page (w : Wal) (slots : list Z) (s : WalSegment) (i : Z) : option (Z * Z) :=
  v ← aget slots (ws_aIndex s + i);
  p ← w_apWiData w !! ws_aPgno s;
  iPg ← aget (wi_aPgno p) v;
  Some (iPg, v).

(** The loop over the entries of a segment; the last components are iRet and *piFrame. *)
Fixpoint seg_loop (fuel : nat) (w : Wal) (slots : list Z) (s : WalSegment) (iMin iRet piFrame : Z) : option (WalSegment * Z * Z) :=
  match fuel with
  | O => None
  | S fuel =>
      if ws_iNext s <? ws_nEntry s then
        '(iPg, v) ← seg_page w slots s (ws_iNext s);
        if iMin <? iPg then Some (if iPg <? iRet then (s, iPg, u32 (ws_iZero s + v)) else (s, iRet, piFrame))
        else seg_loop fuel w slots (mkSeg (ws_iNext s + 1) (ws_aIndex s) (ws_aPgno s) (ws_nEntry s) (ws_iZero s)) iMin iRet piFrame
      else Some (s, iRet, piFrame)
  end.

(** The loop over the segments before the [n]-th, from the last *)
Fixpoint next_loop (n : nat) (w : Wal) (slots : list Z) (segs : list WalSegment) (iMin iRet piFrame : Z) : option (list WalSegment * Z * Z) :=
  match n with
  | O => Some (segs, iRet, piFrame)
  | S n =>
      s ← segs !! n;
      '(s, iRet, piFrame) ← seg_loop (S (Z.to_nat (ws_nEntry s - ws_iNext s))) w slots s iMin iRet piFrame;
      next_loop n w slots (<[n := s]> segs) iMin iRet piFrame
  end.

(** The result (true for the end), the iterator, *piPage and *piFrame *)
Definition walIteratorNext (w : Wal) (p : WalIterator) (piFrame : Z) : option (bool * WalIterator * Z * Z) :=
  let iMin := u32 (it_iPrior p) in
  _ ← assert_ (iMin <? 0xffffffff);
  '(segs, iRet, piFrame) ← next_loop (Z.to_nat (it_nSegment p)) w (it_slots p) (it_aSegment p) iMin 0xFFFFFFFF piFrame;
  Some (iRet =? 0xFFFFFFFF, mkIter (to_int iRet) (it_nSegment p) segs (it_slots p), iRet, piFrame).

(** The loop over the segments [i] to nSegment-1 *)
Fixpoint init_loop (fuel : nat) (w : Wal) (iLast nSegment i : Z) (aTmp : list Z) (p : WalIterator) : option (Z * Wal * WalIterator) :=
  match fuel with
  | O => None
  | S fuel =>
      if i <? nSegment then
        '(rc, w, iZero) ← walHashGet w i;
        if negb (rc =? SQLITE_OK) then Some (rc, w, p)
        else
          pg ← w_apWiData w !! i;
          nEntry ← cint (if i + 1 =? nSegment then to_int (u32 (iLast - iZero)) else wi_size i);
          let aIndex := iZero in
          let iZero := u32 (iZero + 1) in
          slots ← put_bytes (it_slots p) aIndex (u16 <$> seqZ 0 nEntry);
          '(slots, aTmp, nEntry) ← walMergesort (wi_aPgno pg) aTmp slots aIndex nEntry;
          segs ← aset (it_aSegment p) i (mkSeg 0 aIndex i nEntry iZero);
          init_loop fuel w iLast nSegment (i + 1) aTmp (mkIter (it_iPrior p) (it_nSegment p) segs slots)
      else Some (SQLITE_OK, w, p)
  end.

(** The two calls of sqlite3ScratchMalloc are results still to come; *pp is [None] when it is
    not set or the iterator was freed. *)
Definition walIteratorInit (d : WalDb) : option (Z * WalDb * option WalIterator) :=
  let iLast := mxFrame (d_wal d) in
  _ ← assert_ (0 <? iLast);
  iHash ← walFramePage iLast;
  let nSegment := iHash + 1 in
  let '(rc, d) := os_call d in
  if negb (rc =? SQLITE_OK) then Some (SQLITE_NOMEM, d, None)
  else
    let p := mkIter 0 nSegment (replicate (Z.to_nat nSegment) (mkSeg 0 0 0 0 0)) (replicate (Z.to_nat iLast) 0) in
    let '(rc, d) := os_call d in
    if negb (rc =? SQLITE_OK) then Some (SQLITE_NOMEM, d, None)
    else
      let aTmp := replicate (Z.to_nat (if HASHTABLE_NPAGE <? iLast then HASHTABLE_NPAGE else iLast)) 0 in
      '(rc, w, p) ← init_loop (S (Z.to_nat nSegment)) (d_wal d) iLast nSegment 0 aTmp p;
      Some (rc, set_wal d w, if rc =? SQLITE_OK then Some p else None).

(** ** Segments *)

(** The page of frame [j] + 1 *)
Definition pgof (L : list Z) (j : Z) : Z := default 0 (L !! Z.to_nat j).

(** A page number that the iterator does not take for its end *)
Definition pgno_max (p : Z) : Prop := 0 < p < 0xFFFFFFFF.

Section Iterator.
Context (w : Wal) (L : list Z) (n : Z).
Context (HW : wal_inv w L) (Hn : 0 < n <= len L) (HL : Forall pgno_max (take (Z.to_nat n) L)).

(** How many of the first [n] frames are in page [k] of the wal-index *)
Definition seg_cnt (k : Z) : Z := Z.min (wi_size k) (n - izero k).

Lemma pgof_range j : 0 <= j < n -> pgno_max (pgof L j).
Proof using HL Hn. intros Hj. unfold pgof. destruct (lookup_lt_is_Some_2 L (Z.to_nat j) ltac:(lia)) as [p Hp]. rewrite Hp. cbn. eapply (Forall_lookup_1 _ _ (Z.to_nat j)); [exact HL|]. apply lookup_take_Some. split; [done|lia]. Qed.

Lemma seg_page_key k pg x : 0 <= k -> w_apWiData w !! k = Some pg -> 0 <= x < seg_cnt k -> aget (wi_aPgno pg) x = Some (pgof L (izero k + x)) /\ key (wi_aPgno pg) x = pgof L (izero k + x).
Proof using HW Hn.
  intros Hk Hpg Hx. unfold seg_cnt in Hx. pose proof (izero_nonneg k Hk). destruct (wo_seg _ _ (wv_ok _ _ HW) k Hk ltac:(lia)) as (p & Hp & Hl & (z & Hz) & _). rewrite Hpg in Hp. injection Hp as <-.
  destruct (lookup_lt_is_Some_2 L (Z.to_nat (izero k + x)) ltac:(lia)) as [v Hv]. assert (aget (wi_aPgno pg) x = Some v) as Hag.
  { rewrite Hz. unfold aget. rewrite decide_True by lia. apply lookup_app_l_Some. rewrite slice_lookup by lia. rewrite <- Hv. f_equal. lia. }
  unfold key, pgof. rewrite Hag, Hv. done.
Qed.

(** The entries before iNext are pages up to [q]. *)
Record seg_ok (slots : list Z) (q k : Z) (s : WalSegment) (pg : WiPage) (xs : list Z) : Prop := {
  sk_page : w_apWiData w !! k = Some pg;
  sk_mapped : k ∈ w_mapped w;
  sk_aPgno : ws_aPgno s = k;
  sk_iZero : ws_iZero s = izero k + 1;
  sk_index : index_of (wi_aPgno pg) 0 (seg_cnt k) xs;
  sk_slots : bytes_at slots (ws_aIndex s) xs;
  sk_nEntry : ws_nEntry s = len xs;
  sk_iNext : 0 <= ws_iNext s <= len xs;
  sk_done : forall x, x ∈ take (Z.to_nat (ws_iNext s)) xs -> key (wi_aPgno pg) x <= q }.

Lemma seg_ok_mono slots q q' k s pg xs : q <= q' -> seg_ok slots q k s pg xs -> seg_ok slots q' k s pg xs.
Proof using Hn. intros Hq [H1 H1m H2 H3 H4 H5 H6 H7 H8]. split; try done. intros x Hx%H8. lia. Qed.

Lemma seg_page_ok slots q k s pg xs : 0 <= k -> seg_ok slots q k s pg xs -> ws_iNext s < ws_nEntry s ->
  exists x, xs !! Z.to_nat (ws_iNext s) = Some x /\ x ∈ xs /\ 0 <= x < seg_cnt k /\ seg_page w slots s (ws_iNext s) = Some (key (wi_aPgno pg) x, x).
Proof using HW Hn.
  intros Hk [H1 H1m H2 H3 H4 H5 H6 H7 H8] Hlt. destruct (lookup_lt_is_Some_2 xs (Z.to_nat (ws_iNext s)) ltac:(lia)) as [x Hx]. pose proof (list_elem_of_lookup_2 _ _ _ Hx) as Hin. pose proof (io_range _ _ _ _ H4 x Hin) as Hr. exists x. split; [done|]. split; [done|]. split; [done|].
  unfold seg_page. rewrite H5 by lia. assert (aget xs (ws_iNext s) = Some x) as -> by (unfold aget; by rewrite decide_True by lia). rewrite H2, H1. cbn [mbind option_bind]. destruct (seg_page_key k pg x Hk H1 Hr) as [-> ->]. done.
Qed.

(** The first entry above [q], if there is one *)
Definition first_above (c : list Z) (q : Z) (xs : list Z) (x : Z) : Prop := x ∈ xs /\ q < key c x /\ forall y, y ∈ xs -> q < key c y -> key c x <= key c y.

Lemma seg_loop_spec slots q k pg xs iRet fr : 0 <= k -> izero k + wi_size k < 2 ^ 32 -> forall fuel s, seg_ok slots q k s pg xs -> ws_nEntry s - ws_iNext s < Z.of_nat fuel ->
  exists s' iRet' fr', seg_loop fuel w slots s q iRet fr = Some (s', iRet', fr') /\ seg_ok slots q k s' pg xs /\
    ((forall x, x ∈ xs -> key (wi_aPgno pg) x <= q) /\ iRet' = iRet /\ fr' = fr \/
     exists x, first_above (wi_aPgno pg) q xs x /\ (iRet', fr') = if key (wi_aPgno pg) x <? iRet then (key (wi_aPgno pg) x, izero k + 1 + x) else (iRet, fr)).
Proof using HW Hn.
  intros Hk Hmax. induction fuel as [|fuel IH]; intros s Hs Hf; [destruct Hs; lia|]. cbn [seg_loop]. pose proof Hs as [H1 H1m H2 H3 H4 H5 H6 H7 H8]. destruct (Z.ltb_spec (ws_iNext s) (ws_nEntry s)) as [Hlt|Hge].
  - destruct (seg_page_ok slots q k s pg xs Hk Hs Hlt) as (x & Hx & Hin & Hr & ->). cbn [mbind option_bind]. destruct (Z.ltb_spec q (key (wi_aPgno pg) x)) as [Hgt|Hle].
    + assert (first_above (wi_aPgno pg) q xs x) as Hfa.
      { split; [done|]. split; [done|]. intros y Hy Hqy. rewrite <- (take_drop (Z.to_nat (ws_iNext s)) xs) in Hy. apply elem_of_app in Hy as [Hy%H8|Hy]; [lia|]. pose proof (io_sorted _ _ _ _ H4) as Hsrt. rewrite <- (take_drop (Z.to_nat (ws_iNext s)) xs) in Hsrt.
        apply StronglySorted_app_1_r in Hsrt. rewrite (drop_S _ _ _ Hx) in Hsrt, Hy. apply StronglySorted_cons in Hsrt as [Hf' _]. rewrite Forall_forall in Hf'. apply elem_of_cons in Hy as [->|Hy]; [lia|]. specialize (Hf' y Hy). cbn in Hf'. lia. }
      unfold seg_cnt in Hr. pose proof (izero_nonneg k Hk). exists s. rewrite H3, u32_id by lia. destruct (key (wi_aPgno pg) x <? iRet) eqn:Hlt'; eexists _, _; (split; [done|]); (split; [done|]); right; exists x; rewrite Hlt'; done.
    + apply IH; [|cbn; lia]. split; cbn [ws_iNext ws_aIndex ws_aPgno ws_nEntry ws_iZero]; try done; [lia|]. intros y Hy. replace (Z.to_nat (ws_iNext s + 1)) with (S (Z.to_nat (ws_iNext s))) in Hy by lia. rewrite (take_S_r _ _ _ Hx) in Hy.
      apply elem_of_app in Hy as [Hy%H8| ->%list_elem_of_singleton]; [done|lia].
  - exists s, iRet, fr. split; [done|]. split; [done|]. left. split; [|done]. intros x Hx. apply H8. rewrite take_ge by lia. done.
Qed.

(** ** The smallest page *)

(** Among the frames after [lo], [iRet] is the smallest page above [q] and [fr] its last frame. *)
Definition best (q lo iRet fr : Z) : Prop :=
  (forall j, lo <= j < n -> q < pgof L j -> iRet <= pgof L j /\ (pgof L j = iRet -> j + 1 <= fr)) /\ (iRet = 0xFFFFFFFF \/ q < iRet /\ exists j, lo <= j < n /\ pgof L j = iRet /\ fr = j + 1).

Lemma best_seg q k slots s pg xs iRet fr iRet' fr' : 0 <= k -> seg_ok slots q k s pg xs -> izero k < n -> best q (Z.min n (izero (k + 1))) iRet fr ->
  ((forall x, x ∈ xs -> key (wi_aPgno pg) x <= q) /\ iRet' = iRet /\ fr' = fr \/
   exists x, first_above (wi_aPgno pg) q xs x /\ (iRet', fr') = if key (wi_aPgno pg) x <? iRet then (key (wi_aPgno pg) x, izero k + 1 + x) else (iRet, fr)) -> best q (izero k) iRet' fr'.
Proof using HW HL Hn.
  intros Hk Hs Hlt [Hb1 Hb2] Hres. pose proof (izero_nonneg k Hk). pose proof (izero_next k Hk) as Hnx. pose proof (wi_size_range k). destruct Hs as [H1 _ _ _ H4 _ _ _ _].
  assert (forall j, izero k <= j < Z.min n (izero (k + 1)) -> exists y, y ∈ xs /\ j <= izero k + y /\ key (wi_aPgno pg) y = pgof L j /\ 0 <= y < seg_cnt k) as Hrep.
  { intros j Hj. destruct (io_all _ _ _ _ H4 (j - izero k)) as (y & Hy & Hjy & Hky); [unfold seg_cnt; lia|]. exists y. split; [done|]. split; [lia|]. split; [|by apply (io_range _ _ _ _ H4)]. rewrite Hky. destruct (seg_page_key k pg (j - izero k) Hk H1) as [_ ->]; [unfold seg_cnt; lia|]. f_equal. lia. }
  destruct Hres as [(Hall & -> & ->)|(x & (Hx & Hqx & Hmin) & Heq)].
  - split; [|destruct Hb2 as [|(? & j & ? & ?)]; [by left|right; split; [done|]; exists j; split; [lia|done]]]. intros j Hj Hqj. destruct (decide (j < Z.min n (izero (k + 1)))); [|apply Hb1; [lia|done]]. destruct (Hrep j ltac:(lia)) as (y & Hy & _ & Hky & _). specialize (Hall y Hy). lia.
  - pose proof (io_range _ _ _ _ H4 x Hx) as Hxr. destruct (seg_page_key k pg x Hk H1 Hxr) as [_ Hkx]. unfold seg_cnt in Hxr. destruct (Z.ltb_spec (key (wi_aPgno pg) x) iRet) as [Hlt'|Hge]; injection Heq as -> ->; split.
    + intros j Hj Hqj. destruct (decide (j < Z.min n (izero (k + 1)))); [|destruct (Hb1 j ltac:(lia) Hqj); split; lia]. destruct (Hrep j ltac:(lia)) as (y & Hy & Hjy & Hky & _). pose proof (Hmin y Hy ltac:(lia)). split; [lia|]. intros He.
      assert (x = y) as -> by (apply (ascending_inj (wi_aPgno pg) xs); [apply H4|done|done|lia]). lia.
    + right. split; [done|]. exists (izero k + x). split; [lia|]. split; [by rewrite Hkx|lia].
    + intros j Hj Hqj. destruct (decide (j < Z.min n (izero (k + 1)))); [|by apply Hb1; [lia|]]. destruct (Hrep j ltac:(lia)) as (y & Hy & Hjy & Hky & _). pose proof (Hmin y Hy ltac:(lia)). split; [lia|]. intros He. pose proof (pgof_range j ltac:(lia)) as [_ ?].
      destruct Hb2 as [|(_ & j' & ? & ? & ->)]; lia.
    + destruct Hb2 as [|(? & j & ? & ?)]; [by left|right; split; [done|]; exists j; split; [lia|done]].
Qed.

(** ** The iterator *)

(** It has returned the pages up to [q]. *)
Record iter_ok (p : WalIterator) (q : Z) : Prop := {
  ik_last : frame_seg n (it_nSegment p - 1);
  ik_len : len (it_aSegment p) = it_nSegment p;
  ik_seg : forall k, 0 <= k < it_nSegment p -> exists s pg xs, aget (it_aSegment p) k = Some s /\ seg_ok (it_slots p) q k s pg xs;
  ik_prior : u32 (it_iPrior p) = q }.

Definition segs_ok (slots : list Z) (q K : Z) (segs : list WalSegment) : Prop := len segs = K /\ forall k, 0 <= k < K -> exists s pg xs, aget segs k = Some s /\ seg_ok slots q k s pg xs.

Lemma next_loop_spec slots q K : frame_seg n (K - 1) -> forall m segs iRet fr, segs_ok slots q K segs -> Z.of_nat m <= K -> best q (Z.min n (izero (Z.of_nat m))) iRet fr ->
  exists segs' iRet' fr', next_loop m w slots segs q iRet fr = Some (segs', iRet', fr') /\ segs_ok slots q K segs' /\ best q 0 iRet' fr'.
Proof using HW HL Hn.
  intros [HK Hz]. induction m as [|m IH]; intros segs iRet fr Hs Hm Hb; [change (izero (Z.of_nat 0)) with 0 in Hb; rewrite Z.min_r in Hb by lia; by exists segs, iRet, fr|]. cbn [next_loop]. destruct Hs as [Hl Hs]. destruct (Hs (Z.of_nat m) ltac:(lia)) as (s & pg & xs & Hag & Hok).
  unfold aget in Hag. rewrite decide_True, Nat2Z.id in Hag by lia. rewrite Hag. cbn [mbind option_bind]. pose proof (izero_mono (Z.of_nat m) (K - 1) ltac:(lia)) as Hzm. pose proof (izero_nonneg (Z.of_nat m) ltac:(lia)). pose proof (wi_size_range (Z.of_nat m)). pose proof (wo_len _ _ (wv_ok _ _ HW)).
  destruct (seg_loop_spec slots q (Z.of_nat m) pg xs iRet fr ltac:(lia) ltac:(lia) (S (Z.to_nat (ws_nEntry s - ws_iNext s))) s Hok ltac:(lia)) as (s' & iRet' & fr' & -> & Hok' & Hres). cbn [mbind option_bind]. apply IH; [|lia|].
  - split; [by rewrite length_insert|]. intros k Hk. destruct (decide (k = Z.of_nat m)) as [->|Hne].
    + exists s', pg, xs. split; [|done]. unfold aget. rewrite decide_True, Nat2Z.id by lia. apply list_lookup_insert_eq. lia.
    + destruct (Hs k Hk) as (s0 & pg0 & xs0 & Ha0 & Hk0). exists s0, pg0, xs0. split; [|done]. unfold aget in *. rewrite decide_True in * by lia. rewrite list_lookup_insert_ne by lia. done.
  - rewrite Z.min_r by lia. eapply (best_seg q (Z.of_nat m)); [lia|exact Hok|lia| |exact Hres]. replace (Z.of_nat m + 1) with (Z.of_nat (S m)) by lia. done.
Qed.

(** The smallest page above [q] with its last frame, or the end *)
Definition next_page (q : Z) (e : bool) (pg fr : Z) : Prop :=
  if e then forall x, x ∈ take (Z.to_nat n) L -> x <= q
  else q < pg < 0xFFFFFFFF /\ pg ∈ take (Z.to_nat n) L /\ (forall x, x ∈ take (Z.to_nat n) L -> q < x -> pg <= x) /\ fr = last_frame (take (Z.to_nat n) L) pg.

Lemma take_pgof x : x ∈ take (Z.to_nat n) L -> exists j, 0 <= j < n /\ pgof L j = x.
Proof using Hn. intros [i [Hi Hlt]%lookup_take_Some]%list_elem_of_lookup. exists (Z.of_nat i). split; [lia|]. unfold pgof. by rewrite Nat2Z.id, Hi. Qed.

Lemma pgof_take j : 0 <= j < n -> L !! Z.to_nat j = Some (pgof L j) /\ pgof L j ∈ take (Z.to_nat n) L.
Proof using Hn.
  intros Hj. unfold pgof. destruct (lookup_lt_is_Some_2 L (Z.to_nat j) ltac:(lia)) as [v Hv]. rewrite Hv. split; [done|]. apply list_elem_of_lookup. exists (Z.to_nat j). apply lookup_take_Some. split; [done|lia].
Qed.

Lemma best_next q iRet fr : best q 0 iRet fr -> next_page q (iRet =? 0xFFFFFFFF) iRet fr.
Proof using HL Hn.
  intros [Hb1 Hb2]. unfold next_page. destruct (Z.eqb_spec iRet 0xFFFFFFFF) as [->|Hne].
  - intros x (j & Hj & <-)%take_pgof. pose proof (pgof_range j ltac:(lia)) as [_ ?]. destruct (decide (q < pgof L j)) as [Hq|]; [|lia]. destruct (Hb1 j Hj Hq). lia.
  - destruct Hb2 as [|(Hq & j & Hj & <- & ->)]; [done|]. pose proof (pgof_range j ltac:(lia)) as [_ Hmax]. destruct (pgof_take j Hj) as [Hjl Hin]. split; [done|]. split; [done|]. split.
    + intros x (i & Hi & <-)%take_pgof Hqi. by apply Hb1.
    + rewrite <- (Z2Nat.id n) in Hb1 by lia. apply is_last_take; [lia|lia|]. split.
      * intros i Hi Hle. assert (pgof L (Z.of_nat i) = pgof L j) as He by (unfold pgof at 1; by rewrite Nat2Z.id, Hi). apply (Hb1 (Z.of_nat i)); [lia|lia|done].
      * right. split; [lia|]. exists (Z.to_nat j). split; [done|lia].
Qed.

Lemma walIteratorNext_spec p q fr : iter_ok p q -> q < 0xFFFFFFFF ->
  exists e p' pg fr', walIteratorNext w p fr = Some (e, p', pg, fr') /\ next_page q e pg fr' /\ (e = false -> iter_ok p' pg).
Proof using HW HL Hn.
  intros [Hk Hl Hs Hq] Hmax. unfold walIteratorNext. rewrite Hq, (proj2 (Z.ltb_lt q _)) by done. cbn [assert_ mbind option_bind]. destruct (next_loop_spec (it_slots p) q (it_nSegment p) Hk (Z.to_nat (it_nSegment p)) (it_aSegment p) 0xFFFFFFFF fr) as (segs & iRet & fr' & -> & [Hl' Hs'] & Hb).
  { by split. }
  { destruct Hk; lia. }
  { split; [|by left]. intros j Hj. rewrite Z2Nat.id in Hj by (destruct Hk; lia). destruct Hk as [_ Hk]. replace (it_nSegment p - 1 + 1) with (it_nSegment p) in Hk by lia. lia. }
  cbn [mbind option_bind]. eexists _, _, _, _. split; [done|]. pose proof (best_next q iRet fr' Hb) as Hnp. split; [done|]. intros He. rewrite He in Hnp. destruct Hnp as (Hr & _). split; [done|done| |].
  - cbn [it_nSegment it_aSegment it_slots]. intros k Hk'. destruct (Hs' k Hk') as (s & pg & xs & Ha & Hok). exists s, pg, xs. split; [done|]. eapply seg_ok_mono; [|exact Hok]. lia.
  - cbn [it_iPrior]. assert (0 <= q) by (rewrite <- Hq; apply Z.mod_pos_bound; lia). unfold to_int, u32. rewrite Zminus_mod_idemp_l. replace (iRet + 2 ^ 31 - 2 ^ 31) with iRet by lia. apply Z.mod_small. lia.
Qed.

Lemma iter_mapped p q f : iter_ok p q -> 0 < f <= n -> mapped_at w f.
Proof using HW Hn.
  intros [[Hk Hz] Hl Hs _] Hf k Hk'. pose proof (wo_len _ _ (wv_ok _ _ HW)). destruct (walFramePage_seg f ltac:(lia)) as (k' & Hk2 & Hk0 & Hz'). rewrite Hk' in Hk2. injection Hk2 as <-. destruct (Hs k) as (s & pg & xs & _ & Hok); [|apply Hok].
  split; [lia|]. destruct (decide (k < it_nSegment p)); [done|]. pose proof (izero_mono (it_nSegment p - 1 + 1) k ltac:(lia)). lia.
Qed.
End Iterator.

(** ** Building the iterator *)

Lemma walHashGet_keeps w k rc w' z : walHashGet w k = Some (rc, w', z) -> w_apWiData w ⊆ w_apWiData w'.
Proof.
  unfold walHashGet, walIndexPage. destruct (decide (k ∈ w_mapped w)) as [Hin|Hout].
  - intros H. cbn in H. injection H as <- <- _. done.
  - destruct (match w_map w with [] => (SQLITE_OK, []) | rc :: rest => (rc, rest) end) as [rc0 rest]. destruct (Z.eqb_spec rc0 SQLITE_OK) as [->|Hne]; cbn [Z.eqb SQLITE_OK orb assert_ mbind option_bind].
    + intros H. injection H as <- <- _. cbn. destruct (w_apWiData w !! k) eqn:Hk; [done|]. by apply insert_subseteq.
    + rewrite (proj2 (Z.eqb_neq rc0 _)) by done. cbn [orb]. destruct (0 <? k); [|done]. intros H. cbn in H. injection H as <- <- _. done.
Qed.

Lemma seg_ok_keeps w w' n slots slots' q k s pg xs : seg_ok w n slots q k s pg xs -> w_apWiData w ⊆ w_apWiData w' -> w_mapped w ⊆ w_mapped w' -> bytes_at slots' (ws_aIndex s) xs -> seg_ok w' n slots' q k s pg xs.
Proof. intros [H1 H1m H2 H3 H4 H5 H6 H7 H8] Hsub Hmp Hb. split; try done; [by eapply lookup_weaken|by apply Hmp]. Qed.

(** The segments before [i] are sorted. *)
Record init_ok (w : Wal) (L : list Z) (n K i : Z) (aTmp : list Z) (p : WalIterator) : Prop := {
  in_inv : wal_inv w L;
  in_iter : it_iPrior p = 0 /\ it_nSegment p = K /\ len (it_aSegment p) = K /\ len (it_slots p) = n;
  in_tmp : Z.min n HASHTABLE_NPAGE <= len aTmp;
  in_seg : forall k, 0 <= k < i -> exists s pg xs, aget (it_aSegment p) k = Some s /\ ws_aIndex s = izero k /\ seg_ok w n (it_slots p) 0 k s pg xs }.

Lemma seq_slots cnt j : 0 <= j < cnt -> cnt <= 4096 -> aget (u16 <$> seqZ 0 cnt) j = Some j.
Proof.
  intros Hj Hc. unfold aget. rewrite decide_True by lia. rewrite list_lookup_fmap, lookup_seqZ_lt by lia. cbn. unfold u16. rewrite Z.mod_small by lia. f_equal. lia.
Qed.

Lemma init_entries n K i : frame_seg n (K - 1) -> 0 <= i < K -> 0 < n < 2 ^ 30 ->
  cint (if i + 1 =? K then to_int (u32 (n - izero i)) else wi_size i) = Some (seg_cnt n i) /\ 0 < seg_cnt n i <= wi_size i /\ izero i + seg_cnt n i <= n /\ izero i < n.
Proof.
  intros [HK Hz] Hi Hn. replace (K - 1 + 1) with K in Hz by lia. pose proof (izero_nonneg i ltac:(lia)). pose proof (izero_next i ltac:(lia)) as Hnx. pose proof (wi_size_range i). unfold seg_cnt. destruct (Z.eqb_spec (i + 1) K) as [<-|Hne].
  - replace (i + 1 - 1) with i in Hz by lia. rewrite u32_id by lia. unfold to_int. rewrite Z.mod_small by lia. rewrite cint_ok by (unfold int_min, int_max; lia). split; [f_equal|]; lia.
  - pose proof (izero_mono (i + 1) (K - 1) ltac:(lia)). rewrite cint_ok by (unfold int_min, int_max; lia). split; [f_equal|]; lia.
Qed.

Lemma init_loop_spec L n K : frame_seg n (K - 1) -> 0 < n <= len L -> forall fuel w i aTmp p, init_ok w L n K i aTmp p -> 0 <= i <= K -> K - i < Z.of_nat fuel ->
  exists rc w' p', init_loop fuel w n K i aTmp p = Some (rc, w', p') /\ wal_inv w' L /\ same_wal w w' /\ w_apWiData w ⊆ w_apWiData w' /\ (rc = SQLITE_OK -> iter_ok w' n p' 0) /\ (rc <> SQLITE_OK -> rc ∈ w_map w).
Proof.
  intros HK Hn. induction fuel as [|fuel IH]; intros w i aTmp p [HW (Hpr & Hns & Hls & Hsl) Htmp Hseg] Hi Hf; [lia|]. pose proof (wo_len _ _ (wv_ok _ _ HW)) as Hlen. cbn [init_loop]. destruct (Z.ltb_spec i K) as [Hlt|Hge].
  2: { exists SQLITE_OK, w, p. split; [done|]. split; [done|]. split; [apply same_wal_refl|]. split; [done|]. split; [intros _|done]. assert (i = K) as -> by lia. split; [by rewrite Hns|congruence| |by rewrite Hpr].
       intros k Hk. rewrite Hns in Hk. destruct (Hseg k Hk) as (s & pg & xs & Ha & _ & Hok). eauto. }
  destruct (init_entries n K i HK ltac:(lia) ltac:(lia)) as (Hcnt & Hc0 & Hcn & Hiz). pose proof (izero_nonneg i ltac:(lia)) as Hi0. pose proof (wi_size_range i).
  destruct (walHashGet w i) as [[[rc1 w1] z1]|] eqn:Hhg; destruct (walHashGet_spec w L i HW ltac:(destruct HK; lia)) as (rc & w2 & Heq & HW1 & Hs1 & Hmp & Hbad & _); rewrite Hhg in Heq; [|done]. injection Heq as -> -> ->. pose proof (walHashGet_keeps _ _ _ _ _ Hhg) as Hkeep. rename w2 into w1. cbn [mbind option_bind].
  destruct (Z.eqb_spec rc SQLITE_OK) as [->|Hrc]; cbn [negb].
  2: { exists rc, w1, p. split; [done|]. split; [done|]. split; [done|]. split; [done|]. split; [done|]. intros _. destruct (Hbad Hrc) as [r ->]. apply elem_of_cons. by left. }
  destruct (wo_seg _ _ (wv_ok _ _ HW1) i ltac:(lia) ltac:(lia)) as (pg & Hpg & Hpl & _). rewrite Hpg. cbn [mbind option_bind]. rewrite Hcnt. cbn [mbind option_bind]. set (cnt := seg_cnt n i) in *. rewrite u32_id by lia.
  assert (len (u16 <$> seqZ 0 cnt) = cnt) as Hlq by (rewrite length_fmap, length_seqZ; lia). destruct (put_bytes_upd (it_slots p) (izero i) (u16 <$> seqZ 0 cnt)) as (slots1 & -> & Hu1 & Hb1); [lia|lia|]. cbn [mbind option_bind]. rewrite Hlq in Hu1.
  assert (cnt <= len aTmp) as Hct by (change HASHTABLE_NPAGE with 4096 in Htmp; lia).
  destruct (walMergesort_spec (wi_aPgno pg) slots1 (izero i) aTmp cnt Hi0) as (slots2 & tmp2 & nE & -> & (xs & Hix & Hbx & ->) & Hu2 & Hl2); [change HASHTABLE_NPAGE with 4096; lia|lia|rewrite (proj1 Hu1); lia|done| |].
  { intros j Hj. rewrite Hb1 by lia. apply seq_slots; lia. }
  cbn [mbind option_bind]. rewrite aset_is_Some by lia. cbn [mbind option_bind]. rewrite Z.add_0_r in Hbx.
  destruct (IH w1 (i + 1) tmp2 (mkIter (it_iPrior p) (it_nSegment p) (<[Z.to_nat i := mkSeg 0 (izero i) i (len xs) (izero i + 1)]> (it_aSegment p)) slots2)) as (rc & w2 & p2 & Heq & HW2 & Hs2 & Hk2 & Hok2 & Hbad2); [|lia|lia|].
  - split; cbn [it_iPrior it_nSegment it_aSegment it_slots]; [done| |lia|].
    + rewrite length_insert, (proj1 Hu2), (proj1 Hu1). done.
    + intros k Hk. destruct (decide (k = i)) as [->|Hne].
      * exists (mkSeg 0 (izero i) i (len xs) (izero i + 1)), pg, xs. split; [unfold aget; rewrite decide_True by lia; apply list_lookup_insert_eq; lia|]. split; [done|]. split; cbn; try done; try lia; [by apply Hmp|]. intros x Hx. by apply not_elem_of_nil in Hx.
      * destruct (Hseg k ltac:(lia)) as (s & pg' & xs' & Ha & Hai & Hok). exists s, pg', xs'. split; [unfold aget in *; rewrite decide_True in * by lia; rewrite list_lookup_insert_ne by lia; done|]. split; [done|]. eapply seg_ok_keeps; [exact Hok|done|by destruct Hs1 as (_ & _ & _ & _ & _ & _ & ? & _)|].
        pose proof (ascending_length _ _ _ _ (sk_index _ _ _ _ _ _ _ _ Hok)) as Hal. pose proof (izero_next k ltac:(lia)). pose proof (izero_mono (k + 1) i ltac:(lia)). unfold seg_cnt in Hal. pose proof (wi_size_range k). rewrite Hai.
        eapply bytes_at_upd; [exact Hu2|left; lia|]. eapply bytes_at_upd; [exact Hu1|left; lia|]. rewrite <- Hai. apply Hok.
  - exists rc, w2, p2. split; [done|]. split; [done|]. split; [by eapply same_wal_trans|]. split; [by etransitivity|]. split; [done|]. intros Hrc. destruct Hs1 as (_ & _ & _ & _ & _ & _ & _ & [r ->]). apply elem_of_app. right. by apply Hbad2.
Qed.

(** The codes that walIteratorInit can return *)
Definition init_fail (d : WalDb) (rc : Z) : Prop := rc = SQLITE_NOMEM \/ rc ∈ w_map (d_wal d).

Lemma walIteratorInit_spec d L n : wal_inv (d_wal d) L -> mxFrame (d_wal d) = n -> 0 < n <= len L ->
  exists rc d' p, walIteratorInit d = Some (rc, d', p) /\ wal_inv (d_wal d') L /\ same_wal (d_wal d) (d_wal d') /\ w_apWiData (d_wal d) ⊆ w_apWiData (d_wal d') /\ (exists io, d' = set_wal (set_io d io) (d_wal d') /\ io `suffix_of` d_io d) /\
    (rc = SQLITE_OK -> exists it, p = Some it /\ iter_ok (d_wal d') n it 0) /\ (rc <> SQLITE_OK -> init_fail d rc).
Proof.
  intros HW Hm Hn. pose proof (wo_len _ _ (wv_ok _ _ HW)) as Hlen. unfold walIteratorInit. rewrite Hm, (proj2 (Z.ltb_lt 0 n)) by lia. cbn [assert_ mbind option_bind]. destruct (walFramePage_seg n ltac:(lia)) as (k & -> & Hk). cbn [mbind option_bind].
  destruct (os_call_spec d) as (rc & io & -> & Hio & Hbad). destruct (Z.eqb_spec rc SQLITE_OK) as [->|Hrc]; cbn [negb].
  2: { eexists _, _, _. split; [done|]. split; [done|]. split; [apply same_wal_refl|]. split; [done|]. split; [exists io; split; [by destruct d|done]|]. split; [done|]. intros _. by left. }
  destruct (os_call_spec (set_io d io)) as (rc & io2 & -> & Hio2 & Hbad2). assert (io2 `suffix_of` d_io d) as Hio3 by (by etransitivity). destruct (Z.eqb_spec rc SQLITE_OK) as [->|Hrc]; cbn [negb].
  2: { eexists _, _, _. split; [done|]. split; [done|]. split; [apply same_wal_refl|]. split; [done|]. split; [exists io2; split; [by destruct d|done]|]. split; [done|]. intros _. by left. }
  pose proof Hk as [Hk0 _]. match goal with |- context [init_loop ?f ?w0 ?n0 ?K ?i ?t ?p] => destruct (init_loop_spec L n K ltac:(by replace (k + 1 - 1) with k by lia) Hn f w0 i t p) as (rc & w1 & p1 & -> & HW' & Hs & Hsub & Hok & Hbad') end; [|lia|lia|].
  { split; [done|cbn; rewrite !length_replicate; split_and!; [done|done|lia|lia]| |].
    - rewrite length_replicate. destruct (Z.ltb_spec HASHTABLE_NPAGE n); lia.
    - intros j Hj. lia. }
  cbn [mbind option_bind]. eexists _, _, _. split; [done|]. split; [done|]. split; [done|]. split; [done|]. split; [exists io2; split; [by destruct d|done]|]. split; [|intros Hrc; right; by apply Hbad']. intros ->. exists p1. split; [done|]. by apply Hok.
Qed.

(** ** Every page once *)

(** Calls of walIteratorNext up to the end *)
Fixpoint iterate (fuel : nat) (w : Wal) (p : WalIterator) (piFrame : Z) : option (list (Z * Z)) :=
  match fuel with
  | O => None
  | S fuel =>
      '(e, p, piPage, piFrame) ← walIteratorNext w p piFrame;
      if e : bool then Some [] else l ← iterate fuel w p piFrame; Some ((piPage, piFrame) :: l)
  end.

Lemma filter_less q pg (l : list Z) : q < pg -> pg ∈ l -> (length (filter (fun x => pg < x)%Z l) < length (filter (fun x => q < x)%Z l))%nat.
Proof.
  intros Hq. assert (forall l, (length (filter (fun x => pg < x)%Z l) <= length (filter (fun x => q < x)%Z l))%nat) as Hle. { clear l. induction l as [|x l IH]; [done|]. rewrite !filter_cons. repeat case_decide; cbn [length]; lia. }
  induction l as [|x l IH]; [by intros ?%not_elem_of_nil|]. intros [->|Hin]%elem_of_cons; rewrite !filter_cons.
  - rewrite decide_False, decide_True by lia. cbn [length]. specialize (Hle l). lia.
  - specialize (IH Hin). repeat case_decide; cbn [length]; lia.
Qed.

Lemma iterate_spec w L n : wal_inv w L -> 0 < n <= len L -> Forall pgno_max (take (Z.to_nat n) L) -> forall fuel p q fr, iter_ok w n p q -> 0 <= q < 0xFFFFFFFF -> (length (filter (fun x => q < x)%Z (take (Z.to_nat n) L)) < fuel)%nat ->
  exists l, iterate fuel w p fr = Some l /\ StronglySorted Z.lt (map fst l) /\ forall pg f, (pg, f) ∈ l <-> q < pg /\ pg ∈ take (Z.to_nat n) L /\ f = last_frame (take (Z.to_nat n) L) pg.
Proof.
  intros HW Hn HL. induction fuel as [|fuel IH]; intros p q fr Hit Hq Hf; [lia|]. cbn [iterate]. destruct (walIteratorNext_spec w L n HW Hn HL p q fr Hit ltac:(lia)) as (e & p' & pg & fr' & -> & Hnp & Hit'). cbn [mbind option_bind]. destruct e.
  - exists []. split; [done|]. split; [constructor|]. intros pg' f. split; [by intros ?%not_elem_of_nil|]. intros (Hlt & Hin & _). specialize (Hnp _ Hin). lia.
  - destruct Hnp as (Hr & Hin & Hmin & ->). pose proof (filter_less q pg _ ltac:(lia) Hin) as Hless. destruct (IH p' pg (last_frame (take (Z.to_nat n) L) pg) (Hit' eq_refl) ltac:(lia) ltac:(lia)) as (l & -> & Hs & Hl). cbn [mbind option_bind]. eexists. split; [done|]. split.
    + cbn [map fst]. constructor; [done|]. apply Forall_forall. intros x ([y f] & -> & Hy)%list_elem_of_fmap. apply Hl in Hy as [? _]. done.
    + intros y f. rewrite elem_of_cons, Hl. split.
      * intros [Heq|(? & ? & ?)]; [injection Heq as -> ->; split_and!; [lia|done|done]|split_and!; [lia|done|done]].
      * intros (Hlt & Hy & ->). destruct (decide (y = pg)) as [->|Hne]; [by left|]. right. specialize (Hmin y Hy Hlt). split_and!; [lia|done|done].
Qed.

(** C22. A checkpoint visits every page of the log once, in ascending order, with the last of the first
    mxFrame frames that holds it: walIteratorInit, which merge-sorts every block of the wal-index, and
    walIteratorNext until it returns 1 give just these pages, and at most mxFrame calls return a
    page; walIteratorInit fails only for want of memory or when the wal-index cannot be mapped. *)
Theorem wal_iterator_visits d L n : wal_inv (d_wal d) L -> mxFrame (d_wal d) = n -> 0 < n <= len L -> Forall pgno_max (take (Z.to_nat n) L) ->
  exists rc d' p, walIteratorInit d = Some (rc, d', p) /\ (rc <> SQLITE_OK -> init_fail d rc) /\
    (rc = SQLITE_OK -> exists it l, p = Some it /\ iterate (S (Z.to_nat n)) (d_wal d') it 0 = Some l /\ StronglySorted Z.lt (map fst l) /\
      forall pg f, (pg, f) ∈ l <-> pg ∈ take (Z.to_nat n) L /\ f = last_frame (take (Z.to_nat n) L) pg).
Proof.
  intros HW Hm Hn HL. destruct (walIteratorInit_spec d L n HW Hm Hn) as (rc & d' & p & -> & HW' & _ & _ & _ & Hok & Hbad). exists rc, d', p. split; [done|]. split; [done|]. intros Hrc. destruct (Hok Hrc) as (it & -> & Hit). destruct (iterate_spec (d_wal d') L n HW' Hn HL (S (Z.to_nat n)) it 0 0 Hit ltac:(lia)) as (l & Hl & Hs & Hin).
  - apply Nat.lt_succ_r. etransitivity; [apply length_filter|]. rewrite length_take. lia.
  - exists it, l. split; [done|]. split; [done|]. split; [done|]. intros pg f. rewrite Hin. split; [tauto|]. intros [Hpg ->]. split_and!; [|done|done]. rewrite Forall_forall in HL. by apply HL.
Qed.

(** A log whose frames hold pages 3, 2 and 3 *)
Definition ex_op3 : wal_op := OpFrames 512 [3; 2; 3] 0 3 true.
Definition ex_w3 : Wal := default wal0 (snd <$> wal_exec wal0 ex_op3).

Lemma ex_w3_rel : wal_rel ex_w3 (mkLog [3; 2; 3] []) /\ mxFrame ex_w3 = 3.
Proof.
  assert (op_ok wal0 (mkLog [] []) ex_op3) as Hok by (by split_and!; [|repeat constructor|..]). assert (wal_exec wal0 ex_op3 = Some (SQLITE_OK, ex_w3)) as Hex by (vm_compute; done). split; [|vm_compute; done].
  destruct (exec_refines wal0 _ ex_op3 wal0_rel Hok) as (rc & w & Heq & HR & _). rewrite Hex in Heq. destruct (some_pair_inj _ _ _ _ Heq) as [<- <-]. exact HR.
Qed.

Lemma wal_iterator_visits_witness : exists rc d' p, walIteratorInit (mkDb ex_w3 [] [] false []) = Some (rc, d', p) /\ (rc = SQLITE_OK -> exists it l, p = Some it /\ iterate 4 (d_wal d') it 0 = Some l /\ forall pg f, (pg, f) ∈ l <-> pg ∈ [3; 2; 3] /\ f = last_frame [3; 2; 3] pg).
Proof.
  destruct (wr_inv _ _ (proj1 ex_w3_rel)) as [junk HW]. destruct (wal_iterator_visits (mkDb ex_w3 [] [] false []) _ 3 HW (proj2 ex_w3_rel)) as (rc & d' & p & H1 & _ & H2); [cbn; lia|repeat constructor|]. exists rc, d', p. split; [exact H1|]. intros Hrc. destruct (H2 Hrc) as (it & l & A & B & _ & D). exists it, l. split; [exact A|]. split; [exact B|exact D].
Defined.
