(* ===== verification/WalCkpt.v ===== *)
(** * WalCkpt: checkpoints (wal.c)

    walCheckpoint copies the last frame of each page from the log to the database
    file, as far as the readers allow.  The database file is its bytes.  The results of the
    locks and of the busy handler are inputs, as those of the operating system are; a
    lock that another connection holds in shared mode cannot be had in exclusive mode. *)
From S2P Require Import Prelude Varint Record Page Wal WalLog WalSort WalIter UnixLock.

Definition SQLITE_CHECKPOINT_PASSIVE : Z := 0.
Definition SQLITE_CHECKPOINT_RESTART : Z := 2.
Definition SQLITE_IOERR_SHORT_READ : Z := Z.lor SQLITE_IOERR (Z.shiftl 2 8).
Definition WAL_WRITE_LOCK : Z := 0.
Definition WAL_CKPT_LOCK : Z := 1.
Definition WAL_READ_LOCK (i : Z) : Z := 3 + i.

(** exclusiveMode, and the locks that other connections hold in shared mode *)
Record LockEnv := mkLocks { e_exclusiveMode : bool; e_held : gset Z }.

(** ** Locks *)

(** The answer of the file system to sqlite3OsShmLock with SQLITE_SHM_EXCLUSIVE: an input,
    except that slots which another connection holds are not granted (what unixShmLock
    guarantees is proved in ShmLock). *)
Definition shm_lock_exclusive (e : LockEnv) (d : WalDb) (lockIdx n : Z) : Z * WalDb :=
  let '(rc, d) := os_call d in
  (if (rc =? SQLITE_OK) && existsb (fun i => bool_decide (i ∈ e_held e)) (seqZ lockIdx n) then SQLITE_BUSY else rc, d).

Definition walLockExclusive (e : LockEnv) (d : WalDb) (lockIdx n : Z) : Z * WalDb :=
  if e_exclusiveMode e then (SQLITE_OK, d) else shm_lock_exclusive e d lockIdx n.

(** The result of xBusy is one still to come. *)
Fixpoint busy_loop (fuel : nat) (e : LockEnv) (d : WalDb) (xBusy : bool) (lockIdx n : Z) : option (Z * WalDb) :=
  match fuel with
  | O => None
  | S fuel =>
      let '(rc, d) := walLockExclusive e d lockIdx n in
      if xBusy && (rc =? SQLITE_BUSY) then
        let '(again, d) := os_call d in
        if negb (again =? 0) then busy_loop fuel e d xBusy lockIdx n else Some (rc, d)
      else Some (rc, d)
  end.

Definition walBusyLock (e : LockEnv) (d : WalDb) (xBusy : bool) (lockIdx n : Z) : option (Z * WalDb) := busy_loop (S (length (d_io d))) e d xBusy lockIdx n.

(** ** The database file *)

Definition os_read (d : WalDb) (n iOffset : Z) : Z * list Z * WalDb :=
  let '(rc, d) := os_call d in
  if rc =? SQLITE_OK then match get_bytes (d_file d) iOffset n with Some b => (rc, b, d) | None => (SQLITE_IOERR_SHORT_READ, [], d) end else (rc, [], d).

Definition db_write (d : WalDb) (db content : list Z) (iOffset : Z) : Z * WalDb * list Z :=
  let '(rc, n, d) := next_io d in
  (rc, d, file_write db iOffset (if rc =? SQLITE_OK then content else take (Z.to_nat n) content)).

Definition db_truncate (d : WalDb) (db : list Z) (n : Z) : Z * WalDb * list Z :=
  let '(rc, d) := os_call d in
  (rc, d, if rc =? SQLITE_OK then take (Z.to_nat n) db ++ replicate (Z.to_nat n - length db) 0 else db).

(** SQLITE_FCNTL_SIZE_HINT may append zeros. *)
Definition db_hint (d : WalDb) (db : list Z) : WalDb * list Z := let '(_, n, d) := next_io d in (d, db ++ replicate (Z.to_nat n) 0).

(** Page [p] as sqlite3OsRead returns it, with zeros past the end of the file *)
Definition db_byte (db : list Z) (i : Z) : Z := default 0 (aget db i).
Definition db_page (szPage : Z) (db : list Z) (p : Z) : list Z := (fun k => db_byte db ((p - 1) * szPage + k)) <$> seqZ 0 szPage.

(** ** The checkpoint *)

Definition walPagesize (w : Wal) : Z := Z.land (h_szPage (w_hdr w)) 0xfe00 + Z.shiftl (Z.land (h_szPage (w_hdr w)) 0x0001) 16.

Definition set_mark (w : Wal) (i v : Z) : option Wal := m ← aset (ci_aReadMark (w_info w)) i v; Some (set_info w (mkInfo (ci_nBackfill (w_info w)) m)).
Definition set_nBackfill (w : Wal) (n : Z) : Wal := set_info w (mkInfo n (ci_aReadMark (w_info w))).

(** The loop over the read marks: whether it ended with goto, rc, the state, xBusy and
    mxSafeFrame *)
Fixpoint mark_loop (fuel : nat) (e : LockEnv) (d : WalDb) (i : Z) (xBusy : bool) (mxSafeFrame rc : Z) : option (bool * Z * WalDb * bool * Z) :=
  match fuel with
  | O => None
  | S fuel =>
      if i <? WAL_NREADER then
        y ← aget (ci_aReadMark (w_info (d_wal d))) i;
        if y <? mxSafeFrame then
          _ ← assert_ (y <=? mxFrame (d_wal d));
          '(rc, d) ← walBusyLock e d xBusy (WAL_READ_LOCK i) 1;
          if rc =? SQLITE_OK then
            w ← set_mark (d_wal d) i (if i =? 1 then mxSafeFrame else READMARK_NOT_USED);
            mark_loop fuel e (set_wal d w) (i + 1) xBusy mxSafeFrame rc
          else if rc =? SQLITE_BUSY then mark_loop fuel e d (i + 1) false y rc
          else Some (true, rc, d, xBusy, mxSafeFrame)
        else mark_loop fuel e d (i + 1) xBusy mxSafeFrame rc
      else Some (false, rc, d, xBusy, mxSafeFrame)
  end.

(** The loop over the pages of the log *)
Fixpoint copy_loop (fuel : nat) (d : WalDb) (db : list Z) (it : WalIterator) (szPage nBackfill mxSafeFrame mxPage iFrame : Z) : option (Z * WalDb * list Z) :=
  match fuel with
  | O => None
  | S fuel =>
      '(e, it, iDbpage, iFrame) ← walIteratorNext (d_wal d) it iFrame;
      if e : bool then Some (SQLITE_OK, d, db)
      else
        pg ← walFramePgno (d_wal d) iFrame;
        _ ← assert_ (pg =? iDbpage);
        if (iFrame <=? nBackfill) || (mxSafeFrame <? iFrame) || (mxPage <? iDbpage) then copy_loop fuel d db it szPage nBackfill mxSafeFrame mxPage iFrame
        else
          let '(rc, zBuf, d) := os_read d szPage (walFrameOffset iFrame szPage + WAL_FRAME_HDRSIZE) in
          if negb (rc =? SQLITE_OK) then Some (rc, d, db)
          else
            let '(rc, d, db) := db_write d db zBuf ((iDbpage - 1) * szPage) in
            if negb (rc =? SQLITE_OK) then Some (rc, d, db)
            else copy_loop fuel d db it szPage nBackfill mxSafeFrame mxPage iFrame
  end.

(** What is done under WAL_READ_LOCK(0) *)
Definition backfill (d : WalDb) (db : list Z) (it : WalIterator) (szPage mxSafeFrame mxPage sync_flags : Z) : option (Z * WalDb * list Z) :=
  let nBackfill := ci_nBackfill (w_info (d_wal d)) in
  let '(rc, d) := if negb (sync_flags =? 0) then os_sync d else (SQLITE_OK, d) in
  let '(rc, d, db) :=
    (if rc =? SQLITE_OK then
       let '(rc, d) := os_call d in
       if (rc =? SQLITE_OK) && (Z.of_nat (length db) <? mxPage * szPage) then let '(d, db) := db_hint d db in (rc, d, db) else (rc, d, db)
     else (rc, d, db)) in
  '(rc, d, db) ← (if rc =? SQLITE_OK then copy_loop (Z.to_nat (mxFrame (d_wal d)) + 2) d db it szPage nBackfill mxSafeFrame mxPage 0 else Some (rc, d, db));
  if rc =? SQLITE_OK then
    let '(rc, d, db) :=
      (if mxSafeFrame =? h_mxFrame (w_aHdr (d_wal d)).1 then
         let '(rc, d, db) := db_truncate d db (h_nPage (w_hdr (d_wal d)) * szPage) in
         if (rc =? SQLITE_OK) && negb (sync_flags =? 0) then let '(rc, d) := os_call d in (rc, d, db) else (rc, d, db)
       else (rc, d, db)) in
    Some (rc, if rc =? SQLITE_OK then set_wal d (set_nBackfill (d_wal d) mxSafeFrame) else d, db)
  else Some (rc, d, db).

(** The end of a blocking checkpoint *)
Definition ckpt_restart (e : LockEnv) (d : WalDb) (eMode : Z) (xBusy : bool) (mxSafeFrame rc : Z) : option (Z * WalDb) :=
  if (rc =? SQLITE_OK) && negb (eMode =? SQLITE_CHECKPOINT_PASSIVE) then
    if ci_nBackfill (w_info (d_wal d)) <? mxFrame (d_wal d) then Some (SQLITE_BUSY, d)
    else if eMode =? SQLITE_CHECKPOINT_RESTART then
      _ ← assert_ (mxSafeFrame =? mxFrame (d_wal d));
      walBusyLock e d xBusy (WAL_READ_LOCK 1) (WAL_NREADER - 1)
    else Some (rc, d)
  else Some (rc, d).

(** [xBusyCall] is whether there is a busy handler. *)
Definition walCheckpoint (e : LockEnv) (d : WalDb) (db : list Z) (eMode : Z) (xBusyCall : bool) (sync_flags : Z) : option (Z * WalDb * list Z) :=
  let szPage := walPagesize (d_wal d) in
  if mxFrame (d_wal d) <=? ci_nBackfill (w_info (d_wal d)) then Some (SQLITE_OK, d, db)
  else
    '(rc, d, pIter) ← walIteratorInit d;
    if negb (rc =? SQLITE_OK) then Some (rc, d, db)
    else
      it ← pIter;
      let xBusy := negb (eMode =? SQLITE_CHECKPOINT_PASSIVE) && xBusyCall in
      let mxPage := h_nPage (w_hdr (d_wal d)) in
      '(out, rc, d, xBusy, mxSafeFrame) ← mark_loop 5 e d 1 xBusy (mxFrame (d_wal d)) rc;
      if out : bool then Some (rc, d, db)
      else
        '(rc, d, db) ← (if ci_nBackfill (w_info (d_wal d)) <? mxSafeFrame then
                          '(rc, d) ← walBusyLock e d xBusy (WAL_READ_LOCK 0) 1;
                          if rc =? SQLITE_OK then backfill d db it szPage mxSafeFrame mxPage sync_flags else Some (rc, d, db)
                        else Some (rc, d, db));
        let rc := if rc =? SQLITE_BUSY then SQLITE_OK else rc in
        '(rc, d) ← ckpt_restart e d eMode xBusy mxSafeFrame rc;
        Some (rc, d, db).
