(* ===== verification/WalFile.v ===== *)
(** * WalFile: the pages of the database file and the frames of the log (wal.c)

    A page past the end of the database file reads as zeros.  Writing a page changes
    no other, and the frames of a log file are where walFrameOffset says. *)
From S2P Require Import Prelude Varint Record Page PageLayout Wal WalLog WalHash WalIndex WalSpec WalFrame WalRecover WalWrite WalSort WalIter WalCkpt.

(** ** Pages of the database file *)

Lemma db_byte_app db l i : 0 <= i -> Forall (eq 0) l -> db_byte (db ++ l) i = db_byte db i.
Proof.
  intros Hi Hl. unfold db_byte. destruct (decide (i < len db)) as [Hlt|Hge]; [by rewrite aget_app_l|]. replace i with (len db + (i - len db)) by lia. rewrite aget_app_r by lia.
  assert (aget db (len db + (i - len db)) = None) as -> by (unfold aget; rewrite decide_True by lia; apply lookup_ge_None; lia). unfold aget. case_decide; [|done]. destruct (l !! Z.to_nat (i - len db)) as [v|] eqn:Hv; [|done]. by rewrite <- (Forall_lookup_1 _ _ _ _ Hl Hv).
Qed.

Lemma zeros_eq n : Forall (eq 0) (replicate n 0).
Proof. by apply Forall_replicate. Qed.

Lemma db_byte_write db off l i : 0 <= off -> 0 <= i -> db_byte (file_write db off l) i = if decide (off <= i < off + len l) then db_byte l (i - off) else db_byte db i.
Proof.
  intros Ho Hi. unfold file_write. destruct l as [|x l]; [rewrite decide_False by (cbn; lia); done|]. set (xs := x :: l). set (f := db ++ replicate (Z.to_nat off - length db) 0).
  assert (off <= len f) as Hf by (unfold f; rewrite length_app, length_replicate; lia). assert (forall j, 0 <= j -> db_byte f j = db_byte db j) as Hff by (intros j Hj; apply db_byte_app; [done|apply zeros_eq]).
  assert (len (take (Z.to_nat off) f) = off) as Hlt by (rewrite length_take; lia). rewrite <- Hff by done. clearbody f xs. unfold db_byte. destruct (decide (i < off)) as [H1|H1].
  - rewrite decide_False by lia. rewrite aget_app_l by lia. unfold aget. rewrite !decide_True by lia. rewrite lookup_take_lt by lia. done.
  - replace i with (len (take (Z.to_nat off) f) + (i - off)) at 1 by lia. rewrite aget_app_r by lia. case_decide as H2.
    + by rewrite aget_app_l by lia.
    + replace (i - off) with (len xs + (i - off - len xs)) at 1 by lia. rewrite aget_app_r by lia. unfold aget. rewrite !decide_True by lia. rewrite lookup_drop. do 2 f_equal. lia.
Qed.

Section Pages.
Context (szPage : Z) (Hsz : 0 < szPage).

Lemma db_page_ext db db' p : 1 <= p -> (forall k, 0 <= k < szPage -> db_byte db' ((p - 1) * szPage + k) = db_byte db ((p - 1) * szPage + k)) -> db_page szPage db' p = db_page szPage db p.
Proof using. intros Hp H. unfold db_page. apply list_fmap_ext. intros i k Hk%lookup_seqZ. apply H. lia. Qed.

Lemma db_page_zeros db n p : 1 <= p -> db_page szPage (db ++ replicate n 0) p = db_page szPage db p.
Proof using Hsz. intros Hp. apply db_page_ext; [done|]. intros k Hk. apply db_byte_app; [nia|apply zeros_eq]. Qed.

Lemma db_page_truncate db n p : 1 <= p <= n -> db_page szPage (take (Z.to_nat (n * szPage)) db ++ replicate (Z.to_nat (n * szPage) - length db) 0) p = db_page szPage db p.
Proof using Hsz.
  intros Hp. rewrite db_page_zeros by lia. apply db_page_ext; [lia|]. intros k Hk. unfold db_byte, aget. case_decide; [|done]. rewrite lookup_take_lt; [done|]. nia.
Qed.

(** Writing at most a page at the place of page [q] *)
Lemma db_page_write_ne db q l p : 1 <= p -> 1 <= q -> p <> q -> len l <= szPage -> db_page szPage (file_write db ((q - 1) * szPage) l) p = db_page szPage db p.
Proof using Hsz. intros Hp Hq Hne Hl. apply db_page_ext; [done|]. intros k Hk. rewrite db_byte_write by nia. rewrite decide_False; [done|]. nia. Qed.

Lemma db_page_write_eq db p l : 1 <= p -> len l = szPage -> db_page szPage (file_write db ((p - 1) * szPage) l) p = l.
Proof using Hsz.
  intros Hp Hl. apply list_eq. intros i. unfold db_page. rewrite list_lookup_fmap. destruct (decide (Z.of_nat i < szPage)) as [Hi|Hi].
  - rewrite lookup_seqZ_lt by lia. cbn. rewrite db_byte_write by nia. rewrite decide_True by nia. replace ((p - 1) * szPage + (0 + Z.of_nat i) - (p - 1) * szPage) with (Z.of_nat i) by lia. unfold db_byte, aget. rewrite decide_True, Nat2Z.id by lia.
    destruct (lookup_lt_is_Some_2 l i ltac:(lia)) as [v ->]. done.
  - rewrite lookup_seqZ_ge by lia. symmetry. apply lookup_ge_None. lia.
Qed.
End Pages.

(** ** Frames of the log file *)

(** The content of frame [f] *)
Definition frame_data (fs : list frame) (f : Z) : list Z := default [] (f_data <$> fs !! Z.to_nat (f - 1)).

Lemma frame_at b szPage nCkpt salt fs rest file f : log_file b szPage nCkpt salt fs rest file -> 1 <= f <= len fs -> get_bytes file (walFrameOffset f szPage + WAL_FRAME_HDRSIZE) szPage = Some (frame_data fs f) /\ len (frame_data fs f) = szPage.
Proof.
  intros [H1 H2 H3 H4 H5 H6 H7 ->] Hf. destruct (page_size_props _ H2) as (P1 & P2 & _). destruct (lookup_lt_is_Some_2 fs (Z.to_nat (f - 1)) ltac:(lia)) as [fr Hfr]. unfold frame_data. rewrite Hfr. change (default [] (f_data <$> Some fr)) with (f_data fr). pose proof (Forall_lookup_1 _ _ _ _ H5 Hfr) as Hok. destruct Hok as (_ & _ & Hl & _). split; [|done].
  pose proof (take_drop_middle fs _ _ Hfr) as Hsp. set (fs1 := take (Z.to_nat (f - 1)) fs) in *. assert (len fs1 = f - 1) as Hl1 by (unfold fs1; rewrite length_take; lia). assert (Forall (frame_ok szPage) fs1) as Hok1 by (by apply Forall_take).
  rewrite <- Hsp. rewrite chain_app. cbn [chain_bytes]. unfold frame_bytes. set (X := chain_bytes _ _ _ _ fs1). set (Y := chain_bytes _ _ _ _ (drop _ fs)). set (h := frame_head _ _ _ _ fr). set (W := wal_hdr_bytes b szPage nCkpt salt).
  assert (len W = 32) as HW by (unfold W; rewrite wal_hdr_length; done). assert (len X = (f - 1) * (szPage + 24)) as HX by (unfold X; rewrite (chain_length _ salt szPage ltac:(lia) H4) by done; rewrite Hl1; done).
  assert (len h = 24) as Hh by (unfold h, frame_head; rewrite !length_app, H4; done). clearbody W X Y h. replace (W ++ (X ++ (h ++ f_data fr) ++ Y) ++ rest) with ((W ++ X ++ h) ++ f_data fr ++ (Y ++ rest)) by (by rewrite <- !app_assoc).
  unfold get_bytes, walFrameOffset. change WAL_HDRSIZE with 32. change WAL_FRAME_HDRSIZE with 24. assert (32 + (f - 1) * (szPage + 24) + 24 = len (W ++ X ++ h)) as Ho by (rewrite !length_app; lia). rewrite Ho, (length_app _ (f_data fr ++ _)), (length_app (f_data fr)). rewrite decide_True by lia. rewrite Nat2Z.id, drop_app_length. rewrite take_app_le, take_ge by lia. done.
Qed.

(** The page size of the wal-index header *)
Lemma walPagesize_enc w szPage : page_size szPage -> h_szPage (w_hdr w) = enc_szPage szPage -> walPagesize w = szPage.
Proof.
  intros (k & Hk & ->) Hh. unfold walPagesize. rewrite Hh. assert (k = 9 \/ k = 10 \/ k = 11 \/ k = 12 \/ k = 13 \/ k = 14 \/ k = 15 \/ k = 16) as Hc by lia. repeat destruct Hc as [->|Hc]; try done. subst k. done.
Qed.
