(* ===== verification/WalBackfill.v ===== *)
(** * WalBackfill: what a checkpoint does to the database file (wal.c)

    The pages that walCheckpoint writes, for every result of the operating system, of
    the locks and of the busy handler. *)
From S2P Require Import Prelude Varint Record Page PageLayout Wal WalLog WalHash WalIndex WalSpec WalFrame WalRecover WalWrite WalSort WalIter WalCkpt WalFile UnixLock.

(** ** Frames and pages *)

(** The last of the first [n] frames that holds page [p], 0 if none does *)
Definition frame_of (fs : list frame) (n p : Z) : Z := last_frame (map f_pgno (take (Z.to_nat n) fs)) p.

(** The size of the database that frame [n], a commit, records *)
Definition db_size (fs : list frame) (n : Z) : Z := default 0 (f_trunc <$> fs !! Z.to_nat (n - 1)).

Lemma frame_of_spec fs n p : n <= len fs -> 0 <= frame_of fs n p <= Z.max 0 n /\ (frame_of fs n p <> 0 -> map f_pgno fs !! Z.to_nat (frame_of fs n p - 1) = Some p) /\ (frame_of fs n p = 0 -> p ∉ map f_pgno (take (Z.to_nat n) fs)).
Proof.
  intros Hn. destruct (last_frame_is_last (map f_pgno (take (Z.to_nat n) fs)) p) as [H0 [H1 H2]]. rewrite length_map, length_take in H1, H2. fold (frame_of fs n p) in *. split_and!.
  - done.
  - destruct H2 as [|(? & j & Hj & Heq)]; lia.
  - intros Hne. destruct H2 as [|(? & j & Hj & Heq)]; [done|]. replace (Z.to_nat (frame_of fs n p - 1)) with j by lia. rewrite <- (take_drop (Z.to_nat n) fs), map_app. apply lookup_app_l_Some. done.
  - intros Hz [j Hj]%list_elem_of_lookup. pose proof (lookup_lt_Some _ _ _ Hj) as Hl. rewrite length_map, length_take in Hl. specialize (H1 j Hj). lia.
Qed.

Lemma frame_of_ge fs m p f : map f_pgno fs !! Z.to_nat (f - 1) = Some p -> 1 <= f <= m -> m <= len fs -> f <= frame_of fs m p.
Proof.
  intros Hf Hfm Hm. destruct (last_frame_is_last (map f_pgno (take (Z.to_nat m) fs)) p) as [_ [H1 _]]. fold (frame_of fs m p) in H1. rewrite length_map, length_take in H1. specialize (H1 (Z.to_nat (f - 1))).
  assert (map f_pgno (take (Z.to_nat m) fs) !! Z.to_nat (f - 1) = Some p) as Hl by (rewrite <- firstn_map; apply lookup_take_Some; split; [done|lia]). specialize (H1 Hl). lia.
Qed.

(** What a reader of the first [m] frames sees of page [p] *)
Definition view (szPage : Z) (db : list Z) (fs : list frame) (m p : Z) : list Z := if frame_of fs m p =? 0 then db_page szPage db p else frame_data fs (frame_of fs m p).

(** ** The state of a checkpoint *)

(** The connection's copy of the header is that of the first [n] frames, the shared one that
    of the first [c]. *)
Record ck_rel (d : WalDb) (szPage : Z) (fs : list frame) (n c : Z) : Prop := {
  cr_inv : exists junk, wal_inv (d_wal d) (map f_pgno fs ++ junk);
  cr_file : exists b nCkpt salt rest, log_file b szPage nCkpt salt fs rest (d_file d);
  cr_n : mxFrame (d_wal d) = n;
  cr_live : h_mxFrame (w_aHdr (d_wal d)).1 = c;
  cr_range : 0 < n <= c /\ c <= len fs;
  cr_nPage : h_nPage (w_hdr (d_wal d)) = db_size fs n;
  cr_szPage : h_szPage (w_hdr (d_wal d)) = enc_szPage szPage;
  cr_pages : Forall pgno_max (map f_pgno fs);
  cr_marks : length (ci_aReadMark (w_info (d_wal d))) = 5%nat;
  cr_nBackfill : 0 <= ci_nBackfill (w_info (d_wal d)) }.

Lemma ck_rel_io d szPage fs n c io : ck_rel d szPage fs n c -> ck_rel (set_io d io) szPage fs n c.
Proof. by intros [? ? ? ? ? ? ? ? ? ?]. Qed.

Lemma ck_rel_past d szPage fs n c past : ck_rel d szPage fs n c -> ck_rel (set_past d past) szPage fs n c.
Proof. by intros [? ? ? ? ? ? ? ? ? ?]. Qed.

Lemma ck_rel_wal d szPage fs n c io w junk : ck_rel d szPage fs n c -> wal_inv w (map f_pgno fs ++ junk) -> w_hdr w = w_hdr (d_wal d) -> w_aHdr w = w_aHdr (d_wal d) -> length (ci_aReadMark (w_info w)) = 5%nat -> 0 <= ci_nBackfill (w_info w) ->
  ck_rel (set_wal (set_io d io) w) szPage fs n c.
Proof. intros [? ? ? ? ? ? ? ? ? ?] HW E1 E2 Hm Hb. split; cbn [d_wal d_file set_wal set_io]; rewrite ?E1, ?E2; eauto. Qed.

(** ** Locks *)

Definition lock_free (e : LockEnv) (lockIdx n : Z) : Prop := e_exclusiveMode e = true \/ forall i, lockIdx <= i < lockIdx + n -> i ∉ e_held e.

Lemma walLockExclusive_spec e d lockIdx n : exists rc io, walLockExclusive e d lockIdx n = (rc, set_io d io) /\ io `suffix_of` d_io d /\ (rc = SQLITE_OK -> lock_free e lockIdx n).
Proof.
  unfold walLockExclusive. destruct (e_exclusiveMode e) eqn:He; [exists SQLITE_OK, (d_io d); split; [by destruct d|]; split; [done|]; by left|]. unfold shm_lock_exclusive. destruct (os_call_spec d) as (rc & io & -> & Hio & _). eexists _, io. split; [done|]. split; [done|]. intros Hrc. right. intros i Hi Hin.
  destruct (Z.eqb_spec rc SQLITE_OK) as [Hok|Hne]; cbn [andb] in Hrc; [|done]. rewrite (proj2 (existsb_exists _ _)) in Hrc; [done|]. exists i. split; [apply list_elem_of_In, elem_of_seqZ; lia|by apply bool_decide_eq_true_2].
Qed.

Lemma busy_loop_spec e xBusy lockIdx n : forall fuel d, (length (d_io d) < fuel)%nat -> exists rc io, busy_loop fuel e d xBusy lockIdx n = Some (rc, set_io d io) /\ io `suffix_of` d_io d /\ (rc = SQLITE_OK -> lock_free e lockIdx n).
Proof.
  induction fuel as [|fuel IH]; intros d Hf; [lia|]. cbn [busy_loop]. destruct (walLockExclusive_spec e d lockIdx n) as (rc & io & -> & Hio & Hok). destruct (xBusy && (rc =? SQLITE_BUSY)); [|by exists rc, io].
  destruct io as [|[again k] io]; cbn [os_call next_io d_io set_io]; [by exists rc, []|]. assert (io `suffix_of` d_io d) as Hio' by (etransitivity; [|exact Hio]; by apply suffix_cons_r). destruct (again =? 0); cbn [negb]; [by exists rc, io|].
  destruct (IH (set_io d io)) as (rc2 & io2 & Heq & Hio2 & Hok2); [cbn; apply suffix_length in Hio; cbn in Hio; lia|]. exists rc2, io2. split; [exact Heq|]. split; [by etransitivity|done].
Qed.

Lemma walBusyLock_spec e d xBusy lockIdx n : exists rc io, walBusyLock e d xBusy lockIdx n = Some (rc, set_io d io) /\ io `suffix_of` d_io d /\ (rc = SQLITE_OK -> lock_free e lockIdx n).
Proof. apply busy_loop_spec. lia. Qed.

(** ** The read marks *)

Definition mark (w : Wal) (i : Z) : Z := default 0 (aget (ci_aReadMark (w_info w)) i).

(** The marks that another connection holds *)
Definition held (e : LockEnv) (i : Z) : Prop := e_exclusiveMode e = false /\ WAL_READ_LOCK i ∈ e_held e.

Lemma held_not_free e i j n : held e i -> j <= i < j + n -> ~ lock_free e (WAL_READ_LOCK j) n.
Proof. intros [H1 H2] Hi [H|H]; [congruence|]. apply (H (WAL_READ_LOCK i)); [unfold WAL_READ_LOCK; lia|done]. Qed.

(** Only marks that nobody holds change. *)
Definition marks_step (e : LockEnv) (w w' : Wal) : Prop :=
  (exists m, w' = set_info w (mkInfo (ci_nBackfill (w_info w)) m)) /\ length (ci_aReadMark (w_info w')) = length (ci_aReadMark (w_info w)) /\ forall i, i = 0 \/ held e i -> mark w' i = mark w i.

Lemma marks_refl e w : marks_step e w w.
Proof. split; [|done]. exists (ci_aReadMark (w_info w)). by destruct w as [? ? [? ?] ? ? ? ? ? ?]. Qed.

Lemma marks_trans e w1 w2 w3 : marks_step e w1 w2 -> marks_step e w2 w3 -> marks_step e w1 w3.
Proof. intros ((m1 & ->) & L1 & H1) ((m2 & ->) & L2 & H2). split; [by exists m2|]. split; [congruence|]. intros i Hi. rewrite H2 by done. by apply H1. Qed.

Lemma set_mark_spec e w i v : length (ci_aReadMark (w_info w)) = 5%nat -> 1 <= i < 5 -> ~ held e i -> exists w', set_mark w i v = Some w' /\ marks_step e w w' /\ forall j, j <> i -> mark w' j = mark w j.
Proof.
  intros Hl Hi Hh. unfold set_mark. destruct (aset (ci_aReadMark (w_info w)) i v) as [m|] eqn:Hm; [|rewrite aset_is_Some in Hm by lia; done]. cbn [mbind option_bind]. eexists. split; [done|].
  assert (forall j, j <> i -> mark (set_info w (mkInfo (ci_nBackfill (w_info w)) m)) j = mark w j) as Hne by (intros j Hj; unfold mark; cbn; by rewrite (aget_aset_ne _ _ _ _ _ Hm (not_eq_sym Hj))).
  split; [|done]. split; [by exists m|]. split; [by apply length_aset in Hm|]. intros j Hj. apply Hne. intros ->. destruct Hj; [lia|done].
Qed.

(** mxSafeFrame is at most the mark of every reader. *)
Lemma mark_loop_spec e : forall fuel d i xBusy mx rc, length (ci_aReadMark (w_info (d_wal d))) = 5%nat -> 1 <= i <= 5 -> 5 - i < Z.of_nat fuel -> mx <= mxFrame (d_wal d) ->
  exists out rc' d' xB mx', mark_loop fuel e d i xBusy mx rc = Some (out, rc', d', xB, mx') /\ (exists io w, d' = set_wal (set_io d io) w /\ io `suffix_of` d_io d /\ marks_step e (d_wal d) w) /\ mx' <= mx /\ (out = true -> rc' <> SQLITE_OK) /\
    (out = false -> forall j, i <= j < 5 -> held e j -> mx' <= mark (d_wal d) j).
Proof.
  induction fuel as [|fuel IH]; intros d i xBusy mx rc Hl Hi Hf Hmx; [lia|]. cbn [mark_loop]. change WAL_NREADER with 5. destruct (Z.ltb_spec i 5) as [Hlt|Hge].
  2: { eexists _, _, _, _, _. split; [done|]. split; [exists (d_io d), (d_wal d); split; [by destruct d|]; split; [done|apply marks_refl]|]. split; [lia|]. split; [done|]. intros _ j Hj. lia. }
  destruct (aget_is_Some (ci_aReadMark (w_info (d_wal d))) i) as [y Hy]; [lia|]. assert (mark (d_wal d) i = y) as Hmy by (unfold mark; by rewrite Hy). rewrite Hy. cbn [mbind option_bind]. destruct (Z.ltb_spec y mx) as [Hym|Hym].
  2: { destruct (IH d (i + 1) xBusy mx rc Hl ltac:(lia) ltac:(lia) Hmx) as (out & rc' & d' & xB & mx' & -> & Hd & Hle & Hout & Hsafe). eexists _, _, _, _, _. split; [done|]. split; [done|]. split; [done|]. split; [done|]. intros Ho j Hj Hh. destruct (decide (j = i)) as [->|]; [lia|]. apply Hsafe; [done|lia|done]. }
  rewrite (proj2 (Z.leb_le y _)) by lia. cbn [assert_ mbind option_bind]. destruct (walBusyLock_spec e d xBusy (WAL_READ_LOCK i) 1) as (rc1 & io & -> & Hio & Hfree). cbn [mbind option_bind]. destruct (Z.eqb_spec rc1 SQLITE_OK) as [->|Hrc].
  - assert (~ held e i) as Hnh by (intros Hh; by apply (held_not_free e i i 1 Hh ltac:(lia)), Hfree). cbn [d_wal set_io]. destruct (set_mark_spec e (d_wal d) i (if i =? 1 then mx else READMARK_NOT_USED) Hl ltac:(lia) Hnh) as (w1 & -> & Hst & Hne). cbn [mbind option_bind].
    destruct (IH (set_wal (set_io d io) w1) (i + 1) xBusy mx SQLITE_OK) as (out & rc' & d' & xB & mx' & -> & (io2 & w2 & -> & Hio2 & Hst2) & Hle & Hout & Hsafe); [cbn; destruct Hst as (_ & -> & _); done|lia|lia|cbn; destruct Hst as ((m & ->) & _); done|].
    eexists _, _, _, _, _. split; [done|]. split; [exists io2, w2; split; [done|]; split; [by etransitivity|by eapply marks_trans]|]. split; [done|]. split; [done|]. intros Ho j Hj Hh. destruct (decide (j = i)) as [->|]; [done|]. rewrite <- Hne by done. apply Hsafe; [done|lia|done].
  - destruct (Z.eqb_spec rc1 SQLITE_BUSY) as [->|Hrc'].
    + destruct (IH (set_io d io) (i + 1) false y SQLITE_BUSY) as (out & rc' & d' & xB & mx' & -> & (io2 & w2 & -> & Hio2 & Hst2) & Hle & Hout & Hsafe); [done|lia|lia|cbn; lia|]. eexists _, _, _, _, _. split; [done|]. split; [exists io2, w2; split; [done|]; split; [by etransitivity|done]|]. split; [lia|]. split; [done|].
      intros Ho j Hj Hh. destruct (decide (j = i)) as [->|]; [lia|]. apply Hsafe; [done|lia|done].
    + eexists _, _, _, _, _. split; [done|]. split; [exists io, (d_wal d); split; [by destruct d|]; split; [done|apply marks_refl]|]. split; [lia|done].
Qed.

(** ** Copying *)

Lemma iter_ok_ext w w' n it q : w_apWiData w' = w_apWiData w -> w_mapped w' = w_mapped w -> iter_ok w n it q -> iter_ok w' n it q.
Proof.
  intros E1 E2 [H1 H2 H3 H4]. split; [done|done| |done]. intros k Hk. destruct (H3 k Hk) as (s & pg & xs & Ha & [S1 S2 S3 S4 S5 S6 S7 S8 S9]). exists s, pg, xs. split; [done|]. split; [by rewrite E1|by rewrite E2|done|done|done|done|done|done|done].
Qed.

Section Copy.
Context (d : WalDb) (szPage : Z) (fs : list frame) (n c nB mx mxPage : Z).
Context (HC : ck_rel d szPage fs n c) (HnB : 0 <= nB) (Hmx : mx <= n).

(** The pages that the checkpoint copies *)
Definition copied (p : Z) : Prop := nB < frame_of fs n p <= mx /\ p <= mxPage.

Lemma above_filter q : (length (filter (fun x => q < x)%Z (map f_pgno (take (Z.to_nat n) fs))) <= Z.to_nat n)%nat.
Proof using. etransitivity; [apply length_filter|]. rewrite length_map, length_take. lia. Qed.

Lemma copied_in p : copied p -> p ∈ map f_pgno (take (Z.to_nat n) fs).
Proof using HC HnB.
  intros [Hf _]. destruct (frame_of_spec fs n p ltac:(destruct (cr_range _ _ _ _ _ HC); lia)) as (Hr & Hj & _). specialize (Hj ltac:(lia)). apply list_elem_of_lookup. exists (Z.to_nat (frame_of fs n p - 1)). rewrite <- firstn_map. apply lookup_take_Some. split; [done|lia].
Qed.

Lemma os_read_spec io n0 off : exists rc io' buf, os_read (set_io d io) n0 off = (rc, buf, set_io d io') /\ io' `suffix_of` io /\ (rc = SQLITE_OK -> get_bytes (d_file d) off n0 = Some buf).
Proof using.
  unfold os_read. destruct (os_call_spec (set_io d io)) as (rc & io' & -> & Hio & _). cbn [d_io set_io d_file]. cbn [d_io set_io] in Hio. destruct (Z.eqb_spec rc SQLITE_OK) as [->|Hrc]; [|by eexists _, io', _]. destruct (get_bytes (d_file d) off n0) as [buf|]; eexists _, io', _; by split_and!.
Qed.

Lemma db_write_spec io db l off : exists rc io' l', db_write (set_io d io) db l off = (rc, set_io d io', file_write db off l') /\ io' `suffix_of` io /\ len l' <= len l /\ (rc = SQLITE_OK -> l' = l).
Proof using.
  unfold db_write, next_io. cbn [d_io set_io]. destruct io as [|[rc k] io]; [eexists _, _, _; split; [done|]; split; [done|]; done|]. eexists _, _, _. split; [done|]. split; [by apply suffix_cons_r|]. destruct (Z.eqb_spec rc SQLITE_OK); [done|]. rewrite length_take. split; [lia|done].
Qed.

Lemma take_log junk : take (Z.to_nat n) (map f_pgno fs ++ junk) = map f_pgno (take (Z.to_nat n) fs).
Proof using HC. destruct (cr_range _ _ _ _ _ HC). rewrite take_app_le by (rewrite length_map; lia). apply firstn_map. Qed.

(** The next page of the iterator *)
Lemma copy_next io it q fr : iter_ok (d_wal d) n it q -> q < 0xFFFFFFFF ->
  exists e it' pg fr', walIteratorNext (d_wal (set_io d io)) it fr = Some (e, it', pg, fr') /\
    if e then forall p, p ∈ map f_pgno (take (Z.to_nat n) fs) -> p <= q
    else iter_ok (d_wal d) n it' pg /\ q < pg < 0xFFFFFFFF /\ pg ∈ map f_pgno (take (Z.to_nat n) fs) /\ (forall p, p ∈ map f_pgno (take (Z.to_nat n) fs) -> q < p -> pg <= p) /\ fr' = frame_of fs n pg /\
      walFramePgno (d_wal (set_io d io)) fr' = Some pg /\ 1 <= fr' <= len fs /\ get_bytes (d_file d) (walFrameOffset fr' szPage + WAL_FRAME_HDRSIZE) szPage = Some (frame_data fs fr') /\ len (frame_data fs fr') = szPage.
Proof using HC.
  intros Hit Hq. destruct (cr_inv _ _ _ _ _ HC) as [junk HW]. destruct (cr_file _ _ _ _ _ HC) as (b & nC & salt & rest & HF). destruct (cr_range _ _ _ _ _ HC) as [Hn Hc]. set (L := map f_pgno fs ++ junk) in *. assert (0 < n <= len L) as HnL by (unfold L; rewrite length_app, length_map; lia).
  assert (Forall pgno_max (take (Z.to_nat n) L)) as HL by (unfold L; rewrite take_log, <- firstn_map; apply Forall_take, HC). destruct (walIteratorNext_spec (d_wal d) L n HW HnL HL it q fr Hit Hq) as (e & it' & pg & fr' & Heq & Hnp & Hit'). exists e, it', pg, fr'. split; [exact Heq|].
  unfold next_page, L in Hnp. rewrite take_log in Hnp. destruct e; [exact Hnp|]. destruct Hnp as (Hpg & Hin & Hmin & Hfr). destruct (frame_of_spec fs n pg ltac:(lia)) as (Hr & Hj & Hz). fold (frame_of fs n pg) in Hfr. assert (frame_of fs n pg <> 0) as Hne by (intros H0; by apply (Hz H0)). specialize (Hj Hne). rewrite <- Hfr in *.
  destruct (frame_at _ _ _ _ _ _ _ fr' HF ltac:(lia)) as [Hget Hlen]. assert (mapped_at (d_wal d) fr') as Hmap by (eapply (iter_mapped (d_wal d) L n HW HnL); [exact Hit|lia]). assert (walFramePgno (d_wal d) fr' = Some pg) as Hpgno by (rewrite (walFramePgno_spec (d_wal d) L fr' HW ltac:(lia) Hmap); by apply lookup_app_l_Some). split_and!; try done; try lia. by apply Hit'.
Qed.

Lemma copy_loop_spec : 0 < szPage -> forall fuel io db it q fr, iter_ok (d_wal d) n it q -> 0 <= q < 0xFFFFFFFF -> (length (filter (fun x => q < x)%Z (map f_pgno (take (Z.to_nat n) fs))) < fuel)%nat ->
  exists rc io' db', copy_loop fuel (set_io d io) db it szPage nB mx mxPage fr = Some (rc, set_io d io', db') /\ io' `suffix_of` io /\
    (forall p, 1 <= p -> ~ copied p \/ p <= q -> db_page szPage db' p = db_page szPage db p) /\ (rc = SQLITE_OK -> forall p, 1 <= p -> q < p -> copied p -> db_page szPage db' p = frame_data fs (frame_of fs n p)).
Proof using HC HnB Hmx.
  intros Hsz. induction fuel as [|fuel IH]; intros io db it q fr Hit Hq Hf; [lia|]. cbn [copy_loop]. destruct (copy_next io it q fr Hit ltac:(lia)) as (e & it' & pg & fr' & -> & Hnext). cbn [mbind option_bind]. destruct e.
  { eexists _, _, _. split; [done|]. split; [done|]. split; [done|]. intros _ p _ Hqp Hcp. specialize (Hnext p (copied_in p Hcp)). lia. }
  destruct Hnext as (Hit' & Hpg & Hin & Hmin & Hfr & -> & Hfr' & Hget & Hlen). cbn [mbind option_bind]. rewrite Z.eqb_refl. cbn [assert_ mbind option_bind]. pose proof (filter_less q pg _ ltac:(lia) Hin) as Hless.
  assert (forall p, q < p -> copied p -> pg <= p) as Hmin' by (intros p Hp Hcp; apply Hmin; [by apply copied_in|done]).
  destruct ((fr' <=? nB) || (mx <? fr') || (mxPage <? pg)) eqn:Hskip.
  - assert (~ copied pg) as Hnc by (intros [? ?]; rewrite <- Hfr in *; lia). destruct (IH io db it' pg fr' Hit' ltac:(lia) ltac:(lia)) as (rc & io' & db' & -> & Hio & Hsame & Hok). eexists _, _, _. split; [done|]. split; [done|]. split.
    + intros p Hp [Hc|Hc]; apply Hsame; [done|by left|done|right; lia].
    + intros Hrc p Hp Hqp Hcp. apply Hok; [done|done| |done]. pose proof (Hmin' p Hqp Hcp). assert (p <> pg) by (by intros ->). lia.
  - assert (copied pg) as Hcp by (unfold copied; rewrite <- Hfr; lia). destruct (os_read_spec io szPage (walFrameOffset fr' szPage + WAL_FRAME_HDRSIZE)) as (rc & io1 & buf & -> & Hio1 & Hbuf). destruct (Z.eqb_spec rc SQLITE_OK) as [->|Hrc]; cbn [negb].
    2: { eexists _, _, _. split; [done|]. split; [done|]. done. }
    specialize (Hbuf eq_refl). rewrite Hget in Hbuf. injection Hbuf as <-. destruct (db_write_spec io1 db (frame_data fs fr') ((pg - 1) * szPage)) as (rc & io2 & l & -> & Hio2 & Hll & Hl). assert (io2 `suffix_of` io) as Hio3 by (by etransitivity).
    assert (forall p, 1 <= p -> p <> pg -> db_page szPage (file_write db ((pg - 1) * szPage) l) p = db_page szPage db p) as Hne by (intros p Hp Hpp; apply db_page_write_ne; lia). destruct (Z.eqb_spec rc SQLITE_OK) as [->|Hrc]; cbn [negb].
    2: { eexists _, _, _. split; [done|]. split; [done|]. split; [|done]. intros p Hp Hc. apply Hne; [done|]. intros ->. destruct Hc; [done|lia]. }
    rewrite (Hl eq_refl) in *. destruct (IH io2 (file_write db ((pg - 1) * szPage) (frame_data fs fr')) it' pg fr' Hit' ltac:(lia) ltac:(lia)) as (rc & io' & db' & -> & Hio & Hsame & Hok). eexists _, _, _. split; [done|]. split; [by etransitivity|]. split.
    + intros p Hp Hc. rewrite Hsame; [apply Hne; [done|intros ->; destruct Hc; [done|lia]]|done|]. destruct Hc; [by left|right; lia].
    + intros Hrc p Hp Hqp Hcp'. destruct (decide (p = pg)) as [->|Hpp].
      * rewrite Hsame by (done || (right; lia)). rewrite <- Hfr. apply db_page_write_eq; [lia|lia|done].
      * apply Hok; [done|done| |done]. pose proof (Hmin' p Hqp Hcp'). lia.
Qed.
End Copy.

(** ** The backfill *)

(** The steps that an error skips *)
Ltac not_ok H := repeat (cbn [mbind option_bind andb]; rewrite (proj2 (Z.eqb_neq _ SQLITE_OK) H)); cbn [mbind option_bind andb].

Lemma db_hint_spec d db szPage p : 0 < szPage -> exists io db', db_hint d db = (set_io d io, db') /\ io `suffix_of` d_io d /\ (1 <= p -> db_page szPage db' p = db_page szPage db p).
Proof.
  intros Hsz. unfold db_hint, next_io. destruct (d_io d) as [|[rc k] io] eqn:Hio; eexists _, _; (split; [destruct d; cbn in *; subst; done|]); (split; [done || by apply suffix_cons_r|]); intros Hp; by apply db_page_zeros.
Qed.

(** The effect of a checkpoint with mxSafeFrame [mx] on the database file *)
Record backfilled (szPage : Z) (fs : list frame) (n c nB mx : Z) (db db' : list Z) (nB' : Z) : Prop := {
  bf_mx : nB < mx <= n;
  bf_other : forall p, 1 <= p -> ~ copied fs n nB mx (db_size fs n) p -> (mx = c -> p <= db_size fs n) -> db_page szPage db' p = db_page szPage db p;
  bf_done : nB' = nB \/ nB' = mx /\ forall p, 1 <= p -> copied fs n nB mx (db_size fs n) p -> db_page szPage db' p = frame_data fs (frame_of fs n p) }.

Lemma backfilled_other szPage fs n c nB mx db db' : nB < mx <= n -> (forall p, 1 <= p -> ~ copied fs n nB mx (db_size fs n) p -> (mx = c -> p <= db_size fs n) -> db_page szPage db' p = db_page szPage db p) -> backfilled szPage fs n c nB mx db db' nB.
Proof. intros H1 H2. split; [done|done|by left]. Qed.

Lemma backfill_spec d szPage fs n c it db mx sync_flags : ck_rel d szPage fs n c -> 0 < szPage -> iter_ok (d_wal d) n it 0 -> ci_nBackfill (w_info (d_wal d)) < mx <= n ->
  exists rc past io nB' db', backfill d db it szPage mx (h_nPage (w_hdr (d_wal d))) sync_flags = Some (rc, set_wal (set_io (set_past d past) io) (set_nBackfill (d_wal d) nB'), db') /\ io `suffix_of` d_io d /\
    backfilled szPage fs n c (ci_nBackfill (w_info (d_wal d))) mx db db' nB' /\ (rc = SQLITE_OK -> nB' = mx).
Proof.
  intros HC Hsz Hit Hmx. unfold backfill.
  assert (exists rc past io, (if negb (sync_flags =? 0) then os_sync d else (SQLITE_OK, d)) = (rc, set_io (set_past d past) io) /\ io `suffix_of` d_io d) as (rc & past & io & -> & Hio).
  { destruct (negb (sync_flags =? 0)); [destruct (os_sync_spec d) as (rc & io & -> & ? & _); eexists rc, _, io; by split|]. exists SQLITE_OK, (d_past d), (d_io d). by destruct d. }
  enough (exists rc0 io0 nB' db', _ = Some (rc0, set_wal (set_io (set_past d past) io0) (set_nBackfill (d_wal d) nB'), db') /\ io0 `suffix_of` d_io d /\ backfilled szPage fs n c (ci_nBackfill (w_info (d_wal d))) mx db db' nB' /\ (rc0 = SQLITE_OK -> nB' = mx)) as (rc0 & io0 & nB' & db' & H0) by (by exists rc0, past, io0, nB', db').
  change (d_wal d) with (d_wal (set_past d past)) in *. change (d_io d) with (d_io (set_past d past)) in *. apply (ck_rel_past _ _ _ _ _ past) in HC. generalize dependent (set_past d past). clear d past. intros d HC Hit Hmx Hio.
  set (nB := ci_nBackfill (w_info (d_wal d))) in *. pose proof (cr_nBackfill _ _ _ _ _ HC) as HnB. fold nB in HnB. assert (forall io, set_io d io = set_wal (set_io d io) (set_nBackfill (d_wal d) nB)) as Hid by (intros io'; destruct d as [[? ? [? ?] ? ? ? ? ? ?] ? ? ? ?]; done). rewrite (cr_nPage _ _ _ _ _ HC).
  destruct (Z.eqb_spec rc SQLITE_OK) as [->|Hrc].
  2: { not_ok Hrc. rewrite Hid. eexists _, _, nB, _. split; [done|]. split; [done|]. split; [by apply backfilled_other|done]. }
  destruct (os_call_spec (set_io d io)) as (rc & io1 & -> & Hio1 & _). cbn [d_io set_io] in Hio1. change (set_io (set_io d io) io1) with (set_io d io1). cbn [set_io d_wal].
  assert (exists io2 db1, (if (rc =? SQLITE_OK) && (len db <? db_size fs n * szPage) then let '(d, db) := db_hint (set_io d io1) db in (rc, d, db) else (rc, set_io d io1, db)) = (rc, set_io d io2, db1) /\ io2 `suffix_of` io1 /\ forall p, 1 <= p -> db_page szPage db1 p = db_page szPage db p) as (io2 & db1 & -> & Hio2 & Hdb1).
  { destruct ((rc =? SQLITE_OK) && (len db <? db_size fs n * szPage)); [|by exists io1, db]. destruct (db_hint (set_io d io1) db) as [d1 db1] eqn:Hh. assert (exists io2, d1 = set_io d io2 /\ io2 `suffix_of` io1) as (io2 & -> & Hs). { destruct (db_hint_spec (set_io d io1) db szPage 1 Hsz) as (io2 & db2 & Heq & Hs & _). rewrite Hh in Heq. injection Heq as -> ->. by exists io2. }
    exists io2, db1. split; [done|]. split; [done|]. intros p. destruct (db_hint_spec (set_io d io1) db szPage p Hsz) as (io3 & db3 & Heq & _ & Hp). rewrite Hh in Heq. injection Heq as _ ->. done. }
  assert (io2 `suffix_of` d_io d) as Hio3 by (etransitivity; [exact Hio2|]; by etransitivity). destruct (Z.eqb_spec rc SQLITE_OK) as [->|Hrc].
  2: { not_ok Hrc. rewrite Hid. eexists _, _, nB, _. split; [done|]. split; [done|]. split; [apply backfilled_other; [done|]; intros; by apply Hdb1|done]. }
  cbn [set_io d_wal]. rewrite (cr_n _ _ _ _ _ HC). pose proof (above_filter fs n 0) as Hfu. destruct (copy_loop_spec d szPage fs n c nB mx (db_size fs n) HC HnB ltac:(lia) Hsz (Z.to_nat n + 2) io2 db1 it 0 0 Hit ltac:(lia) ltac:(lia)) as (rc & io4 & db2 & -> & Hio4 & Hsame & Hok). cbn [mbind option_bind].
  assert (forall p, 1 <= p -> ~ copied fs n nB mx (db_size fs n) p -> db_page szPage db2 p = db_page szPage db p) as Hsame' by (intros p Hp Hc; rewrite Hsame by (done || by left); by apply Hdb1). assert (io4 `suffix_of` d_io d) as Hio5 by (by etransitivity). destruct (Z.eqb_spec rc SQLITE_OK) as [->|Hrc].
  2: { rewrite Hid. eexists _, _, nB, _. split; [done|]. split; [done|]. split; [apply backfilled_other; [done|]; intros; by apply Hsame'|done]. }
  specialize (Hok eq_refl). cbn [set_io d_wal]. rewrite (cr_live _ _ _ _ _ HC), (cr_nPage _ _ _ _ _ HC). destruct (Z.eqb_spec mx c) as [Heq|Hne].
  2: { cbn [Z.eqb SQLITE_OK]. eexists _, io4, mx, db2. split; [done|]. split; [done|]. split; [|done]. split; [done|intros; by apply Hsame'|]. right. split; [done|]. intros p Hp Hc. apply Hok; [done|lia|done]. }
  unfold db_truncate. destruct (os_call_spec (set_io d io4)) as (rc & io6 & -> & Hio6 & _). cbn [d_io set_io] in Hio6. change (set_io (set_io d io4) io6) with (set_io d io6). assert (io6 `suffix_of` d_io d) as Hio7 by (by etransitivity). destruct (Z.eqb_spec rc SQLITE_OK) as [->|Hrc].
  2: { not_ok Hrc. rewrite Hid. eexists _, _, nB, _. split; [done|]. split; [done|]. split; [apply backfilled_other; [done|]; intros; by apply Hsame'|done]. }
  change (SQLITE_OK =? SQLITE_OK) with true. cbn [andb]. set (db3 := take _ db2 ++ _). assert (forall p, 1 <= p <= db_size fs n -> db_page szPage db3 p = db_page szPage db2 p) as Hdb3 by (intros p Hp; apply db_page_truncate; done).
  assert (exists rc io8, (if negb (sync_flags =? 0) then let '(rc, d0) := os_call (set_io d io6) in (rc, d0, db3) else (SQLITE_OK, set_io d io6, db3)) = (rc, set_io d io8, db3) /\ io8 `suffix_of` io6) as (rc & io8 & -> & Hio8).
  { destruct (negb (sync_flags =? 0)); [|by exists SQLITE_OK, io6]. destruct (os_call_spec (set_io d io6)) as (rc & io8 & -> & ? & _). by exists rc, io8. }
  assert (io8 `suffix_of` d_io d) as Hio9 by (by etransitivity). assert (forall p, 1 <= p -> ~ copied fs n nB mx (db_size fs n) p -> (mx = c -> p <= db_size fs n) -> db_page szPage db3 p = db_page szPage db p) as Hsame3 by (intros p Hp Hc Hs; rewrite Hdb3 by (split; [done|by apply Hs]); by apply Hsame').
  destruct (Z.eqb_spec rc SQLITE_OK) as [->|Hrc].
  - eexists _, io8, mx, db3. split; [done|]. split; [done|]. split; [|done]. split; [done|done|]. right. split; [done|]. intros p Hp Hc. rewrite Hdb3 by (split; [done|apply Hc]). apply Hok; [done|lia|done].
  - rewrite Hid. eexists _, _, nB, _. split; [done|]. split; [done|]. split; [by apply backfilled_other|done].
Qed.

(** ** The checkpoint *)

(** Nothing was written, or the pages up to some mxSafeFrame that is at most every mark held,
    while nobody held WAL_READ_LOCK(0). *)
Definition ck_effect (e : LockEnv) (szPage : Z) (fs : list frame) (n c : Z) (w w' : Wal) (db db' : list Z) : Prop :=
  let nB := ci_nBackfill (w_info w) in
  let nB' := ci_nBackfill (w_info w') in
  db' = db /\ nB' = nB \/ exists mx, (forall j, 1 <= j < 5 -> held e j -> mx <= mark w j) /\ ~ held e 0 /\ backfilled szPage fs n c nB mx db db' nB'.

(** What a checkpoint leaves alone *)
Record ck_same (e : LockEnv) (d d' : WalDb) : Prop := {
  cs_file : d_file d' = d_file d;
  cs_hdr : w_hdr (d_wal d') = w_hdr (d_wal d);
  cs_aHdr : w_aHdr (d_wal d') = w_aHdr (d_wal d);
  cs_pages : w_apWiData (d_wal d) ⊆ w_apWiData (d_wal d');
  cs_len : length (ci_aReadMark (w_info (d_wal d'))) = length (ci_aReadMark (w_info (d_wal d)));
  cs_marks : forall i, i = 0 \/ held e i -> mark (d_wal d') i = mark (d_wal d) i }.

(** The end of a blocking checkpoint changes nothing; it succeeds only with the whole log
    in the database file. *)
Lemma ckpt_restart_spec e d eMode xBusy mx rc : (ci_nBackfill (w_info (d_wal d)) >= mxFrame (d_wal d) -> rc = SQLITE_OK -> mx = mxFrame (d_wal d)) ->
  exists rc' io, ckpt_restart e d eMode xBusy mx rc = Some (rc', set_io d io) /\ (rc' = SQLITE_OK -> eMode <> SQLITE_CHECKPOINT_PASSIVE -> mxFrame (d_wal d) <= ci_nBackfill (w_info (d_wal d))).
Proof.
  intros Hmx. assert (set_io d (d_io d) = d) as Hid by (by destruct d). unfold ckpt_restart. destruct (Z.eqb_spec rc SQLITE_OK) as [->|Hrc]; cbn [andb].
  - destruct (Z.eqb_spec eMode SQLITE_CHECKPOINT_PASSIVE) as [He|He]; cbn [negb]; [exists SQLITE_OK, (d_io d); by rewrite Hid|]. destruct (Z.ltb_spec (ci_nBackfill (w_info (d_wal d))) (mxFrame (d_wal d))) as [Hlt|Hge]; [exists SQLITE_BUSY, (d_io d); by rewrite Hid|].
    destruct (eMode =? SQLITE_CHECKPOINT_RESTART); [|exists SQLITE_OK, (d_io d); by rewrite Hid]. rewrite (Hmx ltac:(lia) eq_refl), Z.eqb_refl. cbn [assert_ mbind option_bind]. destruct (walBusyLock_spec e d xBusy (WAL_READ_LOCK 1) (WAL_NREADER - 1)) as (rc & io & -> & _ & _). by exists rc, io.
  - exists rc, (d_io d). rewrite Hid. by split.
Qed.

Lemma walCheckpoint_spec e d db szPage fs n c eMode xBusy sync_flags : ck_rel d szPage fs n c ->
  exists rc d' db', walCheckpoint e d db eMode xBusy sync_flags = Some (rc, d', db') /\ ck_rel d' szPage fs n c /\ ck_same e d d' /\ ck_effect e szPage fs n c (d_wal d) (d_wal d') db db' /\
    (rc = SQLITE_OK -> eMode <> SQLITE_CHECKPOINT_PASSIVE -> n <= ci_nBackfill (w_info (d_wal d'))).
Proof.
  intros HC. destruct (cr_inv _ _ _ _ _ HC) as [junk HW]. destruct (cr_range _ _ _ _ _ HC) as [Hn Hc]. destruct (cr_file _ _ _ _ _ HC) as (b & nC & salt & rest & HF). pose proof (lf_size _ _ _ _ _ _ _ HF) as Hps. destruct (page_size_props _ Hps) as (P1 & _). unfold walCheckpoint. rewrite (walPagesize_enc _ szPage Hps) by apply HC. rewrite (cr_n _ _ _ _ _ HC).
  assert (forall d', ck_same e d (set_io d d')) as Hsame_io by (by intros; split). destruct (Z.leb_spec n (ci_nBackfill (w_info (d_wal d)))) as [Hdone|Hlt].
  { exists SQLITE_OK, d, db. split; [done|]. split; [done|]. split; [by split|]. split; [by left|]. done. }
  destruct (walIteratorInit_spec d _ n HW (cr_n _ _ _ _ _ HC)) as (rc & d1 & pIter & -> & HW1 & Hs1 & Hsub1 & (io1 & Hd1 & _) & Hit & _); [rewrite length_app, length_map; lia|]. cbn [mbind option_bind]. destruct (same_wal_hdr _ _ Hs1) as (E1 & E2 & E3 & _).
  assert (ck_rel d1 szPage fs n c) as HC1 by (rewrite Hd1; eapply (ck_rel_wal d); [done|exact HW1|done|done|rewrite E3; apply HC|rewrite E3; apply HC]). assert (ck_same e d d1) as Hsm1 by (split; [by rewrite Hd1|done|done|done|by rewrite E3|intros i _; unfold mark; by rewrite E3]).
  destruct (Z.eqb_spec rc SQLITE_OK) as [->|Hrc]; cbn [negb].
  2: { exists rc, d1, db. split; [done|]. split; [done|]. split; [done|]. split; [left; by rewrite E3|done]. }
  destruct (Hit eq_refl) as (it & -> & Hiter). cbn [mbind option_bind]. rewrite (cr_n _ _ _ _ _ HC1).
  destruct (mark_loop_spec e 5 d1 1 (negb (eMode =? SQLITE_CHECKPOINT_PASSIVE) && xBusy) n SQLITE_OK (cr_marks _ _ _ _ _ HC1) ltac:(lia) ltac:(lia) ltac:(rewrite (cr_n _ _ _ _ _ HC1); lia)) as (out & rc & d2 & xB & mx & -> & (io2 & w2 & -> & Hio2 & Hst) & Hmx & Hout & Hsafe). cbn [mbind option_bind].
  destruct Hst as ((m2 & Hw2) & Hl2 & Hm2). set (d2 := set_wal (set_io d1 io2) w2) in *. assert (ck_rel d2 szPage fs n c) as HC2. { eapply ck_rel_wal; [exact HC1|rewrite Hw2; by eapply wal_inv_ext|by rewrite Hw2|by rewrite Hw2|rewrite Hl2; apply HC1|rewrite Hw2; apply HC1]. }
  assert (ck_same e d d2) as Hsm2 by (destruct Hsm1 as [S1 S2 S3 S4 S5 S6]; split; [done|change (d_wal d2) with w2; by rewrite Hw2|change (d_wal d2) with w2; by rewrite Hw2|change (d_wal d2) with w2; by rewrite Hw2|change (d_wal d2) with w2; congruence|intros i Hi; rewrite <- S6 by done; by apply Hm2]). assert (ci_nBackfill (w_info w2) = ci_nBackfill (w_info (d_wal d))) as HnB by (rewrite Hw2; cbn; by rewrite E3).
  destruct out. { exists rc, d2, db. split; [done|]. split; [done|]. split; [done|]. split; [by left|]. intros Hok. by destruct (Hout eq_refl). }
  specialize (Hsafe eq_refl). assert (forall j, 1 <= j < 5 -> held e j -> mx <= mark (d_wal d) j) as Hsafe' by (intros j Hj Hh; rewrite <- (cs_marks _ _ _ Hsm1 j (or_intror Hh)); by apply Hsafe).
  assert (exists rc3 d3 db3, (if ci_nBackfill (w_info (d_wal d2)) <? mx then '(rc0, d) ← walBusyLock e d2 xB (WAL_READ_LOCK 0) 1; if rc0 =? SQLITE_OK then backfill d db it szPage mx (h_nPage (w_hdr (d_wal d1))) sync_flags else Some (rc0, d, db) else Some (rc, d2, db)) = Some (rc3, d3, db3) /\
    ck_rel d3 szPage fs n c /\ ck_same e d d3 /\ ck_effect e szPage fs n c (d_wal d) (d_wal d3) db db3 /\ (n <= ci_nBackfill (w_info (d_wal d3)) -> mx = n)) as (rc3 & d3 & db3 & -> & HC3 & Hsm3 & Heff & Hall).
  { change (d_wal d2) with w2. destruct (Z.ltb_spec (ci_nBackfill (w_info w2)) mx) as [Hbf|Hbf].
    2: { exists rc, d2, db. split; [done|]. split; [done|]. split; [done|]. split; [by left|]. change (d_wal d2) with w2. lia. }
    destruct (walBusyLock_spec e d2 xB (WAL_READ_LOCK 0) 1) as (rc0 & io3 & -> & _ & Hfree). cbn [mbind option_bind]. destruct (Z.eqb_spec rc0 SQLITE_OK) as [->|Hrc0].
    - assert (~ held e 0) as Hnh by (intros Hh; by apply (held_not_free e 0 0 1 Hh ltac:(lia)), Hfree). set (d2' := set_io d2 io3). assert (ck_rel d2' szPage fs n c) as HC2' by (by apply ck_rel_io).
      assert (iter_ok (d_wal d2') n it 0) as Hit2 by (apply (iter_ok_ext (d_wal d1)); [change (d_wal d2') with w2; by rewrite Hw2|change (d_wal d2') with w2; by rewrite Hw2|done]).
      destruct (backfill_spec d2' szPage fs n c it db mx sync_flags HC2' ltac:(lia) Hit2 ltac:(change (d_wal d2') with w2; lia)) as (rc3 & past & io4 & nB' & db3 & Heq & _ & Hbfd & _). change (d_wal d2') with w2 in *. assert (h_nPage (w_hdr w2) = h_nPage (w_hdr (d_wal d1))) as Hnp by (by rewrite Hw2). rewrite Hnp in Heq. rewrite HnB in Hbfd.
      eexists _, _, _. split; [exact Heq|]. destruct (cr_inv _ _ _ _ _ HC2') as [junk2 HW2]. assert (nB' = ci_nBackfill (w_info (d_wal d)) \/ nB' = mx) as HnB' by (destruct (bf_done _ _ _ _ _ _ _ _ _ Hbfd) as [|[? _]]; auto). pose proof (cr_nBackfill _ _ _ _ _ HC) as HnB0.
      split; [eapply (ck_rel_wal (set_past d2' past)); [by apply ck_rel_past|eapply wal_inv_ext; [exact HW2|done|done]|done|done|apply HC2'|cbn; lia]|]. split; [destruct Hsm2 as [S1 S2 S3 S4 S5 S6]; by split|]. split; [right; exists mx; split; [done|]; split; [done|exact Hbfd]|]. cbn. lia.
    - exists rc0, (set_io d2 io3), db. split; [done|]. split; [by apply ck_rel_io|]. split; [by destruct Hsm2|]. split; [by left|]. change (d_wal (set_io d2 io3)) with w2. lia. }
  cbn [mbind option_bind]. set (rc4 := if rc3 =? SQLITE_BUSY then SQLITE_OK else rc3). destruct (ckpt_restart_spec e d3 eMode xB mx rc4) as (rc5 & io5 & -> & Hfin).
  { rewrite (cr_n _ _ _ _ _ HC3). intros Hge _. apply Hall. lia. }
  cbn [mbind option_bind]. exists rc5, (set_io d3 io5), db3. split; [done|]. split; [by apply ck_rel_io|]. split; [by destruct Hsm3|]. split; [done|]. rewrite (cr_n _ _ _ _ _ HC3) in Hfin. done.
Qed.

(** ** What readers see *)

(** The snapshot of the first [m] frames may be in use: it is as recent as that of the
    checkpoint, or somebody holds a mark that is at most [m]. *)
Definition snapshot_held (e : LockEnv) (w : Wal) (n m : Z) : Prop := n <= m \/ exists j, 1 <= j < 5 /\ held e j /\ mark w j <= m.

Lemma ck_effect_view e szPage fs n c w w' db db' m p : ck_effect e szPage fs n c w w' db db' -> 0 <= ci_nBackfill (w_info w) -> n <= c <= len fs -> snapshot_held e w n m -> 0 <= m <= c -> 1 <= p <= db_size fs m ->
  view szPage db' fs m p = view szPage db fs m p.
Proof.
  intros [[-> _]|(mx & Hsafe & _ & [Hmx Hother _])] HnB Hc Hheld Hm Hp; [done|]. assert (mx <= m) as Hmm by (destruct Hheld as [|(j & Hj & Hh & Hle)]; [lia|specialize (Hsafe j Hj Hh); lia]).
  unfold view. destruct (Z.eqb_spec (frame_of fs m p) 0) as [H0|]; [|done]. apply Hother; [lia| |].
  - intros [Hf _]. destruct (frame_of_spec fs n p ltac:(lia)) as (_ & Hj & _). specialize (Hj ltac:(lia)). pose proof (frame_of_ge fs m p _ Hj ltac:(lia) ltac:(lia)). lia.
  - intros ->. assert (n = m) as -> by lia. lia.
Qed.

(** The pages whose last frame is one of the first nBackfill are in the database file. *)
Definition in_db (szPage : Z) (fs : list frame) (n nB : Z) (db : list Z) : Prop := forall p, 1 <= p <= db_size fs n -> 0 < frame_of fs n p <= nB -> db_page szPage db p = frame_data fs (frame_of fs n p).

Lemma ck_effect_in_db e szPage fs n c w w' db db' : ck_effect e szPage fs n c w w' db db' -> in_db szPage fs n (ci_nBackfill (w_info w)) db -> in_db szPage fs n (ci_nBackfill (w_info w')) db'.
Proof.
  intros [[-> ->]|(mx & _ & _ & [Hmx Hother Hdone])] Hin; [done|]. intros p Hp Hf.
  assert (frame_of fs n p <= ci_nBackfill (w_info w) -> db_page szPage db' p = frame_data fs (frame_of fs n p)) as Hold by (intros Hle; rewrite Hother; [apply Hin; lia|lia|intros [? _]; lia|lia]).
  destruct Hdone as [HnB|[HnB Hcp]]; [apply Hold; lia|]. destruct (decide (frame_of fs n p <= ci_nBackfill (w_info w))); [by apply Hold|]. apply Hcp; [lia|]. split; lia.
Qed.

(** With nBackfill at the last frame, the database file alone is the snapshot. *)
Lemma in_db_all szPage fs n nB db p : in_db szPage fs n nB db -> n <= nB -> n <= len fs -> 0 <= n -> 1 <= p <= db_size fs n -> db_page szPage db p = view szPage db fs n p.
Proof. intros Hin Hn Hl H0 Hp. unfold view. destruct (Z.eqb_spec (frame_of fs n p) 0) as [|Hne]; [done|]. destruct (frame_of_spec fs n p Hl) as (Hr & _). apply Hin; [done|lia]. Qed.
