(* ===== verification/WalRead.v ===== *)
(** * WalRead: read transactions, restarts and the checkpoint call (wal.c)

    A reader copies the header, locks a read mark that is at most its last frame, and
    looks at both again; sqlite3WalCheckpoint and walRestartLog work around the marks.
    The results of the locks are inputs.  sqlite3OsSleep, the barriers and the release of
    locks have no effect here.  A page of the wal-index that is not there yet reads as zeros,
    which walIndexTryHdr rejects as it does a null pointer. *)
From S2P Require Import Prelude Varint Record Page Wal WalLog WalSort WalIter UnixLock WalCkpt.

Definition WAL_RECOVER_LOCK : Z := 2.
Definition WAL_SHM_RDONLY : Z := 2.
Definition SQLITE_READONLY : Z := 8.
Definition SQLITE_PROTOCOL : Z := 15.
Definition SQLITE_READONLY_RECOVERY : Z := Z.lor SQLITE_READONLY (Z.shiftl 1 8).
Definition SQLITE_READONLY_CANTLOCK : Z := Z.lor SQLITE_READONLY (Z.shiftl 2 8).
Definition SQLITE_BUSY_RECOVERY : Z := Z.lor SQLITE_BUSY (Z.shiftl 1 8).
Definition SQLITE_BUSY_SNAPSHOT : Z := Z.lor SQLITE_BUSY (Z.shiftl 2 8).
Definition WAL_RETRY : Z := -1.

Definition set_readLock (w : Wal) (n : Z) : Wal := mkWal (w_apWiData w) (w_aHdr w) (w_info w) (w_mapped w) (w_map w) (w_hdr w) n (w_szPage w) (w_nCkpt w).

Definition walLockShared (e : LockEnv) (d : WalDb) : Z * WalDb := if e_exclusiveMode e then (SQLITE_OK, d) else os_call d.

(** ** The header *)

(** The header under WAL_WRITE_LOCK, with recovery if it is malformed; badHdr and *pChanged *)
Definition hdr_locked (d : WalDb) (pChanged : bool) : option (Z * WalDb * bool * bool) :=
  let '(rc, w) := walIndexPage (d_wal d) 0 in
  let d := set_wal d w in
  if negb (rc =? SQLITE_OK) then Some (rc, d, true, pChanged)
  else
    '(badHdr, w, pChanged) ← walIndexTryHdr (d_wal d) pChanged;
    let d := set_wal d w in
    if badHdr : bool then '(rc, d) ← walIndexRecover d; Some (rc, d, true, true) else Some (SQLITE_OK, d, false, pChanged).

(** The header, at first without a lock.  [readOnly] is pWal->readOnly; the last component is *pChanged. *)
Definition walIndexReadHdr (e : LockEnv) (readOnly : Z) (d : WalDb) (pChanged : bool) : option (Z * WalDb * bool) :=
  let '(rc, w) := walIndexPage (d_wal d) 0 in
  let d := set_wal d w in
  if negb (rc =? SQLITE_OK) then Some (rc, d, pChanged)
  else
    '(badHdr, w, pChanged) ← walIndexTryHdr (d_wal d) pChanged;
    let d := set_wal d w in
    '(rc, d, badHdr, pChanged) ←
      (if badHdr : bool then
         if negb (Z.land readOnly WAL_SHM_RDONLY =? 0) then
           let '(rc, d) := walLockShared e d in
           Some (if rc =? SQLITE_OK then SQLITE_READONLY_RECOVERY else rc, d, true, pChanged)
         else
           let '(rc, d) := walLockExclusive e d WAL_WRITE_LOCK 1 in
           if rc =? SQLITE_OK then hdr_locked d pChanged else Some (rc, d, true, pChanged)
       else Some (SQLITE_OK, d, false, pChanged));
    Some (if negb (badHdr : bool) && negb (h_iVersion (w_hdr (d_wal d)) =? WALINDEX_MAX_VERSION) then SQLITE_CANTOPEN else rc, d, pChanged).

(** ** Beginning a read transaction *)

(** What walTryBeginRead makes of the result of walIndexReadHdr *)
Definition begin_hdr (e : LockEnv) (readOnly : Z) (d : WalDb) (pChanged : bool) : option (Z * WalDb * bool) :=
  '(rc, d, pChanged) ← walIndexReadHdr e readOnly d pChanged;
  if rc =? SQLITE_BUSY then
    if decide (0 ∉ w_mapped (d_wal d)) then Some (WAL_RETRY, d, pChanged)
    else
      let '(rc, d) := walLockShared e d in
      Some (if rc =? SQLITE_OK then WAL_RETRY else if rc =? SQLITE_BUSY then SQLITE_BUSY_RECOVERY else rc, d, pChanged)
  else Some (rc, d, pChanged).

(** The loop that selects a mark: mxReadMark and mxI *)
Fixpoint best_mark (fuel : nat) (w : Wal) (i mxReadMark mxI : Z) : option (Z * Z) :=
  match fuel with
  | O => None
  | S fuel =>
      if i <? WAL_NREADER then
        thisMark ← aget (ci_aReadMark (w_info w)) i;
        if (mxReadMark <=? thisMark) && (thisMark <=? mxFrame w) then
          _ ← assert_ (negb (thisMark =? READMARK_NOT_USED));
          best_mark fuel w (i + 1) thisMark i
        else best_mark fuel w (i + 1) mxReadMark mxI
      else Some (mxReadMark, mxI)
  end.

(** The loop that sets a mark to mxFrame: whether it returned, rc, the state, mxReadMark and mxI *)
Fixpoint claim_mark (fuel : nat) (e : LockEnv) (d : WalDb) (i mxReadMark mxI rc : Z) : option (bool * Z * WalDb * Z * Z) :=
  match fuel with
  | O => None
  | S fuel =>
      if i <? WAL_NREADER then
        let '(rc, d) := walLockExclusive e d (WAL_READ_LOCK i) 1 in
        if rc =? SQLITE_OK then
          w ← set_mark (d_wal d) i (mxFrame (d_wal d));
          Some (false, rc, set_wal d w, mxFrame (d_wal d), i)
        else if negb (rc =? SQLITE_BUSY) then Some (true, rc, d, mxReadMark, mxI)
        else claim_mark fuel e d (i + 1) mxReadMark mxI rc
      else Some (false, rc, d, mxReadMark, mxI)
  end.

(** The part that uses the log *)
Definition begin_wal (e : LockEnv) (readOnly : Z) (d : WalDb) (rc : Z) : option (Z * WalDb) :=
  '(mxReadMark, mxI) ← best_mark 5 (d_wal d) 1 0 0;
  '(ret, rc, d, mxReadMark, mxI) ←
    (if (Z.land readOnly WAL_SHM_RDONLY =? 0) && ((mxReadMark <? mxFrame (d_wal d)) || (mxI =? 0)) then claim_mark 5 e d 1 mxReadMark mxI rc else Some (false, rc, d, mxReadMark, mxI));
  if ret : bool then Some (rc, d)
  else if mxI =? 0 then
    _ ← assert_ ((rc =? SQLITE_BUSY) || negb (Z.land readOnly WAL_SHM_RDONLY =? 0));
    Some (if rc =? SQLITE_BUSY then WAL_RETRY else SQLITE_READONLY_CANTLOCK, d)
  else
    let '(rc, d) := walLockShared e d in
    if negb (rc =? SQLITE_OK) then Some (if rc =? SQLITE_BUSY then WAL_RETRY else rc, d)
    else
      m ← aget (ci_aReadMark (w_info (d_wal d))) mxI;
      if negb (m =? mxReadMark) then Some (WAL_RETRY, d)
      else if decide ((w_aHdr (d_wal d)).1 <> w_hdr (d_wal d)) then Some (WAL_RETRY, d)
      else
        _ ← assert_ (mxReadMark <=? mxFrame (d_wal d));
        Some (rc, set_wal d (set_readLock (d_wal d) mxI)).

Definition walTryBeginRead (e : LockEnv) (readOnly : Z) (d : WalDb) (pChanged useWal : bool) (cnt : Z) : option (Z * WalDb * bool) :=
  _ ← assert_ (w_readLock (d_wal d) <? 0);
  if 100 <? cnt then Some (SQLITE_PROTOCOL, d, pChanged)
  else
    '(rc, d, pChanged) ← (if useWal then Some (SQLITE_OK, d, pChanged) else begin_hdr e readOnly d pChanged);
    if negb (rc =? SQLITE_OK) then Some (rc, d, pChanged)
    else if negb useWal && (ci_nBackfill (w_info (d_wal d)) =? mxFrame (d_wal d)) then
      let '(rc, d) := walLockShared e d in
      if rc =? SQLITE_OK then
        if decide ((w_aHdr (d_wal d)).1 <> w_hdr (d_wal d)) then Some (WAL_RETRY, d, pChanged)
        else Some (SQLITE_OK, set_wal d (set_readLock (d_wal d) 0), pChanged)
      else if negb (rc =? SQLITE_BUSY) then Some (rc, d, pChanged)
      else '(rc, d) ← begin_wal e readOnly d rc; Some (rc, d, pChanged)
    else '(rc, d) ← begin_wal e readOnly d rc; Some (rc, d, pChanged).

Fixpoint begin_loop (fuel : nat) (e : LockEnv) (readOnly : Z) (d : WalDb) (pChanged useWal : bool) (cnt : Z) : option (Z * WalDb * bool) :=
  match fuel with
  | O => None
  | S fuel =>
      '(rc, d, pChanged) ← walTryBeginRead e readOnly d pChanged useWal (cnt + 1);
      if rc =? WAL_RETRY then begin_loop fuel e readOnly d pChanged useWal (cnt + 1) else Some (rc, d, pChanged)
  end.

Definition sqlite3WalBeginReadTransaction (e : LockEnv) (readOnly : Z) (d : WalDb) (pChanged : bool) : option (Z * WalDb * bool) := begin_loop 102 e readOnly d pChanged false 0.

Definition sqlite3WalEndReadTransaction (w : Wal) : Wal := if 0 <=? w_readLock w then set_readLock w (-1) else w.

Definition sqlite3WalDbsize (w : Wal) : Z := if 0 <=? w_readLock w then h_nPage (w_hdr w) else 0.

(** pOut has room for [nOut] bytes. *)
Definition sqlite3WalReadFrame (d : WalDb) (iRead nOut : Z) : Z * list Z * WalDb :=
  let sz := h_szPage (w_hdr (d_wal d)) in
  let sz := Z.land sz 0xfe00 + Z.shiftl (Z.land sz 0x0001) 16 in
  os_read d (if sz <? nOut then sz else nOut) (walFrameOffset iRead sz + WAL_FRAME_HDRSIZE).

(** The content of page [pgno] that readDbPage reads, from frame [iFrame] if it is not zero *)
Definition readDbPage (d : WalDb) (db : list Z) (pageSize pgno iFrame : Z) : Z * list Z * WalDb :=
  if negb (iFrame =? 0) then sqlite3WalReadFrame d iFrame pageSize
  else let '(rc, d) := os_call d in (if rc =? SQLITE_IOERR_SHORT_READ then SQLITE_OK else rc, db_page pageSize db pgno, d).

(** ** Write transactions *)

Definition sqlite3WalBeginWriteTransaction (e : LockEnv) (readOnly : Z) (d : WalDb) : option (Z * WalDb) :=
  _ ← assert_ (0 <=? w_readLock (d_wal d));
  if negb (readOnly =? 0) then Some (SQLITE_READONLY, d)
  else
    let '(rc, d) := walLockExclusive e d WAL_WRITE_LOCK 1 in
    if negb (rc =? SQLITE_OK) then Some (rc, d)
    else if decide (w_hdr (d_wal d) <> (w_aHdr (d_wal d)).1) then Some (SQLITE_BUSY_SNAPSHOT, d)
    else Some (SQLITE_OK, d).

(** ** Restarting the log *)

Definition walRestartLog (e : LockEnv) (readOnly : Z) (d : WalDb) (salt1 : list Z) : option (Z * WalDb) :=
  if w_readLock (d_wal d) =? 0 then
    _ ← assert_ (ci_nBackfill (w_info (d_wal d)) =? mxFrame (d_wal d));
    '(ret, rc, d) ←
      (if 0 <? ci_nBackfill (w_info (d_wal d)) then
         let '(rc, d) := walLockExclusive e d (WAL_READ_LOCK 1) (WAL_NREADER - 1) in
         if rc =? SQLITE_OK then w ← walRestartHdr (d_wal d) salt1; Some (false, rc, set_wal d w)
         else Some (negb (rc =? SQLITE_BUSY), rc, d)
       else Some (false, SQLITE_OK, d));
    if ret : bool then Some (rc, d)
    else
      '(rc, d, _) ← begin_loop 102 e readOnly (set_wal d (set_readLock (d_wal d) (-1))) false true 0;
      _ ← assert_ (negb (Z.land rc 0xff =? SQLITE_BUSY));
      Some (rc, d)
  else Some (SQLITE_OK, d).

(** ** Writing frames *)

(** [salt1] are the random bytes of a restart, [salt] those of a new log. *)
Definition sqlite3WalFrames (e : LockEnv) (readOnly : Z) (c : WalCfg) (d : WalDb) (szPage : Z) (pList : list (Z * list Z)) (nTruncate : Z) (isCommit : bool) (sync_flags : Z) (salt1 salt : list Z) : option (Z * WalDb) :=
  '(rc, d) ← walRestartLog e readOnly d salt1;
  if negb (rc =? SQLITE_OK) then Some (rc, d) else walFrames_write c d szPage pList nTruncate isCommit sync_flags salt.

(** ** The checkpoint call *)

(** The last component is *pnLog and *pnCkpt, if they are set. *)
Definition sqlite3WalCheckpoint (e : LockEnv) (readOnly : Z) (d : WalDb) (db : list Z) (eMode : Z) (xBusy : bool) (sync_flags nBuf : Z) : option (Z * WalDb * list Z * option (Z * Z)) :=
  if negb (readOnly =? 0) then Some (SQLITE_READONLY, d, db, None)
  else
    let '(rc, d) := walLockExclusive e d WAL_CKPT_LOCK 1 in
    if negb (rc =? SQLITE_OK) then Some (rc, d, db, None)
    else
      '(rc, d, eMode2) ←
        (if negb (eMode =? SQLITE_CHECKPOINT_PASSIVE) then
           '(rc, d) ← walBusyLock e d xBusy WAL_WRITE_LOCK 1;
           if rc =? SQLITE_BUSY then Some (SQLITE_OK, d, SQLITE_CHECKPOINT_PASSIVE) else Some (rc, d, eMode)
         else Some (rc, d, eMode));
      '(rc, d, isChanged) ← (if rc =? SQLITE_OK then walIndexReadHdr e readOnly d false else Some (rc, d, false));
      '(rc, d, db, out) ←
        (if rc =? SQLITE_OK then
           '(rc, d, db) ← (if negb (mxFrame (d_wal d) =? 0) && negb (walPagesize (d_wal d) =? nBuf) then Some (SQLITE_CORRUPT, d, db) else walCheckpoint e d db eMode2 xBusy sync_flags);
           Some (rc, d, db, if (rc =? SQLITE_OK) || (rc =? SQLITE_BUSY) then Some (to_int (mxFrame (d_wal d)), to_int (ci_nBackfill (w_info (d_wal d)))) else None)
         else Some (rc, d, db, None));
      let d := if (isChanged : bool) then set_wal d (set_hdr (d_wal d) zero_hdr) else d in
      Some (if (rc =? SQLITE_OK) && negb (eMode =? eMode2) then SQLITE_BUSY else rc, d, db, out).
