(* ===== verification/WalKeep.v ===== *)
(** * WalKeep: what writing frames does not touch (wal.c)

    Only walIndexWriteHdr changes the shared header, and nothing here changes the
    checkpoint information. *)
From S2P Require Import Prelude Varint Record Page Wal WalLog WalHash WalIndex WalSpec WalFrame WalRecover.

Definition keep (w w' : Wal) : Prop := w_info w' = w_info w /\ w_aHdr w' = w_aHdr w.

Lemma keep_trans w1 w2 w3 : keep w1 w2 -> keep w2 w3 -> keep w1 w3.
Proof. intros [? ?] [? ?]. split; congruence. Qed.

(** Inverts the binds of a computation that returned. *)
Ltac binds := repeat match goal with
  | H : Some _ = Some _ |- _ => injection H as H; try subst
  | H : None = Some _ |- _ => discriminate H
  | H : _ ≫= _ = Some _ |- _ => apply bind_Some in H as (? & ? & H)
  | H : (let '(_, _) := ?x in _) = _ |- _ => destruct x eqn:?
  | H : (let (_, _) := ?x in _) = _ |- _ => destruct x eqn:?
  | H : (if ?b then _ else _) = _ |- _ => destruct b eqn:?
  | H : match ?x with _ => _ end = _ |- _ => destruct x eqn:?
  | H : (_, _) = (_, _) |- _ => injection H as H; try subst
  | H : _ /\ _ |- _ => destruct H
  end.

Lemma walIndexPage_keep w k rc w' : walIndexPage w k = (rc, w') -> keep w w'.
Proof. unfold walIndexPage. intros H. binds; by split. Qed.

Lemma walHashGet_keep w k rc w' z : walHashGet w k = Some (rc, w', z) -> keep w w'.
Proof. unfold walHashGet. intros H. binds. by eapply walIndexPage_keep. Qed.

Lemma walCleanupHash_keep w w' : walCleanupHash w = Some w' -> keep w w'.
Proof. unfold walCleanupHash. intros H. binds; [by split|]. match goal with H : walHashGet _ _ = _ |- _ => apply walHashGet_keep in H as [? ?] end. split; cbn; congruence. Qed.

Lemma append_prepare_keep w k i w' : append_prepare w k i = Some w' -> keep w w'.
Proof.
  unfold append_prepare. intros H. assert (forall w0, keep w (if i =? 1 then set_wi w w0 else w)) as Hk by (intros; destruct (i =? 1); by split). binds; [|apply Hk]. eapply keep_trans; [apply Hk|]. eapply walCleanupHash_keep. eassumption.
Qed.

Lemma walIndexAppend_keep w f p rc w' : walIndexAppend w f p = Some (rc, w') -> keep w w'.
Proof.
  unfold walIndexAppend. intros H. binds; try (by eapply walHashGet_keep); (eapply keep_trans; [by eapply walHashGet_keep|]); match goal with H : append_prepare _ _ _ = _ |- _ => apply append_prepare_keep in H as [? ?] end; split; cbn; congruence.
Qed.

Lemma append_loop_keep l : forall w f rc w' f', append_loop w f l = Some (rc, w', f') -> keep w w'.
Proof.
  induction l as [|p l IH]; intros w f rc w' f' H; cbn [append_loop] in H; binds; [by split| |by eapply walIndexAppend_keep]. eapply keep_trans; [by eapply walIndexAppend_keep|]. by eapply IH.
Qed.

(** The shared header after a commit *)
Definition commit_hdr (szPage nTruncate : Z) (w : Wal) : Prop := h_nPage (w_aHdr w).1 = nTruncate /\ h_szPage (w_aHdr w).1 = enc_szPage szPage.

Definition frames_keep (szPage nTruncate : Z) (isCommit : bool) (rc : Z) (w w' : Wal) : Prop :=
  w_info w' = w_info w /\ (w_aHdr w' = w_aHdr w /\ (rc = SQLITE_OK -> isCommit = false) \/ rc = SQLITE_OK /\ isCommit = true /\ commit_hdr szPage nTruncate w').

Lemma keep_frames szPage nTruncate isCommit rc w1 w2 w3 : keep w1 w2 -> frames_keep szPage nTruncate isCommit rc w2 w3 -> frames_keep szPage nTruncate isCommit rc w1 w3.
Proof. intros [K1 K2] [F1 F2]. split; [congruence|]. destruct F2 as [[? ?]|?]; [left; split; [congruence|done]|by right]. Qed.

Lemma fail_frames szPage nTruncate isCommit rc w w' : keep w w' -> rc <> SQLITE_OK -> frames_keep szPage nTruncate isCommit rc w w'.
Proof. intros [? ?] ?. split; [done|left; by split]. Qed.

Lemma walIndexWriteHdr_inv w w' : walIndexWriteHdr w = Some w' -> w_info w' = w_info w /\ h_nPage (w_aHdr w').1 = h_nPage (w_hdr w) /\ h_szPage (w_aHdr w').1 = h_szPage (w_hdr w).
Proof. unfold walIndexWriteHdr. cbv zeta. destruct (walChecksumBytes _ _ _ _) as [ck|]; cbn [mbind option_bind]; [|done]. intros Heq. apply (inj Some) in Heq. by rewrite <- Heq. Qed.

Lemma walFrames_index_keep w szPage l nExtra nTruncate isCommit rc w' : walFrames_index w szPage l nExtra nTruncate isCommit = Some (rc, w') -> frames_keep szPage nTruncate isCommit rc w w'.
Proof.
  unfold walFrames_index. intros H. binds; match goal with H : append_loop _ _ _ = _ |- _ => apply append_loop_keep in H end.
  - apply fail_frames; [done|]. intros ->. done.
  - match goal with H : walIndexWriteHdr _ = _ |- _ => apply walIndexWriteHdr_inv in H as (E1 & E2 & E3) end. eapply keep_frames; [done|]. split; [exact E1|right]. split; [done|]. split; [done|]. split; [exact E2|exact E3].
  - eapply keep_frames; [done|]. split; [done|left; by split].
Qed.

(** ** The log file *)

Lemma next_io_wal d rc n d' : next_io d = (rc, n, d') -> d_wal d' = d_wal d.
Proof. unfold next_io. intros H. binds; done. Qed.

Lemma os_call_wal d rc d' : os_call d = (rc, d') -> d_wal d' = d_wal d.
Proof. unfold os_call. intros H. binds. by eapply next_io_wal. Qed.

Lemma os_sync_wal d rc d' : os_sync d = (rc, d') -> d_wal d' = d_wal d.
Proof. unfold os_sync, next_io. by destruct (d_io d) as [|[??]?]; intros [= <- <-]. Qed.

Lemma os_write_wal d l o rc d' : os_write d l o = (rc, d') -> d_wal d' = d_wal d.
Proof. unfold os_write. intros H. binds. cbn. by eapply next_io_wal. Qed.

Lemma walWriteToLog_wal d s l o rc d' : walWriteToLog d s l o = (rc, d') -> d_wal d' = d_wal d.
Proof.
  unfold walWriteToLog. intros H. binds; repeat match goal with H : os_write _ _ _ = _ |- _ => apply os_write_wal in H | H : os_sync _ = _ |- _ => apply os_sync_wal in H end; congruence.
Qed.

Lemma walEncodeFrame_keep w p n a l w' : walEncodeFrame w p n a = Some (l, w') -> keep w w'.
Proof. unfold walEncodeFrame. intros H. binds. by split. Qed.

Lemma walWriteOneFrame_keep d s z p n o rc d' : walWriteOneFrame d s z p n o = Some (rc, d') -> keep (d_wal d) (d_wal d').
Proof.
  unfold walWriteOneFrame. intros H. binds; repeat match goal with H : walWriteToLog _ _ _ _ = _ |- _ => apply walWriteToLog_wal in H | H : walEncodeFrame _ _ _ _ = _ |- _ => apply walEncodeFrame_keep in H as [? ?] end; cbn in *; split; congruence.
Qed.

Lemma frames_loop_keep z n isCommit l : forall d f o rc d' f' o', frames_loop d z n isCommit f o l = Some (rc, d', f', o') -> keep (d_wal d) (d_wal d').
Proof.
  induction l as [|p l IH]; intros d f o rc d' f' o' H; cbn [frames_loop] in H; binds; [by split|by eapply walWriteOneFrame_keep|]. eapply keep_trans; [by eapply walWriteOneFrame_keep|]. by eapply IH.
Qed.

Lemma pad_loop_keep s z p n : forall fuel d o k rc d' k', pad_loop fuel d s z p n o k = Some (rc, d', k') -> keep (d_wal d) (d_wal d').
Proof.
  induction fuel as [|fuel IH]; intros d o k rc d' k' H; cbn [pad_loop] in H; binds; [by eapply walWriteOneFrame_keep| |by split]. eapply keep_trans; [by eapply walWriteOneFrame_keep|]. by eapply IH.
Qed.

Lemma frames_sync_keep c d z n isCommit sf p o ret rc d' k : frames_sync c d z n isCommit sf p o = Some (ret, rc, d', k) -> keep (d_wal d) (d_wal d') /\ (ret = true -> rc <> SQLITE_OK).
Proof.
  unfold frames_sync. intros H. binds; [split; [by eapply pad_loop_keep|]; by intros Hr ->| |by split]. match goal with H : os_sync _ = _ |- _ => apply os_sync_wal in H as -> end. by split.
Qed.

Lemma frames_header_keep c d z sf salt rc d' : frames_header c d z sf salt = Some (rc, d') -> keep (d_wal d) (d_wal d').
Proof.
  unfold frames_header. cbv zeta. set (w0 := if w_nCkpt (d_wal d) =? 0 then _ else _). assert (keep (d_wal d) w0) as Hk by (unfold w0; destruct (w_nCkpt (d_wal d) =? 0); by split). clearbody w0. intros H.
  binds; repeat match goal with H : os_write _ _ _ = _ |- _ => apply os_write_wal in H | H : os_sync _ = _ |- _ => apply os_sync_wal in H end; repeat match goal with H : d_wal ?a = _ |- context [d_wal ?a] => rewrite H end; exact Hk.
Qed.

Lemma walLimitSize_wal d n : d_wal (walLimitSize d n) = d_wal d.
Proof.
  unfold walLimitSize, os_truncate. destruct (os_call d) as [rx d1] eqn:H1. apply os_call_wal in H1. destruct ((rx =? SQLITE_OK) && _); [|done]. destruct (os_call d1) as [r2 d2] eqn:H2. apply os_call_wal in H2. cbn. destruct (r2 =? SQLITE_OK); cbn; congruence.
Qed.

Lemma frames_limit_wal c d z i J isCommit : d_wal (frames_limit c d z i J isCommit) = d_wal d.
Proof. unfold frames_limit. destruct (isCommit && _ && _); [|done]. cbv zeta. cbn [d_wal set_trunc]. apply walLimitSize_wal. Qed.

Lemma frames_body_keep c d z l n isCommit sf rc d' : frames_body c d z l n isCommit sf = Some (rc, d') -> frames_keep z n isCommit rc (d_wal d) (d_wal d').
Proof.
  unfold frames_body. intros H. binds; repeat match goal with H : frames_loop _ _ _ _ _ _ _ = _ |- _ => apply frames_loop_keep in H | H : frames_sync _ _ _ _ _ _ _ _ = _ |- _ => apply frames_sync_keep in H as [H ?] | H : walFrames_index _ _ _ _ _ _ = _ |- _ => apply walFrames_index_keep in H end.
  all: try (apply fail_frames; [rewrite ?frames_limit_wal; done || by eapply keep_trans|]; first [by auto|intros ->; done]).
  all: cbn [d_wal set_wal] in *; eapply keep_frames; [by eapply keep_trans|]; rewrite frames_limit_wal in *; done.
Qed.

Lemma walFrames_keep c d z l n isCommit sf salt rc d' : walFrames_write c d z l n isCommit sf salt = Some (rc, d') -> frames_keep z n isCommit rc (d_wal d) (d_wal d').
Proof.
  unfold walFrames_write. intros H. binds; repeat match goal with H : frames_header _ _ _ _ _ = _ |- _ => apply frames_header_keep in H | H : frames_body _ _ _ _ _ _ _ = _ |- _ => apply frames_body_keep in H end; try done; try (by eapply keep_frames); apply fail_frames; try done; intros ->; done.
Qed.

Lemma sqlite3WalUndo_keep w w' l : sqlite3WalUndo w = Some (w', l) -> keep w w'.
Proof. unfold sqlite3WalUndo. intros H. binds; [|by split]. match goal with H : walCleanupHash _ = _ |- _ => apply walCleanupHash_keep in H as [? ?] end. split; cbn in *; congruence. Qed.
