(* ===== verification/WalSync.v ===== *)
(** * WalSync: what a crash of the machine leaves of the log (wal.c)

    A crash of the machine leaves, of each byte of the log file and of its size, the value of some moment
    since the last sync that succeeded.  What sqlite3WalFrames syncs, and what it does not write
    over, is there in every such file. *)
From S2P Require Import Prelude Varint Record Page PageLayout PageCells Wal WalLog WalHash WalIndex WalSpec WalFrame WalRecover WalWrite WalDurable WalCrash WalKeep.

(** ** The file after a crash *)

(** The contents that the file has had since the last sync *)
Definition versions (d : WalDb) : list (list Z) := d_past d ++ [d_file d].

(** The size is that of one content; a byte is that of one, or any where one of them ends before it. *)
Definition crash_image (d : WalDb) (f : list Z) : Prop :=
  (exists v, v ∈ versions d /\ length f = length v) /\ forall i x, f !! i = Some x -> exists v, v ∈ versions d /\ (v !! i = Some x \/ v !! i = None).

(** [P] is at the head of the file after any crash. *)
Definition on_disk (P : list Z) (d : WalDb) : Prop := forall f, crash_image d f -> P `prefix_of` f.

Definition held (P : list Z) (d : WalDb) : Prop := Forall (fun v => P `prefix_of` v) (versions d).

Lemma held_on_disk P d : held P d <-> on_disk P d.
Proof.
  unfold held. rewrite Forall_forall. split.
  - intros Hall f [(v & Hv & Hl) Hby]. destruct (Hall v Hv) as [x Hx]. assert (length P <= length f)%nat as Hle by (rewrite Hl, Hx, length_app; lia). exists (drop (length P) f). rewrite <- (take_drop (length P) f) at 1. f_equal.
    apply (list_eq_same_length _ _ (length P)); [done|rewrite length_take; lia|]. intros i y z Hi Hy Hz. rewrite lookup_take_lt in Hy by done. destruct (Hby i y Hy) as (u & Hu & Hcase). destruct (Hall u Hu) as [w ->]. rewrite lookup_app_l in Hcase by done. destruct Hcase as [Hc|Hc]; congruence.
  - intros Hd v Hv. apply Hd. split; [by exists v|]. intros i x Hx. exists v. auto.
Qed.

Lemma held_file P d : held P d -> P `prefix_of` d_file d.
Proof. unfold held, versions. rewrite Forall_app. intros [_ H]. by apply Forall_cons in H as [? _]. Qed.

Lemma held_set_file P d f : held P d -> P `prefix_of` f -> held P (set_file d f).
Proof. unfold held, versions. cbn. intros H1 H2. apply Forall_app. split; [done|by constructor]. Qed.

Lemma get_bytes_length l i n r : get_bytes l i n = Some r -> Z.of_nat (length r) = n.
Proof. unfold get_bytes. destruct (decide _) as [Hd|]; [|done]. intros [= <-]. rewrite length_take, length_drop. lia. Qed.

(** ** Writes after [P] *)

Section After.
Context (P : list Z).

(** A step that leaves [P] in the file, keeps it safe if it was, and makes it safe if [sync] *)
Definition after (sync : Prop) (d d' : WalDb) : Prop := P `prefix_of` d_file d -> P `prefix_of` d_file d' /\ (held P d \/ sync -> held P d').

Lemma after_trans s1 s2 d1 d2 d3 : after s1 d1 d2 -> after s2 d2 d3 -> after (s1 \/ s2) d1 d3.
Proof using. intros H1 H2 Hp. destruct (H1 Hp) as [P1 K1]. destruct (H2 P1) as [P2 K2]. split; [done|]. intros [Hh|[Hs|Hs]]; apply K2; auto. Qed.

Lemma after_weaken (s1 s2 : Prop) d d' : (s2 -> s1) -> after s1 d d' -> after s2 d d'.
Proof using. intros Hs H Hp. destruct (H Hp) as [P1 K1]. split; [done|]. naive_solver. Qed.

Lemma after_same d d' : d_file d' = d_file d -> d_past d' = d_past d -> after False d d'.
Proof using. intros E1 E2 Hp. unfold held, versions. rewrite E1, E2. naive_solver. Qed.

Lemma after_set_file d f : P `prefix_of` f -> after False d (set_file d f).
Proof using. intros Hf _. split; [done|]. intros [Hh|[]]. by apply held_set_file. Qed.

Lemma file_write_after f off l : P `prefix_of` f -> Z.of_nat (length P) <= off -> P `prefix_of` file_write f off l.
Proof using.
  intros [x ->] Ho. unfold file_write. destruct l as [|y l]; [by eexists|]. set (g := (P ++ x) ++ _). assert (P `prefix_of` take (Z.to_nat off) g) as Hg; [|by apply prefix_app_r].
  unfold g. rewrite <- app_assoc, take_app_ge by lia. by eexists.
Qed.

Lemma os_write_after d l off rc d' : Z.of_nat (length P) <= off -> os_write d l off = (rc, d') -> after False d d'.
Proof using.
  intros Ho. unfold os_write, next_io. destruct (d_io d) as [|[r n] io]; intros [= <- <-] Hp; (split; [cbn; by apply file_write_after|]); intros [Hh|[]]; (apply held_set_file; [exact Hh|]); cbn; by apply file_write_after.
Qed.

Lemma os_sync_after d rc d' : os_sync d = (rc, d') -> after (rc = SQLITE_OK) d d'.
Proof using.
  unfold os_sync, next_io. assert (forall d0, P `prefix_of` d_file d0 -> held P (set_past d0 [])) as Hs by (intros d0 H0; by constructor). destruct (d_io d) as [|[r n] io]; intros [= <- <-] Hp.
  - split; [done|]. intros _. by apply Hs.
  - split; [done|]. intros Hc. destruct (Z.eqb_spec r SQLITE_OK); [by apply Hs|]. destruct Hc as [Hh|]; [exact Hh|done].
Qed.

(** A write is synced if it crosses the sync point [s]. *)
Lemma walWriteToLog_after d s l off rc d' : Z.of_nat (length P) <= off -> walWriteToLog d s l off = (rc, d') -> after (rc = SQLITE_OK /\ off < s <= off + Z.of_nat (length l)) d d'.
Proof using.
  intros Ho. unfold walWriteToLog. destruct (Z.ltb_spec off s) as [Hlt|]; cbn [andb]; [|intros Hw; eapply after_weaken; [|by eapply os_write_after]; lia]. destruct (Z.leb_spec s (off + Z.of_nat (length l))) as [Hle|]; [|intros Hw; eapply after_weaken; [|by eapply os_write_after]; lia].
  destruct (os_write d _ off) as [r1 d1] eqn:H1. apply os_write_after in H1; [|done]. destruct (Z.eqb_spec r1 SQLITE_OK) as [->|Hr1]; cbn [negb]; [|intros [= <- <-]; eapply after_weaken; [|exact H1]; naive_solver].
  destruct (os_sync d1) as [r2 d2] eqn:H2. apply os_sync_after in H2. pose proof (after_trans _ _ _ _ _ H1 H2) as H12. destruct (_ || negb (r2 =? SQLITE_OK)) eqn:Hc.
  - intros [= <- <-]. eapply after_weaken; [|exact H12]. naive_solver.
  - intros H3. apply orb_false_iff in Hc as [_ Hc]. apply negb_false_iff, Z.eqb_eq in Hc. apply os_write_after in H3; [|lia]. eapply after_weaken; [|exact (after_trans _ _ _ _ _ H12 H3)]. auto.
Qed.

Lemma walWriteOneFrame_after d s z p n o rc d' : length (h_aSalt (w_hdr (d_wal d))) = 8%nat -> Z.of_nat (length P) <= o -> walWriteOneFrame d s z p n o = Some (rc, d') -> after (rc = SQLITE_OK /\ o < s <= o + (z + WAL_FRAME_HDRSIZE)) d d' /\ h_aSalt (w_hdr (d_wal d')) = h_aSalt (w_hdr (d_wal d)).
Proof using.
  intros Hs Ho. unfold walWriteOneFrame. destruct p as [pg dat]. unfold walEncodeFrame. intros H. binds; cbn [d_wal set_wal] in *; repeat match goal with H : walWriteToLog _ _ _ _ = _ |- _ => pose proof (walWriteToLog_wal _ _ _ _ _ _ H); apply walWriteToLog_after in H; [|change WAL_FRAME_HDRSIZE with 24; lia] end; cbn [d_wal set_wal] in *.
  all: (split; [|repeat match goal with H : d_wal _ = _ |- _ => rewrite H; clear H end; done]).
  all: match goal with H : after _ (set_wal ?d0 ?w) _ |- _ => pose proof (after_trans _ _ _ _ _ (after_same d0 (set_wal d0 w) eq_refl eq_refl) H) as H12 end.
  - eapply after_weaken; [|exact H12]. by intros [-> _].
  - match goal with H : after (rc = _ /\ _) _ _ |- _ => pose proof (after_trans _ _ _ _ _ H12 H) as H13 end. match goal with H : get_bytes _ _ _ = Some _ |- _ => apply get_bytes_length in H end.
    eapply after_weaken; [|exact H13]. intros [-> Hc]. cbn [length]. rewrite !length_app. match goal with H : negb (?r =? SQLITE_OK) = false |- _ => apply negb_false_iff, Z.eqb_eq in H; subst r end. rewrite Hs. change WAL_FRAME_HDRSIZE with 24 in *. cbn [length sqlite3Put4byte]. destruct (decide (s <= o + 24)); [left; right|right]; split; try done; lia.
Qed.

Abbreviation salted d := (length (h_aSalt (w_hdr (d_wal d))) = 8%nat).

Lemma frames_loop_after z n isCommit l : 0 <= z -> forall d f o rc d' f' o', salted d -> Z.of_nat (length P) <= o -> frames_loop d z n isCommit f o l = Some (rc, d', f', o') -> after False d d'.
Proof using.
  intros Hz. induction l as [|p l IH]; intros d f o rc d' f' o' Hs Ho H; cbn [frames_loop] in H; [injection H as _ <- _ _; by apply after_same|]. binds; match goal with H : walWriteOneFrame _ _ _ _ _ _ = _ |- _ => apply walWriteOneFrame_after in H as [H Hsl]; [|done|done] end; (eapply after_weaken in H1; [|intros []]) || idtac.
  - eapply after_weaken; [|eassumption]. done.
  - eapply after_weaken; [|eapply after_trans; [eassumption|eapply IH; [|clear IH|eassumption]]]; [done|by rewrite Hsl|change WAL_FRAME_HDRSIZE with 24; lia].
Qed.

(** The padding goes beyond the sync point [s], and is synced there. *)
Lemma pad_loop_after s z p n : 0 <= z -> forall fuel d o k rc d' k', salted d -> Z.of_nat (length P) <= o -> pad_loop fuel d s z p n o k = Some (rc, d', k') -> after (rc = SQLITE_OK /\ o < s) d d'.
Proof using.
  intros Hz. induction fuel as [|fuel IH]; intros d o k rc d' k' Hs Ho H; cbn [pad_loop] in H; [done|]. destruct (Z.ltb_spec o s) as [Hlt|Hge]; [|injection H as <- <- _; eapply after_weaken; [|by apply after_same]; lia].
  binds; match goal with H : walWriteOneFrame _ _ _ _ _ _ = _ |- _ => apply walWriteOneFrame_after in H as [Hw Hsl]; [|done|done] end.
  - eapply after_weaken; [|exact Hw]. by intros [-> _].
  - match goal with H : negb (?r =? SQLITE_OK) = false |- _ => apply negb_false_iff, Z.eqb_eq in H; subst r end. assert (0 < z + WAL_FRAME_HDRSIZE) by (change WAL_FRAME_HDRSIZE with 24; lia). match goal with H : pad_loop _ _ _ _ _ _ _ _ = _ |- _ => apply IH in H; [|by rewrite Hsl|lia] end.
    eapply after_weaken; [|eapply after_trans; [exact Hw|eassumption]]. intros [-> _]. destruct (decide (s <= o + (z + WAL_FRAME_HDRSIZE))); [left; split; [done|lia]|right; split; [done|lia]].
Qed.

(** The commit is synced, unless a padded one ends at a sector boundary. *)
Definition commit_syncs (c : WalCfg) (isCommit : bool) (sync_flags iOffset : Z) : Prop :=
  isCommit = true /\ Z.land sync_flags WAL_SYNC_TRANSACTIONS <> 0 /\ (c_pad c = true -> iOffset mod c_sectorSize c <> 0).

Lemma frames_sync_after c d z n isCommit sf p o ret rc d' k : 0 <= z -> 0 < c_sectorSize c -> salted d -> Z.of_nat (length P) <= o -> frames_sync c d z n isCommit sf p o = Some (ret, rc, d', k) -> after (rc = SQLITE_OK /\ commit_syncs c isCommit sf o) d d'.
Proof using.
  intros Hz Hsec Hs Ho. unfold frames_sync, commit_syncs. destruct isCommit; cbn [andb]; [|intros [= _ <- <- _]; eapply after_weaken; [|by apply after_same]; naive_solver]. destruct (Z.eqb_spec (Z.land sf WAL_SYNC_TRANSACTIONS) 0) as [He|He]; cbn [negb]; [intros [= _ <- <- _]; eapply after_weaken; [|by apply after_same]; naive_solver|].
  intros H. binds.
  - match goal with H : pad_loop _ _ _ _ _ _ _ _ = _ |- _ => apply pad_loop_after in H; [|done|done|done] end. eapply after_weaken; [|eassumption]. intros (-> & _ & _ & Hm). specialize (Hm eq_refl). split; [done|]. rewrite Z.quot_div_nonneg by lia. set (q := (o + c_sectorSize c - 1) / c_sectorSize c). pose proof (Z.div_mod (o + c_sectorSize c - 1) (c_sectorSize c) ltac:(lia)) as Hq. fold q in Hq. pose proof (Z.mod_pos_bound (o + c_sectorSize c - 1) (c_sectorSize c) ltac:(lia)). destruct (decide (o = q * c_sectorSize c)) as [He2|]; [|lia]. destruct Hm. rewrite He2. apply Z.mod_mul. lia.
  - match goal with H : os_sync _ = _ |- _ => apply os_sync_after in H end. eapply after_weaken; [|eassumption]. by intros [-> _].
Qed.

Lemma frames_limit_after c d z i J isCommit : Z.of_nat (length P) <= walFrameOffset (i + Z.of_nat J + 1) z -> after False d (frames_limit c d z i J isCommit).
Proof using.
  intros Hl. unfold frames_limit. destruct (isCommit && _ && _); [|by apply after_same]. cbv zeta. set (sz := if c_mxWalSize c <? _ then _ else _). assert (Z.of_nat (length P) <= sz) as Hsz by (unfold sz; destruct (Z.ltb_spec (c_mxWalSize c) (walFrameOffset (i + Z.of_nat J + 1) z)); lia). clearbody sz.
  intros Hp. unfold walLimitSize, os_truncate, os_call, next_io. assert (P `prefix_of` take (Z.to_nat sz) (d_file d)) as Ht by (destruct Hp as [x ->]; rewrite take_app_ge by lia; by eexists).
  destruct (d_io d) as [|[r n] io]; [|destruct (Z.eqb_spec r SQLITE_OK); cbn [andb]]; try (destruct (sz <? len (d_file _)); cbn [d_io set_io]); cbn; repeat match goal with |- context [match ?l with [] => _ | _ :: _ => _ end] => destruct l as [|[? ?] ?] end; cbn; repeat case_match; cbn; (split; [done|]); intros [Hh|[]]; try exact Hh; by apply (held_set_file _ d).
Qed.
End After.

(** ** sqlite3WalFrames *)

Section Body.
Context (cfg : WalCfg) (szPage : Z) (pList : list (Z * list Z)) (nTruncate : Z) (isCommit : bool) (sync_flags : Z) (fs : list frame) (c : nat).
Context (Hargs : frames_args szPage cfg (log_pages fs c) pList nTruncate isCommit) (Hps : page_size szPage).

Abbreviation new := (mk_frames nTruncate isCommit pList).
Abbreviation synced := (commit_syncs cfg isCommit sync_flags (walFrameOffset (len fs + len pList + 1) szPage)).

Lemma body_after d b nCkpt salt rest rc d' : at_ck (b =? SQLITE_BIGENDIAN) salt szPage (d_wal d) (log_ck b szPage nCkpt salt fs) -> log_file b szPage nCkpt salt fs rest (d_file d) -> wal_rel (d_wal d) (log_pages fs c) ->
  frames_body cfg d szPage pList nTruncate isCommit sync_flags = Some (rc, d') ->
  (held (log_image b szPage nCkpt salt fs) d -> held (log_image b szPage nCkpt salt fs) d') /\ (rc = SQLITE_OK -> synced -> held (log_image b szPage nCkpt salt (fs ++ new)) d').
Proof using Hargs Hps.
  intros Hat HF HR. destruct (page_size_props _ Hps) as (P1 & P2 & _). destruct HF as [F1 F2 F3 F4 F5 F6 F7 F8]. destruct Hargs as (A1 & A2 & A3 & A4 & A5 & A6 & A7). destruct (wal_hdr_ck_spec b szPage nCkpt salt F4) as [_ Hck0]. set (img := log_image b szPage nCkpt salt) in *. set (native := b =? SQLITE_BIGENDIAN) in *.
  assert (cksum_range (log_ck b szPage nCkpt salt fs)) as Hck by (by apply (chain_ck_range native salt szPage ltac:(lia) F4)). assert (d_file d = img fs ++ rest) as Hf by (unfold img, log_image; by rewrite <- app_assoc). pose proof (body_offset b szPage nCkpt salt fs Hps F4 F5) as Hoff. fold img in Hoff. rewrite log_pages_all, length_map in A6.
  unfold frames_body. rewrite (wr_mx _ _ HR), log_pages_all, length_map, <- Hoff. destruct (frames_loop_spec native salt szPage ltac:(lia) F4 nTruncate isCommit pList d (img fs) rest _ (len fs) Hf Hat Hck (mk_frames_ok szPage _ _ _ A2 A4) ltac:(lia) ltac:(lia) Hoff) as (rc1 & d1 & i & o & m1 & c1 & Hloop & Hw1 & Hr1 & Hwal1 & Hend1). rewrite Hloop.
  assert (length (h_aSalt (w_hdr (d_wal d))) = 8%nat) as Hs by (by destruct Hat as (_ & -> & _)). assert (length (h_aSalt (w_hdr (d_wal d1))) = 8%nat) as Hs1 by (by rewrite Hwal1). apply (frames_loop_after (img fs)) in Hloop; [|lia|done|lia].
  assert (img fs `prefix_of` d_file d) as Hpre by (rewrite Hf; by eexists). destruct (assert_ _) as [[]|]; [|done]. cbn [mbind option_bind]. destruct (Z.eqb_spec rc1 SQLITE_OK) as [->|Hrc1]; cbn [negb].
  2: { intros [= <- <-]. split; [intros Hh; by apply Hloop; [|left]|done]. }
  destruct (Hend1 eq_refl) as (-> & -> & _). rewrite (proj1 Hr1 eq_refl) in Hw1. apply wrote_all in Hw1. pose proof (log_image_app b szPage nCkpt salt fs new) as Happ. fold img native in Happ. rewrite <- Happ in Hw1. clear Happ. assert (Forall (frame_ok szPage) (fs ++ new)) as Hnew by (apply Forall_app; split; [done|by apply mk_frames_ok]).
  assert (len (fs ++ new) = len fs + len pList) as Hlen by (rewrite length_app, <- (length_map f_pgno new), mk_frames_pgno, length_map; lia). pose proof (body_offset b szPage nCkpt salt _ Hps F4 Hnew) as Hoff2. fold img in Hoff2. rewrite Hlen in Hoff2.
  assert (Z.of_nat (length (img fs)) + len pList * (szPage + WAL_FRAME_HDRSIZE) = walFrameOffset (len fs + len pList + 1) szPage) as -> by (rewrite Hoff; unfold walFrameOffset; lia).
  destruct (frames_sync _ _ _ _ _ _ _ _) as [[[[ret rc2] d2] k]|] eqn:Hsync; [|done]. cbn [mbind option_bind]. assert (forall P, Z.of_nat (length P) <= walFrameOffset (len fs + len pList + 1) szPage -> after P (rc2 = SQLITE_OK /\ synced) d1 d2) as Hsy by (intros P HP; eapply (frames_sync_after P cfg d1 szPage); [lia|lia|exact Hs1|exact HP|exact Hsync]).
  pose proof (frames_sync_keep _ _ _ _ _ _ _ _ _ _ _ _ Hsync) as [_ Hret]. set (d3 := frames_limit cfg d2 szPage _ k isCommit). assert (forall P, Z.of_nat (length P) <= walFrameOffset (len fs + len pList + 1) szPage -> after P False d2 d3) as Hli.
  { intros P HP. apply frames_limit_after. unfold walFrameOffset in *. change WAL_FRAME_HDRSIZE with 24 in *. nia. }
  assert (Z.of_nat (length (img fs)) <= walFrameOffset (len fs + len pList + 1) szPage) as Hfl by (rewrite Hoff; unfold walFrameOffset; change WAL_FRAME_HDRSIZE with 24; nia). assert (img (fs ++ new) `prefix_of` d_file d1) as Hpre1 by (rewrite Hw1; by eexists).
  assert ((held (img fs) d -> held (img fs) d2 /\ held (img fs) d3) /\ (rc2 = SQLITE_OK -> synced -> held (img (fs ++ new)) d3)) as [HA HB].
  { split.
    - intros Hh. destruct (Hloop Hpre) as [Q1 Q2]. destruct (Hsy _ Hfl Q1) as [Q3 Q4]. destruct (Hli _ Hfl Q3) as [_ Q6]. split; [apply Q4; left; by apply Q2; left|]. apply Q6. left. apply Q4. left. apply Q2. by left.
    - intros Hrc Hsn. destruct (Hsy (img (fs ++ new)) ltac:(lia) Hpre1) as [Q3 Q4]. destruct (Hli (img (fs ++ new)) ltac:(lia) Q3) as [_ Q6]. apply Q6. left. apply Q4. by right. }
  clearbody d3. destruct ret; [intros [= <- <-]; split; [intros Hh; by apply HA|intros Hrc; by specialize (Hret eq_refl)]|]. destruct (Z.eqb_spec rc2 SQLITE_OK) as [->|Hrc2].
  - destruct (walFrames_index _ _ _ _ _ _) as [[rc3 w3]|]; [|done]. cbn [mbind option_bind]. intros [= <- <-]. split; [intros Hh; by apply HA|intros _; by apply HB].
  - intros [= <- <-]. split; [intros Hh; by apply HA|done].
Qed.
End Body.

(** ** Recovery after a crash of the machine *)

(** Recovery finds at least the frames of [pages]. *)
Definition recovers (d : WalDb) (pages : list Z) : Prop :=
  exists rc d', walIndexRecover d = Some (rc, d') /\ (rc = SQLITE_OK -> exists L, wal_rel (d_wal d') (mkLog L []) /\ pages `prefix_of` L) /\ (rc <> SQLITE_OK -> io_fail d rc).

(** After any crash the file begins with [P], and recovery by any connection finds at least [pages]; a file
    of up to 2^39 bytes has fewer frames than the index has room for. *)
Definition crash_recovers (d : WalDb) (P pages : list Z) : Prop :=
  forall d2, crash_image d (d_file d2) -> Forall is_byte (d_file d2) -> Z.of_nat (length (d_file d2)) <= 2 ^ 39 -> reader_ok (d_wal d2) (w_mapped (d_wal d2)) -> P `prefix_of` d_file d2 /\ recovers d2 pages.

Lemma on_disk_recovers b szPage nCkpt salt gs d : page_size szPage -> length salt = 8%nat -> b = 0 \/ b = 1 -> 0 <= nCkpt < 2 ^ 32 -> Forall (frame_ok szPage) gs -> on_disk (log_image b szPage nCkpt salt gs) d ->
  crash_recovers d (log_image b szPage nCkpt salt gs) (map f_pgno (take (commits gs) gs)).
Proof.
  intros Hps Hs Hb Hn Hgs Hd d2 Hc Hbytes Hlen Hrd. pose proof (Hd _ Hc) as Hpre. split; [done|]. destruct Hpre as [t Ht]. destruct (image_frames b szPage nCkpt salt Hps Hs gs (d_file d2) t Hb Hn Hgs Hbytes Ht) as (more & rest & Hok & Hf & Hrej).
  assert (len (gs ++ more) < 2 ^ 30) as Hmax. { destruct (image_length b szPage nCkpt salt Hps Hs _ Hok) as [Hl ?]. rewrite Hf, length_app in Hlen. nia. }
  pose proof (image_log_file b szPage nCkpt salt Hps Hs _ _ _ Hb Hn Hok Hmax Hbytes Hf) as HF. destruct (walIndexRecover_spec d2 b szPage nCkpt salt _ rest HF Hrej Hrd) as (rc & d3 & Hrec & _ & Hgood & Hbad). exists rc, d3. split; [done|]. split; [|done]. intros Hrc. destruct (Hgood Hrc) as [HR _]. eexists. split; [exact HR|].
  pose proof (commits_le gs) as Hle. rewrite commits_app, map_app. destruct (Nat.eqb_spec (commits more) 0) as [|Hk].
  - rewrite take_app_le by (rewrite length_map; lia). rewrite firstn_map. done.
  - rewrite take_app_ge by (rewrite length_map; lia). apply prefix_app_r. rewrite <- firstn_map. eexists. symmetry. apply take_drop.
Qed.

(** The call with the header of the log in place *)
Lemma walFrames_after cfg d szPage b nCkpt salt fs c rest pList nTruncate isCommit sync_flags rsalt rc d' : log_rel d szPage b nCkpt salt fs c rest -> log_at d szPage b nCkpt salt fs -> frames_args szPage cfg (log_pages fs c) pList nTruncate isCommit -> length rsalt = 8%nat -> Forall is_byte rsalt ->
  walFrames_write cfg d szPage pList nTruncate isCommit sync_flags rsalt = Some (rc, d') ->
  exists b' nCkpt' salt', (b' = 0 \/ b' = 1) /\ 0 <= nCkpt' < 2 ^ 32 /\ length salt' = 8%nat /\ (fs <> [] -> b' = b /\ nCkpt' = nCkpt /\ salt' = salt) /\
    (fs <> [] -> held (log_image b szPage nCkpt salt fs) d -> held (log_image b szPage nCkpt salt fs) d') /\
    (rc = SQLITE_OK -> commit_syncs cfg isCommit sync_flags (walFrameOffset (len fs + len pList + 1) szPage) -> held (log_image b' szPage nCkpt' salt' (fs ++ mk_frames nTruncate isCommit pList)) d').
Proof.
  intros HL Hat Hargs Hrl Hrb. pose proof HL as [L1 L2 L3 L4 L5 L6 (L7 & L8 & L9) L10]. unfold walFrames_write. intros Hex. apply bind_Some in Hex as ([] & _ & Hex). apply bind_Some in Hex as ([] & _ & Hex). revert Hex. rewrite (wr_mx _ _ L1), log_pages_all, length_map. destruct (decide (fs = [])) as [->|Hne].
  - change (len (@nil frame) =? 0) with true. cbv iota. destruct (frames_header_spec cfg d _ szPage sync_flags rsalt L1 L3 L10 Hrl Hrb L7) as (rc1 & d1 & m & s1 & -> & Hf1 & Hm & Hok1 & _ & _ & HR1 & Hat1 & Hsl & Hsb & Hn1 & _). cbn [mbind option_bind]. destruct (Z.eqb_spec rc1 SQLITE_OK) as [->|Hrc1]; cbn [negb]; intros H; exists 0, (w_nCkpt (d_wal d)), s1; (split; [by left|]); (split; [done|]); (split; [done|]); (split; [done|]); (split; [done|]).
    2: { injection H as <- _. by intros ?. }
    eapply (body_after cfg szPage pList nTruncate isCommit sync_flags [] c Hargs L3 d1 0 (w_nCkpt (d_wal d)) s1 (drop 32 (d_file d))); [exact Hat1| |exact HR1|exact H].
    rewrite (Hok1 eq_refl), take_ge in Hf1 by (rewrite wal_hdr_length by done; lia). split; try done; [by left|]. rewrite Hf1. apply Forall_app. split; [by apply wal_hdr_mem|by apply Forall_drop].
  - rewrite (proj2 (Z.eqb_neq _ 0)) by (destruct fs; [done|cbn; lia]). cbn [mbind option_bind Z.eqb SQLITE_OK negb]. destruct (Hat Hne) as [_ Hck]. intros H. exists b, nCkpt, salt. pose proof L4 as [F1 F2 F3 F4 F5 F6 F7 F8]. split; [done|]. split; [done|]. split; [done|]. split; [done|].
    destruct (body_after cfg szPage pList nTruncate isCommit sync_flags fs c Hargs L3 d b nCkpt salt rest rc d' Hck L4 L1 H) as [HA HB]. split; [done|exact HB].
Qed.

(** C24. A commit survives a crash of the machine: if sqlite3WalFrames (after walRestartLog) returns SQLITE_OK for a commit
    with WAL_SYNC_TRANSACTIONS set (PRAGMA synchronous=FULL), then every file that a power failure may leave, each
    byte and the size being those of some moment since the last successful sync, begins with the log up to and
    with this transaction, and recovery from it finds at least its frames; when transactions are padded to a
    sector boundary, this holds if the frames did not already end at one.  Whatever the call returns,
    frames of the log that were safe from a crash before it are so after it. *)
Theorem wal_commit_durable cfg d szPage b nCkpt salt fs c rest pList nTruncate isCommit sync_flags rsalt : log_rel d szPage b nCkpt salt fs c rest -> log_at d szPage b nCkpt salt fs -> frames_args szPage cfg (log_pages fs c) pList nTruncate isCommit -> length rsalt = 8%nat -> Forall is_byte rsalt ->
  exists rc d' b' nCkpt' salt', walFrames_write cfg d szPage pList nTruncate isCommit sync_flags rsalt = Some (rc, d') /\
    (fs <> [] -> on_disk (log_image b szPage nCkpt salt fs) d -> on_disk (log_image b szPage nCkpt salt fs) d' /\ crash_recovers d' (log_image b szPage nCkpt salt fs) (map f_pgno (take c fs))) /\
    (rc = SQLITE_OK -> commit_syncs cfg isCommit sync_flags (walFrameOffset (len fs + len pList + 1) szPage) ->
       on_disk (log_image b' szPage nCkpt' salt' (fs ++ mk_frames nTruncate isCommit pList)) d' /\ crash_recovers d' (log_image b' szPage nCkpt' salt' (fs ++ mk_frames nTruncate isCommit pList)) (map f_pgno fs ++ map fst pList)).
Proof.
  intros HL Hat Hargs Hrl Hrb. destruct (walFrames_spec cfg d szPage b nCkpt salt fs c rest pList nTruncate isCommit sync_flags rsalt HL Hat Hargs Hrl Hrb) as (rc & d' & _ & _ & _ & _ & _ & Heq & _). destruct (walFrames_after cfg d szPage b nCkpt salt fs c rest pList nTruncate isCommit sync_flags rsalt rc d' HL Hat Hargs Hrl Hrb Heq) as (b' & n' & s' & Hb & Hn & Hs & Hsame & HA & HB).
  pose proof HL as [L1 L2 L3 L4 L5 L6 L7 L8]. pose proof Hargs as (A1 & A2 & A3 & A4 & A5 & A6 & A7). assert (Forall (frame_ok szPage) fs) as Hfs by (destruct (decide (fs = [])) as [->|]; [done|apply L4]). exists rc, d', b', n', s'. split; [exact Heq|]. split.
  - intros Hne Hd. destruct (Hsame Hne) as (-> & -> & ->). assert (on_disk (log_image b szPage nCkpt salt fs) d') as Hd' by (apply held_on_disk, HA; [done|by apply held_on_disk]). split; [done|]. rewrite <- L2. by apply on_disk_recovers.
  - intros Hrc Hsy. pose proof (HB Hrc Hsy) as Hd'. apply held_on_disk in Hd'. split; [done|]. destruct Hsy as (Hc & _). set (new := mk_frames nTruncate isCommit pList) in *.
    assert (commits (fs ++ new) = length (fs ++ new)) as Hall. { assert (new = body_frames pList nTruncate isCommit 0) as Hnew by (unfold body_frames; by rewrite app_nil_r). rewrite commits_app, (body_commits pList nTruncate isCommit 0 new A3 A5 ltac:(done)) by (by rewrite Hnew). rewrite Hc. cbn [andb]. assert (length new = length pList) as -> by (unfold new; rewrite <- (length_map f_pgno), mk_frames_pgno, length_map; done). rewrite Nat.leb_refl, length_app. destruct (Nat.eqb_spec (length pList) 0) as [H0|_]; [by destruct pList|]. unfold new. rewrite <- (length_map f_pgno (mk_frames _ _ _)), mk_frames_pgno, length_map. done. }
    assert (map f_pgno fs ++ map fst pList = map f_pgno (take (commits (fs ++ new)) (fs ++ new))) as ->. { rewrite Hall, take_ge by lia. rewrite map_app. unfold new. by rewrite mk_frames_pgno. }
    apply on_disk_recovers; try done. apply Forall_app. split; [done|by apply mk_frames_ok].
Qed.

(** ** Calls without a sync *)

Definition grows (d d' : WalDb) : Prop := forall v, v ∈ versions d -> v ∈ versions d'.

Lemma grows_refl d : grows d d.
Proof. by unfold grows. Qed.

Lemma grows_trans d1 d2 d3 : grows d1 d2 -> grows d2 d3 -> grows d1 d3.
Proof. unfold grows. auto. Qed.

Lemma grows_set_file d f : grows d (set_file d f).
Proof. intros v Hv. unfold versions in *. cbn. apply elem_of_app. by left. Qed.

Lemma os_write_grows d l o rc d' : os_write d l o = (rc, d') -> grows d d'.
Proof. unfold os_write, next_io. destruct (d_io d) as [|[r n] io]; intros [= _ <-]; [apply grows_set_file|]. apply (grows_set_file (set_io d io)). Qed.

Lemma frames_loop_grows z n isCommit l : 0 <= z -> forall d f o rc d' f' o', 0 <= o -> frames_loop d z n isCommit f o l = Some (rc, d', f', o') -> grows d d'.
Proof.
  intros Hz. assert (forall d p m o rc d', 0 <= o -> walWriteOneFrame d 0 z p m o = Some (rc, d') -> grows d d') as Hone.
  { intros d p m o rc d' Ho. unfold walWriteOneFrame, walWriteToLog. rewrite !(proj2 (Z.ltb_ge _ 0)) by (change WAL_FRAME_HDRSIZE with 24; lia). cbn [andb]. intros H. binds; repeat match goal with H : os_write _ _ _ = _ |- _ => apply os_write_grows in H end; [done|]. by eapply grows_trans. }
  induction l as [|p l IH]; intros d f o rc d' f' o' Ho H; cbn [frames_loop] in H; [injection H as _ <- _ _; apply grows_refl|]. binds; match goal with H : walWriteOneFrame _ _ _ _ _ _ = _ |- _ => apply Hone in H; [|done] end; [done|]. eapply grows_trans; [eassumption|]. eapply IH; [|eassumption]. change WAL_FRAME_HDRSIZE with 24. lia.
Qed.

Lemma frames_limit_grows c d z i J isCommit : grows d (frames_limit c d z i J isCommit).
Proof.
  unfold frames_limit. destruct (isCommit && _ && _); [|apply grows_refl]. cbv zeta. unfold walLimitSize. destruct (os_call_spec d) as (rx & io & -> & _). destruct ((rx =? SQLITE_OK) && _); [|exact (grows_refl d)]. unfold os_truncate. destruct (os_call_spec (set_io d io)) as (r & io2 & -> & _).
  cbn [snd]. destruct (r =? SQLITE_OK); [exact (grows_set_file d _)|exact (grows_refl d)].
Qed.

(** C35. A padded commit that ends at a sector boundary is not synced: with padToSectorBoundary set, if the
    frames of the transaction already end at a multiple of the sector size, the loop that pads and
    syncs makes no round, so that whatever sqlite3WalFrames returns, SQLITE_OK included, and whatever
    sync_flags are, a crash of the machine may leave the log file as it was before the call. *)
Theorem wal_pad_aligned_unsynced cfg d szPage b nCkpt salt fs c rest pList nTruncate isCommit sync_flags rsalt rc d' : log_rel d szPage b nCkpt salt fs c rest -> log_at d szPage b nCkpt salt fs -> frames_args szPage cfg (log_pages fs c) pList nTruncate isCommit ->
  fs <> [] -> c_pad cfg = true -> walFrameOffset (len fs + len pList + 1) szPage mod c_sectorSize cfg = 0 -> walFrames_write cfg d szPage pList nTruncate isCommit sync_flags rsalt = Some (rc, d') ->
  crash_image d' (d_file d).
Proof.
  intros HL Hat (A1 & A2 & A3 & A4 & A5 & A6 & A7) Hne Hpad Hmod Hex. pose proof HL as [L1 _ Hps L4 _ _ _ _]. rewrite decide_False in L4 by done. destruct L4 as [F1 F2 F3 F4 F5 F6 F7 F8]. destruct (page_size_props _ Hps) as (P1 & P2 & _). destruct (Hat Hne) as [_ Hck]. rewrite log_pages_all, length_map in A6.
  assert (grows d d') as Hg; [|split; [exists (d_file d); split; [apply Hg, elem_of_app; right; apply elem_of_cons; by left|done]|intros i x Hx; exists (d_file d); split; [apply Hg, elem_of_app; right; apply elem_of_cons; by left|by left]]].
  unfold walFrames_write in Hex. apply bind_Some in Hex as ([] & _ & Hex). apply bind_Some in Hex as ([] & _ & Hex). rewrite (wr_mx _ _ L1), log_pages_all, length_map, (proj2 (Z.eqb_neq _ 0)) in Hex by (destruct fs; [done|cbn; lia]). cbn [mbind option_bind] in Hex. change (negb (SQLITE_OK =? SQLITE_OK)) with false in Hex. cbv iota in Hex.
  unfold frames_body in Hex. rewrite (wr_mx _ _ L1), log_pages_all, length_map in Hex. pose proof (body_offset b szPage nCkpt salt fs Hps F4 F5) as Hoff. destruct (wal_hdr_ck_spec b szPage nCkpt salt F4) as [_ Hck0]. set (native := b =? SQLITE_BIGENDIAN) in *.
  destruct (frames_loop_spec native salt szPage ltac:(lia) F4 nTruncate isCommit pList d (log_image b szPage nCkpt salt fs) rest (log_ck b szPage nCkpt salt fs) (len fs)) as (rc1 & d1 & i & o & m1 & c1 & Hloop & _ & _ & _ & Hend1); [unfold log_image; by rewrite <- app_assoc|done|by apply (chain_ck_range native salt szPage ltac:(lia) F4)|by apply mk_frames_ok|lia|lia|done|].
  rewrite Hoff in Hloop, Hend1. apply bind_Some in Hex as ([] & _ & Hex). rewrite Hloop in Hex. cbn [mbind option_bind] in Hex. apply frames_loop_grows in Hloop; [|lia|unfold walFrameOffset; change WAL_HDRSIZE with 32; change WAL_FRAME_HDRSIZE with 24; nia].
  destruct (Z.eqb_spec rc1 SQLITE_OK) as [->|Hrc1]; cbn [negb] in Hex; [|by injection Hex as _ <-]. destruct (Hend1 eq_refl) as (-> & -> & _).
  assert (walFrameOffset (len fs + 1) szPage + len pList * (szPage + WAL_FRAME_HDRSIZE) = walFrameOffset (len fs + len pList + 1) szPage) as E by (unfold walFrameOffset; lia). rewrite E in Hex. set (o := walFrameOffset (len fs + len pList + 1) szPage) in *. assert (0 <= o) as Ho by (unfold o, walFrameOffset; change WAL_HDRSIZE with 32; change WAL_FRAME_HDRSIZE with 24; nia).
  assert (frames_sync cfg d1 szPage nTruncate isCommit sync_flags (List.last pList (0, [])) o = Some (false, SQLITE_OK, d1, 0%nat)) as Hsync.
  { unfold frames_sync. destruct (isCommit && _); [|done]. rewrite Hpad, Z.quot_div_nonneg by lia. assert ((o + c_sectorSize cfg - 1) / c_sectorSize cfg * c_sectorSize cfg = o) as ->. { apply Z.mod_divide in Hmod as [q ->]; [|lia]. f_equal. symmetry. apply (Z.div_unique _ _ _ (c_sectorSize cfg - 1)); lia. }
    cbn [pad_loop]. by rewrite Z.ltb_irrefl. }
  rewrite Hsync in Hex. cbn [mbind option_bind] in Hex. change (SQLITE_OK =? SQLITE_OK) with true in Hex. cbv iota in Hex. apply bind_Some in Hex as ([rc3 w3] & _ & Hex). injection Hex as _ <-. eapply grows_trans; [exact Hloop|]. intros v Hv. by apply (frames_limit_grows cfg d1 szPage (len fs + len pList) 0 isCommit).
Qed.

(** ** Examples *)

(** Two pages of a transaction, and two more that end it: with sectors of 32 bytes they end at a boundary. *)
Definition ex_cfg2 : WalCfg := mkCfg true true 32 (-1).
Definition ex_db1 : WalDb := default ex_db (snd <$> walFrames_write ex_cfg ex_db 512 ex_pages 0 false 0x22 ex_salt).
Definition ex_db2 : WalDb := default ex_db (snd <$> walFrames_write ex_cfg2 ex_db1 512 ex_pages 3 true 0x22 ex_salt).

Lemma ex_runs : walFrames_write ex_cfg ex_db 512 ex_pages 0 false 0x22 ex_salt = Some (SQLITE_OK, ex_db1) /\ walFrames_write ex_cfg2 ex_db1 512 ex_pages 3 true 0x22 ex_salt = Some (SQLITE_OK, ex_db2).
Proof. vm_compute. done. Qed.

Lemma ex_db1_log : exists b nCkpt salt rest, log_rel ex_db1 512 b nCkpt salt (body_frames ex_pages 0 false 0) 0 rest /\ log_at ex_db1 512 b nCkpt salt (body_frames ex_pages 0 false 0).
Proof.
  destruct (walFrames_spec ex_cfg ex_db 512 0 0 ex_salt [] 0 [] ex_pages 0 false 0x22 ex_salt (proj1 ex_log) (proj2 ex_log)) as (rc & d' & b' & n' & s' & J & rest' & Heq & [_ P2 _ [PJ _] _]); [split_and!; try done; [apply ex_pages_ok|repeat constructor; done]|done|apply ex_salt_mem|].
  rewrite (proj1 ex_runs) in Heq. destruct (some_pair_inj _ _ _ _ Heq) as [<- <-]. rewrite (PJ eq_refl) in P2. destruct (P2 eq_refl) as [HL Hat]. exists b', n', s', rest'. split; [exact HL|exact Hat].
Qed.

Lemma wal_pad_aligned_unsynced_witness : walFrames_write ex_cfg2 ex_db1 512 ex_pages 3 true 0x22 ex_salt = Some (SQLITE_OK, ex_db2) /\ crash_image ex_db2 (d_file ex_db1).
Proof.
  split; [exact (proj2 ex_runs)|]. destruct ex_db1_log as (b & n & s & rest & HL & Hat). apply (wal_pad_aligned_unsynced ex_cfg2 ex_db1 512 b n s (body_frames ex_pages 0 false 0) 0 rest ex_pages 3 true 0x22 ex_salt SQLITE_OK ex_db2 HL Hat); [|done|done|reflexivity|exact (proj2 ex_runs)].
  split_and!; try done. apply ex_pages_ok.
Defined.

Lemma wal_commit_durable_witness : exists d' b' nCkpt' salt', walFrames_write ex_cfg ex_db 512 ex_pages 3 true 0x22 ex_salt = Some (SQLITE_OK, d') /\ crash_recovers d' (log_image b' 512 nCkpt' salt' (mk_frames 3 true ex_pages)) [2; 3].
Proof.
  destruct (wal_commit_durable ex_cfg ex_db 512 0 0 ex_salt [] 0 [] ex_pages 3 true 0x22 ex_salt (proj1 ex_log) (proj2 ex_log) ex_args eq_refl ex_salt_mem) as (rc & d' & b' & n' & s' & Heq & _ & Hd). assert (rc = SQLITE_OK) as -> by (vm_compute in Heq; by inversion Heq).
  exists d', b', n', s'. split; [exact Heq|]. apply Hd; [reflexivity|]. split; [reflexivity|]. split; [discriminate|]. intros _. vm_compute. discriminate.
Defined.
