(* ===== verification/WalBegin.v ===== *)
(** * WalBegin: what a reader holds after it began (wal.c)

    However the locks turn out, sqlite3WalBeginReadTransaction returns after at most
    101 attempts; when it succeeds, the reader has the shared header, and a lock on a
    mark that is at most its last frame, or on mark 0 with the whole log in the
    database file. *)
From S2P Require Import Prelude Varint Record Page PageLayout Wal WalLog WalHash WalIndex WalSpec WalFrame WalRecover WalSort WalIter UnixLock WalCkpt WalFile WalBackfill WalRead.

(** ** Shared memory *)

(** Only marks that no other connection holds change. *)
Record shared_marks (e : LockEnv) (w w' : Wal) : Prop := {
  sm_pages : w_apWiData w' = w_apWiData w;
  sm_aHdr : w_aHdr w' = w_aHdr w;
  sm_nBackfill : ci_nBackfill (w_info w') = ci_nBackfill (w_info w);
  sm_len : length (ci_aReadMark (w_info w')) = length (ci_aReadMark (w_info w));
  sm_zero : mark w' 0 = mark w 0;
  sm_held : forall i, held e i -> mark w' i = mark w i;
  sm_mapped : w_mapped w' = w_mapped w;
  sm_nCkpt : w_nCkpt w' = w_nCkpt w }.

Lemma shared_refl e w w' : w_apWiData w' = w_apWiData w -> w_aHdr w' = w_aHdr w -> w_info w' = w_info w -> w_mapped w' = w_mapped w -> w_nCkpt w' = w_nCkpt w -> shared_marks e w w'.
Proof. intros H1 H2 H3 H4 H5. unfold mark. split; try done; unfold mark; by rewrite ?H3. Qed.

Lemma shared_trans e w1 w2 w3 : shared_marks e w1 w2 -> shared_marks e w2 w3 -> shared_marks e w1 w3.
Proof. intros [A1 A2 A3 A4 A5 A6 A7 A8] [B1 B2 B3 B4 B5 B6 B7 B8]. split; try congruence. intros i Hi. rewrite B6 by done. by apply A6. Qed.

(** A connection with no read lock, on a log whose shared header is [h] *)
Record idle (w : Wal) (h : WalIndexHdr) : Prop := {
  id_hdr : w_aHdr w = (h, h);
  id_valid : hdr_valid h;
  id_mapped : 0 ∈ w_mapped w;
  id_marks : length (ci_aReadMark (w_info w)) = 5%nat;
  id_lock : w_readLock w < 0;
  id_mx : h_mxFrame h < READMARK_NOT_USED }.

Lemma idle_shared e w w' h : idle w h -> shared_marks e w w' -> w_readLock w' = w_readLock w -> idle w' h.
Proof. intros [H1 H2 H3 H4 H5 H6] [S1 S2 S3 S4 S5 S6 S7 S8] Hl. split; congruence || (rewrite ?S7, ?Hl; done). Qed.

(** ** The header *)

Lemma walIndexReadHdr_spec e readOnly d pChanged h : idle (d_wal d) h ->
  exists sz chg, walIndexReadHdr e readOnly d pChanged = Some (SQLITE_OK, set_wal d (set_wsz (set_hdr (d_wal d) h) sz), chg).
Proof.
  intros [H1 (V1 & V2 & V3 & V4) H3 H4 H5 H6]. unfold walIndexReadHdr, walIndexPage. rewrite decide_True by done. cbn [negb Z.eqb SQLITE_OK]. cbn [d_wal set_wal]. unfold walIndexTryHdr. rewrite bool_decide_true by done. cbn [assert_ mbind option_bind]. rewrite H1. rewrite decide_False by (intros Hne; by apply Hne). rewrite V1. cbn [Z.eqb].
  rewrite V4. cbn [mbind option_bind]. rewrite !Z.eqb_refl. cbn [negb orb]. destruct (decide (w_hdr (d_wal d) <> h)) as [Hne|He]; cbn [mbind option_bind].
  - cbn [d_wal set_wal w_hdr set_wsz set_hdr]. rewrite V2. cbn [Z.eqb negb andb]. eexists _, _. done.
  - apply dec_stable in He. cbn [d_wal set_wal]. rewrite He, V2. exists (w_szPage (d_wal d)), pChanged. assert (set_wsz (set_hdr (d_wal d) h) (w_szPage (d_wal d)) = d_wal d) as -> by (rewrite <- He; by destruct (d_wal d)). done.
Qed.

(** An error of the operating system *)
Definition os_code (d : WalDb) (rc : Z) : Prop := rc <> SQLITE_BUSY /\ exists k, (rc, k) ∈ d_io d.

Lemma os_code_suffix d d' rc : d_io d' `suffix_of` d_io d -> os_code d' rc -> os_code d rc.
Proof. intros [q Hq] [H1 (k & Hk)]. split; [done|]. exists k. rewrite Hq. apply elem_of_app. by right. Qed.

Lemma walLockShared_spec e d : exists rc io, walLockShared e d = (rc, set_io d io) /\ io `suffix_of` d_io d /\ (rc <> SQLITE_OK -> rc <> SQLITE_BUSY -> os_code d rc).
Proof. unfold walLockShared. destruct (e_exclusiveMode e); [exists SQLITE_OK, (d_io d); by destruct d|]. destruct (os_call_spec d) as (rc & io & -> & Hio & Hbad). exists rc, io. split; [done|]. split; [done|]. intros H1 H2. split; [done|by apply Hbad]. Qed.

Lemma walLockExclusive_code e d lockIdx n rc d' : walLockExclusive e d lockIdx n = (rc, d') -> rc <> SQLITE_OK -> rc <> SQLITE_BUSY -> os_code d rc.
Proof.
  unfold walLockExclusive, shm_lock_exclusive. destruct (e_exclusiveMode e); [intros [= <- _]; done|]. destruct (os_call_spec d) as (rc0 & io & -> & _ & Hbad). intros [= <- _] H1 H2. destruct ((rc0 =? SQLITE_OK) && _); [done|]. split; [done|by apply Hbad].
Qed.

(** ** Marks *)

Lemma best_mark_spec w : length (ci_aReadMark (w_info w)) = 5%nat -> mxFrame w < READMARK_NOT_USED -> forall fuel i m k, 1 <= i <= 5 -> 5 - i < Z.of_nat fuel -> (k = 0 \/ 1 <= k < 5 /\ mark w k = m /\ m <= mxFrame w) ->
  exists m' k', best_mark fuel w i m k = Some (m', k') /\ (k' = 0 \/ 1 <= k' < 5 /\ mark w k' = m' /\ m' <= mxFrame w).
Proof.
  intros Hl Hmx. induction fuel as [|fuel IH]; intros i m k Hi Hf Hk; [lia|]. cbn [best_mark]. change WAL_NREADER with 5. destruct (Z.ltb_spec i 5); [|by exists m, k]. destruct (aget_is_Some (ci_aReadMark (w_info w)) i) as [y Hy]; [lia|]. rewrite Hy. cbn [mbind option_bind].
  destruct ((m <=? y) && (y <=? mxFrame w)) eqn:Hc; [|apply IH; [lia|lia|done]]. rewrite (proj2 (Z.eqb_neq y _)) by lia. cbn [negb assert_ mbind option_bind]. apply IH; [lia|lia|]. right. split; [lia|]. split; [unfold mark; by rewrite Hy|lia].
Qed.

(** The claim of a mark *)
Lemma claim_mark_spec e : forall fuel d i m k rc, length (ci_aReadMark (w_info (d_wal d))) = 5%nat -> 1 <= i <= 5 -> 5 - i < Z.of_nat fuel -> (k = 0 \/ 1 <= k < 5 /\ mark (d_wal d) k = m /\ m <= mxFrame (d_wal d)) -> (i = 5 -> k = 0 -> rc = SQLITE_BUSY) ->
  exists ret rc' d' m' k', claim_mark fuel e d i m k rc = Some (ret, rc', d', m', k') /\ (exists io w, d' = set_wal (set_io d io) w /\ io `suffix_of` d_io d /\ shared_marks e (d_wal d) w /\ w_hdr w = w_hdr (d_wal d) /\ w_readLock w = w_readLock (d_wal d) /\ w_szPage w = w_szPage (d_wal d)) /\
    (ret = true -> rc' <> SQLITE_OK /\ os_code d rc') /\ (ret = false -> k' = 0 /\ rc' = SQLITE_BUSY \/ 1 <= k' < 5 /\ mark (d_wal d') k' = m' /\ m' <= mxFrame (d_wal d)).
Proof.
  induction fuel as [|fuel IH]; intros d i m k rc Hl Hi Hf Hk Hb; [lia|]. cbn [claim_mark]. change WAL_NREADER with 5. assert (forall io, exists io' w, set_io d io = set_wal (set_io d io') w /\ io' = io /\ shared_marks e (d_wal d) w /\ w_hdr w = w_hdr (d_wal d) /\ w_readLock w = w_readLock (d_wal d) /\ w_szPage w = w_szPage (d_wal d)) as Hid.
  { intros io. exists io, (d_wal d). split; [by destruct d|]. split; [done|]. split; [by apply shared_refl|done]. }
  destruct (Z.ltb_spec i 5) as [Hlt|Hge].
  - destruct (walLockExclusive_spec e d (WAL_READ_LOCK i) 1) as (rc1 & io & Heq & Hio & Hfree). pose proof (walLockExclusive_code _ _ _ _ _ _ Heq) as Hcode. rewrite Heq. destruct (Z.eqb_spec rc1 SQLITE_OK) as [->|Hrc].
    + assert (~ held e i) as Hnh by (intros Hh; by apply (held_not_free e i i 1 Hh ltac:(lia)), Hfree). cbn [d_wal set_io]. unfold set_mark. destruct (aset (ci_aReadMark (w_info (d_wal d))) i (mxFrame (d_wal d))) as [ms|] eqn:Hm; [|rewrite aset_is_Some in Hm by lia; done]. cbn [mbind option_bind].
      eexists _, _, _, _, _. split; [done|]. split; [|split; [done|]].
      * eexists io, _. split; [done|]. split; [done|]. split; [|done]. split; try done; cbn [w_info set_info ci_aReadMark]; [by apply length_aset in Hm|unfold mark; cbn; by rewrite (aget_aset_ne _ _ _ _ _ Hm) by lia|]. intros j Hj. unfold mark. cbn. rewrite (aget_aset_ne _ _ _ _ _ Hm); [done|]. by intros ->.
      * intros _. right. split; [lia|]. unfold mark. cbn. rewrite (aget_aset_eq _ _ _ _ Hm). cbn. lia.
    + destruct (Z.eqb_spec rc1 SQLITE_BUSY) as [->|Hrc']; cbn [negb].
      * destruct (IH (set_io d io) (i + 1) m k SQLITE_BUSY) as (ret & rc' & d' & m' & k' & -> & (io2 & w & -> & Hio2 & Hs) & Hret & Hok); [done|lia|lia|done|done|]. eexists _, _, _, _, _. split; [done|]. split; [exists io2, w; split; [done|]; split; [by etransitivity|exact Hs]|]. split; [|done]. intros Hr. destruct (Hret Hr) as [Hr1 Hr2]. split; [done|]. eapply (os_code_suffix d (set_io d io)); done.
      * eexists _, _, _, _, _. split; [done|]. split; [destruct (Hid io) as (io' & w & -> & -> & Hs); exists io, w; done|]. split; [|done]. intros _. split; [done|by apply Hcode].
  - eexists _, _, _, _, _. split; [done|]. split; [exists (d_io d), (d_wal d); split; [by destruct d|]; split; [done|]; split; [by apply shared_refl|done]|]. split; [done|]. intros _. destruct Hk as [->|Hk]; [left; split; [done|apply Hb; lia]|by right].
Qed.

(** ** One attempt *)

(** The outcome of an attempt by a connection on a log with header [h] *)
Definition begun (e : LockEnv) (useWal : bool) (h : WalIndexHdr) (d d' : WalDb) (rc : Z) : Prop :=
  exists io w, d' = set_wal (set_io d io) w /\ io `suffix_of` d_io d /\ shared_marks e (d_wal d) w /\ (useWal = true -> w_szPage w = w_szPage (d_wal d)) /\
    (rc = SQLITE_OK -> w_hdr w = h /\ (w_readLock w = 0 /\ useWal = false /\ ci_nBackfill (w_info w) = h_mxFrame h \/ 1 <= w_readLock w < 5 /\ mark w (w_readLock w) <= h_mxFrame h)) /\
    (rc <> SQLITE_OK -> w_readLock w = w_readLock (d_wal d) /\ (w_hdr w = h \/ w_hdr w = w_hdr (d_wal d)) /\ (rc = SQLITE_PROTOCOL \/ rc = WAL_RETRY \/ os_code d rc)).

Lemma begun_fail e useWal h d io w rc : io `suffix_of` d_io d -> shared_marks e (d_wal d) w -> (useWal = true -> w_szPage w = w_szPage (d_wal d)) -> w_readLock w = w_readLock (d_wal d) -> w_hdr w = h \/ w_hdr w = w_hdr (d_wal d) -> rc <> SQLITE_OK -> rc = WAL_RETRY \/ os_code d rc ->
  begun e useWal h d (set_wal (set_io d io) w) rc /\ (rc = SQLITE_OK \/ rc = WAL_RETRY \/ os_code d rc).
Proof. intros H1 H2 H3 H4 H5 H6 H7. split; [|auto]. exists io, w. split_and!; auto. done. Qed.

Lemma begin_wal_spec e useWal d h rc : idle (d_wal d) h -> w_hdr (d_wal d) = h -> exists rc' d', begin_wal e 0 d rc = Some (rc', d') /\ begun e useWal h d d' rc' /\ (rc' = SQLITE_OK \/ rc' = WAL_RETRY \/ os_code d rc').
Proof.
  intros HI Hh. pose proof HI as [H1 _ H3 H4 H5 H6]. rewrite <- Hh in H6. unfold begin_wal. destruct (best_mark_spec (d_wal d) H4 H6 5 1 0 0 ltac:(lia) ltac:(lia) (or_introl eq_refl)) as (m & k & -> & Hk). cbn [mbind option_bind]. change (Z.land 0 WAL_SHM_RDONLY =? 0) with true. cbn [andb negb].
  assert (exists ret rc1 d1 m1 k1, (if (m <? mxFrame (d_wal d)) || (k =? 0) then claim_mark 5 e d 1 m k rc else Some (false, rc, d, m, k)) = Some (ret, rc1, d1, m1, k1) /\
    (exists io w, d1 = set_wal (set_io d io) w /\ io `suffix_of` d_io d /\ shared_marks e (d_wal d) w /\ w_hdr w = w_hdr (d_wal d) /\ w_readLock w = w_readLock (d_wal d) /\ w_szPage w = w_szPage (d_wal d)) /\
    (ret = true -> rc1 <> SQLITE_OK /\ os_code d rc1) /\ (ret = false -> k1 = 0 /\ rc1 = SQLITE_BUSY \/ 1 <= k1 < 5 /\ mark (d_wal d1) k1 = m1 /\ m1 <= mxFrame (d_wal d))) as (ret & rc1 & d1 & m1 & k1 & -> & (io & w & -> & Hio & Hs & Hw1 & Hw2 & Hw3) & Hret & Hok).
  { destruct ((m <? mxFrame (d_wal d)) || (k =? 0)) eqn:Hc; [apply claim_mark_spec; [done|lia|lia|done|lia]|]. eexists _, _, _, _, _. split; [done|]. split; [exists (d_io d), (d_wal d); split; [by destruct d|]; split; [done|]; split; [by apply shared_refl|done]|]. split; [done|]. intros _. right. destruct Hk as [->|Hk]; [lia|done]. }
  cbn [mbind option_bind]. cbn [d_wal set_wal] in Hok. destruct ret; [destruct (Hret eq_refl); eexists _, _; split; [done|]; apply begun_fail; auto|]. specialize (Hok eq_refl). destruct (Z.eqb_spec k1 0) as [->|Hk1].
  - destruct Hok as [[_ ->]|]; [|lia]. cbn. eexists _, _. split; [done|]. by apply begun_fail; auto.
  - destruct Hok as [[? _]|(Hkr & Hmk & Hle)]; [lia|]. destruct (walLockShared_spec e (set_wal (set_io d io) w)) as (rc2 & io2 & -> & Hio2 & Hcode2). cbn [d_io set_wal set_io] in Hio2. assert (io2 `suffix_of` d_io d) as Hio3 by (by etransitivity). change (set_io (set_wal (set_io d io) w) io2) with (set_wal (set_io d io2) w). destruct (Z.eqb_spec rc2 SQLITE_OK) as [->|Hrc2]; cbn [negb].
    2: { eexists _, _. split; [done|]. apply begun_fail; auto; [by destruct (rc2 =? SQLITE_BUSY)|]. destruct (Z.eqb_spec rc2 SQLITE_BUSY) as [|Hnb]; [by left|]. right. eapply (os_code_suffix d (set_wal (set_io d io) w)); [done|by apply Hcode2]. }
    cbn [d_wal set_wal]. destruct Hs as [S1 S2 S3 S4 S5 S6 S7 S8]. destruct (aget_is_Some (ci_aReadMark (w_info w)) k1) as [y Hy]; [lia|]. rewrite Hy. cbn [mbind option_bind]. assert (y = m1) as -> by (unfold mark in Hmk; rewrite Hy in Hmk; done). rewrite Z.eqb_refl. cbn [negb].
    rewrite S2, H1, Hw1, Hh. cbn [fst]. rewrite decide_False by (intros Hne; by apply Hne). rewrite <- Hh, (proj2 (Z.leb_le m1 _)) by done. cbn [assert_ mbind option_bind]. eexists _, _. split; [done|]. split; [|by left]. exists io2, (set_readLock w k1). split_and!; try done. intros _. cbn [w_hdr set_readLock w_readLock]. split; [congruence|]. right. split; [done|]. change (mark (set_readLock w k1) k1) with (mark w k1). lia.
Qed.

Lemma walTryBeginRead_spec e d pChanged useWal cnt h : idle (d_wal d) h -> (useWal = true -> w_hdr (d_wal d) = h) ->
  exists rc d' chg, walTryBeginRead e 0 d pChanged useWal cnt = Some (rc, d', chg) /\ begun e useWal h d d' rc /\ (if 100 <? cnt then rc = SQLITE_PROTOCOL else rc = SQLITE_OK \/ rc = WAL_RETRY \/ os_code d rc).
Proof.
  intros HI Huse. pose proof HI as [H1 _ H3 H4 H5 H6]. unfold walTryBeginRead. rewrite (proj2 (Z.ltb_lt _ 0)) by done. cbn [assert_ mbind option_bind]. destruct (Z.ltb_spec 100 cnt) as [Hc|Hc].
  { eexists _, _, _. split; [done|]. split; [|done]. exists (d_io d), (d_wal d). split; [by destruct d|]. split; [done|]. split; [by apply shared_refl|]. split; [done|]. split; [done|]. intros _. auto. }
  assert (exists w chg, (if useWal then Some (SQLITE_OK, d, pChanged) else begin_hdr e 0 d pChanged) = Some (SQLITE_OK, set_wal d w, chg) /\ w_hdr w = h /\ shared_marks e (d_wal d) w /\ w_readLock w = w_readLock (d_wal d) /\ (useWal = true -> w_szPage w = w_szPage (d_wal d))) as (w & chg & -> & Hw & Hs & Hwl & Hwz).
  { destruct useWal; [exists (d_wal d), pChanged; split; [by destruct d|]; split; [by apply Huse|]; split; [by apply shared_refl|done]|]. unfold begin_hdr. destruct (walIndexReadHdr_spec e 0 d pChanged h HI) as (sz & chg & ->). cbn [mbind option_bind]. change (SQLITE_OK =? SQLITE_BUSY) with false. eexists _, _. split; [done|]. split; [done|]. split; [by apply shared_refl|done]. }
  cbn [mbind option_bind]. change (SQLITE_OK =? SQLITE_OK) with true. cbn [negb]. set (d1 := set_wal d w). assert (idle (d_wal d1) h) as HI1 by (by eapply idle_shared).
  assert (forall io rc, exists rc' d', begin_wal e 0 (set_io d1 io) rc = Some (rc', d') /\ (io `suffix_of` d_io d -> begun e useWal h d d' rc' /\ (rc' = SQLITE_OK \/ rc' = WAL_RETRY \/ os_code d rc'))) as Hbw.
  { intros io rc. destruct (begin_wal_spec e useWal (set_io d1 io) h rc HI1 Hw) as (rc' & d' & Heq & (io2 & w2 & -> & Hio2 & Hs2 & Hz2 & Hok & Hbad) & Hcode). exists rc', (set_wal (set_io (set_io d1 io) io2) w2). split; [done|]. intros Hio. assert (forall x, os_code (set_io d1 io) x -> os_code d x) as Hsf by (intros x; by eapply (os_code_suffix d (set_io d1 io))). split; [|naive_solver]. exists io2, w2. split; [done|]. split; [by etransitivity|]. split; [by eapply shared_trans|]. split; [intros Hu; rewrite Hz2 by done; by apply Hwz|]. split; [done|]. intros Hr. destruct (Hbad Hr) as (Hl & Hh & Hcd). cbn in Hl, Hh. split; [congruence|]. split; [left; destruct Hh; congruence|]. naive_solver. }
  assert (set_io d1 (d_io d) = d1) as Hid by done. destruct (negb useWal && _) eqn:Hcond.
  - destruct (walLockShared_spec e d1) as (rc & io & -> & Hio & Hcode). cbn [d_io set_wal d1] in Hio. destruct (Z.eqb_spec rc SQLITE_OK) as [->|Hrc].
    + cbn [d_wal set_io d1 set_wal]. destruct Hs as [S1 S2 S3 S4 S5 S6 S7 S8]. rewrite S2, H1. cbn [fst]. rewrite Hw, decide_False by (intros Hne; by apply Hne). eexists _, _, _. split; [done|]. split; [|by left]. exists io, (set_readLock w 0). split; [done|]. split; [done|]. split; [done|]. split; [done|]. split; [|done]. intros _. split; [done|]. left.
      apply andb_true_iff in Hcond as [Hu Hn]. apply negb_true_iff in Hu. apply Z.eqb_eq in Hn. cbn in Hn. split; [done|]. split; [done|]. cbn. by rewrite Hn, Hw.
    + destruct (Z.eqb_spec rc SQLITE_BUSY) as [->|Hrc']; cbn [negb].
      * destruct (Hbw io SQLITE_BUSY) as (rc' & d' & -> & Hb). cbn [mbind option_bind]. eexists _, _, _. split; [done|]. by apply Hb.
      * eexists _, _, _. split; [done|]. apply (begun_fail e useWal h d io w); auto.
  - destruct (Hbw (d_io d) SQLITE_OK) as (rc' & d' & Heq & Hb). rewrite Hid in Heq. rewrite Heq. cbn [mbind option_bind]. eexists _, _, _. split; [done|]. by apply Hb.
Qed.

(** ** The transaction *)

Lemma begin_loop_mono e ro useWal r : forall k k' d chg cnt, begin_loop k e ro d chg useWal cnt = Some r -> (k <= k')%nat -> begin_loop k' e ro d chg useWal cnt = Some r.
Proof.
  induction k as [|k IH]; intros k' d chg cnt H Hle; [done|]. destruct k' as [|k']; [lia|]. cbn [begin_loop] in *. destruct (walTryBeginRead e ro d chg useWal (cnt + 1)) as [[[rc d1] c1]|]; [|done]. cbn [mbind option_bind] in *. destruct (rc =? WAL_RETRY); [|done]. apply IH; [done|lia].
Qed.

(** The loop gives up in its 101st attempt and not before. *)
Lemma begin_loop_spec e useWal h : forall fuel d pChanged cnt, idle (d_wal d) h -> (useWal = true -> w_hdr (d_wal d) = h) -> 101 <= Z.of_nat fuel + cnt -> cnt <= 100 ->
  exists rc d' chg, begin_loop fuel e 0 d pChanged useWal cnt = Some (rc, d', chg) /\ begun e useWal h d d' rc /\ rc <> WAL_RETRY /\ (rc = SQLITE_PROTOCOL -> os_code d rc \/ begin_loop (Z.to_nat (100 - cnt)) e 0 d pChanged useWal cnt = None).
Proof.
  induction fuel as [|fuel IH]; intros d pChanged cnt HI Huse Hf Hc; [lia|]. cbn [begin_loop]. destruct (walTryBeginRead_spec e d pChanged useWal (cnt + 1) h HI Huse) as (rc & d1 & chg & Heq & Hb & Hp). rewrite Heq. cbn [mbind option_bind]. destruct (Z.eqb_spec rc WAL_RETRY) as [->|Hr].
  2: { exists rc, d1, chg. split; [done|]. split; [done|]. split; [done|]. intros ->. destruct (Z.ltb_spec 100 (cnt + 1)); [right; by replace (100 - cnt) with 0 by lia|]. left. by destruct Hp as [|[|]]. }
  destruct (Z.ltb_spec 100 (cnt + 1)) as [|Hlt]; [done|]. replace (Z.to_nat (100 - cnt)) with (S (Z.to_nat (100 - (cnt + 1)))) by lia. cbn [begin_loop]. rewrite Heq. cbn [mbind option_bind]. rewrite Z.eqb_refl.
  destruct Hb as (io & w & -> & Hio & Hs & Hz & _ & Hbad). destruct (Hbad ltac:(done)) as (Hl & Hh & _). destruct (IH (set_wal (set_io d io) w) chg (cnt + 1)) as (rc & d2 & chg2 & -> & (io2 & w2 & -> & Hio2 & Hs2 & Hz2 & Hok2 & Hbad2) & Hrt & Hpr).
  - cbn. by eapply idle_shared.
  - cbn. intros Hu. destruct Hh as [|Hh']; [done|rewrite Hh'; by apply Huse].
  - lia.
  - lia.
  - assert (forall x, os_code (set_wal (set_io d io) w) x -> os_code d x) as Hsf by (intros x; by eapply (os_code_suffix d (set_wal (set_io d io) w))). eexists _, _, _. split; [done|]. split; [|split; [done|naive_solver]]. exists io2, w2. split; [done|]. split; [by etransitivity|]. split; [by eapply shared_trans|]. split; [intros Hu; rewrite Hz2 by done; by apply Hz|]. split; [done|]. intros Hr. destruct (Hbad2 Hr) as (Hl2 & Hh2 & Hc2). cbn in Hl2, Hh2. split; [congruence|]. split; [destruct Hh2 as [|Hh2]; [by left|]; rewrite Hh2; done|]. naive_solver.
Qed.

(** C23. On a log whose shared header is valid, for a connection without a lock that may write the shared
    memory, sqlite3WalBeginReadTransaction returns within 101 attempts however the locks turn out; it gives up
    with SQLITE_PROTOCOL only after 100 attempts that each asked for another, and otherwise an error is a code
    of the operating system.  With SQLITE_OK the reader has a copy of the shared header and holds a mark that
    is at most its last frame, or mark 0 when the whole log is in the database file; otherwise it holds no
    lock.  It changes no mark that another connection holds.  (A header that is not valid makes it recover the
    log, which is the subject of WalRecover.) *)
Theorem wal_begin_read_returns e d pChanged h : idle (d_wal d) h ->
  exists rc d' chg, begin_loop 101 e 0 d pChanged false 0 = Some (rc, d', chg) /\ sqlite3WalBeginReadTransaction e 0 d pChanged = Some (rc, d', chg) /\ begun e false h d d' rc /\ rc <> WAL_RETRY /\
    (rc = SQLITE_PROTOCOL -> os_code d rc \/ begin_loop 100 e 0 d pChanged false 0 = None).
Proof.
  intros HI. destruct (begin_loop_spec e false h 101 d pChanged 0 HI) as (rc & d' & chg & Heq & H1 & H2 & H3); [done|lia|lia|]. exists rc, d', chg. split; [done|]. split; [|done]. unfold sqlite3WalBeginReadTransaction. eapply begin_loop_mono; [exact Heq|lia].
Qed.

Definition ex_refused : WalDb := mkDb (set_readLock wal0 (-1)) [] (replicate 500 (SQLITE_BUSY, 0)) false [].

Lemma wal_begin_read_returns_witness : exists d' chg, sqlite3WalBeginReadTransaction (mkLocks false {[3]}) 0 ex_refused false = Some (SQLITE_PROTOCOL, d', chg) /\ begun (mkLocks false {[3]}) false hdr0 ex_refused d' SQLITE_PROTOCOL.
Proof.
  destruct (wal_begin_read_returns (mkLocks false {[3]}) ex_refused false hdr0) as (rc & d' & chg & _ & Heq & Hb & _); [split; [reflexivity|split_and!; vm_compute; reflexivity|apply wal0_reader|reflexivity|reflexivity|reflexivity]|].
  assert (rc = SQLITE_PROTOCOL) as -> by (vm_compute in Heq; by inversion Heq). exists d', chg. split; [exact Heq|exact Hb].
Defined.
