(* ===== verification/WalSystem.v ===== *)
(** * WalSystem: a database in WAL mode (wal.c)

    One writer, readers and checkpoints on one log and one database file.  The
    specification is a database whose pages change at a commit only, and the snapshots
    that were taken of it. *)
From S2P Require Import Prelude Varint Record Page PageLayout Wal WalLog WalHash WalIndex WalSpec WalFrame WalRecover WalWrite WalDurable WalSort WalIter UnixLock WalCkpt WalFile WalBackfill WalRead WalBegin WalKeep.

(** ** Pages *)

Definition page_of (f : frame) : Z * list Z := (f_pgno f, f_data f).

(** The last content of page [p] in a list of pages *)
Fixpoint lookup_last (l : list (Z * list Z)) (p : Z) : option (list Z) :=
  match l with
  | [] => None
  | (q, x) :: l => match lookup_last l p with Some y => Some y | None => if q =? p then Some x else None end
  end.

Lemma lookup_last_app l1 l2 p : lookup_last (l1 ++ l2) p = match lookup_last l2 p with Some y => Some y | None => lookup_last l1 p end.
Proof. induction l1 as [|[q x] l1 IH]; [cbn; by destruct (lookup_last l2 p)|]. cbn. rewrite IH. by destruct (lookup_last l2 p). Qed.

Lemma lookup_last_None l p : lookup_last l p = None <-> p ∉ map fst l.
Proof.
  induction l as [|[q x] l IH]; [split; [intros _ ?%not_elem_of_nil; done|done]|]. cbn. rewrite not_elem_of_cons, <- IH. destruct (lookup_last l p); [split; [done|by intros [_ ?]]|]. destruct (Z.eqb_spec q p) as [->|]; [split; [done|by intros [? _]]|]. split; [done|]. done.
Qed.

(** Copies of the last page add nothing. *)
Lemma lookup_last_copies l J p : l <> [] -> lookup_last (l ++ replicate J (List.last l (0, []))) p = lookup_last l p.
Proof.
  intros Hne. destruct (exists_last Hne) as (l' & x & ->). rewrite List.last_last. assert (lookup_last (replicate J x) p = None \/ lookup_last (replicate J x) p = lookup_last [x] p) as H.
  { induction J as [|J IH]; [by left|]. right. cbn [replicate]. change (x :: replicate J x) with ([x] ++ replicate J x). rewrite lookup_last_app. destruct IH as [-> | ->]; [done|]. by destruct (lookup_last [x] p). }
  rewrite !lookup_last_app. destruct H as [-> | ->]; [done|]. by destruct (lookup_last [x] p).
Qed.

Lemma lookup_last_frames fs p : lookup_last (map page_of fs) p = if last_frame (map f_pgno fs) p =? 0 then None else Some (frame_data fs (last_frame (map f_pgno fs) p)).
Proof.
  induction fs as [|f fs IH]; [done|]. cbn [map lookup_last last_frame page_of]. cbv zeta. rewrite IH. destruct (last_frame_is_last (map f_pgno fs) p) as [H0 _]. set (r := last_frame (map f_pgno fs) p) in *. destruct (Z.eqb_spec r 0) as [Hr|Hr]; cbn [negb].
  - destruct (f_pgno f =? p); done.
  - rewrite (proj2 (Z.eqb_neq (r + 1) 0)) by lia. unfold frame_data. replace (Z.to_nat (r + 1 - 1)) with (S (Z.to_nat (r - 1))) by lia. done.
Qed.

Lemma view_lookup szPage db fs m p : 0 <= m <= len fs -> view szPage db fs m p = default (db_page szPage db p) (lookup_last (map page_of (take (Z.to_nat m) fs)) p).
Proof.
  intros Hm. rewrite lookup_last_frames. unfold view. fold (frame_of fs m p). destruct (frame_of_spec fs m p ltac:(lia)) as (Hr & _). destruct (Z.eqb_spec (frame_of fs m p) 0) as [|Hne]; [done|]. cbn. unfold frame_data. rewrite lookup_take_lt by lia. done.
Qed.

(** The pages of the frames that a call writes *)
Lemma body_pages pList nTruncate isCommit J : map page_of (body_frames pList nTruncate isCommit J) = pList ++ replicate J (List.last pList (0, [])).
Proof.
  unfold body_frames. rewrite map_app. f_equal.
  - induction pList as [|[q x] l IH]; [done|]. cbn [mk_frames map]. by rewrite IH.
  - rewrite (fmap_replicate page_of J _ : map _ (replicate _ _) = _). unfold page_of, last_frame_of. cbn. by destruct (List.last pList (0, [])).
Qed.

(** ** The system *)

(** A reader: its copy of the header and the mark it holds *)
Record Rdr := mkRdr { r_lock : Z; r_hdr : WalIndexHdr }.

(** [s_d] is the connection of the writer, with the shared memory and the log file. *)
Record Sys := mkSys { s_d : WalDb; s_db : list Z; s_rd : list Rdr }.

(** The locks that the readers hold *)
Definition sys_locks (s : Sys) : LockEnv := mkLocks false (list_to_set (map (fun r => WAL_READ_LOCK (r_lock r)) (s_rd s))).

(** Another connection: its copy of the header, its mappings, the results of mapping more
    pages and of the operating system; it holds no read lock. *)
Record Conn := mkConn { cn_hdr : WalIndexHdr; cn_mapped : gset Z; cn_map : list Z; cn_io : list (Z * Z) }.

Definition connect (d : WalDb) (cn : Conn) : WalDb := mkDb (reader (d_wal d) (cn_hdr cn) (cn_mapped cn) (cn_map cn) (-1)) (d_file d) (cn_io cn) false (d_past d).

(** The shared memory and the file as the other connection leaves them *)
Definition share (d dk : WalDb) : WalDb :=
  let w := d_wal d in
  let wk := d_wal dk in
  mkDb (mkWal (w_apWiData wk) (w_aHdr wk) (w_info wk) (w_mapped w) (w_map w) (w_hdr w) (w_readLock w) (w_szPage w) (w_nCkpt w)) (d_file dk) (d_io d) (d_truncateOnCommit d) (d_past dk).

(** [lock] is the mark that the writer reads, [salt1] and [salt] are random bytes. *)
Inductive sys_op :=
  | SysFrames (lock : Z) (cfg : WalCfg) (pList : list (Z * list Z)) (nTruncate : Z) (isCommit : bool) (sync_flags : Z) (salt1 salt : list Z) (io : list (Z * Z))
  | SysUndo
  | SysCkpt (cn : Conn) (eMode : Z) (xBusy : bool) (sync_flags nBuf : Z)
  | SysBegin (cn : Conn)
  | SysEnd (i : nat).

(** A call that fails in the writer is followed by a rollback. *)
Definition or_undo (s : Sys) (r : option (Z * WalDb)) : option (Z * Sys) :=
  '(rc, d) ← r;
  if rc =? SQLITE_OK then Some (rc, mkSys d (s_db s) (s_rd s))
  else '(w, _) ← sqlite3WalUndo (d_wal d); Some (rc, mkSys (set_wal d w) (s_db s) (s_rd s)).

Definition sys_exec (szPage : Z) (s : Sys) (op : sys_op) : option (Z * Sys) :=
  match op with
  | SysFrames lock cfg pList nTruncate isCommit sync_flags salt1 salt io =>
      or_undo s (sqlite3WalFrames (sys_locks s) 0 cfg (set_io (set_wal (s_d s) (set_readLock (d_wal (s_d s)) lock)) io) szPage pList nTruncate isCommit sync_flags salt1 salt)
  | SysUndo => '(w, _) ← sqlite3WalUndo (d_wal (s_d s)); Some (SQLITE_OK, mkSys (set_wal (s_d s) w) (s_db s) (s_rd s))
  | SysCkpt cn eMode xBusy sync_flags nBuf =>
      '(rc, dk, db, _) ← sqlite3WalCheckpoint (sys_locks s) 0 (connect (s_d s) cn) (s_db s) eMode xBusy sync_flags nBuf;
      Some (rc, mkSys (share (s_d s) dk) db (s_rd s))
  | SysBegin cn =>
      '(rc, dk, _) ← sqlite3WalBeginReadTransaction (sys_locks s) 0 (connect (s_d s) cn) false;
      Some (rc, mkSys (share (s_d s) dk) (s_db s) (if rc =? SQLITE_OK then mkRdr (w_readLock (d_wal dk)) (w_hdr (d_wal dk)) :: s_rd s else s_rd s))
  | SysEnd i => Some (SQLITE_OK, mkSys (s_d s) (s_db s) (list_delete i (s_rd s)))
  end.

(** What a reader gets for page [pgno]: the pager asks for the frame and reads the page. *)
Definition sys_read (szPage : Z) (s : Sys) (r : Rdr) (cn : Conn) (pgno : Z) : option (Z * list Z) :=
  '(rc, w, iFrame) ← sqlite3WalFindFrame (reader (d_wal (s_d s)) (r_hdr r) (cn_mapped cn) (cn_map cn) (r_lock r)) pgno;
  if negb (rc =? SQLITE_OK) then Some (rc, [])
  else let '(rc, l, _) := readDbPage (mkDb w (d_file (s_d s)) (cn_io cn) false (d_past (s_d s))) (s_db s) szPage pgno iFrame in Some (rc, l).

(** ** The specification *)

(** The committed pages, their number, the pages of the transaction under way, and the
    snapshots of the readers *)
Record Adb := mkAdb { a_page : Z -> list Z; a_size : Z; a_pend : list (Z * list Z); a_snaps : list ((Z -> list Z) * Z) }.

Definition a_frames (a : Adb) (pList : list (Z * list Z)) (nTruncate : Z) (isCommit : bool) (rc : Z) : Adb :=
  if negb (rc =? SQLITE_OK) then mkAdb (a_page a) (a_size a) [] (a_snaps a)
  else if isCommit then mkAdb (fun p => default (a_page a p) (lookup_last (a_pend a ++ pList) p)) nTruncate [] (a_snaps a)
  else mkAdb (a_page a) (a_size a) (a_pend a ++ pList) (a_snaps a).

Definition a_step (a : Adb) (op : sys_op) (rc : Z) : Adb :=
  match op with
  | SysFrames _ _ pList nTruncate isCommit _ _ _ _ => a_frames a pList nTruncate isCommit rc
  | SysUndo => mkAdb (a_page a) (a_size a) [] (a_snaps a)
  | SysCkpt _ _ _ _ _ => a
  | SysBegin _ => if rc =? SQLITE_OK then mkAdb (a_page a) (a_size a) (a_pend a) ((a_page a, a_size a) :: a_snaps a) else a
  | SysEnd i => mkAdb (a_page a) (a_size a) (a_pend a) (list_delete i (a_snaps a))
  end.

(** ** The relation *)

(** A reader on mark 0 reads the database file; any other reads the frames of its header. *)
Definition reader_rel (szPage : Z) (s : Sys) (fs : list frame) (c : Z) (r : Rdr) (snap : (Z -> list Z) * Z) : Prop :=
  let m := h_mxFrame (r_hdr r) in
  let w := d_wal (s_d s) in
  0 <= r_lock r < 5 /\
  if r_lock r =? 0 then forall p, 1 <= p <= snap.2 -> db_page szPage (s_db s) p = snap.1 p
  else 0 <= m <= c /\ mark w (r_lock r) <= m /\ (m <> 0 -> snap.2 = db_size fs m /\ h_szPage (r_hdr r) = enc_szPage szPage) /\ forall p, 1 <= p <= snap.2 -> view szPage (s_db s) fs m p = snap.1 p.

Record sys_ok (szPage : Z) (s : Sys) (fs : list frame) (c : nat) (a : Adb) : Prop := {
  so_log : exists b nCkpt salt rest, log_rel (s_d s) szPage b nCkpt salt fs c rest /\ log_at (s_d s) szPage b nCkpt salt fs;
  so_hdr : c <> 0%nat -> a_size a = db_size fs (Z.of_nat c) /\ commit_hdr szPage (a_size a) (d_wal (s_d s));
  so_pages : Forall pgno_max (map f_pgno fs);
  so_marks : length (ci_aReadMark (w_info (d_wal (s_d s)))) = 5%nat;
  so_nBackfill : 0 <= ci_nBackfill (w_info (d_wal (s_d s))) <= Z.of_nat c;
  so_in_db : in_db szPage fs (Z.of_nat c) (ci_nBackfill (w_info (d_wal (s_d s)))) (s_db s);
  so_view : forall p, 1 <= p <= a_size a -> view szPage (s_db s) fs (Z.of_nat c) p = a_page a p;
  so_pend : a_pend a = map page_of (drop c fs);
  so_rd : Forall2 (reader_rel szPage s fs (Z.of_nat c)) (s_rd s) (a_snaps a) }.

Definition sys_rel (szPage : Z) (s : Sys) (a : Adb) : Prop := exists fs c, sys_ok szPage s fs c a.

(** What the callers guarantee of the pages: they have the page size, and a transaction that makes the
    database larger writes every new page. *)
Definition frames_ok (szPage : Z) (s : Sys) (a : Adb) (cfg : WalCfg) (pList : list (Z * list Z)) (nTruncate : Z) (isCommit : bool) (salt : list Z) : Prop :=
  (0 < c_sectorSize cfg <= 65536 /\ pages_ok szPage pList /\ pList <> [] /\ 0 <= nTruncate < 2 ^ 32 /\ isCommit = negb (nTruncate =? 0) /\ mxFrame (d_wal (s_d s)) + len pList + 65536 < 2 ^ 30 /\ (isCommit = false -> Forall (fun p => p.1 <> 1) pList)) /\
  Forall (fun p => pgno_max p.1) pList /\ length salt = 8%nat /\ Forall is_byte salt /\ (isCommit = true -> forall p, a_size a < p <= nTruncate -> p ∈ map fst (a_pend a ++ pList)).

(** A writer that reads mark 0 has the shared header, and the whole log is in the database file; it has not
    written frames yet.  The codes of the operating system are not variants of SQLITE_BUSY. *)
Definition restart_ok (s : Sys) (a : Adb) (salt1 : list Z) (io : list (Z * Z)) : Prop :=
  let w := d_wal (s_d s) in
  length salt1 = 4%nat /\ Forall is_byte salt1 /\ a_pend a = [] /\ (w_aHdr w).1 = w_hdr w /\ ci_nBackfill (w_info w) = mxFrame w /\ Forall (fun r => Z.land r.1 0xff = SQLITE_BUSY -> r.1 = SQLITE_BUSY) io.

(** A connection has mapped page 0 of the wal-index. *)
Definition sys_op_ok (szPage : Z) (s : Sys) (a : Adb) (op : sys_op) : Prop :=
  match op with
  | SysFrames lock cfg pList nTruncate isCommit _ salt1 salt io => frames_ok szPage s a cfg pList nTruncate isCommit salt /\ (lock = 0 -> restart_ok s a salt1 io)
  | SysCkpt cn _ _ _ _ | SysBegin cn => reader_ok (d_wal (s_d s)) (cn_mapped cn)
  | SysUndo | SysEnd _ => True
  end.
