(* ===== verification/WalIsolation.v ===== *)
(** * WalIsolation: readers see snapshots, whatever writers and checkpoints do (wal.c)

    Every call of the system returns, and implements its effect on the specification of
    WalSystem: commits are atomic, checkpoints and restarts change nothing, and a
    reader keeps its snapshot. *)
From S2P Require Import Prelude Varint Record Page PageLayout Wal WalLog WalHash WalIndex WalSpec WalFrame WalRecover WalWrite WalDurable WalSort WalIter UnixLock WalCkpt WalFile WalBackfill WalRead WalBegin WalKeep WalSystem.

(** ** Prefixes of the frames *)

Lemma frame_of_prefix fs fs' m c p : take (Z.to_nat c) fs' = take (Z.to_nat c) fs -> 0 <= m <= c -> frame_of fs' m p = frame_of fs m p.
Proof. intros Ht Hm. unfold frame_of. assert (forall l : list frame, take (Z.to_nat m) l = take (Z.to_nat m) (take (Z.to_nat c) l)) as H by (intros l; rewrite take_take; f_equal; lia). by rewrite H, Ht, <- H. Qed.

Lemma lookup_prefix fs fs' c f : take (Z.to_nat c) fs' = take (Z.to_nat c) fs -> 1 <= f <= c -> fs' !! Z.to_nat (f - 1) = (fs !! Z.to_nat (f - 1) : option frame).
Proof. intros Ht Hf. rewrite <- (lookup_take_lt fs' (Z.to_nat c)), Ht by lia. apply lookup_take_lt. lia. Qed.

Lemma view_prefix szPage db fs fs' m c p : take (Z.to_nat c) fs' = take (Z.to_nat c) fs -> 0 <= m <= c -> c <= len fs -> view szPage db fs' m p = view szPage db fs m p.
Proof.
  intros Ht Hm Hc. unfold view. rewrite (frame_of_prefix fs fs' m c p Ht Hm). destruct (Z.eqb_spec (frame_of fs m p) 0) as [|Hne]; [done|]. destruct (frame_of_spec fs m p ltac:(lia)) as (Hr & _). unfold frame_data. by rewrite (lookup_prefix fs fs' c (frame_of fs m p) Ht ltac:(lia)).
Qed.

Lemma db_size_prefix fs fs' m c : take (Z.to_nat c) fs' = take (Z.to_nat c) fs -> 1 <= m <= c -> db_size fs' m = db_size fs m.
Proof. intros Ht Hm. unfold db_size. by rewrite (lookup_prefix fs fs' c _ Ht Hm). Qed.

Lemma in_db_prefix szPage fs fs' c nB db : take (Z.to_nat c) fs' = take (Z.to_nat c) fs -> 1 <= c <= len fs -> in_db szPage fs c nB db -> in_db szPage fs' c nB db.
Proof.
  intros Ht Hc Hin p. rewrite (db_size_prefix fs fs' c c Ht ltac:(lia)), (frame_of_prefix fs fs' c c p Ht ltac:(lia)). intros Hp Hf. rewrite (Hin p Hp Hf). unfold frame_data. destruct (frame_of_spec fs c p ltac:(lia)) as (Hr & _). by rewrite (lookup_prefix fs fs' c (frame_of fs c p) Ht ltac:(lia)).
Qed.

(** The readers only depend on the database file, the marks and the committed frames. *)
Lemma readers_frames szPage s s' fs fs' c c' rds snaps : s_db s' = s_db s -> w_info (d_wal (s_d s')) = w_info (d_wal (s_d s)) -> take (Z.to_nat c) fs' = take (Z.to_nat c) fs -> 0 <= c <= c' -> c <= len fs ->
  Forall2 (reader_rel szPage s fs c) rds snaps -> Forall2 (reader_rel szPage s' fs' c') rds snaps.
Proof.
  intros Hdb Hi Ht Hc Hl HF. eapply Forall2_impl; [exact HF|]. intros r snap [Hlk Hr]. split; [done|]. destruct (r_lock r =? 0); [by rewrite Hdb|]. destruct Hr as (Hm & Hmk & Hsz & Hv). unfold mark. rewrite Hi, Hdb. split; [lia|]. split; [exact Hmk|]. split.
  - intros H0. rewrite (db_size_prefix fs fs' (h_mxFrame (r_hdr r)) c Ht ltac:(lia)). by apply Hsz.
  - intros p Hp. rewrite (view_prefix szPage (s_db s) fs fs' _ c p Ht) by lia. by apply Hv.
Qed.

(** ** The writer *)

Lemma log_rel_io d szPage b nCkpt salt fs c rest io : log_rel d szPage b nCkpt salt fs c rest -> log_rel (set_io d io) szPage b nCkpt salt fs c rest.
Proof. by intros [? ? ? ? ? ? ? ?]. Qed.

Section Writer.
Context (szPage : Z) (s : Sys) (fs : list frame) (c : nat) (a : Adb) (HS : sys_ok szPage s fs c a).

Lemma sys_le : (c <= length fs)%nat.
Proof using HS. destruct (so_log _ _ _ _ _ HS) as (? & ? & ? & ? & HL & _). rewrite <- (lr_commits _ _ _ _ _ _ _ _ HL). apply commits_le. Qed.

Lemma sys_count : len fs < 2 ^ 30.
Proof using HS.
  destruct (so_log _ _ _ _ _ HS) as (? & ? & ? & ? & HL & _). destruct (wr_inv _ _ (lr_wal _ _ _ _ _ _ _ _ HL)) as [junk HW]. pose proof (wo_len _ _ (wv_ok _ _ HW)) as Hl. rewrite log_pages_all, length_app, length_map in Hl. lia.
Qed.

Lemma sys_mx : mxFrame (d_wal (s_d s)) = len fs.
Proof using HS. destruct (so_log _ _ _ _ _ HS) as (? & ? & ? & ? & HL & _). by rewrite (wr_mx _ _ (lr_wal _ _ _ _ _ _ _ _ HL)), log_pages_all, length_map. Qed.

(** The writer lost the frames after the last commit. *)
Lemma sys_undo d' rest b nCkpt salt w' l : log_rel d' szPage b nCkpt salt fs c rest -> keep (d_wal (s_d s)) (d_wal d') -> sqlite3WalUndo (d_wal d') = Some (w', l) ->
  sys_ok szPage (mkSys (set_wal d' w') (s_db s) (s_rd s)) (take c fs) c (mkAdb (a_page a) (a_size a) [] (a_snaps a)).
Proof using HS.
  intros HL Hk Hundo. pose proof sys_le as Hle. destruct (undo_log d' szPage b nCkpt salt fs c rest HL) as (w2 & rest2 & Heq & HL2 & Hat2). rewrite Hundo in Heq. injection Heq as <- ->. pose proof (sqlite3WalUndo_keep _ _ _ Hundo) as Hk2. destruct (keep_trans _ _ _ Hk Hk2) as [Ki Ka].
  assert (take (Z.to_nat (Z.of_nat c)) (take c fs) = take (Z.to_nat (Z.of_nat c)) fs) as Ht by (rewrite Nat2Z.id, take_take; f_equal; lia). destruct HS as [H1 H2 H3 H4 H5 H6 H7 H8 H9]. split; cbn [s_d s_db s_rd a_page a_size a_pend a_snaps d_wal set_wal].
  - eauto 10.
  - intros H0. destruct (H2 H0) as [E1 E2]. rewrite (db_size_prefix fs _ _ (Z.of_nat c) Ht) by lia. split; [done|]. unfold commit_hdr. by rewrite Ka.
  - rewrite <- firstn_map. by apply Forall_take.
  - by rewrite Ki.
  - by rewrite Ki.
  - rewrite Ki. destruct (decide (c = 0%nat)) as [->|]; [intros p _ Hf; lia|]. by apply (in_db_prefix szPage fs); [|lia|].
  - intros p Hp. rewrite (view_prefix szPage (s_db s) fs _ _ (Z.of_nat c) p Ht) by lia. by apply H7.
  - rewrite drop_ge by (rewrite length_take; lia). done.
  - apply (readers_frames szPage s _ fs _ (Z.of_nat c)); [done|done|done|lia|lia|done].
Qed.
End Writer.

(** ** Writing frames *)

Lemma body_last_trunc pList nTruncate J fs : pList <> [] -> db_size (fs ++ body_frames pList nTruncate true J) (len (fs ++ body_frames pList nTruncate true J)) = nTruncate.
Proof.
  intros Hne. destruct (body_frames_split pList nTruncate true J Hne) as (pre & _ & _ & ->). unfold db_size. set (f := mkFrame _ nTruncate _). assert (exists l g, fs ++ pre ++ f :: replicate J (last_frame_of nTruncate pList) = l ++ [g] /\ f_trunc g = nTruncate) as (l & g & -> & Hg).
  { destruct J as [|J]; [exists (fs ++ pre), f; split; [cbn; by rewrite <- app_assoc|done]|]. exists (fs ++ pre ++ f :: replicate J (last_frame_of nTruncate pList)), (last_frame_of nTruncate pList). split; [|done]. rewrite replicate_S_end, <- !app_assoc. done. }
  rewrite length_app. cbn [length]. replace (Z.to_nat (Z.of_nat (length l + 1) - 1)) with (length l) by lia. by rewrite list_lookup_middle.
Qed.

Lemma new_pages pend pList J p : pList <> [] -> lookup_last (pend ++ pList ++ replicate J (List.last pList (0, []))) p = lookup_last (pend ++ pList) p.
Proof. intros Hne. by rewrite lookup_last_app, lookup_last_copies, lookup_last_app. Qed.

Section Frames.
Context (szPage : Z) (s : Sys) (fs : list frame) (c : nat) (a : Adb) (HS : sys_ok szPage s fs c a).
Context (cfg : WalCfg) (pList : list (Z * list Z)) (nTruncate : Z) (isCommit : bool) (sync_flags : Z) (salt : list Z) (io : list (Z * Z)).
Context (Hop : frames_ok szPage s a cfg pList nTruncate isCommit salt).

Abbreviation all J := (body_frames pList nTruncate isCommit J).

Lemma all_pages J : Forall pgno_max (map f_pgno (fs ++ all J)).
Proof using HS Hop.
  destruct Hop as ((_ & _ & Hne & _) & Hp & _). rewrite map_app. apply Forall_app. split; [apply HS|]. rewrite body_pgnos. apply Forall_app. assert (Forall pgno_max (map fst pList)) as HF by (by apply Forall_map). split; [done|]. apply Forall_replicate. destruct (exists_last Hne) as (l & x & ->). rewrite map_app in HF |- *. cbn [map] in HF |- *. rewrite List.last_last. apply Forall_app in HF as [_ HF]. by apply Forall_cons in HF as [? _].
Qed.

(** A commit *)
Lemma commit_view J : isCommit = true -> forall p, 1 <= p <= nTruncate -> view szPage (s_db s) (fs ++ all J) (len (fs ++ all J)) p = default (a_page a p) (lookup_last (a_pend a ++ pList) p).
Proof using HS Hop.
  intros Hc p Hp. destruct Hop as ((_ & _ & Hne & _) & _ & _ & _ & Hgrow). pose proof (sys_le _ _ _ _ _ HS) as Hle. rewrite view_lookup by lia. rewrite Nat2Z.id, take_ge by lia. rewrite map_app, body_pages. rewrite <- (take_drop c fs) at 1. rewrite map_app, <- (so_pend _ _ _ _ _ HS), <- app_assoc, lookup_last_app, new_pages by done.
  destruct (lookup_last (a_pend a ++ pList) p) as [x|] eqn:Hx; [done|]. cbn. apply lookup_last_None in Hx. assert (p <= a_size a) as Hs by (destruct (decide (p <= a_size a)); [done|]; destruct Hx; apply Hgrow; [done|lia]).
  rewrite <- (so_view _ _ _ _ _ HS) by lia. rewrite view_lookup by lia. by rewrite Nat2Z.id.
Qed.

(** The backfilled pages of the committed frames are those of the new ones. *)
Lemma commit_in_db J : isCommit = true -> in_db szPage (fs ++ all J) (len (fs ++ all J)) (ci_nBackfill (w_info (d_wal (s_d s)))) (s_db s).
Proof using HS Hop.
  intros Hc p Hp Hf. pose proof Hop as ((_ & _ & Hne & _) & _ & _ & _ & Hgrow). pose proof (sys_le _ _ _ _ _ HS) as Hle. pose proof (so_nBackfill _ _ _ _ _ HS) as HnB. assert (c <> 0%nat) as Hc0 by lia. rewrite Hc in Hp. rewrite body_last_trunc in Hp by done. set (f := frame_of (fs ++ all J) (len (fs ++ all J)) p) in *.
  destruct (frame_of_spec (fs ++ all J) (len (fs ++ all J)) p ltac:(lia)) as (_ & Hj & _). specialize (Hj ltac:(lia)). fold f in Hj. assert (take (Z.to_nat (Z.of_nat c)) (fs ++ all J) = take (Z.to_nat (Z.of_nat c)) fs) as Ht by (rewrite take_app_le by lia; done).
  assert (f <= frame_of (fs ++ all J) (Z.of_nat c) p) as Hge by (apply frame_of_ge; [done|lia|rewrite length_app; lia]). assert (frame_of (fs ++ all J) (Z.of_nat c) p <= f) as Hle2.
  { destruct (frame_of_spec (fs ++ all J) (Z.of_nat c) p ltac:(rewrite length_app; lia)) as (Hr & Hj2 & _). apply frame_of_ge; [apply Hj2; lia|rewrite length_app; lia|lia]. }
  rewrite (frame_of_prefix fs (fs ++ all J) (Z.of_nat c) (Z.of_nat c) p Ht ltac:(lia)) in Hge, Hle2. assert (frame_of fs (Z.of_nat c) p = f) as Hfe by lia.
  assert (p <= a_size a) as Hs.
  { destruct (decide (p <= a_size a)) as [|Hgt]; [done|]. exfalso. pose proof (Hgrow Hc p ltac:(lia)) as Hin. assert (p ∈ map f_pgno (drop c fs ++ all J)) as Hin'.
    { rewrite map_app, body_pgnos. rewrite map_app, (so_pend _ _ _ _ _ HS), map_map in Hin. cbn [fst page_of] in Hin. apply elem_of_app in Hin as [Hin|Hin]; apply elem_of_app; [by left|right; apply elem_of_app; by left]. }
    apply list_elem_of_lookup in Hin' as [k Hk]. assert (map f_pgno (fs ++ all J) !! (c + k)%nat = Some p) as Hk2. { rewrite <- (take_drop c fs) at 1. rewrite <- app_assoc, map_app. rewrite lookup_app_r by (rewrite length_map, length_take; lia). rewrite length_map, length_take, Nat.min_l by lia. replace (c + k - c)%nat with k by lia. done. }
    pose proof (lookup_lt_Some _ _ _ Hk2) as Hkl. rewrite length_map in Hkl. pose proof (frame_of_ge (fs ++ all J) (len (fs ++ all J)) p (Z.of_nat (c + k) + 1)) as Hbig. replace (Z.to_nat (Z.of_nat (c + k) + 1 - 1)) with (c + k)%nat in Hbig by lia. specialize (Hbig Hk2 ltac:(lia) ltac:(lia)). fold f in Hbig. lia. }
  destruct (so_hdr _ _ _ _ _ HS Hc0) as [Hsz _]. rewrite Hsz in Hs. pose proof (so_in_db _ _ _ _ _ HS p ltac:(lia)) as Hin. rewrite Hfe in Hin. rewrite Hin by lia. unfold frame_data. by rewrite (lookup_prefix fs (fs ++ all J) (Z.of_nat c) f Ht ltac:(lia)).
Qed.

Lemma sys_frames_ok J d' b' nCkpt' salt' rest' : (isCommit = false -> J = 0%nat) -> log_rel d' szPage b' nCkpt' salt' (fs ++ all J) (after_commit fs c isCommit (all J)) rest' -> log_at d' szPage b' nCkpt' salt' (fs ++ all J) -> frames_keep szPage nTruncate isCommit SQLITE_OK (d_wal (s_d s)) (d_wal d') ->
  sys_ok szPage (mkSys d' (s_db s) (s_rd s)) (fs ++ all J) (after_commit fs c isCommit (all J)) (a_frames a pList nTruncate isCommit SQLITE_OK).
Proof using HS Hop.
  intros HJ HL Hat [Ki Ka]. pose proof (sys_le _ _ _ _ _ HS) as Hle. pose proof (all_pages J) as Hpg. pose proof Hop as ((_ & _ & Hne & _) & _). unfold a_frames. change (negb (SQLITE_OK =? SQLITE_OK)) with false. cbn [negb].
  assert (take (Z.to_nat (Z.of_nat c)) (fs ++ all J) = take (Z.to_nat (Z.of_nat c)) fs) as Ht by (rewrite take_app_le by lia; done). assert (Z.of_nat c <= len (fs ++ all J)) as Hcl by (rewrite length_app; lia). unfold after_commit in *. pose proof (commit_in_db J) as HID. pose proof (commit_view J) as HV. destruct isCommit eqn:Hc; split; cbn [s_d s_db s_rd a_page a_size a_pend a_snaps]; try done.
  - eauto 10.
  - intros _. split; [symmetry; by apply body_last_trunc|]. destruct Ka as [[_ Ka]|(_ & _ & Ka)]; [by specialize (Ka eq_refl)|done].
  - rewrite Ki. apply HS.
  - rewrite Ki. pose proof (so_nBackfill _ _ _ _ _ HS). lia.
  - rewrite Ki. by apply HID.
  - by apply HV.
  - by rewrite drop_ge.
  - apply (readers_frames szPage s _ fs _ (Z.of_nat c)); [done|done|done|lia|lia|apply HS].
  - eauto 10.
  - intros H0. destruct (so_hdr _ _ _ _ _ HS H0) as [E1 E2]. rewrite (db_size_prefix fs _ _ (Z.of_nat c) Ht) by lia. split; [done|]. destruct Ka as [[Ka _]|(_ & ? & _)]; [|done]. unfold commit_hdr. by rewrite Ka.
  - rewrite Ki. apply HS.
  - rewrite Ki. apply HS.
  - rewrite Ki. destruct (decide (c = 0%nat)) as [H0|]; [pose proof (so_nBackfill _ _ _ _ _ HS); intros p _ Hf; lia|]. apply (in_db_prefix szPage fs); [done|lia|apply HS].
  - intros p Hp. rewrite (view_prefix szPage (s_db s) fs _ _ (Z.of_nat c) p Ht) by lia. by apply HS.
  - rewrite (HJ eq_refl). rewrite drop_app_le, map_app, body_pages by lia. cbn [replicate]. rewrite app_nil_r, (so_pend _ _ _ _ _ HS). done.
  - apply (readers_frames szPage s _ fs _ (Z.of_nat c)); [done|done|done|lia|lia|apply HS].
Qed.

Lemma sys_write : exists rc s', or_undo s (walFrames_write cfg (set_io (s_d s) io) szPage pList nTruncate isCommit sync_flags salt) = Some (rc, s') /\ sys_rel szPage s' (a_frames a pList nTruncate isCommit rc).
Proof using HS Hop.
  destruct (so_log _ _ _ _ _ HS) as (b & nC & sa & rest & HL & Hat). pose proof Hop as ((A1 & A2 & A3 & A4 & A5 & A6 & A7) & _ & A8 & A9 & _). unfold or_undo.
  assert (frames_args szPage cfg (log_pages fs c) pList nTruncate isCommit) as Hargs by (split_and!; try done; try lia; rewrite <- (wr_mx _ _ (lr_wal _ _ _ _ _ _ _ _ HL)); done).
  destruct (walFrames_spec cfg (set_io (s_d s) io) szPage b nC sa fs c rest pList nTruncate isCommit sync_flags salt (log_rel_io _ _ _ _ _ _ _ _ io HL) Hat Hargs A8 A9) as (rc & d' & b' & n' & s' & J & rest' & Heq & [_ P2 P3 [P4 _] _]). pose proof (walFrames_keep _ _ _ _ _ _ _ _ _ _ Heq) as Hk. rewrite Heq. cbn [mbind option_bind].
  destruct (Z.eqb_spec rc SQLITE_OK) as [->|Hrc].
  - destruct (P2 eq_refl) as [HL' Hat']. eexists _, _. split; [done|]. eexists _, _. by eapply sys_frames_ok.
  - destruct (P3 Hrc) as [HL' _]. destruct (undo_log d' szPage b nC sa fs c rest' HL') as (w & rest2 & Hundo & _). rewrite Hundo. cbn [mbind option_bind]. eexists _, _. split; [done|]. exists (take c fs), c. unfold a_frames. rewrite (proj2 (Z.eqb_neq rc _)) by done. cbn [negb].
    eapply (sys_undo szPage s fs c a HS); [exact HL'| |exact Hundo]. destruct Hk as [Ki [[Ka _]|(? & _)]]; [|done]. by split.
Qed.
End Frames.

(** ** Other connections *)

Section Shared.
Context (szPage : Z) (s : Sys) (fs : list frame) (c : nat) (a : Adb) (HS : sys_ok szPage s fs c a).

Abbreviation w := (d_wal (s_d s)).
Abbreviation e := (sys_locks s).

(** The shared header *)
Lemma sys_hdr : exists h, w_aHdr w = (h, h) /\ hdr_valid h /\ h_mxFrame h = Z.of_nat c.
Proof using HS.
  destruct (so_log _ _ _ _ _ HS) as (? & ? & ? & ? & HL & _). destruct (wr_hdr _ _ (lr_wal _ _ _ _ _ _ _ _ HL)) as (h & H1 & H2 & H3). exists h. split; [done|]. split; [done|]. rewrite H3. cbn. rewrite length_map, length_take. pose proof (sys_le _ _ _ _ _ HS). lia.
Qed.

Lemma sys_inv : exists junk, wal_inv w (map f_pgno fs ++ junk).
Proof using HS. destruct (so_log _ _ _ _ _ HS) as (? & ? & ? & ? & HL & _). destruct (wr_inv _ _ (lr_wal _ _ _ _ _ _ _ _ HL)) as [junk HW]. rewrite log_pages_all in HW. eauto. Qed.

Lemma connect_idle cn h : reader_ok w (cn_mapped cn) -> w_aHdr w = (h, h) -> hdr_valid h -> h_mxFrame h = Z.of_nat c -> idle (d_wal (connect (s_d s) cn)) h.
Proof using HS. intros [H0 _] H1 H2 H3. pose proof (sys_le _ _ _ _ _ HS). pose proof (sys_count _ _ _ _ _ HS). split; cbn; try done; [apply HS|]. rewrite H3. unfold READMARK_NOT_USED. lia. Qed.

(** The marks that the readers hold *)
Lemma reader_held r : r ∈ s_rd s -> held e (r_lock r).
Proof using. intros Hr. split; [done|]. cbn. apply elem_of_list_to_set. apply list_elem_of_fmap. exists r. done. Qed.

(** What another connection may do to the shared memory *)
Record shared_by (dk : WalDb) : Prop := {
  sh_file : d_file dk = d_file (s_d s);
  sh_aHdr : w_aHdr (d_wal dk) = w_aHdr w;
  sh_pages : w_apWiData w ⊆ w_apWiData (d_wal dk);
  sh_inv : exists junk, wi_ok (w_apWiData (d_wal dk)) (map f_pgno fs ++ junk);
  sh_len : length (ci_aReadMark (w_info (d_wal dk))) = 5%nat;
  sh_zero : mark (d_wal dk) 0 = mark w 0;
  sh_held : forall i, held e i -> mark (d_wal dk) i = mark w i }.

Lemma share_log dk b nCkpt salt rest : shared_by dk -> log_rel (s_d s) szPage b nCkpt salt fs c rest -> log_at (s_d s) szPage b nCkpt salt fs -> log_rel (share (s_d s) dk) szPage b nCkpt salt fs c rest /\ log_at (share (s_d s) dk) szPage b nCkpt salt fs.
Proof using.
  intros [S1 S2 S3 [junk S4] S5 S6 S7] [L1 L2 L3 L4 L5 L6 L7 L8] Hat. split; [|exact Hat]. assert (wal_rel (d_wal (share (s_d s) dk)) (log_pages fs c)) as HR.
  { destruct L1 as [[junk1 R1] R2 R3 R4 R5 R6 R7]. split; try done.
    - exists junk. rewrite log_pages_all. split; [exact S4| |apply R1]. intros k Hk. destruct (wv_map _ _ R1 k Hk) as [p Hp]. exists p. cbn. by eapply lookup_weaken.
    - cbn. by rewrite S2.
    - cbn. destruct (aget_is_Some (ci_aReadMark (w_info (d_wal dk))) 0) as [v Hv]; [lia|]. unfold mark in S6. rewrite Hv, R7 in S6. cbn in S6. by rewrite Hv, S6. }
  split; try done; cbn; rewrite ?S1, ?S2; done.
Qed.

(** A connection that leaves the view of the committed frames and of the readers alone *)
Lemma share_ok dk db rds snaps : shared_by dk -> 0 <= ci_nBackfill (w_info (d_wal dk)) <= Z.of_nat c -> in_db szPage fs (Z.of_nat c) (ci_nBackfill (w_info (d_wal dk))) db ->
  (forall p, 1 <= p <= a_size a -> view szPage db fs (Z.of_nat c) p = a_page a p) -> Forall2 (reader_rel szPage (mkSys (share (s_d s) dk) db rds) fs (Z.of_nat c)) rds snaps ->
  sys_ok szPage (mkSys (share (s_d s) dk) db rds) fs c (mkAdb (a_page a) (a_size a) (a_pend a) snaps).
Proof using HS.
  intros Hsh HnB Hin Hv Hr. destruct HS as [(b & nC & sa & rest & HL & Hat) H2 H3 H4 H5 H6 H7 H8 H9]. destruct (share_log dk b nC sa rest Hsh HL Hat) as [HL' Hat']. destruct Hsh as [S1 S2 S3 S4 S5 S6 S7]. split; cbn [s_d s_db s_rd a_page a_size a_pend a_snaps]; try done.
  - eauto 10.
  - intros H0. destruct (H2 H0) as [E1 E2]. split; [done|]. unfold commit_hdr. cbn. by rewrite S2.
Qed.

(** The readers when the marks they hold, and what they see, do not change *)
Lemma share_readers dk db : shared_by dk -> (forall r snap, r ∈ s_rd s -> reader_rel szPage s fs (Z.of_nat c) r snap -> r_lock r = 0 -> forall p, 1 <= p -> db_page szPage db p = db_page szPage (s_db s) p) ->
  (forall r snap p, r ∈ s_rd s -> reader_rel szPage s fs (Z.of_nat c) r snap -> r_lock r <> 0 -> 1 <= p <= snap.2 -> view szPage db fs (h_mxFrame (r_hdr r)) p = view szPage (s_db s) fs (h_mxFrame (r_hdr r)) p) ->
  forall rds, Forall2 (reader_rel szPage (mkSys (share (s_d s) dk) db rds) fs (Z.of_nat c)) (s_rd s) (a_snaps a).
Proof using HS.
  intros [S1 S2 S3 S4 S5 S6 S7] H0 H1 rds. pose proof (so_rd _ _ _ _ _ HS) as HF. rewrite Forall2_lookup in HF |- *. intros i. specialize (HF i). destruct (s_rd s !! i) as [r|] eqn:Hi; destruct (a_snaps a !! i) as [snap|]; inversion HF as [? ? Hr|]; subst; [|constructor]. constructor.
  pose proof (list_elem_of_lookup_2 _ _ _ Hi) as Hin. pose proof (H0 r snap Hin Hr) as H0r. pose proof (fun p => H1 r snap p Hin Hr) as H1r. destruct Hr as [Hlk Hr]. split; [done|]. cbn [s_db s_d]. destruct (Z.eqb_spec (r_lock r) 0) as [Hz|Hz].
  - intros p Hp. rewrite H0r by (done || lia). by apply Hr.
  - destruct Hr as (Hm & Hmk & Hsz & Hv). split; [done|]. split; [|split; [done|intros p Hp; rewrite H1r by done; by apply Hv]]. change (mark (d_wal (share (s_d s) dk)) (r_lock r)) with (mark (d_wal dk) (r_lock r)). rewrite S7 by (by apply reader_held). done.
Qed.

Lemma shared_same dk : d_file dk = d_file (s_d s) -> w_apWiData (d_wal dk) = w_apWiData w -> w_aHdr (d_wal dk) = w_aHdr w -> w_info (d_wal dk) = w_info w -> shared_by dk.
Proof using HS. intros H1 H2 H3 H4. destruct sys_inv as [junk HW]. split; try done; unfold mark; rewrite ?H2, ?H4; try done; [exists junk; apply HW|apply HS]. Qed.

(** ** Checkpoints *)

(** A connection with the shared header *)
Lemma connect_ck cn io h sz : c <> 0%nat -> reader_ok w (cn_mapped cn) -> w_aHdr w = (h, h) -> h_mxFrame h = Z.of_nat c -> ck_rel (set_wal (set_io (connect (s_d s) cn) io) (set_wsz (set_hdr (d_wal (connect (s_d s) cn)) h) sz)) szPage fs (Z.of_nat c) (Z.of_nat c).
Proof using HS.
  intros Hc Hrd Hh Hm. destruct sys_inv as [junk HW]. pose proof (sys_le _ _ _ _ _ HS) as Hle. destruct (so_hdr _ _ _ _ _ HS Hc) as [E1 [E2 E3]]. rewrite Hh in E2, E3. cbn [fst] in E2, E3. destruct (so_log _ _ _ _ _ HS) as (b & nC & sa & rest & HL & _). pose proof (so_nBackfill _ _ _ _ _ HS) as HnB.
  split; cbn [d_wal set_wal set_io d_file connect w_hdr set_wsz set_hdr w_aHdr reader w_info]; try done; try lia.
  - exists junk. eapply wal_inv_ext; [exact (reader_inv w _ (cn_hdr cn) (cn_mapped cn) (cn_map cn) (-1) HW Hrd)|done|done].
  - exists b, nC, sa, rest. pose proof (lr_file _ _ _ _ _ _ _ _ HL) as HF. rewrite decide_False in HF; [done|]. intros ->. cbn in Hle. lia.
  - by rewrite Hh.
  - apply HS.
  - apply HS.
Qed.

Lemma ckpt_call cn eMode xBusy sync_flags nBuf : reader_ok w (cn_mapped cn) ->
  exists rc dk db out, sqlite3WalCheckpoint e 0 (connect (s_d s) cn) (s_db s) eMode xBusy sync_flags nBuf = Some (rc, dk, db, out) /\ shared_by dk /\ ck_effect e szPage fs (Z.of_nat c) (Z.of_nat c) w (d_wal dk) (s_db s) db /\
    (rc = SQLITE_OK -> eMode <> SQLITE_CHECKPOINT_PASSIVE -> Z.of_nat c <= ci_nBackfill (w_info (d_wal dk))).
Proof using HS.
  intros Hrd. destruct sys_hdr as (h & Hh & Hv & Hm). pose proof (connect_idle cn h Hrd Hh Hv Hm) as HI. pose proof (so_nBackfill _ _ _ _ _ HS) as HnB. set (dc := connect (s_d s) cn) in *. assert (forall io, shared_by (set_io dc io)) as Hsame by (intros io; by apply shared_same).
  assert (forall io, ck_effect e szPage fs (Z.of_nat c) (Z.of_nat c) w (d_wal (set_io dc io)) (s_db s) (s_db s)) as Heff by (intros io; by left). unfold sqlite3WalCheckpoint. change (negb (0 =? 0)) with false. cbv iota.
  destruct (walLockExclusive_spec e dc WAL_CKPT_LOCK 1) as (rc & io & -> & _ & _). destruct (Z.eqb_spec rc SQLITE_OK) as [->|Hrc]; cbn [negb]; [|eexists _, _, _, _; split; [done|]; split; [apply Hsame|]; split; [apply Heff|done]].
  assert (exists rc io2 eMode2, (if negb (eMode =? SQLITE_CHECKPOINT_PASSIVE) then '(rc, d) ← walBusyLock e (set_io dc io) xBusy WAL_WRITE_LOCK 1; if rc =? SQLITE_BUSY then Some (SQLITE_OK, d, SQLITE_CHECKPOINT_PASSIVE) else Some (rc, d, eMode) else Some (SQLITE_OK, set_io dc io, eMode)) = Some (rc, set_io dc io2, eMode2)) as (rc & io2 & eMode2 & ->).
  { destruct (negb (eMode =? SQLITE_CHECKPOINT_PASSIVE)); [|eauto]. destruct (walBusyLock_spec e (set_io dc io) xBusy WAL_WRITE_LOCK 1) as (rc & io2 & -> & _ & _). cbn [mbind option_bind]. destruct (rc =? SQLITE_BUSY); eexists _, io2, _; done. }
  cbn [mbind option_bind]. destruct (Z.eqb_spec rc SQLITE_OK) as [->|Hrc].
  2: { cbn [mbind option_bind]. rewrite (proj2 (Z.eqb_neq rc _)) by done. cbn [mbind option_bind]. eexists _, _, _, _. split; [done|]. split; [apply Hsame|]. split; [apply Heff|]. rewrite (proj2 (Z.eqb_neq rc _)) by done. by intros. }
  destruct (walIndexReadHdr_spec e 0 (set_io dc io2) false h HI) as (sz & chg & ->). cbn [mbind option_bind]. change (SQLITE_OK =? SQLITE_OK) with true. cbv iota. set (d1 := set_wal (set_io dc io2) _).
  assert (exists rc dk db, (if negb (mxFrame (d_wal d1) =? 0) && negb (walPagesize (d_wal d1) =? nBuf) then Some (SQLITE_CORRUPT, d1, s_db s) else walCheckpoint e d1 (s_db s) eMode2 xBusy sync_flags) = Some (rc, dk, db) /\ shared_by dk /\ ck_effect e szPage fs (Z.of_nat c) (Z.of_nat c) w (d_wal dk) (s_db s) db /\ (rc = SQLITE_OK -> eMode2 <> SQLITE_CHECKPOINT_PASSIVE -> Z.of_nat c <= ci_nBackfill (w_info (d_wal dk)))) as (rc & dk & db & -> & Hsh & Hef & Hfull).
  { assert (shared_by d1) as Hs1 by (by apply shared_same). assert (ck_effect e szPage fs (Z.of_nat c) (Z.of_nat c) w (d_wal d1) (s_db s) (s_db s)) as He1 by (by left). destruct (negb (mxFrame (d_wal d1) =? 0) && negb (walPagesize (d_wal d1) =? nBuf)); [by eexists _, _, _|]. destruct (decide (c = 0%nat)) as [Hc|Hc].
    - unfold walCheckpoint. rewrite (proj2 (Z.leb_le (mxFrame (d_wal d1)) _)); [eexists _, _, _; split_and!; try done; intros _ _; change (w_info (d_wal d1)) with (w_info w); lia|]. change (mxFrame (d_wal d1)) with (h_mxFrame h). change (w_info (d_wal d1)) with (w_info w). lia.
    - destruct (walCheckpoint_spec e d1 (s_db s) szPage fs (Z.of_nat c) (Z.of_nat c) eMode2 xBusy sync_flags (connect_ck cn io2 h sz Hc Hrd Hh Hm)) as (rc & dk & db & -> & HC & [C1 C2 C3 C4 C5 C6] & Hef & Hfull). eexists _, _, _. split; [done|]. split; [|split; [exact Hef|exact Hfull]].
      destruct (cr_inv _ _ _ _ _ HC) as [junk HWk]. split; [done|done|done|exists junk; apply HWk|apply HC|apply C6; by left|intros i Hi; apply C6; by right]. }
  cbn [mbind option_bind]. assert ((if (rc =? SQLITE_OK) && negb (eMode =? eMode2) then SQLITE_BUSY else rc) = SQLITE_OK -> eMode <> SQLITE_CHECKPOINT_PASSIVE -> Z.of_nat c <= ci_nBackfill (w_info (d_wal dk))) as Hrc.
  { destruct (Z.eqb_spec rc SQLITE_OK) as [->|]; [|done]. destruct (Z.eqb_spec eMode eMode2) as [->|]; [|done]. intros _ Hp. by apply Hfull. }
  destruct chg; eexists _, _, _, _; (split; [done|]); (split; [|split; [exact Hef|exact Hrc]]); [|done]. destruct Hsh as [T1 T2 T3 T4 T5 T6 T7]. split; done.
Qed.

Lemma sys_ckpt cn eMode xBusy sync_flags nBuf (op := SysCkpt cn eMode xBusy sync_flags nBuf) : sys_op_ok szPage s a op -> exists rc s', sys_exec szPage s op = Some (rc, s') /\ sys_rel szPage s' (a_step a op rc).
Proof using HS.
  intros Hrd. destruct (ckpt_call cn eMode xBusy sync_flags nBuf Hrd) as (rc & dk & db & out & Heq & Hsh & Hef & _). cbn [sys_exec op]. rewrite Heq. cbn [mbind option_bind]. eexists _, _. split; [done|]. exists fs, c. cbn [a_step op]. pose proof (so_nBackfill _ _ _ _ _ HS) as HnB. pose proof (sys_le _ _ _ _ _ HS) as Hle.
  assert (a = mkAdb (a_page a) (a_size a) (a_pend a) (a_snaps a)) as -> by (by destruct a). apply share_ok; [done| | | |].
  - destruct Hef as [[_ ->]|(mx & _ & _ & [Hmx _ [->|[-> _]]])]; lia.
  - eapply ck_effect_in_db; [exact Hef|apply HS].
  - intros p Hp. rewrite <- (so_view _ _ _ _ _ HS) by done. destruct (decide (c = 0%nat)) as [Hc|Hc].
    + destruct Hef as [[-> _]|(mx & _ & _ & [Hmx _ _])]; [done|lia].
    + eapply ck_effect_view; [exact Hef|lia|lia|left; lia|lia|]. destruct (so_hdr _ _ _ _ _ HS Hc) as [<- _]. done.
  - apply share_readers; [done| |].
    + intros r snap Hr _ Hz p Hp. destruct Hef as [[-> _]|(mx & _ & Hnh & _)]; [done|]. destruct Hnh. rewrite <- Hz. by apply reader_held.
    + intros r snap p Hr [Hlk Hrr] Hz Hp. rewrite (proj2 (Z.eqb_neq _ 0)) in Hrr by done. destruct Hrr as (Hm & Hmk & Hsz & Hv). destruct (decide (h_mxFrame (r_hdr r) = 0)) as [H0|H0].
      * destruct Hef as [[-> _]|(mx & Hsafe & _ & [Hmx _ _])]; [done|]. specialize (Hsafe (r_lock r) ltac:(lia) (reader_held r Hr)). lia.
      * eapply ck_effect_view; [exact Hef|lia|lia|right; exists (r_lock r); split; [lia|]; split; [by apply reader_held|done]|lia|]. destruct (Hsz H0) as [<- _]. done.
Qed.

(** ** Readers *)

Lemma begin_call cn : reader_ok w (cn_mapped cn) -> exists rc dk chg, sqlite3WalBeginReadTransaction e 0 (connect (s_d s) cn) false = Some (rc, dk, chg) /\ shared_by dk /\ ci_nBackfill (w_info (d_wal dk)) = ci_nBackfill (w_info w) /\
  (rc = SQLITE_OK -> (w_hdr (d_wal dk), w_hdr (d_wal dk)) = w_aHdr w /\ h_mxFrame (w_hdr (d_wal dk)) = Z.of_nat c /\
    (w_readLock (d_wal dk) = 0 /\ ci_nBackfill (w_info w) = Z.of_nat c \/ 1 <= w_readLock (d_wal dk) < 5 /\ mark (d_wal dk) (w_readLock (d_wal dk)) <= Z.of_nat c)).
Proof using HS.
  intros Hrd. destruct sys_hdr as (h & Hh & Hv & Hm). pose proof (connect_idle cn h Hrd Hh Hv Hm) as HI. destruct (begin_loop_spec e false h 102 (connect (s_d s) cn) false 0 HI) as (rc & dk & chg & Heq & (io & w' & -> & _ & [S1 S2 S3 S4 S5 S6 S7 S8] & _ & Hok & _) & _); [done|lia|lia|]. exists rc, (set_wal (set_io (connect (s_d s) cn) io) w'), chg. split; [exact Heq|]. destruct sys_inv as [junk HW].
  split; [split; cbn [d_wal set_wal d_file set_io connect]; try done|].
  - by rewrite S1.
  - exists junk. rewrite S1. apply HW.
  - rewrite S4. apply HS.
  - cbn [d_wal set_wal]. split; [done|]. intros Hrc. destruct (Hok Hrc) as [-> Hl]. rewrite Hm in Hl. split; [done|]. split; [done|]. destruct Hl as [(Hl & _ & Hn)|Hl]; [left; split; [done|]; rewrite <- Hn, S3; done|by right].
Qed.

Lemma sys_begin cn (op := SysBegin cn) : sys_op_ok szPage s a op -> exists rc s', sys_exec szPage s op = Some (rc, s') /\ sys_rel szPage s' (a_step a op rc).
Proof using HS.
  intros Hrd. destruct (begin_call cn Hrd) as (rc & dk & chg & Heq & Hsh & HnB & Hok). cbn [sys_exec op]. rewrite Heq. cbn [mbind option_bind]. eexists _, _. split; [done|]. exists fs, c. cbn [a_step op]. pose proof (so_nBackfill _ _ _ _ _ HS) as HnB0. pose proof (sys_le _ _ _ _ _ HS) as Hle.
  assert (forall rds, Forall2 (reader_rel szPage (mkSys (share (s_d s) dk) (s_db s) rds) fs (Z.of_nat c)) (s_rd s) (a_snaps a)) as Hrds by (by apply share_readers). destruct (Z.eqb_spec rc SQLITE_OK) as [->|Hrc].
  - apply share_ok; [done|by rewrite HnB|rewrite HnB; apply HS|apply HS|]. constructor; [|apply Hrds]. destruct (Hok eq_refl) as (Ha & Hm & Hl). split; cbn [r_lock r_hdr s_db s_d fst snd]; [destruct Hl as [[-> _]|[? _]]; lia|]. destruct Hl as [[-> HnBc]|[Hl Hmk]].
    + change (0 =? 0) with true. cbv iota. intros p Hp. rewrite <- (so_view _ _ _ _ _ HS) by done. destruct (decide (c = 0%nat)) as [Hc|Hc]; [unfold view, frame_of; rewrite Hc; done|]. eapply in_db_all; [apply HS|lia|lia|lia|]. destruct (so_hdr _ _ _ _ _ HS Hc) as [<- _]. done.
    + rewrite (proj2 (Z.eqb_neq _ 0)) by lia. rewrite Hm. split; [lia|]. split; [exact Hmk|]. split; [|intros p Hp; by apply HS]. intros H0. destruct (so_hdr _ _ _ _ _ HS ltac:(lia)) as [E1 [_ E3]]. rewrite <- Ha in E3. done.
  - assert (a = mkAdb (a_page a) (a_size a) (a_pend a) (a_snaps a)) as -> by (by destruct a). apply share_ok; [done|by rewrite HnB|rewrite HnB; apply HS|apply HS|apply Hrds].
Qed.
End Shared.

(** ** Restarting the log *)

(** What belongs to the writer alone and is not part of the relation *)
Lemma sys_private szPage s fs c a d' : sys_ok szPage s fs c a -> d_file d' = d_file (s_d s) -> w_apWiData (d_wal d') = w_apWiData (d_wal (s_d s)) -> w_aHdr (d_wal d') = w_aHdr (d_wal (s_d s)) -> w_info (d_wal d') = w_info (d_wal (s_d s)) ->
  w_mapped (d_wal d') = w_mapped (d_wal (s_d s)) -> w_hdr (d_wal d') = w_hdr (d_wal (s_d s)) -> w_szPage (d_wal d') = w_szPage (d_wal (s_d s)) -> w_nCkpt (d_wal d') = w_nCkpt (d_wal (s_d s)) -> sys_ok szPage (mkSys d' (s_db s) (s_rd s)) fs c a.
Proof.
  intros HS E1 E2 E3 E4 E5 E6 E7 E8. destruct HS as [(b & nC & sa & rest & [L1 L2 L3 L4 L5 L6 L7 L8] & Hat) H2 H3 H4 H5 H6 H7 H8 H9].
  assert (wal_rel (d_wal d') (log_pages fs c)) as HR. { destruct L1 as [[junk [W1 W2 W3]] R2 R3 R4 R5 R6 R7]. split; rewrite ?E3, ?E4, ?E6; try done. - exists junk. split; rewrite ?E2, ?E5; done. - intros n Hn H0 k Hk. rewrite E5. by eapply R5. }
  split; cbn [s_d s_db s_rd]; rewrite ?E4; try done.
  - exists b, nC, sa, rest. split; [split; rewrite ?E1, ?E3, ?E6, ?E7, ?E8; done|]. intros Hne. destruct (Hat Hne) as [A1 (A2 & A3 & A4 & A5)]. unfold at_ck. rewrite E6, E7. done.
  - intros H0. unfold commit_hdr. rewrite E3. by apply H2.
  - eapply Forall2_impl; [exact H9|]. intros r snap [Hl Hr]. split; [done|]. unfold mark in *. cbn [s_d s_db]. rewrite E4. done.
Qed.

Section Restart.
Context (szPage : Z) (s : Sys) (fs : list frame) (c : nat) (a : Adb) (HS : sys_ok szPage s fs c a).

Abbreviation w := (d_wal (s_d s)).
Abbreviation e := (sys_locks s).

(** The writer looks for a mark of its own. *)
Lemma writer_begin io : w_aHdr w = (w_hdr w, w_hdr w) ->
  exists rc d' chg, begin_loop 102 e 0 (set_io (set_wal (s_d s) (set_readLock w (-1))) io) false true 0 = Some (rc, d', chg) /\ sys_ok szPage (mkSys d' (s_db s) (s_rd s)) fs c a /\ w_hdr (d_wal d') = w_hdr w /\
    (rc = SQLITE_OK \/ rc = SQLITE_PROTOCOL \/ rc = WAL_RETRY \/ rc <> SQLITE_BUSY /\ exists k, (rc, k) ∈ io).
Proof using HS.
  intros Hh. destruct (sys_hdr szPage s fs c a HS) as (h & Hh' & Hv & Hm). assert (h = w_hdr w) as -> by (rewrite Hh in Hh'; congruence). pose proof (sys_le _ _ _ _ _ HS) as Hle. pose proof (sys_count _ _ _ _ _ HS) as Hcn. destruct (sys_inv szPage s fs c a HS) as [junk HW]. set (d0 := set_io (set_wal (s_d s) (set_readLock w (-1))) io).
  assert (idle (d_wal d0) (w_hdr w)) as HI. { split; cbn; try done; [apply HW|apply HS|]. rewrite Hm. unfold READMARK_NOT_USED. lia. }
  destruct (begin_loop_spec e true (w_hdr w) 102 d0 false 0 HI) as (rc & d1 & chg & Heq & (io1 & w1 & -> & Hio & Hsm & Hz & Hok & Hbad) & _ & _); [done|lia|lia|]. exists rc, (set_wal (set_io d0 io1) w1), chg. split; [exact Heq|]. assert (w_hdr w1 = w_hdr w) as Hhdr by (destruct (decide (rc = SQLITE_OK)) as [Hr|Hr]; [by apply Hok|destruct (Hbad Hr) as (_ & [|] & _); done]). split; [|split; [done|]].
  - destruct Hsm as [S1 S2 S3 S4 S5 S6 S7 S8].
    set (dk := set_wal (set_io d0 io1) w1). assert (shared_by s fs dk) as Hsh. { split; cbn [dk d_wal set_wal d_file set_io d0]; try done; [by rewrite S1|exists junk; rewrite S1; apply HW|rewrite S4; apply HS]. }
    assert (sys_ok szPage (mkSys (share (s_d s) dk) (s_db s) (s_rd s)) fs c a) as H1.
    { assert (a = mkAdb (a_page a) (a_size a) (a_pend a) (a_snaps a)) as Ha by (by destruct a). rewrite Ha at 1. apply (share_ok szPage s fs c a HS); [done|cbn; rewrite S3; apply HS|cbn; rewrite S3; apply HS|apply HS|]. by apply (share_readers szPage s fs c a HS). }
    refine (sys_private szPage _ fs c a dk H1 _ _ _ _ _ _ _ _); cbn [s_d share d_wal d_file w_apWiData w_aHdr w_info w_mapped w_hdr w_szPage w_nCkpt dk set_wal set_io d0]; try done. by apply Hz.
  - destruct (decide (rc = SQLITE_OK)) as [Hr|Hr]; [by left|]. destruct (Hbad Hr) as (_ & _ & Hcd). destruct Hcd as [?|[?|[H1 (k & Hk)]]]; [auto|auto|]. do 3 right. split; [done|]. by exists k.
Qed.

Lemma restart_fields u salt1 u' : walRestartHdr u salt1 = Some u' ->
  (exists v, h_aSalt (w_hdr u') = sqlite3Put4byte v ++ salt1) /\ (w_aHdr u') = (w_hdr u', w_hdr u') /\ w_info u' = mkInfo 0 [0; 0; READMARK_NOT_USED; READMARK_NOT_USED; READMARK_NOT_USED] /\ 0 <= w_nCkpt u' < 2 ^ 32.
Proof using.
  unfold walRestartHdr. cbv zeta. destruct (sqlite3Get4byte _) as [v|]; cbn [mbind option_bind]; [|done]. unfold walIndexWriteHdr. cbv zeta. destruct (walChecksumBytes _ _ _ _) as [ck|]; cbn [mbind option_bind]; [|done]. destruct (aget _ 0) as [m0|]; cbn [mbind option_bind]; [|done]. destruct (Z.eqb_spec m0 0) as [->|]; cbn [assert_ mbind option_bind]; [|done].
  intros Heq. apply (inj Some) in Heq. rewrite <- Heq. cbn [w_hdr w_aHdr w_info w_nCkpt set_info set_aHdr set_hdr set_nCkpt h_aSalt hset_init hset_salt]. split; [by eexists|]. split; [done|]. split; [done|]. apply Z.mod_pos_bound. lia.
Qed.

(** The log is empty, and the database file has everything. *)
Lemma sys_restarted salt1 : length salt1 = 4%nat -> Forall is_byte salt1 -> a_pend a = [] -> ci_nBackfill (w_info w) = mxFrame w -> lock_free e (WAL_READ_LOCK 1) (WAL_NREADER - 1) ->
  exists u, walRestartHdr w salt1 = Some u /\ sys_ok szPage (mkSys (set_wal (s_d s) u) (s_db s) (s_rd s)) [] 0 a /\ w_aHdr u = (w_hdr u, w_hdr u).
Proof using HS.
  intros Hs1 Hs2 Hp HnB Hfree. pose proof (sys_le _ _ _ _ _ HS) as Hle. destruct (so_log _ _ _ _ _ HS) as (b & nC & sa & rest & HL & Hat). pose proof (so_pend _ _ _ _ _ HS) as Hpe. rewrite Hp in Hpe. symmetry in Hpe. apply map_eq_nil in Hpe.
  destruct (restart_refines w (log_pages fs c) salt1 (lr_wal _ _ _ _ _ _ _ _ HL)) as (u & Hu & HR); [split; [done|]; unfold log_pages; cbn; by rewrite Hpe|]. exists u. split; [done|]. destruct (restart_fields _ _ _ Hu) as ((v & F1) & F2 & F3 & F4). split; [|done].
  assert (c = length fs) as Hc by (apply (f_equal length) in Hpe; rewrite length_drop in Hpe; cbn in Hpe; lia).
  assert (ci_nBackfill (w_info w) = Z.of_nat c) as HnBc. { rewrite HnB, (wr_mx _ _ (lr_wal _ _ _ _ _ _ _ _ HL)), log_pages_all, length_map. lia. } pose proof put4_mem as Hput.
  assert (Forall is_byte (h_aSalt (w_hdr u))) as Hsb by (rewrite F1; apply Forall_app; by split). destruct HL as [L1 L2 L3 L4 L5 L6 (L7 & L8 & L9) L10]. split; cbn [s_d s_db s_rd d_wal set_wal]; rewrite ?F3; try done.
  - exists b, nC, sa, (d_file (s_d s)). split; [|done]. split; try done. cbn [d_wal set_wal d_file]. rewrite F2. by split_and!.
  - intros p _ Hf. cbn in Hf. lia.
  - intros p Hpp. rewrite <- (so_view _ _ _ _ _ HS) by done. change (view szPage (s_db s) [] (Z.of_nat 0) p) with (db_page szPage (s_db s) p). destruct (decide (c = 0%nat)) as [H0|H0]; [unfold view, frame_of; rewrite H0; done|]. eapply in_db_all; [apply HS|lia|lia|lia|]. destruct (so_hdr _ _ _ _ _ HS H0) as [<- _]. done.
  - pose proof (so_rd _ _ _ _ _ HS) as HF. rewrite Forall2_lookup in HF |- *. intros i. specialize (HF i). destruct (s_rd s !! i) as [r|] eqn:Hi; destruct (a_snaps a !! i) as [snap|]; inversion HF as [? ? Hr|]; subst; [|constructor]. constructor. destruct Hr as [Hlk Hr]. split; [done|]. cbn [s_db s_d].
    destruct (Z.eqb_spec (r_lock r) 0) as [Hz|Hz]; [done|]. exfalso. apply (held_not_free e (r_lock r) 1 (WAL_NREADER - 1)); [apply reader_held; by eapply list_elem_of_lookup_2|change (WAL_NREADER - 1) with 4; lia|done].
Qed.

End Restart.

(** Taking the locks and restarting the header *)
Lemma restart_part szPage s fs c a salt1 io (w := d_wal (s_d s)) (e := sys_locks s) (d0 := set_io (set_wal (s_d s) (set_readLock w 0)) io) : sys_ok szPage s fs c a -> restart_ok s a salt1 io ->
  exists ret rc s1, (if 0 <? mxFrame w then let '(rc, d) := walLockExclusive e d0 (WAL_READ_LOCK 1) (WAL_NREADER - 1) in if rc =? SQLITE_OK then u ← walRestartHdr (d_wal d) salt1; Some (false, rc, set_wal d u) else Some (negb (rc =? SQLITE_BUSY), rc, d) else Some (false, SQLITE_OK, d0)) = Some (ret, rc, s_d s1) /\
    d_io (s_d s1) `suffix_of` io /\ s_db s1 = s_db s /\ s_rd s1 = s_rd s /\ sys_rel szPage s1 a /\ w_aHdr (d_wal (s_d s1)) = (w_hdr (d_wal (s_d s1)), w_hdr (d_wal (s_d s1))) /\ mxFrame (d_wal (s_d s1)) <= mxFrame w.
Proof.
  intros HS (Hs1 & Hs2 & Hp & Hh & HnB & _). destruct (sys_hdr szPage s fs c a HS) as (h & Hah & _). assert (w_aHdr w = (w_hdr w, w_hdr w)) as Hw by (unfold w; rewrite Hah in Hh |- *; cbn in Hh; by rewrite Hh). pose (sys0 := fun io => mkSys (set_io d0 io) (s_db s) (s_rd s)).
  assert (forall io, sys_ok szPage (sys0 io) fs c a) as H0 by (intros io0; by apply (sys_private szPage s)). destruct (0 <? mxFrame w).
  2: { exists false, SQLITE_OK, (sys0 io). split; [done|]. split; [done|]. split; [done|]. split; [done|]. split; [by exists fs, c|]. split; [done|]. change (mxFrame w <= mxFrame w). lia. }
  destruct (walLockExclusive_spec e d0 (WAL_READ_LOCK 1) (WAL_NREADER - 1)) as (rc & io1 & -> & Hio & Hfree). destruct (Z.eqb_spec rc SQLITE_OK) as [->|Hrc].
  - destruct (sys_restarted szPage (sys0 io1) fs c a (H0 io1) salt1 Hs1 Hs2 Hp HnB (Hfree eq_refl)) as (u & Hu & HS1 & Hhu). change (d_wal (s_d (sys0 io1))) with (d_wal (set_io d0 io1)) in Hu. rewrite Hu. cbn [mbind option_bind].
    exists false, SQLITE_OK, (mkSys (set_wal (set_io d0 io1) u) (s_db s) (s_rd s)). split; [done|]. split; [done|]. split; [done|]. split; [done|]. split; [by exists [], 0%nat|]. split; [done|]. pose proof (sys_mx szPage _ _ _ _ HS1) as M1. pose proof (sys_mx szPage s fs c a HS) as M2. cbn [s_d d_wal set_wal length] in *. fold w in M2. lia.
  - exists (negb (rc =? SQLITE_BUSY)), rc, (sys0 io1). split; [done|]. split; [done|]. split; [done|]. split; [done|]. split; [by exists fs, c|]. split; [done|]. change (mxFrame w <= mxFrame w). lia.
Qed.

Lemma sys_restart szPage s fs c a salt1 io (w := d_wal (s_d s)) : sys_ok szPage s fs c a -> restart_ok s a salt1 io ->
  exists rc d', walRestartLog (sys_locks s) 0 (set_io (set_wal (s_d s) (set_readLock w 0)) io) salt1 = Some (rc, d') /\ sys_rel szPage (mkSys d' (s_db s) (s_rd s)) a /\ mxFrame (d_wal d') <= mxFrame w.
Proof.
  intros HS Hok. destruct (restart_part szPage s fs c a salt1 io HS Hok) as (ret & rc & s1 & Heq & Hsuf & Hdb & Hrd & (fs1 & c1 & HS1) & Hh1 & Hmx). destruct Hok as (_ & _ & _ & _ & HnB & Hio). subst w. set (w := d_wal (s_d s)) in *. unfold walRestartLog. set (d0 := set_io (set_wal (s_d s) (set_readLock w 0)) io) in *.
  change (w_readLock (d_wal d0) =? 0) with true. cbv iota. change (w_info (d_wal d0)) with (w_info w). change (mxFrame (d_wal d0)) with (mxFrame w). rewrite HnB, Z.eqb_refl. cbn [assert_ mbind option_bind]. rewrite Heq. cbn [mbind option_bind]. destruct ret; cbn [mbind option_bind].
  - exists rc, (s_d s1). split; [done|]. split; [|done]. exists fs1, c1. rewrite <- Hdb, <- Hrd. by destruct s1.
  - destruct (writer_begin szPage s1 fs1 c1 a HS1 (d_io (s_d s1)) Hh1) as (rc2 & d2 & chg & Hb & HS2 & Hhd & Hcode).
    assert (sys_locks s = sys_locks s1) as -> by (unfold sys_locks; by rewrite Hrd). change (set_wal (s_d s1) (set_readLock (d_wal (s_d s1)) (-1))) with (set_io (set_wal (s_d s1) (set_readLock (d_wal (s_d s1)) (-1))) (d_io (s_d s1))). rewrite Hb. cbn [mbind option_bind].
    assert (negb (Z.land rc2 0xff =? SQLITE_BUSY) = true) as ->.
    { destruct Hcode as [-> |[-> |[-> |(Hne & k & Hk)]]]; [done|done|done|]. destruct (Z.eqb_spec (Z.land rc2 0xff) SQLITE_BUSY) as [He|]; [|done]. destruct Hne. rewrite Forall_forall in Hio. apply (Hio (rc2, k)); [|done]. destruct Hsuf as [q ->]. apply elem_of_app. by right. }
    cbn [assert_ mbind option_bind]. eexists _, _. split; [done|]. split; [exists fs1, c1; by rewrite Hdb, Hrd in HS2|]. unfold mxFrame in *. by rewrite Hhd.
Qed.

(** The whole of sqlite3WalFrames *)
Lemma sys_frames szPage s fs c a lock cfg pList nTruncate isCommit sync_flags salt1 salt io (op := SysFrames lock cfg pList nTruncate isCommit sync_flags salt1 salt io) : sys_ok szPage s fs c a -> sys_op_ok szPage s a op -> exists rc s', sys_exec szPage s op = Some (rc, s') /\ sys_rel szPage s' (a_step a op rc).
Proof.
  intros HS [Hop Hre]. cbn [sys_exec op a_step]. unfold sqlite3WalFrames. set (d0 := set_io (set_wal (s_d s) (set_readLock (d_wal (s_d s)) lock)) io).
  assert (exists rc d', walRestartLog (sys_locks s) 0 d0 salt1 = Some (rc, d') /\ sys_rel szPage (mkSys d' (s_db s) (s_rd s)) a /\ mxFrame (d_wal d') <= mxFrame (d_wal (s_d s))) as (rc & d1 & -> & (fs1 & c1 & HS1) & Hmx).
  { destruct (decide (lock = 0)) as [-> |Hl]; [by eapply sys_restart; [exact HS|apply Hre]|]. exists SQLITE_OK, d0. unfold walRestartLog. change (w_readLock (d_wal d0)) with lock. rewrite (proj2 (Z.eqb_neq lock 0)) by done. split; [done|]. split; [exists fs, c; by apply (sys_private szPage s)|]. change (mxFrame (d_wal (s_d s)) <= mxFrame (d_wal (s_d s))). lia. }
  cbn [mbind option_bind]. destruct (Z.eqb_spec rc SQLITE_OK) as [-> |Hrc]; cbn [negb].
  - destruct Hop as ((A1 & A2 & A3 & A4 & A5 & A6 & A7) & A8 & A9 & A10 & A11). assert (set_io d1 (d_io d1) = d1) as Hd1 by (by destruct d1). rewrite <- Hd1.
    apply (sys_write szPage (mkSys d1 (s_db s) (s_rd s)) fs1 c1 a HS1 cfg pList nTruncate isCommit sync_flags salt (d_io d1)). split; [split_and!; try done; cbn; lia|]. done.
  - destruct (so_log _ _ _ _ _ HS1) as (b & nC & sa & rest & HL & Hat). destruct (undo_log d1 szPage b nC sa fs1 c1 rest HL) as (w & rest2 & Hundo & _). unfold or_undo. cbn [mbind option_bind]. rewrite (proj2 (Z.eqb_neq rc _)), Hundo by done. cbn [mbind option_bind]. eexists _, _. split; [done|]. exists (take c1 fs1), c1.
    unfold a_frames. rewrite (proj2 (Z.eqb_neq rc _)) by done. cbn [negb]. eapply (sys_undo szPage _ fs1 c1 a HS1 d1); [exact HL|by split|exact Hundo].
Qed.
