(* ===== verification/WalSnapshot.v ===== *)
(** * WalSnapshot: snapshot isolation and the durability of checkpoints (wal.c)

    Any sequence of calls of the writer, of checkpoints and of readers on one log
    implements the specification of WalSystem; a reader gets the pages of its
    snapshot at any point of it. *)
From S2P Require Import Prelude Varint Record Page PageLayout Wal WalLog WalHash WalIndex WalSpec WalFrame WalRecover WalWrite WalDurable WalSort WalIter UnixLock WalCkpt WalFile WalBackfill WalRead WalBegin WalKeep WalSystem WalIsolation.

(** ** One call *)

Lemma sys_undo_op szPage s a : sys_rel szPage s a -> exists rc s', sys_exec szPage s SysUndo = Some (rc, s') /\ sys_rel szPage s' (a_step a SysUndo rc).
Proof.
  intros (fs & c & HS). destruct (so_log _ _ _ _ _ HS) as (b & nC & sa & rest & HL & _). destruct (undo_log _ _ _ _ _ _ _ _ HL) as (w & rest2 & Hundo & _). cbn [sys_exec]. rewrite Hundo. cbn [mbind option_bind]. eexists _, _. split; [done|]. exists (take c fs), c. cbn [a_step]. by eapply sys_undo.
Qed.

Lemma sys_end szPage s a i : sys_rel szPage s a -> sys_rel szPage (mkSys (s_d s) (s_db s) (list_delete i (s_rd s))) (a_step a (SysEnd i) SQLITE_OK).
Proof.
  intros (fs & c & [H1 H2 H3 H4 H5 H6 H7 H8 H9]). exists fs, c. split; cbn [s_d s_db s_rd a_step a_page a_size a_pend a_snaps]; try done. change (Forall2 (reader_rel szPage s fs (Z.of_nat c)) (list_delete i (s_rd s)) (list_delete i (a_snaps a))). by apply Forall2_delete.
Qed.

Lemma sys_step szPage s a op : sys_rel szPage s a -> sys_op_ok szPage s a op -> exists rc s', sys_exec szPage s op = Some (rc, s') /\ sys_rel szPage s' (a_step a op rc).
Proof.
  intros HR Hop. pose proof HR as (fs & c & HS). destruct op as [lock cfg pList nT isC sf salt1 salt io| |cn eM xB sf nBuf|cn|i].
  - by eapply sys_frames.
  - by apply sys_undo_op.
  - by eapply sys_ckpt.
  - by eapply sys_begin.
  - eexists _, _. split; [done|]. by apply sys_end.
Qed.

(** ** Sequences of calls *)

Fixpoint sys_run (szPage : Z) (s : Sys) (ops : list sys_op) : option (list Z * Sys) :=
  match ops with
  | [] => Some ([], s)
  | op :: ops => '(rc, s) ← sys_exec szPage s op; '(rcs, s) ← sys_run szPage s ops; Some (rc :: rcs, s)
  end.

Fixpoint a_run (a : Adb) (ops : list sys_op) (rcs : list Z) : Adb :=
  match ops, rcs with
  | op :: ops, rc :: rcs => a_run (a_step a op rc) ops rcs
  | _, _ => a
  end.

(** Every call is one that its caller may make. *)
Fixpoint ops_ok (szPage : Z) (s : Sys) (a : Adb) (ops : list sys_op) : Prop :=
  match ops with
  | [] => True
  | op :: ops => sys_op_ok szPage s a op /\ forall rc s', sys_exec szPage s op = Some (rc, s') -> ops_ok szPage s' (a_step a op rc) ops
  end.

Lemma sys_runs szPage ops : forall s a, sys_rel szPage s a -> ops_ok szPage s a ops -> exists rcs s', sys_run szPage s ops = Some (rcs, s') /\ length rcs = length ops /\ sys_rel szPage s' (a_run a ops rcs).
Proof.
  induction ops as [|op ops IH]; intros s a HR Hok; [by exists [], s|]. destruct Hok as [Hop Hok]. destruct (sys_step szPage s a op HR Hop) as (rc & s1 & Heq & HR1). destruct (IH s1 _ HR1 (Hok rc s1 Heq)) as (rcs & s' & Hrun & Hl & HR'). exists (rc :: rcs), s'. cbn [sys_run]. rewrite Heq. cbn [mbind option_bind]. rewrite Hrun. cbn [mbind option_bind]. split; [done|]. split; [cbn; by rewrite Hl|done].
Qed.

(** ** Reading *)

Lemma os_read_some d n off b : get_bytes (d_file d) off n = Some b -> exists rc l d', os_read d n off = (rc, l, d') /\ (rc = SQLITE_OK -> l = b) /\ (rc <> SQLITE_OK -> rc ∈ map fst (d_io d)).
Proof.
  intros Hb. unfold os_read. destruct (os_call_spec d) as (rc & io & -> & _ & Hbad). destruct (Z.eqb_spec rc SQLITE_OK) as [->|Hrc].
  - cbn [d_file set_io]. rewrite Hb. by eexists _, _, _.
  - eexists _, _, _. split; [done|]. split; [done|]. intros _. destruct (Hbad Hrc) as [k Hk]. apply list_elem_of_fmap. by exists (rc, k).
Qed.

Section Read.
Context (szPage : Z) (s : Sys) (fs : list frame) (c : nat) (a : Adb) (HS : sys_ok szPage s fs c a).

(** The page as readDbPage reads it *)
Lemma read_db d pgno : exists rc l d', readDbPage d (s_db s) szPage pgno 0 = (rc, l, d') /\ (rc = SQLITE_OK -> l = db_page szPage (s_db s) pgno) /\ (rc <> SQLITE_OK -> rc ∈ map fst (d_io d)).
Proof using.
  unfold readDbPage. cbn [Z.eqb negb]. destruct (os_call_spec d) as (rc & io & -> & _ & Hbad). eexists _, _, _. split; [done|]. split; [done|]. destruct (Z.eqb_spec rc SQLITE_IOERR_SHORT_READ) as [|_]; [done|]. intros Hrc. destruct (Hbad Hrc) as [k Hk]. apply list_elem_of_fmap. by exists (rc, k).
Qed.

Lemma read_frame d pgno f : d_file d = d_file (s_d s) -> h_szPage (w_hdr (d_wal d)) = enc_szPage szPage -> 1 <= f <= len fs ->
  exists rc l d', readDbPage d (s_db s) szPage pgno f = (rc, l, d') /\ (rc = SQLITE_OK -> l = frame_data fs f) /\ (rc <> SQLITE_OK -> rc ∈ map fst (d_io d)).
Proof using HS.
  intros Hfile Hsz Hf. destruct (so_log _ _ _ _ _ HS) as (b & nC & sa & rest & HL & _). pose proof (lr_file _ _ _ _ _ _ _ _ HL) as HF. rewrite decide_False in HF by (intros ->; cbn in Hf; lia). pose proof (lf_size _ _ _ _ _ _ _ HF) as Hps. unfold readDbPage. rewrite (proj2 (Z.eqb_neq f 0)) by lia. cbn [negb]. unfold sqlite3WalReadFrame.
  pose proof (walPagesize_enc (d_wal d) szPage Hps Hsz) as Hw. unfold walPagesize in Hw. cbv zeta. rewrite Hw, Z.ltb_irrefl. apply os_read_some. rewrite Hfile. by apply (frame_at b szPage nC sa fs rest).
Qed.

Lemma sys_reads i r snap cn p : s_rd s !! i = Some r -> a_snaps a !! i = Some snap -> reader_ok (d_wal (s_d s)) (cn_mapped cn) -> pgno_ok p -> p <= snap.2 ->
  exists rc l, sys_read szPage s r cn p = Some (rc, l) /\ (rc = SQLITE_OK -> l = snap.1 p) /\ (rc <> SQLITE_OK -> rc ∈ cn_map cn \/ rc ∈ map fst (cn_io cn)).
Proof using HS.
  intros Hr Hs Hrd Hp Hps. pose proof Hp as [Hp0 _]. destruct (Forall2_lookup_lr _ _ _ _ _ _ (so_rd _ _ _ _ _ HS) Hr Hs) as [Hlk Hrel]. pose proof (sys_le _ _ _ _ _ HS) as Hle. destruct (sys_inv szPage s fs c a HS) as [junk HW]. unfold sys_read. set (rw := reader _ _ _ _ _). destruct (Z.eqb_spec (r_lock r) 0) as [Hz|Hz].
  - unfold sqlite3WalFindFrame. change (w_readLock rw) with (r_lock r). rewrite Hz. cbn [Z.leb Z.compare Z.eqb assert_ mbind option_bind]. rewrite orb_true_r. cbn [mbind option_bind negb SQLITE_OK Z.eqb]. destruct (read_db (mkDb rw (d_file (s_d s)) (cn_io cn) false (d_past (s_d s))) p) as (rc & l & d' & -> & Hok & Hbad). exists rc, l. split; [done|]. split; [|auto]. intros ->. rewrite Hok by done. apply Hrel. lia.
  - destruct Hrel as (Hm & _ & Hsz & Hv). set (m := h_mxFrame (r_hdr r)) in *. destruct (findFrame_spec rw (map f_pgno fs ++ junk) (Z.to_nat m) p) as (rc & w' & f & Hf & _ & [Hh _] & Hok & Hbad); [by apply reader_inv|change (m = Z.of_nat (Z.to_nat m)); lia|rewrite length_app, length_map; lia|cbn; lia|done|].
    rewrite Hf. cbn [mbind option_bind]. destruct (Z.eqb_spec rc SQLITE_OK) as [->|Hrc]; cbn [negb]; [|exists rc, []; split; [done|]; split; [done|]; left; by apply Hbad].
    assert (f = frame_of fs m p) as Hff. { rewrite Hok by done. unfold frame_of. f_equal. rewrite take_app_le by (rewrite length_map; lia). apply firstn_map. } destruct (frame_of_spec fs m p ltac:(lia)) as (Hfr & _). specialize (Hv p ltac:(lia)). unfold view in Hv. rewrite <- Hff in Hv, Hfr. set (d2 := mkDb w' (d_file (s_d s)) (cn_io cn) false (d_past (s_d s))). destruct (Z.eqb_spec f 0) as [Hf0|Hne].
    + rewrite Hf0. destruct (read_db d2 p) as (rc & l & d' & -> & Hok2 & Hbad2). exists rc, l. split; [done|]. split; [|auto]. intros ->. by rewrite Hok2.
    + destruct (read_frame d2 p f) as (rc & l & d' & -> & Hok2 & Hbad2); [done|cbn; rewrite Hh; apply Hsz; lia|lia|]. exists rc, l. split; [done|]. split; [|auto]. intros ->. by rewrite Hok2.
Qed.
End Read.

(** ** A new log *)

(** The log is empty: what is read is the database file. *)
Lemma sys_new szPage d db size b nCkpt salt rest : log_rel d szPage b nCkpt salt [] 0 rest -> length (ci_aReadMark (w_info (d_wal d))) = 5%nat -> ci_nBackfill (w_info (d_wal d)) = 0 ->
  sys_rel szPage (mkSys d db []) (mkAdb (db_page szPage db) size [] []).
Proof. intros HL Hm HnB. exists [], 0%nat. split; cbn [s_d s_db s_rd a_page a_size a_pend a_snaps]; rewrite ?HnB; try done; [by exists b, nCkpt, salt, rest|intros p _ Hf; cbn in Hf; lia]. Qed.

(** A connection that has mapped the first page of the wal-index *)
Lemma sys_reader szPage s a : sys_rel szPage s a -> reader_ok (d_wal (s_d s)) {[0]}.
Proof. intros (fs & c & HS). destruct (sys_inv szPage s fs c a HS) as [junk [_ H1 H2]]. split; [by apply elem_of_singleton|]. intros k ->%elem_of_singleton. by apply H1. Qed.

(** ** The theorems *)

(** C6. Any sequence of calls, one after the other, of the writer (frames and commits, with the
    restarts of the log within sqlite3WalFrames, and rollbacks), of
    checkpoints of any kind by other connections and of readers that begin and end, on a log that
    starts empty, returns, for every result of the operating system and of the locks; and at its
    end it is in the relation of the specification, where only a commit that succeeds changes
    the database, at once, and where a checkpoint and a restart change nothing. *)
Theorem wal_system_refines szPage d db size b nCkpt salt rest ops (s0 := mkSys d db []) (a0 := mkAdb (db_page szPage db) size [] []) :
  log_rel d szPage b nCkpt salt [] 0 rest -> length (ci_aReadMark (w_info (d_wal d))) = 5%nat -> ci_nBackfill (w_info (d_wal d)) = 0 -> ops_ok szPage s0 a0 ops ->
  exists rcs s', sys_run szPage s0 ops = Some (rcs, s') /\ length rcs = length ops /\ sys_rel szPage s' (a_run a0 ops rcs).
Proof. intros HL Hm HnB Hok. apply sys_runs; [|exact Hok]. by eapply sys_new. Qed.

(** C4. Snapshot isolation: after any sequence of calls, one after the other, what readDbPage gets for a page of a reader,
    from the frame that sqlite3WalFindFrame finds or from the database file, is the content that the
    page had when sqlite3WalBeginReadTransaction returned, whatever was committed, rolled
    back, checkpointed or restarted in between; a read fails only with an error of the
    operating system. *)
Theorem wal_snapshot_isolation szPage s a ops : sys_rel szPage s a -> ops_ok szPage s a ops ->
  exists rcs s', sys_run szPage s ops = Some (rcs, s') /\
    forall i r snap cn p, s_rd s' !! i = Some r -> a_snaps (a_run a ops rcs) !! i = Some snap -> reader_ok (d_wal (s_d s')) (cn_mapped cn) -> pgno_ok p -> p <= snap.2 ->
      exists rc l, sys_read szPage s' r cn p = Some (rc, l) /\ (rc = SQLITE_OK -> l = snap.1 p) /\ (rc <> SQLITE_OK -> rc ∈ cn_map cn \/ rc ∈ map fst (cn_io cn)).
Proof.
  intros HR Hok. destruct (sys_runs szPage ops s a HR Hok) as (rcs & s' & Hrun & _ & (fs & c & HS)). exists rcs, s'. split; [exact Hrun|]. intros i r snap cn p. by apply (sys_reads szPage s' fs c _ HS).
Qed.

(** C12. A checkpoint that waits for the readers (SQLITE_CHECKPOINT_FULL or
    SQLITE_CHECKPOINT_RESTART) and returns SQLITE_OK has put the whole committed database into
    the database file. *)
Theorem wal_checkpoint_complete szPage s a cn eMode xBusy sync_flags nBuf s' : sys_rel szPage s a -> reader_ok (d_wal (s_d s)) (cn_mapped cn) -> eMode <> SQLITE_CHECKPOINT_PASSIVE ->
  sys_exec szPage s (SysCkpt cn eMode xBusy sync_flags nBuf) = Some (SQLITE_OK, s') -> forall p, 1 <= p <= a_size a -> db_page szPage (s_db s') p = a_page a p.
Proof.
  intros (fs & c & HS) Hrd He Hex p Hp. destruct (ckpt_call szPage s fs c a HS cn eMode xBusy sync_flags nBuf Hrd) as (rc & dk & db & out & Heq & _ & Hef & Hfull). cbn [sys_exec] in Hex. rewrite Heq in Hex. cbn [mbind option_bind] in Hex. injection Hex as -> <-. specialize (Hfull eq_refl He). cbn [s_db]. pose proof (sys_le _ _ _ _ _ HS) as Hle. pose proof (so_nBackfill _ _ _ _ _ HS) as HnB.
  rewrite <- (so_view _ _ _ _ _ HS) by done. destruct (decide (c = 0%nat)) as [->|Hc].
  - destruct Hef as [[-> _]|(mx & _ & _ & [Hmx _ _])]; [done|cbn in Hmx; lia].
  - destruct (so_hdr _ _ _ _ _ HS Hc) as [Hsz _]. rewrite Hsz in Hp. rewrite <- (ck_effect_view _ _ _ _ _ _ _ _ db _ _ Hef) by (lia || by left). eapply in_db_all; [|exact Hfull|lia|lia|done]. eapply ck_effect_in_db; [exact Hef|apply HS].
Qed.

(** ** Witnesses *)

Definition ex_conn : Conn := mkConn zero_hdr {[0]} [] [].
Definition ex_sys : Sys := mkSys ex_db (replicate 1536 7) [].
Definition ex_adb : Adb := mkAdb (db_page 512 (replicate 1536 7)) 3 [] [].
Definition ex_frames_op : sys_op := SysFrames 1 ex_cfg ex_pages 3 true 0x22 [] ex_salt [].
Definition ex_ops : list sys_op := [SysBegin ex_conn; ex_frames_op; SysBegin ex_conn; SysCkpt ex_conn 0 false 0 512].
Definition ex_sys1 : Sys := default ex_sys (snd <$> sys_exec 512 ex_sys (SysBegin ex_conn)).

Lemma ex_sys_rel : sys_rel 512 ex_sys ex_adb.
Proof. exact (sys_new 512 ex_db (replicate 1536 7) 3 0 0 ex_salt [] (proj1 ex_log) eq_refl eq_refl). Qed.

Lemma ex_begin : sys_exec 512 ex_sys (SysBegin ex_conn) = Some (SQLITE_OK, ex_sys1) /\ mxFrame (d_wal (s_d ex_sys1)) = 0.
Proof. vm_compute. done. Qed.

Lemma ex_frames_op_ok s a : mxFrame (d_wal (s_d s)) = 0 -> a_size a = 3 -> sys_op_ok 512 s a ex_frames_op.
Proof.
  intros Hm Hs. split; [|done]. split; [split_and!; try done; [apply ex_pages_ok|rewrite Hm; done]|]. split; [repeat constructor|]. split; [done|]. split; [apply ex_salt_mem|]. rewrite Hs. intros _ p Hp. lia.
Qed.

Lemma ex_ops_ok : ops_ok 512 ex_sys ex_adb ex_ops.
Proof.
  pose proof ex_sys_rel as HR. split; [by apply (sys_reader 512 _ ex_adb)|]. intros rc s1 H1. destruct (sys_step 512 ex_sys ex_adb (SysBegin ex_conn) HR) as (rc' & s1' & Heq & HR1); [by apply (sys_reader 512 _ ex_adb)|]. rewrite H1 in Heq. destruct (some_pair_inj _ _ _ _ Heq) as [<- <-]. rewrite (proj1 ex_begin) in H1. destruct (some_pair_inj _ _ _ _ H1) as [<- <-].
  pose proof (ex_frames_op_ok ex_sys1 (a_step ex_adb (SysBegin ex_conn) SQLITE_OK) (proj2 ex_begin) eq_refl) as Hop. split; [exact Hop|]. intros rc s2 H2. destruct (sys_step _ _ _ _ HR1 Hop) as (rc' & s2' & Heq2 & HR2). rewrite H2 in Heq2. destruct (some_pair_inj _ _ _ _ Heq2) as [<- <-].
  pose proof (sys_reader _ _ _ HR2) as Hrd2. split; [exact Hrd2|]. intros rc3 s3 H3. destruct (sys_step 512 s2 _ (SysBegin ex_conn) HR2 Hrd2) as (rc' & s3' & Heq3 & HR3). rewrite H3 in Heq3. destruct (some_pair_inj _ _ _ _ Heq3) as [<- <-]. split; [exact (sys_reader _ _ _ HR3)|done].
Qed.

Lemma wal_system_refines_witness : exists rcs s', sys_run 512 ex_sys ex_ops = Some (rcs, s') /\ sys_rel 512 s' (a_run ex_adb ex_ops rcs).
Proof. destruct (wal_system_refines 512 ex_db (replicate 1536 7) 3 0 0 ex_salt [] ex_ops (proj1 ex_log) eq_refl eq_refl ex_ops_ok) as (rcs & s' & H1 & _ & H2). exists rcs, s'. split; [exact H1|exact H2]. Defined.

(** The first reader still has the old page 2, the second one has the new one. *)
Lemma ex_reads : ('(rcs, s) ← sys_run 512 ex_sys ex_ops; Some (rcs, (fun r => '(rc, l) ← sys_read 512 s r ex_conn 2; Some (rc, take 1 l)) <$> s_rd s)) = Some ([0; 0; 0; 0], [Some (0, [5]); Some (0, [7])]).
Proof. vm_compute. done. Qed.

Lemma wal_snapshot_isolation_witness : exists rcs s', sys_run 512 ex_sys ex_ops = Some (rcs, s') /\ forall r snap, s_rd s' !! 1%nat = Some r -> a_snaps (a_run ex_adb ex_ops rcs) !! 1%nat = Some snap -> 2 <= snap.2 -> exists rc l, sys_read 512 s' r ex_conn 2 = Some (rc, l) /\ (rc = SQLITE_OK -> l = snap.1 2).
Proof.
  destruct (wal_snapshot_isolation 512 ex_sys ex_adb ex_ops ex_sys_rel ex_ops_ok) as (rcs & s' & Hrun & Hread). exists rcs, s'. split; [exact Hrun|]. intros r snap Hr Hs Hp.
  assert (sys_rel 512 s' (a_run ex_adb ex_ops rcs)) as HR. { destruct (sys_runs 512 ex_ops ex_sys ex_adb ex_sys_rel ex_ops_ok) as (rcs' & s2 & Hrun' & _ & HR). rewrite Hrun in Hrun'. destruct (some_pair_inj _ _ _ _ Hrun') as [<- <-]. exact HR. }
  pose proof (Hread 1%nat r snap ex_conn 2 Hr Hs (sys_reader _ _ _ HR) (conj eq_refl eq_refl) Hp) as H0. destruct H0 as (rc & l & H1 & H2 & _). exists rc, l. split; [exact H1|exact H2].
Defined.

(** A full checkpoint after the commit, with no reader *)
Definition ex_sys2 : Sys := default ex_sys (snd <$> sys_exec 512 ex_sys ex_frames_op).
Definition ex_sys3 : Sys := default ex_sys (snd <$> sys_exec 512 ex_sys2 (SysCkpt ex_conn 1 false 0 512)).

Lemma ex_full : sys_exec 512 ex_sys ex_frames_op = Some (SQLITE_OK, ex_sys2) /\ sys_exec 512 ex_sys2 (SysCkpt ex_conn 1 false 0 512) = Some (SQLITE_OK, ex_sys3).
Proof. vm_compute. done. Qed.

Lemma ex_sys2_rel : sys_rel 512 ex_sys2 (a_step ex_adb ex_frames_op SQLITE_OK).
Proof. destruct (sys_step 512 ex_sys ex_adb ex_frames_op ex_sys_rel) as (rc & s' & Heq & HR); [by apply ex_frames_op_ok|]. rewrite (proj1 ex_full) in Heq. destruct (some_pair_inj _ _ _ _ Heq) as [<- <-]. exact HR. Qed.

Lemma wal_checkpoint_complete_witness : db_page 512 (s_db ex_sys3) 2 = replicate 512 5.
Proof. exact (wal_checkpoint_complete 512 ex_sys2 _ ex_conn 1 false 0 512 ex_sys3 ex_sys2_rel (sys_reader _ _ _ ex_sys2_rel) ltac:(discriminate) (proj2 ex_full) 2 ltac:(cbn; lia)). Defined.
