(* ===== verification/WalStale.v ===== *)
(** * WalStale: a checkpoint that resumes after the log was restarted (wal.c)

    sqlite3WalCheckpoint copies the shared header and then calls walCheckpoint, which
    compares nBackfill with this copy.  A passive checkpoint holds no lock that keeps a
    writer from restarting the log in between, and then nBackfill, which the
    restart has set to 0, is raised to the last frame of the old log. *)
From S2P Require Import Prelude Varint Record Page PageLayout Wal WalLog WalHash WalIndex WalSpec WalFrame WalRecover WalWrite WalDurable WalSort WalIter UnixLock WalCkpt WalFile WalBackfill WalRead WalBegin WalKeep WalSystem WalIsolation WalSnapshot.

(** A commit of pages of one repeated byte to a database of two pages, by a writer that reads mark [lock] *)
Definition put_pages (lock : Z) (l : list (Z * Z)) : sys_op := SysFrames lock ex_cfg (map (fun '(p, x) => (p, replicate 512 x)) l) 2 true 0 [9; 9; 9; 9] ex_salt [].
Definition ckpt_full : sys_op := SysCkpt ex_conn 1 false 0 512.

(** The connection that will checkpoint has copied the header [stale]; the others go on. *)
Definition stale_state : option (WalIndexHdr * Sys) :=
  '(_, s) ← sys_run 512 ex_sys [put_pages 1 [(1, 1); (2, 2)]; ckpt_full];
  let stale := (w_aHdr (d_wal (s_d s))).1 in
  '(_, s) ← sys_run 512 s [put_pages 0 [(1, 3)]];
  Some (stale, s).

(** The rest of the checkpoint with the header [h] *)
Definition ckpt_resume (h : WalIndexHdr) (s : Sys) : option (Z * Sys) :=
  '(rc, dk, db) ← walCheckpoint (sys_locks s) (connect (s_d s) (mkConn h {[0]} [] [])) (s_db s) SQLITE_CHECKPOINT_PASSIVE false 0;
  Some (rc, mkSys (share (s_d s) dk) db (s_rd s)).

(** A commit, a reader and another checkpoint; the reader gets page 2. *)
Definition stale_finish (s : Sys) : option (list Z * Z * Z * option (Z * list Z)) :=
  '(rcs, s) ← sys_run 512 s [put_pages 1 [(2, 4)]; SysBegin ex_conn; SysEnd 0; ckpt_full; SysBegin ex_conn];
  let r := match s_rd s with r :: _ => Some r | [] => None end in
  Some (rcs, mxFrame (d_wal (s_d s)), ci_nBackfill (w_info (d_wal (s_d s))), r ← r; sys_read 512 s r ex_conn 2).

(** A lost commit: both connections get SQLITE_OK from every call, but the commit of page 2 that follows
    a checkpoint resumed with the header of the old log is never copied, since nBackfill is already
    at its frame; a reader takes mark 0 and gets the old page 2.  With the current header the same
    calls give the committed page. *)
Example wal_stale_checkpoint_loses_commit :
  ('(h, s) ← stale_state; '(rc, s) ← ckpt_resume h s; x ← stale_finish s; Some (rc, x)) = Some (SQLITE_OK, ([0; 0; 0; 0; 0], 2, 2, Some (SQLITE_OK, replicate 512 2))) /\
  ('(_, s) ← stale_state; '(rc, s) ← ckpt_resume (w_aHdr (d_wal (s_d s))).1 s; x ← stale_finish s; Some (rc, x)) = Some (SQLITE_OK, ([0; 0; 0; 0; 0], 2, 2, Some (SQLITE_OK, replicate 512 4))).
Proof. split; vm_compute; reflexivity. Qed.
