(* ===== verification/ShmLock.v ===== *)
(** * ShmLock: the locks of the write-ahead log in shared memory (os_unix.c)

    Connections of one or more processes share a wal-index and lock its eight slots
    through POSIX locks on the shared-memory file; the unixShmNode of a process keeps
    the locks of its connections apart.  A byte of its own, the dead-man switch,
    tells the first process to open the file that it may truncate it.  A call is a program whose
    system calls interleave with those of other processes; within a process the
    mutexes make calls exclude each other.  The file is never deleted here (deleteFlag is
    0), and the mapping of its regions is left out. *)
From S2P Require Import Prelude Wal UnixLock.

Definition SQLITE_SHM_UNLOCK : Z := 1.
Definition SQLITE_SHM_LOCK : Z := 2.
Definition SQLITE_SHM_SHARED : Z := 4.
Definition SQLITE_SHM_EXCLUSIVE : Z := 8.
Definition SQLITE_SHM_NLOCK : Z := 8.
Definition UNIX_SHM_BASE : Z := (22 + SQLITE_SHM_NLOCK) * 4.
Definition UNIX_SHM_DMS : Z := UNIX_SHM_BASE + SQLITE_SHM_NLOCK.
Definition SQLITE_IOERR_FSTAT : Z := Z.lor SQLITE_IOERR (Z.shiftl 7 8).
Definition SQLITE_IOERR_SHMOPEN : Z := Z.lor SQLITE_IOERR (Z.shiftl 18 8).

(** ** Programs *)

(** The system calls: fcntl with F_SETLK, ftruncate to 0, close *)
Inductive sprog (A : Type) :=
| SRet (a : A)
| SStuck
| SSetLk (l : flock) (k : Z -> sprog A)
| STrunc (k : Z -> sprog A)
| SClose (k : sprog A).
Arguments SRet {A} a.
Arguments SStuck {A}.
Arguments SSetLk {A} l k.
Arguments STrunc {A} k.
Arguments SClose {A} k.

Fixpoint sbind {A B} (p : sprog A) (f : A -> sprog B) : sprog B :=
  match p with
  | SRet a => f a
  | SStuck => SStuck
  | SSetLk l k => SSetLk l (fun e => sbind (k e) f)
  | STrunc k => STrunc (fun e => sbind (k e) f)
  | SClose k => SClose (sbind k f)
  end.
Declare Scope sprog_scope.
Delimit Scope sprog_scope with sprog.
Notation "'do*' x ':=' p 'in' q" := (sbind p (fun x => q)) (at level 10, x pattern, q at level 200) : sprog_scope.
Definition sassert (b : bool) : sprog unit := if b then SRet tt else SStuck.
Definition slift {A} (o : option A) : sprog A := match o with Some a => SRet a | None => SStuck end.
#[local] Open Scope sprog_scope.

(** ** Data *)

(** [sh_id] stands for the pointer. *)
Record unixShm := mkShm { sh_id : Z; sh_sharedMask : Z; sh_exclMask : Z }.

Record unixShmNode := mkNode { sn_h : Z; sn_nRef : Z; sn_pFirst : list unixShm }.

Definition shm_find (l : list unixShm) (id : Z) : option unixShm := List.find (fun x => sh_id x =? id) l.
Definition shm_update (l : list unixShm) (p : unixShm) : list unixShm := map (fun x => if sh_id x =? sh_id p then p else x) l.

Fixpoint shm_remove (l : list unixShm) (id : Z) : list unixShm := match l with [] => [] | x :: l => if sh_id x =? id then l else x :: shm_remove l id end.

(** ** Operations *)

Definition unixShmSystemLock (h : Z) (lockType : flk) (ofst n : Z) : sprog Z :=
  do* _ := sassert ((n =? 1) || match lockType with F_RDLCK => false | _ => true end) in
  do* _ := sassert ((1 <=? n) && (n <? SQLITE_SHM_NLOCK)) in
  if 0 <=? h then SSetLk (mkFlock lockType ofst n) (fun e => SRet (if e =? 0 then SQLITE_OK else SQLITE_BUSY)) else SRet SQLITE_OK.

(** The loop over the siblings of [p]: allMask *)
Fixpoint shm_siblings (p : unixShm) (l : list unixShm) (allMask : Z) : option Z :=
  match l with
  | [] => Some allMask
  | x :: l =>
      if sh_id x =? sh_id p then shm_siblings p l allMask
      else
        _ ← assert_ (Z.land (sh_exclMask x) (Z.lor (sh_exclMask p) (sh_sharedMask p)) =? 0);
        shm_siblings p l (Z.lor allMask (sh_sharedMask x))
  end.

(** The loop before a shared lock: rc and allShared *)
Fixpoint shm_scan_shared (mask : Z) (l : list unixShm) (allShared : Z) : Z * Z :=
  match l with
  | [] => (SQLITE_OK, allShared)
  | x :: l => if negb (Z.land (sh_exclMask x) mask =? 0) then (SQLITE_BUSY, allShared) else shm_scan_shared mask l (Z.lor allShared (sh_sharedMask x))
  end.

(** The loop before an exclusive lock: rc *)
Fixpoint shm_scan_excl (mask : Z) (l : list unixShm) : Z :=
  match l with
  | [] => SQLITE_OK
  | x :: l => if negb (Z.land (sh_exclMask x) mask =? 0) || negb (Z.land (sh_sharedMask x) mask =? 0) then SQLITE_BUSY else shm_scan_excl mask l
  end.

Definition shm_mask (ofst n : Z) : Z := u16 (Z.shiftl 1 (ofst + n) - Z.shiftl 1 ofst).

Definition shm_flags_ok (flags : Z) : bool :=
  (flags =? Z.lor SQLITE_SHM_LOCK SQLITE_SHM_SHARED) || (flags =? Z.lor SQLITE_SHM_LOCK SQLITE_SHM_EXCLUSIVE) || (flags =? Z.lor SQLITE_SHM_UNLOCK SQLITE_SHM_SHARED) || (flags =? Z.lor SQLITE_SHM_UNLOCK SQLITE_SHM_EXCLUSIVE).

(** [bProcessLock] is that of the unixInodeInfo. *)
Definition unixShmLock (bProcessLock : Z) (node : unixShmNode) (id ofst n flags : Z) : sprog (Z * unixShmNode) :=
  do* p := slift (shm_find (sn_pFirst node) id) in
  do* _ := sassert ((0 <=? ofst) && (ofst + n <=? SQLITE_SHM_NLOCK)) in
  do* _ := sassert (1 <=? n) in
  do* _ := sassert (shm_flags_ok flags) in
  do* _ := sassert ((n =? 1) || flag flags SQLITE_SHM_EXCLUSIVE) in
  do* _ := sassert ((0 <=? sn_h node) || (bProcessLock =? 1)) in
  do* _ := sassert ((sn_h node <? 0) || (bProcessLock =? 0)) in
  let mask := shm_mask ofst n in
  let set p := mkNode (sn_h node) (sn_nRef node) (shm_update (sn_pFirst node) p) in
  do* _ := sassert ((1 <? n) || (mask =? Z.shiftl 1 ofst)) in
  if flag flags SQLITE_SHM_UNLOCK then
    do* allMask := slift (shm_siblings p (sn_pFirst node) 0) in
    do* rc := if Z.land mask allMask =? 0 then unixShmSystemLock (sn_h node) F_UNLCK (ofst + UNIX_SHM_BASE) n else SRet SQLITE_OK in
    SRet (rc, if rc =? SQLITE_OK then set (mkShm id (Z.land (sh_sharedMask p) (Z.lnot mask)) (Z.land (sh_exclMask p) (Z.lnot mask))) else node)
  else if flag flags SQLITE_SHM_SHARED then
    let '(rc, allShared) := shm_scan_shared mask (sn_pFirst node) 0 in
    do* rc := if rc =? SQLITE_OK then if Z.land allShared mask =? 0 then unixShmSystemLock (sn_h node) F_RDLCK (ofst + UNIX_SHM_BASE) n else SRet SQLITE_OK else SRet rc in
    SRet (rc, if rc =? SQLITE_OK then set (mkShm id (Z.lor (sh_sharedMask p) mask) (sh_exclMask p)) else node)
  else
    let rc := shm_scan_excl mask (sn_pFirst node) in
    if rc =? SQLITE_OK then
      do* rc := unixShmSystemLock (sn_h node) F_WRLCK (ofst + UNIX_SHM_BASE) n in
      if rc =? SQLITE_OK then
        do* _ := sassert (Z.land (sh_sharedMask p) mask =? 0) in
        SRet (rc, set (mkShm id (sh_sharedMask p) (Z.lor (sh_exclMask p) mask)))
      else SRet (rc, node)
    else SRet (rc, node).

(** unixShmPurge of a node with nRef 0 *)
Definition unixShmPurge (h : Z) : sprog unit := if 0 <=? h then SClose (SRet tt) else SRet tt.

(** Whether the allocations, fstat and the mutex succeed, and the result of open *)
Record ShmEnv := mkShmEnv { se_shm : bool; se_fstat : bool; se_node : bool; se_mutex : bool; se_fd : Z }.

(** The new connection is the child [id] of the node. *)
Definition shm_link (node : unixShmNode) (id : Z) : unixShmNode := mkNode (sn_h node) (sn_nRef node + 1) (mkShm id 0 0 :: sn_pFirst node).

Definition unixOpenSharedMemory (bProcessLock : Z) (node : option unixShmNode) (env : ShmEnv) (id : Z) : sprog (Z * option unixShmNode) :=
  if negb (se_shm env) then SRet (SQLITE_NOMEM, node)
  else
    match node with
    | Some node => SRet (SQLITE_OK, Some (shm_link node id))
    | None =>
        if negb (se_fstat env) && (bProcessLock =? 0) then SRet (SQLITE_IOERR_FSTAT, None)
        else if negb (se_node env) then SRet (SQLITE_NOMEM, None)
        else if negb (se_mutex env) then do* _ := unixShmPurge (-1) in SRet (SQLITE_NOMEM, None)
        else if bProcessLock =? 0 then
          let h := se_fd env in
          if h <? 0 then do* _ := unixShmPurge h in SRet (SQLITE_CANTOPEN, None)
          else
            do* dms := unixShmSystemLock h F_WRLCK UNIX_SHM_DMS 1 in
            do* rc := if dms =? SQLITE_OK then STrunc (fun e => SRet (if e =? 0 then SQLITE_OK else SQLITE_IOERR_SHMOPEN)) else SRet SQLITE_OK in
            do* rc := if rc =? SQLITE_OK then unixShmSystemLock h F_RDLCK UNIX_SHM_DMS 1 else SRet rc in
            if negb (rc =? SQLITE_OK) then do* _ := unixShmPurge h in SRet (rc, None)
            else SRet (SQLITE_OK, Some (shm_link (mkNode h 0 []) id))
        else SRet (SQLITE_OK, Some (shm_link (mkNode (-1) 0 []) id))
    end.

Definition unixShmUnmap (node : unixShmNode) (id : Z) : sprog (Z * option unixShmNode) :=
  do* _ := slift (shm_find (sn_pFirst node) id) in
  let pFirst := shm_remove (sn_pFirst node) id in
  do* _ := sassert (0 <? sn_nRef node) in
  let nRef := sn_nRef node - 1 in
  if nRef =? 0 then do* _ := unixShmPurge (sn_h node) in SRet (SQLITE_OK, None)
  else SRet (SQLITE_OK, Some (mkNode (sn_h node) nRef pFirst)).

(** ** Reasoning about one process *)

(** Whatever the system calls answer, [I] holds before each and [Q] at the end. *)
Fixpoint swp {A} (I : own -> Prop) (Q : A -> own -> Prop) (o : own) (pr : sprog A) : Prop :=
  match pr with
  | SRet a => Q a o
  | SStuck => False
  | SSetLk l k => I o /\ (forall e, e <> 0 -> swp I Q o (k e)) /\ swp I Q (set_own o l) (k 0)
  | STrunc k => I o /\ o UNIX_SHM_DMS = Some WR /\ forall e, swp I Q o (k e)
  | SClose k => I o /\ swp I Q (fun _ => None) k
  end.

Lemma swp_bind {A B} I (Q : B -> own -> Prop) (pr : sprog A) (f : A -> sprog B) : forall o, swp I (fun a o => swp I Q o (f a)) o pr -> swp I Q o (sbind pr f).
Proof. induction pr as [a| |l k IH|k IH|k IH]; intros o; cbn; naive_solver. Qed.

Lemma swp_mono {A} I (Q Q' : A -> own -> Prop) (pr : sprog A) : forall o, (forall a o, Q a o -> Q' a o) -> swp I Q o pr -> swp I Q' o pr.
Proof. induction pr as [a| |l k IH|k IH|k IH]; intros o HQ; cbn; naive_solver. Qed.

Lemma swp_proper {A} (I : own -> Prop) (Q : A -> own -> Prop) (pr : sprog A) :
  Proper (own_eq ==> impl) I -> (forall a, Proper (own_eq ==> impl) (Q a)) -> Proper (own_eq ==> impl) (fun o => swp I Q o pr).
Proof.
  intros PI PQ. induction pr as [a| |l k IH|k IH|k IH]; intros o o' Ho; cbn.
  - by apply PQ.
  - done.
  - intros (HI & He & H0). split; [by apply (PI o)|]. split; [intros e Hne; apply (IH e o o' Ho); auto|]. refine (IH 0 (set_own o l) (set_own o' l) _ H0). by rewrite Ho.
  - intros (HI & Hd & He). split; [by apply (PI o)|]. split; [by rewrite <- Ho|]. intros e. by apply (IH e o o' Ho).
  - intros (HI & He). split; [by apply (PI o)|done].
Qed.

(** ** Masks *)

Lemma shm_mask_bits ofst n b : 0 <= ofst -> 1 <= n -> ofst + n <= 8 -> 0 <= b -> Z.testbit (shm_mask ofst n) b = (ofst <=? b) && (b <? ofst + n).
Proof.
  intros H1 H2 H3 Hb. unfold shm_mask. rewrite !Z.shiftl_1_l. replace (2 ^ (ofst + n) - 2 ^ ofst) with (Z.shiftl (Z.ones n) ofst).
  2: { rewrite Z.shiftl_mul_pow2, Z.ones_equiv, Z.pow_add_r by lia. lia. }
  unfold u16. destruct (decide (b < 16)) as [Hlt|Hge].
  - rewrite Z.mod_pow2_bits_low by lia. rewrite Z.shiftl_spec by lia. destruct (Z.leb_spec ofst b) as [Hl|Hl]; cbn [andb].
    + rewrite Z.testbit_ones_nonneg by lia. destruct (Z.ltb_spec (b - ofst) n), (Z.ltb_spec b (ofst + n)); done || lia.
    + apply Z.testbit_neg_r. lia.
  - rewrite Z.mod_pow2_bits_high by lia. destruct (Z.ltb_spec b (ofst + n)); [lia|]. by rewrite andb_false_r.
Qed.

(** Two masks have a bit in common or not. *)
Lemma land_zero_bits m m' : Z.land m m' = 0 <-> forall b, 0 <= b -> Z.testbit m b = true -> Z.testbit m' b = true -> False.
Proof.
  split.
  - intros H b Hb H1 H2. pose proof (Z.land_spec m m' b) as Hs. rewrite H, H1, H2, Z.bits_0 in Hs. done.
  - intros H. apply Z.bits_inj'. intros b Hb. rewrite Z.land_spec, Z.bits_0. destruct (Z.testbit m b) eqn:E1, (Z.testbit m' b) eqn:E2; try done. by destruct (H b Hb).
Qed.

(** ** The state of a node *)

#[local] Abbreviation bit := Z.testbit.

(** No slot is held in exclusive mode beside another lock, and the POSIX locks of the
    process stand behind the masks; [o] are these locks. *)
Record node_ok (bProcessLock : Z) (o : own) (nd : unixShmNode) : Prop := {
  no_ids : NoDup (map sh_id (sn_pFirst nd));
  no_ref : sn_nRef nd = Z.of_nat (length (sn_pFirst nd));
  no_ne : sn_pFirst nd <> [];
  no_mode : 0 <= sn_h nd /\ bProcessLock = 0 \/ sn_h nd < 0 /\ bProcessLock = 1;
  no_apart x y b : x ∈ sn_pFirst nd -> y ∈ sn_pFirst nd -> 0 <= b -> bit (sh_exclMask x) b = true -> bit (sh_sharedMask y) b = false /\ (bit (sh_exclMask y) b = true -> x = y);
  no_excl x b : 0 <= sn_h nd -> x ∈ sn_pFirst nd -> 0 <= b -> bit (sh_exclMask x) b = true -> o (UNIX_SHM_BASE + b) = Some WR;
  no_shared x b : 0 <= sn_h nd -> x ∈ sn_pFirst nd -> 0 <= b -> bit (sh_sharedMask x) b = true -> o (UNIX_SHM_BASE + b) = Some RD;
  no_dms : 0 <= sn_h nd -> o UNIX_SHM_DMS = Some RD }.

#[export] Instance node_ok_proper bpl : Proper (own_eq ==> eq ==> impl) (node_ok bpl).
Proof. intros o o' Ho nd ? <- [H1 H2 H3 H4 H5 H6 H7 H8]. split; try done; intros; rewrite <- Ho; eauto. Qed.

Definition node_opt (bpl : Z) (node : option unixShmNode) (o : own) : Prop := match node with Some nd => node_ok bpl o nd | None => True end.

#[export] Instance node_opt_proper bpl node : Proper (own_eq ==> impl) (node_opt bpl node).
Proof. destruct node; [|done]. intros o o' Ho. by apply node_ok_proper. Qed.

(** *** Connections by their id *)

Lemma shm_find_Some l id p : shm_find l id = Some p -> p ∈ l /\ sh_id p = id.
Proof. unfold shm_find. intros [Hin Hid]%find_some. split; [by apply list_elem_of_In|lia]. Qed.

Lemma shm_find_in l id : id ∈ map sh_id l -> exists p, shm_find l id = Some p.
Proof.
  intros (p & -> & Hp)%list_elem_of_fmap. unfold shm_find. destruct (List.find _ l) as [q|] eqn:Hf; [eauto|]. apply list_elem_of_In in Hp. pose proof (find_none _ _ Hf p Hp) as Hn. cbn in Hn. lia.
Qed.

Lemma ids_inj l x y : NoDup (map sh_id l) -> x ∈ l -> y ∈ l -> sh_id x = sh_id y -> x = y.
Proof.
  induction l as [|z l IH]; [by intros _ ?%not_elem_of_nil|]. cbn [map]. intros [Hz Hnd]%NoDup_cons [->|Hx]%elem_of_cons [->|Hy]%elem_of_cons He; try done; [| |by apply IH].
  - destruct Hz. rewrite He. apply list_elem_of_fmap. eauto.
  - destruct Hz. rewrite <- He. apply list_elem_of_fmap. eauto.
Qed.

Lemma shm_update_in l p x : x ∈ shm_update l p -> x = p \/ x ∈ l /\ sh_id x <> sh_id p.
Proof. intros (y & -> & Hy)%list_elem_of_fmap. destruct (Z.eqb_spec (sh_id y) (sh_id p)); auto. Qed.

Lemma shm_update_ids l p : map sh_id (shm_update l p) = map sh_id l.
Proof. unfold shm_update. rewrite map_map. apply map_ext. intros x. destruct (Z.eqb_spec (sh_id x) (sh_id p)) as [->|]; done. Qed.

Lemma shm_remove_in l id x : x ∈ shm_remove l id -> x ∈ l.
Proof. induction l as [|y l IH]; [done|]. cbn. destruct (sh_id y =? id); rewrite !elem_of_cons; [auto|]. intros [->|?]; auto. Qed.

Lemma shm_remove_ids l id : id ∈ map sh_id l -> NoDup (map sh_id l) -> length l = S (length (shm_remove l id)) /\ NoDup (map sh_id (shm_remove l id)).
Proof.
  induction l as [|y l IH]; [by intros ?%not_elem_of_nil|]. cbn [map shm_remove]. intros Hin [Hy Hnd]%NoDup_cons. destruct (Z.eqb_spec (sh_id y) id) as [He|Hne]; [done|]. apply elem_of_cons in Hin as [->|Hin]; [done|]. destruct (IH Hin Hnd) as [Hl Hnd']. cbn [map length]. split; [by rewrite Hl|]. apply NoDup_cons. split; [|done].
  intros (x & Hxy & Hx)%list_elem_of_fmap. apply Hy, list_elem_of_fmap. exists x. split; [done|]. by eapply shm_remove_in.
Qed.

(** *** Replacing a connection *)

Lemma node_update bpl o o' nd p p' : node_ok bpl o nd -> p ∈ sn_pFirst nd -> sh_id p' = sh_id p ->
  (forall b, 0 <= b -> bit (sh_exclMask p') b = true -> bit (sh_sharedMask p') b = false /\ (0 <= sn_h nd -> o' (UNIX_SHM_BASE + b) = Some WR) /\ forall y, y ∈ sn_pFirst nd -> sh_id y <> sh_id p -> bit (sh_exclMask y) b = false /\ bit (sh_sharedMask y) b = false) ->
  (forall b, 0 <= b -> bit (sh_sharedMask p') b = true -> (0 <= sn_h nd -> o' (UNIX_SHM_BASE + b) = Some RD) /\ forall y, y ∈ sn_pFirst nd -> sh_id y <> sh_id p -> bit (sh_exclMask y) b = false) ->
  (0 <= sn_h nd -> forall b y, 0 <= b -> y ∈ sn_pFirst nd -> sh_id y <> sh_id p -> bit (sh_exclMask y) b = true \/ bit (sh_sharedMask y) b = true -> o' (UNIX_SHM_BASE + b) = o (UNIX_SHM_BASE + b)) ->
  (0 <= sn_h nd -> o' UNIX_SHM_DMS = o UNIX_SHM_DMS) ->
  node_ok bpl o' (mkNode (sn_h nd) (sn_nRef nd) (shm_update (sn_pFirst nd) p')).
Proof.
  intros [H1 H2 H3 H4 H5 H6 H7 H8] Hp Hid He Hs Hk Hd. split; cbn [sn_h sn_nRef sn_pFirst].
  - by rewrite shm_update_ids.
  - unfold shm_update. by rewrite length_map.
  - intros Hn. by apply map_eq_nil in Hn.
  - done.
  - intros x y b Hx Hy Hb Hxe. apply shm_update_in in Hx as [->|[Hx Hxid]], Hy as [->|[Hy Hyid]]; rewrite ?Hid in *.
    + split; [by destruct (He b Hb Hxe)|done].
    + destruct (He b Hb Hxe) as (_ & _ & Ho). destruct (Ho y Hy Hyid) as [Ey Sy]. split; [done|]. by rewrite Ey.
    + split.
      * destruct (bit (sh_sharedMask p') b) eqn:Es; [|done]. destruct (Hs b Hb Es) as [_ Ho]. by rewrite (Ho x Hx Hxid) in Hxe.
      * intros Ep. destruct (He b Hb Ep) as (_ & _ & Ho). destruct (Ho x Hx Hxid) as [Ex _]. by rewrite Ex in Hxe.
    + by apply H5.
  - intros x b Hh Hx Hb Hxe. apply shm_update_in in Hx as [->|[Hx Hxid]]; [by apply He|]. rewrite Hid in Hxid. rewrite (Hk Hh b x) by auto. by eapply H6.
  - intros x b Hh Hx Hb Hxs. apply shm_update_in in Hx as [->|[Hx Hxid]]; [by apply Hs|]. rewrite Hid in Hxid. rewrite (Hk Hh b x) by auto. by eapply H7.
  - intros Hh. rewrite Hd by done. auto.
Qed.

(** *** The loops over the connections *)

Lemma shm_siblings_spec p l : forall allMask, (forall x, x ∈ l -> sh_id x <> sh_id p -> Z.land (sh_exclMask x) (Z.lor (sh_exclMask p) (sh_sharedMask p)) = 0) ->
  exists m, shm_siblings p l allMask = Some m /\ forall b, bit m b = true <-> bit allMask b = true \/ exists x, x ∈ l /\ sh_id x <> sh_id p /\ bit (sh_sharedMask x) b = true.
Proof.
  induction l as [|x l IH]; intros m Hz; cbn [shm_siblings].
  - exists m. split; [done|]. intros b. split; [auto|]. intros [?|(x & ?%not_elem_of_nil & _)]; done.
  - assert (forall y, y ∈ l -> sh_id y <> sh_id p -> Z.land (sh_exclMask y) (Z.lor (sh_exclMask p) (sh_sharedMask p)) = 0) as Hz' by (intros y Hy; apply Hz, elem_of_cons; auto). destruct (Z.eqb_spec (sh_id x) (sh_id p)) as [He|Hne].
    + destruct (IH m Hz') as (m' & -> & Hm). exists m'. split; [done|]. intros b. rewrite Hm. split; (intros [?|(y & Hy & Hr)]; [auto|right; exists y; split; [|done]]); [apply elem_of_cons; auto|]. apply elem_of_cons in Hy as [->|]; [by destruct Hr|done].
    + rewrite Hz by (done || by apply elem_of_cons; left). cbn [Z.eqb assert_ mbind option_bind]. destruct (IH (Z.lor m (sh_sharedMask x)) Hz') as (m' & -> & Hm). exists m'. split; [done|]. intros b. rewrite Hm, Z.lor_spec, orb_true_iff. split.
      * intros [[?|?]|(y & Hy & Hr)]; [auto|right; exists x; split; [apply elem_of_cons|]; auto|right; exists y; split; [apply elem_of_cons|]; auto].
      * intros [?|(y & [->|Hy]%elem_of_cons & Hn & Hb)]; [auto|auto|right; eauto].
Qed.

Lemma scan_shared_spec mask l : forall m, let '(rc, m') := shm_scan_shared mask l m in
  (rc = SQLITE_OK /\ (forall x, x ∈ l -> Z.land (sh_exclMask x) mask = 0) /\ forall b, bit m' b = true <-> bit m b = true \/ exists x, x ∈ l /\ bit (sh_sharedMask x) b = true) \/
  (rc = SQLITE_BUSY /\ exists x, x ∈ l /\ Z.land (sh_exclMask x) mask <> 0).
Proof.
  induction l as [|x l IH]; intros m; cbn [shm_scan_shared].
  - left. split; [done|]. split; [by intros x ?%not_elem_of_nil|]. intros b. split; [auto|]. intros [?|(x & ?%not_elem_of_nil & _)]; done.
  - destruct (Z.eqb_spec (Z.land (sh_exclMask x) mask) 0) as [Hz|Hnz]; cbn [negb]; [|right; split; [done|]; exists x; split; [by apply elem_of_cons; left|done]]. specialize (IH (Z.lor m (sh_sharedMask x))). destruct (shm_scan_shared mask l _) as [rc m']. destruct IH as [(Hrc & Hex & Hm)|(Hrc & y & Hy & Hn)].
    + left. split; [done|]. split; [intros y [->|]%elem_of_cons; auto|]. intros b. rewrite Hm, Z.lor_spec, orb_true_iff. split.
      * intros [[?|?]|(y & Hy & Hr)]; [auto|right; exists x; split; [apply elem_of_cons|]; auto|right; exists y; split; [apply elem_of_cons|]; auto].
      * intros [?|(y & [->|Hy]%elem_of_cons & Hb)]; [auto|auto|right; eauto].
    + right. split; [done|]. exists y. split; [by apply elem_of_cons; right|done].
Qed.

Lemma scan_excl_spec mask l : shm_scan_excl mask l = SQLITE_OK /\ (forall x, x ∈ l -> Z.land (sh_exclMask x) mask = 0 /\ Z.land (sh_sharedMask x) mask = 0) \/
  shm_scan_excl mask l = SQLITE_BUSY /\ exists x, x ∈ l /\ (Z.land (sh_exclMask x) mask <> 0 \/ Z.land (sh_sharedMask x) mask <> 0).
Proof.
  induction l as [|x l IH]; [left; split; [done|by intros x ?%not_elem_of_nil]|]. cbn [shm_scan_excl]. destruct (Z.eqb_spec (Z.land (sh_exclMask x) mask) 0) as [H1|H1]; cbn [negb orb]; [|right; split; [done|]; exists x; split; [by apply elem_of_cons; left|auto]].
  destruct (Z.eqb_spec (Z.land (sh_sharedMask x) mask) 0) as [H2|H2]; cbn [negb]; [|right; split; [done|]; exists x; split; [by apply elem_of_cons; left|auto]]. destruct IH as [[-> H]|[-> (y & Hy & Hr)]].
  - left. split; [done|]. intros y [->|]%elem_of_cons; auto.
  - right. split; [done|]. exists y. split; [by apply elem_of_cons; right|done].
Qed.

(** *** The system locks *)

Lemma system_lock_swp I (Q : Z -> own -> Prop) o h t ofst n : I o -> n = 1 \/ t <> F_RDLCK -> 1 <= n < 8 -> Q SQLITE_BUSY o -> Q SQLITE_OK (if 0 <=? h then set_own o (mkFlock t ofst n) else o) -> swp I Q o (unixShmSystemLock h t ofst n).
Proof.
  intros HI Ht Hn HB HO. unfold unixShmSystemLock. apply swp_bind. assert ((n =? 1) || match t with F_RDLCK => false | _ => true end = true) as -> by (destruct Ht as [->|Ht]; [done|]; destruct t; [done|apply orb_true_r|apply orb_true_r]). cbn [sassert swp]. apply swp_bind. change SQLITE_SHM_NLOCK with 8. rewrite (proj2 (Z.leb_le 1 n)), (proj2 (Z.ltb_lt n 8)) by lia. cbn [andb sassert swp].
  destruct (0 <=? h); cbn [swp]; [|done]. split; [done|]. split; [|done]. intros e He. by rewrite (proj2 (Z.eqb_neq e 0)).
Qed.

Definition in_slots (ofst n b : Z) : bool := (ofst <=? b) && (b <? ofst + n).

Lemma own_slot o t ofst n b : 1 <= n -> set_own o (mkFlock t (ofst + UNIX_SHM_BASE) n) (UNIX_SHM_BASE + b) = if in_slots ofst n b then lock_of t else o (UNIX_SHM_BASE + b).
Proof.
  intros Hn. unfold set_own, covers, in_slots. cbn [l_start l_len l_type]. rewrite (proj2 (Z.eqb_neq n 0)) by lia. cbn [orb]. replace (ofst + UNIX_SHM_BASE <=? UNIX_SHM_BASE + b) with (ofst <=? b) by (destruct (Z.leb_spec ofst b), (Z.leb_spec (ofst + UNIX_SHM_BASE) (UNIX_SHM_BASE + b)); done || lia).
  replace (UNIX_SHM_BASE + b <? ofst + UNIX_SHM_BASE + n) with (b <? ofst + n) by (destruct (Z.ltb_spec b (ofst + n)), (Z.ltb_spec (UNIX_SHM_BASE + b) (ofst + UNIX_SHM_BASE + n)); done || lia). done.
Qed.

(** *** Locking *)

Section Lock.
Context (bpl : Z) (o : own) (nd : unixShmNode) (HN : node_ok bpl o nd).
Context (ofst n : Z) (H0 : 0 <= ofst) (H1 : 1 <= n < 8) (H8 : ofst + n <= 8).
Context (p : unixShm) (Hp : p ∈ sn_pFirst nd).

Abbreviation mask := (shm_mask ofst n).
Abbreviation set q := (mkNode (sn_h nd) (sn_nRef nd) (shm_update (sn_pFirst nd) q)).
Abbreviation locked_own t := (if 0 <=? sn_h nd then set_own o (mkFlock t (ofst + UNIX_SHM_BASE) n) else o).

Lemma mask_bit b : 0 <= b -> bit mask b = in_slots ofst n b.
Proof using H0 H1 H8. intros Hb. apply shm_mask_bits; lia. Qed.

Lemma lock_slot t b : 0 <= sn_h nd -> locked_own t (UNIX_SHM_BASE + b) = if in_slots ofst n b then lock_of t else o (UNIX_SHM_BASE + b).
Proof using H1. intros Hh. rewrite (proj2 (Z.leb_le 0 _)) by done. apply own_slot. lia. Qed.

Lemma lock_dms t : 0 <= sn_h nd -> locked_own t UNIX_SHM_DMS = o UNIX_SHM_DMS.
Proof using H1 H8. intros Hh. change UNIX_SHM_DMS with (UNIX_SHM_BASE + 8). rewrite lock_slot by done. unfold in_slots. destruct (Z.ltb_spec 8 (ofst + n)); [lia|]. by rewrite andb_false_r. Qed.

Lemma off_mask m b : 0 <= b -> bit (Z.land m (Z.lnot mask)) b = bit m b && negb (in_slots ofst n b).
Proof using H0 H1 H8. intros Hb. rewrite Z.land_spec, Z.lnot_spec, mask_bit by done. done. Qed.

Lemma zero_mask m b : Z.land m mask = 0 -> 0 <= b -> in_slots ofst n b = true -> bit m b = false.
Proof using H0 H1 H8. intros Hz Hb Hs. destruct (bit m b) eqn:Hm; [|done]. exfalso. apply (proj1 (land_zero_bits m mask) Hz b Hb Hm). by rewrite mask_bit. Qed.

(** Releasing the locks *)
Lemma unlock_node (q := mkShm (sh_id p) (Z.land (sh_sharedMask p) (Z.lnot mask)) (Z.land (sh_exclMask p) (Z.lnot mask))) o' :
  o' = o \/ o' = locked_own F_UNLCK /\ (forall y b, y ∈ sn_pFirst nd -> sh_id y <> sh_id p -> 0 <= b -> in_slots ofst n b = true -> bit (sh_exclMask y) b = false /\ bit (sh_sharedMask y) b = false) -> node_ok bpl o' (set q).
Proof using HN Hp H0 H1 H8.
  intros Ho'. assert (forall b, 0 <= sn_h nd -> in_slots ofst n b = false -> o' (UNIX_SHM_BASE + b) = o (UNIX_SHM_BASE + b)) as Hsame by (intros b Hh Hs; destruct Ho' as [->|[-> _]]; [done|]; by rewrite lock_slot, Hs). apply (node_update bpl o o' nd p); [done|done|done|..].
  - cbn [sh_exclMask sh_sharedMask q]. intros b Hb. rewrite !off_mask by done. intros [He Hs%negb_true_iff]%andb_true_iff. destruct (no_apart _ _ _ HN p p b Hp Hp Hb He) as [-> _]. split; [done|]. split; [intros Hh; rewrite Hsame by done; by eapply (no_excl _ _ _ HN)|].
    intros y Hy Hid. destruct (no_apart _ _ _ HN p y b Hp Hy Hb He) as [-> Hxy]. split; [|done]. destruct (bit (sh_exclMask y) b); [|done]. destruct Hid. by rewrite Hxy.
  - cbn [sh_sharedMask q]. intros b Hb. rewrite off_mask by done. intros [He Hs%negb_true_iff]%andb_true_iff. split; [intros Hh; rewrite Hsame by done; by eapply (no_shared _ _ _ HN)|]. intros y Hy Hid. destruct (bit (sh_exclMask y) b) eqn:Hye; [|done]. destruct (no_apart _ _ _ HN y p b Hy Hp Hb Hye) as [Hc _]. by rewrite Hc in He.
  - intros Hh b y Hb Hy Hid Hl. destruct (in_slots ofst n b) eqn:Hs; [|by apply Hsame]. destruct Ho' as [->|[-> Hfree]]; [done|]. destruct (Hfree y b Hy Hid Hb Hs) as [E1 E2]. rewrite E1, E2 in Hl. by destruct Hl.
  - intros Hh. destruct Ho' as [->|[-> _]]; [done|by apply lock_dms].
Qed.

(** A shared lock, granted by the system or shared with a sibling *)
Lemma shared_node (q := mkShm (sh_id p) (Z.lor (sh_sharedMask p) mask) (sh_exclMask p)) o' : (forall x, x ∈ sn_pFirst nd -> Z.land (sh_exclMask x) mask = 0) ->
  o' = o /\ (0 <= sn_h nd -> forall b, in_slots ofst n b = true -> o (UNIX_SHM_BASE + b) = Some RD) \/ o' = locked_own F_RDLCK /\ (forall y b, y ∈ sn_pFirst nd -> 0 <= b -> in_slots ofst n b = true -> bit (sh_sharedMask y) b = false) -> node_ok bpl o' (set q).
Proof using HN Hp H0 H1 H8.
  intros Hex Ho'. assert (forall b, 0 <= sn_h nd -> in_slots ofst n b = false -> o' (UNIX_SHM_BASE + b) = o (UNIX_SHM_BASE + b)) as Hsame by (intros b Hh Hs; destruct Ho' as [[-> _]|[-> _]]; [done|]; by rewrite lock_slot, Hs).
  assert (forall b, 0 <= sn_h nd -> in_slots ofst n b = true -> o' (UNIX_SHM_BASE + b) = Some RD) as Hrd by (intros b Hh Hs; destruct Ho' as [[-> Hr]|[-> _]]; [by apply Hr|]; by rewrite lock_slot, Hs). apply (node_update bpl o o' nd p); [done|done|done|..].
  - cbn [sh_exclMask sh_sharedMask q]. intros b Hb He. assert (in_slots ofst n b = false) as Hs by (destruct (in_slots ofst n b) eqn:Hs; [|done]; by rewrite (zero_mask _ b (Hex p Hp) Hb Hs) in He). rewrite Z.lor_spec, mask_bit, Hs, orb_false_r by done. split; [by apply (no_apart _ _ _ HN p p b)|].
    split; [intros Hh; rewrite Hsame by done; by eapply (no_excl _ _ _ HN)|]. intros y Hy Hid. destruct (no_apart _ _ _ HN p y b Hp Hy Hb He) as [-> Hxy]. split; [|done]. destruct (bit (sh_exclMask y) b); [|done]. destruct Hid. by rewrite Hxy.
  - cbn [sh_sharedMask q]. intros b Hb. rewrite Z.lor_spec, mask_bit by done. destruct (in_slots ofst n b) eqn:Hs.
    + intros _. split; [intros Hh; by apply Hrd|]. intros y Hy _. by apply (zero_mask _ b (Hex y Hy)).
    + rewrite orb_false_r. intros He. split; [intros Hh; rewrite Hsame by done; by eapply (no_shared _ _ _ HN)|]. intros y Hy Hid. destruct (bit (sh_exclMask y) b) eqn:Hye; [|done]. destruct (no_apart _ _ _ HN y p b Hy Hp Hb Hye) as [Hc _]. by rewrite Hc in He.
  - intros Hh b y Hb Hy Hid Hl. destruct (in_slots ofst n b) eqn:Hs; [|by apply Hsame]. destruct Ho' as [[-> _]|[-> Hfree]]; [done|]. rewrite (zero_mask _ b (Hex y Hy) Hb Hs), (Hfree y b Hy Hb Hs) in Hl. by destruct Hl.
  - intros Hh. destruct Ho' as [[-> _]|[-> _]]; [done|by apply lock_dms].
Qed.

(** An exclusive lock *)
Lemma excl_node (q := mkShm (sh_id p) (sh_sharedMask p) (Z.lor (sh_exclMask p) mask)) : (forall x, x ∈ sn_pFirst nd -> Z.land (sh_exclMask x) mask = 0 /\ Z.land (sh_sharedMask x) mask = 0) -> node_ok bpl (locked_own F_WRLCK) (set q).
Proof using HN Hp H0 H1 H8.
  intros Hex. assert (forall y b, y ∈ sn_pFirst nd -> 0 <= b -> in_slots ofst n b = true -> bit (sh_exclMask y) b = false /\ bit (sh_sharedMask y) b = false) as Hfree by (intros y b Hy Hb Hs; destruct (Hex y Hy) as [E1 E2]; by rewrite (zero_mask _ b E1 Hb Hs), (zero_mask _ b E2 Hb Hs)). apply (node_update bpl o _ nd p); [done|done|done|..].
  - cbn [sh_exclMask sh_sharedMask q]. intros b Hb. rewrite Z.lor_spec, mask_bit by done. destruct (in_slots ofst n b) eqn:Hs.
    + intros _. split; [by apply Hfree|]. split; [intros Hh; by rewrite lock_slot, Hs|]. intros y Hy _. by apply Hfree.
    + rewrite orb_false_r. intros He. split; [by apply (no_apart _ _ _ HN p p b)|]. split; [intros Hh; rewrite lock_slot, Hs by done; by eapply (no_excl _ _ _ HN)|]. intros y Hy Hid. destruct (no_apart _ _ _ HN p y b Hp Hy Hb He) as [-> Hxy]. split; [|done]. destruct (bit (sh_exclMask y) b); [|done]. destruct Hid. by rewrite Hxy.
  - cbn [sh_sharedMask q]. intros b Hb He. assert (in_slots ofst n b = false) as Hs by (destruct (in_slots ofst n b) eqn:Hs; [|done]; destruct (Hfree p b Hp Hb Hs) as [_ Hc]; by rewrite Hc in He). split; [intros Hh; rewrite lock_slot, Hs by done; by eapply (no_shared _ _ _ HN)|].
    intros y Hy Hid. destruct (bit (sh_exclMask y) b) eqn:Hye; [|done]. destruct (no_apart _ _ _ HN y p b Hy Hp Hb Hye) as [Hc _]. by rewrite Hc in He.
  - intros Hh b y Hb Hy Hid Hl. destruct (in_slots ofst n b) eqn:Hs; [|by rewrite lock_slot, Hs]. destruct (Hfree y b Hy Hb Hs) as [E1 E2]. rewrite E1, E2 in Hl. by destruct Hl.
  - intros Hh. by apply lock_dms.
Qed.
End Lock.

(** ** The calls *)

Inductive shm_call := ShmOpen (env : ShmEnv) (id : Z) | ShmLock (id ofst n flags : Z) | ShmUnmap (id : Z).

(** What the asserts of unixShmLock and of unixShmSystemLock ask of the caller; a connection only
    releases locks that it holds. *)
Definition shm_call_ok (node : option unixShmNode) (c : shm_call) : Prop :=
  let conns := default [] (sn_pFirst <$> node) in
  match c with
  | ShmOpen _ id => id ∉ map sh_id conns
  | ShmLock id ofst n flags =>
      exists p, shm_find conns id = Some p /\ 0 <= ofst /\ 1 <= n < SQLITE_SHM_NLOCK /\ ofst + n <= SQLITE_SHM_NLOCK /\ shm_flags_ok flags = true /\ (n = 1 \/ flag flags SQLITE_SHM_EXCLUSIVE = true) /\
        (flag flags SQLITE_SHM_UNLOCK = true -> forall b, in_slots ofst n b = true -> bit (if flag flags SQLITE_SHM_SHARED then sh_sharedMask p else sh_exclMask p) b = true)
  | ShmUnmap id => id ∈ map sh_id conns
  end.

Definition shm_prog (bpl : Z) (node : option unixShmNode) (c : shm_call) : sprog (Z * option unixShmNode) :=
  match c with
  | ShmOpen env id => unixOpenSharedMemory bpl node env id
  | ShmLock id ofst n flags => do* node := slift node in do* (rc, node) := unixShmLock bpl node id ofst n flags in SRet (rc, Some node)
  | ShmUnmap id => do* node := slift node in unixShmUnmap node id
  end.

Lemma unlock_slots nd bpl o p ofst n m : node_ok bpl o nd -> p ∈ sn_pFirst nd -> 0 <= ofst -> 1 <= n < 8 -> ofst + n <= 8 -> (forall b, in_slots ofst n b = true -> bit (sh_sharedMask p) b = true \/ bit (sh_exclMask p) b = true) ->
  (forall b, bit m b = true <-> bit 0 b = true \/ exists x, x ∈ sn_pFirst nd /\ sh_id x <> sh_id p /\ bit (sh_sharedMask x) b = true) -> Z.land (shm_mask ofst n) m = 0 ->
  forall y b, y ∈ sn_pFirst nd -> sh_id y <> sh_id p -> 0 <= b -> in_slots ofst n b = true -> bit (sh_exclMask y) b = false /\ bit (sh_sharedMask y) b = false.
Proof.
  intros HN Hp H0 H1 H8 Hheld Hm Hz y b Hy Hid Hb Hs. split.
  - destruct (bit (sh_exclMask y) b) eqn:Hye; [|done]. destruct (no_apart _ _ _ HN y p b Hy Hp Hb Hye) as [Hc Hxy]. destruct (Hheld b Hs) as [Hh|Hh]; [by rewrite Hc in Hh|]. destruct Hid. by rewrite (Hxy Hh).
  - rewrite Z.land_comm in Hz. pose proof (zero_mask ofst n H0 H1 H8 m b Hz Hb Hs) as Hmb. destruct (bit (sh_sharedMask y) b) eqn:Hys; [|done]. assert (bit m b = true) as Ht by (apply Hm; right; eauto). by rewrite Ht in Hmb.
Qed.

Lemma unixShmLock_swp bpl o nd id ofst n flags : node_ok bpl o nd -> shm_call_ok (Some nd) (ShmLock id ofst n flags) -> swp (fun o => node_ok bpl o nd) (fun r o => node_ok bpl o r.2) o (unixShmLock bpl nd id ofst n flags).
Proof.
  intros HN (p & Hp & H0 & H1 & H8 & Hfl & Hn & Hun). change SQLITE_SHM_NLOCK with 8 in *. destruct (shm_find_Some _ _ _ Hp) as [Hin Hid]. unfold unixShmLock. change (default [] (sn_pFirst <$> Some nd)) with (sn_pFirst nd) in Hp. rewrite Hp. cbn [slift sbind]. change SQLITE_SHM_NLOCK with 8. rewrite (proj2 (Z.leb_le 0 ofst)), (proj2 (Z.leb_le (ofst + n) 8)), (proj2 (Z.leb_le 1 n)) by lia. cbn [andb sassert sbind]. rewrite Hfl. cbn [sassert sbind].
  assert ((n =? 1) || flag flags SQLITE_SHM_EXCLUSIVE = true) as -> by (destruct Hn as [->| ->]; [done|apply orb_true_r]). cbn [sassert sbind].
  assert ((0 <=? sn_h nd) || (bpl =? 1) = true /\ (sn_h nd <? 0) || (bpl =? 0) = true) as [-> ->] by (destruct (no_mode _ _ _ HN) as [[Hh ->]|[Hh ->]]; [rewrite (proj2 (Z.leb_le 0 _)) by done; split; [done|apply orb_true_r]|rewrite (proj2 (Z.ltb_lt _ 0)) by done; split; [apply orb_true_r|done]]). cbn [sassert sbind].
  assert ((1 <? n) || (shm_mask ofst n =? Z.shiftl 1 ofst) = true) as ->. { destruct (decide (n = 1)) as [->|]; [|by rewrite (proj2 (Z.ltb_lt 1 n)) by lia]. apply Z.eqb_eq. unfold shm_mask. rewrite !Z.shiftl_1_l, Z.pow_add_r by lia. assert (2 ^ ofst <= 2 ^ 7) by (apply Z.pow_le_mono_r; lia). assert (0 < 2 ^ ofst) by (apply Z.pow_pos_nonneg; lia). unfold u16. change (2 ^ 1) with 2. change (2 ^ 16) with 65536. change (2 ^ 7) with 128 in *. rewrite Z.mod_small by lia. lia. }
  cbn [sassert sbind]. assert (flags = 6 \/ flags = 10 \/ flags = 5 \/ flags = 9) as Hcase by (unfold shm_flags_ok in Hfl; rewrite !orb_true_iff, !Z.eqb_eq in Hfl; cbn in Hfl; tauto). destruct (flag flags SQLITE_SHM_UNLOCK) eqn:Hu.
  - destruct (shm_siblings_spec p (sn_pFirst nd) 0) as (m & -> & Hm).
    { intros x Hx Hne. apply land_zero_bits. intros b Hb He. rewrite Z.lor_spec. destruct (no_apart _ _ _ HN x p b Hx Hin Hb He) as [-> Hxp]. rewrite orb_false_r. intros Hpe. destruct Hne. by rewrite (Hxp Hpe). }
    cbn [slift sbind]. apply swp_bind. assert (forall b, in_slots ofst n b = true -> bit (sh_sharedMask p) b = true \/ bit (sh_exclMask p) b = true) as Hheld by (intros b Hb; specialize (Hun eq_refl b Hb); destruct (flag flags SQLITE_SHM_SHARED); auto). rewrite <- Hid. destruct (Z.eqb_spec (Z.land (shm_mask ofst n) m) 0) as [Hz|Hz].
    + apply system_lock_swp; [done|by right|done|done|]. cbn [swp snd]. change (SQLITE_OK =? SQLITE_OK) with true. cbv iota. apply (unlock_node bpl o nd HN ofst n H0 H1 H8 p Hin). right. split; [done|]. by eapply unlock_slots.
    + cbn [swp snd]. change (SQLITE_OK =? SQLITE_OK) with true. cbv iota. apply (unlock_node bpl o nd HN ofst n H0 H1 H8 p Hin). by left.
  - destruct (flag flags SQLITE_SHM_SHARED) eqn:Hsh.
    + assert (n = 1) as -> by (destruct Hn as [|Hx]; [done|]; destruct Hcase as [->|[->|[->| ->]]]; done). pose proof (scan_shared_spec (shm_mask ofst 1) (sn_pFirst nd) 0) as Hscan. destruct (shm_scan_shared _ _ _) as [rc m]. destruct Hscan as [(-> & Hex & Hm)|(-> & _)]; [|cbn; done]. change (SQLITE_OK =? SQLITE_OK) with true. cbv iota. apply swp_bind. rewrite <- Hid. destruct (Z.eqb_spec (Z.land m (shm_mask ofst 1)) 0) as [Hz|Hz].
      * apply system_lock_swp; [done|by left|done|done|]. cbn [swp snd]. change (SQLITE_OK =? SQLITE_OK) with true. cbv iota. apply (shared_node bpl o nd HN ofst 1 H0 H1 H8 p Hin); [done|]. right. split; [done|]. intros y b Hy Hb Hs. pose proof (zero_mask ofst 1 H0 H1 H8 m b Hz Hb Hs) as Hmb. destruct (bit (sh_sharedMask y) b) eqn:Hys; [|done]. assert (bit m b = true) as Ht by (apply Hm; right; eauto). by rewrite Ht in Hmb.
      * cbn [swp snd]. change (SQLITE_OK =? SQLITE_OK) with true. cbv iota. apply (shared_node bpl o nd HN ofst 1 H0 H1 H8 p Hin); [done|]. left. split; [done|]. intros Hh b Hs. assert (b = ofst) as -> by (unfold in_slots in Hs; lia). destruct (bit m ofst) eqn:Hmo; [|destruct Hz; apply land_zero_bits; intros b' Hb' E1 E2; rewrite mask_bit in E2 by lia; assert (b' = ofst) as -> by (unfold in_slots in E2; lia); by rewrite Hmo in E1].
        apply Hm in Hmo as [Hc|(x & Hx & Hxb)]; [by rewrite Z.bits_0 in Hc|]. by apply (no_shared _ _ _ HN x).
    + destruct (scan_excl_spec (shm_mask ofst n) (sn_pFirst nd)) as [[-> Hex]|[-> _]]; [|cbn; done]. change (SQLITE_OK =? SQLITE_OK) with true. cbv iota. apply swp_bind. apply system_lock_swp; [done|by right|done|done|]. change (SQLITE_OK =? SQLITE_OK) with true. cbv iota. destruct (Hex p Hin) as [_ ->]. cbn [Z.eqb sassert sbind swp snd]. rewrite <- Hid. by apply (excl_node bpl o nd HN ofst n H0 H1 H8 p Hin).
Qed.

Lemma unixShmUnmap_swp bpl o nd id : node_ok bpl o nd -> id ∈ map sh_id (sn_pFirst nd) -> swp (fun o => node_ok bpl o nd) (fun r o => node_opt bpl r.2 o) o (unixShmUnmap nd id).
Proof.
  intros HN Hin. destruct (shm_find_in _ _ Hin) as [p Hp]. destruct (shm_remove_ids _ _ Hin (no_ids _ _ _ HN)) as [Hl Hnd]. pose proof (no_ref _ _ _ HN) as Href. unfold unixShmUnmap. rewrite Hp. cbn [slift sbind]. rewrite (proj2 (Z.ltb_lt 0 _)) by lia. cbn [sassert sbind]. destruct (Z.eqb_spec (sn_nRef nd - 1) 0) as [H0|H0].
  - unfold unixShmPurge. by destruct (0 <=? sn_h nd).
  - cbn [swp snd node_opt]. destruct HN as [N1 N2 N3 N4 N5 N6 N7 N8]. pose proof (shm_remove_in (sn_pFirst nd) id) as Hr. split; cbn [sn_h sn_nRef sn_pFirst]; eauto; [lia|intros He; rewrite He in Hl; cbn in Hl; lia].
Qed.

Lemma node_new bpl o h id : 0 <= h /\ bpl = 0 \/ h < 0 /\ bpl = 1 -> (0 <= h -> o UNIX_SHM_DMS = Some RD) -> node_ok bpl o (shm_link (mkNode h 0 []) id).
Proof.
  intros Hm Hd. split; cbn [shm_link sn_h sn_nRef sn_pFirst map]; try done; [apply NoDup_singleton|..].
  - intros x y b ->%list_elem_of_singleton _ Hb. by rewrite Z.bits_0.
  - intros x b _ ->%list_elem_of_singleton Hb. by rewrite Z.bits_0.
  - intros x b _ ->%list_elem_of_singleton Hb. by rewrite Z.bits_0.
Qed.

Lemma node_link bpl o nd id : node_ok bpl o nd -> id ∉ map sh_id (sn_pFirst nd) -> node_ok bpl o (shm_link nd id).
Proof.
  intros [N1 N2 N3 N4 N5 N6 N7 N8] Hid. split; cbn [shm_link sn_h sn_nRef sn_pFirst map length]; try done.
  - by apply NoDup_cons.
  - lia.
  - intros x y b [->|Hx]%elem_of_cons [->|Hy]%elem_of_cons Hb; cbn [sh_exclMask sh_sharedMask]; rewrite ?Z.bits_0; try done. by apply N5.
  - intros x b Hh [->|Hx]%elem_of_cons Hb; cbn [sh_exclMask]; [by rewrite Z.bits_0|by apply N6].
  - intros x b Hh [->|Hx]%elem_of_cons Hb; cbn [sh_sharedMask]; [by rewrite Z.bits_0|by apply N7].
Qed.

Lemma open_swp bpl o node env id : node_opt bpl node o -> bpl = 0 \/ bpl = 1 -> shm_call_ok node (ShmOpen env id) -> swp (node_opt bpl node) (fun r o => node_opt bpl r.2 o) o (unixOpenSharedMemory bpl node env id).
Proof.
  intros HN Hb Hok. unfold unixOpenSharedMemory. destruct (se_shm env); cbn [negb]; [|done]. destruct node as [nd|]; [by apply node_link|]. destruct (negb (se_fstat env) && (bpl =? 0)); [done|]. destruct (se_node env); cbn [negb]; [|done]. destruct (se_mutex env); cbn [negb]; [|done]. destruct (Z.eqb_spec bpl 0) as [->|Hbpl].
  2: { cbn [swp snd]. apply node_new; [right; lia|done]. }
  destruct (Z.ltb_spec (se_fd env) 0) as [Hh|Hh]; [unfold unixShmPurge; by rewrite (proj2 (Z.leb_gt 0 _))|]. apply swp_bind.
  assert (forall o rc0, swp (node_opt 0 None) (fun r o => node_opt 0 r.2 o) o (do* rc := (if rc0 =? SQLITE_OK then unixShmSystemLock (se_fd env) F_RDLCK UNIX_SHM_DMS 1 else SRet rc0) in if negb (rc =? SQLITE_OK) then do* _ := unixShmPurge (se_fd env) in SRet (rc, None) else SRet (SQLITE_OK, Some (shm_link (mkNode (se_fd env) 0 []) id)))) as Hrest.
  { intros o1 rc0. apply swp_bind. unfold unixShmPurge. rewrite (proj2 (Z.leb_le 0 _)) by done. destruct (Z.eqb_spec rc0 SQLITE_OK) as [->|Hne].
    - apply system_lock_swp; [done|by left|lia|done|]. change (SQLITE_OK =? SQLITE_OK) with true. cbn [negb swp snd node_opt]. rewrite (proj2 (Z.leb_le 0 _)) by done. apply node_new; [by left|]. intros _. unfold set_own. done.
    - cbn [swp]. rewrite (proj2 (Z.eqb_neq rc0 _)) by done. cbn. done. }
  assert (forall o1 dms, (dms = SQLITE_OK -> o1 UNIX_SHM_DMS = Some WR) -> swp (node_opt 0 None) (fun r o => node_opt 0 r.2 o) o1 (do* rc := (if dms =? SQLITE_OK then STrunc (fun e => SRet (if e =? 0 then SQLITE_OK else SQLITE_IOERR_SHMOPEN)) else SRet SQLITE_OK) in do* rc := (if rc =? SQLITE_OK then unixShmSystemLock (se_fd env) F_RDLCK UNIX_SHM_DMS 1 else SRet rc) in if negb (rc =? SQLITE_OK) then do* _ := unixShmPurge (se_fd env) in SRet (rc, None) else SRet (SQLITE_OK, Some (shm_link (mkNode (se_fd env) 0 []) id)))) as Hmid.
  { intros o1 dms Hd. apply swp_bind. destruct (Z.eqb_spec dms SQLITE_OK) as [->|Hne]; cbn [swp].
    - split; [done|]. split; [by apply Hd|]. intros e. apply Hrest.
    - apply Hrest. }
  apply system_lock_swp; [done|by right|lia|by apply Hmid|]. apply Hmid. intros _. rewrite (proj2 (Z.leb_le 0 _)) by done. unfold set_own. done.
Qed.

(** ** Processes *)

(** A process: its node and the call under way *)
Record sproc := mkSproc { sp_node : option unixShmNode; sp_run : option (sprog (Z * option unixShmNode)) }.

Definition sgetp (ps : gmap Z sproc) (p : Z) : sproc := default (mkSproc None None) (ps !! p).

(** A call that has made its last system call returns. *)
Definition sresume (node : option unixShmNode) (pg : sprog (Z * option unixShmNode)) : sproc :=
  match pg with SRet (_, node) => mkSproc node None | pg => mkSproc node (Some pg) end.

Section System.
Context {K : Type} `{PosixLocks K} (bpl : Z -> Z) (Hbpl : forall p, bpl p = 0 \/ bpl p = 1).

Inductive shm_step : K * gmap Z sproc -> K * gmap Z sproc -> Prop :=
| shm_start k ps p c : sp_run (sgetp ps p) = None -> shm_call_ok (sp_node (sgetp ps p)) c ->
    shm_step (k, ps) (k, <[p := sresume (sp_node (sgetp ps p)) (shm_prog (bpl p) (sp_node (sgetp ps p)) c)]> ps)
| shm_setlk k ps p node l g e k' : sgetp ps p = mkSproc node (Some (SSetLk l g)) -> setlk k p l = (e, k') -> shm_step (k, ps) (k', <[p := sresume node (g e)]> ps)
| shm_trunc k ps p node g e : sgetp ps p = mkSproc node (Some (STrunc g)) -> shm_step (k, ps) (k, <[p := sresume node (g e)]> ps)
| shm_close k ps p node g fd : sgetp ps p = mkSproc node (Some (SClose g)) -> shm_step (k, ps) (closefd k p fd, <[p := sresume node g]> ps).

Inductive shm_reachable : K * gmap Z sproc -> Prop :=
| shm_reach_start k : (forall p b, held k p b = None) -> shm_reachable (k, ∅)
| shm_reach_step s s' : shm_reachable s -> shm_step s s' -> shm_reachable s'.

(** *** The invariant *)

Definition sproc_ok (p : Z) (o : own) (pr : sproc) : Prop :=
  match sp_run pr with
  | None => node_opt (bpl p) (sp_node pr) o
  | Some pg => (forall a, pg <> SRet a) /\ swp (node_opt (bpl p) (sp_node pr)) (fun r o => node_opt (bpl p) r.2 o) o pg
  end.

Definition shm_inv (s : K * gmap Z sproc) : Prop :=
  (forall p q b, p <> q -> held s.1 p b = Some WR -> held s.1 q b = None) /\ forall p, sproc_ok p (held s.1 p) (sgetp s.2 p).

Lemma sproc_ok_proper p pr : Proper (own_eq ==> impl) (fun o => sproc_ok p o pr).
Proof using. intros o o' Ho. unfold sproc_ok. destruct (sp_run pr) as [pg|]; [|by apply node_opt_proper]. intros [Hr Hw]. split; [done|]. revert Hw. apply swp_proper; [apply node_opt_proper|intros a; apply node_opt_proper|done]. Qed.

Lemma sresume_ok p o node pg : swp (node_opt (bpl p) node) (fun r o => node_opt (bpl p) r.2 o) o pg -> sproc_ok p o (sresume node pg).
Proof using. destruct pg as [[rc nd]| |l g|g|g]; done. Qed.

Lemma sgetp_insert ps p q pr : sgetp (<[p := pr]> ps) q = if decide (p = q) then pr else sgetp ps q.
Proof using. unfold sgetp. case_decide as Hpq; [by rewrite Hpq, lookup_insert_eq|by rewrite lookup_insert_ne]. Qed.

(** The processes after a step of [p] that leaves the locks of the others alone *)
Lemma inv_step_procs k k' ps p pr : (forall q, sproc_ok q (held k q) (sgetp ps q)) -> (forall q b, q <> p -> held k' q b = held k q b) -> sproc_ok p (held k' p) pr -> forall q, sproc_ok q (held k' q) (sgetp (<[p := pr]> ps) q).
Proof using.
  intros Hps Hk Hpr q. rewrite sgetp_insert. case_decide as Hpq; [by subst q|]. eapply (sproc_ok_proper q _ (held k q)); [|apply Hps]. intros b. symmetry. apply Hk. done.
Qed.

Lemma shm_start_ok p o node c : node_opt (bpl p) node o -> shm_call_ok node c -> swp (node_opt (bpl p) node) (fun r o => node_opt (bpl p) r.2 o) o (shm_prog (bpl p) node c).
Proof using Hbpl.
  intros HN Hok. destruct c as [env id|id ofst n flags|id]; cbn [shm_prog].
  - by apply open_swp.
  - destruct node as [nd|]; [|destruct Hok as (q & Hq & _); done]. cbn [slift sbind]. apply swp_bind. pose proof (unixShmLock_swp (bpl p) o nd id ofst n flags HN Hok) as Hw. eapply swp_mono; [|exact Hw]. intros [rc nd'] o'. done.
  - destruct node as [nd|]; [|by apply not_elem_of_nil in Hok]. cbn [slift sbind]. by apply unixShmUnmap_swp.
Qed.

(** Between the calls and during them, the node is in order. *)
Lemma sproc_node p o pr : sproc_ok p o pr -> node_opt (bpl p) (sp_node pr) o /\ sp_run pr <> Some SStuck.
Proof using.
  unfold sproc_ok. destruct (sp_run pr) as [[a| |l g|g|g]|] eqn:Hr; [by intros [Hx _]; destruct (Hx a)|by intros [_ ?]|intros [_ [? _]]; done|intros [_ [? _]]; done|intros [_ [? _]]; done|done].
Qed.

Lemma held_setlk k p l k' : setlk k p l = (0, k') -> (forall p q b, p <> q -> held k p b = Some WR -> held k q b = None) -> forall q r b, q <> r -> held k' q b = Some WR -> held k' r b = None.
Proof using.
  intros Hs Hk q r b Hqr. destruct (setlk_ok _ _ _ _ Hs) as [Hc Hh]. rewrite !Hh. destruct (Z.eqb_spec q p) as [->|Hq], (Z.eqb_spec r p) as [->|Hr], (covers l b) eqn:Hcv; cbn [andb]; try done; eauto.
  - intros Hw. specialize (Hc r b Hr Hcv). destruct (l_type l); cbn in *; try done. by destruct (held k r b).
  - intros Hw. specialize (Hc q b Hq Hcv). rewrite Hw in Hc. by destruct (l_type l).
Qed.

Lemma shm_inv_step s s' : shm_inv s -> shm_step s s' -> shm_inv s'.
Proof using Hbpl.
  intros [Hk Hps] Hst. destruct Hst as [k ps p c Hrun Hok|k ps p node l g e k' Hg Hs|k ps p node g e Hg|k ps p node g fd Hg]; cbn [fst snd] in *.
  - split; [done|]. apply (inv_step_procs k); [done|done|]. apply sresume_ok. apply shm_start_ok; [|done]. specialize (Hps p). unfold sproc_ok in Hps. by rewrite Hrun in Hps.
  - pose proof (Hps p) as Hp. rewrite Hg in Hp. destruct Hp as [_ (HI & Herr & Hok)]. destruct (decide (e = 0)) as [->|He].
    + split; [by eapply held_setlk|]. destruct (setlk_ok _ _ _ _ Hs) as [_ Hh]. apply (inv_step_procs k); [done|intros q b Hq; rewrite Hh; by rewrite (proj2 (Z.eqb_neq q p))|]. apply sresume_ok. eapply swp_proper; [apply node_opt_proper|intros a; apply node_opt_proper| |exact Hok]. intros b. rewrite Hh, Z.eqb_refl. done.
    + pose proof (setlk_fail _ _ _ _ _ Hs He) as Hh. split; [intros q r b; rewrite !Hh; apply Hk|]. apply (inv_step_procs k); [done|done|]. apply sresume_ok. eapply swp_proper; [apply node_opt_proper|intros a; apply node_opt_proper| |exact (Herr e He)]. intros b. by rewrite Hh.
  - pose proof (Hps p) as Hp. rewrite Hg in Hp. destruct Hp as [_ (HI & Hd & Hr)]. split; [done|]. apply (inv_step_procs k); [done|done|]. apply sresume_ok, Hr.
  - pose proof (Hps p) as Hp. rewrite Hg in Hp. destruct Hp as [_ (HI & Hr)]. split.
    + intros q r b Hqr. cbn [fst]. rewrite !closefd_held. destruct (q =? p); [done|]. destruct (r =? p); [done|]. by apply Hk.
    + cbn [fst snd]. apply (inv_step_procs k); [done|intros q b Hq; by rewrite closefd_held, (proj2 (Z.eqb_neq q p))|]. apply sresume_ok. eapply swp_proper; [apply node_opt_proper|intros a; apply node_opt_proper| |exact Hr]. intros b. by rewrite closefd_held, Z.eqb_refl.
Qed.

Lemma shm_inv_reachable s : shm_reachable s -> shm_inv s.
Proof using Hbpl. induction 1 as [k Hk|s s' _ IH Hst]; [|by eapply shm_inv_step]. split; [intros p q b _; cbn; by rewrite Hk|]. intros p. unfold sgetp. cbn [snd]. by rewrite lookup_empty. Qed.

Lemma shm_node s p nd : shm_reachable s -> sp_node (sgetp s.2 p) = Some nd -> node_ok (bpl p) (held s.1 p) nd.
Proof using Hbpl. intros Hs Hn. destruct (shm_inv_reachable s Hs) as [_ Hps]. destruct (sproc_node _ _ _ (Hps p)) as [HN _]. by rewrite Hn in HN. Qed.

(** ** The theorems *)

(** A connection of process [p] *)
Definition shm_conn (s : K * gmap Z sproc) (p : Z) (nd : unixShmNode) (x : unixShm) : Prop := sp_node (sgetp s.2 p) = Some nd /\ x ∈ sn_pFirst nd.

(** Two connections that lock the same memory: of one process, or both on the file *)
Definition shm_apart (p q : Z) (nd nd' : unixShmNode) (x y : unixShm) : Prop := if decide (p = q) then sh_id x <> sh_id y else 0 <= sn_h nd /\ 0 <= sn_h nd'.

Lemma shm_exclusion s p q nd nd' x y b : shm_reachable s -> shm_conn s p nd x -> shm_conn s q nd' y -> shm_apart p q nd nd' x y -> 0 <= b -> bit (sh_exclMask x) b = true -> bit (sh_exclMask y) b = false /\ bit (sh_sharedMask y) b = false.
Proof using Hbpl.
  intros Hs [Hx1 Hx2] [Hy1 Hy2] Ha Hb Hxe. pose proof (shm_node s p nd Hs Hx1) as HN. pose proof (shm_node s q nd' Hs Hy1) as HN'. destruct (shm_inv_reachable s Hs) as [Hk _]. unfold shm_apart in Ha. case_decide as Hpq.
  - subst q. rewrite Hx1 in Hy1. injection Hy1 as <-. destruct (no_apart _ _ _ HN x y b Hx2 Hy2 Hb Hxe) as [-> Hxy]. split; [|done]. destruct (bit (sh_exclMask y) b); [|done]. destruct Ha. by rewrite Hxy.
  - destruct Ha as [Hh Hh']. pose proof (no_excl _ _ _ HN x b Hh Hx2 Hb Hxe) as Hw. pose proof (Hk p q _ Hpq Hw) as Hn. split.
    + destruct (bit (sh_exclMask y) b) eqn:He; [|done]. by rewrite (no_excl _ _ _ HN' y b Hh' Hy2 Hb He) in Hn.
    + destruct (bit (sh_sharedMask y) b) eqn:He; [|done]. by rewrite (no_shared _ _ _ HN' y b Hh' Hy2 Hb He) in Hn.
Qed.

(** The next system call of process [p], and the start of a call *)
Definition shm_advance (p : Z) (s : K * gmap Z sproc) : K * gmap Z sproc :=
  let '(k, ps) := s in
  let node := sp_node (sgetp ps p) in
  match sp_run (sgetp ps p) with
  | Some (SSetLk l g) => let '(e, k) := setlk k p l in (k, <[p := sresume node (g e)]> ps)
  | Some (STrunc g) => (k, <[p := sresume node (g 0)]> ps)
  | Some (SClose g) => (closefd k p 0, <[p := sresume node g]> ps)
  | _ => s
  end.

Definition shm_begin (p : Z) (c : shm_call) (s : K * gmap Z sproc) : K * gmap Z sproc := (s.1, <[p := sresume (sp_node (sgetp s.2 p)) (shm_prog (bpl p) (sp_node (sgetp s.2 p)) c)]> s.2).

Lemma shm_advance_reachable p s : shm_reachable s -> shm_reachable (shm_advance p s).
Proof using.
  intros Hs. destruct s as [k ps]. unfold shm_advance. destruct (sgetp ps p) as [node run] eqn:Hg. cbn [sp_run sp_node]. destruct run as [[a| |l g|g|g]|]; try done.
  - destruct (setlk k p l) as [e k'] eqn:Hl. eapply shm_reach_step; [exact Hs|]. by eapply shm_setlk.
  - eapply shm_reach_step; [exact Hs|]. by eapply shm_trunc.
  - eapply shm_reach_step; [exact Hs|]. by eapply shm_close.
Qed.

Lemma shm_begin_reachable p c s : shm_reachable s -> sp_run (sgetp s.2 p) = None -> shm_call_ok (sp_node (sgetp s.2 p)) c -> shm_reachable (shm_begin p c s).
Proof using. destruct s as [k ps]. intros Hs Hr Hok. eapply shm_reach_step; [exact Hs|]. by apply shm_start. Qed.
End System.

(** C10. The locks of the wal-index exclude each other: whatever calls connections of any number of
    processes make, and however their system calls interleave, a connection that holds a slot in
    exclusive mode has it alone, and no assert of the calls fails.  Connections of different processes
    are those on the shared-memory file, not in unix-excl mode. *)
Theorem shm_lock_exclusion (K : Type) (P : PosixLocks K) (bpl : Z -> Z) (s : K * gmap Z sproc) : (forall p, bpl p = 0 \/ bpl p = 1) -> shm_reachable bpl s ->
  (forall p, sp_run (sgetp s.2 p) <> Some SStuck) /\
  forall p q nd nd' x y b, shm_conn s p nd x -> shm_conn s q nd' y -> shm_apart p q nd nd' x y -> 0 <= b -> Z.testbit (sh_exclMask x) b = true -> Z.testbit (sh_exclMask y) b = false /\ Z.testbit (sh_sharedMask y) b = false.
Proof.
  intros Hb Hs. split.
  - intros p. destruct (shm_inv_reachable bpl Hb s Hs) as [_ Hps]. by apply (sproc_node bpl p (held s.1 p)).
  - intros p q nd nd' x y b. by apply (shm_exclusion bpl Hb s).
Qed.

(** The dead-man switch: when a process is about to truncate the shared-memory file, no other process
    has a connection on it, so no wal-index in use is lost. *)
Theorem shm_truncate_alone (K : Type) (P : PosixLocks K) (bpl : Z -> Z) (s : K * gmap Z sproc) p node g : (forall p, bpl p = 0 \/ bpl p = 1) -> shm_reachable bpl s ->
  sgetp s.2 p = mkSproc node (Some (STrunc g)) -> forall q nd, q <> p -> sp_node (sgetp s.2 q) = Some nd -> sn_h nd < 0.
Proof.
  intros Hb Hs Hp q nd Hq Hn. destruct (shm_inv_reachable bpl Hb s Hs) as [Hk Hps]. specialize (Hps p). rewrite Hp in Hps. destruct Hps as [_ (_ & Hd & _)]. destruct (decide (0 <= sn_h nd)) as [Hh|]; [|lia]. pose proof (no_dms _ _ _ (shm_node bpl Hb s q nd Hs Hn) Hh) as Hr. by rewrite (Hk p q _ (not_eq_sym Hq) Hd) in Hr.
Qed.

(** ** Witnesses *)

(** Process 2 is in unix-excl mode; process 1 holds slot 3, process 3 shares slot 4. *)
Definition ex_bpl (p : Z) : Z := if p =? 2 then 1 else 0.
Definition ex_env : ShmEnv := mkShmEnv true true true true 5.
Abbreviation ex_state := (LockTable.table * gmap Z sproc)%type.
Definition ex_shm0 : ex_state := shm_begin ex_bpl 2 (ShmOpen ex_env 20) (∅, ∅).
Definition ex_shm1 : ex_state := shm_advance 1 (shm_begin ex_bpl 1 (ShmOpen ex_env 10) ex_shm0).
Definition ex_shm2 : ex_state := shm_advance 1 (shm_begin ex_bpl 1 (ShmLock 10 3 1 10) (shm_advance 1 (shm_advance 1 ex_shm1))).
Definition ex_shm3 : ex_state := shm_advance 3 (shm_advance 3 (shm_begin ex_bpl 3 (ShmOpen ex_env 30) ex_shm2)).
Definition ex_shm4 : ex_state := shm_advance 3 (shm_begin ex_bpl 3 (ShmLock 30 4 1 6) ex_shm3).

Lemma ex_bpl_ok p : ex_bpl p = 0 \/ ex_bpl p = 1.
Proof. unfold ex_bpl. destruct (p =? 2); auto. Qed.

Lemma ex_lock_ok nd id ofst flags p : shm_find (sn_pFirst nd) id = Some p -> 0 <= ofst < 8 -> flags = 6 \/ flags = 10 -> shm_call_ok (Some nd) (ShmLock id ofst 1 flags).
Proof. intros Hp Ho Hf. exists p. split; [done|]. unfold SQLITE_SHM_NLOCK. split; [lia|]. split; [lia|]. split; [lia|]. destruct Hf as [->| ->]; (split; [done|]); (split; [by left|]); discriminate. Qed.

Lemma ex_shm1_reachable : shm_reachable ex_bpl ex_shm1.
Proof. apply shm_advance_reachable, shm_begin_reachable; [apply shm_begin_reachable; [by apply shm_reach_start|done|by apply not_elem_of_nil]|by vm_compute|vm_compute; by apply not_elem_of_nil]. Qed.

Lemma ex_shm4_reachable : shm_reachable ex_bpl ex_shm4.
Proof.
  assert (shm_reachable ex_bpl (shm_advance 1 (shm_advance 1 ex_shm1))) as H1 by (by apply shm_advance_reachable, shm_advance_reachable, ex_shm1_reachable). assert (shm_reachable ex_bpl ex_shm2) as H2.
  { apply shm_advance_reachable, shm_begin_reachable; [done|by vm_compute|]. eapply (ex_lock_ok (mkNode 5 1 [mkShm 10 0 0]) 10 3 10 (mkShm 10 0 0)); [done|lia|by right]. }
  assert (shm_reachable ex_bpl ex_shm3) as H3 by (apply shm_advance_reachable, shm_advance_reachable, shm_begin_reachable; [done|by vm_compute|vm_compute; by apply not_elem_of_nil]).
  apply shm_advance_reachable, shm_begin_reachable; [done|by vm_compute|]. eapply (ex_lock_ok (mkNode 5 1 [mkShm 30 0 0]) 30 4 6 (mkShm 30 0 0)); [done|lia|by left].
Qed.

Lemma ex_conns : shm_conn ex_shm4 1 (mkNode 5 1 [mkShm 10 0 8]) (mkShm 10 0 8) /\ shm_conn ex_shm4 3 (mkNode 5 1 [mkShm 30 16 0]) (mkShm 30 16 0).
Proof. split; (split; [vm_compute; done|by apply elem_of_cons; left]). Qed.

Lemma ex_apart : shm_apart 1 3 (mkNode 5 1 [mkShm 10 0 8]) (mkNode 5 1 [mkShm 30 16 0]) (mkShm 10 0 8) (mkShm 30 16 0).
Proof. done. Qed.

Lemma shm_lock_exclusion_witness : Z.testbit (sh_exclMask (mkShm 30 16 0)) 3 = false /\ Z.testbit (sh_sharedMask (mkShm 30 16 0)) 3 = false.
Proof. exact (proj2 (shm_lock_exclusion LockTable.table _ ex_bpl ex_shm4 ex_bpl_ok ex_shm4_reachable) 1 3 _ _ _ _ 3 (proj1 ex_conns) (proj2 ex_conns) ex_apart ltac:(lia) eq_refl). Defined.

Lemma shm_truncate_alone_witness : exists node g, sgetp ex_shm1.2 1 = mkSproc node (Some (STrunc g)) /\ forall nd, sp_node (sgetp ex_shm1.2 2) = Some nd -> sn_h nd < 0.
Proof. eexists _, _. split; [vm_compute; reflexivity|]. intros nd Hn. apply (shm_truncate_alone LockTable.table _ ex_bpl ex_shm1 1 None (fun e => sbind (SRet (if e =? 0 then SQLITE_OK else SQLITE_IOERR_SHMOPEN)) (fun rc => sbind (if rc =? SQLITE_OK then unixShmSystemLock 5 F_RDLCK UNIX_SHM_DMS 1 else SRet rc) (fun rc => if negb (rc =? SQLITE_OK) then sbind (unixShmPurge 5) (fun _ => SRet (rc, None)) else SRet (SQLITE_OK, Some (shm_link (mkNode 5 0 []) 10))))) ex_bpl_ok ex_shm1_reachable) with (q := 2); [vm_compute; reflexivity|done|exact Hn]. Defined.
