(* ===== verification/Journal.v ===== *)
(** * Journal: the rollback journal (pager.c)

    Before a page of the database file is overwritten, its old content is appended to the
    journal and the journal is synced; a journal found at the start is played back.

    A file is what was synced and the operations since then.  The results of the operating
    system are inputs, with the bytes that a failed write stored; a short read is reported
    if the file is short, and not otherwise.  The page cache is a map from page numbers to
    pages and the bitmap pInJournal is a set.  There are no savepoints and no backups, the
    journal is a file, and the database is not in memory. *)
From S2P Require Import Prelude Varint Record Page Wal WalLog UnixLock WalCkpt.

Definition SQLITE_NOTFOUND : Z := 12.
Definition SQLITE_IOERR_READ : Z := Z.lor SQLITE_IOERR (Z.shiftl 1 8).
Definition SQLITE_DONE : Z := 101.
Definition SQLITE_IOCAP_SAFE_APPEND : Z := 0x200.
Definition SQLITE_IOCAP_SEQUENTIAL : Z := 0x400.
Definition MAX_SECTOR_SIZE : Z := 0x10000.
Definition aJournalMagic : list Z := [0xd9; 0xd5; 0x05; 0xf9; 0x20; 0xa1; 0x63; 0xd7].

Definition PAGER_OPEN : Z := 0.
Definition PAGER_READER : Z := 1.
Definition PAGER_WRITER_LOCKED : Z := 2.
Definition PAGER_WRITER_CACHEMOD : Z := 3.
Definition PAGER_WRITER_DBMOD : Z := 4.
Definition PAGER_WRITER_FINISHED : Z := 5.
Definition PAGER_ERROR : Z := 6.

Definition PAGER_JOURNALMODE_DELETE : Z := 0.
Definition PAGER_JOURNALMODE_PERSIST : Z := 1.
Definition PAGER_JOURNALMODE_OFF : Z := 2.
Definition PAGER_JOURNALMODE_TRUNCATE : Z := 3.
Definition PAGER_JOURNALMODE_MEMORY : Z := 4.
Definition PAGER_JOURNALMODE_WAL : Z := 5.

(** ** Files *)

(** A file that was deleted is empty; until the directory is synced, a crash may bring it back. *)
Inductive FOp := FWrite (off : Z) (l : list Z) | FTrunc (n : Z) | FUnlink.

Definition f_apply (c : list Z) (o : FOp) : list Z :=
  match o with FWrite off l => file_write c off l | FTrunc n => take (Z.to_nat n) c ++ replicate (Z.to_nat n - length c) 0 | FUnlink => [] end.

(** What was synced, and the operations since then *)
Record DFile := mkDFile { df_base : list Z; df_log : list FOp }.

Definition df_data (f : DFile) : list Z := fold_left f_apply (df_log f) (df_base f).
Definition df_do (f : DFile) (o : FOp) : DFile := mkDFile (df_base f) (df_log f ++ [o]).
Definition df_sync (f : DFile) : DFile := mkDFile (df_data f) [].

(** ** The pager *)

(** [pc_iDc] is the result of sqlite3OsDeviceCharacteristics, [pc_exists] that of
    sqlite3OsAccess for a master journal, [pc_sector] the sector size that setSectorSize
    finds. *)
Record PagerConf := mkPagerConf {
  pc_noSync : bool;
  pc_fullSync : bool;
  pc_iDc : Z;
  pc_mxPgno : Z;
  pc_mxPathname : Z;
  pc_exists : bool;
  pc_sector : Z;
  pc_journalMode : Z;
  pc_exclusiveMode : bool;
  pc_journalSizeLimit : Z }.

Record Pager := mkPager {
  pr_eState : Z;
  pr_errCode : Z;
  pr_changeCountDone : bool;
  pr_dbSize : Z;
  pr_dbOrigSize : Z;
  pr_dbFileSize : Z;
  pr_nRec : Z;
  pr_cksumInit : Z;
  pr_journalOff : Z;
  pr_journalHdr : Z;
  pr_sectorSize : Z;
  pr_pageSize : Z;
  pr_nReserve : Z;
  pr_dbFileVers : list Z;
  pr_pInJournal : gset Z;
  pr_jopen : bool;
  pr_conf : PagerConf }.

Definition pr_state (p : Pager) (st err : Z) (cc : bool) : Pager := mkPager st err cc (pr_dbSize p) (pr_dbOrigSize p) (pr_dbFileSize p) (pr_nRec p) (pr_cksumInit p) (pr_journalOff p) (pr_journalHdr p) (pr_sectorSize p) (pr_pageSize p) (pr_nReserve p) (pr_dbFileVers p) (pr_pInJournal p) (pr_jopen p) (pr_conf p).
Definition pr_db (p : Pager) (size fileSize : Z) (vers : list Z) : Pager := mkPager (pr_eState p) (pr_errCode p) (pr_changeCountDone p) size (pr_dbOrigSize p) fileSize (pr_nRec p) (pr_cksumInit p) (pr_journalOff p) (pr_journalHdr p) (pr_sectorSize p) (pr_pageSize p) (pr_nReserve p) vers (pr_pInJournal p) (pr_jopen p) (pr_conf p).
Definition pr_rec (p : Pager) (n : Z) (s : gset Z) : Pager := mkPager (pr_eState p) (pr_errCode p) (pr_changeCountDone p) (pr_dbSize p) (pr_dbOrigSize p) (pr_dbFileSize p) n (pr_cksumInit p) (pr_journalOff p) (pr_journalHdr p) (pr_sectorSize p) (pr_pageSize p) (pr_nReserve p) (pr_dbFileVers p) s (pr_jopen p) (pr_conf p).
Definition pr_pos (p : Pager) (off hdr : Z) : Pager := mkPager (pr_eState p) (pr_errCode p) (pr_changeCountDone p) (pr_dbSize p) (pr_dbOrigSize p) (pr_dbFileSize p) (pr_nRec p) (pr_cksumInit p) off hdr (pr_sectorSize p) (pr_pageSize p) (pr_nReserve p) (pr_dbFileVers p) (pr_pInJournal p) (pr_jopen p) (pr_conf p).
Definition pr_cksum (p : Pager) (ck : Z) : Pager := mkPager (pr_eState p) (pr_errCode p) (pr_changeCountDone p) (pr_dbSize p) (pr_dbOrigSize p) (pr_dbFileSize p) (pr_nRec p) ck (pr_journalOff p) (pr_journalHdr p) (pr_sectorSize p) (pr_pageSize p) (pr_nReserve p) (pr_dbFileVers p) (pr_pInJournal p) (pr_jopen p) (pr_conf p).
Definition pr_sizes (p : Pager) (sector page nReserve : Z) : Pager := mkPager (pr_eState p) (pr_errCode p) (pr_changeCountDone p) (pr_dbSize p) (pr_dbOrigSize p) (pr_dbFileSize p) (pr_nRec p) (pr_cksumInit p) (pr_journalOff p) (pr_journalHdr p) sector page nReserve (pr_dbFileVers p) (pr_pInJournal p) (pr_jopen p) (pr_conf p).
Definition pr_opened (p : Pager) (b : bool) : Pager := mkPager (pr_eState p) (pr_errCode p) (pr_changeCountDone p) (pr_dbSize p) (pr_dbOrigSize p) (pr_dbFileSize p) (pr_nRec p) (pr_cksumInit p) (pr_journalOff p) (pr_journalHdr p) (pr_sectorSize p) (pr_pageSize p) (pr_nReserve p) (pr_dbFileVers p) (pr_pInJournal p) b (pr_conf p).

(** A page of the cache *)
Record PgHdr := mkPgHdr { ph_data : list Z; ph_dirty : bool; ph_needsync : bool }.

(** The pager with the journal, the database file, the cache and the results still to come *)
Record Jrnl := mkJrnl { j_p : Pager; j_jfd : DFile; j_fd : DFile; j_cache : gmap Z PgHdr; j_io : list (Z * Z) }.

Definition set_p (j : Jrnl) (p : Pager) : Jrnl := mkJrnl p (j_jfd j) (j_fd j) (j_cache j) (j_io j).
Definition set_jfd (j : Jrnl) (f : DFile) : Jrnl := mkJrnl (j_p j) f (j_fd j) (j_cache j) (j_io j).
Definition set_fd (j : Jrnl) (f : DFile) : Jrnl := mkJrnl (j_p j) (j_jfd j) f (j_cache j) (j_io j).
Definition set_cache (j : Jrnl) (c : gmap Z PgHdr) : Jrnl := mkJrnl (j_p j) (j_jfd j) (j_fd j) c (j_io j).

(** A result code and a state, or a failed assertion; [let_ok] goes on after SQLITE_OK. *)
Definition jthen (r : option (Z * Jrnl)) (f : Jrnl -> option (Z * Jrnl)) : option (Z * Jrnl) := '(rc, j) ← r; if rc =? SQLITE_OK then f j else Some (rc, j).
Notation "'let_ok' j := r 'in' k" := (jthen r (fun j => k)) (at level 10, j name, r at level 200, k at level 200).

Definition j_next (j : Jrnl) : Z * Z * Jrnl :=
  match j_io j with
  | [] => (SQLITE_OK, 0, j)
  | (rc, n) :: io => (rc, n, mkJrnl (j_p j) (j_jfd j) (j_fd j) (j_cache j) io)
  end.

Definition j_call (j : Jrnl) : option (Z * Jrnl) := let '(rc, _, j) := j_next j in Some (rc, j).

(** What a write with result [rc] stores: a failed write stores some 4-byte words. *)
Definition j_stored (rc n : Z) (l : list Z) : list Z := if rc =? SQLITE_OK then l else take (4 * Z.to_nat n) l.

(** sqlite3OsWrite, sqlite3OsSync and sqlite3OsTruncate on the journal and on the database
    file *)
Definition j_write (j : Jrnl) (l : list Z) (off : Z) : option (Z * Jrnl) := let '(rc, n, j) := j_next j in Some (rc, set_jfd j (df_do (j_jfd j) (FWrite off (j_stored rc n l)))).
Definition j_write_db (j : Jrnl) (l : list Z) (off : Z) : option (Z * Jrnl) := let '(rc, n, j) := j_next j in Some (rc, set_fd j (df_do (j_fd j) (FWrite off (j_stored rc n l)))).
Definition j_trunc (j : Jrnl) (n : Z) : option (Z * Jrnl) := let '(rc, _, j) := j_next j in Some (rc, if rc =? SQLITE_OK then set_jfd j (df_do (j_jfd j) (FTrunc n)) else j).
Definition j_sync (j : Jrnl) : option (Z * Jrnl) := let '(rc, _, j) := j_next j in Some (rc, if rc =? SQLITE_OK then set_jfd j (df_sync (j_jfd j)) else j).
Definition j_sync_db (j : Jrnl) : option (Z * Jrnl) := let '(rc, _, j) := j_next j in Some (rc, if rc =? SQLITE_OK then set_fd j (df_sync (j_fd j)) else j).
Definition j_trunc_db (j : Jrnl) (n : Z) : option (Z * Jrnl) := let '(rc, _, j) := j_next j in Some (rc, if rc =? SQLITE_OK then set_fd j (df_do (j_fd j) (FTrunc n)) else j).

(** sqlite3OsRead: the bytes of the file, zeros past its end *)
Definition f_read (c : list Z) (n off : Z) : list Z := (fun k => db_byte c (off + k)) <$> seqZ 0 n.
Definition j_os_read (j : Jrnl) (c : list Z) (n off : Z) : Z * list Z * Jrnl :=
  let '(rc, _, j) := j_next j in
  if off <? 0 then (SQLITE_IOERR_READ, [], j)
  else if (rc =? SQLITE_OK) || (rc =? SQLITE_IOERR_SHORT_READ) then (if off + n <=? Z.of_nat (length c) then SQLITE_OK else SQLITE_IOERR_SHORT_READ, f_read c n off, j)
  else (rc, [], j).
Definition j_read (j : Jrnl) (n off : Z) : Z * list Z * Jrnl := j_os_read j (df_data (j_jfd j)) n off.

(** The second component is *pRes. *)
Definition read32bits (j : Jrnl) (off : Z) : option (Z * Z * Jrnl) :=
  let '(rc, ac, j) := j_read j 4 off in
  if rc =? SQLITE_OK then v ← sqlite3Get4byte ac; Some (rc, v, j) else Some (rc, 0, j).

Definition write32bits (j : Jrnl) (off val : Z) : option (Z * Jrnl) := j_write j (sqlite3Put4byte val) off.

(** ** The format *)

Definition JOURNAL_PG_SZ (p : Pager) : Z := pr_pageSize p + 8.
Definition JOURNAL_HDR_SZ (p : Pager) : Z := pr_sectorSize p.
Definition PAGER_MJ_PGNO (p : Pager) : Z := PENDING_BYTE / pr_pageSize p + 1.

Definition journalHdrOffset (p : Pager) : option Z :=
  let c := pr_journalOff p in
  let offset := if negb (c =? 0) then ((c - 1) / JOURNAL_HDR_SZ p + 1) * JOURNAL_HDR_SZ p else 0 in
  _ ← assert_ (offset mod JOURNAL_HDR_SZ p =? 0);
  _ ← assert_ (c <=? offset);
  _ ← assert_ (offset - c <? JOURNAL_HDR_SZ p);
  Some offset.

(** The loop of pager_cksum; [i] goes down by 200. *)
Fixpoint cksum200 (fuel : nat) (aData : list Z) (i cksum : Z) : option Z :=
  match fuel with
  | O => None
  | S fuel => if 0 <? i then b ← aget aData i; cksum200 fuel aData (i - 200) (u32 (cksum + b)) else Some cksum
  end.

Definition pager_cksum (p : Pager) (aData : list Z) : option Z := cksum200 (S (Z.to_nat (pr_pageSize p))) aData (pr_pageSize p - 200) (pr_cksumInit p).

(** ** Writing *)

(** The loop that writes the header sector, nHeader bytes at a time *)
Fixpoint hdr_loop (fuel : nat) (j : Jrnl) (zHeader : list Z) (nHeader nWrite : Z) : option (Z * Jrnl) :=
  match fuel with
  | O => None
  | S fuel =>
      if nWrite <? JOURNAL_HDR_SZ (j_p j) then
        '(rc, j) ← j_write j zHeader (pr_journalOff (j_p j));
        _ ← assert_ (pr_journalHdr (j_p j) <=? pr_journalOff (j_p j));
        let j := set_p j (pr_pos (j_p j) (pr_journalOff (j_p j) + nHeader) (pr_journalHdr (j_p j))) in
        if rc =? SQLITE_OK then hdr_loop fuel j zHeader nHeader (nWrite + nHeader) else Some (rc, j)
      else Some (SQLITE_OK, j)
  end.

(** The first 28 bytes of a header *)
Definition hdr_fields (p : Pager) : list Z :=
  (if pc_noSync (pr_conf p) || flag (pc_iDc (pr_conf p)) SQLITE_IOCAP_SAFE_APPEND then aJournalMagic ++ sqlite3Put4byte 0xffffffff else replicate 12 0)
    ++ sqlite3Put4byte (pr_cksumInit p) ++ sqlite3Put4byte (pr_dbOrigSize p) ++ sqlite3Put4byte (pr_sectorSize p) ++ sqlite3Put4byte (pr_pageSize p).

(** The result of sqlite3_randomness is one still to come. *)
Definition writeJournalHdr (j : Jrnl) : option (Z * Jrnl) :=
  let nHeader := if JOURNAL_HDR_SZ (j_p j) <? pr_pageSize (j_p j) then JOURNAL_HDR_SZ (j_p j) else pr_pageSize (j_p j) in
  off ← journalHdrOffset (j_p j);
  let j := set_p j (pr_pos (j_p j) off off) in
  let '(_, rnd, j) := j_next j in
  let j := set_p j (pr_cksum (j_p j) (u32 rnd)) in
  _ ← assert_ (28 <=? nHeader);
  hdr_loop (S (Z.to_nat (JOURNAL_HDR_SZ (j_p j)))) j (hdr_fields (j_p j) ++ replicate (Z.to_nat (nHeader - 28)) 0) nHeader 0.

(** A stale header that follows is wiped out. *)
Definition sync_next (j : Jrnl) : option (Z * Jrnl) :=
  iNextHdrOffset ← journalHdrOffset (j_p j);
  let '(rc, aMagic, j) := j_read j 8 iNextHdrOffset in
  '(rc, j) ← (if (rc =? SQLITE_OK) && bool_decide (aMagic = aJournalMagic) then j_write j [0] iNextHdrOffset else Some (rc, j));
  Some (if rc =? SQLITE_IOERR_SHORT_READ then SQLITE_OK else rc, j).

(** sqlite3PcacheClearSyncFlags *)
Definition clear_sync (c : gmap Z PgHdr) : gmap Z PgHdr := (fun g => mkPgHdr (ph_data g) (ph_dirty g) (ph_needsync g && negb (ph_dirty g))) <$> c.

(** The first call takes the EXCLUSIVE lock. *)
Definition syncJournal (j : Jrnl) (newHdr : bool) : option (Z * Jrnl) :=
  let_ok j := j_call j in
  let_ok j :=
    (if pc_noSync (pr_conf (j_p j)) then Some (SQLITE_OK, j)
     else if negb (pr_jopen (j_p j)) then Some (SQLITE_OK, set_p j (pr_pos (j_p j) (pr_journalOff (j_p j)) (pr_journalOff (j_p j))))
     else
       let safe := flag (pc_iDc (pr_conf (j_p j))) SQLITE_IOCAP_SAFE_APPEND in
       let seq := flag (pc_iDc (pr_conf (j_p j))) SQLITE_IOCAP_SEQUENTIAL in
       let_ok j :=
         (if negb safe then
            let_ok j := sync_next j in
            let_ok j := (if pc_fullSync (pr_conf (j_p j)) && negb seq then j_sync j else Some (SQLITE_OK, j)) in
            j_write j (aJournalMagic ++ sqlite3Put4byte (pr_nRec (j_p j))) (pr_journalHdr (j_p j))
          else Some (SQLITE_OK, j)) in
       let_ok j := (if negb seq then j_sync j else Some (SQLITE_OK, j)) in
       let j := set_p j (pr_pos (j_p j) (pr_journalOff (j_p j)) (pr_journalOff (j_p j))) in
       if newHdr && negb safe then writeJournalHdr (set_p j (pr_rec (j_p j) 0 (pr_pInJournal (j_p j)))) else Some (SQLITE_OK, j)) in
  let p := j_p j in
  Some (SQLITE_OK, set_cache (set_p j (pr_state p PAGER_WRITER_DBMOD (pr_errCode p) (pr_changeCountDone p))) (clear_sync (j_cache j))).

(** ** Reading *)

Definition is_pow2 (n : Z) : bool := Z.land (n - 1) n =? 0.

(** sqlite3PagerSetPagesize when the cache has no page in use, with nReserve -1.  In state
    OPEN the size of the file is not read. *)
Definition sqlite3PagerSetPagesize (j : Jrnl) (pageSize : Z) : option (Z * Jrnl) :=
  _ ← assert_ ((pageSize =? 0) || (512 <=? pageSize) && (pageSize <=? SQLITE_MAX_PAGE_SIZE));
  if negb (pageSize =? 0) && negb (pageSize =? pr_pageSize (j_p j)) then
    let_ok j := (if PAGER_OPEN <? pr_eState (j_p j) then j_call j else Some (SQLITE_OK, j)) in
    let nByte := if PAGER_OPEN <? pr_eState (j_p j) then Z.of_nat (length (df_data (j_fd j))) else 0 in
    let_ok j := j_call j in
    let p := j_p j in
    Some (SQLITE_OK, set_cache (set_p j (pr_sizes (pr_db p ((nByte + pageSize - 1) / pageSize) (pr_dbFileSize p) (pr_dbFileVers p)) (pr_sectorSize p) pageSize (pr_nReserve p))) ∅)
  else Some (SQLITE_OK, j).

(** The sizes in the first header: SQLITE_DONE if they are not valid *)
Definition read_sizes (j : Jrnl) (iHdrOff : Z) : option (Z * Jrnl) :=
  '(rc, iSectorSize, j) ← read32bits j (iHdrOff + 20);
  if negb (rc =? SQLITE_OK) then Some (rc, j)
  else
    '(rc, iPageSize, j) ← read32bits j (iHdrOff + 24);
    if negb (rc =? SQLITE_OK) then Some (rc, j)
    else
      let iPageSize := if iPageSize =? 0 then pr_pageSize (j_p j) else iPageSize in
      if (iPageSize <? 512) || (iSectorSize <? 32) || (SQLITE_MAX_PAGE_SIZE <? iPageSize) || (MAX_SECTOR_SIZE <? iSectorSize) || negb (is_pow2 iPageSize) || negb (is_pow2 iSectorSize) then Some (SQLITE_DONE, j)
      else
        '(rc, j) ← sqlite3PagerSetPagesize j iPageSize;
        Some (rc, set_p j (pr_sizes (j_p j) iSectorSize (pr_pageSize (j_p j)) (pr_nReserve (j_p j)))).

(** The last components are *pNRec and *pDbSize. *)
Definition readJournalHdr (j : Jrnl) (isHot : bool) (journalSize : Z) : option (Z * Jrnl * Z * Z) :=
  iHdrOff ← journalHdrOffset (j_p j);
  let j := set_p j (pr_pos (j_p j) iHdrOff (pr_journalHdr (j_p j))) in
  if journalSize <? iHdrOff + JOURNAL_HDR_SZ (j_p j) then Some (SQLITE_DONE, j, 0, 0)
  else
    let '(rc, j) :=
      (if isHot || negb (iHdrOff =? pr_journalHdr (j_p j)) then
         let '(rc, aMagic, j) := j_read j 8 iHdrOff in
         (if negb (rc =? SQLITE_OK) then rc else if bool_decide (aMagic = aJournalMagic) then SQLITE_OK else SQLITE_DONE, j)
       else (SQLITE_OK, j)) in
    if negb (rc =? SQLITE_OK) then Some (rc, j, 0, 0)
    else
      '(rc, nRec, j) ← read32bits j (iHdrOff + 8);
      if negb (rc =? SQLITE_OK) then Some (rc, j, nRec, 0)
      else
        '(rc, ck, j) ← read32bits j (iHdrOff + 12);
        if negb (rc =? SQLITE_OK) then Some (rc, j, nRec, 0)
        else
          let j := set_p j (pr_cksum (j_p j) ck) in
          '(rc, dbSize, j) ← read32bits j (iHdrOff + 16);
          if negb (rc =? SQLITE_OK) then Some (rc, j, nRec, dbSize)
          else
            '(rc, j) ← (if iHdrOff =? 0 then read_sizes j iHdrOff else Some (SQLITE_OK, j));
            if rc =? SQLITE_DONE then Some (rc, j, nRec, dbSize)
            else Some (rc, set_p j (pr_pos (j_p j) (iHdrOff + JOURNAL_HDR_SZ (j_p j)) (pr_journalHdr (j_p j))), nRec, dbSize).

(** The name in the record at the end of the journal, [] if there is none; nMaster is
    mxPathname + 1. *)
Definition readMasterJournal (j : Jrnl) : option (Z * list Z * Jrnl) :=
  '(rc, j) ← j_call j;
  let szJ := Z.of_nat (length (df_data (j_jfd j))) in
  if negb (rc =? SQLITE_OK) || (szJ <? 16) then Some (rc, [], j)
  else
    '(rc, n, j) ← read32bits j (szJ - 16);
    if negb (rc =? SQLITE_OK) || (pc_mxPathname (pr_conf (j_p j)) + 1 <=? n) || (n =? 0) then Some (rc, [], j)
    else
      '(rc, cksum, j) ← read32bits j (szJ - 12);
      if negb (rc =? SQLITE_OK) then Some (rc, [], j)
      else
        let '(rc, aMagic, j) := j_read j 8 (szJ - 8) in
        if negb (rc =? SQLITE_OK) || negb (bool_decide (aMagic = aJournalMagic)) then Some (rc, [], j)
        else
          let '(rc, zMaster, j) := j_read j n (szJ - 16 - n) in
          if negb (rc =? SQLITE_OK) then Some (rc, [], j)
          else Some (SQLITE_OK, if u32 (cksum - foldr Z.add 0 (i8 <$> zMaster)) =? 0 then zMaster else [], j).

(** pager_truncate in a state in which the database file may be changed *)
Definition pager_truncate (j : Jrnl) (nPage : Z) : option (Z * Jrnl) :=
  if (PAGER_WRITER_DBMOD <=? pr_eState (j_p j)) || (pr_eState (j_p j) =? PAGER_OPEN) then
    let szPage := pr_pageSize (j_p j) in
    let_ok j := j_call j in
    let currentSize := Z.of_nat (length (df_data (j_fd j))) in
    let newSize := szPage * nPage in
    if negb (currentSize =? newSize) then
      let_ok j :=
        (if newSize <? currentSize then j_trunc_db j newSize
         else if currentSize + szPage <=? newSize then j_write_db j (replicate (Z.to_nat szPage) 0) (newSize - szPage)
         else Some (SQLITE_OK, j)) in
      Some (SQLITE_OK, set_p j (pr_db (j_p j) (pr_dbSize (j_p j)) nPage (pr_dbFileVers (j_p j))))
    else Some (SQLITE_OK, j)
  else Some (SQLITE_OK, j).

(** sqlite3PcacheMakeClean *)
Definition make_clean (g : PgHdr) : PgHdr := if ph_dirty g then mkPgHdr (ph_data g) false false else g.

(** The content [aData] of page [pgno] is restored: in the file, if the record before
    [off] is synced, and in the cache. *)
Definition restore_page (j : Jrnl) (pgno off : Z) (aData : list Z) : option (Z * Jrnl) :=
  nRes ← aget aData 20;
  let j := if pgno =? 1 then set_p j (pr_sizes (j_p j) (pr_sectorSize (j_p j)) (pr_pageSize (j_p j)) nRes) else j in
  _ ← assert_ (negb (pr_eState (j_p j) =? PAGER_OPEN) || bool_decide (j_cache j !! pgno = None));
  let isSynced := pc_noSync (pr_conf (j_p j)) || (off <=? pr_journalHdr (j_p j)) in
  '(rc, j) ←
    (if ((PAGER_WRITER_DBMOD <=? pr_eState (j_p j)) || (pr_eState (j_p j) =? PAGER_OPEN)) && isSynced then
       '(rc, j) ← j_write_db j aData ((pgno - 1) * pr_pageSize (j_p j));
       let p := j_p j in
       Some (rc, set_p j (pr_db p (pr_dbSize p) (if pr_dbFileSize p <? pgno then pgno else pr_dbFileSize p) (pr_dbFileVers p)))
     else Some (SQLITE_OK, j));
  match j_cache j !! pgno with
  | Some g =>
      vers ← get_bytes aData 24 16;
      let p := j_p j in
      Some (rc, set_cache (set_p j (if pgno =? 1 then pr_db p (pr_dbSize p) (pr_dbFileSize p) vers else p)) (<[pgno := make_clean (mkPgHdr aData (ph_dirty g) (ph_needsync g))]> (j_cache j)))
  | None => Some (rc, j)
  end.

(** pager_playback_one_page on the main journal, not for a savepoint *)
Definition pager_playback_one_page (j : Jrnl) : option (Z * Jrnl) :=
  let off := pr_journalOff (j_p j) in
  '(rc, pgno, j) ← read32bits j off;
  if negb (rc =? SQLITE_OK) then Some (rc, j)
  else
    let '(rc, aData, j) := j_read j (pr_pageSize (j_p j)) (off + 4) in
    if negb (rc =? SQLITE_OK) then Some (rc, j)
    else
      let off := off + pr_pageSize (j_p j) + 8 in
      let j := set_p j (pr_pos (j_p j) off (pr_journalHdr (j_p j))) in
      if (pgno =? 0) || (pgno =? PAGER_MJ_PGNO (j_p j)) then Some (SQLITE_DONE, j)
      else if pr_dbSize (j_p j) <? pgno then Some (SQLITE_OK, j)
      else
        '(rc, cksum, j) ← read32bits j (off - 4);
        if negb (rc =? SQLITE_OK) then Some (rc, j)
        else
          ck ← pager_cksum (j_p j) aData;
          if negb (ck =? cksum) then Some (SQLITE_DONE, j)
          else restore_page j pgno off aData.

(** The records after a header, [n] of them still to be read.  The first component tells if
    the loop over the headers goes on; pager_reset empties the cache before the first
    record of a hot journal. *)
Fixpoint playback_recs (n : nat) (j : Jrnl) (szJ : Z) (needPagerReset : bool) : option (bool * bool * Z * Jrnl) :=
  match n with
  | O => Some (true, needPagerReset, SQLITE_OK, j)
  | S n =>
      let j := if needPagerReset then set_cache j ∅ else j in
      '(rc, j) ← pager_playback_one_page j;
      if rc =? SQLITE_OK then playback_recs n j szJ false
      else if rc =? SQLITE_DONE then Some (true, false, SQLITE_OK, set_p j (pr_pos (j_p j) szJ (pr_journalHdr (j_p j))))
      else if rc =? SQLITE_IOERR_SHORT_READ then Some (false, false, SQLITE_OK, j)
      else Some (false, false, rc, j)
  end.

(** How many records follow a header *)
Definition playback_count (p : Pager) (isHot : bool) (szJ nRec : Z) : option Z :=
  nRec ←
    (if nRec =? 0xffffffff then
       _ ← assert_ (pr_journalOff p =? JOURNAL_HDR_SZ p);
       Some (u32 (Z.quot (szJ - JOURNAL_HDR_SZ p) (JOURNAL_PG_SZ p)))
     else Some nRec);
  Some (if (nRec =? 0) && negb isHot && (pr_journalHdr p + JOURNAL_HDR_SZ p =? pr_journalOff p) then u32 (Z.quot (szJ - pr_journalOff p) (JOURNAL_PG_SZ p)) else nRec).

(** The loop over the headers *)
Fixpoint playback_loop (fuel : nat) (j : Jrnl) (isHot : bool) (szJ : Z) (needPagerReset : bool) : option (Z * Jrnl) :=
  match fuel with
  | O => None
  | S fuel =>
      '(rc, j, nRec, mxPg) ← readJournalHdr j isHot szJ;
      if negb (rc =? SQLITE_OK) then Some (if rc =? SQLITE_DONE then SQLITE_OK else rc, j)
      else
        nRec ← playback_count (j_p j) isHot szJ nRec;
        '(rc, j) ←
          (if pr_journalOff (j_p j) =? JOURNAL_HDR_SZ (j_p j) then
             let_ok j := pager_truncate j mxPg in
             Some (SQLITE_OK, set_p j (pr_db (j_p j) mxPg (pr_dbFileSize (j_p j)) (pr_dbFileVers (j_p j))))
           else Some (SQLITE_OK, j));
        if negb (rc =? SQLITE_OK) then Some (rc, j)
        else
          '(more, needPagerReset, rc, j) ← playback_recs (Z.to_nat nRec) j szJ needPagerReset;
          if more : bool then playback_loop fuel j isHot szJ needPagerReset else Some (rc, j)
  end.

(** sqlite3PagerSync: SQLITE_NOTFOUND from SQLITE_FCNTL_SYNC is no error. *)
Definition sqlite3PagerSync (j : Jrnl) : option (Z * Jrnl) :=
  '(rc, j) ← j_call j;
  if (rc =? SQLITE_OK) || (rc =? SQLITE_NOTFOUND) then if pc_noSync (pr_conf (j_p j)) then Some (SQLITE_OK, j) else j_sync_db j
  else Some (rc, j).

(** pager_playback up to end_playback *)
Definition pager_playback_main (j : Jrnl) (isHot : bool) : option (Z * Jrnl) :=
  let_ok j := j_call j in
  let szJ := Z.of_nat (length (df_data (j_jfd j))) in
  '(rc, zMaster, j) ← readMasterJournal j;
  if negb (rc =? SQLITE_OK) then Some (rc, j)
  else
    let named := negb (match zMaster with [] | 0 :: _ => true | _ => false end) in
    let_ok j := (if named then j_call j else Some (SQLITE_OK, j)) in
    if named && negb (pc_exists (pr_conf (j_p j))) then Some (SQLITE_OK, j)
    else playback_loop (S (length (df_data (j_jfd j)))) (set_p j (pr_pos (j_p j) 0 (pr_journalHdr (j_p j)))) isHot szJ isHot.

(** pagerSyncHotJournal *)
Definition pagerSyncHotJournal (j : Jrnl) : option (Z * Jrnl) :=
  let_ok j := (if pc_noSync (pr_conf (j_p j)) then Some (SQLITE_OK, j) else j_sync j) in
  let_ok j := j_call j in
  Some (SQLITE_OK, set_p j (pr_pos (j_p j) (pr_journalOff (j_p j)) (Z.of_nat (length (df_data (j_jfd j)))))).
