(* ===== verification/PagerTxn.v ===== *)
(** * PagerTxn: transactions with a rollback journal (pager.c)

    Pages are fetched into the cache, made writable (which journals their old content),
    written out when the cache is short of memory and at the commit, which ends with the
    deletion, truncation or zeroing of the journal.  A playback restores the database file
    and the cache.  An absent journal is an empty file.  No page is passed to
    sqlite3PagerDontWrite, the cache does not spill while a page is made writable, and a
    transaction has one database. *)
From stdpp Require Import sorting.
From S2P Require Import Prelude Varint Record Page Wal WalLog UnixLock WalCkpt Journal.

Definition SQLITE_FULL : Z := 13.
Definition SQLITE_VERSION_NUMBER : Z := 3008005.
Definition SQLITE_ABORT : Z := 4.
Definition SQLITE_READONLY_DBMOVED : Z := Z.lor 8 (Z.shiftl 4 8).
Definition PAGER_MAX_PGNO : Z := 2147483647.

(** ** The cache *)

Definition set_page (j : Jrnl) (pgno : Z) (g : PgHdr) : Jrnl := set_cache j (<[pgno := g]> (j_cache j)).

(** sqlite3PcacheCleanAll *)
Definition clean_all (c : gmap Z PgHdr) : gmap Z PgHdr := make_clean <$> c.

(** sqlite3PcacheDirtyList: the numbers of the dirty pages, in order *)
Definition dirty_list (c : gmap Z PgHdr) : list Z := merge_sort (≤) (filter (fun pgno => ph_dirty <$> c !! pgno = Some true) (map_to_list c).*1).

(** The page is put into the cache; page 1 gives dbFileVers. *)
Definition readDbPage (j : Jrnl) (pgno : Z) : option (Z * Jrnl) :=
  let pgsz := pr_pageSize (j_p j) in
  let '(rc, pData, j) := j_os_read j (df_data (j_fd j)) pgsz ((pgno - 1) * pgsz) in
  let rc := if rc =? SQLITE_IOERR_SHORT_READ then SQLITE_OK else rc in
  vers ← (if rc =? SQLITE_OK then get_bytes pData 24 16 else Some (replicate 16 0xff));
  let j := if pgno =? 1 then set_p j (pr_db (j_p j) (pr_dbSize (j_p j)) (pr_dbFileSize (j_p j)) vers) else j in
  Some (rc, if rc =? SQLITE_OK then set_page j pgno (mkPgHdr pData false false) else j).

(** sqlite3PagerAcquire with flags 0 and no memory mapping: the call is the allocation by
    the cache. *)
Definition sqlite3PagerGet (j : Jrnl) (pgno : Z) : option (Z * Jrnl) :=
  if pgno =? 0 then Some (SQLITE_CORRUPT, j)
  else if negb (pr_errCode (j_p j) =? SQLITE_OK) then Some (pr_errCode (j_p j), j)
  else
    match j_cache j !! pgno with
    | Some _ => _ ← assert_ ((pgno <=? PAGER_MAX_PGNO) && negb (pgno =? PAGER_MJ_PGNO (j_p j))); Some (SQLITE_OK, j)
    | None =>
        let_ok j := j_call j in
        if (PAGER_MAX_PGNO <? pgno) || (pgno =? PAGER_MJ_PGNO (j_p j)) then Some (SQLITE_CORRUPT, j)
        else if pr_dbSize (j_p j) <? pgno then
          if pc_mxPgno (pr_conf (j_p j)) <? pgno then Some (SQLITE_FULL, j)
          else Some (SQLITE_OK, set_page j pgno (mkPgHdr (replicate (Z.to_nat (pr_pageSize (j_p j))) 0) false false))
        else readDbPage j pgno
    end.

(** ** Making a page writable *)

(** The result of SQLITE_FCNTL_HAS_MOVED comes with the result code. *)
Definition databaseIsUnmoved (j : Jrnl) : option (Z * Jrnl) :=
  if pr_dbSize (j_p j) =? 0 then Some (SQLITE_OK, j)
  else
    let '(rc, bHasMoved, j) := j_next j in
    Some (if rc =? SQLITE_NOTFOUND then SQLITE_OK else if (rc =? SQLITE_OK) && negb (bHasMoved =? 0) then SQLITE_READONLY_DBMOVED else rc, j).

(** The calls allocate pInJournal and open the file. *)
Definition pager_open_journal (j : Jrnl) : option (Z * Jrnl) :=
  _ ← assert_ (pr_eState (j_p j) =? PAGER_WRITER_LOCKED);
  '(rc, j) ←
    (if negb (pc_journalMode (pr_conf (j_p j)) =? PAGER_JOURNALMODE_OFF) then
       let_ok j := j_call j in
       let_ok j :=
         (if pr_jopen (j_p j) then Some (SQLITE_OK, j)
          else
            let_ok j := databaseIsUnmoved j in
            let_ok j := j_call j in
            Some (SQLITE_OK, set_p j (pr_opened (j_p j) true))) in
       writeJournalHdr (set_p j (pr_rec (pr_pos (j_p j) 0 0) 0 (pr_pInJournal (j_p j))))
     else Some (SQLITE_OK, j));
  let p := pr_rec (j_p j) (pr_nRec (j_p j)) ∅ in
  Some (rc, set_p j (if rc =? SQLITE_OK then pr_state p PAGER_WRITER_CACHEMOD (pr_errCode p) (pr_changeCountDone p) else p)).

(** The part of pager_write that appends page [pgno] with content [pData2] to the journal;
    the call is sqlite3BitvecSet. *)
Definition journal_page (j : Jrnl) (pgno : Z) (pData2 : list Z) : option (Z * Jrnl) :=
  let iOff := pr_journalOff (j_p j) in
  _ ← assert_ (negb (pgno =? PAGER_MJ_PGNO (j_p j)));
  _ ← assert_ (pr_journalHdr (j_p j) <=? pr_journalOff (j_p j));
  cksum ← pager_cksum (j_p j) pData2;
  let_ok j := write32bits j iOff pgno in
  let_ok j := j_write j pData2 (iOff + 4) in
  let_ok j := write32bits j (iOff + pr_pageSize (j_p j) + 4) cksum in
  let j := set_p j (pr_pos (j_p j) (pr_journalOff (j_p j) + 8 + pr_pageSize (j_p j)) (pr_journalHdr (j_p j))) in
  let j := set_p j (pr_rec (j_p j) (pr_nRec (j_p j) + 1) (pr_pInJournal (j_p j))) in
  let_ok j := j_call j in
  Some (SQLITE_OK, set_p j (pr_rec (j_p j) (pr_nRec (j_p j)) ({[pgno]} ∪ pr_pInJournal (j_p j)))).

Definition pager_write (j : Jrnl) (pgno : Z) : option (Z * Jrnl) :=
  _ ← assert_ ((pr_eState (j_p j) =? PAGER_WRITER_LOCKED) || (pr_eState (j_p j) =? PAGER_WRITER_CACHEMOD) || (pr_eState (j_p j) =? PAGER_WRITER_DBMOD));
  let_ok j := (if pr_eState (j_p j) =? PAGER_WRITER_LOCKED then pager_open_journal j else Some (SQLITE_OK, j)) in
  g ← j_cache j !! pgno;
  let j := set_page j pgno (mkPgHdr (ph_data g) true (ph_needsync g)) in
  let_ok j :=
    (if bool_decide (pgno ∈ pr_pInJournal (j_p j)) then Some (SQLITE_OK, j)
     else if (pgno <=? pr_dbOrigSize (j_p j)) && pr_jopen (j_p j) then journal_page (set_page j pgno (mkPgHdr (ph_data g) true true)) pgno (ph_data g)
     else Some (SQLITE_OK, if negb (pr_eState (j_p j) =? PAGER_WRITER_DBMOD) then set_page j pgno (mkPgHdr (ph_data g) true true) else j)) in
  let p := j_p j in
  Some (SQLITE_OK, set_p j (pr_db p (if pr_dbSize p <? pgno then pgno else pr_dbSize p) (pr_dbFileSize p) (pr_dbFileVers p))).

Definition needs_sync (j : Jrnl) (pg : Z) : bool := match j_cache j !! pg with Some g => ph_needsync g | None => false end.

(** The first loop of sqlite3PagerWrite over the pages of a sector: the second component is
    needSync. *)
Fixpoint write_sector (n : nat) (j : Jrnl) (pg pgno : Z) (needSync : bool) : option (Z * bool * Jrnl) :=
  match n with
  | O => Some (SQLITE_OK, needSync, j)
  | S n =>
      '(rc, needSync, j) ←
        (if (pg =? pgno) || negb (bool_decide (pg ∈ pr_pInJournal (j_p j))) then
           if negb (pg =? PAGER_MJ_PGNO (j_p j)) then
             '(rc, j) ← sqlite3PagerGet j pg;
             if rc =? SQLITE_OK then '(rc, j) ← pager_write j pg; Some (rc, needSync || needs_sync j pg, j) else Some (rc, needSync, j)
           else Some (SQLITE_OK, needSync, j)
         else Some (SQLITE_OK, needSync || needs_sync j pg, j));
      if rc =? SQLITE_OK then write_sector n j (pg + 1) pgno needSync else Some (rc, needSync, j)
  end.

(** The second loop: PGHDR_NEED_SYNC for the pages of the sector *)
Fixpoint sync_sector (n : nat) (c : gmap Z PgHdr) (pg : Z) : gmap Z PgHdr :=
  match n with
  | O => c
  | S n => sync_sector n (alter (fun g => mkPgHdr (ph_data g) (ph_dirty g) true) pg c) (pg + 1)
  end.

Definition sqlite3PagerWrite (j : Jrnl) (pgno : Z) : option (Z * Jrnl) :=
  let p := j_p j in
  if pr_pageSize p <? pr_sectorSize p then
    let nPagePerSector := pr_sectorSize p / pr_pageSize p in
    let pg1 := Z.land (pgno - 1) (Z.lnot (nPagePerSector - 1)) + 1 in
    let nPageCount := pr_dbSize p in
    let nPage := if nPageCount <? pgno then pgno - pg1 + 1 else if nPageCount <? pg1 + nPagePerSector - 1 then nPageCount + 1 - pg1 else nPagePerSector in
    _ ← assert_ ((0 <? nPage) && (pg1 <=? pgno) && (pgno <? pg1 + nPage));
    '(rc, needSync, j) ← write_sector (Z.to_nat nPage) j pg1 pgno false;
    Some (rc, if (rc =? SQLITE_OK) && needSync then set_cache j (sync_sector (Z.to_nat nPage) (j_cache j) pg1) else j)
  else pager_write j pgno.

(** ** Writing out *)

(** The new content of page 1 *)
Definition pager_write_changecounter (p : Pager) (pData : list Z) : option (list Z) :=
  v ← sqlite3Get4byte (pr_dbFileVers p);
  let change_counter := u32 (v + 1) in
  pData ← put_bytes pData 24 (sqlite3Put4byte change_counter);
  pData ← put_bytes pData 92 (sqlite3Put4byte change_counter);
  put_bytes pData 96 (sqlite3Put4byte SQLITE_VERSION_NUMBER).

(** The loop of pager_write_pagelist; the size hint before it (SQLITE_FCNTL_SIZE_HINT and dbHintSize),
    which the file may ignore, is left out. *)
Fixpoint pager_write_pagelist (j : Jrnl) (pList : list Z) : option (Z * Jrnl) :=
  match pList with
  | [] => Some (SQLITE_OK, j)
  | pgno :: pList =>
      g ← j_cache j !! pgno;
      if pgno <=? pr_dbSize (j_p j) then
        _ ← assert_ (negb (ph_needsync g));
        pData ← (if pgno =? 1 then pager_write_changecounter (j_p j) (ph_data g) else Some (ph_data g));
        let j := set_page j pgno (mkPgHdr pData (ph_dirty g) (ph_needsync g)) in
        '(rc, j) ← j_write_db j pData ((pgno - 1) * pr_pageSize (j_p j));
        vers ← (if pgno =? 1 then get_bytes pData 24 16 else Some (pr_dbFileVers (j_p j)));
        let p := j_p j in
        let j := set_p j (pr_db p (pr_dbSize p) (if pr_dbFileSize p <? pgno then pgno else pr_dbFileSize p) vers) in
        if rc =? SQLITE_OK then pager_write_pagelist j pList else Some (rc, j)
      else pager_write_pagelist j pList
  end.

Definition pager_error (j : Jrnl) (rc : Z) : Jrnl :=
  let rc2 := Z.land rc 0xff in
  if (rc2 =? SQLITE_FULL) || (rc2 =? SQLITE_IOERR) then set_p j (pr_state (j_p j) PAGER_ERROR rc (pr_changeCountDone (j_p j))) else j.

(** A dirty page is written out and made clean. *)
Definition pagerStress (j : Jrnl) (pgno : Z) : option (Z * Jrnl) :=
  g ← j_cache j !! pgno;
  _ ← assert_ (ph_dirty g);
  if negb (pr_errCode (j_p j) =? SQLITE_OK) then Some (SQLITE_OK, j)
  else
    '(rc, j) ←
      (let_ok j := (if ph_needsync g || (pr_eState (j_p j) =? PAGER_WRITER_CACHEMOD) then syncJournal j true else Some (SQLITE_OK, j)) in
       let_ok j := pager_write_pagelist j [pgno] in
       Some (SQLITE_OK, set_cache j (alter make_clean pgno (j_cache j))));
    Some (rc, pager_error j rc).

(** ** Commit *)

(** pager_incr_changecounter, not in direct mode *)
Definition pager_incr_changecounter (j : Jrnl) : option (Z * Jrnl) :=
  if negb (pr_changeCountDone (j_p j)) && (0 <? pr_dbSize (j_p j)) then
    let_ok j := sqlite3PagerGet j 1 in
    let_ok j := sqlite3PagerWrite j 1 in
    g ← j_cache j !! 1;
    pData ← pager_write_changecounter (j_p j) (ph_data g);
    Some (SQLITE_OK, set_p (set_page j 1 (mkPgHdr pData (ph_dirty g) (ph_needsync g))) (pr_state (j_p j) (pr_eState (j_p j)) (pr_errCode (j_p j)) true))
  else Some (SQLITE_OK, j).

(** The commit up to commit_phase_one_exit, without a master journal and with noSync 0 *)
Definition commit_main (j : Jrnl) : option (Z * Jrnl) :=
  let_ok j := pager_incr_changecounter j in
  let_ok j := syncJournal j false in
  let_ok j := pager_write_pagelist j (dirty_list (j_cache j)) in
  let j := set_cache j (clean_all (j_cache j)) in
  let p := j_p j in
  let_ok j := (if pr_dbFileSize p <? pr_dbSize p then pager_truncate j (pr_dbSize p - (if pr_dbSize p =? PAGER_MJ_PGNO p then 1 else 0)) else Some (SQLITE_OK, j)) in
  sqlite3PagerSync j.

Definition sqlite3PagerCommitPhaseOne (j : Jrnl) : option (Z * Jrnl) :=
  if negb (pr_errCode (j_p j) =? SQLITE_OK) then Some (pr_errCode (j_p j), j)
  else if pr_eState (j_p j) <? PAGER_WRITER_CACHEMOD then Some (SQLITE_OK, j)
  else
    let_ok j := commit_main j in
    Some (SQLITE_OK, set_p j (pr_state (j_p j) PAGER_WRITER_FINISHED (pr_errCode (j_p j)) (pr_changeCountDone (j_p j)))).

(** sqlite3OsDelete of the journal; dirSync is 0, so that the directory is not synced. *)
Definition delete_journal (j : Jrnl) : option (Z * Jrnl) := '(rc, j) ← j_call j; Some (rc, if rc =? SQLITE_OK then set_jfd j (df_do (j_jfd j) FUnlink) else j).

Definition zeroJournalHdr (j : Jrnl) (doTruncate : bool) : option (Z * Jrnl) :=
  _ ← assert_ (pr_jopen (j_p j));
  if negb (pr_journalOff (j_p j) =? 0) then
    let iLimit := pc_journalSizeLimit (pr_conf (j_p j)) in
    let_ok j := (if doTruncate || (iLimit =? 0) then j_trunc j 0 else j_write j (replicate 28 0) 0) in
    let_ok j := (if negb (pc_noSync (pr_conf (j_p j))) then j_sync j else Some (SQLITE_OK, j)) in
    if 0 <? iLimit then
      let_ok j := j_call j in
      if iLimit <? Z.of_nat (length (df_data (j_jfd j))) then j_trunc j iLimit else Some (SQLITE_OK, j)
    else Some (SQLITE_OK, j)
  else Some (SQLITE_OK, j).

(** The journal is finalised the way the journal mode says; it is not in memory. *)
Definition finalize_journal (j : Jrnl) (hasMaster : bool) : option (Z * Jrnl) :=
  let mode := pc_journalMode (pr_conf (j_p j)) in
  if mode =? PAGER_JOURNALMODE_TRUNCATE then
    '(rc, j) ← (if pr_journalOff (j_p j) =? 0 then Some (SQLITE_OK, j) else j_trunc j 0);
    Some (rc, set_p j (pr_pos (j_p j) 0 (pr_journalHdr (j_p j))))
  else if (mode =? PAGER_JOURNALMODE_PERSIST) || pc_exclusiveMode (pr_conf (j_p j)) && negb (mode =? PAGER_JOURNALMODE_WAL) then
    '(rc, j) ← zeroJournalHdr j hasMaster;
    Some (rc, set_p j (pr_pos (j_p j) 0 (pr_journalHdr (j_p j))))
  else
    _ ← assert_ ((mode =? PAGER_JOURNALMODE_DELETE) || (mode =? PAGER_JOURNALMODE_MEMORY) || (mode =? PAGER_JOURNALMODE_WAL));
    delete_journal (set_p j (pr_opened (j_p j) false)).

(** pager_end_transaction with a RESERVED or a higher lock: the last call is pagerUnlockDb. *)
Definition pager_end_transaction (j : Jrnl) (hasMaster bCommit : bool) : option (Z * Jrnl) :=
  _ ← assert_ (negb (pr_eState (j_p j) =? PAGER_ERROR));
  '(rc, j) ← (if pr_jopen (j_p j) then finalize_journal j hasMaster else Some (SQLITE_OK, j));
  let p := pr_rec (j_p j) 0 ∅ in
  let j := set_cache (set_p j p) (filter (fun x => x.1 <= pr_dbSize p) (clean_all (j_cache j))) in
  '(rc, j) ←
    (if (rc =? SQLITE_OK) && bCommit then
       let_ok j := (if pr_dbSize p <? pr_dbFileSize p then pager_truncate j (pr_dbSize p) else Some (SQLITE_OK, j)) in
       '(rc, j) ← j_call j;
       Some (if rc =? SQLITE_NOTFOUND then SQLITE_OK else rc, j)
     else Some (rc, j));
  '(rc2, j) ← (if negb (pc_exclusiveMode (pr_conf (j_p j))) then '(rc2, j) ← j_call j; Some (rc2, set_p j (pr_state (j_p j) (pr_eState (j_p j)) (pr_errCode (j_p j)) false)) else Some (SQLITE_OK, j));
  Some (if rc =? SQLITE_OK then rc2 else rc, set_p j (pr_state (j_p j) PAGER_READER (pr_errCode (j_p j)) (pr_changeCountDone (j_p j)))).

Definition sqlite3PagerCommitPhaseTwo (j : Jrnl) : option (Z * Jrnl) :=
  if negb (pr_errCode (j_p j) =? SQLITE_OK) then Some (pr_errCode (j_p j), j)
  else
    let p := j_p j in
    _ ← assert_ ((pr_eState p =? PAGER_WRITER_LOCKED) || (pr_eState p =? PAGER_WRITER_FINISHED));
    if (pr_eState p =? PAGER_WRITER_LOCKED) && pc_exclusiveMode (pr_conf p) && (pc_journalMode (pr_conf p) =? PAGER_JOURNALMODE_PERSIST) then
      _ ← assert_ ((pr_journalOff p =? JOURNAL_HDR_SZ p) || (pr_journalOff p =? 0));
      Some (SQLITE_OK, set_p j (pr_state p PAGER_READER (pr_errCode p) (pr_changeCountDone p)))
    else
      '(rc, j) ← pager_end_transaction j false true;
      Some (rc, pager_error j rc).

(** ** Playback *)

(** The last call is pager_delmaster, which is about a file of its own. *)
Definition pager_playback (j : Jrnl) (isHot : bool) : option (Z * Jrnl) :=
  '(rc, j) ← pager_playback_main j isHot;
  let j := set_p j (pr_state (j_p j) (pr_eState (j_p j)) (pr_errCode (j_p j)) false) in
  '(rc, j) ←
    (if rc =? SQLITE_OK then
       '(rc, zMaster, j) ← readMasterJournal j;
       let_ok j := Some (rc, j) in
       let_ok j := (if (PAGER_WRITER_DBMOD <=? pr_eState (j_p j)) || (pr_eState (j_p j) =? PAGER_OPEN) then sqlite3PagerSync j else Some (SQLITE_OK, j)) in
       let named := negb (match zMaster with [] | 0 :: _ => true | _ => false end) in
       let_ok j := pager_end_transaction j named false in
       if named && pc_exists (pr_conf (j_p j)) then j_call j else Some (SQLITE_OK, j)
     else Some (rc, j));
  Some (rc, set_p j (pr_sizes (j_p j) (pc_sector (pr_conf (j_p j))) (pr_pageSize (j_p j)) (pr_nReserve (j_p j)))).

(** Without a journal the content of the cache is not trusted after the rollback. *)
Definition sqlite3PagerRollback (j : Jrnl) : option (Z * Jrnl) :=
  let eState := pr_eState (j_p j) in
  if eState =? PAGER_ERROR then Some (pr_errCode (j_p j), j)
  else if eState <=? PAGER_READER then Some (SQLITE_OK, j)
  else if negb (pr_jopen (j_p j)) || (eState =? PAGER_WRITER_LOCKED) then
    '(rc, j) ← pager_end_transaction j false false;
    if PAGER_WRITER_LOCKED <? eState then Some (rc, set_p j (pr_state (j_p j) PAGER_ERROR SQLITE_ABORT (pr_changeCountDone (j_p j))))
    else Some (rc, pager_error j rc)
  else
    '(rc, j) ← pager_playback j false;
    Some (rc, pager_error j rc).

(** ** Hot journals *)

Definition pr_mxPgno (p : Pager) (n : Z) : Pager :=
  let k := pr_conf p in
  mkPager (pr_eState p) (pr_errCode p) (pr_changeCountDone p) (pr_dbSize p) (pr_dbOrigSize p) (pr_dbFileSize p) (pr_nRec p) (pr_cksumInit p) (pr_journalOff p) (pr_journalHdr p) (pr_sectorSize p) (pr_pageSize p) (pr_nReserve p) (pr_dbFileVers p) (pr_pInJournal p) (pr_jopen p)
    (mkPagerConf (pc_noSync k) (pc_fullSync k) (pc_iDc k) n (pc_mxPathname k) (pc_exists k) (pc_sector k) (pc_journalMode k) (pc_exclusiveMode k) (pc_journalSizeLimit k)).

(** pagerPagecount without a write-ahead log: the second component is *pnPage. *)
Definition pagerPagecount (j : Jrnl) : option (Z * Z * Jrnl) :=
  '(rc, j) ← j_call j;
  if negb (rc =? SQLITE_OK) then Some (rc, 0, j)
  else
    let nPage := (Z.of_nat (length (df_data (j_fd j))) + pr_pageSize (j_p j) - 1) / pr_pageSize (j_p j) in
    Some (SQLITE_OK, nPage, if pc_mxPgno (pr_conf (j_p j)) <? nPage then set_p j (pr_mxPgno (j_p j) nPage) else j).

(** hasHotJournal when the journal is not open, it exists, and no process has a RESERVED
    lock: the second component is *pExists.  The calls are sqlite3OsAccess and
    sqlite3OsCheckReservedLock; for an empty database the locks; and sqlite3OsOpen. *)
Definition hasHotJournal (j : Jrnl) : option (Z * bool * Jrnl) :=
  '(rc, j) ← (let_ok j := j_call j in j_call j);
  if negb (rc =? SQLITE_OK) then Some (rc, false, j)
  else
    '(rc, nPage, j) ← pagerPagecount j;
    if negb (rc =? SQLITE_OK) then Some (rc, false, j)
    else if nPage =? 0 then
      '(_, j) ← (let_ok j := j_call j in '(_, j) ← delete_journal j; j_call j);
      Some (SQLITE_OK, false, j)
    else
      '(rc, j) ← j_call j;
      if rc =? SQLITE_OK then
        let '(rc, first, j) := j_read j 1 0 in
        let rc := if rc =? SQLITE_IOERR_SHORT_READ then SQLITE_OK else rc in
        Some (rc, (rc =? SQLITE_OK) && negb (default 0 (aget first 0) =? 0), j)
      else if rc =? SQLITE_CANTOPEN then Some (SQLITE_OK, true, j)
      else Some (rc, false, j).

(** The part of sqlite3PagerSharedLock that rolls back a hot journal: the calls take the
    EXCLUSIVE lock, look for the journal and open it. *)
Definition roll_back_hot (j : Jrnl) : option (Z * Jrnl) :=
  '(rc, bHotJournal, j) ← hasHotJournal j;
  if negb (rc =? SQLITE_OK) || negb bHotJournal then Some (rc, j)
  else
    let_ok j := j_call j in
    '(rc, j) ←
      (let_ok j := j_call j in
       let_ok j := j_call j in
       let_ok j := pagerSyncHotJournal (set_p j (pr_opened (j_p j) true)) in
       '(rc, j) ← pager_playback j true;
       Some (rc, set_p j (pr_state (j_p j) PAGER_OPEN (pr_errCode (j_p j)) (pr_changeCountDone (j_p j)))));
    Some (rc, if rc =? SQLITE_OK then j else pager_error j rc).
