(* ===== verification/JournalFile.v ===== *)
(** * JournalFile: files and what a crash leaves of them (pager.c)

    After a crash every 4-byte word of a file is as it was after one of the operations
    since the last sync, each word independently of the others, and the size is that after
    one of them; but words from before and from after a deletion do not mix.  Bytes past the
    end read as zeros. *)
From S2P Require Import Prelude Varint Record Page PageLayout Wal WalLog WalSpec WalCkpt WalFile Journal.

(** ** Crash images *)

Definition df_prefix (f : DFile) (k : nat) : list Z := fold_left f_apply (take k (df_log f)) (df_base f).

(** How often the file was deleted *)
Fixpoint unlinks (l : list FOp) : nat := match l with [] => 0 | FUnlink :: l => S (unlinks l) | _ :: l => unlinks l end.

Definition crash_of (f : DFile) (c : list Z) : Prop :=
  exists (k : Z -> nat) (n : nat), (forall i, 0 <= i -> db_byte c i = db_byte (df_prefix f (k (i / 4))) i) /\ length c = length (df_prefix f n) /\ forall i, unlinks (take (k i) (df_log f)) = unlinks (take n (df_log f)).

Lemma len_write c off l : 0 <= off -> len (file_write c off l) = if decide (l = []) then len c else Z.max (len c) (off + len l).
Proof.
  intros Ho. unfold file_write. destruct l as [|x l]; [done|]. rewrite decide_False by done. set (xs := x :: l). rewrite !length_app, length_take, length_drop, length_app, length_replicate. lia.
Qed.

Lemma len_write_le c off l : 0 <= off -> len c <= len (file_write c off l).
Proof. intros Ho. rewrite len_write by done. case_decide; lia. Qed.

Lemma prefix_0 f : df_prefix f 0 = df_base f.
Proof. done. Qed.

Lemma prefix_all f k : (length (df_log f) <= k)%nat -> df_prefix f k = df_data f.
Proof. intros Hk. unfold df_prefix, df_data. by rewrite take_ge. Qed.

Lemma prefix_do f o k : df_prefix (df_do f o) k = if decide (k <= length (df_log f))%nat then df_prefix f k else f_apply (df_data f) o.
Proof.
  unfold df_prefix, df_do, df_data. cbn. case_decide.
  - by rewrite take_app_le.
  - rewrite take_ge by (rewrite length_app; cbn; lia). by rewrite fold_left_app.
Qed.

Lemma data_do f o : df_data (df_do f o) = f_apply (df_data f) o.
Proof. unfold df_data, df_do. cbn. by rewrite fold_left_app. Qed.

(** A property of every state since the last sync *)
Definition always (f : DFile) (P : list Z -> Prop) : Prop := forall k, P (df_prefix f k).

Lemma always_data f (P : list Z -> Prop) : always f P -> P (df_data f).
Proof. intros H. rewrite <- (prefix_all f (length (df_log f))) by done. apply H. Qed.

Lemma always_base f (P : list Z -> Prop) : always f P -> P (df_base f).
Proof. intros H. apply (H 0%nat). Qed.

Lemma always_do f o (P : list Z -> Prop) : always f P -> P (f_apply (df_data f) o) -> always (df_do f o) P.
Proof. intros H Ho k. rewrite prefix_do. case_decide; [apply H|done]. Qed.

Lemma always_sync f (P : list Z -> Prop) : P (df_data f) -> always (df_sync f) P.
Proof. intros H k. unfold df_prefix. cbn. by rewrite take_nil. Qed.

Lemma always_synced d (P : list Z -> Prop) : P d -> always (mkDFile d []) P.
Proof. intros H k. unfold df_prefix. cbn. by rewrite take_nil. Qed.

Lemma always_mono f (P Q : list Z -> Prop) : (forall c, P c -> Q c) -> always f P -> always f Q.
Proof. intros H HP k. apply H, HP. Qed.

Lemma sync_data f : df_data (df_sync f) = df_data f.
Proof. done. Qed.

(** Without operations since the last sync the file is what was synced. *)
Lemma bytes_eq c d : length c = length d -> (forall i, 0 <= i < len c -> db_byte c i = db_byte d i) -> c = d.
Proof.
  intros Hl H. apply list_eq. intros i. destruct (decide (i < length c)%nat) as [Hi|Hi].
  - specialize (H (Z.of_nat i) ltac:(lia)). unfold db_byte, aget in H. rewrite !decide_True, Nat2Z.id in H by lia.
    destruct (lookup_lt_is_Some_2 c i Hi) as [x Hx], (lookup_lt_is_Some_2 d i ltac:(lia)) as [y Hy]. rewrite Hx, Hy in *. cbn in H. congruence.
  - rewrite !(proj2 (lookup_ge_None _ _)); [done|lia..].
Qed.

Lemma crash_synced c d : crash_of (mkDFile d []) c -> c = d.
Proof.
  intros (k & n & Hb & Hl & _). assert (forall m, df_prefix (mkDFile d []) m = d) as Hp by (intros m; unfold df_prefix; cbn; by rewrite take_nil). rewrite Hp in Hl. apply bytes_eq; [done|]. intros i Hi. rewrite Hb by lia. by rewrite Hp.
Qed.

(** The file may be as it is. *)
Lemma crash_data f : crash_of f (df_data f).
Proof. exists (fun _ => length (df_log f)), (length (df_log f)). split; [intros; by rewrite prefix_all|]. by rewrite prefix_all. Qed.

Lemma crash_self d : crash_of (mkDFile d []) d.
Proof. apply (crash_data (mkDFile d [])). Qed.

(** A byte and a word of a crash image *)
Lemma crash_byte f c i (P : Z -> Prop) : crash_of f c -> 0 <= i -> always f (fun d => P (db_byte d i)) -> P (db_byte c i).
Proof. intros (k & n & Hb & _) Hi H. rewrite Hb by done. apply H. Qed.

Lemma crash_len f c (P : Z -> Prop) : crash_of f c -> always f (fun d => P (len d)) -> P (len c).
Proof. intros (k & n & _ & Hl & _) H. rewrite Hl. apply H. Qed.

(** A file after it was deleted: it is there as before, or it is gone. *)
Lemma unlinks_app l1 l2 : unlinks (l1 ++ l2) = (unlinks l1 + unlinks l2)%nat.
Proof. induction l1 as [|[] l1 IH]; cbn; [done|exact IH..|by rewrite IH]. Qed.

Lemma unlinks_take k l : (unlinks (take k l) <= unlinks l)%nat.
Proof. rewrite <- (take_drop k l) at 2. rewrite unlinks_app. lia. Qed.

Lemma crash_unlinked f c : crash_of (df_do f FUnlink) c -> crash_of f c \/ c = [].
Proof.
  intros (k & n & Hb & Hl & Hu). set (l := df_log f) in *. assert (forall m, unlinks (take m (l ++ [FUnlink])) = if decide (m <= length l)%nat then unlinks (take m l) else S (unlinks l)) as Ht.
  { intros m. case_decide; [by rewrite take_app_le|]. rewrite take_ge by (rewrite length_app; cbn; lia). rewrite unlinks_app. cbn. lia. }
  change (df_log (df_do f FUnlink)) with (l ++ [FUnlink]) in Hu. rewrite prefix_do in Hl. destruct (decide (n <= length (df_log f))%nat) as [Hn|Hn].
  - left. assert (forall i, (k i <= length l)%nat) as Hk. { intros i. specialize (Hu i). rewrite !Ht, (decide_True (P := (n <= _)%nat)) in Hu by done. case_decide; [done|]. pose proof (unlinks_take n l). lia. }
    exists k, n. split; [|split; [done|]].
    + intros i Hi. rewrite Hb by done. by rewrite prefix_do, decide_True by apply Hk.
    + intros i. specialize (Hu i). by rewrite !take_app_le in Hu by (done || apply Hk).
  - right. by apply length_zero_iff_nil.
Qed.

(** ** Reading *)

Lemma f_read_len c n off : length (f_read c n off) = Z.to_nat n.
Proof. unfold f_read. by rewrite length_fmap, length_seqZ. Qed.

Lemma f_read_ext c d n off : (forall i, off <= i < off + n -> db_byte c i = db_byte d i) -> f_read c n off = f_read d n off.
Proof. intros H. apply list_fmap_ext. intros i k Hk%lookup_seqZ. apply H. lia. Qed.

Lemma f_read_app c n m off : 0 <= n -> 0 <= m -> f_read c (n + m) off = f_read c n off ++ f_read c m (off + n).
Proof.
  intros Hn Hm. unfold f_read. rewrite seqZ_app by done. rewrite fmap_app. f_equal. replace (0 + n) with (n + 0) by lia. rewrite <- (fmap_add_seqZ n 0 m), <- list_fmap_compose.
  apply list_fmap_ext. intros i k _. cbn. f_equal. lia.
Qed.

Lemma f_read_byte c n off i : 0 <= i < n -> db_byte (f_read c n off) i = db_byte c (off + i).
Proof.
  intros Hi. unfold db_byte at 1, aget. rewrite decide_True by lia. unfold f_read. rewrite list_lookup_fmap, lookup_seqZ_lt by lia. cbn. f_equal. lia.
Qed.

Lemma f_read_page c p ps : f_read c ps ((p - 1) * ps) = db_page ps c p.
Proof. done. Qed.

(** The bytes [l] are at [off]. *)
Definition has (c : list Z) (off : Z) (l : list Z) : Prop := off + len l <= len c /\ f_read c (len l) off = l.

Lemma has_app c off a b : has c off (a ++ b) <-> has c off a /\ has c (off + len a) b.
Proof.
  unfold has. rewrite length_app, Nat2Z.inj_add, f_read_app by lia. split.
  - intros [Hl H]. apply app_inj_1 in H as [H1 H2]; [|rewrite f_read_len; lia]. repeat split; try done; lia.
  - intros [[? ->] [? ->]]. split; [lia|done].
Qed.

Lemma has_ext c d off l : has c off l -> off + len l <= len d -> (forall i, off <= i < off + len l -> db_byte d i = db_byte c i) -> has d off l.
Proof. intros [_ H] Hl Hb. split; [done|]. etransitivity; [|exact H]. by apply f_read_ext. Qed.

Lemma has_byte c off l i : has c off l -> 0 <= i < len l -> db_byte c (off + i) = db_byte l i.
Proof. intros [_ H] Hi. rewrite <- (f_read_byte c (len l) off i Hi). by rewrite H. Qed.

Lemma has_of_bytes c off l : off + len l <= len c -> (forall i, 0 <= i < len l -> db_byte c (off + i) = db_byte l i) -> has c off l.
Proof. intros Hl H. split; [done|]. apply bytes_eq; [rewrite f_read_len; lia|]. intros i Hi. rewrite f_read_len in Hi. rewrite f_read_byte by lia. apply H. lia. Qed.

Lemma has_write c off l : 0 <= off -> has (file_write c off l) off l \/ l = [].
Proof.
  intros Ho. destruct (decide (l = [])) as [->|Hn]; [by right|left]. apply has_of_bytes; [rewrite len_write, decide_False by done; lia|].
  intros i Hi. rewrite db_byte_write by lia. rewrite decide_True by lia. f_equal. lia.
Qed.

Lemma has_write_ne c off l o l' : 0 <= o -> has c off l -> 0 <= off -> o + len l' <= off \/ off + len l <= o -> has (file_write c o l') off l.
Proof.
  intros Ho H Hoff Hd. eapply has_ext; [exact H|destruct H; pose proof (len_write_le c o l' Ho); lia|]. intros i Hi. rewrite db_byte_write by lia. rewrite decide_False by lia. done.
Qed.
