(* ===== verification/JournalPlay.v ===== *)
(** * JournalPlay: playback of a journal (pager.c)

    What a journal with given segments holds, and what pager_playback does with it: the
    database file is cut to its old size and the records are written over it, unless an
    operation fails, and then with a part of these writes. *)
From S2P Require Import Prelude Varint Record Page PageLayout PageCells Wal WalLog WalSpec UnixLock WalCkpt WalFile Journal JournalFile.

(** ** Postconditions *)

Definition post (r : option (Z * Jrnl)) (Q : Z -> Jrnl -> Prop) : Prop := exists rc j, r = Some (rc, j) /\ Q rc j.

Lemma post_then r f (R Q : Z -> Jrnl -> Prop) :
  post r R -> (forall j, R SQLITE_OK j -> post (f j) Q) -> (forall rc j, rc <> SQLITE_OK -> R rc j -> Q rc j) -> post (jthen r f) Q.
Proof.
  intros (rc & j & -> & HR) Hok Hbad. unfold jthen. cbn [mbind option_bind]. destruct (Z.eqb_spec rc SQLITE_OK) as [->|Hn]; [by apply Hok|]. exists rc, j. split; [done|by apply Hbad].
Qed.

Lemma post_bind r f (R Q : Z -> Jrnl -> Prop) : post r R -> (forall rc j, R rc j -> post (f (rc, j)) Q) -> post (r ≫= f) Q.
Proof. intros (rc & j & -> & HR) H. cbn [mbind option_bind]. by apply H. Qed.

Lemma post_mono r (R Q : Z -> Jrnl -> Prop) : post r R -> (forall rc j, R rc j -> Q rc j) -> post r Q.
Proof. intros (rc & j & -> & HR) H. exists rc, j. split; [done|by apply H]. Qed.

Lemma post_ret rc j (Q : Z -> Jrnl -> Prop) : Q rc j -> post (Some (rc, j)) Q.
Proof. intros H. by exists rc, j. Qed.

(** ** Results of the operating system *)

Definition with_io (j : Jrnl) (io : list (Z * Z)) : Jrnl := mkJrnl (j_p j) (j_jfd j) (j_fd j) (j_cache j) io.

(** [rc] is SQLITE_OK or one of the results that are used up. *)
Definition later (j : Jrnl) (rc : Z) (io : list (Z * Z)) : Prop := io `suffix_of` j_io j /\ (rc = SQLITE_OK \/ rc ∈ (j_io j).*1).

Lemma later_refl j : later j SQLITE_OK (j_io j).
Proof. split; [done|by left]. Qed.

Lemma later_trans j io1 rc rc' io2 : later j rc io1 -> io2 `suffix_of` io1 -> (rc' = SQLITE_OK \/ rc' ∈ io1.*1) -> later j rc' io2.
Proof.
  intros [H1 H2] H3 H4. split; [by etransitivity|]. destruct H4 as [->|H4]; [by left|right]. destruct H1 as [q ->]. rewrite fmap_app. apply elem_of_app. by right.
Qed.

Lemma j_next_spec j : exists rc n io, j_next j = (rc, n, with_io j io) /\ later j rc io.
Proof.
  unfold j_next. destruct (j_io j) as [|[rc n] io] eqn:Hio.
  - exists SQLITE_OK, 0, []. split; [|split; [by rewrite Hio|by left]]. do 2 f_equal. unfold with_io. rewrite <- Hio. by destruct j.
  - exists rc, n, io. split; [done|]. split; rewrite Hio; [by apply suffix_cons_r|right]. cbn. apply elem_of_cons. by left.
Qed.

Lemma j_call_spec j : post (j_call j) (fun rc j' => exists io, j' = with_io j io /\ later j rc io).
Proof. destruct (j_next_spec j) as (rc & n & io & Hn & Hl). exists rc, (with_io j io). split; [unfold j_call; by rewrite Hn|]. by exists io. Qed.

(** No operation reports SQLITE_DONE or a short read of its own accord. *)
Definition sane (j : Jrnl) : Prop := Forall (fun r => r.1 <> SQLITE_DONE /\ r.1 <> SQLITE_IOERR_SHORT_READ) (j_io j).

Lemma sane_later j rc io : sane j -> later j rc io -> Forall (fun r => r.1 <> SQLITE_DONE /\ r.1 <> SQLITE_IOERR_SHORT_READ) io /\ rc <> SQLITE_DONE /\ rc <> SQLITE_IOERR_SHORT_READ.
Proof.
  intros Hs [[q Hq] Hr]. unfold sane in Hs. rewrite Hq in *. split; [by apply Forall_app in Hs as []|]. destruct Hr as [->|Hr]; [by split; vm_compute|].
  apply list_elem_of_fmap in Hr as (x & -> & Hx). rewrite Forall_forall in Hs. by apply Hs.
Qed.

Lemma j_os_read_spec j c n off : 0 <= off -> off + n <= len c -> exists rc b io, j_os_read j c n off = (rc, b, with_io j io) /\ later j rc io /\ (rc = SQLITE_OK -> b = f_read c n off).
Proof.
  intros Ho Hl. unfold j_os_read. destruct (j_next_spec j) as (rc & m & io & -> & Hlat). rewrite (proj2 (Z.ltb_ge off 0)) by lia. replace (off + n <=? len c) with true by (symmetry; apply Z.leb_le; lia).
  destruct ((rc =? SQLITE_OK) || (rc =? SQLITE_IOERR_SHORT_READ)) eqn:Hr; eexists _, _, io; (split; [done|]).
  - split; [|done]. split; [apply Hlat|by left].
  - split; [done|]. intros ->. done.
Qed.

Lemma get4_read c off v : 0 <= v < 2 ^ 32 -> has c off (sqlite3Put4byte v) -> sqlite3Get4byte (f_read c 4 off) = Some v.
Proof. intros Hv [_ H]. change 4 with (len (sqlite3Put4byte v)). rewrite H, <- (app_nil_r (sqlite3Put4byte v)). by apply get4_put4. Qed.

Lemma read32_spec j off v : 0 <= off -> 0 <= v < 2 ^ 32 -> has (df_data (j_jfd j)) off (sqlite3Put4byte v) ->
  exists rc x io, read32bits j off = Some (rc, x, with_io j io) /\ later j rc io /\ (rc = SQLITE_OK -> x = v).
Proof.
  intros Ho Hv H. unfold read32bits, j_read. destruct (j_os_read_spec j (df_data (j_jfd j)) 4 off Ho) as (rc & b & io & -> & Hl & Hb); [by destruct H|].
  destruct (Z.eqb_spec rc SQLITE_OK) as [->|Hn].
  - rewrite Hb, (get4_read _ _ v) by done. cbn. eauto 8.
  - exists rc, 0, io. done.
Qed.

(** The value of a field with any content *)
Lemma get4_some l : length l = 4%nat -> exists v, sqlite3Get4byte l = Some v.
Proof. destruct l as [|a [|b [|c [|d [|]]]]]; try done. intros _. unfold sqlite3Get4byte. cbn. eauto. Qed.

Lemma read32_any j off : 0 <= off -> off + 4 <= len (df_data (j_jfd j)) -> exists rc x io, read32bits j off = Some (rc, x, with_io j io) /\ later j rc io.
Proof.
  intros Ho H. unfold read32bits, j_read. destruct (j_os_read_spec j (df_data (j_jfd j)) 4 off Ho H) as (rc & b & io & -> & Hl & Hb). destruct (Z.eqb_spec rc SQLITE_OK) as [->|Hn]; [|by eexists _, _, io].
  rewrite Hb by done. destruct (get4_some (f_read (df_data (j_jfd j)) 4 off)) as [v ->]; [apply f_read_len|]. cbn. by eexists _, _, io.
Qed.

(** ** The master journal *)

(** The file does not end in the record of a master journal. *)
Definition no_master (c : list Z) : Prop := len c < 16 \/ f_read c 8 (len c - 8) <> aJournalMagic.

Lemma read_master j : no_master (df_data (j_jfd j)) -> exists rc io, readMasterJournal j = Some (rc, [], with_io j io) /\ later j rc io.
Proof.
  intros Hm. unfold readMasterJournal. destruct (j_call_spec j) as (rc & ? & -> & io & -> & Hl). cbn [mbind option_bind]. set (c := df_data (j_jfd (with_io j io))). change (df_data (j_jfd j)) with c in Hm.
  destruct (negb (rc =? SQLITE_OK) || (len c <? 16)) eqn:H1; [by exists rc, io|]. apply orb_false_iff in H1 as [H1 H2]. apply negb_false_iff, Z.eqb_eq in H1 as ->. apply Z.ltb_ge in H2. destruct Hm as [|Hm]; [lia|].
  destruct (read32_any (with_io j io) (len c - 16)) as (rc & x & io2 & -> & Hl2); [fold c; lia..|]. cbn [mbind option_bind]. apply (later_trans _ _ _ rc io2) in Hl as Hl'; [|apply Hl2..].
  change (with_io (with_io j io) io2) with (with_io j io2). case_match; [by exists rc, io2|].
  destruct (read32_any (with_io j io2) (len c - 12)) as (rc' & y & io3 & -> & Hl3); [change (df_data (j_jfd (with_io j io2))) with c; lia..|]. cbn [mbind option_bind]. apply (later_trans _ _ _ rc' io3) in Hl' as Hl''; [|apply Hl3..].
  change (with_io (with_io j io2) io3) with (with_io j io3). case_match; [by exists rc', io3|].
  unfold j_read. destruct (j_os_read_spec (with_io j io3) c 8 (len c - 8)) as (rc4 & b & io4 & Hr & Hl4 & Hb); [lia..|]. change (df_data (j_jfd (with_io j io3))) with c. rewrite Hr.
  apply (later_trans _ _ _ rc4 io4) in Hl''; [|apply Hl4..]. exists rc4, io4. split; [|done]. destruct (Z.eqb_spec rc4 SQLITE_OK) as [->|]; [|done]. rewrite bool_decide_false by (by rewrite Hb). done.
Qed.

(** ** The format *)

(** The sector size, the page size and the old size of the database in pages, and if the
    journal is empty at the start of a transaction *)
Class Geom := mkGeom {
  g_sz : Z;
  g_ps : Z;
  g_orig : Z;
  g_clean : bool;
  g_sz_ok : 32 <= g_sz <= MAX_SECTOR_SIZE /\ is_pow2 g_sz = true;
  g_ps_ok : 512 <= g_ps <= SQLITE_MAX_PAGE_SIZE /\ is_pow2 g_ps = true;
  g_orig_ok : 0 <= g_orig <= 2147483647 }.

Lemma put4_len v : length (sqlite3Put4byte v) = 4%nat.
Proof. done. Qed.

Section Format.
Context {G : Geom}.

Definition g_mj : Z := PENDING_BYTE / g_ps + 1.
Definition g_cks (ck : Z) (d : list Z) : Z := default 0 (cksum200 (S (Z.to_nat g_ps)) d (g_ps - 200) ck).
Definition jhdr_bytes (ck n : Z) : list Z := (aJournalMagic ++ sqlite3Put4byte n) ++ sqlite3Put4byte ck ++ sqlite3Put4byte g_orig ++ sqlite3Put4byte g_sz ++ sqlite3Put4byte g_ps.
Definition rec_bytes (ck : Z) (r : Z * list Z) : list Z := sqlite3Put4byte r.1 ++ r.2 ++ sqlite3Put4byte (g_cks ck r.2).

(** The records of a segment from [off] on *)
Fixpoint recs_at (c : list Z) (off ck : Z) (recs : list (Z * list Z)) : Prop :=
  match recs with [] => True | r :: recs => has c off (rec_bytes ck r) /\ recs_at c (off + g_ps + 8) ck recs end.

Definition align (off : Z) : Z := if off =? 0 then 0 else ((off - 1) / g_sz + 1) * g_sz.

(** A segment: the initial value of the checksums, and the records *)
Definition seg : Type := Z * list (Z * list Z).
Definition seg_end (off : Z) (s : seg) : Z := off + g_sz + len s.2 * (g_ps + 8).
Definition segs_end (off : Z) (segs : list seg) : Z := fold_left (fun off s => align (seg_end off s)) segs off.

Definition seg_at (c : list Z) (off : Z) (s : seg) : Prop :=
  has c off (jhdr_bytes s.1 (len s.2)) /\ seg_end off s <= len c /\ recs_at c (off + g_sz) s.1 s.2.

Fixpoint segs_at (c : list Z) (off : Z) (segs : list seg) : Prop :=
  match segs with [] => True | s :: segs => seg_at c off s /\ segs_at c (align (seg_end off s)) segs end.

(** No header starts at [off]. *)
Definition no_hdr (c : list Z) (off : Z) : Prop := ~ has c off aJournalMagic.

(** A journal with these segments and no other *)
Definition jrnl_at (c : list Z) (segs : list seg) : Prop := segs_at c 0 segs /\ no_hdr c (segs_end 0 segs).

Definition rec_ok (r : Z * list Z) : Prop := 1 <= r.1 <= g_orig /\ r.1 <> g_mj /\ len r.2 = g_ps.
Definition jseg_ok (s : seg) : Prop := 0 <= s.1 < 2 ^ 32 /\ len s.2 < 0xffffffff /\ Forall rec_ok s.2.

Lemma align_spec off : 0 <= off -> off <= align off /\ align off < off + g_sz /\ align off mod g_sz = 0.
Proof using.
  intros Ho. pose proof g_sz_ok as [[? ?] _]. unfold align. destruct (Z.eqb_spec off 0) as [->|Hn]; [rewrite Z.mod_0_l by lia; lia|]. rewrite Z.mod_mul by lia.
  assert (g_sz <> 0 /\ 0 < g_sz) as [Hz Hp] by lia. pose proof (Z.div_mod (off - 1) _ Hz). pose proof (Z.mod_pos_bound (off - 1) _ Hp). nia.
Qed.

Lemma align_id off : 0 <= off -> off mod g_sz = 0 -> align off = off.
Proof using.
  intros Ho Hm. pose proof (align_spec off Ho) as (H1 & H2 & H3). pose proof g_sz_ok as [[? ?] _]. apply Z.div_exact in Hm, H3; [|lia..]. assert (align off / g_sz = off / g_sz); [|congruence]. assert (align off / g_sz < off / g_sz + 1 /\ off / g_sz < align off / g_sz + 1); [|lia]. split; apply (Z.mul_lt_mono_pos_l g_sz); lia.
Qed.

Lemma hdr_offset p : pr_sectorSize p = g_sz -> 0 <= pr_journalOff p -> journalHdrOffset p = Some (align (pr_journalOff p)).
Proof using.
  intros Hs Ho. pose proof (align_spec _ Ho) as (H1 & H2 & H3). unfold journalHdrOffset, JOURNAL_HDR_SZ. rewrite Hs. change (if pr_journalOff p =? 0 then 0 else _) with (align (pr_journalOff p)).
  replace (if negb (pr_journalOff p =? 0) then ((pr_journalOff p - 1) / g_sz + 1) * g_sz else 0) with (align (pr_journalOff p)) by (unfold align; by destruct (_ =? 0)).
  rewrite H3. replace (align (pr_journalOff p) - pr_journalOff p <? g_sz) with true by (symmetry; apply Z.ltb_lt; lia). replace (pr_journalOff p <=? align (pr_journalOff p)) with true by (symmetry; apply Z.leb_le; lia). done.
Qed.

Lemma cksum200_some fuel d i ck : (Z.to_nat i < fuel)%nat -> i < len d -> 0 <= ck < 2 ^ 32 -> exists v, cksum200 fuel d i ck = Some v /\ 0 <= v < 2 ^ 32.
Proof using.
  revert i ck. induction fuel as [|fuel IH]; intros i ck Hf Hi Hc; [lia|]. cbn. destruct (Z.ltb_spec 0 i); [|by exists ck]. destruct (aget_is_Some d i) as [b ->]; [lia|]. cbn. apply IH; [lia..|]. apply Z.mod_pos_bound. lia.
Qed.

Lemma g_cks_spec p d : pr_pageSize p = g_ps -> len d = g_ps -> 0 <= pr_cksumInit p < 2 ^ 32 -> pager_cksum p d = Some (g_cks (pr_cksumInit p) d) /\ 0 <= g_cks (pr_cksumInit p) d < 2 ^ 32.
Proof using.
  intros Hp Hd Hc. unfold pager_cksum, g_cks. rewrite Hp. destruct (cksum200_some (S (Z.to_nat g_ps)) d (g_ps - 200) (pr_cksumInit p)) as (v & -> & Hv); [lia..|]. done.
Qed.

Lemma rec_len ck r : rec_ok r -> len (rec_bytes ck r) = g_ps + 8.
Proof using. intros (_ & _ & Hl). unfold rec_bytes. rewrite !length_app, !put4_len. lia. Qed.
End Format.
