(* ===== verification/JournalReplay.v ===== *)
(** * JournalReplay: the loops of pager_playback on a journal with known segments (pager.c) *)
From S2P Require Import Prelude Varint Record Page PageLayout PageCells Wal WalLog WalSpec UnixLock WalCkpt WalFile Journal JournalFile JournalPlay.

Definition df_dos (f : DFile) (ops : list FOp) : DFile := mkDFile (df_base f) (df_log f ++ ops).

Lemma dos_nil f : df_dos f [] = f.
Proof. unfold df_dos. rewrite app_nil_r. by destruct f. Qed.

Lemma dos_dos f a b : df_dos (df_dos f a) b = df_dos f (a ++ b).
Proof. unfold df_dos. cbn. by rewrite app_assoc. Qed.

Lemma data_dos f ops : df_data (df_dos f ops) = fold_left f_apply ops (df_data f).
Proof. unfold df_data, df_dos. cbn. by rewrite fold_left_app. Qed.

Lemma later_trans' j j1 j2 rc rc' : later j rc (j_io j1) -> later j1 rc' (j_io j2) -> later j rc' (j_io j2).
Proof. intros H1 [H2 H3]. by eapply later_trans. Qed.

(** The journal is deleted at the end of a transaction. *)
Definition del_mode (p : Pager) : Prop := pc_journalMode (pr_conf p) = PAGER_JOURNALMODE_DELETE /\ pc_exclusiveMode (pr_conf p) = false.

Section Replay.
Context {G : Geom} (F : DFile).

Abbreviation c := (df_data F).

(** A pager that plays back the hot journal [F] *)
Record pb (j : Jrnl) : Prop := mkPb {
  pb_jfd : j_jfd j = F;
  pb_cache : j_cache j = ∅;
  pb_open : pr_eState (j_p j) = PAGER_OPEN;
  pb_hdr : pr_journalHdr (j_p j) = len c;
  pb_sz : pr_sectorSize (j_p j) = g_sz;
  pb_ns : pc_noSync (pr_conf (j_p j)) = false;
  pb_del : del_mode (j_p j) /\ pr_jopen (j_p j) = true;
  pb_sane : sane j }.

Record pb1 (j : Jrnl) : Prop := mkPb1 { pb1_pb : pb j; pb1_ps : pr_pageSize (j_p j) = g_ps; pb1_db : pr_dbSize (j_p j) = g_orig }.

Lemma pb_io j rc io : pb j -> later j rc io -> pb (with_io j io).
Proof using. intros [] Hl. split; try done. by eapply sane_later. Qed.

Lemma pb1_io j rc io : pb1 j -> later j rc io -> pb1 (with_io j io).
Proof using. intros [] Hl. split; [by eapply pb_io|done..]. Qed.

(** The write of a record, and a part of it *)
Definition wr (r : Z * list Z) : FOp := FWrite ((r.1 - 1) * g_ps) r.2.
Definition part (r : Z * list Z) (o : FOp) : Prop := exists m, o = FWrite ((r.1 - 1) * g_ps) (take m r.2).

Lemma restore_spec j ck off r : pb1 j -> off <= len c -> rec_ok r -> pr_cksumInit (j_p j) = ck -> pr_journalOff (j_p j) = off ->
  post (restore_page j r.1 off r.2) (fun rc j' => later j rc (j_io j') /\ pb1 j' /\ pr_cksumInit (j_p j') = ck /\ pr_journalOff (j_p j') = off /\
    exists o, j_fd j' = df_dos (j_fd j) [o] /\ part r o /\ (rc = SQLITE_OK -> o = wr r)).
Proof using.
  intros [[H1 H2 H3 H4 H5 H9 H10 H6] H7 H8] Hoff (Hr1 & Hr2 & Hr3) Hck Ho. pose proof g_ps_ok as [[Hp1 Hp2] _]. unfold restore_page. destruct (aget_is_Some r.2 20) as [nr ->]; [lia|]. cbn [mbind option_bind].
  set (j1 := if r.1 =? 1 then _ else j). assert (j_io j1 = j_io j /\ j_fd j1 = j_fd j /\ pb1 j1 /\ pr_cksumInit (j_p j1) = ck /\ pr_journalOff (j_p j1) = off) as (E1 & E2 & [[A1 A2 A3 A4 A5 A9 A10 A6] A7 A8] & E3 & E4).
  { unfold j1. destruct (r.1 =? 1); done. }
  clearbody j1. rewrite A2, lookup_empty, A3, A4, bool_decide_true by done. replace (off <=? len c) with true by (symmetry; by apply Z.leb_le). rewrite !orb_true_r. cbn [assert_ mbind option_bind andb].
  change ((PAGER_WRITER_DBMOD <=? PAGER_OPEN) || (PAGER_OPEN =? PAGER_OPEN)) with true. cbn [andb]. unfold j_write_db. destruct (j_next_spec j1) as (rc & n & io & -> & Hl). cbn [mbind option_bind].
  assert (later j rc io) as Hl' by (destruct Hl; rewrite E1 in *; by split).
  unfold set_fd, set_p. cbn [j_cache j_p j_jfd j_fd j_io with_io]. rewrite A2, lookup_empty. exists rc. eexists. split; [done|]. cbn -[Z.mul Z.sub]. split; [done|]. split; [|split; [done|split; [done|]]].
  - split; [|done..]. split; try done. by eapply sane_later.
  - eexists. rewrite E2, A7. split; [done|]. split.
    + exists (length (j_stored rc n r.2)). f_equal. unfold j_stored. destruct (rc =? SQLITE_OK); [by rewrite firstn_all|]. rewrite length_take. destruct (Nat.min_spec (4 * Z.to_nat n) (length r.2)) as [[? ->]|[? ->]]; [done|]. by rewrite !take_ge by lia.
    + intros ->. done.
Qed.

(** What the record gives the three reads *)
Lemma rec_fields off ck r : rec_ok r -> has c off (rec_bytes ck r) -> has c off (sqlite3Put4byte r.1) /\ has c (off + 4) r.2 /\ has c (off + g_ps + 4) (sqlite3Put4byte (g_cks ck r.2)) /\ off + g_ps + 8 <= len c.
Proof using.
  intros Hr Hh. pose proof (rec_len ck r Hr) as Hlen. destruct Hr as (_ & _ & Hl). pose proof (proj1 Hh). rewrite Hlen in *. unfold rec_bytes in Hh. apply has_app in Hh as [Ha Hb]. apply has_app in Hb as [Hb Hc]. rewrite put4_len in *. rewrite Hl in Hc.
  replace (off + Z.of_nat 4 + g_ps) with (off + g_ps + 4) in Hc by lia. repeat split; try apply Ha; try apply Hb; try apply Hc. lia.
Qed.

Definition rec_read (j : Jrnl) (ck off : Z) (r : Z * list Z) (rc : Z) (j' : Jrnl) : Prop :=
  later j rc (j_io j') /\ pb1 j' /\ pr_cksumInit (j_p j') = ck /\
  (rc = SQLITE_OK /\ pr_journalOff (j_p j') = off + g_ps + 8 /\ j_fd j' = df_dos (j_fd j) [wr r] \/ rc <> SQLITE_OK /\ exists ops, j_fd j' = df_dos (j_fd j) ops /\ Forall (part r) ops).

Lemma one_page_spec j ck off r : pb1 j -> 0 <= off -> rec_ok r -> 0 <= ck < 2 ^ 32 -> pr_cksumInit (j_p j) = ck -> pr_journalOff (j_p j) = off -> has c off (rec_bytes ck r) ->
  post (pager_playback_one_page j) (rec_read j ck off r).
Proof using.
  intros Hp Hoff Hr Hck Ei Eo Hh. destruct (rec_fields off ck r Hr Hh) as (R1 & R2 & R3 & R4). pose proof Hp as [[H1 _ _ _ _ _ _ _] H7 H8]. pose proof Hr as (Hr1 & Hr2 & Hr3). pose proof g_ps_ok as [[P1 P2] _]. pose proof g_orig_ok as [O1 O2].
  assert (forall rc io, later j rc io -> rc <> SQLITE_OK -> rec_read j ck off r rc (with_io j io)) as Hfail.
  { intros rc io Hl Hn. split; [done|]. split; [by eapply pb1_io|]. split; [done|right]. split; [done|]. exists []. by rewrite dos_nil. }
  unfold pager_playback_one_page. rewrite Eo. destruct (read32_spec j off r.1) as (rc & x & io & -> & Hl & Hx); [lia..|by rewrite H1|]. cbn [mbind option_bind]. destruct (Z.eqb_spec rc SQLITE_OK) as [->|Hn]; cbn [negb]; [|by apply post_ret, Hfail].
  rewrite Hx by done. unfold j_read. cbn [j_p j_jfd with_io]. rewrite H1, H7. destruct (j_os_read_spec (with_io j io) c g_ps (off + 4)) as (rc & b & io2 & -> & Hl2 & Hb); [lia..|]. eapply (later_trans' j (with_io j io) (with_io j io2)) in Hl2; [|exact Hl]. cbn [j_io with_io] in Hl2.
  change (with_io (with_io j io) io2) with (with_io j io2). destruct (Z.eqb_spec rc SQLITE_OK) as [->|Hn]; cbn [negb]; [|by apply post_ret, Hfail]. rewrite Hb by done. replace (f_read c g_ps (off + 4)) with r.2 by (symmetry; rewrite <- Hr3; apply R2).
  set (j1 := set_p _ _). assert (pb1 j1 /\ pr_cksumInit (j_p j1) = ck /\ pr_journalOff (j_p j1) = off + g_ps + 8) as (B1 & B2 & B3).
  { pose proof (pb1_io _ _ _ Hp Hl2) as [[] ? ?]. unfold j1. cbn in *. rewrite H7. split; [|done]. split; [|done..]. split; done. }
  unfold PAGER_MJ_PGNO. rewrite (pb1_ps _ B1), (pb1_db _ B1). change (PENDING_BYTE / g_ps + 1) with g_mj. replace (r.1 =? 0) with false by (symmetry; apply Z.eqb_neq; lia). replace (r.1 =? g_mj) with false by (symmetry; by apply Z.eqb_neq).
  replace (g_orig <? r.1) with false by (symmetry; apply Z.ltb_ge; lia). cbn [orb]. cbn [j_p with_io]. rewrite H7. replace (off + g_ps + 8 - 4) with (off + g_ps + 4) by lia. destruct (g_cks_spec (j_p j1) r.2) as [C1 C2]; [apply B1|done|by rewrite B2|]. rewrite B2 in C1, C2.
  assert (later j SQLITE_OK (j_io j1)) as Hj1 by done. assert (j_fd j1 = j_fd j) as Hfd by done. clearbody j1.
  destruct (read32_spec j1 (off + g_ps + 4) (g_cks ck r.2)) as (rc & y & io3 & -> & Hl3 & Hy); [lia..|by rewrite (pb_jfd _ (pb1_pb _ B1))|]. cbn [mbind option_bind]. pose proof (pb1_io _ _ _ B1 Hl3) as B4.
  eapply (later_trans' j j1 (with_io j1 io3)) in Hl3; [|exact Hj1]. destruct (Z.eqb_spec rc SQLITE_OK) as [->|Hn]; cbn [negb].
  2:{ apply post_ret. split; [done|]. split; [done|]. split; [done|right]. split; [done|]. exists []. by rewrite dos_nil. }
  rewrite Hy by done. cbn [j_p with_io]. rewrite C1. cbn [mbind option_bind]. rewrite Z.eqb_refl. cbn [negb]. eapply post_mono; [apply (restore_spec _ ck); [done|lia|done|done|done]|].
  intros rc j' (K1 & K2 & K3 & K4 & o & K5 & K6 & K7). split; [by eapply later_trans'|]. split; [done|]. split; [done|]. destruct (decide (rc = SQLITE_OK)) as [->|Hn]; [left|right]; (split; [done|]).
  - split; [done|]. rewrite K5, K7 by done. cbn. by rewrite Hfd.
  - exists [o]. rewrite K5. cbn. rewrite Hfd. split; [done|]. by constructor.
Qed.

Lemma part_wr r : part r (wr r).
Proof using. exists (length r.2). by rewrite firstn_all. Qed.

Definition recs_read (j : Jrnl) (off : Z) (recs : list (Z * list Z)) (more : bool) (rc : Z) (j' : Jrnl) : Prop :=
  later j rc (j_io j') /\ pb1 j' /\
  (rc = SQLITE_OK /\ more = true /\ pr_journalOff (j_p j') = off + len recs * (g_ps + 8) /\ j_fd j' = df_dos (j_fd j) (wr <$> recs) \/
   rc <> SQLITE_OK /\ more = false /\ exists ops, j_fd j' = df_dos (j_fd j) ops /\ Forall (fun o => exists r, r ∈ recs /\ part r o) ops).

Lemma recs_spec recs j ck off b : pb1 j -> 0 <= off -> Forall rec_ok recs -> 0 <= ck < 2 ^ 32 -> pr_cksumInit (j_p j) = ck -> pr_journalOff (j_p j) = off -> recs_at c off ck recs ->
  exists more b' rc j', playback_recs (length recs) j (len c) b = Some (more, b', rc, j') /\ recs_read j off recs more rc j'.
Proof using.
  revert j off b. induction recs as [|r recs IH]; intros j off b Hp Hoff Hok Hck Ei Eo Hat.
  { eexists _, _, _, j. split; [done|]. split; [apply later_refl|]. split; [done|left]. split; [done|]. split; [done|]. cbn. rewrite dos_nil. split; [lia|done]. }
  apply Forall_cons in Hok as [Hr Hok]. destruct Hat as [Hh Hat]. pose proof g_ps_ok as [[P1 P2] _]. cbn [length playback_recs]. set (j0 := if b then _ else j).
  assert (pb1 j0 /\ j_io j0 = j_io j /\ j_fd j0 = j_fd j /\ pr_cksumInit (j_p j0) = ck /\ pr_journalOff (j_p j0) = off) as (A1 & A2 & A3 & A4 & A5).
  { unfold j0. destruct b; [|done]. destruct Hp as [[] ? ?]. split; [split; [by split|done..]|done]. }
  clearbody j0. destruct (one_page_spec j0 ck off r A1 Hoff Hr Hck A4 A5 Hh) as (rc & j1 & -> & L1 & B1 & B2 & B3). cbn [mbind option_bind]. destruct (sane_later _ _ _ (pb_sane _ (pb1_pb _ A1)) L1) as (_ & N1 & N2).
  assert (later j rc (j_io j1)) as L1' by (destruct L1; rewrite A2 in *; by split).
  destruct B3 as [(-> & B3 & B4)|(Hn & ops & B3 & B4)].
  - cbn [Z.eqb SQLITE_OK]. destruct (IH j1 (off + g_ps + 8) false) as (more & b' & rc & j2 & E & L2 & C1 & C2); [done|lia|done..|]. eexists _, _, rc, j2. split; [exact E|]. split; [by eapply later_trans'|]. split; [done|]. rewrite A3 in B4.
    destruct C2 as [(-> & -> & C3 & C4)|(Hn & -> & ops & C3 & C4)]; [left|right]; (split; [done|]); (split; [done|]).
    + rewrite C3, C4, B4, dos_dos. split; [|done]. cbn [length]. lia.
    + exists (wr r :: ops). rewrite C3, B4, dos_dos. split; [done|]. constructor; [exists r; split; [by apply elem_of_cons; left|apply part_wr]|]. eapply Forall_impl; [exact C4|]. intros o (r' & H & ?). exists r'. split; [by apply elem_of_cons; right|done].
  - rewrite (proj2 (Z.eqb_neq rc SQLITE_OK)), (proj2 (Z.eqb_neq rc SQLITE_DONE)), (proj2 (Z.eqb_neq rc SQLITE_IOERR_SHORT_READ)) by done. eexists _, _, rc, j1. split; [done|]. split; [done|]. split; [done|right]. split; [done|]. split; [done|]. exists ops. rewrite B3, A3. split; [done|].
    eapply Forall_impl; [exact B4|]. intros o ?. exists r. split; [by apply elem_of_cons; left|done].
Qed.

(** ** Headers *)

Lemma hdr_at_fields off ck n : has c off (jhdr_bytes ck n) ->
  has c off aJournalMagic /\ has c (off + 8) (sqlite3Put4byte n) /\ has c (off + 12) (sqlite3Put4byte ck) /\ has c (off + 16) (sqlite3Put4byte g_orig) /\ has c (off + 20) (sqlite3Put4byte g_sz) /\ has c (off + 24) (sqlite3Put4byte g_ps).
Proof using.
  unfold jhdr_bytes. rewrite !has_app, !length_app, !put4_len. change (length aJournalMagic) with 8%nat.
  replace (off + Z.of_nat (8 + 4)) with (off + 12) by lia. replace (off + 12 + Z.of_nat 4) with (off + 16) by lia. replace (off + 16 + Z.of_nat 4) with (off + 20) by lia. replace (off + 20 + Z.of_nat 4) with (off + 24) by lia. tauto.
Qed.

Lemma sizes_spec j : pb j -> has c 20 (sqlite3Put4byte g_sz) -> has c 24 (sqlite3Put4byte g_ps) -> pr_journalOff (j_p j) = 0 ->
  exists rc j', read_sizes j 0 = Some (rc, j') /\ later j rc (j_io j') /\ pb j' /\ j_fd j' = j_fd j /\ pr_cksumInit (j_p j') = pr_cksumInit (j_p j) /\ (rc = SQLITE_OK -> pr_pageSize (j_p j') = g_ps).
Proof using.
  intros Hp H20 H24 Ho. pose proof g_ps_ok as [[P1 P2] P3]. pose proof g_sz_ok as [[S1 S2] S3]. unfold MAX_SECTOR_SIZE, SQLITE_MAX_PAGE_SIZE in *. unfold read_sizes.
  destruct (read32_spec j (0 + 20) g_sz) as (rc & x & io & -> & Hl & Hx); [lia..|by rewrite (pb_jfd _ Hp)|]. cbn [mbind option_bind]. pose proof (pb_io _ _ _ Hp Hl) as Hp1. destruct (Z.eqb_spec rc SQLITE_OK) as [->|Hn]; cbn [negb]; [rewrite Hx by done|by eexists _, _].
  destruct (read32_spec (with_io j io) (0 + 24) g_ps) as (rc & y & io2 & -> & Hl2 & Hy); [lia..|by rewrite (pb_jfd _ Hp1)|]. cbn [mbind option_bind]. pose proof (pb_io _ _ _ Hp1 Hl2) as Hp2. eapply (later_trans' j (with_io j io) (with_io j io2)) in Hl2; [|exact Hl].
  change (with_io (with_io j io) io2) with (with_io j io2) in *. destruct (Z.eqb_spec rc SQLITE_OK) as [->|Hn]; cbn [negb]; [rewrite Hy by done|by eexists _, _].
  replace (g_ps =? 0) with false by (symmetry; apply Z.eqb_neq; lia). rewrite P3, S3. replace (g_ps <? 512) with false by lia. replace (g_sz <? 32) with false by lia. replace (SQLITE_MAX_PAGE_SIZE <? g_ps) with false by (unfold SQLITE_MAX_PAGE_SIZE; lia). replace (MAX_SECTOR_SIZE <? g_sz) with false by (unfold MAX_SECTOR_SIZE; lia).
  cbn [orb negb]. unfold sqlite3PagerSetPagesize. replace (g_ps =? 0) with false by lia. replace (512 <=? g_ps) with true by lia. replace (g_ps <=? SQLITE_MAX_PAGE_SIZE) with true by (unfold SQLITE_MAX_PAGE_SIZE; lia). cbn [orb andb negb assert_ mbind option_bind].
  rewrite (pb_open _ Hp2). cbn [j_p with_io]. change (PAGER_OPEN <? PAGER_OPEN) with false. destruct (Z.eqb_spec g_ps (pr_pageSize (j_p j))) as [He|Hne]; cbn [negb].
  - cbn [mbind option_bind]. eexists _, _. split; [done|]. destruct Hp2. split; [done|]. split; [|done]. by split.
  - unfold jthen at 1. cbn [mbind option_bind Z.eqb SQLITE_OK]. destruct (j_call_spec (with_io j io2)) as (rc & ? & -> & io3 & -> & Hl3). pose proof (pb_io _ _ _ Hp2 Hl3) as Hp3. eapply (later_trans' j (with_io j io2) (with_io j io3)) in Hl3; [|exact Hl2]. unfold jthen. cbn [mbind option_bind].
    destruct (Z.eqb_spec rc SQLITE_OK) as [->|Hn]; cbn [mbind option_bind]; (eexists _, _; split; [done|]; destruct Hp3; split; [done|]; split; [|done]; by split).
Qed.

Lemma pb_pos j off : pb j -> pb (set_p j (pr_pos (j_p j) off (pr_journalHdr (j_p j)))).
Proof using. intros []. by split. Qed.

(** The magic number and the three fields *)
Lemma magic_spec j off : pb j -> 0 <= off -> off + 8 <= len c ->
  exists rc b io, j_read j 8 off = (rc, b, with_io j io) /\ later j rc io /\ pb (with_io j io) /\ (rc = SQLITE_OK -> b = aJournalMagic <-> has c off aJournalMagic).
Proof using.
  intros Hp Ho Hl. unfold j_read. rewrite (pb_jfd _ Hp). destruct (j_os_read_spec j c 8 off Ho Hl) as (rc & b & io & -> & Hla & Hb). exists rc, b, io. split; [done|]. split; [done|]. split; [by eapply pb_io|]. intros Hrc. rewrite (Hb Hrc). unfold has. change (len aJournalMagic) with 8. tauto.
Qed.

Definition hdr_read (j : Jrnl) (off : Z) (s : seg) (rc : Z) (j' : Jrnl) (n m : Z) : Prop :=
  later j rc (j_io j') /\ pb j' /\ j_fd j' = j_fd j /\
  (rc = SQLITE_OK -> n = len s.2 /\ m = g_orig /\ pr_cksumInit (j_p j') = s.1 /\ pr_journalOff (j_p j') = off + g_sz /\ pr_pageSize (j_p j') = g_ps /\ (off <> 0 -> pr_dbSize (j_p j') = g_orig)).

Lemma hdr_spec j off s : pb j -> 0 <= off -> (off <> 0 -> pb1 j) -> 0 <= pr_journalOff (j_p j) -> align (pr_journalOff (j_p j)) = off -> jseg_ok s -> seg_at c off s ->
  exists rc j' n m, readJournalHdr j true (len c) = Some (rc, j', n, m) /\ hdr_read j off s rc j' n m.
Proof using.
  intros Hp Hoff Hp1 Hjo Hal (Hs1 & Hs2 & Hs3) (Hh & Hend & _). pose proof g_ps_ok as [[P1 P2] _]. pose proof g_sz_ok as [[S1 S2] _]. pose proof g_orig_ok as [O1 O2]. assert (off + g_sz <= len c) as Hsz by (unfold seg_end in Hend; nia).
  destruct (hdr_at_fields off s.1 (len s.2) Hh) as (F1 & F2 & F3 & F4 & F5 & F6). unfold readJournalHdr. rewrite (hdr_offset _ (pb_sz _ Hp)), Hal by done. cbn [mbind option_bind]. set (j0 := set_p j _). assert (pb j0) as Hp0 by by apply pb_pos. assert (off <> 0 -> pb1 j0) as Hp01 by (intros Hn; destruct (Hp1 Hn); split; done).
  assert (j_io j0 = j_io j /\ j_fd j0 = j_fd j /\ pr_journalOff (j_p j0) = off) as (A1 & A2 & A3) by done. unfold JOURNAL_HDR_SZ at 1. rewrite (pb_sz _ Hp0). clearbody j0. replace (len c <? off + g_sz) with false by lia. cbn [orb].
  assert (forall rc io, later j0 rc io -> later j rc io) as Hlj by (intros rc io []; rewrite A1 in *; by split).
  destruct (magic_spec j0 off) as (rc & b & io & -> & L1 & Q1 & Hb); [done|lia..|]. destruct (Z.eqb_spec rc SQLITE_OK) as [->|Hn]; cbn [negb].
  2:{ rewrite (proj2 (Z.eqb_neq rc SQLITE_OK)) by done. cbn [negb]. eexists _, _, _, _. split; [done|]. split; [by apply Hlj|]. split; [done|]. by split. }
  rewrite bool_decide_true by by apply Hb. cbn [Z.eqb SQLITE_OK negb].
  destruct (read32_spec (with_io j0 io) (off + 8) (len s.2)) as (rc & x & io2 & -> & L2 & Hx); [lia..|by rewrite (pb_jfd _ Q1)|]. cbn [mbind option_bind]. pose proof (pb_io _ _ _ Q1 L2) as Q2. eapply (later_trans' j0 (with_io j0 io) (with_io j0 io2)) in L2; [|exact L1]. change (with_io (with_io j0 io) io2) with (with_io j0 io2) in *.
  destruct (Z.eqb_spec rc SQLITE_OK) as [->|Hn]; cbn [negb]; [|eexists _, _, _, _; split; [done|]; split; [by apply Hlj|]; split; [done|]; by split]. rewrite Hx by done.
  destruct (read32_spec (with_io j0 io2) (off + 12) s.1) as (rc & ck & io3 & -> & L3 & Hck); [lia..|by rewrite (pb_jfd _ Q2)|]. cbn [mbind option_bind]. pose proof (pb_io _ _ _ Q2 L3) as Q3. eapply (later_trans' j0 (with_io j0 io2) (with_io j0 io3)) in L3; [|exact L2]. change (with_io (with_io j0 io2) io3) with (with_io j0 io3) in *.
  destruct (Z.eqb_spec rc SQLITE_OK) as [->|Hn]; cbn [negb]; [|eexists _, _, _, _; split; [done|]; split; [by apply Hlj|]; split; [done|]; by split]. rewrite Hck by done. cbn [j_p with_io].
  set (j4 := set_p (with_io j0 io3) _). assert (pb j4 /\ (off <> 0 -> pb1 j4) /\ j_fd j4 = j_fd j /\ pr_cksumInit (j_p j4) = s.1 /\ pr_journalOff (j_p j4) = off /\ later j SQLITE_OK (j_io j4)) as (Q4 & Q4' & B1 & B2 & B3 & L4).
  { split; [destruct Q3; by split|]. split; [intros Hn; destruct (Hp01 Hn), Q3; split; [by split|done..]|]. split; [done|]. split; [done|]. split; [done|]. by apply Hlj. }
  clearbody j4. destruct (read32_spec j4 (off + 16) g_orig) as (rc & y & io5 & -> & L5 & Hy); [lia..|by rewrite (pb_jfd _ Q4)|]. cbn [mbind option_bind]. pose proof (pb_io _ _ _ Q4 L5) as Q5. eapply (later_trans' j j4 (with_io j4 io5)) in L5; [|exact L4].
  destruct (Z.eqb_spec rc SQLITE_OK) as [->|Hn]; cbn [negb]; [|eexists _, _, _, _; split; [done|]; split; [done|]; split; [done|]; by split]. rewrite Hy by done. destruct (Z.eqb_spec off 0) as [->|Hne].
  - destruct (sizes_spec (with_io j4 io5)) as (rc & j6 & -> & L6 & Q6 & D1 & D2 & D3); [done..|]. cbn [mbind option_bind]. destruct (sane_later _ _ _ (pb_sane _ Q5) L6) as (_ & N1 & _). rewrite (proj2 (Z.eqb_neq rc SQLITE_DONE)) by done.
    eexists _, _, _, _. split; [done|]. split; [by eapply later_trans'|]. split; [by apply pb_pos|]. split; [by rewrite <- B1|]. intros ->. unfold JOURNAL_HDR_SZ. rewrite (pb_sz _ Q6). cbn. rewrite D2. repeat split; [done|by apply D3|done].
  - cbn [mbind option_bind Z.eqb SQLITE_OK SQLITE_DONE]. change (0 =? SQLITE_DONE) with false. cbn iota. eexists _, _, _, _. split; [done|]. split; [done|]. split; [by apply (pb_pos (with_io j4 io5))|]. split; [done|]. intros _. unfold JOURNAL_HDR_SZ. cbn. rewrite (pb_sz _ Q4). destruct (Q4' Hne) as [_ E1 E2]. repeat split; done.
Qed.

(** Where no header starts, the playback ends. *)
Lemma no_hdr_spec j off : pb j -> 0 <= off -> 0 <= pr_journalOff (j_p j) -> align (pr_journalOff (j_p j)) = off -> no_hdr c off ->
  exists rc j' n m, readJournalHdr j true (len c) = Some (rc, j', n, m) /\ later j (if rc =? SQLITE_DONE then SQLITE_OK else rc) (j_io j') /\ rc <> SQLITE_OK /\ pb j' /\ j_fd j' = j_fd j.
Proof using.
  intros Hp Hoff Hjo Hal Hno. unfold readJournalHdr. rewrite (hdr_offset _ (pb_sz _ Hp)), Hal by done. cbn [mbind option_bind]. set (j0 := set_p j _). assert (pb j0) as Hp0 by by apply pb_pos. pose proof g_sz_ok as [[S1 S2] _].
  unfold JOURNAL_HDR_SZ at 1. rewrite (pb_sz _ Hp0). destruct (Z.ltb_spec (len c) (off + g_sz)) as [Hlt|Hge]; [eexists _, _, _, _; split; [done|]; split; [apply (later_refl j)|done]|]. cbn [orb].
  destruct (magic_spec j0 off) as (rc & b & io & -> & L1 & Q1 & Hb); [done|lia..|]. destruct (sane_later _ _ _ (pb_sane _ Hp0) L1) as (_ & N1 & _). destruct (Z.eqb_spec rc SQLITE_OK) as [->|Hn]; cbn [negb].
  - rewrite bool_decide_false by (rewrite Hb by done; done). cbn [negb]. eexists _, _, _, _. split; [done|]. split; [|done]. split; [apply L1|by left].
  - rewrite (proj2 (Z.eqb_neq rc SQLITE_OK)) by done. cbn [negb]. eexists _, _, _, _. split; [done|]. rewrite (proj2 (Z.eqb_neq rc SQLITE_DONE)) by done. done.
Qed.

(** ** The loop over the headers *)

Definition all_recs (segs : list seg) : list (Z * list Z) := concat (segs.*2).

(** Writes of a playback: the truncation, and parts of records *)
Definition redo (segs : list seg) (o : FOp) : Prop := segs <> [] /\ o = FTrunc (g_ps * g_orig) \/ exists r, r ∈ all_recs segs /\ part r o.

(** The whole of them *)
Definition cut (d : list Z) : list FOp := if len d =? g_ps * g_orig then [] else [FTrunc (g_ps * g_orig)].
Definition redo_all (d : list Z) (segs : list seg) : list FOp := match segs with [] => [] | _ => cut d ++ (wr <$> all_recs segs) end.

Definition played (j : Jrnl) (segs : list seg) (all : list FOp) (rc : Z) (j' : Jrnl) : Prop :=
  later j rc (j_io j') /\ pb j' /\ exists ops, j_fd j' = df_dos (j_fd j) ops /\ Forall (redo segs) ops /\ (rc = SQLITE_OK -> ops = all).

Lemma redo_mono s segs o : redo segs o -> redo (s :: segs) o.
Proof using. intros [[_ ->]|(r & Hr & Ho)]; [by left|right]. exists r. split; [|done]. apply elem_of_app. by right. Qed.

Lemma redo_head s segs ops : Forall (fun o => exists r, r ∈ s.2 /\ part r o) ops -> Forall (redo (s :: segs)) ops.
Proof using. intros H. eapply Forall_impl; [exact H|]. intros o (r & Hr & Ho). right. exists r. split; [|done]. apply elem_of_app. by left. Qed.

Lemma redo_wr s segs : Forall (redo (s :: segs)) (wr <$> s.2).
Proof using. apply redo_head, Forall_fmap, Forall_forall. intros r Hr. exists r. split; [done|apply part_wr]. Qed.

(** The segments after the first *)
Lemma loop_spec segs fuel j off b : (length segs < fuel)%nat -> pb j -> 0 < off -> (segs <> [] -> pb1 j) -> 0 <= pr_journalOff (j_p j) -> align (pr_journalOff (j_p j)) = off -> Forall jseg_ok segs -> segs_at c off segs -> no_hdr c (segs_end off segs) ->
  post (playback_loop fuel j true (len c) b) (played j segs (wr <$> all_recs segs)).
Proof using.
  revert fuel j off b. induction segs as [|s segs IH]; intros fuel j off b Hf Hp Hoff Hp1 Hjo Hal Hok Hat Hno; destruct fuel as [|fuel]; try (cbn in Hf; lia); cbn [playback_loop].
  { destruct (no_hdr_spec j off) as (rc & j' & n & m & -> & L & Hn & Q & Hfd); [done|lia|done..|]. cbn [mbind option_bind]. rewrite (proj2 (Z.eqb_neq rc SQLITE_OK)) by done. cbn [negb]. apply post_ret. split; [done|]. split; [done|]. exists []. rewrite dos_nil, Hfd. done. }
  apply Forall_cons in Hok as [Hs Hok]. destruct Hat as [Ha Hat]. pose proof g_sz_ok as [[S1 S2] _]. pose proof g_ps_ok as [[P1 P2] _]. specialize (Hp1 ltac:(done)).
  destruct (hdr_spec j off s) as (rc & j1 & n & m & -> & L1 & Q1 & Hfd & Hdr); [done|lia|done..|]. cbn [mbind option_bind]. destruct (Z.eqb_spec rc SQLITE_OK) as [->|Hn]; cbn [negb].
  2:{ destruct (sane_later _ _ _ (pb_sane _ Hp) L1) as (_ & N1 & _). rewrite (proj2 (Z.eqb_neq rc SQLITE_DONE)) by done. apply post_ret. split; [done|]. split; [done|]. exists []. rewrite dos_nil, Hfd. done. }
  destruct (Hdr eq_refl) as (-> & -> & D1 & D2 & D3 & D4). pose proof Hs as (Hs1 & Hs2 & Hs3). unfold playback_count. replace (len s.2 =? 0xffffffff) with false by lia. cbn [mbind option_bind negb]. rewrite andb_false_r. cbn [andb mbind option_bind].
  unfold JOURNAL_HDR_SZ. rewrite D2, (pb_sz _ Q1). replace (off + g_sz =? g_sz) with false by lia. cbn [mbind option_bind]. change (negb (SQLITE_OK =? SQLITE_OK)) with false. cbn iota. rewrite Nat2Z.id.
  destruct (recs_spec s.2 j1 s.1 (off + g_sz) b) as (more & b' & rc & j2 & -> & L2 & R1 & R2); [split; [done..|by apply D4; lia]|lia|done..|apply Ha|]. cbn [mbind option_bind]. destruct R2 as [(-> & -> & R2 & R3)|(Hn & -> & ops & R2 & R3)].
  - eapply post_mono; [apply (IH fuel j2 (align (seg_end off s)) b'); [cbn in Hf; lia|apply R1| |done| | |done..]|].
    + assert (0 < seg_end off s) as Hpos by (unfold seg_end; nia). pose proof (align_spec (seg_end off s) (Z.lt_le_incl _ _ Hpos)). lia.
    + rewrite R2. nia.
    + by rewrite R2.
    + intros rc j3 (L3 & Q3 & ops & E1 & E2 & E3). split; [eapply later_trans'; [exact L1|by eapply later_trans']|]. split; [done|]. exists ((wr <$> s.2) ++ ops). rewrite E1, R3, Hfd, dos_dos. split; [done|]. split.
      * apply Forall_app. split; [apply redo_wr|]. eapply Forall_impl; [exact E2|]. intros. by apply redo_mono.
      * intros Hrc. rewrite (E3 Hrc). unfold all_recs. cbn. by rewrite fmap_app.
  - apply post_ret. split; [by eapply later_trans'|]. split; [apply R1|]. exists ops. rewrite R2, Hfd. split; [done|]. split; [by apply redo_head|done].
Qed.

(** ** pager_playback *)

Lemma segs_count segs off : 0 <= off -> segs_at c off segs -> segs <> [] -> off + len segs <= len c.
Proof using.
  revert off. induction segs as [|s segs IH]; intros off Ho Hat Hne; [done|]. destruct Hat as [(_ & Hend & _) Hat]. pose proof g_sz_ok as [[S1 S2] _]. pose proof g_ps_ok as [[P1 P2] _]. assert (off + 32 <= seg_end off s) as He by (unfold seg_end; nia).
  destruct segs as [|s' segs]; [cbn; lia|]. assert (0 <= seg_end off s) as H0 by lia. pose proof (align_spec _ H0) as (A1 & _). assert (0 <= align (seg_end off s)) as H1 by lia. specialize (IH _ H1 Hat ltac:(done)). cbn [length] in *. lia.
Qed.

Lemma pager_truncate_spec j : pb j -> pr_pageSize (j_p j) = g_ps -> g_ps * g_orig <= len (df_data (j_fd j)) ->
  post (pager_truncate j g_orig) (fun rc j' => later j rc (j_io j') /\ pb j' /\ pr_pageSize (j_p j') = g_ps /\ pr_cksumInit (j_p j') = pr_cksumInit (j_p j) /\ pr_journalOff (j_p j') = pr_journalOff (j_p j) /\
    exists ops, j_fd j' = df_dos (j_fd j) ops /\ Forall (fun o => o = FTrunc (g_ps * g_orig)) ops /\ (rc = SQLITE_OK -> ops = cut (df_data (j_fd j)))).
Proof using.
  intros Hp Hps Hlen. unfold pager_truncate. rewrite (pb_open _ Hp), Hps. change ((PAGER_WRITER_DBMOD <=? PAGER_OPEN) || (PAGER_OPEN =? PAGER_OPEN)) with true. cbn iota.
  eapply post_then; [apply j_call_spec| |].
  2:{ intros rc j' Hn (io & -> & Hl). split; [done|]. split; [by eapply pb_io|]. do 3 (split; [done|]). exists []. by rewrite dos_nil. }
  intros ? (io & -> & Hl). cbn [j_fd with_io]. pose proof (pb_io _ _ _ Hp Hl) as Hp1. unfold cut. destruct (Z.eqb_spec (len (df_data (j_fd j))) (g_ps * g_orig)) as [He|Hne]; cbn [negb].
  { apply post_ret. split; [done|]. split; [done|]. do 3 (split; [done|]). exists []. by rewrite dos_nil. }
  replace (g_ps * g_orig <? len (df_data (j_fd j))) with true by lia. unfold j_trunc_db. destruct (j_next_spec (with_io j io)) as (rc & n & io2 & -> & Hl2). pose proof (pb_io _ _ _ Hp1 Hl2) as Hp2. eapply (later_trans' j (with_io j io) (with_io j io2)) in Hl2; [|exact Hl].
  unfold jthen. cbn [mbind option_bind]. destruct (Z.eqb_spec rc SQLITE_OK) as [->|Hn]; (apply post_ret; split; [done|]; split; [destruct Hp2; by split|]; do 3 (split; [done|])).
  - eexists. split; [done|]. by split; [constructor|].
  - exists []. by rewrite dos_nil.
Qed.

Lemma first_spec segs fuel j : (length segs < fuel)%nat -> pb j -> pr_journalOff (j_p j) = 0 -> Forall jseg_ok segs -> jrnl_at c segs -> g_ps * g_orig <= len (df_data (j_fd j)) ->
  post (playback_loop fuel j true (len c) true) (played j segs (redo_all (df_data (j_fd j)) segs)).
Proof using.
  intros Hf Hp Hjo Hok [Hat Hno] Hlen. pose proof g_sz_ok as [[S1 S2] _]. pose proof g_ps_ok as [[P1 P2] _]. destruct fuel as [|fuel]; [lia|]. cbn [playback_loop]. destruct segs as [|s segs].
  { destruct (no_hdr_spec j 0) as (rc & j' & n & m & -> & L & Hn & Q & Hfd); [done|lia|lia|by rewrite Hjo|done|]. cbn [mbind option_bind]. rewrite (proj2 (Z.eqb_neq rc SQLITE_OK)) by done. cbn [negb]. apply post_ret. split; [done|]. split; [done|]. exists []. by rewrite dos_nil, Hfd. }
  apply Forall_cons in Hok as [Hs Hok]. destruct Hat as [Ha Hat]. destruct (hdr_spec j 0 s) as (rc & j1 & n & m & -> & L1 & Q1 & Hfd & Hdr); [done|lia|done|lia|by rewrite Hjo|done..|]. cbn [mbind option_bind]. destruct (Z.eqb_spec rc SQLITE_OK) as [->|Hn]; cbn [negb].
  2:{ destruct (sane_later _ _ _ (pb_sane _ Hp) L1) as (_ & N1 & _). rewrite (proj2 (Z.eqb_neq rc SQLITE_DONE)) by done. apply post_ret. split; [done|]. split; [done|]. exists []. rewrite dos_nil, Hfd. done. }
  destruct (Hdr eq_refl) as (-> & -> & D1 & D2 & D3 & _). pose proof Hs as (Hs1 & Hs2 & Hs3). unfold playback_count. replace (len s.2 =? 0xffffffff) with false by lia. cbn [mbind option_bind negb]. rewrite andb_false_r. cbn [andb mbind option_bind].
  unfold JOURNAL_HDR_SZ. rewrite D2, (pb_sz _ Q1). rewrite Z.add_0_l, Z.eqb_refl. destruct (pager_truncate_spec j1 Q1 D3) as (rc & j2 & E & L2 & Q2 & T1 & T2 & T3 & ops & T4 & T5 & T6); [by rewrite Hfd|]. unfold jthen. rewrite E. clear E. cbn [mbind option_bind].
  assert (Forall (redo (s :: segs)) ops) as Hops by (eapply Forall_impl; [exact T5|]; intros o ->; by left). assert (later j rc (j_io j2)) as L2' by by eapply later_trans'. rewrite Hfd in T4, T6.
  destruct (Z.eqb_spec rc SQLITE_OK) as [->|Hn]; cbn [mbind option_bind]; [|rewrite (proj2 (Z.eqb_neq rc SQLITE_OK)) by done; cbn [negb]; apply post_ret; split; [done|]; split; [done|]; exists ops; done].
  change (negb (SQLITE_OK =? SQLITE_OK)) with false. cbn iota. rewrite Nat2Z.id. set (j3 := set_p j2 _). assert (pb1 j3) as Q3 by (destruct Q2; split; [by split|done..]).
  destruct (recs_spec s.2 j3 s.1 g_sz true) as (more & b' & rc & j4 & -> & L4 & R1 & R2); [done|lia|done|done|cbn; congruence|cbn; rewrite T3, D2; lia|apply Ha|]. cbn [mbind option_bind]. eapply (later_trans' j j2) in L4; [|exact L2']. destruct R2 as [(-> & -> & R2 & R3)|(Hn & -> & ops2 & R2 & R3)].
  - assert (0 < seg_end 0 s) as Hpos by (unfold seg_end; nia). pose proof (align_spec (seg_end 0 s) (Z.lt_le_incl _ _ Hpos)).
    eapply post_mono; [apply (loop_spec segs fuel j4 (align (seg_end 0 s)) b'); [cbn in Hf; lia|apply R1|lia|done|rewrite R2; nia|by rewrite R2; unfold seg_end; rewrite Z.add_0_l|done..]|].
    intros rc j5 (L5 & Q5 & ops2 & E1 & E2 & E3). split; [by eapply later_trans'|]. split; [done|]. exists (ops ++ (wr <$> s.2) ++ ops2). rewrite E1, R3. change (j_fd j3) with (j_fd j2). rewrite T4, !dos_dos. split; [done|]. split.
    + apply Forall_app. split; [done|]. apply Forall_app. split; [apply redo_wr|]. eapply Forall_impl; [exact E2|]. intros. by apply redo_mono.
    + intros Hrc. rewrite (E3 Hrc), T6 by done. unfold redo_all, all_recs. cbn. by rewrite fmap_app.
  - apply post_ret. split; [done|]. split; [apply R1|]. exists (ops ++ ops2). rewrite R2. change (j_fd j3) with (j_fd j2). rewrite T4, dos_dos. split; [done|]. split; [|done]. apply Forall_app. split; [done|by apply redo_head].
Qed.

Lemma main_spec segs j : pb j -> Forall jseg_ok segs -> jrnl_at c segs -> no_master c -> g_ps * g_orig <= len (df_data (j_fd j)) ->
  post (pager_playback_main j true) (played j segs (redo_all (df_data (j_fd j)) segs)).
Proof using.
  intros Hp Hok Hat Hm Hlen. unfold pager_playback_main. eapply post_then; [apply j_call_spec| |].
  2:{ intros rc j' Hn (io & -> & Hl). split; [done|]. split; [by eapply pb_io|]. exists []. by rewrite dos_nil. }
  intros ? (io & -> & Hl). pose proof (pb_io _ _ _ Hp Hl) as Hp1. destruct (read_master (with_io j io)) as (rc & io2 & -> & Hl2); [by rewrite (pb_jfd _ Hp1)|]. pose proof (pb_io _ _ _ Hp1 Hl2) as Hp2. eapply (later_trans' j (with_io j io) (with_io j io2)) in Hl2; [|exact Hl].
  cbn [mbind option_bind]. destruct (Z.eqb_spec rc SQLITE_OK) as [->|Hn]; cbn [negb andb].
  2:{ apply post_ret. split; [done|]. split; [done|]. exists []. by rewrite dos_nil. }
  unfold jthen. cbn [mbind option_bind Z.eqb SQLITE_OK]. change (with_io (with_io j io) io2) with (with_io j io2) in *. rewrite (pb_jfd _ Hp1), (pb_jfd _ Hp2). eapply post_mono; [apply (first_spec segs); [|by apply pb_pos|done..]|].
  - destruct segs as [|s segs]; [cbn; lia|]. destruct Hat as [Hat _]. pose proof (segs_count (s :: segs) 0 (Z.le_refl 0) Hat ltac:(done)). cbn [length] in *. lia.
  - intros rc j' (L & Q & ops & H1 & H2 & H3). split; [by eapply (later_trans' j (with_io j io2))|]. split; [done|]. by exists ops.
Qed.
End Replay.
