(* ===== verification/JournalRestore.v ===== *)
(** * JournalRestore: a playback restores the database (pager.c)

    If the pages that differ from their old content have their old content in the journal,
    a playback restores the database file; if it fails, or if a crash interrupts it, the
    next one can still do so. *)
From S2P Require Import Prelude Varint Record Page PageLayout PageCells Wal WalLog WalSpec UnixLock WalCkpt WalFile Journal PagerTxn JournalFile JournalPlay JournalReplay.

Section Restore.
Context {G : Geom} (d0 : list Z) (Hd0 : len d0 = g_ps * g_orig).

(** The records hold the old content of their pages. *)
Definition old_rec (r : Z * list Z) : Prop := rec_ok r /\ r.2 = db_page g_ps d0 r.1.
Definition old_seg (s : seg) : Prop := jseg_ok s /\ Forall old_rec s.2.

(** The bytes of pages without a record are the old ones. *)
Definition near (recs : list (Z * list Z)) (d : list Z) : Prop :=
  g_ps * g_orig <= len d /\ forall i, 0 <= i < g_ps * g_orig -> i / g_ps + 1 ∉ recs.*1 -> db_byte d i = db_byte d0 i.

(** A playback can restore the old content. *)
Definition recoverable (cj cd : list Z) : Prop :=
  exists segs, Forall old_seg segs /\ jrnl_at cj segs /\ near (all_recs segs) cd /\ (segs = [] -> cd = d0).

Lemma old_page_byte p k : 1 <= p <= g_orig -> 0 <= k < g_ps -> db_byte (db_page g_ps d0 p) k = db_byte d0 ((p - 1) * g_ps + k).
Proof using. intros Hp Hk. by rewrite <- f_read_page, f_read_byte. Qed.

(** Writing a part of a record changes bytes of its page, to their old content. *)
Lemma part_byte r m d i : old_rec r -> 0 <= i -> db_byte (file_write d ((r.1 - 1) * g_ps) (take m r.2)) i = db_byte d i \/ i / g_ps + 1 = r.1 /\ db_byte (file_write d ((r.1 - 1) * g_ps) (take m r.2)) i = db_byte d0 i.
Proof using.
  intros ((H1 & H2 & H3) & H4) Hi. pose proof g_ps_ok as [[P1 P2] _]. rewrite db_byte_write by nia. case_decide as Hd; [right|by left]. rewrite length_take in Hd. assert (0 <= i - (r.1 - 1) * g_ps < g_ps) as Hk by lia. split.
  - replace i with ((r.1 - 1) * g_ps + (i - (r.1 - 1) * g_ps)) by lia. rewrite Z.div_add_l, Z.div_small by lia. lia.
  - transitivity (db_byte r.2 (i - (r.1 - 1) * g_ps)).
    + unfold db_byte, aget. rewrite !decide_True by lia. by rewrite lookup_take_lt by lia.
    + rewrite H4, old_page_byte by lia. f_equal. lia.
Qed.

Lemma redo_near segs d o : Forall old_rec (all_recs segs) -> redo segs o -> near (all_recs segs) d -> near (all_recs segs) (f_apply d o).
Proof using Hd0.
  intros Hold [[_ ->]|(r & Hr & m & ->)] [Hl Hb]; cbn [f_apply]; pose proof g_ps_ok as [[P1 P2] _]; pose proof g_orig_ok as [O1 O2].
  - split; [rewrite length_app, length_take, length_replicate; lia|]. intros i Hi Hn. rewrite <- Hb by done. unfold db_byte, aget. rewrite !decide_True by lia. rewrite lookup_app_l, lookup_take_lt by (rewrite ?length_take; lia). done.
  - rewrite Forall_forall in Hold. specialize (Hold r Hr). split; [pose proof (len_write_le d ((r.1 - 1) * g_ps) (take m r.2)); destruct Hold as [(? & ? & ?) _]; nia|].
    intros i Hi Hn. destruct (part_byte r m d i Hold ltac:(lia)) as [->|[Hp _]]; [by apply Hb|]. destruct Hn. rewrite Hp. by apply list_elem_of_fmap_2.
Qed.

Lemma redos_near segs ops d : Forall old_rec (all_recs segs) -> Forall (redo segs) ops -> near (all_recs segs) d -> near (all_recs segs) (fold_left f_apply ops d).
Proof using Hd0.
  intros Hold. revert d. induction ops as [|o ops IH]; intros d Ho Hn; [done|]. apply Forall_cons in Ho as [Ho Hos]. cbn. apply IH; [done|]. by apply redo_near.
Qed.

Lemma redos_always segs f ops : Forall old_rec (all_recs segs) -> Forall (redo segs) ops -> always f (near (all_recs segs)) -> always (df_dos f ops) (near (all_recs segs)).
Proof using Hd0.
  intros Hold. revert f. induction ops as [|o ops IH]; intros f Ho Hn; [by rewrite dos_nil|]. apply Forall_cons in Ho as [Ho Hos]. change (o :: ops) with ([o] ++ ops). rewrite <- dos_dos. apply IH; [done|]. change (df_dos f [o]) with (df_do f o). apply always_do; [done|]. apply redo_near; [done..|]. by apply always_data.
Qed.

(** The whole of a playback *)
Lemma wr_restores recs d : Forall old_rec recs -> len d = g_ps * g_orig -> near recs d -> fold_left f_apply (wr <$> recs) d = d0.
Proof using Hd0.
  revert d. induction recs as [|r recs IH]; intros d Hold Hl [_ Hb].
  { cbn. apply bytes_eq; [lia|]. intros i Hi. apply Hb; [lia|apply not_elem_of_nil]. }
  apply Forall_cons in Hold as [Hr Hold]. cbn. pose proof Hr as ((H1 & H2 & H3) & _). pose proof g_ps_ok as [[P1 P2] _]. assert (len (file_write d ((r.1 - 1) * g_ps) r.2) = g_ps * g_orig) as Hl' by (rewrite len_write by nia; case_decide; nia).
  apply IH; [done..|]. split; [lia|]. intros i Hi Hn. destruct (part_byte r (length r.2) d i Hr ltac:(lia)) as [E|[E1 E2]]; rewrite firstn_all in *; [|done]. destruct (decide (i / g_ps + 1 = r.1)) as [Hp|Hp].
  - assert (g_ps <> 0 /\ 0 < g_ps) as [Hz Hpos] by lia. pose proof (Z.div_mod i _ Hz). pose proof (Z.mod_pos_bound i _ Hpos). rewrite db_byte_write by nia. rewrite decide_True by nia. destruct Hr as [_ ->]. rewrite old_page_byte by nia. f_equal. lia.
  - rewrite E. apply Hb; [done|]. cbn. rewrite not_elem_of_cons. done.
Qed.

Lemma redo_restores segs d : Forall old_rec (all_recs segs) -> segs <> [] -> near (all_recs segs) d -> fold_left f_apply (redo_all d segs) d = d0.
Proof using Hd0.
  intros Hold Hne Hn. unfold redo_all. destruct segs as [|s segs]; [done|]. rewrite fold_left_app. pose proof g_ps_ok as [[P1 P2] _]. pose proof g_orig_ok as [O1 O2]. unfold cut. destruct (Z.eqb_spec (len d) (g_ps * g_orig)) as [He|Hne'].
  - by apply wr_restores.
  - cbn [fold_left]. apply wr_restores; [done| |].
    + cbn [f_apply]. rewrite length_app, length_take, length_replicate. destruct Hn. lia.
    + apply redo_near; [done|by left|done].
Qed.

(** ** Recovery *)

(** Whatever a crash leaves of the files can be restored. *)
Definition safe (j : Jrnl) : Prop := forall cj cd, crash_of (j_jfd j) cj -> crash_of (j_fd j) cd -> recoverable cj cd.

Lemma crash_near recs f c : always f (near recs) -> crash_of f c -> near recs c.
Proof using.
  intros H Hc. split.
  - apply (crash_len f c (fun n => g_ps * g_orig <= n) Hc). intros k. apply H.
  - intros i Hi Hn. apply (crash_byte f c i (fun b => b = db_byte d0 i) Hc ltac:(lia)). intros k. by apply H.
Qed.

Lemma near_refl recs : near recs d0.
Proof using Hd0. split; [by rewrite Hd0|done]. Qed.

Lemma no_journal : recoverable [] d0.
Proof using Hd0.
  exists []. split; [done|]. split; [split; [done|]|split; [|done]].
  - intros [H _]. done.
  - apply near_refl.
Qed.

(** The journal is deleted after the file was restored. *)
Lemma safe_deleted j1 j2 : safe j1 -> j_fd j1 = mkDFile d0 [] -> j_jfd j2 = df_do (j_jfd j1) FUnlink -> j_fd j2 = mkDFile d0 [] -> safe j2.
Proof using Hd0.
  intros Hs H1 H2 H3 cj cd Hj Hd. rewrite H2 in Hj. rewrite H3 in Hd. apply crash_unlinked in Hj as [Hj| ->]; [apply Hs; [done|by rewrite H1]|]. apply crash_synced in Hd as ->. apply no_journal.
Qed.

Lemma safe_played cj segs j : j_jfd j = mkDFile cj [] -> Forall old_seg segs -> jrnl_at cj segs -> always (j_fd j) (near (all_recs segs)) -> (segs = [] -> j_fd j = mkDFile d0 []) -> safe j.
Proof using.
  intros H1 Hold Hat Hn Hnil c1 c2 Hj Hd. rewrite H1 in Hj. apply crash_synced in Hj as ->. exists segs. split; [done|]. split; [done|]. split; [by eapply crash_near|]. intros Hs. rewrite Hnil in Hd by done. by apply crash_synced in Hd.
Qed.

Lemma old_recs segs : Forall old_seg segs -> Forall jseg_ok segs /\ Forall old_rec (all_recs segs).
Proof using.
  induction 1 as [|s segs [H1 H2] _ [IH1 IH2]]; [done|]. split; [by constructor|]. by apply Forall_app.
Qed.

Definition rolled (j : Jrnl) (rc : Z) (j' : Jrnl) : Prop := later j rc (j_io j') /\ safe j' /\ (rc = SQLITE_OK -> j_fd j' = mkDFile d0 []).

Lemma end_spec j hm : del_mode (j_p j) -> pr_jopen (j_p j) = true -> pr_eState (j_p j) <> PAGER_ERROR -> post (pager_end_transaction j hm false) (fun rc j' => later j rc (j_io j') /\ j_fd j' = j_fd j /\ (j_jfd j' = j_jfd j \/ j_jfd j' = df_do (j_jfd j) FUnlink)).
Proof using.
  intros [M1 M2] Ho He. unfold pager_end_transaction, finalize_journal, delete_journal. rewrite (proj2 (Z.eqb_neq _ _) He), Ho, M1, M2. cbn [negb assert_ mbind option_bind andb orb Z.eqb PAGER_JOURNALMODE_DELETE PAGER_JOURNALMODE_TRUNCATE PAGER_JOURNALMODE_PERSIST].
  set (j0 := set_p j (pr_opened (j_p j) false)). destruct (j_call_spec j0) as (rc & ? & -> & io & -> & Hl). cbn [mbind option_bind]. rewrite andb_false_r. cbn [mbind option_bind]. set (j1 := set_cache _ _). assert (pc_exclusiveMode (pr_conf (j_p j1)) = false) as -> by (unfold j1; by destruct (rc =? SQLITE_OK)). destruct (j_call_spec j1) as (rc2 & ? & -> & io2 & -> & Hl2). cbn [negb mbind option_bind]. apply post_ret.
  assert (j_io j1 = io) as E by (unfold j1; by destruct (rc =? SQLITE_OK)). assert (later j rc (j_io j1)) as Hl' by by rewrite E. split.
  - cbn. destruct (rc =? SQLITE_OK); [by apply (later_trans' j j1 (with_io j1 io2) rc)|]. destruct Hl' as [Ha Hb], Hl2 as [Hc _]. split; [by etransitivity|done].
  - unfold j1. destruct (rc =? SQLITE_OK); cbn; auto.
Qed.

Lemma redo_nil ops : Forall (redo []) ops -> ops = [].
Proof using. destruct ops as [|o ops]; [done|]. intros [[[? _]|(r & Hr & _)] _]%Forall_cons; [done|by apply elem_of_nil in Hr]. Qed.

Lemma playback_spec cj cd segs j : Forall old_seg segs -> jrnl_at cj segs -> near (all_recs segs) cd -> (segs = [] -> cd = d0) -> no_master cj -> pb (mkDFile cj []) j -> j_fd j = mkDFile cd [] ->
  post (pager_playback j true) (rolled j).
Proof using Hd0.
  intros Hold Hat Hnear Hnil Hm Hp Hfd. destruct (old_recs segs Hold) as [Hok Hrec]. assert (df_data (j_fd j) = cd) as Hcd by by rewrite Hfd.
  unfold pager_playback. eapply post_bind; [apply (main_spec (mkDFile cj []) segs); [done..|]; rewrite Hcd; apply Hnear|]. intros rc j1 (L1 & Q1 & ops & E1 & E2 & E3). cbn beta iota. rewrite Hfd in E1. rewrite Hcd in E3. set (j1' := set_p j1 _). assert (pb (mkDFile cj []) j1') as Q1' by (destruct Q1; by split). assert (j_fd j1' = j_fd j1 /\ j_io j1' = j_io j1) as [F1 F2] by done. rewrite <- F1 in E1. rewrite <- F2 in L1. clearbody j1'. clear F1 F2 Q1 j1.
  assert (always (j_fd j1') (near (all_recs segs))) as Hal by (rewrite E1; apply redos_always; [done..|]; by apply always_synced).
  assert (rc = SQLITE_OK -> df_data (j_fd j1') = d0) as Hd.
  { intros Hrc. rewrite E1, data_dos, (E3 Hrc). cbn [df_data df_log df_base fold_left]. destruct segs as [|s segs]; [cbn; by apply Hnil|by apply redo_restores]. }
  assert (segs = [] -> j_fd j1' = mkDFile d0 []) as Hnil1 by (intros Hs; rewrite Hs in E2; apply redo_nil in E2 as ->; rewrite E1, dos_nil; f_equal; by apply Hnil).
  assert (forall j2, j_jfd j2 = mkDFile cj [] -> (j_fd j2 = j_fd j1' \/ j_fd j2 = mkDFile d0 []) -> safe j2) as Hsafe.
  { intros j2 A1 A2. apply (safe_played cj segs); [done..| |]; destruct A2 as [->| ->]; [done|apply always_synced, near_refl|done|done]. }
  eapply (post_bind _ _ (rolled j)).
  2:{ intros rc' j' (R1 & R2 & R3). apply post_ret. done. }
  destruct (Z.eqb_spec rc SQLITE_OK) as [->|Hn]; [|apply post_ret; split; [done|]; split; [apply Hsafe; [apply Q1'|by left]|done]]. specialize (Hd eq_refl).
  destruct (read_master j1') as (rc & io & -> & Hl); [by rewrite (pb_jfd _ _ Q1')|]. pose proof (pb_io _ _ _ _ Q1' Hl) as Q2. eapply (later_trans' j j1' (with_io j1' io)) in Hl; [|exact L1]. cbn [mbind option_bind].
  unfold jthen at 1. cbn [mbind option_bind]. destruct (Z.eqb_spec rc SQLITE_OK) as [->|Hn]; [|apply post_ret; split; [done|]; split; [apply Hsafe; [apply Q2|by left]|done]].
  rewrite (pb_open _ _ Q2). change ((PAGER_WRITER_DBMOD <=? PAGER_OPEN) || (PAGER_OPEN =? PAGER_OPEN)) with true. cbn iota.
  eapply (post_then _ _ (fun rc j2 => later j rc (j_io j2) /\ pb (mkDFile cj []) j2 /\ (j_fd j2 = j_fd j1' \/ j_fd j2 = mkDFile d0 []) /\ (rc = SQLITE_OK -> j_fd j2 = mkDFile d0 []))).
  - unfold sqlite3PagerSync. destruct (j_call_spec (with_io j1' io)) as (rc & ? & -> & io2 & -> & Hl2). cbn [mbind option_bind]. pose proof (pb_io _ _ _ _ Q2 Hl2) as Q3. eapply (later_trans' j (with_io j1' io) (with_io j1' io2)) in Hl2; [|exact Hl].
    change (with_io (with_io j1' io) io2) with (with_io j1' io2) in *. destruct ((rc =? SQLITE_OK) || (rc =? SQLITE_NOTFOUND)) eqn:Hr; [|apply post_ret; split; [done|]; split; [exact Q3|]; split; [by left|by intros ->]].
    rewrite (pb_ns _ _ Q3). unfold j_sync_db. destruct (j_next_spec (with_io j1' io2)) as (rc2 & n & io3 & -> & Hl3). apply post_ret. pose proof (pb_io _ _ _ _ Q3 Hl3) as Q4. eapply (later_trans' j (with_io j1' io2) (with_io j1' io3)) in Hl3; [|exact Hl2]. split; [by destruct (rc2 =? SQLITE_OK)|]. split; [destruct (rc2 =? SQLITE_OK); [destruct Q4; by split|exact Q4]|].
    destruct (Z.eqb_spec rc2 SQLITE_OK) as [->|Hn]; cbn; [|split; [by left|done]]. unfold df_sync. rewrite Hd. split; [by right|done].
  - intros j2 (A1 & A2 & A3 & A4). specialize (A4 eq_refl). eapply post_then; [apply end_spec; [apply A2|apply A2|by rewrite (pb_open _ _ A2)]| |]. all: pose proof (pb_jfd _ _ A2) as A2'.
    + intros j3 (B1 & B2 & B3). apply post_ret. split; [by eapply later_trans'|]. split; [|intros _; by rewrite B2]. destruct B3 as [B3|B3]; [apply Hsafe; [by rewrite B3|right; by rewrite B2]|apply (safe_deleted j2); [apply Hsafe; [done|by right]|done|done|by rewrite B2]].
    + intros rc j3 Hn (B1 & B2 & B3). split; [by eapply later_trans'|]. split; [|done]. destruct B3 as [B3|B3]; [apply Hsafe; [by rewrite B3|right; by rewrite B2]|apply (safe_deleted j2); [apply Hsafe; [done|by right]|done|done|by rewrite B2]].
  - intros rc j2 Hn (A1 & A2 & A3 & A4). split; [done|]. split; [apply Hsafe; [apply A2|done]|done].
Qed.

(** ** Hot journals *)

(** A pager that has just opened the files [cj] and [cd] *)
Record fresh (cj cd : list Z) (j : Jrnl) : Prop := mkFresh {
  fr_jfd : j_jfd j = mkDFile cj [];
  fr_fd : j_fd j = mkDFile cd [];
  fr_cache : j_cache j = ∅;
  fr_open : pr_eState (j_p j) = PAGER_OPEN;
  fr_sz : pr_sectorSize (j_p j) = g_sz;
  fr_ps : 0 < pr_pageSize (j_p j);
  fr_ns : pc_noSync (pr_conf (j_p j)) = false;
  fr_del : del_mode (j_p j);
  fr_sane : sane j }.

Lemma fresh_io cj cd j rc io : fresh cj cd j -> later j rc io -> fresh cj cd (with_io j io).
Proof using. intros [] Hl. split; try done. by eapply sane_later. Qed.

Lemma fresh_call cj cd j : fresh cj cd j -> post (j_call j) (fun rc j' => later j rc (j_io j') /\ fresh cj cd j').
Proof using. intros Hf. eapply post_mono; [apply j_call_spec|]. intros rc j' (io & -> & Hl). split; [done|by eapply fresh_io]. Qed.

Lemma fresh_safe cj cd j : recoverable cj cd -> j_jfd j = mkDFile cj [] -> j_fd j = mkDFile cd [] -> safe j.
Proof using. intros Hr H1 H2 c1 c2 Hj Hd. rewrite H1 in Hj. rewrite H2 in Hd. apply crash_synced in Hj as ->. by apply crash_synced in Hd as ->. Qed.

Lemma cold_journal cj cd : recoverable cj cd -> db_byte cj 0 = 0 -> cd = d0.
Proof using.
  intros (segs & _ & [Hat _] & _ & Hnil) Hb. destruct segs as [|s segs]; [by apply Hnil|]. destruct Hat as [(Hh & _) _]. unfold jhdr_bytes in Hh. apply has_app in Hh as [Hh _]. apply has_app in Hh as [Hh _]. apply (has_byte _ _ _ 0) in Hh; [|done]. rewrite Z.add_0_r, Hb in Hh. done.
Qed.

(** The files after hasHotJournal: if the journal is not hot, the database is the old one. *)
Definition checked (cj cd : list Z) (j : Jrnl) (rc : Z) (hot : bool) (j' : Jrnl) : Prop :=
  later j rc (j_io j') /\ (fresh cj cd j' /\ (rc = SQLITE_OK -> hot = false -> cd = d0) \/ hot = false /\ cd = d0 /\ j_jfd j' = df_do (mkDFile cj []) FUnlink /\ j_fd j' = mkDFile d0 []).

Lemma pagecount_spec cj cd j : fresh cj cd j -> exists rc n j', pagerPagecount j = Some (rc, n, j') /\ later j rc (j_io j') /\ fresh cj cd j' /\ (rc = SQLITE_OK -> n = 0 -> cd = []).
Proof using.
  clear Hd0. intros Hf. unfold pagerPagecount. destruct (fresh_call _ _ _ Hf) as (rc & j1 & -> & L1 & H1). cbn [mbind option_bind]. destruct (Z.eqb_spec rc SQLITE_OK) as [->|Hn]; cbn [negb]; [|eexists _, _, _; by split].
  eexists _, _, _. split; [done|]. split; [by case_match|]. split; [case_match; [destruct H1; by split|done]|]. intros _ Hz. rewrite (fr_fd _ _ _ H1) in Hz. pose proof (fr_ps _ _ _ H1) as Hps. cbn [df_data df_log df_base fold_left] in Hz. destruct cd as [|x cd]; [done|]. exfalso. apply Z.div_small_iff in Hz; [|lia]. cbn [length] in Hz. lia.
Qed.

Lemma hot_spec cj cd j : recoverable cj cd -> fresh cj cd j -> exists rc hot j', hasHotJournal j = Some (rc, hot, j') /\ checked cj cd j rc hot j'.
Proof using Hd0.
  intros Hr Hf. unfold hasHotJournal.
  assert (post (let_ok j := j_call j in j_call j) (fun rc j' => later j rc (j_io j') /\ fresh cj cd j')) as (rc & j1 & -> & L1 & F1).
  { eapply post_then; [by apply (fresh_call cj cd)| |done]. intros j1 (L1 & F1). eapply post_mono; [by apply (fresh_call cj cd)|]. intros rc j2 (L2 & F2). split; [by eapply later_trans'|done]. }
  cbn [mbind option_bind]. destruct (Z.eqb_spec rc SQLITE_OK) as [->|Hn]; cbn [negb]; [|eexists _, _, _; split; [done|]; split; [done|left]; by split].
  destruct (pagecount_spec cj cd j1 F1) as (rc & n & j2 & -> & L2 & F2 & Hz). cbn [mbind option_bind]. eapply (later_trans' j j1) in L2; [|exact L1]. destruct (Z.eqb_spec rc SQLITE_OK) as [->|Hn]; cbn [negb]; [|eexists _, _, _; split; [done|]; split; [done|left]; by split].
  destruct (Z.eqb_spec n 0) as [->|Hne].
  - assert (cd = d0) as Hcd by (specialize (Hz eq_refl eq_refl) as ->; destruct Hr as (segs & _ & _ & [Hl _] & _); symmetry; apply nil_length_inv; cbn in Hl; lia). unfold jthen. destruct (fresh_call _ _ _ F2) as (rc & j3 & -> & L3 & F3). cbn [mbind option_bind]. eapply (later_trans' j j2) in L3; [|exact L2].
    destruct (Z.eqb_spec rc SQLITE_OK) as [->|Hn]; cbn [mbind option_bind]; [|eexists _, _, _; split; [done|]; split; [split; [apply L3|by left]|left; by split]].
    unfold delete_journal. destruct (j_call_spec j3) as (rc & ? & -> & io & -> & L4). cbn [mbind option_bind]. set (j5 := if rc =? SQLITE_OK then _ else _). destruct (j_call_spec j5) as (rc5 & ? & -> & io5 & -> & L5). cbn [mbind option_bind].
    assert (j_io j5 = io) as Hio by (unfold j5; by destruct (rc =? SQLITE_OK)). eexists _, _, _. split; [done|]. split; [split; [cbn; etransitivity; [apply L5|]; rewrite Hio; etransitivity; [apply L4|apply L3]|by left]|]. unfold j5 in *. destruct (Z.eqb_spec rc SQLITE_OK) as [->|Hn].
    + right. split; [done|]. split; [done|]. split; [cbn; by rewrite (fr_jfd _ _ _ F3)|]. cbn. rewrite (fr_fd _ _ _ F3). by rewrite Hcd.
    + left. split; [|done]. eapply fresh_io; [by eapply fresh_io|exact L5].
  - destruct (fresh_call _ _ _ F2) as (rc & j3 & -> & L3 & F3). cbn [mbind option_bind]. eapply (later_trans' j j2) in L3; [|exact L2]. destruct (Z.eqb_spec rc SQLITE_OK) as [->|Hn].
    2:{ destruct (Z.eqb_spec rc SQLITE_CANTOPEN) as [->|]; (eexists _, _, _; split; [done|]); (split; [|left; by split]); [split; [apply L3|by left]|done]. }
    unfold j_read, j_os_read. destruct (j_next_spec j3) as (rc & m & io & -> & L4). pose proof (fresh_io _ _ _ _ _ F3 L4) as F4. eapply (later_trans' j j3 (with_io j3 io)) in L4; [|exact L3]. cbn [Z.ltb].
    change (0 <? 0) with false. cbn iota. destruct ((rc =? SQLITE_OK) || (rc =? SQLITE_IOERR_SHORT_READ)) eqn:E.
    + replace (if (if 0 + 1 <=? len (df_data (j_jfd j3)) then SQLITE_OK else SQLITE_IOERR_SHORT_READ) =? SQLITE_IOERR_SHORT_READ then SQLITE_OK else if 0 + 1 <=? len (df_data (j_jfd j3)) then SQLITE_OK else SQLITE_IOERR_SHORT_READ) with SQLITE_OK by (by destruct (0 + 1 <=? _)).
      eexists _, _, _. split; [done|]. split; [split; [apply L4|by left]|left]. split; [done|]. intros _ Hb. apply (cold_journal cj cd Hr). rewrite (fr_jfd _ _ _ F3) in Hb. change (default 0 (aget (f_read (df_data (mkDFile cj [])) 1 0) 0)) with (db_byte cj 0) in Hb. destruct (Z.eqb_spec (db_byte cj 0) 0); done.
    + apply orb_false_iff in E as [E1 E2]. rewrite E2, E1. eexists _, _, _. split; [done|]. split; [done|left]. split; [done|]. intros ->. done.
Qed.

(** Recovery restores the old content, or leaves files that the next one restores. *)
Lemma roll_back_spec cj cd j : recoverable cj cd -> no_master cj -> fresh cj cd j -> post (roll_back_hot j) (rolled j).
Proof using Hd0.
  intros Hr Hm Hf. unfold roll_back_hot. destruct (hot_spec cj cd j Hr Hf) as (rc & hot & j1 & -> & L1 & H1). cbn [mbind option_bind]. destruct H1 as [[F1 Hc]|(-> & Hc & A1 & A2)].
  2:{ rewrite orb_true_r. apply post_ret. split; [done|]. split; [|done]. apply (safe_deleted j); [|by rewrite (fr_fd _ _ _ Hf), Hc|by rewrite (fr_jfd _ _ _ Hf)|done]. eapply fresh_safe; [exact Hr|apply Hf..]. }
  assert (forall rc j', rc <> SQLITE_OK -> later j rc (j_io j') /\ fresh cj cd j' -> rolled j rc j') as Hbad.
  { intros rc' j' Hn [L F]. split; [done|]. split; [|done]. eapply fresh_safe; [done|apply F..]. }
  destruct (Z.eqb_spec rc SQLITE_OK) as [->|Hn]; cbn [negb orb]; [|by apply post_ret, Hbad]. destruct hot; cbn [negb].
  2:{ apply post_ret. split; [done|]. split; [eapply fresh_safe; [done|apply F1..]|]. intros _. rewrite (fr_fd _ _ _ F1). f_equal. by apply Hc. }
  assert (forall j1, later j SQLITE_OK (j_io j1) -> fresh cj cd j1 -> post (j_call j1) (fun rc j' => later j rc (j_io j') /\ fresh cj cd j')) as Hcall.
  { intros j2 L2 F2. eapply post_mono; [by apply (fresh_call cj cd)|]. intros rc j3 [L3 F3]. split; [by eapply later_trans'|done]. }
  eapply post_then; [by apply Hcall| |done]. intros j2 [L2 F2]. eapply (post_bind _ _ (rolled j)).
  2:{ intros rc j' (R1 & R2 & R3). apply post_ret. destruct (Z.eqb_spec rc SQLITE_OK) as [->|Hn]; [done|]. unfold pager_error. case_match; (split; [done|]); (split; [done|]); done. }
  eapply post_then; [by apply Hcall| |done]. intros j3 [L3 F3]. eapply post_then; [by apply Hcall| |done]. intros j4' [L4' F4']. set (j4 := set_p j4' _). assert (later j SQLITE_OK (j_io j4) /\ fresh cj cd j4 /\ pr_jopen (j_p j4) = true) as (L4 & F4 & O4) by (split; [exact L4'|]; split; [destruct F4'; by split|done]). clearbody j4.
  eapply (post_then _ _ (fun rc j' => later j rc (j_io j') /\ fresh cj cd j' /\ (rc = SQLITE_OK -> pb (mkDFile cj []) j'))).
  - unfold pagerSyncHotJournal. rewrite (fr_ns _ _ _ F4). eapply (post_then _ _ (fun rc j' => later j rc (j_io j') /\ fresh cj cd j' /\ pr_jopen (j_p j') = true)).
    + unfold j_sync. destruct (j_next_spec j4) as (rc & n & io & -> & L5). apply post_ret. pose proof (fresh_io _ _ _ _ _ F4 L5) as F5. eapply (later_trans' j j4 (with_io j4 io)) in L5; [|exact L4]. split; [by destruct (rc =? SQLITE_OK)|]. split; [|by destruct (rc =? SQLITE_OK)]. destruct (rc =? SQLITE_OK); [|done]. destruct F5. split; try done. cbn. by rewrite (fr_jfd _ _ _ F4).
    + intros j5 (L5 & F5 & O5). eapply post_then; [apply j_call_spec| |].
      * intros ? (io & -> & L6). pose proof (fresh_io _ _ _ _ _ F5 L6) as F6. eapply (later_trans' j j5 (with_io j5 io)) in L6; [|exact L5]. apply post_ret. split; [done|]. split; [destruct F6; by split|]. intros _. destruct F6 as [E1 E2 E3 E4 E5 E6 E7 E8 E9]. cbn in E1. split; try done. cbn. by rewrite E1.
      * intros rc ? Hn (io & -> & L6). pose proof (fresh_io _ _ _ _ _ F5 L6) as F6. eapply (later_trans' j j5 (with_io j5 io)) in L6; [|exact L5]. by split.
    + intros rc j5 Hn (L5 & F5 & _). by split.
  - intros j5 (L5 & F5 & Q5). destruct Hr as (segs & Ho & Ha & Hn & Hz). eapply post_bind; [apply (playback_spec cj cd segs); [done..|by apply Q5|apply F5]|]. intros rc j6 (R1 & R2 & R3). apply post_ret. split; [by eapply (later_trans' j j5)|]. by split.
  - intros rc j5 Hn (L5 & F5 & _). by apply Hbad.
Qed.
End Restore.
