(* ===== verification/JournalWrite.v ===== *)
(** * JournalWrite: what the writes to a journal leave after a crash (pager.c)

    A journal whose segments are synced stays one with these segments while only bytes
    after them are written and no header appears there.  The write of the magic number and
    of the number of records adds the last segment, or an empty one, or nothing. *)
From S2P Require Import Prelude Varint Record Page PageLayout PageCells Wal WalLog WalSpec UnixLock WalCkpt WalFile Journal PagerTxn JournalFile JournalPlay JournalReplay JournalRestore.

(** A number with n & (n - 1) = 0 is a power of two. *)
Lemma pow2_log n : 0 < n -> is_pow2 n = true -> n = 2 ^ Z.log2 n.
Proof.
  intros Hn Hp. apply Z.eqb_eq in Hp. pose proof (Z.log2_spec n Hn) as [L1 L2]. destruct (decide (n = 2 ^ Z.log2 n)) as [|Hne]; [done|exfalso]. assert (0 < 2 ^ Z.log2 n) by (apply Z.pow_pos_nonneg; [lia|apply Z.log2_nonneg]).
  assert (Z.log2 (n - 1) = Z.log2 n) as Hl by (apply Z.log2_unique; [apply Z.log2_nonneg|lia]).
  assert (Z.testbit (Z.land (n - 1) n) (Z.log2 n) = true) as Hb by (rewrite Z.land_spec, (Z.bit_log2 n) by lia; rewrite <- Hl, Z.bit_log2 by lia; done). rewrite Hp, Z.bits_0 in Hb. done.
Qed.

Lemma pow2_divide m n : 0 < m <= n -> is_pow2 m = true -> is_pow2 n = true -> (m | n).
Proof.
  intros Hmn Hm Hn. apply pow2_log in Hm, Hn; [|lia..]. assert (Z.log2 m <= Z.log2 n) by (apply Z.log2_le_mono; lia). pose proof (Z.log2_nonneg m). exists (2 ^ (Z.log2 n - Z.log2 m)). rewrite Hm at 2. rewrite Hn at 1. rewrite <- Z.pow_add_r by lia. f_equal. lia.
Qed.

Section Write.
Context {G : Geom}.

(** ** Segments depend on their bytes only *)

Lemma geom_pos : 32 <= g_sz /\ 512 <= g_ps /\ 0 <= g_orig <= 2147483647.
Proof using. pose proof g_sz_ok. pose proof g_ps_ok. pose proof g_orig_ok. lia. Qed.

Lemma recs_at_ext c c' off ck recs : Forall rec_ok recs -> off + len recs * (g_ps + 8) <= len c' -> (forall i, off <= i < off + len recs * (g_ps + 8) -> db_byte c' i = db_byte c i) -> recs_at c off ck recs -> recs_at c' off ck recs.
Proof using.
  revert off. induction recs as [|r recs IH]; intros off Hok Hl Hb Hat; [done|]. apply Forall_cons in Hok as [Hr Hok]. destruct Hat as [Hh Hat]. pose proof geom_pos. cbn [length] in *. split.
  - eapply has_ext; [exact Hh|rewrite rec_len by done; nia|]. intros i Hi. rewrite rec_len in Hi by done. apply Hb. nia.
  - apply IH; [done|nia| |done]. intros i Hi. apply Hb. nia.
Qed.

Lemma hdr_len ck n : length (jhdr_bytes ck n) = 28%nat.
Proof using. done. Qed.

Lemma seg_at_ext c c' off s : jseg_ok s -> seg_end off s <= len c' -> (forall i, off <= i < seg_end off s -> db_byte c' i = db_byte c i) -> seg_at c off s -> seg_at c' off s.
Proof using.
  intros (_ & _ & Hok) Hl Hb (Hh & He & Hr). pose proof geom_pos. assert (off + g_sz <= seg_end off s) as Hs by (unfold seg_end; nia). split; [|split; [done|]].
  - eapply has_ext; [exact Hh|rewrite hdr_len; lia|]. intros i Hi. rewrite hdr_len in Hi. apply Hb. lia.
  - eapply recs_at_ext; [done| | |exact Hr]; unfold seg_end in *; [lia|]. intros i Hi. apply Hb. lia.
Qed.

Lemma seg_end_lt off s : off + 32 <= seg_end off s.
Proof using. pose proof geom_pos. unfold seg_end. nia. Qed.

Lemma segs_end_ge segs off : 0 <= off -> off <= segs_end off segs.
Proof using.
  revert off. induction segs as [|s segs IH]; intros off Ho; [done|]. cbn. pose proof (seg_end_lt off s). assert (0 <= seg_end off s) as H0 by lia. destruct (align_spec _ H0) as (H1 & _). etransitivity; [|apply IH]; lia.
Qed.

Lemma segs_end_mod segs off : 0 <= off -> off mod g_sz = 0 -> segs_end off segs mod g_sz = 0.
Proof using.
  revert off. induction segs as [|s segs IH]; intros off Ho Hm; [done|]. cbn. pose proof (seg_end_lt off s). assert (0 <= seg_end off s) as H0 by lia. destruct (align_spec _ H0) as (H1 & _ & H3). apply IH; [lia|done].
Qed.

Lemma segs_at_ext segs c c' off : 0 <= off -> Forall jseg_ok segs -> len c <= len c' -> (forall i, off <= i < segs_end off segs -> db_byte c' i = db_byte c i) -> segs_at c off segs -> segs_at c' off segs.
Proof using.
  revert off. induction segs as [|s segs IH]; intros off Ho Hok Hl Hb Hat; [done|]. apply Forall_cons in Hok as [Hs Hok]. destruct Hat as [Ha Hat]. cbn in Hb. pose proof (seg_end_lt off s). assert (0 <= seg_end off s) as H0 by lia. destruct (align_spec _ H0) as (H1 & _). assert (0 <= align (seg_end off s)) as H2 by lia. pose proof (segs_end_ge segs _ H2). split.
  - eapply seg_at_ext; [done| | |exact Ha]; [destruct Ha as (_ & ? & _); lia|]. intros i Hi. apply Hb. unfold segs_end in *. lia.
  - apply IH; [lia|done|done| |done]. intros i Hi. apply Hb. unfold segs_end in *. lia.
Qed.

Lemma segs_end_snoc segs s off : segs_end off (segs ++ [s]) = align (seg_end (segs_end off segs) s).
Proof using. unfold segs_end. by rewrite fold_left_app. Qed.

Lemma segs_at_snoc segs s c off : segs_at c off (segs ++ [s]) <-> segs_at c off segs /\ seg_at c (segs_end off segs) s.
Proof using.
  revert off. induction segs as [|s' segs IH]; intros off; cbn.
  - tauto.
  - rewrite IH. tauto.
Qed.

(** ** Headers that are not there *)

Definition magic1 : list Z := take 4 aJournalMagic.
Definition magic2 : list Z := drop 4 aJournalMagic.

(** No state since the last sync has a header at [h], not even mixed. *)
Definition never_hdr (f : DFile) (h : Z) : Prop := always f (fun d => f_read d 4 h <> magic1) \/ always f (fun d => f_read d 4 (h + 4) <> magic2).

Lemma crash_word f c i : crash_of f c -> 0 <= i -> i mod 4 = 0 -> exists k, f_read c 4 i = f_read (df_prefix f k) 4 i.
Proof using.
  intros (k & n & Hb & _) Hi Hm. exists (k (i / 4)). apply f_read_ext. intros x Hx. rewrite Hb by lia. do 3 f_equal. pose proof (Z.div_mod i 4 ltac:(lia)). symmetry. apply (Z.div_unique _ _ _ (x - i)); lia.
Qed.

Lemma has_magic c h : has c h aJournalMagic <-> h + 8 <= len c /\ f_read c 4 h = magic1 /\ f_read c 4 (h + 4) = magic2.
Proof using.
  change aJournalMagic with (magic1 ++ magic2). rewrite has_app. unfold has. change (len magic1) with 4. change (len magic2) with 4. split; intros H; repeat split; try apply H; lia.
Qed.

Lemma never_crash f c h : never_hdr f h -> 0 <= h -> h mod 4 = 0 -> crash_of f c -> no_hdr c h.
Proof using.
  intros Hn Hh Hm Hc (_ & H1 & H2)%has_magic. destruct Hn as [Hn|Hn].
  - destruct (crash_word f c h Hc Hh Hm) as [k Hk]. apply (Hn k). by rewrite <- Hk.
  - destruct (crash_word f c (h + 4) Hc) as [k Hk]; [lia|rewrite Z.add_mod, Hm by lia; done|]. apply (Hn k). by rewrite <- Hk.
Qed.

(** A file with no header at [h] *)
Lemma never_no_hdr d h : 0 <= h -> no_hdr d h -> f_read d 4 h <> magic1 \/ f_read d 4 (h + 4) <> magic2.
Proof using.
  intros Hh Hn. destruct (decide (f_read d 4 h = magic1)) as [H1|H1]; [right|by left]. intros H2. apply Hn, has_magic. split; [|done]. destruct (decide (h + 8 <= len d)) as [|Hl]; [done|exfalso].
  assert (db_byte (f_read d 4 (h + 4)) 3 = 0) as Hz. { rewrite f_read_byte by lia. unfold db_byte, aget. rewrite decide_True by lia. by rewrite (proj2 (lookup_ge_None _ _)) by lia. } by rewrite H2 in Hz.
Qed.

Lemma never_synced d h : 0 <= h -> no_hdr d h -> never_hdr (mkDFile d []) h.
Proof using. intros Hh Hn. destruct (never_no_hdr d h Hh Hn); [left|right]; by apply always_synced. Qed.

(** ** Writes after the segments *)

Lemma f_read_out c off l n i : 0 <= off -> 0 <= i -> i + n <= off \/ off + len l <= i -> f_read (file_write c off l) n i = f_read c n i.
Proof using. intros Ho Hi Hd. apply f_read_ext. intros x Hx. rewrite db_byte_write by lia. by rewrite decide_False by lia. Qed.

Lemma f_read_in c off l n i : 0 <= off -> off <= i -> i + n <= off + len l -> f_read (file_write c off l) n i = f_read l n (i - off).
Proof using.
  intros Ho Hi Hl. apply list_fmap_ext. intros x k Hk%lookup_seqZ. rewrite db_byte_write by lia. rewrite decide_True by lia. f_equal. lia.
Qed.

Definition above (h : Z) (o : FOp) : Prop := exists off l, o = FWrite off l /\ h <= off.

Lemma above_always h f : 0 <= h -> Forall (above h) (df_log f) -> always f (fun d => len (df_base f) <= len d /\ forall i, 0 <= i < h -> db_byte d i = db_byte (df_base f) i).
Proof using.
  intros Hh Hab k. unfold df_prefix. assert (Forall (above h) (take k (df_log f))) as Ht by by apply Forall_take. generalize (df_base f) as b. induction (take k (df_log f)) as [|o l IH] using rev_ind; intros b; [done|].
  apply Forall_app in Ht as [Ht Ho]. apply Forall_cons in Ho as [(off & x & -> & Ho) _]. rewrite fold_left_app. cbn [fold_left f_apply]. destruct (IH Ht b) as [H1 H2]. split.
  - etransitivity; [exact H1|]. apply len_write_le. lia.
  - intros i Hi. rewrite db_byte_write by lia. rewrite decide_False by lia. by apply H2.
Qed.

Context (d0 : list Z).

(** A journal with the synced segments [segs], to which only bytes after them are written *)
Record jsafe (segs : list seg) (f : DFile) : Prop := mkJsafe {
  js_old : Forall (old_seg d0) segs;
  js_at : segs_at (df_base f) 0 segs;
  js_above : Forall (above (segs_end 0 segs)) (df_log f);
  js_never : never_hdr f (segs_end 0 segs) }.

Lemma end_pos segs : 0 <= segs_end 0 segs.
Proof using. by apply segs_end_ge. Qed.

Lemma pow2_mod4 : exists k, g_sz = 4 * k.
Proof using.
  pose proof g_sz_ok as [[H1 H2] H3]. destruct (pow2_divide 4 g_sz) as [k Hk]; [lia|done|done|]. exists k. lia.
Qed.

Lemma end_mod4 segs : segs_end 0 segs mod 4 = 0.
Proof using.
  pose proof geom_pos. destruct pow2_mod4 as [k Hk]. assert (segs_end 0 segs mod g_sz = 0) as Hm by (apply segs_end_mod; [lia|apply Z.mod_0_l; lia]). apply Z.mod_divide in Hm as [q Hq]; [|lia]. rewrite Hq, Hk. replace (q * (4 * k)) with ((q * k) * 4) by lia. by apply Z.mod_mul.
Qed.

Lemma old_ok segs : Forall (old_seg d0) segs -> Forall jseg_ok segs.
Proof using. intros H. by apply old_recs in H as []. Qed.

Lemma jsafe_always segs f : jsafe segs f -> always f (fun d => segs_at d 0 segs).
Proof using.
  intros [H1 H2 H3 H4]. eapply always_mono; [|apply (above_always _ _ (end_pos segs) H3)]. intros d [Hl Hb]. eapply segs_at_ext; [done|by apply old_ok|exact Hl| |exact H2]. intros i Hi. by apply Hb.
Qed.

Lemma jsafe_crash segs f c : jsafe segs f -> crash_of f c -> jrnl_at c segs.
Proof using.
  intros Hs Hc. pose proof Hs as [H1 H2 H3 H4]. pose proof (above_always _ _ (end_pos segs) H3) as Hal. split.
  - eapply segs_at_ext; [done|by apply old_ok| | |exact H2].
    + apply (crash_len f c (fun n => len (df_base f) <= n) Hc). intros k. apply Hal.
    + intros i Hi. apply (crash_byte f c i (fun b => b = _) Hc ltac:(lia)). intros k. apply Hal. lia.
  - eapply never_crash; [exact H4|apply end_pos|apply end_mod4|done].
Qed.

Lemma never_sync f h : never_hdr f h -> never_hdr (df_sync f) h.
Proof using. intros [H|H]; [left|right]; apply always_sync, (always_data f _ H). Qed.

Lemma jsafe_sync segs f : jsafe segs f -> jsafe segs (df_sync f).
Proof using.
  intros Hs. pose proof Hs as [H1 H2 H3 H4]. split; [done|apply (always_data f _ (jsafe_always _ _ Hs))|constructor|by apply never_sync].
Qed.

(** A write that leaves the words of the magic number alone, or sets them to zero *)
Definition zeroing (d d' : list Z) (h : Z) : Prop := f_read d' 4 h = f_read d 4 h \/ f_read d' 4 h = [0; 0; 0; 0].

Lemma jsafe_do segs f off l : jsafe segs f -> segs_end 0 segs <= off -> (forall d, d = df_data f -> zeroing d (file_write d off l) (segs_end 0 segs) /\ zeroing d (file_write d off l) (segs_end 0 segs + 4)) -> jsafe segs (df_do f (FWrite off l)).
Proof using.
  intros Hs Ho Hz. pose proof Hs as [H1 H2 H3 H4]. destruct (Hz _ eq_refl) as [Z1 Z2]. split; [done|done| |].
  - apply Forall_app. split; [done|]. constructor; [|done]. by exists off, l.
  - destruct H4 as [H4|H4]; [left|right]; (apply always_do; [done|]); pose proof (always_data f _ H4) as Hd; cbn [f_apply]; [destruct Z1 as [-> | ->]|destruct Z2 as [-> | ->]]; done.
Qed.

Lemma jsafe_after segs f off l : jsafe segs f -> segs_end 0 segs + 8 <= off -> jsafe segs (df_do f (FWrite off l)).
Proof using.
  intros Hs Ho. pose proof (end_pos segs). apply jsafe_do; [done|lia|]. intros d ->. split; left; apply f_read_out; lia.
Qed.

(** ** The segment that is being filled *)

Definition hdr_rest (ck : Z) : list Z := sqlite3Put4byte ck ++ sqlite3Put4byte g_orig ++ sqlite3Put4byte g_sz ++ sqlite3Put4byte g_ps.

Record jcur (segs : list seg) (s : seg) (f : DFile) : Prop := mkJcur {
  jc_safe : jsafe segs f;
  jc_ok : old_seg d0 s;
  jc_hdr : has (df_data f) (segs_end 0 segs) (replicate 12 0 ++ hdr_rest s.1);
  jc_end : seg_end (segs_end 0 segs) s <= len (df_data f);
  jc_recs : recs_at (df_data f) (segs_end 0 segs + g_sz) s.1 s.2 }.

Lemma jcur_sync segs s f : jcur segs s f -> jcur segs s (df_sync f).
Proof using. intros [H1 H2 H3 H4 H5]. split; [by apply jsafe_sync|done..]. Qed.

(** A write after the records *)
Lemma jcur_after segs s f off l : jcur segs s f -> seg_end (segs_end 0 segs) s <= off -> jcur segs s (df_do f (FWrite off l)).
Proof using.
  intros [H1 H2 H3 H4 H5] Ho. pose proof (end_pos segs). pose proof geom_pos. assert (segs_end 0 segs + g_sz <= seg_end (segs_end 0 segs) s) as He by (unfold seg_end; nia). split; [apply jsafe_after; [done|lia]|done|..]; rewrite data_do; cbn [f_apply].
  - apply has_write_ne; [lia|done|lia|right]. etransitivity; [|exact Ho]. change (len (replicate 12 0 ++ hdr_rest s.1)) with 28. lia.
  - pose proof (len_write_le (df_data f) off l ltac:(lia)). lia.
  - eapply recs_at_ext; [apply H2| | |exact H5]; unfold seg_end in *; [pose proof (len_write_le (df_data f) off l ltac:(lia)); lia|]. intros i Hi. rewrite db_byte_write by lia. by rewrite decide_False by lia.
Qed.

(** Where a segment ends with no header after it, it can be added to the synced ones. *)
Lemma seg_of_cur segs s d : jcur segs s (mkDFile d []) -> has d (segs_end 0 segs) (jhdr_bytes s.1 (len s.2)) -> segs_at d 0 (segs ++ [s]).
Proof using. intros [H1 H2 H3 H4 H5] Hh. apply segs_at_snoc. split; [apply H1|]. split; [done|]. by split. Qed.

(** Bytes of the header and the others *)
Definition hdr_mix (segs : list seg) (s : seg) (d c : list Z) : Prop :=
  let h := segs_end 0 segs in
  length c = length d /\ (forall i, 0 <= i -> i < h \/ h + 12 <= i -> db_byte c i = db_byte d i) /\
  (f_read c 4 h = [0; 0; 0; 0] \/ f_read c 4 h = magic1) /\ (f_read c 4 (h + 4) = [0; 0; 0; 0] \/ f_read c 4 (h + 4) = magic2) /\
  (f_read c 4 (h + 8) = [0; 0; 0; 0] \/ f_read c 4 (h + 8) = sqlite3Put4byte (len s.2)).

Definition hdr12 (n : Z) : list Z := aJournalMagic ++ sqlite3Put4byte n.

Lemma hdr12_word d h m n b : 0 <= h -> (b = 0 \/ b = 4 \/ b = 8) -> f_read (file_write d h (take (4 * m) (hdr12 n))) 4 (h + b) = f_read d 4 (h + b) \/ f_read (file_write d h (take (4 * m) (hdr12 n))) 4 (h + b) = f_read (hdr12 n) 4 b.
Proof using.
  intros Hh Hb. assert (length (hdr12 n) = 12%nat) as Hl by done. destruct (decide (b + 4 <= 4 * Z.of_nat m)) as [Hm|Hm].
  - right. rewrite f_read_in by (rewrite ?length_take; lia). replace (h + b - h) with b by lia. apply f_read_ext. intros i Hi. unfold db_byte, aget. rewrite !decide_True by lia. by rewrite lookup_take_lt by lia.
  - left. apply f_read_out; [lia..|right]. rewrite length_take. lia.
Qed.

Lemma cur_words segs s f : jcur segs s f -> let h := segs_end 0 segs in f_read (df_data f) 4 h = [0; 0; 0; 0] /\ f_read (df_data f) 4 (h + 4) = [0; 0; 0; 0] /\ f_read (df_data f) 4 (h + 8) = [0; 0; 0; 0] /\ h + 28 <= len (df_data f) /\ has (df_data f) (h + 12) (hdr_rest s.1).
Proof using.
  intros [_ _ Hh _ _] h. fold h in Hh. change (replicate 12 0) with ([0; 0; 0; 0] ++ [0; 0; 0; 0] ++ [0; 0; 0; 0]) in Hh. apply has_app in Hh as [Ha Hb]. pose proof (proj1 Hb) as Hl. apply has_app in Ha as [Ha1 Ha]. apply has_app in Ha as [Ha2 Ha3]. cbn [length app] in *.
  repeat split; [apply Ha1|apply Ha2| | |apply Hb..].
  - replace (h + 8) with (h + Z.of_nat 4 + Z.of_nat 4) by lia. apply Ha3.
  - change (len (hdr_rest s.1)) with 16 in Hl. lia.
Qed.

Lemma torn_mix segs s d m c : jcur segs s (mkDFile d []) -> crash_of (df_do (mkDFile d []) (FWrite (segs_end 0 segs) (take (4 * m) (hdr12 (len s.2))))) c -> hdr_mix segs s d c.
Proof using.
  intros Hj Hc. destruct (cur_words _ _ _ Hj) as (W1 & W2 & W3 & Hl & _). cbn [df_data df_log df_base fold_left] in *. set (h := segs_end 0 segs) in *. pose proof (end_pos segs) as Hh. fold h in Hh. pose proof (end_mod4 segs) as Hm. fold h in Hm. set (w := take _ _) in *.
  assert (len w <= 12) as Hw by (unfold w; rewrite length_take; change (length (hdr12 (len s.2))) with 12%nat; lia). set (f := df_do _ _) in *.
  assert (forall k, df_prefix f k = d \/ df_prefix f k = file_write d h w) as Hk by (intros k; unfold f; rewrite prefix_do; case_decide; [left|by right]; unfold df_prefix; cbn; by rewrite take_nil).
  assert (forall b, b = 0 \/ b = 4 \/ b = 8 -> f_read d 4 (h + b) = [0; 0; 0; 0] -> f_read c 4 (h + b) = [0; 0; 0; 0] \/ f_read c 4 (h + b) = f_read (hdr12 (len s.2)) 4 b) as Hword.
  { intros b Hb Hz. destruct (crash_word f c (h + b) Hc) as [k ->]; [lia|rewrite Z.add_mod, Hm by lia; destruct Hb as [->|[->| ->]]; done|]. destruct (Hk k) as [-> | ->]; [by left|]. destruct (hdr12_word d h m (len s.2) b Hh Hb) as [H|H]; fold w in H; rewrite H; [by left|by right]. }
  unfold hdr_mix. fold h. split; [|split; [|split; [|split]]].
  - destruct Hc as (k & n & _ & -> & _). destruct (Hk n) as [-> | ->]; [done|]. apply Nat2Z.inj. rewrite len_write by done. case_decide; lia.
  - intros i Hi Hd. apply (crash_byte f c i (fun b => b = db_byte d i) Hc Hi). intros k. destruct (Hk k) as [-> | ->]; [done|]. rewrite db_byte_write by lia. by rewrite decide_False by lia.
  - specialize (Hword 0 ltac:(lia)). rewrite Z.add_0_r in Hword. by apply Hword.
  - by apply Hword; [lia|].
  - by apply Hword; [lia|].
Qed.

(** The first byte of a record is not that of a header. *)
Lemma rec_no_hdr c off ck r : rec_ok r -> has c off (rec_bytes ck r) -> no_hdr c off.
Proof using.
  intros (Hr & _ & _) Hh Hm. pose proof geom_pos. unfold rec_bytes in Hh. apply has_app in Hh as [Hh _]. apply (has_byte _ _ _ 0) in Hh; [|done]. apply (has_byte _ _ _ 0) in Hm; [|done]. rewrite Hh in Hm. revert Hm. change (u8 (Z.shiftr r.1 24) = 0xd9 -> False). rewrite Z.shiftr_div_pow2 by lia. change (2 ^ 24) with 16777216.
  unfold u8. rewrite Z.mod_small; [|split; [apply Z.div_pos; lia|apply Z.div_lt_upper_bound; lia]]. intros Hm. pose proof (Z.div_le_mono r.1 2147483647 16777216). change (2147483647 / 16777216) with 127 in *. lia.
Qed.

Lemma end_align segs : align (segs_end 0 segs + g_sz) = segs_end 0 segs + g_sz.
Proof using.
  pose proof geom_pos. pose proof (end_pos segs). apply align_id; [lia|]. rewrite <- (Z.mul_1_l g_sz) at 1. rewrite Z.mod_add by lia. apply segs_end_mod; [lia|]. by apply Z.mod_0_l; lia.
Qed.

(** What the journal holds after a crash while its header is completed *)
Lemma mix_journal segs s d c : jcur segs s (mkDFile d []) -> no_hdr d (align (seg_end (segs_end 0 segs) s)) -> hdr_mix segs s d c ->
  exists segs', jrnl_at c segs' /\ Forall (old_seg d0) segs' /\ segs `prefix_of` segs'.
Proof using.
  intros Hj Hno (Hlen & Hb & W1 & W2 & W3). pose proof Hj as [Hs Hok Hhdr Hend Hrecs]. pose proof Hs as [S1 S2 _ _]. destruct (cur_words _ _ _ Hj) as (_ & _ & _ & Hl28 & Hrest). cbn [df_data df_log df_base fold_left] in *. set (h := segs_end 0 segs) in *. pose proof (end_pos segs) as Hh. fold h in Hh. pose proof geom_pos as (G1 & G2 & G3).
  assert (segs_at c 0 segs) as Hc by (eapply segs_at_ext; [done|by apply old_ok| | |exact S2]; [lia|]; intros i Hi; apply Hb; unfold h; lia).
  destruct (decide (has c h aJournalMagic)) as [Hm|Hm].
  2:{ exists segs. split; [by split|]. by split. }
  assert (has c (h + 12) (hdr_rest s.1)) as Hr by (eapply has_ext; [exact Hrest|change (len (hdr_rest s.1)) with 16; lia|]; intros i Hi; apply Hb; lia).
  assert (forall n, f_read c 4 (h + 8) = sqlite3Put4byte n -> has c h (jhdr_bytes s.1 n)) as Hhb.
  { intros n Hn. unfold jhdr_bytes. apply has_app. split; [|exact Hr]. apply has_app. split; [done|]. split; [change (len (sqlite3Put4byte n)) with 4; change (len aJournalMagic) with 8; lia|exact Hn]. }
  assert (no_hdr c (align (seg_end h s))) as Hno'.
  { intros Hx. apply Hno. assert (0 <= seg_end h s) as H0 by (unfold seg_end; nia). pose proof (align_spec _ H0) as (A1 & _). eapply has_ext; [exact Hx|destruct Hx; lia|]. intros i Hi. symmetry. apply Hb; [lia|right]. pose proof (seg_end_lt h s). lia. }
  destruct W3 as [W3|W3].
  - exists (segs ++ [(s.1, [])]). split; [|split; [|by apply prefix_app_r]].
    + split; [apply segs_at_snoc; split; [done|split; [by apply Hhb|split; [unfold seg_end; cbn; unfold seg_end in Hend; nia|done]]]|]. rewrite segs_end_snoc. fold h. replace (seg_end h (s.1, [])) with (h + g_sz) by (unfold seg_end; cbn; lia). unfold h at 1. rewrite end_align. fold h.
      destruct s.2 as [|r recs] eqn:Es.
      * replace (h + g_sz) with (align (seg_end h s)); [done|]. unfold seg_end. rewrite Es. cbn [length]. rewrite Z.mul_0_l, Z.add_0_r. apply end_align.
      * destruct Hrecs as [Hr1 _]. pose proof Hok as [_ Ho]. rewrite Es in Ho. apply Forall_cons in Ho as [[Ho _] _]. apply (rec_no_hdr _ _ s.1 r Ho). eapply has_ext; [exact Hr1|pose proof (proj1 Hr1); lia|]. intros i Hi. apply Hb; lia.
    + apply Forall_app. split; [done|]. constructor; [|done]. destruct Hok as [(? & _ & _) _]. split; [split; [done|split; [cbn; lia|constructor]]|constructor].
  - exists (segs ++ [s]). split; [|split; [|by apply prefix_app_r]].
    + split; [apply segs_at_snoc; split; [done|split; [by apply Hhb|split; [fold h; lia|]]]|by rewrite segs_end_snoc]. eapply recs_at_ext; [apply Hok| | |exact Hrecs]; unfold seg_end in Hend; [lia|]. intros i Hi. apply Hb; lia.
    + apply Forall_app. split; [done|]. by constructor.
Qed.

(** The journal when its header is complete and synced *)
Lemma hdr_synced segs s d : jcur segs s (mkDFile d []) -> no_hdr d (align (seg_end (segs_end 0 segs) s)) -> jsafe (segs ++ [s]) (df_sync (df_do (mkDFile d []) (FWrite (segs_end 0 segs) (hdr12 (len s.2))))).
Proof using.
  intros Hj Hno. pose proof Hj as [Hs Hok _ Hend Hrecs]. pose proof Hs as [S1 S2 _ _]. destruct (cur_words _ _ _ Hj) as (_ & _ & _ & Hl28 & Hrest). pose proof geom_pos as (G1 & G2 & G3). pose proof (end_pos segs) as Hh.
  unfold df_sync. rewrite data_do. cbn [f_apply df_data df_log df_base fold_left] in *. set (h := segs_end 0 segs) in *. set (c := file_write d h (hdr12 (len s.2))). assert (len c = len d) as Hlen by (unfold c; rewrite len_write by done; rewrite decide_False by done; change (len (hdr12 (len s.2))) with 12; lia).
  assert (forall i, 0 <= i -> i < h \/ h + 12 <= i -> db_byte c i = db_byte d i) as Hb by (intros i Hi Hd; unfold c; rewrite db_byte_write by lia; change (len (hdr12 (len s.2))) with 12; by rewrite decide_False by lia).
  assert (has c h (jhdr_bytes s.1 (len s.2))) as Hhdr.
  { unfold jhdr_bytes. apply has_app. split; [destruct (has_write d h (hdr12 (len s.2)) Hh); done|]. change (has c (h + 12) (hdr_rest s.1)). eapply has_ext; [exact Hrest|change (len (hdr_rest s.1)) with 16; lia|]. intros i Hi. apply Hb; lia. }
  assert (0 <= align (seg_end h s) /\ h + 32 <= align (seg_end h s)) as [A1 A2] by (pose proof (seg_end_lt h s); assert (0 <= seg_end h s) as H0 by lia; pose proof (align_spec _ H0); lia).
  split; cbn [df_base df_log]; [apply Forall_app; split; [done|by constructor]| |constructor|rewrite segs_end_snoc; fold h].
  - apply segs_at_snoc. split; [eapply segs_at_ext; [done|by apply old_ok| | |exact S2]; [lia|]; intros i Hi; apply Hb; unfold h; lia|]. split; [done|]. split; [fold h; lia|]. eapply recs_at_ext; [apply Hok| | |exact Hrecs]; unfold seg_end in Hend; [lia|]. intros i Hi. apply Hb; lia.
  - apply never_synced; [done|]. intros Hx. apply Hno. eapply has_ext; [exact Hx|destruct Hx; lia|]. intros i Hi. symmetry. apply Hb; lia.
Qed.
End Write.
