(* ===== verification/JournalSync.v ===== *)
(** * JournalSync: the operations that write and sync the journal (pager.c) *)
From S2P Require Import Prelude Varint Record Page PageLayout PageCells Wal WalLog WalSpec UnixLock WalCkpt WalFile Journal PagerTxn JournalFile JournalPlay JournalReplay JournalRestore JournalWrite.

(** The fields that writing the journal does not change *)
Definition core (p : Pager) := (pr_eState p, pr_errCode p, pr_changeCountDone p, pr_dbSize p, pr_dbOrigSize p, pr_dbFileSize p, pr_sectorSize p, pr_pageSize p, pr_dbFileVers p, pr_jopen p, pr_conf p).

Record jframe (j j' : Jrnl) : Prop := mkJframe {
  jf_fd : j_fd j' = j_fd j;
  jf_cache : j_cache j' = j_cache j;
  jf_core : core (j_p j') = core (j_p j);
  jf_io : j_io j' `suffix_of` j_io j }.

Lemma jframe_refl j : jframe j j.
Proof. by split. Qed.

Lemma jframe_trans j1 j2 j3 : jframe j1 j2 -> jframe j2 j3 -> jframe j1 j3.
Proof. intros [? ? ? ?] [? ? ? ?]. split; [congruence..|by etransitivity]. Qed.

Lemma sane_suffix j j' : sane j -> j_io j' `suffix_of` j_io j -> sane j'.
Proof. intros Hs [q Hq]. unfold sane in *. rewrite Hq in Hs. by apply Forall_app in Hs as []. Qed.

(** A write to the journal: all of it, or some words of it *)
Lemma j_write_spec j l off : (exists m, length l = 4 * m)%nat -> post (j_write j l off) (fun rc j' => exists m, j_jfd j' = df_do (j_jfd j) (FWrite off (take (4 * m) l)) /\ (rc = SQLITE_OK -> take (4 * m) l = l) /\ jframe j j' /\ j_p j' = j_p j).
Proof.
  intros [q Hq]. unfold j_write. destruct (j_next_spec j) as (rc & n & io & -> & Hl). apply post_ret. unfold j_stored. destruct (Z.eqb_spec rc SQLITE_OK) as [->|Hn].
  - exists q. cbn. rewrite take_ge by lia. split; [done|]. split; [done|]. split; [|done]. split; try done. apply Hl.
  - exists (Z.to_nat n). cbn. split; [done|]. split; [done|]. split; [|done]. split; try done. apply Hl.
Qed.

Lemma jthen_assoc r f g : jthen r (fun j => jthen (f j) g) = jthen (jthen r f) g.
Proof. unfold jthen. destruct r as [[rc j]|]; [|done]. cbn [mbind option_bind]. destruct (Z.eqb_spec rc SQLITE_OK) as [->|Hn]; [done|]. cbn [mbind option_bind]. by rewrite (proj2 (Z.eqb_neq rc SQLITE_OK)). Qed.

Section Sync.
Context {G : Geom} (d0 : list Z).

(** A pager in fullSync mode on a device without the properties that relax it *)
Record conf_ok (p : Pager) : Prop := mkConf {
  cf_orig : pr_dbOrigSize p = g_orig;
  cf_sz : pr_sectorSize p = g_sz;
  cf_ps : pr_pageSize p = g_ps;
  cf_del : del_mode p;
  cf_ns : pc_noSync (pr_conf p) = false;
  cf_full : pc_fullSync (pr_conf p) = true;
  cf_append : flag (pc_iDc (pr_conf p)) SQLITE_IOCAP_SAFE_APPEND = false;
  cf_seq : flag (pc_iDc (pr_conf p)) SQLITE_IOCAP_SEQUENTIAL = false }.

Lemma conf_core p p' : core p' = core p -> conf_ok p -> conf_ok p'.
Proof using. intros Hc []. unfold core in Hc. simplify_eq. split; unfold del_mode in *; congruence. Qed.

(** ** Headers *)

Definition nHdr : Z := if g_sz <? g_ps then g_sz else g_ps.

Lemma nHdr_spec : 32 <= nHdr <= g_sz /\ (nHdr | g_sz) /\ (4 | nHdr).
Proof using.
  pose proof g_sz_ok as [[S1 S2] S3]. pose proof g_ps_ok as [[P1 P2] P3]. unfold nHdr. destruct (Z.ltb_spec g_sz g_ps) as [Hlt|Hge].
  - split; [lia|]. split; [apply Z.divide_refl|]. apply pow2_divide; [lia|done|done].
  - split; [lia|]. split; apply pow2_divide; try done; lia.
Qed.

Definition hdr_chunk (ck : Z) : list Z := (replicate 12 0 ++ hdr_rest ck) ++ replicate (Z.to_nat (nHdr - 28)) 0.

Lemma chunk_len ck : len (hdr_chunk ck) = nHdr.
Proof using. destruct nHdr_spec as [H _]. unfold hdr_chunk. rewrite length_app, length_replicate. change (length (replicate 12 0 ++ hdr_rest ck)) with 28%nat. lia. Qed.

Lemma chunk_words ck : exists m, length (hdr_chunk ck) = (4 * m)%nat.
Proof using. destruct nHdr_spec as (H & _ & [k Hk]). exists (Z.to_nat k). pose proof (chunk_len ck). lia. Qed.

(** The first chunk sets the words of the magic number to zero, as far as it is written. *)
Lemma chunk_zeroing d h m ck b : 0 <= h -> b = 0 \/ b = 4 -> zeroing d (file_write d h (take (4 * m) (hdr_chunk ck))) (h + b).
Proof using.
  intros Hh Hb. destruct (decide (b + 4 <= len (take (4 * m) (hdr_chunk ck)))) as [Hm|Hm].
  - right. rewrite f_read_in by lia. replace (h + b - h) with b by lia. rewrite length_take in Hm. transitivity (f_read (hdr_chunk ck) 4 b); [|by destruct Hb as [->| ->]]. apply f_read_ext. intros i Hi. unfold db_byte, aget. rewrite !decide_True by lia. by rewrite lookup_take_lt by lia.
  - left. apply f_read_out; [lia..|right]. rewrite length_take in *. destruct nHdr_spec as [Hn _]. pose proof (chunk_len ck). lia.
Qed.

(** The state of the loop that writes the header sector *)
Record hdr_state (segs : list seg) (ck nWrite : Z) (j : Jrnl) : Prop := mkHdrState {
  hs_safe : jsafe d0 segs (j_jfd j);
  hs_conf : conf_ok (j_p j);
  hs_ck : pr_cksumInit (j_p j) = ck;
  hs_hdr : pr_journalHdr (j_p j) = segs_end 0 segs;
  hs_off : pr_journalOff (j_p j) = segs_end 0 segs + nWrite;
  hs_data : 0 < nWrite -> has (df_data (j_jfd j)) (segs_end 0 segs) (replicate 12 0 ++ hdr_rest ck) /\ segs_end 0 segs + nWrite <= len (df_data (j_jfd j)) }.

Definition hdr_done (segs : list seg) (ck : Z) (j : Jrnl) (rc : Z) (j' : Jrnl) : Prop :=
  jframe j j' /\ pr_nRec (j_p j') = pr_nRec (j_p j) /\ pr_pInJournal (j_p j') = pr_pInJournal (j_p j) /\ jsafe d0 segs (j_jfd j') /\ (rc = SQLITE_OK -> hdr_state segs ck g_sz j' /\ len (df_data (j_jfd j')) <= Z.max (len (df_data (j_jfd j))) (segs_end 0 segs + g_sz)).

Lemma hdr_step segs ck nWrite j m j1 : 0 <= nWrite -> hdr_state segs ck nWrite j -> (nWrite = 0 \/ 28 <= nWrite) -> j_jfd j1 = df_do (j_jfd j) (FWrite (segs_end 0 segs + nWrite) (take (4 * m) (hdr_chunk ck))) -> jsafe d0 segs (j_jfd j1).
Proof using.
  intros Hn [H1 H2 H3 H4 H5 H6] Hw E. pose proof (end_pos segs). rewrite E. destruct Hw as [->|Hw].
  - rewrite Z.add_0_r. apply jsafe_do; [done|lia|]. intros d ->. split; [|apply chunk_zeroing; [done|by right]]. rewrite <- (Z.add_0_r (segs_end 0 segs)) at 2. apply chunk_zeroing; [done|by left].
  - apply jsafe_after; [done|lia].
Qed.

Lemma hdr_loop_spec fuel segs ck nWrite j : hdr_state segs ck nWrite j -> (nHdr | nWrite) -> 0 <= nWrite <= g_sz -> (Z.to_nat (g_sz - nWrite) < fuel)%nat -> post (hdr_loop fuel j (hdr_chunk ck) nHdr nWrite) (hdr_done segs ck j).
Proof using.
  revert nWrite j. induction fuel as [|fuel IH]; intros nWrite j Hs Hd Hn Hf; [lia|]. pose proof Hs as [H1 H2 H3 H4 H5 H6]. cbn [hdr_loop]. unfold JOURNAL_HDR_SZ. rewrite (cf_sz _ H2). destruct nHdr_spec as (N1 & N2 & N3). destruct (Z.ltb_spec nWrite g_sz) as [Hlt|Hge].
  2:{ apply post_ret. assert (nWrite = g_sz) as -> by lia. split; [apply jframe_refl|]. split; [done|]. split; [done|]. split; [done|]. intros _. split; [done|lia]. }
  assert (nWrite + nHdr <= g_sz) as Hle. { destruct Hd as [a Ha], N2 as [b Hb]. rewrite Ha, Hb in *. assert (a < b) by nia. nia. }
  assert (nWrite = 0 \/ 28 <= nWrite) as Hw. { destruct Hd as [a Ha]. destruct (decide (a = 0)) as [->|]; [left; lia|right; nia]. }
  eapply post_bind; [apply j_write_spec, chunk_words|]. intros rc j1 (m & E1 & E2 & E3 & E4). cbn beta iota. rewrite H5 in E1. pose proof (hdr_step _ _ _ _ m j1 (proj1 Hn) Hs Hw E1) as Hsafe. rewrite E4, H4, H5. replace (segs_end 0 segs <=? segs_end 0 segs + nWrite) with true by lia. cbn [assert_ mbind option_bind].
  set (j2 := set_p j1 _). assert (jframe j j2) as Hj2 by (eapply jframe_trans; [exact E3|]; unfold j2; split; [done|done| |done]; cbn; by rewrite E4). destruct (Z.eqb_spec rc SQLITE_OK) as [->|Hne].
  2:{ apply post_ret. split; [done|]. split; [done|]. split; [done|]. by split. }
  rewrite (E2 eq_refl) in E1. eapply post_mono; [apply (IH (nWrite + nHdr) j2); [|by apply Z.divide_add_r; [|apply Z.divide_refl]|lia|lia]|].
  - pose proof (end_pos segs). pose proof (chunk_len ck) as Hcl. split; [done|by eapply conf_core; [apply Hj2|]|done|done|cbn; lia|]. intros _. change (j_jfd j2) with (j_jfd j1). rewrite E1, data_do. cbn [f_apply]. split.
    + destruct Hw as [->|Hw].
      * rewrite Z.add_0_r. destruct (has_write (df_data (j_jfd j)) (segs_end 0 segs) (hdr_chunk ck)) as [Hh|Hh]; [lia| |by apply (f_equal (fun l => len l)) in Hh; rewrite Hcl in Hh; cbn in Hh; lia]. unfold hdr_chunk in Hh at 2. by apply has_app in Hh as [Hh _].
      * apply has_write_ne; [lia|apply H6; lia|lia|right]. change (len (replicate 12 0 ++ hdr_rest ck)) with 28. lia.
    + rewrite len_write by lia. rewrite decide_False by (intros Hh; rewrite Hh in Hcl; cbn in Hcl; lia). lia.
  - intros rc j3 (A1 & A2 & A3 & A4 & A5). split; [by eapply jframe_trans|]. split; [done|]. split; [done|]. split; [done|]. intros Hrc. destruct (A5 Hrc) as [A6 A7]. split; [done|]. change (j_jfd j2) with (j_jfd j1) in A7. rewrite E1, data_do in A7. cbn [f_apply] in A7. pose proof (end_pos segs). rewrite len_write in A7 by lia. pose proof (chunk_len ck). case_decide; lia.
Qed.

Definition hdr_written (segs : list seg) (j : Jrnl) (rc : Z) (j' : Jrnl) : Prop :=
  jframe j j' /\ pr_nRec (j_p j') = pr_nRec (j_p j) /\ pr_pInJournal (j_p j') = pr_pInJournal (j_p j) /\ jsafe d0 segs (j_jfd j') /\
  (rc = SQLITE_OK -> exists ck, jcur d0 segs (ck, []) (j_jfd j') /\ pr_cksumInit (j_p j') = ck /\ pr_journalHdr (j_p j') = segs_end 0 segs /\ pr_journalOff (j_p j') = segs_end 0 segs + g_sz /\ len (df_data (j_jfd j')) <= Z.max (len (df_data (j_jfd j))) (segs_end 0 segs + g_sz)).

Lemma writeHdr_spec segs j : jsafe d0 segs (j_jfd j) -> conf_ok (j_p j) -> 0 <= pr_journalOff (j_p j) -> align (pr_journalOff (j_p j)) = segs_end 0 segs -> post (writeJournalHdr j) (hdr_written segs j).
Proof using.
  intros Hs Hc Ho Ha. unfold writeJournalHdr, JOURNAL_HDR_SZ. rewrite (hdr_offset _ (cf_sz _ Hc) Ho), Ha. cbn [mbind option_bind]. set (j1 := set_p j _). destruct (j_next_spec j1) as (rc0 & rnd & io & -> & Hl). rewrite (cf_sz _ Hc), (cf_ps _ Hc). fold nHdr. destruct nHdr_spec as (N1 & N2 & N3). replace (28 <=? nHdr) with true by lia. cbn [assert_ mbind option_bind].
  set (j2 := set_p (with_io j1 io) _). assert (hdr_state segs (u32 rnd) 0 j2) as Hst.
  { split; try done; [destruct Hc; by split|cbn; lia]. }
  assert (jframe j j2 /\ pr_nRec (j_p j2) = pr_nRec (j_p j) /\ pr_pInJournal (j_p j2) = pr_pInJournal (j_p j)) as (F1 & F2 & F3) by (split; [split; try done; apply Hl|done]).
  replace (hdr_fields (j_p j2) ++ replicate (Z.to_nat (nHdr - 28)) 0) with (hdr_chunk (u32 rnd)).
  2:{ unfold hdr_chunk, hdr_fields, hdr_rest. destruct Hst as [_ [] E _ _ _]. rewrite cf_ns0, cf_append0, cf_orig0, cf_sz0, cf_ps0, E. done. }
  replace (pr_sectorSize (j_p j2)) with g_sz by (symmetry; apply Hst). assert (j_jfd j2 = j_jfd j) as Ej by done. clearbody j2. eapply post_mono; [apply (hdr_loop_spec _ segs); [exact Hst|apply Z.divide_0_r|lia|lia]|].
  intros rc j3 (A1 & A2 & A3 & A4 & A5). split; [by eapply jframe_trans|]. split; [congruence|]. split; [congruence|]. split; [done|]. intros Hrc. destruct (A5 Hrc) as [[B1 B2 B3 B4 B5 B6] B8]. exists (u32 rnd). destruct B6 as [B6 B7]; [lia|]. rewrite Ej in B8. split; [|done]. split; [done| |done|unfold seg_end; cbn; lia|done].
  split; [|constructor]. split; [apply Z.mod_pos_bound; lia|]. split; [cbn; lia|constructor].
Qed.

(** ** Records *)

(** The pager while a segment is filled *)
Record jact (segs : list seg) (s : seg) (j : Jrnl) : Prop := mkJact {
  ja_cur : jcur d0 segs s (j_jfd j);
  ja_conf : conf_ok (j_p j);
  ja_hdr : pr_journalHdr (j_p j) = segs_end 0 segs;
  ja_off : pr_journalOff (j_p j) = seg_end (segs_end 0 segs) s;
  ja_ck : pr_cksumInit (j_p j) = s.1;
  ja_nrec : pr_nRec (j_p j) = len s.2;
  ja_open : pr_jopen (j_p j) = true;
  ja_len : g_clean = true -> len (df_data (j_jfd j)) <= pr_journalOff (j_p j) }.

Lemma jact_io segs s j io : jact segs s j -> jact segs s (with_io j io).
Proof using. intros []. by split. Qed.

Lemma recs_at_snoc c off ck recs r : recs_at c off ck (recs ++ [r]) <-> recs_at c off ck recs /\ has c (off + len recs * (g_ps + 8)) (rec_bytes ck r).
Proof using.
  revert off. induction recs as [|x recs IH]; intros off.
  - cbn. rewrite Z.add_0_r. tauto.
  - cbn [recs_at app length]. rewrite IH. replace (off + g_ps + 8 + len recs * (g_ps + 8)) with (off + Z.of_nat (S (length recs)) * (g_ps + 8)) by lia. tauto.
Qed.

Lemma ps_words : exists m, g_ps = 4 * Z.of_nat m.
Proof using. pose proof g_ps_ok as [[P1 P2] P3]. destruct (pow2_divide 4 g_ps) as [k Hk]; [lia|done|done|]. exists (Z.to_nat k). lia. Qed.

Lemma has_write' c off l : 0 <= off -> 0 < len l -> has (file_write c off l) off l.
Proof using. intros Ho Hl. destruct (has_write c off l Ho) as [| ->]; [done|cbn in Hl; lia]. Qed.

(** The three writes of a record *)
Lemma rec_written segs ck cur f r : jcur d0 segs (ck, cur) f -> old_rec d0 r -> len cur + 1 < 0xffffffff -> let o := seg_end (segs_end 0 segs) (ck, cur) in
  jcur d0 segs (ck, cur ++ [r]) (df_do (df_do (df_do f (FWrite o (sqlite3Put4byte r.1))) (FWrite (o + 4) r.2)) (FWrite (o + g_ps + 4) (sqlite3Put4byte (g_cks ck r.2)))).
Proof using.
  intros Hj Hr Hn o. pose proof geom_pos as (G1 & G2 & G3). pose proof (end_pos segs) as Hh. assert (0 <= o) as Ho by (unfold o, seg_end; nia). pose proof Hr as [(R1 & R2 & R3) _].
  assert (jcur d0 segs (ck, cur) (df_do (df_do (df_do f (FWrite o (sqlite3Put4byte r.1))) (FWrite (o + 4) r.2)) (FWrite (o + g_ps + 4) (sqlite3Put4byte (g_cks ck r.2))))) as [J1 J2 J3 J4 J5] by (apply jcur_after; [apply jcur_after; [apply jcur_after; [done|]|]|]; fold o; lia).
  set (f' := df_do _ _) in *. assert (has (df_data f') o (rec_bytes ck r)) as Hrec.
  { unfold f', rec_bytes. rewrite !data_do. cbn [f_apply]. apply has_app. rewrite put4_len. split; [|apply has_app; split].
    - apply has_write_ne; [lia| |lia|right; change (len (sqlite3Put4byte r.1)) with 4; lia]. apply has_write_ne; [lia| |lia|right; change (len (sqlite3Put4byte r.1)) with 4; lia]. apply has_write'; [lia|done].
    - apply has_write_ne; [lia| |lia|right; lia]. apply has_write'; lia.
    - rewrite R3. replace (o + Z.of_nat 4 + g_ps) with (o + g_ps + 4) by lia. apply has_write'; [lia|done]. }
  destruct J2 as [(K1 & K2 & K3) K4]. cbn [fst snd] in *. split; [done| |done| |].
  - split; [split; [done|split; [cbn [snd]; rewrite length_app; cbn; lia|]]|]; apply Forall_app; (split; [done|]); (constructor; [apply Hr|done]).
  - destruct Hrec as [Hrec _]. rewrite rec_len in Hrec by apply Hr. unfold o, seg_end in *. cbn [fst snd] in *. rewrite length_app. cbn [length]. lia.
  - apply recs_at_snoc. split; [done|]. exact Hrec.
Qed.

Definition rec_done (segs : list seg) (s : seg) (j : Jrnl) (pgno : Z) (d : list Z) (rc : Z) (j' : Jrnl) : Prop :=
  jframe j j' /\ jsafe d0 segs (j_jfd j') /\ (rc = SQLITE_OK -> jact segs (s.1, s.2 ++ [(pgno, d)]) j' /\ pr_pInJournal (j_p j') = {[pgno]} ∪ pr_pInJournal (j_p j)).

Lemma journal_page_spec segs s j pgno d : jact segs s j -> old_rec d0 (pgno, d) -> len s.2 + 1 < 0xffffffff -> post (journal_page j pgno d) (rec_done segs s j pgno d).
Proof using.
  intros Ha Hr Hn. pose proof Ha as [A1 A2 A3 A4 A5 A6 A7 A8]. pose proof Hr as [(R1 & R2 & R3) _]. cbn [fst snd] in *. pose proof geom_pos as (G1 & G2 & G3). pose proof (end_pos segs) as Hh. unfold journal_page. unfold PAGER_MJ_PGNO. rewrite (cf_ps _ A2). change (PENDING_BYTE / g_ps + 1) with g_mj. replace (pgno =? g_mj) with false by (symmetry; by apply Z.eqb_neq).
  rewrite A3, A4. replace (segs_end 0 segs <=? seg_end (segs_end 0 segs) s) with true by (symmetry; apply Z.leb_le; pose proof (seg_end_lt (segs_end 0 segs) s); lia). cbn [negb assert_ mbind option_bind]. destruct (g_cks_spec (j_p j) d) as [C1 C2]; [apply A2|done|rewrite A5; apply A1|]. rewrite C1. cbn [mbind option_bind]. rewrite A5. set (o := seg_end (segs_end 0 segs) s).
  assert (segs_end 0 segs + 8 <= o) as Ho8 by (pose proof (seg_end_lt (segs_end 0 segs) s); lia).
  eapply post_then; [apply j_write_spec; by exists 1%nat| |].
  2:{ intros rc j1 Hne (m & E1 & _ & F1 & _). split; [done|]. split; [|done]. rewrite E1. apply jsafe_after; [apply A1|done]. }
  intros j1 (m1 & E1 & T1 & F1 & P1). rewrite (T1 eq_refl) in E1. assert (jsafe d0 segs (j_jfd j1)) as S1 by (rewrite E1; apply jsafe_after; [apply A1|done]). eapply post_then; [apply j_write_spec; destruct ps_words as [m Hm]; exists m; lia| |].
  2:{ intros rc j2 Hne (m & E2 & _ & F2 & _). split; [by eapply jframe_trans|]. split; [|done]. rewrite E2. apply jsafe_after; [done|lia]. }
  intros j2 (m2 & E2 & T2 & F2 & P2). rewrite (T2 eq_refl) in E2. assert (jsafe d0 segs (j_jfd j2)) as S2 by (rewrite E2; apply jsafe_after; [done|lia]). rewrite P2, P1, (cf_ps _ A2). eapply post_then; [apply j_write_spec; by exists 1%nat| |].
  2:{ intros rc j3 Hne (m & E3 & _ & F3 & _). split; [eapply jframe_trans; [exact F1|by eapply jframe_trans]|]. split; [|done]. rewrite E3. apply jsafe_after; [done|lia]. }
  intros j3 (m3 & E3 & T3 & F3 & P3). rewrite (T3 eq_refl) in E3. assert (j_p j3 = j_p j) as P by congruence. rewrite E2, E1 in E3. assert (jframe j j3) as F by (eapply jframe_trans; [exact F1|by eapply jframe_trans]).
  pose proof (rec_written segs s.1 s.2 (j_jfd j) (pgno, d)) as Hw. replace (s.1, s.2) with s in Hw by by destruct s. specialize (Hw A1 Hr Hn). cbn [fst snd] in Hw. fold o in Hw. rewrite <- E3 in Hw.
  set (j4 := set_p (set_p j3 _) _). assert (jact segs (s.1, s.2 ++ [(pgno, d)]) j4 /\ jframe j j4 /\ pr_pInJournal (j_p j4) = pr_pInJournal (j_p j)) as (B1 & B2 & B3).
  { unfold j4. split; [|split; [|cbn; by rewrite P]].
    - split; cbn; rewrite ?P; try done; [destruct A2; by split| |rewrite A6, length_app; cbn; lia|].
      + rewrite A4, (cf_ps _ A2). unfold o, seg_end. cbn. rewrite length_app. cbn. lia.
      + intros Hcl. specialize (A8 Hcl). rewrite E3, !data_do. cbn [f_apply]. rewrite A4, (cf_ps _ A2) in *. fold o in A8 |- *. rewrite !len_write by (rewrite ?len_write; lia). rewrite !put4_len, R3. repeat case_decide; lia.
    - destruct F as [? ? Hco ?]. split; done. }
  clearbody j4. eapply post_then; [apply j_call_spec| |].
  - intros j5 (io & -> & Hl). apply post_ret. split; [eapply jframe_trans; [exact B2|]; split; try done; apply Hl|]. split; [apply B1|]. intros _. cbn. rewrite B3. split; [|done]. destruct B1 as [D1 [] D3 D4 D5 D6 D7 D8]. by split.
  - intros rc j5 Hne (io & -> & Hl). split; [eapply jframe_trans; [exact B2|]; split; try done; apply Hl|]. split; [apply B1|done].
Qed.

(** ** Syncing *)

(** What a crash leaves while the header is completed *)
Definition jsafe' (segs : list seg) (f : DFile) : Prop := forall c, crash_of f c -> exists segs', jrnl_at c segs' /\ Forall (old_seg d0) segs' /\ segs `prefix_of` segs'.

Lemma jsafe_weaken segs f : jsafe d0 segs f -> jsafe' segs f.
Proof using. intros Hs c Hc. exists segs. split; [by apply (jsafe_crash d0 segs f)|]. split; [apply Hs|done]. Qed.

Lemma sync_call j : post (j_sync j) (fun rc j' => jframe j j' /\ j_p j' = j_p j /\ (rc = SQLITE_OK -> j_jfd j' = df_sync (j_jfd j)) /\ (rc <> SQLITE_OK -> j_jfd j' = j_jfd j)).
Proof using.
  unfold j_sync. destruct (j_next_spec j) as (rc & n & io & -> & Hl). apply post_ret. destruct (Z.eqb_spec rc SQLITE_OK) as [->|Hn]; (split; [split; try done; apply Hl|]); done.
Qed.

(** After sync_next no header follows the records. *)
Lemma sync_next_spec segs s j : jact segs s j -> sane j -> post (sync_next j) (fun rc j' => jframe j j' /\ j_p j' = j_p j /\ jcur d0 segs s (j_jfd j') /\ len (df_data (j_jfd j')) = len (df_data (j_jfd j)) /\ (rc = SQLITE_OK -> no_hdr (df_data (j_jfd j')) (align (seg_end (segs_end 0 segs) s)))).
Proof using.
  intros [A1 A2 A3 A4 A5 A6 A7 A8] Hsane. pose proof geom_pos as (G1 & G2 & G3). pose proof (end_pos segs) as Hh. unfold sync_next. assert (0 <= seg_end (segs_end 0 segs) s) as H0 by (pose proof (seg_end_lt (segs_end 0 segs) s); lia). rewrite (hdr_offset _ (cf_sz _ A2)), A4 by lia. cbn [mbind option_bind]. destruct (align_spec _ H0) as (Al & _). set (a := align _) in *.
  unfold j_read, j_os_read. destruct (j_next_spec j) as (rc & n & io & -> & Hl). rewrite (proj2 (Z.ltb_ge a 0)) by lia. destruct (sane_later _ _ _ Hsane Hl) as (Hio & N1 & N2). rewrite (proj2 (Z.eqb_neq rc SQLITE_IOERR_SHORT_READ)) by done. rewrite orb_false_r. change (j_jfd (with_io j io)) with (j_jfd j). set (d := df_data (j_jfd j)).
  assert (jframe j (with_io j io)) as F0 by (split; try done; apply Hl). destruct (Z.eqb_spec rc SQLITE_OK) as [->|Hn].
  2:{ rewrite (proj2 (Z.eqb_neq rc SQLITE_OK)) by done. cbn [andb mbind option_bind]. apply post_ret. rewrite (proj2 (Z.eqb_neq rc SQLITE_IOERR_SHORT_READ)) by done. done. }
  destruct (Z.leb_spec (a + 8) (len d)) as [Hle|Hgt].
  2:{ cbn [Z.eqb andb]. change (SQLITE_IOERR_SHORT_READ =? SQLITE_OK) with false. cbn [andb mbind option_bind]. apply post_ret. rewrite Z.eqb_refl. split; [done|]. split; [done|]. split; [done|]. split; [done|]. intros _ [Hx _]. change (len aJournalMagic) with 8 in Hx. cbn in Hx. fold d in Hx. lia. }
  change (SQLITE_OK =? SQLITE_OK) with true. cbn [andb]. destruct (bool_decide (f_read d 8 a = aJournalMagic)) eqn:Hb.
  - unfold j_write. destruct (j_next_spec (with_io j io)) as (rc2 & n2 & io2 & -> & Hl2). cbn [mbind option_bind]. destruct (sane_later (with_io j io) rc2 io2 Hio Hl2) as (_ & N3 & N4). apply post_ret. rewrite (proj2 (Z.eqb_neq rc2 SQLITE_IOERR_SHORT_READ)) by done. split; [eapply jframe_trans; [exact F0|]; split; try done; apply Hl2|]. split; [done|]. cbn [j_jfd set_jfd]. split; [by apply jcur_after|]. split; [cbn [j_jfd with_io]; rewrite data_do; cbn [f_apply]; fold d; rewrite len_write by lia; assert (len (j_stored rc2 n2 [0]) <= 1) by (unfold j_stored; case_match; rewrite ?length_take; cbn [length]; lia); destruct (decide _); lia|].
    intros ->. cbn [j_stored Z.eqb]. rewrite data_do. cbn [f_apply]. intros Hx. apply (has_byte _ _ _ 0) in Hx; [|done]. rewrite db_byte_write in Hx by lia. rewrite decide_True in Hx by (cbn; lia). rewrite Z.add_0_r, Z.sub_diag in Hx. done.
  - cbn [mbind option_bind]. apply post_ret. split; [done|]. split; [done|]. split; [done|]. split; [done|]. intros _ [_ Hx]. apply bool_decide_eq_false in Hb. by apply Hb.
Qed.

(** The header and the records are synced: the segment is one more of the synced ones. *)
Definition seg_synced (segs : list seg) (s : seg) (j : Jrnl) (rc : Z) (j' : Jrnl) : Prop :=
  jframe j j' /\ j_p j' = j_p j /\ jsafe' segs (j_jfd j') /\ (rc = SQLITE_OK -> jsafe d0 (segs ++ [s]) (j_jfd j') /\ df_log (j_jfd j') = [] /\ len (df_data (j_jfd j')) = len (df_data (j_jfd j))).

Lemma seg_sync_spec segs s j (k := fun j => let_ok j := sync_next j in let_ok j := (if pc_fullSync (pr_conf (j_p j)) && negb false then j_sync j else Some (SQLITE_OK, j)) in j_write j (aJournalMagic ++ sqlite3Put4byte (pr_nRec (j_p j))) (pr_journalHdr (j_p j))) : jact segs s j -> sane j ->
  post (let_ok j := k j in j_sync j) (seg_synced segs s j).
Proof using.
  intros Ha Hsane. pose proof Ha as [A1 A2 A3 A4 A5 A6 A7 A8]. unfold k.
  eapply (post_then _ _ (fun rc j' => jframe j j' /\ j_p j' = j_p j /\ jsafe' segs (j_jfd j') /\ (rc = SQLITE_OK -> jsafe d0 (segs ++ [s]) (df_sync (j_jfd j')) /\ len (df_data (j_jfd j')) = len (df_data (j_jfd j))))).
  - eapply post_then; [by apply (sync_next_spec segs s)| |].
    2:{ intros rc j1 Hn (F1 & P1 & C1 & _). split; [done|]. split; [done|]. split; [apply jsafe_weaken, C1|done]. }
    intros j1 (F1 & P1 & C1 & N0 & N1). specialize (N1 eq_refl). rewrite P1, (cf_full _ A2). cbn [andb negb]. eapply post_then; [apply sync_call| |].
    2:{ intros rc j2 Hn (F2 & P2 & _ & E2). split; [by eapply jframe_trans|]. split; [congruence|]. split; [rewrite (E2 Hn); apply jsafe_weaken, C1|done]. }
    intros j2 (F2 & P2 & E2 & _). specialize (E2 eq_refl). assert (j_p j2 = j_p j) as P by congruence. rewrite P, A3, A6. pose proof (jcur_sync _ _ _ _ C1) as C2. unfold df_sync in C2, E2. set (d := df_data (j_jfd j1)) in *. eapply post_mono; [apply j_write_spec; by exists 3%nat|]. intros rc j3 (m & E3 & T3 & F3 & P3). change (aJournalMagic ++ sqlite3Put4byte (len s.2)) with (hdr12 (len s.2)) in *.
    split; [eapply jframe_trans; [exact F1|by eapply jframe_trans]|]. split; [congruence|]. split.
    + intros c Hc. rewrite E3, E2 in Hc. apply (mix_journal d0 segs s d c); [done|done|]. by apply (torn_mix d0 segs s d m).
    + intros Hrc. rewrite E3, E2, (T3 Hrc). split; [by apply hdr_synced|]. rewrite data_do. cbn [f_apply]. destruct C2 as [_ _ [Hx _] _ _]. change (len (replicate 12 0 ++ hdr_rest s.1)) with 28 in Hx. change (df_data (mkDFile d [])) with d in *. pose proof (end_pos segs). rewrite len_write by done. change (len (hdr12 (len s.2))) with 12. destruct (decide _); lia.
  - intros j1 (F1 & P1 & S1 & D1). eapply post_mono; [apply sync_call|]. intros rc j2 (F2 & P2 & E2 & E2'). split; [by eapply jframe_trans|]. split; [congruence|]. destruct (decide (rc = SQLITE_OK)) as [->|Hn].
    + rewrite (E2 eq_refl). destruct (D1 eq_refl) as [Hj Hl]. split; [|intros _; split; [done|split; [done|by rewrite sync_data]]]. intros c Hc. exists (segs ++ [s]). split; [by eapply jsafe_crash|]. split; [apply Hj|by apply prefix_app_r].
    + rewrite (E2' Hn). split; [done|]. done.
  - intros rc j1 Hn (F1 & P1 & S1 & _). split; [done|]. split; [done|]. split; [done|]. done.
Qed.

Definition synced (segs : list seg) (s : seg) (j : Jrnl) (newHdr : bool) (rc : Z) (j' : Jrnl) : Prop :=
  j_fd j' = j_fd j /\ j_io j' `suffix_of` j_io j /\ jsafe' segs (j_jfd j') /\
  (rc = SQLITE_OK -> j_cache j' = clear_sync (j_cache j) /\ core (j_p j') = core (pr_state (j_p j) PAGER_WRITER_DBMOD (pr_errCode (j_p j)) (pr_changeCountDone (j_p j))) /\ pr_pInJournal (j_p j') = pr_pInJournal (j_p j) /\
    if newHdr then exists ck, jact (segs ++ [s]) (ck, []) j' else jsafe d0 (segs ++ [s]) (j_jfd j')).

Lemma syncJournal_spec segs s j newHdr : jact segs s j -> sane j -> post (syncJournal j newHdr) (synced segs s j newHdr).
Proof using.
  intros Ha Hsane. pose proof (end_pos segs) as Hh. unfold syncJournal.
  assert (forall rc j', jframe j j' -> jsafe' segs (j_jfd j') -> rc <> SQLITE_OK -> synced segs s j newHdr rc j') as Hbad by (intros rc j' [] Hs Hn; split; [done|split; [done|split; done]]).
  eapply post_then; [apply j_call_spec| |].
  2:{ intros rc j1 Hn (io & -> & Hl). apply Hbad; [|apply jsafe_weaken, Ha|done]. split; try done. apply Hl. }
  intros ? (io & -> & Hl). assert (jframe j (with_io j io)) as F0 by (split; try done; apply Hl). pose proof (jact_io _ _ _ io Ha) as Ha0. assert (sane (with_io j io)) as Hs0 by by eapply sane_later. set (j0 := with_io j io) in *. assert (j_p j0 = j_p j) as P0 by done. clearbody j0. pose proof Ha0 as [A1 A2 A3 A4 A5 A6 A7 A8].
  eapply (post_then _ _ (fun rc j' => jframe j j' /\ jsafe' segs (j_jfd j') /\ (rc = SQLITE_OK -> pr_pInJournal (j_p j') = pr_pInJournal (j_p j) /\ if newHdr then exists ck, jact (segs ++ [s]) (ck, []) j' else jsafe d0 (segs ++ [s]) (j_jfd j')))).
  - rewrite A7, (cf_ns _ A2), (cf_append _ A2), (cf_seq _ A2). cbn [negb]. rewrite andb_true_r. rewrite (jthen_assoc _ j_sync). eapply post_then; [apply (seg_sync_spec segs s j0 Ha0 Hs0)| |].
    2:{ intros rc j2 Hn (F & P & S & _). split; [by eapply jframe_trans|]. by split. }
    intros j1 (F1 & P1 & S1 & D1). destruct (D1 eq_refl) as (D2 & _ & Dl). cbv zeta. assert (jframe j j1) as F by by eapply jframe_trans. destruct newHdr.
    + set (j2 := set_p (set_p j1 _) _). assert (pr_journalOff (j_p j2) = seg_end (segs_end 0 segs) s) as O2 by (cbn; rewrite P1; apply A4). assert (jframe j j2 /\ pr_pInJournal (j_p j2) = pr_pInJournal (j_p j)) as [F2 I2] by (unfold j2; rewrite P1, P0; destruct F as [? ? E ?]; split; [by split|done]).
      assert (0 <= seg_end (segs_end 0 segs) s) as H0 by (pose proof (seg_end_lt (segs_end 0 segs) s); lia). eapply post_mono; [apply (writeHdr_spec (segs ++ [s])); [done|eapply conf_core; [apply F2|apply Ha]|lia|by rewrite O2, segs_end_snoc]|].
      intros rc j3 (W1 & W2 & W3 & W4 & W5). split; [by eapply jframe_trans|]. split.
      * intros c Hc. exists (segs ++ [s]). split; [by eapply jsafe_crash|]. split; [apply W4|by apply prefix_app_r].
      * intros Hrc. split; [congruence|]. destruct (W5 Hrc) as (ck & V1 & V2 & V3 & V4 & V5). exists ck. assert (core (j_p j3) = core (j_p j)) as Hc3 by (transitivity (core (j_p j2)); [apply W1|apply F2]). split; [done|by eapply conf_core; [|apply Ha]|done|rewrite V4; unfold seg_end; cbn; lia|done|by rewrite W2| |].
        { unfold core in Hc3. simplify_eq. rewrite P0 in *. congruence. }
        intros Hcl. change (j_jfd j2) with (j_jfd j1) in V5. rewrite Dl in V5. specialize (A8 Hcl). rewrite segs_end_snoc in *. pose proof (align_spec _ H0). lia.
    + apply post_ret. split; [destruct F as [? ? E ?]; split; try done; cbn; by rewrite P1, P0|]. split; [done|]. intros _. split; [cbn; by rewrite P1, P0|done].
  - intros j1 (F1 & S1 & D1). destruct (D1 eq_refl) as [I1 D2]. destruct F1 as [E1 E2 E3 E4]. apply post_ret. split; [done|]. split; [done|]. split; [done|]. intros _. cbn [j_cache set_cache set_p]. rewrite E2. split; [done|]. split; [unfold core in *; cbn; simplify_eq; congruence|]. split; [done|].
    destruct newHdr; [|done]. destruct D2 as (ck & [K1 [] K3 K4 K5 K6 K7 K8]). exists ck. by split.
  - intros rc j1 Hn (F1 & S1 & _). by apply Hbad.
Qed.
End Sync.
