(* ===== verification/PagerInv.v ===== *)
(** * PagerInv: the invariant of a transaction with a rollback journal (pager.c)

    The pages that may be written to the database file have their old content in the
    synced part of the journal.  [segs] are the synced segments, [s] is the one that is
    being filled, and [v] is the content of the pages as the transaction sees it. *)
From S2P Require Import Prelude Varint Record Page PageLayout PageCells Wal WalLog WalSpec UnixLock WalCkpt WalFile Journal PagerTxn JournalFile JournalPlay JournalReplay JournalRestore JournalWrite JournalSync.

(** Pages have the same content, for page 1 up to the change counters and the version *)
Definition psim (p : Z) (a b : list Z) : Prop := length a = length b /\ forall i, 0 <= i -> (p = 1 -> ~ (24 <= i < 28) /\ ~ (92 <= i < 100)) -> db_byte a i = db_byte b i.

Lemma psim_refl p a : psim p a a.
Proof. by split. Qed.

Lemma psim_trans p a b c : psim p a b -> psim p b c -> psim p a c.
Proof. intros [H1 H2] [H3 H4]. split; [congruence|]. intros i Hi Hp. rewrite H2, H4; done. Qed.

Lemma psim_eq p a b : p <> 1 -> psim p a b -> a = b.
Proof. intros Hp [H1 H2]. apply bytes_eq; [done|]. intros i Hi. apply H2; [lia|done]. Qed.

Section Inv.
Context {G : Geom} (d0 : list Z).

Definition page_ok (p : Z) : Prop := 1 <= p <= PAGER_MAX_PGNO /\ p <> g_mj.

(** A page as the transaction sees it *)
Definition view (j : Jrnl) (p : Z) : list Z := match j_cache j !! p with Some g => ph_data g | None => db_page g_ps (df_data (j_fd j)) p end.

Definition rpages (segs : list seg) (s : seg) : list Z := (all_recs segs ++ s.2).*1.

(** The journal: not open, being written, or complete *)
Inductive mode := Locked | Active | Final.

Definition jmode (m : mode) (segs : list seg) (s : seg) (j : Jrnl) : Prop :=
  match m with
  | Locked => pr_eState (j_p j) = PAGER_WRITER_LOCKED /\ segs = [] /\ s.2 = [] /\ jsafe d0 [] (j_jfd j) /\ (pr_jopen (j_p j) = false /\ (g_clean = true -> df_data (j_jfd j) = [])) /\ forall p g, j_cache j !! p = Some g -> ph_dirty g = false
  | Active => pr_eState (j_p j) = (if decide (segs = []) then PAGER_WRITER_CACHEMOD else PAGER_WRITER_DBMOD) /\ jact d0 segs s j
  | Final => pr_eState (j_p j) = PAGER_WRITER_DBMOD /\ pr_jopen (j_p j) = true /\ segs <> [] /\ s.2 = [] /\ jsafe d0 segs (j_jfd j)
  end.

(** The cache *)
Record cache_ok (segs : list seg) (s : seg) (j : Jrnl) : Prop := mkCacheOk {
  co_page : forall p g, j_cache j !! p = Some g -> page_ok p /\ len (ph_data g) = g_ps;
  co_clean : forall p g, j_cache j !! p = Some g -> p <= g_orig -> p ∉ pr_pInJournal (j_p j) -> ph_dirty g = false /\ ph_data g = db_page g_ps d0 p;
  co_same : forall p g, j_cache j !! p = Some g -> ph_dirty g = false -> ph_data g = db_page g_ps (df_data (j_fd j)) p;
  co_size : forall p g, j_cache j !! p = Some g -> ph_dirty g = true -> p <= pr_dbSize (j_p j);
  co_sync : forall p, p ∈ s.2.*1 -> exists g, j_cache j !! p = Some g /\ ph_dirty g = true /\ ph_needsync g = true;
  co_max : pr_dbSize (j_p j) <= pr_dbFileSize (j_p j) \/ exists g, j_cache j !! pr_dbSize (j_p j) = Some g /\ ph_dirty g = true }.

(** The database file *)
Record dbfile_ok (segs : list seg) (j : Jrnl) : Prop := mkFileOk {
  fo_near : always (j_fd j) (near d0 (all_recs segs));
  fo_nil : segs = [] -> j_fd j = mkDFile d0 [];
  fo_len : len (df_data (j_fd j)) = g_ps * pr_dbFileSize (j_p j);
  fo_size : g_orig <= pr_dbFileSize (j_p j) <= pr_dbSize (j_p j) /\ pr_dbSize (j_p j) <= PAGER_MAX_PGNO }.

Record inv (m : mode) (segs : list seg) (s : seg) (v : Z -> list Z) (j : Jrnl) : Prop := mkInv {
  i_conf : conf_ok (j_p j);
  i_err : pr_errCode (j_p j) = SQLITE_OK;
  i_sane : sane j;
  i_vers : length (pr_dbFileVers (j_p j)) = 16%nat;
  i_mode : jmode m segs s j;
  i_cache : cache_ok segs s j;
  i_file : dbfile_ok segs j;
  i_inj : forall p, p ∈ pr_pInJournal (j_p j) <-> p ∈ rpages segs s;
  i_nodup : NoDup (rpages segs s);
  i_view : forall p, 1 <= p -> psim p (view j p) (v p) }.

(** ** The invariant makes the files recoverable *)

Lemma near_more recs recs' d : (forall p, p ∈ recs.*1 -> p ∈ recs'.*1) -> near d0 recs d -> near d0 recs' d.
Proof using. intros Hs [H1 H2]. split; [done|]. intros i Hi Hn. apply H2; [done|]. intros Hx. by apply Hn, Hs. Qed.

Lemma prefix_recs segs segs' p : segs `prefix_of` segs' -> p ∈ (all_recs segs).*1 -> p ∈ (all_recs segs').*1.
Proof using. intros [k ->] Hp. unfold all_recs. rewrite fmap_app, concat_app, fmap_app. apply elem_of_app. by left. Qed.

Lemma safe_of segs j : jsafe' d0 segs (j_jfd j) -> always (j_fd j) (near d0 (all_recs segs)) -> (segs = [] -> j_fd j = mkDFile d0 []) -> safe d0 j.
Proof using.
  intros Hj Hn Hz cj cd Hcj Hcd. destruct (Hj cj Hcj) as (segs' & H1 & H2 & H3). exists segs'. split; [done|]. split; [done|]. split.
  - eapply near_more; [|by eapply crash_near]. intros p. by apply prefix_recs.
  - intros ->. apply prefix_nil_inv in H3 as ->. rewrite Hz in Hcd by done. by apply crash_synced in Hcd.
Qed.

Lemma mode_safe m segs s j : jmode m segs s j -> jsafe d0 segs (j_jfd j).
Proof using. destruct m; [intros (_ & -> & _ & H & _)|intros (_ & [[] _ _ _ _ _ _ _])|intros (_ & _ & _ & _ & H)]; done. Qed.

Lemma inv_safe m segs s v j : inv m segs s v j -> safe d0 j.
Proof using. intros [_ _ _ _ Hm _ [] _ _ _]. apply (safe_of segs); [by apply jsafe_weaken, (mode_safe m segs s)|done..]. Qed.

(** ** Fetching a page *)

(** Only the results still to come are different. *)
Lemma inv_io m segs s v j io : inv m segs s v j -> io `suffix_of` j_io j -> inv m segs s v (with_io j io).
Proof using.
  intros [H1 H2 H3 H4 H5 H6 H7 H8 H9 H10] Hs. split; try done.
  - by eapply (sane_suffix j).
  - destruct m; [done| |done]. destruct H5 as [E A]. split; [done|by apply jact_io].
  - destruct H6. by split.
  - destruct H7. by split.
Qed.

Lemma inv_vers m segs s v j vers : inv m segs s v j -> length vers = 16%nat -> inv m segs s v (set_p j (pr_db (j_p j) (pr_dbSize (j_p j)) (pr_dbFileSize (j_p j)) vers)).
Proof using.
  intros [H1 H2 H3 H4 H5 H6 H7 H8 H9 H10] Hs. split; try done.
  - destruct H1. by split.
  - destruct m; [done| |done]. destruct H5 as [E [A1 [] A3 A4 A5 A6 A7 A8]]. split; [done|]. split; try done; by split.
  - destruct H6. by split.
  - destruct H7. by split.
Qed.

Lemma near_page recs d p : near d0 recs d -> 1 <= p <= g_orig -> p ∉ recs.*1 -> db_page g_ps d p = db_page g_ps d0 p.
Proof using.
  intros [_ Hb] Hp Hn. pose proof g_ps_ok as [[P1 P2] _]. apply db_page_ext; [lia|]. intros k Hk. apply Hb; [nia|]. rewrite Z.div_add_l, Z.div_small by lia. by replace (p - 1 + 0 + 1) with p by lia.
Qed.

(** A page read from the file, or beyond its end *)
Lemma inv_fetch m segs s v j p d : inv m segs s v j -> j_cache j !! p = None -> page_ok p -> d = db_page g_ps (df_data (j_fd j)) p -> inv m segs s v (set_page j p (mkPgHdr d false false)).
Proof using.
  intros [H1 H2 H3 H4 H5 [C1 C2 C3 C4 C5 C6] H7 H8 H9 H10] Hc Hp Hd. assert (len d = g_ps) as Hl by (rewrite Hd; unfold db_page; rewrite length_fmap, length_seqZ; pose proof geom_pos; lia). split; try done.
  - destruct m; [|destruct H5 as [E []]; split; [done|by split]|done]. destruct H5 as (E1 & E2 & E3 & E4 & E0 & E5). repeat (split; [done|]). intros q g. cbn. rewrite lookup_insert_Some. intros [[<- <-]|[_ Hq]]; [done|by eapply E5].
  - split.
    + intros q g. cbn. rewrite lookup_insert_Some. intros [[<- <-]|[_ Hq]]; [done|by apply C1].
    + intros q g. cbn. rewrite lookup_insert_Some. intros [[<- <-]|[_ Hq]]; [|by apply C2]. intros Hle Hn. split; [done|]. cbn. rewrite Hd. apply (near_page (all_recs segs)); [apply (always_data _ _ (fo_near _ _ H7))|destruct Hp; lia|]. intros Hx. apply Hn, H8. unfold rpages. rewrite fmap_app. apply elem_of_app. by left.
    + intros q g. cbn. rewrite lookup_insert_Some. intros [[<- <-]|[_ Hq]]; [done|by apply C3].
    + intros q g. cbn. rewrite lookup_insert_Some. intros [[<- <-]|[_ Hq]]; [done|by apply C4].
    + intros q Hq. destruct (C5 q Hq) as (g & E1 & E2). exists g. split; [|done]. cbn. rewrite lookup_insert_ne; [done|]. congruence.
    + destruct C6 as [|(g & E1 & E2)]; [by left|right]. exists g. split; [|done]. cbn. rewrite lookup_insert_ne; [done|]. cbn in *. congruence.
  - destruct H7. by split.
  - intros q Hq. unfold view. cbn. destruct (decide (q = p)) as [->|Hne]; [|rewrite lookup_insert_ne by done; by apply H10]. rewrite lookup_insert_eq. cbn. rewrite Hd. specialize (H10 p Hq). unfold view in H10. by rewrite Hc in H10.
Qed.

Lemma page_len d p : len (db_page g_ps d p) = g_ps.
Proof using. unfold db_page. rewrite length_fmap, length_seqZ. pose proof g_ps_ok. lia. Qed.

(** Dirty pages stay dirty. *)
Definition keeps (j j' : Jrnl) : Prop := forall p g, j_cache j !! p = Some g -> ph_dirty g = true -> exists g', j_cache j' !! p = Some g' /\ ph_dirty g' = true.

Lemma keeps_refl j j' : j_cache j' = j_cache j -> keeps j j'.
Proof using. intros E p g Hg Hd. exists g. by rewrite E. Qed.

Lemma keeps_trans j1 j2 j3 : keeps j1 j2 -> keeps j2 j3 -> keeps j1 j3.
Proof using. intros H1 H2 p g Hg Hd. destruct (H1 p g Hg Hd) as (g' & Hg' & Hd'). by apply (H2 p g'). Qed.

Lemma keeps_set j p g : (forall g', j_cache j !! p = Some g' -> ph_dirty g' = true -> ph_dirty g = true) -> keeps j (set_page j p g).
Proof using. intros H q g' Hg Hd. cbn. destruct (decide (q = p)) as [->|Hne]; [exists g; rewrite lookup_insert_eq; split; [done|by eapply H]|exists g'; by rewrite lookup_insert_ne]. Qed.

(** A page is fetched into the cache. *)
Definition gets (m : mode) (segs : list seg) (s : seg) (v : Z -> list Z) (p : Z) (j : Jrnl) (rc : Z) (j' : Jrnl) : Prop := safe d0 j' /\ (rc = SQLITE_OK -> inv m segs s v j' /\ is_Some (j_cache j' !! p) /\ keeps j j').

Lemma readDb_spec m segs s v j p : inv m segs s v j -> j_cache j !! p = None -> page_ok p -> post (readDbPage j p) (gets m segs s v p j).
Proof using.
  intros Hi Hc Hp. pose proof geom_pos as (G1 & G2 & G3). unfold readDbPage. rewrite (cf_ps _ (i_conf _ _ _ _ _ Hi)). destruct Hp as [Hp1 Hp2]. unfold j_os_read. destruct (j_next_spec j) as (rc & n & io & -> & Hl). rewrite (proj2 (Z.ltb_ge _ 0)) by nia. destruct (sane_later _ _ _ (i_sane _ _ _ _ _ Hi) Hl) as (_ & N1 & N2).
  rewrite (proj2 (Z.eqb_neq rc SQLITE_IOERR_SHORT_READ)) by done. rewrite orb_false_r. pose proof (inv_io _ _ _ _ _ io Hi (proj1 Hl)) as Hi1. set (d := df_data (j_fd j)) in *. destruct (Z.eqb_spec rc SQLITE_OK) as [->|Hn].
  - replace (if (if (p - 1) * g_ps + g_ps <=? len d then SQLITE_OK else SQLITE_IOERR_SHORT_READ) =? SQLITE_IOERR_SHORT_READ then SQLITE_OK else if (p - 1) * g_ps + g_ps <=? len d then SQLITE_OK else SQLITE_IOERR_SHORT_READ) with SQLITE_OK by (by destruct (_ <=? _)).
    change (SQLITE_OK =? SQLITE_OK) with true. cbn iota. rewrite f_read_page. pose proof (page_len d p) as Hpl. destruct (get_bytes_spec (db_page g_ps d p) 24 16) as (vers & -> & V1 & _); [lia..|]. cbn [mbind option_bind]. apply post_ret.
    assert (forall j1, inv m segs s v j1 -> j_cache j1 = j_cache j -> j_fd j1 = j_fd j -> gets m segs s v p j SQLITE_OK (set_page j1 p (mkPgHdr (db_page g_ps d p) false false))) as Hgo.
    { intros j1 I1 C1 E1. assert (inv m segs s v (set_page j1 p (mkPgHdr (db_page g_ps d p) false false))) as I2 by (apply inv_fetch; [done|by rewrite C1|done|by rewrite E1]). split; [by eapply inv_safe|]. intros _. split; [done|]. split; [cbn; rewrite lookup_insert_eq; by eexists|]. eapply (keeps_trans _ j1); [by apply keeps_refl|]. apply keeps_set. rewrite C1, Hc. done. }
    apply Hgo; [|by destruct (p =? 1)|by destruct (p =? 1)]. destruct (p =? 1); [|done]. apply (inv_vers _ _ _ _ (with_io j io)); [done|lia].
  - rewrite (proj2 (Z.eqb_neq rc SQLITE_IOERR_SHORT_READ)), (proj2 (Z.eqb_neq rc SQLITE_OK)) by done. cbn [mbind option_bind]. apply post_ret. split; [|done]. destruct (p =? 1); [|by eapply inv_safe]. eapply inv_safe. apply (inv_vers _ _ _ _ (with_io j io)); [done|]. done.
Qed.

Lemma beyond_zero d p : 1 <= p -> len d <= (p - 1) * g_ps -> db_page g_ps d p = replicate (Z.to_nat g_ps) 0.
Proof using.
  intros Hp Hl. apply list_eq. intros i. pose proof (page_len d p) as Hpl. pose proof g_ps_ok as [[P1 P2] _]. destruct (decide (i < Z.to_nat g_ps)%nat) as [Hi|Hi].
  - rewrite lookup_replicate_2 by done. unfold db_page. rewrite list_lookup_fmap, lookup_seqZ_lt by lia. cbn. f_equal. unfold db_byte, aget. rewrite decide_True by nia. by rewrite (proj2 (lookup_ge_None _ _)) by nia.
  - rewrite !(proj2 (lookup_ge_None _ _)); [done|rewrite length_replicate; lia|lia].
Qed.

Lemma get_spec m segs s v j p : inv m segs s v j -> page_ok p -> post (sqlite3PagerGet j p) (gets m segs s v p j).
Proof using.
  intros Hi Hp. pose proof Hp as [Hp1 Hp2]. unfold sqlite3PagerGet. replace (p =? 0) with false by lia. rewrite (i_err _ _ _ _ _ Hi). change (negb (SQLITE_OK =? SQLITE_OK)) with false. cbn iota. unfold PAGER_MJ_PGNO. rewrite (cf_ps _ (i_conf _ _ _ _ _ Hi)). change (PENDING_BYTE / g_ps + 1) with g_mj. replace (p =? g_mj) with false by (symmetry; by apply Z.eqb_neq).
  destruct (j_cache j !! p) as [g|] eqn:Hc.
  - replace (p <=? PAGER_MAX_PGNO) with true by lia. cbn [assert_ negb andb mbind option_bind]. apply post_ret. split; [by eapply inv_safe|]. intros _. split; [done|]. split; [by rewrite Hc|by apply keeps_refl].
  - eapply post_then; [apply j_call_spec| |].
    2:{ intros rc j1 Hn (io & -> & Hl). split; [|done]. eapply inv_safe. eapply inv_io; [done|apply Hl]. }
    intros ? (io & -> & Hl). pose proof (inv_io _ _ _ _ _ io Hi (proj1 Hl)) as Hi1. cbn [j_p with_io]. rewrite (cf_ps _ (i_conf _ _ _ _ _ Hi)). change (PENDING_BYTE / g_ps + 1) with g_mj. replace (p =? g_mj) with false by (symmetry; by apply Z.eqb_neq). replace (PAGER_MAX_PGNO <? p) with false by lia. cbn [orb].
    destruct (Z.ltb_spec (pr_dbSize (j_p j)) p) as [Hlt|Hge]; [|exact (readDb_spec m segs s v (with_io j io) p Hi1 Hc Hp)].
    destruct (pc_mxPgno (pr_conf (j_p j)) <? p); apply post_ret; [split; [by eapply inv_safe|done]|]. destruct (i_file _ _ _ _ _ Hi) as [_ _ F1 [F2 F3]]. pose proof geom_pos as (G1 & G2 & G3).
    assert (inv m segs s v (set_page (with_io j io) p (mkPgHdr (replicate (Z.to_nat g_ps) 0) false false))) as I2 by (apply inv_fetch; [done|done|done|]; symmetry; apply beyond_zero; [lia|]; cbn; rewrite F1; nia). split; [by eapply inv_safe|]. intros _. split; [done|]. split; [cbn; rewrite lookup_insert_eq; by eexists|]. eapply (keeps_trans _ (with_io j io)); [by apply keeps_refl|]. apply keeps_set. cbn. by rewrite Hc.
Qed.
End Inv.
