(* ===== verification/PagerWrite.v ===== *)
(** * PagerWrite: making pages writable keeps the invariant (pager.c) *)
From S2P Require Import Prelude Varint Record Page PageLayout PageCells Wal WalLog WalSpec UnixLock WalCkpt WalFile Journal PagerTxn JournalFile JournalPlay JournalReplay JournalRestore JournalWrite JournalSync PagerInv.

Section Write.
Context {G : Geom} (d0 : list Z).
Abbreviation inv := (inv d0).

(** The fields of the pager that the invariant is about, with the size of the database *)
Definition core1 (p : Pager) := (pr_errCode p, pr_dbOrigSize p, pr_dbFileSize p, pr_sectorSize p, pr_pageSize p, pr_dbFileVers p, pr_conf p).

Lemma core_core1 p p' : core p' = core p -> core1 p' = core1 p /\ pr_dbSize p' = pr_dbSize p /\ pr_eState p' = pr_eState p /\ pr_changeCountDone p' = pr_changeCountDone p.
Proof using. unfold core, core1. intros H. simplify_eq. repeat split; congruence. Qed.

Lemma conf_core1 p p' : core1 p' = core1 p -> conf_ok p -> conf_ok p'.
Proof using. intros Hc []. unfold core1 in Hc. simplify_eq. split; unfold del_mode in *; congruence. Qed.

(** ** The number of records *)

Lemma pages_count (l : list Z) n : NoDup l -> (forall p, p ∈ l -> 1 <= p <= n) -> len l <= n \/ l = [].
Proof using.
  intros Hn Hin. destruct l as [|x l]; [by right|left]. assert (1 <= n) by (specialize (Hin x ltac:(apply elem_of_cons; by left)); lia). assert (x :: l ⊆+ seqZ 1 n) as Hs.
  { apply NoDup_submseteq; [done|]. intros p Hp. apply elem_of_seqZ. specialize (Hin p Hp). lia. }
  apply submseteq_length in Hs. rewrite length_seqZ in Hs. lia.
Qed.

Lemma rec_pages segs s j : jact d0 segs s j -> NoDup (rpages segs s) -> len s.2 <= g_orig.
Proof using.
  intros Ha Hn. unfold rpages in Hn. rewrite fmap_app in Hn. apply NoDup_app in Hn as (_ & _ & Hn). pose proof g_orig_ok. destruct (pages_count _ g_orig Hn) as [H'|H'].
  - intros p Hp. apply list_elem_of_fmap in Hp as (r & -> & Hr). destruct (jc_ok _ _ _ _ (ja_cur _ _ _ _ Ha)) as [_ Ho]. rewrite Forall_forall in Ho. apply (Ho r Hr).
  - by rewrite length_fmap in H'.
  - apply fmap_nil_inv in H'. rewrite H'. cbn. lia.
Qed.

(** ** A page becomes dirty *)

Definition writable (p : Z) (j : Jrnl) : Prop := exists g, j_cache j !! p = Some g /\ ph_dirty g = true.

Lemma inv_writable segs s v j p g ns s' j' : inv Active segs s v j -> j_cache j !! p = Some g ->
  j_fd j' = j_fd j -> j_io j' `suffix_of` j_io j -> j_cache j' = <[p := mkPgHdr (ph_data g) true ns]> (j_cache j) -> core1 (j_p j') = core1 (j_p j) -> pr_dbSize (j_p j') = (if pr_dbSize (j_p j) <? p then p else pr_dbSize (j_p j)) ->
  jmode d0 Active segs s' j' -> (forall q, q ∈ pr_pInJournal (j_p j') <-> q ∈ rpages segs s') -> pr_pInJournal (j_p j) ⊆ pr_pInJournal (j_p j') -> (p <= g_orig -> p ∈ pr_pInJournal (j_p j')) -> NoDup (rpages segs s') ->
  (forall q, q ∈ s'.2.*1 -> q = p /\ ns = true \/ q <> p /\ q ∈ s.2.*1 \/ q = p /\ ns = ph_needsync g /\ q ∈ s.2.*1) -> inv Active segs s' v j' /\ writable p j' /\ keeps j j'.
Proof using.
  intros [H1 H2 H3 H4 H5 [C1 C2 C3 C4 C5 C6] [F1 F2 F3 [F4 F5]] H8 H9 H10] Hg Ef Ei Ec E1 Es Hm Hin Hsub Hp Hnd Hs. assert (conf_ok (j_p j')) as Hcf by by eapply conf_core1. unfold core1 in E1. injection E1 as X1 X2 X3 X4 X5 X6 X7. split; [split; try done|].
  - congruence.
  - by eapply (sane_suffix j).
  - congruence.
  - split; rewrite ?Ec, ?Ef, ?Es.
    + intros q g'. rewrite lookup_insert_Some. intros [[<- <-]|[_ Hq]]; [split; [by eapply C1|by apply (C1 p g Hg)]|by apply C1].
    + intros q g'. rewrite lookup_insert_Some. intros [[<- <-]|[_ Hq]] Hle Hn; [by destruct Hn; apply Hp|]. apply C2; [done..|]. set_solver.
    + intros q g'. rewrite lookup_insert_Some. intros [[<- <-]|[_ Hq]]; [done|by apply C3].
    + intros q g'. rewrite lookup_insert_Some. intros [[<- <-]|[_ Hq]] Hd; [destruct (Z.ltb_spec (pr_dbSize (j_p j)) p); lia|]. specialize (C4 q g' Hq Hd). destruct (Z.ltb_spec (pr_dbSize (j_p j)) p); lia.
    + intros q Hq. destruct (Hs q Hq) as [[-> ->]|[[Hne Hq']|(-> & -> & Hq')]].
      * eexists. rewrite lookup_insert_eq. done.
      * destruct (C5 q Hq') as (g' & A1 & A2). exists g'. by rewrite lookup_insert_ne.
      * destruct (C5 p Hq') as (g' & A1 & A2 & A3). eexists. rewrite lookup_insert_eq. split; [done|]. split; [done|]. cbn. congruence.
    + replace (pr_dbFileSize (j_p j')) with (pr_dbFileSize (j_p j)) by done. destruct (Z.ltb_spec (pr_dbSize (j_p j)) p) as [Hlt|Hge]; [right; eexists; by rewrite lookup_insert_eq|]. destruct C6 as [|(g' & A1 & A2)]; [by left|right].
      destruct (decide (p = pr_dbSize (j_p j))) as [<-|Hne]; [eexists; by rewrite lookup_insert_eq|]. exists g'. by rewrite lookup_insert_ne.
  - split; rewrite ?Ef, ?Es; try done; replace (pr_dbFileSize (j_p j')) with (pr_dbFileSize (j_p j)) by done; [done|]. destruct (C1 p g Hg) as [[? _] _]. destruct (Z.ltb_spec (pr_dbSize (j_p j)) p); lia.
  - intros q Hq. specialize (H10 q Hq). unfold view in *. rewrite Ec, Ef. destruct (decide (q = p)) as [->|Hne]; [by rewrite lookup_insert_eq; rewrite Hg in H10|by rewrite lookup_insert_ne].
  - split; [eexists; by rewrite Ec, lookup_insert_eq|]. intros q g' Hq Hd. rewrite Ec. destruct (decide (q = p)) as [->|Hne]; [eexists; by rewrite lookup_insert_eq|exists g'; by rewrite lookup_insert_ne].
Qed.

(** ** Opening the journal *)

(** What opening the journal leaves alone *)
Record oframe (j j' : Jrnl) : Prop := mkOframe {
  of_fd : j_fd j' = j_fd j;
  of_cache : j_cache j' = j_cache j;
  of_core : core1 (j_p j') = core1 (j_p j) /\ pr_dbSize (j_p j') = pr_dbSize (j_p j) /\ pr_eState (j_p j') = pr_eState (j_p j) /\ pr_changeCountDone (j_p j') = pr_changeCountDone (j_p j);
  of_io : j_io j' `suffix_of` j_io j }.

Lemma oframe_jframe j j1 j' : oframe j j1 -> jframe j1 j' -> oframe j j'.
Proof using. intros [A1 A2 (A3 & A4 & A5 & A6) A7] [B1 B2 (B3 & B4 & B5 & B6)%core_core1 B7]. split; [congruence..| |by etransitivity]. repeat split; congruence. Qed.

Lemma unmoved_spec j : post (databaseIsUnmoved j) (fun rc j' => exists io, j' = with_io j io /\ io `suffix_of` j_io j).
Proof using.
  unfold databaseIsUnmoved. case_match; [apply post_ret; exists (j_io j); split; [by destruct j|done]|]. destruct (j_next_spec j) as (rc & n & io & -> & Hl). apply post_ret. exists io. split; [done|apply Hl].
Qed.

Lemma open_spec s v j : inv Locked [] s v j -> post (pager_open_journal j) (fun rc j' => safe d0 j' /\ (rc = SQLITE_OK -> j_cache j' = j_cache j /\ exists ck, inv Active [] (ck, []) v j')).
Proof using.
  intros Hi. pose proof Hi as [H1 H2 H3 H4 (E1 & _ & E2 & E3 & [E0 E0'] & E4) [C1 C2 C3 C4 C5 C6] F H8 H9 H10]. pose proof F as [F1 F2 F3 F4]. unfold pager_open_journal. rewrite E1, Z.eqb_refl. cbn [assert_ mbind option_bind].
  destruct (cf_del _ H1) as [M1 M2]. rewrite M1. cbn [negb Z.eqb PAGER_JOURNALMODE_DELETE PAGER_JOURNALMODE_OFF].
  eapply (post_bind _ _ (fun rc j' => oframe j j' /\ jsafe d0 [] (j_jfd j') /\ (rc = SQLITE_OK -> exists ck, jact d0 [] (ck, []) j'))).
  - assert (forall io, io `suffix_of` j_io j -> oframe j (with_io j io)) as Hio by (intros io Hs; by split). eapply post_then; [apply j_call_spec| |].
    2:{ intros rc j1 Hn (io & -> & Hl). split; [apply Hio, Hl|done]. }
    intros ? (io & -> & Hl). cbn [j_p with_io]. rewrite E0. eapply (post_then _ _ (fun rc j' => exists io', io' `suffix_of` j_io j /\ j' = if rc =? SQLITE_OK then set_p (with_io j io') (pr_opened (j_p j) true) else with_io j io')).
    + eapply post_then; [apply unmoved_spec| |].
      2:{ intros rc j1 Hn (io2 & -> & Hl2). exists io2. split; [etransitivity; [exact Hl2|apply Hl]|]. by rewrite (proj2 (Z.eqb_neq rc SQLITE_OK)). }
      intros ? (io2 & -> & Hl2). eapply post_then; [apply j_call_spec| |].
      * intros ? (io3 & -> & Hl3). apply post_ret. exists io3. split; [etransitivity; [apply Hl3|]; etransitivity; [exact Hl2|apply Hl]|done].
      * intros rc j1 Hn (io3 & -> & Hl3). exists io3. split; [etransitivity; [apply Hl3|]; etransitivity; [exact Hl2|apply Hl]|]. by rewrite (proj2 (Z.eqb_neq rc SQLITE_OK)).
    + intros j1 (io2 & Hl2 & ->). change (SQLITE_OK =? SQLITE_OK) with true. cbn iota. set (j2 := set_p (set_p _ _) _). assert (oframe j j2 /\ conf_ok (j_p j2)) as [Fr Hc] by (split; [by split|]; destruct H1; by split).
      eapply post_mono; [apply (writeHdr_spec d0 []); [done|done|cbn; lia|done]|]. intros rc j3 (W1 & W2 & W3 & W4 & W5). split; [by eapply oframe_jframe|]. split; [done|]. intros Hrc. destruct (W5 Hrc) as (ck & V1 & V2 & V3 & V4 & V5). exists ck. pose proof (jf_core _ _ W1) as Hc3. split; [done|by eapply conf_core|done|rewrite V4; unfold seg_end; cbn; lia|done|by rewrite W2| |].
      * unfold core in Hc3. by simplify_eq.
      * intros Hcl. change (j_jfd j2) with (j_jfd j) in V5. rewrite (E0' Hcl) in V5. pose proof geom_pos. cbn in *. lia.
    + intros rc j1 Hn (io2 & Hl2 & ->). rewrite (proj2 (Z.eqb_neq rc SQLITE_OK)) by done. split; [by apply Hio|done].
  - intros rc j1 (Fr & S1 & A1). cbn beta iota. pose proof Fr as [B1 B2 B3 B4]. apply post_ret. split.
    { apply (safe_of d0 []); [by apply jsafe_weaken|destruct (rc =? SQLITE_OK); cbn; by rewrite B1|destruct (rc =? SQLITE_OK); cbn; by rewrite B1]. }
    intros ->. change (SQLITE_OK =? SQLITE_OK) with true. cbn iota. destruct (A1 eq_refl) as [ck A2]. split; [done|]. exists ck. destruct B3 as (D1 & D2 & D3 & D4). assert (conf_ok (j_p j1)) as Hcf by by eapply conf_core1. unfold core1 in D1. injection D1 as X1 X2 X3 X4 X5 X6 X7.
    assert (pr_pInJournal (j_p j) = ∅) as Hin by (apply set_eq; intros q; rewrite H8; unfold rpages; rewrite E2; set_solver).
    split; try done; cbn [j_p set_p pr_state pr_rec pr_errCode pr_dbFileVers pr_pInJournal].
    + destruct Hcf. by split.
    + congruence.
    + by eapply (sane_suffix j).
    + congruence.
    + split; [done|]. destruct A2 as [K1 [] K3 K4 K5 K6 K7 K8]. split; try done; by split.
    + split; cbn; rewrite ?B2, ?B1, ?D2, ?X3; try done; [intros q g Hq Hle _; apply C2; [done..|]; rewrite Hin; set_solver|intros q Hq; by apply elem_of_nil in Hq].
    + split; cbn; rewrite ?B1, ?X3, ?D2; done.
    + intros q. unfold rpages. cbn. set_solver.
    + constructor.
    + intros q Hq. specialize (H10 q Hq). unfold view in *. cbn. by rewrite B2, B1.
Qed.

(** ** pager_write *)

Definition writes (segs : list seg) (v : Z -> list Z) (p : Z) (j : Jrnl) (rc : Z) (j' : Jrnl) : Prop := safe d0 j' /\ (rc = SQLITE_OK -> exists s', inv Active segs s' v j' /\ writable p j' /\ keeps j j').

Lemma active_state segs s v j : inv Active segs s v j -> (pr_eState (j_p j) =? PAGER_WRITER_LOCKED) = false /\ (pr_eState (j_p j) =? PAGER_WRITER_CACHEMOD) || (pr_eState (j_p j) =? PAGER_WRITER_DBMOD) = true.
Proof using. intros Hi. destruct (i_mode _ _ _ _ _ _ Hi) as [-> _]. by case_decide. Qed.

Lemma write_active segs s v j p g : inv Active segs s v j -> j_cache j !! p = Some g ->
  post (let j := set_page j p (mkPgHdr (ph_data g) true (ph_needsync g)) in
        let_ok j :=
          (if bool_decide (p ∈ pr_pInJournal (j_p j)) then Some (SQLITE_OK, j)
           else if (p <=? pr_dbOrigSize (j_p j)) && pr_jopen (j_p j) then journal_page (set_page j p (mkPgHdr (ph_data g) true true)) p (ph_data g)
           else Some (SQLITE_OK, if negb (pr_eState (j_p j) =? PAGER_WRITER_DBMOD) then set_page j p (mkPgHdr (ph_data g) true true) else j)) in
        Some (SQLITE_OK, set_p j (pr_db (j_p j) (if pr_dbSize (j_p j) <? p then p else pr_dbSize (j_p j)) (pr_dbFileSize (j_p j)) (pr_dbFileVers (j_p j))))) (writes segs v p j).
Proof using.
  intros Hi Hg. pose proof Hi as [H1 H2 H3 H4 [E1 A1] [C1 C2 C3 C4 C5 C6] F H8 H9 H10]. pose proof F as [F1 F2 F3 F4]. destruct (C1 p g Hg) as [[Hp1 Hp2] Hlen]. cbv zeta. cbn [j_p set_page set_cache].
  assert (forall ns j', j_fd j' = j_fd j -> j_io j' = j_io j -> j_jfd j' = j_jfd j -> j_p j' = j_p j -> j_cache j' = <[p := mkPgHdr (ph_data g) true ns]> (j_cache j) -> (p <= g_orig -> p ∈ pr_pInJournal (j_p j)) -> (p ∈ s.2.*1 -> ns = true \/ ns = ph_needsync g) ->
    writes segs v p j SQLITE_OK (set_p j' (pr_db (j_p j') (if pr_dbSize (j_p j') <? p then p else pr_dbSize (j_p j')) (pr_dbFileSize (j_p j')) (pr_dbFileVers (j_p j'))))) as Hdone.
  { intros ns j' D1 D2 D3 D4 D5 D6 D7. set (j'' := set_p j' _). assert (inv Active segs s v j'' /\ writable p j'' /\ keeps j j'') as [I1 I2].
    { apply (inv_writable segs s v j p g ns); try done; unfold j''; cbn; rewrite ?D4; try done.
      - by rewrite D2.
      - split; [done|]. destruct A1 as [K1 [] K3 K4 K5 K6 K7 K8]. split; cbn; rewrite ?D3; try done; by split.
      - intros q Hq. destruct (decide (q = p)) as [->|Hne]; [|by right; left]. destruct (D7 Hq) as [->| ->]; [by left|by right; right]. }
    split; [by eapply inv_safe|]. intros _. by exists s. }
  case_bool_decide as Hin.
  { unfold jthen. cbn [mbind option_bind Z.eqb SQLITE_OK]. apply post_ret. apply (Hdone (ph_needsync g) (set_page j p (mkPgHdr (ph_data g) true (ph_needsync g)))); try done. by right. }
  rewrite (cf_orig _ H1), (ja_open _ _ _ _ A1), andb_true_r. destruct (Z.leb_spec p g_orig) as [Hle|Hgt].
  - destruct (C2 p g Hg Hle Hin) as [Hd Hdat]. assert (p ∉ rpages segs s) as Hnp by by rewrite <- H8. set (j1 := set_page (set_page j p _) p _). assert (jact d0 segs s j1) as A2 by (destruct A1 as [K1 [] K3 K4 K5 K6 K7 K8]; split; try done; by split).
    assert (old_rec d0 (p, ph_data g)) as Hold by (split; [split; [cbn; lia|done]|done]). pose proof (rec_pages segs s j A1 H9) as Hcnt. pose proof g_orig_ok.
    eapply post_then; [apply (journal_page_spec d0 segs s j1 p (ph_data g)); [done|done|lia]| |].
    2:{ intros rc j2 Hn ([R1 R2 R3 R4] & S1 & _). split; [|done]. apply (safe_of d0 segs); [by apply jsafe_weaken|by rewrite R1|by rewrite R1]. }
    intros j2 ([R1 R2 R3 R4] & S1 & D). destruct (D eq_refl) as [D1 D2]. apply core_core1 in R3 as (B1 & B2 & B3 & B4). change (j_p j1) with (j_p j) in *. apply post_ret. set (j3 := set_p j2 _).
    assert (inv Active segs (s.1, s.2 ++ [(p, ph_data g)]) v j3 /\ writable p j3 /\ keeps j j3) as [I1 I2].
    { apply (inv_writable segs s v j p g true); unfold j3; cbn; rewrite ?B2, ?D2; try done.
      - rewrite R2. cbn. by rewrite insert_insert_eq.
      - split; [cbn; by rewrite B3|]. destruct D1 as [K1 [] K3 K4 K5 K6 K7 K8]. split; try done; by split.
      - intros q. rewrite elem_of_union, elem_of_singleton, H8. unfold rpages. cbn [fst snd]. rewrite !fmap_app, !elem_of_app. cbn. rewrite list_elem_of_singleton. tauto.
      - set_solver.
      - intros _. set_solver.
      - unfold rpages in *. cbn. rewrite app_assoc, fmap_app. apply NoDup_app. split; [done|]. split; [|apply NoDup_singleton]. intros q Hq Hx. cbn in Hx. apply list_elem_of_singleton in Hx. by subst.
      - intros q Hq. cbn [snd] in Hq. rewrite fmap_app, elem_of_app in Hq. cbn in Hq. rewrite list_elem_of_singleton in Hq. destruct (decide (q = p)) as [->|Hne]; [by left|right; left]. split; [done|]. destruct Hq as [Hq|Hq]; [done|]. by destruct Hne. }
    split; [by eapply inv_safe|]. intros _. by eexists.
  - assert (p ∉ s.2.*1) as Hns. { intros Hx. apply Hin, H8. unfold rpages. rewrite fmap_app. apply elem_of_app. by right. }
    unfold jthen. cbn [mbind option_bind Z.eqb SQLITE_OK]. apply post_ret. destruct (negb (pr_eState (j_p j) =? PAGER_WRITER_DBMOD)).
    + apply (Hdone true (set_page (set_page j p (mkPgHdr (ph_data g) true (ph_needsync g))) p (mkPgHdr (ph_data g) true true))); try done; [cbn; by rewrite insert_insert_eq|lia].
    + apply (Hdone (ph_needsync g) (set_page j p (mkPgHdr (ph_data g) true (ph_needsync g)))); try done. lia.
Qed.

Lemma pager_write_spec m segs s v j p : inv m segs s v j -> m <> Final -> is_Some (j_cache j !! p) -> post (pager_write j p) (writes segs v p j).
Proof using.
  intros Hi Hm [g Hg]. unfold pager_write. destruct m; [| |done].
  - pose proof (i_mode _ _ _ _ _ _ Hi) as (E1 & -> & _). rewrite E1, Z.eqb_refl. cbn [orb assert_ mbind option_bind]. eapply post_then; [by apply (open_spec s v)| |].
    + intros j1 (S1 & D1). destruct (D1 eq_refl) as [E2 [ck I1]]. rewrite E2, Hg. cbn [mbind option_bind]. eapply post_mono; [apply (write_active [] (ck, []) v j1 p g); [done|by rewrite E2]|]. intros rc j2 [S2 D2]. split; [done|]. intros Hrc. destruct (D2 Hrc) as (s' & K1 & K2 & K3). exists s'. split; [done|]. split; [done|]. eapply keeps_trans; [|exact K3]. by apply keeps_refl.
    + intros rc j1 Hn (S1 & _). split; [done|]. done.
  - destruct (active_state _ _ _ _ Hi) as [E1 E2]. rewrite E1. cbn [orb]. rewrite E2. cbn [assert_ mbind option_bind]. unfold jthen at 1. cbn [mbind option_bind Z.eqb SQLITE_OK]. rewrite Hg. cbn [mbind option_bind]. by apply (write_active segs s).
Qed.

(** ** The pages of a sector *)

(** The cache with more PGHDR_NEED_SYNC flags *)
Definition flagged (c c' : gmap Z PgHdr) : Prop := forall p,
  match c !! p, c' !! p with Some g, Some g' => ph_data g' = ph_data g /\ ph_dirty g' = ph_dirty g /\ (ph_needsync g = true -> ph_needsync g' = true) | None, None => True | _, _ => False end.

Lemma flagged_lookup c c' p g' : flagged c c' -> c' !! p = Some g' -> exists g, c !! p = Some g /\ ph_data g' = ph_data g /\ ph_dirty g' = ph_dirty g.
Proof using. intros H Hp. specialize (H p). rewrite Hp in H. destruct (c !! p) as [g|]; [|done]. exists g. tauto. Qed.

Lemma flagged_back c c' p g : flagged c c' -> c !! p = Some g -> exists g', c' !! p = Some g' /\ ph_dirty g' = ph_dirty g /\ (ph_needsync g = true -> ph_needsync g' = true).
Proof using. intros H Hp. specialize (H p). rewrite Hp in H. destruct (c' !! p) as [g'|]; [|done]. exists g'. tauto. Qed.

Lemma sync_sector_flagged n c pg : flagged c (sync_sector n c pg).
Proof using.
  revert c pg. induction n as [|n IH]; intros c pg p; cbn; [by destruct (c !! p)|]. specialize (IH (alter (fun g => mkPgHdr (ph_data g) (ph_dirty g) true) pg c) (pg + 1) p). destruct (decide (p = pg)) as [->|Hne].
  - rewrite lookup_alter_eq in IH. destruct (c !! pg) as [g|]; cbn in IH; [|done]. destruct (sync_sector n _ _ !! pg); [|done]. cbn in IH. tauto.
  - by rewrite lookup_alter_ne in IH by done.
Qed.

Lemma inv_flagged m segs s v j c' : inv m segs s v j -> flagged (j_cache j) c' -> inv m segs s v (set_cache j c').
Proof using.
  intros [H1 H2 H3 H4 H5 [C1 C2 C3 C4 C5 C6] F H8 H9 H10] Hf. split; try done.
  - destruct m; [|destruct H5 as [E []]; split; [done|by split]|done]. destruct H5 as (E1 & E2 & E3 & E4 & E0 & E5). repeat (split; [done|]). intros p g Hg. destruct (flagged_lookup _ _ _ _ Hf Hg) as (g0 & Hg0 & _ & ->). by eapply E5.
  - split; cbn.
    + intros p g Hg. destruct (flagged_lookup _ _ _ _ Hf Hg) as (g0 & Hg0 & -> & _). by eapply C1.
    + intros p g Hg. destruct (flagged_lookup _ _ _ _ Hf Hg) as (g0 & Hg0 & -> & ->). by eapply C2.
    + intros p g Hg. destruct (flagged_lookup _ _ _ _ Hf Hg) as (g0 & Hg0 & -> & ->). by eapply C3.
    + intros p g Hg. destruct (flagged_lookup _ _ _ _ Hf Hg) as (g0 & Hg0 & _ & ->). by eapply C4.
    + intros p Hp. destruct (C5 p Hp) as (g & Hg & A1 & A2). destruct (flagged_back _ _ _ _ Hf Hg) as (g' & Hg' & B1 & B2). exists g'. rewrite B1. auto.
    + destruct C6 as [|(g & Hg & A1)]; [by left|right]. destruct (flagged_back _ _ _ _ Hf Hg) as (g' & Hg' & B1 & _). exists g'. by rewrite B1.
  - destruct F. by split.
  - intros p Hp. specialize (H10 p Hp). unfold view in *. cbn. specialize (Hf p). destruct (j_cache j !! p) as [g|], (c' !! p) as [g'|]; try done. destruct Hf as [-> _]. done.
Qed.

Definition sector_done (m : mode) (segs : list seg) (v : Z -> list Z) (inside : Prop) (pgno : Z) (j : Jrnl) (rc : Z) (j' : Jrnl) : Prop :=
  safe d0 j' /\ (rc = SQLITE_OK -> exists m' s', m' <> Final /\ (m = Active -> m' = Active) /\ inv m' segs s' v j' /\ keeps j j' /\ (inside -> m' = Active /\ writable pgno j')).

Lemma write_sector_spec n m segs s v j pg pgno ns : inv m segs s v j -> m <> Final -> (forall q, pg <= q < pg + Z.of_nat n -> q = g_mj \/ page_ok q) -> page_ok pgno ->
  exists rc ns' j', write_sector n j pg pgno ns = Some (rc, ns', j') /\ sector_done m segs v (pg <= pgno < pg + Z.of_nat n) pgno j rc j'.
Proof using.
  revert m s j pg ns. induction n as [|n IH]; intros m s j pg ns Hi Hm Hq Hp.
  { eexists _, _, j. split; [done|]. split; [by eapply inv_safe|]. intros _. exists m, s. split; [done|]. split; [done|]. split; [done|]. split; [by apply keeps_refl|]. intros ?. lia. }
  cbn [write_sector]. unfold PAGER_MJ_PGNO. rewrite (cf_ps _ (i_conf _ _ _ _ _ _ Hi)). change (PENDING_BYTE / g_ps + 1) with g_mj.
  assert (forall ns j1 m1 s1, inv m1 segs s1 v j1 -> m1 <> Final -> (m = Active -> m1 = Active) -> keeps j j1 -> (pg = pgno -> m1 = Active /\ writable pgno j1) -> exists rc ns' j', write_sector n j1 (pg + 1) pgno ns = Some (rc, ns', j') /\ sector_done m segs v (pg <= pgno < pg + Z.of_nat (S n)) pgno j rc j') as Hnext.
  { intros ns1 j1 m1 s1 I1 M1 M2 K1 W1. destruct (IH m1 s1 j1 (pg + 1) ns1) as (rc & ns' & j' & -> & S2 & D2); [done|done|intros q Hx; apply Hq; lia|done|]. eexists _, _, _. split; [done|]. split; [done|]. intros Hrc. destruct (D2 Hrc) as (m2 & s2 & A1 & A2 & A3 & A4 & A5). exists m2, s2. split; [done|]. split; [auto|]. split; [done|]. split; [by eapply keeps_trans|].
    intros Hin. destruct (decide (pg = pgno)) as [Hpg|Hne]; [|apply A5; lia]. destruct (W1 Hpg) as [B1 (g & B2 & B3)]. split; [auto|]. destruct (A4 _ _ B2 B3) as (g' & ?). by exists g'. }
  destruct ((pg =? pgno) || negb (bool_decide (pg ∈ pr_pInJournal (j_p j)))) eqn:Hc.
  2:{ cbn [mbind option_bind]. change (SQLITE_OK =? SQLITE_OK) with true. cbn iota. apply orb_false_iff in Hc as [Hc _]. apply (Hnext _ j m s); [done|done|done|by apply keeps_refl|]. intros ->. by rewrite Z.eqb_refl in Hc. }
  destruct (Z.eqb_spec pg g_mj) as [->|Hne]; cbn [negb].
  { cbn [mbind option_bind]. change (SQLITE_OK =? SQLITE_OK) with true. cbn iota. apply (Hnext _ j m s); [done|done|done|by apply keeps_refl|]. intros E. destruct Hp. congruence. }
  destruct (Hq pg) as [|Hpg]; [lia|done|]. destruct (get_spec d0 m segs s v j pg Hi Hpg) as (rc & j1 & -> & S1 & D1). cbn [mbind option_bind]. destruct (Z.eqb_spec rc SQLITE_OK) as [->|Hn]; cbn [mbind option_bind].
  2:{ rewrite (proj2 (Z.eqb_neq rc SQLITE_OK)) by done. eexists _, _, _. split; [done|]. by split. }
  destruct (D1 eq_refl) as (I1 & C1 & K1). destruct (pager_write_spec m segs s v j1 pg I1 Hm C1) as (rc & j2 & -> & S2 & D2). cbn [mbind option_bind]. destruct (Z.eqb_spec rc SQLITE_OK) as [->|Hn].
  2:{ eexists _, _, _. split; [done|]. by split. }
  destruct (D2 eq_refl) as (s2 & I2 & W2 & K2). apply (Hnext _ j2 Active s2); [done|done|done|by eapply keeps_trans|]. by intros <-.
Qed.

(** ** sqlite3PagerWrite *)

(** The first page of the sector of page [pgno] *)
Lemma sector_first n pgno : 0 < n -> is_pow2 n = true -> 1 <= pgno -> Z.land (pgno - 1) (Z.lnot (n - 1)) + 1 <= pgno < Z.land (pgno - 1) (Z.lnot (n - 1)) + 1 + n /\ 1 <= Z.land (pgno - 1) (Z.lnot (n - 1)) + 1.
Proof using.
  intros Hn Hp H1. apply pow2_log in Hp; [|done]. set (k := Z.log2 n) in *. assert (0 <= k) as Hk by apply Z.log2_nonneg. assert (n - 1 = Z.ones k) as -> by (rewrite Z.ones_equiv; lia). rewrite <- Z.ldiff_land, Z.ldiff_ones_r, Z.shiftl_mul_pow2, Z.shiftr_div_pow2 by done.
  rewrite <- Hp. pose proof (Z.div_mod (pgno - 1) n ltac:(lia)). pose proof (Z.mod_pos_bound (pgno - 1) n ltac:(lia)). pose proof (Z.div_pos (pgno - 1) n ltac:(lia) ltac:(lia)). nia.
Qed.

Lemma pow2_quot m n : 0 < m <= n -> is_pow2 m = true -> is_pow2 n = true -> 0 < n / m /\ is_pow2 (n / m) = true.
Proof using.
  intros Hmn Hm Hn. apply pow2_log in Hm, Hn; [|lia..]. assert (Z.log2 m <= Z.log2 n) as Hl by (apply Z.log2_le_mono; lia). pose proof (Z.log2_nonneg m). assert (n / m = 2 ^ (Z.log2 n - Z.log2 m)) as ->. { rewrite Hn at 1. rewrite Hm at 1. rewrite Z.pow_sub_r by lia. done. }
  split; [apply Z.pow_pos_nonneg; lia|]. unfold is_pow2. apply Z.eqb_eq.  assert (2 ^ (Z.log2 n - Z.log2 m) - 1 = Z.ones (Z.log2 n - Z.log2 m)) as -> by (rewrite Z.ones_equiv; lia). rewrite Z.land_comm, Z.land_ones by lia. apply Z.mod_same. apply Z.pow_nonzero; lia.
Qed.

Lemma PagerWrite_spec m segs s v j p : inv m segs s v j -> m <> Final -> page_ok p -> is_Some (j_cache j !! p) -> post (sqlite3PagerWrite j p) (writes segs v p j).
Proof using.
  intros Hi Hm Hp Hc. unfold sqlite3PagerWrite. pose proof (i_conf _ _ _ _ _ _ Hi) as Hcf. rewrite (cf_ps _ Hcf), (cf_sz _ Hcf). destruct (Z.ltb_spec g_ps g_sz) as [Hlt|Hge]; [|by eapply pager_write_spec].
  pose proof g_sz_ok as [[S1 S2] S3]. pose proof g_ps_ok as [[P1 P2] P3]. destruct (pow2_quot g_ps g_sz) as [N1 N2]; [lia|done|done|]. set (n := g_sz / g_ps) in *. pose proof Hp as [[Hp1 Hp2] Hp3]. destruct (sector_first n p N1 N2 Hp1) as [B1 B2]. set (pg1 := Z.land _ _ + 1) in *.
  destruct (i_file _ _ _ _ _ _ Hi) as [_ _ _ [F1 F2]]. set (dbs := pr_dbSize (j_p j)) in *. set (nPage := if dbs <? p then _ else _).
  assert (0 < nPage /\ p < pg1 + nPage /\ pg1 + nPage <= PAGER_MAX_PGNO + 1) as (A1 & A2 & A3) by (unfold nPage; destruct (Z.ltb_spec dbs p), (Z.ltb_spec dbs (pg1 + n - 1)); lia). clearbody nPage.
  replace (0 <? nPage) with true by lia. replace (pg1 <=? p) with true by lia. replace (p <? pg1 + nPage) with true by lia. cbn [andb assert_ mbind option_bind].
  destruct (write_sector_spec (Z.to_nat nPage) m segs s v j pg1 p false) as (rc & ns & j1 & -> & S4 & D4); [done|done| |done|].
  { intros q Hq. destruct (decide (q = g_mj)); [by left|right]. split; [lia|done]. }
  cbn [mbind option_bind]. apply post_ret. destruct (Z.eqb_spec rc SQLITE_OK) as [->|Hn]; cbn [andb]; [|by split]. destruct (D4 eq_refl) as (m' & s' & M1 & M2 & I1 & K1 & W1). destruct W1 as [-> W1]; [lia|]. destruct ns.
  - pose proof (sync_sector_flagged (Z.to_nat nPage) (j_cache j1) pg1) as Hf. pose proof (inv_flagged _ _ _ _ _ _ I1 Hf) as I2. split; [by eapply inv_safe|]. intros _. exists s'. split; [done|].
    assert (keeps j1 (set_cache j1 (sync_sector (Z.to_nat nPage) (j_cache j1) pg1))) as K2. { intros q g Hg Hd. destruct (flagged_back _ _ _ _ Hf Hg) as (g' & Hg' & Hd' & _). exists g'. by rewrite Hd'. }
    split; [|by eapply keeps_trans]. destruct W1 as (g & W1 & W2). destruct (K2 _ _ W1 W2) as (g' & ?). by exists g'.
  - split; [done|]. intros _. by exists s'.
Qed.

(** The content of a writable page is changed. *)
Definition v_upd (v : Z -> list Z) (p : Z) (d : list Z) : Z -> list Z := fun q => if decide (q = p) then d else v q.

Lemma inv_content m segs s v j p g d v' : inv m segs s v j -> j_cache j !! p = Some g -> ph_dirty g = true -> len d = g_ps -> psim p d (v' p) -> (forall q, q <> p -> v' q = v q) -> inv m segs s v' (set_page j p (mkPgHdr d true (ph_needsync g))).
Proof using.
  intros [H1 H2 H3 H4 H5 [C1 C2 C3 C4 C5 C6] F H8 H9 H10] Hg Hd Hl Hs Hv. split; try done.
  - destruct m; [|destruct H5 as [E []]; split; [done|by split]|done]. destruct H5 as (E1 & E2 & E3 & E4 & E0 & E5). specialize (E5 p g Hg). congruence.
  - split; cbn.
    + intros q g'. rewrite lookup_insert_Some. intros [[<- <-]|[_ Hq]]; [split; [by eapply C1|done]|by apply C1].
    + intros q g'. rewrite lookup_insert_Some. intros [[<- <-]|[_ Hq]] Hle Hn; [|by apply C2]. destruct (C2 p g Hg Hle Hn). congruence.
    + intros q g'. rewrite lookup_insert_Some. intros [[<- <-]|[_ Hq]]; [done|by apply C3].
    + intros q g'. rewrite lookup_insert_Some. intros [[<- <-]|[_ Hq]] Hx; [by eapply C4|by eapply C4].
    + intros q Hq. destruct (C5 q Hq) as (g' & A1 & A2 & A3). destruct (decide (q = p)) as [->|Hne]; [eexists; rewrite lookup_insert_eq; split; [done|]; split; [done|]; cbn; congruence|exists g'; by rewrite lookup_insert_ne].
    + destruct C6 as [|(g' & A1 & A2)]; [by left|right]. cbn in *. destruct (decide (pr_dbSize (j_p j) = p)) as [->|Hne]; [eexists; by rewrite lookup_insert_eq|exists g'; by rewrite lookup_insert_ne].
  - destruct F. by split.
  - intros q Hq. specialize (H10 q Hq). unfold view in *. cbn. destruct (decide (q = p)) as [->|Hne]; [by rewrite lookup_insert_eq|rewrite lookup_insert_ne by done; by rewrite Hv].
Qed.
End Write.
