(* ===== verification/PagerCommit.v ===== *)
(** * PagerCommit: writing pages out, and the commit (pager.c) *)
From stdpp Require Import sorting.
From S2P Require Import Prelude Varint Record Page PageLayout PageCells Wal WalLog WalSpec UnixLock WalCkpt WalFile Journal PagerTxn JournalFile JournalPlay JournalReplay JournalRestore JournalWrite JournalSync PagerInv PagerWrite.

Section Commit.
Context {G : Geom} (d0 : list Z).
Abbreviation inv := (inv d0).

(** ** The journal is synced *)

Lemma all_recs_snoc segs s : all_recs (segs ++ [s]) = all_recs segs ++ s.2.
Proof using. unfold all_recs. rewrite fmap_app, concat_app. cbn. by rewrite app_nil_r. Qed.

Lemma rpages_snoc segs s ck : rpages (segs ++ [s]) (ck, []) = rpages segs s.
Proof using. unfold rpages. cbn [snd]. by rewrite all_recs_snoc, app_nil_r. Qed.

Lemma clear_lookup c p g' : clear_sync c !! p = Some g' <-> exists g, c !! p = Some g /\ g' = mkPgHdr (ph_data g) (ph_dirty g) (ph_needsync g && negb (ph_dirty g)).
Proof using. unfold clear_sync. rewrite lookup_fmap_Some. split; intros (g & H1 & H2); exists g; done. Qed.

Lemma inv_synced segs s v j m ck j' : inv Active segs s v j -> j_fd j' = j_fd j -> j_io j' `suffix_of` j_io j -> j_cache j' = clear_sync (j_cache j) -> core1 (j_p j') = core1 (j_p j) -> pr_dbSize (j_p j') = pr_dbSize (j_p j) -> pr_pInJournal (j_p j') = pr_pInJournal (j_p j) ->
  m <> Locked -> jmode d0 m (segs ++ [s]) (ck, []) j' -> inv m (segs ++ [s]) (ck, []) v j'.
Proof using.
  intros [H1 H2 H3 H4 H5 [C1 C2 C3 C4 C5 C6] [F1 F2 F3 [F4 F5]] H8 H9 H10] Ef Ei Ec E1 Es Ep Hm Hj. assert (conf_ok (j_p j')) as Hcf by by eapply conf_core1. unfold core1 in E1. injection E1 as X1 X2 X3 X4 X5 X6 X7. split; try done.
  - congruence.
  - by eapply (sane_suffix j).
  - congruence.
  - split; rewrite ?Ec, ?Ef, ?Es, ?Ep, ?X3.
    + intros p g' (g & Hg & ->)%clear_lookup. by apply (C1 p g).
    + intros p g' (g & Hg & ->)%clear_lookup. by apply (C2 p g).
    + intros p g' (g & Hg & ->)%clear_lookup. by apply (C3 p g).
    + intros p g' (g & Hg & ->)%clear_lookup. by apply (C4 p g).
    + intros p Hp. by apply elem_of_nil in Hp.
    + destruct C6 as [|(g & Hg & Hd)]; [by left|right]. eexists. rewrite clear_lookup. split; [by exists g|done].
  - split; rewrite ?Ef, ?Es, ?X3; try done; [|by destruct segs]. eapply always_mono; [|exact F1]. intros d. apply near_more. intros p Hp. rewrite all_recs_snoc, fmap_app. apply elem_of_app. by left.
  - intros p. by rewrite Ep, rpages_snoc.
  - by rewrite rpages_snoc.
  - intros p Hp. specialize (H10 p Hp). unfold view in *. rewrite Ec, Ef. unfold clear_sync. rewrite lookup_fmap. by destruct (j_cache j !! p).
Qed.

Lemma sync_inv segs s v j b : inv Active segs s v j ->
  post (syncJournal j b) (fun rc j' => safe d0 j' /\ (rc = SQLITE_OK -> j_cache j' = clear_sync (j_cache j) /\ exists ck, inv (if b then Active else Final) (segs ++ [s]) (ck, []) v j')).
Proof using.
  intros Hi. pose proof Hi as [H1 H2 H3 H4 [E1 A1] H6 F H8 H9 H10]. pose proof F as [F1 F2 F3 F4]. eapply post_mono; [by apply (syncJournal_spec d0 segs s j b)|]. intros rc j' (S1 & S2 & S3 & S4). split; [apply (safe_of d0 segs); [done|by rewrite S1|by rewrite S1]|].
  intros Hrc. destruct (S4 Hrc) as (D1 & D2 & D3 & D4). split; [done|]. assert (pr_jopen (j_p j') = true) as Jo by (unfold core in D2; simplify_eq; pose proof (ja_open _ _ _ _ A1); cbn in *; congruence). apply core_core1 in D2 as (B1 & B2 & B3 & B4). cbn in B3. assert (segs ++ [s] <> []) as Hne by by destruct segs. destruct b.
  - destruct D4 as [ck D4]. exists ck. apply (inv_synced segs s v j); try done. split; [by rewrite decide_False|done].
  - exists 0. apply (inv_synced segs s v j); try done.
Qed.

(** ** The change counter *)

Lemma counter_spec p d : length (pr_dbFileVers p) = 16%nat -> len d = g_ps -> exists d', pager_write_changecounter p d = Some d' /\ len d' = g_ps /\ psim 1 d' d.
Proof using.
  intros Hv Hl. pose proof g_ps_ok as [[P1 P2] _]. unfold pager_write_changecounter. destruct (pr_dbFileVers p) as [|a [|b [|c [|e vs]]]]; try done. unfold sqlite3Get4byte. cbn [mbind option_bind]. change (aget (a :: b :: c :: e :: vs) 0) with (Some a). change (aget (a :: b :: c :: e :: vs) 1) with (Some b). change (aget (a :: b :: c :: e :: vs) 2) with (Some c). change (aget (a :: b :: c :: e :: vs) 3) with (Some e). cbn [mbind option_bind].
  set (w := u32 _). destruct (put_bytes_out d 24 (sqlite3Put4byte w)) as (d1 & -> & (L1 & _ & B1) & _); [lia|rewrite put4_len; lia|apply put4_bytes|]. cbn [mbind option_bind]. rewrite put4_len in *.
  destruct (put_bytes_out d1 92 (sqlite3Put4byte w)) as (d2 & -> & (L2 & _ & B2) & _); [lia|rewrite put4_len; lia|apply put4_bytes|]. cbn [mbind option_bind]. rewrite put4_len in *.
  destruct (put_bytes_out d2 96 (sqlite3Put4byte SQLITE_VERSION_NUMBER)) as (d3 & -> & (L3 & _ & B3) & _); [lia|rewrite put4_len; lia|apply put4_bytes|]. rewrite put4_len in *. exists d3. split; [done|]. split; [lia|]. split; [lia|]. intros i Hi Hp. specialize (Hp eq_refl). unfold db_byte. rewrite B3, B2, B1 by lia. done.
Qed.

(** ** Pages are written out *)

Lemma near_write recs d p l : near d0 recs d -> 1 <= p -> p ∈ recs.*1 \/ g_orig < p -> len l <= g_ps -> near d0 recs (file_write d ((p - 1) * g_ps) l).
Proof using.
  intros [Hl Hb] Hp Hr Hle. pose proof g_ps_ok as [[P1 P2] _]. split; [pose proof (len_write_le d ((p - 1) * g_ps) l); nia|]. intros i Hi Hn. rewrite db_byte_write by nia. rewrite decide_False; [by apply Hb|]. intros Hx.
  assert (i / g_ps + 1 = p) as E. { replace i with ((p - 1) * g_ps + (i - (p - 1) * g_ps)) by lia. rewrite Z.div_add_l, Z.div_small by lia. lia. } rewrite E in Hn. destruct Hr as [Hr|Hr]; [done|]. nia.
Qed.

(** A page that may be written: its old content is in a synced segment. *)
Definition spillable (segs : list seg) (p : Z) : Prop := p ∈ (all_recs segs).*1 \/ g_orig < p.

Lemma dirty_spillable m segs s v j p g : inv m segs s v j -> j_cache j !! p = Some g -> ph_dirty g = true -> ph_needsync g = false -> 1 <= p /\ spillable segs p.
Proof using.
  intros [_ _ _ _ _ [C1 C2 _ _ C5 _] _ H8 _ _] Hg Hd Hn. destruct (C1 p g Hg) as [[[Hp _] _] _]. split; [done|]. destruct (decide (g_orig < p)) as [|Hle]; [by right|left]. destruct (decide (p ∈ pr_pInJournal (j_p j))) as [Hin|Hout]; [|destruct (C2 p g Hg ltac:(lia) Hout); congruence].
  apply H8 in Hin. unfold rpages in Hin. rewrite fmap_app, elem_of_app in Hin. destruct Hin as [|Hin]; [done|]. destruct (C5 p Hin) as (g' & Hg' & _ & Hn'). congruence.
Qed.

(** The file with the page, the same cache otherwise *)
Definition put_page (j : Jrnl) (p : Z) (l vers : list Z) : Jrnl :=
  let j := set_fd j (df_do (j_fd j) (FWrite ((p - 1) * g_ps) l)) in
  set_p j (pr_db (j_p j) (pr_dbSize (j_p j)) (if pr_dbFileSize (j_p j) <? p then p else pr_dbFileSize (j_p j)) vers).

Lemma put_safe m segs s v j p l vers : inv m segs s v j -> segs <> [] -> 1 <= p -> spillable segs p -> len l <= g_ps -> safe d0 (put_page j p l vers).
Proof using.
  intros [_ _ _ _ Hm _ [F1 F2 _ _] _ _ _] Hne Hp Hs Hl. apply (safe_of d0 segs); [exact (jsafe_weaken _ _ _ (mode_safe d0 m segs s j Hm))| |done]. apply always_do; [done|]. apply near_write; [|done..]. by apply (always_data _ _ F1).
Qed.

Lemma put_inv m segs s v j p g vers : inv m segs s v j -> segs <> [] -> j_cache j !! p = Some g -> ph_dirty g = true -> ph_needsync g = false -> length vers = 16%nat -> inv m segs s v (put_page j p (ph_data g) vers).
Proof using.
  intros Hi Hne Hg Hd Hn Hv. destruct (dirty_spillable _ _ _ _ _ _ _ Hi Hg Hd Hn) as [Hp Hsp]. pose proof Hi as [H1 H2 H3 H4 H5 [C1 C2 C3 C4 C5 C6] [F1 F2 F3 [F4 F5]] H8 H9 H10]. destruct (C1 p g Hg) as [_ Hl]. pose proof g_ps_ok as [[P1 P2] _].
  assert (forall q, 1 <= q -> q <> p -> db_page g_ps (df_data (df_do (j_fd j) (FWrite ((p - 1) * g_ps) (ph_data g)))) q = db_page g_ps (df_data (j_fd j)) q) as Hother by (intros q Hq Hqp; rewrite data_do; apply db_page_write_ne; lia).
  pose proof (C4 p g Hg Hd) as Hsz. split; try done.
  - destruct H1. by split.
  - destruct m; [done| |done]. destruct H5 as [E [A1 [] A3 A4 A5 A6]]. split; [done|]. split; try done; by split.
  - split; cbn; try done.
    + intros q g' Hg' Hd'. rewrite (C3 q g' Hg' Hd'). symmetry. apply Hother; [by apply (C1 q g')|congruence].
    + destruct C6 as [|C6]; [left|by right]. destruct (Z.ltb_spec (pr_dbFileSize (j_p j)) p); lia.
  - split; cbn [j_fd put_page set_p set_fd j_p pr_db pr_dbFileSize pr_dbSize].
    + apply always_do; [done|]. apply near_write; [by apply (always_data _ _ F1)|done|done|lia].
    + done.
    + rewrite data_do. cbn [f_apply]. rewrite len_write by nia. rewrite decide_False by (intros E; rewrite E in Hl; cbn in Hl; lia). rewrite F3, Hl. destruct (Z.ltb_spec (pr_dbFileSize (j_p j)) p); nia.
    + destruct (Z.ltb_spec (pr_dbFileSize (j_p j)) p); lia.
  - intros q Hq. specialize (H10 q Hq). unfold view in *. cbn [j_cache put_page set_p set_fd j_fd]. destruct (j_cache j !! q) as [g'|] eqn:Hg'; [done|]. rewrite Hother; [done|done|congruence].
Qed.

(** A dirty page whose content is in the file *)
Definition wrote (j : Jrnl) (p : Z) : Prop := exists g, j_cache j !! p = Some g /\ ph_dirty g = true /\ ph_data g = db_page g_ps (df_data (j_fd j)) p /\ p <= pr_dbFileSize (j_p j).

(** The flags of the pages are the same. *)
Definition same_flags (j j' : Jrnl) : Prop := forall p, (fun g => (ph_dirty g, ph_needsync g)) <$> j_cache j' !! p = (fun g => (ph_dirty g, ph_needsync g)) <$> j_cache j !! p.

Definition written (m : mode) (segs : list seg) (s : seg) (v : Z -> list Z) (l : list Z) (j : Jrnl) (rc : Z) (j' : Jrnl) : Prop :=
  safe d0 j' /\ (rc = SQLITE_OK -> inv m segs s v j' /\ same_flags j j' /\ forall p, p ∈ l \/ wrote j p -> wrote j' p).

Lemma flags_lookup j j' p g : same_flags j j' -> j_cache j !! p = Some g -> exists g', j_cache j' !! p = Some g' /\ ph_dirty g' = ph_dirty g /\ ph_needsync g' = ph_needsync g.
Proof using. intros H Hg. specialize (H p). rewrite Hg in H. destruct (j_cache j' !! p) as [g'|]; [|done]. exists g'. cbn in H. by simplify_eq. Qed.

(** The write of one page *)
Lemma put_one m segs s v j p g d vers : inv m segs s v j -> segs <> [] -> j_cache j !! p = Some g -> ph_dirty g = true -> ph_needsync g = false -> len d = g_ps -> psim p d (ph_data g) -> length vers = 16%nat ->
  let j1 := put_page (set_page j p (mkPgHdr d true false)) p d vers in inv m segs s v j1 /\ same_flags j j1 /\ forall q, q = p \/ wrote j q -> wrote j1 q.
Proof using.
  intros Hi Hne Hg Hd Hn Hl Hps Hv j1. destruct (dirty_spillable _ _ _ _ _ _ _ Hi Hg Hd Hn) as [Hp _]. pose proof g_ps_ok as [[P1 P2] _].
  assert (inv m segs s v (set_page j p (mkPgHdr d true false))) as I1.
  { rewrite <- Hn. apply (inv_content d0 m segs s v j p g d v); [done..| |done]. pose proof (i_view _ _ _ _ _ _ Hi p Hp) as Hw. unfold view in Hw. rewrite Hg in Hw. by eapply psim_trans. }
  split; [|split].
  - apply (put_inv m segs s v _ p (mkPgHdr d true false)); [done|done|cbn; by rewrite lookup_insert_eq|done..].
  - intros q. cbn. destruct (decide (q = p)) as [->|Hqp]; [rewrite lookup_insert_eq, Hg; cbn; by rewrite Hd, Hn|by rewrite lookup_insert_ne].
  - assert (forall q, 1 <= q -> q <> p -> db_page g_ps (df_data (j_fd j1)) q = db_page g_ps (df_data (j_fd j)) q) as Hother by (intros q Hq Hqp; change (j_fd j1) with (df_do (j_fd j) (FWrite ((p - 1) * g_ps) d)); rewrite data_do; apply db_page_write_ne; lia).
    intros q Hq. destruct (decide (q = p)) as [->|Hqp].
    + exists (mkPgHdr d true false). cbn [j1 put_page set_page set_fd set_p set_cache j_cache j_fd j_p]. rewrite lookup_insert_eq. split; [done|]. split; [done|]. split; [rewrite data_do; cbn [ph_data f_apply]; symmetry; apply db_page_write_eq; lia|]. cbn. destruct (Z.ltb_spec (pr_dbFileSize (j_p j)) p); lia.
    + destruct Hq as [|(g' & A1 & A2 & A3 & A4)]; [done|]. destruct (i_cache _ _ _ _ _ _ Hi) as [C1 _ _ _ _ _]. destruct (C1 q g' A1) as [[[Hq _] _] _]. exists g'. split; [cbn; by rewrite lookup_insert_ne|]. split; [done|]. split; [by rewrite Hother|]. cbn. destruct (Z.ltb_spec (pr_dbFileSize (j_p j)) p); lia.
Qed.

Lemma flags_trans j1 j2 j3 : same_flags j1 j2 -> same_flags j2 j3 -> same_flags j1 j3.
Proof using. intros H1 H2 p. by rewrite H2, H1. Qed.

Lemma pagelist_spec l m segs s v j : inv m segs s v j -> segs <> [] -> (forall p, p ∈ l -> exists g, j_cache j !! p = Some g /\ ph_dirty g = true /\ ph_needsync g = false) -> post (pager_write_pagelist j l) (written m segs s v l j).
Proof using.
  revert j. induction l as [|p l IH]; intros j Hi Hne Hl.
  { apply post_ret. split; [by eapply inv_safe|]. intros _. split; [done|]. split; [done|]. intros p [Hp|Hp]; [by apply elem_of_nil in Hp|done]. }
  cbn [pager_write_pagelist]. destruct (Hl p) as (g & Hg & Hd & Hn); [apply elem_of_cons; by left|]. rewrite Hg. cbn [mbind option_bind]. destruct (i_cache _ _ _ _ _ _ Hi) as [C1 _ _ C4 _ _]. pose proof (C4 p g Hg Hd) as Hsz. destruct (C1 p g Hg) as [_ Hlen]. replace (p <=? pr_dbSize (j_p j)) with true by lia. rewrite Hn. cbn [negb assert_ mbind option_bind].
  assert (exists d, (if p =? 1 then pager_write_changecounter (j_p j) (ph_data g) else Some (ph_data g)) = Some d /\ len d = g_ps /\ psim p d (ph_data g)) as (d & -> & Hld & Hps).
  { destruct (Z.eqb_spec p 1) as [->|]; [apply counter_spec; [apply Hi|done]|]. exists (ph_data g). split; [done|]. split; [done|apply psim_refl]. }
  cbn [mbind option_bind]. rewrite Hd. unfold j_write_db. destruct (j_next_spec (set_page j p (mkPgHdr d true false))) as (rc & n & io & -> & Hlat). cbn [mbind option_bind]. pose proof g_ps_ok as [[P1 P2] _].
  assert (exists vers, (if p =? 1 then get_bytes d 24 16 else Some (pr_dbFileVers (j_p (set_fd (with_io (set_page j p (mkPgHdr d true false)) io) (df_do (j_fd (with_io (set_page j p (mkPgHdr d true false)) io)) (FWrite ((p - 1) * pr_pageSize (j_p (set_page j p (mkPgHdr d true false)))) (j_stored rc n d))))))) = Some vers /\ length vers = 16%nat) as (vers & -> & Hvl).
  { destruct (p =? 1); [destruct (get_bytes_spec d 24 16) as (vers & -> & V1 & _); [lia..|]; exists vers; split; [done|lia]|]. eexists. split; [done|]. apply Hi. }
  cbn [mbind option_bind]. pose proof (inv_io d0 _ _ _ _ j io Hi (proj1 Hlat)) as Hi0. set (j0 := with_io j io) in *. cbn [j_p set_fd with_io set_page set_cache]. rewrite (cf_ps _ (i_conf _ _ _ _ _ _ Hi)).
  destruct (put_one m segs s v j0 p g d vers) as (I1 & Fl & W1); [done..|]. destruct (dirty_spillable _ _ _ _ _ _ _ Hi Hg Hd Hn) as [Hp Hsp]. destruct (Z.eqb_spec rc SQLITE_OK) as [->|Hrc].
  - set (j1 := put_page (set_page j0 p (mkPgHdr d true false)) p d vers) in *. change (post (pager_write_pagelist j1 l) (written m segs s v (p :: l) j)). eapply post_mono; [apply (IH j1); [done|done|]|].
    + intros q Hq. destruct (Hl q) as (g' & A1 & A2 & A3); [apply elem_of_cons; by right|]. destruct (flags_lookup j0 j1 q g' Fl A1) as (g'' & B1 & B2 & B3). exists g''. split; [done|]. split; congruence.
    + intros rc j2 [S2 D2]. split; [done|]. intros E. destruct (D2 E) as (K1 & K2 & K3). split; [done|]. split; [by eapply (flags_trans j j1)|]. intros q Hq. apply K3. rewrite elem_of_cons in Hq. destruct Hq as [[->|Hq]|Hq]; [right; apply W1; by left|by left|right; apply W1; by right].
  - apply post_ret. split; [|done]. change (safe d0 (put_page (set_page j0 p (mkPgHdr d true false)) p (j_stored rc n d) vers)). eapply (put_safe m segs s v); [|done|done|done|].
    + rewrite <- Hn. apply (inv_content d0 m segs s v j0 p g d v); [done..| |done]. pose proof (i_view _ _ _ _ _ _ Hi p Hp) as Hw. unfold view in Hw. rewrite Hg in Hw. by eapply psim_trans.
    + unfold j_stored. rewrite (proj2 (Z.eqb_neq rc SQLITE_OK)) by done. rewrite length_take. lia.
Qed.

(** ** Spilling *)

Lemma inv_clean m segs s v j p g : inv m segs s v j -> wrote j p -> j_cache j !! p = Some g -> ph_needsync g = false -> inv m segs s v (set_cache j (alter make_clean p (j_cache j))).
Proof using.
  intros [H1 H2 H3 H4 H5 [C1 C2 C3 C4 C5 C6] F H8 H9 H10] (g0 & Hg0 & Hd & Hdat & Hsz) Hg Hn. assert (g0 = g) as -> by congruence. assert (make_clean g = mkPgHdr (ph_data g) false false) as Hmk by (unfold make_clean; by rewrite Hd).
  assert (forall q g', alter make_clean p (j_cache j) !! q = Some g' -> q = p /\ g' = mkPgHdr (ph_data g) false false \/ q <> p /\ j_cache j !! q = Some g') as Hlk.
  { intros q g' Hq. destruct (decide (q = p)) as [->|Hne]; [left|right; by rewrite lookup_alter_ne in Hq]. rewrite lookup_alter_eq, Hg in Hq. cbn in Hq. split; [done|]. congruence. }
  split; try done.
  - destruct m; [|destruct H5 as [E []]; split; [done|by split]|done]. destruct H5 as (_ & _ & _ & _ & _ & E5). specialize (E5 p g Hg). congruence.
  - split; cbn.
    + intros q g' [[-> ->]|[_ Hq]]%Hlk; [by apply (C1 p g)|by apply C1].
    + intros q g' [[-> ->]|[_ Hq]]%Hlk Hle Hnin; [split; [done|]; by apply (C2 p g)|by apply C2].
    + intros q g' [[-> ->]|[_ Hq]]%Hlk; [done|by apply C3].
    + intros q g' [[-> ->]|[_ Hq]]%Hlk; [done|by apply C4].
    + intros q Hq. destruct (C5 q Hq) as (g' & A1 & A2 & A3). exists g'. split; [|done]. rewrite lookup_alter_ne; [done|]. intros <-. congruence.
    + destruct C6 as [|(g' & A1 & A2)]; [by left|]. destruct (decide (pr_dbSize (j_p j) = p)) as [->|Hne]; [by left|right]. exists g'. by rewrite lookup_alter_ne.
  - destruct F. by split.
  - intros q Hq. specialize (H10 q Hq). unfold view in *. cbn. destruct (decide (q = p)) as [->|Hne]; [|by rewrite lookup_alter_ne]. rewrite lookup_alter_eq, Hg in *. cbn. by rewrite Hmk.
Qed.

Lemma safe_p j p' : safe d0 j -> safe d0 (set_p j p').
Proof using. done. Qed.

Lemma error_safe j rc : safe d0 j -> safe d0 (pager_error j rc).
Proof using. unfold pager_error. by case_match. Qed.

Definition goes_on (v : Z -> list Z) (rc : Z) (j' : Jrnl) : Prop := safe d0 j' /\ (rc = SQLITE_OK -> exists m segs s, m <> Final /\ inv m segs s v j').

Lemma stress_write m segs s v j p g : inv m segs s v j -> m <> Final -> segs <> [] -> j_cache j !! p = Some g -> ph_dirty g = true -> ph_needsync g = false ->
  post (let_ok j := pager_write_pagelist j [p] in Some (SQLITE_OK, set_cache j (alter make_clean p (j_cache j)))) (goes_on v).
Proof using.
  intros Hi Hm Hne Hg Hd Hn. eapply post_then; [apply (pagelist_spec [p] m segs s v j); [done|done|]| |].
  - intros q Hq. apply list_elem_of_singleton in Hq as ->. by exists g.
  - intros j1 [S1 D1]. destruct (D1 eq_refl) as (I1 & Fl & W). destruct (flags_lookup j j1 p g Fl Hg) as (g' & Hg' & _ & Hn'). apply post_ret. assert (inv m segs s v (set_cache j1 (alter make_clean p (j_cache j1)))) as I2 by (apply (inv_clean m segs s v j1 p g'); [done|apply W; left; apply list_elem_of_singleton; done|done|congruence]).
    split; [by eapply inv_safe|]. intros _. by exists m, segs, s.
  - intros rc j1 Hrc [S1 _]. by split.
Qed.

Lemma stress_spec m segs s v j p g : inv m segs s v j -> m <> Final -> j_cache j !! p = Some g -> ph_dirty g = true -> post (pagerStress j p) (goes_on v).
Proof using.
  intros Hi Hm Hg Hd. unfold pagerStress. rewrite Hg. cbn [mbind option_bind]. rewrite Hd, (i_err _ _ _ _ _ _ Hi). change (negb (SQLITE_OK =? SQLITE_OK)) with false. cbn [assert_ mbind option_bind].
  destruct m; [destruct (i_mode _ _ _ _ _ _ Hi) as (_ & _ & _ & _ & _ & E5); specialize (E5 p g Hg); congruence| |done]. eapply (post_bind _ _ (goes_on v)).
  2:{ intros rc j' [S1 D1]. apply post_ret. split; [by apply error_safe|]. intros ->. by apply D1. }
  destruct (ph_needsync g || (pr_eState (j_p j) =? PAGER_WRITER_CACHEMOD)) eqn:Hc.
  - eapply post_then; [by apply (sync_inv segs s v j true)| |].
    + intros j1 [S1 D1]. destruct (D1 eq_refl) as (Ec & ck & I1). eapply (stress_write Active (segs ++ [s]) (ck, []) v j1 p); [done|done|by destruct segs|rewrite Ec; apply clear_lookup; by exists g|done|cbn; by rewrite Hd, andb_false_r].
    + intros rc j1 Hrc [S1 _]. by split.
  - apply orb_false_iff in Hc as [Hn Hst]. unfold jthen at 1. cbn [mbind option_bind Z.eqb SQLITE_OK]. apply (stress_write Active segs s v j p g); try done. intros ->. destruct (i_mode _ _ _ _ _ _ Hi) as [E _]. rewrite decide_True in E by done. by rewrite E in Hst.
Qed.

(** ** Commit *)

Lemma incr_spec segs s v j : inv Active segs s v j -> 1 <> g_mj -> post (pager_incr_changecounter j) (fun rc j' => safe d0 j' /\ (rc = SQLITE_OK -> exists s', inv Active segs s' v j')).
Proof using.
  intros Hi Hmj. unfold pager_incr_changecounter. destruct (negb (pr_changeCountDone (j_p j)) && (0 <? pr_dbSize (j_p j))) eqn:Hc; [|apply post_ret; split; [by eapply inv_safe|]; intros _; by exists s].
  assert (page_ok 1) as Hp1 by (split; [unfold PAGER_MAX_PGNO; lia|done]). eapply post_then; [by apply (get_spec d0 Active segs s v j 1)| |].
  2:{ intros rc j1 Hn [S1 _]. by split. }
  intros j1 [S1 D1]. destruct (D1 eq_refl) as (I1 & C1 & _). eapply post_then; [by apply (PagerWrite_spec d0 Active segs s v j1 1)| |].
  2:{ intros rc j2 Hn [S2 _]. by split. }
  intros j2 [S2 D2]. destruct (D2 eq_refl) as (s2 & I2 & (g & Hg & Hd) & _). rewrite Hg. cbn [mbind option_bind]. destruct (i_cache _ _ _ _ _ _ I2) as [K1 _ _ _ _ _]. destruct (K1 1 g Hg) as [_ Hl]. destruct (counter_spec (j_p j2) (ph_data g)) as (d & -> & Hld & Hps); [apply I2|done|]. cbn [mbind option_bind]. apply post_ret. rewrite Hd.
  assert (inv Active segs s2 v (set_page j2 1 (mkPgHdr d true (ph_needsync g)))) as I3. { apply (inv_content d0 Active segs s2 v j2 1 g d v); [done..| |done]. pose proof (i_view _ _ _ _ _ _ I2 1 ltac:(lia)) as Hw. unfold view in Hw. rewrite Hg in Hw. by eapply psim_trans. }
  split; [exact (safe_p _ _ (inv_safe d0 _ _ _ _ _ I3))|]. intros _. exists s2. destruct I3 as [X1 X2 X3 X4 [X5 [A1 [] A3 A4 A5 A6]] [] [] X8 X9 X10]. split; try done; by split.
Qed.

(** The database file has the pages of [v]. *)
Definition holds (v : Z -> list Z) (d : list Z) : Prop := exists n, 0 <= n <= PAGER_MAX_PGNO /\ len d = g_ps * n /\ forall p, 1 <= p -> psim p (db_page g_ps d p) (v p).

Lemma dirty_list_elem c p : p ∈ dirty_list c <-> exists g, c !! p = Some g /\ ph_dirty g = true.
Proof using.
  unfold dirty_list. rewrite (merge_sort_Permutation (≤)). rewrite list_elem_of_filter. split.
  - intros [H _]. destruct (c !! p) as [g|]; [|done]. exists g. split; [done|]. cbn in H. congruence.
  - intros (g & Hg & Hd). rewrite Hg. cbn. split; [by rewrite Hd|]. apply list_elem_of_fmap. exists (p, g). split; [done|]. by apply elem_of_map_to_list.
Qed.

(** The file after the first phase of a commit *)
Record ready (v : Z -> list Z) (j : Jrnl) : Prop := mkReady {
  rd_err : pr_errCode (j_p j) = SQLITE_OK;
  rd_del : del_mode (j_p j) /\ pr_jopen (j_p j) = true;
  rd_size : pr_dbFileSize (j_p j) = pr_dbSize (j_p j);
  rd_file : exists d, j_fd j = mkDFile d [] /\ holds v d }.

(** All dirty pages are in the file: its pages are those of the transaction. *)
Lemma wrote_holds m segs s v j : inv m segs s v j -> (forall p g, j_cache j !! p = Some g -> ph_dirty g = true -> wrote j p) -> pr_dbFileSize (j_p j) = pr_dbSize (j_p j) /\ holds v (df_data (j_fd j)).
Proof using.
  intros [_ _ _ _ _ [C1 C2 C3 C4 C5 C6] [F1 F2 F3 [F4 F5]] _ _ H10] Hw. pose proof g_orig_ok. assert (pr_dbFileSize (j_p j) = pr_dbSize (j_p j)) as E.
  { destruct C6 as [|(g & Hg & Hd)]; [lia|]. destruct (Hw _ _ Hg Hd) as (_ & _ & _ & _ & Hs). lia. }
  split; [done|]. exists (pr_dbFileSize (j_p j)). split; [lia|]. split; [done|]. intros p Hp. specialize (H10 p Hp). unfold view in H10. destruct (j_cache j !! p) as [g|] eqn:Hg; [|done]. destruct (ph_dirty g) eqn:Hd.
  - destruct (Hw _ _ Hg Hd) as (g' & A1 & _ & A2 & _). rewrite <- A2. congruence.
  - by rewrite <- (C3 p g Hg Hd).
Qed.

Lemma commit_main_spec segs s v j : inv Active segs s v j -> 1 <> g_mj -> post (commit_main j) (fun rc j' => safe d0 j' /\ (rc = SQLITE_OK -> ready v j')).
Proof using.
  intros Hi Hmj. unfold commit_main. eapply post_then; [by apply (incr_spec segs s v)| |intros rc j1 Hn [S1 _]; by split]. intros j1 [_ D1]. destruct (D1 eq_refl) as [s1 I1]. eapply post_then; [by apply (sync_inv segs s1 v j1 false)| |intros rc j2 Hn [S2 _]; by split].
  intros j2 [_ D2]. destruct (D2 eq_refl) as (Ec & ck & I2). assert (segs ++ [s1] <> []) as Hne by by destruct segs. eapply post_then; [apply (pagelist_spec (dirty_list (j_cache j2)) Final (segs ++ [s1]) (ck, []) v j2); [done|done|]| |intros rc j3 Hn [S3 _]; by split].
  { intros p (g & Hg & Hd)%dirty_list_elem. exists g. split; [done|]. split; [done|]. rewrite Ec in Hg. apply clear_lookup in Hg as (g' & _ & ->). cbn in *. by rewrite Hd, andb_false_r. }
  intros j3 [_ D3]. destruct (D3 eq_refl) as (I3 & Fl & W). destruct (wrote_holds _ _ _ _ _ I3) as [Hsz Hh].
  { intros p g Hg Hd. apply W. left. apply dirty_list_elem. specialize (Fl p). rewrite Hg in Fl. destruct (j_cache j2 !! p) as [g'|] eqn:Hg'; [|done]. cbn in Fl. exists g'. split; [done|]. congruence. }
  cbv zeta. cbn [j_p set_cache]. rewrite Hsz. replace (pr_dbSize (j_p j3) <? pr_dbSize (j_p j3)) with false by lia. unfold jthen. cbn [mbind option_bind Z.eqb SQLITE_OK]. set (j4 := set_cache j3 _). assert (safe d0 j4) as S4 by exact (inv_safe d0 _ _ _ _ _ I3).
  unfold sqlite3PagerSync. destruct (j_call_spec j4) as (rc & ? & -> & io & -> & Hl). cbn [mbind option_bind]. destruct ((rc =? SQLITE_OK) || (rc =? SQLITE_NOTFOUND)) eqn:Hrc; [|apply post_ret; split; [exact S4|by intros ->]]. change (pr_conf (j_p (with_io j4 io))) with (pr_conf (j_p j3)). rewrite (cf_ns _ (i_conf _ _ _ _ _ _ I3)).
  unfold j_sync_db. destruct (j_next_spec (with_io j4 io)) as (rc2 & n & io2 & -> & Hl2). apply post_ret. destruct (Z.eqb_spec rc2 SQLITE_OK) as [->|Hn]; [|split; [exact S4|done]]. split.
  - pose proof (i_file _ _ _ _ _ _ I3) as [F1 _ _ _]. apply (safe_of d0 (segs ++ [s1])); [exact (jsafe_weaken _ _ _ (mode_safe d0 Final _ _ j3 (i_mode _ _ _ _ _ _ I3)))| |done]. apply always_sync, (always_data _ _ F1).
  - intros _. pose proof (i_mode _ _ _ _ _ _ I3) as (_ & Jo & _). split; [apply I3|split; [apply (i_conf _ _ _ _ _ _ I3)|done]|done|]. exists (df_data (j_fd j3)). done.
Qed.

(** The new file is on the disk and the journal is deleted; should the journal come back, it restores the old file. *)
Definition committed (v : Z -> list Z) (j : Jrnl) : Prop := exists f d, j_jfd j = df_do f FUnlink /\ j_fd j = mkDFile d [] /\ holds v d /\ forall cj, crash_of f cj -> recoverable d0 cj d.

(** The end of a commit: the journal is deleted, or nothing has happened. *)
Lemma end_commit j hm : del_mode (j_p j) -> pr_jopen (j_p j) = true -> pr_eState (j_p j) <> PAGER_ERROR -> pr_dbFileSize (j_p j) = pr_dbSize (j_p j) ->
  post (pager_end_transaction j hm true) (fun rc j' => j_fd j' = j_fd j /\ (j_jfd j' = df_do (j_jfd j) FUnlink \/ j_jfd j' = j_jfd j /\ rc <> SQLITE_OK)).
Proof using.
  intros [M1 M2] Ho He Hs. unfold pager_end_transaction, finalize_journal, delete_journal. rewrite (proj2 (Z.eqb_neq _ _) He), Ho, M1, M2. cbn [negb assert_ mbind option_bind andb orb Z.eqb PAGER_JOURNALMODE_DELETE PAGER_JOURNALMODE_TRUNCATE PAGER_JOURNALMODE_PERSIST].
  set (j0 := set_p j (pr_opened (j_p j) false)). destruct (j_call_spec j0) as (rc & ? & -> & io & -> & Hl). cbn [mbind option_bind]. destruct (Z.eqb_spec rc SQLITE_OK) as [->|Hn]; cbn [andb].
  - cbn [j_p set_jfd with_io pr_rec pr_dbSize pr_dbFileSize]. change (pr_dbFileSize (j_p j0)) with (pr_dbFileSize (j_p j)). change (pr_dbSize (j_p j0)) with (pr_dbSize (j_p j)). rewrite Hs. replace (pr_dbSize (j_p j) <? pr_dbSize (j_p j)) with false by lia. unfold jthen. cbn [mbind option_bind Z.eqb SQLITE_OK]. set (j1 := set_cache _ _).
    assert (pc_exclusiveMode (pr_conf (j_p j1)) = false /\ j_fd j1 = j_fd j /\ j_jfd j1 = df_do (j_jfd j) FUnlink) as (Ex & A1 & A2) by done. clearbody j1. destruct (j_call_spec j1) as (rc & ? & -> & io2 & -> & _). cbn [mbind option_bind]. cbn [j_p with_io]. rewrite Ex. cbn [negb]. destruct (j_call_spec (with_io j1 io2)) as (rc3 & ? & -> & io3 & -> & _). cbn [mbind option_bind]. apply post_ret. split; [done|by left].
  - cbn [mbind option_bind]. set (j1 := set_cache _ _). assert (pc_exclusiveMode (pr_conf (j_p j1)) = false /\ j_fd j1 = j_fd j /\ j_jfd j1 = j_jfd j) as (Ex & A1 & A2) by done. clearbody j1. rewrite Ex. cbn [negb]. destruct (j_call_spec j1) as (rc3 & ? & -> & io3 & -> & _). cbn [mbind option_bind]. apply post_ret. rewrite (proj2 (Z.eqb_neq rc SQLITE_OK)) by done. split; [done|by right].
Qed.

Lemma phase_two_spec v j : safe d0 j -> ready v j -> pr_eState (j_p j) = PAGER_WRITER_FINISHED -> post (sqlite3PagerCommitPhaseTwo j) (fun rc j' => (safe d0 j' \/ committed v j') /\ (rc = SQLITE_OK -> committed v j')).
Proof using.
  intros Hs [R1 [R2 R2'] R3 R4] He. unfold sqlite3PagerCommitPhaseTwo. rewrite R1, He. change (negb (SQLITE_OK =? SQLITE_OK)) with false. cbn [assert_ mbind option_bind Z.eqb PAGER_WRITER_FINISHED PAGER_WRITER_LOCKED Pos.eqb orb andb].
  eapply post_bind; [apply end_commit; [done|done|by rewrite He|done]|]. intros rc j1 [A1 A2]. apply post_ret. assert (j_fd (pager_error j1 rc) = j_fd j1 /\ j_jfd (pager_error j1 rc) = j_jfd j1) as [P1 P2] by (unfold pager_error; by case_match). destruct A2 as [A2|[A2 Hn]].
  - assert (committed v (pager_error j1 rc)) as Hc; [|auto]. destruct R4 as (d & R4 & R5). exists (j_jfd j), d. split; [congruence|]. split; [congruence|]. split; [done|]. intros cj Hj. apply Hs; [done|]. rewrite R4. apply crash_self.
  - split; [left|done]. intros cj cd. rewrite P1, P2, A1, A2. apply Hs.
Qed.

(** Without a change there is no journal. *)
Lemma phase_two_locked j : del_mode (j_p j) -> pr_jopen (j_p j) = false -> pr_errCode (j_p j) = SQLITE_OK -> pr_eState (j_p j) = PAGER_WRITER_LOCKED -> pr_dbFileSize (j_p j) = pr_dbSize (j_p j) -> post (sqlite3PagerCommitPhaseTwo j) (fun _ j' => j_fd j' = j_fd j /\ j_jfd j' = j_jfd j).
Proof using.
  intros [M1 M2] Ho Hr He Hs. unfold sqlite3PagerCommitPhaseTwo, pager_end_transaction. rewrite Hr, He, Ho, M1, M2. change (negb (SQLITE_OK =? SQLITE_OK)) with false. cbn [negb assert_ mbind option_bind Z.eqb PAGER_WRITER_LOCKED PAGER_ERROR Pos.eqb orb andb SQLITE_OK]. cbn [j_p pr_rec pr_dbSize pr_dbFileSize]. rewrite Hs. replace (pr_dbSize (j_p j) <? pr_dbSize (j_p j)) with false by lia. unfold jthen. cbn [mbind option_bind Z.eqb SQLITE_OK].
  set (j1 := set_cache _ _). assert (pc_exclusiveMode (pr_conf (j_p j1)) = false /\ j_fd j1 = j_fd j /\ j_jfd j1 = j_jfd j) as (Ex & A1 & A2) by done. clearbody j1. destruct (j_call_spec j1) as (rc & ? & -> & io2 & -> & _). cbn [mbind option_bind j_p with_io]. rewrite Ex. cbn [negb]. destruct (j_call_spec (with_io j1 io2)) as (rc3 & ? & -> & io3 & -> & _). cbn [mbind option_bind]. apply post_ret. unfold pager_error. by case_match.
Qed.

(** ** Transactions *)

(** What the client and the cache do *)
Inductive TOp := TRead (p : Z) | TWrite (p : Z) (d : list Z) | TSpill (p : Z) | TDrop (p : Z).

Definition do_op (j : Jrnl) (o : TOp) : option (Z * Jrnl) :=
  match o with
  | TRead p => sqlite3PagerGet j p
  | TWrite p d => let_ok j := sqlite3PagerGet j p in let_ok j := sqlite3PagerWrite j p in g ← j_cache j !! p; Some (SQLITE_OK, set_page j p (mkPgHdr d (ph_dirty g) (ph_needsync g)))
  | TSpill p => match j_cache j !! p with Some g => if ph_dirty g then pagerStress j p else Some (SQLITE_OK, j) | None => Some (SQLITE_OK, j) end
  | TDrop p => match j_cache j !! p with Some g => Some (SQLITE_OK, if ph_dirty g then j else set_cache j (delete p (j_cache j))) | None => Some (SQLITE_OK, j) end
  end.

Fixpoint do_ops (j : Jrnl) (ops : list TOp) : option (Z * Jrnl) := match ops with [] => Some (SQLITE_OK, j) | o :: ops => let_ok j := do_op j o in do_ops j ops end.

Definition do_commit (j : Jrnl) : option (Z * Jrnl) := let_ok j := sqlite3PagerCommitPhaseOne j in sqlite3PagerCommitPhaseTwo j.

Definition top_ok (o : TOp) : Prop := match o with TRead p => page_ok p | TWrite p d => page_ok p /\ len d = g_ps | _ => True end.
Definition op_view (v : Z -> list Z) (o : TOp) : Z -> list Z := match o with TWrite p d => v_upd v p d | _ => v end.

Lemma inv_drop m segs s v j p g : inv m segs s v j -> j_cache j !! p = Some g -> ph_dirty g = false -> inv m segs s v (set_cache j (delete p (j_cache j))).
Proof using.
  intros [H1 H2 H3 H4 H5 [C1 C2 C3 C4 C5 C6] F H8 H9 H10] Hg Hd. split; try done.
  - destruct m; [|destruct H5 as [E []]; split; [done|by split]|done]. destruct H5 as (E1 & E2 & E3 & E4 & E0 & E5). repeat (split; [done|]). intros q g' Hx. cbn in Hx. apply lookup_delete_Some in Hx as [_ Hq]. by eapply E5.
  - split; cbn.
    + intros q g' [_ Hq]%lookup_delete_Some. by apply C1.
    + intros q g' [_ Hq]%lookup_delete_Some. by apply C2.
    + intros q g' [_ Hq]%lookup_delete_Some. by apply C3.
    + intros q g' [_ Hq]%lookup_delete_Some. by apply C4.
    + intros q Hq. destruct (C5 q Hq) as (g' & A1 & A2 & A3). exists g'. split; [|done]. rewrite lookup_delete_ne; [done|]. congruence.
    + destruct C6 as [|(g' & A1 & A2)]; [by left|right]. exists g'. split; [|done]. rewrite lookup_delete_ne; [done|]. cbn in *. congruence.
  - destruct F. by split.
  - intros q Hq. specialize (H10 q Hq). unfold view in *. cbn. destruct (decide (q = p)) as [->|Hne]; [|by rewrite lookup_delete_ne]. rewrite lookup_delete_eq. rewrite Hg in H10. by rewrite <- (C3 p g Hg Hd).
Qed.

Lemma op_spec m segs s v j o : inv m segs s v j -> m <> Final -> top_ok o -> post (do_op j o) (goes_on (op_view v o)).
Proof using.
  intros Hi Hm Ho. assert (goes_on v SQLITE_OK j) as Hsame by (split; [by eapply inv_safe|]; intros _; by exists m, segs, s). destruct o as [p|p d|p|p]; cbn [do_op op_view].
  - eapply post_mono; [by apply (get_spec d0 m segs s v)|]. intros rc j1 [S1 D1]. split; [done|]. intros Hrc. exists m, segs, s. split; [done|]. by apply D1.
  - destruct Ho as [Hp Hl]. eapply post_then; [by apply (get_spec d0 m segs s v)| |intros rc j1 Hn [S1 _]; by split]. intros j1 [_ D1]. destruct (D1 eq_refl) as (I1 & C1 & _). eapply post_then; [by apply (PagerWrite_spec d0 m segs s v)| |intros rc j2 Hn [S2 _]; by split].
    intros j2 [_ D2]. destruct (D2 eq_refl) as (s2 & I2 & (g & Hg & Hd) & _). rewrite Hg. cbn [mbind option_bind]. rewrite Hd. apply post_ret. assert (inv Active segs s2 (v_upd v p d) (set_page j2 p (mkPgHdr d true (ph_needsync g)))) as I3.
    { apply (inv_content d0 Active segs s2 v j2 p g d); [done..| |]; unfold v_upd; [rewrite decide_True by done; apply psim_refl|]. intros q Hq. by rewrite decide_False. }
    split; [by eapply inv_safe|]. intros _. by exists Active, segs, s2.
  - destruct (j_cache j !! p) as [g|] eqn:Hg; [|by apply post_ret]. destruct (ph_dirty g) eqn:Hd; [by eapply stress_spec|by apply post_ret].
  - destruct (j_cache j !! p) as [g|] eqn:Hg; [|by apply post_ret]. destruct (ph_dirty g) eqn:Hd; apply post_ret; [done|]. pose proof (inv_drop _ _ _ _ _ _ _ Hi Hg Hd) as I1. split; [by eapply inv_safe|]. intros _. by exists m, segs, s.
Qed.

Lemma ops_spec ops v rc0 j : goes_on v rc0 j -> rc0 = SQLITE_OK -> Forall top_ok ops -> post (do_ops j ops) (goes_on (fold_left op_view ops v)).
Proof using.
  revert v rc0 j. induction ops as [|o ops IH]; intros v rc0 j Hg Hrc Hok; [subst; by apply post_ret|]. apply Forall_cons in Hok as [Ho Hok]. destruct Hg as [_ Hg]. destruct (Hg Hrc) as (m & segs & s & Hm & Hi). cbn [do_ops fold_left]. eapply post_then; [by apply (op_spec m segs s v)| |].
  - intros j1 H1. by apply (IH _ SQLITE_OK).
  - intros rc j1 Hn [S1 _]. by split.
Qed.

Definition ended (v : Z -> list Z) (rc : Z) (j' : Jrnl) : Prop := (safe d0 j' \/ committed v j') /\ (rc = SQLITE_OK -> committed v j' \/ safe d0 j' /\ holds v d0).

Lemma commit_spec v j : goes_on v SQLITE_OK j -> 1 <> g_mj -> post (do_commit j) (ended v).
Proof using.
  intros [_ Hg] Hmj. destruct (Hg eq_refl) as (m & segs & s & Hm & Hi). unfold do_commit, sqlite3PagerCommitPhaseOne. rewrite (i_err _ _ _ _ _ _ Hi). change (negb (SQLITE_OK =? SQLITE_OK)) with false. cbn iota. destruct m; [| |done].
  - pose proof (i_mode _ _ _ _ _ _ Hi) as (E1 & -> & _ & _ & [E0 _] & E5). rewrite E1. change (PAGER_WRITER_LOCKED <? PAGER_WRITER_CACHEMOD) with true. cbn iota. unfold jthen. cbn [mbind option_bind Z.eqb SQLITE_OK].
    destruct (wrote_holds _ _ _ _ _ Hi) as [Hsz Hh]; [intros p g Hx Hd; specialize (E5 p g Hx); congruence|]. eapply post_mono; [apply phase_two_locked; [apply (i_conf _ _ _ _ _ _ Hi)|done|apply Hi|done|done]|]. intros rc j1 [A1 A2].
    assert (safe d0 j1) as Hs by (intros cj cd; rewrite A1, A2; by apply (inv_safe d0 _ _ _ _ _ Hi)). split; [by left|]. intros _. right. split; [done|]. by rewrite (fo_nil _ _ _ (i_file _ _ _ _ _ _ Hi) eq_refl) in Hh.
  - pose proof (i_mode _ _ _ _ _ _ Hi) as [E1 _]. assert ((pr_eState (j_p j) <? PAGER_WRITER_CACHEMOD) = false) as -> by (rewrite E1; by case_decide). eapply (post_then _ _ (fun rc j' => safe d0 j' /\ (rc = SQLITE_OK -> ready v j' /\ pr_eState (j_p j') = PAGER_WRITER_FINISHED))).
    + eapply post_then; [by apply (commit_main_spec segs s v)| |intros rc j1 Hn [S1 _]; by split]. intros j1 [S1 D1]. destruct (D1 eq_refl) as [R1 R2 R3 R4]. apply post_ret. split; [done|]. intros _. split; [by split|done].
    + intros j1 [S1 D1]. destruct (D1 eq_refl) as [R1 E2]. eapply post_mono; [by apply (phase_two_spec v)|]. intros rc j2 [A1 A2]. split; [done|]. intros Hrc. left. auto.
    + intros rc j1 Hn [S1 _]. split; [by left|done].
Qed.
End Commit.
