(* ===== verification/PagerAtomic.v ===== *)
(** * PagerAtomic: transactions are atomic (pager.c)

    A transaction reads and writes pages, the cache writes dirty pages to the file or drops
    clean ones, and then it commits.  Whatever a crash at any point leaves of the files, and
    however many recoveries are cut off, the one that ends has the old database file or
    the new one. *)
From stdpp Require Import relations.
From S2P Require Import Prelude Varint Record Page PageLayout PageCells Wal WalLog WalSpec UnixLock WalCkpt WalFile Journal PagerTxn JournalFile JournalPlay JournalReplay JournalRestore JournalWrite JournalSync PagerInv PagerWrite PagerCommit.

Section Atomic.
Context {G : Geom} (d0 : list Z).

Definition old_view (p : Z) : list Z := db_page g_ps d0 p.

(** A pager with a RESERVED lock on the file [d0], before the first change; the journal is
    not there or is a file without a header. *)
Record begin_ok (j : Jrnl) : Prop := mkBeginOk {
  b_conf : conf_ok (j_p j);
  b_err : pr_errCode (j_p j) = SQLITE_OK;
  b_sane : sane j;
  b_vers : length (pr_dbFileVers (j_p j)) = 16%nat;
  b_state : pr_eState (j_p j) = PAGER_WRITER_LOCKED;
  b_open : pr_jopen (j_p j) = false;
  b_cache : forall p g, j_cache j !! p = Some g -> page_ok p /\ ph_dirty g = false /\ ph_data g = old_view p;
  b_inj : pr_pInJournal (j_p j) = ∅;
  b_len : len d0 = g_ps * g_orig;
  b_size : pr_dbSize (j_p j) = g_orig /\ pr_dbFileSize (j_p j) = g_orig;
  b_fd : j_fd j = mkDFile d0 [];
  b_jfd : exists cj, j_jfd j = mkDFile cj [] /\ (f_read cj 4 0 <> magic1 \/ f_read cj 4 4 <> magic2) /\ (g_clean = true -> cj = []) }.

Lemma old_page_len p : len (old_view p) = g_ps.
Proof using. pose proof g_ps_ok as [[? ?] _]. unfold old_view. rewrite <- f_read_page. unfold f_read. rewrite length_fmap, length_seqZ. lia. Qed.

Lemma mj_big : 1 <> g_mj.
Proof using. pose proof g_ps_ok as [[? ?] _]. unfold g_mj. assert (1 <= PENDING_BYTE / g_ps); [|lia]. apply Z.div_le_lower_bound; [lia|]. unfold PENDING_BYTE. unfold SQLITE_MAX_PAGE_SIZE in *. lia. Qed.

Lemma begin_inv j : begin_ok j -> inv d0 Locked [] (0, []) old_view j.
Proof using.
  intros [B1 B2 B3 B4 B5 B0 B6 B7 B8 [B9 B9'] B10 (cj & B11 & B12 & B13)]. pose proof g_orig_ok as [O1 O2]. split; try done.
  - split; [done|]. split; [done|]. split; [done|]. split; [|split; [split; [done|rewrite B11; exact B13]|]; intros p g Hg; by apply (B6 p g)]. rewrite B11. split; [done|done|constructor|]. cbn. destruct B12; [left|right]; by apply always_synced.
  - split.
    + intros p g Hg. destruct (B6 p g Hg) as (A1 & _ & ->). split; [done|apply old_page_len].
    + intros p g Hg _ _. by apply (B6 p g).
    + intros p g Hg _. rewrite B10. by apply (B6 p g).
    + intros p g Hg Hd. destruct (B6 p g Hg) as (_ & E & _). congruence.
    + intros p Hp. cbn in Hp. by apply not_elem_of_nil in Hp.
    + left. lia.
  - split; [|done|rewrite B10, B9'; exact B8|split; [lia|]].
    + rewrite B10. apply always_synced. by apply near_refl.
    + rewrite B9. exact O2.
  - intros p. rewrite B7. cbn. set_solver.
  - constructor.
  - intros p Hp. unfold view. destruct (j_cache j !! p) as [g|] eqn:Hg; [|rewrite B10; apply psim_refl]. destruct (B6 p g Hg) as (_ & _ & ->). apply psim_refl.
Qed.

(** The whole of a transaction *)
Definition transaction (j : Jrnl) (ops : list TOp) : option (Z * Jrnl) := let_ok j := do_ops j ops in do_commit j.

Lemma ops_begun j ops : begin_ok j -> Forall top_ok ops -> post (do_ops j ops) (goes_on d0 (fold_left op_view ops old_view)).
Proof using.
  intros Hb%begin_inv Hok. apply (ops_spec d0 ops old_view SQLITE_OK j); [|done..]. split; [by eapply inv_safe|]. intros _. by exists Locked, [], (0, []).
Qed.

(** The records are of old pages. *)
Lemma rpages_old m segs s v j p : inv d0 m segs s v j -> p ∈ rpages segs s -> 1 <= p <= g_orig.
Proof using.
  intros Hi Hp. pose proof (i_mode _ _ _ _ _ _ Hi) as Hm. assert (Forall (old_rec d0) (all_recs segs ++ s.2)) as Ho.
  { apply Forall_app. split; [apply old_recs, (mode_safe d0 m segs s j Hm)|]. destruct m; [destruct Hm as (_ & _ & -> & _)|destruct Hm as (_ & [[_ [_ H] _ _ _] _ _ _ _ _ _ _])|destruct Hm as (_ & _ & _ & -> & _)]; done. }
  apply list_elem_of_fmap in Hp as (r & -> & Hr). rewrite Forall_forall in Ho. destruct (Ho r Hr) as [(H & _) _]. done.
Qed.

Lemma inv_well_formed m segs s v j : m <> Final -> inv d0 m segs s v j ->
  PAGER_WRITER_LOCKED <= pr_eState (j_p j) <= PAGER_WRITER_DBMOD /\
  (forall p g, j_cache j !! p = Some g -> page_ok p /\ len (ph_data g) = g_ps /\ (ph_dirty g = true -> p <= pr_dbSize (j_p j) /\ PAGER_WRITER_LOCKED < pr_eState (j_p j))) /\
  len (df_data (j_fd j)) = g_ps * pr_dbFileSize (j_p j) /\ pr_dbFileSize (j_p j) <= pr_dbSize (j_p j) /\
  forall p, p ∈ pr_pInJournal (j_p j) -> 1 <= p <= pr_dbOrigSize (j_p j).
Proof using.
  intros Hm Hi. pose proof Hi as [H1 H2 H3 H4 H5 [C1 C2 C3 C4 C5 C6] [F1 F2 F3 [F4 F5]] H8 H9 H10]. assert (PAGER_WRITER_LOCKED <= pr_eState (j_p j) <= PAGER_WRITER_DBMOD /\ (forall p g, j_cache j !! p = Some g -> ph_dirty g = true -> PAGER_WRITER_LOCKED < pr_eState (j_p j))) as [E1 E2].
  { destruct m; [|destruct H5 as [-> _]; by case_decide|done]. destruct H5 as (-> & _ & _ & _ & _ & E). split; [done|]. intros p g Hg Hd. specialize (E p g Hg). congruence. }
  split; [done|]. split; [|split; [done|split; [lia|]]].
  - intros p g Hg. destruct (C1 p g Hg). split; [done|]. split; [done|]. eauto.
  - intros p Hp. apply H8 in Hp. rewrite (cf_orig _ H1). apply (rpages_old m segs s v j p Hi Hp).
Qed.

Lemma transaction_spec j ops : begin_ok j -> Forall top_ok ops -> post (transaction j ops) (ended d0 (fold_left op_view ops old_view)).
Proof using.
  intros Hb Hok. eapply post_then.
  - by apply ops_begun.
  - intros j1 H1. apply commit_spec; [done|apply mj_big].
  - intros rc j1 Hn [S1 _]. split; [by left|done].
Qed.

(** ** Recovery *)

(** A recovery of the files [c.1] and [c.2] that stops, and what a crash leaves of them *)
Definition recovery_cut (c c' : list Z * list Z) : Prop :=
  exists j rc j', fresh c.1 c.2 j /\ roll_back_hot j = Some (rc, j') /\ crash_of (j_jfd j') c'.1 /\ crash_of (j_fd j') c'.2 /\ no_master c'.1.

Lemma cuts_recoverable c c' : len d0 = g_ps * g_orig -> rtc recovery_cut c c' -> recoverable d0 c.1 c.2 -> no_master c.1 -> recoverable d0 c'.1 c'.2 /\ no_master c'.1.
Proof using.
  intros Hd. induction 1 as [c|c c1 c' (j & rc & j' & Hf & Hr & Hj & Hfd & Hm) _ IH]; [done|]. intros Hc Hn. destruct (roll_back_spec d0 Hd _ _ j Hc Hn Hf) as (rc' & j1 & Hr' & _ & Hs & _). rewrite Hr in Hr'. simplify_eq. apply IH; [|done]. by apply Hs.
Qed.

(** What the last recovery leaves *)
Definition recovers (P : list Z -> Prop) (j : Jrnl) (rc : Z) (j' : Jrnl) : Prop :=
  (Forall (fun r => r.1 = SQLITE_OK) (j_io j) -> rc = SQLITE_OK) /\ (rc = SQLITE_OK -> exists d, j_fd j' = mkDFile d [] /\ P d).

Lemma cuts_spec c c' j : len d0 = g_ps * g_orig -> recoverable d0 c.1 c.2 -> no_master c.1 -> rtc recovery_cut c c' -> fresh c'.1 c'.2 j -> post (roll_back_hot j) (recovers (fun d => d = d0) j).
Proof using.
  intros Hd Hc Hn Hcut Hf. destruct (cuts_recoverable _ _ Hd Hcut Hc Hn) as [Hc' Hn']. eapply post_mono; [by apply (roll_back_spec d0 Hd _ _ j Hc' Hn')|]. intros rc j' ([_ Hl] & _ & H). split; [|eauto]. intros Hall. destruct Hl as [->|Hin]; [done|]. apply list_elem_of_fmap in Hin as (r & -> & Hr). rewrite Forall_forall in Hall. by apply Hall.
Qed.
End Atomic.

(** The geometry of the new file *)
Definition resize (G : Geom) (n : Z) (H : 0 <= n <= 2147483647) : Geom := mkGeom g_sz g_ps n g_clean g_sz_ok g_ps_ok H.

Lemma fresh_resize G n H cj cd j : fresh cj cd j -> @fresh (resize G n H) cj cd j.
Proof. intros []. by split. Qed.

Lemma cuts_resize G n H c c' : rtc recovery_cut c c' -> rtc (@recovery_cut (resize G n H)) c c'.
Proof. induction 1 as [c|c c1 c' (j & rc & j' & Hf & Hr) _ IH]; [done|]. eapply rtc_l; [|exact IH]. exists j, rc, j'. split; [by apply fresh_resize|done]. Qed.

Lemma committed_cuts {G : Geom} v d c j : holds v d -> rtc recovery_cut ([], d) c -> fresh c.1 c.2 j -> post (roll_back_hot j) (recovers (fun d' => d' = d) j).
Proof.
  intros (n & Hn & Hl & _) Hcut Hf. assert (0 <= n <= 2147483647) as Hn' by exact Hn. apply (cuts_spec (G := resize G n Hn') d ([], d) c j); [done|by apply no_journal|by left|by apply cuts_resize|by apply fresh_resize].
Qed.

(** C3. A transaction of any page reads and writes, with the cache writing dirty pages to
    the file (after it synced the journal) and dropping clean ones at any time, is atomic,
    and durable once the deletion of its journal is.  Any call of the operating system may
    fail, and the run stops there.  Take what a crash leaves of the journal and of the
    database file, where each word written since the last sync may be the old or the new
    one, and a deleted journal may be there or not (sqlite3OsDelete does not sync the
    directory); then any number of recoveries that are cut off by further crashes; then a
    recovery that ends with SQLITE_OK, as it does if no call fails.  The database file is
    then the old one, or it has the pages of the transaction (page 1 up to the change
    counter and the version); after a commit that returned SQLITE_OK it has the pages of
    the transaction if the journal file is as the commit left it.  No assertion fails.
    This is for PRAGMA synchronous=FULL and journal_mode=DELETE in both processes; a
    recovery finds the sector size that the writer found, and no journal that a crash leaves
    ends in what looks like the name of a master journal. *)
Theorem commit_atomic {G : Geom} (d0 : list Z) (j : Jrnl) (ops : list TOp) : begin_ok d0 j -> Forall top_ok ops ->
  let v := fold_left op_view ops (old_view d0) in
  post (transaction j ops) (fun rc j' => forall cj cd c jr, crash_of (j_jfd j') cj -> crash_of (j_fd j') cd -> no_master cj -> rtc recovery_cut (cj, cd) c -> fresh c.1 c.2 jr ->
    post (roll_back_hot jr) (recovers (fun d => (d = d0 \/ holds v d) /\ (rc = SQLITE_OK -> cj = df_data (j_jfd j') -> holds v d)) jr)).
Proof.
  intros Hb Hok v. eapply post_mono; [by apply (transaction_spec d0 j ops)|]. fold v. intros rc j' [E1 E2] cj cd c jr Hj Hd Hm Hcut Hf. set (P := fun d : list Z => (d = d0 \/ holds v d) /\ (rc = SQLITE_OK -> cj = df_data (j_jfd j') -> holds v d)).
  assert (forall d1 : list Z, P d1 -> post (roll_back_hot jr) (recovers (fun d => d = d1) jr) -> post (roll_back_hot jr) (recovers P jr)) as Hfin.
  { intros d1 H1 Hp. eapply post_mono; [exact Hp|]. intros rcr jr' [R1 R2]. split; [done|]. intros Hrc. destruct (R2 Hrc) as (? & ? & ->). eauto. }
  assert (forall cd', recoverable d0 cj cd' -> cd = cd' -> P d0 -> post (roll_back_hot jr) (recovers P jr)) as Hold.
  { intros cd' Hr -> H0. apply (Hfin d0); [done|]. eapply (cuts_spec d0 (cj, cd') c jr); [apply Hb|done..]. }
  assert (committed d0 v j' -> post (roll_back_hot jr) (recovers P jr)) as Hcom.
  { intros (f & d & J1 & J2 & J3 & J4). rewrite J2 in Hd. apply crash_synced in Hd as ->. destruct (decide (cj = [])) as [->|Hne]; [apply (Hfin d); [by split; [right|]|]; by eapply committed_cuts|].
    rewrite J1 in Hj. apply crash_unlinked in Hj as [Hj|Hj]; [|done]. apply (Hold d); [by apply J4|done|]. split; [by left|]. intros _. rewrite J1, data_do. done. }
  destruct E1 as [E1|E1]; [|by apply Hcom]. destruct (decide (rc = SQLITE_OK)) as [Hrc|Hrc].
  - destruct (E2 Hrc) as [E|[_ E]]; [by apply Hcom|]. apply (Hold cd); [by apply E1|done|]. split; [by left|done].
  - apply (Hold cd); [by apply E1|done|]. split; [by left|done].
Qed.

(** C7. Before the commit: whatever a crash leaves of the files while a transaction reads
    and writes pages and the cache spills or drops them, and whichever call fails, every
    page of the database file that is not the old one has its old content, with a valid
    checksum, in a complete segment of the journal; and the transaction reads of each page
    what it wrote last.  This is for PRAGMA synchronous=FULL and journal_mode=DELETE. *)
Theorem ops_write_ahead {G : Geom} (d0 : list Z) (j : Jrnl) (ops : list TOp) : begin_ok d0 j -> Forall top_ok ops ->
  post (do_ops j ops) (fun rc j' => (forall cj cd, crash_of (j_jfd j') cj -> crash_of (j_fd j') cd -> recoverable d0 cj cd) /\
    (rc = SQLITE_OK -> forall p, 1 <= p -> psim p (view j' p) (fold_left op_view ops (old_view d0) p))).
Proof.
  intros Hb Hok. eapply post_mono; [apply (ops_begun d0 j ops); done|]. intros rc j' [Hs Hg]. split; [exact Hs|]. intros Hrc. destruct (Hg Hrc) as (m & segs & s & _ & Hi). apply Hi.
Qed.

(** C33. The state of the pager stays well formed: its state is one of those of a writer
    before the end of a commit, the pages of the cache have the page size and valid
    numbers, dirty ones are inside the database, the file has the pages it is said to have,
    and pInJournal has pages of the old database only.  This is for PRAGMA synchronous=FULL
    and journal_mode=DELETE. *)
Theorem ops_well_formed {G : Geom} (d0 : list Z) (j : Jrnl) (ops : list TOp) : begin_ok d0 j -> Forall top_ok ops ->
  post (do_ops j ops) (fun rc j' => rc = SQLITE_OK ->
    PAGER_WRITER_LOCKED <= pr_eState (j_p j') <= PAGER_WRITER_DBMOD /\
    (forall p g, j_cache j' !! p = Some g -> page_ok p /\ len (ph_data g) = g_ps /\ (ph_dirty g = true -> p <= pr_dbSize (j_p j') /\ PAGER_WRITER_LOCKED < pr_eState (j_p j'))) /\
    len (df_data (j_fd j')) = g_ps * pr_dbFileSize (j_p j') /\ pr_dbFileSize (j_p j') <= pr_dbSize (j_p j') /\
    forall p, p ∈ pr_pInJournal (j_p j') -> 1 <= p <= pr_dbOrigSize (j_p j')).
Proof.
  intros Hb Hok. eapply post_mono; [apply (ops_begun d0 j ops); done|]. intros rc j' [_ Hg] Hrc. destruct (Hg Hrc) as (m & segs & s & Hm & Hi). by eapply inv_well_formed.
Qed.

(** ** A transaction on three pages *)

#[global] Instance no_master_dec c : Decision (no_master c).
Proof. unfold no_master. apply _. Defined.

Definition w_geom : Geom.
Proof. refine (mkGeom 1024 512 3 true _ _ _); by vm_compute. Defined.

Definition w_page (x : Z) : list Z := replicate 512 x.
Definition w_db : list Z := w_page 1 ++ w_page 2 ++ w_page 3.
Definition w_pager (st : Z) : Pager := mkPager st SQLITE_OK false 3 3 3 0 0 0 0 1024 512 0 (replicate 16 0) ∅ false (mkPagerConf false true 0 1000000 512 true 1024 PAGER_JOURNALMODE_DELETE false (-1)).
Definition w_start (io : list (Z * Z)) : Jrnl := mkJrnl (w_pager PAGER_WRITER_LOCKED) (mkDFile [] []) (mkDFile w_db []) ∅ io.
Definition w_ops : list TOp := [TWrite 2 (w_page 22); TSpill 2; TRead 1; TWrite 4 (w_page 44); TSpill 4].
Definition w_open (cj cd : list Z) : Jrnl := mkJrnl (w_pager PAGER_OPEN) (mkDFile cj []) (mkDFile cd []) ∅ [].

Lemma w_begin io : Forall (fun r => r.1 <> SQLITE_DONE /\ r.1 <> SQLITE_IOERR_SHORT_READ) io -> @begin_ok w_geom w_db (w_start io).
Proof. intros Hio. split; try done. exists []. split; [done|]. split; [by left|done]. Qed.

Lemma w_ops_ok : Forall (@top_ok w_geom) w_ops.
Proof. repeat constructor; by vm_compute. Qed.

Lemma w_fresh cj cd : @fresh w_geom cj cd (w_open cj cd).
Proof. by split; try constructor. Qed.

(** A commit that fails while it writes the pages, and the recovery from what it wrote *)
Lemma commit_atomic_witness : post (transaction (w_start (replicate 50 (SQLITE_OK, 0) ++ [(SQLITE_IOERR, 3)])) w_ops) (fun rc j' => rc = SQLITE_IOERR /\ post (roll_back_hot (w_open (df_data (j_jfd j')) (df_data (j_fd j')))) (fun rc' j2 => rc' = SQLITE_OK /\ exists d, j_fd j2 = mkDFile d [] /\ (d = w_db \/ @holds w_geom (fold_left op_view w_ops (@old_view w_geom w_db)) d))).
Proof.
  set (io := replicate 50 (SQLITE_OK, 0) ++ [(SQLITE_IOERR, 3)]).
  assert (match transaction (w_start io) w_ops with Some (rc, j') => (rc =? SQLITE_IOERR) && bool_decide (no_master (df_data (j_jfd j'))) | None => false end = true) as Hrun by by vm_compute.
  assert (@begin_ok w_geom w_db (w_start io)) as Hb.
  { apply w_begin. apply (bool_decide_unpack _). by vm_compute. }
  destruct (@commit_atomic w_geom w_db (w_start io) w_ops Hb w_ops_ok) as (rc & j' & E & H).
  rewrite E in Hrun |- *. apply andb_true_iff in Hrun as [Hrc Hm]. apply Z.eqb_eq in Hrc. apply bool_decide_eq_true in Hm.
  apply post_ret. split; [done|]. destruct (H _ _ _ _ (crash_data _) (crash_data _) Hm (rtc_refl _ _) (w_fresh _ _)) as (rc' & j2 & E2 & R1 & R2). assert (rc' = SQLITE_OK) as -> by by apply R1. exists SQLITE_OK, j2. split; [exact E2|]. split; [done|]. destruct (R2 eq_refl) as (d & Hd & H1 & _). exists d. split; [exact Hd|exact H1].
Defined.

Lemma ops_write_ahead_witness : post (do_ops (w_start []) w_ops) (fun rc j' => rc = SQLITE_OK /\ @recoverable w_geom w_db (df_data (j_jfd j')) (df_data (j_fd j')) /\ psim 4 (@view w_geom j' 4) (w_page 44)).
Proof.
  assert ((fst <$> do_ops (w_start []) w_ops) = Some SQLITE_OK) as Hrun by by vm_compute. destruct (@ops_write_ahead w_geom w_db (w_start []) w_ops) as (rc & j' & E & H1 & H2); [by apply w_begin|apply w_ops_ok|]. rewrite E in Hrun |- *. cbn in Hrun. assert (rc = SQLITE_OK) as -> by congruence. apply post_ret. split; [done|]. split; [apply H1; apply crash_data|]. apply (H2 eq_refl 4). lia.
Defined.

Lemma ops_well_formed_witness : post (do_ops (w_start []) w_ops) (fun rc j' => rc = SQLITE_OK /\ len (df_data (j_fd j')) = 512 * pr_dbFileSize (j_p j')).
Proof.
  assert ((fst <$> do_ops (w_start []) w_ops) = Some SQLITE_OK) as Hrun by by vm_compute. destruct (@ops_well_formed w_geom w_db (w_start []) w_ops) as (rc & j' & E & H1); [by apply w_begin|apply w_ops_ok|]. rewrite E in Hrun |- *. cbn in Hrun. assert (rc = SQLITE_OK) as -> by congruence. apply post_ret. split; [done|]. apply (H1 eq_refl).
Defined.
