(* ===== verification/PagerRollback.v ===== *)
(** * PagerRollback: the rollback of a transaction by its own pager (pager.c)

    The playback that sqlite3PagerRollback starts runs in the state of a writer: pages of
    the synced part of the journal are restored in the file and in the cache, those of the
    part that is still being filled in the cache only. *)
From S2P Require Import Prelude Varint Record Page PageLayout PageCells Wal WalLog WalSpec UnixLock WalCkpt WalFile Journal PagerTxn JournalFile JournalPlay JournalReplay JournalRestore JournalWrite JournalSync PagerInv PagerWrite PagerCommit PagerAtomic.

(** ** The cache *)

(** A page of the records has the content of one of them and is clean; others are as before. *)
Definition restored (recs : list (Z * list Z)) (c c' : gmap Z PgHdr) : Prop := forall p,
  match c !! p, c' !! p with
  | None, None => True
  | Some g, Some g' => (p ∈ recs.*1 -> ph_dirty g' = false /\ (p, ph_data g') ∈ recs) /\ (p ∉ recs.*1 -> g' = g)
  | _, _ => False
  end.

Lemma restored_nil c : restored [] c c.
Proof. intros p. destruct (c !! p); [|done]. split; [|done]. intros Hp. by apply elem_of_nil in Hp. Qed.

Lemma restored_app r1 r2 c c1 c2 : restored r1 c c1 -> restored r2 c1 c2 -> restored (r1 ++ r2) c c2.
Proof.
  intros H1 H2 p. specialize (H1 p). specialize (H2 p). destruct (c !! p) as [g|], (c1 !! p) as [g1|], (c2 !! p) as [g2|]; try done. destruct H1 as [A1 A2], H2 as [B1 B2]. rewrite fmap_app. split.
  - intros Hp. destruct (decide (p ∈ r2.*1)) as [Hr|Hr]; [destruct (B1 Hr); split; [done|]; apply elem_of_app; by right|]. apply elem_of_app in Hp as [Hp|Hp]; [|done]. rewrite (B2 Hr). destruct (A1 Hp). split; [done|]. apply elem_of_app. by left.
  - intros Hp. rewrite B2, A2; [done|..]; intros Hx; apply Hp, elem_of_app; auto.
Qed.

Lemma restored_one c r g : c !! r.1 = Some g -> restored [r] c (<[r.1 := make_clean (mkPgHdr r.2 (ph_dirty g) (ph_needsync g))]> c).
Proof.
  intros Hg p. destruct (decide (p = r.1)) as [->|Hne].
  - rewrite Hg, lookup_insert_eq. split.
    + intros _. unfold make_clean. cbn. destruct (ph_dirty g) eqn:Hd; cbn; (split; [done|]); apply list_elem_of_singleton; by destruct r.
    + intros Hn. destruct Hn. cbn. by apply list_elem_of_singleton.
  - rewrite lookup_insert_ne by done. destruct (c !! p); [|done]. split; [|done]. intros Hp. cbn in Hp. apply list_elem_of_singleton in Hp. done.
Qed.

Lemma restored_none c r : c !! r.1 = None -> restored [r] c c.
Proof.
  intros Hg p. destruct (decide (p = r.1)) as [->|Hne]; [by rewrite Hg|]. destruct (c !! p); [|done]. split; [|done]. intros Hp. cbn in Hp. apply list_elem_of_singleton in Hp. done.
Qed.

Section Rollback.
Context {G : Geom} (F : DFile) (st H : Z) (Hst : st = PAGER_WRITER_CACHEMOD \/ st = PAGER_WRITER_DBMOD).

Abbreviation c := (df_data F).

(** A pager that plays back its own journal [F], synced up to [H] *)
Record rb (j : Jrnl) : Prop := mkRb {
  rb_jfd : j_jfd j = F;
  rb_st : pr_eState (j_p j) = st;
  rb_hdr : pr_journalHdr (j_p j) = H;
  rb_sz : pr_sectorSize (j_p j) = g_sz;
  rb_ps : pr_pageSize (j_p j) = g_ps;
  rb_ns : pc_noSync (pr_conf (j_p j)) = false;
  rb_del : del_mode (j_p j) /\ pr_jopen (j_p j) = true;
  rb_sane : sane j }.

Lemma rb_io j rc io : rb j -> later j rc io -> rb (with_io j io).
Proof using. intros [] Hl. split; try done. by eapply sane_later. Qed.

Lemma rb_pos j off : rb j -> rb (set_p j (pr_pos (j_p j) off (pr_journalHdr (j_p j)))).
Proof using. intros []. by split. Qed.

(** If a record that ends at [off] is written to the file *)
Definition to_file (off : Z) : bool := (st =? PAGER_WRITER_DBMOD) && (off <=? H).

(** What a playback does not change until the next header *)
Definition same3 (j j' : Jrnl) : Prop := pr_cksumInit (j_p j') = pr_cksumInit (j_p j) /\ pr_journalOff (j_p j') = pr_journalOff (j_p j) /\ pr_dbSize (j_p j') = pr_dbSize (j_p j).

Lemma rb_restore j off r : rb j -> rec_ok r ->
  post (restore_page j r.1 off r.2) (fun rc j' => later j rc (j_io j') /\ rb j' /\ same3 j j' /\
    exists ops, j_fd j' = df_dos (j_fd j) ops /\ Forall (part r) ops /\ (to_file off = false -> ops = []) /\ (rc = SQLITE_OK -> ops = (if to_file off then [wr r] else []) /\ restored [r] (j_cache j) (j_cache j'))).
Proof using Hst.
  intros Hr (Hr1 & Hr2 & Hr3). pose proof g_ps_ok as [[Hp1 Hp2] _]. unfold restore_page. destruct (aget_is_Some r.2 20) as [nr ->]; [lia|]. cbn [mbind option_bind].
  set (j1 := if r.1 =? 1 then _ else j). assert (j_io j1 = j_io j /\ j_fd j1 = j_fd j /\ j_cache j1 = j_cache j /\ rb j1 /\ same3 j j1) as (E1 & E2 & E3 & R1 & E4).
  { unfold j1. destruct (r.1 =? 1); [|done]. split; [done|]. split; [done|]. split; [done|]. split; [destruct Hr; by split|done]. }
  clearbody j1. pose proof R1 as [A1 A2 A3 A4 A5 A6 A7 A8]. rewrite A2, A3, A6. replace (negb (st =? PAGER_OPEN)) with true by (by destruct Hst as [-> | ->]). cbn [orb assert_ mbind option_bind].
  replace (((PAGER_WRITER_DBMOD <=? st) || (st =? PAGER_OPEN)) && (off <=? H)) with (to_file off) by (unfold to_file; by destruct Hst as [-> | ->]).
  assert (post (if to_file off then '(rc, j2) ← j_write_db j1 r.2 ((r.1 - 1) * pr_pageSize (j_p j1)); let p := j_p j2 in Some (rc, set_p j2 (pr_db p (pr_dbSize p) (if pr_dbFileSize p <? r.1 then r.1 else pr_dbFileSize p) (pr_dbFileVers p))) else Some (SQLITE_OK, j1))
    (fun rc j2 => later j rc (j_io j2) /\ rb j2 /\ same3 j j2 /\ j_cache j2 = j_cache j /\ exists ops, j_fd j2 = df_dos (j_fd j) ops /\ Forall (part r) ops /\ (to_file off = false -> ops = []) /\ (rc = SQLITE_OK -> ops = (if to_file off then [wr r] else [])))) as Hw.
  { destruct (to_file off).
    - unfold j_write_db. destruct (j_next_spec j1) as (rc & n & io & -> & Hl). cbn [mbind option_bind]. apply post_ret. assert (later j rc io) as Hl' by (destruct Hl; rewrite E1 in *; by split). pose proof (rb_io _ _ _ R1 Hl) as []. split; [done|]. split; [by split|]. split; [done|]. split; [done|]. eexists. cbn -[Z.mul Z.sub]. rewrite E2, A5. split; [done|]. split; [|split; [done|by intros ->]].
      constructor; [|done]. exists (length (j_stored rc n r.2)). f_equal. unfold j_stored. destruct (rc =? SQLITE_OK); [by rewrite firstn_all|]. rewrite length_take. destruct (Nat.min_spec (4 * Z.to_nat n) (length r.2)) as [[? ->]|[? ->]]; [done|]. by rewrite !take_ge by lia.
    - apply post_ret. split; [rewrite E1; apply later_refl|]. split; [done|]. split; [done|]. split; [done|]. exists []. by rewrite E2, dos_nil. }
  eapply post_bind; [exact Hw|]. intros rc j2 (L2 & R2 & S2 & C2 & ops & O1 & O2 & O3 & O4). rewrite C2. destruct (j_cache j !! r.1) as [g|] eqn:Hg.
  - destruct (get_bytes_spec r.2 24 16) as (l & -> & _); [lia..|]. cbn [mbind option_bind]. apply post_ret. split; [done|]. split; [destruct R2; split; try done; cbn; by destruct (r.1 =? 1)|]. split; [cbn; by destruct (r.1 =? 1)|]. exists ops. split; [done|]. split; [done|]. split; [done|]. intros Hrc. split; [by apply O4|]. by apply restored_one.
  - apply post_ret. split; [done|]. split; [done|]. split; [done|]. exists ops. split; [done|]. split; [done|]. split; [done|]. intros Hrc. split; [by apply O4|]. rewrite C2. by apply restored_none.
Qed.

(** ** Records *)

(** The effect of a part of a playback: the operations on the file are parts of records of
    the list, none of them if the records are not synced. *)
Definition rec_rb (j : Jrnl) (recs : list (Z * list Z)) (b : bool) (rc : Z) (j' : Jrnl) : Prop :=
  later j rc (j_io j') /\ rb j' /\ pr_dbSize (j_p j') = pr_dbSize (j_p j) /\
  exists ops, j_fd j' = df_dos (j_fd j) ops /\ Forall (fun o => exists r, r ∈ recs /\ part r o) ops /\ (b = false -> ops = []) /\
    (rc = SQLITE_OK -> ops = (if b then wr <$> recs else []) /\ restored recs (j_cache j) (j_cache j')).

Lemma rb_one_page j ck off r : rb j -> 0 <= off -> rec_ok r -> 0 <= ck < 2 ^ 32 -> pr_cksumInit (j_p j) = ck -> pr_journalOff (j_p j) = off -> pr_dbSize (j_p j) = g_orig -> has c off (rec_bytes ck r) ->
  post (pager_playback_one_page j) (fun rc j' => rec_rb j [r] (to_file (off + g_ps + 8)) rc j' /\ pr_cksumInit (j_p j') = ck /\ (rc = SQLITE_OK -> pr_journalOff (j_p j') = off + g_ps + 8)).
Proof using Hst.
  intros Hp Hoff Hr Hck Ei Eo Hdb Hh. destruct (rec_fields F off ck r Hr Hh) as (R1 & R2 & R3 & R4). pose proof Hp as [H1 _ _ _ H7 _ _ _]. pose proof Hr as (Hr1 & Hr2 & Hr3). pose proof g_ps_ok as [[P1 P2] _]. pose proof g_orig_ok as [O1 O2]. set (b := to_file _).
  assert (forall rc j', later j rc (j_io j') -> rb j' -> pr_dbSize (j_p j') = pr_dbSize (j_p j) -> j_fd j' = j_fd j -> rc <> SQLITE_OK -> rec_rb j [r] b rc j') as Hfail.
  { intros rc j' Hl Hj Hs Hd Hn. split; [done|]. split; [done|]. split; [done|]. exists []. rewrite dos_nil. done. }
  unfold pager_playback_one_page. rewrite Eo. destruct (read32_spec j off r.1) as (rc & x & io & -> & Hl & Hx); [lia..|by rewrite H1|]. cbn [mbind option_bind]. pose proof (rb_io _ _ _ Hp Hl) as Q1. destruct (Z.eqb_spec rc SQLITE_OK) as [->|Hn]; cbn [negb]; [|apply post_ret; split; [by apply Hfail|done]].
  rewrite Hx by done. unfold j_read. cbn [j_p j_jfd with_io]. rewrite H1, H7. destruct (j_os_read_spec (with_io j io) c g_ps (off + 4)) as (rc & d & io2 & -> & Hl2 & Hb); [lia..|]. pose proof (rb_io _ _ _ Q1 Hl2) as Q2. eapply (later_trans' j (with_io j io) (with_io j io2)) in Hl2; [|exact Hl]. cbn [j_io with_io] in Hl2.
  change (with_io (with_io j io) io2) with (with_io j io2) in *. destruct (Z.eqb_spec rc SQLITE_OK) as [->|Hn]; cbn [negb]; [|apply post_ret; split; [by apply Hfail|done]]. rewrite Hb by done. replace (f_read c g_ps (off + 4)) with r.2 by (symmetry; rewrite <- Hr3; apply R2).
  set (j1 := set_p _ _). assert (rb j1 /\ pr_cksumInit (j_p j1) = ck /\ pr_journalOff (j_p j1) = off + g_ps + 8 /\ pr_dbSize (j_p j1) = g_orig) as (B1 & B2 & B3 & B3').
  { split; [by apply (rb_pos (with_io j io2))|]. unfold j1. cbn. by rewrite H7. }
  unfold PAGER_MJ_PGNO. rewrite (rb_ps _ B1), B3'. change (PENDING_BYTE / g_ps + 1) with g_mj. replace (r.1 =? 0) with false by (symmetry; apply Z.eqb_neq; lia). replace (r.1 =? g_mj) with false by (symmetry; by apply Z.eqb_neq).
  replace (g_orig <? r.1) with false by (symmetry; apply Z.ltb_ge; lia). cbn [orb]. cbn [j_p with_io]. rewrite H7. replace (off + g_ps + 8 - 4) with (off + g_ps + 4) by lia. destruct (g_cks_spec (j_p j1) r.2) as [C1 C2]; [apply B1|done|by rewrite B2|]. rewrite B2 in C1, C2.
  assert (later j SQLITE_OK (j_io j1) /\ j_fd j1 = j_fd j /\ j_cache j1 = j_cache j) as (Hj1 & Hfd & Hca) by done. clearbody j1.
  destruct (read32_spec j1 (off + g_ps + 4) (g_cks ck r.2)) as (rc & y & io3 & -> & Hl3 & Hy); [lia..|by rewrite (rb_jfd _ B1)|]. cbn [mbind option_bind]. pose proof (rb_io _ _ _ B1 Hl3) as B4.
  eapply (later_trans' j j1 (with_io j1 io3)) in Hl3; [|exact Hj1]. destruct (Z.eqb_spec rc SQLITE_OK) as [->|Hn]; cbn [negb].
  2:{ apply post_ret. split; [apply Hfail; [done|done|cbn; congruence|done|done]|done]. }
  rewrite Hy by done. cbn [j_p with_io]. rewrite C1. cbn [mbind option_bind]. rewrite Z.eqb_refl. cbn [negb]. eapply post_mono; [by apply (rb_restore (with_io j1 io3) (off + g_ps + 8) r)|]. intros rc j' (K1 & K2 & (S1 & S2 & S3) & ops & K5 & K6 & K7 & K8). cbn in S1, S2, S3, K5. rewrite Hfd in K5. split; [|split; [congruence|intros _; congruence]].
  split; [by eapply later_trans'|]. split; [done|]. split; [congruence|]. exists ops. split; [done|]. split; [|split; [done|]].
  - eapply Forall_impl; [exact K6|]. intros o Ho. exists r. split; [by apply list_elem_of_singleton|done].
  - intros Hrc. destruct (K8 Hrc) as [K9 K10]. cbn in K10. rewrite Hca in K10. split; [|done]. rewrite K9. fold b. by destruct b.
Qed.

Lemma rb_recs recs j ck off b : rb j -> 0 <= off -> Forall rec_ok recs -> 0 <= ck < 2 ^ 32 -> pr_cksumInit (j_p j) = ck -> pr_journalOff (j_p j) = off -> pr_dbSize (j_p j) = g_orig -> recs_at c off ck recs ->
  (forall k, off < k <= off + len recs * (g_ps + 8) -> to_file k = b) ->
  exists more b' rc j', playback_recs (length recs) j (len c) false = Some (more, b', rc, j') /\ rec_rb j recs b rc j' /\ b' = false /\ (rc = SQLITE_OK /\ more = true /\ pr_journalOff (j_p j') = off + len recs * (g_ps + 8) \/ rc <> SQLITE_OK /\ more = false).
Proof using Hst.
  revert j off. induction recs as [|r recs IH]; intros j off Hp Hoff Hok Hck Ei Eo Hdb Hat Hb.
  { eexists _, _, _, j. split; [done|]. split; [|split; [done|left]; cbn; by rewrite Z.add_0_r]. split; [apply later_refl|]. split; [done|]. split; [done|]. exists []. rewrite dos_nil. split; [done|]. split; [done|]. split; [done|]. intros _. split; [by destruct b|apply restored_nil]. }
  apply Forall_cons in Hok as [Hr Hok]. destruct Hat as [Hh Hat]. pose proof g_ps_ok as [[P1 P2] _]. cbn [length playback_recs].
  destruct (rb_one_page j ck off r Hp Hoff Hr Hck Ei Eo Hdb Hh) as (rc & j1 & -> & (L1 & B1 & B2 & ops & O1 & O2 & O3 & O4) & B3 & B4). cbn [mbind option_bind]. destruct (sane_later _ _ _ (rb_sane _ Hp) L1) as (_ & N1 & N2). rewrite (Hb (off + g_ps + 8)) in O3, O4 by (cbn [length]; nia).
  assert (Forall (fun o => exists r0, r0 ∈ r :: recs /\ part r0 o) ops) as O5 by (eapply Forall_impl; [exact O2|]; intros o (r' & Hr' & Ho); apply list_elem_of_singleton in Hr' as ->; exists r; split; [by apply elem_of_cons; left|done]).
  destruct (Z.eqb_spec rc SQLITE_OK) as [->|Hn].
  - destruct (O4 eq_refl) as [-> O6]. specialize (B4 eq_refl). destruct (IH j1 (off + g_ps + 8)) as (more & b' & rc & j2 & E & (L2 & C1 & C2 & ops2 & Q1 & Q2 & Q3 & Q4) & Hb' & C4); [done|lia|done|done|done|done|congruence|done|intros k Hk; apply Hb; cbn [length]; lia|].
    eexists _, _, rc, j2. split; [exact E|]. split; [|split; [done|]; destruct C4 as [(-> & -> & C4)|C4]; [left|by right]; split; [done|split; [done|]]; cbn [length]; lia]. split; [by eapply later_trans'|]. split; [done|]. split; [congruence|]. eexists. rewrite Q1, O1, dos_dos. split; [done|]. split; [|split].
    + apply Forall_app. split; [done|]. eapply Forall_impl; [exact Q2|]. intros o (r' & Hr' & Ho). exists r'. split; [by apply elem_of_cons; right|done].
    + intros ->. by rewrite Q3.
    + intros Hrc. destruct (Q4 Hrc) as [-> Q5]. split; [by destruct b|]. by apply (restored_app [r] recs _ (j_cache j1)).
  - rewrite (proj2 (Z.eqb_neq rc SQLITE_DONE)), (proj2 (Z.eqb_neq rc SQLITE_IOERR_SHORT_READ)) by done. eexists _, _, rc, j1. split; [done|]. split; [|split; [done|by right]]. split; [done|]. split; [done|]. split; [done|]. exists ops. done.
Qed.

(** ** Headers *)

(** The header at [off] of a segment with [n] records; the magic number is not read in the
    last one. *)
Record hdr_at (off n ck : Z) : Prop := mkHdrAt {
  ha_end : off + g_sz <= len c;
  ha_magic : off <> H -> has c off aJournalMagic;
  ha_n : has c (off + 8) (sqlite3Put4byte n) /\ 0 <= n < 2 ^ 32;
  ha_ck : has c (off + 12) (sqlite3Put4byte ck) /\ 0 <= ck < 2 ^ 32;
  ha_orig : has c (off + 16) (sqlite3Put4byte g_orig);
  ha_sizes : has c (off + 20) (sqlite3Put4byte g_sz) /\ has c (off + 24) (sqlite3Put4byte g_ps) }.

Definition quiet (j j' : Jrnl) : Prop := j_fd j' = j_fd j /\ j_cache j' = j_cache j /\ pr_dbSize (j_p j') = pr_dbSize (j_p j).

Lemma rb_sizes j : rb j -> has c 20 (sqlite3Put4byte g_sz) -> has c 24 (sqlite3Put4byte g_ps) ->
  exists rc j', read_sizes j 0 = Some (rc, j') /\ later j rc (j_io j') /\ rb j' /\ quiet j j' /\ pr_cksumInit (j_p j') = pr_cksumInit (j_p j) /\ pr_journalOff (j_p j') = pr_journalOff (j_p j).
Proof using.
  intros Hp H20 H24. pose proof g_ps_ok as [[P1 P2] P3]. pose proof g_sz_ok as [[S1 S2] S3]. unfold MAX_SECTOR_SIZE, SQLITE_MAX_PAGE_SIZE in *. unfold read_sizes.
  destruct (read32_spec j (0 + 20) g_sz) as (rc & x & io & -> & Hl & Hx); [lia..|by rewrite (rb_jfd _ Hp)|]. cbn [mbind option_bind]. pose proof (rb_io _ _ _ Hp Hl) as Hp1. destruct (Z.eqb_spec rc SQLITE_OK) as [->|Hn]; cbn [negb]; [rewrite Hx by done|by eexists _, _].
  destruct (read32_spec (with_io j io) (0 + 24) g_ps) as (rc & y & io2 & -> & Hl2 & Hy); [lia..|by rewrite (rb_jfd _ Hp1)|]. cbn [mbind option_bind]. pose proof (rb_io _ _ _ Hp1 Hl2) as Hp2. eapply (later_trans' j (with_io j io) (with_io j io2)) in Hl2; [|exact Hl].
  change (with_io (with_io j io) io2) with (with_io j io2) in *. destruct (Z.eqb_spec rc SQLITE_OK) as [->|Hn]; cbn [negb]; [rewrite Hy by done|by eexists _, _].
  replace (g_ps =? 0) with false by lia. rewrite P3, S3. replace (g_ps <? 512) with false by lia. replace (g_sz <? 32) with false by lia. replace (SQLITE_MAX_PAGE_SIZE <? g_ps) with false by (unfold SQLITE_MAX_PAGE_SIZE; lia). replace (MAX_SECTOR_SIZE <? g_sz) with false by (unfold MAX_SECTOR_SIZE; lia).
  cbn [orb negb]. unfold sqlite3PagerSetPagesize. replace (g_ps =? 0) with false by lia. replace (512 <=? g_ps) with true by lia. replace (g_ps <=? SQLITE_MAX_PAGE_SIZE) with true by (unfold SQLITE_MAX_PAGE_SIZE; lia). rewrite (rb_ps _ Hp2), Z.eqb_refl. cbn [orb andb negb assert_ mbind option_bind].
  eexists _, _. split; [done|]. split; [done|]. split; [destruct Hp2; by split|done].
Qed.

Lemma rb_hdr_spec j off n ck : rb j -> 0 <= off -> 0 <= pr_journalOff (j_p j) -> align (pr_journalOff (j_p j)) = off -> hdr_at off n ck ->
  exists rc j' n' m, readJournalHdr j false (len c) = Some (rc, j', n', m) /\ later j rc (j_io j') /\ rb j' /\ quiet j j' /\ (rc = SQLITE_OK -> n' = n /\ m = g_orig /\ pr_cksumInit (j_p j') = ck /\ pr_journalOff (j_p j') = off + g_sz).
Proof using.
  intros Hp Hoff Hjo Hal [Hend F1 [F2 N2] [F3 N3] F4 [F5 F6]]. pose proof g_sz_ok as [[S1 S2] _]. pose proof g_orig_ok as [O1 O2]. unfold readJournalHdr. rewrite (hdr_offset _ (rb_sz _ Hp)), Hal by done. cbn [mbind option_bind]. set (j0 := set_p j _). assert (rb j0) as Hp0 by by apply rb_pos.
  assert (j_io j0 = j_io j /\ quiet j j0 /\ pr_journalOff (j_p j0) = off) as (A1 & A2 & A3) by done. unfold JOURNAL_HDR_SZ at 1. rewrite (rb_sz _ Hp0), (rb_hdr _ Hp0). clearbody j0. replace (len c <? off + g_sz) with false by lia. cbn [orb].
  assert (forall rc io, later j0 rc io -> later j rc io) as Hlj by (intros rc io []; rewrite A1 in *; by split).
  assert (exists rc io, (if negb (off =? H) then let '(rc, aMagic, j) := j_read j0 8 off in (if negb (rc =? SQLITE_OK) then rc else if bool_decide (aMagic = aJournalMagic) then SQLITE_OK else SQLITE_DONE, j) else (SQLITE_OK, j0)) = (rc, with_io j0 io) /\ later j0 rc io) as (rc & io & -> & L1).
  { destruct (Z.eqb_spec off H) as [He|Hne]; cbn [negb]; [exists SQLITE_OK, (j_io j0); split; [by destruct j0|apply later_refl]|]. specialize (F1 Hne). unfold j_read. rewrite (rb_jfd _ Hp0). destruct (j_os_read_spec j0 c 8 off) as (rc & b & io & -> & Hl & Hb); [lia..|]. destruct (Z.eqb_spec rc SQLITE_OK) as [->|Hn]; cbn [negb]; [|by exists rc, io]. rewrite (Hb eq_refl), bool_decide_true by apply F1. by exists SQLITE_OK, io. }
  pose proof (rb_io _ _ _ Hp0 L1) as Q1. destruct (Z.eqb_spec rc SQLITE_OK) as [->|Hn]; cbn [negb]; [|eexists _, _, _, _; split; [done|]; split; [by apply Hlj|]; done].
  destruct (read32_spec (with_io j0 io) (off + 8) n) as (rc & x & io2 & -> & L2 & Hx); [lia..|by rewrite (rb_jfd _ Q1)|]. cbn [mbind option_bind]. pose proof (rb_io _ _ _ Q1 L2) as Q2. eapply (later_trans' j0 (with_io j0 io) (with_io j0 io2)) in L2; [|exact L1]. change (with_io (with_io j0 io) io2) with (with_io j0 io2) in *.
  destruct (Z.eqb_spec rc SQLITE_OK) as [->|Hn]; cbn [negb]; [|eexists _, _, _, _; split; [done|]; split; [by apply Hlj|]; done]. rewrite Hx by done.
  destruct (read32_spec (with_io j0 io2) (off + 12) ck) as (rc & ck' & io3 & -> & L3 & Hck); [lia..|by rewrite (rb_jfd _ Q2)|]. cbn [mbind option_bind]. pose proof (rb_io _ _ _ Q2 L3) as Q3. eapply (later_trans' j0 (with_io j0 io2) (with_io j0 io3)) in L3; [|exact L2]. change (with_io (with_io j0 io2) io3) with (with_io j0 io3) in *.
  destruct (Z.eqb_spec rc SQLITE_OK) as [->|Hn]; cbn [negb]; [|eexists _, _, _, _; split; [done|]; split; [by apply Hlj|]; done]. rewrite Hck by done. cbn [j_p with_io].
  set (j4 := set_p (with_io j0 io3) _). assert (rb j4 /\ quiet j j4 /\ pr_cksumInit (j_p j4) = ck /\ pr_journalOff (j_p j4) = off /\ later j SQLITE_OK (j_io j4)) as (Q4 & B1 & B2 & B3 & L4).
  { split; [destruct Q3; by split|]. split; [done|]. split; [done|]. split; [done|]. by apply Hlj. }
  clearbody j4. destruct (read32_spec j4 (off + 16) g_orig) as (rc & y & io5 & -> & L5 & Hy); [lia..|by rewrite (rb_jfd _ Q4)|]. cbn [mbind option_bind]. pose proof (rb_io _ _ _ Q4 L5) as Q5. eapply (later_trans' j j4 (with_io j4 io5)) in L5; [|exact L4].
  destruct (Z.eqb_spec rc SQLITE_OK) as [->|Hn]; cbn [negb]; [|eexists _, _, _, _; split; [done|]; split; [done|]; done]. rewrite Hy by done.
  assert (exists rc j6, (if off =? 0 then read_sizes (with_io j4 io5) off else Some (SQLITE_OK, with_io j4 io5)) = Some (rc, j6) /\ later j rc (j_io j6) /\ rc <> SQLITE_DONE /\ rb j6 /\ quiet j j6 /\ pr_cksumInit (j_p j6) = ck) as (rc & j6 & -> & L6 & N6 & Q6 & B6 & D6).
  { destruct (Z.eqb_spec off 0) as [->|Hne]; [|by exists SQLITE_OK, (with_io j4 io5)]. destruct (rb_sizes (with_io j4 io5)) as (rc & j6 & -> & L6 & Q6 & (T1 & T2 & T3) & D1 & D2); [done..|]. destruct (sane_later _ _ _ (rb_sane _ Q5) L6) as (_ & N1 & _). destruct B1 as (U1 & U2 & U3). cbn in T1, T2, T3, D1. exists rc, j6. split; [done|]. split; [by eapply later_trans'|]. split; [done|]. split; [done|]. split; [split; [congruence|split; congruence]|congruence]. }
  cbn [mbind option_bind]. rewrite (proj2 (Z.eqb_neq rc SQLITE_DONE)) by done. eexists _, _, _, _. split; [done|]. split; [done|]. split; [by apply rb_pos|]. split; [done|]. intros _. unfold JOURNAL_HDR_SZ. rewrite (rb_sz _ Q6). done.
Qed.

(** The file is cut to its old size. *)
Lemma rb_truncate j : rb j -> (st = PAGER_WRITER_DBMOD -> g_ps * g_orig <= len (df_data (j_fd j))) ->
  post (pager_truncate j g_orig) (fun rc j' => later j rc (j_io j') /\ rb j' /\ same3 j j' /\ j_cache j' = j_cache j /\
    exists ops, j_fd j' = df_dos (j_fd j) ops /\ Forall (fun o => o = FTrunc (g_ps * g_orig)) ops /\ (st = PAGER_WRITER_CACHEMOD -> ops = []) /\ (rc = SQLITE_OK -> ops = if st =? PAGER_WRITER_DBMOD then cut (df_data (j_fd j)) else [])).
Proof using Hst.
  intros Hp Hlen. unfold pager_truncate. rewrite (rb_st _ Hp), (rb_ps _ Hp). destruct Hst as [Es|Es].
  { rewrite Es. change ((PAGER_WRITER_DBMOD <=? PAGER_WRITER_CACHEMOD) || (PAGER_WRITER_CACHEMOD =? PAGER_OPEN)) with false. cbn iota. apply post_ret. split; [apply later_refl|]. do 3 (split; [done|]). exists []. by rewrite dos_nil. }
  specialize (Hlen Es). rewrite Es. change ((PAGER_WRITER_DBMOD <=? PAGER_WRITER_DBMOD) || (PAGER_WRITER_DBMOD =? PAGER_OPEN)) with true. change (PAGER_WRITER_DBMOD =? PAGER_WRITER_DBMOD) with true. cbn iota.
  eapply post_then; [apply j_call_spec| |].
  2:{ intros rc j' Hn (io & -> & Hl). split; [done|]. split; [by eapply rb_io|]. do 2 (split; [done|]). exists []. by rewrite dos_nil. }
  intros ? (io & -> & Hl). cbn [j_fd with_io]. pose proof (rb_io _ _ _ Hp Hl) as Hp1. unfold cut. destruct (Z.eqb_spec (len (df_data (j_fd j))) (g_ps * g_orig)) as [He|Hne]; cbn [negb].
  { apply post_ret. split; [done|]. split; [done|]. do 2 (split; [done|]). exists []. by rewrite dos_nil. }
  replace (g_ps * g_orig <? len (df_data (j_fd j))) with true by lia. unfold j_trunc_db. destruct (j_next_spec (with_io j io)) as (rc & n & io2 & -> & Hl2). pose proof (rb_io _ _ _ Hp1 Hl2) as Hp2. eapply (later_trans' j (with_io j io) (with_io j io2)) in Hl2; [|exact Hl].
  unfold jthen. cbn [mbind option_bind]. destruct (Z.eqb_spec rc SQLITE_OK) as [->|Hn]; (apply post_ret; split; [done|]; split; [destruct Hp2; by split|]; do 2 (split; [done|])).
  - eexists. split; [done|]. by split; [constructor|].
  - exists []. by rewrite dos_nil.
Qed.

(** ** Segments *)

(** The operations of the whole of a segment at [off] on a file with content [d] *)
Definition seg_ops (off : Z) (d : list Z) (recs : list (Z * list Z)) (b : bool) : list FOp := (if (off =? 0) && (st =? PAGER_WRITER_DBMOD) then cut d else []) ++ (if b then wr <$> recs else []).

Definition seg_part (off : Z) (recs : list (Z * list Z)) (o : FOp) : Prop := off = 0 /\ o = FTrunc (g_ps * g_orig) \/ exists r, r ∈ recs /\ part r o.

Record seg_here (off n ck : Z) (recs : list (Z * list Z)) (b : bool) : Prop := mkSegHere {
  sh_hdr : hdr_at off n ck;
  sh_ok : Forall rec_ok recs;
  sh_recs : recs_at c (off + g_sz) ck recs;
  sh_count : forall p, pr_journalHdr p = H -> pr_journalOff p = off + g_sz -> pr_sectorSize p = g_sz -> pr_pageSize p = g_ps -> playback_count p false (len c) n = Some (len recs);
  sh_file : forall k, off + g_sz < k <= off + g_sz + len recs * (g_ps + 8) -> to_file k = b;
  sh_b : st = PAGER_WRITER_CACHEMOD -> b = false }.

(** Either the loop goes on after the segment, or it stops with an error. *)
Definition seg_done (fuel : nat) (j : Jrnl) (off : Z) (recs : list (Z * list Z)) (b : bool) : Prop :=
  (exists j1, playback_loop (S fuel) j false (len c) false = playback_loop fuel j1 false (len c) false /\ later j SQLITE_OK (j_io j1) /\ rb j1 /\ pr_dbSize (j_p j1) = g_orig /\ pr_journalOff (j_p j1) = off + g_sz + len recs * (g_ps + 8) /\ restored recs (j_cache j) (j_cache j1) /\ j_fd j1 = df_dos (j_fd j) (seg_ops off (df_data (j_fd j)) recs b)) \/
  (exists rc j1 ops, playback_loop (S fuel) j false (len c) false = Some (rc, j1) /\ rc <> SQLITE_OK /\ later j rc (j_io j1) /\ rb j1 /\ j_fd j1 = df_dos (j_fd j) ops /\ Forall (seg_part off (if b then recs else [])) ops /\ (st = PAGER_WRITER_CACHEMOD -> ops = [])).

Lemma rb_seg fuel j off n ck recs b : rb j -> 0 <= off -> 0 <= pr_journalOff (j_p j) -> align (pr_journalOff (j_p j)) = off -> (off <> 0 -> pr_dbSize (j_p j) = g_orig) -> (off = 0 -> st = PAGER_WRITER_DBMOD -> g_ps * g_orig <= len (df_data (j_fd j))) -> seg_here off n ck recs b -> seg_done fuel j off recs b.
Proof using Hst.
  intros Hp Hoff Hjo Hal Hdb Hlen [Hh Hok Hat Hcnt Hto Hcb]. pose proof g_sz_ok as [[S1 S2] _]. pose proof g_ps_ok as [[P1 P2] _]. unfold seg_done. cbn [playback_loop].
  destruct (rb_hdr_spec j off n ck Hp Hoff Hjo Hal Hh) as (rc & j1 & n' & m & -> & L1 & Q1 & (E1 & E2 & E3) & Hd). cbn [mbind option_bind]. destruct (Z.eqb_spec rc SQLITE_OK) as [->|Hn]; cbn [negb].
  2:{ right. destruct (sane_later _ _ _ (rb_sane _ Hp) L1) as (_ & N1 & _). rewrite (proj2 (Z.eqb_neq rc SQLITE_DONE)) by done. exists rc, j1, []. rewrite dos_nil. done. }
  destruct (Hd eq_refl) as (-> & -> & D1 & D2). rewrite Hcnt by (done || apply Q1). cbn [mbind option_bind]. unfold JOURNAL_HDR_SZ. rewrite D2, (rb_sz _ Q1).
  assert (exists rc j2, (if off + g_sz =? g_sz then let_ok j := pager_truncate j1 g_orig in Some (SQLITE_OK, set_p j (pr_db (j_p j) g_orig (pr_dbFileSize (j_p j)) (pr_dbFileVers (j_p j)))) else Some (SQLITE_OK, j1)) = Some (rc, j2) /\ later j rc (j_io j2) /\ rb j2 /\ j_cache j2 = j_cache j /\ pr_cksumInit (j_p j2) = ck /\ pr_journalOff (j_p j2) = off + g_sz /\
    exists ops, j_fd j2 = df_dos (j_fd j) ops /\ Forall (seg_part off (if b then recs else [])) ops /\ (st = PAGER_WRITER_CACHEMOD -> ops = []) /\ (rc = SQLITE_OK -> pr_dbSize (j_p j2) = g_orig /\ ops = if (off =? 0) && (st =? PAGER_WRITER_DBMOD) then cut (df_data (j_fd j)) else [])) as (rc & j2 & -> & L2 & Q2 & C2 & K2 & O2 & ops & T1 & T2 & T3 & T4).
  { destruct (Z.eqb_spec off 0) as [->|Hne].
    - rewrite Z.add_0_l, Z.eqb_refl. destruct (rb_truncate j1 Q1) as (rc & j2 & E & L2 & Q2 & (U1 & U2 & U3) & C2 & ops & T1 & T2 & T3 & T4); [rewrite E1; by apply Hlen|]. unfold jthen. rewrite E. cbn [mbind option_bind andb]. rewrite E1 in T1, T4. assert (later j rc (j_io j2)) as L2' by by eapply later_trans'. assert (Forall (seg_part 0 (if b then recs else [])) ops) as T5 by (eapply Forall_impl; [exact T2|]; intros o ->; by left).
      destruct (Z.eqb_spec rc SQLITE_OK) as [->|Hn]; (eexists _, _; split; [done|]).
      + split; [done|]. split; [destruct Q2; by split|]. split; [cbn; congruence|]. split; [cbn; congruence|]. split; [cbn; rewrite U2, D2; lia|]. exists ops. split; [done|]. split; [done|]. split; [done|]. intros _. split; [done|by apply T4].
      + split; [done|]. split; [done|]. split; [congruence|]. split; [congruence|]. split; [rewrite U2, D2; lia|]. exists ops. done.
    - replace (off + g_sz =? g_sz) with false by lia. exists SQLITE_OK, j1. split; [done|]. split; [done|]. split; [done|]. split; [done|]. split; [done|]. split; [done|]. exists []. rewrite dos_nil. cbn [andb]. split; [done|]. split; [done|]. split; [done|]. intros _. split; [rewrite E3; by apply Hdb|done]. }
  cbn [mbind option_bind]. destruct (Z.eqb_spec rc SQLITE_OK) as [->|Hn]; cbn [negb].
  2:{ right. exists rc, j2, ops. done. }
  destruct (T4 eq_refl) as [T5 ->]. rewrite Nat2Z.id. destruct (rb_recs recs j2 ck (off + g_sz) b) as (more & b' & rc & j3 & -> & (L3 & Q3 & U3 & ops3 & V1 & V2 & V3 & V4) & -> & Hm); [done|lia|done|apply Hh|done..|]. cbn [mbind option_bind]. eapply (later_trans' j j2) in L3; [|exact L2]. rewrite C2 in V4. destruct Hm as [(-> & -> & Hm)|(Hn & ->)].
  - left. destruct (V4 eq_refl) as [-> V5]. exists j3. split; [done|]. split; [done|]. split; [done|]. split; [congruence|]. split; [lia|]. split; [done|]. rewrite V1, T1, dos_dos. done.
  - right. eexists rc, j3, _. split; [done|]. split; [done|]. split; [done|]. split; [done|]. rewrite V1, T1, dos_dos. split; [done|]. split.
    + apply Forall_app. split; [done|]. destruct b; [|by rewrite V3]. eapply Forall_impl; [exact V2|]. intros o Ho. by right.
    + intros Hs. rewrite (T3 Hs), V3; [done|by apply Hcb].
Qed.

(** ** The whole journal *)

Context (all : list seg) (s : seg) (Hall : st = PAGER_WRITER_DBMOD -> all <> []).

(** The segment that is being filled *)
Record cur_here : Prop := mkCurHere {
  ch_hdr : hdr_at H 0 s.1;
  ch_ok : jseg_ok s;
  ch_recs : recs_at c (H + g_sz) s.1 s.2;
  ch_end : len c = seg_end H s }.

Lemma cur_seg : 0 <= H -> cur_here -> seg_here H 0 s.1 s.2 false.
Proof using.
  intros H0 [C1 (C2 & C3 & C4) C5 C6]. pose proof g_ps_ok as [[P1 P2] _]. split; [done|done|done| |intros k Hk; unfold to_file; pose proof g_sz_ok as [[S1 S2] _]; rewrite (proj2 (Z.leb_gt k H)) by lia; apply andb_false_r|done].
  intros p E1 E2 E3 E4. unfold playback_count, JOURNAL_HDR_SZ, JOURNAL_PG_SZ. rewrite E1, E2, E3, E4. cbn [Z.eqb mbind option_bind negb andb]. rewrite Z.eqb_refl, C6. unfold seg_end. replace (H + g_sz + len s.2 * (g_ps + 8) - (H + g_sz)) with (len s.2 * (g_ps + 8)) by lia. rewrite Z.quot_mul by lia. f_equal. unfold u32. rewrite Z.mod_small; lia.
Qed.

Lemma synced_seg off s0 : 0 <= off -> seg_end off s0 <= H -> jseg_ok s0 -> seg_at c off s0 -> seg_here off (len s0.2) s0.1 s0.2 (st =? PAGER_WRITER_DBMOD).
Proof using Hst.
  clear Hall. intros Ho He (K1 & K2 & K3) (Hh & Hend & Hr). pose proof g_ps_ok as [[P1 P2] _]. pose proof g_sz_ok as [[S1 S2] _]. assert (off + g_sz <= seg_end off s0) as Hl by (unfold seg_end; nia). destruct (hdr_at_fields F off s0.1 (len s0.2) Hh) as (F1 & F2 & F3 & F4 & F5 & F6). split; [|done|done| |intros k Hk; unfold to_file; rewrite (proj2 (Z.leb_le k H)) by (unfold seg_end in *; lia); apply andb_true_r|intros Es; by rewrite Es].
  - split; [lia|done|split; [done|lia]|done|done|done].
  - intros p E1 E2 E3 E4. unfold playback_count, JOURNAL_HDR_SZ. rewrite E1, E2, E3. replace (len s0.2 =? 0xffffffff) with false by lia. cbn [mbind option_bind]. replace (H + g_sz =? off + g_sz) with false by lia. by rewrite !andb_false_r.
Qed.

(** Nothing follows. *)
Lemma rb_stop fuel j : rb j -> len c <= pr_journalOff (j_p j) -> post (playback_loop (S fuel) j false (len c) false) (fun rc j' => rc = SQLITE_OK /\ rb j' /\ quiet j j' /\ j_io j' = j_io j).
Proof using.
  intros Hp Hl. pose proof g_sz_ok as [[S1 S2] _]. cbn [playback_loop]. unfold readJournalHdr. rewrite (hdr_offset _ (rb_sz _ Hp)) by lia. cbn [mbind option_bind]. assert (0 <= pr_journalOff (j_p j)) as H0 by lia. pose proof (align_spec _ H0) as (A1 & _). unfold JOURNAL_HDR_SZ. cbn [j_p set_p pr_sectorSize pr_pos]. rewrite (rb_sz _ Hp). replace (len c <? align (pr_journalOff (j_p j)) + g_sz) with true by lia. cbn [mbind option_bind]. apply post_ret. split; [done|]. split; [by apply rb_pos|done].
Qed.

Lemma part_redo off recs ops : (st = PAGER_WRITER_CACHEMOD -> ops = []) -> (forall r, r ∈ recs -> r ∈ all_recs all) -> Forall (seg_part off recs) ops -> Forall (redo all) ops.
Proof using Hst Hall.
  intros Hc Hr Ho. destruct Hst as [E|E]; [by rewrite Hc|]. eapply Forall_impl; [exact Ho|]. intros o [[_ ->]|(r & Hin & Hp)]; [left; split; [by apply Hall|done]|right; exists r; split; [by apply Hr|done]].
Qed.

Lemma ops_redo off d recs b : (st = PAGER_WRITER_CACHEMOD -> b = false) -> (forall r, r ∈ recs -> r ∈ all_recs all) -> Forall (redo all) (seg_ops off d recs b).
Proof using Hst Hall.
  intros Hb Hr. apply (part_redo off recs); [|done|].
  - intros Es. unfold seg_ops. rewrite (Hb Es), Es, app_nil_r. by destruct (off =? 0).
  - unfold seg_ops. apply Forall_app. split.
    + destruct (Z.eqb_spec off 0) as [->|]; [|done]. destruct (st =? _); [|done]. unfold cut. destruct (_ =? _); [done|]. constructor; [by left|done].
    + destruct b; [|done]. apply Forall_fmap, Forall_forall. intros r Hin. right. exists r. split; [done|apply part_wr].
Qed.

Definition rplayed (off : Z) (rest : list seg) (j : Jrnl) (rc : Z) (j' : Jrnl) : Prop :=
  later j rc (j_io j') /\ rb j' /\ exists ops, j_fd j' = df_dos (j_fd j) ops /\ Forall (redo all) ops /\ (st = PAGER_WRITER_CACHEMOD -> ops = []) /\
    (rc = SQLITE_OK -> restored (all_recs rest ++ s.2) (j_cache j) (j_cache j') /\ pr_dbSize (j_p j') = g_orig /\ ops = seg_ops off (df_data (j_fd j)) (all_recs rest) (st =? PAGER_WRITER_DBMOD)).

Lemma rb_loop rest fuel j off : (length rest + 2 <= fuel)%nat -> rb j -> 0 <= off -> 0 <= pr_journalOff (j_p j) -> align (pr_journalOff (j_p j)) = off -> (off <> 0 -> pr_dbSize (j_p j) = g_orig) -> (off = 0 -> st = PAGER_WRITER_DBMOD -> g_ps * g_orig <= len (df_data (j_fd j))) ->
  Forall jseg_ok rest -> segs_at c off rest -> segs_end off rest = H -> (forall r, r ∈ all_recs rest -> r ∈ all_recs all) -> cur_here ->
  post (playback_loop fuel j false (len c) false) (rplayed off rest j).
Proof using Hst Hall.
  revert fuel j off. induction rest as [|s0 rest IH]; intros fuel j off Hf Hp Hoff Hjo Hal Hdb Hlen Hok Hat Hend Hin Hcur; destruct fuel as [|fuel]; try (cbn in Hf; lia).
  - cbn in Hend. rewrite Hend in *. clear Hend off. destruct (rb_seg fuel j H 0 s.1 s.2 false Hp Hoff Hjo Hal Hdb Hlen (cur_seg Hoff Hcur)) as [(j1 & -> & L1 & Q1 & D1 & O1 & R1 & F1)|(rc & j1 & ops & -> & Hn & L1 & Q1 & F1 & P1 & P2)].
    + destruct fuel as [|fuel]; [cbn in Hf; lia|]. eapply post_mono; [apply (rb_stop fuel j1 Q1); rewrite O1, (ch_end Hcur); unfold seg_end; lia|]. intros rc j2 (-> & Q2 & (T1 & T2 & T3) & T4). split; [by rewrite T4|]. split; [done|]. exists (seg_ops H (df_data (j_fd j)) s.2 false). split; [congruence|]. split; [|split].
      * unfold seg_ops. rewrite app_nil_r. change (Forall (redo all) (if (H =? 0) && (st =? PAGER_WRITER_DBMOD) then cut (df_data (j_fd j)) else [])). rewrite <- (app_nil_r (if (H =? 0) && (st =? PAGER_WRITER_DBMOD) then cut (df_data (j_fd j)) else [])). apply (ops_redo H (df_data (j_fd j)) [] false); [done|]. intros r Hr. by apply elem_of_nil in Hr.
      * intros Es. unfold seg_ops. rewrite Es. by destruct (H =? 0).
      * intros _. rewrite T2. split; [done|]. split; [congruence|]. unfold seg_ops. by destruct (st =? _).
    + apply post_ret. split; [done|]. split; [done|]. exists ops. split; [done|]. split; [|split; [done|done]]. apply (part_redo H []); [done| |done]. intros r Hr. by apply elem_of_nil in Hr.
  - apply Forall_cons in Hok as [Hs0 Hok]. destruct Hat as [Hseg Hat]. cbn [segs_end fold_left] in Hend. change (segs_end (align (seg_end off s0)) rest = H) in Hend. pose proof g_sz_ok as [[S1 S2] _]. pose proof g_ps_ok as [[P1 P2] _]. assert (0 < seg_end off s0) as Hpos by (unfold seg_end; nia). pose proof (align_spec (seg_end off s0) (Z.lt_le_incl _ _ Hpos)) as (A1 & _). assert (align (seg_end off s0) <= H) as HH by (rewrite <- Hend; apply segs_end_ge; lia).
    assert (forall r, r ∈ s0.2 -> r ∈ all_recs all) as Hin0 by (intros r Hr; apply Hin; apply elem_of_app; by left). assert (seg_end off s0 <= H) as Hle by lia.
    destruct (rb_seg fuel j off _ _ _ _ Hp Hoff Hjo Hal Hdb Hlen (synced_seg off s0 Hoff Hle Hs0 Hseg)) as [(j1 & -> & L1 & Q1 & D1 & O1 & R1 & F1)|(rc & j1 & ops & -> & Hn & L1 & Q1 & F1 & T1 & T2)].
    + change (off + g_sz + len s0.2 * (g_ps + 8)) with (seg_end off s0) in O1. eapply post_mono; [apply (IH fuel j1 (align (seg_end off s0))); [cbn in Hf; lia|done|lia|lia|by rewrite O1|done|lia|done|done|done| |done]|].
      * intros r Hr. apply Hin, elem_of_app. by right.
      * intros rc j2 (L2 & Q2 & ops & V1 & V2 & V3 & V4). split; [by eapply later_trans'|]. split; [done|]. eexists. rewrite V1, F1, dos_dos. split; [done|]. split; [|split].
        -- apply Forall_app. split; [|done]. apply ops_redo; [intros Es; by rewrite Es|done].
        -- intros Hs. rewrite V3 by done. rewrite Hs. unfold seg_ops. rewrite Hs. by destruct (off =? 0).
        -- intros Hrc. destruct (V4 Hrc) as (W1 & W2 & W3). split; [|split; [done|]].
           ++ replace (all_recs (s0 :: rest) ++ s.2) with (s0.2 ++ (all_recs rest ++ s.2)) by (unfold all_recs; cbn; by rewrite app_assoc). by eapply restored_app.
           ++ rewrite W3. unfold seg_ops. rewrite (proj2 (Z.eqb_neq (align (seg_end off s0)) 0)) by lia. cbn [andb app]. rewrite <- app_assoc. f_equal. unfold all_recs. cbn. by destruct (st =? _); rewrite ?fmap_app.
    + apply post_ret. split; [done|]. split; [done|]. exists ops. split; [done|]. split; [|split; [done|done]]. apply (part_redo off (if st =? PAGER_WRITER_DBMOD then s0.2 else [])); [done| |done]. intros r Hr. apply Hin0. destruct (st =? _); [done|by apply elem_of_nil in Hr].
Qed.
End Rollback.

(** ** Rolling back *)

Section Undo.
Context {G : Geom} (d0 : list Z) (Hd0 : len d0 = g_ps * g_orig).

(** pager_end_transaction after a rollback *)
Lemma end_rollback j hm : del_mode (j_p j) -> pr_eState (j_p j) <> PAGER_ERROR ->
  post (pager_end_transaction j hm false) (fun rc j' => later j rc (j_io j') /\ j_fd j' = j_fd j /\ (j_jfd j' = j_jfd j \/ j_jfd j' = df_do (j_jfd j) FUnlink) /\ (rc = SQLITE_OK -> pr_jopen (j_p j) = true -> j_jfd j' = df_do (j_jfd j) FUnlink) /\ (pr_jopen (j_p j) = false -> j_jfd j' = j_jfd j) /\
    pr_eState (j_p j') = PAGER_READER /\ pr_errCode (j_p j') = pr_errCode (j_p j) /\ pr_dbSize (j_p j') = pr_dbSize (j_p j) /\ pr_pInJournal (j_p j') = ∅ /\ j_cache j' = filter (fun x => x.1 <= pr_dbSize (j_p j)) (clean_all (j_cache j))).
Proof using.
  clear Hd0. intros [M1 M2] He. unfold pager_end_transaction, finalize_journal, delete_journal. rewrite (proj2 (Z.eqb_neq _ _) He), M1, M2. cbn [negb assert_ mbind option_bind andb orb Z.eqb PAGER_JOURNALMODE_DELETE PAGER_JOURNALMODE_TRUNCATE PAGER_JOURNALMODE_PERSIST].
  destruct (pr_jopen (j_p j)).
  - set (j0 := set_p j (pr_opened (j_p j) false)). destruct (j_call_spec j0) as (rc & ? & -> & io & -> & Hl). cbn [mbind option_bind]. rewrite andb_false_r. cbn [mbind option_bind]. set (j1 := set_cache _ _).
    assert (pc_exclusiveMode (pr_conf (j_p j1)) = false /\ j_fd j1 = j_fd j /\ (j_jfd j1 = if rc =? SQLITE_OK then df_do (j_jfd j) FUnlink else j_jfd j) /\ later j rc (j_io j1) /\ pr_errCode (j_p j1) = pr_errCode (j_p j) /\ pr_dbSize (j_p j1) = pr_dbSize (j_p j) /\ pr_pInJournal (j_p j1) = ∅ /\ j_cache j1 = filter (fun x => x.1 <= pr_dbSize (j_p j)) (clean_all (j_cache j))) as (Ex & A1 & A2 & A3 & A4 & A5 & A6 & A7) by (unfold j1; by destruct (rc =? SQLITE_OK)).
    clearbody j1. rewrite Ex. cbn [negb]. destruct (j_call_spec j1) as (rc2 & ? & -> & io2 & -> & Hl2). cbn [mbind option_bind]. apply post_ret. split; [|split; [done|]; split; [cbn; rewrite A2; destruct (rc =? SQLITE_OK); auto|]; split; [|done]].
    + cbn. destruct (rc =? SQLITE_OK); [by apply (later_trans' j j1 (with_io j1 io2) rc)|]. destruct A3 as [Ha Hb], Hl2 as [Hc _]. split; [by etransitivity|done].
    + cbn. rewrite A2. destruct (Z.eqb_spec rc SQLITE_OK); done.
  - cbn [mbind option_bind]. rewrite andb_false_r. cbn [mbind option_bind]. set (j1 := set_cache _ _). assert (pc_exclusiveMode (pr_conf (j_p j1)) = false) as -> by done. cbn [negb]. destruct (j_call_spec j1) as (rc2 & ? & -> & io2 & -> & Hl2). cbn [mbind option_bind Z.eqb SQLITE_OK]. apply post_ret. split; [done|]. split; [done|]. split; [by left|]. done.
Qed.

(** The state after a rollback *)
Record undone (j : Jrnl) : Prop := mkUndone {
  un_fd : j_fd j = mkDFile d0 [];
  un_state : pr_eState (j_p j) = PAGER_READER;
  un_size : pr_dbSize (j_p j) = g_orig;
  un_inj : pr_pInJournal (j_p j) = ∅;
  un_cache : forall p g, j_cache j !! p = Some g -> ph_dirty g = false /\ ph_data g = old_view d0 p }.

Definition undoes (j : Jrnl) (rc : Z) (j' : Jrnl) : Prop := later j rc (j_io j') /\ safe d0 j' /\ (rc = SQLITE_OK -> undone j').

(** The cache after the playback of all records *)
Lemma cache_undone segs s v j c1 p g : inv d0 Active segs s v j -> restored (all_recs segs ++ s.2) (j_cache j) c1 -> filter (fun x => x.1 <= g_orig) (clean_all c1) !! p = Some g -> ph_dirty g = false /\ ph_data g = old_view d0 p.
Proof using.
  clear Hd0. intros Hi Hr Hg. apply map_lookup_filter_Some in Hg as [Hg Hp]. cbn in Hp. unfold clean_all in Hg. apply lookup_fmap_Some in Hg as (g1 & <- & Hg1). assert (ph_dirty (make_clean g1) = false /\ ph_data (make_clean g1) = ph_data g1) as [-> ->] by (unfold make_clean; by destruct (ph_dirty g1) eqn:Hd). split; [done|].
  specialize (Hr p). rewrite Hg1 in Hr. destruct (j_cache j !! p) as [g0|] eqn:Hg0; [|done]. destruct Hr as [R1 R2]. destruct (decide (p ∈ (all_recs segs ++ s.2).*1)) as [Hin|Hin].
  - destruct (R1 Hin) as [_ Hrec]. pose proof (i_mode _ _ _ _ _ _ Hi) as [_ Ha]. assert (Forall (old_rec d0) (all_recs segs ++ s.2)) as Ho by (apply Forall_app; split; [apply old_recs, (mode_safe d0 Active segs s j), Hi|apply Ha]). rewrite Forall_forall in Ho. by destruct (Ho _ Hrec).
  - rewrite (R2 Hin). apply (co_clean _ _ _ _ (i_cache _ _ _ _ _ _ Hi) p g0 Hg0 Hp). intros Hx. by apply (i_inj _ _ _ _ _ _ Hi) in Hx.
Qed.

Lemma segs_len segs off : 0 <= off -> off + len segs <= segs_end off segs.
Proof using.
  clear Hd0. revert off. induction segs as [|s segs IH]; intros off Ho; [cbn; lia|]. pose proof g_sz_ok as [[S1 S2] _]. pose proof g_ps_ok as [[P1 P2] _]. assert (off + 32 <= seg_end off s) as He by (unfold seg_end; nia). assert (0 <= seg_end off s) as H0 by lia. pose proof (align_spec _ H0) as (A1 & _). assert (0 <= align (seg_end off s)) as H1 by lia. specialize (IH _ H1). cbn [length]. change (segs_end off (s :: segs)) with (segs_end (align (seg_end off s)) segs). lia.
Qed.

(** The journal of a transaction as the playback finds it *)
Lemma active_journal segs s v j : inv d0 Active segs s v j -> g_clean = true ->
  rb (j_jfd j) (pr_eState (j_p j)) (segs_end 0 segs) j /\ cur_here (j_jfd j) (segs_end 0 segs) s /\ segs_at (df_data (j_jfd j)) 0 segs /\ Forall jseg_ok segs.
Proof using.
  clear Hd0. intros Hi Hcl. pose proof Hi as [H1 _ H3 _ [_ [A1 A2 A3 A4 A5 A6 A7 A8]] _ _ _ _ _]. pose proof A1 as [J1 J2 J3 J4 J5]. pose proof g_sz_ok as [[S1 S2] _]. pose proof g_ps_ok as [[P1 P2] _]. pose proof g_orig_ok as [O1 O2]. destruct H1. specialize (A8 Hcl). rewrite A4 in A8. assert (segs_end 0 segs + g_sz <= seg_end (segs_end 0 segs) s) as He by (unfold seg_end; nia). split; [by split|]. split; [|split].
  - split; [|apply J2|done|lia]. unfold hdr_rest in J3. change (replicate 12 0) with (replicate 8 0 ++ sqlite3Put4byte 0) in J3. rewrite !has_app, !length_app, !put4_len, length_replicate in J3. replace (segs_end 0 segs + Z.of_nat (8 + 4)) with (segs_end 0 segs + 12) in J3 by lia. replace (segs_end 0 segs + Z.of_nat 8) with (segs_end 0 segs + 8) in J3 by lia. replace (segs_end 0 segs + 12 + Z.of_nat 4) with (segs_end 0 segs + 16) in J3 by lia. replace (segs_end 0 segs + 16 + Z.of_nat 4) with (segs_end 0 segs + 20) in J3 by lia. replace (segs_end 0 segs + 20 + Z.of_nat 4) with (segs_end 0 segs + 24) in J3 by lia.
    destruct J3 as ((_ & K1) & K2 & K3 & K4 & K5). destruct J2 as [(L1 & _) _]. split; [lia|done|split; [done|lia]|split; [done|lia]|done|done].
  - apply (always_data _ _ (jsafe_always d0 segs _ J1)).
  - by apply (old_ok d0), J1.
Qed.

Lemma active_mode segs s v j : inv d0 Active segs s v j -> (pr_eState (j_p j) = PAGER_WRITER_CACHEMOD \/ pr_eState (j_p j) = PAGER_WRITER_DBMOD) /\ (pr_eState (j_p j) = PAGER_WRITER_DBMOD -> segs <> []) /\ (pr_eState (j_p j) = PAGER_WRITER_CACHEMOD -> segs = []).
Proof using. clear Hd0. intros Hi. destruct (i_mode _ _ _ _ _ _ Hi) as [-> _]. case_decide as Hs; (split; [by auto|]); done. Qed.

Lemma main_undo segs s v j (F := j_jfd j) (st := pr_eState (j_p j)) : inv d0 Active segs s v j -> g_clean = true -> no_master (df_data F) -> post (pager_playback_main j false) (rplayed F st (segs_end 0 segs) segs s 0 segs j).
Proof using.
  clear Hd0. intros Hi Hcl Hm. destruct (active_journal segs s v j Hi Hcl) as (Hrb & Hcur & Hat & Hok). destruct (active_mode segs s v j Hi) as (Hst & Hall & _). fold F st in Hrb, Hcur, Hat, Hst, Hall. unfold pager_playback_main.
  assert (forall rc io, later j rc io -> rc <> SQLITE_OK -> rplayed F st (segs_end 0 segs) segs s 0 segs j rc (with_io j io)) as Hbad.
  { intros rc io Hl Hn. split; [done|]. split; [by eapply rb_io|]. exists []. rewrite dos_nil. done. }
  eapply post_then; [apply j_call_spec| |intros rc j' Hn (io & -> & Hl); by apply Hbad]. intros ? (io & -> & Hl). pose proof (rb_io _ _ _ _ _ _ Hrb Hl) as Hp1. destruct (read_master (with_io j io)) as (rc & io2 & -> & Hl2); [exact Hm|]. pose proof (rb_io _ _ _ _ _ _ Hp1 Hl2) as Hp2. eapply (later_trans' j (with_io j io) (with_io j io2)) in Hl2; [|exact Hl]. change (with_io (with_io j io) io2) with (with_io j io2) in *.
  cbn [mbind option_bind]. destruct (Z.eqb_spec rc SQLITE_OK) as [->|Hn]; cbn [negb andb]; [|by apply post_ret, Hbad]. unfold jthen. cbn [mbind option_bind Z.eqb SQLITE_OK]. change (j_jfd (with_io j io)) with F. change (j_jfd (with_io j io2)) with F.
  eapply post_mono; [eapply (rb_loop F st (segs_end 0 segs) Hst segs s Hall segs); [|by apply rb_pos|done|done|done|done| |done|done|done|done|done]|].
  - pose proof (segs_len segs 0 (Z.le_refl 0)). pose proof g_sz_ok as [[S1 S2] _]. pose proof (ha_end _ _ _ _ _ (ch_hdr _ _ _ Hcur)). lia.
  - intros _ _. cbn. pose proof (i_file _ _ _ _ _ _ Hi) as [F1 _ _ _]. apply (always_data _ _ F1).
  - intros rc j' (L & Q & ops & K1 & K2 & K3 & K4). split; [by eapply (later_trans' j (with_io j io2))|]. split; [done|]. by exists ops.
Qed.

Lemma playback_undo segs s v j : inv d0 Active segs s v j -> g_clean = true -> no_master (df_data (j_jfd j)) -> post (pager_playback j false) (undoes j).
Proof using Hd0.
  intros Hi Hcl Hm. set (F := j_jfd j) in *. set (st := pr_eState (j_p j)). destruct (active_mode segs s v j Hi) as (Hst & Hall & Hnil). fold st in Hst, Hall, Hnil. pose proof (i_file _ _ _ _ _ _ Hi) as [F1 F2 _ _]. assert (jsafe d0 segs F) as Hjs by (apply (mode_safe d0 Active segs s j), Hi). destruct (old_recs d0 segs (js_old _ _ _ Hjs)) as [_ Hrec].
  assert (forall j', j_jfd j' = F -> (j_fd j' = mkDFile d0 [] \/ exists ops, j_fd j' = df_dos (j_fd j) ops /\ Forall (redo segs) ops /\ (st = PAGER_WRITER_CACHEMOD -> ops = [])) -> safe d0 j') as Hsafe.
  { intros j' E1 E2. apply (safe_of d0 segs); [rewrite E1; by apply jsafe_weaken|..].
    - destruct E2 as [->|(ops & -> & E2 & _)]; [by apply always_synced, near_refl|]. by apply redos_always.
    - intros Hs. destruct E2 as [->|(ops & -> & _ & E2)]; [done|]. rewrite E2, dos_nil; [by apply F2|]. destruct Hst as [|Hd]; [done|]. by destruct (Hall Hd). }
  unfold pager_playback. eapply post_bind; [by apply (main_undo segs s v)|]. fold F st. intros rc j1 (L1 & Q1 & ops & O1 & O2 & O3 & O4). cbn beta iota. set (j1' := set_p j1 _). assert (rb F st (segs_end 0 segs) j1' /\ j_fd j1' = df_dos (j_fd j) ops /\ j_cache j1' = j_cache j1 /\ pr_dbSize (j_p j1') = pr_dbSize (j_p j1) /\ later j rc (j_io j1')) as (R1 & D1 & C1 & Z1 & L1') by (split; [destruct Q1; by split|done]). clearbody j1'.
  eapply (post_bind _ _ (undoes j)).
  2:{ intros rc' j' (U1 & U2 & U3). apply post_ret. split; [done|]. split; [done|]. intros Hrc. destruct (U3 Hrc). by split. }
  destruct (Z.eqb_spec rc SQLITE_OK) as [->|Hn]; [|apply post_ret; split; [done|]; split; [apply Hsafe; [apply R1|right; by exists ops]|done]]. destruct (O4 eq_refl) as (P1 & P2 & P3).
  destruct (read_master j1') as (rc & io & -> & Hl); [by rewrite (rb_jfd _ _ _ _ R1)|]. pose proof (rb_io _ _ _ _ _ _ R1 Hl) as R2. eapply (later_trans' j j1' (with_io j1' io)) in Hl; [|exact L1']. cbn [mbind option_bind]. unfold jthen at 1. cbn [mbind option_bind]. destruct (Z.eqb_spec rc SQLITE_OK) as [->|Hn]; [|apply post_ret; split; [done|]; split; [apply Hsafe; [apply R2|right; by exists ops]|done]].
  eapply (post_then _ _ (fun rc j2 => later j rc (j_io j2) /\ rb F st (segs_end 0 segs) j2 /\ j_cache j2 = j_cache j1 /\ pr_dbSize (j_p j2) = pr_dbSize (j_p j1) /\ (j_fd j2 = df_dos (j_fd j) ops \/ j_fd j2 = mkDFile d0 []) /\ (rc = SQLITE_OK -> j_fd j2 = mkDFile d0 []))).
  - rewrite (rb_st _ _ _ _ R2). destruct Hst as [Es|Es]; rewrite Es.
    + change ((PAGER_WRITER_DBMOD <=? PAGER_WRITER_CACHEMOD) || (PAGER_WRITER_CACHEMOD =? PAGER_OPEN)) with false. cbn iota. apply post_ret. split; [done|]. rewrite <- Es. split; [done|]. split; [done|]. split; [done|]. assert (j_fd (with_io j1' io) = mkDFile d0 []) as Ef by (cbn; rewrite D1, (O3 Es), dos_nil; by apply F2, Hnil). split; [by right|done].
    + change ((PAGER_WRITER_DBMOD <=? PAGER_WRITER_DBMOD) || (PAGER_WRITER_DBMOD =? PAGER_OPEN)) with true. cbn iota. rewrite <- Es. unfold sqlite3PagerSync. destruct (j_call_spec (with_io j1' io)) as (rc & ? & -> & io2 & -> & Hl2). cbn [mbind option_bind]. pose proof (rb_io _ _ _ _ _ _ R2 Hl2) as R3. eapply (later_trans' j (with_io j1' io) (with_io j1' io2)) in Hl2; [|exact Hl].
      change (with_io (with_io j1' io) io2) with (with_io j1' io2) in *. destruct ((rc =? SQLITE_OK) || (rc =? SQLITE_NOTFOUND)) eqn:Hr; [|apply post_ret; split; [done|]; split; [done|]; split; [done|]; split; [done|]; split; [by left|by intros ->]].
      rewrite (rb_ns _ _ _ _ R3). unfold j_sync_db. destruct (j_next_spec (with_io j1' io2)) as (rc2 & n & io3 & -> & Hl3). apply post_ret. pose proof (rb_io _ _ _ _ _ _ R3 Hl3) as R4. eapply (later_trans' j (with_io j1' io2) (with_io j1' io3)) in Hl3; [|exact Hl2]. change (with_io (with_io j1' io2) io3) with (with_io j1' io3) in *. split; [by destruct (rc2 =? SQLITE_OK)|]. split; [destruct (rc2 =? SQLITE_OK); [destruct R4; by split|done]|]. split; [by destruct (rc2 =? SQLITE_OK)|]. split; [by destruct (rc2 =? SQLITE_OK)|].
      destruct (Z.eqb_spec rc2 SQLITE_OK) as [->|Hn]; cbn; [|split; [by left|done]]. assert (df_sync (j_fd j1') = mkDFile d0 []) as Ef; [|split; [by right|done]]. unfold df_sync. f_equal. rewrite D1, data_dos, P3. unfold seg_ops. rewrite Es. cbn [Z.eqb andb PAGER_WRITER_DBMOD Pos.eqb]. specialize (Hall Es). replace (cut (df_data (j_fd j)) ++ (wr <$> all_recs segs)) with (redo_all (df_data (j_fd j)) segs) by by destruct segs. apply redo_restores; [done|done|done|]. by apply always_data.
  - intros j2 (A1 & A2 & A3 & A4 & A5 & A6). specialize (A6 eq_refl). eapply post_then; [apply end_rollback; [apply A2|rewrite (rb_st _ _ _ _ A2); by destruct Hst as [-> | ->]]| |].
    + intros j3 (B1 & B2 & B3 & B4 & B5 & B6 & B7 & B8 & B9 & B10). apply post_ret. rewrite A6 in B2. split; [by eapply later_trans'|]. specialize (B4 eq_refl (proj2 (rb_del _ _ _ _ A2))). split; [apply (safe_deleted d0 Hd0 j2); [apply Hsafe; [apply A2|by left]|done|done|done]|]. intros _. split; [done|done|congruence|done|]. intros p g Hg. rewrite B10, A4, P2, A3 in Hg. by eapply cache_undone.
    + intros rc j3 Hn (B1 & B2 & B3 & _). rewrite A6 in B2. split; [by eapply later_trans'|]. split; [|done]. destruct B3 as [B3|B3]; [apply Hsafe; [by rewrite B3; apply A2|by left]|apply (safe_deleted d0 Hd0 j2); [apply Hsafe; [apply A2|by left]|done|done|done]].
  - intros rc j2 Hn (A1 & A2 & A3 & A4 & A5 & A6). split; [done|]. split; [|done]. apply Hsafe; [apply A2|]. destruct A5 as [A5|A5]; [right; by exists ops|by left].
Qed.

(** A rollback restores the old content, in the file and in the cache. *)
Lemma rollback_undo m segs s v j : inv d0 m segs s v j -> m <> Final -> g_clean = true -> no_master (df_data (j_jfd j)) -> post (sqlite3PagerRollback j) (undoes j).
Proof using Hd0.
  intros Hi Hfin Hcl Hm. assert (forall rc j', undoes j rc j' -> undoes j rc (pager_error j' rc)) as Herr.
  { intros rc j' (U1 & U2 & U3). unfold pager_error. destruct (_ || _) eqn:Hr; [|done]. split; [done|]. split; [done|]. intros ->. done. }
  unfold sqlite3PagerRollback. destruct m; [| |done].
  - pose proof (i_mode _ _ _ _ _ _ Hi) as (E1 & -> & _ & E3 & [E0 _] & E5). rewrite E1, E0. cbn [Z.eqb Z.leb PAGER_WRITER_LOCKED PAGER_ERROR PAGER_READER Pos.eqb Z.compare Pos.compare Pos.compare_cont negb orb].
    pose proof (i_file _ _ _ _ _ _ Hi) as [F1 F2 F3 [F4 F5]]. specialize (F2 eq_refl). destruct (wrote_holds d0 _ _ _ _ _ Hi) as [Hsz _]; [intros p g Hx Hd; specialize (E5 p g Hx); congruence|]. assert (pr_dbSize (j_p j) = g_orig) as Hdb by (rewrite F2 in F3; change (df_data (mkDFile d0 [])) with d0 in F3; rewrite Hd0 in F3; pose proof g_ps_ok as [[? ?] _]; nia).
    eapply post_bind; [apply end_rollback; [apply (i_conf _ _ _ _ _ _ Hi)|by rewrite E1]|]. intros rc j1 (B1 & B2 & B3 & B4 & B5 & B6 & B7 & B8 & B9 & B10). cbn beta iota. change (PAGER_WRITER_LOCKED <? 2) with false. cbn iota. apply post_ret, Herr. rewrite F2 in B2. split; [done|]. specialize (B5 E0). split.
    + apply (safe_of d0 []); [rewrite B5; by apply jsafe_weaken|rewrite B2; by apply always_synced, near_refl|done].
    + intros _. split; [done|done|congruence|done|]. intros p g Hg. rewrite B10 in Hg. apply map_lookup_filter_Some in Hg as [Hg Hp]. cbn in Hp. unfold clean_all in Hg. apply lookup_fmap_Some in Hg as (g1 & <- & Hg1). specialize (E5 p g1 Hg1). assert (make_clean g1 = g1) as -> by (unfold make_clean; by rewrite E5). split; [done|]. rewrite (co_same _ _ _ _ (i_cache _ _ _ _ _ _ Hi) p g1 Hg1 E5). by rewrite F2.
  - destruct (active_mode segs s v j Hi) as (Hst & _). rewrite (ja_open _ _ _ _ (proj2 (i_mode _ _ _ _ _ _ Hi))). replace (pr_eState (j_p j) =? PAGER_ERROR) with false by (by destruct Hst as [-> | ->]). replace (pr_eState (j_p j) <=? PAGER_READER) with false by (by destruct Hst as [-> | ->]). replace (pr_eState (j_p j) =? PAGER_WRITER_LOCKED) with false by (by destruct Hst as [-> | ->]). cbn [negb orb].
    eapply post_bind; [by apply (playback_undo segs s v)|]. intros rc j1 U. apply post_ret. by apply Herr.
Qed.
End Undo.

(** C8. sqlite3PagerRollback after any reads, writes, spills and drops of a transaction that
    began with an empty journal file or none ([g_clean]; a process in another journal mode
    may leave old records behind, which the playback would try to read) and whose journal
    does not end in what looks like the name of a master journal, with PRAGMA
    synchronous=FULL and journal_mode=DELETE: if it returns SQLITE_OK, as it does if no call
    fails, the database file is the old one, synced, the pager is a reader with the old
    size, and every page of the cache is clean and has its old content; whichever call
    fails, and whatever a crash leaves of the files, recovery can restore the old database. *)
Theorem rollback_restores {G : Geom} (d0 : list Z) (j : Jrnl) (ops : list TOp) : begin_ok d0 j -> Forall top_ok ops -> g_clean = true ->
  post (do_ops j ops) (fun rc j1 => rc = SQLITE_OK -> no_master (df_data (j_jfd j1)) ->
    post (sqlite3PagerRollback j1) (fun rc' j' =>
      (Forall (fun r => r.1 = SQLITE_OK) (j_io j1) -> rc' = SQLITE_OK) /\ (rc' = SQLITE_OK -> undone d0 j') /\
      forall cj cd, crash_of (j_jfd j') cj -> crash_of (j_fd j') cd -> recoverable d0 cj cd)).
Proof.
  intros Hb Hok Hcl. eapply post_mono; [apply (ops_begun d0 j ops); done|]. intros rc j1 [_ Hg] Hrc Hm. destruct (Hg Hrc) as (m & segs & s & Hfin & Hi). eapply post_mono; [exact (rollback_undo d0 (b_len _ _ Hb) m segs s _ j1 Hi Hfin Hcl Hm)|].
  intros rc' j' ([_ Hl] & Hs & Hu). split; [|split; [done|exact Hs]]. intros Hall. destruct Hl as [->|Hin]; [done|]. apply list_elem_of_fmap in Hin as (r & -> & Hr). rewrite Forall_forall in Hall. by apply Hall.
Qed.

Lemma rollback_restores_witness : post (do_ops (w_start []) w_ops) (fun rc j1 => rc = SQLITE_OK /\ df_data (j_fd j1) <> w_db /\ post (sqlite3PagerRollback j1) (fun rc' j' => rc' = SQLITE_OK /\ @undone w_geom w_db j')).
Proof.
  assert (match do_ops (w_start []) w_ops with Some (rc, j1) => (rc =? SQLITE_OK) && bool_decide (no_master (df_data (j_jfd j1))) && negb (bool_decide (df_data (j_fd j1) = w_db)) && bool_decide (j_io j1 = []) | None => false end = true) as Hrun by by vm_compute.
  assert (@begin_ok w_geom w_db (w_start [])) as Hb by by apply w_begin. destruct (@rollback_restores w_geom w_db (w_start []) w_ops Hb w_ops_ok eq_refl) as (rc & j1 & E & H). rewrite E in Hrun |- *. apply andb_true_iff in Hrun as [Hrun H4]. apply andb_true_iff in Hrun as [Hrun H3]. apply andb_true_iff in Hrun as [H1 H2]. apply Z.eqb_eq in H1. apply bool_decide_eq_true in H2, H4. apply negb_true_iff, bool_decide_eq_false in H3.
  apply post_ret. split; [exact H1|]. split; [exact H3|]. destruct (H H1 H2) as (rc' & j' & E2 & R1 & R2 & _). assert (rc' = SQLITE_OK) as Hrc by (apply R1; rewrite H4; constructor). exists rc', j'. split; [exact E2|]. split; [exact Hrc|]. exact (R2 Hrc).
Defined.
