(* ===== verification/PagerSector.v ===== *)
(** * PagerSector: hot journals written with another sector size (pager.c)

    readJournalHdr compares the size of the journal with the sector size of the pager that
    reads it, before it takes the sector size of the journal from its first header. *)
From S2P Require Import Prelude Varint Record Page PageLayout PageCells Wal WalLog WalSpec UnixLock WalCkpt WalFile Journal PagerTxn JournalFile JournalPlay JournalReplay JournalRestore JournalWrite JournalSync PagerInv PagerWrite PagerCommit PagerAtomic.

(** A pager that has just opened the files, on a system on which no call fails *)
Record opened (cj cd : list Z) (j : Jrnl) : Prop := mkOpened {
  op_jfd : j_jfd j = mkDFile cj [];
  op_fd : j_fd j = mkDFile cd [];
  op_open : pr_eState (j_p j) = PAGER_OPEN;
  op_sz : 0 < pr_sectorSize (j_p j);
  op_ps : 0 < pr_pageSize (j_p j);
  op_ns : pc_noSync (pr_conf (j_p j)) = false;
  op_del : del_mode (j_p j);
  op_io : j_io j = [] }.

Lemma opened_call cj cd j : opened cj cd j -> j_call j = Some (SQLITE_OK, j).
Proof. intros Ho. unfold j_call, j_next. by rewrite (op_io _ _ _ Ho). Qed.

Lemma opened_next cj cd j : opened cj cd j -> j_next j = (SQLITE_OK, 0, j).
Proof. intros Ho. unfold j_next. by rewrite (op_io _ _ _ Ho). Qed.

Lemma opened_master cj cd j : opened cj cd j -> no_master cj -> readMasterJournal j = Some (SQLITE_OK, [], j).
Proof.
  intros Ho Hm. destruct (read_master j) as (rc & io & E & Hs & Hrc); [by rewrite (op_jfd _ _ _ Ho)|]. rewrite E. rewrite (op_io _ _ _ Ho) in Hs, Hrc. assert (rc = SQLITE_OK) as -> by (destruct Hrc as [|Hx]; [done|by apply elem_of_nil in Hx]). apply suffix_nil_inv in Hs as ->. repeat f_equal. destruct j, Ho. cbn in *. by subst.
Qed.

Lemma jthen_ok j f : jthen (Some (SQLITE_OK, j)) f = f j.
Proof. done. Qed.

(** The header is not read. *)
Lemma opened_hdr cj cd j : opened cj cd j -> pr_journalOff (j_p j) = 0 -> len cj < pr_sectorSize (j_p j) -> exists j', readJournalHdr j true (len cj) = Some (SQLITE_DONE, j', 0, 0) /\ opened cj cd j' /\ pr_jopen (j_p j') = pr_jopen (j_p j).
Proof.
  intros Ho H0 Hs. unfold readJournalHdr, journalHdrOffset, JOURNAL_HDR_SZ. rewrite H0. cbn [Z.eqb negb]. pose proof (op_sz _ _ _ Ho). rewrite Z.mod_0_l by lia. cbn [assert_ mbind option_bind Z.eqb Z.leb]. change (0 <=? 0) with true. replace (0 - 0 <? pr_sectorSize (j_p j)) with true by (symmetry; apply Z.ltb_lt; lia). cbn [assert_ mbind option_bind j_p set_p pr_pos pr_sectorSize].
  rewrite Z.add_0_l. replace (len cj <? pr_sectorSize (j_p j)) with true by (symmetry; by apply Z.ltb_lt). eexists. split; [done|]. split; [destruct Ho; by split|done].
Qed.

Lemma opened_playback cj cd j : opened cj cd j -> pr_jopen (j_p j) = true -> no_master cj -> len cj < pr_sectorSize (j_p j) -> post (pager_playback j true) (fun rc j' => rc = SQLITE_OK /\ j_jfd j' = df_do (mkDFile cj []) FUnlink /\ j_fd j' = mkDFile cd []).
Proof.
  intros Ho Hjo Hm Hs. unfold pager_playback, pager_playback_main. rewrite (opened_call _ _ _ Ho), jthen_ok. rewrite (opened_master _ _ _ Ho Hm). cbn [mbind option_bind negb andb Z.eqb SQLITE_OK]. rewrite jthen_ok. rewrite (op_jfd _ _ _ Ho). change (df_data (mkDFile cj [])) with cj. cbn [playback_loop].
  set (j1 := set_p j _). assert (opened cj cd j1) as H1 by (destruct Ho; by split). destruct (opened_hdr cj cd j1 H1 eq_refl Hs) as (j2 & -> & H2 & Jo2). cbn [mbind option_bind]. change (negb (SQLITE_DONE =? SQLITE_OK)) with true. change (SQLITE_DONE =? SQLITE_DONE) with true. cbn [mbind option_bind Z.eqb SQLITE_OK].
  set (j3 := set_p j2 _). assert (opened cj cd j3 /\ pr_jopen (j_p j3) = true) as [H3 Jo3] by (split; [destruct H2; by split|cbn; by rewrite Jo2]). clearbody j3. rewrite (opened_master _ _ _ H3 Hm). cbn [mbind option_bind]. rewrite jthen_ok. rewrite (op_open _ _ _ H3). change ((PAGER_WRITER_DBMOD <=? PAGER_OPEN) || (PAGER_OPEN =? PAGER_OPEN)) with true. cbn iota.
  unfold sqlite3PagerSync. rewrite (opened_call _ _ _ H3). cbn [mbind option_bind Z.eqb SQLITE_OK orb]. rewrite (op_ns _ _ _ H3). unfold j_sync_db. rewrite (opened_next _ _ _ H3). cbn [Z.eqb SQLITE_OK]. rewrite jthen_ok. rewrite (op_fd _ _ _ H3). change (df_sync (mkDFile cd [])) with (mkDFile cd []).
  set (j4 := set_fd j3 _). assert (opened cj cd j4 /\ pr_jopen (j_p j4) = true) as [H4 Jo4] by (split; [destruct H3; by split|done]). clearbody j4. destruct (op_del _ _ _ H4) as [M1 M2]. unfold pager_end_transaction, finalize_journal, delete_journal. rewrite (op_open _ _ _ H4), Jo4, M1, M2. cbn [negb assert_ mbind option_bind andb orb Z.eqb PAGER_OPEN PAGER_ERROR PAGER_JOURNALMODE_DELETE PAGER_JOURNALMODE_TRUNCATE PAGER_JOURNALMODE_PERSIST].
  unfold j_call, j_next. cbn [j_io set_cache set_p set_jfd]. rewrite (op_io _ _ _ H4). cbn [mbind option_bind Z.eqb SQLITE_OK andb j_io set_cache set_p set_jfd j_p pr_rec pr_conf pr_opened]. rewrite M2. cbn [negb mbind option_bind]. rewrite ?(op_io _ _ _ H4). cbn [mbind option_bind]. rewrite jthen_ok. cbn [mbind option_bind]. apply post_ret. split; [done|]. split; [cbn; by rewrite (op_jfd _ _ _ H4)|]. cbn. apply H4.
Qed.

(** C34. A hot journal that is smaller than the sector size of the pager that finds it is
    not played back, whatever it holds: the recovery returns SQLITE_OK, leaves the database
    file as the crash left it and deletes the journal.  A comment in readJournalHdr says
    that the journal may have been written by a process with another sector size, and that
    the value of the journal is then used. *)
Theorem short_journal_lost (cj cd : list Z) (j : Jrnl) : opened cj cd j -> cd <> [] -> db_byte cj 0 <> 0 -> no_master cj -> len cj < pr_sectorSize (j_p j) ->
  post (roll_back_hot j) (fun rc j' => rc = SQLITE_OK /\ j_jfd j' = df_do (mkDFile cj []) FUnlink /\ j_fd j' = mkDFile cd []).
Proof.
  intros Ho Hcd Hb Hm Hs. unfold roll_back_hot, hasHotJournal, pagerPagecount, jthen. rewrite !(opened_call _ _ _ Ho). cbn [mbind option_bind Z.eqb SQLITE_OK]. rewrite !(opened_call _ _ _ Ho). cbn [mbind option_bind Z.eqb SQLITE_OK negb]. rewrite !(opened_call _ _ _ Ho). cbn [mbind option_bind Z.eqb SQLITE_OK negb].
  rewrite (op_fd _ _ _ Ho). change (df_data (mkDFile cd [])) with cd. pose proof (op_ps _ _ _ Ho). set (n := (_ + _ - 1) / _). assert (1 <= n) as Hn. { apply Z.div_le_lower_bound; [lia|]. destruct cd; [done|]. cbn [length]. lia. }
  rewrite (proj2 (Z.eqb_neq n 0)) by lia. set (j1 := if _ <? n then _ else j). assert (opened cj cd j1 /\ pr_sectorSize (j_p j1) = pr_sectorSize (j_p j)) as [H1 Hs1] by (unfold j1; destruct (_ <? n); [|done]; destruct Ho; by split). clearbody j1. rewrite <- Hs1 in Hs. rewrite (opened_call _ _ _ H1). cbn [mbind option_bind Z.eqb SQLITE_OK].
  unfold j_read, j_os_read. rewrite (opened_next _ _ _ H1). cbn [Z.ltb Z.eqb SQLITE_OK orb]. change (0 <? 0) with false. cbn iota. rewrite (op_jfd _ _ _ H1). change (df_data (mkDFile cj [])) with cj. replace (if (if 0 + 1 <=? len cj then SQLITE_OK else SQLITE_IOERR_SHORT_READ) =? SQLITE_IOERR_SHORT_READ then SQLITE_OK else if 0 + 1 <=? len cj then SQLITE_OK else SQLITE_IOERR_SHORT_READ) with SQLITE_OK by (by destruct (0 + 1 <=? _)).
  change (default 0 (aget (f_read cj 1 0) 0)) with (db_byte cj 0). rewrite (proj2 (Z.eqb_neq (db_byte cj 0) 0)) by done. cbn [mbind option_bind Z.eqb SQLITE_OK negb andb orb]. rewrite !(opened_call _ _ _ H1). cbn [mbind option_bind Z.eqb SQLITE_OK]. rewrite !(opened_call _ _ _ H1). cbn [mbind option_bind Z.eqb SQLITE_OK]. rewrite !(opened_call _ _ _ H1). cbn [mbind option_bind Z.eqb SQLITE_OK].
  set (j0 := set_p j1 _). assert (opened cj cd j0 /\ pr_jopen (j_p j0) = true) as [H0 Jo] by (split; [destruct H1; by split|done]). unfold pagerSyncHotJournal, jthen. rewrite (op_ns _ _ _ H0). unfold j_sync. rewrite (opened_next _ _ _ H0). cbn [mbind option_bind Z.eqb SQLITE_OK]. set (j2 := set_jfd j0 _). assert (opened cj cd j2) as H2 by (destruct H0; split; try done; unfold j2; cbn in *; by rewrite op_jfd0). rewrite (opened_call _ _ _ H2). cbn [mbind option_bind Z.eqb SQLITE_OK].
  set (j3 := set_p j2 _). assert (opened cj cd j3) as H3 by (destruct H2; by split). destruct (opened_playback cj cd j3 H3 Jo Hm Hs) as (rc & j4 & -> & -> & E1 & E2). cbn [mbind option_bind]. apply post_ret. by split.
Qed.

(** A page is spilled by a pager with sectors of 512 bytes; one with 4096 recovers. *)
Definition s_pager (st sz : Z) : Pager := mkPager st SQLITE_OK false 3 3 3 0 0 0 0 sz 512 0 (replicate 16 0) ∅ false (mkPagerConf false true 0 1000000 512 true sz PAGER_JOURNALMODE_DELETE false (-1)).
Definition s_open (cj cd : list Z) : Jrnl := mkJrnl (s_pager PAGER_OPEN 4096) (mkDFile cj []) (mkDFile cd []) ∅ [].
Definition s_spill : option (Z * Jrnl) := do_ops (mkJrnl (s_pager PAGER_WRITER_LOCKED 512) (mkDFile [] []) (mkDFile w_db []) ∅ []) [TWrite 2 (w_page 22); TSpill 2].

Lemma short_journal_lost_witness : post s_spill (fun rc j => rc = SQLITE_OK /\ df_data (j_fd j) = w_page 1 ++ w_page 22 ++ w_page 3 /\
  post (roll_back_hot (s_open (df_data (j_jfd j)) (df_data (j_fd j)))) (fun rc' j' => rc' = SQLITE_OK /\ j_fd j' = mkDFile (w_page 1 ++ w_page 22 ++ w_page 3) [] /\ df_data (j_jfd j') = [])).
Proof.
  assert (match s_spill with Some (rc, j) => (rc =? SQLITE_OK) && bool_decide (df_data (j_fd j) = w_page 1 ++ w_page 22 ++ w_page 3) && bool_decide (no_master (df_data (j_jfd j))) && negb (db_byte (df_data (j_jfd j)) 0 =? 0) && (len (df_data (j_jfd j)) <? 4096) | None => false end = true) as Hrun by by vm_compute.
  destruct s_spill as [[rc j]|]; [|done]. apply andb_true_iff in Hrun as [Hrun H5]. apply andb_true_iff in Hrun as [Hrun H4]. apply andb_true_iff in Hrun as [Hrun H3]. apply andb_true_iff in Hrun as [H1 H2]. apply Z.eqb_eq in H1. apply bool_decide_eq_true in H2, H3. apply negb_true_iff, Z.eqb_neq in H4. apply Z.ltb_lt in H5.
  apply post_ret. split; [exact H1|]. split; [exact H2|]. rewrite H2. destruct (short_journal_lost (df_data (j_jfd j)) (w_page 1 ++ w_page 22 ++ w_page 3) (s_open (df_data (j_jfd j)) (w_page 1 ++ w_page 22 ++ w_page 3))) as (rc' & j' & -> & -> & E1 & E2); [by split|discriminate|done..|]. apply post_ret. split; [done|]. split; [done|]. rewrite E1. apply data_do.
Defined.
